(* ===== verification/_CoqProject ===== *)
-Q . S2P
Prelude.v
PyVal.v
Json.v
Abws.v
Awce.v
CryptoContext.v
Wire.v
WireSession.v
Sanitizer.v
InputBudget.v
Sha256.v
WawDomain.v
Recovery.v
Lease.v
RateLimit.v
Jobs.v
Pty.v
Conflicts.v
WebSocket.v
NoiseNx.v
Stream.v
Tickets.v
Crash.v
Epoch.v
Interact.v
Supervisor.v
SupervisorSpec.v
Bridge.v
Unicode.v
Control.v
Canonical.v
NoiseContract.v
Cgroup.v
Folder.v
Floors.v
CgroupStore.v
BindingStore.v
BindingHeads.v
BindingCommit.v
Verifier.v
Registry.v
RegistrySpec.v
Tables.v
Bindings.v
BindingsSpec.v
Replay.v
Workspaces.v
WorkspacesSpec.v
Ledger.v
Lifecycle.v
LifecycleSpec.v
LifecycleAnswers.v
