(* ===== verification/Prelude.v ===== *)
(** * AgentBox: a verification library for the workspace transport and control plane

    AgentBox runs coding agents in managed terminal workspaces.  A browser talks
    to the API over a WebSocket; the API relays to a Runtime host over a local
    socket; the terminal bytes themselves are encrypted between browser and
    Runtime.  This library models the Python code that carries the rules of that
    path and of the control plane beside it, and proves what the code promises.

    ** The program and the files of the library

    - [PyVal.v], [Json.v], [Sha256.v] model what the code uses of Python: values
      and string-keyed dictionaries, UTF-8, the [json] module with its hooks,
      SHA-256, HMAC and hexadecimal digests.  [Prelude.v] (this file) has the
      exception classes with their hierarchy, the error monad, bytes and
      big-endian integers, text, the [throws] clauses and the shared tactics.
    - [Abws.v]: [agentbox_protocol/abws.py], the framing of every hop.
      [encode_frame], [decode_frame], [iter_frames] and the incremental
      [ABWSParser] with its strict control JSON.
    - [Awce.v]: [awce.py], the encrypted terminal envelope.
    - [CryptoContext.v]: [waw_crypto_context.py], the admission tuple and the
      context both ends derive from it; [rfc8785.dumps] is a parameter.
    - [Wire.v]: the closed message profiles of [waw_wire.py] and its frame codec
      with exact numbers.  [WireSession.v]: the [WireSession] of the same file,
      the validator of the whole two-hop conversation, as a state and the
      operations [accept] and [close].
    - [Sanitizer.v]: [waw_terminal_sanitizer.py], which makes terminal output
      safe to show.
    - [InputBudget.v]: [agentbox_api/waw_input_budget.py], the ledger of encoded
      input bytes; tokens are mutable objects, so they live in a heap.
    - [WawDomain.v]: [agentbox_core/waw.py], identifiers, the workspace
      lifecycle, generations, writer leases, stop operations.
    - [Recovery.v]: [waw_recovery.py], who may resume what.
    - [Lease.v]: [waw_lease.py], the fence that keeps the writer slot until its
      cleanup is proved.
    - [Tickets.v]: [waw_tickets.py], the [AttachmentAuthority]: single-use
      tickets, one writer slot per workspace, staged admission, revocation and
      shutdown.  Its abstract specification is a slot machine per workspace.
    - [RateLimit.v]: [rate_limit.py] and [security.keyed_digest].
    - [Jobs.v]: [jobs.py], the durable job queue, and what [RetentionService.cleanup]
      of [services.py] and the discarding of a Project do to its tables.
    - [WebSocket.v]: [waw_websocket_contract.py] and [waw_websocket_parser.py],
      the profile of RFC 6455 the API accepts.
    - [NoiseNx.v]: [noise_nx.py], the Noise NX handshake and its cipher states.
      X25519, AES-GCM and the hash are the class [NoisePrimitives], the facts the
      code relies on the class [NoiseLaws]; the theorems are proved against the
      interface and a small instance shows that it can be met.
    - [NoiseContract.v]: [waw_noise_contract.py], the twelve-message admission
      contract with its replay fence; it calls [rfc8785], like [Canonical.v].
    - [Stream.v]: [abws_stream.py], the pump that numbers and frames one hop, and
      [waw_stream_contract.py], the typed controls of the stream.
    - [Pty.v]: [agentbox_runtime/waw_pty.py] and [waw_redraw.py], the output ring
      that is replayed after a reconnect and the bounded redraw of the screen.
    - [Conflicts.v]: [waw_conflicts.py], which starts may run on one host.
    - [Epoch.v]: [waw_epoch.py], the crash-safe counter of Runtime epochs, over a
      disk with a current and a durable view; every call to the operating system
      can fail or be the last one, and crash specifications compose the calls.
    - [Crash.v]: programs over a disk whose calls can fail or be where the process
      dies, their crash specifications and invariants.  [Folder.v]: a directory
      with a current and a durable view, and the calls that write a file, rename
      it and make it durable.
    - [Interact.v], [Supervisor.v], [SupervisorSpec.v]: [waw_supervisor.py], the
      supervisor of the Runtime's terminals, over ports that can answer anything;
      [Bridge.v]: [waw_stream_bridge.py], the writer of one attachment.
    - [Unicode.v], [Control.v]: [waw_control.py], the control protocol between API
      and Runtime; [Canonical.v]: canonical JSON, with RFC 8785 as an interface.
    - [BindingStore.v], [BindingHeads.v], [BindingCommit.v], [Verifier.v]:
      [waw_project_binding_store.py], the Runtime's durable project bindings and
      the verifier of their directories.
    - [Registry.v], [RegistrySpec.v]: the project inventory of
      [waw_lifecycle.py], with the replay at start and the application gate.
    - [Cgroup.v]: [waw_cgroup_attestation.py], the record of a workspace's cgroups.
      [Floors.v]: [waw_workspace_attestation.py], the generation floors.
      [CgroupStore.v]: [waw_cgroup_attestation_store.py], the attestations of every
      generation.
    - [Lifecycle.v]: the workspace part of [waw_lifecycle.py]: start, stop, status,
      reconciliation, executable evidence, quarantine, recovery and the request
      cache.  [LifecycleSpec.v] and [LifecycleAnswers.v]: what its operations keep
      and what they answer, along histories with restarts and power losses.
    - [Tables.v], [Bindings.v], [BindingsSpec.v], [Replay.v]: [waw_models.py] and
      [waw_project_bindings.py], the API's ledger of project bindings over tables
      with their constraints.  [Workspaces.v], [WorkspacesSpec.v]:
      [waw_sessions.py], the API's workspace sessions and stops.  [Ledger.v]: both
      services over one database.

    [Wire] calls [Abws], [Awce] and [CryptoContext]; [WireSession] calls [Wire];
    [Stream] calls [Abws]; [Recovery], [Tickets] and [Conflicts] call
    [WawDomain]; [Lease] owns identities of [Recovery]; [Jobs] and [RateLimit]
    share the keyed digest.  [Epoch], [BindingStore], [Floors] and [CgroupStore]
    are programs of [Crash].  [Registry] calls [BindingStore], [Verifier] and the
    inventory digest of [Control]; [Lifecycle] calls [Registry], [Floors],
    [CgroupStore] and the context check of [Cgroup].  [Ledger] composes [Bindings]
    and [Workspaces].

    ** What the theorems show

    - Codecs and transport ([abws_decode_encode], [abws_parser_chunking],
      [wire_decode_encode], [parser_accepts_canonical], [control_exchange],
      [attestation_exact]): what is encoded decodes to the same; the incremental
      parser yields the frames of the stream however it is cut; the WebSocket
      parser accepts exactly the canonical frames; control messages arrive as
      sent; bytes decode to an attestation exactly when it encodes to them.
    - The sessions ([admitted_transcript], [session_fail_closed]), for every
      sequence of events: the complete transcript in protocol order before
      admission, and fail-closed rejection.  By induction on the execution, from
      invariants that each accepted event preserves.
    - Noise ([handshake_agrees], [nonces_never_repeat], [handshake_completes],
      [handshake_terminates]): two honest ends agree, the messages that a cipher
      state seals are sealed under different nonces, the admission contract
      terminates and, unless a digest is all zeros, can be completed.
    - Tickets ([authority_refines_slots], [ticket_single_use], [authority_bounded],
      [shutdown_drains]): the four dictionaries refine one slot machine per
      workspace, in which a call moves each slot by one step of its own; a ticket is
      presented once; capacities hold; a shutdown drains by acknowledgements alone.
    - The Runtime's terminals ([ring_replays_stream], [supervisor_lifecycle],
      [pty_calls_authorised], [output_cursors_stable], [bridge_delivers]): the
      output ring refines the stream of what was appended; the supervisor refines
      its lifecycle, calls a terminal only for its owner, in no state of uncertain
      input, and never renumbers output; the bridge delivers every record it accepted in order.
    - The Runtime's stores ([epochs_never_repeat], [store_heads], [commit_durable],
      [commit_decides], [digest_pins], [floors_never_repeat], [groups_in_turn],
      [attestations_progress]), across failing calls, dying processes and, but for
      the attestations, power losses: no epoch and no generation is handed out
      twice; bindings form a linked succession; a digest pins the binding and its
      directory, up to collisions of SHA-256 between the two records themselves;
      attestations only move forward and a generation is recorded only after the one
      before is found empty, durably so when [write] returned it.
    - The inventory ([gate_serves_heads], [finalize_agrees]), as long as no operation
      of the process ended in an [OSError] of its own: an open gate serves exactly the
      heads of the store, and a confirmed digest means that API and Runtime have the
      same rows, or rows that collide under SHA-256.
    - The lifecycle of workspaces ([generations_started_once], [starts_find_empty],
      [responses_accepted], [requests_answered_once]), for every sequence of
      requests, answers of the executor, failing calls, dying processes and power
      losses: no generation is started twice, none beside processes of another one;
      the first response to a request for a workspace is one of the protocol; until
      the caches are cleared a repeated request is answered from the cache, without
      effect.
    - The API's ledger ([binding_chain], [binding_retries], [reconciliation_fences],
      [replay_plan_exact], [sessions_versioned], [restart_fences]): attempts and
      heads form a chain; retries are harmless; a reconciliation or a restart fences
      what depends on it; versions, states and generations only move forward.
    - The rest ([jobs_exclusive], [sanitizer_safe], [budget_accounting]): jobs are
      exclusive and their last events show where they stand, the sanitizer is total, bounded and safe, the budget's accounting
      is exact.

    Theorems of the same files without a number show bounds, error behaviour and
    round trips that support these.

    ** How the code is modelled

    A function that raises returns [result]; a method that changes its object
    gives the new state, also when it raises, where the code keeps the change;
    a database operation is one step, and rolls back when it raises (see
    [Ledger.v] for the operations that read before they take the write lock).
    Python values enter where the code checks their types; data that passed a
    constructor is a record.  Unsigned 64-bit numbers are integers with their
    bounds checked as the code checks them.  Clock readings, random identifiers,
    the CPU clock of the validator, object identities and the choice a query
    leaves to the database are arguments, so that theorems hold for all of them.
    Instants are integers; the code only adds and compares them.  A method that
    runs under a lock is one transition; where threads or tasks interleave
    ([Conflicts], [Stream]) the interleaving is a sequence of such transitions,
    and a call that would wait is a value that says so.

    Fuel: [loads] runs with twice the length of the text plus two, enough since
    each call consumes a character or a level; [sanitize_loop] with the length
    of the input plus one, since each round consumes a byte; that this is enough
    is proved ([loads_throws], and [sanitizer_safe]).  The eviction loop of
    the output ring runs over the frames it holds, and ends with the new one in
    it ([ring_append_returns]).  The read and write loops of the
    stores ([read_loop], [write_view]) run with the length of the data plus two and
    plus one, since each round moves a byte ([read_loop_exact], [write_view_spec]).  [exc_isa] runs with six, above the depth of the hierarchy.

    Simplifications, all towards the same observable result: dictionaries have
    text keys; a float is named by its literal, and [PFloat] also stands for the
    [_NumberToken] of the wire decoder; the interpreter's recursion limit on
    deeply nested JSON coincides with the code's own nesting error, which has
    the same class (and is left out of the small epoch file); sets are visited in the order the source writes them; the
    leg of a frame is a value of the enumeration; [str.casefold] is modelled on
    the characters that fold to ASCII, which is all the code tests; the Unicode
    category table and [redact_text] are arbitrary functions.

    Interfaces: the primitives of Noise, [rfc8785], the Unicode database, the ports
    of the supervisor and the answers of executors, cgroup factories and verifiers
    are classes or arguments; their laws are the documented ones, and an instance
    shows that they can be met.

    ** What is not modelled

    Sockets, processes and cgroups of the Runtime, which answer through the ports;
    of the lifecycle registry the attachments, the peer authority and the shutdown
    tasks; the HTTP routes and the asynchronous relays, which call the code modelled
    here; the database engine (a table is a list or a finite map); approvals, whose
    rules are partly SQL triggers; the A3 content protocol and the encrypted stream;
    third-party cryptography, beyond its laws; installer, command line, browser and
    native code. *)

From Stdlib Require Export ZArith Lia Bool String.
From Stdlib.Strings Require Export Byte.
From stdpp Require Export list gmap strings.

#[export] Set Default Goal Selector "!".

Local Open Scope Z_scope.

(** ** Exceptions

    The classes the modelled code raises or catches, with the class each one
    derives from, so that an [except] clause is a test on classes.
    [FuelExhausted] is the one class Python does not have: a fuelled
    recursion raises it, and each fuelled function has a theorem that the
    fuel its caller gives is never exhausted. *)

Inductive exc_class : Type :=
| PyException
| PyValueError
| PyTypeError
| PyKeyError
| PyIndexError
| PyRuntimeError
| PyOverflowError
| UnicodeDecodeError
| UnicodeEncodeError
| JSONDecodeError
| StructError
| ABWSError
| IncompleteFrame
| TrailingBytes
| AWCEError
| IncompleteAWCE
| TrailingAWCEBytes
| WAWContextError
| WireError
| WAWStreamContractError
| WAWWebSocketContractError
| WAWWebSocketParseError
| NoiseNXError
| WAWNoiseContractError
| WAWDomainError
| RecoveryError
| LeaseCleanupError
| InputBudgetError
| InputBudgetOverflow
| LoginRateLimited
| DatabaseNotReady
| IntegrityError
| WAWPTYError
| WAWRedrawError
| WAWConflictError
| TicketAuthorityError
| PyAssertionError
| PyOSError
| PyTimeoutError
| PyFileNotFoundError
| WAWRuntimeEpochError
| CancelledError
| InvalidTag
| RuntimeOperationError
| WAWControlError
| ProjectBindingError
| ProjectBindingNotFound
| ProjectBindingConflict
| ProjectBindingNotReady
| WorkspaceSessionError
| WorkspaceSessionNotFound
| WorkspaceSessionConflict
| WorkspaceSessionNotReady
| WorkspaceExecutableEvidenceRequired
| WorkspaceStopNotFound
| RuntimeEpochBindingError
| WAWProjectBindingStoreError
| WAWProjectBindingVerifierError
| WAWControlDispatchError
| WAWCgroupAttestationError
| WAWCgroupAttestationStoreError
| WAWWorkspaceAttestationError
| FuelExhausted.

#[export] Instance exc_class_eq_dec : EqDecision exc_class.
Proof. solve_decision. Defined.

(** The direct base class of each exception class; [None] for the roots
    [Exception] and, derived from [BaseException] alone, [CancelledError]. *)
Definition exc_parent (c : exc_class) : option exc_class :=
  match c with
  | PyException | CancelledError => None
  | PyValueError | PyTypeError | PyKeyError | PyIndexError | PyRuntimeError
  | PyOverflowError | StructError | LoginRateLimited | DatabaseNotReady | IntegrityError
  | PyAssertionError | PyOSError | InvalidTag | RuntimeOperationError
  | FuelExhausted => Some PyException
  | UnicodeDecodeError | UnicodeEncodeError | JSONDecodeError => Some PyValueError
  | ABWSError | AWCEError | WAWContextError | WireError
  | WAWWebSocketContractError | WAWNoiseContractError
  | WAWDomainError | RecoveryError | WAWPTYError | WAWRedrawError | WAWControlError
  | WAWCgroupAttestationError => Some PyValueError
  | TicketAuthorityError => Some WAWDomainError
  | PyTimeoutError | PyFileNotFoundError => Some PyOSError
  | IncompleteFrame | TrailingBytes | WAWStreamContractError => Some ABWSError
  | IncompleteAWCE | TrailingAWCEBytes => Some AWCEError
  | WAWWebSocketParseError => Some WAWWebSocketContractError
  | NoiseNXError | LeaseCleanupError | InputBudgetError | WAWConflictError | WAWRuntimeEpochError => Some PyRuntimeError
  | InputBudgetOverflow => Some InputBudgetError
  | ProjectBindingError | WorkspaceSessionError => Some PyRuntimeError
  | WAWProjectBindingStoreError | WAWProjectBindingVerifierError | WAWControlDispatchError
  | WAWCgroupAttestationStoreError | WAWWorkspaceAttestationError => Some PyRuntimeError
  | ProjectBindingNotFound | ProjectBindingConflict | ProjectBindingNotReady => Some ProjectBindingError
  | WorkspaceSessionNotFound | WorkspaceSessionConflict | WorkspaceSessionNotReady | WorkspaceStopNotFound => Some WorkspaceSessionError
  | WorkspaceExecutableEvidenceRequired => Some WorkspaceSessionNotReady
  | RuntimeEpochBindingError => Some WorkspaceSessionConflict
  end.

Fixpoint exc_isa_fuel (fuel : nat) (c base : exc_class) : bool :=
  match fuel with
  | O => false
  | S n => bool_decide (c = base)
           || match exc_parent c with
              | Some p => exc_isa_fuel n p base
              | None => false
              end
  end.

(** [issubclass(c, base)]; the hierarchy is at most five classes deep. *)
Definition exc_isa (c base : exc_class) : bool := exc_isa_fuel 6 c base.

(** A raised exception: its class, the [code] attribute where the class has
    one (the empty string elsewhere) and its message. *)
Record exn : Type := Exn { exn_class : exc_class; exn_code : string; exn_text : string }.

#[export] Instance exn_eq_dec : EqDecision exn.
Proof. solve_decision. Defined.

Definition err (c : exc_class) (text : string) : exn := Exn c EmptyString text.

(** ** The error monad *)

Inductive result (A : Type) : Type :=
| Ok (a : A)
| Raise (e : exn).
Arguments Ok {A} a.
Arguments Raise {A} e.

#[export] Instance result_eq_dec {A} `{EqDecision A} : EqDecision (result A).
Proof. solve_decision. Defined.

Definition rbind {A B} (c : result A) (k : A -> result B) : result B :=
  match c with
  | Ok a => k a
  | Raise e => Raise e
  end.

Definition rmap {A B} (f : A -> B) (c : result A) : result B :=
  rbind c (fun a => Ok (f a)).

(** [if b: raise e] *)
Definition raise_if (b : bool) (e : exn) : result unit :=
  if b then Raise e else Ok tt.

(** [try: c except <classes>: raise e] *)
Definition except_as {A} (c : result A) (classes : list exc_class) (e : exn) : result A :=
  match c with
  | Ok a => Ok a
  | Raise x => if existsb (exc_isa (exn_class x)) classes then Raise e else Raise x
  end.

Definition is_ok {A} (c : result A) : bool :=
  match c with Ok _ => true | Raise _ => false end.

(** The computation raises only exceptions of these classes or of classes
    derived from them; an analogue of a [throws] clause. *)
Definition throws {A} (classes : list exc_class) (c : result A) : Prop :=
  forall e, c = Raise e -> existsb (exc_isa (exn_class e)) classes = true.

(** The computation does not run out of the model's fuel. *)
Definition no_fuel {A} (c : result A) : Prop :=
  forall e, c = Raise e -> exn_class e <> FuelExhausted.

Declare Scope py_scope.
Delimit Scope py_scope with py.

Notation "'let!' x := c 'in' k" := (rbind c (fun x => k))
  (at level 10, x name, c at level 200, k at level 200) : py_scope.
Notation "'let!' ' p := c 'in' k" := (rbind c (fun x => match x with p => k end))
  (at level 10, p pattern, c at level 200, k at level 200) : py_scope.
Notation "'run!' c 'in' k" := (rbind c (fun _ => k))
  (at level 10, c at level 200, k at level 200) : py_scope.

Global Open Scope py_scope.

(** ** Bytes and big-endian integers *)

Abbreviation bytes := (list byte).

#[export] Instance byte_eq_dec : EqDecision byte.
Proof. intros x y. destruct (Byte.eqb x y) eqn:E; [left | right].
  - by apply Byte.byte_dec_bl.
  - intros ->. by rewrite (Byte.byte_dec_lb (eq_refl y)) in E.
Defined.

(** The value of a byte, and the byte of the low eight bits of an integer. *)
Definition b2z (b : byte) : Z := Z.of_N (Byte.to_N b).
Definition z2b (z : Z) : byte :=
  match Byte.of_N (Z.to_N (z mod 256)) with Some b => b | None => x00 end.

(** Python's [len] on bytes, strings and lists. *)
Definition blen {A} (l : list A) : Z := Z.of_nat (length l).

(** [x[lo:hi]] for [0 <= lo], [x[lo:]] and [x[:hi]]. *)
Definition slice {A} (lo hi : Z) (l : list A) : list A :=
  take (Z.to_nat (hi - lo)) (drop (Z.to_nat lo) l).
Definition slice_from {A} (lo : Z) (l : list A) : list A := drop (Z.to_nat lo) l.
Definition slice_to {A} (hi : Z) (l : list A) : list A := take (Z.to_nat hi) l.

(** [x[i]] for [0 <= i]. *)
Definition zget {A} (l : list A) (i : Z) : option A :=
  if i <? 0 then None else l !! Z.to_nat i.

(** [int.to_bytes(n, "big")] without its overflow check, and [int.from_bytes]. *)
Fixpoint be_encode (n : nat) (z : Z) : bytes :=
  match n with
  | O => []
  | S k => be_encode k (z / 256) ++ [z2b z]
  end.

Definition be_decode (l : bytes) : Z :=
  fold_left (fun acc b => acc * 256 + b2z b) l 0.

Definition MAX_U64 : Z := 2 ^ 64 - 1.

(** ** Text

    A Python [str] is its sequence of code points.  Literals are written as
    ASCII strings and injected with [$]. *)

Abbreviation pystr := (list Z).

Definition ustr (s : string) : pystr :=
  map (fun a => Z.of_N (Ascii.N_of_ascii a)) (list_ascii_of_string s).

(** A bytes literal. *)
Definition bstr (s : string) : bytes := list_byte_of_string s.

Notation "$ s" := (ustr s%string) (at level 1, s at level 0) : py_scope.

Fixpoint str_eqb (a b : pystr) : bool :=
  match a, b with
  | [], [] => true
  | x :: a', y :: b' => (x =? y) && str_eqb a' b'
  | _, _ => false
  end.

Definition str_in (s : pystr) (l : list pystr) : bool := existsb (str_eqb s) l.

Definition bytes_eqb (a b : bytes) : bool := bool_decide (a = b).

Definition in_range (lo c hi : Z) : bool := (lo <=? c) && (c <=? hi).

(** Character classes of the patterns the code compiles. *)
Definition is_digit (c : Z) : bool := in_range 48 c 57.
Definition is_nonzero_digit (c : Z) : bool := in_range 49 c 57.
Definition is_lower_hex (c : Z) : bool := is_digit c || in_range 97 c 102.

(** [int(s)] of a string of ASCII digits. *)
Definition digits_value (s : pystr) : Z :=
  fold_left (fun acc c => acc * 10 + (c - 48)) s 0.

(** [re.fullmatch(prefix + r"_[a-f0-9]{32}", s)] *)
Definition match_id (prefix s : pystr) : bool :=
  str_eqb (take (length prefix + 1) s) (prefix ++ $"_")
  && Nat.eqb (length (drop (length prefix + 1) s)) 32
  && forallb is_lower_hex (drop (length prefix + 1) s).

(** [re.fullmatch(r"[a-f0-9]{n}", s)] *)
Definition match_hex (n : nat) (s : pystr) : bool :=
  Nat.eqb (length s) n && forallb is_lower_hex s.

(** [re.fullmatch(r"[1-9][0-9]{0,19}", s)] *)
Definition match_pos_decimal (s : pystr) : bool :=
  match s with
  | [] => false
  | c :: r => is_nonzero_digit c && forallb is_digit r && Nat.leb (length r) 19
  end.

(** [re.fullmatch(r"0|[1-9][0-9]{0,19}", s)] *)
Definition match_decimal (s : pystr) : bool :=
  str_eqb s $"0" || match_pos_decimal s.

(** ** Automation *)

Create HintDb agentbox.
Create Rewrite HintDb pybytes.

Lemma Ok_inj {A} (a b : A) : Ok a = Ok b -> a = b.
Proof. congruence. Qed.

(** Take a successful monadic computation apart, one bind at a time. *)
Ltac inv_ok :=
  repeat match goal with
  | H : Ok _ = Ok _ |- _ => apply Ok_inj in H; try subst
  | H : Raise _ = Ok _ |- _ => discriminate H
  | H : Ok _ = Raise _ |- _ => discriminate H
  | H : Raise _ = Raise _ |- _ => injection H as H; try subst
  | H : rbind (raise_if ?b _) _ = Ok _ |- _ =>
      let E := fresh "G" in destruct b eqn:E; cbn [raise_if rbind] in H; [discriminate H |]
  | H : rbind ?c _ = Ok _ |- _ =>
      let E := fresh "E" in destruct c eqn:E; cbn [rbind] in H; [| discriminate H]
  | H : raise_if ?b _ = Ok _ |- _ =>
      let E := fresh "G" in destruct b eqn:E; cbn [raise_if] in H; [discriminate H | clear H]
  end.

(** Turn boolean tests in the context into propositions. *)
Ltac bool_to_prop :=
  repeat match goal with
  | H : (_ && _) = true |- _ => apply andb_true_iff in H; destruct H
  | H : (_ || _) = false |- _ => apply orb_false_iff in H; destruct H
  | H : negb _ = true |- _ => apply negb_true_iff in H
  | H : negb _ = false |- _ => apply negb_false_iff in H
  | H : (_ <? _) = true |- _ => apply Z.ltb_lt in H
  | H : (_ <? _) = false |- _ => apply Z.ltb_ge in H
  | H : (_ <=? _) = true |- _ => apply Z.leb_le in H
  | H : (_ <=? _) = false |- _ => apply Z.leb_gt in H
  | H : (_ =? _) = true |- _ => apply Z.eqb_eq in H
  | H : (_ =? _) = false |- _ => apply Z.eqb_neq in H
  | H : bool_decide _ = true |- _ => apply bool_decide_eq_true_1 in H
  | H : bool_decide _ = false |- _ => apply bool_decide_eq_false_1 in H
  | H : Nat.eqb _ _ = true |- _ => apply Nat.eqb_eq in H
  | H : Nat.leb _ _ = true |- _ => apply Nat.leb_le in H
  | H : in_range _ _ _ = true |- _ => unfold in_range in H
  end.

(** Split the goal's conditional and close the branch a hypothesis refutes. *)
Ltac case_if :=
  match goal with
  | |- context [if ?b then _ else _] => let E := fresh "E" in destruct b eqn:E
  end.

(** ** Lemmas *)

Lemma b2z_range (b : byte) : 0 <= b2z b < 256.
Proof. unfold b2z. pose proof (Byte.to_N_bounded b). lia. Qed.

Lemma b2z_inj (a b : byte) : b2z a = b2z b -> a = b.
Proof.
  unfold b2z. intros H%N2Z.inj.
  pose proof (Byte.of_to_N a) as Ha. rewrite H, Byte.of_to_N in Ha. congruence.
Qed.

Lemma b2z_z2b (z : Z) : b2z (z2b z) = z mod 256.
Proof.
  unfold z2b. pose proof (Z.mod_pos_bound z 256 ltac:(lia)).
  destruct (Byte.of_N (Z.to_N (z mod 256))) eqn:E.
  - apply Byte.to_of_N in E. unfold b2z. rewrite E, Z2N.id; lia.
  - apply Byte.of_N_None_iff in E. lia.
Qed.

Lemma b2z_z2b_small (z : Z) : 0 <= z < 256 -> b2z (z2b z) = z.
Proof. intros H. rewrite b2z_z2b. by apply Z.mod_small. Qed.

Lemma z2b_b2z (b : byte) : z2b (b2z b) = b.
Proof.
  apply b2z_inj. rewrite b2z_z2b. apply Z.mod_small, b2z_range.
Qed.

Lemma blen_nonneg {A} (l : list A) : 0 <= blen l.
Proof. unfold blen. lia. Qed.

Lemma blen_app {A} (l k : list A) : blen (l ++ k) = blen l + blen k.
Proof. unfold blen. rewrite length_app. lia. Qed.

Lemma length_be_encode (n : nat) (z : Z) : length (be_encode n z) = n.
Proof. revert z. induction n; intros z; cbn; [done |]. rewrite length_app, IHn. cbn. lia. Qed.

Lemma be_decode_snoc (l : bytes) (b : byte) :
  be_decode (l ++ [b]) = be_decode l * 256 + b2z b.
Proof. unfold be_decode. by rewrite fold_left_app. Qed.

Lemma be_decode_encode_mod (n : nat) (z : Z) :
  be_decode (be_encode n z) = z mod 256 ^ Z.of_nat n.
Proof.
  revert z. induction n as [|n IH]; intros z.
  - cbn. by rewrite Z.mod_1_r.
  - cbn [be_encode]. rewrite be_decode_snoc, IH, b2z_z2b.
    replace (256 ^ Z.of_nat (S n)) with (256 * 256 ^ Z.of_nat n)
      by (rewrite Nat2Z.inj_succ, Z.pow_succ_r by lia; lia).
    rewrite Z.rem_mul_r by (try lia; apply Z.pow_pos_nonneg; lia). lia.
Qed.

(** Encoding then decoding an integer that fits its width is the identity. *)
Lemma be_decode_encode (n : nat) (z : Z) :
  0 <= z < 256 ^ Z.of_nat n -> be_decode (be_encode n z) = z.
Proof. intros H. rewrite be_decode_encode_mod. by apply Z.mod_small. Qed.

Lemma be_decode_range (l : bytes) : 0 <= be_decode l < 256 ^ blen l.
Proof.
  induction l as [|b l IH] using rev_ind; [by vm_compute |].
  rewrite be_decode_snoc, blen_app. pose proof (b2z_range b).
  change (blen [b]) with 1. rewrite Z.pow_add_r, Z.pow_1_r by (unfold blen; lia). lia.
Qed.

(** Decoding then encoding a byte string at its own width is the identity. *)
Lemma be_encode_decode (l : bytes) : be_encode (length l) (be_decode l) = l.
Proof.
  induction l as [|b l IH] using rev_ind; [done |].
  rewrite be_decode_snoc, length_app, Nat.add_comm. cbn [length Nat.add be_encode].
  pose proof (b2z_range b).
  rewrite Z.div_add_l, (Z.div_small (b2z b)), Z.add_0_r, IH by lia. f_equal.
  f_equal. apply b2z_inj. rewrite b2z_z2b, Z.add_comm, Z.mod_add by lia. apply Z.mod_small, b2z_range.
Qed.

Lemma be_encode_decode_n (n : nat) (l : bytes) : length l = n -> be_encode n (be_decode l) = l.
Proof. intros <-. apply be_encode_decode. Qed.

(** ** Slices *)

Lemma slice_to_app {A} (n : Z) (a b : list A) : blen a = n -> slice_to n (a ++ b) = a.
Proof. unfold slice_to, blen. intros <-. rewrite Nat2Z.id. apply take_app_length. Qed.

Lemma slice_from_app {A} (n : Z) (a b : list A) : blen a = n -> slice_from n (a ++ b) = b.
Proof. unfold slice_from, blen. intros <-. rewrite Nat2Z.id. apply drop_app_length. Qed.

Lemma slice_split {A} (n : Z) (l : list A) : l = slice_to n l ++ slice_from n l.
Proof. unfold slice_to, slice_from. by rewrite take_drop. Qed.

Lemma blen_slice_to {A} (n : Z) (l : list A) : 0 <= n <= blen l -> blen (slice_to n l) = n.
Proof. unfold slice_to, blen. intros H. rewrite length_take. lia. Qed.

Lemma blen_slice_from {A} (n : Z) (l : list A) : 0 <= n <= blen l -> blen (slice_from n l) = blen l - n.
Proof. unfold slice_from, blen. intros H. rewrite length_drop. lia. Qed.

Lemma slice_app_mid {A} (lo hi : Z) (a b c : list A) :
  lo = blen a -> hi = lo + blen b -> slice lo hi (a ++ b ++ c) = b.
Proof.
  intros -> ->. unfold slice, blen. rewrite Nat2Z.id, drop_app_length.
  replace (Z.to_nat (Z.of_nat (length a) + Z.of_nat (length b) - Z.of_nat (length a))) with (length b) by lia.
  apply take_app_length.
Qed.

Lemma slice_app_end {A} (lo hi : Z) (a b : list A) : lo = blen a -> hi = lo + blen b -> slice lo hi (a ++ b) = b.
Proof. intros H1 H2. rewrite <- (app_nil_r b) at 1. by apply slice_app_mid. Qed.

Lemma blen_slice {A} (lo hi : Z) (l : list A) : 0 <= lo <= hi -> hi <= blen l -> blen (slice lo hi l) = hi - lo.
Proof. intros H1 H2. unfold slice, blen in *. rewrite length_take, length_drop. lia. Qed.

(** A list cut in three at two positions. *)
Lemma slice_split3 {A} (lo hi : Z) (l : list A) :
  0 <= lo <= hi -> l = slice_to lo l ++ slice lo hi l ++ slice_from hi l.
Proof.
  intros H. unfold slice_to, slice, slice_from.
  replace (drop (Z.to_nat hi) l) with (drop (Z.to_nat (hi - lo)) (drop (Z.to_nat lo) l)).
  - by rewrite !take_drop.
  - rewrite drop_drop. f_equal. lia.
Qed.

(** ** Text and errors *)

Lemma str_eqb_eq (a b : pystr) : str_eqb a b = true <-> a = b.
Proof.
  revert b. induction a as [|x a IH]; intros [|y b]; cbn; try (split; congruence).
  rewrite andb_true_iff, IH, Z.eqb_eq. split; [intros [-> ->] | intros [= -> ->]]; auto.
Qed.

Lemma str_eqb_refl (a : pystr) : str_eqb a a = true.
Proof. by apply str_eqb_eq. Qed.

Lemma str_eqb_neq (a b : pystr) : str_eqb a b = false <-> a <> b.
Proof. rewrite <- not_true_iff_false, str_eqb_eq. done. Qed.

Lemma str_in_elem (s : pystr) (l : list pystr) : str_in s l = true <-> s ∈ l.
Proof.
  unfold str_in. rewrite existsb_exists. split.
  - intros (x & Hx & ->%str_eqb_eq). by apply list_elem_of_In.
  - intros H%list_elem_of_In. exists s. split; [done | apply str_eqb_refl].
Qed.

Lemma bytes_eqb_eq (a b : bytes) : bytes_eqb a b = true <-> a = b.
Proof. unfold bytes_eqb. apply bool_decide_eq_true. Qed.

Lemma rbind_ok {A B} (c : result A) (k : A -> result B) (b : B) :
  rbind c k = Ok b <-> exists a, c = Ok a /\ k a = Ok b.
Proof.
  destruct c as [a | e]; cbn; split.
  - eauto.
  - intros (? & [= <-] & ?). done.
  - done.
  - intros (? & ? & _). done.
Qed.

Lemma raise_if_ok (b : bool) (e : exn) (u : unit) : raise_if b e = Ok u -> b = false.
Proof. by destruct b. Qed.

Lemma except_as_ok {A} (c : result A) (cs : list exc_class) (e : exn) (a : A) :
  except_as c cs e = Ok a <-> c = Ok a.
Proof. destruct c as [x | x]; cbn; [done |]. case_if; split; done. Qed.

Lemma throws_ok {A} (cs : list exc_class) (a : A) : throws cs (Ok a).
Proof. done. Qed.

Lemma throws_raise {A} (cs : list exc_class) (e : exn) :
  existsb (exc_isa (exn_class e)) cs = true -> throws cs (Raise e : result A).
Proof. by intros H ? [= <-]. Qed.

Lemma throws_bind {A B} (cs : list exc_class) (c : result A) (k : A -> result B) :
  throws cs c -> (forall a, c = Ok a -> throws cs (k a)) -> throws cs (rbind c k).
Proof. intros Hc Hk. destruct c; cbn; [by apply Hk | by apply throws_raise, Hc]. Qed.

Lemma throws_raise_if (cs : list exc_class) (b : bool) (e : exn) :
  existsb (exc_isa (exn_class e)) cs = true -> throws cs (raise_if b e).
Proof. destruct b; [apply throws_raise | done]. Qed.

Lemma throws_except {A} (cs caught : list exc_class) (c : result A) (e : exn) :
  throws (caught ++ cs) c -> existsb (exc_isa (exn_class e)) cs = true ->
  throws cs (except_as c caught e).
Proof.
  intros Hc He. destruct c as [a | x]; cbn; [done |].
  case_if; apply throws_raise; [done |]. specialize (Hc _ eq_refl).
  by rewrite existsb_app, E in Hc.
Qed.

Lemma throws_mono {A} (cs cs' : list exc_class) (c : result A) :
  throws cs c -> (forall x, existsb (exc_isa x) cs = true -> existsb (exc_isa x) cs' = true) ->
  throws cs' c.
Proof. intros H Hm e He. by apply Hm, H. Qed.

Lemma throws_no_fuel {A} (cs : list exc_class) (c : result A) :
  throws cs c -> existsb (exc_isa FuelExhausted) cs = false -> no_fuel c.
Proof. intros H Hf e He Hx. apply H in He. rewrite Hx in He. congruence. Qed.

(** When everything a body raises is caught, only the handler's exception
    leaves the [try]. *)
Lemma except_closed {A} (cs : list exc_class) (c : result A) (e x : exn) :
  throws cs c -> except_as c cs e = Raise x -> x = e.
Proof. intros H. destruct c as [a | y]; cbn; [done |]. rewrite (H y eq_refl). congruence. Qed.

(** Inclusion of exception classes, decided by running over all classes. *)
Ltac class_incl := intros []; vm_compute; congruence.

(** Walk through a computation built from the combinators above. *)
Ltac throws_tac :=
  repeat match goal with
  | |- throws _ (Ok _) => apply throws_ok
  | |- throws _ (Raise _) => apply throws_raise; reflexivity
  | |- throws _ (raise_if _ _) => apply throws_raise_if; reflexivity
  | |- throws _ (except_as _ _ _) => apply throws_except; [cbn [app] | reflexivity]
  | |- throws _ (rbind _ _) => apply throws_bind; [| intros ? _]
  | |- throws _ (match ?x with _ => _ end) => destruct x
  end.

#[export] Hint Rewrite @blen_app length_be_encode b2z_z2b z2b_b2z : pybytes.
#[export] Hint Resolve b2z_range blen_nonneg str_eqb_refl : agentbox.
