(* ===== verification/PyVal.v ===== *)
(** * Python values, dictionaries, decimal numerals and UTF-8

    The dynamically typed values the protocol code inspects, dictionaries as
    association lists in insertion order, [str(int)] and the strict UTF-8
    codec ([bytes.decode("utf-8", "strict")], [str.encode("utf-8")]). *)

From S2P Require Import Prelude.

Local Open Scope Z_scope.

(** ** Values

    A float is named by the literal that denotes it: no modelled function
    computes with one.  Dictionaries have string keys. *)
#[local] Unset Elimination Schemes.

Inductive pyval : Type :=
| PNone
| PBool (b : bool)
| PInt (z : Z)
| PFloat (text : pystr)
| PStr (s : pystr)
| PBytes (b : bytes)
| PList (l : list pyval)
| PDict (d : list (pystr * pyval)).

#[local] Set Elimination Schemes.

Abbreviation pydict := (list (pystr * pyval)).

(** [d.get(k)] as an option, [k in d], [d.keys()] *)
Fixpoint dget {V} (d : list (pystr * V)) (k : pystr) : option V :=
  match d with
  | [] => None
  | (k', v) :: r => if str_eqb k k' then Some v else dget r k
  end.

Definition dkeys {V} (d : list (pystr * V)) : list pystr := map fst d.
Definition dhas {V} (d : list (pystr * V)) (k : pystr) : bool := str_in k (dkeys d).

(** [d[k] = v]: replaces in place, or appends. *)
Fixpoint dset {V} (d : list (pystr * V)) (k : pystr) (v : V) : list (pystr * V) :=
  match d with
  | [] => [(k, v)]
  | (k', v') :: r => if str_eqb k k' then (k', v) :: r else (k', v') :: dset r k v
  end.

(** [set(a) == set(b)] and [set(a) >= set(b)] on key views *)
Definition keys_superset (a b : list pystr) : bool := forallb (fun k => str_in k a) b.
Definition keys_equal (a b : list pystr) : bool := keys_superset a b && keys_superset b a.

(** [a == b] on the scalars the code compares; as in Python, a bool equals the
    integer it stands for. *)
Definition scalar_eqb (a b : pyval) : bool :=
  match a, b with
  | PNone, PNone => true
  | PBool x, PBool y => Bool.eqb x y
  | PInt x, PInt y => x =? y
  | PBool x, PInt y | PInt y, PBool x => Z.b2z x =? y
  | PStr x, PStr y => str_eqb x y
  | _, _ => false
  end.

(** [d1 == d2] for dictionaries of scalars: order does not matter. *)
Definition dict_eqb (d1 d2 : pydict) : bool :=
  Nat.eqb (length d1) (length d2)
  && forallb (fun '(k, v) =>
       match dget d2 k with Some w => scalar_eqb v w | None => false end) d1.

(** [type(v) is int], [type(v) is str] ... *)
Definition is_none (v : pyval) : bool := match v with PNone => true | _ => false end.
Definition as_str (v : pyval) : option pystr := match v with PStr s => Some s | _ => None end.

(** ** Decimal numerals: [str(n)] *)

Fixpoint dec_digits (fuel : nat) (z : Z) (acc : pystr) : pystr :=
  match fuel with
  | O => acc
  | S n => if z <? 10 then (48 + z) :: acc
           else dec_digits n (z / 10) ((48 + z mod 10) :: acc)
  end.

Definition str_of_nonneg (z : Z) : pystr := dec_digits (S (Z.to_nat (Z.log2 z))) z [].

Definition str_of_Z (z : Z) : pystr :=
  if z <? 0 then 45 :: str_of_nonneg (- z) else str_of_nonneg z.

(** ** UTF-8 *)

Definition is_surrogate (c : Z) : bool := in_range 55296 c 57343.
Definition is_cont (b : byte) : bool := in_range 128 (b2z b) 191.
Definition cont_bits (b : byte) : Z := b2z b - 128.

(** [bytes.decode("utf-8", "strict")]: no overlong form, no surrogate, no code
    point above U+10FFFF. *)
Fixpoint utf8_decode (l : bytes) : option pystr :=
  match l with
  | [] => Some []
  | b0 :: l1 =>
      let c0 := b2z b0 in
      if c0 <? 128 then cons c0 <$> utf8_decode l1
      else if in_range 194 c0 223 then
        match l1 with
        | b1 :: l2 =>
            if is_cont b1
            then cons ((c0 - 192) * 64 + cont_bits b1) <$> utf8_decode l2 else None
        | _ => None
        end
      else if in_range 224 c0 239 then
        match l1 with
        | b1 :: b2 :: l3 =>
            let cp := (c0 - 224) * 4096 + cont_bits b1 * 64 + cont_bits b2 in
            if is_cont b1 && is_cont b2 && (2048 <=? cp) && negb (is_surrogate cp)
            then cons cp <$> utf8_decode l3 else None
        | _ => None
        end
      else if in_range 240 c0 244 then
        match l1 with
        | b1 :: b2 :: b3 :: l4 =>
            let cp := (c0 - 240) * 262144 + cont_bits b1 * 4096 + cont_bits b2 * 64
                      + cont_bits b3 in
            if is_cont b1 && is_cont b2 && is_cont b3 && (65536 <=? cp) && (cp <=? 1114111)
            then cons cp <$> utf8_decode l4 else None
        | _ => None
        end
      else None
  end.

(** One character of [str.encode("utf-8")]; a surrogate cannot be encoded. *)
Definition utf8_encode1 (c : Z) : option bytes :=
  if (c <? 0) || (1114111 <? c) || is_surrogate c then None
  else if c <? 128 then Some [z2b c]
  else if c <? 2048 then Some [z2b (192 + c / 64); z2b (128 + c mod 64)]
  else if c <? 65536 then
    Some [z2b (224 + c / 4096); z2b (128 + c / 64 mod 64); z2b (128 + c mod 64)]
  else Some [z2b (240 + c / 262144); z2b (128 + c / 4096 mod 64);
             z2b (128 + c / 64 mod 64); z2b (128 + c mod 64)].

Fixpoint utf8_encode (s : pystr) : option bytes :=
  match s with
  | [] => Some []
  | c :: r =>
      match utf8_encode1 c, utf8_encode r with
      | Some a, Some b => Some (a ++ b)
      | _, _ => None
      end
  end.

(** A string of Unicode scalar values, which is what UTF-8 can carry. *)
Definition scalar_value (c : Z) : bool := in_range 0 c 1114111 && negb (is_surrogate c).

(** ** Lemmas *)

(** Induction with a hypothesis for every element of a list or dictionary. *)
Lemma pyval_ind (P : pyval -> Prop) :
  P PNone -> (forall b, P (PBool b)) -> (forall z, P (PInt z)) ->
  (forall t, P (PFloat t)) -> (forall s, P (PStr s)) -> (forall b, P (PBytes b)) ->
  (forall l, Forall P l -> P (PList l)) ->
  (forall d, Forall (fun kv => P (snd kv)) d -> P (PDict d)) ->
  forall v, P v.
Proof.
  intros HN HB HI HF HS HY HL HD. fix IH 1. intros [| b | z | t | s | b | l | d].
  - exact HN.
  - exact (HB b).
  - exact (HI z).
  - exact (HF t).
  - exact (HS s).
  - exact (HY b).
  - apply HL. induction l; constructor; auto.
  - apply HD. induction d; constructor; auto.
Qed.

Lemma dget_elem {V} (d : list (pystr * V)) (k : pystr) (v : V) :
  dget d k = Some v -> (k, v) ∈ d.
Proof.
  induction d as [|[k' v'] d IH]; cbn; [done |].
  case_if; intros H; [| right; auto].
  apply str_eqb_eq in E as ->. injection H as ->. left.
Qed.

Lemma dget_some {V} (d : list (pystr * V)) (k : pystr) :
  dhas d k = true -> exists v, dget d k = Some v.
Proof.
  unfold dhas, str_in, dkeys. induction d as [|[k' v'] d IH]; cbn; [done |].
  destruct (str_eqb k k'); cbn; eauto.
Qed.

Lemma dget_dset_eq {V} (d : list (pystr * V)) (k : pystr) (v : V) : dget (dset d k v) k = Some v.
Proof.
  induction d as [|[k' v'] d IH]; cbn; [by rewrite str_eqb_refl |].
  destruct (str_eqb k k') eqn:E; cbn; by rewrite E.
Qed.

Lemma dget_dset_ne {V} (d : list (pystr * V)) (k k' : pystr) (v : V) :
  k <> k' -> dget (dset d k v) k' = dget d k'.
Proof.
  intros Hne. induction d as [|[k2 v2] d IH]; cbn.
  - by rewrite (proj2 (str_eqb_neq k' k)).
  - destruct (str_eqb k k2) eqn:E; cbn; [| by rewrite IH].
    apply str_eqb_eq in E as ->. by rewrite (proj2 (str_eqb_neq k' k2)).
Qed.

Lemma dkeys_dset_new {V} (d : list (pystr * V)) (k : pystr) (v : V) :
  dhas d k = false -> dset d k v = d ++ [(k, v)].
Proof.
  unfold dhas, str_in, dkeys. induction d as [|[k' v'] d IH]; cbn; [done |].
  intros [-> H]%orb_false_iff. by rewrite IH.
Qed.

(** *** Decimal numerals *)

Lemma digits_value_app (a b : pystr) :
  digits_value (a ++ b) = digits_value a * 10 ^ blen b + digits_value b.
Proof.
  unfold digits_value. rewrite fold_left_app. generalize (fold_left (fun acc c => acc * 10 + (c - 48)) a 0).
  induction b as [|c b IH] using rev_ind; intros x; [change (x = x * 10 ^ 0 + 0); lia |].
  rewrite !fold_left_app, IH, blen_app. cbn [fold_left]. change (blen [c]) with 1.
  rewrite Z.pow_add_r, Z.pow_1_r by (unfold blen; lia). lia.
Qed.

(** The loop invariant of the numeral printer: it prepends the digits of [z]. *)
Lemma dec_digits_spec (fuel : nat) (z : Z) (acc : pystr) :
  0 <= z < 10 ^ Z.of_nat fuel -> (0 < fuel)%nat ->
  exists c r, dec_digits fuel z acc = (c :: r) ++ acc
    /\ digits_value (c :: r) = z /\ forallb is_digit (c :: r) = true
    /\ (is_nonzero_digit c = true \/ (z = 0 /\ c = 48 /\ r = [])).
Proof.
  revert z acc. induction fuel as [|n IH]; intros z acc Hz Hf; [lia |].
  cbn [dec_digits]. destruct (z <? 10) eqn:E; bool_to_prop.
  - exists (48 + z), []. unfold digits_value, is_digit, is_nonzero_digit, in_range. cbn.
    repeat split; try lia. destruct (Z.eq_dec z 0); [right; subst; done | left; lia].
  - rewrite Nat2Z.inj_succ, Z.pow_succ_r in Hz by lia.
    assert (Hn : (0 < n)%nat) by (destruct n; [cbn in Hz; lia | lia]).
    assert (Hq : 0 <= z / 10 < 10 ^ Z.of_nat n)
      by (split; [apply Z.div_pos | apply Z.div_lt_upper_bound]; lia).
    destruct (IH (z / 10) ((48 + z mod 10) :: acc) Hq Hn) as (c & r & -> & Hv & Hd & Hc).
    exists c, (r ++ [48 + z mod 10]). pose proof (Z.div_mod z 10 ltac:(lia)).
    pose proof (Z.mod_pos_bound z 10 ltac:(lia)).
    change (c :: r ++ [48 + z mod 10]) with ((c :: r) ++ [48 + z mod 10]).
    rewrite <- app_assoc, digits_value_app, forallb_app, Hd, Hv.
    change (10 ^ blen [48 + z mod 10]) with 10.
    change (digits_value [48 + z mod 10]) with (48 + z mod 10 - 48).
    unfold is_digit, in_range. cbn [forallb andb]. do 3 (split; [lia || done |]).
    destruct Hc as [Hc | [Hz0 _]]; [by left |].
    exfalso. assert (z / 10 >= 1) by (apply Z.le_ge, Z.div_le_lower_bound; lia). lia.
Qed.

Lemma str_of_nonneg_spec (z : Z) :
  0 <= z ->
  exists c r, str_of_nonneg z = c :: r /\ digits_value (c :: r) = z
    /\ forallb is_digit (c :: r) = true
    /\ (is_nonzero_digit c = true \/ (z = 0 /\ c = 48 /\ r = [])).
Proof.
  intros Hz. unfold str_of_nonneg.
  destruct (dec_digits_spec (S (Z.to_nat (Z.log2 z))) z []) as (c & r & H & ?); [| lia |].
  - split; [done |]. rewrite Nat2Z.inj_succ, Z2Nat.id by apply Z.log2_nonneg.
    destruct (Z.eq_dec z 0) as [-> | Hnz]; [by vm_compute |].
    apply Z.lt_le_trans with (2 ^ Z.succ (Z.log2 z)); [apply Z.log2_spec; lia |].
    apply Z.pow_le_mono_l. pose proof (Z.log2_nonneg z). lia.
  - exists c, r. by rewrite app_nil_r in H.
Qed.

(** [int(str(n)) == n] for a non-negative integer. *)
Lemma digits_value_str (z : Z) : 0 <= z -> digits_value (str_of_nonneg z) = z.
Proof. intros Hz. destruct (str_of_nonneg_spec z Hz) as (c & r & -> & H & _). done. Qed.

(** *** UTF-8 *)

(** Bounds of the base-64 digits of a code point, for [lia]. *)
Lemma base64_digits (c : Z) :
  0 <= c ->
  c = c / 64 * 64 + c mod 64 /\ 0 <= c mod 64 < 64
  /\ c / 64 = c / 4096 * 64 + c / 64 mod 64 /\ 0 <= c / 64 mod 64 < 64
  /\ c / 4096 = c / 262144 * 64 + c / 4096 mod 64 /\ 0 <= c / 4096 mod 64 < 64
  /\ 0 <= c / 262144.
Proof.
  intros Hc.
  replace (c / 262144) with (c / 4096 / 64) by (rewrite Z.div_div by lia; done).
  replace (c / 4096) with (c / 64 / 64) by (rewrite Z.div_div by lia; done).
  repeat split; try (apply Z.mod_pos_bound; lia); try (repeat apply Z.div_pos; lia).
  all: rewrite Z.mul_comm; apply Z.div_mod; lia.
Qed.

(** Decide the range tests of the UTF-8 automaton. *)
Ltac utf8_tests :=
  repeat match goal with
  | |- context [?a <? ?b] =>
      first [ rewrite (proj2 (Z.ltb_lt a b)) by lia | rewrite (proj2 (Z.ltb_ge a b)) by lia ]
  | |- context [?a <=? ?b] =>
      first [ rewrite (proj2 (Z.leb_le a b)) by lia | rewrite (proj2 (Z.leb_gt a b)) by lia ]
  end; cbn [andb negb orb].

(** Decoding one encoded character consumes it and yields it back. *)
Lemma utf8_decode_encode1 (c : Z) (a l : bytes) :
  utf8_encode1 c = Some a -> utf8_decode (a ++ l) = cons c <$> utf8_decode l.
Proof.
  unfold utf8_encode1, is_surrogate, in_range.
  destruct ((c <? 0) || (1114111 <? c) || ((55296 <=? c) && (c <=? 57343))) eqn:Hg; [done |].
  apply orb_false_iff in Hg as [[H0 H1]%orb_false_iff Hs%andb_false_iff]. bool_to_prop.
  destruct (base64_digits c H0) as (D0 & R0 & D1 & R1 & D2 & R2 & P).
  repeat case_if; bool_to_prop; intros [= <-]; cbn [app utf8_decode];
    unfold is_cont, cont_bits, is_surrogate, in_range;
    rewrite ?b2z_z2b_small by lia.
  - by utf8_tests.
  - utf8_tests. do 2 f_equal. lia.
  - destruct Hs as [Hs | Hs]; bool_to_prop; utf8_tests; do 2 f_equal; lia.
  - utf8_tests. do 2 f_equal. lia.
Qed.

(** [s.encode("utf-8").decode("utf-8") == s] *)
Lemma utf8_decode_encode (s : pystr) (b : bytes) :
  utf8_encode s = Some b -> utf8_decode b = Some s.
Proof.
  revert b. induction s as [|c s IH]; cbn; intros b H; [by injection H as <- |].
  destruct (utf8_encode1 c) eqn:E; [| done]. destruct (utf8_encode s); [| done].
  injection H as <-. by rewrite (utf8_decode_encode1 _ _ _ E), (IH _ eq_refl).
Qed.

Lemma utf8_encode1_total (c : Z) : scalar_value c = true -> exists a, utf8_encode1 c = Some a.
Proof.
  unfold scalar_value, in_range, utf8_encode1. intros H. bool_to_prop.
  replace (c <? 0) with false by lia. replace (1114111 <? c) with false by lia.
  rewrite H0. cbn [orb]. repeat case_if; eauto.
Qed.

(** Every string of scalar values can be encoded. *)
Lemma utf8_encode_total (s : pystr) :
  forallb scalar_value s = true -> exists b, utf8_encode s = Some b.
Proof.
  induction s as [|c s IH]; cbn; [eauto |]. intros [Hc Hs]%andb_true_iff.
  destruct (utf8_encode1_total c Hc) as [a ->], (IH Hs) as [b ->]. eauto.
Qed.

(** Two bytes with the same value are the same byte. *)
Ltac byte_eq := apply b2z_inj; rewrite b2z_z2b_small by lia; lia.

(** Strict decoding is injective: [b.decode("utf-8").encode("utf-8") == b]. *)
Lemma utf8_encode_decode (b : bytes) (s : pystr) :
  utf8_decode b = Some s -> utf8_encode s = Some b.
Proof.
  revert s. induction b as [b IH] using (induction_ltof1 _ (@length byte)).
  unfold ltof in IH. destruct b as [|b0 l1]; intros s; cbn [utf8_decode]; [by intros [= <-] |].
  pose proof (b2z_range b0). unfold is_cont, in_range, is_surrogate, cont_bits.
  repeat case_if; [| | | | done]; bool_to_prop;
    try (destruct l1 as [|b1 l2]; [done |]); try (destruct l2 as [|b2 l3]; [done |]);
    try (destruct l3 as [|b3 l4]; [done |]); try case_if; try done; bool_to_prop;
    match goal with |- cons ?cp <$> utf8_decode ?l = _ -> _ =>
      destruct (utf8_decode l) as [r|] eqn:Hr; [| done]; intros [= <-]; cbn [utf8_encode];
      rewrite (IH l ltac:(cbn; lia) r Hr); destruct (base64_digits cp ltac:(lia))
        as (D0 & R0 & D1 & R1 & D2 & R2 & P) end.
  all: unfold utf8_encode1, is_surrogate, in_range.
  all: unfold in_range in *; repeat match goal with H : (_ && _) = false |- _ =>
       apply andb_false_iff in H as [H | H] end; bool_to_prop; try lia.
  all: utf8_tests; cbn [app]; repeat f_equal; byte_eq.
Qed.
