(* ===== verification/Json.v ===== *)
(** * The [json] module: [loads] with hooks and [dumps]

    The scanner follows CPython's: strict strings, surrogate pairs in escapes,
    the number grammar, and hooks called in the order CPython calls them (an
    object's hook when its closing brace is read).  The hook may carry a
    state, as the closures of the wire decoder do. *)

From S2P Require Import Prelude PyVal.

Local Open Scope Z_scope.

Definition json_error (text : string) : exn := err JSONDecodeError text.

(** ** Scanning *)

Definition is_ws (c : Z) : bool := (c =? 32) || (c =? 9) || (c =? 10) || (c =? 13).

Fixpoint skip_ws (l : pystr) : pystr :=
  match l with
  | c :: r => if is_ws c then skip_ws r else l
  | [] => []
  end.

(** The rest of [l] when it starts with the character [c]. *)
Definition expect (c : Z) (l : pystr) : option pystr :=
  match l with
  | x :: r => if x =? c then Some r else None
  | [] => None
  end.

Definition hex_digit (c : Z) : option Z :=
  if is_digit c then Some (c - 48)
  else if in_range 97 c 102 then Some (c - 87)
  else if in_range 65 c 70 then Some (c - 55)
  else None.

Definition hex4 (a b c d : Z) : option Z :=
  match hex_digit a, hex_digit b, hex_digit c, hex_digit d with
  | Some a, Some b, Some c, Some d => Some (a * 4096 + b * 256 + c * 16 + d)
  | _, _, _, _ => None
  end.

Definition simple_escape (c : Z) : option Z :=
  if c =? 34 then Some 34        (* quote *)
  else if c =? 92 then Some 92   (* backslash *)
  else if c =? 47 then Some 47   (* slash *)
  else if c =? 98 then Some 8
  else if c =? 102 then Some 12
  else if c =? 110 then Some 10
  else if c =? 114 then Some 13
  else if c =? 116 then Some 9
  else None.

(** [scanstring(s, end, strict=True)] from just after the opening quote: the
    string and what follows its closing quote. *)
Fixpoint scan_string (l : pystr) : option (pystr * pystr) :=
  match l with
  | [] => None
  | c :: r =>
      if c =? 34 then Some ([], r)
      else if c =? 92 then
        match r with
        | [] => None
        | e :: r1 =>
            if e =? 117 then
              match r1 with
              | h1 :: h2 :: h3 :: h4 :: r2 =>
                  match hex4 h1 h2 h3 h4 with
                  | None => None
                  | Some hi =>
                      if in_range 55296 hi 56319 then
                        match r2 with
                        | b :: u :: g1 :: g2 :: g3 :: g4 :: r3 =>
                            if (b =? 92) && (u =? 117) then
                              match hex4 g1 g2 g3 g4 with
                              | Some lo =>
                                  if in_range 56320 lo 57343 then
                                    let cp := 65536 + (hi - 55296) * 1024 + (lo - 56320) in
                                    prod_map (cons cp) id <$> scan_string r3
                                  else prod_map (cons hi) id <$> scan_string r2
                              | None => None
                              end
                            else prod_map (cons hi) id <$> scan_string r2
                        | _ => prod_map (cons hi) id <$> scan_string r2
                        end
                      else prod_map (cons hi) id <$> scan_string r2
                  end
              | _ => None
              end
            else
              match simple_escape e with
              | Some c' => prod_map (cons c') id <$> scan_string r1
              | None => None
              end
        end
      else if c <? 32 then None
      else prod_map (cons c) id <$> scan_string r
  end.

(** The longest prefix of digits, and what follows it. *)
Fixpoint span_digits (l : pystr) : pystr * pystr :=
  match l with
  | c :: r => if is_digit c then let '(d, rest) := span_digits r in (c :: d, rest) else ([], l)
  | [] => ([], [])
  end.

(** The number grammar: an optional minus, zero or a digit string without a
    leading zero, an optional fraction and an optional exponent.  Returns the
    spelling, whether it has a fraction or an exponent, and the rest. *)
Definition scan_number (l : pystr) : option (pystr * bool * pystr) :=
  let '(sign, l1) := match expect 45 l with Some r => ([45], r) | None => ([], l) end in
  match l1 with
  | c :: r =>
      if is_digit c then
        let '(int_tail, r1) := if c =? 48 then ([], r) else span_digits r in
        let int_part := sign ++ c :: int_tail in
        let '(frac, r2) :=
          match expect 46 r1 with
          | Some r' => match span_digits r' with
                       | ([], _) => ([], r1)
                       | (d, rest) => (46 :: d, rest)
                       end
          | None => ([], r1)
          end in
        let '(expo, r3) :=
          match r2 with
          | e :: r' =>
              if (e =? 101) || (e =? 69) then
                let '(sg, r'') := match r' with
                                  | s :: q => if (s =? 43) || (s =? 45) then ([s], q) else ([], r')
                                  | [] => ([], r')
                                  end in
                match span_digits r'' with
                | ([], _) => ([], r2)
                | (d, rest) => (e :: sg ++ d, rest)
                end
              else ([], r2)
          | [] => ([], r2)
          end in
        Some (int_part ++ frac ++ expo,
              negb (Nat.eqb (length frac + length expo) 0), r3)
      else None
  | [] => None
  end.

Fixpoint strip_prefix (p l : pystr) : option pystr :=
  match p, l with
  | [], _ => Some l
  | x :: p', y :: l' => if x =? y then strip_prefix p' l' else None
  | _, _ => None
  end.

Section Loads.

(** The hooks: a number literal with the float flag, a constant, and the pairs
    of an object, threading a state. *)
Context {S : Type}.
Variable parse_number : bool -> pystr -> result pyval.
Variable parse_constant : pystr -> result pyval.
Variable pairs_hook : S -> list (pystr * pyval) -> result (S * pyval).

(** [scan_once], the rest of an object after one of its member positions, and
    the rest of an array after one of its item positions. *)
Fixpoint scan_once (fuel : nat) (st : S) (l : pystr) : result (S * pyval * pystr) :=
  match fuel with
  | O => Raise (err FuelExhausted "scan_once")
  | Datatypes.S n =>
      match l with
      | [] => Raise (json_error "Expecting value")
      | c :: r =>
          if c =? 34 then
            match scan_string r with
            | Some (s, rest) => Ok (st, PStr s, rest)
            | None => Raise (json_error "Invalid string")
            end
          else if c =? 123 then
            match expect 125 (skip_ws r) with
            | Some rest =>
                let! '(st', v) := pairs_hook st [] in Ok (st', v, rest)
            | None => scan_members n st [] (skip_ws r)
            end
          else if c =? 91 then
            match expect 93 (skip_ws r) with
            | Some rest => Ok (st, PList [], rest)
            | None => scan_items n st [] (skip_ws r)
            end
          else
            match strip_prefix $"null" l with
            | Some rest => Ok (st, PNone, rest)
            | None =>
            match strip_prefix $"true" l with
            | Some rest => Ok (st, PBool true, rest)
            | None =>
            match strip_prefix $"false" l with
            | Some rest => Ok (st, PBool false, rest)
            | None =>
            match strip_prefix $"NaN" l with
            | Some rest => let! v := parse_constant $"NaN" in Ok (st, v, rest)
            | None =>
            match strip_prefix $"Infinity" l with
            | Some rest => let! v := parse_constant $"Infinity" in Ok (st, v, rest)
            | None =>
            match strip_prefix $"-Infinity" l with
            | Some rest => let! v := parse_constant $"-Infinity" in Ok (st, v, rest)
            | None =>
                match scan_number l with
                | Some (tok, isf, rest) => let! v := parse_number isf tok in Ok (st, v, rest)
                | None => Raise (json_error "Expecting value")
                end
            end end end end end end
      end
  end
with scan_members (fuel : nat) (st : S) (acc : list (pystr * pyval)) (l : pystr)
  : result (S * pyval * pystr) :=
  match fuel with
  | O => Raise (err FuelExhausted "scan_members")
  | Datatypes.S n =>
      match expect 34 l with
      | None => Raise (json_error "Expecting property name enclosed in double quotes")
      | Some r =>
          match scan_string r with
          | None => Raise (json_error "Invalid string")
          | Some (k, r1) =>
              match expect 58 (skip_ws r1) with
              | None => Raise (json_error "Expecting ':' delimiter")
              | Some r2 =>
                  let! '(st1, v, r3) := scan_once n st (skip_ws r2) in
                  match expect 125 (skip_ws r3) with
                  | Some rest =>
                      let! '(st2, d) := pairs_hook st1 (acc ++ [(k, v)]) in Ok (st2, d, rest)
                  | None =>
                      match expect 44 (skip_ws r3) with
                      | Some r4 => scan_members n st1 (acc ++ [(k, v)]) (skip_ws r4)
                      | None => Raise (json_error "Expecting ',' delimiter")
                      end
                  end
              end
          end
      end
  end
with scan_items (fuel : nat) (st : S) (acc : list pyval) (l : pystr)
  : result (S * pyval * pystr) :=
  match fuel with
  | O => Raise (err FuelExhausted "scan_items")
  | Datatypes.S n =>
      let! '(st1, v, r1) := scan_once n st l in
      match expect 93 (skip_ws r1) with
      | Some rest => Ok (st1, PList (acc ++ [v]), rest)
      | None =>
          match expect 44 (skip_ws r1) with
          | Some r2 => scan_items n st1 (acc ++ [v]) (skip_ws r2)
          | None => Raise (json_error "Expecting ',' delimiter")
          end
      end
  end.

(** [json.loads(text, object_pairs_hook=..., parse_int=..., ...)]. The fuel
    is twice the text's length: every second call consumes a character. *)
Definition loads (st : S) (text : pystr) : result (S * pyval) :=
  match expect 65279 text with
  | Some _ => Raise (json_error "Unexpected UTF-8 BOM (decode using utf-8-sig)")
  | None =>
      let! '(st', v, rest) := scan_once (2 * length text + 2) st (skip_ws text) in
      match skip_ws rest with
      | [] => Ok (st', v)
      | _ => Raise (json_error "Extra data")
      end
  end.

End Loads.

(** ** Printing: [json.dumps(v, ensure_ascii=False, allow_nan=False,
       separators=(",", ":"))] *)

Definition hex_char (d : Z) : Z := if d <? 10 then 48 + d else 87 + d.

Definition escape_char (c : Z) : pystr :=
  if c =? 34 then [92; 34]
  else if c =? 92 then [92; 92]
  else if c =? 10 then [92; 110]
  else if c =? 13 then [92; 114]
  else if c =? 9 then [92; 116]
  else if c =? 12 then [92; 102]
  else if c =? 8 then [92; 98]
  else if c <? 32 then [92; 117; 48; 48; hex_char (c / 16); hex_char (c mod 16)]
  else [c].

Definition dumps_string (s : pystr) : pystr := 34 :: flat_map escape_char s ++ [34].

(** [",".join(parts)] *)
Fixpoint join_comma (parts : list pystr) : pystr :=
  match parts with
  | [] => []
  | [p] => p
  | p :: r => p ++ 44 :: join_comma r
  end.

Definition seq_results {A} : list (result A) -> result (list A) :=
  foldr (fun c acc => let! a := c in let! r := acc in Ok (a :: r)) (Ok []).

Fixpoint dumps (v : pyval) : result pystr :=
  match v with
  | PNone => Ok $"null"
  | PBool true => Ok $"true"
  | PBool false => Ok $"false"
  | PInt z => Ok (str_of_Z z)
  | PFloat t =>
      if str_in t [$"nan"; $"inf"; $"-inf"]
      then Raise (err PyValueError "Out of range float values are not JSON compliant")
      else Ok t
  | PStr s => Ok (dumps_string s)
  | PBytes _ => Raise (err PyTypeError "Object of type bytes is not JSON serializable")
  | PList l =>
      let! parts := seq_results (map dumps l) in Ok (91 :: join_comma parts ++ [93])
  | PDict d =>
      let! parts := seq_results
        (map (fun kv => let! t := dumps (snd kv) in Ok (dumps_string (fst kv) ++ 58 :: t)) d) in
      Ok (123 :: join_comma parts ++ [125])
  end.

(** ** The default hooks *)

Definition default_number (is_float : bool) (tok : pystr) : result pyval :=
  if is_float then Ok (PFloat tok)
  else match expect 45 tok with
       | Some r => Ok (PInt (- digits_value r))
       | None => Ok (PInt (digits_value tok))
       end.

(** The default [parse_constant] *)
Definition default_constant (t : pystr) : result pyval := Ok (PFloat t).

(** What reading back the text of [v] computes: the hooks applied bottom-up,
    in reading order.  It is the specification of [loads] on printed text. *)
Section ReadBack.
Context {S : Type}.
Variable parse_number : bool -> pystr -> result pyval.
Variable pairs_hook : S -> list (pystr * pyval) -> result (S * pyval).

Definition read_items (f : S -> pyval -> result (S * pyval)) :=
  fix go (st : S) (acc l : list pyval) : result (S * list pyval) :=
    match l with
    | [] => Ok (st, acc)
    | x :: r => let! '(st1, w) := f st x in go st1 (acc ++ [w]) r
    end.

Definition read_members (f : S -> pyval -> result (S * pyval)) :=
  fix go (st : S) (acc d : list (pystr * pyval)) : result (S * list (pystr * pyval)) :=
    match d with
    | [] => Ok (st, acc)
    | kx :: r => let! '(st1, w) := f st (snd kx) in go st1 (acc ++ [(fst kx, w)]) r
    end.

Fixpoint read_back (st : S) (v : pyval) : result (S * pyval) :=
  match v with
  | PInt z => let! w := parse_number false (str_of_Z z) in Ok (st, w)
  | PList l => let! '(st', ws) := read_items read_back st [] l in Ok (st', PList ws)
  | PDict d => let! '(st', ps) := read_members read_back st [] d in pairs_hook st' ps
  | _ => Ok (st, v)
  end.

End ReadBack.

(** The values [dumps] prints and [loads] reads back: no floats or bytes
    anywhere, and strings of code points. *)
Fixpoint printable (v : pyval) : bool :=
  match v with
  | PNone | PBool _ | PInt _ => true
  | PStr s => forallb (Z.leb 0) s
  | PList l => forallb printable l
  | PDict d => forallb (fun kv => forallb (Z.leb 0) (fst kv) && printable (snd kv)) d
  | PFloat _ | PBytes _ => false
  end.

(** ** Lemmas *)

(** Decide the character comparisons of the goal. *)
Ltac eqb_tests :=
  repeat match goal with
  | |- context [?a =? ?b] =>
      first [ rewrite (proj2 (Z.eqb_eq a b)) by lia | rewrite (proj2 (Z.eqb_neq a b)) by lia ]
  end.

Lemma hex_digit_char (d : Z) : 0 <= d < 16 -> hex_digit (hex_char d) = Some d.
Proof.
  intros H. unfold hex_digit, hex_char, is_digit, in_range.
  destruct (d <? 10) eqn:E; bool_to_prop; utf8_tests; f_equal; lia.
Qed.

(** Scanning an escaped character yields the character and continues. *)
Lemma scan_string_escape (c : Z) (l : pystr) :
  0 <= c -> scan_string (escape_char c ++ l) = prod_map (cons c) id <$> scan_string l.
Proof.
  intros Hc. unfold escape_char.
  repeat (case_if; [bool_to_prop; subst; reflexivity |]).
  destruct (c <? 32) eqn:E7; bool_to_prop.
  - cbn -[hex_digit hex_char Z.div Z.modulo in_range Z.mul Z.add].
    pose proof (Z.div_mod c 16 ltac:(lia)). pose proof (Z.mod_pos_bound c 16 ltac:(lia)).
    assert (0 <= c / 16 < 2) by (split; [apply Z.div_pos | apply Z.div_lt_upper_bound]; lia).
    unfold hex4. rewrite !hex_digit_char by lia. change (hex_digit 48) with (Some 0).
    cbn -[Z.div Z.modulo in_range Z.mul Z.add].
    replace (0 * 4096 + 0 * 256 + c / 16 * 16 + c mod 16) with c by lia.
    unfold in_range. by utf8_tests.
  - cbn. replace (c =? 34) with false by lia. replace (c =? 92) with false by lia.
    by replace (c <? 32) with false by lia.
Qed.

Lemma scan_string_dumps (s rest : pystr) :
  forallb (Z.leb 0) s = true ->
  scan_string (flat_map escape_char s ++ 34 :: rest) = Some (s, rest).
Proof.
  induction s as [|c s IH]; cbn [flat_map forallb]; [done |].
  intros [Hc%Z.leb_le Hs]%andb_true_iff.
  by rewrite <- app_assoc, scan_string_escape, IH.
Qed.

(** A text at which a number literal stops. *)
Definition num_stop (rest : pystr) : bool :=
  match rest with
  | [] => true
  | c :: _ => negb (is_digit c || (c =? 46) || (c =? 101) || (c =? 69))
  end.

Lemma span_digits_app (d rest : pystr) :
  forallb is_digit d = true -> num_stop rest = true ->
  span_digits (d ++ rest) = (d, rest).
Proof.
  intros Hd Hs. induction d as [|c d IH]; cbn in *.
  - destruct rest as [|c rest]; [done |]. cbn in *. by destruct (is_digit c).
  - apply andb_true_iff in Hd as [-> Hd]. by rewrite IH.
Qed.

Lemma num_stop_expect (c : Z) (rest : pystr) :
  num_stop rest = true -> is_digit c || (c =? 46) || (c =? 101) || (c =? 69) = true ->
  expect c rest = None.
Proof.
  destruct rest as [|x rest]; cbn; [done |]. intros H Hc.
  destruct (x =? c) eqn:E; [| done]. apply Z.eqb_eq in E as ->. by rewrite Hc in H.
Qed.

(** A digit string without a leading zero is one integer token. *)
Lemma scan_number_digits (sign : bool) (c : Z) (r rest : pystr) :
  forallb is_digit (c :: r) = true -> num_stop rest = true ->
  is_nonzero_digit c = true \/ (c = 48 /\ r = []) ->
  let tok := (if sign then [45] else []) ++ c :: r in
  scan_number (tok ++ rest) = Some (tok, false, rest).
Proof.
  intros Hd Hs Hc. cbn [forallb] in Hd. apply andb_true_iff in Hd as [Hc0 Hr].
  assert (Hx : match expect 45 (((if sign then [45] else []) ++ c :: r) ++ rest) with
               | Some r' => ([45], r')
               | None => ([], ((if sign then [45] else []) ++ c :: r) ++ rest)
               end = ((if sign then [45] else []), c :: r ++ rest)).
  { destruct sign; cbn; [done |]. destruct (c =? 45) eqn:E; [| done].
    bool_to_prop. by subst. }
  unfold scan_number. rewrite Hx, Hc0.
  assert (Ht : (if c =? 48 then ([], r ++ rest) else span_digits (r ++ rest)) = (r, rest)).
  { destruct Hc as [Hnz | [-> ->]]; [| done].
    destruct (c =? 48) eqn:E; [bool_to_prop; by subst |]. by apply span_digits_app. }
  rewrite Ht, (num_stop_expect 46) by done.
  destruct rest as [|e rest']; cbn [app length]; [by rewrite !app_nil_r |].
  destruct ((e =? 101) || (e =? 69)) eqn:E; [| by rewrite !app_nil_r].
  exfalso. cbn in Hs. destruct (e =? 101), (e =? 69), (is_digit e), (e =? 46); done.
Qed.

Lemma str_of_Z_shape (z : Z) :
  exists (c : Z) (r : pystr), str_of_Z z = (if z <? 0 then [45] else []) ++ c :: r
    /\ digits_value (c :: r) = Z.abs z /\ forallb is_digit (c :: r) = true
    /\ (is_nonzero_digit c = true \/ (c = 48 /\ r = [])).
Proof.
  unfold str_of_Z. destruct (z <? 0) eqn:E; bool_to_prop.
  - destruct (str_of_nonneg_spec (- z) ltac:(lia)) as (c & r & -> & Hv & Hd & Hc).
    exists c, r. repeat split; [lia | done | tauto].
  - destruct (str_of_nonneg_spec z E) as (c & r & -> & Hv & Hd & Hc).
    exists c, r. repeat split; [lia | done | tauto].
Qed.

(** [json.loads(str(z)) == z]: the token of an integer and its value. *)
Lemma default_number_str (z : Z) : default_number false (str_of_Z z) = Ok (PInt z).
Proof.
  destruct (str_of_Z_shape z) as (c & r & -> & Hv & Hd & _).
  cbn [forallb] in Hd. apply andb_true_iff in Hd as [Hc _]. unfold default_number.
  destruct (z <? 0) eqn:E; bool_to_prop.
  - cbn [app expect]. rewrite Z.eqb_refl, Hv. do 2 f_equal. lia.
  - cbn [app expect]. unfold is_digit, in_range in Hc. bool_to_prop.
    replace (c =? 45) with false by lia. rewrite Hv. do 2 f_equal. lia.
Qed.

Lemma scan_number_str (z : Z) (rest : pystr) :
  num_stop rest = true -> scan_number (str_of_Z z ++ rest) = Some (str_of_Z z, false, rest).
Proof.
  intros Hs. destruct (str_of_Z_shape z) as (c & r & -> & _ & Hd & Hc).
  by apply scan_number_digits.
Qed.

(** *** Printed text reads back *)

(** The first character of printed text is none of the structural ones. *)
Definition value_start (c : Z) : bool :=
  negb (is_ws c) && negb (c =? 93) && negb (c =? 125) && negb (c =? 65279).

Lemma is_digit_value_start (c : Z) : is_digit c = true -> value_start c = true.
Proof. unfold is_digit, value_start, is_ws, in_range. lia. Qed.

Lemma dumps_head (v : pyval) (t : pystr) :
  dumps v = Ok t -> printable v = true -> exists c r, t = c :: r /\ value_start c = true.
Proof.
  destruct v as [| [|] | z | | s | | l | d]; cbn [dumps printable]; intros H Hp; try done;
    inv_ok; try (eexists _, _; split; [reflexivity | reflexivity]).
  destruct (str_of_Z_shape z) as (c & r & -> & _ & Hd & _).
  cbn [forallb] in Hd. apply andb_true_iff in Hd as [Hc _].
  destruct (z <? 0); eexists _, _; (split; [reflexivity |]); [done |].
  by apply is_digit_value_start.
Qed.

Lemma value_start_ws (c : Z) (r : pystr) : value_start c = true -> skip_ws (c :: r) = c :: r.
Proof. unfold value_start. cbn. by destruct (is_ws c). Qed.

Lemma value_start_expect (c x : Z) (r : pystr) :
  value_start c = true -> (x =? 93) || (x =? 125) || (x =? 65279) = true -> expect x (c :: r) = None.
Proof.
  unfold value_start. cbn. destruct (c =? x) eqn:E; [| done].
  apply Z.eqb_eq in E as ->. destruct (x =? 93), (x =? 125), (x =? 65279), (is_ws x); done.
Qed.

Section PrintedText.
Context {S : Type}.
Variable parse_number : bool -> pystr -> result pyval.
Variable parse_constant : pystr -> result pyval.
Variable pairs_hook : S -> list (pystr * pyval) -> result (S * pyval).

Abbreviation scan := (scan_once parse_number parse_constant pairs_hook).
Abbreviation members := (scan_members parse_number parse_constant pairs_hook).
Abbreviation items := (scan_items parse_number parse_constant pairs_hook).
Abbreviation back := (read_back parse_number pairs_hook).

(** An integer numeral reaches the number branch of the scanner. *)
Lemma scan_once_int (n : nat) (st : S) (z : Z) (rest : pystr) :
  num_stop rest = true ->
  scan (Datatypes.S n) st (str_of_Z z ++ rest)
  = let! w := parse_number false (str_of_Z z) in Ok (st, w, rest).
Proof.
  intros Hs. pose proof (scan_number_str z rest Hs) as Hn.
  destruct (str_of_Z_shape z) as (c & r & Hz & _ & Hd & _).
  cbn [forallb] in Hd. apply andb_true_iff in Hd as [Hc _].
  unfold is_digit, in_range in Hc. bool_to_prop.
  rewrite Hz in *. destruct (z <? 0); cbn [app] in *.
  - cbn -[scan_number Z.eqb]. eqb_tests. by rewrite Hn.
  - cbn -[scan_number Z.eqb]. eqb_tests. by rewrite Hn.
Qed.

Lemma scan_once_array (n : nat) (st : S) (r : pystr) :
  scan (Datatypes.S n) st (91 :: r)
  = match expect 93 (skip_ws r) with
    | Some rest => Ok (st, PList [], rest)
    | None => items n st [] (skip_ws r)
    end.
Proof. reflexivity. Qed.

Lemma scan_once_object (n : nat) (st : S) (r : pystr) :
  scan (Datatypes.S n) st (123 :: r)
  = match expect 125 (skip_ws r) with
    | Some rest => let! '(st', v) := pairs_hook st [] in Ok (st', v, rest)
    | None => members n st [] (skip_ws r)
    end.
Proof. reflexivity. Qed.

Lemma scan_members_step (n : nat) (st : S) (acc : list (pystr * pyval)) (l : pystr) :
  members (Datatypes.S n) st acc l
  = match expect 34 l with
    | None => Raise (json_error "Expecting property name enclosed in double quotes")
    | Some r =>
        match scan_string r with
        | None => Raise (json_error "Invalid string")
        | Some (k, r1) =>
            match expect 58 (skip_ws r1) with
            | None => Raise (json_error "Expecting ':' delimiter")
            | Some r2 =>
                let! '(st1, v, r3) := scan n st (skip_ws r2) in
                match expect 125 (skip_ws r3) with
                | Some rest =>
                    let! '(st2, d) := pairs_hook st1 (acc ++ [(k, v)]) in Ok (st2, d, rest)
                | None =>
                    match expect 44 (skip_ws r3) with
                    | Some r4 => members n st1 (acc ++ [(k, v)]) (skip_ws r4)
                    | None => Raise (json_error "Expecting ',' delimiter")
                    end
                end
            end
        end
    end.
Proof. reflexivity. Qed.

Lemma scan_items_step (n : nat) (st : S) (acc : list pyval) (l : pystr) :
  items (Datatypes.S n) st acc l
  = let! '(st1, v, r1) := scan n st l in
    match expect 93 (skip_ws r1) with
    | Some rest => Ok (st1, PList (acc ++ [v]), rest)
    | None =>
        match expect 44 (skip_ws r1) with
        | Some r2 => items n st1 (acc ++ [v]) (skip_ws r2)
        | None => Raise (json_error "Expecting ',' delimiter")
        end
    end.
Proof. reflexivity. Qed.

(** The property proved of every value, by induction: scanning its text
    followed by [rest] computes [read_back] and leaves [rest]. *)
Definition scans (v : pyval) : Prop :=
  printable v = true ->
  forall (t : pystr) (fuel : nat) (st : S) (rest : pystr),
    dumps v = Ok t -> num_stop rest = true -> (2 * length t <= fuel)%nat ->
    scan fuel st (t ++ rest) = let! '(st', w) := back st v in Ok (st', w, rest).

Lemma seq_results_ok_cons {A} (c : result A) (cs : list (result A)) (l : list A) :
  seq_results (c :: cs) = Ok l ->
  exists a r, c = Ok a /\ seq_results cs = Ok r /\ l = a :: r.
Proof. cbn. intros H. inv_ok. eauto. Qed.

Lemma scan_items_printed (l : list pyval) :
  Forall scans l -> forallb printable l = true -> l <> [] ->
  forall (parts : list pystr) (fuel : nat) (st : S) (acc : list pyval) (rest : pystr),
    seq_results (map dumps l) = Ok parts ->
    (2 * length (join_comma parts) + 1 <= fuel)%nat ->
    items fuel st acc (join_comma parts ++ 93 :: rest)
    = let! '(st', ws) := read_items back st acc l in Ok (st', PList ws, rest).
Proof.
  induction 1 as [|x l Hx Hl IH]; [done |]. intros Hp _ parts fuel st acc rest Hs Hf.
  cbn [forallb map] in *. apply andb_true_iff in Hp as [Hpx Hpl].
  apply seq_results_ok_cons in Hs as (t & ts & Ht & Hts & ->).
  destruct fuel as [|fuel]; [lia |]. destruct l as [|y l].
  - injection Hts as <-. cbn [join_comma] in *. cbn [scan_once scan_items scan_members read_items].
    rewrite (Hx Hpx t) by (done || lia). destruct (back st x) as [[st1 w]|]; [| done]. done.
  - destruct ts as [|t2 ts];
      [by apply seq_results_ok_cons in Hts as (? & ? & _ & _ & ?) |].
    change (join_comma (t :: t2 :: ts)) with (t ++ 44 :: join_comma (t2 :: ts)) in *.
    rewrite length_app in Hf. cbn [length] in Hf. rewrite <- app_assoc.
    cbn [scan_once scan_items scan_members app]. rewrite (Hx Hpx t) by (done || lia).
    change (read_items back st acc (x :: y :: l))
      with (let! '(st1, w) := back st x in read_items back st1 (acc ++ [w]) (y :: l)).
    destruct (back st x) as [[st1 w]|e]; [| done]. cbn [rbind].
    assert (Hws : skip_ws (join_comma (t2 :: ts) ++ 93 :: rest) = join_comma (t2 :: ts) ++ 93 :: rest).
    { pose proof Hts as Hts'. cbn [map] in Hts'.
      apply seq_results_ok_cons in Hts' as (a & r & Ha & _ & [= <- <-]).
      cbn [forallb] in Hpl. apply andb_true_iff in Hpl as [Hpy _].
      destruct (dumps_head y t2 Ha Hpy) as (c & q & -> & Hc).
      destruct ts; cbn [join_comma app]; by apply value_start_ws. }
    cbn [expect skip_ws is_ws Z.eqb Pos.eqb orb]. rewrite Hws.
    apply IH; [done | done | done | lia].
Qed.

Definition dumps_member (kv : pystr * pyval) : result pystr :=
  let! t := dumps (snd kv) in Ok (dumps_string (fst kv) ++ 58 :: t).

(** One member: its key and colon are consumed, then its value is scanned. *)
Lemma scan_member_printed (k t : pystr) (x : pyval) (n : nat) (st : S)
    (acc : list (pystr * pyval)) (rest : pystr) :
  scans x -> forallb (Z.leb 0) k = true -> printable x = true -> dumps x = Ok t ->
  num_stop rest = true -> (2 * length t <= n)%nat ->
  members (Datatypes.S n) st acc ((dumps_string k ++ 58 :: t) ++ rest)
  = let! '(st1, w) := back st x in
    match expect 125 (skip_ws rest) with
    | Some rest' =>
        let! '(st2, d) := pairs_hook st1 (acc ++ [(k, w)]) in Ok (st2, d, rest')
    | None =>
        match expect 44 (skip_ws rest) with
        | Some r4 => members n st1 (acc ++ [(k, w)]) (skip_ws r4)
        | None => Raise (json_error "Expecting ',' delimiter")
        end
    end.
Proof.
  intros Hx Hk Hpx Ht Hs Hf. unfold dumps_string.
  replace (((34 :: flat_map escape_char k ++ [34]) ++ 58 :: t) ++ rest)
    with (34 :: flat_map escape_char k ++ 34 :: 58 :: t ++ rest)
    by (cbn [app]; rewrite <- !app_assoc; done).
  cbn [scan_once scan_items scan_members expect Z.eqb Pos.eqb]. rewrite scan_string_dumps by done.
  cbn [skip_ws is_ws Z.eqb Pos.eqb orb expect].
  destruct (dumps_head x t Ht Hpx) as (c & q & Heq & Hc).
  assert (Hws : skip_ws (t ++ rest) = t ++ rest) by (rewrite Heq; by apply value_start_ws).
  rewrite Hws, (Hx Hpx t) by done. by destruct (back st x) as [[st1 w]|e].
Qed.

Lemma scan_members_printed (d : list (pystr * pyval)) :
  Forall (fun kv => scans (snd kv)) d ->
  forallb (fun kv => forallb (Z.leb 0) (fst kv) && printable (snd kv)) d = true -> d <> [] ->
  forall (parts : list pystr) (fuel : nat) (st : S) (acc : list (pystr * pyval)) (rest : pystr),
    seq_results (map dumps_member d) = Ok parts ->
    (2 * length (join_comma parts) <= fuel)%nat ->
    members fuel st acc (join_comma parts ++ 125 :: rest)
    = let! '(st', ps) := read_members back st acc d in
      let! '(st2, v) := pairs_hook st' ps in Ok (st2, v, rest).
Proof.
  induction 1 as [|[k x] d Hx Hl IH]; [done |]. intros Hp _ parts fuel st acc rest Hs Hf.
  cbn [forallb map fst snd] in *. apply andb_true_iff in Hp as [[Hk Hpx]%andb_true_iff Hpl].
  apply seq_results_ok_cons in Hs as (m & ms & Hm & Hms & ->).
  unfold dumps_member in Hm. cbn [fst snd] in Hm.
  destruct (dumps x) as [t|] eqn:Ht; [| done]. cbn [rbind] in Hm.
  assert (m = dumps_string k ++ 58 :: t) as -> by congruence. clear Hm.
  assert (Hlen : (2 * length t + 2 <= 2 * length (dumps_string k ++ 58%Z :: t))%nat)
    by (rewrite length_app; cbn; lia).
  destruct d as [|[k2 y] d].
  - injection Hms as <-. cbn [join_comma] in *. destruct fuel as [|n]; [lia |].
    rewrite (scan_member_printed k t x) by (done || lia). cbn [read_members fst snd].
    by destruct (back st x) as [[st1 w]|].
  - destruct ms as [|m2 ms]; [by apply seq_results_ok_cons in Hms as (? & ? & _ & _ & ?) |].
    set (p := dumps_string k ++ 58 :: t) in *.
    change (join_comma (p :: m2 :: ms)) with (p ++ 44 :: join_comma (m2 :: ms)) in *.
    rewrite length_app in Hf. cbn [length] in Hf. rewrite <- app_assoc.
    destruct fuel as [|n]; [lia |]. unfold p.
    rewrite (scan_member_printed k t x) by (done || lia). cbn [app].
    change (read_members back st acc ((k, x) :: (k2, y) :: d))
      with (let! '(st1, w) := back st x in read_members back st1 (acc ++ [(k, w)]) ((k2, y) :: d)).
    destruct (back st x) as [[st1 w]|e]; [| done]. cbn [rbind].
    assert (Hws : skip_ws (join_comma (m2 :: ms) ++ 125 :: rest) = join_comma (m2 :: ms) ++ 125 :: rest).
    { pose proof Hms as Hms'. cbn [map] in Hms'.
      apply seq_results_ok_cons in Hms' as (a & r & Ha & _ & [= <- <-]).
      unfold dumps_member in Ha. inv_ok. by destruct ms. }
    cbn [expect skip_ws is_ws Z.eqb Pos.eqb orb]. rewrite Hws.
    apply IH; [done | done | done | lia].
Qed.

(** Every printable value scans. *)
Lemma scans_printable (v : pyval) : scans v.
Proof.
  induction v as [| b | z | ft | s | raw | l IH | d IH] using pyval_ind;
    intros Hp t fuel st rest Ht Hs Hf; cbn [dumps] in Ht; try done.
  - injection Ht as <-. destruct fuel; [cbn in Hf; lia | done].
  - destruct b; injection Ht as <-; (destruct fuel; [cbn in Hf; lia | done]).
  - injection Ht as <-. destruct (str_of_Z_shape z) as (c & r & Hz & _).
    destruct fuel; [rewrite Hz, length_app in Hf; cbn in Hf; lia |].
    rewrite scan_once_int by done. cbn [read_back].
    by destruct (parse_number false (str_of_Z z)).
  - injection Ht as <-. destruct fuel; [cbn in Hf; lia |]. unfold dumps_string.
    cbn [app scan_once scan_items scan_members Z.eqb Pos.eqb]. rewrite <- app_assoc. cbn [app].
    by rewrite scan_string_dumps.
  - inv_ok. cbn [length] in Hf. rewrite length_app in Hf. cbn [length] in Hf.
    destruct fuel; [lia |]. cbn [app]. rewrite <- app_assoc. cbn [app].
    rewrite scan_once_array. cbn [printable read_back] in *.
    destruct l as [|x l]; [by injection E as <- |].
    assert (Hne : x :: l <> []) by done.
    pose proof (scan_items_printed (x :: l) IH Hp Hne a fuel st [] rest E ltac:(lia)) as HI.
    cbn [map] in E. apply seq_results_ok_cons in E as (tx & ts & Htx & _ & ->).
    cbn [forallb] in Hp. apply andb_true_iff in Hp as [Hpx _].
    destruct (dumps_head x tx Htx Hpx) as (c & q & -> & Hc).
    assert (Hh : exists q', join_comma ((c :: q) :: ts) = c :: q') by (destruct ts; eexists; done).
    destruct Hh as [q' Hh]. rewrite Hh in *. cbn [app] in *.
    rewrite value_start_ws, value_start_expect, HI by done.
    by destruct (read_items back st [] (x :: l)) as [[st' ws]|].
  - inv_ok. cbn [length] in Hf. rewrite length_app in Hf. cbn [length] in Hf.
    destruct fuel; [lia |]. cbn [app]. rewrite <- app_assoc. cbn [app].
    rewrite scan_once_object. cbn [printable read_back] in *.
    destruct d as [|[k x] d]; [by injection E as <- |].
    assert (Hne : (k, x) :: d <> []) by done.
    pose proof (scan_members_printed ((k, x) :: d) IH Hp Hne a fuel st [] rest E ltac:(lia)) as HM.
    cbn [map] in E. apply seq_results_ok_cons in E as (tx & ts & Htx & _ & ->).
    assert (Hh : exists q, join_comma (tx :: ts) = 34 :: q).
    { inv_ok. unfold dumps_string. cbn [fst app]. destruct ts; eexists; reflexivity. }
    destruct Hh as [q Hh]. rewrite Hh in *. cbn [app skip_ws is_ws expect Z.eqb Pos.eqb orb] in *.
    rewrite HM. by destruct (read_members back st [] ((k, x) :: d)) as [[st' ps]|].
Qed.

(** [json.loads(json.dumps(v))] applies the hooks to [v], whatever they are. *)
Lemma loads_dumps (v : pyval) (t : pystr) (st : S) :
  printable v = true -> dumps v = Ok t ->
  loads parse_number parse_constant pairs_hook st t = back st v.
Proof.
  intros Hp Ht. destruct (dumps_head v t Ht Hp) as (c & r & Heq & Hc). unfold loads.
  assert (expect 65279 t = None) as -> by (rewrite Heq; by apply value_start_expect).
  assert (skip_ws t = t) as -> by (rewrite Heq; by apply value_start_ws).
  rewrite <- (app_nil_r t) at 2.
  rewrite (scans_printable v Hp t _ st [] Ht) by (done || lia).
  by destruct (back st v) as [[st' w]|].
Qed.

End PrintedText.

(** *** The fuel of [loads] is enough *)

Lemma skip_ws_length (l : pystr) : (length (skip_ws l) <= length l)%nat.
Proof. induction l as [|c l IH]; cbn; [lia |]. case_if; cbn; lia. Qed.

Lemma expect_length (c : Z) (l r : pystr) :
  expect c l = Some r -> (length r < length l)%nat.
Proof. destruct l as [|x l]; cbn; [done |]. case_if; intros [= <-]. lia. Qed.

Lemma strip_prefix_length (p l r : pystr) :
  strip_prefix p l = Some r -> (length r + length p = length l)%nat.
Proof.
  revert l. induction p as [|x p IH]; intros [|y l]; cbn; try (intros [= <-]; cbn; lia); try done.
  case_if; [| done]. intros H%IH. lia.
Qed.

Lemma scan_string_length (l s r : pystr) :
  scan_string l = Some (s, r) -> (length r < length l)%nat.
Proof.
  revert s r. induction l as [l IH] using (induction_ltof1 _ (@length Z)). unfold ltof in IH.
  assert (K : forall c l' s r, (length l' < length l)%nat ->
    prod_map (cons c) id <$> scan_string l' = Some (s, r) -> (length r < length l)%nat).
  { intros c l' s r Hl H. destruct (scan_string l') as [[s' r']|] eqn:E; [| done].
    injection H as <- <-. apply IH in E; [cbn; lia | done]. }
  intros s r. destruct l as [|c l]; cbn [scan_string]; [done |].
  repeat (case_match; try done); try (eapply K; subst; cbn; lia).
  intros [= <- <-]. cbn. lia.
Qed.

Lemma span_digits_length (l d r : pystr) :
  span_digits l = (d, r) -> (length r <= length l)%nat.
Proof.
  revert d r. induction l as [|c l IH]; cbn; intros d r; [by intros [= <- <-] |].
  case_if; [| by intros [= <- <-]].
  destruct (span_digits l) as [d' r'] eqn:Es. intros [= <- <-]. specialize (IH _ _ eq_refl). lia.
Qed.

Lemma scan_number_length (l tok r : pystr) (f : bool) :
  scan_number l = Some (tok, f, r) -> (length r < length l)%nat.
Proof.
  unfold scan_number. intros H.
  repeat (case_match; simplify_eq);
    repeat match goal with
    | E : expect _ _ = Some _ |- _ => apply expect_length in E
    | E : span_digits _ = _ |- _ => apply span_digits_length in E
    end; cbn in *; lia.
Qed.

Section Fuel.
Context {S : Type}.
Variable parse_number : bool -> pystr -> result pyval.
Variable parse_constant : pystr -> result pyval.
Variable pairs_hook : S -> list (pystr * pyval) -> result (S * pyval).
Variable cs : list exc_class.
Hypothesis json_class : existsb (exc_isa JSONDecodeError) cs = true.
Hypothesis number_total : forall b t, throws cs (parse_number b t).
Hypothesis constant_total : forall t, throws cs (parse_constant t).
Hypothesis hook_total : forall st ps, throws cs (pairs_hook st ps).

Abbreviation scan := (scan_once parse_number parse_constant pairs_hook).
Abbreviation members := (scan_members parse_number parse_constant pairs_hook).
Abbreviation items := (scan_items parse_number parse_constant pairs_hook).

(** A scan of [l] that raises only those classes and consumes at least one character. *)
Definition scans_down (l : pystr) (c : result (S * pyval * pystr)) : Prop :=
  throws cs c /\ forall st v rest, c = Ok (st, v, rest) -> (length rest < length l)%nat.

Lemma scans_down_raise (l : pystr) (e : exn) :
  existsb (exc_isa (exn_class e)) cs = true -> scans_down l (Raise e).
Proof. intros H. split; [by apply throws_raise | done]. Qed.

Lemma scans_down_ok (l : pystr) (x : S * pyval) (rest : pystr) :
  (length rest < length l)%nat -> scans_down l (Ok (x, rest)).
Proof. intros H. split; [done |]. by intros ? ? ? [= _ <-]. Qed.

Lemma scans_down_bind {A} (l : pystr) (c : result A) (k : A -> result (S * pyval * pystr)) :
  throws cs c -> (forall a, c = Ok a -> scans_down l (k a)) -> scans_down l (rbind c k).
Proof.
  intros Hc Hk. destruct c as [a|e]; cbn; [by apply Hk |].
  apply scans_down_raise. by apply Hc.
Qed.

Lemma scans_down_mono (l l' : pystr) (c : result (S * pyval * pystr)) :
  scans_down l' c -> (length l' <= length l)%nat -> scans_down l c.
Proof. intros [H1 H2] Hl. split; [done |]. intros st v rest E. specialize (H2 _ _ _ E). lia. Qed.

Definition once_down (n : nat) : Prop :=
  forall st l, (2 * length l + 1 <= n)%nat -> scans_down l (scan n st l).
Definition members_down (n : nat) : Prop :=
  forall st acc l, (2 * length l + 2 <= n)%nat -> scans_down l (members n st acc l).
Definition items_down (n : nat) : Prop :=
  forall st acc l, (2 * length l + 2 <= n)%nat -> scans_down l (items n st acc l).

Lemma once_down_step (n : nat) : members_down n -> items_down n -> once_down (Datatypes.S n).
Proof.
  intros IHm IHi st [|c r] Hf; [by apply scans_down_raise |]. cbn [length] in Hf.
  pose proof (skip_ws_length r).
  destruct (c =? 34) eqn:E1; [| destruct (c =? 123) eqn:E2; [| destruct (c =? 91) eqn:E3]].
  - cbn -[Z.eqb]. rewrite E1. destruct (scan_string r) as [[s rest]|] eqn:E.
    + apply scan_string_length in E. apply scans_down_ok. cbn. lia.
    + by apply scans_down_raise.
  - apply Z.eqb_eq in E2 as ->. rewrite scan_once_object.
    destruct (expect 125 (skip_ws r)) as [rest|] eqn:E.
    + apply expect_length in E. apply scans_down_bind; [apply hook_total |].
      intros [st' v] _. apply scans_down_ok. cbn. lia.
    + eapply scans_down_mono; [apply IHm; lia | cbn; lia].
  - apply Z.eqb_eq in E3 as ->. rewrite scan_once_array.
    destruct (expect 93 (skip_ws r)) as [rest|] eqn:E.
    + apply expect_length in E. apply scans_down_ok. cbn. lia.
    + eapply scans_down_mono; [apply IHi; lia | cbn; lia].
  - cbn -[Z.eqb scan_number strip_prefix ustr]. rewrite E1, E2, E3.
    repeat (case_match; [match goal with E : strip_prefix _ _ = Some _ |- _ =>
              apply strip_prefix_length in E; cbn in E end;
            first [apply scans_down_ok; cbn; lia
                  | apply scans_down_bind; [apply constant_total |]; intros ? _;
                    apply scans_down_ok; cbn; lia] |]).
    destruct (scan_number (c :: r)) as [[[tok f] rest]|] eqn:E; [| by apply scans_down_raise].
    apply scan_number_length in E. apply scans_down_bind; [apply number_total |].
    intros ? _. by apply scans_down_ok.
Qed.

Lemma members_down_step (n : nat) : once_down n -> members_down n -> members_down (Datatypes.S n).
Proof.
  intros IHs IHm st acc l Hf. rewrite scan_members_step.
  destruct (expect 34 l) as [r|] eqn:E; [apply expect_length in E | by apply scans_down_raise].
  destruct (scan_string r) as [[k r1]|] eqn:Es;
    [apply scan_string_length in Es | by apply scans_down_raise].
  pose proof (skip_ws_length r1).
  destruct (expect 58 (skip_ws r1)) as [r2|] eqn:E2;
    [apply expect_length in E2 | by apply scans_down_raise].
  pose proof (skip_ws_length r2). destruct (IHs st (skip_ws r2)) as [Hn Hd]; [lia |].
  apply scans_down_bind; [done |]. intros [[st1 v] r3] Ev. apply Hd in Ev.
  pose proof (skip_ws_length r3).
  destruct (expect 125 (skip_ws r3)) as [rest|] eqn:E3.
  - apply expect_length in E3. apply scans_down_bind; [apply hook_total |].
    intros [st2 d] _. apply scans_down_ok. lia.
  - destruct (expect 44 (skip_ws r3)) as [r4|] eqn:E4; [| by apply scans_down_raise].
    apply expect_length in E4. pose proof (skip_ws_length r4).
    eapply scans_down_mono; [apply IHm; lia | lia].
Qed.

Lemma items_down_step (n : nat) : once_down n -> items_down n -> items_down (Datatypes.S n).
Proof.
  intros IHs IHi st acc l Hf. rewrite scan_items_step.
  destruct (IHs st l) as [Hn Hd]; [lia |]. apply scans_down_bind; [done |].
  intros [[st1 v] r1] Ev. apply Hd in Ev. pose proof (skip_ws_length r1).
  destruct (expect 93 (skip_ws r1)) as [rest|] eqn:E3.
  - apply expect_length in E3. apply scans_down_ok. lia.
  - destruct (expect 44 (skip_ws r1)) as [r2|] eqn:E4; [| by apply scans_down_raise].
    apply expect_length in E4. pose proof (skip_ws_length r2).
    eapply scans_down_mono; [apply IHi; lia | lia].
Qed.

Lemma scan_fuel (fuel : nat) : once_down fuel /\ members_down fuel /\ items_down fuel.
Proof.
  induction fuel as [|n (IHs & IHm & IHi)]; [repeat split; intros; lia |].
  auto using once_down_step, members_down_step, items_down_step.
Qed.

(** [loads] always terminates, with a value, a JSONDecodeError or what one of
    the hooks raises. *)
Lemma loads_throws (st : S) (text : pystr) :
  throws cs (loads parse_number parse_constant pairs_hook st text).
Proof.
  unfold loads. destruct (expect 65279 text); [by apply throws_raise |].
  pose proof (skip_ws_length text).
  destruct (proj1 (scan_fuel (2 * length text + 2)) st (skip_ws text)) as [Hn _]; [lia |].
  apply throws_bind; [done |]. intros [[st' v] rest] _.
  destruct (skip_ws rest); [done |]. by apply throws_raise.
Qed.

End Fuel.

(** ** Objects with unique keys *)

(** The loop of a pairs hook that refuses a repeated key with the error [e] *)
Fixpoint unique_pairs (e : exn) (acc : pydict) (pairs : list (pystr * pyval)) : result pydict :=
  match pairs with
  | [] => Ok acc
  | (k, v) :: r => if dhas acc k then Raise e else unique_pairs e (dset acc k v) r
  end.

(** Keys are unique in every dictionary, as in every Python dictionary. *)
Fixpoint unique_keys (v : pyval) : bool :=
  match v with
  | PList l => forallb unique_keys l
  | PDict d => bool_decide (NoDup (dkeys d)) && forallb (fun kv => unique_keys (snd kv)) d
  | _ => true
  end.

Lemma unique_pairs_ok (e : exn) (acc pairs : pydict) :
  NoDup (dkeys (acc ++ pairs)) -> unique_pairs e acc pairs = Ok (acc ++ pairs).
Proof.
  revert acc. induction pairs as [|[k v] pairs IH]; intros acc H; cbn; [by rewrite app_nil_r |].
  assert (Hk : dhas acc k = false).
  { apply not_true_iff_false. unfold dhas. rewrite str_in_elem. intros Hin.
    unfold dkeys in H. rewrite map_app in H. apply NoDup_app in H as (_ & Hd & _).
    apply (Hd k Hin). left. }
  rewrite Hk, dkeys_dset_new, IH, <- app_assoc by (done || by rewrite <- app_assoc). done.
Qed.

Lemma unique_pairs_spec (e : exn) (acc pairs d : pydict) :
  unique_pairs e acc pairs = Ok d -> NoDup (dkeys acc) -> d = acc ++ pairs /\ NoDup (dkeys d).
Proof.
  revert acc. induction pairs as [|[k v] pairs IH]; intros acc; cbn.
  - intros [= <-] H. by rewrite app_nil_r.
  - destruct (dhas acc k) eqn:Hk; [done |]. intros H Hn.
    rewrite dkeys_dset_new in H by done.
    apply IH in H as [-> H]; [by rewrite <- app_assoc in * |].
    unfold dkeys. rewrite map_app. apply NoDup_app. split_and!; [done | | apply NoDup_singleton].
    intros x Hx ->%list_elem_of_singleton. apply not_true_iff_false in Hk.
    apply Hk. by apply str_in_elem.
Qed.

Lemma unique_pairs_throws (cs : list exc_class) (e : exn) (acc pairs : pydict) :
  existsb (exc_isa (exn_class e)) cs = true -> throws cs (unique_pairs e acc pairs).
Proof. intros He. revert acc. induction pairs as [|[k v] r IH]; intros acc; cbn; throws_tac; [by apply throws_raise | apply IH]. Qed.

(** A hook that builds the dictionary reads a value back as it is. *)
Lemma read_back_plain (hook : unit -> list (pystr * pyval) -> result (unit * pyval)) (v : pyval) :
  (forall d, NoDup (dkeys d) -> hook tt d = Ok (tt, PDict d)) ->
  unique_keys v = true ->
  read_back default_number hook tt v = Ok (tt, v).
Proof.
  intros Hh. induction v as [| b | z | t | s | raw | l IH | d IH] using pyval_ind; try done;
    cbn [unique_keys read_back].
  - intros _. by rewrite default_number_str.
  - intros Hu. assert (K : forall acc, read_items (read_back default_number hook)
        tt acc l = Ok (tt, acc ++ l)).
    { induction IH as [|x l Hx _ IH]; intros acc; cbn; [by rewrite app_nil_r |].
      cbn in Hu. apply andb_true_iff in Hu as [Hux Hul].
      rewrite (Hx Hux). cbn [rbind]. rewrite IH by done. by rewrite <- app_assoc. }
    by rewrite K.
  - intros [Hn Hu]%andb_true_iff. apply bool_decide_eq_true_1 in Hn.
    assert (K : forall acc, read_members (read_back default_number hook)
        tt acc d = Ok (tt, acc ++ d)).
    { clear Hn. induction IH as [|[k x] d Hx _ IH]; intros acc; cbn; [by rewrite app_nil_r |].
      cbn in Hu, Hx. apply andb_true_iff in Hu as [Hux Hul].
      rewrite (Hx Hux). cbn [rbind]. rewrite IH by done. by rewrite <- app_assoc. }
    rewrite K. cbn [rbind app]. by apply Hh.
Qed.

(** ** Plain text

    Numerals and the field names of the protocols print as themselves and take
    one byte per character. *)

Lemma digits_ascii (s : pystr) : forallb is_digit s = true -> forallb (Z.leb 0) s = true /\ forallb (fun c => c <? 128) s = true.
Proof.
  intros H. rewrite forallb_forall in H. split; apply forallb_forall; intros c Hc%H; unfold is_digit, in_range in Hc; lia.
Qed.

Lemma digits_plain (s : pystr) : forallb is_digit s = true -> flat_map escape_char s = s.
Proof.
  induction s as [|c s IH]; cbn; [done |]. intros [Hc Hs]%andb_true_iff. rewrite (IH Hs). unfold is_digit, in_range in Hc. unfold escape_char.
  repeat match goal with |- context [c =? ?k] => replace (c =? k) with false by lia end. replace (c <? 32) with false by lia. done.
Qed.

Lemma ascii_encodes (s : pystr) :
  forallb (Z.leb 0) s = true -> forallb (fun c => c <? 128) s = true -> exists b, utf8_encode s = Some b /\ blen b = blen s.
Proof.
  induction s as [|c s IH]; cbn [forallb utf8_encode]; [by exists [] |]. intros [H1 H2]%andb_true_iff [H3 H4]%andb_true_iff.
  destruct (IH H2 H4) as (b & -> & Hb). exists (z2b c :: b). unfold utf8_encode1, is_surrogate, in_range.
  replace ((c <? 0) || (1114111 <? c) || ((55296 <=? c) && (c <=? 57343))) with false by lia. rewrite H3.
  split; [done |]. unfold blen in *. cbn [length app]. lia.
Qed.

(** A positive 64-bit number has at most twenty digits. *)
Lemma str_of_u64 (n : Z) : 1 <= n <= MAX_U64 ->
  forallb is_digit (str_of_Z n) = true /\ match_pos_decimal (str_of_Z n) = true /\ digits_value (str_of_Z n) = n
  /\ (length (str_of_Z n) <= 20)%nat.
Proof.
  intros Hn. destruct (str_of_Z_shape n) as (c & r & -> & Hv & Hd & Hc). replace (n <? 0) with false by lia. cbn [app].
  rewrite Hv, Hd. assert (Hl : (length r <= 19)%nat).
  { destruct (decide (length r <= 19)%nat) as [H | H]; [done | exfalso]. cbn [forallb] in Hd. apply andb_true_iff in Hd as [Hd0 Hdr].
    destruct Hc as [Hc | [-> ->]]; [| cbn in H; lia].
    assert (Hge : forall s, forallb is_digit s = true -> 0 <= digits_value s).
    { intros s. unfold digits_value. generalize (eq_refl 0). change (0 = 0) with (0 = 0). intros _.
      assert (K : forall acc, 0 <= acc -> forallb is_digit s = true -> 0 <= fold_left (fun acc c => acc * 10 + (c - 48)) s acc).
      { induction s as [|x s IHs]; intros acc Ha Hs; [done |]. cbn in Hs |- *. apply andb_true_iff in Hs as [Hx Hs].
        apply IHs; [unfold is_digit, in_range in Hx; lia | done]. }
      intros Hs. by apply K. }
    change (c :: r) with ([c] ++ r) in Hv. rewrite digits_value_app in Hv. specialize (Hge r Hdr).
    assert (1 <= digits_value [c]) by (unfold digits_value, is_nonzero_digit, in_range in *; cbn; lia).
    assert (10 ^ 20 <= 10 ^ blen r) by (apply Z.pow_le_mono_r; unfold blen; lia). unfold MAX_U64 in Hn. nia. }
  split; [done |]. split; [| split; [lia | cbn; lia]]. unfold match_pos_decimal. cbn [forallb] in Hd.
  apply andb_true_iff in Hd as [_ ->]. rewrite (proj2 (Nat.leb_le _ _) Hl), !andb_true_r.
  destruct Hc as [Hc | [-> ->]]; [done |]. unfold digits_value in Hv. cbn in Hv. lia.
Qed.

Lemma str_of_u64_0 (n : Z) : 0 <= n <= MAX_U64 -> forallb is_digit (str_of_Z n) = true /\ blen (str_of_Z n) <= 20.
Proof.
  intros Hn. destruct (decide (n = 0)) as [-> | Hz]; [by vm_compute |].
  destruct (str_of_u64 n ltac:(lia)) as (Hd & _ & _ & Hl). split; [done |]. unfold blen. lia.
Qed.

(** Characters that need no escape *)
Definition plain_char (c : Z) : bool := in_range 32 c 126 && negb (c =? 34) && negb (c =? 92).
Definition plain_text (s : pystr) : bool := forallb plain_char s.

Lemma plain_escape (s : pystr) : plain_text s = true -> flat_map escape_char s = s.
Proof.
  induction s as [|c s IH]; cbn; [done |]. intros [Hc Hs]%andb_true_iff. rewrite (IH Hs). unfold plain_char, in_range in Hc. unfold escape_char.
  repeat match goal with |- context [c =? ?k] => replace (c =? k) with false by lia end. replace (c <? 32) with false by lia. done.
Qed.

Definition ascii_text (s : pystr) : bool := forallb (fun c => in_range 0 c 127) s.

Lemma ascii_app (a b : pystr) : ascii_text (a ++ b) = ascii_text a && ascii_text b.
Proof. apply forallb_app. Qed.

Lemma plain_ascii (s : pystr) : plain_text s = true -> ascii_text s = true.
Proof.
  unfold plain_text, ascii_text. rewrite !forallb_forall. intros H c Hc%H. unfold plain_char, in_range in *. lia.
Qed.

Lemma digits_plain_text (s : pystr) : forallb is_digit s = true -> plain_text s = true.
Proof. unfold plain_text. rewrite !forallb_forall. intros H c Hc%H. unfold is_digit, plain_char, in_range in *. lia. Qed.

Lemma ascii_utf8 (s : pystr) : ascii_text s = true -> exists b, utf8_encode s = Some b /\ blen b = blen s.
Proof.
  intros H. unfold ascii_text in H. apply ascii_encodes; apply forallb_forall; rewrite forallb_forall in H; intros c Hc%H; unfold in_range in Hc; lia.
Qed.

Lemma dumps_plain (s : pystr) : plain_text s = true -> dumps_string s = 34 :: s ++ [34].
Proof. intros H. unfold dumps_string. by rewrite plain_escape. Qed.

(** A member with a short name and a 64-bit number or short plain text *)
Definition flat_member (kv : pystr * pyval) : bool :=
  plain_text (fst kv) && (blen (fst kv) <=? 40)
  && match snd kv with
     | PInt z => in_range 0 z MAX_U64
     | PStr s => plain_text s && (blen s <=? 80)
     | _ => false
     end.

Lemma flat_member_text (kv : pystr * pyval) : flat_member kv = true ->
  exists t, dumps (snd kv) = Ok t /\ ascii_text (dumps_string (fst kv) ++ 58 :: t) = true /\ blen (dumps_string (fst kv) ++ 58 :: t) <= 125.
Proof.
  destruct kv as [k v]. unfold flat_member. cbn [fst snd]. intros H. bool_to_prop. rewrite (dumps_plain k) by done.
  assert (Hk : ascii_text k = true) by (by apply plain_ascii).
  assert (K : forall t, ascii_text t = true -> blen t <= 82 -> ascii_text ((34 :: k ++ [34]) ++ 58 :: t) = true /\ blen ((34 :: k ++ [34]) ++ 58 :: t) <= 125).
  { intros t Ht Hl. split; [cbn [app ascii_text forallb]; change (forallb ?f ?l) with (ascii_text l); rewrite !ascii_app, Hk; cbn; exact Ht |].
    unfold blen in *. cbn [length app]. rewrite !length_app. cbn. lia. }
  destruct v as [| | z | | s | | |]; try done; cbn [dumps]; bool_to_prop.
  - destruct (str_of_u64_0 z) as [Hd Hl]; [unfold in_range in *; lia |]. exists (str_of_Z z). split; [done |]. apply K; [| lia].
    by apply plain_ascii, digits_plain_text.
  - exists (dumps_string s). split; [done |]. rewrite dumps_plain by done. apply K.
    + cbn [ascii_text forallb]. change (forallb ?f ?l) with (ascii_text l). rewrite ascii_app, plain_ascii by done. done.
    + unfold blen in *. cbn [length]. rewrite length_app. cbn. lia.
Qed.

(** An object of such members prints as short ASCII text. *)
Lemma flat_dumps (d : pydict) : forallb flat_member d = true ->
  exists t, dumps (PDict d) = Ok t /\ ascii_text t = true /\ blen t <= 2 + 126 * blen d.
Proof.
  intros H. assert (K : exists parts, seq_results (map (fun kv => let! t := dumps (snd kv) in Ok (dumps_string (fst kv) ++ 58 :: t)) d) = Ok parts
                        /\ ascii_text (join_comma parts) = true /\ blen (join_comma parts) <= 126 * blen d).
  { induction d as [|kv d IH]; [by exists [] |]. cbn [forallb] in H. apply andb_true_iff in H as [H1 H2].
    destruct (IH H2) as (ps & Eps & Ha & Hl). destruct (flat_member_text kv H1) as (t & Et & Hta & Htl).
    exists ((dumps_string (fst kv) ++ 58 :: t) :: ps). split; [| split].
    - unfold seq_results in *. cbn [map foldr]. rewrite Et. cbn [rbind]. by rewrite Eps.
    - destruct ps as [|q ps]; [done |]. cbn [join_comma]. rewrite ascii_app, Hta. exact Ha.
    - unfold blen in *. cbn [length]. destruct ps as [|q ps]; [cbn [join_comma]; lia |]. cbn [join_comma] in *.
      rewrite length_app. cbn [length] in *. lia. }
  destruct K as (ps & Eps & Ha & Hl). exists (123 :: join_comma ps ++ [125]). split; [| split].
  - cbn [dumps]. by rewrite Eps.
  - cbn [ascii_text forallb]. change (forallb ?f ?l) with (ascii_text l). rewrite ascii_app, Ha. done.
  - unfold blen in *. cbn [length]. rewrite length_app. cbn [length]. lia.
Qed.

(** [text.encode("ascii")] *)
Definition encode_ascii (t : pystr) : result bytes :=
  match utf8_encode t with
  | Some b => if forallb (fun c => c <? 128) t then Ok b else Raise (err UnicodeEncodeError "ascii")
  | None => Raise (err UnicodeEncodeError "ascii")
  end.
