(* ===== verification/Abws.v ===== *)
(** * ABWS v1 outer framing ([agentbox_protocol/abws.py])

    The 24-byte header codec, the strict control-payload JSON, the whole-stream
    iterator and the incremental parser of one ordered leg. *)

From S2P Require Import Prelude PyVal Json.

Local Open Scope Z_scope.

Definition MAGIC : bytes := bstr "ABWS".
Definition VERSION : Z := 1.
Definition HEADER_SIZE : Z := 24.
Definition MAX_PAYLOAD : Z := 65512.
Definition MAX_WAW_PAYLOAD : Z := 49212.
Definition MAX_JSON_PAYLOAD : Z := 4096.
Definition MAX_JSON_DEPTH : Z := 16.
Definition MAX_JSON_KEYS : Z := 64.
Definition MAX_FRAME : Z := HEADER_SIZE + MAX_PAYLOAD.

Inductive FrameType : Type :=
| WS_HELLO | RUNTIME_HELLO | KEY_INIT | KEY_ATTEST | KEY_CONFIRM | KEY_CONFIRM_ACK
| HELLO_ACK | ADMITTED | INPUT | OUTPUT | RESIZE | HEARTBEAT | PING | PONG | DETACH
| EXIT | GAP | ACK | ERROR | CLOSE | STATE | STREAM_READY | STREAM_READY_ACK
| ADMISSION_COMMIT | ADMISSION_COMMIT_ACK | RESIZE_ACK | DETACH_ACK.

#[export] Instance FrameType_eq_dec : EqDecision FrameType.
Proof. solve_decision. Defined.

Definition all_frame_types : list FrameType :=
  [WS_HELLO; RUNTIME_HELLO; KEY_INIT; KEY_ATTEST; KEY_CONFIRM; KEY_CONFIRM_ACK;
   HELLO_ACK; ADMITTED; INPUT; OUTPUT; RESIZE; HEARTBEAT; PING; PONG; DETACH;
   EXIT; GAP; ACK; ERROR; CLOSE; STATE; STREAM_READY; STREAM_READY_ACK;
   ADMISSION_COMMIT; ADMISSION_COMMIT_ACK; RESIZE_ACK; DETACH_ACK].

(** [int(kind)] *)
Definition frame_code (k : FrameType) : Z :=
  match k with
  | WS_HELLO => 1 | RUNTIME_HELLO => 2 | KEY_INIT => 3 | KEY_ATTEST => 4
  | KEY_CONFIRM => 5 | KEY_CONFIRM_ACK => 6 | HELLO_ACK => 7 | ADMITTED => 8
  | INPUT => 9 | OUTPUT => 10 | RESIZE => 11 | HEARTBEAT => 12 | PING => 13
  | PONG => 14 | DETACH => 15 | EXIT => 16 | GAP => 17 | ACK => 18 | ERROR => 19
  | CLOSE => 20 | STATE => 21 | STREAM_READY => 22 | STREAM_READY_ACK => 23
  | ADMISSION_COMMIT => 24 | ADMISSION_COMMIT_ACK => 25 | RESIZE_ACK => 26
  | DETACH_ACK => 27
  end.

(** [FrameType(value)] as an option *)
Definition frame_of_code (z : Z) : option FrameType :=
  find (fun k => frame_code k =? z) all_frame_types.

Definition is_opaque (k : FrameType) : bool :=
  match k with INPUT | OUTPUT => true | _ => false end.
Definition is_json_type (k : FrameType) : bool := negb (is_opaque k).

Record ABWSFrame : Type := mkABWSFrame {
  frame_type : FrameType;
  hop_sequence : Z;
  payload : bytes;
  json_payload : option pydict
}.

(** ** Strict JSON payloads *)

Definition reject_constant (value : pystr) : result pyval :=
  Raise (err ABWSError "JSON constant is not permitted").

Definition build_unique : pydict -> list (pystr * pyval) -> result pydict := unique_pairs (err ABWSError "duplicate JSON object key").

Definition reject_duplicate_pairs (st : unit) (pairs : list (pystr * pyval)) : result (unit * pyval) :=
  let! d := build_unique [] pairs in Ok (tt, PDict d).

(** The two loops of [_validate_json_value], over the recursive call [f]. *)
Definition validate_members (f : pyval -> Z -> result Z) (depth : Z) :=
  fix go (d : list (pystr * pyval)) (key_count : Z) : result Z :=
    match d with
    | [] => Ok key_count
    | kv :: r =>
        let key_count := key_count + 1 in
        run! raise_if (MAX_JSON_KEYS <? key_count)
               (err ABWSError "JSON object key count exceeds ABWS control limit") in
        run! raise_if (MAX_JSON_DEPTH <? depth + 1)
               (err ABWSError "JSON nesting exceeds ABWS control limit") in
        run! raise_if (existsb is_surrogate (fst kv))
               (err ABWSError "unpaired UTF-16 surrogate is not permitted") in
        let! key_count := f (snd kv) key_count in
        go r key_count
    end.

Definition validate_items (f : pyval -> Z -> result Z) :=
  fix go (l : list pyval) (key_count : Z) : result Z :=
    match l with
    | [] => Ok key_count
    | item :: r => let! key_count := f item key_count in go r key_count
    end.

Fixpoint validate_json_value (value : pyval) (depth key_count : Z) : result Z :=
  if MAX_JSON_DEPTH <? depth then
    Raise (err ABWSError "JSON nesting exceeds ABWS control limit")
  else
    match value with
    | PStr s =>
        if existsb is_surrogate s
        then Raise (err ABWSError "unpaired UTF-16 surrogate is not permitted")
        else Ok key_count
    | PDict d =>
        validate_members (fun item kc => validate_json_value item (depth + 1) kc) depth d key_count
    | PList l =>
        validate_items (fun item kc => validate_json_value item (depth + 1) kc) l key_count
    | _ => Ok key_count
    end.

(** [type(d.get("protocol_version")) is int and d["protocol_version"] == 1] *)
Definition protocol_version_1 (d : pydict) : bool :=
  match dget d $"protocol_version" with
  | Some (PInt z) => z =? 1
  | _ => false
  end.

Definition decode_json (payload : bytes) : result pydict :=
  run! raise_if (MAX_JSON_PAYLOAD <? blen payload)
         (err ABWSError "JSON payload exceeds ABWS control limit") in
  match utf8_decode payload with
  | None => Raise (err ABWSError "JSON payload is not valid UTF-8")
  | Some text =>
      let! '(_, value) := except_as
        (loads default_number reject_constant reject_duplicate_pairs tt text)
        [JSONDecodeError; PyTypeError] (err ABWSError "JSON payload is malformed") in
      match value with
      | PDict d =>
          run! validate_json_value (PDict d) 0 0 in
          run! raise_if (negb (protocol_version_1 d))
                 (err ABWSError "ABWS control payload requires protocol_version=1") in
          Ok d
      | _ => Raise (err ABWSError "ABWS control payload must be a JSON object")
      end
  end.

(** [text.encode("utf-8")] *)
Definition py_encode (text : pystr) : result bytes :=
  match utf8_encode text with
  | Some b => Ok b
  | None => Raise (err UnicodeEncodeError "surrogates not allowed")
  end.

Definition encode_json (payload : pyval) : result bytes :=
  match payload with
  | PDict d =>
      run! raise_if (negb (protocol_version_1 d))
             (err ABWSError "ABWS control payload requires protocol_version=1") in
      run! validate_json_value (PDict d) 0 0 in
      let! data := except_as (let! text := dumps (PDict d) in py_encode text)
        [PyTypeError; UnicodeEncodeError; PyValueError]
        (err ABWSError "ABWS control payload is not strict JSON") in
      run! raise_if (MAX_JSON_PAYLOAD <? blen data)
             (err ABWSError "JSON payload exceeds ABWS control limit") in
      Ok data
  | _ => Raise (err PyTypeError "ABWS control payload must be a dictionary")
  end.

(** ** One frame *)

(** [FrameType(value)] finds a member by the value it is equal to: an integer, or
    a float without a fraction, whose literal is that of the integer and [.0]. *)
Definition coerce_type (frame_type : pyval) : result FrameType :=
  match frame_type with
  | PInt z => match frame_of_code z with
              | Some k => Ok k
              | None => Raise (err ABWSError "unknown ABWS frame type")
              end
  | PFloat t => match find (fun k => str_eqb t (str_of_Z (frame_code k) ++ $".0")) all_frame_types with
                | Some k => Ok k
                | None => Raise (err ABWSError "unknown ABWS frame type")
                end
  | _ => Raise (err ABWSError "unknown ABWS frame type")
  end.

Definition validate_header (version flags reserved payload_length : Z) : result unit :=
  run! raise_if (negb (version =? VERSION)) (err ABWSError "unsupported ABWS version") in
  run! raise_if (negb (flags =? 0))
         (err ABWSError "ABWS flags are reserved and must be zero") in
  run! raise_if (negb (reserved =? 0)) (err ABWSError "ABWS reserved field must be zero") in
  raise_if (MAX_PAYLOAD <? payload_length) (err ABWSError "ABWS payload exceeds parser limit").

(** [_HEADER.pack(...)] and [_HEADER.unpack(...)], format [!4sBBHIQI] *)
Definition header_pack (code len seq : Z) : bytes :=
  MAGIC ++ be_encode 1 VERSION ++ be_encode 1 code ++ be_encode 2 0
  ++ be_encode 4 len ++ be_encode 8 seq ++ be_encode 4 0.

Record header : Type := mkHeader {
  h_magic : bytes; h_version : Z; h_type : Z; h_flags : Z;
  h_length : Z; h_sequence : Z; h_reserved : Z
}.

Definition header_unpack (raw : bytes) : header :=
  {| h_magic := slice 0 4 raw;
     h_version := be_decode (slice 4 5 raw);
     h_type := be_decode (slice 5 6 raw);
     h_flags := be_decode (slice 6 8 raw);
     h_length := be_decode (slice 8 12 raw);
     h_sequence := be_decode (slice 12 20 raw);
     h_reserved := be_decode (slice 20 24 raw) |}.

Definition byte_of_item (v : pyval) : option byte :=
  match v with
  | PInt z => if in_range 0 z 255 then Some (z2b z) else None
  | PBool b => Some (z2b (Z.b2z b))
  | _ => None
  end.

(** [bytes(payload)] on a value that is neither a string nor a dictionary: a
    byte string, a count of zero bytes or an iterable of byte values. *)
Definition py_bytes (v : pyval) : result bytes :=
  let bad := Raise (err PyTypeError "opaque ABWS payload must be bytes") in
  let zeros z :=
    if 2 ^ 63 - 1 <? z then Raise (err PyOverflowError "cannot fit 'int' into an index-sized integer")
    else if z <? 0 then bad else Ok (replicate (Z.to_nat z) x00) in
  match v with
  | PBytes b => Ok b
  | PInt z => zeros z
  | PBool b => zeros (Z.b2z b)
  | PList l => match mapM byte_of_item l with Some b => Ok b | None => bad end
  | _ => bad
  end.

Definition encode_frame (frame_type payload hop_sequence : pyval) : result bytes :=
  let! kind := coerce_type frame_type in
  match hop_sequence with
  | PInt seq =>
      run! raise_if ((seq <? 1) || (MAX_U64 <? seq))
             (err ABWSError "hop_sequence must be a non-zero uint64") in
      let! encoded_payload :=
        if is_json_type kind then
          match payload with
          | PDict _ => encode_json payload
          | _ => Raise (err ABWSError "ABWS control payload must be a dictionary")
          end
        else
          match payload with
          | PStr _ | PDict _ => Raise (err PyTypeError "opaque ABWS payload must be bytes")
          | _ =>
              let! b := py_bytes payload in
              run! raise_if (MAX_WAW_PAYLOAD <? blen b)
                     (err ABWSError "WAW opaque payload exceeds 49,212-byte limit") in
              Ok b
          end in
      run! raise_if (MAX_PAYLOAD <? blen encoded_payload)
             (err ABWSError "ABWS payload exceeds parser limit") in
      Ok (header_pack (frame_code kind) (blen encoded_payload) seq ++ encoded_payload)
  | _ => Raise (err ABWSError "hop_sequence must be an integer")
  end.

Definition decode_frame (raw : bytes) (expected_sequence : option Z) : result ABWSFrame :=
  run! raise_if (blen raw <? HEADER_SIZE) (err IncompleteFrame "ABWS header is incomplete") in
  let h := header_unpack (slice_to HEADER_SIZE raw) in
  run! raise_if (negb (bytes_eqb (h_magic h) MAGIC)) (err ABWSError "invalid ABWS magic") in
  run! validate_header (h_version h) (h_flags h) (h_reserved h) (h_length h) in
  let! kind := coerce_type (PInt (h_type h)) in
  let expected_length := HEADER_SIZE + h_length h in
  run! raise_if (blen raw <? expected_length)
         (err IncompleteFrame "ABWS payload is incomplete") in
  run! raise_if (expected_length <? blen raw)
         (err TrailingBytes "ABWS single-frame decode has trailing bytes") in
  run! raise_if (h_sequence h <? 1) (err ABWSError "hop_sequence must be a non-zero uint64") in
  run! match expected_sequence with
       | None => Ok tt
       | Some e =>
           run! raise_if ((e <? 1) || (MAX_U64 <? e))
                  (err ABWSError "expected_sequence must be a non-zero uint64") in
           raise_if (negb (h_sequence h =? e)) (err ABWSError "ABWS hop sequence is not contiguous")
       end in
  let payload := slice_from HEADER_SIZE raw in
  let! json_payload :=
    if is_json_type kind then let! d := decode_json payload in Ok (Some d) else Ok None in
  Ok (mkABWSFrame kind (h_sequence h) payload json_payload).

(** ** A byte stream of whole frames *)

(** The generator: the frames it yields and the exception that ends it. *)
Fixpoint iter_frames_loop (fuel : nat) (remaining : bytes) : list ABWSFrame * option exn :=
  match fuel with
  | O => ([], Some (err FuelExhausted "iter_frames"))
  | S n =>
      match remaining with
      | [] => ([], None)
      | _ =>
          if blen remaining <? HEADER_SIZE then
            ([], Some (err IncompleteFrame "ABWS stream ends with a partial header"))
          else
            let frame_length :=
              HEADER_SIZE + h_length (header_unpack (slice_to HEADER_SIZE remaining)) in
            if blen remaining <? frame_length then
              ([], Some (err IncompleteFrame "ABWS stream ends with a partial frame"))
            else
              match decode_frame (slice_to frame_length remaining) None with
              | Raise e => ([], Some e)
              | Ok f =>
                  let '(fs, e) := iter_frames_loop n (slice_from frame_length remaining) in
                  (f :: fs, e)
              end
      end
  end.

Definition iter_frames (raw : bytes) : list ABWSFrame * option exn :=
  iter_frames_loop (S (length raw)) raw.

(** ** The incremental parser *)

Record ABWSParser : Type := mkParser {
  p_buffer : bytes;
  p_expected : Z;
  p_exhausted : bool
}.

Definition new_parser (first_sequence : Z) : result ABWSParser :=
  run! raise_if ((first_sequence <? 1) || (MAX_U64 <? first_sequence))
         (err ABWSError "first_sequence must be a non-zero uint64") in
  Ok (mkParser [] first_sequence false).

(** The inner loop [while len(self._buffer) >= HEADER_SIZE]: the parser after
    it, the frames appended and, when it raises, the exception.  [more] is
    [offset < len(chunk)]. *)
Fixpoint drain (fuel : nat) (p : ABWSParser) (more : bool)
  : ABWSParser * list ABWSFrame * option exn :=
  match fuel with
  | O => (p, [], Some (err FuelExhausted "drain"))
  | S n =>
      if blen (p_buffer p) <? HEADER_SIZE then (p, [], None)
      else
        let payload_length := h_length (header_unpack (slice_to HEADER_SIZE (p_buffer p))) in
        if MAX_PAYLOAD <? payload_length then
          (p, [], Some (err ABWSError "ABWS payload exceeds parser limit"))
        else
          let frame_length := HEADER_SIZE + payload_length in
          if blen (p_buffer p) <? frame_length then (p, [], None)
          else
            match decode_frame (slice_to frame_length (p_buffer p)) (Some (p_expected p)) with
            | Raise e => (p, [], Some e)
            | Ok frame =>
                let buffer := slice_from frame_length (p_buffer p) in
                if p_expected p =? MAX_U64 then
                  let p' := mkParser buffer (p_expected p) true in
                  if negb (blen buffer =? 0) || more then
                    (p', [frame], Some (err ABWSError "ABWS hop sequence exhausted"))
                  else
                    let '(p2, fs, e) := drain n p' more in (p2, frame :: fs, e)
                else
                  let p' := mkParser buffer (p_expected p + 1) (p_exhausted p) in
                  let '(p2, fs, e) := drain n p' more in (p2, frame :: fs, e)
            end
  end.

(** The outer loop of [feed], over the part of the chunk not yet taken. *)
Fixpoint feed_loop (fuel : nat) (p : ABWSParser) (rest : bytes)
  : ABWSParser * list ABWSFrame * option exn :=
  match fuel with
  | O => (p, [], Some (err FuelExhausted "feed"))
  | S n =>
      if (blen rest =? 0) && (blen (p_buffer p) =? 0) then (p, [], None)
      else
        let capacity := MAX_FRAME - blen (p_buffer p) in
        if negb (blen rest =? 0) && (capacity <=? 0) then
          (p, [], Some (err ABWSError "ABWS partial-frame buffer exceeds limit"))
        else
          let take := if blen rest =? 0 then 0 else Z.min capacity (blen rest) in
          let p1 := mkParser (p_buffer p ++ slice_to take rest) (p_expected p) (p_exhausted p) in
          let rest' := slice_from take rest in
          let more := negb (blen rest' =? 0) in
          let '(p2, frames, e) := drain (S (length (p_buffer p1))) p1 more in
          match e with
          | Some _ => (p2, frames, e)
          | None =>
              if negb more then (p2, frames, None)
              else if (blen (p_buffer p2) =? MAX_FRAME) && (Nat.eqb (length frames) 0) then
                (p2, frames, Some (err ABWSError "ABWS partial-frame buffer exceeds limit"))
              else
                let '(p3, frames', e') := feed_loop n p2 rest' in (p3, frames ++ frames', e')
          end
  end.

(** [feed(data)]: the parser it leaves behind, and the frames it returns or
    the exception it raises (the frames parsed before it are then lost). *)
Definition feed (p : ABWSParser) (data : bytes) : ABWSParser * result (list ABWSFrame) :=
  if p_exhausted p && negb (blen data =? 0) then
    (p, Raise (err ABWSError "ABWS hop sequence exhausted"))
  else
    let '(p', frames, e) := feed_loop (S (length data)) p data in
    (p', match e with Some x => Raise x | None => Ok frames end).

Definition finish (p : ABWSParser) : result unit :=
  raise_if (negb (blen (p_buffer p) =? 0))
    (err IncompleteFrame "ABWS stream ended before a complete frame").

(** ** Reference definitions for the theorems *)

(** Nesting depth, number of object keys and absence of surrogates. *)
Fixpoint json_depth (v : pyval) : Z :=
  match v with
  | PList ((_ :: _) as l) => 1 + foldr Z.max 0 (map json_depth l)
  | PDict ((_ :: _) as d) => 1 + foldr Z.max 0 (map (fun kv => json_depth (snd kv)) d)
  | _ => 0
  end.

Fixpoint json_keys (v : pyval) : Z :=
  match v with
  | PList l => foldr Z.add 0 (map json_keys l)
  | PDict d => foldr Z.add 0 (map (fun kv => 1 + json_keys (snd kv)) d)
  | _ => 0
  end.

Fixpoint no_surrogates (v : pyval) : bool :=
  match v with
  | PStr s => negb (existsb is_surrogate s)
  | PList l => forallb no_surrogates l
  | PDict d => forallb (fun kv => negb (existsb is_surrogate (fst kv)) && no_surrogates (snd kv)) d
  | _ => true
  end.

(** ** Lemmas *)

Lemma frame_of_code_code (k : FrameType) : frame_of_code (frame_code k) = Some k.
Proof. by destruct k. Qed.

Lemma frame_of_code_spec (z : Z) (k : FrameType) :
  frame_of_code z = Some k -> z = frame_code k.
Proof. unfold frame_of_code. intros H%find_some. destruct H as [_ H]. lia. Qed.

Lemma frame_code_range (k : FrameType) : 1 <= frame_code k <= 27.
Proof. by destruct k. Qed.

Lemma blen_header_pack (c l s : Z) : blen (header_pack c l s) = HEADER_SIZE.
Proof. reflexivity. Qed.

Lemma header_unpack_pack (c l s : Z) :
  0 <= c < 256 -> 0 <= l < 2 ^ 32 -> 0 <= s < 2 ^ 64 ->
  header_unpack (header_pack c l s) = mkHeader MAGIC VERSION c 0 l s 0.
Proof.
  intros Hc Hl Hs. unfold header_unpack.
  change (slice 0 4 (header_pack c l s)) with MAGIC.
  change (slice 4 5 (header_pack c l s)) with (be_encode 1 VERSION).
  change (slice 5 6 (header_pack c l s)) with (be_encode 1 c).
  change (slice 6 8 (header_pack c l s)) with (be_encode 2 0).
  change (slice 8 12 (header_pack c l s)) with (be_encode 4 l).
  change (slice 12 20 (header_pack c l s)) with (be_encode 8 s).
  change (slice 20 24 (header_pack c l s)) with (be_encode 4 0).
  rewrite (be_decode_encode 1 c), (be_decode_encode 4 l), (be_decode_encode 8 s) by (cbn in *; lia).
  reflexivity.
Qed.

(** A 24-byte header with the fixed fields is the packing of its variable ones. *)
Lemma header_pack_unpack (raw : bytes) :
  blen raw = HEADER_SIZE -> h_magic (header_unpack raw) = MAGIC ->
  h_version (header_unpack raw) = VERSION -> h_flags (header_unpack raw) = 0 ->
  h_reserved (header_unpack raw) = 0 ->
  raw = header_pack (h_type (header_unpack raw)) (h_length (header_unpack raw))
                    (h_sequence (header_unpack raw)).
Proof.
  unfold header_pack. intros Hl Hm Hv Hf Hr. rewrite <- Hm, <- Hv.
  rewrite <- Hf at 1. rewrite <- Hr at 1. unfold HEADER_SIZE, blen in Hl.
  do 24 (destruct raw as [|? raw]; [cbn in Hl; lia |]). destruct raw; [| cbn in Hl; lia].
  cbn [header_unpack h_magic h_version h_type h_flags h_length h_sequence h_reserved].
  rewrite !be_encode_decode_n by reflexivity. reflexivity.
Qed.

(** *** The control-payload limits *)

Lemma json_keys_nonneg (v : pyval) : 0 <= json_keys v.
Proof.
  induction v as [| | | | | | l IH | d IH] using pyval_ind; cbn; try lia.
  - induction IH; cbn; lia.
  - induction IH; cbn; lia.
Qed.

Lemma json_depth_nonneg (v : pyval) : 0 <= json_depth v.
Proof.
  assert (K : forall l : list Z, 0 <= foldr Z.max 0 l) by (induction l; cbn; lia).
  destruct v as [| | | | | | [|x l] | [|x d]]; cbn [json_depth]; try lia;
    match goal with |- context [foldr Z.max 0 ?l] => specialize (K l) end; lia.
Qed.

(** What [validate_json_value] decides, given a key count still in bounds. *)
Definition validates (v : pyval) : Prop :=
  forall depth kc n, kc <= MAX_JSON_KEYS ->
  validate_json_value v depth kc = Ok n <->
  depth + json_depth v <= MAX_JSON_DEPTH /\ kc + json_keys v <= MAX_JSON_KEYS
  /\ no_surrogates v = true /\ n = kc + json_keys v.

Lemma foldr_max_le (l : list Z) (z : Z) :
  0 <= z -> foldr Z.max 0 l <= z <-> Forall (fun x => x <= z) l.
Proof.
  intros Hz. induction l as [|x l IH]; cbn; [split; [constructor | lia] |].
  rewrite Forall_cons, <- IH. lia.
Qed.

Lemma validates_scalar (v : pyval) :
  json_depth v = 0 -> json_keys v = 0 ->
  (forall depth kc, validate_json_value v depth kc
     = if MAX_JSON_DEPTH <? depth then Raise (err ABWSError "JSON nesting exceeds ABWS control limit")
       else if no_surrogates v then Ok kc
       else Raise (err ABWSError "unpaired UTF-16 surrogate is not permitted")) ->
  validates v.
Proof.
  intros Hd Hk Hv depth kc n Hkc. rewrite Hv, Hd, Hk.
  destruct (MAX_JSON_DEPTH <? depth) eqn:E; bool_to_prop; [split; [done | lia] |].
  destruct (no_surrogates v); (split; [| intros (_ & _ & H & ->)]).
  - intros [= ->]. lia.
  - f_equal. lia.
  - done.
  - done.
Qed.

Lemma validate_items_spec (l : list pyval) (depth : Z) :
  Forall validates l -> depth + 1 <= MAX_JSON_DEPTH -> forall kc n, kc <= MAX_JSON_KEYS ->
  validate_items (fun item kc => validate_json_value item (depth + 1) kc) l kc = Ok n <->
  Forall (fun z => z <= MAX_JSON_DEPTH - (depth + 1)) (map json_depth l)
  /\ kc + foldr Z.add 0 (map json_keys l) <= MAX_JSON_KEYS
  /\ forallb no_surrogates l = true /\ n = kc + foldr Z.add 0 (map json_keys l).
Proof.
  intros Hl Hd. induction Hl as [|x l Hx Hl IH]; intros kc n Hkc; cbn.
  - split; [intros [= ->]; repeat split; [constructor | lia | lia] | intros (_ & _ & _ & ->); f_equal; lia].
  - rewrite rbind_ok, Forall_cons, andb_true_iff. pose proof (json_keys_nonneg x).
    assert (0 <= foldr Z.add 0 (map json_keys l))
      by (clear; induction l as [|y l IH]; cbn; [lia |]; pose proof (json_keys_nonneg y); lia).
    split.
    + intros (k1 & H1 & H2). apply Hx in H1 as (? & ? & ? & ->); [| done].
      apply IH in H2 as (? & ? & ? & ->); [| lia]. repeat split; try done; lia.
    + intros ((? & ?) & ? & (? & ?) & ->). exists (kc + json_keys x). split.
      * apply Hx; [done |]. repeat split; try done; lia.
      * apply IH; [lia |]. repeat split; try done; lia.
Qed.

Lemma validate_members_spec (d : list (pystr * pyval)) (depth : Z) :
  Forall (fun kv => validates (snd kv)) d -> depth + 1 <= MAX_JSON_DEPTH ->
  forall kc n, kc <= MAX_JSON_KEYS ->
  validate_members (fun item kc => validate_json_value item (depth + 1) kc) depth d kc = Ok n <->
  Forall (fun z => z <= MAX_JSON_DEPTH - (depth + 1)) (map (fun kv => json_depth (snd kv)) d)
  /\ kc + foldr Z.add 0 (map (fun kv => 1 + json_keys (snd kv)) d) <= MAX_JSON_KEYS
  /\ forallb (fun kv => negb (existsb is_surrogate (fst kv)) && no_surrogates (snd kv)) d = true
  /\ n = kc + foldr Z.add 0 (map (fun kv => 1 + json_keys (snd kv)) d).
Proof.
  intros Hl Hd. induction Hl as [|[k x] d Hx Hl IH]; intros kc n Hkc; cbn.
  - split; [intros [= ->]; repeat split; [constructor | lia | lia] | intros (_ & _ & _ & ->); f_equal; lia].
  - cbn [snd] in Hx. rewrite Forall_cons, !andb_true_iff, negb_true_iff.
    pose proof (json_keys_nonneg x).
    assert (0 <= foldr Z.add 0 (map (fun kv => 1 + json_keys (snd kv)) d))
      by (clear; induction d as [|[k y] d IH]; cbn; [lia |]; pose proof (json_keys_nonneg y); lia).
    replace (MAX_JSON_DEPTH <? depth + 1) with false by lia. cbn [raise_if rbind].
    split.
    + intros Hv. inv_ok. bool_to_prop. apply Hx in E as (? & ? & ? & ->); [| done].
      apply IH in Hv as (? & ? & ? & ->); [| lia]. repeat split; try done; lia.
    + intros ((? & ?) & ? & ((-> & ?) & ?) & ->).
      replace (MAX_JSON_KEYS <? kc + 1) with false by lia. cbn [raise_if rbind].
      rewrite (proj2 (Hx (depth + 1) (kc + 1) (kc + 1 + json_keys x) ltac:(lia)))
        by (repeat split; try done; lia). cbn [rbind].
      apply IH; [lia |]. repeat split; try done; lia.
Qed.

Lemma validates_all (v : pyval) : validates v.
Proof.
  induction v as [| b | z | t | s | raw | l IH | d IH] using pyval_ind.
  1-4, 6: apply validates_scalar; try done; intros; cbn [validate_json_value no_surrogates]; by case_if.
  - apply validates_scalar; try done. intros. cbn [validate_json_value no_surrogates].
    repeat case_if; done.
  - destruct l as [|x l].
    { by apply validates_scalar. }
    intros depth kc n Hkc. cbn [validate_json_value json_depth json_keys no_surrogates].
    destruct (MAX_JSON_DEPTH <? depth) eqn:E; bool_to_prop.
    { split; [done |]. pose proof (json_depth_nonneg (PList (x :: l))). cbn [json_depth] in *. lia. }
    destruct (Z_le_gt_dec (depth + 1) MAX_JSON_DEPTH) as [Hd | Hd].
    + rewrite (validate_items_spec _ _ IH Hd kc n Hkc), <- foldr_max_le by lia.
      cbn [map foldr forallb]. split; intros (? & ? & ? & ?); repeat split; done || lia.
    + inversion IH as [|? ? Hx _]; subst. cbn [validate_items map foldr].
      rewrite rbind_ok. pose proof (json_depth_nonneg x). split.
      * intros (k & H1 & _). apply Hx in H1; [lia | done].
      * lia.
  - destruct d as [|[k x] d].
    { by apply validates_scalar. }
    intros depth kc n Hkc. cbn [validate_json_value json_depth json_keys no_surrogates].
    destruct (MAX_JSON_DEPTH <? depth) eqn:E; bool_to_prop.
    { split; [done |]. pose proof (json_depth_nonneg (PDict ((k, x) :: d))). cbn [json_depth] in *. lia. }
    destruct (Z_le_gt_dec (depth + 1) MAX_JSON_DEPTH) as [Hd | Hd].
    + rewrite (validate_members_spec _ _ IH Hd kc n Hkc), <- foldr_max_le by lia.
      cbn [map foldr forallb]. split; intros (? & ? & ? & ?); repeat split; done || lia.
    + cbn [validate_members map foldr fst snd]. pose proof (json_depth_nonneg x).
      replace (MAX_JSON_DEPTH <? depth + 1) with true by lia. split; [| lia].
      intros Hv. inv_ok.
Qed.

(** *** Reading a control payload back *)

Lemma reject_duplicate_ok (d : pydict) : NoDup (dkeys d) -> reject_duplicate_pairs tt d = Ok (tt, PDict d).
Proof. intros Hd. unfold reject_duplicate_pairs, build_unique. by rewrite (unique_pairs_ok _ [] d). Qed.

(** [_decode_json] inverts [_encode_json] on payloads without floats. *)
Lemma decode_encode_json (d : pydict) (data : bytes) :
  printable (PDict d) = true -> unique_keys (PDict d) = true ->
  encode_json (PDict d) = Ok data -> decode_json data = Ok d.
Proof.
  intros Hp Hu H. unfold encode_json in H. inv_ok. unfold decode_json.
  rewrite G0. cbn [raise_if rbind]. apply except_as_ok in E0. inv_ok.
  unfold py_encode in E0. destruct (utf8_encode a0) as [b|] eqn:Eu; [| done]. inv_ok.
  rewrite (utf8_decode_encode _ _ Eu).
  rewrite (loads_dumps _ _ _ _ _ _ Hp E1), read_back_plain by (done || apply reject_duplicate_ok). cbn [except_as rbind].
  by rewrite E, G.
Qed.

(** *** Frames *)

(** What a successful decode establishes of the bytes and of the frame. *)
Lemma decode_frame_ok (raw : bytes) (e : option Z) (f : ABWSFrame) :
  decode_frame raw e = Ok f ->
  raw = header_pack (frame_code (frame_type f)) (blen (payload f)) (hop_sequence f) ++ payload f
  /\ 1 <= hop_sequence f <= MAX_U64 /\ blen (payload f) <= MAX_PAYLOAD
  /\ (forall s, e = Some s -> hop_sequence f = s)
  /\ (if is_json_type (frame_type f) then exists d, json_payload f = Some d /\ decode_json (payload f) = Ok d
      else json_payload f = None).
Proof.
  unfold decode_frame, validate_header. intros H. inv_ok. bool_to_prop.
  assert (Hl : blen (slice_to HEADER_SIZE raw) = HEADER_SIZE)
    by (apply blen_slice_to; unfold HEADER_SIZE in *; lia).
  set (hd := slice_to HEADER_SIZE raw) in *.
  assert (Hs : 0 <= h_sequence (header_unpack hd) < 256 ^ 8).
  { cbn [h_sequence header_unpack]. pose proof (be_decode_range (slice 12 20 hd)) as Hr.
    replace (blen (slice 12 20 hd)) with 8 in Hr; [done |].
    unfold slice, blen. rewrite length_take, length_drop. unfold blen, HEADER_SIZE in Hl. lia. }
  assert (Hp : blen (slice_from HEADER_SIZE raw) = h_length (header_unpack hd))
    by (rewrite blen_slice_from; lia || unfold HEADER_SIZE in *; lia).
  cbn [coerce_type] in E0. destruct (frame_of_code (h_type (header_unpack hd))) as [k|] eqn:Ek;
    [| done]. injection E0 as <-. apply frame_of_code_spec in Ek.
  assert (Hraw : raw = header_pack (frame_code k) (h_length (header_unpack hd))
                         (h_sequence (header_unpack hd)) ++ slice_from HEADER_SIZE raw).
  { rewrite <- Ek, <- header_pack_unpack; [apply slice_split | done | | | |]; try lia.
    by apply bytes_eqb_eq. }
  destruct (is_json_type k) eqn:Ej; inv_ok; cbn [frame_type payload hop_sequence json_payload];
    rewrite Hp, Ej; (split_and!; [done | lia | unfold MAX_U64; lia | lia | | eauto]);
    intros s ->; inv_ok; bool_to_prop; lia.
Qed.

(** Decoding a packed frame reduces to decoding its payload. *)
Lemma decode_frame_pack (k : FrameType) (s : Z) (p : bytes) (e : option Z) :
  1 <= s <= MAX_U64 -> blen p <= MAX_PAYLOAD -> e = None \/ e = Some s ->
  decode_frame (header_pack (frame_code k) (blen p) s ++ p) e
  = let! j := if is_json_type k then let! d := decode_json p in Ok (Some d) else Ok None in
    Ok (mkABWSFrame k s p j).
Proof.
  intros Hs Hp He. pose proof (frame_code_range k). pose proof (blen_nonneg p).
  unfold decode_frame. rewrite slice_to_app, slice_from_app by reflexivity.
  rewrite header_unpack_pack by (unfold MAX_U64, MAX_PAYLOAD in *; lia).
  cbn [h_magic h_version h_type h_flags h_length h_sequence h_reserved].
  rewrite blen_app, blen_header_pack. unfold HEADER_SIZE, validate_header.
  replace (24 + blen p <? 24) with false by lia.
  replace (MAX_PAYLOAD <? blen p) with false by lia.
  rewrite !Z.ltb_irrefl. replace (bytes_eqb MAGIC MAGIC) with true by reflexivity.
  unfold VERSION. rewrite !Z.eqb_refl. cbn [raise_if rbind negb coerce_type].
  rewrite frame_of_code_code. cbn [rbind].
  destruct He as [-> | ->]; replace (s <? 1) with false by lia; cbn [raise_if rbind]; [done |].
  replace (MAX_U64 <? s) with false by lia. by rewrite Z.eqb_refl.
Qed.

(** *** The incremental parser on a stream of frames *)

(** [rs] are the encodings of [fs] at consecutive sequences from [s]. *)
Fixpoint frames_at (s : Z) (rs : list bytes) (fs : list ABWSFrame) : Prop :=
  match rs, fs with
  | [], [] => True
  | r :: rs', f :: fs' => decode_frame r (Some s) = Ok f /\ frames_at (s + 1) rs' fs'
  | _, _ => False
  end.

(** The parser that expects sequence [s] next; past the last one it is exhausted. *)
Definition at_pos (s : Z) (buffer : bytes) : ABWSParser :=
  mkParser buffer (Z.min s MAX_U64) (MAX_U64 <? s).

(** [b] is what is buffered of a stream that continues with [rs]: less than
    the first frame. *)
Definition partial (b : bytes) (rs : list bytes) : Prop :=
  match rs with
  | [] => b = []
  | r :: _ => blen b < blen r
  end.

(** Feed the chunks of a stream one after the other. *)
Fixpoint feed_all (p : ABWSParser) (chunks : list bytes) : ABWSParser * result (list ABWSFrame) :=
  match chunks with
  | [] => (p, Ok [])
  | c :: cs =>
      match feed p c with
      | (p1, Raise e) => (p1, Raise e)
      | (p1, Ok fs) => let '(p2, r) := feed_all p1 cs in (p2, let! gs := r in Ok (fs ++ gs))
      end
  end.

Lemma frame_size (r : bytes) (e : option Z) (f : ABWSFrame) :
  decode_frame r e = Ok f -> HEADER_SIZE <= blen r <= MAX_FRAME.
Proof.
  intros H%decode_frame_ok. destruct H as (-> & _ & Hp & _).
  rewrite blen_app, blen_header_pack. pose proof (blen_nonneg (payload f)). unfold MAX_FRAME. lia.
Qed.

(** The length field read from a buffered header is the frame's own. *)
Lemma peek_length (r b x y : bytes) (e : option Z) (f : ABWSFrame) :
  decode_frame r e = Ok f -> b ++ x = r ++ y -> HEADER_SIZE <= blen b ->
  HEADER_SIZE + h_length (header_unpack (slice_to HEADER_SIZE b)) = blen r
  /\ h_length (header_unpack (slice_to HEADER_SIZE b)) <= MAX_PAYLOAD.
Proof.
  intros H Hb Hl. pose proof H as (Hr & Hs & Hp & _)%decode_frame_ok.
  assert (Hh : slice_to HEADER_SIZE b
               = header_pack (frame_code (frame_type f)) (blen (payload f)) (hop_sequence f)).
  { transitivity (slice_to HEADER_SIZE (b ++ x)).
    - unfold slice_to. rewrite take_app_le; [done |]. unfold HEADER_SIZE, blen in *. lia.
    - rewrite Hb, Hr, <- app_assoc. by apply slice_to_app. }
  pose proof (frame_code_range (frame_type f)). pose proof (blen_nonneg (payload f)).
  rewrite Hh, header_unpack_pack by (unfold MAX_PAYLOAD, MAX_U64 in *; lia).
  cbn [h_length]. rewrite Hr, blen_app, blen_header_pack. split; [done | lia].
Qed.

Lemma app_split_ge (b x r y : bytes) :
  b ++ x = r ++ y -> blen r <= blen b -> exists b', b = r ++ b' /\ b' ++ x = y.
Proof.
  unfold blen. intros H Hl. exists (drop (length r) b).
  assert (Hr : take (length r) b = r).
  { rewrite <- (take_app_le b x) by lia. rewrite H. apply take_app_length. }
  split; [by rewrite <- Hr at 1; rewrite take_drop |].
  rewrite <- drop_app_le by lia. rewrite H. apply drop_app_length.
Qed.

(** The inner loop stops on less than a frame ... *)
Lemma drain_stops (r b x y : bytes) (s : Z) (f : ABWSFrame) (n : nat) (more : bool) :
  decode_frame r (Some s) = Ok f -> b ++ x = r ++ y -> blen b < blen r ->
  drain (S n) (at_pos s b) more = (at_pos s b, [], None).
Proof.
  intros Hr Hb Hlt. cbn [drain at_pos p_buffer].
  destruct (blen b <? HEADER_SIZE) eqn:E; [done |]. bool_to_prop.
  destruct (peek_length _ _ _ _ _ _ Hr Hb E) as [Hpk Hpm].
  rewrite Hpk. replace (MAX_PAYLOAD <? _) with false by lia.
  by replace (blen b <? blen r) with true by lia.
Qed.

(** ... and takes a whole frame off the buffer, moving to the next sequence. *)
Lemma drain_steps (r b : bytes) (s : Z) (f : ABWSFrame) (n : nat) (more : bool) :
  decode_frame r (Some s) = Ok f -> 1 <= s <= MAX_U64 ->
  (s = MAX_U64 -> b = [] /\ more = false) ->
  drain (S n) (at_pos s (r ++ b)) more
  = let '(p2, fs, e) := drain n (at_pos (s + 1) b) more in (p2, f :: fs, e).
Proof.
  intros Hr Hs Hlast. pose proof (frame_size _ _ _ Hr) as Hsz. pose proof (blen_nonneg b).
  destruct (peek_length r (r ++ b) [] b _ _ Hr) as [Hpk Hpm];
    [by rewrite app_nil_r | rewrite blen_app; lia |].
  cbn [drain at_pos p_buffer p_expected p_exhausted].
  rewrite Hpk, blen_app. replace (blen r + blen b <? HEADER_SIZE) with false by lia.
  replace (MAX_PAYLOAD <? _) with false by lia.
  replace (blen r + blen b <? blen r) with false by lia.
  rewrite slice_to_app, slice_from_app by done.
  replace (Z.min s MAX_U64) with s by lia. rewrite Hr. unfold at_pos.
  destruct (s =? MAX_U64) eqn:E; bool_to_prop.
  - destruct Hlast as [-> ->]; [done |]. cbn [blen length Z.of_nat Z.eqb negb orb].
    replace (Z.min (s + 1) MAX_U64) with s by lia. by replace (MAX_U64 <? s + 1) with true by lia.
  - replace (Z.min (s + 1) MAX_U64) with (s + 1) by lia.
    replace (MAX_U64 <? s + 1) with false by lia. by replace (MAX_U64 <? s) with false by lia.
Qed.

Lemma blen_cons {A} (x : A) (l : list A) : blen (x :: l) = 1 + blen l.
Proof. unfold blen. cbn [length]. lia. Qed.

(** The inner loop parses exactly the whole frames that are buffered. *)
Lemma drain_stream (rs : list bytes) : forall fs s b x fuel more,
  frames_at s rs fs -> 1 <= s -> s + blen rs <= MAX_U64 + 1 ->
  b ++ x = concat rs -> (more = true -> x <> []) -> (length b < fuel)%nat ->
  exists rs1 rs2 fs1 fs2 b', rs = rs1 ++ rs2 /\ fs = fs1 ++ fs2 /\ b = concat rs1 ++ b'
    /\ frames_at (s + blen rs1) rs2 fs2 /\ partial b' rs2
    /\ drain fuel (at_pos s b) more = (at_pos (s + blen rs1) b', fs1, None).
Proof.
  induction rs as [|r rs IH]; intros [|f fs] s b x fuel more Hf Hs Hmax Hb Hmore Hfuel;
    try done; (destruct fuel as [|n]; [lia |]).
  - apply app_nil in Hb as [-> ->]. exists [], [], [], [], [].
    change (blen (@nil bytes)) with 0. rewrite Z.add_0_r. split_and!; done.
  - destruct Hf as [Hr Hf]. cbn [concat] in Hb. rewrite blen_cons in Hmax.
    destruct (Z_lt_le_dec (blen b) (blen r)) as [Hlt | Hge].
    + exists [], (r :: rs), [], (f :: fs), b. change (blen (@nil bytes)) with 0. rewrite Z.add_0_r.
      split_and!; try done. by eapply drain_stops.
    + destruct (app_split_ge _ _ _ _ Hb Hge) as (b2 & -> & Hb2).
      pose proof (frame_size _ _ _ Hr) as Hsz. pose proof (blen_nonneg rs).
      assert (Hn : (length b2 < n)%nat)
        by (rewrite length_app in Hfuel; unfold blen, HEADER_SIZE in *; lia).
      destruct (IH fs (s + 1) b2 x n more Hf ltac:(lia) ltac:(lia) Hb2 Hmore Hn)
        as (rs1 & rs2 & fs1 & fs2 & b' & Hrs & -> & Hb2' & Hf2 & Hp & Hd).
      exists (r :: rs1), rs2, (f :: fs1), fs2, b'. rewrite blen_cons, Z.add_assoc.
      split_and!; try done; [by rewrite Hrs | by rewrite Hb2'; cbn; rewrite app_assoc |].
      rewrite (drain_steps r b2 s f); [by rewrite Hd | done | lia |].
      intros ->. destruct rs; [| rewrite blen_cons in Hmax; pose proof (blen_nonneg rs); lia].
      apply app_nil in Hb2 as [-> ->]. split; [done |]. destruct more; [by destruct Hmore | done].
Qed.

Lemma partial_cap (b : bytes) (rs : list bytes) (fs : list ABWSFrame) (s : Z) :
  partial b rs -> frames_at s rs fs -> blen b < MAX_FRAME.
Proof.
  destruct rs as [|r rs], fs as [|f fs]; cbn; try done; [by intros -> |].
  intros Hb [Hr _]. pose proof (frame_size _ _ _ Hr). lia.
Qed.

Lemma blen_zero {A} (l : list A) : (blen l =? 0) = true <-> l = [].
Proof. unfold blen. destruct l; cbn; split; try done; lia. Qed.

(** One round of the outer loop: [a] is the piece taken off the chunk, [c] what
    is left of it. *)
Definition feed_round (n : nat) (p : ABWSParser) (a c : bytes) : ABWSParser * list ABWSFrame * option exn :=
  let more := negb (blen c =? 0) in
  let '(p2, frames, e) := drain (S (length (p_buffer p ++ a)))
    (mkParser (p_buffer p ++ a) (p_expected p) (p_exhausted p)) more in
  match e with
  | Some _ => (p2, frames, e)
  | None =>
      if negb more then (p2, frames, None)
      else if (blen (p_buffer p2) =? MAX_FRAME) && (Nat.eqb (length frames) 0) then
        (p2, frames, Some (err ABWSError "ABWS partial-frame buffer exceeds limit"))
      else let '(p3, frames', e') := feed_loop n p2 c in (p3, frames ++ frames', e')
  end.

Lemma feed_loop_round (n : nat) (p : ABWSParser) (c : bytes) :
  blen (p_buffer p) < MAX_FRAME -> c <> [] \/ p_buffer p <> [] ->
  exists a c', c = a ++ c' /\ (c <> [] -> a <> []) /\ feed_loop (S n) p c = feed_round n p a c'.
Proof.
  intros Hb Hne. cbn [feed_loop].
  assert ((blen c =? 0) && (blen (p_buffer p) =? 0) = false) as ->.
  { apply not_true_iff_false. intros [->%blen_zero Hz%blen_zero]%andb_true_iff. by destruct Hne. }
  replace (MAX_FRAME - blen (p_buffer p) <=? 0) with false by lia. rewrite andb_false_r.
  eexists _, _. split; [apply slice_split | split; [| reflexivity]].
  intros Hc. destruct c as [|x c]; [done |]. rewrite blen_cons. pose proof (blen_nonneg c).
  replace (1 + blen c =? 0) with false by lia. unfold slice_to.
  destruct (Z.to_nat (Z.min _ _)) eqn:E; [lia | done].
Qed.

(** The outer loop over one chunk. *)
Lemma feed_loop_stream (n : nat) : forall rs fs s b c x,
  frames_at s rs fs -> 1 <= s -> s + blen rs <= MAX_U64 + 1 ->
  b ++ c ++ x = concat rs -> partial b rs -> (length c < n)%nat ->
  exists rs1 rs2 fs1 fs2 b', rs = rs1 ++ rs2 /\ fs = fs1 ++ fs2 /\ b ++ c = concat rs1 ++ b'
    /\ frames_at (s + blen rs1) rs2 fs2 /\ partial b' rs2
    /\ feed_loop n (at_pos s b) c = (at_pos (s + blen rs1) b', fs1, None).
Proof.
  induction n as [|n IH]; intros rs fs s b c x Hf Hs Hmax Hb Hpart Hn; [lia |].
  destruct (decide (c = [] /\ b = [])) as [[-> ->] | Hne].
  { exists [], rs, [], fs, []. change (blen (@nil bytes)) with 0. rewrite Z.add_0_r. split_and!; done. }
  destruct (feed_loop_round n (at_pos s b) c) as (a & c' & -> & Ha & ->);
    [by eapply partial_cap | cbn; destruct c, b; naive_solver |].
  destruct (drain_stream rs fs s (b ++ a) (c' ++ x) (S (length (b ++ a))) (negb (blen c' =? 0)))
    as (rs1 & rs2 & fs1 & fs2 & b' & -> & -> & Hba & Hf2 & Hp2 & Hd); try done; try lia.
  { rewrite <- Hb, <- !app_assoc. done. }
  { destruct c'; [done |]. done. }
  unfold feed_round. cbn [at_pos p_buffer p_expected p_exhausted]. fold (at_pos s (b ++ a)).
  rewrite Hd. destruct (blen c' =? 0) eqn:Ec; cbn [negb].
  - apply blen_zero in Ec as ->. exists rs1, rs2, fs1, fs2, b'. rewrite app_nil_r. split_and!; done.
  - pose proof (partial_cap _ _ _ _ Hp2 Hf2) as Hcap.
    cbn [at_pos p_buffer]. fold (at_pos (s + blen rs1) b').
    replace (blen b' =? MAX_FRAME) with false by lia. cbn [andb].
    rewrite blen_app in Hmax. pose proof (blen_nonneg rs1).
    destruct (IH rs2 fs2 (s + blen rs1) b' c' x) as (r1 & r2 & g1 & g2 & b2 & -> & -> & Hbc & Hf3 & Hp3 & Hl);
      try done; try lia.
    { rewrite concat_app in Hb. rewrite <- app_assoc, (app_assoc b a), Hba, <- app_assoc in Hb.
      by apply app_inv_head in Hb. }
    { destruct a; [exfalso; by apply Ha; [destruct c' |] |]. cbn in Hn. rewrite length_app in Hn. lia. }
    exists (rs1 ++ r1), r2, (fs1 ++ g1), g2, b2. rewrite Hl, blen_app, Z.add_assoc, concat_app.
    rewrite <- !app_assoc, (app_assoc b a), Hba, <- app_assoc, Hbc. split_and!; done.
Qed.

(** The chunks of a stream, fed one after the other. *)
Lemma feed_all_stream (cs : list bytes) : forall rs fs s b,
  frames_at s rs fs -> 1 <= s -> s + blen rs <= MAX_U64 + 1 ->
  b ++ concat cs = concat rs -> partial b rs ->
  feed_all (at_pos s b) cs = (at_pos (s + blen rs) [], Ok fs).
Proof.
  induction cs as [|c cs IH]; intros rs fs s b Hf Hs Hmax Hb Hpart; cbn [feed_all].
  - cbn in Hb. rewrite app_nil_r in Hb. destruct rs as [|r rs], fs as [|f fs]; try done.
    + cbn in Hpart. subst. change (blen (@nil bytes)) with 0. by rewrite Z.add_0_r.
    + exfalso. subst b. cbn in Hpart. rewrite blen_app in Hpart.
      pose proof (blen_nonneg (concat rs)). lia.
  - cbn [concat] in Hb. unfold feed. cbn [at_pos p_exhausted]. fold (at_pos s b).
    assert ((MAX_U64 <? s) && negb (blen c =? 0) = false) as ->.
    { destruct rs; [| rewrite blen_cons in Hmax; pose proof (blen_nonneg rs); lia].
      apply app_nil in Hb as [_ [-> _]%app_nil]. apply andb_false_r. }
    destruct (feed_loop_stream (S (length c)) rs fs s b c (concat cs))
      as (rs1 & rs2 & fs1 & fs2 & b' & -> & -> & Hbc & Hf2 & Hp2 & ->); try done; try lia.
    rewrite blen_app in *. pose proof (blen_nonneg rs1).
    rewrite (IH rs2 fs2 (s + blen rs1) b'), Z.add_assoc; try done; try lia.
    rewrite app_assoc, Hbc, concat_app, <- app_assoc in Hb. by apply app_inv_head in Hb.
Qed.


(** Under a well-formed header, the wrong length is what the decoder reports. *)
Lemma decode_frame_length (k : FrameType) (len s : Z) (raw : bytes) (e : option Z) :
  0 <= len <= MAX_PAYLOAD -> 1 <= s <= MAX_U64 -> HEADER_SIZE <= blen raw ->
  slice_to HEADER_SIZE raw = header_pack (frame_code k) len s ->
  (blen raw < HEADER_SIZE + len ->
     decode_frame raw e = Raise (err IncompleteFrame "ABWS payload is incomplete"))
  /\ (HEADER_SIZE + len < blen raw ->
     decode_frame raw e = Raise (err TrailingBytes "ABWS single-frame decode has trailing bytes")).
Proof.
  intros Hl Hs Hb Hh. pose proof (frame_code_range k). unfold decode_frame. rewrite Hh.
  rewrite header_unpack_pack by (unfold MAX_U64, MAX_PAYLOAD in *; lia).
  cbn [h_magic h_version h_type h_flags h_length h_sequence h_reserved].
  replace (blen raw <? HEADER_SIZE) with false by lia. unfold validate_header.
  replace (MAX_PAYLOAD <? len) with false by lia.
  replace (bytes_eqb MAGIC MAGIC) with true by reflexivity.
  rewrite !Z.eqb_refl. cbn [raise_if rbind negb coerce_type].
  rewrite frame_of_code_code. cbn [rbind]. split; intros Hlen.
  - by replace (blen raw <? HEADER_SIZE + len) with true by lia.
  - replace (blen raw <? HEADER_SIZE + len) with false by lia.
    by replace (HEADER_SIZE + len <? blen raw) with true by lia.
Qed.

(** *** Totality and the buffer bound *)

Abbreviation abws_throws := (throws [ABWSError]).

Lemma validate_json_value_throws (v : pyval) :
  forall depth kc, abws_throws (validate_json_value v depth kc).
Proof.
  induction v as [| b | z | t | s | raw | l IH | d IH] using pyval_ind; intros depth kc;
    cbn [validate_json_value]; throws_tac.
  - clear -IH. revert kc. induction IH as [|x l Hx _ IH]; intros kc; cbn; throws_tac; auto.
  - clear -IH. revert kc. induction IH as [|x d Hx _ IH]; intros kc; cbn; throws_tac; auto.
Qed.

Lemma decode_json_throws (raw : bytes) : abws_throws (decode_json raw).
Proof.
  unfold decode_json. throws_tac; try apply validate_json_value_throws.
  apply loads_throws; intros; unfold default_number, reject_constant, reject_duplicate_pairs;
    throws_tac; [reflexivity | by apply unique_pairs_throws].
Qed.

(** The decoder raises nothing but ABWSError and its subclasses. *)
Lemma decode_frame_throws (raw : bytes) (e : option Z) : abws_throws (decode_frame raw e).
Proof.
  unfold decode_frame, validate_header, coerce_type. throws_tac. all: apply decode_json_throws.
Qed.

Lemma decode_frame_total (raw : bytes) (e : option Z) : no_fuel (decode_frame raw e).
Proof. by eapply throws_no_fuel; [apply decode_frame_throws |]. Qed.

Lemma drain_bounded (fuel : nat) : forall p more,
  (length (p_buffer p) < fuel)%nat ->
  forall p' fs e, drain fuel p more = (p', fs, e) ->
  (length (p_buffer p') <= length (p_buffer p))%nat
  /\ (forall x, e = Some x -> exn_class x <> FuelExhausted).
Proof.
  induction fuel as [|n IH]; intros p more Hf p' fs e; [lia |]. cbn [drain].
  destruct (blen (p_buffer p) <? HEADER_SIZE) eqn:E1; [by intros [= <- <- <-] |].
  set (len := h_length (header_unpack (slice_to HEADER_SIZE (p_buffer p)))).
  destruct (MAX_PAYLOAD <? len); [intros [= <- <- <-]; split; [lia | by intros ? [= <-]] |].
  destruct (blen (p_buffer p) <? HEADER_SIZE + len) eqn:E2; [by intros [= <- <- <-] |].
  destruct (decode_frame _ _) as [f|x] eqn:Ed.
  2: { intros [= <- <- <-]. split; [lia |]. intros ? [= <-]. by eapply decode_frame_total. }
  bool_to_prop. pose proof (frame_size _ _ _ Ed) as Hsz.
  assert (Hl : (length (slice_from (HEADER_SIZE + len) (p_buffer p)) + 24 <= length (p_buffer p))%nat).
  { unfold slice_from. rewrite length_drop. unfold blen, slice_to, HEADER_SIZE in *.
    rewrite length_take in Hsz. lia. }
  set (b := slice_from _ _) in *.
  repeat case_if; try (intros [= <- <- <-]; split; [cbn; lia | by intros ? [= <-]]);
    match goal with |- context [drain n ?q more] =>
         destruct (drain n q more) as [[p2 gs] e2] eqn:Er;
         destruct (IH q more) with (p' := p2) (fs := gs) (e := e2) as [H1 H2];
         [cbn; lia | done | intros [= <- <- <-]; cbn in H1; split; [lia | done]] end.
Qed.

Lemma feed_loop_bounded (fuel : nat) : forall p c,
  (length c < fuel)%nat -> blen (p_buffer p) <= MAX_FRAME ->
  forall p' fs e, feed_loop fuel p c = (p', fs, e) ->
  blen (p_buffer p') <= MAX_FRAME /\ (forall x, e = Some x -> exn_class x <> FuelExhausted).
Proof.
  induction fuel as [|n IH]; intros p c Hf Hb p' fs e; [lia |]. cbn [feed_loop].
  destruct (_ && _) eqn:E0; [by intros [= <- <- <-] |].
  destruct (negb (blen c =? 0) && (MAX_FRAME - blen (p_buffer p) <=? 0)) eqn:Ecap;
    [intros [= <- <- <-]; split; [done | by intros ? [= <-]] |].
  set (take := if blen c =? 0 then 0 else Z.min (MAX_FRAME - blen (p_buffer p)) (blen c)).
  assert (Ht : 0 <= take <= MAX_FRAME - blen (p_buffer p)
               /\ (c <> [] -> 0 < take <= blen c)).
  { unfold take. pose proof (blen_nonneg c). destruct (blen c =? 0) eqn:Ez.
    - apply blen_zero in Ez. split; [lia | done].
    - bool_to_prop. cbn [negb andb] in Ecap. bool_to_prop. lia. }
  set (b1 := p_buffer p ++ slice_to take c). set (c' := slice_from take c).
  destruct (drain _ _ _) as [[p2 gs] e2] eqn:Ed.
  apply drain_bounded in Ed as [H1 H2]; [| cbn; lia]. cbn [p_buffer] in H1.
  assert (Hb1 : blen b1 <= MAX_FRAME).
  { unfold b1, slice_to, blen in *. rewrite length_app, length_take in *. lia. }
  assert (Hp2 : blen (p_buffer p2) <= MAX_FRAME) by (unfold blen in *; lia).
  destruct e2 as [x|]; [by intros [= <- <- <-] |].
  destruct (blen c' =? 0) eqn:Ec'; cbn [negb]; [by intros [= <- <- <-] |].
  case_if; [intros [= <- <- <-]; split; [done | by intros ? [= <-]] |].
  destruct (feed_loop n p2 c') as [[p3 hs] e3] eqn:El.
  apply IH in El as [H3 H4]; [by intros [= <- <- <-] | | done].
  assert (c <> []) as Hc by (intros ->; unfold c', slice_from in Ec'; by rewrite drop_nil in Ec').
  apply Ht in Hc. unfold c', slice_from. rewrite length_drop. unfold blen in *. lia.
Qed.

(** Encoding then decoding one frame *)
Lemma encode_frame_decodes (k : FrameType) (v : pyval) (s : Z) (raw : bytes) :
  (is_json_type k = true -> printable v = true /\ unique_keys v = true) ->
  encode_frame (PInt (frame_code k)) v (PInt s) = Ok raw ->
  exists f, decode_frame raw (Some s) = Ok f /\ frame_type f = k /\ hop_sequence f = s
    /\ if is_json_type k then exists d, v = PDict d /\ json_payload f = Some d
       else py_bytes v = Ok (payload f) /\ json_payload f = None.
Proof.
  intros Hv H. unfold encode_frame in H. cbn [coerce_type] in H.
  rewrite frame_of_code_code in H. cbn [rbind] in H. inv_ok. bool_to_prop.
  rewrite decode_frame_pack by (auto; lia). destruct (is_json_type k) eqn:Ek.
  - destruct v as [| | | | | | | d]; try done. destruct Hv as [Hp Hu]; [done |].
    rewrite (decode_encode_json d _ Hp Hu E). cbn [rbind]. eauto 8.
  - eexists. split; [reflexivity |]. cbn [frame_type hop_sequence payload json_payload].
    split_and!; try done. destruct v; try done; by inv_ok.
Qed.

(** ** Theorems *)

(** C4: The ABWS codec round-trips: what [encode_frame] produces decodes, at the
    sequence it was given, to the same type, sequence and payload; a control
    payload (a dictionary without floats) comes back as the same dictionary, an
    opaque payload as the same bytes. *)
Theorem abws_decode_encode (k : FrameType) (v : pyval) (s : Z) (raw : bytes) :
  (is_json_type k = true -> printable v = true /\ unique_keys v = true) ->
  encode_frame (PInt (frame_code k)) v (PInt s) = Ok raw ->
  exists f, decode_frame raw (Some s) = Ok f /\ frame_type f = k /\ hop_sequence f = s
    /\ if is_json_type k then exists d, v = PDict d /\ json_payload f = Some d
       else py_bytes v = Ok (payload f) /\ json_payload f = None.
Proof. apply encode_frame_decodes. Qed.

(** Decoding is canonical and bounded: a decoded frame determines its bytes
    (header fields re-packed, then the payload), its sequence is a non-zero
    64-bit number equal to the expected one, and its payload fits the limit. *)
Theorem abws_decode_canonical (raw : bytes) (e : option Z) (f : ABWSFrame) :
  decode_frame raw e = Ok f ->
  raw = header_pack (frame_code (frame_type f)) (blen (payload f)) (hop_sequence f) ++ payload f
  /\ 1 <= hop_sequence f <= MAX_U64 /\ blen raw <= MAX_FRAME
  /\ (forall s, e = Some s -> hop_sequence f = s).
Proof.
  intros H%decode_frame_ok. destruct H as (Hraw & Hs & Hp & He & _). split_and!; try done; try lia.
  rewrite Hraw, blen_app, blen_header_pack. unfold MAX_FRAME. lia.
Qed.

(** Self-delimitation: of a decodable frame, every proper prefix is reported
    as [IncompleteFrame] and every extension as [TrailingBytes]. *)
Theorem abws_self_delimiting (raw ext : bytes) (n : nat) (e : option Z) (f : ABWSFrame) :
  decode_frame raw e = Ok f ->
  ((n < length raw)%nat ->
     exists x, decode_frame (take n raw) e = Raise x /\ exn_class x = IncompleteFrame)
  /\ (ext <> [] ->
     exists x, decode_frame (raw ++ ext) e = Raise x /\ exn_class x = TrailingBytes).
Proof.
  intros H%decode_frame_ok. destruct H as (Hraw & Hs & Hp & _). pose proof (blen_nonneg (payload f)).
  set (hd := header_pack _ _ _) in Hraw. split.
  - intros Hn. destruct (decide (Z.of_nat n < HEADER_SIZE)) as [Hlt | Hge].
    { unfold decode_frame. replace (blen (take n raw) <? HEADER_SIZE) with true; [eauto |].
      symmetry. apply Z.ltb_lt. unfold blen. rewrite length_take. lia. }
    destruct (decode_frame_length (frame_type f) (blen (payload f)) (hop_sequence f) (take n raw) e)
      as [Hd _]; try lia.
    + unfold blen. rewrite length_take. lia.
    + unfold slice_to. rewrite take_take, Nat.min_l by (unfold HEADER_SIZE in *; lia).
      rewrite Hraw. by apply (slice_to_app HEADER_SIZE).
    + rewrite Hd; [eauto |]. rewrite Hraw in Hn. unfold blen in *.
      rewrite length_take. rewrite length_app in Hn. change (length hd) with 24%nat in Hn.
      unfold HEADER_SIZE. lia.
  - intros Hne. assert (0 < blen ext) by (destruct ext; [done |]; rewrite blen_cons; pose proof (blen_nonneg ext); lia).
    assert (Hb : blen (raw ++ ext) = HEADER_SIZE + blen (payload f) + blen ext)
      by (rewrite Hraw, !blen_app; change (blen hd) with HEADER_SIZE; lia).
    destruct (decode_frame_length (frame_type f) (blen (payload f)) (hop_sequence f) (raw ++ ext) e)
      as [_ Hd]; try lia.
    + rewrite Hraw, <- app_assoc. by apply (slice_to_app HEADER_SIZE).
    + rewrite Hd by lia. eauto.
Qed.

(** C5: The parser is chunking-independent: the bytes of any sequence of frames
    with consecutive sequence numbers, cut into chunks in any way, are parsed
    by a fresh parser into exactly those frames, with nothing left buffered;
    a stream that ends on the last 64-bit sequence leaves it exhausted. *)
Theorem abws_parser_chunking (s : Z) (rs cs : list bytes) (fs : list ABWSFrame) (p : ABWSParser) :
  new_parser s = Ok p -> frames_at s rs fs -> s + blen rs <= MAX_U64 + 1 ->
  concat cs = concat rs ->
  exists p', feed_all p cs = (p', Ok fs) /\ finish p' = Ok tt
    /\ p_exhausted p' = (MAX_U64 <? s + blen rs).
Proof.
  intros Hp Hf Hmax Hc. unfold new_parser in Hp. inv_ok. bool_to_prop.
  assert (mkParser [] s false = at_pos s []) as ->.
  { unfold at_pos. f_equal; lia. }
  eexists. split; [| split].
  - apply feed_all_stream; try done. destruct rs as [|r rs], fs as [|f fs]; try done.
    destruct Hf as [Hr _]. pose proof (frame_size _ _ _ Hr) as Hsz. unfold partial, HEADER_SIZE in *.
    change (blen (@nil byte)) with 0. lia.
  - done.
  - done.
Qed.

(** Whatever is fed to it, the parser terminates and never buffers more than
    one maximal frame, also when the call raises. *)
Theorem abws_parser_bounded (p : ABWSParser) (data : bytes) :
  blen (p_buffer p) <= MAX_FRAME ->
  blen (p_buffer (fst (feed p data))) <= MAX_FRAME /\ no_fuel (snd (feed p data)).
Proof.
  intros Hb. unfold feed. case_if; [split; [done | by intros ? [= <-]] |].
  destruct (feed_loop _ _ _) as [[p' fs] e] eqn:El.
  apply feed_loop_bounded in El as [H1 H2]; [| lia | done]. cbn [fst snd]. split; [done |].
  destruct e as [x|]; [intros ? [= <-]; by apply H2 | done].
Qed.

(** The control-payload check is exact: it accepts a value precisely when it
    nests at most 16 levels, has at most 64 object keys in total and holds no
    surrogate, and it returns the number of keys. *)
Theorem abws_control_limits (v : pyval) (n : Z) :
  validate_json_value v 0 0 = Ok n <->
  json_depth v <= MAX_JSON_DEPTH /\ json_keys v <= MAX_JSON_KEYS
  /\ no_surrogates v = true /\ n = json_keys v.
Proof. apply (validates_all v 0 0 n). unfold MAX_JSON_KEYS. lia. Qed.

(** ** Witnesses *)

Definition sample_control : pyval :=
  PDict [($"protocol_version", PInt 1); ($"nonce", PStr $"00ff"); ($"list", PList [PInt (-3); PNone])].
Definition sample_opaque : pyval := PBytes (bstr "opaque").

Definition sample_raw (k : FrameType) (v : pyval) (s : Z) : bytes :=
  match encode_frame (PInt (frame_code k)) v (PInt s) with Ok r => r | Raise _ => [] end.
Definition sample_frame (r : bytes) (s : Z) : ABWSFrame :=
  match decode_frame r (Some s) with Ok f => f | Raise _ => mkABWSFrame PING 0 [] None end.

Lemma abws_decode_encode_witness :
  exists f, decode_frame (sample_raw PING sample_control 7) (Some 7) = Ok f
    /\ frame_type f = PING /\ hop_sequence f = 7
    /\ exists d, sample_control = PDict d /\ json_payload f = Some d.
Proof.
  apply (abws_decode_encode PING sample_control 7); [by vm_compute |]. vm_compute. reflexivity.
Defined.

Lemma abws_decode_canonical_witness :
  let raw := sample_raw INPUT sample_opaque 9 in
  let f := sample_frame raw 9 in
  raw = header_pack (frame_code (frame_type f)) (blen (payload f)) (hop_sequence f) ++ payload f
  /\ 1 <= hop_sequence f <= MAX_U64 /\ blen raw <= MAX_FRAME
  /\ (forall s, Some 9 = Some s -> hop_sequence f = s).
Proof.
  apply (abws_decode_canonical (sample_raw INPUT sample_opaque 9) (Some 9)
           (sample_frame (sample_raw INPUT sample_opaque 9) 9)).
  vm_compute. reflexivity.
Defined.

Lemma abws_self_delimiting_witness :
  let raw := sample_raw PING sample_control 7 in
  (exists x, decode_frame (take 30 raw) (Some 7) = Raise x /\ exn_class x = IncompleteFrame)
  /\ (exists x, decode_frame (raw ++ bstr "z") (Some 7) = Raise x /\ exn_class x = TrailingBytes).
Proof.
  destruct (abws_self_delimiting (sample_raw PING sample_control 7) (bstr "z") 30 (Some 7)
              (sample_frame (sample_raw PING sample_control 7) 7)) as [H1 H2].
  - vm_compute. reflexivity.
  - split; [apply H1; vm_compute; lia | apply H2; discriminate].
Defined.

(** Two frames, the second on the last sequence number, in chunks that split
    the first header and run over the frame boundary. *)
Lemma abws_parser_chunking_witness :
  let r1 := sample_raw PING sample_control (MAX_U64 - 1) in
  let r2 := sample_raw OUTPUT sample_opaque MAX_U64 in
  let cs := [take 11 r1; drop 11 r1 ++ take 25 r2; []; drop 25 r2] in
  exists p', feed_all (mkParser [] (MAX_U64 - 1) false) cs
      = (p', Ok [sample_frame r1 (MAX_U64 - 1); sample_frame r2 MAX_U64])
    /\ finish p' = Ok tt /\ p_exhausted p' = true.
Proof.
  apply (abws_parser_chunking (MAX_U64 - 1)
           [sample_raw PING sample_control (MAX_U64 - 1); sample_raw OUTPUT sample_opaque MAX_U64]).
  - reflexivity.
  - vm_compute. auto.
  - vm_compute. discriminate.
  - vm_compute. reflexivity.
Defined.

Lemma abws_parser_bounded_witness :
  let p := mkParser (bstr "ABWS") 1 false in
  blen (p_buffer (fst (feed p (bstr "garbage")))) <= MAX_FRAME
  /\ no_fuel (snd (feed p (bstr "garbage"))).
Proof. apply abws_parser_bounded. vm_compute. discriminate. Defined.
