(* ===== verification/Awce.v ===== *)
(** * AWCE v1 crypto envelopes ([agentbox_protocol/awce.py])

    The 44-byte header and opaque ciphertext of one terminal record.  The
    validators take untyped values, as the code's [object] parameters do. *)

From S2P Require Import Prelude PyVal Abws.

Local Open Scope Z_scope.

Definition AWCE_MAGIC : bytes := bstr "AWCE".
Definition AWCE_VERSION : Z := 1.
Definition AWCE_HEADER_SIZE : Z := 44.
Definition AUTH_TAG_SIZE : Z := 16.
Definition MIN_PLAINTEXT_SIZE : Z := 1.
Definition MAX_PLAINTEXT_SIZE : Z := 49152.
Definition MIN_CIPHERTEXT_SIZE : Z := MIN_PLAINTEXT_SIZE + AUTH_TAG_SIZE.
Definition MAX_CIPHERTEXT_SIZE : Z := MAX_PLAINTEXT_SIZE + AUTH_TAG_SIZE.
Definition MAX_ENVELOPE_SIZE : Z := AWCE_HEADER_SIZE + MAX_CIPHERTEXT_SIZE.
Definition CONTEXT_ID_SIZE : Z := 16.
Definition INPUT_DIRECTION : Z := 1.
Definition OUTPUT_DIRECTION : Z := 2.
Definition MIN_TERMINAL_SEQUENCE : Z := 1.
Definition MAX_TERMINAL_SEQUENCE : Z := MAX_U64 - 1.
Definition MIN_OUTPUT_CURSOR : Z := 1.
Definition MAX_OUTPUT_CURSOR : Z := MAX_U64 - 1.

Record AWCEEnvelope : Type := mkEnvelope {
  crypto_envelope_version : Z;
  direction_id : Z;
  flags : Z;
  crypto_sequence : Z;
  stream_cursor : Z;
  context_id : bytes;
  ciphertext : bytes
}.

Definition awce_error (text : string) : exn := err AWCEError text.

Definition require_exact_uint (value : pyval) (minimum maximum : Z) (e : exn) : result Z :=
  match value with
  | PInt z => if (z <? minimum) || (maximum <? z) then Raise e else Ok z
  | _ => Raise e
  end.

Definition require_bytes (value : pyval) (length : option Z) (e : exn) : result bytes :=
  match value with
  | PBytes b =>
      match length with
      | Some n => if negb (blen b =? n) then Raise e else Ok b
      | None => Ok b
      end
  | _ => Raise e
  end.

(** The validated header: version, direction, flags, sequence, cursor,
    ciphertext length and context id, in packing order. *)
Definition validate_header_fields
    (version direction flags sequence cursor context length : pyval)
  : result (Z * Z * Z * Z * Z * Z * bytes) :=
  let! v := match version with
            | PInt z => if negb (z =? AWCE_VERSION) then Raise (awce_error "unsupported AWCE version") else Ok z
            | _ => Raise (awce_error "unsupported AWCE version")
            end in
  let! d := require_exact_uint direction 0 255 (awce_error "AWCE direction is invalid") in
  run! raise_if (negb ((d =? INPUT_DIRECTION) || (d =? OUTPUT_DIRECTION)))
         (awce_error "unknown AWCE direction") in
  let! f := require_exact_uint flags 0 65535 (awce_error "AWCE flags is invalid") in
  run! raise_if (negb (f =? 0)) (awce_error "AWCE flags are reserved and must be zero") in
  let! s := require_exact_uint sequence MIN_TERMINAL_SEQUENCE MAX_TERMINAL_SEQUENCE
              (awce_error "AWCE crypto_sequence is invalid") in
  let! c := require_exact_uint cursor 0 MAX_OUTPUT_CURSOR
              (awce_error "AWCE stream_cursor is invalid") in
  run! raise_if (((d =? INPUT_DIRECTION) && negb (c =? 0))
                 || ((d =? OUTPUT_DIRECTION) && (c <? MIN_OUTPUT_CURSOR)))
         (awce_error "AWCE stream_cursor is invalid for its direction") in
  let! ctx := require_bytes context (Some CONTEXT_ID_SIZE) (awce_error "AWCE context_id is invalid") in
  let! n := require_exact_uint length 0 MAX_CIPHERTEXT_SIZE
              (awce_error "AWCE ciphertext length is invalid") in
  run! raise_if (n <? MIN_CIPHERTEXT_SIZE)
         (awce_error "AWCE ciphertext length is outside the v1 limit") in
  Ok (v, d, f, s, c, n, ctx).

Definition validate_fields (e : AWCEEnvelope) : result (Z * Z * Z * Z * Z * Z * bytes) :=
  validate_header_fields (PInt (crypto_envelope_version e)) (PInt (direction_id e))
    (PInt (flags e)) (PInt (crypto_sequence e)) (PInt (stream_cursor e))
    (PBytes (context_id e)) (PInt (blen (ciphertext e))).

(** The dataclass constructor, with its [__post_init__] check. *)
Definition new_envelope (version direction flags sequence cursor : Z) (context ciphertext : bytes)
  : result AWCEEnvelope :=
  let e := mkEnvelope version direction flags sequence cursor context ciphertext in
  run! validate_fields e in Ok e.

Definition ciphertext_length (e : AWCEEnvelope) : Z := blen (ciphertext e).

(** [_HEADER.pack(MAGIC, *validated)], format [!4sBBHQQI16s] *)
Definition awce_pack (v d f s c n : Z) (ctx : bytes) : bytes :=
  AWCE_MAGIC ++ be_encode 1 v ++ be_encode 1 d ++ be_encode 2 f ++ be_encode 8 s
  ++ be_encode 8 c ++ be_encode 4 n ++ ctx.

Definition encode_awce_header (version direction flags sequence cursor context length : pyval)
  : result bytes :=
  let! '(v, d, f, s, c, n, ctx) :=
    validate_header_fields version direction flags sequence cursor context length in
  Ok (awce_pack v d f s c n ctx).

Definition encode_awce (e : AWCEEnvelope) : result bytes :=
  let! hd := encode_awce_header (PInt (crypto_envelope_version e)) (PInt (direction_id e))
    (PInt (flags e)) (PInt (crypto_sequence e)) (PInt (stream_cursor e))
    (PBytes (context_id e)) (PInt (ciphertext_length e)) in
  Ok (hd ++ ciphertext e).

Definition decode_awce (data : bytes) : result AWCEEnvelope :=
  run! raise_if (blen data <? AWCE_HEADER_SIZE) (err IncompleteAWCE "AWCE header is incomplete") in
  run! raise_if (MAX_ENVELOPE_SIZE <? blen data)
         (awce_error "AWCE envelope exceeds the v1 limit") in
  let hd := slice_to AWCE_HEADER_SIZE data in
  let n := be_decode (slice 24 28 hd) in
  run! raise_if (negb (bytes_eqb (slice 0 4 hd) AWCE_MAGIC)) (awce_error "invalid AWCE magic") in
  run! raise_if ((n <? MIN_CIPHERTEXT_SIZE) || (MAX_CIPHERTEXT_SIZE <? n))
         (awce_error "AWCE ciphertext length is outside the v1 limit") in
  let expected_length := AWCE_HEADER_SIZE + n in
  run! raise_if (blen data <? expected_length)
         (err IncompleteAWCE "AWCE ciphertext is incomplete") in
  run! raise_if (expected_length <? blen data)
         (err TrailingAWCEBytes "AWCE single-envelope decode has trailing bytes") in
  new_envelope (be_decode (slice 4 5 hd)) (be_decode (slice 5 6 hd)) (be_decode (slice 6 8 hd))
    (be_decode (slice 8 16 hd)) (be_decode (slice 16 24 hd)) (slice 28 44 hd)
    (slice_from AWCE_HEADER_SIZE data).

(** ** What a valid envelope is *)

(** The v1 contract, stated on the fields: fixed version and flags, a known
    direction with its cursor discipline, a usable sequence, a 16-byte context
    and a ciphertext of 1 to 49152 plaintext bytes plus the tag. *)
Definition envelope_valid (e : AWCEEnvelope) : Prop :=
  crypto_envelope_version e = AWCE_VERSION /\ flags e = 0
  /\ ((direction_id e = INPUT_DIRECTION /\ stream_cursor e = 0)
      \/ (direction_id e = OUTPUT_DIRECTION
          /\ MIN_OUTPUT_CURSOR <= stream_cursor e <= MAX_OUTPUT_CURSOR))
  /\ MIN_TERMINAL_SEQUENCE <= crypto_sequence e <= MAX_TERMINAL_SEQUENCE
  /\ blen (context_id e) = CONTEXT_ID_SIZE
  /\ MIN_CIPHERTEXT_SIZE <= blen (ciphertext e) <= MAX_CIPHERTEXT_SIZE.

(** ** Lemmas *)

Lemma require_exact_uint_ok (v : pyval) (lo hi : Z) (e : exn) (z : Z) :
  require_exact_uint v lo hi e = Ok z <-> v = PInt z /\ lo <= z <= hi.
Proof.
  destruct v as [| | x | | | | |]; cbn; try (split; [done | by intros [? _]]).
  case_if; (split; [intros H | intros [H1 H2]]); try done.
  - injection H1 as ->. lia.
  - inv_ok. split; [done | lia].
  - by injection H1 as ->.
Qed.

(** The validator accepts exactly the valid envelopes, and returns the fields. *)
Lemma validate_fields_ok (e : AWCEEnvelope) (r : Z * Z * Z * Z * Z * Z * bytes) :
  validate_fields e = Ok r <->
  envelope_valid e /\ r = (crypto_envelope_version e, direction_id e, flags e, crypto_sequence e,
                           stream_cursor e, blen (ciphertext e), context_id e).
Proof.
  unfold validate_fields, validate_header_fields, envelope_valid, require_bytes. split.
  - intros H. inv_ok.
    repeat match goal with
    | E : require_exact_uint _ _ _ _ = Ok _ |- _ => apply require_exact_uint_ok in E as [[= <-] ?]
    | E : (if ?b then _ else _) = Ok _ |- _ => destruct b eqn:?; [done |]; inv_ok
    end. split; [| done]. bool_to_prop.
    unfold INPUT_DIRECTION, OUTPUT_DIRECTION, MIN_OUTPUT_CURSOR in *. split_and!; lia.
  - intros [(Hv & Hf & Hd & Hs & Hc & Hl) ->].
    replace (crypto_envelope_version e =? AWCE_VERSION) with true by lia. cbn [negb rbind].
    replace (blen (context_id e) =? CONTEXT_ID_SIZE) with true by lia. cbn [negb rbind].
    rewrite (proj2 (require_exact_uint_ok (PInt (direction_id e)) _ _ _ (direction_id e)))
      by (unfold INPUT_DIRECTION, OUTPUT_DIRECTION in *; split; [done | lia]).
    cbn [rbind].
    replace ((direction_id e =? INPUT_DIRECTION) || (direction_id e =? OUTPUT_DIRECTION)) with true by lia.
    rewrite (proj2 (require_exact_uint_ok (PInt (flags e)) _ _ _ (flags e))) by (split; [done | lia]).
    cbn [negb rbind raise_if].
    rewrite (proj2 (require_exact_uint_ok (PInt (crypto_sequence e)) _ _ _ (crypto_sequence e)))
      by (split; done).
    rewrite (proj2 (require_exact_uint_ok (PInt (stream_cursor e)) _ _ _ (stream_cursor e)))
      by (split; [done | unfold MIN_OUTPUT_CURSOR, MAX_OUTPUT_CURSOR, MAX_U64 in *; lia]).
    cbn [rbind].
    replace (_ || _) with false
      by (unfold INPUT_DIRECTION, OUTPUT_DIRECTION, MIN_OUTPUT_CURSOR in *; lia).
    rewrite (proj2 (require_exact_uint_ok (PInt (blen (ciphertext e))) _ _ _ (blen (ciphertext e))))
      by (split; [done | unfold MIN_CIPHERTEXT_SIZE, MIN_PLAINTEXT_SIZE, AUTH_TAG_SIZE in *; lia]).
    replace (flags e =? 0) with true by lia. cbn [negb rbind raise_if].
    by replace (blen (ciphertext e) <? MIN_CIPHERTEXT_SIZE) with false by lia.
Qed.

Lemma awce_pack_length (v d f s c n : Z) (ctx : bytes) :
  blen ctx = CONTEXT_ID_SIZE -> blen (awce_pack v d f s c n ctx) = AWCE_HEADER_SIZE.
Proof. intros H. unfold awce_pack. rewrite !blen_app, H. reflexivity. Qed.

(** The fields of a packed header, read at their offsets. *)
Lemma awce_pack_fields (v d f s c n : Z) (ctx : bytes) :
  blen ctx = CONTEXT_ID_SIZE ->
  let hd := awce_pack v d f s c n ctx in
  slice 0 4 hd = AWCE_MAGIC /\ slice 4 5 hd = be_encode 1 v /\ slice 5 6 hd = be_encode 1 d
  /\ slice 6 8 hd = be_encode 2 f /\ slice 8 16 hd = be_encode 8 s
  /\ slice 16 24 hd = be_encode 8 c /\ slice 24 28 hd = be_encode 4 n /\ slice 28 44 hd = ctx.
Proof.
  intros H. split_and!; try reflexivity.
  change (slice 28 44 (awce_pack v d f s c n ctx)) with (take 16 ctx).
  apply take_ge. unfold blen, CONTEXT_ID_SIZE in H. lia.
Qed.

(** A 44-byte header that starts with the magic is the packing of its fields. *)
Lemma awce_unpack_pack (hd : bytes) :
  blen hd = AWCE_HEADER_SIZE -> slice 0 4 hd = AWCE_MAGIC ->
  hd = awce_pack (be_decode (slice 4 5 hd)) (be_decode (slice 5 6 hd)) (be_decode (slice 6 8 hd))
         (be_decode (slice 8 16 hd)) (be_decode (slice 16 24 hd)) (be_decode (slice 24 28 hd))
         (slice 28 44 hd).
Proof.
  intros Hl Hm. unfold awce_pack. rewrite <- Hm. unfold AWCE_HEADER_SIZE, blen in Hl.
  do 44 (destruct hd as [|? hd]; [cbn in Hl; lia |]). destruct hd; [| cbn in Hl; lia].
  rewrite !be_encode_decode_n by reflexivity. reflexivity.
Qed.

Lemma decode_awce_ok (data : bytes) (e : AWCEEnvelope) :
  decode_awce data = Ok e ->
  envelope_valid e
  /\ data = awce_pack (crypto_envelope_version e) (direction_id e) (flags e) (crypto_sequence e)
              (stream_cursor e) (blen (ciphertext e)) (context_id e) ++ ciphertext e.
Proof.
  unfold decode_awce, new_envelope. intros H. inv_ok. apply validate_fields_ok in E as [Hv _].
  split; [done |]. bool_to_prop. apply bytes_eqb_eq in G1.
  assert (Hl : blen (slice_to AWCE_HEADER_SIZE data) = AWCE_HEADER_SIZE)
    by (apply blen_slice_to; unfold AWCE_HEADER_SIZE in *; lia).
  cbn [crypto_envelope_version direction_id flags crypto_sequence stream_cursor context_id ciphertext].
  assert (Hc : blen (slice_from AWCE_HEADER_SIZE data)
               = be_decode (slice 24 28 (slice_to AWCE_HEADER_SIZE data)))
    by (rewrite blen_slice_from by (unfold AWCE_HEADER_SIZE in *; lia); lia).
  rewrite Hc, <- awce_unpack_pack by done. apply slice_split.
Qed.

Lemma encode_awce_valid (e : AWCEEnvelope) :
  envelope_valid e ->
  encode_awce e = Ok (awce_pack (crypto_envelope_version e) (direction_id e) (flags e)
    (crypto_sequence e) (stream_cursor e) (blen (ciphertext e)) (context_id e) ++ ciphertext e).
Proof.
  intros Hv. unfold encode_awce, encode_awce_header, ciphertext_length.
  pose proof (proj2 (validate_fields_ok e _) (conj Hv eq_refl)) as H.
  unfold validate_fields in H. by rewrite H.
Qed.

(** ** Theorems *)

(** An AWCE envelope round-trips: every envelope that satisfies the v1
    contract encodes, and decoding its bytes gives the same envelope back. *)
Theorem awce_decode_encode (e : AWCEEnvelope) :
  envelope_valid e -> exists raw, encode_awce e = Ok raw /\ decode_awce raw = Ok e.
Proof.
  intros Hv. rewrite (encode_awce_valid e Hv). eexists. split; [reflexivity |].
  pose proof Hv as (H1 & H2 & Hd & Hs & Hc & Hl). pose proof (blen_nonneg (ciphertext e)).
  assert (Hdr : 0 <= direction_id e < 256)
    by (unfold INPUT_DIRECTION, OUTPUT_DIRECTION in *; lia).
  assert (Hcr : 0 <= stream_cursor e < 256 ^ 8)
    by (unfold MIN_OUTPUT_CURSOR, MAX_OUTPUT_CURSOR, MAX_U64 in *; lia).
  unfold decode_awce. rewrite blen_app, awce_pack_length by done.
  rewrite slice_to_app, slice_from_app by (by apply awce_pack_length).
  destruct (awce_pack_fields (crypto_envelope_version e) (direction_id e) (flags e) (crypto_sequence e)
              (stream_cursor e) (blen (ciphertext e)) (context_id e) Hc)
    as (-> & -> & -> & -> & -> & -> & -> & ->).
  rewrite H1, H2, !be_decode_encode
    by (unfold MIN_TERMINAL_SEQUENCE, MAX_TERMINAL_SEQUENCE, MAX_U64, MAX_CIPHERTEXT_SIZE,
          MAX_PLAINTEXT_SIZE, AUTH_TAG_SIZE, AWCE_VERSION in *; cbn; lia).
  replace (bytes_eqb AWCE_MAGIC AWCE_MAGIC) with true by reflexivity.
  replace (AWCE_HEADER_SIZE + blen (ciphertext e) <? AWCE_HEADER_SIZE) with false by lia.
  replace (MAX_ENVELOPE_SIZE <? _) with false by (unfold MAX_ENVELOPE_SIZE; lia).
  replace (blen (ciphertext e) <? MIN_CIPHERTEXT_SIZE) with false by lia.
  replace (MAX_CIPHERTEXT_SIZE <? blen (ciphertext e)) with false by lia.
  rewrite Z.ltb_irrefl. cbn [raise_if rbind negb orb]. unfold new_envelope.
  rewrite <- H1, <- H2. destruct e as [v d f s c ctx ct]. cbn in *.
  rewrite (proj2 (validate_fields_ok (mkEnvelope v d f s c ctx ct) _) (conj Hv eq_refl)). done.
Qed.

(** A decoded envelope satisfies the v1 contract (direction and cursor
    discipline, sequence and size bounds) and re-encodes to the same bytes. *)
Theorem awce_decode_sound (data : bytes) (e : AWCEEnvelope) :
  decode_awce data = Ok e -> envelope_valid e /\ encode_awce e = Ok data.
Proof.
  intros [Hv Hd]%decode_awce_ok. split; [done |]. by rewrite (encode_awce_valid e Hv), Hd at 1.
Qed.

(** ** Witnesses *)

Definition sample_envelope : AWCEEnvelope :=
  mkEnvelope 1 OUTPUT_DIRECTION 0 5 1234 (bstr "0123456789abcdef") (bstr "17-byte-ciphertxt").
Definition sample_envelope_raw : bytes :=
  match encode_awce sample_envelope with Ok r => r | Raise _ => [] end.

Lemma awce_decode_encode_witness :
  exists raw, encode_awce sample_envelope = Ok raw /\ decode_awce raw = Ok sample_envelope.
Proof.
  apply awce_decode_encode. unfold envelope_valid. cbn.
  split_and!; try done. right. done.
Defined.

Lemma awce_decode_sound_witness :
  envelope_valid sample_envelope /\ encode_awce sample_envelope = Ok sample_envelope_raw.
Proof. apply awce_decode_sound. vm_compute. reflexivity. Defined.
