(* ===== verification/CryptoContext.v ===== *)
(** * The application-crypto context ([agentbox_protocol/waw_crypto_context.py])

    The 13-member AdmissionTuple, the 15-member HandshakeContext derived from
    it, and their canonical bytes.  [rfc8785.dumps] is third-party code: a
    parameter of [canonical_context_bytes].

    The code loops over frozensets, whose order Python leaves open; here the
    loops follow the order the source lists the members in.  Only which of
    several simultaneous errors is reported depends on that order. *)

From S2P Require Import Prelude PyVal.

Local Open Scope Z_scope.

Definition PROTOCOL_ID : pystr := $"agentbox-waw/v1".
Definition CRYPTO_ENVELOPE_VERSION : Z := 1.

Definition ADMISSION_KEYS : list pystr :=
  [$"attachment_id"; $"workspace_id"; $"project_id"; $"agent_type";
   $"runtime_host_installation_id"; $"runtime_host_installation_revision"; $"auth_epoch";
   $"api_authority_epoch"; $"lease_number"; $"generation"; $"binding_revision"; $"mode";
   $"binding_digest"].

(** [(ADMISSION_KEYS - {"mode"}) | {...}] *)
Definition CONTEXT_KEYS : list pystr :=
  filter (fun k => k <> $"mode") ADMISSION_KEYS
  ++ [$"protocol_id"; $"crypto_envelope_version"; $"runtime_epoch"].

Definition U64_KEYS : list pystr :=
  [$"runtime_host_installation_revision"; $"auth_epoch"; $"api_authority_epoch";
   $"lease_number"; $"generation"; $"binding_revision"].

Definition IDS : list (pystr * pystr) :=
  [($"attachment_id", $"att"); ($"workspace_id", $"aws"); ($"project_id", $"prj");
   ($"runtime_host_installation_id", $"wri")].

Definition ctx_error (text : string) : exn := err WAWContextError text.

Definition validate_u64 (value : pyval) : result pystr :=
  match value with
  | PStr s =>
      if negb (match_pos_decimal s) || (MAX_U64 <? digits_value s)
      then Raise (ctx_error "invalid positive uint64 string") else Ok s
  | _ => Raise (ctx_error "invalid positive uint64 string")
  end.

Definition validate_hex32 (value : pyval) : result pystr :=
  match value with
  | PStr s =>
      if negb (match_hex 64 s)
      then Raise (ctx_error "invalid lowercase 32-byte hexadecimal string") else Ok s
  | _ => Raise (ctx_error "invalid lowercase 32-byte hexadecimal string")
  end.

(** The body of the loop over the members: the check of one of them. *)
Definition validate_member (key : pystr) (value : option pyval) : result pystr :=
  match value with
  | Some (PStr item) =>
      run! if str_in key U64_KEYS then let! _u := validate_u64 (PStr item) in Ok tt
           else match dget IDS key with
                | Some prefix =>
                    raise_if (negb (match_id prefix item)) (ctx_error "invalid AdmissionTuple identifier")
                | None =>
                    if str_eqb key $"binding_digest" then
                      let! _h := validate_hex32 (PStr item) in Ok tt
                    else if str_eqb key $"mode" && negb (str_eqb item $"writer") then
                      Raise (ctx_error "invalid AdmissionTuple mode")
                    else raise_if (str_eqb key $"agent_type"
                                   && negb (str_in item [$"claude"; $"codex"]))
                           (ctx_error "invalid AdmissionTuple agent type")
                end in
      Ok item
  | _ => Raise (ctx_error "invalid AdmissionTuple scalar type")
  end.

Fixpoint validate_keys (keys : list pystr) (d : pydict) : result pydict :=
  match keys with
  | [] => Ok []
  | k :: ks =>
      let! item := validate_member k (dget d k) in
      let! rest := validate_keys ks d in
      Ok ((k, PStr item) :: rest)
  end.

Definition validate_admission (value : pyval) : result pydict :=
  match value with
  | PDict d =>
      if negb (keys_equal (dkeys d) ADMISSION_KEYS)
      then Raise (ctx_error "invalid AdmissionTuple fields")
      else validate_keys ADMISSION_KEYS d
  | _ => Raise (ctx_error "invalid AdmissionTuple fields")
  end.

Definition derive_context (admission runtime_epoch : pyval) : result pydict :=
  let! bound := validate_admission admission in
  let! epoch := validate_u64 runtime_epoch in
  Ok (filter (fun kv => kv.1 <> $"mode") bound
      ++ [($"protocol_id", PStr PROTOCOL_ID);
          ($"crypto_envelope_version", PInt CRYPTO_ENVELOPE_VERSION);
          ($"runtime_epoch", PStr epoch)]).

(** [{key: value[key] for key in keys}], for keys the dictionary has *)
Definition project_keys (keys : list pystr) (d : pydict) : pydict :=
  omap (fun k => match dget d k with Some v => Some (k, v) | None => None end) keys.

Definition validate_context (value : pyval) : result pydict :=
  match value with
  | PDict d =>
      if negb (keys_equal (dkeys d) CONTEXT_KEYS)
      then Raise (ctx_error "invalid HandshakeContext fields")
      else
        match dget d $"protocol_id", dget d $"crypto_envelope_version", dget d $"runtime_epoch" with
        | Some (PStr p), Some (PInt v), Some epoch =>
            run! raise_if (negb (str_eqb p PROTOCOL_ID) || negb (v =? CRYPTO_ENVELOPE_VERSION))
                   (ctx_error "unsupported application crypto profile") in
            derive_context
              (PDict (project_keys (filter (fun k => k <> $"mode") ADMISSION_KEYS) d
                      ++ [($"mode", PStr $"writer")])) epoch
        | _, _, _ => Raise (ctx_error "unsupported application crypto profile")
        end
  | _ => Raise (ctx_error "invalid HandshakeContext fields")
  end.

Definition canonical_context_bytes (rfc8785_dumps : pydict -> bytes) (value : pyval) : result bytes :=
  let! ctx := validate_context value in Ok (rfc8785_dumps ctx).

(** ** The contract *)

(** A member value that is well formed for its key. *)
Definition member_ok (key item : pystr) : bool :=
  if str_in key U64_KEYS then match_pos_decimal item && (digits_value item <=? MAX_U64)
  else match dget IDS key with
       | Some prefix => match_id prefix item
       | None =>
           if str_eqb key $"binding_digest" then match_hex 64 item
           else if str_eqb key $"mode" then str_eqb item $"writer"
           else if str_eqb key $"agent_type" then str_in item [$"claude"; $"codex"]
           else true
       end.

(** ** Lemmas *)

Lemma validate_u64_ok (v : pyval) (s : pystr) :
  validate_u64 v = Ok s <->
  v = PStr s /\ match_pos_decimal s = true /\ digits_value s <= MAX_U64.
Proof.
  destruct v as [| | | | t | | |]; cbn; try (split; [done | by intros (? & _)]).
  destruct (match_pos_decimal t) eqn:E; cbn; [| split; [done | intros ([= ->] & ? & _); congruence]].
  case_if; bool_to_prop; (split; [intros H | intros ([= ->] & _ & ?)]); inv_ok; auto; lia.
Qed.

Lemma validate_hex32_ok (v : pyval) (s : pystr) :
  validate_hex32 v = Ok s <-> v = PStr s /\ match_hex 64 s = true.
Proof.
  destruct v as [| | | | t | | |]; cbn -[match_hex]; try (split; [done | by intros (? & _)]).
  destruct (match_hex 64 t) eqn:E; cbn -[match_hex]; split; intros H; inv_ok; auto.
  - by destruct H as [[= ->] _].
  - destruct H as [[= ->] H]. congruence.
Qed.

Lemma validate_member_ok (k item : pystr) (v : option pyval) :
  validate_member k v = Ok item <-> v = Some (PStr item) /\ member_ok k item = true.
Proof.
  destruct v as [[| | | | t | | |]|]; cbn [validate_member]; try (split; [done | by intros [? _]]).
  unfold member_ok. rewrite rbind_ok.
  transitivity (t = item /\ exists a : unit,
    (if str_in k U64_KEYS then let! _u := validate_u64 (PStr t) in Ok tt
     else match dget IDS k with
          | Some prefix => raise_if (negb (match_id prefix t)) (ctx_error "invalid AdmissionTuple identifier")
          | None =>
              if str_eqb k $"binding_digest" then let! _h := validate_hex32 (PStr t) in Ok tt
              else if str_eqb k $"mode" && negb (str_eqb t $"writer") then
                Raise (ctx_error "invalid AdmissionTuple mode")
              else raise_if (str_eqb k $"agent_type" && negb (str_in t [$"claude"; $"codex"]))
                     (ctx_error "invalid AdmissionTuple agent type")
          end) = Ok a).
  { split; [intros (a & H & [= ->]); eauto | intros (-> & a & H); eauto]. }
  assert (Hinj : (Some (PStr t) = Some (PStr item)) <-> t = item) by (split; congruence).
  rewrite Hinj. split; intros (-> & H); (split; [done |]).
  - destruct H as [a H]. destruct (str_in k U64_KEYS).
    { inv_ok. apply validate_u64_ok in E as ([= <-] & -> & ?). lia. }
    destruct (dget IDS k) as [pre|]; [by destruct (match_id pre item) |].
    destruct (str_eqb k $"binding_digest"); [inv_ok; by apply validate_hex32_ok in E as [[= <-] ->] |].
    destruct (str_eqb k $"mode") eqn:Em; cbn [andb] in H; [by destruct (str_eqb item $"writer") |].
    destruct (str_eqb k $"agent_type"); cbn [andb] in H; [| done].
    by destruct (str_in item [$"claude"; $"codex"]).
  - exists tt. destruct (str_in k U64_KEYS).
    { bool_to_prop. by rewrite (proj2 (validate_u64_ok (PStr item) item)). }
    destruct (dget IDS k) as [pre|]; [by rewrite H |].
    destruct (str_eqb k $"binding_digest"); [by rewrite (proj2 (validate_hex32_ok (PStr item) item)) |].
    destruct (str_eqb k $"mode") eqn:Em; cbn [andb].
    { rewrite H. apply str_eqb_eq in Em as ->. done. }
    destruct (str_eqb k $"agent_type"); cbn [andb]; [by rewrite H | done].
Qed.

(** The loop succeeds exactly when every member is well formed, and returns
    the members in the order of the keys. *)
Lemma validate_keys_ok (ks : list pystr) (d out : pydict) :
  validate_keys ks d = Ok out <->
  Forall2 (fun k kv => exists item, kv = (k, PStr item)
             /\ dget d k = Some (PStr item) /\ member_ok k item = true) ks out.
Proof.
  revert out. induction ks as [|k ks IH]; intros out; cbn [validate_keys].
  { split; [intros [= <-]; constructor | intros H; by inversion H]. }
  split.
  - intros H. inv_ok. apply validate_member_ok in E as [? ?].
    constructor; [eauto | by apply IH].
  - intros H. inversion H as [|? kv ? rest (item & -> & Hd & Hm) Hrest]; subst.
    rewrite (proj2 (validate_member_ok k item (dget d k)) (conj Hd Hm)). cbn [rbind].
    by rewrite (proj2 (IH rest) Hrest).
Qed.

(** Validation reads a dictionary through its members only. *)
Lemma validate_keys_ext (ks : list pystr) (d d' : pydict) :
  Forall (fun k => dget d k = dget d' k) ks -> validate_keys ks d = validate_keys ks d'.
Proof. induction 1 as [|k ks Hk _ IH]; cbn [validate_keys]; [done |]. by rewrite Hk, IH. Qed.

(** The validated tuple is one value per member, in the listed order. *)
Lemma validate_keys_shape (ks : list pystr) (d out : pydict) :
  validate_keys ks d = Ok out ->
  exists items, length items = length ks /\ out = zip_with (fun k i => (k, PStr i)) ks items.
Proof.
  rewrite validate_keys_ok. induction 1 as [|k kv ks out (item & -> & _) _ (items & Hl & ->)].
  - by exists [].
  - exists (item :: items). cbn. auto.
Qed.

(** A validated tuple spelled out: thirteen members. *)
Definition admission_dict (i : list pystr) : pydict :=
  zip_with (fun k v => (k, PStr v)) ADMISSION_KEYS i.

Lemma validate_admission_shape (v : pyval) (out : pydict) :
  validate_admission v = Ok out ->
  exists a b c d e f g h i j k l m, out = admission_dict [a;b;c;d;e;f;g;h;i;j;k;l;m].
Proof.
  destruct v as [| | | | | | |d]; cbn [validate_admission]; try done.
  destruct (negb _); [done |]. intros (items & Hl & ->)%validate_keys_shape.
  do 13 (destruct items as [|? items]; [done |]). destruct items; [| done].
  by do 13 eexists.
Qed.

(** The entries of a dictionary built key by key can be looked up. *)
Lemma dget_built (Q : pystr -> pystr -> Prop) (ks : list pystr) (out : pydict) :
  NoDup ks -> Forall2 (fun k kv => exists item, kv = (k, PStr item) /\ Q k item) ks out ->
  Forall (fun k => exists item, dget out k = Some (PStr item) /\ Q k item) ks.
Proof.
  intros Hnd H. induction H as [|k kv ks out (item & -> & Hq) _ IH]; [done |].
  apply NoDup_cons in Hnd as [Hk Hnd]. constructor; cbn [dget]; [rewrite str_eqb_refl; eauto |].
  specialize (IH Hnd). rewrite Forall_forall in IH |- *. intros k' Hk'.
  rewrite (proj2 (str_eqb_neq k' k)) by congruence. auto.
Qed.

Lemma NoDup_admission_keys : NoDup ADMISSION_KEYS.
Proof. apply (bool_decide_unpack _). by vm_compute. Qed.

(** What validation returns, validation returns again. *)
Lemma validate_keys_again (d out : pydict) :
  validate_keys ADMISSION_KEYS d = Ok out -> validate_keys ADMISSION_KEYS out = Ok out.
Proof.
  intros H. rewrite <- H. apply validate_keys_ext. apply validate_keys_ok in H.
  apply (dget_built _ _ _ NoDup_admission_keys) in H.
  eapply Forall_impl; [exact H |]. intros k (item & -> & -> & _). done.
Qed.

(** A validated tuple is a writer's. *)
Lemma validated_writer (v : pyval) (out : pydict) :
  validate_admission v = Ok out -> 
  validate_keys ADMISSION_KEYS out = Ok out /\ dget out $"mode" = Some (PStr $"writer").
Proof.
  destruct v as [| | | | | | |d]; cbn [validate_admission]; try done.
  destruct (negb _); [done |]. intros H. split; [by eapply validate_keys_again |].
  apply validate_keys_ok, (dget_built _ _ _ NoDup_admission_keys) in H.
  rewrite Forall_forall in H. destruct (H $"mode") as (item & Hd & _ & Hm).
  { apply str_in_elem. reflexivity. }
  rewrite Hd. change (str_eqb item $"writer" = true) in Hm. by apply str_eqb_eq in Hm as ->.
Qed.

(** ** Theorems *)

(** The admission tuple is accepted exactly when it is a dictionary with
    the thirteen members and no other, each a string that is well formed for
    its member (positive canonical uint64, typed identifier, 32-byte lowercase
    hex digest, the writer mode, a known agent type); the result is the
    detached dictionary of those members. *)
Theorem admission_accepts_exactly (v : pyval) (out : pydict) :
  validate_admission v = Ok out <->
  exists d, v = PDict d
    /\ keys_equal (dkeys d) ADMISSION_KEYS = true
    /\ Forall2 (fun k kv => exists item, kv = (k, PStr item)
                  /\ dget d k = Some (PStr item) /\ member_ok k item = true)
         ADMISSION_KEYS out.
Proof.
  destruct v as [| | | | | | |d]; cbn [validate_admission];
    try (split; [done | by intros (? & ? & _)]).
  split.
  - destruct (keys_equal (dkeys d) ADMISSION_KEYS) eqn:E; cbn [negb]; [| done].
    intros H%validate_keys_ok. eauto.
  - intros (d' & [= <-] & -> & H). by apply validate_keys_ok.
Qed.

(** The context derived from an admission tuple is a fixed point of
    context validation, so both ends canonicalise the same fifteen members;
    and it determines the tuple and the Runtime epoch: two different bindings
    never share a context. *)
Theorem context_fixed_and_binding (a e : pyval) (c : pydict) :
  derive_context a e = Ok c ->
  validate_context (PDict c) = Ok c
  /\ (forall a' e', derive_context a' e' = Ok c ->
        validate_admission a' = validate_admission a /\ e' = e).
Proof.
  unfold derive_context. intros H. inv_ok. apply validate_u64_ok in E0 as (-> & Hp & Hu).
  pose proof (validate_admission_shape _ _ E)
    as (x1&x2&x3&x4&x5&x6&x7&x8&x9&x10&x11&x12&x13&->).
  destruct (validated_writer _ _ E) as [Ha [= ->]]. split.
  - match goal with |- validate_context (PDict ?c) = _ =>
      transitivity (let! bound := validate_keys ADMISSION_KEYS
        (project_keys (filter (fun k => k <> $"mode") ADMISSION_KEYS) c ++ [($"mode", PStr $"writer")]) in
        let! epoch := validate_u64 (PStr a1) in
        Ok (filter (fun kv => kv.1 <> $"mode") bound ++ [($"protocol_id", PStr PROTOCOL_ID);
          ($"crypto_envelope_version", PInt CRYPTO_ENVELOPE_VERSION); ($"runtime_epoch", PStr epoch)]))
    end; [reflexivity |].
    rewrite (validate_keys_ext ADMISSION_KEYS _
               (admission_dict [x1;x2;x3;x4;x5;x6;x7;x8;x9;x10;x11;$"writer";x13]))
      by (repeat constructor).
    rewrite Ha. cbn [rbind].
    by rewrite (proj2 (validate_u64_ok (PStr a1) a1) (conj eq_refl (conj Hp Hu))).
  - intros a' e' H. inv_ok. apply validate_u64_ok in E1 as (-> & _ & _).
    pose proof (validate_admission_shape _ _ E0)
      as (y1&y2&y3&y4&y5&y6&y7&y8&y9&y10&y11&y12&y13&->).
    destruct (validated_writer _ _ E0) as [_ [= ->]].
    injection H as -> -> -> -> -> -> -> -> -> -> -> -> ->. done.
Qed.

(** A concrete admission tuple. *)
Definition sample_admission : pydict :=
  let hex32 := repeat 97 32 in
  [($"attachment_id", PStr ($"att_" ++ hex32)); ($"workspace_id", PStr ($"aws_" ++ hex32));
   ($"project_id", PStr ($"prj_" ++ hex32)); ($"agent_type", PStr $"codex");
   ($"runtime_host_installation_id", PStr ($"wri_" ++ hex32));
   ($"runtime_host_installation_revision", PStr $"1"); ($"auth_epoch", PStr $"2");
   ($"api_authority_epoch", PStr $"3"); ($"lease_number", PStr $"4");
   ($"generation", PStr $"5"); ($"binding_revision", PStr $"18446744073709551615");
   ($"mode", PStr $"writer"); ($"binding_digest", PStr (repeat 98 64))].

Lemma context_fixed_and_binding_witness :
  exists c, derive_context (PDict sample_admission) (PStr $"7") = Ok c
    /\ validate_context (PDict c) = Ok c.
Proof.
  eexists. split; [vm_compute; reflexivity |].
  refine (proj1 (context_fixed_and_binding (PDict sample_admission) (PStr $"7") _ _)).
  vm_compute. reflexivity.
Defined.

(** One past the largest 64-bit revision is refused, with the uint64 error. *)
Example admission_overflow :
  validate_admission (PDict (dset sample_admission $"binding_revision" (PStr $"18446744073709551616")))
  = Raise (ctx_error "invalid positive uint64 string").
Proof. vm_compute. reflexivity. Qed.
