(* ===== verification/Wire.v ===== *)
(** * Closed WAW v1 wire profiles ([agentbox_protocol/waw_wire.py], codec part)

    Which frame types each of the four legs carries, the closed schema of every
    control payload, the strict control JSON with exact numbers, and the codec
    of one complete frame.  The transcript validator [WireSession] is in
    WireSession.v.

    A leg is always a [Leg] here and [trusted_context] a [bool], as the
    annotations say.  The 5 ms budget of [decode_wire_frame] reads the thread
    CPU clock: the time spent is the argument [cpu_ns]. *)

From S2P Require Import Prelude PyVal Json Abws Awce CryptoContext.

Local Open Scope Z_scope.

Definition MAX_CONTROL_BYTES : Z := 4096.
Definition MAX_FRAME_BYTES : Z := 65536.
Definition VALIDATION_CPU_NS : Z := 5000000.
Definition ADMISSION_TIMEOUT_NS : Z := 5000000000.
Definition INPUT_LIMIT : Z := 16384.
Definition OUTPUT_LIMIT : Z := 32768.

Definition wire_error : exn := err WireError "PROTOCOL_INVALID".

Inductive Leg : Type := BROWSER_TO_API | API_TO_BROWSER | API_TO_RUNTIME | RUNTIME_TO_API.

Abbreviation BA := BROWSER_TO_API.
Abbreviation AB := API_TO_BROWSER.
Abbreviation AR := API_TO_RUNTIME.
Abbreviation RA := RUNTIME_TO_API.

#[export] Instance Leg_eq_dec : EqDecision Leg.
Proof. solve_decision. Defined.

Definition leg_eqb (a b : Leg) : bool := bool_decide (a = b).
Definition kind_eqb (a b : FrameType) : bool := bool_decide (a = b).
Definition kind_in (k : FrameType) (l : list FrameType) : bool := existsb (kind_eqb k) l.

Definition ALLOWED (leg : Leg) : list Z :=
  match leg with
  | BA => [1; 3; 5; 9; 11; 12; 13; 15]
  | AB => [4; 6; 8; 10; 14; 16; 17; 18; 19; 20; 21; 26; 27]
  | AR => [2; 3; 5; 9; 11; 12; 13; 14; 15; 20; 22; 24]
  | RA => [4; 6; 7; 10; 12; 13; 14; 16; 17; 18; 19; 20; 21; 23; 25; 26; 27]
  end.

Definition HANDSHAKE (leg : Leg) : list FrameType :=
  match leg with
  | BA => [WS_HELLO; KEY_INIT; KEY_CONFIRM]
  | AB => [KEY_ATTEST; KEY_CONFIRM_ACK; ADMITTED]
  | AR => [RUNTIME_HELLO; KEY_INIT; KEY_CONFIRM; STREAM_READY; ADMISSION_COMMIT]
  | RA => [HELLO_ACK; KEY_ATTEST; KEY_CONFIRM_ACK; STREAM_READY_ACK; ADMISSION_COMMIT_ACK]
  end.

Definition KEY_TYPES : list FrameType := [KEY_INIT; KEY_ATTEST; KEY_CONFIRM; KEY_CONFIRM_ACK].

Definition WORKSPACE_STATES : list pystr :=
  map ustr ["STARTING"; "RUNNING"; "NEEDS_INTERACTION"; "TRUST_REQUIRED"; "LOGIN_REQUIRED";
   "STOPPING"; "EXITED"; "STOPPED"; "MISSING"; "COLLISION"; "BROKEN"; "UNKNOWN"]%string.

Definition ERROR_CODES : list pystr :=
  map ustr ["PROTOCOL_INVALID"; "SEQUENCE_EXHAUSTED"; "RANDOMNESS_UNAVAILABLE";
   "RUNTIME_INSTALLATION_UNTRUSTED"; "RUNTIME_INSTALLATION_MISMATCH"; "RUNTIME_PEER_FORBIDDEN";
   "RUNTIME_UNAVAILABLE"; "WAW_SOCKET_SET_INCOMPLETE"; "WAW_SOCKET_PROVENANCE_INVALID";
   "WAW_TMP_UNTRUSTED"; "WAW_CGROUP_UNTRUSTED"; "SERVICE_SHUTDOWN"; "WORKSPACE_NOT_FOUND";
   "WORKSPACE_NOT_READY"; "WORKSPACE_NOT_RUNNING"; "WORKSPACE_START_IN_PROGRESS";
   "WORKSPACE_WRITER_BUSY"; "WORKSPACE_RESOURCE_LIMITED"; "WORKSPACE_COLLISION";
   "WORKSPACE_MISSING"; "WORKSPACE_EXITED"; "WORKSPACE_STOPPED"; "RECONCILIATION_REQUIRED";
   "BINDING_BOOTSTRAP_REQUIRED"; "PROJECT_PATH_UNSUPPORTED"; "PROJECT_RUNTIME_ACTIVE";
   "PROJECT_IDENTITY_CHANGED"; "CODEX_REMOTE_CONFLICT"; "WORKSPACE_AUTH_REQUIRED";
   "WORKSPACE_AUTH_STATUS_UNKNOWN"; "WORKSPACE_AUTH_CHECK_REQUIRED"; "WORKSPACE_TRUST_REQUIRED";
   "WORKSPACE_EXECUTABLE_UNSUPPORTED"; "ATTACHMENT_TICKET_EXPIRED"; "ATTACHMENT_TICKET_REPLAYED";
   "ATTACHMENT_TICKET_UNAVAILABLE"; "ATTACHMENT_TICKET_RATE_LIMITED"; "KEY_CONFIRM_FAILED";
   "STREAM_CRYPTO_FAILURE"; "ATTACHMENT_PREPARE_REPLAY"; "ATTACHMENT_STALE"; "DETACH_FAILED";
   "DETACH_IN_PROGRESS"; "ATTACHMENT_NOT_READY"; "ADMITTED_DELIVERY_FAILED"; "INPUT_RATE_LIMITED";
   "CONTROL_RATE_LIMITED"; "OUTPUT_BACKPRESSURE"; "RESIZE_FAILED"; "TERMINAL_PARSE_LIMIT";
   "INPUT_WRITE_UNCERTAIN"; "STOP_TIMEOUT"; "INTERNAL_BOUNDED"]%string.

Definition RUNTIME_CLOSE : list pystr :=
  map ustr ["ADMISSION_TIMEOUT"; "ATTACHMENT_STALE"; "PROTOCOL_INVALID"; "SEQUENCE_EXHAUSTED";
   "RUNTIME_RESTART"; "RUNTIME_UNAVAILABLE"; "WORKSPACE_EXITED"; "WORKSPACE_STOPPED";
   "OUTPUT_BACKPRESSURE"; "TERMINAL_PARSE_LIMIT"; "CONTROL_RATE_LIMITED"]%string.

Definition API_CLOSE : list pystr :=
  map ustr ["DETACHED"; "LEASE_STALE"; "SESSION_REVOKED"; "AUTH_EPOCH_CHANGED"; "ADMISSION_TIMEOUT";
   "ATTACHMENT_STALE"; "PROTOCOL_INVALID"; "SERVICE_SHUTDOWN"; "RUNTIME_UNAVAILABLE";
   "OUTPUT_BACKPRESSURE"; "TERMINAL_PARSE_LIMIT"]%string.

Definition INTERNAL_CLOSE : list pystr :=
  API_CLOSE ++ [$"CONTROL_RATE_LIMITED"; $"INTERNAL_BOUNDED"].

Definition REJECT : list pystr :=
  map ustr ["ATTACHMENT_STALE"; "WORKSPACE_NOT_RUNNING"; "WORKSPACE_EXITED"; "WORKSPACE_STOPPED";
   "RECONCILIATION_REQUIRED"]%string.

Definition RESIZE_REJECT : list pystr :=
  map ustr ["CONTROL_RATE_LIMITED"; "ATTACHMENT_STALE"; "WORKSPACE_NOT_RUNNING"; "WORKSPACE_EXITED";
   "WORKSPACE_STOPPED"; "RESIZE_FAILED"]%string.

Definition DETACH_REJECT : list pystr := REJECT ++ [$"DETACH_FAILED"].

Definition B64_ALPHABET : pystr :=
  $"ABCDEFGHIJKLMNOPQRSTUVWXYZabcdefghijklmnopqrstuvwxyz0123456789-_".

(** ** Schemas

    The rule names of the source, one constructor each; the prefix
    "nullable_" is [Nullable], the families "att", "aws", ... are [Ident] and
    "b64_<n>" is [B64 n]. *)

Inductive int_rule : Type := One | InputLimit | OutputLimit | Columns | Rows | ExitCode.

Definition INTEGER_BOUNDS (r : int_rule) : Z * Z :=
  match r with
  | One => (1, 1)
  | InputLimit => (INPUT_LIMIT, INPUT_LIMIT)
  | OutputLimit => (OUTPUT_LIMIT, OUTPUT_LIMIT)
  | Columns => (8, 240)
  | Rows => (1, 200)
  | ExitCode => (-128, 255)
  end.

Inductive enum_rule : Type :=
| Noise | Verified | RunningOnly | Agent | CommitResult | ResizeResult | DetachResult | Cleanup
| ExitState | GapReason | InputResult | ErrorCode | State | Reject | ResizeReject
| DetachReject | InputReject.

Definition ENUM_RULES (r : enum_rule) : list pystr :=
  match r with
  | Noise => [$"Noise_NX_25519_AESGCM_SHA256"]
  | Verified => [$"verified"]
  | RunningOnly => [$"RUNNING"]
  | Agent => [$"claude"; $"codex"]
  | CommitResult => [$"committed"; $"rejected"]
  | ResizeResult => [$"applied"; $"rejected"]
  | DetachResult => [$"detached"; $"already_detached"; $"rejected"]
  | Cleanup => [$"ATTACH_PTY_CLOSED"; $"ATTACH_PTY_CLOSE_UNCERTAIN"]
  | ExitState => [$"EXITED"; $"STOPPED"; $"MISSING"; $"COLLISION"; $"BROKEN"; $"UNKNOWN"]
  | GapReason => [$"baseline_redraw"; $"ring_overflow"; $"cursor_expired"; $"slow_client"]
  | InputResult => [$"accepted"; $"written_to_pty"; $"write_uncertain"; $"rejected"]
  | ErrorCode => ERROR_CODES
  | State => WORKSPACE_STATES
  | Reject => REJECT
  | ResizeReject => RESIZE_REJECT
  | DetachReject => DETACH_REJECT
  | InputReject => REJECT ++ [$"INPUT_RATE_LIMITED"; $"INPUT_WRITE_UNCERTAIN"]
  end.

Definition CLOSE_RULES (leg : Leg) : list pystr :=
  match leg with
  | AR => INTERNAL_CLOSE
  | RA => RUNTIME_CLOSE
  | AB | BA => RUNTIME_CLOSE ++ API_CLOSE
  end.

Inductive rule : Type :=
| RAdmission | RContext
| Nullable (r : rule)
| U64 | Crypto | Cursor | U64Zero
| RInt (r : int_rule)
| RBool
| Ident (prefix : pystr)
| Hex8 | Hex32
| B64 (size : Z)
| Timestamp
| REnum (r : enum_rule)
| RClose.

Abbreviation schema := (list (pystr * rule)).

(** [a | b] on dictionaries *)
Definition dunion {V} (a b : list (pystr * V)) : list (pystr * V) :=
  fold_left (fun d '(k, v) => dset d k v) b a.

Definition S_A : schema := map (fun k => (k, RAdmission)) ADMISSION_KEYS.
Definition S_C : schema := map (fun k => (k, RContext)) CONTEXT_KEYS.
Definition S_BASE : schema := [($"protocol_version", RInt One)].
Definition S_LEASE : schema := [($"attachment_id", Ident $"att"); ($"lease_number", U64)].
Definition S_EPOCH : schema := [($"runtime_epoch", U64)].

Definition schema_body (kind : FrameType) (leg : Leg) : schema :=
  match kind with
  | WS_HELLO | RUNTIME_HELLO =>
      dunion
        (dunion (dunion S_A S_EPOCH)
           [($"resume_cursor", Nullable Cursor); ($"previous_runtime_epoch", Nullable U64)])
        (if kind_eqb kind WS_HELLO then [($"ticket", Ident $"wat")] else [($"capability", Hex32)])
  | KEY_INIT | KEY_ATTEST =>
      dunion
        (dunion (dunion S_A S_EPOCH)
           [($"noise_protocol", REnum Noise); ($"crypto_envelope_version", RInt One)])
        (if kind_eqb kind KEY_INIT then
           [($"browser_ephemeral_public_key", B64 32); ($"noise_message_1", B64 32)]
         else
           [($"runtime_attestation_x25519_fingerprint", Hex32);
            ($"runtime_ephemeral_public_key", B64 32); ($"noise_message_2", B64 128)])
  | KEY_CONFIRM | KEY_CONFIRM_ACK =>
      let body := dunion S_C [($"noise_protocol", REnum Noise); ($"ciphertext", B64 48)] in
      if kind_eqb kind KEY_CONFIRM_ACK then
        dunion body [($"status", REnum Verified); ($"transcript_context_hash", Hex32)]
      else body
  | HELLO_ACK | ADMITTED | STREAM_READY_ACK =>
      let body := dunion (dunion S_A S_EPOCH)
                    [($"state", REnum RunningOnly); ($"output_cursor", Cursor)] in
      if kind_eqb kind HELLO_ACK then
        dunion body [($"input_limit", RInt InputLimit); ($"output_limit", RInt OutputLimit)]
      else if kind_eqb kind ADMITTED then dunion body [($"lease_expires_at", Timestamp)]
      else dunion body [($"admission_fence", Hex32)]
  | STREAM_READY | ADMISSION_COMMIT | ADMISSION_COMMIT_ACK =>
      let body := dunion S_A S_EPOCH in
      if kind_eqb kind ADMISSION_COMMIT then dunion body [($"admission_fence", Hex32)]
      else if kind_eqb kind ADMISSION_COMMIT_ACK then
        dunion body [($"result", REnum CommitResult); ($"reason_code", Nullable (REnum Reject))]
      else body
  | RESIZE => dunion S_LEASE [($"columns", RInt Columns); ($"rows", RInt Rows)]
  | RESIZE_ACK =>
      dunion S_LEASE
        [($"acknowledged_hop_sequence", U64); ($"requested_columns", RInt Columns);
         ($"requested_rows", RInt Rows); ($"effective_columns", Nullable (RInt Columns));
         ($"effective_rows", Nullable (RInt Rows)); ($"result", REnum ResizeResult);
         ($"reason_code", Nullable (REnum ResizeReject))]
  | HEARTBEAT => dunion S_LEASE [($"sent_at_monotonic_tick", U64)]
  | PING | PONG =>
      [($"nonce", Hex8);
       (if kind_eqb kind PING then $"sent_at_monotonic_tick"
        else $"echoed_sent_at_monotonic_tick", U64)]
  | DETACH => S_LEASE
  | DETACH_ACK =>
      dunion (if leg_eqb leg RA then dunion S_A S_EPOCH else S_LEASE)
        [($"acknowledged_hop_sequence", U64); ($"result", REnum DetachResult);
         ($"cleanup_state", REnum Cleanup); ($"reason_code", Nullable (REnum DetachReject))]
  | EXIT => [($"state", REnum ExitState); ($"exit_code", Nullable (RInt ExitCode))]
  | GAP => [($"from_cursor", Cursor); ($"to_cursor", U64Zero); ($"reason", REnum GapReason)]
  | ACK =>
      let body := [($"runtime_input_hop_sequence", U64); ($"crypto_sequence", Crypto);
                   ($"result", REnum InputResult); ($"reason_code", Nullable (REnum InputReject))] in
      if leg_eqb leg AB then dunion body [($"browser_input_hop_sequence", U64)] else body
  | ERROR => [($"code", REnum ErrorCode); ($"retryable", RBool); ($"request_id", Nullable (Ident $"wreq"))]
  | CLOSE => [($"code", RClose); ($"workspace_state_at_close", REnum State)]
  | STATE =>
      let body := [($"workspace_id", Ident $"aws"); ($"project_id", Ident $"prj");
                   ($"agent_type", REnum Agent); ($"generation", U64); ($"state", REnum State);
                   ($"reason_code", Nullable (REnum ErrorCode))] in
      if leg_eqb leg RA then dunion body S_EPOCH else body
  | INPUT | OUTPUT => []
  end.

(** The last [else] of the source, for the types without a schema. *)
Definition schema_of (kind : FrameType) (leg : Leg) : result schema :=
  match kind with
  | INPUT | OUTPUT => Raise wire_error
  | _ => Ok (dunion S_BASE (schema_body kind leg))
  end.

(** ** Scalars *)

Definition is_b64_char (c : Z) : bool :=
  in_range 65 c 90 || in_range 97 c 122 || is_digit c || (c =? 95) || (c =? 45).

(** [_B64_ALPHABET.index(c)] *)
Fixpoint index_of (c : Z) (l : pystr) : Z :=
  match l with
  | [] => 0
  | x :: r => if x =? c then 0 else 1 + index_of c r
  end.

Definition b64_ok (size : Z) (value : pystr) : bool :=
  let chars := (size * 8 + 5) / 6 in
  let remainder := size mod 3 in
  (blen value =? chars) && negb (Nat.eqb (length value) 0) && forallb is_b64_char value
  && ((remainder =? 0)
      || (index_of (List.last value 0) B64_ALPHABET mod (if remainder =? 1 then 16 else 4) =? 0)).

(** [re.fullmatch(r"[0-9]{4}-[0-9]{2}-...\.[0-9]{6}Z", value)]: a digit where
    the template has a zero, the template's character elsewhere. *)
Fixpoint match_template (template value : pystr) : bool :=
  match template, value with
  | [], [] => true
  | t :: ts, c :: cs => (if t =? 48 then is_digit c else c =? t) && match_template ts cs
  | _, _ => false
  end.

Definition is_leap (y : Z) : bool :=
  (y mod 4 =? 0) && (negb (y mod 100 =? 0) || (y mod 400 =? 0)).

Definition days_in_month (y m : Z) : Z :=
  if m =? 2 then (if is_leap y then 29 else 28)
  else if (m =? 4) || (m =? 6) || (m =? 9) || (m =? 11) then 30 else 31.

(** [datetime(y, m, d, hh, mm, ss, us)] does not raise ValueError. *)
Definition datetime_ok (y m d hh mm ss us : Z) : bool :=
  in_range 1 y 9999 && in_range 1 m 12 && in_range 1 d (days_in_month y m)
  && in_range 0 hh 23 && in_range 0 mm 59 && in_range 0 ss 59 && in_range 0 us 999999.

Definition timestamp_ok (value : pystr) : bool :=
  let int a b := digits_value (slice a b value) in
  match_template $"0000-00-00T00:00:00.000000Z" value
  && datetime_ok (int 0 4) (int 5 7) (int 8 10) (int 11 13) (int 14 16) (int 17 19) (int 20 26).

Definition u64_rule_ok (minimum maximum : Z) (value : pyval) : bool :=
  match value with
  | PStr s => match_decimal s && in_range minimum (digits_value s) maximum
  | _ => false
  end.

(** [_scalar] raises WireError exactly when this is false. *)
Fixpoint scalar_ok (value : pyval) (r : rule) (leg : Leg) : bool :=
  match r with
  | RAdmission | RContext => true
  | Nullable r' => is_none value || scalar_ok value r' leg
  | U64 => u64_rule_ok 1 MAX_U64 value
  | Crypto => u64_rule_ok 1 (MAX_U64 - 1) value
  | Cursor => u64_rule_ok 0 (MAX_U64 - 1) value
  | U64Zero => u64_rule_ok 0 MAX_U64 value
  | RInt i =>
      match value with
      | PInt z => in_range (fst (INTEGER_BOUNDS i)) z (snd (INTEGER_BOUNDS i))
      | _ => false
      end
  | RBool => match value with PBool _ => true | _ => false end
  | Ident prefix => match value with PStr s => match_id prefix s | _ => false end
  | Hex8 => match value with PStr s => match_hex 16 s | _ => false end
  | Hex32 => match value with PStr s => match_hex 64 s | _ => false end
  | B64 size => match value with PStr s => b64_ok size s | _ => false end
  | Timestamp => match value with PStr s => timestamp_ok s | _ => false end
  | REnum e => match value with PStr s => str_in s (ENUM_RULES e) | _ => false end
  | RClose => match value with PStr s => str_in s (CLOSE_RULES leg) | _ => false end
  end.

Definition profile (kind : pyval) (leg : Leg) : result FrameType :=
  match kind with
  | PInt z =>
      match frame_of_code z with
      | Some k => if existsb (Z.eqb (frame_code k)) (ALLOWED leg) then Ok k else Raise wire_error
      | None => Raise wire_error
      end
  | _ => Raise wire_error
  end.

(** ** Control payloads *)

(** [result[key]]; a missing key raises KeyError *)
Definition py_getitem (d : pydict) (k : pystr) : result pyval :=
  match dget d k with
  | Some v => Ok v
  | None => Raise (err PyKeyError "missing member")
  end.

(** [for key, rule in schema.items(): _scalar(result[key], rule, leg)] *)
Fixpoint check_scalars (s : schema) (d : pydict) (leg : Leg) : result unit :=
  match s with
  | [] => Ok tt
  | (k, r) :: s' =>
      let! v := py_getitem d k in
      run! raise_if (negb (scalar_ok v r leg)) wire_error in
      check_scalars s' d leg
  end.

(** [for key in ADMISSION_KEYS & result.keys(): if result[key] != bound[key]: raise] *)
Definition check_bound (d bound : pydict) : result unit :=
  raise_if
    (existsb (fun k =>
       match dget d k with
       | None => false
       | Some v => match dget bound k with Some w => negb (scalar_eqb v w) | None => true end
       end) ADMISSION_KEYS) wire_error.

(** [v == "text"] and [v in {...}] for a member value *)
Definition is_text (v : pyval) (s : pystr) : bool :=
  match v with PStr t => str_eqb t s | _ => false end.
Definition text_in (v : pyval) (l : list pystr) : bool :=
  match v with PStr t => str_in t l | _ => false end.

(** [int(v)] for a member the schema restricts to a decimal string *)
Definition int_of (v : pyval) : Z :=
  match v with PStr s => digits_value s | _ => 0 end.

(** The relations between members of one record. *)
Definition cross_checks (kind : FrameType) (trusted_context : bool) (r : pydict) : result unit :=
  run! (if kind_eqb kind ERROR && trusted_context then
          let! q := py_getitem r $"request_id" in raise_if (is_none q) wire_error
        else Ok tt) in
  match kind with
  | RESIZE_ACK =>
      let! res := py_getitem r $"result" in
      let! reason := py_getitem r $"reason_code" in
      let! ec := py_getitem r $"effective_columns" in
      let! er := py_getitem r $"effective_rows" in
      let! qc := py_getitem r $"requested_columns" in
      let! qr := py_getitem r $"requested_rows" in
      if is_text res $"applied" then
        raise_if (negb (is_none reason) || negb (scalar_eqb ec qc) || negb (scalar_eqb er qr)) wire_error
      else raise_if (is_none reason || negb (is_none ec) || negb (is_none er)) wire_error
  | DETACH_ACK =>
      let! res := py_getitem r $"result" in
      let! reason := py_getitem r $"reason_code" in
      let! cleanup := py_getitem r $"cleanup_state" in
      let positive := negb (is_text res $"rejected") in
      raise_if (negb (Bool.eqb (is_none reason) positive)
                || negb (is_text cleanup (if positive then $"ATTACH_PTY_CLOSED"
                                          else $"ATTACH_PTY_CLOSE_UNCERTAIN"))) wire_error
  | ADMISSION_COMMIT_ACK =>
      let! res := py_getitem r $"result" in
      let! reason := py_getitem r $"reason_code" in
      raise_if (negb (Bool.eqb (is_text res $"committed") (is_none reason))) wire_error
  | ACK =>
      let! outcome := py_getitem r $"result" in
      let! reason := py_getitem r $"reason_code" in
      if text_in outcome [$"accepted"; $"written_to_pty"] then
        raise_if (negb (is_none reason)) wire_error
      else if is_text outcome $"write_uncertain" then
        raise_if (negb (is_text reason $"INPUT_WRITE_UNCERTAIN")) wire_error
      else raise_if (negb (text_in reason (REJECT ++ [$"INPUT_RATE_LIMITED"]))) wire_error
  | GAP =>
      let! a := py_getitem r $"from_cursor" in
      let! b := py_getitem r $"to_cursor" in
      let! why := py_getitem r $"reason" in
      let start := int_of a in let end_ := int_of b in
      if is_text why $"baseline_redraw" then
        raise_if (negb (start =? 0) || negb (end_ =? 0)) wire_error
      else raise_if (negb ((1 <=? start) && (start <? end_))) wire_error
  | _ => Ok tt
  end.

(** The validated payload: an opaque envelope or a control record. *)
Inductive wire_payload : Type :=
| Opaque (raw : bytes)
| Control (record : pydict).

Definition validate_opaque (kind : FrameType) (payload : pyval) : result wire_payload :=
  match payload with
  | PBytes raw =>
      let! envelope := decode_awce raw in
      let '(direction, ceiling) :=
        if kind_eqb kind INPUT then (1, INPUT_LIMIT) else (2, OUTPUT_LIMIT) in
      run! raise_if (negb (direction_id envelope =? direction)
                     || (ceiling + 16 <? ciphertext_length envelope)) wire_error in
      Ok (Opaque raw)
  | _ => Raise wire_error
  end.

Definition validate_control (kind : FrameType) (leg : Leg) (payload : pyval)
    (admission runtime_epoch : option pyval) (trusted_context : bool) : result wire_payload :=
  let! s := schema_of kind leg in
  match payload with
  | PDict d =>
      run! raise_if (negb (keys_equal (dkeys d) (dkeys s))) wire_error in
      run! check_scalars s d leg in
      run! (if keys_superset (dkeys d) ADMISSION_KEYS then
              let! _a := validate_admission (PDict (project_keys ADMISSION_KEYS d)) in Ok tt
            else if keys_superset (dkeys d) CONTEXT_KEYS then
              let! _c := validate_context (PDict (project_keys CONTEXT_KEYS d)) in Ok tt
            else Ok tt) in
      run! match admission with
           | Some a => let! bound := validate_admission a in check_bound d bound
           | None => Ok tt
           end in
      run! match runtime_epoch with
           | Some e =>
               let! epoch := validate_u64 e in
               match dget d $"runtime_epoch" with
               | Some v => raise_if (negb (scalar_eqb v (PStr epoch))) wire_error
               | None => Ok tt
               end
           | None => Ok tt
           end in
      run! cross_checks kind trusted_context d in
      Ok (Control d)
  | _ => Raise wire_error
  end.

Definition validate_payload (frame_type : pyval) (leg : Leg) (payload : pyval)
    (admission runtime_epoch : option pyval) (trusted_context : bool) : result wire_payload :=
  except_as
    (let! kind := profile frame_type leg in
     if is_opaque kind then validate_opaque kind payload
     else validate_control kind leg payload admission runtime_epoch trusted_context)
    [WAWContextError; AWCEError; PyTypeError; PyKeyError] wire_error.

(** ** Exact numbers *)

(** Drop leading zeros: [s.lstrip("0")] *)
Fixpoint lstrip0 (s : pystr) : pystr :=
  match s with
  | c :: r => if c =? 48 then lstrip0 r else s
  | [] => []
  end.

(** The groups of [(-?)([0-9]+)(?:\.([0-9]+))?(?:[eE]([+-]?[0-9]+))?] in a full
    match: the sign, the whole and fraction digits and the exponent's value. *)
Definition number_groups (token : pystr) : option (bool * pystr * pystr * Z) :=
  let '(neg, r0) := match expect 45 token with Some r => (true, r) | None => (false, token) end in
  let '(whole, r1) := span_digits r0 in
  if Nat.eqb (length whole) 0 then None else
  let '(fraction, r2) :=
    match expect 46 r1 with
    | Some r => let '(f, r') := span_digits r in
                if Nat.eqb (length f) 0 then ([], r1) else (f, r')
    | None => ([], r1)
    end in
  match r2 with
  | [] => Some (neg, whole, fraction, 0)
  | c :: r3 =>
      if (c =? 101) || (c =? 69) then
        let '(eneg, r4) := match expect 45 r3 with
                           | Some r => (true, r)
                           | None => (false, match expect 43 r3 with Some r => r | None => r3 end)
                           end in
        let '(e, r5) := span_digits r4 in
        match e, r5 with
        | _ :: _, [] => Some (neg, whole, fraction, if eneg then - digits_value e else digits_value e)
        | _, _ => None
        end
      else None
  end.

Definition exact_integer (token : pystr) : result Z :=
  match number_groups token with
  | None => Raise wire_error
  | Some (neg, whole, fraction, exponent) =>
      let digits := lstrip0 (whole ++ fraction) in
      if Nat.eqb (length digits) 0 then Ok 0 else
      let shift := exponent - blen fraction in
      let! integral :=
        if 0 <=? shift then
          run! raise_if (5 <? blen digits + shift) wire_error in
          Ok (digits ++ repeat 48 (Z.to_nat shift))
        else
          let trim := - shift in
          run! raise_if ((blen digits <=? trim)
                  || existsb (fun c => negb (c =? 48)) (slice_from (blen digits - trim) digits)) wire_error in
          Ok (slice_to (blen digits - trim) digits) in
      run! raise_if (5 <? blen integral) wire_error in
      let result := if neg then - digits_value integral else digits_value integral in
      run! raise_if (32768 <? Z.abs result) wire_error in
      Ok result
  end.

(** ** Strict control JSON *)

(** The nesting scan before parsing: depth, inside a string, after a backslash. *)
Fixpoint nesting_ok (depth : Z) (quoted escaped : bool) (l : bytes) : bool :=
  match l with
  | [] => true
  | b :: r =>
      let c := b2z b in
      if quoted then
        if escaped then nesting_ok depth true false r
        else if c =? 92 then nesting_ok depth true true r
        else if c =? 34 then nesting_ok depth false escaped r
        else nesting_ok depth true escaped r
      else if c =? 34 then nesting_ok depth true escaped r
      else if (c =? 91) || (c =? 123) then
        if 16 <? depth + 1 then false else nesting_ok (depth + 1) false escaped r
      else if (c =? 93) || (c =? 125) then nesting_ok (depth - 1) false escaped r
      else nesting_ok depth false escaped r
  end.

(** A [_NumberToken] is its text.  With these hooks the parser makes no float,
    so [PFloat text] stands for the token. *)
Definition number_token (_ : bool) (text : pystr) : result pyval := Ok (PFloat text).
Definition wire_constant (_ : pystr) : result pyval := Raise wire_error.

Definition pair_value (key : pystr) (item : pyval) : result pyval :=
  match item with
  | PFloat text =>
      run! raise_if (str_in key [$"protocol_version"; $"crypto_envelope_version"]
                     && negb (str_eqb text $"1")) wire_error in
      let! z := exact_integer text in Ok (PInt z)
  | _ => Ok item
  end.

Fixpoint pairs_record (record : pydict) (items : list (pystr * pyval)) : result pydict :=
  match items with
  | [] => Ok record
  | (key, item) :: rest =>
      run! raise_if (dhas record key) wire_error in
      let! item' := pair_value key item in
      pairs_record (dset record key item') rest
  end.

(** The hook [pairs]; its state is the enclosing function's [count]. *)
Definition pairs (count : Z) (items : list (pystr * pyval)) : result (Z * pyval) :=
  run! raise_if (64 <? count + blen items) wire_error in
  let! record := pairs_record [] items in
  Ok (count + blen items, PDict record).

Definition is_scalar (item : pyval) : bool :=
  match item with PStr _ | PInt _ | PBool _ | PNone => true | _ => false end.

Fixpoint check_members (d : pydict) : result unit :=
  match d with
  | [] => Ok tt
  | (key, item) :: rest =>
      run! raise_if (existsb is_surrogate key) wire_error in
      run! raise_if (negb (is_scalar item)) wire_error in
      run! raise_if (match item with PStr s => existsb is_surrogate s | _ => false end) wire_error in
      check_members rest
  end.

Definition json_bytes (payload : bytes) : result pydict :=
  run! raise_if (negb (in_range 1 (blen payload) MAX_CONTROL_BYTES)) wire_error in
  run! raise_if (negb (nesting_ok 0 false false payload)) wire_error in
  except_as
    (match utf8_decode payload with
     | None => Raise (err UnicodeDecodeError "invalid utf-8")
     | Some text =>
         let! '(_, value) := loads number_token wire_constant pairs 0 text in
         match value with
         | PDict d => run! check_members d in Ok d
         | _ => Raise wire_error
         end
     end) [UnicodeDecodeError; PyValueError; PyOverflowError] wire_error.

(** ** One complete frame *)

Record WireFrame : Type := mkWireFrame {
  wf_type : FrameType;
  wf_leg : Leg;
  wf_sequence : Z;
  wf_payload : bytes;
  wf_json : option pydict;
  wf_wire : bytes;
  wf_replay : bool
}.

Definition decode_wire_frame (cpu_ns : Z) (raw : pyval) (leg : Leg)
    (admission runtime_epoch : option pyval) (trusted_context : bool) : result WireFrame :=
  except_as
    (match raw with
     | PBytes wire =>
         run! raise_if (negb (in_range 24 (blen wire) MAX_FRAME_BYTES)) wire_error in
         let! kind := profile (PInt (be_decode (slice 5 6 wire))) leg in
         let original := slice_from 24 wire in
         let! record := if is_opaque kind then Ok None
                        else let! d := json_bytes original in Ok (Some d) in
         let! frame := decode_frame wire None in
         let! validated := validate_payload (PInt (frame_code kind)) leg
             (match record with None => PBytes original | Some d => PDict d end)
             admission runtime_epoch trusted_context in
         run! raise_if (match record with Some _ => VALIDATION_CPU_NS <? cpu_ns | None => false end)
                wire_error in
         Ok (mkWireFrame kind leg (hop_sequence frame) original
               (match validated with Control d => Some d | Opaque _ => None end) wire false)
     | _ => Raise wire_error
     end)
    [ABWSError; UnicodeDecodeError; PyValueError; PyTypeError; PyOverflowError; StructError] wire_error.

Definition pack (kind : FrameType) (payload : bytes) (hop_sequence : pyval) : result bytes :=
  match hop_sequence with
  | PInt s =>
      run! raise_if (negb (in_range 1 s MAX_U64)) wire_error in
      run! raise_if (2 ^ 32 <=? blen payload) (err StructError "argument out of range") in
      Ok (header_pack (frame_code kind) (blen payload) s ++ payload)
  | _ => Raise wire_error
  end.

Definition encode_wire_frame (cpu_ns : Z) (frame_type : pyval) (leg : Leg) (payload hop_sequence : pyval)
    (admission runtime_epoch : option pyval) (trusted_context : bool) : result bytes :=
  let! validated := validate_payload frame_type leg payload admission runtime_epoch trusted_context in
  except_as
    (let! encoded := match validated with
                     | Opaque b => Ok b
                     | Control d => let! text := dumps (PDict d) in py_encode text
                     end in
     let! kind := match frame_type with
                  | PInt z => match frame_of_code z with
                              | Some k => Ok k
                              | None => Raise (err PyValueError "not a valid FrameType")
                              end
                  | _ => Raise (err PyValueError "not a valid FrameType")
                  end in
     let! raw := pack kind encoded hop_sequence in
     let! f := decode_wire_frame cpu_ns (PBytes raw) leg admission runtime_epoch trusted_context in
     Ok (wf_wire f))
    [UnicodeEncodeError; PyValueError; PyTypeError] wire_error.

Definition forward_wire_frame (cpu_ns : Z) (frame : WireFrame) (leg : Leg) (hop_sequence : pyval) : result bytes :=
  run! raise_if (negb ((leg_eqb (wf_leg frame) BA && leg_eqb leg AR)
                       || (leg_eqb (wf_leg frame) RA && leg_eqb leg AB))
                 || negb (kind_in (wf_type frame) (KEY_TYPES ++ [INPUT; OUTPUT]))) wire_error in
  let! raw := pack (wf_type frame) (wf_payload frame) hop_sequence in
  let! f := decode_wire_frame cpu_ns (PBytes raw) leg None None true in
  Ok (wf_wire f).

(** ** Lemmas *)

Lemma profile_ok (z : Z) (leg : Leg) (k : FrameType) :
  profile (PInt z) leg = Ok k <->
  z = frame_code k /\ existsb (Z.eqb (frame_code k)) (ALLOWED leg) = true.
Proof.
  cbn [profile]. split.
  - destruct (frame_of_code z) as [k'|] eqn:E; [| done]. apply frame_of_code_spec in E as ->.
    case_if; [| done]. intros [= ->]. done.
  - intros [-> H]. by rewrite frame_of_code_code, H.
Qed.

Lemma frame_code_inj (a b : FrameType) : frame_code a = frame_code b -> a = b.
Proof. intros H. pose proof (frame_of_code_code a) as Ha. rewrite H, frame_of_code_code in Ha. congruence. Qed.

(** Byte 5 of a packed frame is its type. *)
Lemma packed_type (k : FrameType) (len s : Z) (p : bytes) :
  be_decode (slice 5 6 (header_pack (frame_code k) len s ++ p)) = frame_code k.
Proof. by destruct k. Qed.

(** A packed frame determines its type, sequence and payload. *)
Lemma packed_inj (k k' : FrameType) (s s' : Z) (p p' : bytes) :
  header_pack (frame_code k) (blen p) s ++ p = header_pack (frame_code k') (blen p') s' ++ p' ->
  blen p < 2 ^ 32 -> blen p' < 2 ^ 32 -> 0 <= s < 2 ^ 64 -> 0 <= s' < 2 ^ 64 ->
  k' = k /\ s' = s /\ p = p'.
Proof.
  intros H Hp Hp' Hs Hs'. pose proof (frame_code_range k). pose proof (frame_code_range k').
  pose proof (blen_nonneg p). pose proof (blen_nonneg p').
  apply app_inj_1 in H as [Hh ->]; [| unfold header_pack; rewrite !length_app, !length_be_encode; done].
  apply (f_equal header_unpack) in Hh. rewrite !header_unpack_pack in Hh by lia.
  injection Hh as Hk Hs0. split_and!; [by apply frame_code_inj | done | done].
Qed.

(** The body of [decode_wire_frame] once the frame is known to be packed. *)
Definition decode_packed (cpu_ns : Z) (k : FrameType) (s : Z) (p : bytes) (leg : Leg)
    (admission runtime_epoch : option pyval) (trusted_context : bool) : result WireFrame :=
  let! record := if is_opaque k then Ok None else let! d := json_bytes p in Ok (Some d) in
  let! _frame := decode_frame (header_pack (frame_code k) (blen p) s ++ p) None in
  let! validated := validate_payload (PInt (frame_code k)) leg
      (match record with None => PBytes p | Some d => PDict d end)
      admission runtime_epoch trusted_context in
  run! raise_if (match record with Some _ => VALIDATION_CPU_NS <? cpu_ns | None => false end)
         wire_error in
  Ok (mkWireFrame k leg s p (match validated with Control d => Some d | Opaque _ => None end)
        (header_pack (frame_code k) (blen p) s ++ p) false).

(** A successful decode is that of a canonically packed frame. *)
Lemma decode_wire_packed (cpu : Z) (raw : pyval) (leg : Leg) (a e : option pyval) (t : bool) (f : WireFrame) :
  decode_wire_frame cpu raw leg a e t = Ok f ->
  raw = PBytes (wf_wire f)
  /\ wf_wire f = header_pack (frame_code (wf_type f)) (blen (wf_payload f)) (wf_sequence f) ++ wf_payload f
  /\ 1 <= wf_sequence f <= MAX_U64 /\ blen (wf_payload f) <= MAX_PAYLOAD
  /\ existsb (Z.eqb (frame_code (wf_type f))) (ALLOWED leg) = true
  /\ decode_packed cpu (wf_type f) (wf_sequence f) (wf_payload f) leg a e t = Ok f.
Proof.
  unfold decode_wire_frame. rewrite except_as_ok. destruct raw as [| | | | | wire | |]; try done.
  intros H. inv_ok. destruct (decode_frame wire None) as [fr|] eqn:Ed; [| by inv_ok].
  pose proof (decode_frame_ok _ _ _ Ed) as (Hraw & Hs & Hp & _ & _).
  apply profile_ok in E as [Hk Hal]. rewrite Hraw, packed_type in Hk. apply frame_code_inj in Hk as <-.
  assert (Hpay : slice_from 24 wire = payload fr)
    by (rewrite Hraw; apply slice_from_app, blen_header_pack).
  rewrite Hpay in *. inv_ok. cbn [wf_wire wf_type wf_payload wf_sequence].
  split_and!; try done; [lia | lia |]. unfold decode_packed. rewrite E0, Ed. cbn [rbind].
  rewrite E2. cbn [rbind]. by rewrite G0.
Qed.

Lemma decode_wire_of_packed (cpu : Z) (k : FrameType) (s : Z) (p : bytes) (leg : Leg)
    (a e : option pyval) (t : bool) :
  1 <= s <= MAX_U64 -> blen p <= MAX_PAYLOAD ->
  existsb (Z.eqb (frame_code k)) (ALLOWED leg) = true ->
  decode_wire_frame cpu (PBytes (header_pack (frame_code k) (blen p) s ++ p)) leg a e t
  = except_as (decode_packed cpu k s p leg a e t)
      [ABWSError; UnicodeDecodeError; PyValueError; PyTypeError; PyOverflowError; StructError] wire_error.
Proof.
  intros Hs Hp Hal. unfold decode_wire_frame, decode_packed.
  rewrite blen_app, blen_header_pack, packed_type, (proj2 (profile_ok _ _ _) (conj eq_refl Hal)).
  unfold in_range. pose proof (blen_nonneg p). unfold MAX_PAYLOAD, MAX_FRAME_BYTES in *.
  replace ((24 <=? HEADER_SIZE + blen p) && _) with true by (unfold HEADER_SIZE; lia).
  cbn [negb raise_if rbind].
  rewrite (slice_from_app 24 _ p (blen_header_pack _ _ _)).
  apply (f_equal (fun c => except_as c _ _)).
  destruct (if is_opaque k then _ else _) as [rec|]; cbn [rbind]; [| done].
  rewrite decode_frame_pack by (unfold MAX_PAYLOAD; auto).
  destruct (if is_json_type k then _ else _) as [j|]; done.
Qed.

(** *** Which exceptions leave the codec *)

Lemma decode_awce_throws (data : bytes) : throws [AWCEError] (decode_awce data).
Proof.
  unfold decode_awce, new_envelope, validate_fields, validate_header_fields, require_exact_uint,
    require_bytes. throws_tac.
Qed.

Lemma validate_keys_throws (ks : list pystr) (d : pydict) : throws [WAWContextError] (validate_keys ks d).
Proof.
  induction ks as [|k ks IH]; cbn [validate_keys]; throws_tac; [| exact IH].
  unfold validate_member, validate_u64, validate_hex32. throws_tac.
Qed.

Lemma validate_admission_throws (v : pyval) : throws [WAWContextError] (validate_admission v).
Proof. unfold validate_admission. throws_tac. apply validate_keys_throws. Qed.

Lemma validate_u64_throws (v : pyval) : throws [WAWContextError] (validate_u64 v).
Proof. unfold validate_u64. throws_tac. Qed.

Lemma validate_context_throws (v : pyval) : throws [WAWContextError] (validate_context v).
Proof.
  unfold validate_context, derive_context. throws_tac;
    auto using validate_admission_throws, validate_u64_throws.
Qed.

Lemma check_scalars_throws (s : schema) (d : pydict) (leg : Leg) :
  throws [WireError; PyKeyError] (check_scalars s d leg).
Proof. induction s as [|[k r] s IH]; cbn [check_scalars]; unfold py_getitem; throws_tac. exact IH. Qed.

(** Payload validation raises nothing but WireError. *)
Lemma validate_payload_throws (k : pyval) (leg : Leg) (p : pyval) (a e : option pyval) (t : bool) :
  throws [WireError] (validate_payload k leg p a e t).
Proof.
  unfold validate_payload, profile, validate_opaque, validate_control, schema_of, check_bound,
    cross_checks, py_getitem.
  throws_tac.
  all: eapply throws_mono;
    [ first [ apply decode_awce_throws | apply check_scalars_throws
            | apply validate_admission_throws | apply validate_context_throws
            | apply validate_u64_throws ] | class_incl ].
Qed.

Lemma pairs_record_throws (r : pydict) (items : list (pystr * pyval)) :
  throws [WireError] (pairs_record r items).
Proof.
  revert r. induction items as [|[k v] items IH]; intros r; cbn [pairs_record];
    unfold pair_value, exact_integer; throws_tac; apply IH.
Qed.

Lemma check_members_throws (d : pydict) : throws [WireError] (check_members d).
Proof. induction d as [|[k v] d IH]; cbn [check_members]; throws_tac. exact IH. Qed.

Lemma json_bytes_throws (p : bytes) : throws [WireError] (json_bytes p).
Proof.
  unfold json_bytes. throws_tac.
  - apply loads_throws; intros; unfold number_token, wire_constant, pairs; throws_tac; [reflexivity |].
    eapply throws_mono; [apply pairs_record_throws | class_incl].
  - eapply throws_mono; [apply check_members_throws | class_incl].
Qed.

(** *** The members of a control record *)

Lemma check_scalars_ok (s : schema) (d : pydict) (leg : Leg) (u : unit) :
  check_scalars s d leg = Ok u <->
  Forall (fun kr => exists v, dget d kr.1 = Some v /\ scalar_ok v kr.2 leg = true) s.
Proof.
  induction s as [|[k r] s IH]; cbn [check_scalars]; [by destruct u |].
  unfold py_getitem at 1. rewrite Forall_cons, <- IH. cbn [fst snd].
  destruct (dget d k) as [v|]; cbn [rbind]; [| split; [done | by intros [(? & ? & _) _]]].
  destruct (scalar_ok v r leg) eqn:E; cbn [negb raise_if rbind]; split; try done.
  - intros H. eauto.
  - by intros [_ H].
  - intros [(? & [= <-] & ?) _]. congruence.
Qed.

Lemma validate_control_ok (k : FrameType) (leg : Leg) (p : pyval) (a e : option pyval) (t : bool)
    (w : wire_payload) :
  validate_control k leg p a e t = Ok w ->
  exists d s, p = PDict d /\ w = Control d /\ schema_of k leg = Ok s
    /\ keys_equal (dkeys d) (dkeys s) = true
    /\ Forall (fun kr => exists v, dget d kr.1 = Some v /\ scalar_ok v kr.2 leg = true) s.
Proof.
  unfold validate_control. intros H. destruct (schema_of k leg) as [s|] eqn:Es; cbn [rbind] in H; [| done].
  destruct p as [| | | | | | | d]; try done.
  destruct (keys_equal (dkeys d) (dkeys s)) eqn:Ek; cbn [negb raise_if rbind] in H; [| done].
  destruct (check_scalars s d leg) eqn:Ec; cbn [rbind] in H; [| done].
  exists d, s. apply check_scalars_ok in Ec. split_and!; try done.
  by repeat (apply rbind_ok in H as (? & _ & H)); inv_ok.
Qed.

Lemma validate_payload_allowed (k : FrameType) (leg : Leg) (p : pyval) (a e : option pyval) (t : bool) :
  existsb (Z.eqb (frame_code k)) (ALLOWED leg) = true ->
  validate_payload (PInt (frame_code k)) leg p a e t
  = except_as (if is_opaque k then validate_opaque k p else validate_control k leg p a e t)
      [WAWContextError; AWCEError; PyTypeError; PyKeyError] wire_error.
Proof. intros H. unfold validate_payload. by rewrite (proj2 (profile_ok _ _ _) (conj eq_refl H)). Qed.

(** *** Relaying: what does not depend on the leg *)

Fixpoint no_close (r : rule) : bool :=
  match r with RClose => false | Nullable r' => no_close r' | _ => true end.

Lemma scalar_ok_leg (r : rule) (v : pyval) (l l' : Leg) :
  no_close r = true -> scalar_ok v r l = scalar_ok v r l'.
Proof. induction r; cbn; try done. intros H. by rewrite IHr. Qed.

Lemma check_scalars_leg (s : schema) (d : pydict) (l l' : Leg) :
  forallb (fun kr => no_close kr.2) s = true -> check_scalars s d l = check_scalars s d l'.
Proof.
  induction s as [|[k r] s IH]; cbn [check_scalars forallb fst snd]; [done |].
  intros [Hr Hs]%andb_true_iff. rewrite (IH Hs).
  destruct (py_getitem d k) as [v|]; cbn [rbind]; [| done]. by rewrite (scalar_ok_leg r v l l').
Qed.

(** A key record accepted on one leg is accepted, unbound, on any other. *)
Lemma validate_key_leg (k : FrameType) (l l' : Leg) (p : pyval) (a e : option pyval) (t : bool)
    (w : wire_payload) :
  kind_in k KEY_TYPES = true ->
  validate_control k l p a e t = Ok w -> validate_control k l' p None None true = Ok w.
Proof.
  intros Hk. unfold validate_control.
  assert (Hs : schema_of k l = schema_of k l') by (destruct k; done).
  assert (Hc : forall s, schema_of k l' = Ok s -> forallb (fun kr => no_close kr.2) s = true)
    by (destruct k; try done; intros s [= <-]; reflexivity).
  rewrite Hs. destruct (schema_of k l') as [s|]; [| done]. specialize (Hc s eq_refl). cbn [rbind].
  destruct p as [| | | | | | | d]; try done.
  destruct (raise_if _ _); cbn [rbind]; [| done]. rewrite (check_scalars_leg s d l l' Hc).
  destruct (check_scalars s d l'); cbn [rbind]; [| done].
  destruct (if keys_superset _ _ then _ else _); cbn [rbind]; [| done].
  intros H. apply rbind_ok in H as (_ & _ & H). apply rbind_ok in H as (_ & _ & H).
  apply rbind_ok in H as (_ & _ & H). rewrite <- H. by destruct k.
Qed.

Lemma decode_packed_leg (cpu : Z) (k : FrameType) (s : Z) (p : bytes) (leg : Leg)
    (a e : option pyval) (t : bool) (f : WireFrame) :
  decode_packed cpu k s p leg a e t = Ok f -> leg = wf_leg f.
Proof. unfold decode_packed. intros H. by inv_ok. Qed.

(** The decode of a relayed frame, from the decode on its inbound leg. *)
Lemma decode_packed_forward (cpu cpu' : Z) (leg leg' : Leg) (a e : option pyval) (t : bool)
    (s : Z) (f : WireFrame) :
  decode_packed cpu (wf_type f) (wf_sequence f) (wf_payload f) leg a e t = Ok f ->
  1 <= wf_sequence f <= MAX_U64 -> blen (wf_payload f) <= MAX_PAYLOAD ->
  existsb (Z.eqb (frame_code (wf_type f))) (ALLOWED leg) = true ->
  existsb (Z.eqb (frame_code (wf_type f))) (ALLOWED leg') = true ->
  kind_in (wf_type f) (KEY_TYPES ++ [INPUT; OUTPUT]) = true ->
  1 <= s <= MAX_U64 -> cpu' <= VALIDATION_CPU_NS ->
  decode_packed cpu' (wf_type f) s (wf_payload f) leg' None None true
  = Ok (mkWireFrame (wf_type f) leg' s (wf_payload f) (wf_json f)
         (header_pack (frame_code (wf_type f)) (blen (wf_payload f)) s ++ wf_payload f) false).
Proof.
  intros Hd Hs0 Hlen Hal Hal' Hk Hs Hcpu.
  destruct f as [k l s0 p j w rp]. cbn [wf_type wf_payload wf_sequence wf_json] in *.
  unfold decode_packed in *.
  apply rbind_ok in Hd as (rec & Hrec & Hd). apply rbind_ok in Hd as (fr & Hfr & Hd).
  apply rbind_ok in Hd as (v & Hv & Hd). rewrite Hrec. cbn [rbind].
  rewrite decode_frame_pack in Hfr by auto. rewrite decode_frame_pack by auto.
  apply rbind_ok in Hfr as (j0 & -> & _). cbn [rbind].
  rewrite validate_payload_allowed in Hv by done. rewrite validate_payload_allowed by done.
  apply except_as_ok in Hv.
  assert ((if is_opaque k then validate_opaque k (match rec with Some d => PDict d | None => PBytes p end)
           else validate_control k leg' (match rec with Some d => PDict d | None => PBytes p end) None None true)
          = Ok v) as ->.
  { destruct (is_opaque k) eqn:Eo; [done |]. eapply validate_key_leg; [by destruct k | exact Hv]. }
  cbn [rbind except_as]. inv_ok. injection Hd as _ <- _.
  replace (match rec with Some _ => VALIDATION_CPU_NS <? cpu' | None => false end) with false
    by (destruct rec; lia). done.
Qed.

(** *** Reading back a printed record *)

Lemma number_groups_str (z : Z) :
  exists digits, number_groups (str_of_Z z) = Some (z <? 0, digits, [], 0)
    /\ digits_value digits = Z.abs z
    /\ (lstrip0 digits = digits \/ z = 0 /\ lstrip0 digits = []).
Proof.
  destruct (str_of_Z_shape z) as (c & r & -> & Hv & Hd & Hc). exists (c :: r).
  pose proof (span_digits_app (c :: r) [] Hd eq_refl) as Hsp. rewrite app_nil_r in Hsp.
  cbn [forallb] in Hd. apply andb_true_iff in Hd as [Hc0 _].
  unfold is_digit, is_nonzero_digit, in_range in *. split_and!; [| done |].
  - unfold number_groups. destruct (z <? 0); cbn [app expect].
    + rewrite Z.eqb_refl, Hsp. done.
    + bool_to_prop. replace (c =? 45) with false by lia. rewrite Hsp. done.
  - cbn [lstrip0]. destruct Hc as [Hc | [-> ->]].
    + bool_to_prop. replace (c =? 48) with false by lia. by left.
    + right. split; [| done]. unfold digits_value in Hv. cbn in Hv. lia.
Qed.

(** The exact-number reader inverts [str(int)] wherever it accepts. *)
Lemma exact_integer_str (z x : Z) : exact_integer (str_of_Z z) = Ok x -> x = z.
Proof.
  destruct (number_groups_str z) as (ds & Hg & Hv & Hl). unfold exact_integer. rewrite Hg, app_nil_r.
  destruct Hl as [-> | [-> ->]]; [| by intros [= <-]].
  destruct (Nat.eqb (length ds) 0) eqn:E0.
  { bool_to_prop. apply nil_length_inv in E0 as ->. cbn in Hv. intros [= <-]. lia. }
  change (0 - blen []) with 0. cbn [Z.leb Z.compare Z.to_nat repeat]. rewrite app_nil_r.
  intros H. inv_ok. rewrite Hv. destruct (z <? 0) eqn:E; bool_to_prop; lia.
Qed.

Abbreviation wire_back := (read_back number_token pairs).

Lemma read_members_spec (d : pydict) : forall st acc st' ps,
  read_members wire_back st acc d = Ok (st', ps) ->
  exists ps1, ps = acc ++ ps1
    /\ Forall2 (fun kv kw => kw.1 = kv.1 /\ exists s s', wire_back s kv.2 = Ok (s', kw.2)) d ps1.
Proof.
  induction d as [|[k v] d IH]; intros st acc st' ps; cbn [read_members fst snd]; intros H.
  - inv_ok. injection H as <- <-. exists []. by rewrite app_nil_r.
  - apply rbind_ok in H as ([s1 w] & Hw & H). apply IH in H as (ps1 & -> & Hf).
    exists ((k, w) :: ps1). rewrite <- app_assoc. split; [done |]. constructor; [| done]. cbn. eauto.
Qed.

Lemma pairs_record_spec (ps : list (pystr * pyval)) : forall r d,
  pairs_record r ps = Ok d ->
  exists d1, d = r ++ d1 /\ Forall2 (fun kw kx => kx.1 = kw.1 /\ pair_value kw.1 kw.2 = Ok kx.2) ps d1.
Proof.
  induction ps as [|[k w] ps IH]; intros r d; cbn [pairs_record]; intros H.
  - inv_ok. exists []. by rewrite app_nil_r.
  - inv_ok. rewrite dkeys_dset_new in H by done. apply IH in H as (d1 & -> & Hf).
    exists ((k, a) :: d1). rewrite <- app_assoc. split; [done |]. by constructor.
Qed.

(** A member that survives the reader as a scalar is the one printed. *)
Lemma member_back (k : pystr) (v w x : pyval) (s s' : Z) :
  printable v = true -> wire_back s v = Ok (s', w) -> pair_value k w = Ok x -> is_scalar x = true -> x = v.
Proof.
  destruct v as [| b | z | t | str | raw | l | d]; intros Hp Hb Hx Hsc; try done.
  1, 2, 4: cbn in Hb; injection Hb as <- <-; cbn in Hx; by inv_ok.
  - cbn in Hb. injection Hb as <- <-. cbn [pair_value] in Hx. inv_ok. f_equal. by apply exact_integer_str.
  - change (wire_back s (PList l))
      with (let! '(st', ws) := read_items wire_back s [] l in Ok (st', PList ws)) in Hb.
    apply rbind_ok in Hb as ([st' ws] & _ & [= <- <-]). cbn in Hx. by inv_ok.
  - change (wire_back s (PDict d))
      with (let! '(st', ps) := read_members wire_back s [] d in pairs st' ps) in Hb.
    apply rbind_ok in Hb as ([st' ps] & _ & Hb). unfold pairs in Hb. inv_ok. injection Hb as <- <-.
    cbn in Hx. by inv_ok.
Qed.

Lemma check_members_ok (d : pydict) (u : unit) :
  check_members d = Ok u -> Forall (fun kv => is_scalar kv.2 = true) d.
Proof.
  induction d as [|[k v] d IH]; cbn [check_members]; intros H; [done |]. inv_ok.
  constructor; [cbn; by apply negb_false_iff | by apply IH].
Qed.

(** Printing then reading a record gives it back, whenever it is accepted. *)
Lemma json_bytes_dumps (d d' : pydict) (text : pystr) (data : bytes) :
  printable (PDict d) = true -> dumps (PDict d) = Ok text -> py_encode text = Ok data ->
  json_bytes data = Ok d' -> d' = d.
Proof.
  intros Hp Ht He H. unfold json_bytes in H. apply rbind_ok in H as (_ & _ & H).
  apply rbind_ok in H as (_ & _ & H). apply except_as_ok in H.
  unfold py_encode in He. destruct (utf8_encode text) eqn:Eu; inv_ok.
  rewrite (utf8_decode_encode _ _ Eu), (loads_dumps _ _ _ _ _ _ Hp Ht) in H.
  change (wire_back 0 (PDict d))
    with (let! '(st', ps) := read_members wire_back 0 [] d in pairs st' ps) in H.
  apply rbind_ok in H as ([s v] & Hb & H). apply rbind_ok in Hb as ([st ps] & Hm & Hb).
  unfold pairs in Hb. inv_ok. injection Hb as <- <-. inv_ok.
  apply check_members_ok in E0. apply read_members_spec in Hm as (ps1 & -> & Hf1).
  apply pairs_record_spec in E as (d1 & -> & Hf2). cbn [app] in *. cbn [printable] in Hp.
  clear Ht G. revert d1 Hf2 E0. induction Hf1 as [|[k v] [k' w] d ps [Hk (s1 & s2 & Hw)] _ IH];
    intros d1 Hf2 Hsc; inversion Hf2 as [|? [k2 x] ? d2 [Hk2 Hx] Hf2']; subst; [done |].
  cbn [fst snd forallb] in *. subst. apply andb_true_iff in Hp as [[_ Hpv]%andb_true_iff Hpd].
  apply Forall_cons in Hsc as [Hs1 Hs2].
  by rewrite (member_back _ _ _ _ _ _ Hpv Hw Hx Hs1), (IH Hpd _ Hf2' Hs2).
Qed.

(** Decoding succeeds or raises the redacted error. *)
Lemma wire_decode_cases (cpu : Z) (raw : pyval) (leg : Leg) (a e : option pyval) (t : bool) :
  (exists f, decode_wire_frame cpu raw leg a e t = Ok f)
  \/ decode_wire_frame cpu raw leg a e t = Raise wire_error.
Proof.
  destruct (decode_wire_frame cpu raw leg a e t) as [f | x] eqn:E; [by left; exists f | right].
  f_equal. unfold decode_wire_frame in E. eapply except_closed; [| exact E].
  unfold profile. throws_tac.
  - eapply throws_mono; [apply json_bytes_throws | class_incl].
  - eapply throws_mono; [apply decode_frame_throws | class_incl].
  - eapply throws_mono; [apply validate_payload_throws | class_incl].
Qed.

Lemma wire_decode_leg (cpu : Z) (raw : pyval) (leg : Leg) (a e : option pyval) (t : bool) (f : WireFrame) :
  decode_wire_frame cpu raw leg a e t = Ok f -> wf_leg f = leg /\ wf_replay f = false.
Proof.
  intros (_ & _ & _ & _ & _ & Hd)%decode_wire_packed. unfold decode_packed in Hd.
  inv_ok. rewrite <- Hd. done.
Qed.

(** ** Theorems *)

(** A frame the wire decoder returns is one canonical ABWS frame: its bytes
    are the header of its type, length and sequence followed by its payload,
    its type is one the leg carries, the original bytes are kept unchanged, and
    its payload meets the closed profile: an envelope of the right direction
    and size for INPUT and OUTPUT, otherwise a JSON object of at most 4096
    bytes with exactly the members of the schema of that type on that leg, each
    of them well formed. *)
Theorem wire_decode_sound (cpu : Z) (raw : pyval) (leg : Leg) (a e : option pyval) (t : bool) (f : WireFrame) :
  decode_wire_frame cpu raw leg a e t = Ok f ->
  raw = PBytes (wf_wire f) /\ wf_leg f = leg /\ wf_replay f = false
  /\ wf_wire f = header_pack (frame_code (wf_type f)) (blen (wf_payload f)) (wf_sequence f) ++ wf_payload f
  /\ 1 <= wf_sequence f <= MAX_U64
  /\ existsb (Z.eqb (frame_code (wf_type f))) (ALLOWED leg) = true
  /\ if is_opaque (wf_type f) then
       wf_json f = None /\ exists env, decode_awce (wf_payload f) = Ok env
         /\ direction_id env = (if kind_eqb (wf_type f) INPUT then 1 else 2)
         /\ ciphertext_length env <= (if kind_eqb (wf_type f) INPUT then INPUT_LIMIT else OUTPUT_LIMIT) + 16
     else
       blen (wf_payload f) <= MAX_CONTROL_BYTES /\ cpu <= VALIDATION_CPU_NS
       /\ exists d s, wf_json f = Some d /\ json_bytes (wf_payload f) = Ok d
         /\ schema_of (wf_type f) leg = Ok s /\ keys_equal (dkeys d) (dkeys s) = true
         /\ Forall (fun kr => exists v, dget d kr.1 = Some v /\ scalar_ok v kr.2 leg = true) s.
Proof.
  intros (Hr & Hw & Hs & _ & Hal & Hd)%decode_wire_packed.
  destruct f as [k l s p j w rp]. cbn [wf_wire wf_type wf_payload wf_sequence wf_leg wf_json wf_replay] in *.
  unfold decode_packed in Hd. inv_ok. injection Hd as <- <- <-. split_and!; try done; try lia.
  rewrite validate_payload_allowed in E1 by done. apply except_as_ok in E1. destruct (is_opaque k).
  - inv_ok. unfold validate_opaque in E1. inv_ok.
    destruct (kind_eqb k INPUT); inv_ok; bool_to_prop; split; eauto 10.
  - inv_ok. bool_to_prop. apply validate_control_ok in E1 as (d & s' & [= <-] & -> & Hsch & Hk & Hall).
    split_and!; [| lia | eauto 10].
    unfold json_bytes in E2. inv_ok. unfold in_range in *. bool_to_prop. lia.
Qed.

(** Relaying is total and changes only the hop header.  A key or terminal
    frame accepted on an inbound leg is forwarded on the leg it continues on,
    at any valid sequence, and the forwarded bytes decode there to the same
    type, the same payload bytes and the same record. *)
Theorem wire_forward_total (cpu cpu' s : Z) (raw : pyval) (leg leg' : Leg) (a e : option pyval)
    (t : bool) (f : WireFrame) :
  decode_wire_frame cpu raw leg a e t = Ok f ->
  (leg = BA /\ leg' = AR) \/ (leg = RA /\ leg' = AB) ->
  kind_in (wf_type f) (KEY_TYPES ++ [INPUT; OUTPUT]) = true ->
  1 <= s <= MAX_U64 -> cpu' <= VALIDATION_CPU_NS ->
  let raw' := header_pack (frame_code (wf_type f)) (blen (wf_payload f)) s ++ wf_payload f in
  forward_wire_frame cpu' f leg' (PInt s) = Ok raw'
  /\ decode_wire_frame cpu' (PBytes raw') leg' None None true
     = Ok (mkWireFrame (wf_type f) leg' s (wf_payload f) (wf_json f) raw' false).
Proof.
  intros (_ & _ & Hs0 & Hlen & Hal & Hd)%decode_wire_packed Hleg Hk Hs Hcpu raw'.
  assert (Hal' : existsb (Z.eqb (frame_code (wf_type f))) (ALLOWED leg') = true)
    by (destruct Hleg as [[-> ->] | [-> ->]]; destruct (wf_type f); done).
  assert (Hd' : decode_wire_frame cpu' (PBytes raw') leg' None None true
     = Ok (mkWireFrame (wf_type f) leg' s (wf_payload f) (wf_json f) raw' false)).
  { subst raw'. rewrite decode_wire_of_packed, except_as_ok by done.
    by apply (decode_packed_forward cpu cpu' leg leg' a e t). }
  split; [| exact Hd']. unfold forward_wire_frame, pack, in_range.
  replace (wf_leg f) with leg by (by destruct (decode_packed_leg _ _ _ _ _ _ _ _ _ Hd)).
  rewrite Hk. pose proof (blen_nonneg (wf_payload f)). unfold MAX_PAYLOAD in Hlen.
  replace (negb (_ || _) || _) with false by (by destruct Hleg as [[-> ->] | [-> ->]]).
  replace ((1 <=? s) && (s <=? MAX_U64)) with true by lia.
  replace (2 ^ 32 <=? blen (wf_payload f)) with false by lia.
  cbn [negb raise_if rbind]. fold raw'. by rewrite Hd'.
Qed.

(** C30: encoding then decoding is the identity.  The bytes the encoder returns
    decode, under the same bindings, to the type and sequence given; a terminal
    envelope keeps its bytes and a control record comes back member by member,
    numbers included. *)
Theorem wire_decode_encode (cpu : Z) (k : FrameType) (leg : Leg) (p : pyval) (s : Z)
    (a e : option pyval) (t : bool) (raw : bytes) :
  (is_opaque k = false -> printable p = true) ->
  encode_wire_frame cpu (PInt (frame_code k)) leg p (PInt s) a e t = Ok raw ->
  exists f, decode_wire_frame cpu (PBytes raw) leg a e t = Ok f
    /\ wf_type f = k /\ wf_sequence f = s
    /\ if is_opaque k then p = PBytes (wf_payload f) /\ wf_json f = None
       else exists d, p = PDict d /\ wf_json f = Some d.
Proof.
  intros Hp H. unfold encode_wire_frame in H. apply rbind_ok in H as (v & Hv & H).
  apply except_as_ok in H. apply rbind_ok in H as (enc & Henc & H).
  rewrite frame_of_code_code in H. cbn [rbind] in H.
  apply rbind_ok in H as (r & Hr & H). apply rbind_ok in H as (f & Hf & [= <-]).
  exists f. pose proof (decode_wire_packed _ _ _ _ _ _ _ Hf) as ([= ->] & Hw & Hs & Hl & Hal & Hd).
  assert (Hpk : header_pack (frame_code k) (blen enc) s ++ enc = wf_wire f
                /\ 1 <= s <= MAX_U64 /\ blen enc < 2 ^ 32).
  { unfold pack in Hr. inv_ok. unfold in_range in *. bool_to_prop. split; [done | lia]. }
  destruct Hpk as (Hpk & Hs' & He). rewrite Hw in Hpk. unfold MAX_PAYLOAD in Hl.
  apply packed_inj in Hpk as (<- & <- & ->); [| unfold MAX_U64 in *; lia ..]. split_and!; try done.
  unfold decode_packed in Hd. apply rbind_ok in Hd as (rec & Hrec & Hd).
  apply rbind_ok in Hd as (fr & _ & Hd). apply rbind_ok in Hd as (v' & Hv' & Hd). inv_ok.
  apply (f_equal wf_json) in Hd. cbn [wf_json] in Hd. rewrite <- Hd.
  rewrite validate_payload_allowed in Hv, Hv' by done.
  apply except_as_ok in Hv, Hv'. destruct (is_opaque (wf_type f)).
  - inv_ok. unfold validate_opaque in Hv, Hv'. destruct p; try done. 
    inv_ok. destruct (kind_eqb (wf_type f) INPUT); by inv_ok.
  - inv_ok. apply validate_control_ok in Hv as (d & _ & -> & -> & _).
    apply validate_control_ok in Hv' as (d' & _ & [= <-] & -> & _). inv_ok.
    exists d. split; [done |]. f_equal. eapply json_bytes_dumps; eauto.
Qed.

(** Whatever bytes arrive, and under any bindings, the decoder either
    returns a frame or raises the one redacted WireError; no other exception,
    and no echo of the input, leaves it. *)
Theorem wire_errors_closed (cpu : Z) (raw : pyval) (leg : Leg) (a e : option pyval) (t : bool) :
  (exists f, decode_wire_frame cpu raw leg a e t = Ok f)
  \/ decode_wire_frame cpu raw leg a e t = Raise wire_error.
Proof. apply wire_decode_cases. Qed.

(** ** Witnesses *)

Definition sample_resize : pyval :=
  PDict [($"protocol_version", PInt 1); ($"attachment_id", PStr ($"att_" ++ repeat 97 32));
         ($"lease_number", PStr $"4"); ($"columns", PInt 80); ($"rows", PInt 24)].

(** The first key record of the browser. *)
Definition sample_key_init : pyval :=
  PDict ([($"protocol_version", PInt 1)] ++ sample_admission
         ++ [($"runtime_epoch", PStr $"7"); ($"noise_protocol", PStr $"Noise_NX_25519_AESGCM_SHA256");
             ($"crypto_envelope_version", PInt 1);
             ($"browser_ephemeral_public_key", PStr (repeat 65 43)); ($"noise_message_1", PStr (repeat 65 43))]).

Definition encoded (k : FrameType) (leg : Leg) (p : pyval) (s : Z) : bytes :=
  match encode_wire_frame 0 (PInt (frame_code k)) leg p (PInt s) None None true with
  | Ok r => r
  | Raise _ => []
  end.

Definition decoded (raw : bytes) (leg : Leg) : WireFrame :=
  match decode_wire_frame 0 (PBytes raw) leg None None true with
  | Ok f => f
  | Raise _ => mkWireFrame PING leg 0 [] None [] false
  end.

Lemma wire_decode_sound_witness :
  wf_type (decoded (encoded RESIZE BA sample_resize 9) BA) = RESIZE
  /\ 1 <= wf_sequence (decoded (encoded RESIZE BA sample_resize 9) BA) <= MAX_U64.
Proof.
  pose proof (wire_decode_sound 0 (PBytes (encoded RESIZE BA sample_resize 9)) BA None None true
                (decoded (encoded RESIZE BA sample_resize 9) BA)) as H.
  split; [vm_compute; reflexivity |]. destruct H as (_ & _ & _ & _ & Hs & _); [| exact Hs].
  vm_compute. reflexivity.
Defined.

Lemma wire_forward_total_witness :
  let f := decoded (encoded KEY_INIT BA sample_key_init 2) BA in
  forward_wire_frame 0 f AR (PInt 2)
  = Ok (header_pack (frame_code KEY_INIT) (blen (wf_payload f)) 2 ++ wf_payload f).
Proof.
  refine (proj1 (wire_forward_total 0 0 2 (PBytes (encoded KEY_INIT BA sample_key_init 2)) BA AR
            None None true (decoded (encoded KEY_INIT BA sample_key_init 2) BA) _ _ _ _ _)).
  - vm_compute. reflexivity.
  - left. split; reflexivity.
  - vm_compute. reflexivity.
  - unfold MAX_U64. lia.
  - unfold VALIDATION_CPU_NS. lia.
Defined.

Lemma wire_decode_encode_witness :
  exists f, decode_wire_frame 0 (PBytes (encoded RESIZE BA sample_resize 9)) BA None None true = Ok f
    /\ wf_type f = RESIZE /\ wf_sequence f = 9
    /\ exists d, sample_resize = PDict d /\ wf_json f = Some d.
Proof.
  apply (wire_decode_encode 0 RESIZE BA sample_resize 9 None None true).
  - intros _. vm_compute. reflexivity.
  - vm_compute. reflexivity.
Defined.

(** Exact numbers: 1.5e1 is fifteen, a fraction is refused, and so is 32769. *)
Example exact_examples :
  exact_integer $"1.5e1" = Ok 15 /\ exact_integer $"-12" = Ok (-12)
  /\ exact_integer $"1.5" = Raise wire_error /\ exact_integer $"32769" = Raise wire_error.
Proof. vm_compute. auto. Qed.
