(* ===== verification/WireSession.v ===== *)
(** * The four-leg transcript validator ([agentbox_protocol/waw_wire.py], [WireSession])

    The API observes every frame of an attachment on its four legs and accepts
    exactly the transcripts of the v1 admission protocol.  [accept] is one
    step: it validates, checks the order and then commits, and any error
    closes the session for good.

    The private connection token is compared by identity: tokens are numbers
    here, [None] is Python's None.  The re-entrant lock makes each operation
    atomic, so an execution is a sequence of [accept] and [close] steps. *)

From Stdlib Require Import Sorted.
From stdpp Require Import functions.
From S2P Require Import Prelude PyVal Abws Awce CryptoContext Wire.

Local Open Scope Z_scope.

#[export] Instance FrameType_countable : Countable FrameType.
Proof.
  refine (inj_countable frame_code frame_of_code _). apply frame_of_code_code.
Defined.

Definition leg_code (l : Leg) : Z := match l with BA => 0 | AB => 1 | AR => 2 | RA => 3 end.
Definition leg_of_code (z : Z) : option Leg := nth_error [BA; AB; AR; RA] (Z.to_nat z).

#[export] Instance Leg_countable : Countable Leg.
Proof. refine (inj_countable leg_code leg_of_code _). by intros []. Defined.

(** ** State *)

Record WireSession : Type := mkSession {
  admission : pydict;
  runtime_epoch : pyval;
  stream_id : Z;
  started : Z;
  last_now : Z;
  next : Leg -> Z;
  seen : gmap (Leg * FrameType) WireFrame;
  terminal : gset Leg;
  must_close : gset Leg;
  crypto : Leg -> Z;
  cursor : Leg -> Z;
  retries : gset (Leg * FrameType);
  detach_at : option Z;
  detach : gmap Leg WireFrame;
  failed : bool;
  closed : bool;
  exits : gmap Leg WireFrame;
  pending : FrameType -> list bytes;
  pending_bytes : FrameType -> Z
}.

Definition set_closed (s : WireSession) : WireSession :=
  mkSession (admission s) (runtime_epoch s) (stream_id s) (started s) (last_now s) (next s)
    ∅ (terminal s) (must_close s) (crypto s) (cursor s) (retries s) (detach_at s) ∅ (failed s)
    true (exits s) (fun _ => []) (fun _ => 0).

(** [WireSession(admission, runtime_epoch, stream_id=..., started_at=...)] *)
Definition new_session (adm epoch : pyval) (stream : option Z) (started_at : Z) : result WireSession :=
  let! a := except_as (validate_admission adm) [WAWContextError] wire_error in
  let! c := except_as (derive_context adm epoch) [WAWContextError] wire_error in
  match stream with
  | None => Raise wire_error
  | Some token =>
      run! raise_if (started_at <? 0) wire_error in
      let! e := py_getitem c $"runtime_epoch" in
      Ok (mkSession a e token started_at started_at (fun _ => 1) ∅ ∅ ∅ (fun _ => 1) (fun _ => 0)
            ∅ None ∅ false false ∅ (fun _ => []) (fun _ => 0))
  end.

(** [close()]: external transport destruction *)
Definition close (s : WireSession) : WireSession := set_closed s.

Definition has (s : WireSession) (leg : Leg) (kind : FrameType) : bool :=
  match seen s !! (leg, kind) with Some _ => true | None => false end.

Definition require (s : WireSession) (leg : Leg) (kind : FrameType) : result WireFrame :=
  match seen s !! (leg, kind) with
  | Some f => Ok f
  | None => Raise wire_error
  end.

(** [f._json[key] == text] for a frame that has a record *)
Definition json_is (f : WireFrame) (key text : pystr) : bool :=
  match wf_json f with
  | Some d => match dget d key with Some v => is_text v text | None => false end
  | None => false
  end.

(** [f._json[key] == g._json[key]]: both records exist and agree on the key *)
Definition json_agree (f g : WireFrame) (key : pystr) : bool :=
  match wf_json f, wf_json g with
  | Some d, Some d' =>
      match dget d key, dget d' key with
      | Some v, Some w => scalar_eqb v w
      | _, _ => false
      end
  | _, _ => false
  end.

(** The properties [committed] and [admitted]. *)
Definition committed (s : WireSession) : bool :=
  match seen s !! (RA, ADMISSION_COMMIT_ACK) with
  | Some ack => json_is ack $"result" $"committed"
  | None => false
  end.

Definition admitted (s : WireSession) : bool :=
  has s AB ADMITTED && negb (failed s) && negb (closed s).

Definition expected_sequence (s : WireSession) (leg : Leg) : Z := next s leg.

(** ** Retransmissions *)

Definition retry_allowed (s : WireSession) (f : WireFrame) (now : Z) : result (option WireFrame) :=
  let key := (wf_leg f, wf_type f) in
  if kind_eqb (wf_type f) DETACH && leg_eqb (wf_leg f) AR then
    match detach_at s with
    | None => Raise wire_error
    | Some at_ =>
        run! raise_if ((ADMISSION_TIMEOUT_NS <=? now - at_)
                       || match detach s !! RA with Some _ => true | None => false end) wire_error in
        Ok (detach s !! AR)
    end
  else if kind_eqb (wf_type f) ADMISSION_COMMIT && leg_eqb (wf_leg f) AR then
    run! raise_if (has s AB ADMITTED || (6 <? next s RA) || (6 <? next s AR)) wire_error in
    Ok (seen s !! key)
  else if kind_eqb (wf_type f) ADMISSION_COMMIT_ACK && leg_eqb (wf_leg f) RA then
    run! raise_if (negb (bool_decide ((AR, ADMISSION_COMMIT) ∈ retries s)) || has s AB ADMITTED) wire_error in
    Ok (seen s !! key)
  else Raise wire_error.

(** [_retry] returns True or raises; here it returns the session it leaves. *)
Definition retry (s : WireSession) (f : WireFrame) (now : Z) : result WireSession :=
  let key := (wf_leg f, wf_type f) in
  let! original := retry_allowed s f now in
  run! raise_if (failed s || bool_decide (key ∈ retries s)
                 || match original with
                    | None => true
                    | Some o => negb (bytes_eqb (wf_wire o) (wf_wire f))
                    end) wire_error in
  run! raise_if (negb (kind_eqb (wf_type f) DETACH) && (ADMISSION_TIMEOUT_NS <=? now - started s))
         wire_error in
  Ok (mkSession (admission s) (runtime_epoch s) (stream_id s) (started s) (last_now s) (next s)
        (seen s) (terminal s) (must_close s) (crypto s) (cursor s) ({[key]} ∪ retries s) (detach_at s)
        (detach s) (failed s) (closed s) (exits s) (pending s) (pending_bytes s)).

(** ** Order *)

Definition prerequisite (leg : Leg) (kind : FrameType) : option (Leg * FrameType) :=
  match leg, kind with
  | BA, KEY_INIT => Some (BA, WS_HELLO)
  | AR, RUNTIME_HELLO => Some (BA, KEY_INIT)
  | AR, KEY_INIT => Some (AR, RUNTIME_HELLO)
  | RA, HELLO_ACK => Some (AR, KEY_INIT)
  | RA, KEY_ATTEST => Some (RA, HELLO_ACK)
  | AB, KEY_ATTEST => Some (RA, KEY_ATTEST)
  | BA, KEY_CONFIRM => Some (AB, KEY_ATTEST)
  | AR, KEY_CONFIRM => Some (BA, KEY_CONFIRM)
  | RA, KEY_CONFIRM_ACK => Some (AR, KEY_CONFIRM)
  | AB, KEY_CONFIRM_ACK => Some (RA, KEY_CONFIRM_ACK)
  | AR, STREAM_READY => Some (AB, KEY_CONFIRM_ACK)
  | RA, STREAM_READY_ACK => Some (AR, STREAM_READY)
  | AR, ADMISSION_COMMIT => Some (RA, STREAM_READY_ACK)
  | RA, ADMISSION_COMMIT_ACK => Some (AR, ADMISSION_COMMIT)
  | AB, ADMITTED => Some (RA, ADMISSION_COMMIT_ACK)
  | _, _ => None
  end.

Definition order (s : WireSession) (f : WireFrame) : result unit :=
  let leg := wf_leg f in
  let kind := wf_type f in
  run! match prerequisite leg kind with
       | Some (l, k) => let! _f := require s l k in Ok tt
       | None => Ok tt
       end in
  run! (if kind_in kind KEY_TYPES && (leg_eqb leg AR || leg_eqb leg AB) then
          let! g := require s (if leg_eqb leg AR then BA else RA) kind in
          raise_if (negb (bytes_eqb (wf_payload f) (wf_payload g))) wire_error
        else Ok tt) in
  match wf_json f with
  | None => Ok tt
  | Some _ =>
      run! (if kind_eqb kind RUNTIME_HELLO then
              let! hello := require s BA WS_HELLO in
              raise_if (negb (json_agree f hello $"resume_cursor"
                              && json_agree f hello $"previous_runtime_epoch")) wire_error
            else Ok tt) in
      run! (if kind_eqb kind STREAM_READY_ACK || kind_eqb kind ADMITTED then
              let! hello := require s RA HELLO_ACK in
              raise_if (negb (json_agree f hello $"output_cursor")) wire_error
            else Ok tt) in
      run! (if kind_eqb kind ADMISSION_COMMIT then
              let! ready := require s RA STREAM_READY_ACK in
              raise_if (negb (json_agree f ready $"admission_fence")) wire_error
            else Ok tt) in
      raise_if (kind_eqb kind ADMITTED && negb (committed s)) wire_error
  end.

(** ** The relay queues *)

Definition is_source (f : WireFrame) : bool :=
  leg_eqb (wf_leg f) (if kind_eqb (wf_type f) INPUT then BA else RA).

(** Returns whether the frame enters the queue (or leaves it). *)
Definition relay_check (s : WireSession) (f : WireFrame) : result bool :=
  let kind := wf_type f in
  let queue := pending s kind in
  run! (if is_source f then
          let limit := if kind_eqb kind INPUT || negb (has s AB ADMITTED) then 65536 else 262144 in
          raise_if ((limit <? pending_bytes s kind + blen (wf_wire f)) || (256 <=? blen queue)) wire_error
        else
          match queue with
          | [] => Raise wire_error
          | p :: _ => raise_if (negb (bytes_eqb p (wf_payload f))) wire_error
          end) in
  Ok (is_source f).

(** ** Phases *)

(** Any type of any leg's handshake. *)
Definition handshake_types : list FrameType :=
  HANDSHAKE BA ++ HANDSHAKE AB ++ HANDSHAKE AR ++ HANDSHAKE RA.

Definition in_set (l : Leg) (ls : gset Leg) : bool := bool_decide (l ∈ ls).

(** A control frame other than the expected one during a leg's handshake. *)
Definition early_control (s : WireSession) (f : WireFrame) : result unit :=
  let leg := wf_leg f in
  let kind := wf_type f in
  let seq := wf_sequence f in
  if kind_eqb kind CLOSE && leg_eqb leg AR && has s AR RUNTIME_HELLO then Ok tt
  else if leg_eqb leg RA && (seq <=? 2) && kind_eqb kind ERROR then
    let! _f := require s AR KEY_INIT in Ok tt
  else if leg_eqb leg RA && (3 <=? seq) && kind_in kind [STATE; ERROR; CLOSE] then
    raise_if (kind_eqb kind CLOSE && negb (in_set leg (must_close s))) wire_error
  else if leg_eqb leg AB && kind_in kind [ERROR; STATE; CLOSE] then
    if kind_eqb kind ERROR then Ok tt
    else raise_if (negb (has s AB KEY_ATTEST)
                   || (kind_eqb kind CLOSE && negb (in_set leg (must_close s)))) wire_error
  else Raise wire_error.

Definition detach_check (s : WireSession) (f : WireFrame) : result unit :=
  let leg := wf_leg f in
  if kind_eqb (wf_type f) DETACH then
    raise_if (match detach s !! leg with Some _ => true | None => false end
              || (leg_eqb leg AR && match detach s !! BA with Some _ => false | None => true end))
      wire_error
  else if kind_eqb (wf_type f) DETACH_ACK then
    match detach s !! (if leg_eqb leg RA then AR else BA), detach s !! leg with
    | Some request, None =>
        run! raise_if (negb (json_is f $"acknowledged_hop_sequence" (str_of_Z (wf_sequence request))))
               wire_error in
        if leg_eqb leg AB then
          match detach s !! RA with
          | None => Raise wire_error
          | Some response =>
              raise_if (negb (json_agree f response $"result" && json_agree f response $"cleanup_state"
                              && json_agree f response $"reason_code")) wire_error
          end
        else Ok tt
    | _, _ => Raise wire_error
    end
  else Ok tt.

(** The rules after the leg's handshake. *)
Definition late_phase (s : WireSession) (f : WireFrame) : result unit :=
  let leg := wf_leg f in
  let kind := wf_type f in
  if kind_eqb kind EXIT && failed s then
    match exits s !! RA with
    | None => Raise wire_error
    | Some original =>
        raise_if (negb (leg_eqb leg AB)
                  || match exits s !! leg with Some _ => true | None => false end
                  || negb match wf_json f, wf_json original with
                          | Some d, Some d' => dict_eqb d d'
                          | None, None => true
                          | _, _ => false
                          end) wire_error
    end
  else if kind_in kind [CLOSE; ERROR; STATE] && failed s then Ok tt
  else
    run! (if leg_eqb leg BA || leg_eqb leg AB then raise_if (negb (admitted s)) wire_error
          else raise_if (negb (committed s)) wire_error) in
    run! raise_if (leg_eqb leg AR && negb (kind_eqb kind CLOSE) && negb (admitted s)) wire_error in
    run! raise_if (kind_in kind handshake_types) wire_error in
    run! raise_if (negb (bool_decide (detach s = ∅))
                   && negb (kind_in kind [DETACH; DETACH_ACK; CLOSE; ERROR; STATE; ACK; EXIT])) wire_error in
    run! order s f in
    detach_check s f.

Definition phase (s : WireSession) (f : WireFrame) : result unit :=
  let leg := wf_leg f in
  let kind := wf_type f in
  let seq := wf_sequence f in
  run! raise_if (in_set leg (terminal s) || (in_set leg (must_close s) && negb (kind_eqb kind CLOSE)))
         wire_error in
  run! raise_if (failed s && negb (kind_in kind [STATE; ERROR; CLOSE; EXIT])) wire_error in
  run! raise_if (kind_eqb kind STATE && json_is f $"state" $"RUNNING"
                 && (failed s || negb (has s AB ADMITTED))) wire_error in
  if seq <=? blen (HANDSHAKE leg) then
    match zget (HANDSHAKE leg) (seq - 1) with
    | Some k =>
        if kind_eqb kind k then
          run! raise_if (failed s) wire_error in order s f
        else early_control s f
    | None => early_control s f
    end
  else late_phase s f.

(** ** The step *)

(** [bytes.fromhex] of a lowercase hexadecimal string *)
Definition hex_value (c : Z) : Z := if c <=? 57 then c - 48 else c - 87.
Fixpoint fromhex (s : pystr) : bytes :=
  match s with
  | a :: b :: r => z2b (hex_value a * 16 + hex_value b) :: fromhex r
  | _ => []
  end.

(** INPUT and OUTPUT: the envelope's context, sequence and cursor, and the
    queue it enters or leaves. *)
Definition relay (s : WireSession) (f : WireFrame) : result WireSession :=
  let kind := wf_type f in
  let leg := wf_leg f in
  let! source := relay_check s f in
  let! envelope := decode_awce (wf_payload f) in
  let! ack := require s RA KEY_CONFIRM_ACK in
  let! hash := match wf_json ack with
               | None => Raise wire_error
               | Some d => match dget d $"transcript_context_hash" with
                           | Some (PStr h) => Ok h
                           | Some _ => Raise (err PyTypeError "fromhex() argument must be str")
                           | None => Raise (err PyKeyError "transcript_context_hash")
                           end
               end in
  run! raise_if (negb (bytes_eqb (context_id envelope) (slice_to 16 (fromhex hash)))
                 || negb (crypto_sequence envelope =? crypto s leg)) wire_error in
  run! raise_if (kind_eqb kind OUTPUT && (stream_cursor envelope <=? cursor s leg)) wire_error in
  let queue' := if source then pending s kind ++ [wf_payload f] else List.tl (pending s kind) in
  let bytes' := if source then pending_bytes s kind + blen (wf_wire f)
                else pending_bytes s kind - (24 + blen (List.hd [] (pending s kind))) in
  Ok (mkSession (admission s) (runtime_epoch s) (stream_id s) (started s) (last_now s) (next s)
        (seen s) (terminal s) (must_close s) (<[leg := crypto s leg + 1]> (crypto s))
        (if kind_eqb kind OUTPUT then <[leg := stream_cursor envelope]> (cursor s) else cursor s)
        (retries s) (detach_at s) (detach s) (failed s) (closed s) (exits s)
        (<[kind := queue']> (pending s)) (<[kind := bytes']> (pending_bytes s))).

(** What a frame does to the failure flag and to its leg: neither, the leg must
    now close, or the leg is terminal. *)
Inductive leg_effect : Type := NoEffect | MustClose | Terminal.

Definition frame_effect (s : WireSession) (f : WireFrame) : bool * leg_effect :=
  let leg := wf_leg f in
  match wf_type f with
  | CLOSE => (true, Terminal)
  | EXIT => (true, MustClose)
  | ERROR | STATE =>
      let nonfatal_control_limit :=
        kind_eqb (wf_type f) ERROR && leg_eqb leg AB && has s AB ADMITTED
        && json_is f $"code" $"CONTROL_RATE_LIMITED"
        && match wf_json f with
           | Some d => match dget d $"retryable" with Some (PBool true) => true | _ => false end
           | None => false
           end in
      let state_fails :=
        kind_eqb (wf_type f) STATE
        && match wf_json f with
           | Some _ => negb (json_is f $"state" $"RUNNING")
           | None => false
           end
        && (negb (has s AB ADMITTED) || negb (json_is f $"state" $"NEEDS_INTERACTION")) in
      if (kind_eqb (wf_type f) ERROR && negb nonfatal_control_limit) || state_fails then
        (true, if (leg_eqb leg RA && (wf_sequence f <=? 2))
                  || (leg_eqb leg AB && negb (has s AB KEY_ATTEST)) then Terminal else MustClose)
      else (false, NoEffect)
  | ADMISSION_COMMIT_ACK =>
      if json_is f $"result" $"rejected" then (true, MustClose) else (false, NoEffect)
  | DETACH_ACK => (false, MustClose)
  | _ => (false, NoEffect)
  end.

(** The state changes of an accepted frame, after the relay part. *)
Definition commit (s : WireSession) (f : WireFrame) (now : Z) : WireSession :=
  let leg := wf_leg f in
  let kind := wf_type f in
  let '(fails, effect) := frame_effect s f in
  let failed' := failed s || fails in
  mkSession (admission s) (runtime_epoch s) (stream_id s) (started s) now
    (<[leg := next s leg + 1]> (next s))
    (if kind_in kind KEY_TYPES || kind_in kind (HANDSHAKE leg)
     then <[(leg, kind) := f]> (seen s) else seen s)
    ((match effect with Terminal => {[leg]} | _ => ∅ end)
     ∪ (if wf_sequence f =? MAX_U64 then {[leg]} else ∅) ∪ terminal s)
    ((match effect with MustClose => {[leg]} | _ => ∅ end) ∪ must_close s)
    (crypto s) (cursor s) (retries s)
    (if kind_eqb kind DETACH && leg_eqb leg AR then Some now else detach_at s)
    (if kind_eqb kind DETACH || kind_eqb kind DETACH_ACK then <[leg := f]> (detach s) else detach s)
    failed' (closed s)
    (if kind_eqb kind EXIT then <[leg := f]> (exits s) else exits s)
    (if failed' then fun _ => [] else pending s)
    (if failed' then fun _ => 0 else pending_bytes s).

(** [self._last_now = now] *)
Definition with_now (s : WireSession) (now : Z) : WireSession :=
  mkSession (admission s) (runtime_epoch s) (stream_id s) (started s) now (next s) (seen s)
    (terminal s) (must_close s) (crypto s) (cursor s) (retries s) (detach_at s) (detach s)
    (failed s) (closed s) (exits s) (pending s) (pending_bytes s).

(** The body of [accept], before its handler. *)
Definition accept_body (cpu : Z) (s : WireSession) (leg : Leg) (raw : pyval) (stream : option Z) (now : Z)
  : result (WireSession * WireFrame) :=
  run! raise_if (closed s || negb (bool_decide (stream = Some (stream_id s))) || (now <? last_now s))
         wire_error in
  run! raise_if (negb (has s AB ADMITTED) && (ADMISSION_TIMEOUT_NS <=? now - started s)) wire_error in
  let trusted := has s AR RUNTIME_HELLO in
  let! f := decode_wire_frame cpu raw leg (Some (PDict (admission s))) (Some (runtime_epoch s)) trusted in
  if negb (wf_sequence f =? next s leg) then
    let! s' := retry s f now in
    Ok (with_now s' now,
        mkWireFrame (wf_type f) leg (wf_sequence f) (wf_payload f) (wf_json f) (wf_wire f) true)
  else
    run! phase s f in
    let! s1 := if is_opaque (wf_type f) then relay s f else Ok s in
    Ok (commit s1 f now, f).

(** [accept]: every error the body can raise closes the session. *)
Definition accept (cpu : Z) (s : WireSession) (leg : Leg) (raw : pyval) (stream : option Z) (now : Z)
  : WireSession * result WireFrame :=
  match accept_body cpu s leg raw stream now with
  | Ok (s', f) => (s', Ok f)
  | Raise e =>
      if existsb (exc_isa (exn_class e)) [WireError; PyKeyError; PyValueError; PyTypeError]
      then (close s, Raise wire_error) else (s, Raise e)
  end.

(** ** Executions *)

(** The sessions an execution can reach, with the frames accepted so far that
    are not retransmissions. *)
Inductive reaches : WireSession -> list WireFrame -> Prop :=
| reaches_new adm epoch stream t s :
    new_session adm epoch stream t = Ok s -> reaches s []
| reaches_accept s tr cpu leg raw stream now s' f :
    reaches s tr -> accept cpu s leg raw stream now = (s', Ok f) ->
    reaches s' (if wf_replay f then tr else tr ++ [f])
| reaches_reject s tr cpu leg raw stream now s' e :
    reaches s tr -> accept cpu s leg raw stream now = (s', Raise e) -> reaches s' tr
| reaches_close s tr : reaches s tr -> reaches (close s) tr.

(** ** Lemmas *)

(** *** One step *)

Lemma order_throws (s : WireSession) (f : WireFrame) : throws [WireError] (order s f).
Proof. unfold order, require. throws_tac. Qed.

Lemma phase_throws (s : WireSession) (f : WireFrame) : throws [WireError] (phase s f).
Proof.
  unfold phase, early_control, late_phase, detach_check, require. throws_tac; apply order_throws.
Qed.

(** Everything the body raises is one of the classes [accept] handles. *)
Lemma accept_body_throws (cpu : Z) (s : WireSession) (leg : Leg) (raw : pyval) (stream : option Z) (now : Z) :
  throws [WireError; PyKeyError; PyValueError; PyTypeError] (accept_body cpu s leg raw stream now).
Proof.
  unfold accept_body, retry, retry_allowed, relay, relay_check, require. throws_tac.
  - destruct (wire_decode_cases cpu raw leg (Some (PDict (admission s))) (Some (runtime_epoch s))
                (has s AR RUNTIME_HELLO)) as [[f ->] | ->]; throws_tac.
  - eapply throws_mono; [apply phase_throws | class_incl].
  - eapply throws_mono; [apply decode_awce_throws | class_incl].
Qed.

(** A rejected event leaves the closed session and the redacted error. *)
Lemma accept_raise (cpu : Z) (s : WireSession) (leg : Leg) (raw : pyval) (stream : option Z) (now : Z)
    (s' : WireSession) (e : exn) :
  accept cpu s leg raw stream now = (s', Raise e) -> s' = close s /\ e = wire_error.
Proof.
  unfold accept. pose proof (accept_body_throws cpu s leg raw stream now) as Ht.
  destruct (accept_body _ _ _ _ _ _) as [[x f]|x] eqn:E; [done |].
  rewrite (Ht x eq_refl). by intros [= <- <-].
Qed.

(** What an accepted event did. *)
Lemma accept_ok (cpu : Z) (s : WireSession) (leg : Leg) (raw : pyval) (stream : option Z) (now : Z)
    (s' : WireSession) (f : WireFrame) :
  accept cpu s leg raw stream now = (s', Ok f) ->
  closed s = false /\ last_now s <= now
  /\ (has s AB ADMITTED = true \/ now - started s < ADMISSION_TIMEOUT_NS)
  /\ exists f0, decode_wire_frame cpu raw leg (Some (PDict (admission s))) (Some (runtime_epoch s))
                 (has s AR RUNTIME_HELLO) = Ok f0
     /\ ((wf_replay f = true /\ wf_sequence f0 <> next s leg
          /\ exists s1, retry s f0 now = Ok s1 /\ s' = with_now s1 now)
         \/ (f = f0 /\ wf_replay f = false /\ wf_leg f = leg /\ wf_sequence f = next s leg
             /\ phase s f = Ok tt
             /\ exists s1, (if is_opaque (wf_type f) then relay s f else Ok s) = Ok s1
                /\ s' = commit s1 f now)).
Proof.
  unfold accept. destruct (accept_body _ _ _ _ _ _) as [[x g]|x] eqn:E; [| case_if; done].
  intros [= -> ->]. unfold accept_body in E.
  apply rbind_ok in E as (? & G1 & E). apply rbind_ok in E as (? & G2 & E).
  apply rbind_ok in E as (f0 & Hd & E). inv_ok. bool_to_prop. split_and!; try done.
  { apply andb_false_iff in G as [G | G]; bool_to_prop; auto with lia. }
  exists f0. split; [done |]. destruct (wf_sequence f0 =? next s leg) eqn:Es; cbn [negb] in E; bool_to_prop.
  - right. apply rbind_ok in E as ([] & Hp & E). apply rbind_ok in E as (s1 & Hr & E). inv_ok.
    injection E as <- <-. pose proof (wire_decode_leg _ _ _ _ _ _ _ Hd) as [? ?]. split_and!; eauto.
  - left. apply rbind_ok in E as (s1 & Hr & E). inv_ok. injection E as <- <-. cbn. eauto.
Qed.

Lemma accept_closed (cpu : Z) (s : WireSession) (leg : Leg) (raw : pyval) (stream : option Z) (now : Z) :
  closed s = true -> accept cpu s leg raw stream now = (close s, Raise wire_error).
Proof. intros H. unfold accept, accept_body. by rewrite H. Qed.

(** A fresh frame accepted in [s], with the session it leaves. *)
Definition fresh_step (s : WireSession) (f : WireFrame) (s' : WireSession) : Prop :=
  closed s = false /\ wf_replay f = false /\ wf_sequence f = next s (wf_leg f)
  /\ phase s f = Ok tt
  /\ (exists cpu raw t, decode_wire_frame cpu raw (wf_leg f) (Some (PDict (admission s)))
        (Some (runtime_epoch s)) t = Ok f)
  /\ exists s1 now, (if is_opaque (wf_type f) then relay s f else Ok s) = Ok s1 /\ s' = commit s1 f now.

(** Rule induction over executions: an invariant needs to be checked for a new
    session, a closed one, a retransmission and a fresh frame. *)
Lemma reaches_invariant (P : WireSession -> list WireFrame -> Prop) :
  (forall adm epoch stream t s, new_session adm epoch stream t = Ok s -> P s []) ->
  (forall s tr, P s tr -> P (close s) tr) ->
  (forall s tr f now s1, P s tr -> retry s f now = Ok s1 -> P (with_now s1 now) tr) ->
  (forall s tr f s', reaches s tr -> P s tr -> fresh_step s f s' -> P s' (tr ++ [f])) ->
  forall s tr, reaches s tr -> P s tr.
Proof.
  intros Hnew Hclose Hretry Hfresh s tr H.
  induction H as [adm epoch stream t s H | s tr cpu leg raw stream now s' f Hs IH H
                 | s tr cpu leg raw stream now s' e _ IH H | s tr _ IH]; eauto.
  - apply accept_ok in H as (Hc & _ & _ & f0 & Hd & [(-> & _ & s1 & Hr & ->) | H]); [eauto |].
    destruct H as (-> & Hrep & <- & Hseq & Hp & s1 & Hrel & ->). rewrite Hrep.
    apply (Hfresh s); [done | done |]. unfold fresh_step. split_and!; eauto 10.
  - apply accept_raise in H as [-> _]. auto.
Qed.

(** What the two kinds of step keep. *)
Lemma retry_keeps (s : WireSession) (f : WireFrame) (now : Z) (s1 : WireSession) :
  retry s f now = Ok s1 ->
  next s1 = next s /\ seen s1 = seen s /\ crypto s1 = crypto s /\ cursor s1 = cursor s
  /\ failed s1 = failed s /\ closed s1 = closed s /\ pending s1 = pending s
  /\ pending_bytes s1 = pending_bytes s
  /\ admission s1 = admission s /\ runtime_epoch s1 = runtime_epoch s.
Proof. unfold retry. intros H. apply rbind_ok in H as (o & _ & H). by inv_ok. Qed.

Lemma relay_keeps (s : WireSession) (f : WireFrame) (s1 : WireSession) :
  (if is_opaque (wf_type f) then relay s f else Ok s) = Ok s1 ->
  next s1 = next s /\ seen s1 = seen s /\ failed s1 = failed s /\ closed s1 = closed s
  /\ admission s1 = admission s /\ runtime_epoch s1 = runtime_epoch s.
Proof.
  destruct (is_opaque (wf_type f)); [| by intros [= ->]]. unfold relay. intros H.
  repeat (apply rbind_ok in H as (? & _ & H)). by inv_ok.
Qed.

(** *** Sequences *)

(** The fresh frames of one leg, in order. *)
Definition on_leg (l : Leg) (tr : list WireFrame) : list WireFrame :=
  List.filter (fun f => leg_eqb (wf_leg f) l) tr.

Lemma on_leg_snoc (l : Leg) (tr : list WireFrame) (f : WireFrame) :
  on_leg l (tr ++ [f]) = on_leg l tr ++ (if leg_eqb (wf_leg f) l then [f] else []).
Proof. unfold on_leg. rewrite List.filter_app. cbn. by destruct (leg_eqb _ _). Qed.

Lemma next_commit (s : WireSession) (f : WireFrame) (now : Z) :
  next (commit s f now) = <[wf_leg f := next s (wf_leg f) + 1]> (next s).
Proof. unfold commit. by destruct (frame_effect s f). Qed.

Lemma new_session_fields (adm epoch : pyval) (stream : option Z) (t : Z) (s : WireSession) :
  new_session adm epoch stream t = Ok s ->
  next s = (fun _ => 1) /\ seen s = ∅ /\ crypto s = (fun _ => 1) /\ cursor s = (fun _ => 0)
  /\ failed s = false /\ closed s = false
  /\ pending s = (fun _ => []) /\ pending_bytes s = (fun _ => 0).
Proof.
  unfold new_session. intros H. apply rbind_ok in H as (a & _ & H). apply rbind_ok in H as (c & _ & H).
  destruct stream; [| done]. inv_ok. done.
Qed.

Definition sequences_inv (s : WireSession) (tr : list WireFrame) : Prop :=
  forall l, next s l = 1 + blen (on_leg l tr)
    /\ forall i f, on_leg l tr !! i = Some f -> wf_sequence f = 1 + Z.of_nat i.

Lemma sequences_hold (s : WireSession) (tr : list WireFrame) : reaches s tr -> sequences_inv s tr.
Proof.
  revert s tr. apply reaches_invariant; unfold sequences_inv.
  - intros adm epoch stream t s (-> & _)%new_session_fields l. split; [done |]. by intros [].
  - intros s tr H. exact H.
  - intros s tr f now s1 H Hr l. destruct (retry_keeps _ _ _ _ Hr) as (Hn & _). cbn. rewrite Hn. apply H.
  - intros s tr f s' _ H (_ & _ & Hseq & _ & _ & s1 & now & Hr & ->) l.
    rewrite next_commit. destruct (relay_keeps _ _ _ Hr) as (Hn & _). rewrite Hn, on_leg_snoc.
    destruct (H l) as [Hl Hi]. unfold leg_eqb. case_bool_decide as Heq.
    + subst l. rewrite fn_lookup_insert, blen_app. change (blen [f]) with 1. split; [lia |].
      intros i g [Hg | [Hlen Hg]]%lookup_app_Some; [eauto |].
      destruct (i - length (on_leg (wf_leg f) tr))%nat eqn:Ei; [| by destruct n].
      injection Hg as <-. rewrite Hseq, Hl. unfold blen. lia.
    + rewrite fn_lookup_insert_ne, app_nil_r by done. done.
Qed.

(** *** Order *)

(** The frames [commit] records as seen. *)
Definition registered (leg : Leg) (kind : FrameType) : bool :=
  kind_in kind KEY_TYPES || kind_in kind (HANDSHAKE leg).

Lemma require_ok (s : WireSession) (l : Leg) (k : FrameType) (f : WireFrame) :
  require s l k = Ok f <-> seen s !! (l, k) = Some f.
Proof. unfold require. destruct (seen s !! (l, k)); split; congruence. Qed.

Lemma require_mono (s s' : WireSession) (l : Leg) (k : FrameType) (f : WireFrame) :
  seen s ⊆ seen s' -> require s l k = Ok f -> require s' l k = Ok f.
Proof. rewrite !require_ok. intros H Hf. by eapply lookup_weaken. Qed.

Lemma committed_mono (s s' : WireSession) : seen s ⊆ seen s' -> committed s = true -> committed s' = true.
Proof.
  unfold committed. intros H. destruct (seen s !! (RA, ADMISSION_COMMIT_ACK)) as [ack|] eqn:E; [| done].
  by rewrite (lookup_weaken _ _ _ _ E H).
Qed.

(** The order rules look at the seen frames only, and stay true as more are seen. *)
Lemma order_mono (s s' : WireSession) (f : WireFrame) :
  seen s ⊆ seen s' -> order s f = Ok tt -> order s' f = Ok tt.
Proof.
  intros Hs. unfold order.
  assert (Hreq : forall {A} l k (c : WireFrame -> result A) x,
            rbind (require s l k) c = Ok x -> rbind (require s' l k) c = Ok x).
  { intros A l k c x (g & Hg & Hc)%rbind_ok. by rewrite (require_mono s s' l k g Hs Hg). }
  intros H. apply rbind_ok in H as ([] & H1 & H). apply rbind_ok in H as ([] & H2 & H).
  apply rbind_ok. exists tt. split; [destruct (prerequisite _ _) as [[l k]|]; auto |].
  apply rbind_ok. exists tt. split; [case_if; auto |].
  destruct (wf_json f); [| done].
  apply rbind_ok in H as ([] & H3 & H). apply rbind_ok in H as ([] & H4 & H).
  apply rbind_ok in H as ([] & H5 & H).
  apply rbind_ok. exists tt. split; [case_if; auto |].
  apply rbind_ok. exists tt. split; [case_if; auto |].
  apply rbind_ok. exists tt. split; [case_if; auto |].
  destruct (kind_eqb (wf_type f) ADMITTED); [| done]. cbn [andb] in *. inv_ok. bool_to_prop.
  by rewrite (committed_mono s s' Hs G).
Qed.

Lemma kind_eqb_eq (a b : FrameType) : kind_eqb a b = true <-> a = b.
Proof. apply bool_decide_eq_true. Qed.

Lemma leg_eqb_eq (a b : Leg) : leg_eqb a b = true <-> a = b.
Proof. apply bool_decide_eq_true. Qed.

(** Only the control frames CLOSE, ERROR and STATE may come early. *)
Lemma early_control_registered (s : WireSession) (f : WireFrame) :
  registered (wf_leg f) (wf_type f) = true -> early_control s f = Raise wire_error.
Proof.
  unfold early_control. destruct f as [k l q p j w r]. cbn [wf_leg wf_type wf_sequence].
  by destruct l, k; cbn; rewrite ?andb_false_r.
Qed.

Lemma late_phase_registered (s : WireSession) (f : WireFrame) (u : unit) :
  late_phase s f = Ok u -> registered (wf_leg f) (wf_type f) = false.
Proof.
  unfold late_phase. destruct f as [k l q p j w r]. cbn [wf_leg wf_type].
  intros H. destruct (registered l k) eqn:E; [exfalso | done].
  assert (kind_in k handshake_types = true) by (destruct l, k; done).
  assert (kind_eqb k EXIT = false) by (destruct l, k; done).
  assert (kind_in k [CLOSE; ERROR; STATE] = false) by (destruct l, k; done).
  rewrite H1, H2 in H. cbn [andb] in H. rewrite H0 in H.
  by repeat (apply rbind_ok in H as (? & ? & H)).
Qed.

(** A frame that is recorded was the expected one of its leg's handshake and
    obeyed the order rules. *)
Lemma phase_registered (s : WireSession) (f : WireFrame) :
  phase s f = Ok tt -> registered (wf_leg f) (wf_type f) = true ->
  zget (HANDSHAKE (wf_leg f)) (wf_sequence f - 1) = Some (wf_type f) /\ order s f = Ok tt
  /\ failed s = false.
Proof.
  intros H Hr. unfold phase in H. apply rbind_ok in H as (? & _ & H).
  apply rbind_ok in H as (? & _ & H). apply rbind_ok in H as (? & _ & H).
  destruct (_ <=? _).
  - destruct (zget _ _) as [k|]; [| by rewrite early_control_registered in H].
    destruct (kind_eqb (wf_type f) k) eqn:E; [| by rewrite early_control_registered in H].
    apply kind_eqb_eq in E as <-. inv_ok. done.
  - apply late_phase_registered in H. congruence.
Qed.

Lemma seen_commit (s : WireSession) (f : WireFrame) (now : Z) :
  seen (commit s f now)
  = if registered (wf_leg f) (wf_type f) then <[(wf_leg f, wf_type f) := f]> (seen s) else seen s.
Proof. unfold commit, registered. by destruct (frame_effect s f). Qed.

Lemma handshake_position (l : Leg) (i j : Z) (k : FrameType) :
  zget (HANDSHAKE l) i = Some k -> zget (HANDSHAKE l) j = Some k -> i = j.
Proof.
  unfold zget. destruct (i <? 0) eqn:Ei, (j <? 0) eqn:Ej; try done. bool_to_prop. intros Hi Hj.
  assert (NoDup (HANDSHAKE l)) as Hnd by (apply (bool_decide_unpack _); by destruct l).
  pose proof (NoDup_lookup _ _ _ _ Hnd Hi Hj). lia.
Qed.

(** Every recorded frame sits at its handshake position and obeys the order
    rules in the current session. *)
Definition seen_inv (s : WireSession) : Prop :=
  forall l k f, seen s !! (l, k) = Some f ->
    wf_leg f = l /\ wf_type f = k /\ wf_sequence f < next s l
    /\ zget (HANDSHAKE l) (wf_sequence f - 1) = Some k /\ order s f = Ok tt
    /\ exists cpu raw a e t, decode_wire_frame cpu raw l a e t = Ok f.

(** A recorded step extends the seen frames and never replaces one. *)
Lemma fresh_seen (s : WireSession) (f : WireFrame) (s' : WireSession) :
  seen_inv s -> fresh_step s f s' -> seen s ⊆ seen s'.
Proof.
  intros H (_ & _ & Hseq & Hp & _ & s1 & now & (_ & Hs & _)%relay_keeps & ->).
  rewrite seen_commit, Hs. destruct (registered _ _) eqn:Er; [| done]. apply insert_subseteq.
  destruct (seen s !! _) as [f'|] eqn:E; [exfalso | done].
  destruct (phase_registered s f Hp Er) as (Hpos & _). destruct (H _ _ _ E) as (_ & _ & Hlt & Hpos' & _).
  pose proof (handshake_position _ _ _ _ Hpos Hpos'). lia.
Qed.

Lemma seen_holds (s : WireSession) (tr : list WireFrame) : reaches s tr -> seen_inv s.
Proof.
  revert s tr. apply (reaches_invariant (fun s _ => seen_inv s)); unfold seen_inv.
  - intros adm epoch stream t s (_ & -> & _)%new_session_fields l k f. by rewrite lookup_empty.
  - intros s _ _ l k f. cbn. by rewrite lookup_empty.
  - intros s _ f now s1 H (Hn & Hs & _)%retry_keeps l k g. cbn. rewrite Hs, Hn. intros Hg.
    destruct (H l k g Hg) as (? & ? & ? & ? & Ho & ?). split_and!; try done.
    apply (order_mono s); [| done]. cbn. by rewrite Hs.
  - intros s _ f s' _ H Hstep l k g. pose proof (fresh_seen s f s' H Hstep) as Hsub.
    destruct Hstep as (_ & _ & Hseq & Hp & Hdec & s1 & now & (Hn & Hs & _)%relay_keeps & ->).
    rewrite next_commit, Hn.
    destruct (registered (wf_leg f) (wf_type f)) eqn:Er.
    + destruct (phase_registered s f Hp Er) as (Hpos & Ho & _).
      rewrite seen_commit, Er, Hs. rewrite lookup_insert_Some.
      intros [[[= <- <-] <-] | [Hne Hg]].
      * rewrite fn_lookup_insert, Hseq in *. destruct Hdec as (cpu & raw & t & Hdec).
        split_and!; eauto 10; [lia | by apply (order_mono s)].
      * destruct (H l k g Hg) as (? & ? & Hlt & ? & Hog & ?). split_and!; try done; [| by apply (order_mono s)].
        destruct (decide (wf_leg f = l)) as [<- | Hl];
          [rewrite fn_lookup_insert; lia | by rewrite fn_lookup_insert_ne].
    + rewrite seen_commit, Er, Hs. intros Hg. destruct (H l k g Hg) as (? & ? & Hlt & ? & Hog & ?).
      split_and!; try done.
      * destruct (decide (wf_leg f = l)) as [<- | Hl];
          [rewrite fn_lookup_insert; lia | by rewrite fn_lookup_insert_ne].
      * apply (order_mono s); [| done]. by rewrite seen_commit, Er, Hs.
Qed.

(** *** The transcript *)

(** The admission protocol: each entry is the one prerequisite of the next. *)
Definition protocol : list (Leg * FrameType) :=
  [(BA, WS_HELLO); (BA, KEY_INIT); (AR, RUNTIME_HELLO); (AR, KEY_INIT); (RA, HELLO_ACK);
   (RA, KEY_ATTEST); (AB, KEY_ATTEST); (BA, KEY_CONFIRM); (AR, KEY_CONFIRM); (RA, KEY_CONFIRM_ACK);
   (AB, KEY_CONFIRM_ACK); (AR, STREAM_READY); (RA, STREAM_READY_ACK); (AR, ADMISSION_COMMIT);
   (RA, ADMISSION_COMMIT_ACK); (AB, ADMITTED)].

Lemma protocol_prerequisite (n : nat) (l : Leg) (k : FrameType) :
  protocol !! S n = Some (l, k) ->
  exists l' k', protocol !! n = Some (l', k') /\ prerequisite l k = Some (l', k').
Proof.
  do 15 (destruct n as [|n]; [intros [= <- <-]; do 2 eexists; split; reflexivity |]). done.
Qed.

Lemma protocol_position (n m : nat) (lk : Leg * FrameType) :
  protocol !! n = Some lk -> protocol !! m = Some lk -> n = m.
Proof. apply NoDup_lookup. apply (bool_decide_unpack _). by vm_compute. Qed.

Lemma order_prerequisite (s : WireSession) (f : WireFrame) (l : Leg) (k : FrameType) :
  order s f = Ok tt -> prerequisite (wf_leg f) (wf_type f) = Some (l, k) -> is_Some (seen s !! (l, k)).
Proof.
  unfold order. intros H Hp. rewrite Hp in H. apply rbind_ok in H as (? & H & _).
  apply rbind_ok in H as (g & Hg & _). apply require_ok in Hg. eauto.
Qed.

(** The frames of the first [n] protocol entries, in trace order. *)
Definition transcript (s : WireSession) (tr : list WireFrame) (n : nat) : Prop :=
  exists fs, Forall2 (fun lk f => seen s !! lk = Some f) (take n protocol) fs /\ fs `sublist_of` tr.

Lemma transcript_mono (s s' : WireSession) (tr : list WireFrame) (f : WireFrame) (n : nat) :
  seen s ⊆ seen s' -> transcript s tr n -> transcript s' (tr ++ [f]) n.
Proof.
  intros Hs (fs & Hf & Hsub). exists fs. split.
  - eapply Forall2_impl; [exact Hf |]. intros lk g Hg. exact (lookup_weaken _ _ _ _ Hg Hs).
  - by apply sublist_inserts_r.
Qed.

Lemma transcript_snoc (s s' : WireSession) (tr : list WireFrame) (f : WireFrame) (n : nat)
    (lk : Leg * FrameType) :
  seen s ⊆ seen s' -> transcript s tr n -> protocol !! n = Some lk -> seen s' !! lk = Some f ->
  transcript s' (tr ++ [f]) (S n).
Proof.
  intros Hs (fs & Hf & Hsub) Hn Hlk. exists (fs ++ [f]). rewrite (take_S_r _ _ _ Hn). split.
  - apply Forall2_app; [| by constructor]. eapply Forall2_impl; [exact Hf |].
    intros lk' g Hg. exact (lookup_weaken _ _ _ _ Hg Hs).
  - by apply sublist_app.
Qed.

(** Once a protocol entry is seen, all of the protocol up to it was accepted in
    that order. *)
Lemma transcripts_hold (s : WireSession) (tr : list WireFrame) :
  reaches s tr ->
  forall n lk, protocol !! n = Some lk -> is_Some (seen s !! lk) -> transcript s tr (S n).
Proof.
  revert s tr. apply (reaches_invariant (fun s tr => forall n lk,
    protocol !! n = Some lk -> is_Some (seen s !! lk) -> transcript s tr (S n))).
  - intros adm epoch stream t s (_ & Hs & _)%new_session_fields n lk _. rewrite Hs, lookup_empty.
    by intros [? ?].
  - intros s tr _ n lk _. cbn. rewrite lookup_empty. by intros [? ?].
  - intros s tr f now s1 H (_ & Hs & _)%retry_keeps n lk Hn. cbn. rewrite Hs. intros Hlk.
    destruct (H n lk Hn Hlk) as (fs & Hf & Hsub). exists fs. cbn. by rewrite Hs.
  - intros s tr f s' Hr H Hstep n lk Hn [g Hg]. pose proof (seen_holds _ _ Hr) as Hinv.
    pose proof (fresh_seen s f s' Hinv Hstep) as Hsub.
    destruct (seen s !! lk) as [g'|] eqn:E; [by eapply transcript_mono; eauto |].
    destruct Hstep as (_ & _ & _ & Hp & _ & s1 & now & (_ & Hs & _)%relay_keeps & ->).
    pose proof Hg as Hg'. rewrite seen_commit, Hs in Hg'.
    destruct (registered _ _) eqn:Er; [| congruence].
    apply lookup_insert_Some in Hg' as [[<- <-] | [_ ?]]; [| congruence].
    destruct (phase_registered s f Hp Er) as (_ & Ho & _).
    eapply transcript_snoc; [exact Hsub | | exact Hn | exact Hg].
    destruct n as [|n]; [exists []; split; [constructor | apply sublist_nil_l] |].
    destruct (protocol_prerequisite _ _ _ Hn) as (l' & k' & Hn' & Hpre).
    apply (H n (l', k') Hn'). by eapply order_prerequisite.
Qed.

(** *** Binding to the admission *)

(** The record agrees with the admission tuple and the epoch on every member
    of theirs that it carries. *)
Definition bound_to (a : pydict) (epoch : pyval) (f : WireFrame) : Prop :=
  forall d, wf_json f = Some d ->
    (forall k v, k ∈ ADMISSION_KEYS -> dget d k = Some v ->
       exists w, dget a k = Some w /\ scalar_eqb v w = true)
    /\ (forall v, dget d $"runtime_epoch" = Some v -> scalar_eqb v epoch = true).

Lemma check_bound_ok (d b : pydict) (u : unit) :
  check_bound d b = Ok u ->
  forall k v, k ∈ ADMISSION_KEYS -> dget d k = Some v -> exists w, dget b k = Some w /\ scalar_eqb v w = true.
Proof.
  unfold check_bound. intros H k v Hk Hv. inv_ok. apply not_true_iff_false in G.
  destruct (dget b k) as [w|] eqn:Ew.
  - exists w. split; [done |]. destruct (scalar_eqb v w) eqn:E; [done |]. destruct G.
    apply existsb_exists. exists k. rewrite Hv, Ew, E. split; [by apply list_elem_of_In | done].
  - destruct G. apply existsb_exists. exists k. rewrite Hv, Ew. split; [by apply list_elem_of_In | done].
Qed.

Lemma decode_bound (cpu : Z) (raw : pyval) (leg : Leg) (a : pydict) (e : pyval) (t : bool) (f : WireFrame) :
  decode_wire_frame cpu raw leg (Some (PDict a)) (Some e) t = Ok f ->
  validate_admission (PDict a) = Ok a -> bound_to a e f.
Proof.
  intros (_ & _ & _ & _ & Hal & Hd)%decode_wire_packed Ha d Hj. unfold decode_packed in Hd.
  apply rbind_ok in Hd as (rec & Hrec & Hd). apply rbind_ok in Hd as (fr & _ & Hd).
  apply rbind_ok in Hd as (v & Hv & Hd). inv_ok. apply (f_equal wf_json) in Hd. cbn [wf_json] in Hd.
  rewrite Hj in Hd. destruct v as [|d']; [done |]. injection Hd as ->.
  rewrite validate_payload_allowed in Hv by done. apply except_as_ok in Hv.
  destruct (is_opaque (wf_type f)).
  { unfold validate_opaque in Hv. inv_ok. destruct (kind_eqb _ _); by inv_ok. }
  pose proof (validate_control_ok _ _ _ _ _ _ _ Hv) as (d0 & sc & Hp & [= <-] & _). rewrite Hp in Hv.
  unfold validate_control in Hv. apply rbind_ok in Hv as (sc' & _ & Hv).
  do 3 (apply rbind_ok in Hv as (? & _ & Hv)). apply rbind_ok in Hv as (? & Hb & Hv).
  apply rbind_ok in Hv as (? & He & _). rewrite Ha in Hb. cbn [rbind] in Hb.
  split; [by eapply check_bound_ok |]. apply rbind_ok in He as (ep & Hep & He).
  apply validate_u64_ok in Hep as (-> & _). intros v Hv'. rewrite Hv' in He. inv_ok. by bool_to_prop.
Qed.

Lemma commit_keeps (s : WireSession) (f : WireFrame) (now : Z) :
  admission (commit s f now) = admission s /\ runtime_epoch (commit s f now) = runtime_epoch s
  /\ crypto (commit s f now) = crypto s /\ cursor (commit s f now) = cursor s
  /\ closed (commit s f now) = closed s /\ (failed s = true -> failed (commit s f now) = true)
  /\ (failed (commit s f now) = true ->
        pending (commit s f now) = (fun _ => []) /\ pending_bytes (commit s f now) = (fun _ => 0))
  /\ (failed (commit s f now) = false ->
        pending (commit s f now) = pending s /\ pending_bytes (commit s f now) = pending_bytes s).
Proof.
  unfold commit. destruct (frame_effect s f) as [fails eff].
  cbn [admission runtime_epoch crypto cursor closed failed pending pending_bytes].
  split_and!; try done.
  - by intros ->.
  - by intros ->.
  - by intros ->.
Qed.

Lemma bindings_hold (s : WireSession) (tr : list WireFrame) :
  reaches s tr ->
  validate_admission (PDict (admission s)) = Ok (admission s)
  /\ Forall (bound_to (admission s) (runtime_epoch s)) tr.
Proof.
  revert s tr. apply reaches_invariant.
  - intros adm epoch stream t s H. split; [| done]. unfold new_session in H.
    apply rbind_ok in H as (a & Ha & H). apply rbind_ok in H as (c & _ & H).
    destruct stream; [| done]. inv_ok. cbn. apply except_as_ok in Ha.
    pose proof (validated_writer _ _ Ha) as [Hk _].
    apply validate_admission_shape in Ha as (x1&x2&x3&x4&x5&x6&x7&x8&x9&x10&x11&x12&x13&->). exact Hk.
  - intros s tr H. exact H.
  - intros s tr f now s1 H Hr. pose proof (retry_keeps _ _ _ _ Hr) as (_&_&_&_&_&_&_&_& Ha & He).
    cbn. by rewrite Ha, He.
  - intros s tr f s' _ [Ha Hf] (_ & _ & _ & _ & (cpu & raw & t & Hd) & s1 & now & Hr & ->).
    pose proof (relay_keeps _ _ _ Hr) as (_&_&_&_& Ea & Ee).
    destruct (commit_keeps s1 f now) as (-> & -> & _). rewrite Ea, Ee. split; [done |].
    apply Forall_app. split; [done |]. constructor; [| done]. by eapply decode_bound.
Qed.

(** *** Relayed terminal data *)

Definition cap (k : FrameType) : Z := if kind_eqb k INPUT then 65536 else 262144.

Lemma relay_ok (s : WireSession) (f : WireFrame) (s1 : WireSession) :
  relay s f = Ok s1 ->
  let k := wf_type f in
  let leg := wf_leg f in
  exists env, decode_awce (wf_payload f) = Ok env /\ crypto_sequence env = crypto s leg
    /\ (k = OUTPUT -> cursor s leg < stream_cursor env)
    /\ crypto s1 = <[leg := crypto s leg + 1]> (crypto s)
    /\ cursor s1 = (if kind_eqb k OUTPUT then <[leg := stream_cursor env]> (cursor s) else cursor s)
    /\ ((is_source f = true /\ pending_bytes s k + blen (wf_wire f) <= cap k /\ blen (pending s k) < 256
         /\ pending s1 = <[k := pending s k ++ [wf_payload f]]> (pending s)
         /\ pending_bytes s1 = <[k := pending_bytes s k + blen (wf_wire f)]> (pending_bytes s))
        \/ (is_source f = false /\ exists q, pending s k = wf_payload f :: q
            /\ pending s1 = <[k := q]> (pending s)
            /\ pending_bytes s1 = <[k := pending_bytes s k - (24 + blen (wf_payload f))]> (pending_bytes s))).
Proof.
  unfold relay, relay_check. intros H. apply rbind_ok in H as (src & Hsrc & H).
  apply rbind_ok in Hsrc as (? & Hq & [= <-]).
  apply rbind_ok in H as (env & Henv & H). do 2 (apply rbind_ok in H as (? & _ & H)). inv_ok. bool_to_prop.
  exists env. cbn [crypto cursor pending pending_bytes]. split_and!; try done.
  { intros Hk. rewrite Hk in G0. change (kind_eqb OUTPUT OUTPUT) with true in G0; cbn [andb] in G0. bool_to_prop. lia. }
  destruct (is_source f); [left | right].
  - inv_ok. bool_to_prop. unfold cap. split_and!; try done.
    destruct (kind_eqb (wf_type f) INPUT); cbn [orb] in *; [done |].
    destruct (has s AB ADMITTED); cbn [negb] in *; lia.
  - split; [done |]. destruct (pending s (wf_type f)) as [|p q]; [done |]. inv_ok. bool_to_prop.
    apply bytes_eqb_eq in G as ->. exists q. done.
Qed.

(** The bytes a queued payload is accounted with: its frame on the wire. *)
Definition queue_bytes (q : list bytes) : Z := foldr (fun p acc => 24 + blen p + acc) 0 q.

Lemma queue_bytes_snoc (q : list bytes) (p : bytes) : queue_bytes (q ++ [p]) = queue_bytes q + (24 + blen p).
Proof. induction q as [|x q IH]; cbn; [lia |]. unfold queue_bytes in IH. rewrite IH. lia. Qed.

Definition queues_inv (s : WireSession) : Prop :=
  forall k, pending_bytes s k = queue_bytes (pending s k) /\ pending_bytes s k <= cap k
    /\ blen (pending s k) <= 256.

Lemma queue_bytes_nonneg (q : list bytes) : 0 <= queue_bytes q.
Proof. induction q as [|p q IH]; [done |]. cbn. pose proof (blen_nonneg p). unfold queue_bytes in IH. lia. Qed.

Lemma cap_nonneg (k : FrameType) : 0 <= cap k.
Proof. unfold cap. by case_if. Qed.

Lemma relay_queues (s : WireSession) (f : WireFrame) (s1 : WireSession) :
  blen (wf_wire f) = 24 + blen (wf_payload f) -> queues_inv s -> relay s f = Ok s1 -> queues_inv s1.
Proof.
  intros Hw H Hr k. destruct (relay_ok _ _ _ Hr) as (env & _ & _ & _ & _ & _ & Hq).
  destruct (decide (wf_type f = k)) as [<- | Hne].
  - destruct (H (wf_type f)) as (Hb & Hc & Hl).
    destruct Hq as [(_ & Hcap & Hlen & -> & ->) | (_ & q & Hpq & -> & ->)]; rewrite !fn_lookup_insert.
    + rewrite queue_bytes_snoc, blen_app. change (blen [wf_payload f]) with 1. split_and!; lia.
    + rewrite Hb, Hpq in *. cbn [queue_bytes foldr] in *. fold (queue_bytes q) in *.
      rewrite blen_cons in Hl. pose proof (blen_nonneg (wf_payload f)). split_and!; lia.
  - destruct Hq as [(_ & _ & _ & -> & ->) | (_ & q & _ & -> & ->)];
      rewrite !fn_lookup_insert_ne by done; apply H.
Qed.

Lemma decode_wire_length (cpu : Z) (raw : pyval) (leg : Leg) (a e : option pyval) (t : bool) (f : WireFrame) :
  decode_wire_frame cpu raw leg a e t = Ok f -> blen (wf_wire f) = 24 + blen (wf_payload f).
Proof. intros (_ & Hw & _)%decode_wire_packed. by rewrite Hw at 1; rewrite blen_app, blen_header_pack. Qed.

Lemma queues_hold (s : WireSession) (tr : list WireFrame) : reaches s tr -> queues_inv s.
Proof.
  revert s tr. apply (reaches_invariant (fun s _ => queues_inv s)).
  - intros adm epoch stream t s (_&_&_&_&_&_& Hp & Hb)%new_session_fields k. rewrite Hp, Hb.
    split_and!; [done | apply cap_nonneg | done].
  - intros s _ _ k. cbn. split_and!; [done | apply cap_nonneg | done].
  - intros s _ f now s1 H (_&_&_&_&_&_& Hp & Hb & _)%retry_keeps k. cbn. rewrite Hp, Hb. apply H.
  - intros s _ f s' _ H (_ & _ & _ & _ & (cpu & raw & t & Hd%decode_wire_length) & s1 & now & Hr & ->).
    assert (H1 : queues_inv s1).
    { destruct (is_opaque (wf_type f)); [by eapply relay_queues | by injection Hr as <-]. }
    destruct (commit_keeps s1 f now) as (_&_&_&_&_&_& Hf & Ho). intros k.
    destruct (failed (commit s1 f now)).
    + destruct (Hf eq_refl) as [-> ->]. split_and!; [done | apply cap_nonneg | done].
    + destruct (Ho eq_refl) as [-> ->]. apply H1.
Qed.

(** The legs terminal data enters and leaves the relay on. *)
Definition source_leg (k : FrameType) : Leg := if kind_eqb k INPUT then BA else RA.
Definition target_leg (k : FrameType) : Leg := if kind_eqb k INPUT then AR else AB.

(** The accepted frames of one type on one leg. *)
Definition carried (k : FrameType) (l : Leg) (tr : list WireFrame) : list WireFrame :=
  List.filter (fun f => kind_eqb (wf_type f) k && leg_eqb (wf_leg f) l) tr.

Lemma carried_snoc (k : FrameType) (l : Leg) (tr : list WireFrame) (f : WireFrame) :
  carried k l (tr ++ [f])
  = carried k l tr ++ (if kind_eqb (wf_type f) k && leg_eqb (wf_leg f) l then [f] else []).
Proof. unfold carried. rewrite List.filter_app. cbn. by destruct (_ && _). Qed.

Lemma carried_other (k : FrameType) (l : Leg) (tr : list WireFrame) (f : WireFrame) :
  wf_type f <> k -> carried k l (tr ++ [f]) = carried k l tr.
Proof.
  intros H. rewrite carried_snoc. unfold kind_eqb. rewrite bool_decide_eq_false_2 by done.
  by rewrite app_nil_r.
Qed.

(** A terminal frame is on the source leg of its type or on the target leg. *)
Lemma opaque_leg (cpu : Z) (raw : pyval) (l : Leg) (a e : option pyval) (t : bool) (f : WireFrame) :
  decode_wire_frame cpu raw l a e t = Ok f -> is_opaque (wf_type f) = true ->
  wf_leg f = if is_source f then source_leg (wf_type f) else target_leg (wf_type f).
Proof.
  intros H Ho. pose proof (wire_decode_leg _ _ _ _ _ _ _ H) as [Hl _].
  apply decode_wire_packed in H as (_ & _ & _ & _ & Hal & _). unfold is_source.
  rewrite Hl. by destruct l, (wf_type f).
Qed.

Lemma carried_same (k : FrameType) (l : Leg) (tr : list WireFrame) (f : WireFrame) :
  wf_type f = k ->
  carried k l (tr ++ [f]) = carried k l tr ++ (if leg_eqb (wf_leg f) l then [f] else []).
Proof. intros <-. rewrite carried_snoc. by rewrite (proj2 (kind_eqb_eq _ _) eq_refl). Qed.

Definition fifo_inv (s : WireSession) (tr : list WireFrame) : Prop :=
  failed s = false -> closed s = false -> forall k, is_opaque k = true ->
  map wf_payload (carried k (source_leg k) tr) = map wf_payload (carried k (target_leg k) tr) ++ pending s k.

Lemma relay_fifo (s : WireSession) (tr : list WireFrame) (f : WireFrame) (s1 : WireSession) :
  is_opaque (wf_type f) = true ->
  wf_leg f = (if is_source f then source_leg (wf_type f) else target_leg (wf_type f)) ->
  relay s f = Ok s1 -> fifo_inv s tr -> fifo_inv s1 (tr ++ [f]).
Proof.
  intros Ho Hl Hr H Hf Hc k Hk.
  assert (Hr' : (if is_opaque (wf_type f) then relay s f else Ok s) = Ok s1) by (by rewrite Ho).
  apply relay_keeps in Hr' as (_ & _ & Ef & Ec & _). rewrite Ef in Hf. rewrite Ec in Hc.
  specialize (H Hf Hc k Hk). destruct (relay_ok _ _ _ Hr) as (env & _ & _ & _ & _ & _ & Hq).
  destruct (decide (wf_type f = k)) as [<- | Hne].
  - rewrite !carried_same, !map_app, Hl, H by done.
    destruct Hq as [(-> & _ & _ & -> & _) | (-> & q & Hpq & -> & _)]; rewrite fn_lookup_insert.
    + replace (leg_eqb (source_leg _) (source_leg _)) with true by (by destruct (wf_type f)).
      replace (leg_eqb (source_leg _) (target_leg _)) with false by (by destruct (wf_type f)).
      cbn [map]. by rewrite app_nil_r, app_assoc.
    + replace (leg_eqb (target_leg _) (source_leg _)) with false by (by destruct (wf_type f)).
      replace (leg_eqb (target_leg _) (target_leg _)) with true by (by destruct (wf_type f)).
      cbn [map]. by rewrite Hpq, app_nil_r, <- app_assoc.
  - rewrite !carried_other, H by done.
    destruct Hq as [(_ & _ & _ & -> & _) | (_ & q & _ & -> & _)]; by rewrite fn_lookup_insert_ne.
Qed.

Lemma fifo_holds (s : WireSession) (tr : list WireFrame) : reaches s tr -> fifo_inv s tr.
Proof.
  revert s tr. apply reaches_invariant.
  - intros adm epoch stream t s (_&_&_&_&_&_& Hp & _)%new_session_fields _ _ k _. by rewrite Hp.
  - intros s tr _ _ Hc. discriminate Hc.
  - intros s tr f now s1 H (_&_&_&_& Hf & Hc & Hp & _)%retry_keeps. unfold fifo_inv. cbn.
    rewrite Hf, Hc, Hp. exact H.
  - intros s tr f s' _ H (_ & _ & _ & _ & (cpu & raw & t & Hd) & s1 & now & Hr & ->).
    assert (H1 : fifo_inv s1 (tr ++ [f])).
    { destruct (is_opaque (wf_type f)) eqn:Ho.
      - eapply relay_fifo; eauto. by eapply opaque_leg.
      - injection Hr as <-. intros Hf Hc k Hk. rewrite !carried_other by congruence. by apply H. }
    destruct (commit_keeps s1 f now) as (_&_&_&_& Ec & Es & _ & Ho). intros Hf Hc k Hk.
    rewrite Hf in *. destruct (Ho eq_refl) as [-> _]. rewrite Ec in Hc.
    apply H1; [| done | done]. destruct (failed s1); [by specialize (Es eq_refl) | done].
Qed.

(** *** Envelope numbering *)

Definition envelope_sequence (f : WireFrame) : Z :=
  match decode_awce (wf_payload f) with Ok e => crypto_sequence e | Raise _ => 0 end.
Definition envelope_cursor (f : WireFrame) : Z :=
  match decode_awce (wf_payload f) with Ok e => stream_cursor e | Raise _ => 0 end.

(** The terminal frames accepted on a leg. *)
Definition terminal_frames (l : Leg) (tr : list WireFrame) : list WireFrame :=
  List.filter (fun f => is_opaque (wf_type f) && leg_eqb (wf_leg f) l) tr.

Lemma terminal_frames_snoc (l : Leg) (tr : list WireFrame) (f : WireFrame) :
  terminal_frames l (tr ++ [f])
  = terminal_frames l tr ++ (if is_opaque (wf_type f) && leg_eqb (wf_leg f) l then [f] else []).
Proof. unfold terminal_frames. rewrite List.filter_app. cbn. by destruct (_ && _). Qed.

Definition numbering_inv (s : WireSession) (tr : list WireFrame) : Prop :=
  forall l, crypto s l = 1 + blen (terminal_frames l tr)
    /\ map envelope_sequence (terminal_frames l tr) = seqZ 1 (blen (terminal_frames l tr))
    /\ StronglySorted Z.lt (map envelope_cursor (carried OUTPUT l tr))
    /\ Forall (fun f => envelope_cursor f <= cursor s l) (carried OUTPUT l tr).

Lemma StronglySorted_snoc (l : list Z) (x : Z) :
  StronglySorted Z.lt l -> Forall (fun y => y < x) l -> StronglySorted Z.lt (l ++ [x]).
Proof.
  induction 1 as [|a l Hs IH Ha]; cbn; intros H; [repeat constructor |].
  apply Forall_cons in H as [H1 H2]. constructor; [by apply IH |]. apply Forall_app. auto.
Qed.

Lemma relay_numbering (s : WireSession) (tr : list WireFrame) (f : WireFrame) (s1 : WireSession) :
  is_opaque (wf_type f) = true -> relay s f = Ok s1 -> numbering_inv s tr -> numbering_inv s1 (tr ++ [f]).
Proof.
  intros Ho Hr H l. destruct (relay_ok _ _ _ Hr) as (env & Henv & Hseq & Hcur & Hcr & Hcu & _).
  destruct (H l) as (Hc & Hm & Hs & Hb). rewrite terminal_frames_snoc, carried_snoc, Ho, Hcr, Hcu.
  cbn [andb]. unfold leg_eqb. case_bool_decide as Hl.
  - subst l. rewrite fn_lookup_insert, blen_app, map_app. change (blen [f]) with 1.
    split; [lia |]. split.
    + rewrite Hm. cbn [map]. unfold envelope_sequence. rewrite Henv, Hseq, Hc.
      rewrite seqZ_app by (pose proof (blen_nonneg (terminal_frames (wf_leg f) tr)); lia). done.
    + unfold kind_eqb. case_bool_decide as Hk; cbn [andb]; [| by rewrite app_nil_r].
      rewrite map_app, fn_lookup_insert. specialize (Hcur Hk). cbn [map].
      assert (Hx : envelope_cursor f = stream_cursor env) by (unfold envelope_cursor; by rewrite Henv).
      rewrite Hx. split.
      * apply StronglySorted_snoc; [done |]. apply Forall_map. eapply Forall_impl; [exact Hb |].
        cbn. intros g Hg. lia.
      * apply Forall_app. split; [| constructor; [by rewrite Hx | done]].
        eapply Forall_impl; [exact Hb |]. cbn. intros g Hg. lia.
  - rewrite fn_lookup_insert_ne, andb_false_r, !app_nil_r by done. split_and!; try done.
    case_if; [by rewrite fn_lookup_insert_ne | done].
Qed.

Lemma numbering_holds (s : WireSession) (tr : list WireFrame) : reaches s tr -> numbering_inv s tr.
Proof.
  revert s tr. apply reaches_invariant.
  - intros adm epoch stream t s (_&_& Hc & Hu & _)%new_session_fields l. rewrite Hc.
    split_and!; try done; constructor.
  - intros s tr H. exact H.
  - intros s tr f now s1 H (_&_& Hc & Hu & _)%retry_keeps. unfold numbering_inv. cbn.
    rewrite Hc, Hu. exact H.
  - intros s tr f s' _ H (_ & _ & _ & _ & _ & s1 & now & Hr & ->).
    destruct (commit_keeps s1 f now) as (_&_& Hc & Hu & _). unfold numbering_inv. rewrite Hc, Hu.
    destruct (is_opaque (wf_type f)) eqn:Ho; [by eapply relay_numbering |]. injection Hr as <-.
    intros l. rewrite terminal_frames_snoc, Ho, app_nil_r, carried_other by (intros E; by rewrite E in Ho).
    apply H.
Qed.

(** *** What the order rules say of a recorded frame *)

Lemma decode_wire_json (cpu : Z) (raw : pyval) (leg : Leg) (a e : option pyval) (t : bool) (f : WireFrame) :
  decode_wire_frame cpu raw leg a e t = Ok f -> is_opaque (wf_type f) = false -> is_Some (wf_json f).
Proof.
  intros (_ & _ & _ & _ & Hal & Hd)%decode_wire_packed Ho. unfold decode_packed in Hd. rewrite Ho in Hd.
  inv_ok. apply (f_equal wf_json) in Hd. cbn [wf_json] in Hd. rewrite <- Hd.
  rewrite validate_payload_allowed, Ho, except_as_ok in E1 by done.
  apply validate_control_ok in E1 as (d & sc & _ & -> & _). eauto.
Qed.

Lemma order_ok (s : WireSession) (f : WireFrame) :
  is_Some (wf_json f) -> order s f = Ok tt ->
  (kind_in (wf_type f) KEY_TYPES = true -> forall src, (wf_leg f = AR /\ src = BA) \/ (wf_leg f = AB /\ src = RA) ->
     exists g, seen s !! (src, wf_type f) = Some g /\ wf_payload f = wf_payload g)
  /\ (wf_type f = STREAM_READY_ACK \/ wf_type f = ADMITTED ->
       exists hello, seen s !! (RA, HELLO_ACK) = Some hello /\ json_agree f hello $"output_cursor" = true)
  /\ (wf_type f = ADMISSION_COMMIT ->
       exists ready, seen s !! (RA, STREAM_READY_ACK) = Some ready
         /\ json_agree f ready $"admission_fence" = true)
  /\ (wf_type f = ADMITTED -> committed s = true).
Proof.
  intros [d Hj] H. unfold order in H. rewrite Hj in H.
  apply rbind_ok in H as (? & _ & H). apply rbind_ok in H as (? & H2 & H).
  apply rbind_ok in H as (? & _ & H). apply rbind_ok in H as (? & H4 & H).
  apply rbind_ok in H as (? & H5 & H). split_and!.
  - clear H H4 H5. intros Hk src Hl. rewrite Hk in H2.
    assert (Hb : leg_eqb (wf_leg f) AR || leg_eqb (wf_leg f) AB = true
                 /\ (if leg_eqb (wf_leg f) AR then BA else RA) = src)
      by (destruct Hl as [[-> ->] | [-> ->]]; done).
    destruct Hb as [Hb Hsrc]. rewrite Hb, Hsrc in H2. cbn [andb] in H2.
    apply rbind_ok in H2 as (g & Hg%require_ok & H2). inv_ok. bool_to_prop.
    apply bytes_eqb_eq in G. eauto.
  - clear H H2 H5. intros Hk. assert (kind_eqb (wf_type f) STREAM_READY_ACK || kind_eqb (wf_type f) ADMITTED = true) as E
      by (destruct Hk as [-> | ->]; done).
    rewrite E in H4. apply rbind_ok in H4 as (g & Hg%require_ok & H4). inv_ok. bool_to_prop. eauto.
  - clear H H2 H4. intros Hk. rewrite Hk in H5. apply rbind_ok in H5 as (g & Hg%require_ok & H5). inv_ok. bool_to_prop. eauto.
  - clear H2 H4 H5. intros Hk. rewrite Hk in H. change (kind_eqb ADMITTED ADMITTED) with true in H.
    cbn [andb] in H. destruct (committed s); done.
Qed.

(** A protocol entry of an admitted session: its frame obeys the order rules. *)
Lemma admitted_frame (s : WireSession) (tr : list WireFrame) (l : Leg) (k : FrameType) :
  reaches s tr -> admitted s = true -> (l, k) ∈ protocol ->
  exists f, seen s !! (l, k) = Some f /\ wf_leg f = l /\ wf_type f = k /\ is_Some (wf_json f)
    /\ order s f = Ok tt.
Proof.
  intros Hr Ha [i Hi]%list_elem_of_lookup. unfold admitted, has in Ha.
  destruct (transcripts_hold s tr Hr 15 (AB, ADMITTED) eq_refl) as (fs & Hf & _).
  { destruct (seen s !! (AB, ADMITTED)); [eauto | done]. }
  destruct (Forall2_lookup_l _ _ _ _ _ Hf Hi) as (f & _ & Hlk). exists f.
  destruct (seen_holds s tr Hr l k f Hlk) as (Hl & Hk & _ & Hpos & Ho & cpu & raw & a & e & t & Hd).
  split_and!; try done. eapply decode_wire_json; [exact Hd |]. rewrite Hk.
  do 16 (destruct i as [|i]; [by injection Hi as <- <- |]). done.
Qed.

(** ** Theorems *)

(** On every leg the accepted frames carry the hop sequences 1, 2, 3, ...
    without gap or repetition, and the session expects the next one; rejected
    events, retransmissions and closing never move the counters. *)
Theorem session_sequences (s : WireSession) (tr : list WireFrame) (l : Leg) :
  reaches s tr ->
  expected_sequence s l = 1 + blen (on_leg l tr)
  /\ forall i f, on_leg l tr !! i = Some f -> wf_sequence f = 1 + Z.of_nat i.
Proof. intros H. exact (sequences_hold s tr H l). Qed.

(** Every invalid event closes the session for good.  The only exception is
    the redacted WireError; the seen frames, the detach state and the queued
    bytes are dropped, the sequence counters are untouched, and from then on
    every event is rejected and leaves the session closed. *)
Theorem session_fail_closed (cpu : Z) (s s' : WireSession) (leg : Leg) (raw : pyval) (stream : option Z)
    (now : Z) (e : exn) :
  accept cpu s leg raw stream now = (s', Raise e) ->
  e = wire_error /\ closed s' = true /\ admitted s' = false /\ seen s' = ∅ /\ detach s' = ∅
  /\ next s' = next s /\ (forall k, pending s' k = [] /\ pending_bytes s' k = 0)
  /\ forall cpu2 leg2 raw2 stream2 now2,
       accept cpu2 s' leg2 raw2 stream2 now2 = (close s', Raise wire_error) /\ close s' = s'.
Proof.
  intros [-> ->]%accept_raise. by split_and!.
Qed.

(** C2: when a session is admitted, all sixteen frames of the admission protocol
    have been accepted, in the order of the protocol: hellos, key exchange
    relayed in both directions, stream readiness, admission commit and its
    acknowledgement, and only then ADMITTED. *)
Theorem admitted_transcript (s : WireSession) (tr : list WireFrame) :
  reaches s tr -> admitted s = true ->
  exists fs, Forall2 (fun lk f => seen s !! lk = Some f /\ (wf_leg f, wf_type f) = lk) protocol fs
    /\ fs `sublist_of` tr.
Proof.
  intros Hr Ha. unfold admitted, has in Ha.
  destruct (transcripts_hold s tr Hr 15 (AB, ADMITTED) eq_refl) as (fs & Hf & Hs).
  { destruct (seen s !! (AB, ADMITTED)); [eauto | done]. }
  exists fs. split; [| done]. eapply Forall2_impl; [exact Hf |]. cbn. intros [l k] f Hlk.
  destruct (seen_holds s tr Hr l k f Hlk) as (<- & <- & _). done.
Qed.

(** An admitted session's key records were relayed byte for byte, the
    commit carried the fence the Runtime issued, the Runtime acknowledged the
    commit as committed, and the cursors the Runtime announced are the ones it
    confirmed and the browser was told. *)
Theorem admitted_agreement (s : WireSession) (tr : list WireFrame) :
  reaches s tr -> admitted s = true ->
  committed s = true
  /\ (forall k src dst, (k, src, dst) ∈ [(KEY_INIT, BA, AR); (KEY_CONFIRM, BA, AR);
                                         (KEY_ATTEST, RA, AB); (KEY_CONFIRM_ACK, RA, AB)] ->
        exists f g, seen s !! (src, k) = Some f /\ seen s !! (dst, k) = Some g
          /\ wf_payload g = wf_payload f)
  /\ exists hello ready commit_ admitted_,
       seen s !! (RA, HELLO_ACK) = Some hello /\ seen s !! (RA, STREAM_READY_ACK) = Some ready
       /\ seen s !! (AR, ADMISSION_COMMIT) = Some commit_ /\ seen s !! (AB, ADMITTED) = Some admitted_
       /\ json_agree commit_ ready $"admission_fence" = true
       /\ json_agree ready hello $"output_cursor" = true
       /\ json_agree admitted_ hello $"output_cursor" = true.
Proof.
  intros Hr Ha. pose proof (fun l k H => admitted_frame s tr l k Hr Ha (bool_decide_eq_true_1 _ H)) as HF.
  destruct (HF AB ADMITTED eq_refl) as (adm & Sa & _ & Ka & Ja & Oa).
  destruct (HF RA STREAM_READY_ACK eq_refl) as (rdy & Sr & _ & Kr & Jr & Or).
  destruct (HF AR ADMISSION_COMMIT eq_refl) as (cmt & Sc & _ & Kc & Jc & Oc).
  destruct (order_ok s adm Ja Oa) as (_ & Ha2 & _ & Ha4).
  destruct (order_ok s rdy Jr Or) as (_ & Hr2 & _ & _).
  destruct (order_ok s cmt Jc Oc) as (_ & _ & Hc3 & _).
  split; [by apply Ha4 |]. split.
  - intros k src dst Hin.
    assert (Hcase : bool_decide ((dst, k) ∈ protocol) = true /\ kind_in k KEY_TYPES = true
                    /\ ((dst = AR /\ src = BA) \/ (dst = AB /\ src = RA))).
    { repeat (apply elem_of_cons in Hin as [[= -> -> ->] | Hin]; [by auto |]). by apply elem_of_nil in Hin. }
    destruct Hcase as (Hp & Hk & Hl). destruct (HF dst k Hp) as (g & Sg & <- & <- & Jg & Og).
    destruct (order_ok s g Jg Og) as (H1 & _). destruct (H1 Hk src Hl) as (f & Sf & Hpay). eauto.
  - destruct (Hr2 (or_introl Kr)) as (hello & Sh & Hh). destruct (Ha2 (or_intror Ka)) as (h2 & Sh2 & Hh2).
    destruct (Hc3 Kc) as (r2 & Sr2 & Hfence). rewrite Sh in Sh2. injection Sh2 as <-.
    rewrite Sr in Sr2. injection Sr2 as <-. exists hello, rdy, cmt, adm. by split_and!.
Qed.

(** No accepted frame speaks for another attachment: wherever an accepted
    record carries a member of the admission tuple or a Runtime epoch, its value
    is the one the session was created with. *)
Theorem session_bound (s : WireSession) (tr : list WireFrame) (f : WireFrame) (d : pydict) :
  reaches s tr -> f ∈ tr -> wf_json f = Some d ->
  (forall k v, k ∈ ADMISSION_KEYS -> dget d k = Some v ->
     exists w, dget (admission s) k = Some w /\ scalar_eqb v w = true)
  /\ (forall v, dget d $"runtime_epoch" = Some v -> scalar_eqb v (runtime_epoch s) = true).
Proof.
  intros [_ H]%bindings_hold Hf Hj. rewrite Forall_forall in H. exact (H f Hf d Hj).
Qed.

(** The relay queues are bounded and their accounting is exact: the byte
    counter of a queue is the size of the frames it holds, at most 64 KiB of
    input and 256 KiB of output, in at most 256 entries. *)
Theorem session_queues_bounded (s : WireSession) (tr : list WireFrame) (k : FrameType) :
  reaches s tr ->
  pending_bytes s k = queue_bytes (pending s k)
  /\ 0 <= pending_bytes s k <= (if kind_eqb k INPUT then 65536 else 262144)
  /\ blen (pending s k) <= 256.
Proof.
  intros H. destruct (queues_hold s tr H k) as (Hb & Hc & Hl).
  pose proof (queue_bytes_nonneg (pending s k)). unfold cap in Hc. split_and!; lia || done.
Qed.

(** Terminal data is relayed first in, first out and unmodified: while the
    session is healthy, the payloads accepted on the source leg are exactly
    those already accepted on the target leg followed by the queued ones. *)
Theorem session_fifo (s : WireSession) (tr : list WireFrame) (k : FrameType) :
  reaches s tr -> failed s = false -> closed s = false -> is_opaque k = true ->
  map wf_payload (carried k (source_leg k) tr) = map wf_payload (carried k (target_leg k) tr) ++ pending s k.
Proof. intros H Hf Hc. by apply (fifo_holds s tr H). Qed.

(** On every leg the accepted terminal envelopes are numbered 1, 2, 3, ...
    by their crypto sequence, so no nonce repeats or is skipped, and the
    output cursors strictly increase. *)
Theorem session_envelopes_numbered (s : WireSession) (tr : list WireFrame) (l : Leg) :
  reaches s tr ->
  map envelope_sequence (terminal_frames l tr) = seqZ 1 (blen (terminal_frames l tr))
  /\ StronglySorted Z.lt (map envelope_cursor (carried OUTPUT l tr)).
Proof. intros H. destruct (numbering_holds s tr H l) as (_ & ? & ? & _). done. Qed.

(** Time only moves forward, and a session that has not been admitted
    accepts nothing five seconds after it started. *)
Theorem session_deadline (cpu : Z) (s : WireSession) (leg : Leg) (raw : pyval) (stream : option Z) (now : Z) :
  now < last_now s \/ (has s AB ADMITTED = false /\ started s + ADMISSION_TIMEOUT_NS <= now) ->
  accept cpu s leg raw stream now = (close s, Raise wire_error).
Proof.
  intros H. destruct (accept cpu s leg raw stream now) as [s' [f|e]] eqn:E.
  - apply accept_ok in E as (_ & Hn & Hd & _). destruct H as [H | [Hh H]]; [lia |].
    destruct Hd as [Hd | Hd]; [congruence | lia].
  - by apply accept_raise in E as [-> ->].
Qed.

(** ** Witnesses: an honest attachment *)

(** Deliver events in order. *)
Fixpoint deliver (s : WireSession) (tr : list WireFrame) (evs : list (Leg * bytes * Z))
  : WireSession * list WireFrame :=
  match evs with
  | [] => (s, tr)
  | (leg, raw, now) :: evs' =>
      match accept 0 s leg (PBytes raw) (Some 1) now with
      | (s', Ok f) => deliver s' (if wf_replay f then tr else tr ++ [f]) evs'
      | (s', Raise _) => deliver s' tr evs'
      end
  end.

Lemma deliver_reaches (evs : list (Leg * bytes * Z)) : forall s tr,
  reaches s tr -> reaches (deliver s tr evs).1 (deliver s tr evs).2.
Proof.
  induction evs as [|[[leg raw] now] evs IH]; intros s tr H; cbn [deliver]; [done |].
  destruct (accept 0 s leg (PBytes raw) (Some 1) now) as [s' [f|e]] eqn:E; apply IH.
  - by eapply reaches_accept.
  - by eapply reaches_reject.
Qed.

Definition sample_context : pydict :=
  match derive_context (PDict sample_admission) (PStr $"7") with Ok c => c | Raise _ => [] end.

Definition sample_record (leg : Leg) (kind : FrameType) : pydict :=
  let a := [($"protocol_version", PInt 1)] ++ sample_admission ++ [($"runtime_epoch", PStr $"7")] in
  let hex64 := PStr (repeat 99 64) in
  let noise := ($"noise_protocol", PStr $"Noise_NX_25519_AESGCM_SHA256") in
  let b64 n := PStr (repeat 65 n) in
  let c := [($"protocol_version", PInt 1)] ++ sample_context ++ [noise; ($"ciphertext", b64 64%nat)] in
  let run := [($"state", PStr $"RUNNING"); ($"output_cursor", PStr $"0")] in
  match kind with
  | WS_HELLO => a ++ [($"resume_cursor", PNone); ($"previous_runtime_epoch", PNone);
                      ($"ticket", PStr ($"wat_" ++ repeat 97 32))]
  | RUNTIME_HELLO => a ++ [($"resume_cursor", PNone); ($"previous_runtime_epoch", PNone);
                           ($"capability", hex64)]
  | KEY_INIT => a ++ [noise; ($"crypto_envelope_version", PInt 1);
                      ($"browser_ephemeral_public_key", b64 43%nat); ($"noise_message_1", b64 43%nat)]
  | KEY_ATTEST => a ++ [noise; ($"crypto_envelope_version", PInt 1);
                        ($"runtime_attestation_x25519_fingerprint", hex64);
                        ($"runtime_ephemeral_public_key", b64 43%nat); ($"noise_message_2", b64 171%nat)]
  | KEY_CONFIRM => c
  | KEY_CONFIRM_ACK => c ++ [($"status", PStr $"verified"); ($"transcript_context_hash", PStr (repeat 97 64))]
  | HELLO_ACK => a ++ run ++ [($"input_limit", PInt INPUT_LIMIT); ($"output_limit", PInt OUTPUT_LIMIT)]
  | STREAM_READY_ACK => a ++ run ++ [($"admission_fence", hex64)]
  | ADMITTED => a ++ run ++ [($"lease_expires_at", PStr $"2024-02-29T23:59:59.000001Z")]
  | ADMISSION_COMMIT => a ++ [($"admission_fence", hex64)]
  | ADMISSION_COMMIT_ACK => a ++ [($"result", PStr $"committed"); ($"reason_code", PNone)]
  | _ => a
  end.

(** The first [n] frames of the protocol, each at its leg's next sequence. *)
Definition honest_events (n : nat) : list (Leg * bytes * Z) :=
  (fix go (done todo : list (Leg * FrameType)) : list (Leg * bytes * Z) :=
     match todo with
     | [] => []
     | (l, k) :: todo' =>
         let seq := 1 + blen (List.filter (fun lk => leg_eqb (fst lk) l) done) in
         (l, encoded k l (PDict (sample_record l k)) seq, 1000 + blen done) :: go (done ++ [(l, k)]) todo'
     end) [] (take n protocol).

(** One output envelope from the Runtime, relayed to the browser, and a second
    one that is still queued. *)
Definition sample_output (seq cur : Z) : bytes :=
  match encode_awce (mkEnvelope 1 2 0 seq cur (repeat (z2b 170) 16) (bstr "ciphertext-and-auth-tag")) with
  | Ok b => b
  | Raise _ => []
  end.

Definition output_events : list (Leg * bytes * Z) :=
  [(RA, encoded OUTPUT RA (PBytes (sample_output 1 5)) 6, 2000);
   (AB, encoded OUTPUT AB (PBytes (sample_output 1 5)) 4, 2001);
   (RA, encoded OUTPUT RA (PBytes (sample_output 2 9)) 7, 2002)].

Definition sample_session : WireSession :=
  match new_session (PDict sample_admission) (PStr $"7") (Some 1) 1000 with
  | Ok s => s
  | Raise _ => mkSession [] PNone 0 0 0 (fun _ => 0) ∅ ∅ ∅ (fun _ => 0) (fun _ => 0) ∅ None ∅ true true ∅
                 (fun _ => []) (fun _ => 0)
  end.

Definition honest_run : WireSession * list WireFrame :=
  deliver sample_session [] (honest_events 16 ++ output_events).

Lemma honest_reaches : reaches honest_run.1 honest_run.2.
Proof.
  apply deliver_reaches. apply (reaches_new (PDict sample_admission) (PStr $"7") (Some 1) 1000).
  vm_compute. reflexivity.
Qed.

(** The honest run is admitted, accepts all nineteen frames and has one
    envelope in its output queue. *)
Example honest_run_admitted :
  admitted honest_run.1 = true /\ length honest_run.2 = 19%nat
  /\ pending honest_run.1 OUTPUT = [sample_output 2 9].
Proof. vm_compute. auto. Qed.

Lemma session_sequences_witness :
  expected_sequence honest_run.1 RA = 1 + blen (on_leg RA honest_run.2).
Proof. exact (proj1 (session_sequences honest_run.1 honest_run.2 RA honest_reaches)). Defined.

Lemma session_fail_closed_witness :
  closed (accept 0 sample_session AB (PBytes []) (Some 1) 1000).1 = true.
Proof.
  destruct (session_fail_closed 0 sample_session (accept 0 sample_session AB (PBytes []) (Some 1) 1000).1
              AB (PBytes []) (Some 1) 1000 wire_error) as (_ & H & _); [| exact H].
  vm_compute. reflexivity.
Defined.

Lemma admitted_transcript_witness :
  exists fs, Forall2 (fun lk f => seen honest_run.1 !! lk = Some f /\ (wf_leg f, wf_type f) = lk) protocol fs
    /\ fs `sublist_of` honest_run.2.
Proof.
  apply (admitted_transcript honest_run.1 honest_run.2 honest_reaches). vm_compute. reflexivity.
Defined.

Lemma admitted_agreement_witness : committed honest_run.1 = true.
Proof.
  refine (proj1 (admitted_agreement honest_run.1 honest_run.2 honest_reaches _)). vm_compute. reflexivity.
Defined.

(** The third frame of the honest run, RUNTIME_HELLO. *)
Definition runtime_hello : WireFrame :=
  default (mkWireFrame PING BA 0 [] None [] false) (honest_run.2 !! 2%nat).

Lemma session_bound_witness :
  exists d, wf_json runtime_hello = Some d
    /\ forall v, dget d $"runtime_epoch" = Some v -> scalar_eqb v (runtime_epoch honest_run.1) = true.
Proof.
  exists (default [] (wf_json runtime_hello)). split; [vm_compute; reflexivity |].
  refine (proj2 (session_bound honest_run.1 honest_run.2 runtime_hello
                   (default [] (wf_json runtime_hello)) honest_reaches _ _)).
  - apply list_elem_of_lookup. exists 2%nat. vm_compute. reflexivity.
  - vm_compute. reflexivity.
Defined.

Lemma session_queues_bounded_witness :
  pending_bytes honest_run.1 OUTPUT = queue_bytes (pending honest_run.1 OUTPUT).
Proof. exact (proj1 (session_queues_bounded honest_run.1 honest_run.2 OUTPUT honest_reaches)). Defined.

Lemma session_fifo_witness :
  map wf_payload (carried OUTPUT RA honest_run.2)
  = map wf_payload (carried OUTPUT AB honest_run.2) ++ pending honest_run.1 OUTPUT.
Proof.
  refine (session_fifo honest_run.1 honest_run.2 OUTPUT honest_reaches _ _ _); vm_compute; reflexivity.
Defined.

Lemma session_envelopes_numbered_witness :
  map envelope_sequence (terminal_frames RA honest_run.2)
  = seqZ 1 (blen (terminal_frames RA honest_run.2)).
Proof. exact (proj1 (session_envelopes_numbered honest_run.1 honest_run.2 RA honest_reaches)). Defined.

Lemma session_deadline_witness :
  accept 0 sample_session BA (PBytes []) (Some 1) 5000001000 = (close sample_session, Raise wire_error).
Proof.
  apply session_deadline. right. split; [vm_compute; reflexivity |].
  apply Z.leb_le. vm_compute. reflexivity.
Defined.

(** A forged frame after admission: the relay target repeats the queue's head
    only, so delivering the second envelope before it is queued is rejected. *)
Example out_of_order_rejected :
  closed (deliver sample_session []
            (honest_events 16 ++ [(RA, encoded OUTPUT RA (PBytes (sample_output 1 5)) 6, 2000);
                                  (AB, encoded OUTPUT AB (PBytes (sample_output 2 9)) 4, 2001)])).1 = true.
Proof. vm_compute. reflexivity. Qed.
