(* ===== verification/Sanitizer.v ===== *)
(** * The terminal output sanitizer ([agentbox_protocol/waw_terminal_sanitizer.py])

    One complete output record is reduced to display text and a list of closed
    events.  The byte offset [index] of the source is the suffix of the record
    that starts there; the offsets the skipping functions return are relative
    to that suffix.

    [unicodedata.category(char) in {"Cc", "Cf"}] is the parameter [is_control];
    that the C1 characters are in category Cc is the one fact about it that the
    safety theorem relies on. *)

From S2P Require Import Prelude PyVal.

Local Open Scope Z_scope.

Definition MAX_INPUT_BYTES : Z := 64 * 1024.
Definition MAX_OUTPUT_TEXT_BYTES : Z := 24 * 1024.
Definition MAX_EVENT_COUNT : Z := 4096.
Definition MAX_ESCAPE_BYTES : Z := 4096.

Inductive SanitizerEventKind : Type :=
| TEXT | NEWLINE | CARRIAGE_RETURN | DROPPED_CONTROL | TRUNCATED | REJECTED.

#[export] Instance SanitizerEventKind_eq_dec : EqDecision SanitizerEventKind.
Proof. solve_decision. Defined.

Record SanitizerEvent : Type := mkEvent { ev_kind : SanitizerEventKind; ev_text : pystr }.

Record SanitizedText : Type := mkSanitized { st_text : pystr; st_events : list SanitizerEvent }.

Definition terminal_result (kind : SanitizerEventKind) : SanitizedText := mkSanitized [] [mkEvent kind []].

(** [_append_event]: the events afterwards, or [None] for False (unchanged). *)
Definition append_event (events : list SanitizerEvent) (kind : SanitizerEventKind) (text : pystr)
  : option (list SanitizerEvent) :=
  if MAX_EVENT_COUNT <=? blen events then None else Some (events ++ [mkEvent kind text]).

(** ** Escape sequences *)

(** [for index in range(...): if 0x40 <= raw[index] <= 0x7E: return index + 1]:
    the number of bytes up to and including a final byte. *)
Fixpoint find_final (l : bytes) : option nat :=
  match l with
  | [] => None
  | b :: r => if in_range 64 (b2z b) 126 then Some 1%nat else S <$> find_final r
  end.

(** The loop for a string sequence: it ends at BEL (if [bel]), at a C1 string
    terminator (if [c1]) or at ESC backslash. *)
Fixpoint find_terminator (bel c1 : bool) (l : bytes) : option nat :=
  match l with
  | [] => None
  | b :: r =>
      if (b2z b =? 7) && bel then Some 1%nat
      else if (b2z b =? 156) && c1 then Some 1%nat
      else match r with
           | b' :: _ =>
               if (b2z b =? 27) && (b2z b' =? 92) then Some 2%nat else S <$> find_terminator bel c1 r
           | [] => None
           end
  end.

Definition skip_escape (rest : bytes) : option nat :=
  match rest with
  | _ :: b1 :: _ =>
      let introducer := b2z b1 in
      let window := drop 2 (slice_to MAX_ESCAPE_BYTES rest) in
      if introducer =? 91 then Nat.add 2 <$> find_final window
      else if existsb (Z.eqb introducer) [93; 80; 94; 95; 88] then
        Nat.add 2 <$> find_terminator (introducer =? 93) false window
      else Some 2%nat
  | _ => None
  end.

Definition skip_c1_sequence (rest : bytes) : option nat :=
  match rest with
  | b0 :: _ =>
      let introducer := b2z b0 in
      let window := drop 1 (slice_to MAX_ESCAPE_BYTES rest) in
      if introducer =? 155 then Nat.add 1 <$> find_final window
      else if introducer =? 156 then Some 1%nat
      else if existsb (Z.eqb introducer) [157; 144; 152; 158; 159] then
        Nat.add 1 <$> find_terminator (introducer =? 157) true window
      else Some 1%nat
  | [] => None
  end.

(** ** One character *)

(** The character ([None] for the empty string) and the bytes it takes. *)
Definition decode_scalar (rest : bytes) : option (option Z * nat) :=
  match rest with
  | [] => None
  | b0 :: _ =>
      let first := b2z b0 in
      if first <? 128 then Some (Some first, 1%nat)
      else if in_range 128 first 159 then Some (None, 1%nat)
      else
        let width :=
          if in_range 194 first 223 then Some 2%nat
          else if in_range 224 first 239 then Some 3%nat
          else if in_range 240 first 244 then Some 4%nat else None in
        match width with
        | None => None
        | Some w =>
            if Nat.ltb (length rest) w then None
            else
              let chunk := take w rest in
              let second := match chunk with _ :: b1 :: _ => b2z b1 | _ => 0 end in
              if existsb (fun v => (b2z v <? 128) || (191 <? b2z v)) (drop 1 chunk) then None
              else if Nat.eqb w 3 && (((first =? 224) && (second <? 160)) || ((first =? 237) && (160 <=? second)))
              then None
              else if Nat.eqb w 4 && (((first =? 240) && (second <? 144)) || ((first =? 244) && (144 <=? second)))
              then None
              else match utf8_decode chunk with
                   | Some [c] => Some (Some c, w)
                   | _ => None
                   end
        end
  end.

(** ** The reducer *)

(** [output] joined, [events], [output_bytes], [pending_text], [pending_bytes] *)
Record sanitizer : Type := mkSan {
  s_output : pystr;
  s_events : list SanitizerEvent;
  s_output_bytes : Z;
  s_pending : pystr;
  s_pending_bytes : Z
}.

Definition with_events (st : sanitizer) (events : list SanitizerEvent) : sanitizer :=
  mkSan (s_output st) events (s_output_bytes st) (s_pending st) (s_pending_bytes st).

(** A call whose result the source ignores. *)
Definition try_event (st : sanitizer) (kind : SanitizerEventKind) : sanitizer :=
  match append_event (s_events st) kind [] with
  | Some ev => with_events st ev
  | None => st
  end.

Definition flush_text (st : sanitizer) : sanitizer * bool :=
  match s_pending st with
  | [] => (st, true)
  | text =>
      match append_event (s_events st) TEXT text with
      | None => (st, false)
      | Some ev => (mkSan (s_output st ++ text) ev (s_output_bytes st) [] 0, true)
      end
  end.

(** [len(char.encode("utf-8"))] *)
Definition char_size (c : Z) : Z :=
  match utf8_encode1 c with Some b => blen b | None => 0 end.

Definition add_text (st : sanitizer) (c : Z) : sanitizer * bool :=
  let size := char_size c in
  if MAX_OUTPUT_TEXT_BYTES <? s_output_bytes st + size then
    (try_event (fst (flush_text st)) TRUNCATED, false)
  else
    (mkSan (s_output st) (s_events st) (s_output_bytes st + size) (s_pending st ++ [c])
       (s_pending_bytes st + size), true).

Definition drop_control (st : sanitizer) : sanitizer * bool :=
  match flush_text st with
  | (st1, false) => (st1, false)
  | (st1, true) =>
      match append_event (s_events st1) DROPPED_CONTROL [] with
      | Some ev => (with_events st1 ev, true)
      | None => (try_event st1 TRUNCATED, false)
      end
  end.

Definition add_separator (st : sanitizer) (c : Z) (kind : SanitizerEventKind) : sanitizer * bool :=
  let '(st1, flushed) := flush_text st in
  if negb flushed || (MAX_OUTPUT_TEXT_BYTES <? s_output_bytes st1 + 1) then (try_event st1 TRUNCATED, false)
  else
    match append_event (s_events st1) kind [] with
    | None => (try_event st1 TRUNCATED, false)
    | Some ev => (mkSan (s_output st1 ++ [c]) ev (s_output_bytes st1 + 1) (s_pending st1) (s_pending_bytes st1), true)
    end.

(** How one round of the loop ends. *)
Inductive round : Type :=
| Continue (st : sanitizer) (consumed : nat)
| Break (st : sanitizer)
| Return (r : SanitizedText).

(** Go on after [n] bytes if the call succeeded, leave the loop otherwise. *)
Definition or_break (r : sanitizer * bool) (n : nat) : round :=
  if snd r then Continue (fst r) n else Break (fst r).

(** The rounds at ESC and at a C1 introducer: flush, skip, record the drop. *)
Definition skip_round (st : sanitizer) (skipped : option nat) : round :=
  match flush_text st with
  | (st1, false) => Break st1
  | (st1, true) =>
      match skipped with
      | None => Return (terminal_result REJECTED)
      | Some n =>
          match append_event (s_events st1) DROPPED_CONTROL [] with
          | None => Return (terminal_result TRUNCATED)
          | Some ev => Continue (with_events st1 ev) n
          end
      end
  end.

Section Sanitize.

Variable is_control : Z -> bool.

Definition sanitize_round (st : sanitizer) (rest : bytes) : round :=
  match rest with
  | [] => Break st
  | b :: _ =>
      let byte := b2z b in
      if byte =? 27 then skip_round st (skip_escape rest)
      else if byte =? 10 then or_break (add_separator st 10 NEWLINE) 1
      else if byte =? 13 then or_break (add_separator st 13 CARRIAGE_RETURN) 1
      else if byte =? 9 then or_break (add_text st 9) 1
      else if existsb (Z.eqb byte) [144; 152; 155; 157; 158; 159] then skip_round st (skip_c1_sequence rest)
      else if byte =? 156 then or_break (drop_control st) 1
      else if (byte <? 32) || in_range 127 byte 159 then or_break (drop_control st) 1
      else
        match decode_scalar rest with
        | None => Return (terminal_result REJECTED)
        | Some (None, n) => or_break (drop_control st) n
        | Some (Some c, n) =>
            if is_control c then or_break (drop_control st) n else or_break (add_text st c) n
        end
  end.

Fixpoint sanitize_loop (fuel : nat) (st : sanitizer) (rest : bytes) : option (sanitizer + SanitizedText) :=
  match fuel with
  | O => None
  | S n =>
      match rest with
      | [] => Some (inl st)
      | _ =>
          match sanitize_round st rest with
          | Continue st' k => sanitize_loop n st' (drop k rest)
          | Break st' => Some (inl st')
          | Return r => Some (inr r)
          end
      end
  end.

(** [None] only if the fuel runs out, which [sanitize_total] excludes. *)
Definition sanitize_terminal_output (raw : pyval) : option SanitizedText :=
  match raw with
  | PBytes raw =>
      if MAX_INPUT_BYTES <? blen raw then Some (terminal_result TRUNCATED)
      else
        match sanitize_loop (S (length raw)) (mkSan [] [] 0 [] 0) raw with
        | None => None
        | Some (inr r) => Some r
        | Some (inl st) =>
            let st' := fst (flush_text st) in Some (mkSanitized (s_output st') (s_events st'))
        end
  | _ => Some (terminal_result REJECTED)
  end.

(** ** The contract *)

(** What an event shows. *)
Definition render (e : SanitizerEvent) : pystr :=
  match ev_kind e with
  | TEXT => ev_text e
  | NEWLINE => [10]
  | CARRIAGE_RETURN => [13]
  | _ => []
  end.

Definition rendered (events : list SanitizerEvent) : pystr := concat (map render events).

Definition text_size (s : pystr) : Z := foldr (fun c acc => char_size c + acc) 0 s.

(** A character that may reach the display: a tab, a line separator, or one
    that is neither a C0 or C1 control nor DEL and not in category Cc or Cf. *)
Definition displayable (c : Z) : bool :=
  (c =? 9) || (c =? 10) || (c =? 13)
  || ((32 <=? c) && negb (in_range 127 c 159) && negb (is_control c)).

Definition good_events (events : list SanitizerEvent) : Prop :=
  blen events <= MAX_EVENT_COUNT
  /\ Forall (fun e => ev_kind e <> TEXT -> ev_text e = []) events.

Definition san_inv (st : sanitizer) : Prop :=
  rendered (s_events st) = s_output st
  /\ s_output_bytes st = text_size (s_output st) + text_size (s_pending st)
  /\ s_output_bytes st <= MAX_OUTPUT_TEXT_BYTES
  /\ good_events (s_events st)
  /\ Forall (fun c => displayable c = true) (s_output st ++ s_pending st).

Definition result_ok (r : SanitizedText) : Prop :=
  rendered (st_events r) = st_text r /\ text_size (st_text r) <= MAX_OUTPUT_TEXT_BYTES
  /\ good_events (st_events r) /\ Forall (fun c => displayable c = true) (st_text r).

(** ** Lemmas *)

Lemma text_size_app (a b : pystr) : text_size (a ++ b) = text_size a + text_size b.
Proof. induction a as [|c a IH]; cbn; [done |]. unfold text_size in *. lia. Qed.

Lemma char_size_nonneg (c : Z) : 0 <= char_size c.
Proof. unfold char_size. case_match; [apply blen_nonneg | done]. Qed.

Lemma text_size_nonneg (s : pystr) : 0 <= text_size s.
Proof. induction s as [|c s IH]; [done |]. cbn. pose proof (char_size_nonneg c). unfold text_size in IH. lia. Qed.

Lemma append_event_ok (ev ev' : list SanitizerEvent) (k : SanitizerEventKind) (t : pystr) :
  append_event ev k t = Some ev' -> (k <> TEXT -> t = []) -> good_events ev ->
  good_events ev' /\ rendered ev' = rendered ev ++ render (mkEvent k t).
Proof.
  unfold append_event. case_if; [done |]. intros [= <-] Ht [Hl Hf]. bool_to_prop. split; [split |].
  - rewrite blen_app. change (blen [mkEvent k t]) with 1. lia.
  - apply Forall_app. split; [done |]. by constructor.
  - unfold rendered. rewrite map_app, concat_app. cbn. by rewrite app_nil_r.
Qed.

Lemma try_event_inv (st : sanitizer) (k : SanitizerEventKind) :
  render (mkEvent k []) = [] -> san_inv st -> san_inv (try_event st k).
Proof.
  intros Hk (H1 & H2 & H3 & H4 & H5). unfold try_event. destruct (append_event _ _ _) as [ev|] eqn:E; [| done].
  apply append_event_ok in E as [Hg Hr]; [| done..]. rewrite Hk, app_nil_r in Hr.
  unfold san_inv, with_events. cbn [fst s_events s_output s_pending s_output_bytes]. by rewrite Hr.
Qed.

Lemma flush_text_inv (st : sanitizer) :
  san_inv st -> san_inv (fst (flush_text st)) /\ (snd (flush_text st) = true -> s_pending (fst (flush_text st)) = [])
  /\ s_output_bytes (fst (flush_text st)) = s_output_bytes st.
Proof.
  intros H. unfold flush_text. destruct (s_pending st) as [|c p] eqn:Ep; [done |].
  destruct (append_event _ _ _) as [ev|] eqn:E; [| by split_and!].
  destruct H as (H1 & H2 & H3 & H4 & H5). apply append_event_ok in E as [Hg Hr]; [| done..].
  cbn [fst snd s_pending s_output_bytes]. split_and!; try done. rewrite Ep in *.
  unfold san_inv. cbn [fst s_events s_output s_pending s_output_bytes]. rewrite Hr, H1, app_nil_r.
  split_and!; try done; try apply Hg. rewrite text_size_app. change (text_size []) with 0. lia.
Qed.

Lemma add_text_inv (st : sanitizer) (c : Z) :
  displayable c = true -> san_inv st -> san_inv (fst (add_text st c)).
Proof.
  intros Hc H. unfold add_text. case_if.
  - apply try_event_inv; [done |]. by apply flush_text_inv.
  - bool_to_prop. destruct H as (H1 & H2 & H3 & H4 & H5). unfold san_inv.
    cbn [fst s_events s_output s_pending s_output_bytes]. split_and!; try done; try apply H4.
    + rewrite text_size_app. change (text_size [c]) with (char_size c + 0). lia.
    + rewrite app_assoc. apply Forall_app. split; [done | by constructor].
Qed.

Lemma drop_control_inv (st : sanitizer) : san_inv st -> san_inv (fst (drop_control st)).
Proof.
  intros H. unfold drop_control. destruct (flush_text_inv st H) as (Hf & _).
  destruct (flush_text st) as [st1 []]; cbn [fst] in *; [| done].
  destruct (append_event _ _ _) as [ev|] eqn:E; cbn [fst]; [| by apply try_event_inv].
  destruct Hf as (H1 & H2 & H3 & H4 & H5). apply append_event_ok in E as [Hg Hr]; [| done..].
  unfold san_inv, with_events. cbn [fst s_events s_output s_pending s_output_bytes render ev_kind] in *.
  by rewrite Hr, app_nil_r.
Qed.

Lemma add_separator_inv (st : sanitizer) (c : Z) (k : SanitizerEventKind) :
  render (mkEvent k []) = [c] -> k <> TEXT -> displayable c = true -> char_size c = 1 ->
  san_inv st -> san_inv (fst (add_separator st c k)).
Proof.
  intros Hr Hk Hd Hs H. unfold add_separator. destruct (flush_text_inv st H) as (Hf & Hp & _).
  destruct (flush_text st) as [st1 fl]; cbn [fst snd] in *.
  destruct (negb fl || _) eqn:G; cbn [fst]; [by apply try_event_inv |]. apply orb_false_iff in G as [G Gm]. bool_to_prop. subst fl.
  specialize (Hp eq_refl). clear H.
  destruct (append_event _ _ _) as [ev|] eqn:E; cbn [fst]; [| by apply try_event_inv].
  destruct Hf as (H1 & H2 & H3 & H4 & H5). apply append_event_ok in E as [Hg Hrr]; [| done..].
  unfold san_inv. cbn [fst s_events s_output s_pending s_output_bytes]. rewrite Hrr, Hr, H1, Hp, app_nil_r in *.
  split_and!; try done; try apply Hg.
  - rewrite text_size_app. change (text_size [c]) with (char_size c + 0). change (text_size []) with 0 in *. lia.
  - apply Forall_app. split; [done | by constructor].
Qed.

(** What a round leaves. *)
Definition round_ok (r : round) : Prop :=
  match r with
  | Continue st n => san_inv st /\ (0 < n)%nat
  | Break st => san_inv st
  | Return r => result_ok r
  end.

Lemma terminal_result_ok (k : SanitizerEventKind) : render (mkEvent k []) = [] -> result_ok (terminal_result k).
Proof.
  intros H. unfold result_ok, terminal_result, rendered, good_events. cbn [st_events st_text map concat].
  rewrite H. split_and!; try done. by repeat constructor.
Qed.

Lemma or_break_ok (r : sanitizer * bool) (n : nat) : san_inv (fst r) -> (0 < n)%nat -> round_ok (or_break r n).
Proof. unfold or_break. by destruct r as [st []]. Qed.

Lemma skip_round_ok (st : sanitizer) (sk : option nat) :
  san_inv st -> (forall n, sk = Some n -> (0 < n)%nat) -> round_ok (skip_round st sk).
Proof.
  intros H Hn. unfold skip_round. destruct (flush_text_inv st H) as (Hf & _).
  destruct (flush_text st) as [st1 []]; cbn [fst] in Hf; [| done].
  destruct sk as [n|]; [| by apply terminal_result_ok].
  destruct (append_event _ _ _) as [ev|] eqn:E; [| by apply terminal_result_ok].
  destruct Hf as (H1 & H2 & H3 & H4 & H5). apply append_event_ok in E as [Hg Hr]; [| done..].
  split; [| by apply Hn]. unfold san_inv, with_events. cbn [fst s_events s_output s_pending s_output_bytes render ev_kind] in *.
  by rewrite Hr, app_nil_r.
Qed.

Lemma find_final_pos (l : bytes) (n : nat) : find_final l = Some n -> (0 < n <= length l)%nat.
Proof.
  revert n. induction l as [|b l IH]; cbn; intros n; [done |]. case_if; [intros [= <-]; lia |].
  destruct (find_final l) as [m|]; [| done]. intros [= <-]. specialize (IH m eq_refl). lia.
Qed.

(** A skipped sequence is not empty. *)
Lemma skip_escape_pos (l : bytes) (n : nat) : skip_escape l = Some n -> (0 < n)%nat.
Proof.
  unfold skip_escape. destruct l as [|? [|b l]]; try done. repeat case_if; intros H.
  - destruct (find_final _); [injection H as <-; lia | done].
  - destruct (find_terminator _ _ _); [injection H as <-; lia | done].
  - injection H as <-. lia.
Qed.

Lemma skip_c1_pos (l : bytes) (n : nat) : skip_c1_sequence l = Some n -> (0 < n)%nat.
Proof.
  unfold skip_c1_sequence. destruct l as [|b l]; [done |]. repeat case_if; intros H.
  - destruct (find_final _); [injection H as <-; lia | done].
  - injection H as <-. lia.
  - destruct (find_terminator _ _ _); [injection H as <-; lia | done].
  - injection H as <-. lia.
Qed.

(** A multi-byte character is not ASCII. *)
Lemma utf8_high (b : byte) (l : bytes) (c : Z) :
  utf8_decode (b :: l) = Some [c] -> 128 <= b2z b -> 128 <= c.
Proof.
  cbn [utf8_decode]. unfold is_cont, cont_bits, in_range. intros H Hb.
  replace (b2z b <? 128) with false in H by lia.
  repeat match type of H with
  | (if ?b then _ else _) = _ => destruct b eqn:?
  | match ?x with [] => _ | _ => _ end = _ => destruct x as [|? ?]
  | (cons _ <$> utf8_decode ?x) = _ => destruct (utf8_decode x)
  | None = _ => discriminate H
  | fmap _ _ = _ => cbn in H
  | Some _ = Some _ => injection H as H _
  end; bool_to_prop; lia.
Qed.

(** One decoded character is not a C0 control when its first byte is not, and
    takes at least a byte. *)
Lemma decode_scalar_spec (b : byte) (l : bytes) (oc : option Z) (n : nat) :
  decode_scalar (b :: l) = Some (oc, n) -> 32 <= b2z b -> b2z b <> 127 ->
  (0 < n)%nat /\ forall c, oc = Some c -> 32 <= c /\ c <> 127.
Proof.
  unfold decode_scalar. intros H Hb Hd. destruct (b2z b <? 128) eqn:E1.
  { injection H as <- <-. split; [lia |]. by intros c [= <-]. }
  destruct (in_range 128 (b2z b) 159) eqn:E2; [injection H as <- <-; split; [lia | done] |].
  destruct (if in_range 194 _ _ then _ else _) as [w|] eqn:Ew; [| done].
  destruct (Nat.ltb _ _) eqn:E3; [done |]. destruct (existsb _ _) eqn:E4; [done |].
  repeat (destruct (_ && _); [done |]).
  destruct (utf8_decode (take w (b :: l))) as [[|c [|]]|] eqn:E; try done. injection H as <- <-.
  assert (Hw : (0 < w)%nat) 
    by (destruct (in_range 194 (b2z b) 223), (in_range 224 (b2z b) 239), (in_range 240 (b2z b) 244); first [done | injection Ew as <-; lia]).
  split; [done |]. intros c' [= <-]. destruct w as [|w]; [lia |]. cbn [take] in E.
  bool_to_prop. pose proof (utf8_high _ _ _ E ltac:(lia)). lia.
Qed.

(** The C1 controls are in category Cc. *)
Hypothesis c1_control : forall c, 128 <= c <= 159 -> is_control c = true.

Lemma sanitize_round_ok (st : sanitizer) (b : byte) (l : bytes) :
  san_inv st -> round_ok (sanitize_round st (b :: l)).
Proof.
  intros H. cbn [sanitize_round].
  destruct (b2z b =? 27). { apply skip_round_ok; [done | apply skip_escape_pos]. }
  destruct (b2z b =? 10). { apply or_break_ok; [by apply add_separator_inv | lia]. }
  destruct (b2z b =? 13). { apply or_break_ok; [by apply add_separator_inv | lia]. }
  destruct (b2z b =? 9). { apply or_break_ok; [by apply add_text_inv | lia]. }
  destruct (existsb _ _). { apply skip_round_ok; [done | apply skip_c1_pos]. }
  destruct (b2z b =? 156). { apply or_break_ok; [by apply drop_control_inv | lia]. }
  destruct ((b2z b <? 32) || in_range 127 (b2z b) 159) eqn:E.
  { apply or_break_ok; [by apply drop_control_inv | lia]. }
  apply orb_false_iff in E as [E1 E2]. bool_to_prop.
  destruct (decode_scalar (b :: l)) as [[oc n]|] eqn:Ed; [| by apply terminal_result_ok].
  destruct (decode_scalar_spec b l oc n Ed) as [Hn Hc]; [done | |].
  { intros Hb. by rewrite Hb in E2. }
  destruct oc as [c|]; [| apply or_break_ok; [by apply drop_control_inv | done]].
  destruct (is_control c) eqn:Ec; (apply or_break_ok; [| done]); [by apply drop_control_inv |].
  apply add_text_inv; [| done]. destruct (Hc c eq_refl) as [H32 H127]. unfold displayable, in_range.
  rewrite Ec. destruct (Z_le_dec 128 c), (Z_le_dec c 159); try lia.
  rewrite c1_control in Ec by lia. done.
Qed.

Lemma sanitize_loop_ok (fuel : nat) : forall st rest,
  san_inv st -> (length rest < fuel)%nat ->
  match sanitize_loop fuel st rest with
  | None => False
  | Some (inl st') => san_inv st'
  | Some (inr r) => result_ok r
  end.
Proof.
  induction fuel as [|n IH]; intros st rest H Hf; [lia |]. cbn [sanitize_loop].
  destruct rest as [|b l]; [done |].
  pose proof (sanitize_round_ok st b l H) as Hr. destruct (sanitize_round st (b :: l)) as [st' k|st'|r]; try done.
  destruct Hr as [Hi Hk]. apply IH; [done |]. rewrite length_drop. cbn [length] in *. lia.
Qed.

Lemma san_inv_start : san_inv (mkSan [] [] 0 [] 0).
Proof. unfold san_inv, good_events, rendered. cbn. by split_and!. Qed.

(** *** Clean text *)

(** Printable: displayable and not a separator or a tab. *)
Definition printable_char (c : Z) : bool :=
  (32 <=? c) && negb (in_range 127 c 159) && negb (is_control c).

(** The decoder reads one printable character from its encoding. *)
Lemma decode_scalar_encode (c : Z) (a l : bytes) :
  utf8_encode1 c = Some a -> 32 <= c -> c < 127 \/ 159 < c ->
  exists b t, a = b :: t /\ (32 <= b2z b < 127 \/ 194 <= b2z b)
    /\ decode_scalar (a ++ l) = Some (Some c, length a).
Proof.
  intros Ha H32 Hc. pose proof (utf8_decode_encode1 c a [] Ha) as Hdec. rewrite app_nil_r in Hdec.
  change (cons c <$> utf8_decode []) with (Some [c]) in Hdec. revert Hdec.
  unfold utf8_encode1, is_surrogate, in_range in Ha.
  destruct ((c <? 0) || (1114111 <? c) || ((55296 <=? c) && (c <=? 57343))) eqn:Hg; [done |].
  apply orb_false_iff in Hg as [[H0 H1]%orb_false_iff Hs%andb_false_iff]. bool_to_prop.
  destruct (base64_digits c H0) as (D0 & R0 & D1 & R1 & D2 & R2 & P).
  repeat match type of Ha with (if ?b then _ else _) = _ => destruct b eqn:?; bool_to_prop end;
    injection Ha as <-; intros Hdec; do 2 eexists; (split; [reflexivity |]);
    rewrite b2z_z2b_small by lia; (split; [lia |]);
    unfold decode_scalar, in_range; cbn [app length Nat.ltb Nat.leb take existsb drop];
    rewrite ?b2z_z2b_small by lia; utf8_tests; cbn [Nat.eqb andb orb]; try done.
  all: cbn [firstn skipn existsb]; rewrite ?b2z_z2b_small by lia; utf8_tests;
    rewrite take_0; cbn [existsb]; rewrite Hdec.
  all: repeat match goal with |- context [if ?b then _ else _] => destruct b eqn:?Hb end; try done; exfalso.
  all: repeat match goal with H : (_ || _) = true |- _ => apply orb_true_iff in H as [H | H] end;
    bool_to_prop; lia.
Qed.

(** Decide the byte tests of a round from the bounds in the context. *)
Ltac eqb_range :=
  unfold in_range; cbn [existsb];
  repeat match goal with
  | |- context [?a =? ?b] =>
      first [ rewrite (proj2 (Z.eqb_eq a b)) by lia | rewrite (proj2 (Z.eqb_neq a b)) by lia ]
  | |- context [(?a <? 32) || ?x] => replace ((a <? 32) || x) with false by lia
  end; cbn [orb].

(** Printable text accumulates in the pending run. *)
Lemma sanitize_loop_clean (s : pystr) : forall raw fuel st,
  utf8_encode s = Some raw -> forallb printable_char s = true -> (length raw < fuel)%nat ->
  s_output_bytes st + text_size s <= MAX_OUTPUT_TEXT_BYTES ->
  exists pb, sanitize_loop fuel st raw
    = Some (inl (mkSan (s_output st) (s_events st) (s_output_bytes st + text_size s) (s_pending st ++ s) pb)).
Proof.
  induction s as [|c s IH]; intros raw fuel st He Hp Hf Hb; (destruct fuel as [|n]; [lia |]).
  - injection He as <-. exists (s_pending_bytes st). cbn. rewrite app_nil_r, Z.add_0_r. by destruct st.
  - cbn [utf8_encode] in He. destruct (utf8_encode1 c) as [a|] eqn:Ea; [| done].
    destruct (utf8_encode s) as [r|] eqn:Er; [| done]. injection He as <-.
    cbn [forallb] in Hp. apply andb_true_iff in Hp as [Hc Hp]. unfold printable_char, in_range in Hc.
    apply andb_true_iff in Hc as [[H32 Hr]%andb_true_iff Hctl]. bool_to_prop.
    apply andb_false_iff in Hr.
    destruct (decode_scalar_encode c a r Ea H32) as (b & t & -> & Hb0 & Hdec).
    { destruct Hr; bool_to_prop; lia. }
    assert (Hsz : char_size c = blen (b :: t)) by (unfold char_size; by rewrite Ea).
    pose proof (text_size_nonneg s). cbn [text_size foldr] in Hb. fold (text_size s) in Hb.
    set (st1 := mkSan (s_output st) (s_events st) (s_output_bytes st + char_size c) (s_pending st ++ [c])
                  (s_pending_bytes st + char_size c)).
    assert (Hround : sanitize_round st ((b :: t) ++ r) = Continue st1 (length (b :: t))).
    { cbn [sanitize_round app]. eqb_range. change (b :: t ++ r) with ((b :: t) ++ r). rewrite Hdec, Hctl.
      unfold or_break, add_text. by replace (MAX_OUTPUT_TEXT_BYTES <? _) with false by lia. }
    cbn [sanitize_loop app]. cbn [app] in Hround. rewrite Hround. change (b :: t ++ r) with ((b :: t) ++ r).
    rewrite drop_app_length. cbn [app length] in Hf. rewrite length_app in Hf.
    destruct (IH r n st1) as [pb Hpb]; [done | done | lia | cbn; lia |]. exists pb. rewrite Hpb.
    cbn [text_size foldr]. fold (text_size s). unfold st1. cbn. by rewrite <- app_assoc, Z.add_assoc.
Qed.

Lemma sanitize_result (raw : pyval) :
  exists r, sanitize_terminal_output raw = Some r /\ result_ok r.
Proof.
  unfold sanitize_terminal_output.
  destruct raw as [| | | | | raw | |]; try (eexists; split; [reflexivity | by apply terminal_result_ok]).
  case_if; [eexists; split; [reflexivity | by apply terminal_result_ok] |].
  pose proof (sanitize_loop_ok (S (length raw)) _ raw san_inv_start ltac:(lia)) as H.
  destruct (sanitize_loop _ _ _) as [[st|r]|]; [| eauto | done].
  destruct (flush_text_inv st H) as ((H1 & H2 & H3 & H4 & H5) & _). eexists. split; [reflexivity |].
  unfold result_ok. cbn [st_events st_text]. pose proof (text_size_nonneg (s_pending (flush_text st).1)).
  apply Forall_app in H5 as [H5 _]. split_and!; [done | lia | done | done].
Qed.

End Sanitize.

(** ** Theorems *)

(** C40: the sanitizer always returns, whatever the input, and what it returns is
    safe to display: at most 24 KiB of UTF-8 text, at most 4096 events, no
    control or escape character in the text other than tab, line feed and
    carriage return, and the text is exactly what the events show. *)
Theorem sanitizer_safe (is_control : Z -> bool) (raw : pyval) :
  (forall c, 128 <= c <= 159 -> is_control c = true) ->
  exists r, sanitize_terminal_output is_control raw = Some r
    /\ text_size (st_text r) <= MAX_OUTPUT_TEXT_BYTES
    /\ blen (st_events r) <= MAX_EVENT_COUNT
    /\ rendered (st_events r) = st_text r
    /\ Forall (fun c => c = 9 \/ c = 10 \/ c = 13
                 \/ (32 <= c /\ ~ (127 <= c <= 159) /\ is_control c = false)) (st_text r).
Proof.
  intros Hc. destruct (sanitize_result is_control Hc raw) as (r & Hr & H1 & H2 & [H3 _] & H4).
  exists r. split_and!; try done. eapply Forall_impl; [exact H4 |]. unfold displayable, in_range. cbn.
  intros c Hd. apply orb_true_iff in Hd as [Hd | Hd].
  - repeat apply orb_true_iff in Hd as [Hd | Hd]; bool_to_prop; auto.
  - do 3 right. apply andb_true_iff in Hd as [[Hd1 Hd2]%andb_true_iff Hd3]. bool_to_prop.
    apply andb_false_iff in Hd2. split_and!; [done | destruct Hd2; bool_to_prop; lia | done].
Qed.

(** Printable text passes through unchanged, as one TEXT event. *)
Theorem sanitizer_clean (is_control : Z -> bool) (s : pystr) (raw : bytes) :
  utf8_encode s = Some raw -> s <> [] -> text_size s <= MAX_OUTPUT_TEXT_BYTES ->
  blen raw <= MAX_INPUT_BYTES -> forallb (printable_char is_control) s = true ->
  sanitize_terminal_output is_control (PBytes raw) = Some (mkSanitized s [mkEvent TEXT s]).
Proof.
  intros He Hne Hsz Hlen Hp. unfold sanitize_terminal_output.
  replace (MAX_INPUT_BYTES <? blen raw) with false by lia.
  destruct (sanitize_loop_clean is_control s raw (S (length raw)) (mkSan [] [] 0 [] 0) He Hp)
    as [pb ->]; [lia | cbn; lia |].
  unfold flush_text, append_event. cbn [s_pending s_events s_output app fst]. by destruct s.
Qed.

(** ** Witnesses *)

(** The controls of the first Unicode block and the soft hyphen. *)
Definition sample_control (c : Z) : bool := (c <? 32) || in_range 127 c 159 || (c =? 173).

Lemma sanitizer_safe_witness :
  exists r, sanitize_terminal_output sample_control
              (PBytes (bstr "ok" ++ [x1b; x5b; x33; x31; x6d] ++ bstr "red" ++ [xc2; x9b])) = Some r
    /\ text_size (st_text r) <= MAX_OUTPUT_TEXT_BYTES.
Proof.
  destruct (sanitizer_safe sample_control
              (PBytes (bstr "ok" ++ [x1b; x5b; x33; x31; x6d] ++ bstr "red" ++ [xc2; x9b])))
    as (r & Hr & Hs & _).
  - intros c Hc. unfold sample_control, in_range. lia.
  - exists r. split; [exact Hr | exact Hs].
Defined.

Lemma sanitizer_clean_witness :
  sanitize_terminal_output sample_control (PBytes (bstr "hello" ++ [xc3; xa9]))
  = Some (mkSanitized ($"hello" ++ [233]) [mkEvent TEXT ($"hello" ++ [233])]).
Proof.
  apply sanitizer_clean; try (vm_compute; reflexivity); try discriminate; vm_compute; discriminate.
Defined.

(** The colour sequence is dropped and recorded. *)
Example sanitizer_drops :
  sanitize_terminal_output sample_control (PBytes (bstr "a" ++ [x1b; x5b; x33; x31; x6d] ++ bstr "b"))
  = Some (mkSanitized $"ab" [mkEvent TEXT $"a"; mkEvent DROPPED_CONTROL []; mkEvent TEXT $"b"]).
Proof. vm_compute. reflexivity. Qed.

(** Text that follows 4096 events is lost, and no event says so: the TRUNCATED
    event is appended to the list that has just refused an event. *)
Example sanitizer_silent_truncation :
  option_map (fun r => (st_text r, existsb (fun e => bool_decide (ev_kind e = TRUNCATED)) (st_events r)))
    (sanitize_terminal_output sample_control (PBytes (repeat x0a 4096 ++ bstr "lost")))
  = Some (repeat 10 4096, false).
Proof. vm_compute. reflexivity. Qed.
