(* ===== verification/InputBudget.v ===== *)
(** * The encoded INPUT byte ledger ([agentbox_api/waw_input_budget.py])

    A budget hands out tokens, mutable objects the callers keep and pass back.
    The token objects live in a heap indexed by address; the dictionary
    [_tokens] maps a serial number to the address of its token, and Python's
    [is] is equality of addresses.  Tokens of other budgets are in the same
    heap.  Identity objects (the budget, the connection) are numbers.  The
    overflow fence is called outside the lock; here a call is an output. *)

From stdpp Require Import functions.
From S2P Require Import Prelude Abws.

Local Open Scope Z_scope.

Definition INPUT_BUDGET_LIMIT : Z := 65536.

Inductive InputBudgetOwner : Type :=
| NATIVE_READY | BROWSER_DELIVERY | RELAY_RUNTIME_PENDING | RUNTIME_SEND_INFLIGHT.

#[export] Instance InputBudgetOwner_eq_dec : EqDecision InputBudgetOwner.
Proof. solve_decision. Defined.

Definition all_owners : list InputBudgetOwner :=
  [NATIVE_READY; BROWSER_DELIVERY; RELAY_RUNTIME_PENDING; RUNTIME_SEND_INFLIGHT].

Definition budget_error : exn := err InputBudgetError "WAW INPUT budget violation".
Definition budget_overflow : exn := err InputBudgetOverflow "WAW INPUT budget violation".

Record InputBudgetToken : Type := mkToken {
  t_budget_id : Z;
  t_connection_id : Z;
  t_attachment_id : pystr;
  t_runtime_epoch : pystr;
  t_serial : Z;
  t_size : Z;
  t_owner : InputBudgetOwner;
  t_live : bool
}.

Definition set_owner (t : InputBudgetToken) (o : InputBudgetOwner) : InputBudgetToken :=
  mkToken (t_budget_id t) (t_connection_id t) (t_attachment_id t) (t_runtime_epoch t) (t_serial t)
    (t_size t) o (t_live t).
Definition kill (t : InputBudgetToken) : InputBudgetToken :=
  mkToken (t_budget_id t) (t_connection_id t) (t_attachment_id t) (t_runtime_epoch t) (t_serial t)
    (t_size t) (t_owner t) false.

(** [is_encoded_input]: the kind byte of an encoded frame *)
Definition is_encoded_input (raw : bytes) : bool :=
  (6 <=? blen raw) && match zget raw 5 with Some b => b2z b =? frame_code INPUT | None => false end.

Record InputBudget : Type := mkBudget {
  heap : gmap Z InputBudgetToken;
  budget_id : Z;
  connection_id : Z;
  attachment_id : pystr;
  runtime_epoch : pystr;
  tokens : gmap Z Z;
  owner_bytes : InputBudgetOwner -> Z;
  reserved_bytes : Z;
  serial : Z;
  closed : bool;
  overflowed : bool;
  overflow_fence : option Z;
  peak_bytes : Z
}.

(** [InputBudget(connection_id=..., ...)], allocating the identity [bid] *)
Definition new_budget (h : gmap Z InputBudgetToken) (bid : Z) (conn : option Z) (att epoch : pystr)
  : result InputBudget :=
  match conn with
  | None => Raise budget_error
  | Some c =>
      run! raise_if (Nat.eqb (length att) 0 || Nat.eqb (length epoch) 0) budget_error in
      Ok (mkBudget h bid c att epoch ∅ (fun _ => 0) 0 0 false false None 0)
  end.

Definition live_count (s : InputBudget) : Z := Z.of_nat (size (tokens s)).

Definition assert_identity (s : InputBudget) (conn : Z) (att epoch : pystr) : result unit :=
  raise_if (negb (conn =? connection_id s) || negb (str_eqb att (attachment_id s))
            || negb (str_eqb epoch (runtime_epoch s))) budget_error.

Definition install_overflow_fence (s : InputBudget) (fence : Z) : result InputBudget :=
  run! raise_if (closed s || match overflow_fence s with Some _ => true | None => false end) budget_error in
  Ok (mkBudget (heap s) (budget_id s) (connection_id s) (attachment_id s) (runtime_epoch s) (tokens s)
        (owner_bytes s) (reserved_bytes s) (serial s) (closed s) (overflowed s) (Some fence) (peak_bytes s)).

Definition matches (s : InputBudget) (t : InputBudgetToken) : bool :=
  (t_budget_id t =? budget_id s) && (t_connection_id t =? connection_id s)
  && str_eqb (t_attachment_id t) (attachment_id s) && str_eqb (t_runtime_epoch t) (runtime_epoch s).

(** The token object at an address, when the caller passes a token at all. *)
Definition validate (s : InputBudget) (addr : Z) (owner : InputBudgetOwner) : result InputBudgetToken :=
  match heap s !! addr with
  | None => Raise budget_error
  | Some t =>
      run! raise_if (negb (matches s t) || negb (t_live t) || negb (bool_decide (t_owner t = owner))
                     || negb (bool_decide (tokens s !! t_serial t = Some addr))) budget_error in
      Ok t
  end.

(** The tokens in the dictionary, by serial number. *)
Definition ledger (s : InputBudget) : gmap Z InputBudgetToken :=
  omap (fun a => heap s !! a) (tokens s).

Definition total (f : InputBudgetToken -> Z) (m : gmap Z InputBudgetToken) : Z :=
  map_fold (fun _ t acc => f t + acc) 0 m.

Definition owner_sum (s : InputBudget) : Z := foldr (fun o acc => owner_bytes s o + acc) 0 all_owners.

Definition check_invariant (s : InputBudget) : result unit :=
  raise_if ((reserved_bytes s <? 0) || (INPUT_BUDGET_LIMIT <? reserved_bytes s)
            || existsb (fun o => owner_bytes s o <? 0) all_owners
            || negb (owner_sum s =? reserved_bytes s)
            || negb (total t_size (ledger s) =? reserved_bytes s)) budget_error.

(** The state, the token's address or the exception, and the fences called. *)
Definition reserve_native (s : InputBudget) (size addr : Z) : InputBudget * result Z * list Z :=
  if closed s || overflowed s || negb (in_range 1 size INPUT_BUDGET_LIMIT) then (s, Raise budget_error, [])
  else if INPUT_BUDGET_LIMIT <? reserved_bytes s + size then
    (mkBudget (heap s) (budget_id s) (connection_id s) (attachment_id s) (runtime_epoch s) (tokens s)
       (owner_bytes s) (reserved_bytes s) (serial s) (closed s) true (overflow_fence s) (peak_bytes s),
     Raise budget_overflow, match overflow_fence s with Some f => [f] | None => [] end)
  else
    let n := serial s + 1 in
    let t := mkToken (budget_id s) (connection_id s) (attachment_id s) (runtime_epoch s) n size NATIVE_READY true in
    let reserved := reserved_bytes s + size in
    (mkBudget (<[addr := t]> (heap s)) (budget_id s) (connection_id s) (attachment_id s) (runtime_epoch s)
       (<[n := addr]> (tokens s)) (<[NATIVE_READY := owner_bytes s NATIVE_READY + size]> (owner_bytes s))
       reserved n (closed s) (overflowed s) (overflow_fence s) (Z.max (peak_bytes s) reserved),
     Ok addr, []).

Definition with_owner_bytes (s : InputBudget) (h : gmap Z InputBudgetToken) (tk : gmap Z Z)
    (ob : InputBudgetOwner -> Z) (reserved : Z) : InputBudget :=
  mkBudget h (budget_id s) (connection_id s) (attachment_id s) (runtime_epoch s) tk ob reserved (serial s)
    (closed s) (overflowed s) (overflow_fence s) (peak_bytes s).

(** The result beside the state: the mutations stay when the final check raises. *)
Definition transfer (s : InputBudget) (addr : Z) (source target : InputBudgetOwner)
  : InputBudget * result unit :=
  if bool_decide (source = target) then (s, Raise budget_error)
  else
    match validate s addr source with
    | Raise e => (s, Raise e)
    | Ok t =>
        let ob := <[source := owner_bytes s source - t_size t]> (owner_bytes s) in
        let s' := with_owner_bytes s (<[addr := set_owner t target]> (heap s)) (tokens s)
                    (<[target := ob target + t_size t]> ob) (reserved_bytes s) in
        (s', check_invariant s')
    end.

Definition release (s : InputBudget) (addr : Z) (owner : InputBudgetOwner) : InputBudget * result bool :=
  match heap s !! addr with
  | None => (s, Ok false)
  | Some t =>
      if negb (matches s t) || negb (t_live t) || negb (bool_decide (t_owner t = owner)) then (s, Ok false)
      else if negb (bool_decide (tokens s !! t_serial t = Some addr)) then (s, Ok false)
      else
        let s' := with_owner_bytes s (<[addr := kill t]> (heap s)) (delete (t_serial t) (tokens s))
                    (<[owner := owner_bytes s owner - t_size t]> (owner_bytes s)) (reserved_bytes s - t_size t) in
        (s', let! _u := check_invariant s' in Ok true)
  end.

(** [for token in self._tokens.values(): token._live = False] *)
Definition kill_all (h : gmap Z InputBudgetToken) (addrs : list Z) : gmap Z InputBudgetToken :=
  foldr (fun a h => alter kill a h) h addrs.

Definition close (s : InputBudget) : InputBudget :=
  if closed s then s
  else
    mkBudget (kill_all (heap s) (map snd (map_to_list (tokens s)))) (budget_id s) (connection_id s)
      (attachment_id s) (runtime_epoch s) ∅ (fun _ => 0) 0 (serial s) true (overflowed s) None (peak_bytes s).

(** ** Executions *)

(** One operation of a client, or any change other code makes to token objects
    that are not in this budget's dictionary.  A new token is a new object. *)
Inductive budget_step : InputBudget -> InputBudget -> Prop :=
| step_reserve s size addr : heap s !! addr = None -> budget_step s (reserve_native s size addr).1.1
| step_transfer s addr o o' : budget_step s (transfer s addr o o').1
| step_release s addr o : budget_step s (release s addr o).1
| step_install s fence s' : install_overflow_fence s fence = Ok s' -> budget_step s s'
| step_close s : budget_step s (close s)
| step_foreign s h :
    (forall n a, tokens s !! n = Some a -> h !! a = heap s !! a) ->
    budget_step s (with_owner_bytes s h (tokens s) (owner_bytes s) (reserved_bytes s)).

Inductive budget_reaches : InputBudget -> Prop :=
| budget_new h bid conn att epoch s : new_budget h bid conn att epoch = Ok s -> budget_reaches s
| budget_next s s' : budget_reaches s -> budget_step s s' -> budget_reaches s'.

(** ** The invariant *)

Definition owned (o : InputBudgetOwner) (t : InputBudgetToken) : Z :=
  if bool_decide (t_owner t = o) then t_size t else 0.

Record wf (s : InputBudget) : Prop := mkWf {
  wf_tokens : forall n a, tokens s !! n = Some a ->
    exists t, heap s !! a = Some t /\ t_serial t = n /\ t_live t = true /\ matches s t = true /\ 1 <= t_size t;
  wf_serial : forall n a, tokens s !! n = Some a -> n <= serial s;
  wf_reserved : reserved_bytes s = total t_size (ledger s);
  wf_owners : forall o, owner_bytes s o = total (owned o) (ledger s);
  wf_limit : reserved_bytes s <= INPUT_BUDGET_LIMIT;
  wf_peak : reserved_bytes s <= peak_bytes s <= INPUT_BUDGET_LIMIT;
  wf_closed : closed s = true -> tokens s = ∅
}.

(** ** Lemmas *)

Section Totals.
Variable f : InputBudgetToken -> Z.

Lemma total_insert (m : gmap Z InputBudgetToken) (n : Z) (t : InputBudgetToken) :
  m !! n = None -> total f (<[n := t]> m) = f t + total f m.
Proof. intros H. unfold total. rewrite map_fold_insert_L; [done | intros; lia | done]. Qed.

Lemma total_delete (m : gmap Z InputBudgetToken) (n : Z) (t : InputBudgetToken) :
  m !! n = Some t -> total f (delete n m) = total f m - f t.
Proof.
  intros H. rewrite <- (insert_delete_id m n t H) at 2.
  rewrite total_insert by apply lookup_delete_eq. lia.
Qed.

Lemma total_update (m : gmap Z InputBudgetToken) (n : Z) (t t' : InputBudgetToken) :
  m !! n = Some t -> total f (<[n := t']> m) = total f m - f t + f t'.
Proof.
  intros H. rewrite <- insert_delete_eq, total_insert by apply lookup_delete_eq.
  rewrite (total_delete m n t H). lia.
Qed.

Lemma total_nonneg (m : gmap Z InputBudgetToken) :
  (forall n t, m !! n = Some t -> 0 <= f t) -> 0 <= total f m.
Proof.
  induction m as [|n t m Hn IH] using map_ind; intros H; [done |]. rewrite total_insert by done.
  assert (0 <= f t) by (apply (H n); apply lookup_insert_eq).
  assert (0 <= total f m); [| lia]. apply IH. intros k u Hk. apply (H k).
  rewrite lookup_insert_ne; [done |]. intros ->. congruence.
Qed.

End Totals.

(** Every token has one of the four owners. *)
Lemma total_by_owner (m : gmap Z InputBudgetToken) :
  foldr (fun o acc => total (owned o) m + acc) 0 all_owners = total t_size m.
Proof.
  induction m as [|n t m Hn IH] using map_ind; [done |]. cbn [foldr all_owners] in *.
  assert (Ht : owned NATIVE_READY t + owned BROWSER_DELIVERY t + owned RELAY_RUNTIME_PENDING t
               + owned RUNTIME_SEND_INFLIGHT t = t_size t) by (unfold owned; destruct (t_owner t); repeat case_bool_decide; try done; lia).
  rewrite !total_insert by done. lia.
Qed.

Lemma matches_intro (s s' : InputBudget) (t : InputBudgetToken) :
  budget_id s' = budget_id s -> connection_id s' = connection_id s -> attachment_id s' = attachment_id s ->
  runtime_epoch s' = runtime_epoch s -> matches s' t = matches s t.
Proof. unfold matches. by intros -> -> -> ->. Qed.

Lemma lookup_ledger (s : InputBudget) (n : Z) : ledger s !! n = tokens s !! n ≫= (fun a => heap s !! a).
Proof. apply lookup_omap. Qed.

(** The token of a valid address is the only one the dictionary has there. *)
Lemma wf_unique (s : InputBudget) (n m a : Z) : wf s -> tokens s !! n = Some a -> tokens s !! m = Some a -> n = m.
Proof.
  intros H Hn Hm. destruct (wf_tokens s H n a Hn) as (t & Ht & <- & _).
  destruct (wf_tokens s H m a Hm) as (t' & Ht' & <- & _). congruence.
Qed.

(** Writing a token object changes its ledger entry only. *)
Lemma ledger_write (s : InputBudget) (a : Z) (t t' : InputBudgetToken) (ob : InputBudgetOwner -> Z) (r : Z) :
  wf s -> heap s !! a = Some t -> tokens s !! t_serial t = Some a ->
  ledger (with_owner_bytes s (<[a := t']> (heap s)) (tokens s) ob r) = <[t_serial t := t']> (ledger s).
Proof.
  intros H Ha Ht. apply map_eq. intros n. rewrite lookup_ledger. cbn [tokens heap with_owner_bytes].
  destruct (decide (n = t_serial t)) as [-> | Hn].
  - rewrite Ht, lookup_insert_eq. cbn. by rewrite lookup_insert_eq.
  - rewrite lookup_insert_ne, lookup_ledger by done. destruct (tokens s !! n) as [b|] eqn:E; [| done]. cbn.
    rewrite lookup_insert_ne; [done |]. intros ->. apply Hn. by eapply (wf_unique s).
Qed.

Lemma ledger_remove (s : InputBudget) (a : Z) (t t' : InputBudgetToken) (ob : InputBudgetOwner -> Z) (r : Z) :
  wf s -> heap s !! a = Some t -> tokens s !! t_serial t = Some a ->
  ledger (with_owner_bytes s (<[a := t']> (heap s)) (delete (t_serial t) (tokens s)) ob r)
  = delete (t_serial t) (ledger s).
Proof.
  intros H Ha Ht. apply map_eq. intros n. rewrite lookup_ledger. cbn [tokens heap with_owner_bytes].
  destruct (decide (n = t_serial t)) as [-> | Hn].
  - by rewrite !lookup_delete_eq.
  - rewrite !lookup_delete_ne, lookup_ledger by done. destruct (tokens s !! n) as [b|] eqn:E; [| done]. cbn.
    rewrite lookup_insert_ne; [done |]. intros ->. apply Hn. by eapply (wf_unique s).
Qed.

Lemma ledger_entry (s : InputBudget) (a : Z) (t : InputBudgetToken) :
  heap s !! a = Some t -> tokens s !! t_serial t = Some a -> ledger s !! t_serial t = Some t.
Proof. intros Ha Ht. by rewrite lookup_ledger, Ht. Qed.

Lemma ledger_positive (s : InputBudget) (n : Z) (t : InputBudgetToken) :
  wf s -> ledger s !! n = Some t -> 1 <= t_size t.
Proof.
  intros H. rewrite lookup_ledger. destruct (tokens s !! n) as [a|] eqn:E; [| done]. cbn. intros Ht.
  destruct (wf_tokens s H n a E) as (t' & Ht' & _ & _ & _ & Hs). congruence.
Qed.

(** A well-formed budget passes its own check. *)
Lemma check_invariant_ok (s : InputBudget) : wf s -> check_invariant s = Ok tt.
Proof.
  intros H. unfold check_invariant, owner_sum.
  assert (Hpos : forall o, 0 <= owner_bytes s o).
  { intros o. rewrite (wf_owners s H). apply total_nonneg. intros n t Ht. unfold owned. case_bool_decide; [| done].
    pose proof (ledger_positive s n t H Ht). lia. }
  assert (Hsum : foldr (fun o acc => owner_bytes s o + acc) 0 all_owners = reserved_bytes s).
  { cbn [foldr all_owners]. rewrite !(wf_owners s H), (wf_reserved s H), <- total_by_owner. done. }
  rewrite Hsum, <- (wf_reserved s H), Z.eqb_refl. cbn [existsb all_owners negb orb].
  pose proof (wf_limit s H). cbn [foldr all_owners] in Hsum.
  pose proof (Hpos NATIVE_READY). pose proof (Hpos BROWSER_DELIVERY).
  pose proof (Hpos RELAY_RUNTIME_PENDING). pose proof (Hpos RUNTIME_SEND_INFLIGHT).
  replace (reserved_bytes s <? 0) with false by lia.
  replace (INPUT_BUDGET_LIMIT <? reserved_bytes s) with false by lia.
  by repeat (rewrite (proj2 (Z.ltb_ge _ _)) by lia).
Qed.

(** *** Each operation preserves the invariant *)

Lemma wf_reserve (s : InputBudget) (size addr : Z) :
  wf s -> heap s !! addr = None -> wf (reserve_native s size addr).1.1.
Proof.
  intros H Ha. unfold reserve_native. destruct (closed s || overflowed s || _) eqn:G; [done |].
  apply orb_false_iff in G as [[Gc Go]%orb_false_iff Gs]. unfold in_range in Gs. bool_to_prop.
  case_if; [cbn [fst]; by destruct H; constructor | bool_to_prop; cbn [fst]].
  set (t := mkToken _ _ _ _ _ _ _ _). set (n := serial s + 1) in *.
  assert (Hn : tokens s !! n = None).
  { destruct (tokens s !! n) as [b|] eqn:En; [| done]. pose proof (wf_serial s H n b En). lia. }
  assert (Hne : forall m b, tokens s !! m = Some b -> b <> addr).
  { intros m b Hm ->. destruct (wf_tokens s H m addr Hm) as (u & Hu & _). congruence. }
  match goal with |- wf ?x => assert (Hl : ledger x = <[n := t]> (ledger s)) end.
  { apply map_eq. intros m. rewrite lookup_ledger. cbn [tokens heap].
    destruct (decide (m = n)) as [-> | Hm]; [rewrite !lookup_insert_eq; cbn; by rewrite lookup_insert_eq |].
    rewrite !lookup_insert_ne, lookup_ledger by done. destruct (tokens s !! m) as [b|] eqn:Em; [| done]. cbn.
    rewrite lookup_insert_ne; [done |]. intros <-. exact (Hne m _ Em eq_refl). }
  assert (Hln : ledger s !! n = None) by (by rewrite lookup_ledger, Hn).
  constructor; cbn [tokens heap serial reserved_bytes owner_bytes closed peak_bytes].
  - intros m b [[<- <-] | [Hm Hb]]%lookup_insert_Some.
    + exists t. rewrite lookup_insert_eq. split_and!; try done.
      unfold matches. cbn. by rewrite !Z.eqb_refl, !str_eqb_refl.
    + destruct (wf_tokens s H m b Hb) as (u & Hu & ?). exists u.
      rewrite lookup_insert_ne; [done |]. intros <-. exact (Hne m _ Hb eq_refl).
  - intros m b [[<- <-] | [Hm Hb]]%lookup_insert_Some; [lia |]. pose proof (wf_serial s H m b Hb). lia.
  - rewrite Hl, total_insert, (wf_reserved s H) by done. cbn. lia.
  - intros o. rewrite Hl, total_insert by done. unfold owned at 1. cbn [t_owner t_size t].
    destruct (decide (NATIVE_READY = o)) as [<- | Ho].
    + rewrite fn_lookup_insert, bool_decide_eq_true_2, (wf_owners s H) by done. lia.
    + rewrite fn_lookup_insert_ne, bool_decide_eq_false_2, (wf_owners s H) by done. lia.
  - lia.
  - pose proof (wf_peak s H). lia.
  - congruence.
Qed.

Lemma validate_ok (s : InputBudget) (addr : Z) (o : InputBudgetOwner) (t : InputBudgetToken) :
  validate s addr o = Ok t <->
  heap s !! addr = Some t /\ matches s t = true /\ t_live t = true /\ t_owner t = o
  /\ tokens s !! t_serial t = Some addr.
Proof.
  unfold validate. destruct (heap s !! addr) as [u|]; [| split; [done | by intros [? _]]].
  destruct (matches s u) eqn:Em, (t_live u) eqn:El; cbn [negb orb];
    try (split; [done | intros ([= ->] & ? & ? & _); congruence]).
  do 2 case_bool_decide; cbn [negb orb raise_if rbind]; split; intros Hx;
    try done; try (destruct Hx as ([= ->] & _ & _ & ? & ?); congruence).
  by injection Hx as <-.
Qed.

Lemma wf_transfer (s : InputBudget) (addr : Z) (o o' : InputBudgetOwner) :
  wf s -> wf (transfer s addr o o').1.
Proof.
  intros H. unfold transfer. case_bool_decide as Ho; [done |].
  destruct (validate s addr o) as [t|] eqn:E; [| done]. apply validate_ok in E as (Ha & Hm & Hlv & <- & Ht).
  cbn [fst]. set (u := set_owner t o').
  pose proof (ledger_entry s addr t Ha Ht) as He.
  constructor; cbn [tokens heap serial reserved_bytes owner_bytes closed peak_bytes with_owner_bytes].
  - intros m b Hb. destruct (wf_tokens s H m b Hb) as (v & Hv & ?). destruct (decide (b = addr)) as [-> | Hne].
    + exists u. rewrite lookup_insert_eq. assert (v = t) as -> by congruence. done.
    + exists v. by rewrite lookup_insert_ne.
  - apply (wf_serial s H).
  - rewrite (ledger_write s addr t u), (total_update _ _ _ t u) by done. rewrite (wf_reserved s H). cbn. lia.
  - intros x. rewrite (ledger_write s addr t u), (total_update _ _ _ t u), <- (wf_owners s H x) by done.
    unfold owned. cbn [t_owner t_size u set_owner].
    destruct (decide (o' = x)) as [<- | Hx].
    + rewrite fn_lookup_insert, fn_lookup_insert_ne by done.
      rewrite bool_decide_eq_false_2, bool_decide_eq_true_2 by done. lia.
    + rewrite fn_lookup_insert_ne by done. rewrite (bool_decide_eq_false_2 (o' = x)) by done.
      case_bool_decide as Hx2; [subst x; rewrite fn_lookup_insert; lia | rewrite fn_lookup_insert_ne by done; lia].
  - apply (wf_limit s H).
  - apply (wf_peak s H).
  - apply (wf_closed s H).
Qed.

Lemma wf_release (s : InputBudget) (addr : Z) (o : InputBudgetOwner) : wf s -> wf (release s addr o).1.
Proof.
  intros H. unfold release. destruct (heap s !! addr) as [t|] eqn:Ha; [| done].
  case_if; [done |]. destruct (bool_decide (tokens s !! t_serial t = Some addr)) eqn:Ht; cbn [negb]; [| done].
  bool_to_prop. subst o. cbn [fst].
  pose proof (ledger_entry s addr t Ha Ht) as He. pose proof (ledger_positive s _ _ H He).
  constructor; cbn [tokens heap serial reserved_bytes owner_bytes closed peak_bytes with_owner_bytes].
  - intros m b [Hm Hb]%lookup_delete_Some. destruct (wf_tokens s H m b Hb) as (v & Hv & ?).
    exists v. rewrite lookup_insert_ne; [done |]. intros <-. apply Hm. by eapply (wf_unique s).
  - intros m b [_ Hb]%lookup_delete_Some. by eapply (wf_serial s H).
  - rewrite (ledger_remove s addr t), (total_delete _ _ _ t), (wf_reserved s H) by done. done.
  - intros x. rewrite (ledger_remove s addr t), (total_delete _ _ _ t), <- (wf_owners s H x) by done.
    unfold owned. case_bool_decide as Hx;
      [subst x; by rewrite fn_lookup_insert | rewrite fn_lookup_insert_ne by done; lia].
  - pose proof (wf_limit s H). lia.
  - pose proof (wf_peak s H). lia.
  - intros Hc. rewrite (wf_closed s H Hc). apply delete_empty.
Qed.

Lemma wf_empty (s : InputBudget) :
  tokens s = ∅ -> reserved_bytes s = 0 -> (forall o, owner_bytes s o = 0) ->
  0 <= peak_bytes s <= INPUT_BUDGET_LIMIT -> wf s.
Proof.
  intros Ht Hr Ho Hp.
  assert (Hl : ledger s = ∅) by (unfold ledger; rewrite Ht; apply omap_empty).
  constructor; rewrite ?Ht, ?Hl; try done.
  - by rewrite Hr.
  - by rewrite Hr.
Qed.

Lemma reserved_nonneg (s : InputBudget) : wf s -> 0 <= reserved_bytes s.
Proof.
  intros H. rewrite (wf_reserved s H). apply total_nonneg. intros n t Ht.
  pose proof (ledger_positive s n t H Ht). lia.
Qed.

Lemma wf_step (s s' : InputBudget) : wf s -> budget_step s s' -> wf s'.
Proof.
  intros H Hs. destruct Hs as [s size addr Ha | s addr o o' | s addr o | s fence s' Hi | s | s h Hh].
  - by apply wf_reserve.
  - by apply wf_transfer.
  - by apply wf_release.
  - unfold install_overflow_fence in Hi. inv_ok. destruct H. by constructor.
  - unfold close. case_if; [done |]. pose proof (wf_peak s H). pose proof (reserved_nonneg s H).
    apply wf_empty; try done. cbn. lia.
  - assert (Hl : ledger (with_owner_bytes s h (tokens s) (owner_bytes s) (reserved_bytes s)) = ledger s).
    { apply map_eq. intros n. rewrite !lookup_ledger. cbn. destruct (tokens s !! n) as [a|] eqn:E; [| done].
      cbn. by eapply Hh. }
    destruct H as [Ht ? Hr Ho ? ? ?]. constructor; try done.
    + intros n a Hn. destruct (Ht n a Hn) as (t & Hta & ?). exists t. cbn. rewrite (Hh n a Hn). done.
    + by rewrite Hl.
    + intros o. by rewrite Hl, <- Ho.
Qed.

Lemma reaches_wf (s : InputBudget) : budget_reaches s -> wf s.
Proof.
  induction 1 as [h bid conn att epoch s H | s s' _ IH Hs]; [| by eapply wf_step].
  unfold new_budget in H. destruct conn; [| done]. inv_ok. by apply wf_empty.
Qed.

Lemma overflowed_step (s s' : InputBudget) :
  overflowed s = true -> budget_step s s' -> overflowed s' = true.
Proof.
  intros H Hs. destruct Hs as [s size addr Ha | s addr o o' | s addr o | s fence s' Hi | s | s h Hh].
  - unfold reserve_native. rewrite H, orb_true_r. done.
  - unfold transfer. case_bool_decide; [done |]. by destruct (validate s addr o).
  - unfold release. destruct (heap s !! addr); [| done]. repeat case_if; done.
  - unfold install_overflow_fence in Hi. by inv_ok.
  - unfold close. by case_if.
  - done.
Qed.

Lemma release_invalid (s : InputBudget) (addr : Z) (o : InputBudgetOwner) (e : exn) :
  validate s addr o = Raise e -> release s addr o = (s, Ok false).
Proof.
  unfold validate, release. destruct (heap s !! addr) as [t|]; [| done].
  destruct (negb (matches s t) || negb (t_live t) || _) eqn:E; [done |]. cbn [orb].
  by destruct (bool_decide (tokens s !! t_serial t = Some addr)).
Qed.

(** ** Theorems *)

(** The ledger is exact in every reachable state: the reserved bytes are the
    sizes of the outstanding tokens, each owner's bytes those of the tokens it
    holds, the total never exceeds 64 KiB, and neither did the recorded peak. *)
Theorem budget_accounting (s : InputBudget) :
  budget_reaches s ->
  reserved_bytes s = total t_size (ledger s)
  /\ (forall o, owner_bytes s o = total (owned o) (ledger s))
  /\ 0 <= reserved_bytes s <= INPUT_BUDGET_LIMIT
  /\ reserved_bytes s <= peak_bytes s <= INPUT_BUDGET_LIMIT.
Proof.
  intros H%reaches_wf. pose proof (reserved_nonneg s H).
  split_and!; try apply H; done.
Qed.

(** Credit is conserved and released once.  In a reachable state, moving a
    valid token between two owners succeeds and leaves the total alone; giving
    a valid token back succeeds, returns exactly its size and kills it, so that
    a second release, under any owner, does nothing; releasing anything that is
    not a valid token of that owner does nothing.  The self-check after each
    operation never fails. *)
Theorem budget_conservation (s : InputBudget) (addr : Z) (o : InputBudgetOwner) :
  budget_reaches s ->
  match validate s addr o with
  | Ok t =>
      (forall o', o <> o' -> exists s', transfer s addr o o' = (s', Ok tt)
         /\ reserved_bytes s' = reserved_bytes s
         /\ owner_bytes s' o = owner_bytes s o - t_size t
         /\ owner_bytes s' o' = owner_bytes s o' + t_size t)
      /\ exists s', release s addr o = (s', Ok true) /\ reserved_bytes s' = reserved_bytes s - t_size t
         /\ forall o2, release s' addr o2 = (s', Ok false)
  | Raise _ => release s addr o = (s, Ok false)
  end.
Proof.
  intros H%reaches_wf. destruct (validate s addr o) as [t|e] eqn:E; [| by eapply release_invalid]. split.
  - intros o' Ho. pose proof (wf_transfer s addr o o' H) as Hw. unfold transfer in Hw |- *.
    rewrite bool_decide_eq_false_2, E in Hw |- * by done. eexists. split; [by rewrite check_invariant_ok |].
    cbn. split_and!; [done | |].
    + rewrite fn_lookup_insert_ne, fn_lookup_insert by done. done.
    + rewrite fn_lookup_insert, fn_lookup_insert_ne by done. done.
  - pose proof (wf_release s addr o H) as Hw. apply validate_ok in E as (Ha & Hm & Hl & Ho & Ht).
    unfold release in Hw |- *. rewrite Ha, Hm, Hl in Hw |- *. rewrite !bool_decide_eq_true_2 in Hw |- * by done.
    cbn [negb orb] in Hw |- *. eexists. split; [rewrite check_invariant_ok by done; reflexivity |].
    split; [done |]. intros o2. cbn [heap with_owner_bytes]. rewrite lookup_insert_eq. cbn [t_live kill].
    by rewrite orb_true_r.
Qed.

(** An overflow or a close is final.  A reservation that would exceed the
    limit changes no credit, calls the installed fence and raises the overflow;
    in every later state no reservation succeeds and no fence is called again.
    After [close] nothing is reserved and no token can be released. *)
Theorem budget_final (s : InputBudget) (size addr : Z) :
  budget_reaches s ->
  (forall s' calls, reserve_native s size addr = (s', Raise budget_overflow, calls) ->
     reserved_bytes s' = reserved_bytes s /\ calls = option_list (overflow_fence s)
     /\ forall s2 size2 addr2, rtc budget_step s' s2 ->
          reserve_native s2 size2 addr2 = (s2, Raise budget_error, []))
  /\ reserved_bytes (close s) = 0
  /\ reserve_native (close s) size addr = (close s, Raise budget_error, [])
  /\ forall a o, release (close s) a o = (close s, Ok false).
Proof.
  intros H%reaches_wf. split_and!.
  - intros s' calls. unfold reserve_native. case_if; [done |]. case_if; [| done]. intros [= <- <-].
    split_and!; [done | by destruct (overflow_fence s) |]. intros s2 size2 addr2 Hs.
    assert (Ho : overflowed s2 = true).
    { remember (mkBudget _ _ _ _ _ _ _ _ _ _ _ _ _) as s1 eqn:E1.
      assert (overflowed s1 = true) as H1 by (by rewrite E1). clear E1.
      induction Hs as [x | x y z Hxy _ IH]; [done |]. apply IH. by eapply overflowed_step. }
    by rewrite Ho, orb_true_r.
  - unfold close. case_if; [| done]. rewrite (wf_reserved s H). unfold ledger.
    rewrite (wf_closed s H E). by rewrite omap_empty.
  - assert (Hc : closed (close s) = true) by (unfold close; by case_if).
    unfold reserve_native. by rewrite Hc.
  - intros a o. eapply (release_invalid _ _ _ budget_error). unfold validate.
    assert (Ht : tokens (close s) = ∅) by (unfold close; case_if; [by apply (wf_closed s H) | done]).
    rewrite Ht. destruct (heap (close s) !! a) as [t|]; [| done].
    rewrite lookup_empty, (bool_decide_eq_false_2 (None = Some a)) by done. by rewrite !orb_true_r.
Qed.

(** ** Witnesses *)

Definition sample_budget : InputBudget :=
  mkBudget ∅ 1 2 $"att" $"7" ∅ (fun _ => 0) 0 0 false false None 0.

Lemma sample_budget_reaches : budget_reaches sample_budget.
Proof. by apply (budget_new ∅ 1 (Some 2) $"att" $"7"). Qed.

(** After a reservation of 40000 bytes at address 10. *)
Definition sample_reserved : InputBudget := (reserve_native sample_budget 40000 10).1.1.

Lemma sample_reserved_reaches : budget_reaches sample_reserved.
Proof. eapply budget_next; [exact sample_budget_reaches | by apply step_reserve]. Qed.

Lemma budget_accounting_witness : reserved_bytes sample_reserved = total t_size (ledger sample_reserved).
Proof. exact (proj1 (budget_accounting sample_reserved sample_reserved_reaches)). Defined.

Lemma budget_conservation_witness :
  exists s', release sample_reserved 10 NATIVE_READY = (s', Ok true) /\ reserved_bytes s' = 40000 - 40000.
Proof.
  pose proof (budget_conservation sample_reserved 10 NATIVE_READY sample_reserved_reaches) as H.
  destruct H as (_ & s' & Hr & Hb & _). exists s'. split; [exact Hr | exact Hb].
Defined.

Lemma budget_final_witness :
  reserved_bytes (close sample_reserved) = 0
  /\ (reserve_native sample_reserved 30000 11).1.2 = Raise budget_overflow.
Proof.
  split; [exact (proj1 (proj2 (budget_final sample_reserved 1 11 sample_reserved_reaches))) |].
  vm_compute. reflexivity.
Defined.
