(* ===== verification/Sha256.v ===== *)
(** * SHA-256 and HMAC ([hashlib.sha256], [hmac.new], [bytes.hex])

    The Standard Library digests the code calls, written out on 32-bit words
    (integers kept below 2^32) so that identifiers and keyed digests are
    computed, not assumed. *)

From S2P Require Import Prelude PyVal.

Local Open Scope Z_scope.

Definition W32 : Z := 2 ^ 32.
Definition add32 (a b : Z) : Z := (a + b) mod W32.
Definition rotr (n x : Z) : Z := Z.lor (Z.shiftr x n) (Z.shiftl x (32 - n) mod W32).
Definition not32 (x : Z) : Z := W32 - 1 - x.

Definition ch (x y z : Z) : Z := Z.lxor (Z.land x y) (Z.land (not32 x) z).
Definition maj (x y z : Z) : Z := Z.lxor (Z.lxor (Z.land x y) (Z.land x z)) (Z.land y z).
Definition big0 (x : Z) : Z := Z.lxor (Z.lxor (rotr 2 x) (rotr 13 x)) (rotr 22 x).
Definition big1 (x : Z) : Z := Z.lxor (Z.lxor (rotr 6 x) (rotr 11 x)) (rotr 25 x).
Definition small0 (x : Z) : Z := Z.lxor (Z.lxor (rotr 7 x) (rotr 18 x)) (Z.shiftr x 3).
Definition small1 (x : Z) : Z := Z.lxor (Z.lxor (rotr 17 x) (rotr 19 x)) (Z.shiftr x 10).

(** The fractional parts of the cube roots of the first 64 primes, and of the
    square roots of the first eight. *)
Definition round_constants : list Z :=
  [1116352408; 1899447441; 3049323471; 3921009573; 961987163; 1508970993; 2453635748; 2870763221;
   3624381080; 310598401; 607225278; 1426881987; 1925078388; 2162078206; 2614888103; 3248222580;
   3835390401; 4022224774; 264347078; 604807628; 770255983; 1249150122; 1555081692; 1996064986;
   2554220882; 2821834349; 2952996808; 3210313671; 3336571891; 3584528711; 113926993; 338241895;
   666307205; 773529912; 1294757372; 1396182291; 1695183700; 1986661051; 2177026350; 2456956037;
   2730485921; 2820302411; 3259730800; 3345764771; 3516065817; 3600352804; 4094571909; 275423344;
   430227734; 506948616; 659060556; 883997877; 958139571; 1322822218; 1537002063; 1747873779;
   1955562222; 2024104815; 2227730452; 2361852424; 2428436474; 2756734187; 3204031479; 3329325298].

Definition initial_state : list Z :=
  [1779033703; 3144134277; 1013904242; 2773480762; 1359893119; 2600822924; 528734635; 1541459225].

(** The 64-word schedule, kept most recent word first. *)
Fixpoint extend_schedule (n : nat) (w : list Z) : list Z :=
  match n with
  | O => w
  | S k =>
      let x := add32 (add32 (small1 (nth 1 w 0)) (nth 6 w 0)) (add32 (small0 (nth 14 w 0)) (nth 15 w 0)) in
      extend_schedule k (x :: w)
  end.

Definition schedule (block : list Z) : list Z := rev (extend_schedule 48 (rev block)).

Definition sha_round (st : list Z) (kw : Z * Z) : list Z :=
  match st with
  | [a; b; c; d; e; f; g; h] =>
      let t1 := add32 (add32 h (big1 e)) (add32 (ch e f g) (add32 (fst kw) (snd kw))) in
      let t2 := add32 (big0 a) (maj a b c) in
      [add32 t1 t2; a; b; c; add32 d t1; e; f; g]
  | _ => st
  end.

Definition compress (st block : list Z) : list Z :=
  zip_with add32 st (fold_left sha_round (combine round_constants (schedule block)) st).

(** Consecutive groups of [n] elements; the fuel is the number of groups. *)
Fixpoint chunks {A} (fuel n : nat) (l : list A) : list (list A) :=
  match fuel with
  | O => []
  | S k => match l with [] => [] | _ => take n l :: chunks k n (drop n l) end
  end.

Definition sha_pad (m : bytes) : bytes :=
  let zeros := Z.to_nat ((55 - blen m) mod 64) in
  m ++ [x80] ++ repeat x00 zeros ++ be_encode 8 (8 * blen m).

Definition sha256 (m : bytes) : bytes :=
  let padded := sha_pad m in
  let blocks := map (fun b => map be_decode (chunks 16 4 b)) (chunks (S (length padded)) 64 padded) in
  concat (map (be_encode 4) (fold_left compress blocks initial_state)).

(** [bytes.hex()] *)
Definition hex_digit_char (d : Z) : Z := if d <? 10 then 48 + d else 87 + d.
Definition hexdigest (b : bytes) : pystr :=
  concat (map (fun x => [hex_digit_char (b2z x / 16); hex_digit_char (b2z x mod 16)]) b).

(** [hmac.new(key, message, hashlib.sha256).digest()] *)
Definition hmac_sha256 (key message : bytes) : bytes :=
  let key := if 64 <? blen key then sha256 key else key in
  let key := key ++ repeat x00 (64 - length key) in
  let pad v := map (fun b => z2b (Z.lxor (b2z b) v)) key in
  sha256 (pad 92 ++ sha256 (pad 54 ++ message)).

(** ** Facts *)

Lemma length_compress (st block : list Z) : length st = 8%nat -> length (compress st block) = 8%nat.
Proof.
  intros H. unfold compress. rewrite length_zip_with, H.
  assert (Hf : forall l s, length s = 8%nat -> length (fold_left sha_round l s) = 8%nat).
  { induction l as [|kw l IH]; intros s Hs; [done |]. cbn [fold_left]. apply IH.
    do 8 (destruct s as [|? s]; [done |]). by destruct s. }
  by rewrite Hf.
Qed.

(** A digest has 32 bytes. *)
Lemma length_sha256 (m : bytes) : length (sha256 m) = 32%nat.
Proof.
  assert (Hf : forall bs st, length st = 8%nat -> length (fold_left compress bs st) = 8%nat).
  { induction bs as [|b bs IH]; intros st Hst; [done |]. cbn [fold_left]. apply IH. by apply length_compress. }
  assert (Hc : forall l, length (concat (map (be_encode 4) l)) = (4 * length l)%nat).
  { induction l as [|x l IH]; [done |]. cbn [map concat]. rewrite length_app, length_be_encode, IH. cbn. lia. }
  unfold sha256. by rewrite Hc, Hf.
Qed.

(** A hexadecimal digest has two lowercase hexadecimal digits per byte. *)
Lemma hexdigest_spec (b : bytes) :
  length (hexdigest b) = (2 * length b)%nat /\ forallb is_lower_hex (hexdigest b) = true.
Proof.
  unfold hexdigest. induction b as [|x b [IHl IHh]]; [done |]. cbn [map concat app length forallb].
  rewrite IHl, IHh. split; [lia |]. pose proof (b2z_range x).
  pose proof (Z.mod_pos_bound (b2z x) 16 ltac:(lia)).
  assert (0 <= b2z x / 16 < 16) by (split; [apply Z.div_pos | apply Z.div_lt_upper_bound]; lia).
  unfold hex_digit_char, is_lower_hex, is_digit, in_range. do 2 case_if; bool_to_prop; utf8_tests; done.
Qed.

Lemma hexdigest_inj (a b : bytes) : hexdigest a = hexdigest b -> a = b.
Proof.
  assert (K : forall x y, 0 <= x < 16 -> 0 <= y < 16 -> hex_digit_char x = hex_digit_char y -> x = y).
  { intros x y Hx Hy. unfold hex_digit_char. destruct (x <? 10) eqn:E1, (y <? 10) eqn:E2; lia. }
  revert b. induction a as [|x a IH]; intros [|y b]; try done. unfold hexdigest. cbn [map concat app]. intros [= H1 H2 H3].
  pose proof (b2z_range x). pose proof (b2z_range y). f_equal; [| by apply IH].
  apply K in H1; [| Z.to_euclidean_division_equations; lia | Z.to_euclidean_division_equations; lia].
  apply K in H2; [| Z.to_euclidean_division_equations; lia | Z.to_euclidean_division_equations; lia].
  apply b2z_inj. rewrite (Z.div_mod (b2z x) 16), (Z.div_mod (b2z y) 16) by lia. lia.
Qed.

(** The test vectors of FIPS 180-4 and RFC 4231. *)
Example sha256_abc :
  hexdigest (sha256 (bstr "abc")) = $"ba7816bf8f01cfea414140de5dae2223b00361a396177a9cb410ff61f20015ad".
Proof. vm_compute. reflexivity. Qed.

Example sha256_two_blocks :
  hexdigest (sha256 (bstr "abcdbcdecdefdefgefghfghighijhijkijkljklmklmnlmnomnopnopq"))
  = $"248d6a61d20638b8e5c026930c3e6039a33ce45964ff2167f6ecedd419db06c1".
Proof. vm_compute. reflexivity. Qed.

Example hmac_vector :
  hexdigest (hmac_sha256 (bstr "Jefe") (bstr "what do ya want for nothing?"))
  = $"5bdcc146bf60754e6a042426089575c75a003f089d2739839dec58b964ec3843".
Proof. vm_compute. reflexivity. Qed.
