(* ===== verification/WawDomain.v ===== *)
(** * WAW domain primitives ([agentbox_core/waw.py])

    Identifiers derived with SHA-256, the generation counter, the workspace
    lifecycle, writer leases and stop operations.  Constructors take Python
    values and validate them; a dataclass with its fields validated is a record
    of plain data.  [replace] constructs, so it validates again.  Times are
    integers; [secrets.token_hex] is the argument that supplies the random
    suffix. *)

From S2P Require Import Prelude PyVal Sha256.

Local Open Scope Z_scope.

Definition domain_error (text : string) : exn := err WAWDomainError text.

(** ** Closed sets *)

Inductive AgentType : Type := CLAUDE | CODEX.

Inductive WorkspaceState : Type :=
| STARTING | RUNNING | NEEDS_INTERACTION | TRUST_REQUIRED | LOGIN_REQUIRED | STOPPING
| EXITED | STOPPED | MISSING | COLLISION | BROKEN | UNKNOWN.

Inductive ReconciliationState : Type :=
| R_AUTHORITATIVE | R_STOPPING | R_MISSING | R_COLLISION | R_EXITED | R_RECONCILIATION_REQUIRED | R_UNKNOWN.

Inductive StopResult : Type := S_PENDING | S_STOPPED | S_RECONCILIATION_REQUIRED | S_TIMEOUT.

#[export] Instance AgentType_eq_dec : EqDecision AgentType.
Proof. solve_decision. Defined.
#[export] Instance WorkspaceState_eq_dec : EqDecision WorkspaceState.
Proof. solve_decision. Defined.
#[export] Instance ReconciliationState_eq_dec : EqDecision ReconciliationState.
Proof. solve_decision. Defined.
#[export] Instance StopResult_eq_dec : EqDecision StopResult.
Proof. solve_decision. Defined.

(** [member.value] *)
Definition agent_value (a : AgentType) : pystr := match a with CLAUDE => $"claude" | CODEX => $"codex" end.

Definition state_name (s : WorkspaceState) : string :=
  match s with
  | STARTING => "STARTING" | RUNNING => "RUNNING" | NEEDS_INTERACTION => "NEEDS_INTERACTION"
  | TRUST_REQUIRED => "TRUST_REQUIRED" | LOGIN_REQUIRED => "LOGIN_REQUIRED" | STOPPING => "STOPPING"
  | EXITED => "EXITED" | STOPPED => "STOPPED" | MISSING => "MISSING" | COLLISION => "COLLISION"
  | BROKEN => "BROKEN" | UNKNOWN => "UNKNOWN"
  end.
Definition state_value (s : WorkspaceState) : pystr := ustr (state_name s).

Definition reconciliation_value (r : ReconciliationState) : pystr :=
  match r with
  | R_AUTHORITATIVE => $"authoritative" | R_STOPPING => $"stopping" | R_MISSING => $"missing"
  | R_COLLISION => $"collision" | R_EXITED => $"exited"
  | R_RECONCILIATION_REQUIRED => $"reconciliation_required" | R_UNKNOWN => $"unknown"
  end.

Definition stop_value (r : StopResult) : pystr :=
  match r with
  | S_PENDING => $"PENDING" | S_STOPPED => $"STOPPED"
  | S_RECONCILIATION_REQUIRED => $"RECONCILIATION_REQUIRED" | S_TIMEOUT => $"TIMEOUT"
  end.

Definition all_states : list WorkspaceState :=
  [STARTING; RUNNING; NEEDS_INTERACTION; TRUST_REQUIRED; LOGIN_REQUIRED; STOPPING;
   EXITED; STOPPED; MISSING; COLLISION; BROKEN; UNKNOWN].

(** [Enum(value)]: the member with that value, or the domain error *)
Definition enum_of {A} (members : list A) (value_of : A -> pystr) (v : pyval) (e : exn) : result A :=
  match v with
  | PStr s => match find (fun a => str_eqb (value_of a) s) members with
              | Some a => Ok a
              | None => Raise e
              end
  | _ => Raise e
  end.

Definition agent_type (v : pyval) : result AgentType :=
  enum_of [CLAUDE; CODEX] agent_value v (domain_error "agent_type must be claude or codex").
Definition workspace_state (v : pyval) : result WorkspaceState :=
  enum_of all_states state_value v (domain_error "workspace state is invalid").
Definition reconciliation_state (v : pyval) : result ReconciliationState :=
  enum_of [R_AUTHORITATIVE; R_STOPPING; R_MISSING; R_COLLISION; R_EXITED; R_RECONCILIATION_REQUIRED; R_UNKNOWN]
    reconciliation_value v (domain_error "reconciliation state is invalid").
Definition stop_result (v : pyval) : result StopResult :=
  enum_of [S_PENDING; S_STOPPED; S_RECONCILIATION_REQUIRED; S_TIMEOUT] stop_value v
    (domain_error "stop result is invalid").

(** ** Identifiers *)

(** [_validate_id] with the prefix of [_ID_PATTERNS[kind]] *)
Definition validate_id (prefix : string) (kind : string) (v : pyval) : result pystr :=
  match v with
  | PStr s => if match_id (ustr prefix) s then Ok s
              else Raise (domain_error ("invalid " ++ kind ++ " identifier"))
  | _ => Raise (domain_error ("invalid " ++ kind ++ " identifier"))
  end.

Definition validate_workspace_id : pyval -> result pystr := validate_id "aws" "workspace".
Definition validate_project_id : pyval -> result pystr := validate_id "prj" "project".
Definition validate_attachment_id : pyval -> result pystr := validate_id "att" "attachment".
Definition validate_stop_operation_id : pyval -> result pystr := validate_id "wso" "stop_operation".
Definition validate_runtime_host_installation_id : pyval -> result pystr := validate_id "wri" "runtime_host".

Definition validate_binding_digest (v : pyval) : result pystr :=
  let e := domain_error "binding_digest must be 64 lowercase hexadecimal characters" in
  match v with
  | PStr s => if match_hex 64 s then Ok s else Raise e
  | _ => Raise e
  end.

Definition validate_positive_u64 (v : pyval) (field : string) : result Z :=
  let e := domain_error (field ++ " must be an unsigned integer in 1..2^64-1") in
  match v with
  | PInt z => if in_range 1 z MAX_U64 then Ok z else Raise e
  | _ => Raise e
  end.

(** [s.encode("utf-8")] of text that is known to be encodable *)
Definition encode_text (s : pystr) : bytes := default [] (utf8_encode s).

Definition workspace_id (project : pyval) (agent : pyval) : result pystr :=
  let! p := validate_project_id project in
  let! a := agent_type agent in
  let digest := take 32 (hexdigest (sha256 (bstr "agentbox-waw-v1" ++ [x00] ++ encode_text p ++ [x00]
                                            ++ encode_text (agent_value a)))) in
  Ok ($"aws_" ++ digest).

Definition managed_session_name (project agent : pyval) : result pystr :=
  let! p := validate_project_id project in
  let! a := agent_type agent in
  let value := $"agentbox-waw-" ++ agent_value a ++ $"-" ++ take 16 (hexdigest (sha256 (encode_text p))) in
  run! raise_if (80 <? blen value) (domain_error "managed session name exceeds 80 characters") in
  Ok value.

Fixpoint join_nul (parts : list pystr) : pystr :=
  match parts with
  | [] => []
  | [p] => p
  | p :: r => p ++ [0] ++ join_nul r
  end.

Definition managed_marker (host host_revision project agent workspace generation binding_revision digest : pyval)
  : result pystr :=
  let! host_id := validate_runtime_host_installation_id host in
  let! hr := validate_positive_u64 host_revision "runtime_host_installation_revision" in
  let! p := validate_project_id project in
  let! a := agent_type agent in
  let! w := validate_workspace_id workspace in
  let! g := validate_positive_u64 generation "generation" in
  let! br := validate_positive_u64 binding_revision "binding_revision" in
  let! d := validate_binding_digest digest in
  let payload := encode_text (join_nul [$"agentbox-waw-v1"; host_id; str_of_Z hr; p; agent_value a; w;
                                        str_of_Z g; str_of_Z br; d]) in
  Ok ($"waw-v1:" ++ host_id ++ $":" ++ take 32 (hexdigest (sha256 payload))).

(** ** The generation counter *)

Record GenerationCounter : Type := mkCounter { current : Z }.

Definition new_counter (v : pyval) : result GenerationCounter :=
  match v with
  | PInt z => if in_range 0 z MAX_U64 then Ok (mkCounter z)
              else Raise (domain_error "generation counter is outside the uint64 domain")
  | _ => Raise (domain_error "generation counter is outside the uint64 domain")
  end.

Definition allocate (c : GenerationCounter) : result (Z * GenerationCounter) :=
  run! raise_if (current c =? MAX_U64) (domain_error "generation counter exhausted") in
  let generation := current c + 1 in
  let! c' := new_counter (PInt generation) in
  Ok (generation, c').

(** ** The lifecycle *)

Definition TRANSITIONS (s : WorkspaceState) : list WorkspaceState :=
  match s with
  | STARTING => [RUNNING; NEEDS_INTERACTION; TRUST_REQUIRED; LOGIN_REQUIRED; STOPPING; EXITED; BROKEN; UNKNOWN]
  | RUNNING => [NEEDS_INTERACTION; TRUST_REQUIRED; LOGIN_REQUIRED; STOPPING; EXITED; BROKEN; UNKNOWN]
  | NEEDS_INTERACTION | TRUST_REQUIRED | LOGIN_REQUIRED => [RUNNING; STOPPING; BROKEN; UNKNOWN]
  | STOPPING => [STOPPED; UNKNOWN; BROKEN]
  | EXITED => [STARTING; STOPPING]
  | STOPPED => [STARTING]
  | MISSING => [STARTING; STOPPING]
  | COLLISION => [STOPPING; UNKNOWN]
  | BROKEN => [STARTING; STOPPING; UNKNOWN]
  | UNKNOWN => [STARTING; STOPPING]
  end.

Record AgentWorkspaceSession : Type := mkWorkspace {
  w_project_id : pystr;
  w_agent_type : AgentType;
  w_host_id : pystr;
  w_host_revision : Z;
  w_binding_revision : Z;
  w_binding_digest : pystr;
  w_generation : Z;
  w_state : WorkspaceState;
  w_reconciliation : ReconciliationState;
  w_id : pystr
}.

(** The constructor with its [__post_init__]. *)
Definition new_workspace (project agent host host_revision binding_revision digest generation state
    reconciliation : pyval) (id : option pyval) : result AgentWorkspaceSession :=
  let! p := validate_project_id project in
  let! a := agent_type agent in
  let! h := validate_runtime_host_installation_id host in
  let! hr := validate_positive_u64 host_revision "runtime_host_installation_revision" in
  let! br := validate_positive_u64 binding_revision "binding_revision" in
  let! d := validate_binding_digest digest in
  let! g := validate_positive_u64 generation "generation" in
  let! st := workspace_state state in
  let! rc := reconciliation_state reconciliation in
  let! expected_id := workspace_id (PStr p) (PStr (agent_value a)) in
  let! _id := match id with
              | None => Ok expected_id
              | Some v =>
                  let! given := validate_workspace_id v in
                  run! raise_if (negb (str_eqb given expected_id))
                         (domain_error "workspace id does not match project and agent_type") in
                  Ok given
              end in
  Ok (mkWorkspace p a h hr br d g st rc _id).

Definition runtime_session_name (w : AgentWorkspaceSession) : result pystr :=
  managed_session_name (PStr (w_project_id w)) (PStr (agent_value (w_agent_type w))).

Definition runtime_marker (w : AgentWorkspaceSession) : result pystr :=
  managed_marker (PStr (w_host_id w)) (PInt (w_host_revision w)) (PStr (w_project_id w))
    (PStr (agent_value (w_agent_type w))) (PStr (w_id w)) (PInt (w_generation w))
    (PInt (w_binding_revision w)) (PStr (w_binding_digest w)).

(** [replace(self, state=..., reconciliation_state=...)] *)
Definition replace_state (w : AgentWorkspaceSession) (st : WorkspaceState) (rc : ReconciliationState)
  : result AgentWorkspaceSession :=
  new_workspace (PStr (w_project_id w)) (PStr (agent_value (w_agent_type w))) (PStr (w_host_id w))
    (PInt (w_host_revision w)) (PInt (w_binding_revision w)) (PStr (w_binding_digest w))
    (PInt (w_generation w)) (PStr (state_value st)) (PStr (reconciliation_value rc)) (Some (PStr (w_id w))).

Definition transition (w : AgentWorkspaceSession) (state : pyval) (reconciliation : option pyval)
  : result AgentWorkspaceSession :=
  let! target := workspace_state state in
  if bool_decide (target = w_state w) then Ok w
  else if negb (bool_decide (target ∈ TRANSITIONS (w_state w))) then
    Raise (domain_error ("invalid workspace transition " ++ state_name (w_state w) ++ "->" ++ state_name target))
  else
    let! rc := match reconciliation with
               | Some v => reconciliation_state v
               | None => Ok (w_reconciliation w)
               end in
    replace_state w target rc.

(** ** Writer leases *)

Record WriterLease : Type := mkLease {
  l_workspace_id : pystr;
  l_attachment_id : pystr;
  l_generation : Z;
  l_lease_number : Z;
  l_issued_at : Z;
  l_expires_at : Z
}.

Definition new_lease (workspace attachment generation number : pyval) (issued expires : Z) : result WriterLease :=
  let! w := validate_workspace_id workspace in
  let! a := validate_attachment_id attachment in
  let! g := validate_positive_u64 generation "generation" in
  let! n := validate_positive_u64 number "lease_number" in
  run! raise_if (expires <? issued) (domain_error "lease expiry precedes issuance") in
  Ok (mkLease w a g n issued expires).

Definition lease_matches (l : WriterLease) (workspace attachment : pystr) (generation number : Z) : bool :=
  str_eqb (l_workspace_id l) workspace && str_eqb (l_attachment_id l) attachment
  && (l_generation l =? generation) && (l_lease_number l =? number).

Definition active_at (l : WriterLease) (now : Z) : bool := (l_issued_at l <=? now) && (now <? l_expires_at l).

Abbreviation WriterLeaseSlot := (option WriterLease).

Definition slot_acquire (slot : WriterLeaseSlot) (lease : WriterLease) (now : Z) : result WriterLeaseSlot :=
  run! raise_if (match slot with Some l => active_at l now | None => false end)
         (domain_error "workspace already has an active writer lease") in
  Ok (Some lease).

Definition slot_release (slot : WriterLeaseSlot) (lease : WriterLease) : result WriterLeaseSlot :=
  match slot with
  | None => Ok None
  | Some l =>
      run! raise_if (negb (lease_matches l (l_workspace_id lease) (l_attachment_id lease) (l_generation lease)
                             (l_lease_number lease)))
             (domain_error "writer lease does not match current slot") in
      Ok None
  end.

Definition new_attachment_id (token_hex16 : pystr) : pystr := $"att_" ++ token_hex16.

(** ** Stop operations *)

Record WorkspaceStopOperation : Type := mkStop {
  so_workspace_id : pystr;
  so_project_id : pystr;
  so_agent_type : AgentType;
  so_generation : Z;
  so_binding_revision : Z;
  so_binding_digest : pystr;
  so_host_id : pystr;
  so_host_revision : Z;
  so_id : pystr;
  so_result : StopResult
}.

Definition new_stop (workspace project agent generation binding_revision digest host host_revision : pyval)
    (id : option pyval) (result_ : pyval) (token_hex16 : pystr) : result WorkspaceStopOperation :=
  let! w := validate_workspace_id workspace in
  let! p := validate_project_id project in
  let! expected := workspace_id (PStr p) agent in
  run! raise_if (negb (str_eqb expected w))
         (domain_error "stop operation workspace does not match Project/AgentType") in
  let! a := agent_type agent in
  let! g := validate_positive_u64 generation "generation" in
  let! br := validate_positive_u64 binding_revision "binding_revision" in
  let! d := validate_binding_digest digest in
  let! h := validate_runtime_host_installation_id host in
  let! hr := validate_positive_u64 host_revision "runtime_host_installation_revision" in
  let! r := stop_result result_ in
  let! i := match id with
            | None => Ok ($"wso_" ++ token_hex16)
            | Some v => validate_stop_operation_id v
            end in
  Ok (mkStop w p a g br d h hr i r).

Definition complete (op : WorkspaceStopOperation) (result_ : pyval) (token_hex16 : pystr)
  : result WorkspaceStopOperation :=
  let! outcome := stop_result result_ in
  if negb (bool_decide (so_result op = S_PENDING)) then
    if bool_decide (outcome = so_result op) then Ok op
    else Raise (domain_error "stop operation is already terminal")
  else
    new_stop (PStr (so_workspace_id op)) (PStr (so_project_id op)) (PStr (agent_value (so_agent_type op)))
      (PInt (so_generation op)) (PInt (so_binding_revision op)) (PStr (so_binding_digest op))
      (PStr (so_host_id op)) (PInt (so_host_revision op)) (Some (PStr (so_id op))) (PStr (stop_value outcome))
      token_hex16.

(** ** Lemmas *)

Lemma agent_type_value (a : AgentType) : agent_type (PStr (agent_value a)) = Ok a.
Proof. by destruct a. Qed.

Lemma workspace_state_value (s : WorkspaceState) : workspace_state (PStr (state_value s)) = Ok s.
Proof. by destruct s. Qed.

Lemma reconciliation_state_value (r : ReconciliationState) :
  reconciliation_state (PStr (reconciliation_value r)) = Ok r.
Proof. by destruct r. Qed.

Lemma stop_result_value (r : StopResult) : stop_result (PStr (stop_value r)) = Ok r.
Proof. by destruct r. Qed.

Lemma validate_id_ok (prefix kind : string) (v : pyval) (s : pystr) :
  validate_id prefix kind v = Ok s <-> v = PStr s /\ match_id (ustr prefix) s = true.
Proof.
  destruct v as [| | | | t | | |]; cbn [validate_id]; try (split; [done | by intros [? _]]).
  case_if; split; intros H; inv_ok; auto; destruct H as [[= ->] ?]; congruence.
Qed.

Lemma validate_binding_digest_ok (v : pyval) (s : pystr) :
  validate_binding_digest v = Ok s <-> v = PStr s /\ match_hex 64 s = true.
Proof.
  unfold validate_binding_digest. destruct v as [| | | | t | | |]; try (split; [done | by intros [? _]]).
  destruct (match_hex 64 t) eqn:E; split; intros H; inv_ok; auto; destruct H as [[= ->] ?]; congruence.
Qed.

Lemma validate_positive_u64_ok (v : pyval) (f : string) (z : Z) :
  validate_positive_u64 v f = Ok z <-> v = PInt z /\ 1 <= z <= MAX_U64.
Proof.
  unfold validate_positive_u64, in_range. destruct v as [| | x | | | | |]; try (split; [done | by intros [? _]]).
  case_if; split; intros H; inv_ok; bool_to_prop; auto; destruct H as [[= ->] ?]; [done | lia].
Qed.

(** A digest makes a well-formed typed identifier. *)
Lemma match_id_digest (prefix : pystr) (m : bytes) :
  match_id prefix (prefix ++ $"_" ++ take 32 (hexdigest (sha256 m))) = true.
Proof.
  destruct (hexdigest_spec (sha256 m)) as [Hl Hh]. rewrite length_sha256 in Hl.
  unfold match_id. rewrite app_assoc.
  replace (length prefix + 1)%nat with (length (prefix ++ $"_")) by (rewrite length_app; done).
  rewrite take_app_length, drop_app_length, str_eqb_refl, length_take, Hl.
  cbn [Nat.min Nat.eqb andb]. apply forallb_forall. intros c Hc.
  rewrite forallb_forall in Hh. apply Hh. rewrite <- (take_drop 32). apply in_or_app. by left.
Qed.

Lemma workspace_id_ok (p : pystr) (a : AgentType) :
  match_id $"prj" p = true ->
  exists w, workspace_id (PStr p) (PStr (agent_value a)) = Ok w /\ match_id $"aws" w = true.
Proof.
  intros Hp. unfold workspace_id, validate_project_id.
  rewrite (proj2 (validate_id_ok "prj" "project" (PStr p) p) (conj eq_refl Hp)).
  cbn [rbind]. rewrite agent_type_value. cbn [rbind]. eexists. split; [reflexivity |].
  apply (match_id_digest $"aws").
Qed.

(** What the constructor establishes. *)
Record workspace_wf (w : AgentWorkspaceSession) : Prop := mkWorkspaceWf {
  wwf_project : match_id $"prj" (w_project_id w) = true;
  wwf_host : match_id $"wri" (w_host_id w) = true;
  wwf_host_revision : 1 <= w_host_revision w <= MAX_U64;
  wwf_binding_revision : 1 <= w_binding_revision w <= MAX_U64;
  wwf_digest : match_hex 64 (w_binding_digest w) = true;
  wwf_generation : 1 <= w_generation w <= MAX_U64;
  wwf_id : workspace_id (PStr (w_project_id w)) (PStr (agent_value (w_agent_type w))) = Ok (w_id w)
}.

Lemma new_workspace_wf (p a h hr br d g st rc : pyval) (id : option pyval) (w : AgentWorkspaceSession) :
  new_workspace p a h hr br d g st rc id = Ok w -> workspace_wf w.
Proof.
  unfold new_workspace. intros H.
  apply rbind_ok in H as (p' & Hp%validate_id_ok & H). apply rbind_ok in H as (a' & Ha & H).
  apply rbind_ok in H as (h' & Hh%validate_id_ok & H).
  apply rbind_ok in H as (hr' & Hhr%validate_positive_u64_ok & H).
  apply rbind_ok in H as (br' & Hbr%validate_positive_u64_ok & H).
  apply rbind_ok in H as (d' & Hd%validate_binding_digest_ok & H).
  apply rbind_ok in H as (g' & Hg%validate_positive_u64_ok & H).
  apply rbind_ok in H as (st' & _ & H). apply rbind_ok in H as (rc' & _ & H).
  apply rbind_ok in H as (e & He & H). apply rbind_ok in H as (i & Hi & H). inv_ok.
  assert (i = e) as ->.
  { destruct id as [v|]; [| by inv_ok]. inv_ok. bool_to_prop. by apply str_eqb_eq in G. }
  constructor; cbn; try tauto.
Qed.

Definition with_state (w : AgentWorkspaceSession) (st : WorkspaceState) (rc : ReconciliationState)
  : AgentWorkspaceSession :=
  mkWorkspace (w_project_id w) (w_agent_type w) (w_host_id w) (w_host_revision w) (w_binding_revision w)
    (w_binding_digest w) (w_generation w) st rc (w_id w).

(** [replace] on a valid workspace changes the two states and nothing else. *)
Lemma replace_state_ok (w : AgentWorkspaceSession) (st : WorkspaceState) (rc : ReconciliationState) :
  workspace_wf w -> replace_state w st rc = Ok (with_state w st rc).
Proof.
  intros H. destruct H as [Hp Hh Hhr Hbr Hd Hg Hi]. unfold replace_state, new_workspace, validate_project_id, validate_workspace_id,
    validate_runtime_host_installation_id.
  rewrite (proj2 (validate_id_ok "prj" "project" _ _) (conj eq_refl Hp)); cbn [rbind].
  rewrite agent_type_value; cbn [rbind].
  rewrite (proj2 (validate_id_ok "wri" "runtime_host" _ _) (conj eq_refl Hh)); cbn [rbind].
  rewrite (proj2 (validate_positive_u64_ok _ _ _) (conj eq_refl Hhr)); cbn [rbind].
  rewrite (proj2 (validate_positive_u64_ok _ _ _) (conj eq_refl Hbr)); cbn [rbind].
  rewrite (proj2 (validate_binding_digest_ok _ _) (conj eq_refl Hd)); cbn [rbind].
  rewrite (proj2 (validate_positive_u64_ok _ _ _) (conj eq_refl Hg)); cbn [rbind].
  rewrite workspace_state_value, reconciliation_state_value; cbn [rbind]. rewrite Hi; cbn [rbind].
  destruct (workspace_id_ok (w_project_id w) (w_agent_type w) Hp) as (i & Hi' & Hm).
  rewrite Hi in Hi'. injection Hi' as <-.
  rewrite (proj2 (validate_id_ok "aws" "workspace" _ _) (conj eq_refl Hm)); cbn [rbind].
  by rewrite str_eqb_refl.
Qed.

(** A transition to itself or along the table, keeping the identity. *)
Lemma transition_ok (w w' : AgentWorkspaceSession) (v : pyval) (rc : option pyval) :
  workspace_wf w -> transition w v rc = Ok w' ->
  workspace_wf w'
  /\ (w' = w \/ exists st r, st ∈ TRANSITIONS (w_state w) /\ w' = with_state w st r).
Proof.
  intros H. unfold transition. intros E. apply rbind_ok in E as (st & _ & E).
  case_bool_decide; [inv_ok; auto |]. case_bool_decide as Hin; cbn [negb] in E; [| done].
  apply rbind_ok in E as (r & _ & E). rewrite replace_state_ok in E by done. inv_ok.
  split; [destruct H; by constructor | eauto].
Qed.

(** ** Lifecycles *)

(** One accepted call of [transition]. *)
Definition lifecycle_step (w w' : AgentWorkspaceSession) : Prop :=
  exists v rc, transition w v rc = Ok w'.

(** The states of a workspace that has, or may be about to have, a process. *)
Definition live_state (s : WorkspaceState) : bool :=
  match s with STARTING | RUNNING | NEEDS_INTERACTION | TRUST_REQUIRED | LOGIN_REQUIRED => true | _ => false end.

(** The fields that identify a workspace. *)
Definition same_identity (w w' : AgentWorkspaceSession) : Prop :=
  w' = with_state w (w_state w') (w_reconciliation w').

Lemma lifecycle_wf (w w' : AgentWorkspaceSession) :
  workspace_wf w -> rtc lifecycle_step w w' -> workspace_wf w' /\ same_identity w w'.
Proof.
  intros H Hs. induction Hs as [w | w w1 w' (v & rc & Ht) _ IH]; [by destruct w |].
  destruct (transition_ok w w1 v rc H Ht) as [H1 [-> | (st & r & _ & ->)]]; [by apply IH |].
  destruct (IH H1) as [H' Hi]. split; [done |]. unfold same_identity in *. by rewrite Hi at 1.
Qed.

(** The table enters the live states from outside only through STARTING, and
    never leads to MISSING or COLLISION. *)
Lemma transitions_facts (s t : WorkspaceState) :
  t ∈ TRANSITIONS s ->
  (live_state s = false -> live_state t = true -> t = STARTING) /\ t <> MISSING /\ t <> COLLISION.
Proof.
  intros H. apply (bool_decide_eq_true_2 _) in H.
  destruct s, t; first [discriminate H | split_and!; first [done | discriminate]].
Qed.

Lemma transitions_irreflexive (s : WorkspaceState) : s ∉ TRANSITIONS s.
Proof. apply (bool_decide_eq_false_1 (s ∈ TRANSITIONS s)). by destruct s. Qed.

(** ** Generations *)

(** [n] allocations in a row. *)
Fixpoint allocate_many (n : nat) (c : GenerationCounter) : result (list Z * GenerationCounter) :=
  match n with
  | O => Ok ([], c)
  | S k =>
      let! '(g, c1) := allocate c in
      let! '(gs, c2) := allocate_many k c1 in
      Ok (g :: gs, c2)
  end.

Lemma allocate_ok (c : GenerationCounter) :
  0 <= current c < MAX_U64 -> allocate c = Ok (current c + 1, mkCounter (current c + 1)).
Proof.
  intros H. unfold allocate, new_counter, in_range.
  replace (current c =? MAX_U64) with false by lia. cbn [raise_if rbind].
  by replace ((0 <=? current c + 1) && (current c + 1 <=? MAX_U64)) with true by lia.
Qed.

(** ** Theorems *)

(** Every project and agent has one workspace identity: the derived
    workspace id is a well-formed identifier, the managed session name fits its
    80 characters (its guard never fires), and the two agents of a project never
    share a session name. *)
Theorem workspace_identity (p : pystr) (a : AgentType) :
  validate_project_id (PStr p) = Ok p ->
  exists w n, workspace_id (PStr p) (PStr (agent_value a)) = Ok w
    /\ validate_workspace_id (PStr w) = Ok w
    /\ managed_session_name (PStr p) (PStr (agent_value a)) = Ok n /\ blen n <= 80
    /\ forall a', managed_session_name (PStr p) (PStr (agent_value a')) = Ok n -> a' = a.
Proof.
  intros Hp. pose proof Hp as [_ Hm]%validate_id_ok. destruct (workspace_id_ok p a Hm) as (w & Hw & Hwm).
  destruct (hexdigest_spec (sha256 (encode_text p))) as [Hl _]. rewrite length_sha256 in Hl.
  assert (Hn : forall b, managed_session_name (PStr p) (PStr (agent_value b))
    = Ok ($"agentbox-waw-" ++ agent_value b ++ $"-" ++ take 16 (hexdigest (sha256 (encode_text p))))).
  { intros b. unfold managed_session_name. rewrite Hp, agent_type_value. cbn [rbind].
    rewrite (proj2 (Z.ltb_ge _ _)); [done |]. unfold blen. rewrite !length_app, length_take, Hl. by destruct b. }
  exists w. eexists. split_and!; [done | by apply validate_id_ok | apply Hn | |].
  - unfold blen. rewrite !length_app, length_take, Hl. by destruct a.
  - intros a'. rewrite Hn. by destruct a, a'.
Qed.

(** A workspace keeps its identity for life, moves only along the lifecycle
    table, and comes back to life only through STARTING: an execution from a
    state without a process to one with a process passes through STARTING.
    Accepted transitions never lead into MISSING or COLLISION, and every entry
    of the table is accepted. *)
Theorem workspace_lifecycle (w w' : AgentWorkspaceSession) :
  workspace_wf w -> rtc lifecycle_step w w' ->
  workspace_wf w' /\ same_identity w w'
  /\ (live_state (w_state w) = false -> live_state (w_state w') = true ->
        exists m, rtc lifecycle_step w m /\ rtc lifecycle_step m w' /\ w_state m = STARTING)
  /\ (w_state w' = MISSING \/ w_state w' = COLLISION -> w_state w' = w_state w)
  /\ forall st, st ∈ TRANSITIONS (w_state w') ->
       transition w' (PStr (state_value st)) None = Ok (with_state w' st (w_reconciliation w')).
Proof.
  intros H Hs. destruct (lifecycle_wf w w' H Hs) as [H' Hi]. split_and!; try done.
  - revert H. induction Hs as [w | w w1 w' Hstep Hrest IH]; intros H Hd Hl; [congruence |].
    destruct Hstep as (v & rc & Ht). pose proof (transition_ok w w1 v rc H Ht) as [H1 Hcase].
    destruct (live_state (w_state w1)) eqn:E1.
    + exists w1. split_and!; [apply rtc_once; by exists v, rc | done |].
      destruct Hcase as [-> | (st & r & Hin & ->)]; [congruence |]. by apply transitions_facts in Hin as [Hin _]; apply Hin.
    + destruct (lifecycle_wf w1 w' H1 Hrest) as [Hw' Hi'].
      destruct (IH Hw' Hi' H1 eq_refl Hl) as (m & Hm1 & Hm2 & Hm3). exists m.
      split_and!; [eapply rtc_l; [by exists v, rc | done] | done | done].
  - clear H' Hi. revert H. induction Hs as [w | w w1 w' (v & rc & Ht) Hrest IH]; intros H Hm; [done |].
    pose proof (transition_ok w w1 v rc H Ht) as [H1 Hcase]. specialize (IH H1 Hm).
    destruct Hcase as [-> | (st & r & Hin & ->)]; [done |]. apply transitions_facts in Hin as (_ & Hn1 & Hn2).
    cbn in IH. destruct Hm; congruence.
  - intros st Hin. unfold transition. rewrite workspace_state_value. cbn [rbind].
    rewrite (bool_decide_eq_false_2 (st = w_state w')) 
      by (intros ->; by apply (transitions_irreflexive (w_state w'))).
    rewrite bool_decide_eq_true_2 by done. cbn [negb rbind]. by apply replace_state_ok.
Qed.

(** Generations are never reused and never wrap: any number of allocations
    yields consecutive numbers, and they succeed exactly while they fit 64
    bits. *)
Theorem generations_monotone (c : GenerationCounter) (n : nat) :
  0 <= current c <= MAX_U64 ->
  if current c + Z.of_nat n <=? MAX_U64
  then allocate_many n c = Ok (seqZ (current c + 1) (Z.of_nat n), mkCounter (current c + Z.of_nat n))
  else exists e, allocate_many n c = Raise e.
Proof.
  revert c. induction n as [|n IH]; intros c Hc.
  - rewrite Z.add_0_r, (proj2 (Z.leb_le _ _)) by lia. by destruct c.
  - cbn [allocate_many]. destruct (decide (current c = MAX_U64)) as [E | E].
    + rewrite (proj2 (Z.leb_gt _ _)) by lia. unfold allocate. rewrite E, Z.eqb_refl. by eexists.
    + rewrite allocate_ok by lia. cbn [rbind]. specialize (IH (mkCounter (current c + 1)) ltac:(cbn; lia)).
      cbn [current] in IH. replace (current c + 1 + Z.of_nat n) with (current c + Z.of_nat (S n)) in IH by lia.
      destruct (current c + Z.of_nat (S n) <=? MAX_U64).
      * rewrite IH. cbn [rbind]. rewrite (seqZ_cons (current c + 1) (Z.of_nat (S n))) by lia.
        by replace (Z.pred (Z.of_nat (S n))) with (Z.of_nat n) by lia.
      * destruct IH as [e ->]. by exists e.
Qed.

(** ** Witnesses *)

Definition sample_project : pystr := $"prj_" ++ repeat 97 32.

Definition sample_workspace_result : result AgentWorkspaceSession :=
  new_workspace (PStr sample_project) (PStr $"codex") (PStr ($"wri_" ++ repeat 98 32)) (PInt 1) (PInt 2)
    (PStr (repeat 99 64)) (PInt 3) (PStr $"STOPPED") (PStr $"authoritative") None.

Definition sample_workspace : AgentWorkspaceSession :=
  match sample_workspace_result with
  | Ok w => w
  | Raise _ => mkWorkspace [] CLAUDE [] 0 0 [] 0 STOPPED R_UNKNOWN []
  end.

Lemma sample_workspace_wf : workspace_wf sample_workspace.
Proof.
  apply (new_workspace_wf (PStr sample_project) (PStr $"codex") (PStr ($"wri_" ++ repeat 98 32)) (PInt 1) (PInt 2)
    (PStr (repeat 99 64)) (PInt 3) (PStr $"STOPPED") (PStr $"authoritative") None).
  vm_compute. reflexivity.
Qed.

Lemma workspace_identity_witness :
  exists w n, workspace_id (PStr sample_project) (PStr $"codex") = Ok w
    /\ managed_session_name (PStr sample_project) (PStr $"codex") = Ok n /\ blen n <= 80.
Proof.
  destruct (workspace_identity sample_project CODEX) as (w & n & H1 & _ & H2 & H3 & _).
  - vm_compute. reflexivity.
  - exists w, n. split; [exact H1 |]. split; [exact H2 | exact H3].
Defined.

(** From STOPPED to RUNNING. *)
Lemma workspace_lifecycle_witness :
  exists m, rtc lifecycle_step sample_workspace m /\ w_state m = STARTING.
Proof.
  destruct (workspace_lifecycle sample_workspace
              (with_state sample_workspace RUNNING (w_reconciliation sample_workspace)))
    as (_ & _ & H & _).
  - exact sample_workspace_wf.
  - apply (rtc_l _ _ (with_state sample_workspace STARTING (w_reconciliation sample_workspace))).
    + exists (PStr $"STARTING"), None. vm_compute. reflexivity.
    + apply rtc_once. exists (PStr $"RUNNING"), None. vm_compute. reflexivity.
  - destruct H as (m & H1 & _ & H2).
    + vm_compute. reflexivity.
    + vm_compute. reflexivity.
    + exists m. split; [exact H1 | exact H2].
Defined.

Lemma generations_monotone_witness :
  allocate_many 3 (mkCounter 7) = Ok ([8; 9; 10], mkCounter 10).
Proof. apply (generations_monotone (mkCounter 7) 3). cbn. unfold MAX_U64. lia. Defined.
