(* ===== verification/Recovery.v ===== *)
(** * Recovery identities and resume fencing ([agentbox_core/waw_recovery.py])

    [RecoveryIdentity] with its [__post_init__], [ResumeHint.validate] and
    [classify_resume] in the order of its branches.  The constructor takes
    Python values; the fields of a constructed identity are plain data. *)

From S2P Require Import Prelude PyVal Sha256 WawDomain.

Local Open Scope Z_scope.

Definition recovery_error (code text : string) : exn := Exn RecoveryError code text.

Inductive RecoveryDecision : Type := REPLAY | FRESH_ATTACHMENT | RECONCILIATION_REQUIRED.

#[export] Instance RecoveryDecision_eq_dec : EqDecision RecoveryDecision.
Proof. solve_decision. Defined.

Record RecoveryIdentity : Type := mkIdentity {
  ri_workspace_id : pystr;
  ri_project_id : pystr;
  ri_agent_type : pystr;
  ri_generation : Z;
  ri_binding_revision : Z;
  ri_binding_digest : pystr;
  ri_host_id : pystr;
  ri_host_revision : Z;
  ri_runtime_epoch : Z;
  ri_api_authority_epoch : Z;
  ri_attachment_id : pystr;
  ri_lease_number : Z;
  ri_session_id : pystr;
  ri_auth_epoch : Z;
  ri_mode : pystr
}.

#[export] Instance RecoveryIdentity_eq_dec : EqDecision RecoveryIdentity.
Proof. solve_decision. Defined.

Definition identity_invalid (text : string) : exn := recovery_error "RECOVERY_IDENTITY_INVALID" text.

(** The body of the [try]: the canonical identifiers and the derived
    workspace identity. *)
Definition canonical_identity (workspace project attachment host digest agent : pyval)
  : result (pystr * pystr * pystr * pystr * pystr * pystr) :=
  let! w := validate_workspace_id workspace in
  let! p := validate_project_id project in
  let! a := validate_attachment_id attachment in
  let! h := validate_runtime_host_installation_id host in
  let! d := validate_binding_digest digest in
  let! g := enum_of [CLAUDE; CODEX] agent_value agent (err PyValueError "not a valid AgentType") in
  let! expected := workspace_id (PStr p) (PStr (agent_value g)) in
  run! raise_if (negb (str_eqb w expected)) (err PyValueError "workspace identity does not match") in
  Ok (w, p, a, h, d, agent_value g).

Definition identity_u64 (v : pyval) (field : string) : result Z :=
  except_as (validate_positive_u64 v field) [PyTypeError; PyValueError] (identity_invalid (field ++ " is invalid")).

Definition new_identity (workspace project agent generation binding_revision digest host host_revision
    runtime_epoch api_authority_epoch attachment lease_number session auth_epoch mode : pyval)
  : result RecoveryIdentity :=
  let! '(w, p, a, h, d, g) :=
    except_as (canonical_identity workspace project attachment host digest agent) [PyTypeError; PyValueError]
      (identity_invalid "canonical identity is invalid") in
  let! s := match session with
            | PStr [] => Raise (identity_invalid "session_id is required")
            | PStr s => Ok s
            | _ => Raise (identity_invalid "session_id is required")
            end in
  run! raise_if (negb (scalar_eqb mode (PStr $"writer"))) (identity_invalid "mode must be writer") in
  let! gen := identity_u64 generation "generation" in
  let! br := identity_u64 binding_revision "binding_revision" in
  let! hr := identity_u64 host_revision "runtime_host_installation_revision" in
  let! re := identity_u64 runtime_epoch "runtime_epoch" in
  let! ae := identity_u64 api_authority_epoch "api_authority_epoch" in
  let! ln := identity_u64 lease_number "lease_number" in
  let! au := identity_u64 auth_epoch "auth_epoch" in
  Ok (mkIdentity w p g gen br d h hr re ae a ln s au $"writer").

(** ** Resume hints *)

Record ResumeHint : Type := mkHint { resume_cursor : pyval; previous_runtime_epoch : pyval }.

Definition hint_invalid (text : string) : exn := recovery_error "RESUME_HINT_INVALID" text.

Definition not_none_or_u64 (lo : Z) (v : pyval) : bool :=
  match v with
  | PNone => false
  | PInt z => negb (in_range lo z MAX_U64)
  | _ => true
  end.

(** [v in (None, 0)] of a value that is [None] or an integer *)
Definition none_or_zero (v : pyval) : bool :=
  match v with PNone => true | PInt z => z =? 0 | _ => false end.

Definition hint_validate (h : ResumeHint) (current_runtime_epoch : Z) : result ResumeHint :=
  run! raise_if (negb (in_range 1 current_runtime_epoch MAX_U64)) (hint_invalid "current runtime epoch is invalid") in
  let cursor := resume_cursor h in
  let previous := previous_runtime_epoch h in
  run! raise_if (not_none_or_u64 0 cursor) (hint_invalid "resume cursor must be non-negative") in
  run! raise_if (not_none_or_u64 1 previous) (hint_invalid "previous runtime epoch must be positive") in
  if none_or_zero cursor && is_none previous then Ok h
  else if match cursor with PInt z => 0 <? z | _ => false end
          && match previous with PInt z => z =? current_runtime_epoch | _ => false end then Ok h
  else Raise (hint_invalid "resume requires a positive cursor bound to the current runtime epoch").

(** ** Classification *)

(** The comparisons the branches of [classify_resume] share. *)
Definition same_workspace (e a : RecoveryIdentity) : bool :=
  str_eqb (ri_workspace_id e) (ri_workspace_id a) && str_eqb (ri_project_id e) (ri_project_id a)
  && str_eqb (ri_agent_type e) (ri_agent_type a).
Definition same_binding (e a : RecoveryIdentity) : bool :=
  same_workspace e a && (ri_generation e =? ri_generation a) && (ri_binding_revision e =? ri_binding_revision a)
  && str_eqb (ri_binding_digest e) (ri_binding_digest a) && str_eqb (ri_host_id e) (ri_host_id a)
  && (ri_host_revision e =? ri_host_revision a).
Definition same_authorization (e a : RecoveryIdentity) : bool :=
  str_eqb (ri_session_id e) (ri_session_id a) && (ri_auth_epoch e =? ri_auth_epoch a)
  && str_eqb (ri_mode e) (ri_mode a).

Definition classify_resume (expected actual : RecoveryIdentity) (hint : ResumeHint) : result RecoveryDecision :=
  let same_epoch := ri_runtime_epoch expected =? ri_runtime_epoch actual in
  let same_api := ri_api_authority_epoch expected =? ri_api_authority_epoch actual in
  if same_binding expected actual && same_epoch && same_api && same_authorization expected actual then
    run! hint_validate hint (ri_runtime_epoch expected) in
    Ok (if negb (none_or_zero (resume_cursor hint)) then REPLAY else FRESH_ATTACHMENT)
  else if same_binding expected actual && same_authorization expected actual && negb same_epoch then
    Raise (recovery_error "RECONCILIATION_REQUIRED" "Runtime epoch changed; output replay is fenced")
  else if same_binding expected actual && same_epoch && negb same_api && same_authorization expected actual then
    run! hint_validate hint (ri_runtime_epoch expected) in
    if negb (none_or_zero (resume_cursor hint)) then
      Raise (recovery_error "RECONCILIATION_REQUIRED" "API restart requires a fresh attachment")
    else Ok FRESH_ATTACHMENT
  else if same_binding expected actual && same_epoch && same_api then
    Raise (recovery_error "RECOVERY_IDENTITY_STALE" "session or authorization identity changed")
  else if same_workspace expected actual then
    Raise (recovery_error "RECONCILIATION_REQUIRED" "workspace generation, binding, host, or Runtime epoch changed")
  else Raise (recovery_error "RECOVERY_IDENTITY_STALE" "recovery identity does not match").

(** ** Specification *)

(** What the constructor establishes. *)
Record identity_wf (i : RecoveryIdentity) : Prop := mkIdentityWf {
  iwf_project : match_id $"prj" (ri_project_id i) = true;
  iwf_attachment : match_id $"att" (ri_attachment_id i) = true;
  iwf_host : match_id $"wri" (ri_host_id i) = true;
  iwf_digest : match_hex 64 (ri_binding_digest i) = true;
  iwf_workspace : exists a : AgentType, ri_agent_type i = agent_value a
      /\ workspace_id (PStr (ri_project_id i)) (PStr (agent_value a)) = Ok (ri_workspace_id i);
  iwf_session : ri_session_id i <> [];
  iwf_mode : ri_mode i = $"writer";
  iwf_u64 : Forall (fun z => 1 <= z <= MAX_U64)
      [ri_generation i; ri_binding_revision i; ri_host_revision i; ri_runtime_epoch i; ri_api_authority_epoch i;
       ri_lease_number i; ri_auth_epoch i]
}.

(** What an identity names: the workspace, the binding of its process to a host,
    and the authorization of the session that writes to it. *)
Definition workspace_part (i : RecoveryIdentity) : pystr * pystr * pystr :=
  (ri_workspace_id i, ri_project_id i, ri_agent_type i).
Definition binding_part (i : RecoveryIdentity) : (pystr * pystr * pystr) * (Z * Z * pystr * pystr * Z) :=
  (workspace_part i, (ri_generation i, ri_binding_revision i, ri_binding_digest i, ri_host_id i, ri_host_revision i)).
Definition authorization_part (i : RecoveryIdentity) : pystr * Z * pystr :=
  (ri_session_id i, ri_auth_epoch i, ri_mode i).

(** A hint that asks for replay of output after a cursor of the current epoch,
    and a hint that asks for nothing. *)
Definition replay_hint (h : ResumeHint) (epoch : Z) : Prop :=
  exists c, h = mkHint (PInt c) (PInt epoch) /\ 1 <= c <= MAX_U64.
Definition fresh_hint (h : ResumeHint) : Prop :=
  h = mkHint PNone PNone \/ h = mkHint (PInt 0) PNone.

(** ** Lemmas *)

Lemma same_workspace_spec (e a : RecoveryIdentity) : reflect (workspace_part e = workspace_part a) (same_workspace e a).
Proof.
  apply iff_reflect. unfold same_workspace, workspace_part. rewrite !andb_true_iff, !str_eqb_eq.
  split; [intros [= -> -> ->] | intros [[-> ->] ->]]; done.
Qed.

Lemma same_binding_spec (e a : RecoveryIdentity) : reflect (binding_part e = binding_part a) (same_binding e a).
Proof.
  apply iff_reflect. unfold same_binding, binding_part.
  rewrite !andb_true_iff, !str_eqb_eq, !Z.eqb_eq, <- (reflect_iff _ _ (same_workspace_spec e a)).
  split; [intros [=]; unfold workspace_part; repeat split; congruence | intros; destruct_and!; congruence].
Qed.

Lemma same_authorization_spec (e a : RecoveryIdentity) :
  reflect (authorization_part e = authorization_part a) (same_authorization e a).
Proof.
  apply iff_reflect. unfold same_authorization, authorization_part. rewrite !andb_true_iff, !str_eqb_eq, Z.eqb_eq.
  split; [intros [= -> -> ->] | intros [[-> ->] ->]]; done.
Qed.

(** Replay and fresh hints are accepted as such, all others are rejected. *)
Inductive hint_outcome (h : ResumeHint) (epoch : Z) : result ResumeHint -> bool -> Prop :=
| Hint_replay : replay_hint h epoch -> ~ fresh_hint h -> hint_outcome h epoch (Ok h) false
| Hint_fresh : fresh_hint h -> ~ replay_hint h epoch -> hint_outcome h epoch (Ok h) true
| Hint_invalid text b : ~ fresh_hint h -> ~ replay_hint h epoch -> hint_outcome h epoch (Raise (hint_invalid text)) b.

Lemma hint_validate_ok (h h' : ResumeHint) (epoch : Z) :
  1 <= epoch <= MAX_U64 -> hint_validate h epoch = Ok h' -> fresh_hint h \/ replay_hint h epoch.
Proof.
  intros He H. unfold hint_validate, not_none_or_u64, none_or_zero, is_none in H.
  destruct h as [c p]. cbn [resume_cursor previous_runtime_epoch] in H. inv_ok.
  destruct c as [| |c| | | | |], p as [| |p| | | | |]; try discriminate; cbn [andb] in H.
  - by left; left.
  - destruct (c =? 0) eqn:Ec; cbn [andb] in H; [left; right | rewrite andb_false_r in H; discriminate].
    bool_to_prop. by subst.
  - rewrite andb_false_r in H.
    destruct (0 <? c) eqn:Ec; [| discriminate]. destruct (p =? epoch) eqn:Ep; [| discriminate].
    bool_to_prop. subst p. right. exists c. split; [done | lia].
Qed.

Lemma hint_validate_accepts (h : ResumeHint) (epoch : Z) :
  1 <= epoch <= MAX_U64 -> fresh_hint h \/ replay_hint h epoch -> hint_validate h epoch = Ok h.
Proof.
  intros He Hh. assert (Hr : in_range 1 epoch MAX_U64 = true) by (unfold in_range; lia).
  unfold hint_validate. rewrite Hr. cbn [negb raise_if rbind].
  destruct Hh as [[-> | ->] | (c & -> & Hc)]; [done | done |].
  cbn [resume_cursor previous_runtime_epoch not_none_or_u64 none_or_zero is_none].
  assert (Hc' : in_range 0 c MAX_U64 = true) by (unfold in_range; lia).
  rewrite Hc', Hr, Z.eqb_refl, andb_false_r. cbn [negb raise_if rbind].
  by rewrite (proj2 (Z.ltb_lt 0 c)) by lia.
Qed.

Lemma hint_validate_raise (h : ResumeHint) (epoch : Z) (e : exn) :
  hint_validate h epoch = Raise e -> exists text, e = hint_invalid text.
Proof.
  unfold hint_validate. destruct (in_range 1 epoch MAX_U64); cbn [negb raise_if rbind]; [| intros [= <-]; eauto].
  destruct (not_none_or_u64 0 _); cbn [raise_if rbind]; [intros [= <-]; eauto |].
  destruct (not_none_or_u64 1 _); cbn [raise_if rbind]; [intros [= <-]; eauto |].
  case_if; [done |]. case_if; [done | intros [= <-]; eauto].
Qed.

Lemma hint_validate_outcome (h : ResumeHint) (epoch : Z) :
  1 <= epoch <= MAX_U64 -> hint_outcome h epoch (hint_validate h epoch) (none_or_zero (resume_cursor h)).
Proof.
  intros He.
  assert (Hex : fresh_hint h -> replay_hint h epoch -> False) by (intros [-> | ->] (c & [=] & ?)).
  destruct (hint_validate h epoch) as [h' | e] eqn:E.
  - destruct (hint_validate_ok _ _ _ He E) as [Hf | Hr];
      rewrite hint_validate_accepts in E by auto; injection E as <-.
    + replace (none_or_zero _) with true by (by destruct Hf as [-> | ->]). constructor; auto.
    + replace (none_or_zero _) with false by (destruct Hr as (c & -> & ?); cbn; lia). constructor; auto.
  - destruct (hint_validate_raise _ _ _ E) as [text ->].
    constructor; intros Hh; rewrite hint_validate_accepts in E by auto; discriminate.
Qed.

Lemma identity_u64_ok (v : pyval) (f : string) (z : Z) : identity_u64 v f = Ok z <-> v = PInt z /\ 1 <= z <= MAX_U64.
Proof. unfold identity_u64. by rewrite except_as_ok, validate_positive_u64_ok. Qed.

Lemma identity_epoch (i : RecoveryIdentity) : identity_wf i -> 1 <= ri_runtime_epoch i <= MAX_U64.
Proof. intros H%iwf_u64. rewrite !Forall_cons in H. tauto. Qed.

Lemma enum_of_ok {A} (members : list A) (f : A -> pystr) (v : pyval) (e : exn) (a : A) :
  enum_of members f v e = Ok a -> v = PStr (f a).
Proof.
  destruct v as [| | | |s| | |]; try discriminate. cbn [enum_of].
  destruct (find _ _) eqn:E; [| discriminate]. intros H. inv_ok.
  apply find_some in E as [_ E%str_eqb_eq]. by subst s.
Qed.

Lemma canonical_identity_ok (w p a h d g : pyval) w' p' a' h' d' g' :
  canonical_identity w p a h d g = Ok (w', p', a', h', d', g') <->
  (exists ag, g = PStr (agent_value ag) /\ g' = agent_value ag
     /\ workspace_id (PStr p') (PStr (agent_value ag)) = Ok w')
  /\ w = PStr w' /\ p = PStr p' /\ a = PStr a' /\ h = PStr h' /\ d = PStr d'
  /\ match_id $"prj" p' = true /\ match_id $"att" a' = true /\ match_id $"wri" h' = true /\ match_hex 64 d' = true.
Proof.
  split.
  - unfold canonical_identity. intros H.
    apply rbind_ok in H as (w1 & Hw%validate_id_ok & H). apply rbind_ok in H as (p1 & Hp%validate_id_ok & H).
    apply rbind_ok in H as (a1 & Ha%validate_id_ok & H). apply rbind_ok in H as (h1 & Hh%validate_id_ok & H).
    apply rbind_ok in H as (d1 & Hd%validate_binding_digest_ok & H). apply rbind_ok in H as (g1 & Hg & H).
    apply rbind_ok in H as (w2 & Hw2 & H). inv_ok. bool_to_prop. apply str_eqb_eq in G. subst w2.
    injection H as -> -> -> -> -> <-. destruct_and!. repeat split; try done.
    exists g1. repeat split; [by eapply enum_of_ok | done].
  - intros ((ag & -> & -> & Hw) & -> & -> & -> & -> & -> & Hp & Ha & Hh & Hd).
    assert (Hwid : match_id $"aws" w' = true)
      by (destruct (workspace_id_ok p' ag Hp) as (w2 & E & ?); congruence).
    unfold canonical_identity, validate_workspace_id, validate_project_id, validate_attachment_id,
      validate_runtime_host_installation_id.
    rewrite (proj2 (validate_id_ok "aws" "workspace" _ w') (conj eq_refl Hwid)).
    rewrite (proj2 (validate_id_ok "prj" "project" _ p') (conj eq_refl Hp)).
    rewrite (proj2 (validate_id_ok "att" "attachment" _ a') (conj eq_refl Ha)).
    rewrite (proj2 (validate_id_ok "wri" "runtime_host" _ h') (conj eq_refl Hh)).
    rewrite (proj2 (validate_binding_digest_ok _ d') (conj eq_refl Hd)). cbn [rbind].
    replace (enum_of _ _ _ _) with (Ok ag) by (by destruct ag). cbn [rbind].
    rewrite Hw. cbn [rbind]. by rewrite str_eqb_refl.
Qed.

Lemma identity_u64_throws (v : pyval) (f : string) : throws [RecoveryError] (identity_u64 v f).
Proof.
  unfold identity_u64. apply throws_except; [| done]. unfold validate_positive_u64. throws_tac.
Qed.

Lemma canonical_identity_throws (w p a h d g : pyval) :
  throws [PyTypeError; PyValueError] (canonical_identity w p a h d g).
Proof.
  unfold canonical_identity, validate_workspace_id, validate_project_id, validate_attachment_id,
    validate_runtime_host_installation_id, validate_binding_digest, workspace_id, validate_project_id, agent_type,
    validate_id, enum_of.
  throws_tac.
Qed.

(** Everything the constructor raises is a recovery error. *)
Lemma new_identity_throws (w p ag g br d h hr re ae a ln s au m : pyval) :
  throws [RecoveryError] (new_identity w p ag g br d h hr re ae a ln s au m).
Proof.
  unfold new_identity. apply throws_bind.
  - apply throws_except; [| done]. eapply throws_mono; [apply canonical_identity_throws | class_incl].
  - intros [[[[[w' p'] a'] h'] d'] g'] _.
    throws_tac; apply identity_u64_throws.
Qed.

Lemma new_identity_wf (w p ag g br d h hr re ae a ln s au m : pyval) (i : RecoveryIdentity) :
  new_identity w p ag g br d h hr re ae a ln s au m = Ok i ->
  identity_wf i
  /\ [w; p; ag; d; h; a; s; m]
     = map PStr [ri_workspace_id i; ri_project_id i; ri_agent_type i; ri_binding_digest i;
                 ri_host_id i; ri_attachment_id i; ri_session_id i; ri_mode i]
  /\ [g; br; hr; re; ae; ln; au]
     = map PInt [ri_generation i; ri_binding_revision i; ri_host_revision i; ri_runtime_epoch i;
                 ri_api_authority_epoch i; ri_lease_number i; ri_auth_epoch i].
Proof.
  unfold new_identity. intros H.
  apply rbind_ok in H as ([[[[[w' p'] a'] h'] d'] g'] & Hc%except_as_ok & H).
  apply canonical_identity_ok in Hc as ((k & -> & -> & Hw) & -> & -> & -> & -> & -> & Hp & Ha & Hh & Hd).
  apply rbind_ok in H as (s' & Hs & H).
  assert (s = PStr s' /\ s' <> []) as [-> Hs'] by (destruct s as [| | | |[|c t]| | |]; try discriminate; inv_ok; done).
  destruct m as [| | | |m| | |]; try (discriminate H). cbn [scalar_eqb] in H.
  destruct (str_eqb m _) eqn:Em; cbn [negb raise_if rbind] in H; [| discriminate].
  apply str_eqb_eq in Em. subst m.
  apply rbind_ok in H as (z1 & [-> H1]%identity_u64_ok & H). apply rbind_ok in H as (z2 & [-> H2]%identity_u64_ok & H).
  apply rbind_ok in H as (z3 & [-> H3]%identity_u64_ok & H). apply rbind_ok in H as (z4 & [-> H4]%identity_u64_ok & H).
  apply rbind_ok in H as (z5 & [-> H5]%identity_u64_ok & H). apply rbind_ok in H as (z6 & [-> H6]%identity_u64_ok & H).
  apply rbind_ok in H as (z7 & [-> H7]%identity_u64_ok & H). inv_ok.
  repeat split; try done; [eauto | repeat constructor; tauto].
Qed.

(** ** Properties *)

(** A recovery identity is constructed exactly when its fields are what
    the identity promises: canonical identifiers, a workspace identifier that
    is the one derived from the project and the agent type, a session, writer
    mode and seven unsigned 64-bit numbers from 1; the constructed fields are
    the given values, and every rejection is a recovery error. *)
Theorem identity_exact (i : RecoveryIdentity) :
  (identity_wf i <->
   new_identity (PStr (ri_workspace_id i)) (PStr (ri_project_id i)) (PStr (ri_agent_type i)) (PInt (ri_generation i))
     (PInt (ri_binding_revision i)) (PStr (ri_binding_digest i)) (PStr (ri_host_id i)) (PInt (ri_host_revision i))
     (PInt (ri_runtime_epoch i)) (PInt (ri_api_authority_epoch i)) (PStr (ri_attachment_id i))
     (PInt (ri_lease_number i)) (PStr (ri_session_id i)) (PInt (ri_auth_epoch i)) (PStr (ri_mode i)) = Ok i)
  /\ (forall w p ag g br d h hr re ae a ln s au m,
        match new_identity w p ag g br d h hr re ae a ln s au m with
        | Ok i' => identity_wf i'
            /\ [w; p; ag; d; h; a; s; m]
               = map PStr [ri_workspace_id i'; ri_project_id i'; ri_agent_type i'; ri_binding_digest i';
                           ri_host_id i'; ri_attachment_id i'; ri_session_id i'; ri_mode i']
            /\ [g; br; hr; re; ae; ln; au]
               = map PInt [ri_generation i'; ri_binding_revision i'; ri_host_revision i'; ri_runtime_epoch i';
                           ri_api_authority_epoch i'; ri_lease_number i'; ri_auth_epoch i']
        | Raise e => exc_isa (exn_class e) RecoveryError = true
        end).
Proof.
  split; [split |].
  - intros [Hp Ha Hh Hd (ag & Hag & Hw) Hs Hm Hu]. destruct i as [w p g gen br d h hr re ae a ln s au m].
    cbn [ri_workspace_id ri_project_id ri_agent_type ri_generation ri_binding_revision ri_binding_digest ri_host_id
         ri_host_revision ri_runtime_epoch ri_api_authority_epoch ri_attachment_id ri_lease_number ri_session_id
         ri_auth_epoch ri_mode] in *. subst m g.
    rewrite !Forall_cons in Hu. destruct_and!. unfold new_identity.
    rewrite (proj2 (except_as_ok _ _ _ (w, p, a, h, d, agent_value ag)))
      by (apply canonical_identity_ok; eauto 20).
    cbn [rbind]. destruct s as [|c s]; [done |]. cbn [rbind scalar_eqb]. rewrite str_eqb_refl. cbn [negb raise_if rbind].
    rewrite !(fun z f H => proj2 (identity_u64_ok (PInt z) f z) (conj eq_refl H)) by done. done.
  - intros H. destruct (new_identity_wf _ _ _ _ _ _ _ _ _ _ _ _ _ _ _ _ H). done.
  - intros. destruct (new_identity _ _ _ _ _ _ _ _ _ _ _ _ _ _ _) eqn:E; [by apply new_identity_wf |].
    apply new_identity_throws in E. cbn [existsb] in E. by rewrite orb_false_r in E.
Qed.

(** [classify_resume] replays output exactly when the workspace, its
    binding, the authorization and both epochs are unchanged and the hint names
    a positive cursor of the current runtime epoch; it gives a fresh attachment
    exactly when all but the API epoch is unchanged and the hint asks for
    nothing; it never returns the third decision.  Every other request raises a
    recovery error, whose code says whether the hint was malformed, the
    identity stale, or a boundary was crossed that needs reconciliation. *)
Theorem resume_exact (e a : RecoveryIdentity) (h : ResumeHint) :
  identity_wf e -> identity_wf a ->
  let epoch_kept := ri_runtime_epoch e = ri_runtime_epoch a in
  let api_kept := ri_api_authority_epoch e = ri_api_authority_epoch a in
  let stable := binding_part e = binding_part a /\ authorization_part e = authorization_part a in
  (classify_resume e a h = Ok REPLAY <-> stable /\ epoch_kept /\ api_kept /\ replay_hint h (ri_runtime_epoch e))
  /\ (classify_resume e a h = Ok FRESH_ATTACHMENT <-> stable /\ epoch_kept /\ fresh_hint h)
  /\ classify_resume e a h <> Ok RECONCILIATION_REQUIRED
  /\ (forall x, classify_resume e a h = Raise x ->
       exn_class x = RecoveryError
       /\ exn_code x ∈ ["RESUME_HINT_INVALID"; "RECOVERY_IDENTITY_STALE"; "RECONCILIATION_REQUIRED"]%string
       /\ (exn_code x = "RESUME_HINT_INVALID"%string <->
            stable /\ epoch_kept /\ ~ fresh_hint h /\ ~ replay_hint h (ri_runtime_epoch e))
       /\ (exn_code x = "RECOVERY_IDENTITY_STALE"%string <->
            workspace_part e <> workspace_part a
            \/ (binding_part e = binding_part a /\ epoch_kept /\ api_kept
                /\ authorization_part e <> authorization_part a))).
Proof.
  intros He%identity_epoch _ epoch_kept api_kept stable. unfold classify_resume.
  assert (Hwb : binding_part e = binding_part a -> workspace_part e = workspace_part a) by (unfold binding_part; congruence).
  destruct (same_binding_spec e a), (same_authorization_spec e a), (Z.eqb_spec (ri_runtime_epoch e) (ri_runtime_epoch a)),
    (Z.eqb_spec (ri_api_authority_epoch e) (ri_api_authority_epoch a)), (same_workspace_spec e a);
    try tauto; cbn [andb negb];
    try (destruct (hint_validate_outcome h _ He); cbn [rbind negb]);
    unfold stable, epoch_kept, api_kept; repeat split; intros; try discriminate; inv_ok; try tauto;
    cbn [exn_class exn_code recovery_error hint_invalid] in *; try discriminate; try (apply list_elem_of_In; cbn; tauto).
Qed.

Definition sample_identity (runtime_epoch api_epoch : Z) : RecoveryIdentity :=
  mkIdentity (match workspace_id (PStr $"prj_00112233445566778899aabbccddeeff") (PStr $"codex") with
              | Ok w => w | Raise _ => [] end)
    $"prj_00112233445566778899aabbccddeeff" $"codex" 2 1 (repeat 97 64)
    $"wri_00112233445566778899aabbccddeeff" 1 runtime_epoch api_epoch $"att_00112233445566778899aabbccddeeff" 5
    $"session" 1 $"writer".

Lemma sample_identity_wf (re ae : Z) :
  1 <= re <= MAX_U64 -> 1 <= ae <= MAX_U64 -> identity_wf (sample_identity re ae).
Proof.
  intros Hr Ha. constructor; [reflexivity | reflexivity | reflexivity | reflexivity | | discriminate | reflexivity |].
  - exists CODEX. split; [reflexivity |]. unfold sample_identity. cbn [ri_workspace_id ri_project_id].
    change $"codex" with (agent_value CODEX).
    destruct (workspace_id_ok $"prj_00112233445566778899aabbccddeeff" CODEX eq_refl) as (w & -> & _). done.
  - repeat (constructor; [cbn [sample_identity ri_generation ri_binding_revision ri_host_revision ri_runtime_epoch
      ri_api_authority_epoch ri_lease_number ri_auth_epoch]; unfold MAX_U64 in *; lia |]). constructor.
Qed.

Lemma resume_exact_witness :
  classify_resume (sample_identity 3 1) (sample_identity 3 1) (mkHint (PInt 7) (PInt 3)) = Ok REPLAY
  /\ classify_resume (sample_identity 3 1) (sample_identity 4 1) (mkHint (PInt 7) (PInt 3)) <> Ok REPLAY.
Proof.
  assert (H : forall z, 1 <= z <= 4 -> identity_wf (sample_identity z 1))
    by (intros; apply sample_identity_wf; unfold MAX_U64; lia).
  split.
  - apply (resume_exact (sample_identity 3 1) (sample_identity 3 1) (mkHint (PInt 7) (PInt 3))
             (H 3 ltac:(lia)) (H 3 ltac:(lia))).
    repeat split. exists 7. split; [done | unfold MAX_U64; lia].
  - intros E. apply (resume_exact (sample_identity 3 1) (sample_identity 4 1) (mkHint (PInt 7) (PInt 3))
             (H 3 ltac:(lia)) (H 4 ltac:(lia))) in E. by destruct E as (_ & ? & _).
Defined.
