(* ===== verification/Lease.v ===== *)
(** * The attachment lease-cleanup fence ([agentbox_core/waw_lease.py])

    [LeaseCleanupFence]: admission, heartbeats, staleness, detach and the
    proof of cleanup that alone releases the writer slot.  An operation gives
    the fence it leaves behind, also when it raises, and its snapshot or
    exception.  Times and durations are integers (the code adds and compares
    them, nothing else); a reading is [None] when it is not a finite number.
    The lock makes each operation atomic, so an execution is a sequence of
    operations. *)

From S2P Require Import Prelude PyVal Sha256 WawDomain Recovery.

Local Open Scope Z_scope.

Inductive LeaseCleanupState : Type :=
| L_PENDING | L_ADMITTING | L_ACTIVE | L_STALE | L_EXPIRED | L_DETACHING | L_RECONCILIATION_REQUIRED
| L_DETACHED | L_CLOSED.

#[export] Instance LeaseCleanupState_eq_dec : EqDecision LeaseCleanupState.
Proof. solve_decision. Defined.

Definition lease_error (code text : string) : exn := Exn LeaseCleanupError code text.

Record LeaseOwner : Type := mkOwner { owner_identity : RecoveryIdentity }.

#[export] Instance LeaseOwner_eq_dec : EqDecision LeaseOwner.
Proof. solve_decision. Defined.

(** [LeaseOwner(identity)]; [None] when the argument is no identity *)
Definition new_owner (identity : option RecoveryIdentity) : result LeaseOwner :=
  match identity with
  | Some i => Ok (mkOwner i)
  | None => Raise (lease_error "LEASE_OWNER_INVALID" "validated recovery identity is required")
  end.

Definition owner_attachment_id (o : LeaseOwner) : pystr := ri_attachment_id (owner_identity o).
Definition owner_generation (o : LeaseOwner) : Z := ri_generation (owner_identity o).
Definition owner_lease_number (o : LeaseOwner) : Z := ri_lease_number (owner_identity o).

Record LeaseCleanupSnapshot : Type := mkSnapshot {
  sn_attachment_id : pystr;
  sn_generation : Z;
  sn_lease_number : Z;
  sn_state : LeaseCleanupState;
  sn_last_heartbeat : Z;
  sn_stale_at : Z;
  sn_grace_until : Z;
  sn_detach_deadline : option Z;
  sn_cleanup_state : option pystr
}.

(** [replace(snapshot, state=...)] *)
Definition with_state (s : LeaseCleanupSnapshot) (st : LeaseCleanupState) : LeaseCleanupSnapshot :=
  mkSnapshot (sn_attachment_id s) (sn_generation s) (sn_lease_number s) st (sn_last_heartbeat s) (sn_stale_at s)
    (sn_grace_until s) (sn_detach_deadline s) (sn_cleanup_state s).

Definition writer_slot_reserved (s : LeaseCleanupSnapshot) : bool :=
  negb (bool_decide (sn_state s = L_DETACHED)).

Record LeaseCleanupFence : Type := mkFence {
  stale_after : Z;
  grace : Z;
  detach_timeout : Z;
  snapshot : option LeaseCleanupSnapshot;
  owner : option LeaseOwner;
  last_observed : option Z
}.

(** A duration that is not [None] is a finite number. *)
Definition new_fence (stale_after_seconds grace_seconds detach_timeout_seconds : option Z) : result LeaseCleanupFence :=
  let e := err PyValueError "lease cleanup durations must be positive" in
  match stale_after_seconds, grace_seconds, detach_timeout_seconds with
  | Some s, Some g, Some d =>
      run! raise_if ((s <=? 0) || (g <=? 0) || (d <=? 0) || (g <? s)) e in
      Ok (mkFence s g d None None None)
  | _, _, _ => Raise e
  end.

Definition set_snapshot (f : LeaseCleanupFence) (s : LeaseCleanupSnapshot) : LeaseCleanupFence :=
  mkFence (stale_after f) (grace f) (detach_timeout f) (Some s) (owner f) (last_observed f).
Definition set_owner (f : LeaseCleanupFence) (o : LeaseOwner) : LeaseCleanupFence :=
  mkFence (stale_after f) (grace f) (detach_timeout f) (snapshot f) (Some o) (last_observed f).
Definition set_observed (f : LeaseCleanupFence) (t : Z) : LeaseCleanupFence :=
  mkFence (stale_after f) (grace f) (detach_timeout f) (snapshot f) (owner f) (Some t).

(** [_require] *)
Definition require (f : LeaseCleanupFence) : result LeaseCleanupSnapshot :=
  match snapshot f with
  | None => Raise (lease_error "ATTACHMENT_NOT_FOUND" "attachment cleanup record is absent")
  | Some s => Ok s
  end.

(** [_observe_now]: the instant observed, and the fence that remembers it;
    [requested] is the argument [now], [clock] what [_clock()] would answer *)
Definition observe_now (f : LeaseCleanupFence) (requested : option (option Z)) (clock : option Z)
  : result (Z * LeaseCleanupFence) :=
  match (match requested with None => clock | Some r => r end) with
  | None => Raise (lease_error "CLOCK_INVALID" "lease cleanup clock must be finite")
  | Some current =>
      run! raise_if (match last_observed f with Some l => current <? l | None => false end)
             (lease_error "CLOCK_ROLLBACK" "lease cleanup clock moved backwards") in
      Ok (current, set_observed f current)
  end.

(** The deadlines [_advance] applies to a snapshot. *)
Definition advance_snapshot (s : LeaseCleanupSnapshot) (current : Z) : LeaseCleanupSnapshot :=
  let s1 := if bool_decide (sn_state s = L_ACTIVE) && (sn_stale_at s <=? current) then with_state s L_STALE else s in
  let s2 := if bool_decide (sn_state s1 = L_STALE) && (sn_grace_until s1 <=? current) then with_state s1 L_EXPIRED
            else s1 in
  if bool_decide (sn_state s2 = L_DETACHING)
     && match sn_detach_deadline s2 with Some d => d <=? current | None => false end
  then with_state s2 L_RECONCILIATION_REQUIRED else s2.

(** [_advance]: the snapshot, the instant [_last_observed] and the fence *)
Definition advance (f : LeaseCleanupFence) (requested : option (option Z)) (clock : option Z)
  : result (LeaseCleanupSnapshot * Z * LeaseCleanupFence) :=
  let! s := require f in
  let! '(current, f') := observe_now f requested clock in
  let s' := advance_snapshot s current in
  Ok (s', current, set_snapshot f' s').

(** ** Operations *)

Abbreviation outcome := (LeaseCleanupFence * result LeaseCleanupSnapshot)%type.

Definition failed (f : LeaseCleanupFence) (code text : string) : outcome := (f, Raise (lease_error code text)).

(** [begin]; [who] is [None] when the argument is no [LeaseOwner] *)
Definition begin (f : LeaseCleanupFence) (attachment : pystr) (generation lease_number : Z) (who : option LeaseOwner)
    (clock : option Z) : outcome :=
  match who with
  | None => failed f "LEASE_OWNER_INVALID" "typed lease owner is required"
  | Some o =>
      if negb (str_eqb (owner_attachment_id o) attachment) || negb (owner_generation o =? generation)
         || negb (owner_lease_number o =? lease_number)
      then failed f "LEASE_OWNER_MISMATCH" "lease owner does not match attachment"
      else if match snapshot f with Some s => writer_slot_reserved s | None => false end
      then failed f "ATTACHMENT_BUSY" "attachment cleanup is already reserved"
      else
        match observe_now f None clock with
        | Raise e => (f, Raise e)
        | Ok (now, f') =>
            let s := mkSnapshot attachment generation lease_number L_ADMITTING now (now + stale_after f)
                       (now + grace f) None None in
            (set_owner (set_snapshot f' s) o, Ok s)
        end
  end.

Definition commit_admission (f : LeaseCleanupFence) : outcome :=
  match require f with
  | Raise e => (f, Raise e)
  | Ok s =>
      if negb (bool_decide (sn_state s = L_ADMITTING))
      then failed f "ATTACHMENT_STATE_INVALID" "attachment is not admitting"
      else let s' := with_state s L_ACTIVE in (set_snapshot f s', Ok s')
  end.

Definition heartbeat (f : LeaseCleanupFence) (now : option (option Z)) (clock : option Z) : outcome :=
  match advance f now clock with
  | Raise e => (f, Raise e)
  | Ok (s, current, f') =>
      if negb (bool_decide (sn_state s = L_ACTIVE)) then failed f' "ATTACHMENT_STALE" "stale attachment cannot renew"
      else
        let s' := mkSnapshot (sn_attachment_id s) (sn_generation s) (sn_lease_number s) (sn_state s) current
                    (current + stale_after f') (current + grace f') (sn_detach_deadline s) (sn_cleanup_state s) in
        (set_snapshot f' s', Ok s')
  end.

Definition request_detach (f : LeaseCleanupFence) (now : option (option Z)) (clock : option Z) : outcome :=
  match advance f now clock with
  | Raise e => (f, Raise e)
  | Ok (s, current, f') =>
      if bool_decide (sn_state s ∈ [L_DETACHING; L_DETACHED; L_CLOSED; L_RECONCILIATION_REQUIRED]) then (f', Ok s)
      else if negb (bool_decide (sn_state s ∈ [L_ACTIVE; L_STALE; L_EXPIRED]))
      then failed f' "ATTACHMENT_STATE_INVALID" "attachment cannot detach"
      else
        let s' := mkSnapshot (sn_attachment_id s) (sn_generation s) (sn_lease_number s) L_DETACHING
                    (sn_last_heartbeat s) (sn_stale_at s) (sn_grace_until s) (Some (current + detach_timeout f'))
                    (sn_cleanup_state s) in
        (set_snapshot f' s', Ok s')
  end.

Definition acknowledge_cleanup (f : LeaseCleanupFence) (cleanup_state : pystr) (now : option (option Z))
    (who : option LeaseOwner) (clock : option Z) : outcome :=
  match advance f now clock with
  | Raise e => (f, Raise e)
  | Ok (s, _, f') =>
      if negb (bool_decide (sn_state s ∈ [L_DETACHING; L_RECONCILIATION_REQUIRED]))
      then failed f' "DETACH_ACK_UNEXPECTED" "cleanup acknowledgement is unexpected"
      else if match owner f' with Some o => negb (bool_decide (who = Some o)) | None => false end
      then failed f' "DETACH_ACK_STALE" "cleanup proof does not match the exact attachment owner"
      else if negb (str_eqb cleanup_state $"ATTACH_PTY_CLOSED")
      then failed f' "DETACH_ACK_INVALID" "positive PTY cleanup proof is required"
      else
        let s' := mkSnapshot (sn_attachment_id s) (sn_generation s) (sn_lease_number s) L_DETACHED
                    (sn_last_heartbeat s) (sn_stale_at s) (sn_grace_until s) None (Some cleanup_state) in
        (set_snapshot f' s', Ok s')
  end.

Definition tick (f : LeaseCleanupFence) (now : option (option Z)) (clock : option Z) : outcome :=
  match advance f now clock with
  | Raise e => (f, Raise e)
  | Ok (s, _, f') => (f', Ok s)
  end.

(** ** Executions *)

Inductive operation : Type :=
| Begin (attachment : pystr) (generation lease_number : Z) (who : option LeaseOwner)
| CommitAdmission
| Heartbeat (now : option (option Z))
| RequestDetach (now : option (option Z))
| AcknowledgeCleanup (cleanup_state : pystr) (now : option (option Z)) (who : option LeaseOwner)
| Tick (now : option (option Z)).

(** An operation, with the clock's answer should it be asked. *)
Definition apply_op (f : LeaseCleanupFence) (op : operation) (clock : option Z) : outcome :=
  match op with
  | Begin a g n w => begin f a g n w clock
  | CommitAdmission => commit_admission f
  | Heartbeat now => heartbeat f now clock
  | RequestDetach now => request_detach f now clock
  | AcknowledgeCleanup c now w => acknowledge_cleanup f c now w clock
  | Tick now => tick f now clock
  end.

Definition run (f : LeaseCleanupFence) (ops : list (operation * option Z)) : LeaseCleanupFence :=
  fold_left (fun f '(op, clock) => fst (apply_op f op clock)) ops f.

(** Fences the constructor and the operations can produce. *)
Inductive reachable : LeaseCleanupFence -> Prop :=
| Reach_new s g d f : new_fence s g d = Ok f -> reachable f
| Reach_step f op clock : reachable f -> reachable (fst (apply_op f op clock)).

(** ** Specification *)

(** The state the deadlines of a snapshot give it at an instant. *)
Definition state_at (s : LeaseCleanupSnapshot) (t : Z) : LeaseCleanupState :=
  match sn_state s with
  | L_ACTIVE => if t <? sn_stale_at s then L_ACTIVE else if t <? sn_grace_until s then L_STALE else L_EXPIRED
  | L_STALE => if t <? sn_grace_until s then L_STALE else L_EXPIRED
  | L_DETACHING => match sn_detach_deadline s with
                   | Some d => if t <? d then L_DETACHING else L_RECONCILIATION_REQUIRED
                   | None => L_DETACHING
                   end
  | st => st
  end.

(** How far an attachment has come. *)
Definition rank (st : LeaseCleanupState) : Z :=
  match st with
  | L_PENDING => 0 | L_ADMITTING => 1 | L_ACTIVE => 2 | L_STALE => 3 | L_EXPIRED => 4 | L_DETACHING => 5
  | L_RECONCILIATION_REQUIRED => 6 | L_DETACHED => 7 | L_CLOSED => 8
  end.

Definition detaching (st : LeaseCleanupState) : Prop := st = L_DETACHING \/ st = L_RECONCILIATION_REQUIRED.

Definition same_lease (s s' : LeaseCleanupSnapshot) : Prop :=
  sn_attachment_id s = sn_attachment_id s' /\ sn_generation s = sn_generation s'
  /\ sn_lease_number s = sn_lease_number s'.

Record snapshot_inv (stale_after grace detach_timeout : Z) (o : LeaseOwner) (l : Z) (s : LeaseCleanupSnapshot)
  : Prop := mkSnapshotInv {
  si_attachment : sn_attachment_id s = owner_attachment_id o;
  si_generation : sn_generation s = owner_generation o;
  si_lease : sn_lease_number s = owner_lease_number o;
  si_state : sn_state s <> L_PENDING /\ sn_state s <> L_CLOSED;
  si_heartbeat : sn_last_heartbeat s <= l;
  si_stale : sn_stale_at s = sn_last_heartbeat s + stale_after;
  si_grace : sn_grace_until s = sn_last_heartbeat s + grace;
  si_deadline : match sn_detach_deadline s with
                | Some d => detaching (sn_state s) /\ d <= l + detach_timeout
                | None => ~ detaching (sn_state s)
                end;
  si_cleanup : sn_cleanup_state s = if writer_slot_reserved s then None else Some $"ATTACH_PTY_CLOSED"
}.

Definition fence_inv (f : LeaseCleanupFence) : Prop :=
  0 < stale_after f <= grace f /\ 0 < detach_timeout f
  /\ match snapshot f, owner f, last_observed f with
     | Some s, Some o, Some l => snapshot_inv (stale_after f) (grace f) (detach_timeout f) o l s
     | None, None, None => True
     | _, _, _ => False
     end.

(** ** Lemmas *)

(** Evaluate the tests of one known state against another. *)
Ltac decide_states :=
  repeat (progress
    (cbn [andb negb sn_state sn_stale_at sn_grace_until sn_detach_deadline sn_attachment_id sn_generation
          sn_lease_number sn_last_heartbeat sn_cleanup_state];
     try match goal with
     | |- context [bool_decide (?a = ?b)] =>
         first [rewrite (bool_decide_eq_true_2 (a = b)) by reflexivity
               | rewrite (bool_decide_eq_false_2 (a = b)) by discriminate]
     end)).

Lemma advance_snapshot_spec (s : LeaseCleanupSnapshot) (t : Z) : advance_snapshot s t = with_state s (state_at s t).
Proof.
  destruct s as [a g n st hb sa gu dd cs]. unfold advance_snapshot, state_at, with_state.
  destruct st; decide_states; try done.
  - rewrite !Z.ltb_antisym. destruct (sa <=? t); decide_states; [| done].
    destruct (gu <=? t); by decide_states.
  - rewrite !Z.ltb_antisym. destruct (gu <=? t); by decide_states.
  - destruct dd as [d|]; [| done]. rewrite Z.ltb_antisym. by destruct (d <=? t).
Qed.

(** Time only moves a state along its deadlines: one observation at the later
    instant is the same as one at each. *)
Lemma state_at_compose (s : LeaseCleanupSnapshot) (t1 t2 : Z) :
  t1 <= t2 -> state_at (with_state s (state_at s t1)) t2 = state_at s t2.
Proof.
  intros Ht. destruct s as [a g n st hb sa gu dd cs]. unfold state_at, with_state.
  destruct st; cbn [sn_state sn_stale_at sn_grace_until sn_detach_deadline]; try done.
  - destruct (Z.ltb_spec t1 sa), (Z.ltb_spec t1 gu), (Z.ltb_spec t2 sa), (Z.ltb_spec t2 gu); try lia; done.
  - destruct (Z.ltb_spec t1 gu), (Z.ltb_spec t2 gu); try lia; done.
  - destruct dd as [d|]; [| done]. destruct (Z.ltb_spec t1 d), (Z.ltb_spec t2 d); try lia; done.
Qed.

Lemma state_at_rank (s : LeaseCleanupSnapshot) (t : Z) : rank (sn_state s) <= rank (state_at s t).
Proof. unfold state_at. destruct (sn_state s); repeat case_match; cbn; lia. Qed.

Lemma state_at_inv (sa g d : Z) (o : LeaseOwner) (l t : Z) (s : LeaseCleanupSnapshot) :
  snapshot_inv sa g d o l s -> l <= t -> snapshot_inv sa g d o t (with_state s (state_at s t)).
Proof.
  intros [Ha Hg Hn [Hp Hc] Hh Hs Hgr Hd Hcl] Ht.
  assert (Hst : state_at s t = sn_state s \/ detaching (sn_state s) /\ detaching (state_at s t)
                \/ (~ detaching (sn_state s) /\ ~ detaching (state_at s t) /\ state_at s t <> L_PENDING
                    /\ state_at s t <> L_CLOSED /\ sn_state s <> L_DETACHED /\ state_at s t <> L_DETACHED))
    by (unfold state_at, detaching; destruct (sn_state s); repeat case_match;
        first [by left | right; left; split; tauto
              | right; right; repeat split; try discriminate; by intros [? | ?]]).
  constructor; cbn [with_state sn_attachment_id sn_generation sn_lease_number sn_state sn_last_heartbeat sn_stale_at
                    sn_grace_until sn_detach_deadline sn_cleanup_state]; try done; try lia.
  - unfold detaching in Hst. destruct Hst as [-> | [[_ [-> | ->]] | (_ & _ & ? & ? & _)]]; done.
  - destruct (sn_detach_deadline s) as [dl|].
    + destruct Hd as [Hd Hle]. split; [| lia]. destruct Hst as [-> | [[_ ?] | (? & _)]]; done.
    + destruct Hst as [-> | [[? _] | (_ & ? & _)]]; done.
  - rewrite Hcl. unfold writer_slot_reserved. cbn [with_state sn_state].
    destruct Hst as [-> | [[Hx Hy] | (_ & _ & _ & _ & Hx & Hy)]]; [done | |].
    + destruct Hx as [-> | ->], Hy as [-> | ->]; done.
    + by rewrite !bool_decide_eq_false_2.
Qed.

(** The reading an operation takes. *)
Definition reading (now : option (option Z)) (clock : option Z) : option Z :=
  match now with None => clock | Some r => r end.

Lemma observe_now_ok (f f' : LeaseCleanupFence) (now : option (option Z)) (clock : option Z) (t : Z) :
  observe_now f now clock = Ok (t, f') <->
  reading now clock = Some t /\ f' = set_observed f t
  /\ match last_observed f with Some l => l <= t | None => True end.
Proof.
  unfold observe_now, reading. destruct (match now with Some r => r | None => clock end) as [c|];
    [| split; [done | by intros (? & _)]].
  destruct (last_observed f) as [l|]; cbn [raise_if rbind].
  - destruct (Z.ltb_spec c l); cbn [raise_if rbind].
    + split; [done |]. intros ([= ->] & _ & ?). lia.
    + split; [intros [= -> <-]; auto | by intros ([= ->] & -> & _)].
  - split; [intros [= -> <-]; auto | by intros ([= ->] & -> & _)].
Qed.

Lemma observe_now_raise (f : LeaseCleanupFence) (now : option (option Z)) (clock : option Z) (e : exn) :
  observe_now f now clock = Raise e -> exn_class e = LeaseCleanupError.
Proof.
  unfold observe_now. destruct (match now with Some r => r | None => clock end) as [c|]; [| by intros [= <-]].
  destruct (match last_observed f with Some l => c <? l | None => false end); by intros [= <-].
Qed.

Lemma advance_raise (f : LeaseCleanupFence) (now : option (option Z)) (clock : option Z) (e : exn) :
  advance f now clock = Raise e -> exn_class e = LeaseCleanupError.
Proof.
  unfold advance, require. destruct (snapshot f); cbn [rbind]; [| by intros [= <-]].
  destruct (observe_now f now clock) as [[c f1] | x] eqn:E; cbn [rbind]; [done |].
  intros [= ->]. by eapply observe_now_raise.
Qed.

Lemma advance_ok (f f' : LeaseCleanupFence) (now : option (option Z)) (clock : option Z) (t : Z)
    (s' : LeaseCleanupSnapshot) :
  advance f now clock = Ok (s', t, f') <->
  exists s, snapshot f = Some s /\ reading now clock = Some t
    /\ match last_observed f with Some l => l <= t | None => True end
    /\ s' = with_state s (state_at s t) /\ f' = set_snapshot (set_observed f t) s'.
Proof.
  unfold advance, require. destruct (snapshot f) as [s|]; cbn [rbind]; [| split; [done | by intros (? & ? & _)]].
  destruct (observe_now f now clock) as [[c f1] | e] eqn:E; cbn [rbind].
  - apply observe_now_ok in E as (Er & -> & El). rewrite advance_snapshot_spec. split.
    + intros [= <- -> <-]. eauto 10.
    + intros (s1 & [= <-] & Er' & _ & -> & ->). rewrite Er in Er'. by injection Er' as ->.
  - split; [done |]. intros (s1 & _ & Er & El & _).
    by rewrite (proj2 (observe_now_ok f (set_observed f t) now clock t)) in E.
Qed.

(** What a timed operation finds: the owner, the last instant, and the snapshot
    with its deadlines applied. *)
Lemma advance_inv (f f' : LeaseCleanupFence) (now : option (option Z)) (clock : option Z) (t : Z)
    (s' : LeaseCleanupSnapshot) :
  fence_inv f -> advance f now clock = Ok (s', t, f') ->
  exists s o l, snapshot f = Some s /\ owner f = Some o /\ last_observed f = Some l /\ l <= t
    /\ reading now clock = Some t /\ s' = with_state s (state_at s t)
    /\ f' = mkFence (stale_after f) (grace f) (detach_timeout f) (Some s') (Some o) (Some t)
    /\ snapshot_inv (stale_after f) (grace f) (detach_timeout f) o t s'.
Proof.
  intros (Hs & Hd & Hi) (s & Es & Er & El & -> & ->)%advance_ok.
  unfold set_snapshot, set_observed. cbn [stale_after grace detach_timeout snapshot owner last_observed].
  rewrite Es in Hi. destruct (owner f) as [o|]; [| done]. destruct (last_observed f) as [l|]; [| done].
  exists s, o, l. repeat (split; [done |]). by eapply state_at_inv.
Qed.

Lemma fence_snapshot (f : LeaseCleanupFence) (s : LeaseCleanupSnapshot) (l : Z) :
  fence_inv f -> snapshot f = Some s -> last_observed f = Some l ->
  exists o, owner f = Some o /\ snapshot_inv (stale_after f) (grace f) (detach_timeout f) o l s.
Proof. intros (_ & _ & H) Es El. rewrite Es, El in H. destruct (owner f) as [o|]; [by exists o | done]. Qed.

(** A fence with one snapshot put in place of another. *)
Lemma fence_inv_set (f : LeaseCleanupFence) (o : LeaseOwner) (t : Z) (s : LeaseCleanupSnapshot) :
  fence_inv f -> snapshot_inv (stale_after f) (grace f) (detach_timeout f) o t s ->
  fence_inv (mkFence (stale_after f) (grace f) (detach_timeout f) (Some s) (Some o) (Some t)).
Proof. by intros (Hs & Hd & _) H. Qed.

Lemma not_detaching (st : LeaseCleanupState) : st ∉ [L_DETACHING; L_RECONCILIATION_REQUIRED] <-> ~ detaching st.
Proof. unfold detaching. rewrite !elem_of_cons, elem_of_nil. tauto. Qed.

(** The owner [begin] is given is the one of the attachment it names. *)
Lemma begin_inv (f : LeaseCleanupFence) (a : pystr) (g n : Z) (who : option LeaseOwner) (clock : option Z) :
  fence_inv f ->
  (exists e, begin f a g n who clock = (f, Raise e) /\ exn_class e = LeaseCleanupError)
  \/ (exists o t s', who = Some o /\ a = owner_attachment_id o /\ g = owner_generation o
       /\ n = owner_lease_number o /\ clock = Some t
       /\ match last_observed f with Some l => l <= t | None => True end
       /\ match snapshot f with Some s => writer_slot_reserved s = false | None => True end
       /\ s' = mkSnapshot a g n L_ADMITTING t (t + stale_after f) (t + grace f) None None
       /\ begin f a g n who clock
          = (mkFence (stale_after f) (grace f) (detach_timeout f) (Some s') (Some o) (Some t), Ok s')).
Proof.
  intros Hi. unfold begin, failed. destruct who as [o|]; [| left; by eexists].
  case_if; [left; by eexists |]. destruct (match snapshot f with Some s => _ | None => _ end) eqn:Eb;
    [left; by eexists |].
  destruct (observe_now f None clock) as [[t f1] | e] eqn:Eo.
  - right. apply observe_now_ok in Eo as (Ec & -> & El). bool_to_prop. apply str_eqb_eq in H.
    exists o, t. eexists. repeat (split; [done |]). split; [by destruct (snapshot f) |]. split; [done |]. done.
  - left. exists e. split; [done | by eapply observe_now_raise].
Qed.

(** How an operation on a begun attachment leaves the fence: as it was, when the
    admission state or the clock refuses it, or at a later instant with the
    deadlines applied and then one of the four moves. *)
Inductive moved (f : LeaseCleanupFence) (s : LeaseCleanupSnapshot) (t : Z)
  : operation -> LeaseCleanupSnapshot -> result LeaseCleanupSnapshot -> Prop :=
| Moved_tick now : moved f s t (Tick now) s (Ok s)
| Moved_renew now s' : sn_state s = L_ACTIVE ->
    s' = mkSnapshot (sn_attachment_id s) (sn_generation s) (sn_lease_number s) L_ACTIVE t (t + stale_after f)
           (t + grace f) (sn_detach_deadline s) (sn_cleanup_state s) -> moved f s t (Heartbeat now) s' (Ok s')
| Moved_detach now s' : sn_state s ∈ [L_ACTIVE; L_STALE; L_EXPIRED] ->
    s' = mkSnapshot (sn_attachment_id s) (sn_generation s) (sn_lease_number s) L_DETACHING (sn_last_heartbeat s)
           (sn_stale_at s) (sn_grace_until s) (Some (t + detach_timeout f)) (sn_cleanup_state s) ->
    moved f s t (RequestDetach now) s' (Ok s')
| Moved_detached now : sn_state s ∈ [L_DETACHING; L_DETACHED; L_CLOSED; L_RECONCILIATION_REQUIRED] ->
    moved f s t (RequestDetach now) s (Ok s)
| Moved_clean now s' : detaching (sn_state s) ->
    s' = mkSnapshot (sn_attachment_id s) (sn_generation s) (sn_lease_number s) L_DETACHED (sn_last_heartbeat s)
           (sn_stale_at s) (sn_grace_until s) None (Some $"ATTACH_PTY_CLOSED") ->
    moved f s t (AcknowledgeCleanup $"ATTACH_PTY_CLOSED" now (owner f)) s' (Ok s')
| Moved_refused op e : (forall now, op <> Tick now) -> exn_class e = LeaseCleanupError ->
    (forall now, op = Heartbeat now -> sn_state s <> L_ACTIVE) -> moved f s t op s (Raise e).

Definition timed (op : operation) : option (option (option Z)) :=
  match op with
  | Heartbeat now | RequestDetach now | AcknowledgeCleanup _ now _ | Tick now => Some now
  | _ => None
  end.

Lemma timed_op (f : LeaseCleanupFence) (op : operation) (now : option (option Z)) (clock : option Z) :
  fence_inv f -> timed op = Some now ->
  (exists e, advance f now clock = Raise e /\ apply_op f op clock = (f, Raise e) /\ exn_class e = LeaseCleanupError)
  \/ (exists s o l t s' r, snapshot f = Some s /\ owner f = Some o /\ last_observed f = Some l /\ l <= t
       /\ reading now clock = Some t
       /\ snapshot_inv (stale_after f) (grace f) (detach_timeout f) o t (with_state s (state_at s t))
       /\ moved f (with_state s (state_at s t)) t op s' r
       /\ apply_op f op clock
          = (mkFence (stale_after f) (grace f) (detach_timeout f) (Some s') (Some o) (Some t), r)).
Proof.
  intros Hi Hop. destruct (advance f now clock) as [[[s1 t] f1] | e] eqn:E.
  2: { left. exists e. split; [done |]. split; [| by eapply advance_raise].
       destruct op; try discriminate; injection Hop as ->; cbn [apply_op]; unfold heartbeat, request_detach,
         acknowledge_cleanup, tick; by rewrite E. }
  right. pose proof E as (s & o & l & Es & Eo & Ell & Hl & Er & -> & -> & Hs)%advance_inv; [| done].
  exists s, o, l, t. set (s1 := with_state s (state_at s t)) in *.
  destruct op as [| | |x|c x who|]; try discriminate; injection Hop as ->; cbn [apply_op];
    unfold heartbeat, request_detach, acknowledge_cleanup, tick, failed, set_snapshot; rewrite E;
    cbn [stale_after grace detach_timeout snapshot owner last_observed].
  - destruct (bool_decide_reflect (sn_state s1 = L_ACTIVE)) as [Ha | Ha]; cbn [negb];
      do 2 eexists; repeat (split; [done |]); (split; [| done]).
    + rewrite Ha. by eapply Moved_renew.
    + by apply Moved_refused.
  - destruct (bool_decide_reflect (sn_state s1 ∈ [L_DETACHING; L_DETACHED; L_CLOSED; L_RECONCILIATION_REQUIRED]));
      [| destruct (bool_decide_reflect (sn_state s1 ∈ [L_ACTIVE; L_STALE; L_EXPIRED]))]; cbn [negb];
      do 2 eexists; repeat (split; [done |]); (split; [| done]).
    + by apply Moved_detached.
    + by eapply Moved_detach.
    + by apply Moved_refused.
  - destruct (bool_decide_reflect (sn_state s1 ∈ [L_DETACHING; L_RECONCILIATION_REQUIRED])) as [Hd | Hd]; cbn [negb];
      [| do 2 eexists; repeat (split; [done |]); (split; [| done]); by apply Moved_refused].
    destruct (bool_decide_reflect (who = Some o)) as [-> | Hw]; cbn [negb];
      [| do 2 eexists; repeat (split; [done |]); (split; [| done]); by apply Moved_refused].
    destruct (str_eqb c _) eqn:Ec; cbn [negb];
      do 2 eexists; repeat (split; [done |]); (split; [| done]); [| by apply Moved_refused].
    apply str_eqb_eq in Ec as ->. rewrite <- Eo. eapply Moved_clean; [| done].
    unfold detaching. rewrite !elem_of_cons, elem_of_nil in Hd. tauto.
  - do 2 eexists; repeat (split; [done |]). split; [apply Moved_tick | done].
Qed.

Lemma moved_inv (f : LeaseCleanupFence) (o : LeaseOwner) (s s' : LeaseCleanupSnapshot) (t : Z) (op : operation)
    (r : result LeaseCleanupSnapshot) :
  snapshot_inv (stale_after f) (grace f) (detach_timeout f) o t s -> moved f s t op s' r ->
  snapshot_inv (stale_after f) (grace f) (detach_timeout f) o t s'.
Proof.
  intros Hs Hm. destruct Hm as [| now s' Ha -> | now s' Hd -> | | now s' Hd -> | ]; try done;
    destruct Hs as [H1 H2 H3 H4 H5 H6 H7 H8 H9]; constructor;
    cbn [sn_attachment_id sn_generation sn_lease_number sn_state sn_last_heartbeat sn_stale_at sn_grace_until
         sn_detach_deadline sn_cleanup_state]; try done; try lia.
  - rewrite Ha in H8. done.
  - rewrite H9. unfold writer_slot_reserved. cbn [sn_state]. by rewrite Ha.
  - split; [by left | lia].
  - rewrite H9. unfold writer_slot_reserved. cbn [sn_state].
    rewrite !elem_of_cons, elem_of_nil in Hd. by destruct Hd as [-> | [-> | [-> | []]]].
  - by intros [? | ?].
Qed.

(** The identity of the lease is kept, the state only moves forward. *)
Lemma moved_forward (f : LeaseCleanupFence) (s s' : LeaseCleanupSnapshot) (t : Z) (op : operation)
    (r : result LeaseCleanupSnapshot) :
  moved f s t op s' r ->
  same_lease s s' /\ rank (sn_state s) <= rank (sn_state s')
  /\ (writer_slot_reserved s = true -> writer_slot_reserved s' = false ->
      exists now, op = AcknowledgeCleanup $"ATTACH_PTY_CLOSED" now (owner f) /\ detaching (sn_state s) /\ r = Ok s').
Proof.
  intros Hm. destruct Hm as [| now s' Ha -> | now s' Hd -> | | now s' Hd -> | ];
    cbn [sn_state]; (split; [done |]); (split; [| intros Hr Hn; try (rewrite Hr in Hn; discriminate);
      try discriminate]); try lia.
  - by rewrite Ha.
  - rewrite !elem_of_cons, elem_of_nil in Hd. destruct Hd as [-> | [-> | [-> | []]]]; done.
  - by destruct Hd as [-> | ->].
  - by exists now.
Qed.

Lemma state_at_class (s : LeaseCleanupSnapshot) (t : Z) :
  (detaching (state_at s t) -> detaching (sn_state s))
  /\ writer_slot_reserved (with_state s (state_at s t)) = writer_slot_reserved s.
Proof.
  unfold detaching, writer_slot_reserved, state_at. cbn [with_state sn_state].
  destruct (sn_state s); repeat case_match; split; auto; by intros [? | ?].
Qed.

(** Nothing moves a detached attachment. *)
Lemma moved_detached (f : LeaseCleanupFence) (s s' : LeaseCleanupSnapshot) (t : Z) (op : operation)
    (r : result LeaseCleanupSnapshot) :
  writer_slot_reserved s = false -> moved f (with_state s (state_at s t)) t op s' r -> s' = s.
Proof.
  unfold writer_slot_reserved. intros Hw Hm. bool_to_prop.
  assert (E : with_state s (state_at s t) = s) by (unfold state_at; rewrite Hw; by destruct s; cbn in *; subst).
  rewrite E in Hm. destruct Hm as [| now s' Ha -> | now s' Hd -> | | now s' Hd -> | ]; try done.
  - congruence.
  - rewrite Hw, !elem_of_cons, elem_of_nil in Hd. by destruct Hd as [? | [? | [? | []]]].
  - rewrite Hw in Hd. by destruct Hd.
Qed.

Lemma lease_apply_op_inv (f : LeaseCleanupFence) (op : operation) (clock : option Z) :
  fence_inv f -> fence_inv (fst (apply_op f op clock)).
Proof.
  intros Hi. destruct (timed op) as [now|] eqn:Ht.
  - destruct (timed_op f op now clock Hi Ht) as
      [(e & _ & -> & _) | (s & o & l & t & s' & r & _ & _ & _ & _ & _ & Hs & Hm & ->)]; [done |].
    apply fence_inv_set; [done | by eapply moved_inv].
  - destruct op as [a g n who| | | | |]; try discriminate; cbn [apply_op].
    + destruct (begin_inv f a g n who clock Hi) as
        [(e & -> & _) | (o & t & s' & -> & -> & -> & -> & _ & _ & _ & -> & ->)]; [done |].
      apply fence_inv_set; [done |].
      constructor; cbn [sn_attachment_id sn_generation sn_lease_number sn_state sn_last_heartbeat sn_stale_at
        sn_grace_until sn_detach_deadline sn_cleanup_state]; try done; try lia. by intros [? | ?].
    + unfold commit_admission, require, failed. destruct (snapshot f) as [s|] eqn:Es; [| done].
      destruct (bool_decide_reflect (sn_state s = L_ADMITTING)) as [Ha | Ha]; cbn [negb]; [| done].
      destruct Hi as (H1 & H2 & H3). rewrite Es in H3. do 2 (split; [done |]).
      cbn [fst set_snapshot snapshot owner last_observed stale_after grace detach_timeout].
      destruct (owner f); [| done]. destruct (last_observed f); [| done].
      destruct H3 as [? ? ? ? ? ? ? Hd Hc]. constructor; try done; cbn [with_state sn_state sn_detach_deadline] in *.
      * rewrite Ha in Hd. destruct (sn_detach_deadline s); [by destruct Hd as [[? | ?] _] | by intros [? | ?]].
      * unfold writer_slot_reserved in *. cbn [with_state sn_state sn_cleanup_state]. by rewrite Hc, Ha.
Qed.

Lemma lease_reachable_inv (f : LeaseCleanupFence) : reachable f -> fence_inv f.
Proof.
  induction 1 as [s g d f H | f op clock _ IH]; [| by apply lease_apply_op_inv].
  unfold new_fence in H. destruct s, g, d; try discriminate. inv_ok. bool_to_prop.
  repeat split; cbn; lia.
Qed.

Lemma state_at_active (s : LeaseCleanupSnapshot) (t : Z) : state_at s t = L_ACTIVE -> sn_state s = L_ACTIVE.
Proof. unfold state_at. destruct (sn_state s); repeat case_match; congruence. Qed.

(** A heartbeat succeeds exactly on a lease that is active at its instant. *)
Lemma heartbeat_exact (f : LeaseCleanupFence) (s : LeaseCleanupSnapshot) (t : Z) now clock f' :
  advance f now clock = Ok (with_state s (state_at s t), t, f') ->
  (is_ok (snd (heartbeat f now clock)) = true <-> state_at s t = L_ACTIVE)
  /\ (forall s', snd (heartbeat f now clock) = Ok s' -> sn_last_heartbeat s' = t /\ sn_state s' = L_ACTIVE).
Proof.
  intros E. unfold heartbeat, failed. rewrite E. cbn [with_state sn_state].
  destruct (bool_decide_reflect (state_at s t = L_ACTIVE)) as [-> | Hn]; cbn [negb snd]; split; try done.
  by intros s' [= <-].
Qed.

(** ** Properties *)

(** The writer slot of an attachment is released only by the positive
    proof of cleanup, presented by the exact owner after a detach was requested;
    until then every operation keeps the owner and the identity of the lease and
    moves its state forward only.  A released slot is taken again only by
    [begin] for an attachment whose owner it is given. *)
Theorem slot_released_by_proof (f : LeaseCleanupFence) (op : operation) (clock : option Z) :
  reachable f ->
  let f' := fst (apply_op f op clock) in
  let r := snd (apply_op f op clock) in
  match snapshot f with
  | Some s =>
      if writer_slot_reserved s then
        exists s', snapshot f' = Some s' /\ owner f' = owner f /\ same_lease s s'
          /\ rank (sn_state s) <= rank (sn_state s')
          /\ (writer_slot_reserved s' = false ->
              detaching (sn_state s) /\ r = Ok s'
              /\ exists now, op = AcknowledgeCleanup $"ATTACH_PTY_CLOSED" now (owner f))
      else
        f' = f \/ snapshot f' = Some s /\ owner f' = owner f
        \/ exists o, op = Begin (owner_attachment_id o) (owner_generation o) (owner_lease_number o) (Some o)
             /\ owner f' = Some o
  | None =>
      f' = f
      \/ exists o, op = Begin (owner_attachment_id o) (owner_generation o) (owner_lease_number o) (Some o)
           /\ owner f' = Some o
  end.
Proof.
  intros Hr%lease_reachable_inv. cbn zeta. destruct (timed op) as [now|] eqn:Ht.
  - destruct (timed_op f op now clock Hr Ht) as
      [(e & _ & -> & _) | (s & o & l & t & s' & r & -> & Eo & _ & _ & _ & Hs & Hm & ->)]; cbn [fst snd].
    + destruct (snapshot f) as [s|]; [| by left]. destruct (writer_slot_reserved s) eqn:Ew; [| by left].
      exists s. repeat split; try done; congruence.
    + cbn [snapshot owner]. pose proof (moved_forward _ _ _ _ _ _ Hm) as (Hl & Hk & Hrel).
      destruct (state_at_class s t) as [Hsd Hsw].
      destruct (writer_slot_reserved s) eqn:Ew; [| right; left; split; [| done]].
      * exists s'. do 2 (split; [done |]). split; [apply Hl |].
        split; [etrans; [apply (state_at_rank s t) | apply Hk] |].
        intros Hn. destruct Hrel as (now' & -> & Hd & ->); [done | done |].
        split; [by apply Hsd | eauto].
      * f_equal. by eapply moved_detached.
  - destruct op as [a g n who| | | | |]; try discriminate; cbn [apply_op].
    + destruct (begin_inv f a g n who clock Hr) as
        [(e & -> & _) | (o & t & s' & -> & -> & -> & -> & _ & _ & Hw & -> & ->)]; cbn [fst snd];
        destruct (snapshot f) as [s|]; try (by left).
      * destruct (writer_slot_reserved s) eqn:Ew; [exists s; repeat split; try done; congruence | by left].
      * rewrite Hw. right. right. by exists o.
      * right. by exists o.
    + unfold commit_admission, require, failed. destruct (snapshot f) as [s|] eqn:Es; [| by left].
      destruct (bool_decide_reflect (sn_state s = L_ADMITTING)) as [Ha | Ha]; cbn [negb fst snd].
      * unfold writer_slot_reserved at 1. rewrite Ha. exists (with_state s L_ACTIVE). repeat split; done.
      * destruct (writer_slot_reserved s) eqn:Ew; [exists s; repeat split; try done; congruence | by left].
Qed.

(** An active lease is active until [stale_after] after its last heartbeat,
    stale until [grace] after it and expired from then on; a detach is overdue
    from its deadline.  A heartbeat renews exactly an active lease that is not
    yet stale, so a stale one is never revived.  How often the fence is polled
    does not matter: a tick at one instant and then at a later one leaves the
    fence a tick at the later instant leaves.  A reading that is not finite or
    lies before the last one is refused and changes nothing. *)
Theorem lease_timing (f : LeaseCleanupFence) (s : LeaseCleanupSnapshot) (l : Z) :
  reachable f -> snapshot f = Some s -> last_observed f = Some l ->
  (forall now clock t, reading now clock = Some t -> l <= t ->
     snd (tick f now clock) = Ok (with_state s (state_at s t))
     /\ (sn_state s = L_ACTIVE ->
         (state_at s t = L_ACTIVE <-> t < sn_last_heartbeat s + stale_after f)
         /\ (state_at s t = L_EXPIRED <-> sn_last_heartbeat s + grace f <= t))
     /\ (is_ok (snd (heartbeat f now clock)) = true <->
         sn_state s = L_ACTIVE /\ t < sn_last_heartbeat s + stale_after f)
     /\ (forall s', snd (heartbeat f now clock) = Ok s' -> sn_last_heartbeat s' = t /\ sn_state s' = L_ACTIVE)
     /\ (forall t2 clock2, t <= t2 ->
         tick (fst (tick f now clock)) (Some (Some t2)) clock2 = tick f (Some (Some t2)) clock2))
  /\ (forall op now clock, timed op = Some now ->
        match reading now clock with Some t => t < l | None => True end ->
        exists e, apply_op f op clock = (f, Raise e) /\ exn_class e = LeaseCleanupError).
Proof.
  intros Hr%lease_reachable_inv Es El. split.
  - intros now clock t Ht Hle.
    destruct (fence_snapshot f s l Hr Es El) as (o & _ & Hinv).
    pose proof (si_stale _ _ _ _ _ _ Hinv) as Hst. pose proof (si_grace _ _ _ _ _ _ Hinv) as Hgr.
    assert (Hd : 0 < stale_after f <= grace f) by apply Hr.
    assert (Ha : forall now' clock' t', reading now' clock' = Some t' -> l <= t' ->
       advance f now' clock' = Ok (with_state s (state_at s t'), t', set_snapshot (set_observed f t') (with_state s (state_at s t')))).
    { intros now' clock' t' E H. apply advance_ok. exists s. by rewrite El. }
    assert (Hact : sn_state s = L_ACTIVE ->
      (state_at s t = L_ACTIVE <-> t < sn_last_heartbeat s + stale_after f)
      /\ (state_at s t = L_EXPIRED <-> sn_last_heartbeat s + grace f <= t)).
    { intros E. unfold state_at. rewrite E, Hst, Hgr.
      destruct (Z.ltb_spec t (sn_last_heartbeat s + stale_after f)), (Z.ltb_spec t (sn_last_heartbeat s + grace f));
        repeat split; intros; try done; lia. }
    split; [unfold tick; by rewrite (Ha _ _ _ Ht Hle) |]. split; [done |].
    destruct (heartbeat_exact f s t now clock _ (Ha _ _ _ Ht Hle)) as [Hok Hnew].
    split; [rewrite Hok; split; [intros E; pose proof (state_at_active s t E); tauto | tauto] |]. split; [done |].
    intros t2 clock2 H2. unfold tick at 2. rewrite (Ha _ _ _ Ht Hle). cbn [fst].
    unfold tick. rewrite (Ha (Some (Some t2)) clock2 t2 eq_refl) by lia.
    erewrite (proj2 (advance_ok _ _ _ _ t2 _)).
    2: { eexists. split; [reflexivity |]. split; [reflexivity |]. split; [done |]. split; reflexivity. }
    rewrite state_at_compose by done. done.
  - intros op now clock Ht Hlt.
    destruct (timed_op f op now clock Hr Ht) as
      [(e & _ & -> & ?) | (s1 & o & l1 & t & s' & r & _ & _ & El1 & Hle & Er & _)]; [by exists e |].
    rewrite Er in Hlt. rewrite El in El1. injection El1 as ->. lia.
Qed.

(** A sample lease: admitted at 100, renewed at 120, detached at 200. *)
Definition sample_owner : LeaseOwner := mkOwner (sample_identity 1 1).

Definition sample_fence (ops : list (operation * option Z)) : LeaseCleanupFence :=
  run (mkFence 30 60 1 None None None)
    ((Begin $"att_00112233445566778899aabbccddeeff" 2 5 (Some sample_owner), Some 100)
     :: (CommitAdmission, None) :: (Heartbeat None, Some 120) :: ops).

Lemma run_reachable (ops : list (operation * option Z)) (f : LeaseCleanupFence) : reachable f -> reachable (run f ops).
Proof.
  revert f. induction ops as [|[op clock] ops IH]; intros f H; [done |]. apply IH. by constructor.
Qed.

Lemma lease_sample_reachable (ops : list (operation * option Z)) : reachable (sample_fence ops).
Proof.
  apply (run_reachable (_ :: _ :: _ :: ops) (mkFence 30 60 1 None None None)).
  apply (Reach_new (Some 30) (Some 60) (Some 1)). reflexivity.
 Qed.

Lemma slot_released_by_proof_witness :
  let f := sample_fence [(RequestDetach None, Some 200)] in
  exists s s', snapshot f = Some s /\ writer_slot_reserved s = true
    /\ snapshot (fst (apply_op f (AcknowledgeCleanup $"ATTACH_PTY_CLOSED" None (Some sample_owner)) (Some 250))) = Some s'
    /\ same_lease s s' /\ writer_slot_reserved s' = false /\ detaching (sn_state s).
Proof.
  intros f.
  pose proof (slot_released_by_proof f (AcknowledgeCleanup $"ATTACH_PTY_CLOSED" None (Some sample_owner)) (Some 250)
                (lease_sample_reachable _)) as H.
  destruct (snapshot f) as [s|] eqn:E; [| discriminate E].
  assert (Hw : writer_slot_reserved s = true) by (injection E as <-; reflexivity).
  rewrite Hw in H. destruct H as (s' & Hs & _ & Hl & _ & Hd).
  assert (Hw' : writer_slot_reserved s' = false)
    by (assert (Hs' := Hs); unfold f in Hs'; vm_compute in Hs'; injection Hs' as <-; reflexivity).
  exists s, s'. split; [done |]. split; [done |]. split; [done |]. split; [done |]. split; [done |]. by apply Hd.
Defined.

Lemma lease_timing_witness :
  let f := sample_fence [] in
  is_ok (snd (heartbeat f None (Some 149))) = true /\ is_ok (snd (heartbeat f None (Some 150))) = false.
Proof.
  intros f.
  pose proof (lease_timing f (mkSnapshot $"att_00112233445566778899aabbccddeeff" 2 5 L_ACTIVE 120 150 180 None None) 120
                (lease_sample_reachable _) eq_refl eq_refl) as [H _].
  split.
  - apply (H None (Some 149) 149 eq_refl ltac:(lia)). split; [reflexivity | vm_compute; reflexivity].
  - destruct (is_ok (snd (heartbeat f None (Some 150)))) eqn:E; [| reflexivity].
    apply (H None (Some 150) 150 eq_refl ltac:(lia)) in E as [_ E]. vm_compute in E. discriminate E.
Defined.
