(* ===== verification/RateLimit.v ===== *)
(** * The login rate limiter ([agentbox_core/rate_limit.py])

    Three buckets per login attempt, for the account, the source and the pair,
    keyed by HMAC digests.  The table of buckets is a finite map from digests;
    an operation is one transaction, and gives the table it commits (the old
    table when it raises: the transaction is rolled back).  Instants and
    durations are integers in microseconds, the resolution of [datetime]; the
    argument [db_ready] says whether [BEGIN IMMEDIATE] got its lock. *)

From S2P Require Import Prelude PyVal Sha256.

Local Open Scope Z_scope.

(** [security.keyed_digest] *)
Definition keyed_digest (application_secret purpose value : pystr) : result pystr :=
  match utf8_encode application_secret, utf8_encode (purpose ++ [0] ++ value) with
  | Some key, Some message => Ok (hexdigest (hmac_sha256 key message))
  | _, _ => Raise (err UnicodeEncodeError "surrogates not allowed")
  end.

Definition not_ready : exn := Exn DatabaseNotReady "CONTROL_PLANE_NOT_READY" "Control plane is not ready".

(** A row.  [failure_timestamps] is a JSON column: [None] when it holds no list,
    an element [None] when it is not the text of an instant. *)
Record LoginRateLimitBucket : Type := mkBucket {
  failure_timestamps : option (list (option Z));
  locked_until : option Z;
  updated_at : Z
}.

Abbreviation table := (gmap pystr LoginRateLimitBucket).

Record RateLimitDecision : Type := mkDecision { allowed : bool; retry_after : Z }.

#[export] Instance RateLimitDecision_eq_dec : EqDecision RateLimitDecision.
Proof. solve_decision. Defined.

Record LoginRateLimiter : Type := mkLimiter {
  secret : pystr;
  limit : Z;
  window : Z;
  lock : Z;
  max_rows : Z;
  purpose : pystr
}.

(** [timedelta(seconds=n)] *)
Definition seconds (n : Z) : Z := n * 1000000.

Definition new_limiter (secret : pystr) (limit window_seconds lock_seconds max_rows : Z) (purpose : pystr)
  : LoginRateLimiter :=
  mkLimiter secret limit (seconds window_seconds) (seconds lock_seconds) max_rows purpose.

(** [ceil(d.total_seconds())] *)
Definition ceil_seconds (d : Z) : Z := - ((- d) / 1000000).

(** [l[-n:]] *)
Definition last_n {A} (n : Z) (l : list A) : list A :=
  if n <=? 0 then drop (Z.to_nat (- n)) l else drop (length l - Z.to_nat n) l.

(** [_keys] *)
Definition keys (r : LoginRateLimiter) (username source : pystr) : result (pystr * pystr * pystr) :=
  let prefix := if str_eqb (purpose r) $"login" then $"rate" else purpose r ++ $"-rate" in
  let! account := keyed_digest (secret r) (prefix ++ $"-account") username in
  let! client := keyed_digest (secret r) (prefix ++ $"-source") source in
  let! combined := keyed_digest (secret r) (prefix ++ $"-combined") (username ++ [0] ++ source) in
  Ok (account, client, combined).

Definition key_list (ks : pystr * pystr * pystr) : list pystr :=
  let '(account, client, combined) := ks in [account; client; combined].

(** [_delete_expired]: the rows kept; the number deleted *)
Definition kept (r : LoginRateLimiter) (now : Z) (b : LoginRateLimitBucket) : bool :=
  now - window r - lock r <? updated_at b.
Definition delete_expired (r : LoginRateLimiter) (t : table) (now : Z) : table :=
  filter (fun kb => kept r now kb.2 = true) t.

(** [_pruned_attempts] *)
Definition pruned_attempts (r : LoginRateLimiter) (b : LoginRateLimitBucket) (now : Z) : list Z :=
  match failure_timestamps b with
  | None => []
  | Some raw_values =>
      filter (fun v => now - window r < v)
        (map (fun v => if now <? v then now else v) (omap id (last_n (limit r) raw_values)))
  end.

(** The rows [select ... where key_digest in keys] gives, and how many of the
    keys have none. *)
Definition existing (t : table) (ks : list pystr) : table := filter (fun kb => kb.1 ∈ ks) t.
Definition missing_count (t : table) (ks : list pystr) : Z :=
  Z.of_nat (length (filter (fun k => t !! k = None) ks)).
Definition row_count (t : table) : Z := Z.of_nat (size t).

(** One turn of the loop of [check]: the wait the bucket asks for and the row
    it leaves. *)
Definition is_locked (b : LoginRateLimitBucket) (now : Z) : bool :=
  match locked_until b with Some u => now <? u | None => false end.

Definition bucket_retry (r : LoginRateLimiter) (now : Z) (b : LoginRateLimitBucket) : Z :=
  match locked_until b with
  | Some u =>
      if now <? u then
        let remaining := u - now in
        let remaining := if lock r <? remaining then lock r else remaining in
        Z.max 1 (ceil_seconds remaining)
      else 0
  | None => 0
  end.

Definition check_bucket (r : LoginRateLimiter) (now : Z) (b : LoginRateLimitBucket) : LoginRateLimitBucket :=
  match locked_until b with
  | Some u =>
      if now <? u then
        if lock r <? u - now then mkBucket (failure_timestamps b) (Some (now + lock r)) now else b
      else mkBucket (Some (map Some (pruned_attempts r b now))) None now
  | None => mkBucket (Some (map Some (pruned_attempts r b now))) None now
  end.

Definition full_retry (r : LoginRateLimiter) : Z := Z.max 1 (ceil_seconds (lock r)).

Definition check (r : LoginRateLimiter) (t : table) (now : Z) (db_ready : bool) (username source : pystr)
  : table * result RateLimitDecision :=
  if negb db_ready then (t, Raise not_ready)
  else
    let t1 := delete_expired r t now in
    match keys r username source with
    | Raise e => (t, Raise e)
    | Ok ks =>
        let missing := missing_count t1 (key_list ks) in
        if negb (missing =? 0) && (max_rows r <? row_count t1 + missing) then
          (t1, Ok (mkDecision false (full_retry r)))
        else
          let rows := existing t1 (key_list ks) in
          let retry := map_fold (fun _ b acc => Z.max acc (bucket_retry r now b)) 0 rows in
          ((check_bucket r now <$> rows) ∪ t1, Ok (mkDecision (retry =? 0) retry))
    end.

(** One turn of the loop of [register_failure]. *)
Definition fail_bucket (r : LoginRateLimiter) (now : Z) (b : LoginRateLimitBucket) : LoginRateLimitBucket :=
  let attempts := last_n (limit r) (pruned_attempts r b now ++ [now]) in
  mkBucket (Some (map Some attempts))
    (if limit r <=? blen attempts then Some (now + lock r) else locked_until b) now.

Definition fail_key (r : LoginRateLimiter) (now : Z) (t : table) (k : pystr) : table :=
  <[k := fail_bucket r now (default (mkBucket (Some []) None now) (t !! k))]> t.

(** [LoginRateLimited] carries the wait it asks for. *)
Inductive failure_outcome : Type :=
| Recorded
| Limited (retry_after : Z).

Definition register_failure (r : LoginRateLimiter) (t : table) (now : Z) (db_ready : bool) (username source : pystr)
  : table * result failure_outcome :=
  if negb db_ready then (t, Raise not_ready)
  else
    let t1 := delete_expired r t now in
    match keys r username source with
    | Raise e => (t, Raise e)
    | Ok ks =>
        if max_rows r <? row_count t1 + missing_count t1 (key_list ks) then (t, Ok (Limited (full_retry r)))
        else if negb (bool_decide (NoDup (filter (fun k => t1 !! k = None) (key_list ks)))) then
          (t, Raise (err IntegrityError "UNIQUE constraint failed"))
        else (fold_left (fail_key r now) (key_list ks) t1, Ok Recorded)
    end.

Definition register_success (r : LoginRateLimiter) (t : table) (db_ready : bool) (username source : pystr)
  : table * result unit :=
  match keys r username source with
  | Raise e => (t, Raise e)
  | Ok (account, _, combined) =>
      if negb db_ready then (t, Raise not_ready)
      else (delete combined (delete account t), Ok tt)
  end.

(** [cleanup]; a busy database raises as it is *)
Definition cleanup (r : LoginRateLimiter) (t : table) (now : Z) : table * Z :=
  let t1 := delete_expired r t now in (t1, row_count t - row_count t1).

(** ** Executions *)

Inductive rate_op : Type :=
| Check (username source : pystr)
| Failure (username source : pystr)
| Success (username source : pystr)
| Cleanup.

(** A call: when, whether the database answered, and what. *)
Record call : Type := mkCall { c_now : Z; c_ready : bool; c_op : rate_op }.

Definition step (r : LoginRateLimiter) (t : table) (c : call) : table :=
  match c_op c with
  | Check u s => fst (check r t (c_now c) (c_ready c) u s)
  | Failure u s => fst (register_failure r t (c_now c) (c_ready c) u s)
  | Success u s => fst (register_success r t (c_ready c) u s)
  | Cleanup => if c_ready c then fst (cleanup r t (c_now c)) else t
  end.

(** ** Specification *)

(** The call records a failure in the bucket of a key. *)
Definition records (r : LoginRateLimiter) (t : table) (k : pystr) (c : call) : bool :=
  match c_op c with
  | Failure u s =>
      match snd (register_failure r t (c_now c) (c_ready c) u s), keys r u s with
      | Ok Recorded, Ok ks => bool_decide (k ∈ key_list ks)
      | _, _ => false
      end
  | _ => false
  end.

(** The call is a successful login that drops the bucket of a key. *)
Definition resets (r : LoginRateLimiter) (k : pystr) (c : call) : bool :=
  match c_op c with
  | Success u s =>
      match keys r u s with
      | Ok (account, _, combined) => c_ready c && (str_eqb k account || str_eqb k combined)
      | Raise _ => false
      end
  | _ => false
  end.

(** The bound on the rows and on what each row holds. *)
Definition bucket_bounded (r : LoginRateLimiter) (b : LoginRateLimitBucket) : Prop :=
  match failure_timestamps b with Some ts => blen ts <= limit r | None => True end.
Definition table_bounded (r : LoginRateLimiter) (t : table) : Prop :=
  row_count t <= max_rows r /\ map_Forall (fun _ b => bucket_bounded r b) t.

(** ** Lemmas *)

Lemma length_last_n {A} (n : Z) (l : list A) : 1 <= n -> blen (last_n n l) = Z.min n (blen l).
Proof.
  intros H. unfold last_n, blen. rewrite (proj2 (Z.leb_gt n 0)) by lia. rewrite length_drop. lia.
Qed.

Lemma last_n_short {A} (n : Z) (l : list A) : 1 <= n -> blen l <= n -> last_n n l = l.
Proof.
  unfold last_n, blen. intros H Hl. rewrite (proj2 (Z.leb_gt n 0)) by lia.
  by replace (length l - Z.to_nat n)%nat with 0%nat by lia.
Qed.

Lemma length_omap_le {A} (l : list (option A)) : blen (omap id l) <= blen l.
Proof.
  unfold blen. induction l as [|[x|] l IH]; [done | |].
  - change (omap id (Some x :: l)) with (x :: omap id l). cbn [length]. lia.
  - change (omap id (None :: l)) with (omap id l). cbn [length]. lia.
Qed.

Lemma pruned_bounded (r : LoginRateLimiter) (b : LoginRateLimitBucket) (now : Z) :
  1 <= limit r -> blen (pruned_attempts r b now) <= limit r.
Proof.
  intros H. unfold pruned_attempts. destruct (failure_timestamps b) as [raw|]; [| unfold blen; cbn [length]; lia].
  pose proof (length_last_n (limit r) raw H). pose proof (length_omap_le (last_n (limit r) raw)).
  pose proof (length_filter (fun v => now - window r < v)
    (map (fun v => if now <? v then now else v) (omap id (last_n (limit r) raw)))) as Hf.
  rewrite length_map in Hf. unfold blen in *. lia.
Qed.

Lemma check_bucket_bounded (r : LoginRateLimiter) (b : LoginRateLimitBucket) (now : Z) :
  1 <= limit r -> bucket_bounded r b -> bucket_bounded r (check_bucket r now b).
Proof.
  intros Hl Hb. pose proof (pruned_bounded r b now Hl) as Hp. unfold blen in Hp.
  assert (bucket_bounded r (mkBucket (Some (map Some (pruned_attempts r b now))) None now))
    by (unfold bucket_bounded, blen; cbn [failure_timestamps]; by rewrite length_map).
  unfold check_bucket. destruct (locked_until b); [| done]. case_if; [| done]. case_if; done.
Qed.

Lemma fail_bucket_bounded (r : LoginRateLimiter) (b : LoginRateLimitBucket) (now : Z) :
  1 <= limit r -> bucket_bounded r (fail_bucket r now b).
Proof.
  intros Hl. unfold bucket_bounded, fail_bucket. cbn [failure_timestamps].
  pose proof (length_last_n (limit r) (pruned_attempts r b now ++ [now]) Hl) as H.
  unfold blen in *. rewrite length_map. lia.
Qed.

Lemma delete_expired_size (r : LoginRateLimiter) (t : table) (now : Z) : row_count (delete_expired r t now) <= row_count t.
Proof. unfold row_count, delete_expired. apply inj_le, map_subseteq_size, map_filter_subseteq. Qed.

(** Inserting at keys adds at most the keys that were missing. *)
Lemma fail_keys_size (r : LoginRateLimiter) (now : Z) (ks : list pystr) (t : table) :
  row_count (fold_left (fail_key r now) ks t) <= row_count t + missing_count t ks.
Proof.
  revert t. induction ks as [|k ks IH]; intros t; [unfold missing_count; cbn [filter list_filter length fold_left]; lia |]. cbn [fold_left].
  specialize (IH (fail_key r now t k)).
  assert (Hm : missing_count (fail_key r now t k) ks <= missing_count t ks).
  { unfold missing_count. apply inj_le, sublist_length.
    clear IH. induction ks as [|j ks IH]; [constructor |]. rewrite !filter_cons.
    unfold fail_key at 1. destruct (decide (<[k:=_]> t !! j = None)) as [Hn | Hn].
    - apply lookup_insert_None in Hn as [Hn _]. rewrite decide_True by done. by constructor.
    - destruct (decide _); [by apply sublist_cons | done]. }
  assert (Hs : row_count (fail_key r now t k) + missing_count t ks <= row_count t + missing_count t (k :: ks)).
  { unfold row_count, missing_count, fail_key. rewrite map_size_insert, filter_cons.
    destruct (t !! k) as [b|] eqn:Ek; [rewrite decide_False by congruence | rewrite decide_True by done]; unfold id; cbn [length]; lia. }
  lia.
Qed.

Lemma map_Forall_filter_rows (P : LoginRateLimitBucket -> Prop) (r : LoginRateLimiter) (t : table) (now : Z) :
  map_Forall (fun _ b => P b) t -> map_Forall (fun _ b => P b) (delete_expired r t now).
Proof. intros H k b [Hk _]%map_lookup_filter_Some. by apply (H k). Qed.

Lemma fail_keys_bounded (r : LoginRateLimiter) (now : Z) (ks : list pystr) (t : table) :
  1 <= limit r -> map_Forall (fun _ b => bucket_bounded r b) t ->
  map_Forall (fun _ b => bucket_bounded r b) (fold_left (fail_key r now) ks t).
Proof.
  intros Hl. revert t. induction ks as [|k ks IH]; intros t Ht; [done |]. cbn [fold_left]. apply IH.
  unfold fail_key. apply map_Forall_insert_2; [by apply fail_bucket_bounded | done].
Qed.

Lemma dom_existing (t : table) (ks : list pystr) (f : LoginRateLimitBucket -> LoginRateLimitBucket) :
  size ((f <$> existing t ks) ∪ t) = size t.
Proof.
  rewrite <- !size_dom, dom_union_L, dom_fmap_L. f_equal.
  apply subseteq_union_1_L, subseteq_dom, map_filter_subseteq.
Qed.

(** The row [check] leaves at a key. *)
Lemma lookup_checked (t : table) (ks : list pystr) (f : LoginRateLimitBucket -> LoginRateLimitBucket) (k : pystr) :
  ((f <$> existing t ks) ∪ t) !! k = (if bool_decide (k ∈ ks) then f <$> t !! k else t !! k).
Proof.
  destruct (bool_decide_reflect (k ∈ ks)) as [Hk | Hk]; destruct (t !! k) as [b|] eqn:Et; cbn [fmap option_fmap option_map].
  - rewrite (lookup_union_Some_l _ _ _ (f b)); [done |]. rewrite lookup_fmap.
    assert (existing t ks !! k = Some b) as -> by (by apply map_lookup_filter_Some). done.
  - rewrite lookup_union_None. split; [| done]. rewrite lookup_fmap, fmap_None.
    apply map_lookup_filter_None_2. by left.
  - rewrite lookup_union_r; [done |]. rewrite lookup_fmap, fmap_None.
    apply map_lookup_filter_None_2. right. intros b' _. done.
  - rewrite lookup_union_None. split; [| done]. rewrite lookup_fmap, fmap_None.
    apply map_lookup_filter_None_2. by left.
Qed.

Lemma retry_fold (r : LoginRateLimiter) (now : Z) (rows : table) :
  let w := map_fold (fun _ b acc => Z.max acc (bucket_retry r now b)) 0 rows in
  0 <= w /\ (forall k b, rows !! k = Some b -> bucket_retry r now b <= w)
  /\ (w = 0 \/ exists k b, rows !! k = Some b /\ w = bucket_retry r now b).
Proof.
  cbn zeta.
  apply (map_fold_weak_ind (fun w (rows : table) =>
    0 <= w /\ (forall k b, rows !! k = Some b -> bucket_retry r now b <= w)
    /\ (w = 0 \/ exists k b, rows !! k = Some b /\ w = bucket_retry r now b))).
  - split; [lia |]. split; [by intros k b |]. by left.
  - intros k b m w Hk (H0 & Hle & Hex). split; [lia |]. split.
    + intros j b'. rewrite lookup_insert. case_decide; [intros [= ->]; lia |]. intros Hj%Hle. lia.
    + destruct (Z.max_spec w (bucket_retry r now b)) as [[_ ->] | [_ ->]].
      * right. exists k, b. by rewrite lookup_insert_eq.
      * destruct Hex as [-> | (j & b' & Hj & ->)]; [by left |]. right. exists j, b'.
        split; [| done]. rewrite lookup_insert_ne; [done |]. intros ->. congruence.
Qed.

Lemma ceil_seconds_mono (a b : Z) : a <= b -> ceil_seconds a <= ceil_seconds b.
Proof. intros H. unfold ceil_seconds. pose proof (Z.div_le_mono (- b) (- a) 1000000). lia. Qed.

Lemma bucket_retry_range (r : LoginRateLimiter) (now : Z) (b : LoginRateLimitBucket) :
  (is_locked b now = true -> 1 <= bucket_retry r now b <= full_retry r)
  /\ (is_locked b now = false -> bucket_retry r now b = 0).
Proof.
  unfold is_locked, bucket_retry, full_retry. destruct (locked_until b) as [u|]; [| done].
  destruct (now <? u) eqn:E; [| done]. split; [intros _ | done].
  pose proof (ceil_seconds_mono (if lock r <? u - now then lock r else u - now) (lock r)).
  destruct (Z.ltb_spec (lock r) (u - now)); lia.
Qed.

Lemma lookup_delete_expired (r : LoginRateLimiter) (t : table) (now : Z) (k : pystr) (b : LoginRateLimitBucket) :
  delete_expired r t now !! k = Some b <-> t !! k = Some b /\ now - window r - lock r < updated_at b.
Proof.
  unfold delete_expired, kept. rewrite map_lookup_filter_Some. cbn [snd]. by rewrite Z.ltb_lt.
Qed.

Lemma step_bounded (r : LoginRateLimiter) (t : table) (c : call) :
  1 <= limit r -> table_bounded r t -> table_bounded r (step r t c).
Proof.
  intros Hl [Hs Hb]. pose proof (delete_expired_size r t (c_now c)) as Hd.
  pose proof (map_Forall_filter_rows (bucket_bounded r) r t (c_now c) Hb) as Hb1.
  unfold step. destruct (c_op c) as [u s|u s|u s|].
  - unfold check. destruct (c_ready c); cbn [negb fst]; [| done]. destruct (keys r u s) as [ks|]; [| done].
    case_if; cbn [fst]; [split; [lia | done] |]. split.
    + unfold row_count in *. rewrite dom_existing. lia.
    + intros k b. rewrite lookup_checked. destruct (bool_decide_reflect (k ∈ key_list ks)); [| apply Hb1].
      intros (b0 & Hk & ->)%fmap_Some. apply check_bucket_bounded; [done | by apply (Hb1 k)].
  - unfold register_failure. destruct (c_ready c); cbn [negb fst]; [| done]. destruct (keys r u s) as [ks|]; [| done].
    case_if; [done |]. case_if; [done |]. cbn [fst]. split; [| by apply fail_keys_bounded].
    pose proof (fail_keys_size r (c_now c) (key_list ks) (delete_expired r t (c_now c))). lia.
  - unfold register_success. destruct (keys r u s) as [[[a c'] m]|]; [| done]. destruct (c_ready c); cbn [negb fst]; [| done].
    split.
    + unfold row_count in *. etrans; [| exact Hs]. apply inj_le, map_subseteq_size.
      etrans; [apply delete_subseteq |]. apply delete_subseteq.
    + intros k b [_ [_ H]%lookup_delete_Some]%lookup_delete_Some. by apply (Hb k).
  - destruct (c_ready c); cbn [fst cleanup]; [split; [lia | done] | done].
Qed.

(** What [check] decides, with the rows it looks at. *)
Lemma check_exact (r : LoginRateLimiter) (t : table) (now : Z) (u s : pystr) ks :
  keys r u s = Ok ks ->
  let t1 := delete_expired r t now in
  exists d, snd (check r t now true u s) = Ok d
    /\ (allowed d = true <->
        (missing_count t1 (key_list ks) = 0 \/ row_count t1 + missing_count t1 (key_list ks) <= max_rows r)
        /\ forall k b, k ∈ key_list ks -> t1 !! k = Some b -> is_locked b now = false)
    /\ (if allowed d then retry_after d = 0 else 1 <= retry_after d <= full_retry r).
Proof.
  intros Hk t1. unfold check. cbn [negb]. rewrite Hk. fold t1.
  destruct (negb (missing_count t1 (key_list ks) =? 0) && (max_rows r <? row_count t1 + missing_count t1 (key_list ks))) eqn:Ef;
    cbn [snd]; eexists; (split; [reflexivity |]); cbn [allowed retry_after].
  - bool_to_prop. split; [split; [done | intros [[? | ?] _]; lia] |]. unfold full_retry. lia.
  - destruct (retry_fold r now (existing t1 (key_list ks))) as (H0 & Hle & Hex).
    set (w := map_fold _ _ _) in *.
    assert (Hin : forall k b, existing t1 (key_list ks) !! k = Some b <-> t1 !! k = Some b /\ k ∈ key_list ks)
      by (intros; apply map_lookup_filter_Some).
    split.
    + rewrite Z.eqb_eq. split.
      * intros Hw. split.
        { apply andb_false_iff in Ef as [Ef | Ef]; bool_to_prop; auto. }
        intros k b Hkk Hb. destruct (is_locked b now) eqn:El; [| done].
        apply (bucket_retry_range r) in El. specialize (Hle k b (proj2 (Hin k b) (conj Hb Hkk))). lia.
      * intros [_ Hall]. destruct Hex as [? | (k & b & [Hb Hkk]%Hin & ->)]; [done |].
        by apply (bucket_retry_range r), (Hall k).
    + destruct (Z.eqb_spec w 0) as [? | Hw]; [done |]. destruct Hex as [? | (k & b & _ & Hwb)]; [done |].
      destruct (is_locked b now) eqn:El; apply (bucket_retry_range r) in El; lia.
Qed.

(** ** Counting failures *)

(** When the calls of a run record a failure at a key. *)
Fixpoint failures (r : LoginRateLimiter) (k : pystr) (t : table) (cs : list call) : list Z :=
  match cs with
  | [] => []
  | c :: cs' => (if records r t k c then [c_now c] else []) ++ failures r k (step r t c) cs'
  end.

Definition run (r : LoginRateLimiter) (t : table) (cs : list call) : table := fold_left (step r) cs t.

(** A row that remembers [n] failures since [t0], the last one at [lf]. *)
Definition row_counts (r : LoginRateLimiter) (t0 n lf : Z) (b : LoginRateLimitBucket) : Prop :=
  exists pre g, failure_timestamps b = Some (map Some (pre ++ g)) /\ Forall (fun v => t0 <= v) g
    /\ Z.min (limit r) n <= blen g /\ blen (pre ++ g) <= limit r /\ lf <= updated_at b.

Definition row_locks (r : LoginRateLimiter) (lf now : Z) (b : LoginRateLimitBucket) : Prop :=
  locked_until b = Some (lf + lock r) \/ lf + lock r <= now.

Definition armed (r : LoginRateLimiter) (k : pystr) (t0 n lf now : Z) (t : table) : Prop :=
  0 < n -> exists b, t !! k = Some b /\ row_counts r t0 n lf b /\ (limit r <= n -> row_locks r lf now b).

Lemma omap_Some {A} (l : list A) : omap id (map Some l) = l.
Proof.
  induction l as [|x l IH]; [done |].
  change (omap id (map Some (x :: l))) with (x :: omap id (map Some l)). by rewrite IH.
Qed.

(** The end of a list keeps as much of a suffix as fits. *)
Lemma last_n_suffix {A} (P : A -> Prop) (n : Z) (pre g : list A) :
  1 <= n -> Forall P g ->
  exists pre' g', last_n n (pre ++ g) = pre' ++ g' /\ Forall P g' /\ blen g' = Z.min n (blen g)
    /\ blen (pre' ++ g') <= n.
Proof.
  intros Hn Hg. unfold last_n, blen. rewrite (proj2 (Z.leb_gt n 0)) by lia. rewrite drop_app.
  eexists _, _. split; [reflexivity |]. split; [by apply Forall_drop |].
  rewrite !length_app, !length_drop. lia.
Qed.

Lemma filter_all {A} (P : A -> Prop) `{forall x, Decision (P x)} (l : list A) : Forall P l -> filter P l = l.
Proof. induction 1 as [|x l Hx _ IH]; [done |]. by rewrite filter_cons_True, IH. Qed.

(** Recent attempts survive pruning. *)
Lemma pruned_suffix (r : LoginRateLimiter) (t0 now : Z) (b : LoginRateLimitBucket) (pre g : list Z) :
  1 <= limit r -> 0 < window r -> now - window r < t0 <= now ->
  failure_timestamps b = Some (map Some (pre ++ g)) -> Forall (fun v => t0 <= v) g -> blen (pre ++ g) <= limit r ->
  exists pre' g', pruned_attempts r b now = pre' ++ g' /\ Forall (fun v => t0 <= v) g' /\ blen g' = blen g
    /\ blen (pre' ++ g') <= limit r.
Proof.
  intros Hl Hw Ht Hts Hg Hb. pose proof (pruned_bounded r b now Hl) as Hp. unfold pruned_attempts in *. rewrite Hts in *.
  rewrite last_n_short, omap_Some, map_app, filter_app in * by (done || (unfold blen in *; by rewrite length_map)).
  set (f := fun v : Z => if now <? v then now else v) in *.
  assert (Hf : Forall (fun v => t0 <= v) (map f g)).
  { apply Forall_map. eapply Forall_impl; [exact Hg |]. cbn. intros v Hv. unfold f. case_if; lia. }
  assert (Hk : filter (fun v => now - window r < v) (map f g) = map f g).
  { apply filter_all. eapply Forall_impl; [exact Hf |]. cbn. lia. }
  rewrite Hk in *. eexists _, _. split; [reflexivity |]. split; [done |]. split; [| done].
  unfold blen. by rewrite length_map.
Qed.

Lemma fail_bucket_counts (r : LoginRateLimiter) (t0 n lf now : Z) (b : LoginRateLimitBucket) :
  1 <= limit r -> 0 < window r -> now - window r < t0 <= now -> 0 <= n ->
  (0 < n -> row_counts r t0 n lf b) ->
  row_counts r t0 (n + 1) now (fail_bucket r now b)
  /\ (limit r <= n + 1 -> locked_until (fail_bucket r now b) = Some (now + lock r)).
Proof.
  intros Hl Hw Ht Hn Hr.
  assert (exists pre g, pruned_attempts r b now = pre ++ g /\ Forall (fun v => t0 <= v) g /\ Z.min (limit r) n <= blen g)
    as (pre & g & Hp & Hg & Hc).
  { destruct (decide (0 < n)) as [Hpos | Hz].
    - destruct (Hr Hpos) as (pre & g & Hts & Hg & Hm & Hb & _).
      destruct (pruned_suffix r t0 now b pre g Hl Hw Ht Hts Hg Hb) as (pre' & g' & E & ? & Hlen & _).
      exists pre', g'. rewrite Hlen. done.
    - exists (pruned_attempts r b now), []. rewrite app_nil_r. unfold blen. cbn [length]. split; [done |].
      split; [constructor | lia]. }
  destruct (last_n_suffix (fun v => t0 <= v) (limit r) pre (g ++ [now]) Hl) as (pre' & g' & E & Hg' & Hlen & Hle);
    [apply Forall_app; split; [done | repeat constructor; lia] |].
  unfold fail_bucket. rewrite Hp, <- app_assoc, E. rewrite blen_app in Hlen. change (blen [now]) with 1 in Hlen.
  split.
  - exists pre', g'. cbn [failure_timestamps updated_at]. repeat split; try done; lia.
  - intros Hlim. cbn [locked_until]. rewrite blen_app in *. pose proof (blen_nonneg pre').
    by rewrite (proj2 (Z.leb_le _ _)) by lia.
Qed.

Lemma fail_keys_other (r : LoginRateLimiter) (now : Z) (k : pystr) (ks : list pystr) (t : table) :
  k ∉ ks -> fold_left (fail_key r now) ks t !! k = t !! k.
Proof.
  revert t. induction ks as [|j ks IH]; intros t Hk; [done |]. rewrite not_elem_of_cons in Hk.
  cbn [fold_left]. rewrite IH by tauto. unfold fail_key. by rewrite lookup_insert_ne by (intros ->; tauto).
Qed.

(** The rows a recorded failure leaves at its keys. *)
Section FailKeys.
Context (r : LoginRateLimiter) (k : pystr) (t0 n lf now : Z).
Context (Hl : 1 <= limit r) (Hw : 0 < window r) (Ht : now - window r < t0 <= now) (Hn : 0 <= n).

Definition failed_row (t : table) : Prop :=
  exists b, t !! k = Some b /\ row_counts r t0 (n + 1) now b
    /\ (limit r <= n + 1 -> locked_until b = Some (now + lock r)).

Lemma fail_key_again (t : table) (j : pystr) : failed_row t -> failed_row (fail_key r now t j).
Proof.
  intros (b & Hb & Hc & Hk). unfold failed_row, fail_key. destruct (decide (j = k)) as [-> | Hj].
  - rewrite lookup_insert_eq, Hb. cbn [default from_option id].
    destruct (fail_bucket_counts r t0 (n + 1) now now b) as [(pre & g & ? & ? & ? & ?) Hlk]; try done; [lia |].
    eexists. split; [reflexivity |]. split; [| intros; apply Hlk; lia].
    exists pre, g. repeat split; try tauto; lia.
  - exists b. by rewrite lookup_insert_ne.
Qed.

Lemma fail_keys_again (ks : list pystr) (t : table) : failed_row t -> failed_row (fold_left (fail_key r now) ks t).
Proof. revert t. induction ks as [|j ks IH]; intros t H; [done |]. by apply IH, fail_key_again. Qed.

Lemma fail_keys_row (ks : list pystr) (t : table) :
  k ∈ ks -> (0 < n -> exists b, t !! k = Some b /\ row_counts r t0 n lf b) ->
  failed_row (fold_left (fail_key r now) ks t).
Proof.
  intros Hk. revert t. induction ks as [|j ks IH]; intros t Hb; [by apply elem_of_nil in Hk |]. cbn [fold_left].
  destruct (decide (j = k)) as [-> | Hj].
  - apply fail_keys_again. unfold failed_row, fail_key. rewrite lookup_insert_eq. eexists. split; [reflexivity |].
    apply fail_bucket_counts with (lf := lf); try done. intros Hp. destruct (Hb Hp) as (b & -> & ?). done.
  - apply IH; [apply elem_of_cons in Hk as [-> | ?]; done |].
    intros Hp. destruct (Hb Hp) as (b & Hbk & ?). exists b. split; [| done].
    unfold fail_key. by rewrite lookup_insert_ne.
Qed.
End FailKeys.

(** Deleting expired rows keeps a row that was updated since [t0]. *)
Lemma delete_expired_keeps (r : LoginRateLimiter) (t : table) (now t0 lf n : Z) (k : pystr) (b : LoginRateLimitBucket) :
  0 <= lock r -> now - window r < t0 -> t0 <= lf -> t !! k = Some b -> row_counts r t0 n lf b ->
  delete_expired r t now !! k = Some b.
Proof. intros ? ? ? Hb (pre & g & _ & _ & _ & _ & Hu). apply lookup_delete_expired. split; [done | lia]. Qed.

(** [check] keeps what a row remembers, and its lock while it lasts. *)
Lemma check_bucket_counts (r : LoginRateLimiter) (t0 n lf now : Z) (b : LoginRateLimitBucket) :
  1 <= limit r -> 0 < window r -> now - window r < t0 -> t0 <= lf <= now ->
  row_counts r t0 n lf b -> (limit r <= n -> row_locks r lf now b) ->
  row_counts r t0 n lf (check_bucket r now b) /\ (limit r <= n -> row_locks r lf now (check_bucket r now b)).
Proof.
  intros Hl Hw Ht Hlf Hc Hk. pose proof Hc as (pre & g & Hts & Hg & Hm & Hb & Hu).
  destruct (pruned_suffix r t0 now b pre g Hl Hw ltac:(lia) Hts Hg Hb) as (pre' & g' & E & Hg' & Hlen & Hb').
  assert (Hpr : row_counts r t0 n lf (mkBucket (Some (map Some (pruned_attempts r b now))) None now))
    by (exists pre', g'; rewrite E; cbn [failure_timestamps updated_at]; repeat split; try done; lia).
  unfold check_bucket, row_locks in *. destruct (locked_until b) as [u|] eqn:Eu; cbn [locked_until].
  - destruct (Z.ltb_spec now u); cbn [locked_until].
    + destruct (Z.ltb_spec (lock r) (u - now)); cbn [locked_until]; (split; [| intros Hlim; specialize (Hk Hlim)]).
      * exists pre, g. cbn [failure_timestamps updated_at]. repeat split; try done; lia.
      * destruct Hk as [[= ->] | ?]; [lia | by right].
      * done.
      * by rewrite Eu.
    + split; [done |]. intros Hlim. destruct (Hk Hlim) as [[= ->] | ?]; right; lia.
  - split; [done |]. intros Hlim. destruct (Hk Hlim) as [? | ?]; [done | by right].
Qed.

Lemma armed_later (r : LoginRateLimiter) (k : pystr) (t0 n lf now now' : Z) (t t' : table) :
  now <= now' -> t' !! k = t !! k -> armed r k t0 n lf now t -> armed r k t0 n lf now' t'.
Proof.
  intros H Ht Ha Hn. destruct (Ha Hn) as (b & Hb & Hc & Hk). exists b. rewrite Ht. repeat split; try done.
  intros Hl. destruct (Hk Hl) as [? | ?]; [by left | right; lia].
Qed.

(** The calls are made in the order of their instants, between two bounds. *)
Fixpoint ordered (lo hi : Z) (cs : list call) : Prop :=
  match cs with
  | [] => lo <= hi
  | c :: cs' => lo <= c_now c /\ ordered (c_now c) hi cs'
  end.

Lemma ordered_le (lo hi : Z) (cs : list call) : ordered lo hi cs -> lo <= hi.
Proof. revert lo. induction cs as [|c cs IH]; intros lo; [done |]. intros [? H%IH]. lia. Qed.

Section Lockout.
Context (r : LoginRateLimiter) (k : pystr) (t0 : Z).
Context (Hl : 1 <= limit r) (Hw : 0 < window r) (Hlk : 0 <= lock r).

Lemma armed_delete_expired (n lf now0 now : Z) (t : table) :
  now0 <= now -> now - window r < t0 -> (0 < n -> t0 <= lf) ->
  armed r k t0 n lf now0 t -> armed r k t0 n lf now (delete_expired r t now).
Proof.
  intros Hle Hwin Hlf Ha%(armed_later _ _ _ _ _ _ now _ t Hle eq_refl) Hn. destruct (Ha Hn) as (b & Hb & Hc & Hk).
  exists b. split; [| done]. eapply delete_expired_keeps; eauto.
Qed.

(** What one call does to the count at a key. *)
Lemma armed_step (n lf now0 : Z) (t : table) (c : call) :
  0 <= n -> now0 <= c_now c -> c_now c - window r < t0 <= now0 -> (0 < n -> t0 <= lf <= now0) ->
  resets r k c = false -> armed r k t0 n lf now0 t ->
  if records r t k c then armed r k t0 (n + 1) (c_now c) (c_now c) (step r t c)
  else armed r k t0 n lf (c_now c) (step r t c).
Proof.
  intros Hn Hle Hwin Hlf Hres Ha.
  assert (Hsame : armed r k t0 n lf (c_now c) t) by (by eapply armed_later).
  pose proof (armed_delete_expired n lf now0 (c_now c) t Hle (proj1 Hwin) ltac:(lia) Ha) as Hexp.
  unfold records, step, resets in *. destruct (c_op c) as [u s|u s|u s|].
  - unfold check. destruct (c_ready c); cbn [negb fst]; [| done]. destruct (keys r u s) as [ks|]; [| done].
    case_if; cbn [fst]; [done |]. intros Hp. destruct (Hexp Hp) as (b & Hb & Hc & Hk).
    rewrite lookup_checked, Hb. case_if; [| by exists b].
    eexists. split; [reflexivity |]. by apply check_bucket_counts; [done | done | lia | lia | |].
  - unfold register_failure. destruct (c_ready c); cbn [negb fst snd]; [| done].
    destruct (keys r u s) as [ks|]; [| done]. destruct (max_rows r <? _); cbn [fst snd]; [done |].
    destruct (bool_decide (NoDup _)); cbn [negb fst snd]; [| done].
    destruct (bool_decide_reflect (k ∈ key_list ks)) as [Hk | Hk].
    + intros _. destruct (fail_keys_row r k t0 n lf (c_now c) Hl Hw ltac:(lia) Hn (key_list ks)
        (delete_expired r t (c_now c)) Hk) as (b & Hb & Hc & Hlock).
      { intros Hp. destruct (Hexp Hp) as (b & ? & ? & _). by exists b. }
      exists b. split; [done |]. split; [done |]. intros Hlim. left. by apply Hlock.
    + eapply armed_later; [reflexivity | | exact Hexp]. by apply fail_keys_other.
  - unfold register_success. destruct (keys r u s) as [[[a cl] m]|]; [| done]. destruct (c_ready c); cbn [negb fst]; [| done].
    cbn [andb] in Hres. apply orb_false_iff in Hres as [Ha1 Hm]. apply str_eqb_neq in Ha1, Hm.
    eapply armed_later; [reflexivity | | exact Hsame]. by rewrite !lookup_delete_ne by congruence.
  - by destruct (c_ready c).
Qed.

Lemma armed_run (n lf now0 tn : Z) (t : table) (cs : list call) :
  0 <= n -> ordered now0 tn cs -> tn - window r < t0 <= now0 -> (0 < n -> t0 <= lf <= now0) ->
  Forall (fun c => resets r k c = false) cs -> armed r k t0 n lf now0 t ->
  let fs := failures r k t cs in
  armed r k t0 (n + blen fs) (default lf (last fs)) tn (run r t cs)
  /\ (0 < n + blen fs -> t0 <= default lf (last fs) <= tn).
Proof.
  intros Hn Ho Hwin Hlf Hres. revert n lf now0 t Hn Ho Hwin Hlf Hres.
  induction cs as [|c cs IH]; intros n lf now0 t Hn Ho Hwin Hlf Hres Ha; cbn [ordered] in Ho.
  - cbn zeta. change (blen (failures r k t [])) with 0. rewrite Z.add_0_r. cbn [failures last default from_option].
    split; [by eapply armed_later | lia].
  - destruct Ho as [Hle Ho]. apply Forall_cons in Hres as [Hr1 Hres]. pose proof (ordered_le _ _ _ Ho).
    pose proof (armed_step n lf now0 t c Hn Hle ltac:(lia) ltac:(lia) Hr1 Ha) as Hs.
    cbn [failures run fold_left]. destruct (records r t k c).
    + destruct (IH (n + 1) (c_now c) (c_now c) (step r t c)) as [IH1 IH2]; try done; try lia.
      set (fs := failures r k (step r t c) cs) in *. cbn zeta in *. rewrite blen_app. change (blen [c_now c]) with 1.
      replace (n + (1 + blen fs)) with (n + 1 + blen fs) by lia.
      replace (default lf (last ([c_now c] ++ fs))) with (default (c_now c) (last fs)); [done |].
      cbn [app]. rewrite last_cons. by destruct (last fs).
    + by apply (IH n lf (c_now c) (step r t c)); try done; lia.
Qed.
End Lockout.

(** ** Properties *)

(** The limiter's memory is bounded and its answer exact.  With a positive
    limit, no call makes the table exceed [max_rows] rows or a row exceed
    [limit] timestamps; [check] refuses exactly when a row would not fit or a
    bucket of the attempt is locked, and the wait it then asks for is at least a
    second and at most the lock time. *)
Theorem rate_limiter_bounded (r : LoginRateLimiter) (t : table) (now : Z) (u s : pystr) ks :
  1 <= limit r -> table_bounded r t -> keys r u s = Ok ks ->
  (forall c, table_bounded r (step r t c))
  /\ let t1 := delete_expired r t now in
     exists d, snd (check r t now true u s) = Ok d
       /\ (allowed d = true <->
           (missing_count t1 (key_list ks) = 0 \/ row_count t1 + missing_count t1 (key_list ks) <= max_rows r)
           /\ forall k b, k ∈ key_list ks -> t1 !! k = Some b -> is_locked b now = false)
       /\ (if allowed d then retry_after d = 0 else 1 <= retry_after d <= full_retry r).
Proof. intros Hl Ht Hk. split; [intros c; by apply step_bounded | by apply check_exact]. Qed.

(** The lockout cannot be dodged.  Whatever calls are made between [t0] and
    [tn], less than a window apart, for whatever accounts and sources, with
    failed and refused transactions among them: once [limit] failures were
    recorded at a key and no successful login dropped its bucket, every attempt
    that has the key is refused until the lock time after the last failure is
    over. *)
Theorem rate_lockout (r : LoginRateLimiter) (t : table) (cs : list call) (t0 tn lf now : Z) (k u s : pystr) ks :
  1 <= limit r -> 0 < window r -> 0 <= lock r ->
  ordered t0 tn cs -> tn - window r < t0 ->
  Forall (fun c => resets r k c = false) cs ->
  limit r <= blen (failures r k t cs) -> last (failures r k t cs) = Some lf ->
  keys r u s = Ok ks -> k ∈ key_list ks -> tn <= now < lf + lock r ->
  exists d, snd (check r (run r t cs) now true u s) = Ok d /\ allowed d = false /\ 1 <= retry_after d <= full_retry r.
Proof.
  intros Hl Hw Hlk Ho Hwin Hres Hlim Hlast Hks Hk Hnow. pose proof (ordered_le _ _ _ Ho).
  destruct (armed_run r k t0 Hl Hw Hlk 0 t0 t0 tn t cs ltac:(lia) Ho ltac:(lia) ltac:(lia) Hres) as [Ha Hlf];
    [intros Hz; lia |].
  cbn zeta in Ha, Hlf. rewrite Hlast in Ha, Hlf. cbn [default from_option id] in Ha, Hlf.
  destruct Ha as (b & Hb & (pre & g & _ & _ & _ & _ & Hu) & Hloc); [lia |].
  destruct (check_exact r (run r t cs) now u s ks Hks) as (d & Hd & Hall & Hretry).
  exists d. split; [done |]. destruct (allowed d) eqn:Ed; [exfalso | done].
  destruct (proj1 Hall eq_refl) as [_ Hun]. clear Ed. pose proof (Hun k b Hk) as Ed. rewrite lookup_delete_expired in Ed. unfold is_locked in Ed.
  destruct Hloc as [E | ?]; [lia | | lia]. rewrite E in Ed.
  assert (Hf : (now <? lf + lock r) = false) by (apply Ed; split; [done | lia]). lia.
Qed.

Lemma missing_count_le (t : table) (ks : list pystr) : missing_count t ks <= blen ks.
Proof. unfold missing_count, blen. apply inj_le, length_filter. Qed.

(** Two failures allowed in five minutes, then five minutes of lock. *)
Definition sample_limiter : LoginRateLimiter := new_limiter $"application-secret" 2 300 300 100 $"login".

(** Two failures for one account from two sources, with a successful login of
    somebody else and a failed transaction between them. *)
Definition spray : list call :=
  [mkCall (seconds 10) true (Failure $"alice" $"10.0.0.1");
   mkCall (seconds 20) true (Success $"bob" $"10.0.0.9");
   mkCall (seconds 40) false (Failure $"alice" $"10.0.0.2");
   mkCall (seconds 50) true (Failure $"alice" $"10.0.0.3")].

Definition alice_key : pystr :=
  match keys sample_limiter $"alice" $"10.0.0.4" with Ok (a, _, _) => a | Raise _ => [] end.

Lemma sample_keys : exists ks, keys sample_limiter $"alice" $"10.0.0.4" = Ok ks /\ alice_key ∈ key_list ks.
Proof.
  unfold alice_key. destruct (keys sample_limiter $"alice" $"10.0.0.4") as [[[a c] m]|] eqn:E; [| discriminate E].
  eexists. split; [done |]. apply list_elem_of_here.
Qed.

Lemma rate_limiter_bounded_witness :
  exists d, snd (check sample_limiter ∅ 0 true $"alice" $"10.0.0.4") = Ok d /\ allowed d = true.
Proof.
  destruct sample_keys as (ks & Hk & _).
  destruct (rate_limiter_bounded sample_limiter ∅ 0 $"alice" $"10.0.0.4" ks) as [_ (d & Hd & Ha & _)].
  - cbn. lia.
  - split; [by vm_compute |]. apply map_Forall_empty.
  - exact Hk.
  - exists d. split; [exact Hd |]. apply Ha. split.
    + right. assert (E : delete_expired sample_limiter ∅ 0 = ∅) by reflexivity. rewrite E.
      pose proof (missing_count_le ∅ (key_list ks)). assert (blen (key_list ks) = 3) by (by destruct ks as [[? ?] ?]).
      change (row_count ∅) with 0. change (max_rows sample_limiter) with 100. lia.
    + intros k b _ Hb. apply lookup_delete_expired in Hb as [Hb _]. rewrite lookup_empty in Hb. discriminate Hb.
Defined.

Lemma spray_failures : failures sample_limiter alice_key ∅ spray = [seconds 10; seconds 50].
Proof. vm_cast_no_check (eq_refl [seconds 10; seconds 50]). Qed.

Lemma spray_resets : Forall (fun c => resets sample_limiter alice_key c = false) spray.
Proof. repeat (apply Forall_cons_2; [vm_cast_no_check (eq_refl false) |]). apply Forall_nil_2. Qed.

Lemma rate_lockout_witness :
  exists d, snd (check sample_limiter (run sample_limiter ∅ spray) (seconds 349) true $"alice" $"10.0.0.4") = Ok d
    /\ allowed d = false /\ 1 <= retry_after d <= full_retry sample_limiter.
Proof.
  destruct sample_keys as (ks & Hk & Hin).
  apply (rate_lockout sample_limiter ∅ spray (seconds 10) (seconds 50) (seconds 50) (seconds 349) alice_key
           $"alice" $"10.0.0.4" ks); [vm_compute; discriminate | reflexivity | vm_compute; discriminate
    | repeat split; vm_compute; discriminate | reflexivity | exact spray_resets
    | rewrite spray_failures; vm_compute; discriminate | rewrite spray_failures; reflexivity | exact Hk | exact Hin
    | split; [vm_compute; discriminate | reflexivity]].
Defined.
