(* ===== verification/Jobs.v ===== *)
(** * The durable job queue ([agentbox_core/jobs.py])

    [JobService] over the tables of jobs and job events.  An operation is one
    transaction: it gives the store it commits and its result, and the old
    store when it raises.  Instants are integers; each reading of the clock is
    an argument, and so are the random identifier of a new job, the projects a
    job may refer to and, where a query leaves the order of rows open, the
    choice the database makes.  [redact_text] is any function from texts and
    limits to texts: nothing below depends on what it removes. *)

From Stdlib Require Import Sorted.
From S2P Require Import Prelude PyVal Json Sha256 RateLimit.

Local Open Scope Z_scope.

Inductive JobStatus : Type := queued | running | succeeded | failed | cancelled | needs_attention_.

#[export] Instance JobStatus_eq_dec : EqDecision JobStatus.
Proof. solve_decision. Defined.

Definition status_value (s : JobStatus) : pystr :=
  match s with
  | queued => $"queued" | running => $"running" | succeeded => $"succeeded" | failed => $"failed"
  | cancelled => $"cancelled" | needs_attention_ => $"needs_attention"
  end.

(** [status in TERMINAL_JOB_STATES] *)
Definition terminal (s : JobStatus) : bool :=
  match s with succeeded | failed | cancelled | needs_attention_ => true | queued | running => false end.

Definition JOB_TYPES : list pystr :=
  [$"project.create"; $"project.clone"; $"git.pull"; $"git.push"; $"git.branch.create"; $"git.branch.switch";
   $"github.pr.create"].

(** [_IDEMPOTENCY_KEY.fullmatch] *)
Definition key_char (c : Z) : bool :=
  in_range 65 c 90 || in_range 97 c 122 || is_digit c || (c =? 46) || (c =? 95) || (c =? 58) || (c =? 45).
Definition idempotency_key_ok (s : pystr) : bool := in_range 8 (blen s) 128 && forallb key_char s.

Record Job : Type := mkJob {
  j_id : pystr;
  j_type : pystr;
  j_status : JobStatus;
  j_created_at : Z;
  j_started_at : option Z;
  j_finished_at : option Z;
  j_requested_by : pystr;
  j_target_type : pystr;
  j_target_id : option pystr;
  j_project_id : option pystr;
  j_progress : option Z;
  j_phase : pystr;
  j_result_summary : option pystr;
  j_error_code : option pystr;
  j_error_summary : option pystr;
  j_payload_schema_version : Z;
  j_payload : pydict;
  j_digest : pystr;
  j_resource_lock_key : pystr;
  j_attempt : Z;
  j_max_attempts : Z;
  j_lease_owner : option pystr;
  j_lease_expires_at : option Z;
  j_heartbeat_at : option Z;
  j_request_id : option pystr
}.

Record JobEvent : Type := mkEvent {
  e_sequence : Z;
  e_job_id : pystr;
  e_event_type : pystr;
  e_status : JobStatus;
  e_progress : option Z;
  e_phase : pystr;
  e_summary : option pystr;
  e_created_at : Z
}.

(** The two tables, events in the order they were added. *)
Record job_store : Type := mkStore { jobs : list Job; events : list JobEvent }.

Record JobService : Type := mkService { lease_seconds : Z; job_secret : pystr }.

Definition value_error (text : string) : exn := err PyValueError text.
Definition not_running : exn := err PyRuntimeError "Job is not running".

(** [a or b] of an optional text *)
Definition or_text (a : option pystr) (b : pystr) : pystr :=
  match a with Some (c :: s) => c :: s | _ => b end.
Definition truncate (n : nat) (a : option pystr) : option pystr :=
  match a with Some (c :: s) => Some (take n (c :: s)) | _ => None end.

(** [str.casefold] of the characters whose folding is ASCII; the others fold to
    text that is not ASCII, as they are themselves. *)
Definition casefold_char (c : Z) : pystr :=
  if in_range 65 c 90 then [c + 32]
  else if (c =? 223) || (c =? 7838) then $"ss"
  else if c =? 383 then $"s"
  else if c =? 8490 then $"k"
  else if c =? 64256 then $"ff"
  else if c =? 64257 then $"fi"
  else if c =? 64258 then $"fl"
  else if c =? 64259 then $"ffi"
  else if c =? 64260 then $"ffl"
  else if (c =? 64261) || (c =? 64262) then $"st"
  else [c].
Definition casefold (s : pystr) : pystr := flat_map casefold_char s.

Definition forbidden_keys : list pystr :=
  [$"path"; $"argv"; $"shell"; $"environment"; $"token"; $"password"; $"secret"].

(** [s.encode()] *)
Definition encode (s : pystr) : result bytes :=
  match utf8_encode s with
  | Some b => Ok b
  | None => Raise (err UnicodeEncodeError "surrogates not allowed")
  end.

(** A value [_validate_payload] takes; [json.dumps] refused an integer of more
    than 4300 digits before. *)
Definition payload_value_ok (v : pyval) : result unit :=
  match v with
  | PNone | PBool _ => Ok tt
  | PInt z => raise_if (10 ^ 4300 <=? Z.abs z) (value_error "Exceeds the limit (4300 digits) for integer string conversion")
  | PStr s =>
      let! b := encode s in
      raise_if (16 * 1024 <? blen b) (value_error "job payload value is invalid")
  | _ => Raise (value_error "job payload value is invalid")
  end.

Definition payload_key_ok (k : pystr) : result unit :=
  raise_if (str_in (casefold k) forbidden_keys || (64 <? blen k)) (value_error "job payload key is forbidden").

Fixpoint validate_items (d : pydict) : result unit :=
  match d with
  | [] => Ok tt
  | (k, v) :: r => run! payload_key_ok k in run! payload_value_ok v in validate_items r
  end.

(** [_validate_payload] *)
Definition validate_payload (payload : pydict) : result unit :=
  let! text := dumps (PDict payload) in
  let! encoded := encode text in
  run! raise_if ((24 * 1024 <? blen encoded) || (12 <? blen payload)) (value_error "job payload is too large") in
  validate_items payload.

(** [_digest] *)
Definition digest_text (requested_by job_type scope key : pystr) : pystr :=
  requested_by ++ [0] ++ job_type ++ [0] ++ scope ++ [0] ++ key.
Definition digest (s : JobService) (requested_by job_type scope key : pystr) : result pystr :=
  keyed_digest (job_secret s) $"job-idempotency" (digest_text requested_by job_type scope key).

Definition find_job (st : job_store) (p : Job -> bool) : option Job := find p (jobs st).
Definition get (st : job_store) (id : pystr) : option Job := find_job st (fun j => str_eqb (j_id j) id).

(** [session.scalars(...)] of the events of a job after a sequence number *)
Definition events_after (st : job_store) (id : pystr) (sequence limit : Z) : list JobEvent :=
  take (Z.to_nat limit) (filter (fun e => str_eqb (e_job_id e) id && (sequence <? e_sequence e) = true) (events st)).

(** Writing back a job object. *)
Definition put (j : Job) (l : list Job) : list Job := map (fun x => if str_eqb (j_id x) (j_id j) then j else x) l.

(** [JobEvent.sequence] is the integer primary key of its table: SQLite gives a
    new row the number after the largest one present. *)
Definition next_sequence (l : list JobEvent) : Z := fold_right (fun e n => Z.max (e_sequence e) n) 0 l + 1.

Section Service.
Variable redact_text : pystr -> Z -> pystr.
Context (s : JobService).

(** [_event]; the database numbers the row. *)
Definition event (st : job_store) (j : Job) (event_type summary : pystr) (now : Z) : job_store :=
  mkStore (jobs st)
    (events st ++ [mkEvent (next_sequence (events st)) (j_id j) (take 40 event_type) (j_status j) (j_progress j) (j_phase j)
                     (match summary with [] => None | _ => Some (redact_text summary 512) end) now]).

Definition save (st : job_store) (j : Job) : job_store := mkStore (put j (jobs st)) (events st).

Definition enqueue (st : job_store) (job_type requested_by target_type : pystr) (target_id project_id : option pystr)
    (payload : pydict) (resource_lock_key idempotency_key : pystr) (request_id idempotency_scope : option pystr)
    (new_id : pystr) (project_exists : pystr -> bool) (now event_now : Z) : job_store * result (Job * bool) :=
  match (run! raise_if (negb (str_in job_type JOB_TYPES)) (value_error "job type is not allowlisted") in
         run! raise_if (negb (idempotency_key_ok idempotency_key)) (value_error "idempotency key is invalid") in
         run! validate_payload payload in
         digest s requested_by job_type (or_text idempotency_scope (or_text target_id [])) idempotency_key) with
  | Raise e => (st, Raise e)
  | Ok d =>
      match find_job st (fun j => str_eqb (j_digest j) d) with
      | Some existing => (st, Ok (existing, false))
      | None =>
          let job := mkJob new_id job_type queued now None None (take 80 requested_by) (take 32 target_type)
                       (truncate 80 target_id) project_id (Some 0) $"queued" None None None 1 payload d
                       (take 96 resource_lock_key) 0 1 None None None (truncate 72 request_id) in
          if match get st new_id with Some _ => true | None => false end
             || match project_id with Some p => negb (project_exists p) | None => false end
          then (st, Raise (err IntegrityError "constraint failed"))
          else (event (mkStore (jobs st ++ [job]) (events st)) job $"job.queued" $"Job queued" event_now, Ok (job, true))
      end
  end.

Definition find_idempotent (st : job_store) (job_type requested_by scope idempotency_key : pystr) : result (option Job) :=
  run! raise_if (negb (idempotency_key_ok idempotency_key)) (value_error "idempotency key is invalid") in
  let! d := digest s requested_by job_type scope idempotency_key in
  Ok (find_job st (fun j => str_eqb (j_digest j) d)).

(** The row [claim_next] selects: the queued jobs whose lock is free, the oldest
    of them, and of several equally old ones the [tie]-th. *)
Definition lock_taken (st : job_store) (key : pystr) : bool :=
  existsb (fun j => bool_decide (j_status j = running) && str_eqb (j_resource_lock_key j) key) (jobs st).
Definition claimable (st : job_store) : list Job :=
  filter (fun j => bool_decide (j_status j = queued) && negb (lock_taken st (j_resource_lock_key j)) = true) (jobs st).
Definition oldest (l : list Job) : list Job :=
  filter (fun j => forallb (fun x => j_created_at j <=? j_created_at x) l = true) l.
Definition next_job (st : job_store) (tie : nat) : option Job :=
  match oldest (claimable st) with
  | [] => None
  | j :: r => Some (default j ((j :: r) !! tie))
  end.

Definition claimed (j : Job) (worker_id : pystr) (now : Z) : Job :=
  mkJob (j_id j) (j_type j) running (j_created_at j) (Some (default now (j_started_at j))) (j_finished_at j)
    (j_requested_by j) (j_target_type j) (j_target_id j) (j_project_id j) (Some 10) $"running" (j_result_summary j)
    (j_error_code j) (j_error_summary j) (j_payload_schema_version j) (j_payload j) (j_digest j)
    (j_resource_lock_key j) (j_attempt j + 1) (j_max_attempts j) (Some (take 80 worker_id))
    (Some (now + lease_seconds s)) (Some now) (j_request_id j).

Definition claim_next (st : job_store) (worker_id : pystr) (tie : nat) (now event_now : Z) : job_store * option Job :=
  match next_job st tie with
  | None => (st, None)
  | Some j => let j' := claimed j worker_id now in
              (event (save st j') j' $"job.started" $"Job started" event_now, Some j')
  end.

(** [_running] *)
Definition get_running (st : job_store) (id : pystr) : result Job :=
  match get st id with
  | Some j => if bool_decide (j_status j = running) then Ok j else Raise not_running
  | None => Raise not_running
  end.

Definition renewed (j : Job) (progress : option Z) (phase : pystr) (now : Z) : Job :=
  mkJob (j_id j) (j_type j) (j_status j) (j_created_at j) (j_started_at j) (j_finished_at j) (j_requested_by j)
    (j_target_type j) (j_target_id j) (j_project_id j) progress phase (j_result_summary j) (j_error_code j)
    (j_error_summary j) (j_payload_schema_version j) (j_payload j) (j_digest j) (j_resource_lock_key j) (j_attempt j)
    (j_max_attempts j) (j_lease_owner j) (Some (now + lease_seconds s)) (Some now) (j_request_id j).

Definition progress (st : job_store) (id : pystr) (value : option Z) (phase summary : pystr) (now event_now : Z)
  : job_store * result unit :=
  match get_running st id with
  | Raise e => (st, Raise e)
  | Ok j => let j' := renewed j value (take 48 phase) now in
            (event (save st j') j' $"job.progress" summary event_now, Ok tt)
  end.

Definition heartbeat (st : job_store) (id : pystr) (now : Z) : job_store * result unit :=
  match get_running st id with
  | Raise e => (st, Raise e)
  | Ok j => (save st (renewed j (j_progress j) (j_phase j) now), Ok tt)
  end.

Definition finished (j : Job) (status : JobStatus) (safe_summary : pystr) (code : option pystr) (now : Z) : Job :=
  let ok := bool_decide (status = succeeded) in
  mkJob (j_id j) (j_type j) status (j_created_at j) (j_started_at j) (Some now) (j_requested_by j) (j_target_type j)
    (j_target_id j) (j_project_id j) (if ok then Some 100 else j_progress j) (status_value status)
    (if ok then Some safe_summary else j_result_summary j)
    (if ok then j_error_code j else Some (take 80 (or_text code $"JOB_FAILED")))
    (if ok then j_error_summary j else Some safe_summary) (j_payload_schema_version j) (j_payload j) (j_digest j)
    (j_resource_lock_key j) (j_attempt j) (j_max_attempts j) None None (j_heartbeat_at j) (j_request_id j).

(** [_finish] *)
Definition finish (st : job_store) (id : pystr) (status : JobStatus) (summary : pystr) (code : option pystr)
    (now event_now : Z) : job_store * result unit :=
  if negb (terminal status) then (st, Raise (value_error "invalid terminal Job state"))
  else
    match get_running st id with
    | Raise e => (st, Raise e)
    | Ok j => let safe_summary := redact_text summary 512 in
              let j' := finished j status safe_summary code now in
              (event (save st j') j' ($"job." ++ status_value status) safe_summary event_now, Ok tt)
    end.

Definition succeed (st : job_store) (id summary : pystr) (now event_now : Z) : job_store * result unit :=
  finish st id succeeded summary None now event_now.
Definition fail (st : job_store) (id code summary : pystr) (now event_now : Z) : job_store * result unit :=
  finish st id failed summary (Some code) now event_now.
Definition needs_attention (st : job_store) (id code summary : pystr) (now event_now : Z) : job_store * result unit :=
  finish st id needs_attention_ summary (Some code) now event_now.

(** [recover_expired] *)
Definition expired (j : Job) (now : Z) : bool :=
  bool_decide (j_status j = running) && match j_lease_expires_at j with Some e => e <=? now | None => false end.

Definition interrupted (j : Job) (now : Z) : Job :=
  mkJob (j_id j) (j_type j) needs_attention_ (j_created_at j) (j_started_at j) (Some now) (j_requested_by j)
    (j_target_type j) (j_target_id j) (j_project_id j) (j_progress j) $"recovery_required" (j_result_summary j)
    (Some $"JOB_EXECUTION_INTERRUPTED") (Some $"Job execution was interrupted and was not replayed")
    (j_payload_schema_version j) (j_payload j) (j_digest j) (j_resource_lock_key j) (j_attempt j) (j_max_attempts j)
    (j_lease_owner j) (j_lease_expires_at j) (j_heartbeat_at j) (j_request_id j).

Definition recover_one (now : Z) (event_clock : nat -> Z) (st : job_store) (ij : nat * Job) : job_store :=
  let j' := interrupted ij.2 now in
  event (save st j') j' $"job.needs_attention" $"Job execution was interrupted and was not replayed" (event_clock ij.1).

Definition recover_expired (st : job_store) (now : Z) (event_clock : nat -> Z) : job_store * Z :=
  let expired_jobs := filter (fun j => expired j now = true) (jobs st) in
  (fold_left (recover_one now event_clock) (imap pair expired_jobs) st, blen expired_jobs).

(** ** Executions *)

Inductive job_op : Type :=
| Enqueue (job_type requested_by target_type : pystr) (target_id project_id : option pystr) (payload : pydict)
    (resource_lock_key idempotency_key : pystr) (request_id idempotency_scope : option pystr) (new_id : pystr)
    (project_exists : pystr -> bool)
| Claim (worker_id : pystr) (tie : nat)
| Progress (id : pystr) (value : option Z) (phase summary : pystr)
| Renew (id : pystr)
| Finish (id : pystr) (status : JobStatus) (summary : pystr) (code : option pystr)
| Recover.

(** The clock answers [now], then once for each event. *)
Definition apply_op (st : job_store) (op : job_op) (now : Z) (event_clock : nat -> Z) : job_store :=
  match op with
  | Enqueue jt rb ty ti pi p rk ik ri sc id pe =>
      fst (enqueue st jt rb ty ti pi p rk ik ri sc id pe now (event_clock 0%nat))
  | Claim w tie => fst (claim_next st w tie now (event_clock 0%nat))
  | Progress id v ph su => fst (progress st id v ph su now (event_clock 0%nat))
  | Renew id => fst (heartbeat st id now)
  | Finish id status su code => fst (finish st id status su code now (event_clock 0%nat))
  | Recover => fst (recover_expired st now event_clock)
  end.

(** ** Other services that change the tables *)

(** [RetentionService.cleanup] (services.py): the finished jobs whose retention
    is over are deleted, and with them their events. *)
Definition outlived (retention now : Z) (j : Job) : bool :=
  match j_status j with
  | succeeded | failed | cancelled => match j_finished_at j with Some t => t <=? now - retention | None => false end
  | _ => false
  end.

Definition cleanup (st : job_store) (retention now : Z) : job_store * Z :=
  let deleted := filter (fun j => outlived retention now j = true) (jobs st) in
  (mkStore (filter (fun j => outlived retention now j = false) (jobs st))
     (filter (fun e => str_in (e_job_id e) (map j_id deleted) = false) (events st)), blen deleted).

(** [ProjectService.discard_reservation] (projects.py) deletes a project; its
    jobs stay and lose the reference. *)
Definition without_project (project_id : pystr) (j : Job) : Job :=
  if match j_project_id j with Some p => str_eqb p project_id | None => false end
  then mkJob (j_id j) (j_type j) (j_status j) (j_created_at j) (j_started_at j) (j_finished_at j) (j_requested_by j)
         (j_target_type j) (j_target_id j) None (j_progress j) (j_phase j) (j_result_summary j) (j_error_code j)
         (j_error_summary j) (j_payload_schema_version j) (j_payload j) (j_digest j) (j_resource_lock_key j) (j_attempt j)
         (j_max_attempts j) (j_lease_owner j) (j_lease_expires_at j) (j_heartbeat_at j) (j_request_id j)
  else j.

Definition project_deleted (st : job_store) (project_id : pystr) : job_store :=
  mkStore (map (without_project project_id) (jobs st)) (events st).

(** Stores the operations make from the empty one. *)
Inductive reachable : job_store -> Prop :=
| Reach_empty : reachable (mkStore [] [])
| Reach_op st op now event_clock : reachable st -> reachable (apply_op st op now event_clock)
| Reach_cleanup st retention now : reachable st -> reachable (fst (cleanup st retention now))
| Reach_project st project_id : reachable st -> reachable (project_deleted st project_id).
End Service.

(** ** Specification *)

(** What identifies a job and never changes. *)
Definition fixed_part (j : Job)
  : pystr * pystr * Z * (pystr * pystr * option pystr * option pystr) * (Z * pydict * pystr * pystr * Z * option pystr) :=
  (j_id j, j_type j, j_created_at j, (j_requested_by j, j_target_type j, j_target_id j, j_project_id j),
   (j_payload_schema_version j, j_payload j, j_digest j, j_resource_lock_key j, j_max_attempts j, j_request_id j)).

(** The steps of one job: none, the start of its one attempt, a renewal of the
    lease, and the end. *)
Inductive job_step (j j' : Job) : Prop :=
| Step_none : j' = j -> job_step j j'
| Step_start : fixed_part j' = fixed_part j -> j_status j = queued -> j_status j' = running ->
    j_attempt j' = j_attempt j + 1 -> j_lease_owner j' <> None -> j_lease_expires_at j' <> None -> job_step j j'
| Step_renew : fixed_part j' = fixed_part j -> j_status j = running -> j_status j' = running ->
    j_attempt j' = j_attempt j -> j_lease_owner j' = j_lease_owner j -> j_lease_expires_at j' <> None -> job_step j j'
| Step_end : fixed_part j' = fixed_part j -> j_status j = running -> terminal (j_status j') = true ->
    j_attempt j' = j_attempt j -> j_finished_at j' <> None -> job_step j j'.

(** A job agrees with its status. *)
Definition job_ok (j : Job) : Prop :=
  j_max_attempts j = 1
  /\ match j_status j with
     | queued => j_attempt j = 0
     | running => j_attempt j = 1 /\ j_lease_owner j <> None /\ j_lease_expires_at j <> None
     | _ => j_attempt j = 1 /\ j_finished_at j <> None
     end.

(** The events of a job, and the last of them shows where the job stands. *)
Definition events_of (id : pystr) (l : list JobEvent) : list JobEvent := filter (fun e => str_eqb (e_job_id e) id = true) l.
Definition shows (e : JobEvent) (j : Job) : Prop :=
  e_status e = j_status j /\ e_progress e = j_progress j /\ e_phase e = j_phase j.
Definition earlier (a b : JobEvent) : Prop := e_sequence a < e_sequence b.

Record events_ok (st : job_store) : Prop := mkEventsOk {
  ev_order : StronglySorted earlier (events st);
  ev_owned : forall e, e ∈ events st -> e_job_id e ∈ map j_id (jobs st);
  ev_shown : forall j, j ∈ jobs st -> exists e, last (events_of (j_id j) (events st)) = Some e /\ shows e j
}.

Record store_inv (st : job_store) : Prop := mkStoreInv {
  inv_ids : NoDup (map j_id (jobs st));
  inv_digests : NoDup (map j_digest (jobs st));
  inv_jobs : Forall job_ok (jobs st);
  inv_locks : forall x y, x ∈ jobs st -> y ∈ jobs st -> j_status x = running -> j_status y = running ->
    j_resource_lock_key x = j_resource_lock_key y -> x = y;
  inv_events : events_ok st
}.

(** ** Lemmas *)

Lemma NoDup_map_inj {A B} (f : A -> B) (l : list A) (x y : A) :
  NoDup (map f l) -> x ∈ l -> y ∈ l -> f x = f y -> x = y.
Proof.
  induction l as [|z l IH]; intros Hn Hx Hy Hf; [by apply elem_of_nil in Hx |].
  cbn [map] in Hn. apply NoDup_cons in Hn as [Hz Hn].
  assert (Hin : forall w, w ∈ l -> f z <> f w) by (intros w Hw E; apply Hz; rewrite E; by apply list_elem_of_fmap_2).
  apply elem_of_cons in Hx as [-> | Hx]; apply elem_of_cons in Hy as [-> | Hy]; auto.
  - by apply Hin in Hf.
  - symmetry in Hf. by apply Hin in Hf.
Qed.

Lemma find_job_some (st : job_store) (p : Job -> bool) (j : Job) : find_job st p = Some j -> j ∈ jobs st /\ p j = true.
Proof. intros [H Hp]%find_some. split; [by apply list_elem_of_In | done]. Qed.

Lemma find_job_none (st : job_store) (p : Job -> bool) (j : Job) : find_job st p = None -> j ∈ jobs st -> p j = false.
Proof. intros H Hj%list_elem_of_In. by apply (find_none _ _ H). Qed.

Lemma job_step_fixed (j j' : Job) : job_step j j' -> fixed_part j' = fixed_part j.
Proof. by intros [-> | ? | ? | ?]. Qed.

Lemma fixed_fields (a b : Job) : fixed_part a = fixed_part b ->
  j_id a = j_id b /\ j_digest a = j_digest b /\ j_resource_lock_key a = j_resource_lock_key b
  /\ j_max_attempts a = j_max_attempts b.
Proof. unfold fixed_part. intros H. injection H. auto. Qed.

Lemma job_step_ok (j j' : Job) : job_step j j' -> job_ok j -> job_ok j'.
Proof.
  unfold job_ok. intros Hs [Hm Ho]. destruct (fixed_fields _ _ (job_step_fixed _ _ Hs)) as (_ & _ & _ & ->).
  split; [done |]. destruct Hs as [-> | _ E E' Ha Hw Hl | _ E E' Ha Hw Hl | _ E E' Ha Hf]; [done | | |];
    rewrite E in Ho.
  - rewrite E'. repeat split; [lia | done | done].
  - rewrite E'. destruct Ho as (? & ? & ?). repeat split; [lia | congruence | done].
  - destruct (j_status j'); try discriminate; repeat split; (lia || done).
Qed.

(** A transaction that updates rows in place. *)
Definition updates (st st' : job_store) (g : Job -> Job) : Prop :=
  jobs st' = map g (jobs st) /\ (forall x, x ∈ jobs st -> job_step x (g x))
  /\ (forall x, x ∈ jobs st -> j_status x = queued -> j_status (g x) = running ->
       lock_taken st (j_resource_lock_key x) = false
       /\ forall y, y ∈ jobs st -> j_status y = queued -> j_status (g y) = running -> y = x).

Lemma job_step_running (x x' : Job) :
  job_step x x' -> j_status x' = running -> j_status x = running \/ j_status x = queued.
Proof. intros [-> | ? | ? | ? ? Ht] E; subst; auto. Qed.

Lemma updates_inv (st st' : job_store) (g : Job -> Job) :
  updates st st' g -> events_ok st' -> store_inv st -> store_inv st'.
Proof.
  intros (Hj & Hs & Hx) He [Hi Hd Ho Hl _].
  assert (Hfix : forall x, x ∈ jobs st -> j_id (g x) = j_id x /\ j_digest (g x) = j_digest x
      /\ j_resource_lock_key (g x) = j_resource_lock_key x)
    by (intros x H; destruct (fixed_fields _ _ (job_step_fixed _ _ (Hs x H))) as (? & ? & ? & _); done).
  constructor; rewrite ?Hj, ?map_map.
  - rewrite (map_ext_in (fun x => j_id (g x)) j_id); [done |]. intros x ?%list_elem_of_In. by apply Hfix.
  - rewrite (map_ext_in (fun x => j_digest (g x)) j_digest); [done |]. intros x ?%list_elem_of_In. by apply Hfix.
  - apply Forall_map. rewrite Forall_forall in *. intros x H. eapply job_step_ok; eauto.
  - intros x' y' (x & -> & Hxin)%list_elem_of_fmap (y & -> & Hyin)%list_elem_of_fmap Ex Ey Ek.
    destruct (Hfix x Hxin) as (_ & _ & Hkx), (Hfix y Hyin) as (_ & _ & Hky). rewrite Hkx, Hky in Ek. f_equal.
    assert (Htaken : forall z w, z ∈ jobs st -> w ∈ jobs st -> j_status z = running -> j_status w = queued ->
        j_status (g w) = running -> j_resource_lock_key z = j_resource_lock_key w -> False).
    { intros z w Hz Hw Ez Ew Egw Ezw. destruct (Hx w Hw Ew Egw) as [Hlk _].
      assert (lock_taken st (j_resource_lock_key w) = true); [| congruence].
      apply existsb_exists. exists z. split; [by apply list_elem_of_In |]. by rewrite Ez, Ezw, str_eqb_refl. }
    destruct (job_step_running _ _ (Hs x Hxin) Ex) as [Rx | Rx], (job_step_running _ _ (Hs y Hyin) Ey) as [Ry | Ry].
    + by apply Hl.
    + by destruct (Htaken x y).
    + by destruct (Htaken y x).
    + symmetry. by apply (Hx x).
  - done.
Qed.

Lemma next_sequence_above (l : list JobEvent) (e : JobEvent) : e ∈ l -> e_sequence e < next_sequence l.
Proof.
  unfold next_sequence. induction l as [|x l IH]; [by intros ?%elem_of_nil |]. cbn [fold_right].
  intros [-> | H%IH]%elem_of_cons; lia.
Qed.

Lemma sorted_end {A} (R : A -> A -> Prop) (l : list A) (x : A) :
  StronglySorted R l -> (forall y, y ∈ l -> R y x) -> StronglySorted R (l ++ [x]).
Proof.
  induction 1 as [| a l Hs IH Hf]; intros H; cbn [app]; [by repeat constructor |]. constructor.
  - apply IH. intros y Hy. by apply H, list_elem_of_further.
  - apply Forall_app. split; [done | apply Forall_singleton, H, list_elem_of_here].
Qed.

Lemma sorted_filter {A} (R : A -> A -> Prop) (P : A -> Prop) `{!forall x, Decision (P x)} (l : list A) :
  StronglySorted R l -> StronglySorted R (filter P l).
Proof.
  induction 1 as [| a l Hs IH Hf]; [constructor |]. rewrite filter_cons. case_decide; [| done].
  constructor; [done |]. rewrite Forall_forall in *. intros x [_ Hx]%list_elem_of_filter. by apply Hf.
Qed.

(** A transaction that rewrites the row of one job, or adds it, and records it. *)
Lemma events_ok_change (st st' : job_store) (j : Job) (ev : JobEvent) :
  events_ok st -> events st' = events st ++ [ev] -> e_sequence ev = next_sequence (events st) ->
  e_job_id ev = j_id j -> shows ev j -> (forall x, x ∈ jobs st' -> x = j \/ x ∈ jobs st /\ j_id x <> j_id j) ->
  (forall id, id ∈ map j_id (jobs st) -> id ∈ map j_id (jobs st')) -> j_id j ∈ map j_id (jobs st') -> events_ok st'.
Proof.
  intros [Ho Hw Hs] He Hn Hid Hsh Hrows Hids Hj. constructor; rewrite He.
  - apply sorted_end; [done |]. intros e H. unfold earlier. rewrite Hn. by apply next_sequence_above.
  - intros e [H | ->%list_elem_of_singleton]%elem_of_app; [by apply Hids, Hw | by rewrite Hid].
  - intros x Hx. unfold events_of. rewrite filter_app, filter_cons, filter_nil.
    destruct (Hrows x Hx) as [-> | [Hin Hne]].
    + rewrite Hid, decide_True by apply str_eqb_refl. exists ev. by rewrite last_snoc.
    + rewrite Hid, decide_False by (intros E%str_eqb_eq; by rewrite E in Hne). rewrite app_nil_r. by apply Hs.
Qed.

Lemma put_ids (j : Job) (l : list Job) : map j_id (put j l) = map j_id l.
Proof.
  unfold put. rewrite map_map. apply map_ext. intros x. case_if; [| done]. symmetry. by apply str_eqb_eq.
Qed.

Lemma put_row_elem (j x : Job) (l : list Job) : x ∈ put j l -> x = j \/ x ∈ l /\ j_id x <> j_id j.
Proof.
  intros (y & -> & Hy)%list_elem_of_fmap. destruct (str_eqb (j_id y) (j_id j)) eqn:E; [by left |].
  right. split; [done |]. by apply str_eqb_neq.
Qed.

(** [save] followed by [event]. *)
Lemma save_event_ok (redact : pystr -> Z -> pystr) (st : job_store) (j : Job) (ty su : pystr) (now : Z) :
  events_ok st -> j_id j ∈ map j_id (jobs st) -> events_ok (event redact (save st j) j ty su now).
Proof.
  intros H Hj. eapply (events_ok_change st _ j); try done; cbn [event save jobs]; rewrite ?put_ids; try done.
  intros x. apply put_row_elem.
Qed.

(** Writing back one job is an update of its row alone. *)
Definition put_row (j' x : Job) : Job := if str_eqb (j_id x) (j_id j') then j' else x.

Lemma put_row_cases (st : job_store) (j j' x : Job) :
  NoDup (map j_id (jobs st)) -> j ∈ jobs st -> j_id j' = j_id j -> x ∈ jobs st ->
  (x = j /\ put_row j' x = j') \/ (j_id x <> j_id j /\ put_row j' x = x).
Proof.
  intros Hn Hj Hid Hx. unfold put_row. rewrite Hid. destruct (str_eqb (j_id x) (j_id j)) eqn:E.
  - apply str_eqb_eq in E. left. split; [by apply (NoDup_map_inj j_id (jobs st)) | done].
  - apply str_eqb_neq in E. by right.
Qed.

Lemma put_updates (st st' : job_store) (j j' : Job) :
  store_inv st -> j ∈ jobs st -> job_step j j' ->
  (j_status j = queued -> lock_taken st (j_resource_lock_key j) = false) ->
  jobs st' = put j' (jobs st) -> updates st st' (put_row j').
Proof.
  intros [Hi _ _ _ _] Hj Hs Hq Hst'. destruct (fixed_fields _ _ (job_step_fixed _ _ Hs)) as (Hid & _).
  pose proof (put_row_cases st j j') as Hc. split; [done |]. split.
  - intros x Hx. destruct (Hc x Hi Hj Hid Hx) as [[-> ->] | [_ ->]]; [done | by constructor].
  - intros x Hx Eq Er. destruct (Hc x Hi Hj Hid Hx) as [[-> _] | [_ E]]; [| rewrite E in Er; congruence].
    split; [by apply Hq |]. intros y Hy Ey Ery.
    destruct (Hc y Hi Hj Hid Hy) as [[-> _] | [_ E]]; [done | rewrite E in Ery; congruence].
Qed.

Lemma get_running_ok (st : job_store) (id : pystr) (j : Job) :
  get_running st id = Ok j -> j ∈ jobs st /\ j_status j = running /\ j_id j = id.
Proof.
  unfold get_running, get. destruct (find_job st _) as [x|] eqn:E; [| done].
  destruct (bool_decide_reflect (j_status x = running)); [| done]. intros H. inv_ok.
  apply find_job_some in E as [? E%str_eqb_eq]. done.
Qed.

Lemma next_job_ok (st : job_store) (tie : nat) (j : Job) :
  next_job st tie = Some j ->
  j ∈ jobs st /\ j_status j = queued /\ lock_taken st (j_resource_lock_key j) = false
  /\ forall x, x ∈ jobs st -> j_status x = queued -> lock_taken st (j_resource_lock_key x) = false ->
       j_created_at j <= j_created_at x.
Proof.
  unfold next_job. destruct (oldest (claimable st)) as [|y r] eqn:E; [done |]. intros [= <-].
  assert (Hin : default y ((y :: r) !! tie) ∈ oldest (claimable st)).
  { rewrite E. destruct ((y :: r) !! tie) as [z|] eqn:El; [by apply list_elem_of_lookup_2 in El | apply list_elem_of_here]. }
  set (j := default y ((y :: r) !! tie)) in *.
  apply list_elem_of_filter in Hin as [Hold Hc].
  assert (Hcl : forall x, x ∈ claimable st <->
    (j_status x = queued /\ lock_taken st (j_resource_lock_key x) = false) /\ x ∈ jobs st).
  { intros x. unfold claimable. rewrite list_elem_of_filter, andb_true_iff, bool_decide_eq_true, negb_true_iff. done. }
  apply Hcl in Hc as [[? ?] ?]. repeat split; try done. intros x Hx Eq Elk.
  rewrite forallb_forall in Hold. apply Z.leb_le, Hold, list_elem_of_In, Hcl. done.
Qed.

Lemma oldest_nonempty (l : list Job) : l <> [] -> oldest l <> [].
Proof.
  intros Hl.
  assert (H : exists m, m ∈ l /\ forall x, x ∈ l -> j_created_at m <= j_created_at x).
  { induction l as [|y l IH]; [done |]. destruct l as [|z l].
    - exists y. split; [apply list_elem_of_here |]. intros x ->%list_elem_of_singleton. lia.
    - destruct IH as (m & Hm & Hmin); [done |].
      destruct (decide (j_created_at y <= j_created_at m)) as [Hle | Hgt].
      + exists y. split; [apply list_elem_of_here |].
        intros x [-> | Hx]%elem_of_cons; [lia |]. specialize (Hmin x Hx). lia.
      + exists m. split; [by apply list_elem_of_further |]. intros x [-> | Hx]%elem_of_cons; [lia | by apply Hmin]. }
  destruct H as (m & Hm & Hmin). intros E.
  assert (Hin : m ∈ oldest l) by (apply list_elem_of_filter; split; [| done]; apply forallb_forall;
    intros x Hx%list_elem_of_In; apply Z.leb_le; by apply Hmin).
  rewrite E in Hin. by apply elem_of_nil in Hin.
Qed.

Lemma next_job_none (st : job_store) (tie : nat) :
  next_job st tie = None -> forall x, x ∈ jobs st -> j_status x = queued ->
  lock_taken st (j_resource_lock_key x) = false -> False.
Proof.
  unfold next_job. intros H x Hx Hq Hl.
  assert (Hc : x ∈ claimable st) by (apply list_elem_of_filter; split; [| done]; by rewrite Hq, Hl).
  destruct (oldest (claimable st)) eqn:E; [| done].
  apply (oldest_nonempty (claimable st)); [| done]. intros E'. rewrite E' in Hc. by apply elem_of_nil in Hc.
Qed.

(** Writing back a selection of rows one after the other. *)
Lemma fold_put (h f : Job -> Job) (l : list Job) (sel : list Job) :
  NoDup (map j_id l) -> (forall x, j_id (h x) = j_id x) -> (forall x, j_id (f x) = j_id x) ->
  (forall x, x ∈ sel -> x ∈ l) ->
  fold_left (fun l j => put (h j) l) sel (map f l)
  = map (fun x => if existsb (fun j => str_eqb (j_id x) (j_id j)) sel then h x else f x) l.
Proof.
  intros Hn Hh. revert f. induction sel as [|j sel IH]; intros f Hf Hsel; [done |]. cbn [fold_left].
  set (f' := fun x => if str_eqb (j_id x) (j_id j) then h x else f x).
  assert (E : put (h j) (map f l) = map f' l).
  { unfold put. rewrite map_map. apply map_ext_in. intros x Hx%list_elem_of_In. rewrite Hf, Hh. unfold f'.
    destruct (str_eqb (j_id x) (j_id j)) eqn:Ex; [| done]. apply str_eqb_eq in Ex.
    rewrite (NoDup_map_inj j_id l x j Hn Hx); [done | apply Hsel, list_elem_of_here | done]. }
  rewrite E, IH.
  - apply map_ext. intros x. cbn [existsb]. unfold f'. destruct (str_eqb (j_id x) (j_id j)), (existsb _ sel); done.
  - intros x. unfold f'. case_if; auto.
  - intros x Hx. by apply Hsel, list_elem_of_further.
Qed.

Definition recovered (now : Z) (x : Job) : Job := if expired x now then interrupted x now else x.

Lemma recover_fold (redact : pystr -> Z -> pystr) (now : Z) (event_clock : nat -> Z) (sel : list (nat * Job)) (st : job_store) :
  jobs (fold_left (recover_one redact now event_clock) sel st)
  = fold_left (fun l j => put (interrupted j now) l) (map snd sel) (jobs st).
Proof. revert st. induction sel as [|[i j] sel IH]; intros st; [done |]. cbn [fold_left map snd]. by rewrite IH. Qed.

Lemma recover_fold_events (redact : pystr -> Z -> pystr) (now : Z) (event_clock : nat -> Z) (sel : list (nat * Job))
    (st : job_store) :
  Forall (fun ij => j_id ij.2 ∈ map j_id (jobs st)) sel -> events_ok st ->
  events_ok (fold_left (recover_one redact now event_clock) sel st).
Proof.
  revert st. induction sel as [|[i j] sel IH]; intros st Hsel H; [done |]. apply Forall_cons in Hsel as [Hj Hsel]. cbn [fold_left].
  apply IH; [| by apply save_event_ok]. eapply Forall_impl; [exact Hsel |]. intros ij Hij. cbn. by rewrite put_ids.
Qed.

Lemma map_snd_imap (f : nat -> Job -> nat * Job) (l : list Job) : (forall i x, snd (f i x) = x) -> map snd (imap f l) = l.
Proof.
  revert f. induction l as [|x l IH]; intros f Hf; [done |]. rewrite imap_cons. cbn [map].
  rewrite Hf, IH; [done |]. intros i y. apply Hf.
Qed.

Lemma recover_jobs (redact : pystr -> Z -> pystr) (st : job_store) (now : Z) (event_clock : nat -> Z) :
  NoDup (map j_id (jobs st)) ->
  jobs (fst (recover_expired redact st now event_clock)) = map (recovered now) (jobs st).
Proof.
  intros Hn. unfold recover_expired. cbn [fst]. rewrite recover_fold.
  set (sel := filter (fun j => expired j now = true) (jobs st)).
  assert (Hp : map snd (imap pair sel) = sel) by (by apply map_snd_imap).
  rewrite Hp. rewrite <- (map_id (jobs st)) at 1.
  assert (Hin : forall x, x ∈ sel -> expired x now = true /\ x ∈ jobs st)
    by (intros x H; by apply list_elem_of_filter in H).
  rewrite (fold_put (fun j => interrupted j now) id); try done; [| intros x Hx; by apply Hin].
  apply map_ext_in. intros x Hx%list_elem_of_In. unfold recovered.
  assert (E : existsb (fun j => str_eqb (j_id x) (j_id j)) sel = expired x now).
  { apply eq_bool_prop_intro. rewrite !Is_true_true, existsb_exists. split.
    - intros (y & [Hy Hyin]%list_elem_of_In%Hin & E%str_eqb_eq). by rewrite (NoDup_map_inj j_id (jobs st) x y).
    - intros Hex. exists x. split; [| apply str_eqb_refl]. by apply list_elem_of_In, list_elem_of_filter. }
  by rewrite E.
Qed.

(** Every operation adds one queued job or updates rows in place. *)
Lemma op_effect (redact : pystr -> Z -> pystr) (s : JobService) (st : job_store) (op : job_op) (now : Z)
    (event_clock : nat -> Z) :
  store_inv st ->
  let st' := apply_op redact s st op now event_clock in
  (exists g, updates st st' g)
  \/ (exists j, jobs st' = jobs st ++ [j] /\ j_status j = queued /\ job_ok j
      /\ (j_id j ∉ map j_id (jobs st)) /\ (j_digest j ∉ map j_digest (jobs st))).
Proof.
  intros Hi st'.
  assert (Hnone : forall g, jobs st' = map g (jobs st) -> (forall x, g x = x) -> exists g, updates st st' g).
  { intros g Hj Hg. exists g. split; [done |]. split; intros x Hx; rewrite Hg; [by constructor | congruence]. }
  assert (Hid : st' = st -> exists g, updates st st' g)
    by (intros E; apply (Hnone id); [by rewrite E, map_id | done]).
  destruct op as [jt rb ty ti pi p rk ik ri sc id pe | w tie | id v ph su | id | id status su code |];
    cbn [apply_op] in st'.
  - unfold enqueue in st'. destruct (rbind _ _) as [d|]; [| left; by apply Hid].
    destruct (find_job st _) eqn:Ef; [left; by apply Hid |]. destruct (get st id) eqn:Eg; [left; by apply Hid |].
    destruct (match pi with Some p' => _ | None => _ end); [left; by apply Hid |]. right. eexists.
    split; [reflexivity |]. repeat split; try done; cbn [j_id j_digest].
    + intros (x & -> & Hx)%list_elem_of_fmap. apply (find_job_none _ _ x) in Eg; [| done]. cbn beta in Eg. by rewrite str_eqb_refl in Eg.
    + intros (x & -> & Hx)%list_elem_of_fmap. apply (find_job_none _ _ x) in Ef; [| done]. cbn beta in Ef. by rewrite str_eqb_refl in Ef.
  - left. unfold claim_next in st'. destruct (next_job st tie) as [j|] eqn:En; [| by apply Hid].
    apply next_job_ok in En as (Hj & Hq & Hlk & _). eexists.
    apply (put_updates st st' j (claimed s j w now)); try done. by apply Step_start.
  - left. unfold progress in st'. destruct (get_running st id) as [j|] eqn:Er; [| by apply Hid].
    apply get_running_ok in Er as (Hj & Hr & _). eexists.
    apply (put_updates st st' j (renewed s j v (take 48 ph) now)); try done; [by apply Step_renew | congruence].
  - left. unfold heartbeat in st'. destruct (get_running st id) as [j|] eqn:Er; [| by apply Hid].
    apply get_running_ok in Er as (Hj & Hr & _). eexists.
    apply (put_updates st st' j (renewed s j (j_progress j) (j_phase j) now)); try done; [by apply Step_renew | congruence].
  - left. unfold finish in st'. destruct (terminal status) eqn:Et; cbn [negb] in st'; [| by apply Hid].
    destruct (get_running st id) as [j|] eqn:Er; [| by apply Hid].
    apply get_running_ok in Er as (Hj & Hr & _). eexists.
    apply (put_updates st st' j (finished j status (redact su 512) code now)); try done; [by apply Step_end | congruence].
  - left. exists (recovered now). split; [by apply recover_jobs, Hi |].
    split; intros x Hx; unfold recovered, expired.
    + destruct (bool_decide_reflect (j_status x = running)) as [Hr | Hr]; cbn [andb]; [| by constructor].
      destruct (j_lease_expires_at x); [case_if |]; [by apply Step_end | by constructor | by constructor].
    + intros Hq. rewrite bool_decide_eq_false_2 by congruence. cbn [andb]. congruence.
Qed.

Lemma next_job_stored (st : job_store) (tie : nat) (j : Job) : next_job st tie = Some j -> j_id j ∈ map j_id (jobs st).
Proof. intros (H & _)%next_job_ok. by apply list_elem_of_fmap_2. Qed.

Lemma running_stored (st : job_store) (id : pystr) (j : Job) : get_running st id = Ok j -> j_id j ∈ map j_id (jobs st).
Proof. intros (H & _)%get_running_ok. by apply list_elem_of_fmap_2. Qed.

(** A heartbeat records nothing and changes nothing that events show. *)
Lemma heartbeat_events (s : JobService) (st : job_store) (id : pystr) (now : Z) :
  events_ok st -> events_ok (fst (heartbeat s st id now)).
Proof.
  unfold heartbeat. intros H. destruct (get_running st id) as [j|] eqn:E; [| done]. apply get_running_ok in E as (Hj & _).
  destruct H as [Ho Hw Hs]. constructor; cbn [fst save jobs events]; [done | by rewrite put_ids |].
  intros x [-> | [Hx _]]%put_row_elem; [by apply (Hs j) | by apply Hs].
Qed.

Lemma enqueue_events (redact : pystr -> Z -> pystr) (s : JobService) (st : job_store) jt rb ty ti pi p rk ik ri sc id pe now en :
  events_ok st -> events_ok (fst (enqueue redact s st jt rb ty ti pi p rk ik ri sc id pe now en)).
Proof.
  intros H. unfold enqueue. destruct (rbind _ _) as [d|]; [| done]. destruct (find_job st _); [done |].
  destruct (get st id) as [|] eqn:Eg; [done |]. destruct (match pi with Some _ => _ | None => _ end); [done |].
  cbn [orb fst]. eapply (events_ok_change st); try done; cbn [event jobs].
  - intros x [Hx | ->%list_elem_of_singleton]%elem_of_app; [right | by left]. split; [done |]. cbn [j_id].
    intros <-. apply (find_job_none _ _ x) in Eg; [| done]. cbn beta in Eg. by rewrite str_eqb_refl in Eg.
  - intros i Hi. rewrite map_app. apply elem_of_app. by left.
  - rewrite map_app. apply elem_of_app. right. apply list_elem_of_here.
Qed.

Lemma op_events (redact : pystr -> Z -> pystr) (s : JobService) (st : job_store) (op : job_op) (now : Z)
    (event_clock : nat -> Z) :
  events_ok st -> events_ok (apply_op redact s st op now event_clock).
Proof.
  intros H. destruct op as [jt rb ty ti pi p rk ik ri sc id pe | w tie | id v ph su | id | id status su code |]; cbn [apply_op].
  - by apply enqueue_events.
  - unfold claim_next. destruct (next_job st tie) eqn:E; [| done]. apply save_event_ok; [done | by apply next_job_stored in E].
  - unfold progress. destruct (get_running st id) eqn:E; [| done]. apply save_event_ok; [done | by apply running_stored in E].
  - by apply heartbeat_events.
  - unfold finish. case_if; [done |]. destruct (get_running st id) eqn:Er; [| done].
    apply save_event_ok; [done | by apply running_stored in Er].
  - apply recover_fold_events; [| done]. apply Forall_forall. intros ij (k & x & -> & Hx%list_elem_of_lookup_2)%elem_of_lookup_imap.
    apply list_elem_of_filter in Hx as [_ Hx]. by apply list_elem_of_fmap_2.
Qed.

(** ** The other services *)

Lemma cleanup_jobs (st : job_store) (retention now : Z) (x : Job) :
  x ∈ jobs (fst (cleanup st retention now)) <-> x ∈ jobs st /\ outlived retention now x = false.
Proof. cbn [cleanup fst jobs]. rewrite list_elem_of_filter. tauto. Qed.

Lemma NoDup_map_filter {A B} (f : A -> B) (P : A -> Prop) `{!forall x, Decision (P x)} (l : list A) :
  NoDup (map f l) -> NoDup (map f (filter P l)).
Proof.
  intros Hn. eapply sublist_NoDup; [exact Hn |]. apply (fmap_sublist f), sublist_filter.
Qed.

Lemma filter_within {A} (P Q : A -> Prop) `{!forall x, Decision (P x)} `{!forall x, Decision (Q x)} (l : list A) :
  (forall x, x ∈ l -> P x -> Q x) -> filter P (filter Q l) = filter P l.
Proof.
  induction l as [|x l IH]; intros Hpq; [done |]. rewrite (filter_cons Q), (filter_cons P).
  pose proof (Hpq x (list_elem_of_here _ _)). assert (E : filter P (filter Q l) = filter P l)
    by (apply IH; intros y Hy; by apply Hpq, list_elem_of_further).
  destruct (decide (Q x)); [rewrite filter_cons, E; done |]. rewrite E. by rewrite decide_False by tauto.
Qed.

(** The events of the jobs that stay are those that stay. *)
Lemma cleanup_events (st : job_store) (retention now : Z) :
  NoDup (map j_id (jobs st)) -> events_ok st -> events_ok (fst (cleanup st retention now)).
Proof.
  intros Hn [Ho Hw Hs].
  assert (Hin : forall id, id ∈ map j_id (jobs st) ->
      str_in id (map j_id (filter (fun j => outlived retention now j = true) (jobs st))) = false ->
      id ∈ map j_id (jobs (fst (cleanup st retention now)))).
  { intros id (x & -> & Hx)%list_elem_of_fmap E. apply list_elem_of_fmap_2, cleanup_jobs. split; [done |].
    destruct (outlived retention now x) eqn:Ex; [| done]. exfalso. apply not_true_iff_false in E. apply E.
    apply str_in_elem, list_elem_of_fmap_2, list_elem_of_filter. done. }
  constructor; cbn [cleanup fst events].
  - by apply sorted_filter.
  - intros e [E He]%list_elem_of_filter. apply Hin; [by apply Hw | done].
  - intros x [Hx Ex]%cleanup_jobs. destruct (Hs x Hx) as (e & He & Hsh). exists e. split; [| done]. rewrite <- He. f_equal.
    apply filter_within. intros ev _ ->%str_eqb_eq.
    apply not_true_iff_false. intros (y & Ey & [Hy Hyin]%list_elem_of_filter)%str_in_elem%list_elem_of_fmap.
    apply (NoDup_map_inj j_id (jobs st)) in Ey; [congruence | done | done | done].
Qed.

Lemma cleanup_inv (st : job_store) (retention now : Z) : store_inv st -> store_inv (fst (cleanup st retention now)).
Proof.
  intros [Hi Hd Ho Hl He]. constructor.
  - by apply NoDup_map_filter.
  - by apply NoDup_map_filter.
  - rewrite Forall_forall in *. intros x [Hx _]%cleanup_jobs. by apply Ho.
  - intros x y [Hx _]%cleanup_jobs [Hy _]%cleanup_jobs. by apply Hl.
  - by apply cleanup_events.
Qed.

Lemma without_project_same (id : pystr) (x : Job) :
  j_id (without_project id x) = j_id x /\ j_digest (without_project id x) = j_digest x
  /\ j_resource_lock_key (without_project id x) = j_resource_lock_key x /\ j_status (without_project id x) = j_status x
  /\ j_progress (without_project id x) = j_progress x /\ j_phase (without_project id x) = j_phase x
  /\ (job_ok x -> job_ok (without_project id x)).
Proof. unfold without_project. by case_if. Qed.

Lemma project_deleted_inv (st : job_store) (id : pystr) : store_inv st -> store_inv (project_deleted st id).
Proof.
  intros [Hi Hd Ho Hl [He1 He2 He3]].
  assert (Hids : map j_id (jobs (project_deleted st id)) = map j_id (jobs st))
    by (cbn [project_deleted jobs]; rewrite map_map; apply map_ext; intros x; apply without_project_same).
  constructor; [by rewrite Hids | | | | constructor]; cbn [project_deleted jobs events].
  - rewrite map_map, (map_ext _ j_digest); [done |]. intros x. apply without_project_same.
  - apply Forall_map. eapply Forall_impl; [exact Ho |]. intros x. apply without_project_same.
  - intros x' y' (x & -> & Hx)%list_elem_of_fmap (y & -> & Hy)%list_elem_of_fmap.
    destruct (without_project_same id x) as (_ & _ & -> & -> & _), (without_project_same id y) as (_ & _ & -> & -> & _).
    intros. f_equal. by apply Hl.
  - done.
  - intros e He. change (map (without_project id) (jobs st)) with (jobs (project_deleted st id)). rewrite Hids. by apply He2.
  - intros x' (x & -> & Hx)%list_elem_of_fmap. unfold shows.
    destruct (without_project_same id x) as (-> & _ & _ & -> & -> & -> & _). by apply He3.
Qed.

Lemma NoDup_end {A} (l : list A) (x : A) : NoDup l -> x ∉ l -> NoDup (l ++ [x]).
Proof.
  intros Hn Hx. apply NoDup_app. split; [done |]. split; [| apply NoDup_singleton].
  intros y Hy ->%list_elem_of_singleton. done.
Qed.

Lemma job_apply_op_inv (redact : pystr -> Z -> pystr) (s : JobService) (st : job_store) (op : job_op) (now : Z)
    (event_clock : nat -> Z) :
  store_inv st -> store_inv (apply_op redact s st op now event_clock).
Proof.
  intros Hi. pose proof (op_events redact s st op now event_clock (inv_events _ Hi)) as He. cbn zeta in He.
  destruct (op_effect redact s st op now event_clock Hi) as [(g & Hg) | (j & Hj & Hq & Hok & Hid & Hd)];
    [by eapply updates_inv |].
  destruct Hi as [Hi1 Hi2 Hi3 Hi4 _]. constructor; rewrite ?Hj, ?map_app; cbn [map].
  - by apply NoDup_end.
  - by apply NoDup_end.
  - apply Forall_app. by split; [| apply Forall_singleton].
  - intros x y Hx Hy Ex Ey Ek. apply elem_of_app in Hx as [Hx | ->%list_elem_of_singleton], Hy as [Hy | ->%list_elem_of_singleton];
      [by apply Hi4 | congruence | congruence | done].
  - done.
Qed.

Lemma job_reachable_inv (redact : pystr -> Z -> pystr) (s : JobService) (st : job_store) :
  reachable redact s st -> store_inv st.
Proof.
  induction 1 as [| st op now ec _ IH | st r now _ IH | st id _ IH];
    [| by apply job_apply_op_inv | by apply cleanup_inv | by apply project_deleted_inv].
  constructor; cbn [jobs map]; [apply NoDup_nil_2 | apply NoDup_nil_2 | apply Forall_nil_2 | by intros x y ?%elem_of_nil |].
  by constructor; [apply SSorted_nil | intros e ?%elem_of_nil | intros j ?%elem_of_nil].
Qed.

(** Rows keep their place, each one step on. *)
Lemma op_rows (redact : pystr -> Z -> pystr) (s : JobService) (st : job_store) (op : job_op) (now : Z)
    (event_clock : nat -> Z) (i : nat) (x : Job) :
  store_inv st -> jobs st !! i = Some x ->
  exists x', jobs (apply_op redact s st op now event_clock) !! i = Some x' /\ job_step x x'.
Proof.
  intros Hi Hx. destruct (op_effect redact s st op now event_clock Hi) as [(g & Hj & Hs & _) | (j & Hj & _)]; rewrite Hj.
  - exists (g x). split; [| by eapply Hs, list_elem_of_lookup_2].
    by rewrite list_lookup_fmap, Hx.
  - exists x. split; [by apply lookup_app_l_Some | by constructor].
Qed.

Lemma job_step_terminal (x x' : Job) : job_step x x' -> terminal (j_status x) = true -> x' = x.
Proof. intros [| ? E | ? E | ? E]; [done | | |]; rewrite E; discriminate. Qed.

Definition run_ops (redact : pystr -> Z -> pystr) (s : JobService) (st : job_store)
    (ops : list (job_op * Z * (nat -> Z))) : job_store :=
  fold_left (fun st '(op, now, ec) => apply_op redact s st op now ec) ops st.

Lemma run_ops_rows (redact : pystr -> Z -> pystr) (s : JobService) (ops : list (job_op * Z * (nat -> Z)))
    (st : job_store) (i : nat) (x : Job) :
  store_inv st -> jobs st !! i = Some x ->
  store_inv (run_ops redact s st ops)
  /\ exists x', jobs (run_ops redact s st ops) !! i = Some x' /\ fixed_part x' = fixed_part x.
Proof.
  revert st x. induction ops as [|[[op now] ec] ops IH]; intros st x Hi Hx; [split; [done |]; by exists x |].
  destruct (op_rows redact s st op now ec i x Hi Hx) as (x1 & Hx1 & Hs).
  destruct (IH (apply_op redact s st op now ec) x1) as (Hinv & x2 & Hx2 & Hf); [by apply job_apply_op_inv | done |].
  split; [done |]. exists x2. split; [done |]. rewrite Hf. by apply job_step_fixed.
Qed.

(** What an accepted request finds. *)
Definition request_digest (s : JobService) (job_type requested_by : pystr) (target_id : option pystr) (payload : pydict)
    (idempotency_key : pystr) (idempotency_scope : option pystr) : result pystr :=
  run! raise_if (negb (str_in job_type JOB_TYPES)) (value_error "job type is not allowlisted") in
  run! raise_if (negb (idempotency_key_ok idempotency_key)) (value_error "idempotency key is invalid") in
  run! validate_payload payload in
  digest s requested_by job_type (or_text idempotency_scope (or_text target_id [])) idempotency_key.

Lemma enqueue_row (redact : pystr -> Z -> pystr) (s : JobService) (st st1 : job_store) jt rb ty ti pi p rk ik ri sc id pe now en
    (j : Job) (b : bool) :
  enqueue redact s st jt rb ty ti pi p rk ik ri sc id pe now en = (st1, Ok (j, b)) ->
  request_digest s jt rb ti p ik sc = Ok (j_digest j) /\ j ∈ jobs st1.
Proof.
  unfold enqueue. change (rbind _ _) with (request_digest s jt rb ti p ik sc).
  destruct (request_digest s jt rb ti p ik sc) as [d|]; [| intros [= _ ?]; done].
  destruct (find_job st _) as [x|] eqn:E.
  - intros [= <- <- <-]. apply find_job_some in E as [Hx Hd%str_eqb_eq]. by subst d.
  - case_if; [done |]. intros [= <- <- <-]. split; [done |]. cbn [event jobs]. apply elem_of_app. right. apply list_elem_of_here.
Qed.

(** ** Properties *)


(** A job goes from queued through one running attempt to a terminal state
    and no other way; what identifies it never changes and the queue loses no
    row; a terminal job is final.  A worker that asks for a job gets an oldest of the
    queued jobs whose lock is free, and gets none only when there is none. *)
Theorem jobs_lifecycle (redact : pystr -> Z -> pystr) (s : JobService) (st : job_store) (op : job_op) (now : Z)
    (event_clock : nat -> Z) :
  reachable redact s st ->
  (forall i x, jobs st !! i = Some x ->
     exists x', jobs (apply_op redact s st op now event_clock) !! i = Some x' /\ job_step x x'
       /\ (terminal (j_status x) = true -> x' = x))
  /\ (forall worker tie en,
        match snd (claim_next redact s st worker tie now en) with
        | Some j' =>
            exists j, j ∈ jobs st /\ j_status j = queued /\ lock_taken st (j_resource_lock_key j) = false
              /\ j' = claimed s j worker now
              /\ (forall x, x ∈ jobs st -> j_status x = queued -> lock_taken st (j_resource_lock_key x) = false ->
                  j_created_at j <= j_created_at x)
        | None => forall x, x ∈ jobs st -> j_status x = queued -> lock_taken st (j_resource_lock_key x) = true
        end).
Proof.
  intros Hi%job_reachable_inv. split.
  - intros i x Hx. destruct (op_rows redact s st op now event_clock i x Hi Hx) as (x' & Hx' & Hs).
    exists x'. repeat split; try done. by apply job_step_terminal.
  - intros worker tie en. unfold claim_next. destruct (next_job st tie) as [j|] eqn:E; cbn [snd].
    + apply next_job_ok in E as (? & ? & ? & ?). exists j. done.
    + intros x Hx Hq. destruct (lock_taken st (j_resource_lock_key x)) eqn:El; [done |].
      destruct (next_job_none st tie E x Hx Hq El).
Qed.

(** Enqueueing is idempotent.  After a request was accepted and whatever the
    queue did since, a request of the same requester, type, scope and key is
    answered with that very job, whatever else it carries, and adds nothing. *)
Theorem enqueue_idempotent (redact : pystr -> Z -> pystr) (s : JobService) (st st1 : job_store)
    jt rb ty ti pi p rk ik ri sc id pe now en (j : Job) (b : bool) ops ty' ti' pi' p' rk' ri' sc' id' pe' now' en' :
  reachable redact s st ->
  enqueue redact s st jt rb ty ti pi p rk ik ri sc id pe now en = (st1, Ok (j, b)) ->
  validate_payload p' = Ok tt -> or_text sc' (or_text ti' []) = or_text sc (or_text ti []) ->
  let st2 := run_ops redact s st1 ops in
  exists j', enqueue redact s st2 jt rb ty' ti' pi' p' rk' ik ri' sc' id' pe' now' en' = (st2, Ok (j', false))
    /\ fixed_part j' = fixed_part j.
Proof.
  intros Hr He Hp Hsc st2. apply job_reachable_inv in Hr.
  assert (Hi1 : store_inv st1)
    by (pose proof (job_apply_op_inv redact s st (Enqueue jt rb ty ti pi p rk ik ri sc id pe) now (fun _ => en) Hr) as H;
        cbn [apply_op] in H; by rewrite He in H).
  destruct (enqueue_row _ _ _ _ _ _ _ _ _ _ _ _ _ _ _ _ _ _ _ _ He) as [Hd Hj].
  apply list_elem_of_lookup_1 in Hj as [i Hji].
  destruct (run_ops_rows redact s ops st1 i j Hi1 Hji) as (Hi2 & x & Hx & Hf). fold st2 in Hi2, Hx.
  destruct (fixed_fields _ _ Hf) as (_ & Hdx & _).
  assert (Hd' : request_digest s jt rb ti' p' ik sc' = Ok (j_digest x)).
  { unfold request_digest in *. rewrite Hsc, Hp, Hdx.
    destruct (raise_if (negb (str_in jt JOB_TYPES)) _); [| discriminate Hd].
    destruct (raise_if (negb (idempotency_key_ok ik)) _); [| discriminate Hd].
    destruct (validate_payload p); [| discriminate Hd]. exact Hd. }
  exists x. split; [| done]. unfold enqueue. change (rbind _ _) with (request_digest s jt rb ti' p' ik sc').
  rewrite Hd'. apply list_elem_of_lookup_2 in Hx.
  destruct (find_job st2 (fun j => str_eqb (j_digest j) (j_digest x))) as [y|] eqn:Ef.
  - apply find_job_some in Ef as [Hy Ey%str_eqb_eq]. by rewrite (NoDup_map_inj j_digest (jobs st2) y x (inv_digests _ Hi2)).
  - apply (find_job_none _ _ x) in Ef; [| done]. cbn beta in Ef. by rewrite str_eqb_refl in Ef.
Qed.

(** A sample run: two jobs on one repository, the first one claimed. *)
Definition sample_service : JobService := mkService 120 $"application-secret".
Definition keep_text (t : pystr) (limit : Z) : pystr := take (Z.to_nat limit) t.
Definition sample_payload : pydict := [($"branch", PStr $"main"); ($"force", PBool false)].

Definition pull_job (key id : string) : job_op :=
  Enqueue $"git.pull" $"alice" $"project" (Some $"prj_1") None sample_payload $"project:prj_1" (ustr key) None None
    (ustr id) (fun _ => true).

Definition sample_ops : list (job_op * Z * (nat -> Z)) :=
  [(pull_job "request-0001" "job_1", 100, fun _ => 100); (pull_job "request-0002" "job_2", 110, fun _ => 111);
   (Claim $"worker-1" 0, 120, fun _ => 120); (Claim $"worker-2" 0, 130, fun _ => 130)].

Definition sample_store : job_store := run_ops keep_text sample_service (mkStore [] []) sample_ops.

Lemma run_ops_reachable (redact : pystr -> Z -> pystr) (s : JobService) (ops : list (job_op * Z * (nat -> Z)))
    (st : job_store) : reachable redact s st -> reachable redact s (run_ops redact s st ops).
Proof. revert st. induction ops as [|[[op now] ec] ops IH]; intros st H; [done |]. apply IH. by constructor. Qed.

Lemma job_sample_reachable : reachable keep_text sample_service sample_store.
Proof. apply run_ops_reachable. constructor. Qed.

Lemma sample_statuses : map j_status (jobs sample_store) = [running; queued].
Proof. vm_cast_no_check (eq_refl [running; queued]). Qed.




Lemma jobs_lifecycle_witness :
  exists x', jobs (apply_op keep_text sample_service sample_store Recover 500 (fun _ => 500)) !! 0%nat = Some x'
    /\ terminal (j_status x') = true /\ j_attempt x' = 1.
Proof.
  destruct (jobs sample_store !! 0%nat) as [x|] eqn:E.
  - destruct (jobs_lifecycle keep_text sample_service sample_store Recover 500 (fun _ => 500) job_sample_reachable) as [H _].
    destruct (H 0%nat x E) as (x' & Hx' & _). exists x'. split; [exact Hx' |].
    assert (Hc : (fun j => (terminal (j_status j), j_attempt j))
        <$> jobs (apply_op keep_text sample_service sample_store Recover 500 (fun _ => 500)) !! 0%nat = Some (true, 1))
      by (vm_cast_no_check (eq_refl (Some (true, 1)))).
    rewrite Hx' in Hc. injection Hc as Ht Ha. split; [exact Ht | exact Ha].
  - pose proof sample_statuses as Hs. destruct (jobs sample_store); discriminate.
Defined.

(** Asking again for the first job, from another request, after the run. *)
Lemma enqueue_idempotent_witness :
  exists j', enqueue keep_text sample_service sample_store $"git.pull" $"alice" $"project" (Some $"prj_1") None [] $"other-lock"
      $"request-0001" None None $"job_9" (fun _ => true) 900 900 = (sample_store, Ok (j', false))
    /\ j_id j' = $"job_1".
Proof.
  destruct (enqueue keep_text sample_service (mkStore [] []) $"git.pull" $"alice" $"project" (Some $"prj_1") None
    sample_payload $"project:prj_1" $"request-0001" None None $"job_1" (fun _ => true) 100 100) as [st1 [[j b]|e]] eqn:E.
  - destruct (enqueue_idempotent keep_text sample_service (mkStore [] []) st1 $"git.pull" $"alice" $"project" (Some $"prj_1")
      None sample_payload $"project:prj_1" $"request-0001" None None $"job_1" (fun _ => true) 100 100 j b
      (tail sample_ops) $"project" (Some $"prj_1") None [] $"other-lock" None None $"job_9" (fun _ => true) 900 900
      (Reach_empty keep_text sample_service) E eq_refl eq_refl) as (j' & Hj & Hf).
    assert (Hst : run_ops keep_text sample_service st1 (tail sample_ops) = sample_store)
      by (unfold sample_store, sample_ops, run_ops; cbn [fold_left tail apply_op pull_job]; by rewrite E).
    rewrite Hst in Hj. exists j'. split; [exact Hj |].
    apply fixed_fields in Hf as (-> & _). revert E. unfold enqueue. destruct (rbind _ _); [| discriminate].
    cbn. intros [= _ <- _]. reflexivity.
  - exfalso. assert (Hx : is_ok (snd (enqueue keep_text sample_service (mkStore [] []) $"git.pull" $"alice" $"project"
      (Some $"prj_1") None sample_payload $"project:prj_1" $"request-0001" None None $"job_1" (fun _ => true) 100 100)) = true)
      by (vm_cast_no_check (eq_refl true)).
    rewrite E in Hx. discriminate Hx.
Defined.
