(* ===== verification/Pty.v ===== *)
(** * PTY contracts and redraw ([agentbox_runtime/waw_pty.py], [waw_redraw.py])

    Geometry, input, the bounded ring of output frames that a reconnecting
    client replays from, and the trimming of a captured screen.  The ring's
    mutations give the ring they leave behind, also when they raise. *)

From S2P Require Import Prelude PyVal WawDomain.

Local Open Scope Z_scope.

Definition MIN_COLUMNS : Z := 8.
Definition MAX_COLUMNS : Z := 240.
Definition MIN_ROWS : Z := 1.
Definition MAX_ROWS : Z := 200.
Definition MAX_INPUT_BYTES : Z := 16 * 1024.
Definition MAX_OUTPUT_FRAME_BYTES : Z := 48 * 1024.
Definition MAX_OUTPUT_BUFFER_BYTES : Z := 256 * 1024.
Definition MAX_OUTPUT_CURSOR : Z := MAX_U64 - 1.

Definition pty_error (text : string) : exn := err WAWPTYError text.

Record PtyGeometry : Type := mkGeometry { columns : Z; rows : Z }.

Definition new_geometry (c r : pyval) : result PtyGeometry :=
  let! c' := match c with
             | PInt z => if in_range MIN_COLUMNS z MAX_COLUMNS then Ok z
                         else Raise (pty_error "columns must be an integer in 8..240")
             | _ => Raise (pty_error "columns must be an integer in 8..240")
             end in
  let! r' := match r with
             | PInt z => if in_range MIN_ROWS z MAX_ROWS then Ok z
                         else Raise (pty_error "rows must be an integer in 1..200")
             | _ => Raise (pty_error "rows must be an integer in 1..200")
             end in
  Ok (mkGeometry c' r').

Definition validate_input (data : pyval) : result bytes :=
  let e := pty_error "PTY input must be non-empty bytes within the fixed limit" in
  match data with
  | PBytes b => run! raise_if ((blen b =? 0) || (MAX_INPUT_BYTES <? blen b)) e in Ok b
  | _ => Raise e
  end.

(** ** Output frames *)

Record OutputFrame : Type := mkFrame { start_cursor : Z; end_cursor : Z; payload : bytes }.

Definition new_frame (start_ end_ : Z) (p : bytes) : result OutputFrame :=
  run! validate_positive_u64 (PInt start_) "start_cursor" in
  run! validate_positive_u64 (PInt end_) "end_cursor" in
  run! raise_if ((end_ <? start_) || negb (end_ - start_ + 1 =? blen p))
         (pty_error "output cursor range does not match payload length") in
  run! raise_if ((blen p =? 0) || (MAX_OUTPUT_FRAME_BYTES <? blen p))
         (pty_error "output frame size is outside the fixed limit") in
  Ok (mkFrame start_ end_ p).

Inductive OutputReplay : Type :=
| Frames (frames : list OutputFrame) (next_cursor : Z)
| Gap (next_cursor gap_start gap_end : Z).

(** ** The ring *)

Record OutputRing : Type := mkRing {
  capacity : Z;
  frames : list OutputFrame;
  ring_bytes : Z;
  line_breaks : Z;
  next_cursor : Z;
  dropped_until : Z
}.

Definition new_ring (capacity_bytes : Z) : result OutputRing :=
  run! raise_if (negb (in_range 1 capacity_bytes MAX_OUTPUT_BUFFER_BYTES))
         (pty_error "output buffer capacity is invalid") in
  Ok (mkRing capacity_bytes [] 0 0 1 0).

Definition is_newline (b : byte) : bool := b2z b =? 10.

(** [payload.count(b"\n")] and [payload.endswith(b"\n")] *)
Definition count_newlines (p : bytes) : Z := blen (filter (fun b => is_newline b = true) p).
Definition ends_newline (p : bytes) : bool := match last p with Some b => is_newline b | None => false end.

(** [_retained_line_count] *)
Definition retained_line_count (fs : list OutputFrame) (breaks : Z) : Z :=
  breaks + match last fs with Some f => if ends_newline (payload f) then 0 else 1 | None => 0 end.

(** The [while] loop of [append]; [popleft] of an empty deque raises. *)
Fixpoint evict (cap : Z) (fs : list OutputFrame) (nbytes breaks dropped : Z)
  : result (list OutputFrame * Z * Z * Z) :=
  if (cap <? nbytes) || (2000 <? retained_line_count fs breaks) then
    match fs with
    | [] => Raise (err PyIndexError "pop from an empty deque")
    | f :: r => evict cap r (nbytes - blen (payload f)) (breaks - count_newlines (payload f)) (end_cursor f)
    end
  else Ok (fs, nbytes, breaks, dropped).

Definition append (s : OutputRing) (data : pyval) : OutputRing * result OutputFrame :=
  match data with
  | PBytes p =>
      if blen p =? 0 then (s, Raise (pty_error "output must be non-empty bytes"))
      else if MAX_OUTPUT_FRAME_BYTES <? blen p then (s, Raise (pty_error "output frame exceeds the fixed limit"))
      else
        let end_ := next_cursor s + blen p - 1 in
        if MAX_OUTPUT_CURSOR <? end_ then (s, Raise (pty_error "output cursor exhausted"))
        else
          match new_frame (next_cursor s) end_ p with
          | Raise e => (s, Raise e)
          | Ok frame =>
              match evict (capacity s) (frames s ++ [frame]) (ring_bytes s + blen p)
                          (line_breaks s + count_newlines p) (dropped_until s) with
              | Raise e => (s, Raise e)
              | Ok (fs, nbytes, breaks, dropped) =>
                  (mkRing (capacity s) fs nbytes breaks (end_ + 1) dropped, Ok frame)
              end
          end
  | _ => (s, Raise (pty_error "output must be non-empty bytes"))
  end.

(** The validation of [append_batch]: the total length *)
Fixpoint batch_total (payloads : list pyval) (total : Z) : result Z :=
  match payloads with
  | [] => Ok total
  | PBytes p :: r =>
      run! raise_if ((blen p =? 0) || (MAX_OUTPUT_FRAME_BYTES <? blen p))
             (pty_error "output batch contains an invalid frame") in
      batch_total r (total + blen p)
  | _ :: _ => Raise (pty_error "output batch contains an invalid frame")
  end.

Fixpoint append_all (s : OutputRing) (payloads : list pyval) : OutputRing * result (list OutputFrame) :=
  match payloads with
  | [] => (s, Ok [])
  | p :: r =>
      match append s p with
      | (s1, Raise e) => (s1, Raise e)
      | (s1, Ok f) =>
          match append_all s1 r with
          | (s2, Raise e) => (s2, Raise e)
          | (s2, Ok fs) => (s2, Ok (f :: fs))
          end
      end
  end.

(** [append_batch] of a tuple *)
Definition append_batch (s : OutputRing) (payloads : list pyval) : OutputRing * result (list OutputFrame) :=
  match batch_total payloads 0 with
  | Raise e => (s, Raise e)
  | Ok total =>
      if (capacity s <? total) || (MAX_OUTPUT_CURSOR <? next_cursor s + total - 1)
      then (s, Raise (pty_error "output batch cannot be retained atomically"))
      else append_all s payloads
  end.

Definition clear (s : OutputRing) : OutputRing :=
  mkRing (capacity s) [] 0 0 (next_cursor s) (next_cursor s - 1).

Definition replay (s : OutputRing) (after : pyval) : result OutputReplay :=
  let e := pty_error "after_cursor must be zero or a usable output cursor" in
  match after with
  | PInt after_cursor =>
      run! raise_if (negb (in_range 0 after_cursor MAX_OUTPUT_CURSOR)) e in
      if after_cursor <? dropped_until s then
        Ok (Gap (next_cursor s - 1) (after_cursor + 1) (dropped_until s))
      else
        match frames s with
        | [] => Ok (Frames [] after_cursor)
        | f :: _ =>
            let oldest := start_cursor f in
            if after_cursor <? oldest - 1 then Ok (Gap (next_cursor s - 1) (after_cursor + 1) (oldest - 1))
            else Ok (Frames (filter (fun f => after_cursor < end_cursor f) (frames s)) (next_cursor s - 1))
        end
  | _ => Raise e
  end.

(** ** Redraw *)

Definition REDRAW_MAX_ROWS : Z := 24.
Definition ROW_READ_LIMIT : Z := REDRAW_MAX_ROWS + 1.
Definition MAX_BYTES : Z := 60 * 1024.
Definition BYTE_READ_LIMIT : Z := MAX_BYTES + 1.
Definition MAX_FRAME_BYTES : Z := 32 * 1024.

Definition redraw_error (text : string) : exn := err WAWRedrawError text.

(** [_physical_rows] *)
Definition physical_rows (p : bytes) : Z :=
  count_newlines p + (if negb (blen p =? 0) && negb (ends_newline p) then 1 else 0).

Record BoundedRedraw : Type := mkRedraw { redraw_payload : bytes; has_more : bool }.

Definition new_redraw (p : bytes) (more : bool) : result BoundedRedraw :=
  run! raise_if ((MAX_BYTES <? blen p) || (REDRAW_MAX_ROWS <? physical_rows p))
         (redraw_error "redraw payload is outside the fixed bounds") in
  Ok (mkRedraw p more).

(** The [for] loop over the offsets: where to cut, when the look-ahead row is
    complete. *)
Fixpoint row_loop (rest : bytes) (offset newline_count row_start : Z) : option Z :=
  match rest with
  | [] => None
  | value :: r =>
      if is_newline value then
        if newline_count + 1 =? ROW_READ_LIMIT then Some row_start
        else row_loop r (offset + 1) (newline_count + 1) (offset + 1)
      else row_loop r (offset + 1) newline_count row_start
  end.

(** [payload.rfind(b"\n")] *)
Fixpoint rfind_newline (p : bytes) (offset found : Z) : Z :=
  match p with
  | [] => found
  | b :: r => rfind_newline r (offset + 1) (if is_newline b then offset else found)
  end.

Definition trim_redraw_sentinels (raw : pyval) : result BoundedRedraw :=
  let e := redraw_error "redraw read must be bytes within the sentinel limit" in
  match raw with
  | PBytes b =>
      run! raise_if (BYTE_READ_LIMIT <? blen b) e in
      let byte_sentinel := blen b =? BYTE_READ_LIMIT in
      let p := if byte_sentinel then slice_to MAX_BYTES b else b in
      match row_loop p 0 0 0 with
      | Some row_start => new_redraw (slice_to row_start p) true
      | None =>
          if physical_rows p =? ROW_READ_LIMIT then
            new_redraw (slice_to (rfind_newline p 0 (-1) + 1) p) true
          else new_redraw p byte_sentinel
      end
  | _ => Raise e
  end.

Record RuntimeRedrawPublication : Type := mkPublication {
  pub_frames : list OutputFrame;
  baseline_cursor : Z;
  pub_has_more : bool
}.

(** The [for] loop of [__post_init__]: the end of the last frame *)
Fixpoint continuous (fs : list OutputFrame) (previous_end : option Z) : result (option Z) :=
  match fs with
  | [] => Ok previous_end
  | f :: r =>
      run! raise_if (MAX_FRAME_BYTES <? blen (payload f))
             (redraw_error "redraw frame is outside the publication limit") in
      run! raise_if (match previous_end with Some e => negb (start_cursor f =? e + 1) | None => false end)
             (redraw_error "redraw frame cursors are not continuous") in
      continuous r (Some (end_cursor f))
  end.

Definition new_publication (fs : list OutputFrame) (baseline : Z) (more : bool) : result RuntimeRedrawPublication :=
  run! raise_if (negb (in_range 0 baseline MAX_OUTPUT_CURSOR))
         (redraw_error "baseline cursor is outside the output range") in
  let! previous_end := continuous fs None in
  run! raise_if (match previous_end with Some e => negb (baseline =? e) | None => false end)
         (redraw_error "baseline cursor must end the redraw publication") in
  Ok (mkPublication fs baseline more).

(** ** The ring as a window on a stream

    The specification is the stream of all bytes ever appended; the ring keeps
    a suffix of it, cut into frames. *)

Definition frames_bytes (fs : list OutputFrame) : bytes := concat (map payload fs).

(** Frames that follow each other after the cursor [prev]. *)
Fixpoint chained (prev : Z) (fs : list OutputFrame) : Prop :=
  match fs with
  | [] => True
  | f :: r => start_cursor f = prev + 1 /\ end_cursor f = prev + blen (payload f)
              /\ 1 <= blen (payload f) <= MAX_OUTPUT_FRAME_BYTES /\ chained (end_cursor f) r
  end.

Record ring_window (s : OutputRing) (h : bytes) : Prop := mkWindow {
  rw_capacity : 1 <= capacity s <= MAX_OUTPUT_BUFFER_BYTES;
  rw_next : next_cursor s = blen h + 1;
  rw_length : blen h <= MAX_OUTPUT_CURSOR;
  rw_dropped : 0 <= dropped_until s <= blen h;
  rw_suffix : frames_bytes (frames s) = slice_from (dropped_until s) h;
  rw_chained : chained (dropped_until s) (frames s);
  rw_bytes : ring_bytes s = blen (frames_bytes (frames s));
  rw_breaks : line_breaks s = count_newlines (frames_bytes (frames s));
  rw_bounded : ring_bytes s <= capacity s;
  rw_lines : retained_line_count (frames s) (line_breaks s) <= 2000
}.

Inductive ring_reaches : OutputRing -> bytes -> Prop :=
| Ring_new cap s : new_ring cap = Ok s -> ring_reaches s []
| Ring_append s h data s' f : ring_reaches s h -> append s data = (s', Ok f) -> ring_reaches s' (h ++ payload f)
| Ring_append_fails s h data s' e : ring_reaches s h -> append s data = (s', Raise e) -> ring_reaches s' h
| Ring_batch s h data s' fs : ring_reaches s h -> append_batch s data = (s', Ok fs) ->
    ring_reaches s' (h ++ frames_bytes fs)
| Ring_batch_fails s h data s' e : ring_reaches s h -> append_batch s data = (s', Raise e) -> ring_reaches s' h
| Ring_clear s h : ring_reaches s h -> ring_reaches (clear s) h.

(** ** Lemmas *)

Lemma count_newlines_app (a b : bytes) : count_newlines (a ++ b) = count_newlines a + count_newlines b.
Proof. unfold count_newlines. by rewrite filter_app, blen_app. Qed.

Lemma frames_bytes_app (a b : list OutputFrame) : frames_bytes (a ++ b) = frames_bytes a ++ frames_bytes b.
Proof. unfold frames_bytes. by rewrite map_app, concat_app. Qed.

Lemma frames_bytes_cons (f : OutputFrame) (r : list OutputFrame) : frames_bytes (f :: r) = payload f ++ frames_bytes r.
Proof. done. Qed.

Lemma chained_app (prev : Z) (a b : list OutputFrame) :
  chained prev (a ++ b) <-> chained prev a /\ chained (prev + blen (frames_bytes a)) b.
Proof.
  revert prev. induction a as [|f a IH]; intros prev; cbn [chained app].
  - change (blen (frames_bytes [])) with 0. rewrite Z.add_0_r. tauto.
  - rewrite IH, frames_bytes_cons, blen_app, Z.add_assoc. split.
    + intros (H1 & H2 & H3 & H4 & H5). rewrite <- H2. auto.
    + intros ((H1 & H2 & H3 & H4) & H5). rewrite <- H2 in H5. auto.
Qed.

(** The eviction loop drops a prefix of the frames until the bounds hold, and
    never runs out of frames. *)
Lemma evict_spec (cap prev : Z) (fs : list OutputFrame) :
  0 <= cap -> chained prev fs ->
  exists l fs', fs = l ++ fs'
    /\ evict cap fs (blen (frames_bytes fs)) (count_newlines (frames_bytes fs)) prev
       = Ok (fs', blen (frames_bytes fs'), count_newlines (frames_bytes fs'), prev + blen (frames_bytes l))
    /\ blen (frames_bytes fs') <= cap /\ retained_line_count fs' (count_newlines (frames_bytes fs')) <= 2000.
Proof.
  intros Hc. revert prev. induction fs as [|f r IH]; intros prev Hch; cbn [evict];
    match goal with |- context [if ?b then _ else _] => destruct b eqn:E end.
  - exfalso. change (frames_bytes []) with (@nil byte) in E. apply orb_true_iff in E as [E | E]; [| done].
    apply Z.ltb_lt in E. change (cap < 0) in E. lia.
  - apply orb_false_iff in E as [E1 E2]. bool_to_prop. exists [], []. change (blen (frames_bytes [])) with 0 at 2.
    rewrite Z.add_0_r. done.
  - cbn [chained] in Hch. destruct Hch as (H1 & H2 & H3 & H4). destruct (IH _ H4) as (l & fs' & -> & He & Hb & Hn).
    exists (f :: l), fs'. split; [done |]. split; [| done].
    rewrite frames_bytes_cons, blen_app, count_newlines_app.
    replace (blen (payload f) + blen (frames_bytes (l ++ fs')) - blen (payload f))
      with (blen (frames_bytes (l ++ fs'))) by lia.
    replace (count_newlines (payload f) + count_newlines (frames_bytes (l ++ fs')) - count_newlines (payload f))
      with (count_newlines (frames_bytes (l ++ fs'))) by lia.
    rewrite He, frames_bytes_cons, blen_app, H2. do 2 f_equal. lia.
  - apply orb_false_iff in E as [E1 E2]. bool_to_prop. exists [], (f :: r).
    change (blen (frames_bytes [])) with 0. rewrite Z.add_0_r. done.
Qed.

Lemma new_frame_ok (start_ : Z) (p : bytes) :
  1 <= start_ -> 1 <= blen p <= MAX_OUTPUT_FRAME_BYTES -> start_ + blen p - 1 <= MAX_OUTPUT_CURSOR ->
  new_frame start_ (start_ + blen p - 1) p = Ok (mkFrame start_ (start_ + blen p - 1) p).
Proof.
  intros Hs Hp Hm. unfold new_frame. unfold MAX_OUTPUT_CURSOR in Hm.
  rewrite (proj2 (validate_positive_u64_ok (PInt start_) "start_cursor" start_)) by (split; [done | lia]).
  rewrite (proj2 (validate_positive_u64_ok (PInt (start_ + blen p - 1)) "end_cursor" (start_ + blen p - 1)))
    by (split; [done | lia]).
  cbn [rbind]. replace (start_ + blen p - 1 - start_ + 1) with (blen p) by lia. rewrite Z.eqb_refl.
  replace (start_ + blen p - 1 <? start_) with false by lia. replace (blen p =? 0) with false by lia.
  by replace (MAX_OUTPUT_FRAME_BYTES <? blen p) with false by lia.
Qed.

Lemma slice_from_app_le {A} (n : Z) (a b : list A) : 0 <= n <= blen a -> slice_from n (a ++ b) = slice_from n a ++ b.
Proof. unfold slice_from, blen. intros H. by rewrite drop_app_le by lia. Qed.

Lemma slice_from_slice_from {A} (n m : Z) (l : list A) :
  0 <= n -> 0 <= m -> slice_from n (slice_from m l) = slice_from (m + n) l.
Proof. intros. unfold slice_from. rewrite drop_drop. f_equal. lia. Qed.

(** Appending a payload that fits succeeds and extends the stream. *)
Lemma append_window (s : OutputRing) (h p : bytes) :
  ring_window s h -> 1 <= blen p <= MAX_OUTPUT_FRAME_BYTES -> blen h + blen p <= MAX_OUTPUT_CURSOR ->
  exists s', append s (PBytes p) = (s', Ok (mkFrame (blen h + 1) (blen h + blen p) p))
    /\ capacity s' = capacity s /\ ring_window s' (h ++ p).
Proof.
  intros [Hc Hn Hlen Hd Hs Hch Hb Hbr Hbd Hl] Hp Hm. unfold append. rewrite Hn.
  replace (blen p =? 0) with false by lia. replace (MAX_OUTPUT_FRAME_BYTES <? blen p) with false by lia.
  replace (MAX_OUTPUT_CURSOR <? blen h + 1 + blen p - 1) with false by lia.
  pose proof (blen_nonneg h). rewrite new_frame_ok by lia.
  replace (blen h + 1 + blen p - 1) with (blen h + blen p) by lia.
  set (f := mkFrame (blen h + 1) (blen h + blen p) p).
  assert (Hch2 : chained (dropped_until s) (frames s ++ [f])).
  { apply chained_app. split; [done |]. cbn [chained]. rewrite Hs.
    assert (Hdl : blen (slice_from (dropped_until s) h) = blen h - dropped_until s)
      by (unfold slice_from, blen in *; rewrite length_drop; lia).
    rewrite Hdl. cbn [start_cursor end_cursor payload f]. repeat split; try lia. }
  destruct (evict_spec (capacity s) _ _ ltac:(lia) Hch2) as (l & fs' & Ef & He & Hb' & Hl').
  assert (Hfb : frames_bytes (frames s ++ [f]) = slice_from (dropped_until s) (h ++ p)).
  { rewrite frames_bytes_app, Hs, slice_from_app_le by lia. f_equal. unfold frames_bytes. cbn. apply app_nil_r. }
  assert (Hbytes : ring_bytes s + blen p = blen (frames_bytes (frames s ++ [f]))).
  { rewrite frames_bytes_app, blen_app, Hb. f_equal. unfold frames_bytes. cbn. by rewrite app_nil_r. }
  assert (Hbreaks : line_breaks s + count_newlines p = count_newlines (frames_bytes (frames s ++ [f]))).
  { rewrite frames_bytes_app, count_newlines_app, Hbr. f_equal. unfold frames_bytes. cbn. by rewrite app_nil_r. }
  rewrite Hbytes, Hbreaks, He. eexists. split; [reflexivity |]. split; [done |].
  rewrite Ef in Hch2, Hfb. apply chained_app in Hch2 as [Hl1 Hch3]. rewrite frames_bytes_app in Hfb.
  pose proof (blen_nonneg (frames_bytes l)). pose proof (blen_nonneg (frames_bytes fs')).
  assert (Hlen2 : blen (frames_bytes l) + blen (frames_bytes fs') = blen h + blen p - dropped_until s).
  { rewrite <- blen_app, Hfb. unfold slice_from, blen in *. rewrite length_drop, length_app. lia. }
  constructor; cbn [capacity next_cursor dropped_until frames ring_bytes line_breaks]; try done; rewrite ?blen_app; try lia.
  rewrite <- slice_from_slice_from, <- Hfb by lia. unfold slice_from, blen. rewrite Nat2Z.id. by rewrite drop_app_length.
Qed.


(** Every append either extends the stream or raises and changes nothing. *)
Lemma append_cases (s : OutputRing) (h : bytes) (data : pyval) :
  ring_window s h ->
  (exists p s', data = PBytes p /\ 1 <= blen p <= MAX_OUTPUT_FRAME_BYTES
     /\ append s data = (s', Ok (mkFrame (blen h + 1) (blen h + blen p) p))
     /\ capacity s' = capacity s /\ ring_window s' (h ++ p))
  \/ exists e, append s data = (s, Raise e).
Proof.
  intros W. destruct data as [| | | | | p | |]; try (right; by eexists). pose proof (blen_nonneg p).
  destruct (Z.eq_dec (blen p) 0) as [H0 | H0]; [right; unfold append; rewrite H0; by eexists |].
  destruct (Z_lt_dec MAX_OUTPUT_FRAME_BYTES (blen p)) as [H1 | H1].
  { right. unfold append. replace (blen p =? 0) with false by lia.
    replace (MAX_OUTPUT_FRAME_BYTES <? blen p) with true by lia. by eexists. }
  destruct (Z_lt_dec MAX_OUTPUT_CURSOR (blen h + blen p)) as [H2 | H2].
  { right. unfold append. rewrite (rw_next _ _ W). replace (blen p =? 0) with false by lia.
    replace (MAX_OUTPUT_FRAME_BYTES <? blen p) with false by lia.
    replace (MAX_OUTPUT_CURSOR <? blen h + 1 + blen p - 1) with true by lia. by eexists. }
  left. destruct (append_window s h p W) as (s' & Ha & Hc & W'); [lia | lia |].
  exists p, s'. repeat (split; [first [done | lia] |]). done.
Qed.

Definition payload_fits (p : bytes) : Prop := 1 <= blen p <= MAX_OUTPUT_FRAME_BYTES.

Lemma batch_total_cases (payloads : list pyval) (total : Z) :
  (exists ps, payloads = map PBytes ps /\ Forall payload_fits ps
     /\ batch_total payloads total = Ok (total + blen (concat ps)))
  \/ exists e, batch_total payloads total = Raise e.
Proof.
  revert total. induction payloads as [|x r IH]; intros total.
  { left. exists []. cbn [map concat batch_total]. change (blen []) with 0. rewrite Z.add_0_r. auto using Forall_nil_2. }
  destruct x as [| | | | | p | |]; try (right; by eexists). cbn [batch_total].
  destruct ((blen p =? 0) || (MAX_OUTPUT_FRAME_BYTES <? blen p)) eqn:E; [right; by eexists |].
  cbn [raise_if rbind]. destruct (IH (total + blen p)) as [(ps & -> & Hps & ->) | (e & ->)]; [left | right; by eexists].
  exists (p :: ps). cbn [map concat]. bool_to_prop. pose proof (blen_nonneg p). rewrite blen_app.
  split; [done |]. split; [constructor; [unfold payload_fits; lia | done] | f_equal; lia].
Qed.

Lemma append_all_window (ps : list bytes) (s : OutputRing) (h : bytes) :
  ring_window s h -> Forall payload_fits ps -> blen h + blen (concat ps) <= MAX_OUTPUT_CURSOR ->
  exists s' fs, append_all s (map PBytes ps) = (s', Ok fs) /\ map payload fs = ps
    /\ chained (blen h) fs /\ ring_window s' (h ++ concat ps).
Proof.
  revert s h. induction ps as [|p ps IH]; intros s h W Hps Hm.
  { exists s, []. cbn. rewrite app_nil_r. done. }
  apply Forall_cons in Hps as [Hp Hps]. cbn [concat map append_all] in *. rewrite blen_app in Hm.
  pose proof (blen_nonneg (concat ps)). unfold payload_fits in Hp.
  destruct (append_window s h p W Hp) as (s1 & -> & _ & W1); [lia |].
  destruct (IH s1 (h ++ p) W1 Hps) as (s2 & fs & -> & Hfs & Hch & W2); [rewrite blen_app; lia |].
  exists s2. eexists. split; [reflexivity |]. cbn [map payload chained start_cursor end_cursor].
  rewrite Hfs. rewrite blen_app in Hch. rewrite app_assoc.
  repeat (split; [first [done | lia | repeat split; first [done | lia]] |]). done.
Qed.

(** A batch is appended completely, or it raises and changes nothing. *)
Lemma append_batch_cases (s : OutputRing) (h : bytes) (payloads : list pyval) :
  ring_window s h ->
  (exists ps s' fs, payloads = map PBytes ps /\ append_batch s payloads = (s', Ok fs) /\ map payload fs = ps
     /\ chained (blen h) fs /\ ring_window s' (h ++ concat ps))
  \/ exists e, append_batch s payloads = (s, Raise e).
Proof.
  intros W. unfold append_batch. destruct (batch_total_cases payloads 0) as [(ps & -> & Hps & ->) | (e & ->)].
  2: { right. by eexists. }
  case_if; [right; by eexists |]. left. bool_to_prop. rewrite (rw_next _ _ W) in *.
  destruct (append_all_window ps s h W Hps) as (s' & fs & ? & ? & ? & ?); [lia |]. by exists ps, s', fs.
Qed.

Lemma new_ring_window (cap : Z) (s : OutputRing) : new_ring cap = Ok s -> ring_window s [].
Proof.
  unfold new_ring. intros H. inv_ok. bool_to_prop. constructor; cbn; try done; try (split; done).
  lia.
Qed.

Lemma clear_window (s : OutputRing) (h : bytes) : ring_window s h -> ring_window (clear s) h.
Proof.
  intros [Hc Hn Hlen Hd Hs Hch Hb Hbr Hbd Hl]. unfold clear. rewrite Hn.
  replace (blen h + 1 - 1) with (blen h) by lia. pose proof (blen_nonneg h).
  constructor; cbn [capacity next_cursor dropped_until frames ring_bytes line_breaks]; try done; try lia.
  unfold slice_from, blen. by rewrite Nat2Z.id, drop_all.
Qed.

Lemma ring_reaches_window (s : OutputRing) (h : bytes) : ring_reaches s h -> ring_window s h.
Proof.
  induction 1 as [cap s H | s h data s' f _ W H | s h data s' e _ W H | s h data s' fs _ W H
                 | s h data s' e _ W H | s h _ W].
  - by apply (new_ring_window cap).
  - destruct (append_cases s h data W) as [(p & s1 & -> & _ & Ha & _ & W1) | (e & Ha)]; [| congruence].
    rewrite Ha in H. injection H as <- <-. done.
  - destruct (append_cases s h data W) as [(p & s1 & -> & _ & Ha & _ & W1) | (e1 & Ha)]; congruence.
  - destruct (append_batch_cases s h data W) as [(ps & s1 & fs1 & -> & Ha & <- & _ & W1) | (e & Ha)]; [| congruence]. rewrite Ha in H. injection H as <- <-. done.
  - destruct (append_batch_cases s h data W) as [(ps & s1 & fs1 & -> & Ha & _) | (e1 & Ha)]; congruence.
  - by apply clear_window.
Qed.

Lemma chained_all_after (prev after : Z) (fs : list OutputFrame) :
  chained prev fs -> after < prev -> filter (fun f => after < end_cursor f) fs = fs.
Proof.
  revert prev. induction fs as [|f r IH]; intros prev Hch Ha; [done |]. destruct Hch as (_ & He & Hb & Hc).
  rewrite filter_cons_True by lia. f_equal. apply (IH (end_cursor f)); [done | lia].
Qed.

(** The frames that end after a cursor, among chained frames. *)
Lemma chained_filter (prev after : Z) (fs : list OutputFrame) :
  chained prev fs -> prev <= after <= prev + blen (frames_bytes fs) ->
  exists l fs', fs = l ++ fs' /\ filter (fun f => after < end_cursor f) fs = fs'
    /\ prev + blen (frames_bytes l) <= after
    /\ match fs' with [] => after = prev + blen (frames_bytes fs) | f :: _ => after < end_cursor f end.
Proof.
  revert prev. induction fs as [|f r IH]; intros prev Hch Ha.
  { exists [], []. change (blen (frames_bytes [])) with 0 in *. rewrite filter_nil. repeat split; lia. }
  pose proof Hch as (H1 & H2 & H3 & H4). rewrite frames_bytes_cons, blen_app in Ha.
  destruct (Z_lt_dec after (end_cursor f)) as [Hlt | Hge].
  - exists [], (f :: r). change (blen (frames_bytes [])) with 0. split; [done |]. split; [| split; [lia | done]].
    rewrite filter_cons_True by done. f_equal. by apply (chained_all_after (end_cursor f)).
  - destruct (IH (end_cursor f) H4) as (l & fs' & -> & Hf & Hb & Hm); [lia |].
    exists (f :: l), fs'. split; [done |]. rewrite filter_cons_False by lia. split; [done |].
    rewrite !frames_bytes_cons, !blen_app. split; [lia |]. destruct fs'; [lia | done].
Qed.

(** ** Redraw against a reference *)

(** The first [n] physical rows of a text, each with its line break. *)
Fixpoint take_rows (n : nat) (p : bytes) : bytes :=
  match n, p with
  | S k, b :: r => b :: take_rows (if is_newline b then k else S k) r
  | _, _ => []
  end.

Lemma count_newlines_cons (b : byte) (r : bytes) :
  count_newlines (b :: r) = (if is_newline b then 1 else 0) + count_newlines r.
Proof.
  unfold count_newlines. rewrite filter_cons. destruct (is_newline b); case_decide; try done; unfold blen; cbn [length]; lia.
Qed.

Lemma take_rows_nil (n : nat) : take_rows n [] = [].
Proof. by destruct n. Qed.

Lemma take_rows_0 (p : bytes) : take_rows 0 p = [].
Proof. by destruct p. Qed.

Lemma take_rows_prefix (n : nat) (p : bytes) : exists r, p = take_rows n p ++ r.
Proof.
  revert n. induction p as [|b p IH]; intros [|n]; cbn [take_rows]; try (by eexists).
  destruct (IH (if is_newline b then n else S n)) as (r & Hr). exists r. cbn. by f_equal.
Qed.

Lemma slice_to_take_rows (n : nat) (p : bytes) : slice_to (blen (take_rows n p)) p = take_rows n p.
Proof.
  destruct (take_rows_prefix n p) as (r & Hr). rewrite Hr at 2. unfold slice_to, blen. rewrite Nat2Z.id. apply take_app_length.
Qed.

Lemma row_loop_spec (p : bytes) (offset row_start : Z) (n : nat) :
  (n <= 24)%nat ->
  row_loop p offset (24 - Z.of_nat n) row_start
  = if Z.of_nat n <? count_newlines p
    then Some (if Nat.eqb n 0 then row_start else offset + blen (take_rows n p)) else None.
Proof.
  revert offset row_start n. induction p as [|b p IH]; intros offset row_start n Hn.
  { cbn [row_loop]. change (count_newlines []) with 0. by replace (Z.of_nat n <? 0) with false by lia. }
  rewrite count_newlines_cons. cbn [row_loop]. unfold ROW_READ_LIMIT, REDRAW_MAX_ROWS. pose proof (blen_nonneg (filter (fun b => is_newline b = true) p)) as Hc.
  fold (count_newlines p) in Hc.
  destruct (is_newline b) eqn:E.
  - destruct n as [|n]; cbn [Nat.eqb].
    + rewrite (proj2 (Z.eqb_eq (24 - Z.of_nat 0 + 1) (24 + 1))) by lia.
      by rewrite (proj2 (Z.ltb_lt (Z.of_nat 0) (1 + count_newlines p))) by lia.
    + replace (Z.of_nat (S n)) with (Z.of_nat n + 1) by lia.
      replace (24 - (Z.of_nat n + 1) + 1) with (24 - Z.of_nat n) by lia.
      replace (24 - Z.of_nat n =? 24 + 1) with false by lia. rewrite IH by lia.
      replace (Z.of_nat n + 1 <? 1 + count_newlines p) with (Z.of_nat n <? count_newlines p) by lia.
      cbn [take_rows]. rewrite E. destruct (_ <? _); [| done]. f_equal. destruct n; cbn [Nat.eqb]; rewrite ?take_rows_0; unfold blen; cbn [length]; lia.
  - rewrite IH by lia. rewrite Z.add_0_l. destruct (_ <? _); [| done]. f_equal.
    destruct n; cbn [Nat.eqb take_rows]; [done |]. rewrite E. unfold blen; cbn [length]; lia.
Qed.

Lemma ends_newline_cons (b : byte) (r : bytes) :
  ends_newline (b :: r) = if Nat.eqb (length r) 0 then is_newline b else ends_newline r.
Proof. by destruct r. Qed.

Lemma physical_rows_cons (b : byte) (r : bytes) :
  physical_rows (b :: r) = (if is_newline b then 1 else if Nat.eqb (length r) 0 then 1 else 0) + physical_rows r.
Proof.
  unfold physical_rows. rewrite count_newlines_cons, ends_newline_cons. unfold blen.
  destruct r as [|c r]; cbn [length Nat.eqb]; [by destruct (is_newline b) |].
  rewrite !(proj2 (Z.eqb_neq _ 0)) by lia.
  destruct (is_newline b); lia.
Qed.

Lemma physical_rows_nonneg (p : bytes) : 0 <= physical_rows p.
Proof.
  unfold physical_rows. pose proof (blen_nonneg (filter (fun b => is_newline b = true) p)). unfold count_newlines.
  destruct (_ && _); lia.
Qed.

Lemma physical_rows_pos (b : byte) (r : bytes) : 1 <= physical_rows (b :: r).
Proof.
  revert b. induction r as [|c r IH]; intros b; rewrite physical_rows_cons; cbn [length Nat.eqb].
  - destruct (is_newline b); done.
  - specialize (IH c). destruct (is_newline b); lia.
Qed.

Lemma take_rows_all (n : nat) (p : bytes) : physical_rows p <= Z.of_nat n -> take_rows n p = p.
Proof.
  revert n. induction p as [|b p IH]; intros n Hn; [apply take_rows_nil |].
  pose proof (physical_rows_pos b p). destruct n as [|n]; [lia |]. cbn [take_rows]. f_equal. apply IH.
  rewrite physical_rows_cons in *. pose proof (physical_rows_nonneg p). destruct (is_newline b); [lia |].
  destruct p; cbn [length Nat.eqb] in *; [done | lia].
Qed.

Lemma physical_rows_take (n : nat) (p : bytes) : physical_rows (take_rows n p) <= Z.of_nat n.
Proof.
  revert n. induction p as [|b p IH]; intros n; [rewrite take_rows_nil; change (physical_rows []) with 0; lia |].
  destruct n as [|n]; [done |]. cbn [take_rows]. rewrite physical_rows_cons.
  specialize (IH (if is_newline b then n else S n)). destruct (is_newline b); [lia |].
  destruct p as [|c p]; [change (physical_rows (take_rows (S n) [])) with 0; cbn [take_rows length Nat.eqb]; lia |].
  cbn [take_rows length Nat.eqb] in *. lia.
Qed.

Lemma rfind_newline_spec (p : bytes) (offset found : Z) :
  rfind_newline p offset found
  = if count_newlines p =? 0 then found else offset + blen (take_rows (Z.to_nat (count_newlines p)) p) - 1.
Proof.
  revert offset found. induction p as [|b p IH]; intros offset found; [done |].
  cbn [rfind_newline]. rewrite IH, count_newlines_cons. pose proof (blen_nonneg (filter (fun b => is_newline b = true) p)) as Hc.
  fold (count_newlines p) in Hc. destruct (is_newline b) eqn:E.
  - replace (1 + count_newlines p =? 0) with false by lia.
    replace (Z.to_nat (1 + count_newlines p)) with (S (Z.to_nat (count_newlines p))) by lia. cbn [take_rows]. rewrite E.
    destruct (Z.eqb_spec (count_newlines p) 0) as [H0 | H0]; [rewrite H0; cbn [Z.to_nat]; rewrite take_rows_0; unfold blen; cbn [length]; lia |].
    unfold blen; cbn [length]. lia.
  - rewrite Z.add_0_l. destruct (Z.eqb_spec (count_newlines p) 0) as [H0 | H0]; [done |].
    destruct (Z.to_nat (count_newlines p)) as [|n] eqn:En; [lia |]. cbn [take_rows]. rewrite E. unfold blen; cbn [length]. lia.
Qed.

Lemma redraw_fits (p : bytes) (more : bool) :
  blen p <= MAX_BYTES -> new_redraw (take_rows 24 p) more = Ok (mkRedraw (take_rows 24 p) more).
Proof.
  intros H. unfold new_redraw. pose proof (physical_rows_take 24 p). destruct (take_rows_prefix 24 p) as (r & Hr).
  rewrite Hr, blen_app in H. pose proof (blen_nonneg r). unfold REDRAW_MAX_ROWS.
  replace (MAX_BYTES <? blen (take_rows 24 p)) with false by lia.
  by replace (24 <? physical_rows (take_rows 24 p)) with false by lia.
Qed.

(** Cutting at the row limit, in either of the two ways of the code, is taking
    the first rows; something was cut exactly when there was one row more. *)
Lemma row_cut (p : bytes) (more : bool) :
  blen p <= MAX_BYTES ->
  match row_loop p 0 0 0 with
  | Some row_start => new_redraw (slice_to row_start p) true
  | None => if physical_rows p =? ROW_READ_LIMIT
            then new_redraw (slice_to (rfind_newline p 0 (-1) + 1) p) true else new_redraw p more
  end = Ok (mkRedraw (take_rows 24 p) (more || (REDRAW_MAX_ROWS <? physical_rows p))).
Proof.
  intros H. pose proof (row_loop_spec p 0 0 24 ltac:(lia)) as Hl. change (24 - Z.of_nat 24) with 0 in Hl. rewrite Hl.
  change (Z.of_nat 24) with 24. unfold ROW_READ_LIMIT, REDRAW_MAX_ROWS. cbn [Nat.eqb].
  assert (Hp : count_newlines p <= physical_rows p <= count_newlines p + 1).
  { unfold physical_rows. destruct (_ && _); lia. }
  pose proof (blen_nonneg p). destruct (Z.ltb_spec 24 (count_newlines p)) as [Hc | Hc].
  - rewrite Z.add_0_l, slice_to_take_rows, redraw_fits by done.
    replace (24 <? physical_rows p) with true by lia. by rewrite orb_true_r.
  - destruct (Z.eqb_spec (physical_rows p) (24 + 1)) as [E | E].
    + replace (24 <? physical_rows p) with true by lia.
      rewrite rfind_newline_spec. replace (count_newlines p) with 24 by lia. cbn [Z.eqb].
      replace (0 + blen (take_rows (Z.to_nat 24) p) - 1 + 1) with (blen (take_rows 24 p)) by (change (Z.to_nat 24) with 24%nat; lia).
      by rewrite slice_to_take_rows, redraw_fits, orb_true_r.
    + replace (24 <? physical_rows p) with false by lia. rewrite orb_false_r.
      rewrite <- (take_rows_all 24 p) at 1 by lia. by apply redraw_fits.
Qed.

Lemma take_rows_eq (n : nat) (p : bytes) : take_rows n p = p -> physical_rows p <= Z.of_nat n.
Proof. intros H. rewrite <- H. apply physical_rows_take. Qed.

Lemma continuous_chained (prev : Z) (fs : list OutputFrame) (pe : option Z) :
  chained prev fs -> Forall (fun f => blen (payload f) <= MAX_FRAME_BYTES) fs -> pe = None \/ pe = Some prev ->
  continuous fs pe = Ok (match fs with [] => pe | _ => Some (prev + blen (frames_bytes fs)) end).
Proof.
  revert prev pe. induction fs as [|f r IH]; intros prev pe Hch Hs Hpe; [done |].
  apply Forall_cons in Hs as [Hf Hs]. destruct Hch as (H1 & H2 & H3 & H4). cbn [continuous].
  replace (MAX_FRAME_BYTES <? blen (payload f)) with false by lia. cbn [raise_if rbind].
  replace (match pe with Some e => negb (start_cursor f =? e + 1) | None => false end) with false.
  2: { destruct Hpe as [-> | ->]; [done |]. by rewrite H1, Z.eqb_refl. }
  cbn [raise_if rbind]. rewrite (IH (end_cursor f)) by auto. rewrite frames_bytes_cons, blen_app, H2.
  destruct r; f_equal; f_equal; try lia. change (blen (frames_bytes [])) with 0. lia.
Qed.

(** A replay answers from the window. *)
Lemma replay_window (s : OutputRing) (h : bytes) (after : Z) :
  ring_window s h -> 0 <= after <= blen h ->
  (after < dropped_until s /\ replay s (PInt after) = Ok (Gap (blen h) (after + 1) (dropped_until s)))
  \/ (dropped_until s <= after /\ exists fs base,
       replay s (PInt after) = Ok (Frames fs (blen h)) /\ 0 <= base <= after /\ chained base fs
       /\ frames_bytes fs = slice_from base h
       /\ slice_from (after - base) (frames_bytes fs) = slice_from after h
       /\ match fs with [] => after = blen h | f :: _ => after < end_cursor f end).
Proof.
  intros [Hc Hn Hlen Hd Hs Hch Hb Hbr Hbd Hl] Ha. unfold replay, in_range.
  replace (0 <=? after) with true by lia. replace (after <=? MAX_OUTPUT_CURSOR) with true by lia. cbn [andb negb raise_if rbind].
  rewrite Hn. replace (blen h + 1 - 1) with (blen h) by lia.
  destruct (Z.ltb_spec after (dropped_until s)) as [Hlt | Hge]; [by left | right; split; [done |]].
  assert (Hfb : dropped_until s + blen (frames_bytes (frames s)) = blen h).
  { rewrite Hs. unfold slice_from, blen in *. rewrite length_drop. lia. }
  destruct (chained_filter _ after _ Hch) as (l & fs' & Ef & Hf & Hb' & Hm); [lia |].
  pose proof (blen_nonneg (frames_bytes l)). set (base := dropped_until s + blen (frames_bytes l)) in *.
  assert (Hsl : frames_bytes fs' = slice_from base h).
  { unfold base. rewrite <- slice_from_slice_from, <- Hs, Ef, frames_bytes_app by lia.
    unfold slice_from, blen. by rewrite Nat2Z.id, drop_app_length. }
  exists fs', base. split; [| split; [lia |]; split; [| split; [done |]; split]].
  - destruct (frames s) as [|f r] eqn:E.
    + symmetry in Ef. apply app_eq_nil in Ef as [-> ->]. do 2 f_equal. rewrite Hm. change (blen (frames_bytes [])) with 0 in *. lia.
    + destruct Hch as (H1 & _). replace (after <? start_cursor f - 1) with false by lia. by rewrite Hf.
  - rewrite Ef in Hch. by apply chained_app in Hch as [_ Hch].
  - rewrite Hsl, slice_from_slice_from by lia. f_equal. lia.
  - destruct fs'; [lia | done].
Qed.

(** ** Properties *)

(** C9: the ring refines the stream of everything appended.  From a
    cursor the stream has reached, a replay answers with frames that continue
    the stream exactly from a point at or before the cursor up to its end, the
    first of them needed for the cursor; or, when bytes after the cursor were
    dropped, with the exact gap. *)
Theorem ring_replays_stream (s : OutputRing) (h : bytes) (after : Z) :
  ring_reaches s h -> 0 <= after <= blen h ->
  (after < dropped_until s /\ replay s (PInt after) = Ok (Gap (blen h) (after + 1) (dropped_until s)))
  \/ (dropped_until s <= after /\ exists fs base,
       replay s (PInt after) = Ok (Frames fs (blen h)) /\ 0 <= base <= after /\ chained base fs
       /\ frames_bytes fs = slice_from base h
       /\ slice_from (after - base) (frames_bytes fs) = slice_from after h
       /\ match fs with [] => after = blen h | f :: _ => after < end_cursor f end).
Proof. intros W%ring_reaches_window. by apply replay_window. Qed.

(** In every reachable ring an append of a payload of legal size
    returns while cursors last: the eviction loop ends without running out of
    frames, the new frame continues the stream, and the ring is within its
    capacity of bytes and 2000 lines. *)
Theorem ring_append_returns (s : OutputRing) (h p : bytes) :
  ring_reaches s h -> 1 <= blen p <= MAX_OUTPUT_FRAME_BYTES -> blen h + blen p <= MAX_OUTPUT_CURSOR ->
  exists s', append s (PBytes p) = (s', Ok (mkFrame (blen h + 1) (blen h + blen p) p))
    /\ ring_bytes s' = blen (frames_bytes (frames s')) /\ ring_bytes s' <= capacity s' <= MAX_OUTPUT_BUFFER_BYTES
    /\ retained_line_count (frames s') (line_breaks s') <= 2000.
Proof.
  intros W%ring_reaches_window Hp Hm. destruct (append_window s h p W Hp Hm) as (s' & Ha & _ & []).
  exists s'. repeat split; try done; lia.
Qed.

(** A batch is appended completely or not at all, and the frames
    of an appended batch of small payloads are a valid redraw publication that
    ends at the cursor the ring has reached. *)
Theorem ring_batch_publishes (s : OutputRing) (h : bytes) (payloads : list pyval) (more : bool) :
  ring_reaches s h ->
  (exists e, append_batch s payloads = (s, Raise e))
  \/ exists s' fs, append_batch s payloads = (s', Ok fs) /\ map PBytes (map payload fs) = payloads
     /\ (Forall (fun f => blen (payload f) <= MAX_FRAME_BYTES) fs ->
         new_publication fs (next_cursor s' - 1) more = Ok (mkPublication fs (next_cursor s' - 1) more)).
Proof.
  intros W%ring_reaches_window.
  destruct (append_batch_cases s h payloads W) as [(ps & s' & fs & -> & Ha & Hp & Hch & W') | ?]; [right | by left].
  exists s', fs. split; [done |]. split; [by rewrite Hp |]. intros Hsmall. rewrite (rw_next _ _ W').
  unfold new_publication. rewrite (continuous_chained (blen h) fs None Hch Hsmall) by auto. rewrite blen_app.
  pose proof (rw_length _ _ W') as Hlen. rewrite blen_app in Hlen. pose proof (blen_nonneg h). pose proof (blen_nonneg (concat ps)).
  unfold in_range. replace (0 <=? _) with true by lia. replace (_ <=? MAX_OUTPUT_CURSOR) with true by lia.
  cbn [andb negb raise_if rbind]. subst ps. fold (frames_bytes fs) in *.
  replace (blen h + blen (frames_bytes fs) + 1 - 1) with (blen h + blen (frames_bytes fs)) by lia.
  destruct fs; [done |]. by rewrite Z.eqb_refl.
Qed.

(** On every capture within the read limit the trimming equals its
    reference: the first 24 rows of the first 60 KiB, marked as incomplete
    exactly when something was cut; the result's own bounds never reject it. *)
Theorem trim_redraw_is_first_rows (raw : bytes) :
  blen raw <= BYTE_READ_LIMIT ->
  trim_redraw_sentinels (PBytes raw)
  = Ok (mkRedraw (take_rows 24 (slice_to MAX_BYTES raw)) (negb (bytes_eqb (take_rows 24 (slice_to MAX_BYTES raw)) raw))).
Proof.
  intros H. unfold trim_redraw_sentinels. replace (BYTE_READ_LIMIT <? blen raw) with false by lia. cbn [raise_if rbind].
  replace (if blen raw =? BYTE_READ_LIMIT then slice_to MAX_BYTES raw else raw) with (slice_to MAX_BYTES raw).
  2: { destruct (Z.eqb_spec (blen raw) BYTE_READ_LIMIT); [done |]. unfold slice_to, blen, BYTE_READ_LIMIT in *. apply take_ge. lia. }
  set (p := slice_to MAX_BYTES raw).
  assert (Hp : blen p <= MAX_BYTES) by (unfold p, slice_to, blen; rewrite length_take; unfold MAX_BYTES; lia).
  rewrite row_cut by done. do 2 f_equal. symmetry. unfold bytes_eqb.
  destruct (Z.eqb_spec (blen raw) BYTE_READ_LIMIT) as [E | E]; cbn [orb].
  - apply negb_true_iff, bool_decide_eq_false. intros Heq. destruct (take_rows_prefix 24 p) as (r & Hr).
    rewrite Hr, blen_app, Heq in Hp. pose proof (blen_nonneg r). unfold BYTE_READ_LIMIT in E. lia.
  - assert (Hraw : p = raw) by (unfold p, slice_to, blen, BYTE_READ_LIMIT in *; apply take_ge; lia). rewrite Hraw.
    destruct (Z.ltb_spec REDRAW_MAX_ROWS (physical_rows raw)) as [Hr | Hr].
    + apply negb_true_iff, bool_decide_eq_false. intros Heq%take_rows_eq. unfold REDRAW_MAX_ROWS in Hr. lia.
    + apply negb_false_iff, bool_decide_eq_true. apply take_rows_all. unfold REDRAW_MAX_ROWS in Hr. lia.
Qed.

(** ** Witnesses *)

(** A ring of four bytes in which the second append evicts the first frame. *)
Definition sample_ring : OutputRing := mkRing 4 [mkFrame 4 5 (bstr "cd")] 2 0 6 3.

Lemma sample_ring_reached : ring_reaches sample_ring (bstr "ab|cd").
Proof.
  apply (Ring_append (mkRing 4 [mkFrame 1 3 (bstr "ab|")] 3 0 4 0) (bstr "ab|") (PBytes (bstr "cd")) sample_ring
           (mkFrame 4 5 (bstr "cd"))); [| reflexivity].
  apply (Ring_append (mkRing 4 [] 0 0 1 0) [] (PBytes (bstr "ab|")) _ (mkFrame 1 3 (bstr "ab|"))); [| reflexivity].
  by apply (Ring_new 4).
Qed.

Lemma ring_replays_stream_witness :
  (2 < dropped_until sample_ring /\ replay sample_ring (PInt 2) = Ok (Gap 5 (2 + 1) (dropped_until sample_ring)))
  \/ (dropped_until sample_ring <= 2 /\ exists fs base,
       replay sample_ring (PInt 2) = Ok (Frames fs 5) /\ 0 <= base <= 2 /\ chained base fs
       /\ frames_bytes fs = slice_from base (bstr "ab|cd")
       /\ slice_from (2 - base) (frames_bytes fs) = slice_from 2 (bstr "ab|cd")
       /\ match fs with [] => 2 = 5 | f :: _ => 2 < end_cursor f end).
Proof. apply (ring_replays_stream sample_ring (bstr "ab|cd") 2); [apply sample_ring_reached | by split]. Defined.

Lemma ring_append_returns_witness :
  exists s', append sample_ring (PBytes (bstr "xyz")) = (s', Ok (mkFrame 6 8 (bstr "xyz")))
    /\ ring_bytes s' = blen (frames_bytes (frames s')) /\ ring_bytes s' <= capacity s' <= MAX_OUTPUT_BUFFER_BYTES
    /\ retained_line_count (frames s') (line_breaks s') <= 2000.
Proof. apply (ring_append_returns sample_ring (bstr "ab|cd") (bstr "xyz")); [apply sample_ring_reached | by split | done]. Defined.

Lemma ring_batch_publishes_witness :
  (exists e, append_batch sample_ring [PBytes (bstr "x"); PBytes (bstr "yz")] = (sample_ring, Raise e))
  \/ exists s' fs, append_batch sample_ring [PBytes (bstr "x"); PBytes (bstr "yz")] = (s', Ok fs)
     /\ map PBytes (map payload fs) = [PBytes (bstr "x"); PBytes (bstr "yz")]
     /\ (Forall (fun f => blen (payload f) <= MAX_FRAME_BYTES) fs ->
         new_publication fs (next_cursor s' - 1) false = Ok (mkPublication fs (next_cursor s' - 1) false)).
Proof. apply (ring_batch_publishes sample_ring (bstr "ab|cd")). apply sample_ring_reached. Defined.

Lemma trim_redraw_is_first_rows_witness :
  trim_redraw_sentinels (PBytes (repeat x0a 26))
  = Ok (mkRedraw (take_rows 24 (slice_to MAX_BYTES (repeat x0a 26)))
          (negb (bytes_eqb (take_rows 24 (slice_to MAX_BYTES (repeat x0a 26))) (repeat x0a 26)))).
Proof. apply (trim_redraw_is_first_rows (repeat x0a 26)). done. Defined.
