(* ===== verification/Conflicts.v ===== *)
(** * Host start conflicts ([agentbox_runtime/waw_conflicts.py])

    One lock per host serialises the starts of WAW workspaces and of the two
    legacy runtimes.  A granted start holds the lock through a lease object.
    The host is the lock, the lease objects ever made (an object is named by
    its position, so that two coordinators can share and alias them) and the
    active lease of each coordinator.  What a probe answers is an argument: it
    raises, gives a value of the wrong type ([None]) or a state.  A call that
    waits for the lock is [Blocks]. *)

From S2P Require Import Prelude PyVal WawDomain.

Local Open Scope Z_scope.

Definition conflict_error (code : string) : exn := Exn WAWConflictError code code.

Inductive WAWLegacyClaudeState : Type :=
| Cl_ABSENT | Cl_STARTING | Cl_RUNNING | Cl_NEEDS_INTERACTION | Cl_LOGIN_REQUIRED | Cl_TRUST_REQUIRED
| Cl_BROKEN | Cl_UNKNOWN | Cl_STOPPED | Cl_EXITED.

Inductive WAWLegacyCodexState : Type :=
| Cx_ABSENT | Cx_STARTING | Cx_RUNNING | Cx_NEEDS_INTERACTION | Cx_BROKEN | Cx_UNKNOWN | Cx_STOPPED | Cx_EXITED.

Inductive WAWManagedConflictState : Type :=
| M_ABSENT | M_STARTING | M_RUNNING | M_NEEDS_INTERACTION | M_LOGIN_REQUIRED | M_TRUST_REQUIRED | M_STOPPING
| M_BROKEN | M_UNKNOWN | M_COLLISION | M_RECONCILIATION_REQUIRED | M_INPUT_UNCERTAIN | M_STOPPED | M_EXITED.

(** [_CLAUDE_CONFLICT], [_CODEX_CONFLICT], [_WAW_TERMINAL] *)
Definition claude_conflict (s : WAWLegacyClaudeState) : bool :=
  match s with
  | Cl_STARTING | Cl_RUNNING | Cl_NEEDS_INTERACTION | Cl_LOGIN_REQUIRED | Cl_TRUST_REQUIRED | Cl_BROKEN
  | Cl_UNKNOWN => true
  | Cl_ABSENT | Cl_STOPPED | Cl_EXITED => false
  end.

Definition codex_conflict (s : WAWLegacyCodexState) : bool :=
  match s with
  | Cx_STARTING | Cx_RUNNING | Cx_NEEDS_INTERACTION | Cx_BROKEN | Cx_UNKNOWN => true
  | Cx_ABSENT | Cx_STOPPED | Cx_EXITED => false
  end.

Definition waw_terminal (s : WAWManagedConflictState) : bool :=
  match s with M_ABSENT | M_STOPPED | M_EXITED => true | _ => false end.

Inductive start_operation : Type := WAW_START | LEGACY_CLAUDE_START | LEGACY_CODEX_START.

Record LeaseIdentity : Type := mkIdentity {
  operation : start_operation;
  li_project : option pystr;
  li_agent : option AgentType
}.

Record ConflictLease : Type := mkConflictLease { coordinator : nat; identity : LeaseIdentity; released : bool }.

Record Host : Type := mkHost {
  lock : bool;
  leases : list ConflictLease;
  active : gmap nat nat
}.

Definition new_host : Host := mkHost false [] ∅.

(** A call returns or raises with the host it leaves, or waits for the lock. *)
Inductive outcome (A : Type) : Type :=
| Blocks
| Returns (h : Host) (r : result A).
Arguments Blocks {A}.
Arguments Returns {A} h r.

(** [self._lock.release()] *)
Definition lock_release (h : Host) : Host := mkHost false (leases h) (active h).

(** [_lease] *)
Definition lease_ (h : Host) (c : nat) (i : LeaseIdentity) : Host * result nat :=
  match active h !! c with
  | Some _ => (h, Raise (err PyAssertionError "host conflict lock has an existing lease"))
  | None =>
      let l := length (leases h) in
      (mkHost (lock h) (leases h ++ [mkConflictLease c i false]) (<[c := l]> (active h)), Ok l)
  end.

(** [self._lock.acquire(); try: ... except BaseException: release; raise]: the
    body decides, then takes the lease. *)
Definition locked (h : Host) (c : nat) (body : result unit) (i : LeaseIdentity) : outcome nat :=
  if lock h then Blocks
  else
    let h1 := mkHost true (leases h) (active h) in
    match body with
    | Raise e => Returns (lock_release h1) (Raise e)
    | Ok _ => match lease_ h1 c i with
              | (h2, Ok l) => Returns h2 (Ok l)
              | (h2, Raise e) => Returns (lock_release h2) (Raise e)
              end
    end.

(** A probe answer that must be a state without conflict; [except Exception]
    catches what the probe raises. *)
Definition probe_clear {S} (answer : result (option S)) (conflict : S -> bool) (code : string) : result unit :=
  let! state := except_as answer [PyException] (conflict_error code) in
  match state with
  | None => Raise (conflict_error code)
  | Some s => raise_if (conflict s) (conflict_error code)
  end.

Definition acquire_waw_start (h : Host) (c : nat) (project_id : pyval) (agent : option AgentType)
    (claude : result (option WAWLegacyClaudeState)) (codex : result (option WAWLegacyCodexState)) : outcome nat :=
  match validate_project_id project_id with
  | Raise e => Returns h (Raise e)
  | Ok p =>
      match agent with
      | None => Returns h (Raise (err PyValueError "agent_type is invalid"))
      | Some a =>
          locked h c (run! probe_clear claude claude_conflict "PROJECT_RUNTIME_ACTIVE" in
                      probe_clear codex codex_conflict "CODEX_REMOTE_CONFLICT")
                 (mkIdentity WAW_START (Some p) (Some a))
      end
  end.

(** [_validate_waw_states]: [None] is a value that is not a tuple, an element
    [None] one that is not a state. *)
Definition validate_waw_states (states : option (list (option WAWManagedConflictState)))
  : result (list WAWManagedConflictState) :=
  match states with
  | None => Raise (err PyValueError "WAW conflict probe result is invalid")
  | Some l => match mapM id l with
              | Some ss => Ok ss
              | None => Raise (err PyValueError "WAW conflict probe result is invalid")
              end
  end.

(** The probing of the two legacy starts *)
Definition waw_clear (answer : result (option (list (option WAWManagedConflictState)))) (code : string) : result unit :=
  let! states := except_as (let! v := answer in validate_waw_states v) [PyException] (conflict_error code) in
  raise_if (existsb (fun s => negb (waw_terminal s)) states) (conflict_error code).

Definition acquire_legacy_claude_start (h : Host) (c : nat) (project_id : pyval)
    (states : result (option (list (option WAWManagedConflictState)))) : outcome nat :=
  match validate_project_id project_id with
  | Raise e => Returns h (Raise e)
  | Ok p => locked h c (waw_clear states "PROJECT_RUNTIME_ACTIVE") (mkIdentity LEGACY_CLAUDE_START (Some p) None)
  end.

Definition acquire_legacy_codex_start (h : Host) (c : nat)
    (states : result (option (list (option WAWManagedConflictState)))) : outcome nat :=
  locked h c (waw_clear states "CODEX_REMOTE_CONFLICT") (mkIdentity LEGACY_CODEX_START None None).

(** [WAWConflictCoordinator._release]; releasing an unlocked lock raises. *)
Definition release_ (h : Host) (c l : nat) : Host * result unit :=
  if bool_decide (active h !! c = Some l) then
    let h1 := mkHost (lock h) (leases h) (delete c (active h)) in
    if lock h then (lock_release h1, Ok tt) else (h1, Raise (err PyRuntimeError "release unlocked lock"))
  else (h, Raise (conflict_error "PROJECT_RUNTIME_ACTIVE")).

(** [WAWConflictLease.release]; [None] is not a lease. *)
Definition release (h : Host) (l : nat) : option (Host * result unit) :=
  match leases h !! l with
  | None => None
  | Some lease =>
      if released lease then Some (h, Ok tt)
      else
        let h1 := mkHost (lock h) (<[l := mkConflictLease (coordinator lease) (identity lease) true]> (leases h)) (active h) in
        Some (release_ h1 (coordinator lease) l)
  end.

(** [__enter__]; [__exit__] is [release]. *)
Definition enter (h : Host) (l : nat) : option (result nat) :=
  match leases h !! l with
  | None => None
  | Some lease => Some (if released lease then Raise (conflict_error "PROJECT_RUNTIME_ACTIVE") else Ok l)
  end.

(** ** Executions *)

Inductive host_step : Host -> Host -> Prop :=
| Step_waw h c p a cl cx h' r : acquire_waw_start h c p a cl cx = Returns h' r -> host_step h h'
| Step_claude h c p ss h' r : acquire_legacy_claude_start h c p ss = Returns h' r -> host_step h h'
| Step_codex h c ss h' r : acquire_legacy_codex_start h c ss = Returns h' r -> host_step h h'
| Step_release h l h' r : release h l = Some (h', r) -> host_step h h'.

Inductive host_reaches : Host -> Prop :=
| Reach_new : host_reaches new_host
| Reach_step h h' : host_reaches h -> host_step h h' -> host_reaches h'.

(** The lease that holds the host, if any: unreleased, active at its own
    coordinator and at no other, and the only unreleased one. *)
Definition holder (h : Host) (o : option nat) : Prop :=
  (lock h = true <-> is_Some o)
  /\ (forall c l, active h !! c = Some l <-> o = Some l /\ exists x, leases h !! l = Some x /\ coordinator x = c)
  /\ (forall l x, leases h !! l = Some x -> (released x = false <-> o = Some l))
  /\ (forall l, o = Some l -> is_Some (leases h !! l)).

(** ** Lemmas *)

Lemma holder_free (h : Host) : holder h None -> lock h = false /\ active h = ∅.
Proof.
  intros (Hl & Ha & _ & _). split.
  - destruct (lock h); [| done]. destruct (proj1 Hl eq_refl) as [? [=]].
  - apply map_empty. intros c. apply eq_None_not_Some. intros [l H]. apply Ha in H as [[=] _].
Qed.

(** A locked section on a free host with a clear body takes the next lease; any
    exception leaves the host as it was. *)
Lemma locked_free (h : Host) (c : nat) (body : result unit) (i : LeaseIdentity) :
  holder h None ->
  locked h c body i
  = match body with
    | Raise e => Returns h (Raise e)
    | Ok _ => Returns (mkHost true (leases h ++ [mkConflictLease c i false]) {[c := length (leases h)]}) (Ok (length (leases h)))
    end.
Proof.
  intros [Hl Ha]%holder_free. destruct h as [lk ls ac]; cbn in *. subst lk ac. unfold locked; cbn.
  destruct body as [[] | e]; cbn; [| done]. unfold lease_; cbn. by rewrite lookup_empty.
Qed.

Lemma holder_taken (h : Host) (c : nat) (i : LeaseIdentity) :
  holder h None ->
  holder (mkHost true (leases h ++ [mkConflictLease c i false]) {[c := length (leases h)]}) (Some (length (leases h))).
Proof.
  intros (Hl & Ha & Hr & Hs). unfold holder; cbn [lock leases active]. split; [by split |]. split; [| split].
  - intros c' l. rewrite lookup_singleton_Some. split.
    + intros [<- <-]. split; [done |]. exists (mkConflictLease c i false). by rewrite lookup_app_r, Nat.sub_diag.
    + intros ([= <-] & x & Hx & <-). rewrite lookup_app_r, Nat.sub_diag in Hx by done. by injection Hx as <-.
  - intros l x Hx. apply lookup_app_Some in Hx as [Hx | [Hge Hx]].
    + rewrite (Hr l x Hx). apply lookup_lt_Some in Hx. split; [done | intros [= Hl2]; lia].
    + apply list_lookup_singleton_Some in Hx as [Hz <-]. split; [| done]. intros _. f_equal. lia.
  - intros l [= <-]. rewrite lookup_app_r, Nat.sub_diag by done. by eexists.
Qed.

Lemma locked_holder (h : Host) (c : nat) (body : result unit) (i : LeaseIdentity) (o : option nat) (h' : Host) (r : result nat) :
  holder h o -> locked h c body i = Returns h' r -> o = None /\ exists o', holder h' o'.
Proof.
  intros H E. destruct o as [l |].
  { destruct H as (Hl & _). unfold locked in E. by rewrite (proj2 Hl) in E by done. }
  split; [done |]. rewrite locked_free in E by done.
  destruct body; injection E as <- <-; eauto using holder_taken.
Qed.

(** Releasing the holder frees the host; releasing any other lease, which is
    released already, does nothing. *)
Lemma release_holder (h : Host) (l : nat) (o : option nat) :
  holder h o ->
  match release h l with
  | None => leases h !! l = None
  | Some (h', r) => r = Ok tt /\ if bool_decide (o = Some l) then holder h' None else h' = h
  end.
Proof.
  intros (Hl & Ha & Hr & Hs). unfold release. destruct (leases h !! l) as [x |] eqn:E; [| done].
  destruct (released x) eqn:Ex.
  { split; [done |]. case_bool_decide as Ho; [| done]. apply (Hr l x E) in Ho. congruence. }
  assert (Ho : o = Some l) by by apply (Hr l x E). subst o.
  unfold release_; cbn [active lock leases]. rewrite bool_decide_true by (apply Ha; eauto).
  rewrite (proj2 Hl) by done. split; [done |]. rewrite bool_decide_true by done.
  unfold holder, lock_release; cbn [lock leases active].
  split; [split; [done | by intros [? [=]]] |]. split; [| split; [| done]].
  - intros c k. rewrite lookup_delete_Some, Ha. split; [| by intros [[=] _]].
    intros (Hne & [= <-] & y & Hy & <-). congruence.
  - intros k y Hy. split; [| done]. intros Hyr. apply list_lookup_insert_Some in Hy as [(<- & <- & _) | [Hk Hy]]; [done |].
    apply (Hr k y Hy) in Hyr. congruence.
Qed.

Lemma release_length (h : Host) (l : nat) (h' : Host) (r : result unit) :
  release h l = Some (h', r) -> length (leases h') = length (leases h).
Proof.
  unfold release. destruct (leases h !! l) as [x |]; [| done]. destruct (released x); [by intros [= <- _] |].
  unfold release_; cbn [active lock leases]. intros E. repeat case_match; injection E as <- _; apply length_insert.
Qed.

Lemma host_step_holder (h h' : Host) (o : option nat) : host_step h h' -> holder h o -> exists o', holder h' o'.
Proof.
  intros S H. destruct S as [h c p a cl cx h' r E | h c p ss h' r E | h c ss h' r E | h l h' r E].
  - unfold acquire_waw_start in E. destruct (validate_project_id p); [| injection E as <- <-; eauto].
    destruct a; [| injection E as <- <-; eauto]. by destruct (locked_holder _ _ _ _ _ _ _ H E).
  - unfold acquire_legacy_claude_start in E. destruct (validate_project_id p); [| injection E as <- <-; eauto].
    by destruct (locked_holder _ _ _ _ _ _ _ H E).
  - by destruct (locked_holder _ _ _ _ _ _ _ H E).
  - pose proof (release_holder h l o H) as R. rewrite E in R. destruct R as [_ R].
    case_bool_decide; [by eexists | subst; by eexists].
Qed.

Lemma host_reaches_holder (h : Host) : host_reaches h -> exists o, holder h o.
Proof.
  induction 1 as [| h h' _ [o IH] S].
  - exists None. unfold holder, new_host; cbn [lock leases active].
    split; [split; [done | by intros [? [=]]] |]. split; [| done].
    intros c l. rewrite lookup_empty. split; [done | by intros [[=] _]].
  - by apply (host_step_holder h h' o).
Qed.

(** ** Properties *)

(** In every reachable host at most one lease is unreleased, the
    host lock is held exactly while there is one, and that lease is the active
    one of its coordinator and no coordinator has another: no two starts of any
    kind are ever in progress together, whichever coordinators serve them. *)
Theorem one_start_at_a_time (h : Host) :
  host_reaches h ->
  (forall l1 l2 x1 x2, leases h !! l1 = Some x1 -> leases h !! l2 = Some x2 ->
     released x1 = false -> released x2 = false -> l1 = l2)
  /\ (lock h = true <-> exists l x, leases h !! l = Some x /\ released x = false)
  /\ (forall c l, active h !! c = Some l <-> exists x, leases h !! l = Some x /\ released x = false /\ coordinator x = c).
Proof.
  intros (o & Hl & Ha & Hr & Hs)%host_reaches_holder. split; [| split].
  - intros l1 l2 x1 x2 H1 H2 R1 R2. apply (Hr l1 x1 H1) in R1. apply (Hr l2 x2 H2) in R2. congruence.
  - rewrite Hl. split.
    + intros [l ->]. destruct (Hs l eq_refl) as [x Hx]. exists l, x. split; [done |]. by apply (Hr l x Hx).
    + intros (l & x & Hx & R). exists l. by apply (Hr l x Hx).
  - intros c l. rewrite Ha. split.
    + intros (Ho & x & Hx & Hc). exists x. split; [done |]. split; [| done]. by apply (Hr l x Hx).
    + intros (x & Hx & R & Hc). split; [by apply (Hr l x Hx) | by exists x].
Qed.

(** The state a probe answered, or nothing when it raised an exception or gave
    a value of another type. *)
Definition answered {S} (a : result (option S)) : option S := match a with Ok (Some s) => Some s | _ => None end.

(** The probe did not raise an exception outside [Exception], which would pass
    through the coordinator unchanged. *)
Definition probe_ordinary {S} (a : result S) : Prop := throws [PyException] a.

Lemma probe_clear_eq {S} (a : result (option S)) (conflict : S -> bool) (code : string) :
  probe_ordinary a ->
  probe_clear a conflict code
  = match answered a with
    | Some s => if conflict s then Raise (conflict_error code) else Ok tt
    | None => Raise (conflict_error code)
    end.
Proof. intros H. unfold probe_clear. destruct a as [[s |] | e]; cbn [except_as rbind answered]; [done | done |].
  by rewrite (H e eq_refl). Qed.

Lemma waw_clear_terminal (ss : list WAWManagedConflictState) (code : string) :
  forallb waw_terminal ss = true -> waw_clear (Ok (Some (map Some ss))) code = Ok tt.
Proof.
  intros H. unfold waw_clear, validate_waw_states. cbn [rbind].
  replace (mapM id (map Some ss)) with (Some ss).
  - cbn [except_as rbind]. replace (existsb _ ss) with false; [done |]. symmetry.
    induction ss as [|s ss IH]; [done |]. cbn in *. apply andb_true_iff in H as [-> H]. by apply IH.
  - symmetry. clear H. induction ss as [|s ss IH]; [done |]. cbn. by rewrite IH.
Qed.

(** A WAW start on a free host is granted exactly when the
    same-project Claude probe and the host's Codex probe both positively answer
    with a state that does not conflict.  Otherwise the refusal names Claude's
    conflict before Codex's, and the host is exactly as before, lock included. *)
Theorem waw_start_decision (h : Host) (c : nat) (p : pystr) (a : AgentType)
    (claude : result (option WAWLegacyClaudeState)) (codex : result (option WAWLegacyCodexState)) :
  host_reaches h -> lock h = false -> match_id $"prj" p = true -> probe_ordinary claude -> probe_ordinary codex ->
  acquire_waw_start h c (PStr p) (Some a) claude codex
  = match answered claude with
    | Some s1 =>
        if claude_conflict s1 then Returns h (Raise (conflict_error "PROJECT_RUNTIME_ACTIVE"))
        else match answered codex with
             | Some s2 =>
                 if codex_conflict s2 then Returns h (Raise (conflict_error "CODEX_REMOTE_CONFLICT"))
                 else Returns (mkHost true (leases h ++ [mkConflictLease c (mkIdentity WAW_START (Some p) (Some a)) false])
                                 {[c := length (leases h)]}) (Ok (length (leases h)))
             | None => Returns h (Raise (conflict_error "CODEX_REMOTE_CONFLICT"))
             end
    | None => Returns h (Raise (conflict_error "PROJECT_RUNTIME_ACTIVE"))
    end.
Proof.
  intros [o H]%host_reaches_holder Hl Hp Hc Hx. assert (o = None) as ->.
  { destruct o; [| done]. destruct H as [H _]. by rewrite (proj2 H) in Hl by done. }
  unfold acquire_waw_start, validate_project_id, validate_id. rewrite Hp. rewrite locked_free by done.
  rewrite !probe_clear_eq by done. destruct (answered claude) as [s1 |]; [| done].
  destruct (claude_conflict s1); [done |]. cbn [rbind]. destruct (answered codex) as [s2 |]; [| done].
  by destruct (codex_conflict s2).
Qed.

(** A release never raises and can be repeated; releasing the
    unreleased lease frees the host, and then every start whose probes are clear
    is granted at once, to any coordinator. *)
Theorem release_lets_next_start (h : Host) (l : nat) (x : ConflictLease) :
  host_reaches h -> leases h !! l = Some x ->
  exists h', release h l = Some (h', Ok tt) /\ release h' l = Some (h', Ok tt)
    /\ (released x = false ->
          (forall c p a s1 s2, match_id $"prj" p = true -> claude_conflict s1 = false -> codex_conflict s2 = false ->
             exists h2, acquire_waw_start h' c (PStr p) (Some a) (Ok (Some s1)) (Ok (Some s2)) = Returns h2 (Ok (length (leases h'))))
          /\ (forall c ss, forallb waw_terminal ss = true ->
             exists h2, acquire_legacy_codex_start h' c (Ok (Some (map Some ss))) = Returns h2 (Ok (length (leases h'))))).
Proof.
  intros [o H]%host_reaches_holder Hx. pose proof (release_holder h l o H) as R.
  destruct (release h l) as [[h' r] |] eqn:E; [| congruence]. destruct R as [-> R]. exists h'. split; [done |].
  destruct (decide (o = Some l)) as [-> | Ho].
  - rewrite bool_decide_true in R by done. split.
    + pose proof (release_holder h' l None R) as R2. destruct (release h' l) as [[h2 r2] |] eqn:E2.
      * rewrite bool_decide_false in R2 by done. by destruct R2 as [-> ->].
      * apply lookup_ge_None in R2. rewrite (release_length h l h' _ E) in R2. apply lookup_lt_Some in Hx. lia.
    + intros _. split.
      * intros c p a s1 s2 Hp H1 H2. unfold acquire_waw_start, validate_project_id, validate_id. rewrite Hp, locked_free by done.
        rewrite !probe_clear_eq by done. cbn [answered]. rewrite H1, H2. by eexists.
      * intros c ss Hss. unfold acquire_legacy_codex_start. rewrite locked_free by done. rewrite waw_clear_terminal by done. by eexists.
  - rewrite bool_decide_false in R by done. subst h'. split; [done |]. intros Hr.
    destruct H as (_ & _ & H & _). by apply (H l x Hx) in Hr.
Qed.

(** ** Witnesses *)

Definition sample_host : Host :=
  mkHost true [mkConflictLease 0 (mkIdentity WAW_START (Some sample_project) (Some CLAUDE)) false] {[0%nat := 0%nat]}.

Lemma sample_host_reached : host_reaches sample_host.
Proof.
  apply (Reach_step new_host); [apply Reach_new |].
  by apply (Step_waw _ 0 (PStr sample_project) (Some CLAUDE) (Ok (Some Cl_ABSENT)) (Ok (Some Cx_STOPPED)) _ (Ok 0%nat)).
Qed.

Lemma one_start_at_a_time_witness :
  (forall l1 l2 x1 x2, leases sample_host !! l1 = Some x1 -> leases sample_host !! l2 = Some x2 ->
     released x1 = false -> released x2 = false -> l1 = l2)
  /\ (lock sample_host = true <-> exists l x, leases sample_host !! l = Some x /\ released x = false)
  /\ (forall c l, active sample_host !! c = Some l <-> exists x, leases sample_host !! l = Some x /\ released x = false /\ coordinator x = c).
Proof. apply (one_start_at_a_time sample_host). apply sample_host_reached. Defined.

Lemma waw_start_decision_witness :
  acquire_waw_start new_host 0 (PStr sample_project) (Some CODEX) (Ok (Some Cl_EXITED)) (Raise (err PyOSError "tmux"))
  = Returns new_host (Raise (conflict_error "CODEX_REMOTE_CONFLICT")).
Proof.
  apply (waw_start_decision new_host 0 sample_project CODEX (Ok (Some Cl_EXITED)) (Raise (err PyOSError "tmux")));
    [apply Reach_new | reflexivity | vm_compute; reflexivity | apply throws_ok | by apply throws_raise].
Defined.

Lemma release_lets_next_start_witness :
  exists h', release sample_host 0 = Some (h', Ok tt) /\ release h' 0 = Some (h', Ok tt)
    /\ (false = false ->
          (forall c p a s1 s2, match_id $"prj" p = true -> claude_conflict s1 = false -> codex_conflict s2 = false ->
             exists h2, acquire_waw_start h' c (PStr p) (Some a) (Ok (Some s1)) (Ok (Some s2)) = Returns h2 (Ok (length (leases h'))))
          /\ (forall c ss, forallb waw_terminal ss = true ->
             exists h2, acquire_legacy_codex_start h' c (Ok (Some (map Some ss))) = Returns h2 (Ok (length (leases h'))))).
Proof.
  apply (release_lets_next_start sample_host 0 (mkConflictLease 0 (mkIdentity WAW_START (Some sample_project) (Some CLAUDE)) false));
    [apply sample_host_reached | reflexivity].
Defined.
