(* ===== verification/WebSocket.v ===== *)
(** * WebSocket framing policy and parser
    ([agentbox_protocol/waw_websocket_contract.py], [waw_websocket_parser.py])

    The contract judges frame metadata against an immutable session; the parser
    reads the metadata of exactly one RFC 6455 frame.  Records have typed fields,
    so the checks of the code that a field has its declared type hold by
    construction; budgets, counters and lengths are arbitrary integers, checked
    as the code checks them. *)

From S2P Require Import Prelude PyVal.

Local Open Scope Z_scope.

Inductive WAWWebSocketOpcode : Type := CONTINUATION | TEXT | BINARY | CLOSE | PING | PONG.
Inductive WAWWebSocketDirection : Type := CLIENT_TO_RUNTIME | RUNTIME_TO_CLIENT.
Inductive WAWWebSocketState : Type := OPEN | FRAGMENTED_BINARY | CLOSE_SENT | PEER_CLOSE_SEEN | CLOSED | REJECTED.

#[export] Instance ws_opcode_eq_dec : EqDecision WAWWebSocketOpcode.
Proof. solve_decision. Defined.
#[export] Instance ws_direction_eq_dec : EqDecision WAWWebSocketDirection.
Proof. solve_decision. Defined.
#[export] Instance ws_state_eq_dec : EqDecision WAWWebSocketState.
Proof. solve_decision. Defined.

(** [_ALLOWED_CLOSE_CODES] and the range of application codes *)
Definition allowed_close_code (c : Z) : bool :=
  in_range 1000 c 1003 || in_range 1007 c 1014 || in_range 3000 c 4999.

Record WAWWebSocketPolicy : Type := mkPolicy {
  max_frame_payload : Z;
  max_message_payload : Z;
  max_fragments : Z;
  max_close_reason_bytes : Z;
  max_close_frames : Z
}.

Definition default_policy : WAWWebSocketPolicy := mkPolicy 65536 65536 64 123 2.

(** [WAWWebSocketPolicy.__post_init__] *)
Definition policy_post_init (p : WAWWebSocketPolicy) : result unit :=
  run! raise_if (negb (in_range 1 (max_frame_payload p) 65536))
         (err PyValueError "max_frame_payload must be in 1..65536") in
  run! raise_if (negb (in_range 1 (max_message_payload p) 65536))
         (err PyValueError "max_message_payload must be in 1..65536") in
  run! raise_if (negb (in_range 1 (max_fragments p) 256)) (err PyValueError "max_fragments must be in 1..256") in
  run! raise_if (negb (in_range 0 (max_close_reason_bytes p) 123))
         (err PyValueError "max_close_reason_bytes must be in 0..123") in
  raise_if (negb (in_range 1 (max_close_frames p) 2)) (err PyValueError "max_close_frames must be in 1..2").

Record WAWWebSocketFrame : Type := mkWsFrame {
  direction : WAWWebSocketDirection;
  opcode : WAWWebSocketOpcode;
  fin : bool;
  masked : bool;
  rsv1 : bool;
  rsv2 : bool;
  rsv3 : bool;
  payload_length : Z;
  close_code : option Z;
  close_reason_bytes : Z;
  close_reason_utf8_valid : bool
}.

Record WAWWebSocketSession : Type := mkWsSession {
  state : WAWWebSocketState;
  message_payload_bytes : Z;
  fragment_count : Z;
  close_frames : Z
}.

Definition open_session : WAWWebSocketSession := mkWsSession OPEN 0 0 0.

(** ** The contract *)

(** [_reject] *)
Definition ws_error (code message : string) : exn := Exn WAWWebSocketContractError code message.

(** [_validate_policy] of the contract *)
Definition validate_policy (p : WAWWebSocketPolicy) : result unit :=
  raise_if (negb (in_range 1 (max_frame_payload p) 65536) || negb (in_range 1 (max_message_payload p) 65536)
            || negb (in_range 1 (max_fragments p) 256) || negb (in_range 0 (max_close_reason_bytes p) 123)
            || negb (in_range 1 (max_close_frames p) 2))
    (ws_error "PROTOCOL_INVALID" "policy budget is invalid").

Definition is_control (o : WAWWebSocketOpcode) : bool :=
  match o with CLOSE | PING | PONG => true | _ => false end.

Definition is_client (d : WAWWebSocketDirection) : bool :=
  match d with CLIENT_TO_RUNTIME => true | RUNTIME_TO_CLIENT => false end.

(** [_validate_frame] *)
Definition validate_frame (f : WAWWebSocketFrame) (p : WAWWebSocketPolicy) : result unit :=
  run! raise_if (rsv1 f || rsv2 f || rsv3 f) (ws_error "EXTENSION_FORBIDDEN" "WebSocket extensions are not enabled") in
  run! raise_if (negb (in_range 0 (payload_length f) (max_frame_payload p)))
         (ws_error "FRAME_TOO_LARGE" "frame payload exceeds the fixed limit") in
  run! raise_if (negb (Bool.eqb (masked f) (is_client (direction f))))
         (ws_error "MASKING_INVALID" "frame masking does not match its fixed direction") in
  run! raise_if (is_control (opcode f) && (negb (fin f) || (125 <? payload_length f)))
         (ws_error "CONTROL_FRAME_INVALID" "control frames must be final and at most 125 bytes") in
  if bool_decide (opcode f = CLOSE) then
    run! raise_if (payload_length f =? 1) (ws_error "CLOSE_PAYLOAD_INVALID" "close payload cannot contain one byte") in
    if payload_length f =? 0 then
      raise_if (bool_decide (close_code f <> None) || negb (close_reason_bytes f =? 0))
        (ws_error "CLOSE_PAYLOAD_INVALID" "empty close payload has no code or reason")
    else
      run! raise_if (match close_code f with Some c => negb (allowed_close_code c) | None => true end)
             (ws_error "CLOSE_CODE_INVALID" "close code is outside the allowed range") in
      run! raise_if (negb (in_range 0 (close_reason_bytes f) (max_close_reason_bytes p)))
             (ws_error "CLOSE_REASON_INVALID" "close reason exceeds the fixed limit") in
      run! raise_if (negb (close_reason_bytes f =? payload_length f - 2))
             (ws_error "CLOSE_REASON_INVALID" "close reason length does not match payload") in
      raise_if (negb (close_reason_utf8_valid f)) (ws_error "CLOSE_REASON_INVALID" "close reason UTF-8 is invalid")
  else
    raise_if (bool_decide (close_code f <> None) || negb (close_reason_bytes f =? 0))
      (ws_error "PROTOCOL_INVALID" "close metadata is forbidden on non-close frames").

(** [_validate_session_invariants] *)
Definition validate_session_invariants (s : WAWWebSocketSession) (p : WAWWebSocketPolicy) : result unit :=
  let zero := (message_payload_bytes s =? 0) && (fragment_count s =? 0) in
  run! match state s with
       | OPEN | REJECTED =>
           raise_if (negb (zero && (close_frames s =? 0)))
             (ws_error "PROTOCOL_INVALID" "open/rejected session counters are inconsistent")
       | FRAGMENTED_BINARY =>
           raise_if ((fragment_count s <? 1) || negb (close_frames s =? 0))
             (ws_error "PROTOCOL_INVALID" "fragmented session counters are inconsistent")
       | CLOSE_SENT | PEER_CLOSE_SEEN =>
           raise_if (negb (zero && (close_frames s =? 1)))
             (ws_error "PROTOCOL_INVALID" "closing session counters are inconsistent")
       | CLOSED =>
           raise_if (negb (zero && (close_frames s =? 2)))
             (ws_error "PROTOCOL_INVALID" "closed session counters are inconsistent")
       end in
  raise_if (max_close_frames p <? close_frames s) (ws_error "PROTOCOL_INVALID" "session close budget is invalid").

Definition closing (s : WAWWebSocketState) : bool :=
  match s with CLOSE_SENT | PEER_CLOSE_SEEN => true | _ => false end.

(** The data branch of [accept_frame] *)
Definition accept_data (s : WAWWebSocketSession) (f : WAWWebSocketFrame) (p : WAWWebSocketPolicy)
  : result WAWWebSocketSession :=
  run! raise_if (closing (state s)) (ws_error "WEBSOCKET_TERMINAL" "data is forbidden after close") in
  run! (if bool_decide (opcode f = BINARY) then
          raise_if (negb (bool_decide (state s = OPEN)))
            (ws_error "FRAGMENTATION_INVALID" "new binary data cannot start during fragmentation")
        else
          raise_if (negb (bool_decide (state s = FRAGMENTED_BINARY)))
            (ws_error "FRAGMENTATION_INVALID" "continuation requires an active binary message")) in
  let total := message_payload_bytes s + payload_length f in
  run! raise_if (max_message_payload p <? total)
         (ws_error "MESSAGE_TOO_LARGE" "logical message exceeds the fixed limit") in
  let fragments := if bool_decide (state s = FRAGMENTED_BINARY) || negb (fin f) then fragment_count s + 1 else 0 in
  run! raise_if (max_fragments p <? fragments)
         (ws_error "FRAGMENTATION_INVALID" "fragment count exceeds the fixed limit") in
  if fin f then Ok open_session else Ok (mkWsSession FRAGMENTED_BINARY total fragments 0).

(** The close branch of [accept_frame] *)
Definition accept_close (s : WAWWebSocketSession) (f : WAWWebSocketFrame) (p : WAWWebSocketPolicy)
  : result WAWWebSocketSession :=
  run! raise_if (max_close_frames p <=? close_frames s) (ws_error "CLOSE_REPLAY" "close frame budget is exhausted") in
  if closing (state s) then
    if (is_client (direction f) && bool_decide (state s = CLOSE_SENT))
       || (negb (is_client (direction f)) && bool_decide (state s = PEER_CLOSE_SEEN))
    then Ok (mkWsSession CLOSED 0 0 (close_frames s + 1))
    else Raise (ws_error "CLOSE_REPLAY" "duplicate close direction is forbidden")
  else if is_client (direction f) then Ok (mkWsSession PEER_CLOSE_SEEN 0 0 1) else Ok (mkWsSession CLOSE_SENT 0 0 1).

Definition accept_frame (s : WAWWebSocketSession) (f : WAWWebSocketFrame) (policy : option WAWWebSocketPolicy)
  : result WAWWebSocketSession :=
  let p := default default_policy policy in
  run! validate_policy p in
  run! raise_if (negb (in_range 0 (message_payload_bytes s) (max_message_payload p)))
         (ws_error "PROTOCOL_INVALID" "session message budget is invalid") in
  run! raise_if (negb (in_range 0 (fragment_count s) (max_fragments p)))
         (ws_error "PROTOCOL_INVALID" "session fragment budget is invalid") in
  run! raise_if (negb (in_range 0 (close_frames s) (max_close_frames p)))
         (ws_error "PROTOCOL_INVALID" "session close budget is invalid") in
  run! validate_session_invariants s p in
  run! validate_frame f p in
  run! raise_if (bool_decide (state s = CLOSED) || bool_decide (state s = REJECTED))
         (ws_error "WEBSOCKET_TERMINAL" "WebSocket policy state is terminal") in
  match opcode f with
  | TEXT => Raise (ws_error "TEXT_FORBIDDEN" "WAW accepts binary data only")
  | BINARY | CONTINUATION => accept_data s f p
  | PING | PONG =>
      run! raise_if (closing (state s)) (ws_error "WEBSOCKET_TERMINAL" "control data is forbidden after close") in Ok s
  | CLOSE => accept_close s f p
  end.

(** ** The parser *)

Definition MAX_FRAME_INPUT : Z := 65536 + 14.

(** [_reject] of the parser *)
Definition parse_error (code message : string) : exn := Exn WAWWebSocketParseError code message.

(** [_need] *)
Definition need (raw : bytes) (end_ : Z) : result unit :=
  raise_if (blen raw <? end_) (parse_error "FRAME_TRUNCATED" "frame header, mask, or payload is truncated").

(** [_validate_policy] of the parser *)
Definition validate_parser_policy (p : WAWWebSocketPolicy) : result unit :=
  except_as (policy_post_init p) [PyTypeError; PyValueError] (parse_error "PROTOCOL_INVALID" "policy budget is invalid").

(** [bool(b & bits)] *)
Definition has_bits (b : byte) (bits : Z) : bool := negb (Z.land (b2z b) bits =? 0).

(** [_unmask] with a key of four bytes *)
Definition unmask (payload key : bytes) : bytes :=
  imap (fun i v => z2b (Z.lxor (b2z v) (b2z (nth (i mod 4) key x00)))) payload.

Definition opcode_of (n : Z) : option WAWWebSocketOpcode :=
  if n =? 0 then Some CONTINUATION else if n =? 1 then Some TEXT else if n =? 2 then Some BINARY
  else if n =? 8 then Some CLOSE else if n =? 9 then Some PING else if n =? 10 then Some PONG else None.

(** The length of the payload and the offset after it *)
Definition parse_length (raw : bytes) (length_code : Z) : result (Z * Z) :=
  let offset := 2 in
  if length_code <=? 125 then Ok (length_code, offset)
  else if length_code =? 126 then
    run! need raw (offset + 2) in
    let n := be_decode (slice offset (offset + 2) raw) in
    run! raise_if (n <? 126) (parse_error "LENGTH_NON_CANONICAL" "16-bit length uses a non-minimal encoding") in
    Ok (n, offset + 2)
  else
    run! need raw (offset + 8) in
    let extended := slice offset (offset + 8) raw in
    run! raise_if (has_bits (nth 0 extended x00) 128)
           (parse_error "LENGTH_OVERFLOW" "64-bit length has its reserved high bit set") in
    let n := be_decode extended in
    run! raise_if (n <? 65536) (parse_error "LENGTH_NON_CANONICAL" "64-bit length uses a non-minimal encoding") in
    Ok (n, offset + 8).

(** The close metadata of an unmasked close payload *)
Definition parse_close (payload : bytes) (p : WAWWebSocketPolicy) : result (Z * Z) :=
  run! raise_if (blen payload =? 1) (parse_error "CLOSE_PAYLOAD_INVALID" "close payload cannot contain one byte") in
  let code := be_decode (slice_to 2 payload) in
  run! raise_if (negb (allowed_close_code code))
         (parse_error "CLOSE_CODE_INVALID" "close code is reserved or outside the allowed range") in
  let reason := blen payload - 2 in
  run! raise_if (max_close_reason_bytes p <? reason)
         (parse_error "CLOSE_REASON_INVALID" "close reason exceeds the fixed limit") in
  run! raise_if (bool_decide (utf8_decode (slice_from 2 payload) = None))
         (parse_error "CLOSE_REASON_INVALID" "close reason UTF-8 is invalid") in
  Ok (code, reason).

(** The close code and the length of the reason, if the payload has them *)
Definition close_metadata (op : WAWWebSocketOpcode) (payload : bytes) (p : WAWWebSocketPolicy) : result (option Z * Z) :=
  if bool_decide (op = CLOSE) && negb (blen payload =? 0) then
    let! '(c, r) := parse_close payload p in
    Ok (Some c, r)
  else Ok (None, 0).

(** The body of [parse_websocket_frame] after the input checks *)
Definition parse_frame_bytes (raw : bytes) (d : WAWWebSocketDirection) (p : WAWWebSocketPolicy) : result WAWWebSocketFrame :=
  run! need raw 2 in
  let first := nth 0 raw x00 in
  let second := nth 1 raw x00 in
  match opcode_of (Z.land (b2z first) 15) with
  | None => Raise (parse_error "OPCODE_FORBIDDEN" "opcode is reserved or unknown")
  | Some op =>
      run! raise_if (bool_decide (op = TEXT)) (parse_error "TEXT_FORBIDDEN" "WAW accepts binary data only") in
      run! raise_if (has_bits first 64 || has_bits first 32 || has_bits first 16)
             (parse_error "EXTENSION_FORBIDDEN" "reserved bits are not enabled") in
      let! '(n, offset) := parse_length raw (Z.land (b2z second) 127) in
      run! raise_if (max_frame_payload p <? n) (parse_error "FRAME_TOO_LARGE" "frame payload exceeds the fixed policy") in
      run! raise_if (negb (Bool.eqb (has_bits second 128) (is_client d)))
             (parse_error "MASKING_INVALID" "frame masking does not match its fixed direction") in
      run! raise_if (is_control op && (negb (has_bits first 128) || (125 <? n)))
             (parse_error "CONTROL_FRAME_INVALID" "control frames must be final and at most 125 bytes") in
      let mask_key := if has_bits second 128 then slice offset (offset + 4) raw else [] in
      let payload_offset := offset + (if has_bits second 128 then 4 else 0) in
      run! need raw (payload_offset + n) in
      run! raise_if (negb (blen raw =? payload_offset + n))
             (parse_error "TRAILING_BYTES" "concatenated or trailing frame bytes are forbidden") in
      let payload := slice payload_offset (payload_offset + n) raw in
      let! '(code, reason) :=
        close_metadata op (if has_bits second 128 then unmask payload mask_key else payload) p in
      Ok (mkWsFrame d op (has_bits first 128) (has_bits second 128) (has_bits first 64) (has_bits first 32)
            (has_bits first 16) n code reason true)
  end.

Definition parse_websocket_frame (input : pyval) (d : WAWWebSocketDirection) (policy : option WAWWebSocketPolicy)
  : result WAWWebSocketFrame :=
  match input with
  | PBytes raw =>
      let p := default default_policy policy in
      run! validate_parser_policy p in
      run! raise_if ((blen raw =? 0) || (MAX_FRAME_INPUT <? blen raw))
             (parse_error "FRAME_TOO_LARGE" "frame input exceeds bounded parser input") in
      parse_frame_bytes raw d p
  | _ => Raise (parse_error "PROTOCOL_INVALID" "frame input must be bytes")
  end.

(** ** Reference encoding of a frame *)

Definition opcode_number (o : WAWWebSocketOpcode) : Z :=
  match o with CONTINUATION => 0 | TEXT => 1 | BINARY => 2 | CLOSE => 8 | PING => 9 | PONG => 10 end.

(** The mask bit and the shortest form of the length *)
Definition length_field (m : bool) (n : Z) : bytes :=
  let mask_bit := if m then 128 else 0 in
  if n <=? 125 then [z2b (mask_bit + n)]
  else if n <=? 65535 then z2b (mask_bit + 126) :: be_encode 2 n
  else z2b (mask_bit + 127) :: be_encode 8 n.

Definition ws_encode (d : WAWWebSocketDirection) (final : bool) (op : WAWWebSocketOpcode) (key payload : bytes) : bytes :=
  [z2b ((if final then 128 else 0) + opcode_number op)] ++ length_field (is_client d) (blen payload)
  ++ (if is_client d then key ++ unmask payload key else payload).

(** What the profile allows in a frame, apart from the close payload. *)
Definition frame_allowed (p : WAWWebSocketPolicy) (final : bool) (op : WAWWebSocketOpcode) (n : Z) : bool :=
  negb (bool_decide (op = TEXT)) && (n <=? max_frame_payload p)
  && (negb (is_control op) || (final && (n <=? 125))).

(** ** Lemmas on the encoding *)

Lemma has_bits_high (b : byte) : has_bits b 128 = (128 <=? b2z b).
Proof. by destruct b. Qed.

Lemma first_byte_fields (final : bool) (op : WAWWebSocketOpcode) :
  let b := z2b ((if final then 128 else 0) + opcode_number op) in
  has_bits b 128 = final /\ has_bits b 64 = false /\ has_bits b 32 = false /\ has_bits b 16 = false
  /\ opcode_of (Z.land (b2z b) 15) = Some op.
Proof. by destruct final, op. Qed.

(** Every first byte without reserved bits is one the encoder writes. *)
Lemma first_byte_encoded (b : byte) (op : WAWWebSocketOpcode) :
  has_bits b 64 || has_bits b 32 || has_bits b 16 = false -> opcode_of (Z.land (b2z b) 15) = Some op ->
  b = z2b ((if has_bits b 128 then 128 else 0) + opcode_number op).
Proof. destruct b; try discriminate 1; intros _ H; vm_compute in H; try discriminate H; injection H as <-; reflexivity. Qed.

Lemma second_byte_fields (m : bool) (c : Z) :
  0 <= c < 128 -> let b := z2b ((if m then 128 else 0) + c) in Z.land (b2z b) 127 = c /\ has_bits b 128 = m.
Proof.
  intros H b. unfold b. rewrite has_bits_high, b2z_z2b_small by (destruct m; lia). change 127 with (Z.ones 7).
  rewrite Z.land_ones by lia. split; [| destruct m; lia]. change (2 ^ 7) with 128. destruct m.
  - replace (128 + c) with (c + 1 * 128) by lia. rewrite Z.mod_add by lia. by apply Z.mod_small.
  - by apply Z.mod_small.
Qed.

Lemma second_byte_encoded (b : byte) : b = z2b ((if has_bits b 128 then 128 else 0) + Z.land (b2z b) 127).
Proof. by destruct b. Qed.

Lemma length_code_range (b : byte) : 0 <= Z.land (b2z b) 127 < 128.
Proof. change 127 with (Z.ones 7). rewrite Z.land_ones by lia. by apply Z.mod_pos_bound. Qed.

Lemma unmask_length (p key : bytes) : blen (unmask p key) = blen p.
Proof. unfold blen, unmask. by rewrite length_imap. Qed.

Lemma log2_byte (b : byte) : Z.log2 (b2z b) < 8.
Proof.
  pose proof (b2z_range b). destruct (Z.eq_dec (b2z b) 0) as [-> | ?]; [done |].
  apply Z.log2_lt_pow2; [lia |]. change (b2z b < 256). lia.
Qed.

Lemma lxor_byte (a b : byte) : 0 <= Z.lxor (b2z a) (b2z b) < 256.
Proof.
  pose proof (b2z_range a). pose proof (b2z_range b).
  assert (H1 : 0 <= Z.lxor (b2z a) (b2z b)) by (apply Z.lxor_nonneg; lia). split; [done |].
  destruct (Z.eq_dec (Z.lxor (b2z a) (b2z b)) 0) as [-> | Hn]; [lia |]. change 256 with (2 ^ 8).
  apply Z.log2_lt_pow2; [lia |]. eapply Z.le_lt_trans; [apply Z.log2_lxor; lia |].
  apply Z.max_lub_lt; apply log2_byte.
Qed.

Lemma unmask_unmask (p key : bytes) : unmask (unmask p key) key = p.
Proof.
  unfold unmask. apply list_eq. intros i. rewrite !list_lookup_imap.
  destruct (p !! i) as [v |]; cbn; [| done]. f_equal. rewrite b2z_z2b_small by apply lxor_byte.
  rewrite Z.lxor_assoc, Z.lxor_nilpotent, Z.lxor_0_r. apply z2b_b2z.
Qed.

Lemma length_field_cases (m : bool) (n : Z) :
  0 <= n <= 65536 ->
  (n <= 125 /\ length_field m n = [z2b ((if m then 128 else 0) + n)])
  \/ (126 <= n <= 65535 /\ length_field m n = z2b ((if m then 128 else 0) + 126) :: be_encode 2 n)
  \/ (n = 65536 /\ length_field m n = z2b ((if m then 128 else 0) + 127) :: be_encode 8 65536).
Proof.
  intros H. unfold length_field. destruct (Z.leb_spec n 125); [left; split; [lia | done] |].
  destruct (Z.leb_spec n 65535); right; [left; split; [lia | done] |].
  right. assert (n = 65536) as -> by lia. done.
Qed.

Lemma slice_2 {A} (a b : A) (l : list A) (k : Z) : 0 <= k -> slice 2 (2 + k) (a :: b :: l) = slice_to k l.
Proof. intros H. unfold slice, slice_to. replace (2 + k - 2) with k by lia. done. Qed.

Lemma parse_length_field (b0 b1 : byte) (tail rest : bytes) (m : bool) (n : Z) :
  0 <= n <= 65536 -> length_field m n = b1 :: tail ->
  parse_length (b0 :: b1 :: tail ++ rest) (Z.land (b2z b1) 127) = Ok (n, 2 + blen tail) /\ has_bits b1 128 = m.
Proof.
  intros Hn E. unfold parse_length, need. pose proof (blen_nonneg rest).
  destruct (length_field_cases m n Hn) as [[H1 E1] | [[H1 E1] | [-> E1]]]; rewrite E1 in E; injection E as <- <-.
  - destruct (second_byte_fields m n) as [-> ->]; [lia |]. by replace (n <=? 125) with true by lia.
  - destruct (second_byte_fields m 126) as [-> ->]; [lia |]. cbn [Z.leb Z.eqb Z.compare Pos.compare Pos.compare_cont Pos.eqb].
    rewrite (proj2 (Z.ltb_ge (blen (b0 :: _ :: be_encode 2 n ++ rest)) _))
      by (unfold blen in *; cbn [length]; rewrite length_app, length_be_encode; lia).
    cbn [raise_if rbind].
    rewrite slice_2, slice_to_app by (done || (unfold blen; by rewrite length_be_encode)).
    change [z2b (n / 256); z2b n] with (be_encode 2 n).
    rewrite be_decode_encode by (change (256 ^ Z.of_nat 2) with 65536; lia).
    by replace (n <? 126) with false by lia.
  - destruct (second_byte_fields m 127) as [-> ->]; [lia |]. cbn [Z.leb Z.eqb Z.compare Pos.compare Pos.compare_cont Pos.eqb].
    rewrite (proj2 (Z.ltb_ge (blen (b0 :: _ :: be_encode 8 65536 ++ rest)) _))
      by (unfold blen in *; cbn [length]; rewrite length_app, length_be_encode; lia).
    cbn [raise_if rbind].
    rewrite slice_2, slice_to_app by (done || (unfold blen; by rewrite length_be_encode)).
    by vm_compute.
Qed.

(** A length that parses was written by [length_field]. *)
Lemma parse_length_inv (b0 b1 : byte) (r : bytes) (n off : Z) :
  parse_length (b0 :: b1 :: r) (Z.land (b2z b1) 127) = Ok (n, off) -> n <= 65536 ->
  0 <= n /\ exists tail rest, length_field (has_bits b1 128) n = b1 :: tail /\ r = tail ++ rest /\ off = 2 + blen tail.
Proof.
  unfold parse_length, need. pose proof (length_code_range b1) as Hc. pose proof (second_byte_encoded b1) as Hb.
  destruct (Z.leb_spec (Z.land (b2z b1) 127) 125) as [H1 | H1].
  { intros [= <- <-] Hn. split; [lia |]. exists [], r. split; [| done]. unfold length_field.
    replace (_ <=? 125) with true by lia. by rewrite <- Hb. }
  destruct (Z.eqb_spec (Z.land (b2z b1) 127) 126) as [H2 | H2]; intros E Hn; inv_ok; bool_to_prop.
  - injection E as <- <-. rewrite slice_2 in * by lia.
    assert (Hl : blen (slice_to 2 r) = 2) by (apply blen_slice_to; unfold blen in *; cbn [length] in *; lia).
    assert (Hr : 0 <= be_decode (slice_to 2 r) < 65536).
    { pose proof (be_decode_range (slice_to 2 r)) as Hr. rewrite Hl in Hr. done. }
    split; [lia |]. exists (slice_to 2 r), (slice_from 2 r). split; [| split; [apply slice_split | lia]].
    unfold length_field. replace (_ <=? 125) with false by lia. replace (_ <=? 65535) with true by lia.
    rewrite be_encode_decode_n by (unfold blen in Hl; lia). rewrite H2 in Hb. by rewrite <- Hb.
  - injection E as <- <-. rewrite slice_2 in * by lia.
    assert (Hl : blen (slice_to 8 r) = 8) by (apply blen_slice_to; unfold blen in *; cbn [length] in *; lia).
    split; [lia |]. exists (slice_to 8 r), (slice_from 8 r). split; [| split; [apply slice_split | lia]].
    unfold length_field. replace (_ <=? 125) with false by lia. replace (_ <=? 65535) with false by lia.
    rewrite be_encode_decode_n by (unfold blen in Hl; lia). replace (Z.land (b2z b1) 127) with 127 in Hb by lia.
    by rewrite <- Hb.
Qed.

(** The metadata the parser gives for a frame; the code and the reason of a close
    frame are those of [_close_metadata] itself. *)
Definition frame_of (d : WAWWebSocketDirection) (final : bool) (op : WAWWebSocketOpcode) (payload : bytes)
    (p : WAWWebSocketPolicy) : result WAWWebSocketFrame :=
  let! '(code, reason) := close_metadata op payload p in
  Ok (mkWsFrame d op final (is_client d) false false false (blen payload) code reason true).

Lemma length_field_cons (m : bool) (n : Z) : exists b tail, length_field m n = b :: tail.
Proof. unfold length_field. repeat case_if; by eexists _, _. Qed.

Lemma frame_allowed_spec (p : WAWWebSocketPolicy) (final : bool) (op : WAWWebSocketOpcode) (n : Z) :
  frame_allowed p final op n = true <->
  bool_decide (op = TEXT) = false /\ n <= max_frame_payload p /\ is_control op && (negb final || (125 <? n)) = false.
Proof.
  unfold frame_allowed. rewrite !andb_true_iff, negb_true_iff, Z.leb_le.
  destruct (is_control op), final, (Z.leb_spec n 125), (Z.ltb_spec 125 n); cbn; intuition (try lia; try done).
Qed.

Lemma parse_frame_encoded (d : WAWWebSocketDirection) (final : bool) (op : WAWWebSocketOpcode) (key payload : bytes)
    (p : WAWWebSocketPolicy) :
  max_frame_payload p <= 65536 -> blen key = 4 -> frame_allowed p final op (blen payload) = true ->
  parse_frame_bytes (ws_encode d final op key payload) d p = frame_of d final op payload p.
Proof.
  intros Hp Hk (Ht & Hm & Hc)%frame_allowed_spec. pose proof (blen_nonneg payload) as Hn.
  destruct (length_field_cons (is_client d) (blen payload)) as (b1 & tail & El).
  unfold ws_encode. rewrite El. set (b0 := z2b _). set (body := if is_client d then _ else _).
  destruct (first_byte_fields final op) as (F1 & F2 & F3 & F4 & F5). fold b0 in F1, F2, F3, F4, F5.
  destruct (parse_length_field b0 b1 tail body (is_client d) (blen payload)) as [L1 L2]; [lia | done |].
  assert (Hraw : blen (b0 :: b1 :: tail ++ body) = 2 + blen tail + (if is_client d then 4 else 0) + blen payload).
  { unfold body. destruct (is_client d); unfold blen in *; cbn [length]; rewrite !length_app.
    - pose proof (unmask_length payload key). unfold blen in *. lia.
    - lia. }
  pose proof (blen_nonneg tail). unfold parse_frame_bytes, need. cbn [app nth].
  rewrite (proj2 (Z.ltb_ge (blen (b0 :: b1 :: tail ++ body)) 2)) by (rewrite Hraw; destruct (is_client d); lia).
  cbn [raise_if rbind]. rewrite F5, Ht, F1, F2, F3, F4, L1, L2. cbn [raise_if rbind orb].
  replace (max_frame_payload p <? blen payload) with false by lia. rewrite eqb_reflx, Hc. cbn [negb raise_if rbind].
  rewrite Hraw. rewrite Z.ltb_irrefl, Z.eqb_refl. cbn [negb raise_if rbind]. unfold frame_of. f_equal. f_equal.
  change (b0 :: b1 :: tail ++ body) with ([b0; b1] ++ tail ++ body). unfold body. destruct (is_client d).
  - replace (slice (2 + blen tail) (2 + blen tail + 4) _) with key.
    + replace (slice (2 + blen tail + 4) _ _) with (unmask payload key); [apply unmask_unmask |]. symmetry.
      rewrite !app_assoc. apply slice_app_end.
      * rewrite !blen_app, Hk. change (blen [b0; b1]) with 2. lia.
      * rewrite unmask_length. lia.
    + symmetry. rewrite app_assoc. apply slice_app_mid; [rewrite blen_app; done | by rewrite Hk].
  - rewrite Z.add_0_r. rewrite app_assoc. apply slice_app_end; [by rewrite blen_app | done].
Qed.

Lemma parse_frame_inv (raw : bytes) (d : WAWWebSocketDirection) (p : WAWWebSocketPolicy) (f : WAWWebSocketFrame) :
  max_frame_payload p <= 65536 -> parse_frame_bytes raw d p = Ok f ->
  exists final op key payload, blen key = 4 /\ frame_allowed p final op (blen payload) = true
    /\ raw = ws_encode d final op key payload.
Proof.
  intros Hp. unfold parse_frame_bytes, need. intros E. apply rbind_ok in E as ([] & E1%raise_if_ok%Z.ltb_ge & E).
  destruct raw as [|b0 [|b1 r]]; try (unfold blen in *; cbn [length] in *; lia). cbn [nth] in E.
  destruct (opcode_of (Z.land (b2z b0) 15)) as [op |] eqn:Eo; [| discriminate].
  apply rbind_ok in E as ([] & E2%raise_if_ok & E). apply rbind_ok in E as ([] & E3%raise_if_ok & E).
  apply rbind_ok in E as ([n off] & E4 & E). apply rbind_ok in E as ([] & E5%raise_if_ok%Z.ltb_ge & E).
  apply rbind_ok in E as ([] & E6%raise_if_ok%negb_false_iff%eqb_prop & E).
  apply rbind_ok in E as ([] & E7%raise_if_ok & E). apply rbind_ok in E as ([] & _ & E).
  apply rbind_ok in E as ([] & E9%raise_if_ok%negb_false_iff%Z.eqb_eq & _).
  destruct (parse_length_inv b0 b1 r n off E4) as (Hn & tail & rest & El & -> & ->); [lia |].
  pose proof (first_byte_encoded b0 op E3 Eo) as Hb0. rewrite E6 in *.
  assert (Hrest : blen rest = (if is_client d then 4 else 0) + n).
  { unfold blen in *. cbn [length] in E9. rewrite length_app in E9. destruct (is_client d); lia. }
  exists (has_bits b0 128), op. destruct (is_client d) eqn:Ed.
  - exists (slice_to 4 rest), (unmask (slice_from 4 rest) (slice_to 4 rest)).
    assert (Hpl : blen (slice_from 4 rest) = n) by (rewrite blen_slice_from; lia).
    split; [apply blen_slice_to; lia |]. rewrite unmask_length, Hpl. split; [apply frame_allowed_spec; auto |].
    unfold ws_encode. rewrite Ed, unmask_length, Hpl, El, unmask_unmask, <- slice_split. by rewrite <- Hb0.
  - exists (repeat x00 4), rest. split; [done |]. replace (blen rest) with n by lia.
    split; [apply frame_allowed_spec; auto |]. unfold ws_encode. rewrite Ed. replace (blen rest) with n by lia.
    rewrite El. by rewrite <- Hb0.
Qed.

Lemma policy_bounds (p : WAWWebSocketPolicy) :
  policy_post_init p = Ok tt <->
  1 <= max_frame_payload p <= 65536 /\ 1 <= max_message_payload p <= 65536 /\ 1 <= max_fragments p <= 256
  /\ 0 <= max_close_reason_bytes p <= 123 /\ 1 <= max_close_frames p <= 2.
Proof.
  unfold policy_post_init. split.
  - intros H. inv_ok. bool_to_prop. lia.
  - intros (H1 & H2 & H3 & H4 & H5). unfold in_range.
    repeat (rewrite (proj2 (Z.leb_le _ _)) by lia). done.
Qed.

Lemma validate_policy_ok (p : WAWWebSocketPolicy) : policy_post_init p = Ok tt -> validate_policy p = Ok tt.
Proof.
  intros (H1 & H2 & H3 & H4 & H5)%policy_bounds. unfold validate_policy, in_range.
  repeat (rewrite (proj2 (Z.leb_le _ _)) by lia). done.
Qed.

Lemma ws_encode_length (d : WAWWebSocketDirection) (final : bool) (op : WAWWebSocketOpcode) (key payload : bytes) :
  blen key = 4 -> blen payload <= 65536 -> 2 <= blen (ws_encode d final op key payload) <= MAX_FRAME_INPUT.
Proof.
  intros Hk Hp. pose proof (blen_nonneg payload). unfold ws_encode, MAX_FRAME_INPUT. rewrite !blen_app.
  assert (1 <= blen (length_field (is_client d) (blen payload)) <= 9).
  { destruct (length_field_cases (is_client d) (blen payload)) as [[_ ->] | [[_ ->] | [_ ->]]];
      [lia | done | unfold blen; cbn [length]; rewrite length_be_encode; lia | done]. }
  change (blen [_]) with 1. destruct (is_client d); rewrite ?blen_app, ?unmask_length; lia.
Qed.

Lemma frame_of_valid (d : WAWWebSocketDirection) (final : bool) (op : WAWWebSocketOpcode) (payload : bytes)
    (p : WAWWebSocketPolicy) (f : WAWWebSocketFrame) :
  frame_allowed p final op (blen payload) = true -> frame_of d final op payload p = Ok f -> validate_frame f p = Ok tt.
Proof.
  intros (Ht & Hm & Hc)%frame_allowed_spec. pose proof (blen_nonneg payload) as Hn. unfold frame_of, close_metadata.
  intros E. apply rbind_ok in E as ([code reason] & E & [= <-]). unfold validate_frame.
  cbn [rsv1 rsv2 rsv3 payload_length masked direction opcode fin close_code close_reason_bytes close_reason_utf8_valid orb].
  unfold in_range. replace (0 <=? blen payload) with true by lia.
  replace (blen payload <=? max_frame_payload p) with true by lia. rewrite eqb_reflx, Hc. cbn [andb negb raise_if rbind].
  destruct (bool_decide (op = CLOSE)); cbn [andb] in E; [| injection E as <- <-; done].
  destruct (Z.eqb_spec (blen payload) 0) as [H0 | H0]; cbn [negb] in E.
  { injection E as <- <-. rewrite H0. done. }
  apply rbind_ok in E as ([c r] & E & [= <- <-]). unfold parse_close in E. inv_ok. injection E as <- <-. bool_to_prop.
  replace (blen payload =? 1) with false by lia. rewrite G0. cbn [negb raise_if rbind].
  replace (0 <=? blen payload - 2) with true by lia.
  replace (blen payload - 2 <=? max_close_reason_bytes p) with true by lia. by rewrite Z.eqb_refl.
Qed.

(** ** The session as a function of the frames it accepted *)

Definition is_data (o : WAWWebSocketOpcode) : bool := match o with BINARY | CONTINUATION => true | _ => false end.

(** The frames of the message still open at the end of a history: what follows
    the last final data frame. *)
Definition open_message (h : list WAWWebSocketFrame) : list WAWWebSocketFrame :=
  fold_left (fun m f => if is_data (opcode f) then if fin f then [] else m ++ [f] else m) h [].

Definition payload_sum (fs : list WAWWebSocketFrame) : Z := fold_left (fun n f => n + payload_length f) fs 0.

Definition closed_by (d : WAWWebSocketDirection) (h : list WAWWebSocketFrame) : bool :=
  existsb (fun f => bool_decide (opcode f = CLOSE) && bool_decide (direction f = d)) h.

(** The number of directions that have closed *)
Definition closes (h : list WAWWebSocketFrame) : Z :=
  (if closed_by CLIENT_TO_RUNTIME h then 1 else 0) + (if closed_by RUNTIME_TO_CLIENT h then 1 else 0).

(** The session a history determines *)
Definition session_of (h : list WAWWebSocketFrame) : WAWWebSocketSession :=
  match closed_by CLIENT_TO_RUNTIME h, closed_by RUNTIME_TO_CLIENT h with
  | true, true => mkWsSession CLOSED 0 0 2
  | true, false => mkWsSession PEER_CLOSE_SEEN 0 0 1
  | false, true => mkWsSession CLOSE_SENT 0 0 1
  | false, false =>
      match open_message h with
      | [] => open_session
      | m => mkWsSession FRAGMENTED_BINARY (payload_sum m) (blen m) 0
      end
  end.

(** Which frame may come next *)
Definition may_follow (p : WAWWebSocketPolicy) (h : list WAWWebSocketFrame) (f : WAWWebSocketFrame) : bool :=
  match opcode f with
  | TEXT => false
  | BINARY => (closes h =? 0) && bool_decide (open_message h = []) && (payload_length f <=? max_message_payload p)
  | CONTINUATION =>
      (closes h =? 0) && negb (bool_decide (open_message h = []))
      && (payload_sum (open_message h) + payload_length f <=? max_message_payload p)
      && (blen (open_message h) + 1 <=? max_fragments p)
  | PING | PONG => closes h =? 0
  | CLOSE => negb (closed_by (direction f) h) && (closes h <? max_close_frames p)
  end.

(** Frames accepted one after the other from a fresh session *)
Inductive ws_accepts (p : WAWWebSocketPolicy) : list WAWWebSocketFrame -> WAWWebSocketSession -> Prop :=
| Ws_open : ws_accepts p [] open_session
| Ws_frame h s f s' : ws_accepts p h s -> accept_frame s f (Some p) = Ok s' -> ws_accepts p (h ++ [f]) s'.

Lemma open_message_snoc (h : list WAWWebSocketFrame) (f : WAWWebSocketFrame) :
  open_message (h ++ [f])
  = if is_data (opcode f) then if fin f then [] else open_message h ++ [f] else open_message h.
Proof. unfold open_message. by rewrite fold_left_app. Qed.

Lemma payload_sum_snoc (m : list WAWWebSocketFrame) (f : WAWWebSocketFrame) :
  payload_sum (m ++ [f]) = payload_sum m + payload_length f.
Proof. unfold payload_sum. by rewrite fold_left_app. Qed.

Lemma closed_by_snoc (d : WAWWebSocketDirection) (h : list WAWWebSocketFrame) (f : WAWWebSocketFrame) :
  closed_by d (h ++ [f]) = closed_by d h || (bool_decide (opcode f = CLOSE) && bool_decide (direction f = d)).
Proof. unfold closed_by. by rewrite existsb_app; cbn; rewrite orb_false_r. Qed.

(** The budgets that an accepted history has kept *)
Definition within (p : WAWWebSocketPolicy) (h : list WAWWebSocketFrame) : Prop :=
  0 <= payload_sum (open_message h) <= max_message_payload p /\ blen (open_message h) <= max_fragments p
  /\ closes h <= max_close_frames p.

(** The checks of the code on its own session never fail. *)
Lemma session_checks (p : WAWWebSocketPolicy) (h : list WAWWebSocketFrame) (A : Type) (k : result A) :
  policy_post_init p = Ok tt -> within p h ->
  (run! validate_policy p in
   run! raise_if (negb (in_range 0 (message_payload_bytes (session_of h)) (max_message_payload p)))
          (ws_error "PROTOCOL_INVALID" "session message budget is invalid") in
   run! raise_if (negb (in_range 0 (fragment_count (session_of h)) (max_fragments p)))
          (ws_error "PROTOCOL_INVALID" "session fragment budget is invalid") in
   run! raise_if (negb (in_range 0 (close_frames (session_of h)) (max_close_frames p)))
          (ws_error "PROTOCOL_INVALID" "session close budget is invalid") in
   run! validate_session_invariants (session_of h) p in k) = k.
Proof.
  intros Hp (W1 & W2 & W3). rewrite validate_policy_ok by done. apply policy_bounds in Hp as (H1 & H2 & H3 & H4 & H5).
  unfold session_of, closes, validate_session_invariants in *. pose proof (blen_nonneg (open_message h)).
  destruct (closed_by CLIENT_TO_RUNTIME h), (closed_by RUNTIME_TO_CLIENT h);
    [| | | destruct (open_message h) as [|g m] eqn:E]; cbn [message_payload_bytes fragment_count close_frames state open_session rbind];
    unfold in_range; repeat (rewrite (proj2 (Z.leb_le _ _)) by (unfold blen in *; cbn [length] in *; lia));
    cbn [andb negb raise_if rbind Z.eqb]; rewrite ?(proj2 (Z.ltb_ge _ _)) by (unfold blen in *; cbn [length] in *; lia); try done.
Qed.

Lemma closing_session_of (h : list WAWWebSocketFrame) :
  (closes h = 0 /\ closed_by CLIENT_TO_RUNTIME h = false /\ closed_by RUNTIME_TO_CLIENT h = false
     /\ ((open_message h = [] /\ session_of h = open_session)
         \/ exists g m, open_message h = g :: m
            /\ session_of h = mkWsSession FRAGMENTED_BINARY (payload_sum (g :: m)) (blen (g :: m)) 0))
  \/ (closes h = 1 /\ closed_by CLIENT_TO_RUNTIME h = true /\ closed_by RUNTIME_TO_CLIENT h = false
      /\ session_of h = mkWsSession PEER_CLOSE_SEEN 0 0 1)
  \/ (closes h = 1 /\ closed_by CLIENT_TO_RUNTIME h = false /\ closed_by RUNTIME_TO_CLIENT h = true
      /\ session_of h = mkWsSession CLOSE_SENT 0 0 1)
  \/ (closes h = 2 /\ closed_by CLIENT_TO_RUNTIME h = true /\ closed_by RUNTIME_TO_CLIENT h = true
      /\ session_of h = mkWsSession CLOSED 0 0 2).
Proof.
  unfold closes, session_of. destruct (closed_by CLIENT_TO_RUNTIME h), (closed_by RUNTIME_TO_CLIENT h); [tauto | tauto | tauto |].
  left. repeat (split; [done |]). destruct (open_message h) as [|g m]; [by left | right; by exists g, m].
Qed.

(** One frame: the code accepts exactly what may follow the history, and the
    session it gives is the one of the longer history. *)
Lemma accept_frame_session (p : WAWWebSocketPolicy) (h : list WAWWebSocketFrame) (f : WAWWebSocketFrame) :
  policy_post_init p = Ok tt -> within p h ->
  exists e, accept_frame (session_of h) f (Some p)
    = run! validate_frame f p in if may_follow p h f then Ok (session_of (h ++ [f])) else Raise e.
Proof.
  intros Hp W. unfold accept_frame. change (default default_policy (Some p)) with p. rewrite session_checks by done.
  destruct (validate_frame f p) as [[] | e0]; cbn [rbind]; [| by exists e0].
  apply policy_bounds in Hp as (H1 & H2 & H3 & H4 & H5). destruct W as (W1 & W2 & W3).
  unfold may_follow, accept_data, accept_close, closing.
  destruct (closing_session_of h) as [(C & C1 & C2 & [[O S] | (g & m & O & S)]) | [(C & C1 & C2 & S) | [(C & C1 & C2 & S) | (C & C1 & C2 & S)]]];
    rewrite S, C; unfold session_of; rewrite !closed_by_snoc, open_message_snoc, C1, C2, ?O in *;
    cbn [state close_frames fragment_count message_payload_bytes open_session];
    destruct (opcode f) eqn:Eo.
  all: destruct (direction f) eqn:Ed; repeat first [rewrite bool_decide_true by done | rewrite bool_decide_false by done];
    cbn [orb andb negb raise_if rbind is_data is_client Z.eqb];
    try (by exists (err PyException EmptyString)); try (eexists; reflexivity);
    rewrite ?C1, ?C2, ?Z.add_0_l, ?Z.ltb_antisym; cbn [andb negb].
  all: try match goal with |- context [payload_sum (_ :: _)] =>
         rewrite <- (payload_sum_snoc (g :: m) f) end.
  all: repeat match goal with |- context [?a <=? ?b] => destruct (Z.leb_spec a b); cbn [andb negb raise_if rbind] end; try lia.
  all: try (by exists (err PyException EmptyString)); try (eexists; reflexivity); destruct (fin f); cbn [negb] in *; try lia;
    exists (err PyException EmptyString); try done.
  all: replace (blen (g :: m) + 1) with (blen ((g :: m) ++ [f])) by (by rewrite blen_app); done.
Qed.

Lemma within_snoc (p : WAWWebSocketPolicy) (h : list WAWWebSocketFrame) (f : WAWWebSocketFrame) :
  policy_post_init p = Ok tt -> within p h -> 0 <= payload_length f -> may_follow p h f = true -> within p (h ++ [f]).
Proof.
  intros (_ & _ & H3 & _ & H5)%policy_bounds (W1 & W2 & W3) Hf. unfold may_follow, within, closes in *.
  rewrite open_message_snoc, !closed_by_snoc.
  destruct (opcode f) eqn:Eo; cbn [is_data]; intros Hm; bool_to_prop; try done;
    rewrite ?(bool_decide_false (_ = CLOSE)), ?(bool_decide_true (CLOSE = CLOSE)) by done; cbn [andb]; rewrite ?orb_false_r.
  - destruct (fin f); [change (payload_sum []) with 0; change (blen (@nil WAWWebSocketFrame)) with 0; lia |]. rewrite payload_sum_snoc, blen_app.
    change (blen [f]) with 1. lia.
  - destruct (fin f); [change (payload_sum []) with 0; change (blen (@nil WAWWebSocketFrame)) with 0; lia |].
    match goal with H : open_message h = [] |- _ => rewrite H in * end. cbn [app].
    change (payload_sum [f]) with (0 + payload_length f). change (blen [f]) with 1. lia.
  - split; [done |]. split; [done |].
    destruct (direction f), (closed_by CLIENT_TO_RUNTIME h), (closed_by RUNTIME_TO_CLIENT h);
      repeat first [rewrite bool_decide_true by done | rewrite bool_decide_false by done]; cbn [orb andb negb] in *; try done; lia.
  - done.
  - done.
Qed.

Lemma validate_frame_length (f : WAWWebSocketFrame) (p : WAWWebSocketPolicy) :
  validate_frame f p = Ok tt -> 0 <= payload_length f.
Proof. unfold validate_frame. intros H. apply rbind_ok in H as ([] & _ & H). apply rbind_ok in H as ([] & H%raise_if_ok & _). bool_to_prop. lia. Qed.

Lemma ws_accepts_session (p : WAWWebSocketPolicy) (h : list WAWWebSocketFrame) (s : WAWWebSocketSession) :
  policy_post_init p = Ok tt -> ws_accepts p h s -> s = session_of h /\ within p h.
Proof.
  intros Hp. pose proof Hp as (P1 & P2 & P3 & P4 & P5)%policy_bounds. induction 1 as [| h s f s' _ [-> W] E].
  { split; [done |]. unfold within. change (payload_sum (open_message [])) with 0. change (closes []) with 0.
    change (blen (open_message [])) with 0. lia. }
  destruct (accept_frame_session p h f Hp W) as [e Ea]. rewrite Ea in E. apply rbind_ok in E as ([] & Ev & E).
  destruct (may_follow p h f) eqn:Em; [| done]. injection E as <-. split; [done |].
  apply within_snoc; try done. by apply validate_frame_length in Ev.
Qed.

(** ** Properties *)

(** C34: the parser accepts exactly the canonical encodings of the frames
    the profile allows, whole and with nothing after them, and gives the
    metadata of that frame; every other length form, mask, opcode, truncation
    or trailing byte is rejected. *)
Theorem parser_accepts_canonical (p : WAWWebSocketPolicy) (raw : bytes) (d : WAWWebSocketDirection) (f : WAWWebSocketFrame) :
  policy_post_init p = Ok tt ->
  (parse_websocket_frame (PBytes raw) d (Some p) = Ok f <->
   exists final op key payload, blen key = 4 /\ frame_allowed p final op (blen payload) = true
     /\ raw = ws_encode d final op key payload /\ frame_of d final op payload p = Ok f).
Proof.
  intros Hp. pose proof Hp as (P1 & _)%policy_bounds. unfold parse_websocket_frame.
  change (default default_policy (Some p)) with p. unfold validate_parser_policy. rewrite Hp. cbn [except_as rbind]. split.
  - intros E. apply rbind_ok in E as ([] & _ & E). pose proof E as E0.
    apply parse_frame_inv in E as (final & op & key & payload & Hk & Ha & ->); [| lia].
    exists final, op, key, payload. rewrite parse_frame_encoded in E0 by (done || lia). done.
  - intros (final & op & key & payload & Hk & Ha & -> & Hf). pose proof Ha as (_ & Hm & _)%frame_allowed_spec.
    pose proof (ws_encode_length d final op key payload Hk ltac:(lia)).
    rewrite (proj2 (Z.eqb_neq _ 0)), (proj2 (Z.ltb_ge _ _)) by lia. cbn [orb raise_if rbind].
    rewrite parse_frame_encoded by (done || lia). done.
Qed.

(** Whatever the parser returns is well formed for the contract: the
    frame validation of [accept_frame] never rejects a parsed frame, so the two
    modules agree on every limit they share. *)
Theorem parsed_frame_valid (p : WAWWebSocketPolicy) (input : pyval) (d : WAWWebSocketDirection) (f : WAWWebSocketFrame) :
  parse_websocket_frame input d (Some p) = Ok f -> policy_post_init p = Ok tt /\ validate_frame f p = Ok tt.
Proof.
  destruct input as [| | | | | raw | |]; try discriminate 1. unfold parse_websocket_frame.
  change (default default_policy (Some p)) with p. intros E. apply rbind_ok in E as ([] & Hp & E).
  apply except_as_ok in Hp. split; [done |]. pose proof Hp as (P1 & _)%policy_bounds. apply rbind_ok in E as ([] & _ & E).
  pose proof E as E0. apply parse_frame_inv in E as (final & op & key & payload & Hk & Ha & ->); [| lia].
  rewrite parse_frame_encoded in E0 by (done || lia). by apply (frame_of_valid d final op payload).
Qed.

(** The session is determined by the frames accepted so far (the
    open message, and which directions have closed), and a valid frame is
    accepted exactly when it may follow them: binary data in messages within
    the size and fragment budgets, no data or ping after a close, one close per
    direction, and nothing after both. *)
Theorem session_follows_history (p : WAWWebSocketPolicy) (h : list WAWWebSocketFrame) (s : WAWWebSocketSession)
    (f : WAWWebSocketFrame) :
  policy_post_init p = Ok tt -> ws_accepts p h s -> validate_frame f p = Ok tt ->
  s = session_of h /\ payload_sum (open_message h) <= max_message_payload p /\ blen (open_message h) <= max_fragments p
  /\ is_ok (accept_frame s f (Some p)) = may_follow p h f.
Proof.
  intros Hp H Hf. destruct (ws_accepts_session p h s Hp H) as [-> W]. split; [done |].
  destruct (accept_frame_session p h f Hp W) as [e ->]. rewrite Hf. destruct W as (W1 & W2 & W3).
  split; [lia |]. split; [done |]. cbn [rbind]. by destruct (may_follow p h f).
Qed.

(** ** Witnesses *)

(** "hello" from the client under a mask, and the two close frames. *)
Definition sample_ws : bytes := ws_encode CLIENT_TO_RUNTIME true BINARY [x01; x02; x03; x04] (bstr "hello").
Definition sample_ws_frame : WAWWebSocketFrame :=
  mkWsFrame CLIENT_TO_RUNTIME BINARY true true false false false 5 None 0 true.
Definition sample_close (d : WAWWebSocketDirection) : WAWWebSocketFrame :=
  mkWsFrame d CLOSE true (is_client d) false false false 4 (Some 1000) 2 true.

Lemma parser_accepts_canonical_witness :
  parse_websocket_frame (PBytes sample_ws) CLIENT_TO_RUNTIME (Some default_policy) = Ok sample_ws_frame <->
  exists final op key payload, blen key = 4 /\ frame_allowed default_policy final op (blen payload) = true
    /\ sample_ws = ws_encode CLIENT_TO_RUNTIME final op key payload
    /\ frame_of CLIENT_TO_RUNTIME final op payload default_policy = Ok sample_ws_frame.
Proof. apply (parser_accepts_canonical default_policy sample_ws CLIENT_TO_RUNTIME sample_ws_frame). reflexivity. Defined.

Lemma parsed_frame_valid_witness :
  policy_post_init default_policy = Ok tt /\ validate_frame sample_ws_frame default_policy = Ok tt.
Proof. apply (parsed_frame_valid default_policy (PBytes sample_ws) CLIENT_TO_RUNTIME). vm_compute. reflexivity. Defined.

Lemma session_follows_history_witness :
  mkWsSession PEER_CLOSE_SEEN 0 0 1 = session_of [sample_ws_frame; sample_close CLIENT_TO_RUNTIME]
  /\ payload_sum (open_message [sample_ws_frame; sample_close CLIENT_TO_RUNTIME]) <= 65536
  /\ blen (open_message [sample_ws_frame; sample_close CLIENT_TO_RUNTIME]) <= 64
  /\ is_ok (accept_frame (mkWsSession PEER_CLOSE_SEEN 0 0 1) (sample_close RUNTIME_TO_CLIENT) (Some default_policy))
     = may_follow default_policy [sample_ws_frame; sample_close CLIENT_TO_RUNTIME] (sample_close RUNTIME_TO_CLIENT).
Proof.
  apply (session_follows_history default_policy [sample_ws_frame; sample_close CLIENT_TO_RUNTIME]); [reflexivity | | reflexivity].
  apply (Ws_frame default_policy [sample_ws_frame] open_session); [| reflexivity].
  apply (Ws_frame default_policy [] open_session); [apply Ws_open | reflexivity].
Defined.
