(* ===== verification/NoiseNx.v ===== *)
(** * The Noise NX handshake ([agentbox_protocol/noise_nx.py])

    [Noise_NX_25519_AESGCM_SHA256]: the initiator and the responder, the cipher
    states and the transport they hand out.  SHA-256 and HMAC are the ones of
    [Sha256]; X25519 and AES-GCM of the [cryptography] package are the class
    [NoisePrimitives], with what its documentation promises in [NoiseLaws].  A
    key that the code generates is an argument.  A method gives the object it
    leaves behind, also when it raises. *)

From S2P Require Import Prelude PyVal Sha256.

Local Open Scope Z_scope.

(** ** The primitives *)

Class NoisePrimitives := {
  priv : Type;
  from_private_bytes : bytes -> result priv;
  public_bytes : priv -> bytes;
  exchange : priv -> bytes -> result bytes;
  aesgcm_encrypt : forall key nonce data aad : bytes, result bytes;
  aesgcm_decrypt : forall key nonce data aad : bytes, result bytes
}.

(** What the code relies on: public keys have 32 bytes, both ends of an exchange
    get the same secret, sealing adds a tag of 16 bytes and cannot fail within
    the message limit, and opening undoes it; the exceptions the package
    documents. *)
Class NoiseLaws (P : NoisePrimitives) : Prop := {
  public_length k : blen (public_bytes k) = 32;
  exchange_agrees a b : exchange a (public_bytes b) = exchange b (public_bytes a);
  exchange_throws a p : throws [PyTypeError; PyValueError] (exchange a p);
  from_private_throws b : throws [PyTypeError; PyValueError] (from_private_bytes b);
  encrypt_total key nonce data aad :
    blen key = 32 -> blen nonce = 12 -> blen data <= 65535 -> blen aad <= 65535 ->
    exists c, aesgcm_encrypt key nonce data aad = Ok c /\ blen c = blen data + 16;
  decrypt_encrypt key nonce data aad c :
    aesgcm_encrypt key nonce data aad = Ok c -> aesgcm_decrypt key nonce c aad = Ok data;
  decrypt_throws key nonce data aad :
    throws [InvalidTag; PyValueError; PyTypeError] (aesgcm_decrypt key nonce data aad)
}.

Definition PROTOCOL_NAME : bytes := bstr "Noise_NX_25519_AESGCM_SHA256".
Definition MAX_MESSAGE_SIZE : Z := 65535.
Definition MAX_NONCE : Z := 2 ^ 64 - 1.
Definition MAX_ASSOCIATED_DATA : Z := 65535.

Definition noise_error (text : string) : exn := err NoiseNXError text.

(** [_hkdf] *)
Definition hkdf (chaining_key material : bytes) : bytes * bytes :=
  let temp := hmac_sha256 chaining_key material in
  let first := hmac_sha256 temp [x01] in
  let second := hmac_sha256 temp (first ++ [x02]) in
  (first, second).

(** ** Cipher states *)

Record CipherState : Type := mkCipher { cs_key : bytes; cs_nonce : Z; cs_closed : bool }.

Definition new_cipher (key : pyval) : result CipherState :=
  match key with
  | PBytes k => run! raise_if (negb (blen k =? 32)) (noise_error "CipherState key is invalid") in Ok (mkCipher k 0 false)
  | _ => Raise (noise_error "CipherState key is invalid")
  end.

Definition cipher_destroy (c : CipherState) : CipherState := mkCipher [] (cs_nonce c) true.

(** [_ready]: the inputs, or the state a refusal leaves and its error *)
Definition ready (c : CipherState) (value associated_data : pyval) (decrypt : bool) : CipherState * result (bytes * bytes) :=
  if cs_closed c then (c, Raise (noise_error "CipherState is closed"))
  else
    match value, associated_data with
    | PBytes v, PBytes ad =>
        if MAX_ASSOCIATED_DATA <? blen ad then
          (cipher_destroy c, Raise (noise_error "Noise associated data exceeds 65535 bytes"))
        else if (MAX_MESSAGE_SIZE <? blen v) || (negb decrypt && (MAX_MESSAGE_SIZE - 16 <? blen v)) then
          (cipher_destroy c, Raise (noise_error "Noise message exceeds 65535 bytes"))
        else if decrypt && (blen v <? 16) then
          (cipher_destroy c, Raise (noise_error "Noise ciphertext is shorter than its authentication tag"))
        else if MAX_NONCE <=? cs_nonce c then (cipher_destroy c, Raise (noise_error "Noise nonce exhausted"))
        else (c, Ok (v, ad))
    | _, _ => (cipher_destroy c, Raise (noise_error "CipherState inputs must be bytes"))
    end.

Definition nonce_bytes (n : Z) : bytes := repeat x00 4 ++ be_encode 8 n.

(** [__advance] *)
Definition advance (c : CipherState) : CipherState := mkCipher (cs_key c) (cs_nonce c + 1) (cs_closed c).

Section Noise.
Context {P : NoisePrimitives}.

Definition encrypt (c : CipherState) (plaintext associated_data : pyval) : CipherState * result bytes :=
  match ready c plaintext associated_data false with
  | (c1, Raise e) => (c1, Raise e)
  | (c1, Ok (v, ad)) =>
      match aesgcm_encrypt (cs_key c1) (nonce_bytes (cs_nonce c1)) v ad with
      | Ok r => (advance c1, Ok r)
      | Raise e => if exc_isa (exn_class e) PyException then (cipher_destroy c1, Raise (noise_error "Noise encryption failed"))
                   else (c1, Raise e)
      end
  end.

Definition decrypt (c : CipherState) (ciphertext associated_data : pyval) : CipherState * result bytes :=
  match ready c ciphertext associated_data true with
  | (c1, Raise e) => (c1, Raise e)
  | (c1, Ok (v, ad)) =>
      match aesgcm_decrypt (cs_key c1) (nonce_bytes (cs_nonce c1)) v ad with
      | Ok r => (advance c1, Ok r)
      | Raise e =>
          if existsb (exc_isa (exn_class e)) [InvalidTag; PyValueError; PyTypeError]
          then (cipher_destroy c1, Raise (noise_error "Noise authentication failed"))
          else (c1, Raise e)
      end
  end.

Record NoiseTransport : Type := mkTransport {
  send : CipherState;
  receive : CipherState;
  handshake_hash : bytes;
  remote_static_public_key : bytes
}.

(** [NoiseTransport.destroy] *)
Definition transport_destroy (t : NoiseTransport) : NoiseTransport :=
  mkTransport (cipher_destroy (send t)) (cipher_destroy (receive t)) (handshake_hash t) (remote_static_public_key t).

(** [_key] *)
Definition key_ (value : pyval) (name : string) : result priv :=
  match value with
  | PBytes b =>
      run! raise_if (negb (blen b =? 32)) (noise_error (name ++ " must be exactly 32 bytes")) in
      except_as (from_private_bytes b) [PyTypeError; PyValueError] (noise_error (name ++ " is invalid"))
  | _ => Raise (noise_error (name ++ " must be exactly 32 bytes"))
  end.

(** [_dh] *)
Definition dh (private : priv) (peer : bytes) : result bytes :=
  run! raise_if (negb (blen peer =? 32)) (noise_error "X25519 public key is invalid") in
  except_as (exchange private peer) [PyTypeError; PyValueError] (noise_error "X25519 DH failed").

(** ** The handshake *)

Record Handshake : Type := mkHandshake {
  hs_h : bytes;
  hs_ck : bytes;
  hs_closed : bool;
  hs_transport : option NoiseTransport;
  hs_cipher : option CipherState
}.

(** [_mix_hash] *)
Definition mix_hash (s : Handshake) (data : bytes) : Handshake :=
  mkHandshake (sha256 (hs_h s ++ data)) (hs_ck s) (hs_closed s) (hs_transport s) (hs_cipher s).

(** [_Handshake.__init__] *)
Definition new_handshake (prologue : pyval) : result Handshake :=
  match prologue with
  | PBytes p =>
      run! raise_if (MAX_MESSAGE_SIZE <? blen p) (noise_error "prologue is invalid") in
      let h := PROTOCOL_NAME ++ repeat x00 (32 - length PROTOCOL_NAME) in
      Ok (mix_hash (mkHandshake h h false None None) p)
  | _ => Raise (noise_error "prologue is invalid")
  end.

(** [_mix_key]; the cipher it replaces is destroyed and not kept. *)
Definition mix_key (s : Handshake) (material : bytes) : result Handshake :=
  let '(ck, key) := hkdf (hs_ck s) material in
  let! c := new_cipher (PBytes key) in
  Ok (mkHandshake (hs_h s) ck (hs_closed s) (hs_transport s) (Some c)).

Definition set_cipher (s : Handshake) (c : CipherState) : Handshake :=
  mkHandshake (hs_h s) (hs_ck s) (hs_closed s) (hs_transport s) (Some c).

(** [_encrypt_and_hash] *)
Definition encrypt_and_hash (s : Handshake) (payload : bytes) : Handshake * result bytes :=
  match hs_cipher s with
  | None => (mix_hash s payload, Ok payload)
  | Some c =>
      match encrypt c (PBytes payload) (PBytes (hs_h s)) with
      | (c1, Raise e) => (set_cipher s c1, Raise e)
      | (c1, Ok r) => (mix_hash (set_cipher s c1) r, Ok r)
      end
  end.

(** [_decrypt_and_hash] *)
Definition decrypt_and_hash (s : Handshake) (payload : bytes) : Handshake * result bytes :=
  match hs_cipher s with
  | None => (mix_hash s payload, Ok payload)
  | Some c =>
      match decrypt c (PBytes payload) (PBytes (hs_h s)) with
      | (c1, Raise e) => (set_cipher s c1, Raise e)
      | (c1, Ok r) => (mix_hash (set_cipher s c1) payload, Ok r)
      end
  end.

(** [destroy] and [_clear_handshake_material] on the shared fields *)
Definition destroyed (s : Handshake) : Handshake :=
  mkHandshake [] [] true None (cipher_destroy <$> hs_cipher s).

(** [take_transport] on the shared fields *)
Definition taken (s : Handshake) : Handshake := mkHandshake [] [] true None None.

(** [_finish] *)
Definition finish (s : Handshake) (remote_static : bytes) (initiator : bool) : result Handshake :=
  let '(k1, k2) := hkdf (hs_ck s) [] in
  let! c1 := new_cipher (PBytes k1) in
  let! c2 := new_cipher (PBytes k2) in
  let '(snd_, rcv) := if initiator then (c1, c2) else (c2, c1) in
  Ok (mkHandshake (hs_h s) (hs_ck s) (hs_closed s) (Some (mkTransport snd_ rcv (hs_h s) remote_static)) (hs_cipher s)).

(** *** The initiator *)

Record NXInitiator : Type := mkInitiator {
  i_base : Handshake;
  i_e : option priv;
  i_re : option bytes;
  message1_written : bool
}.

(** [ephemeral] is the given private key, or the one [generate] made. *)
Definition new_initiator (prologue : pyval) (ephemeral : pyval + priv) : result NXInitiator :=
  let! base := new_handshake prologue in
  let! e := match ephemeral with inl b => key_ b "ephemeral_private_key" | inr k => Ok k end in
  Ok (mkInitiator base (Some e) None false).

Definition i_destroy (s : NXInitiator) : NXInitiator := mkInitiator (destroyed (i_base s)) None None (message1_written s).

Definition i_take_transport (s : NXInitiator) : NXInitiator * result NoiseTransport :=
  match hs_closed (i_base s), hs_transport (i_base s) with
  | false, Some t => (mkInitiator (taken (i_base s)) None None (message1_written s), Ok t)
  | _, _ => (s, Raise (noise_error "Noise transport is unavailable"))
  end.

(** A missing private key would be an attribute error; [_public(None)] *)
Definition no_key : exn := err PyException "object has no attribute".

Definition write_message1 (s : NXInitiator) (payload : pyval) : NXInitiator * result bytes :=
  let bad := (i_destroy s, Raise (noise_error "message1 is not writable")) in
  match payload with
  | PBytes p =>
      if hs_closed (i_base s) || message1_written s || (MAX_MESSAGE_SIZE - 32 <? blen p) then bad
      else
        match i_e s with
        | None => (mkInitiator (i_base s) (i_e s) (i_re s) true, Raise no_key)
        | Some e =>
            (mkInitiator (mix_hash (mix_hash (i_base s) (public_bytes e)) p) (i_e s) (i_re s) true, Ok (public_bytes e ++ p))
        end
  | _ => bad
  end.

(** The [try] block of [read_message2]: the handshake it leaves, also when it raises *)
Definition read2_body (s : Handshake) (e : priv) (re raw : bytes) : Handshake * result (bytes * bytes) :=
  match (let! d := dh e re in mix_key s d) with
  | Raise x => (s, Raise x)
  | Ok s1 =>
      match decrypt_and_hash s1 (slice 32 80 raw) with
      | (s2, Raise x) => (s2, Raise x)
      | (s2, Ok remote_static) =>
          if negb (blen remote_static =? 32) then (s2, Raise (noise_error "responder static key is invalid"))
          else
            match (let! d := dh e remote_static in mix_key s2 d) with
            | Raise x => (s2, Raise x)
            | Ok s3 =>
                match decrypt_and_hash s3 (slice_from 80 raw) with
                | (s4, Raise x) => (s4, Raise x)
                | (s4, Ok payload) => (s4, Ok (remote_static, payload))
                end
            end
      end
  end.

Definition read_message2 (s : NXInitiator) (raw : pyval) : NXInitiator * result bytes :=
  match raw with
  | PBytes r =>
      if hs_closed (i_base s) || (MAX_MESSAGE_SIZE <? blen r) then
        (i_destroy s, Raise (noise_error "Noise handshake message is invalid"))
      else if negb (message1_written s) || bool_decide (i_re s <> None) || (blen r <? 32 + 48) then
        (i_destroy s, Raise (noise_error "message2 is invalid or out of order"))
      else
        let re := slice_to 32 r in
        let base := mix_hash (i_base s) re in
        match i_e s with
        | None => (mkInitiator base None (Some re) (message1_written s), Raise no_key)
        | Some e =>
            match read2_body base e re r with
            | (b, Raise x) =>
                let s1 := mkInitiator b (i_e s) (Some re) (message1_written s) in
                (if exc_isa (exn_class x) NoiseNXError then i_destroy s1 else s1, Raise x)
            | (b, Ok (remote_static, payload)) =>
                match finish b remote_static true with
                | Raise x => (mkInitiator b (i_e s) (Some re) (message1_written s), Raise x)
                | Ok b1 => (mkInitiator b1 (i_e s) (Some re) (message1_written s), Ok payload)
                end
            end
        end
  | _ => (i_destroy s, Raise (noise_error "Noise handshake message is invalid"))
  end.

(** *** The responder *)

Record NXResponder : Type := mkResponder {
  r_base : Handshake;
  r_s : option priv;
  r_e : option priv;
  r_re : option bytes;
  message2_written : bool
}.

Definition new_responder (prologue static_private_key : pyval) (ephemeral : option pyval) : result NXResponder :=
  let! base := new_handshake prologue in
  let! s := key_ static_private_key "static_private_key" in
  let! e := match ephemeral with
            | Some b => let! k := key_ b "ephemeral_private_key" in Ok (Some k)
            | None => Ok None
            end in
  Ok (mkResponder base (Some s) e None false).

Definition r_destroy (s : NXResponder) : NXResponder :=
  mkResponder (destroyed (r_base s)) None None None (message2_written s).

Definition r_take_transport (s : NXResponder) : NXResponder * result NoiseTransport :=
  match hs_closed (r_base s), hs_transport (r_base s) with
  | false, Some t => (mkResponder (taken (r_base s)) None None None (message2_written s), Ok t)
  | _, _ => (s, Raise (noise_error "Noise transport is unavailable"))
  end.

Definition read_message1 (s : NXResponder) (raw : pyval) : NXResponder * result bytes :=
  match raw with
  | PBytes r =>
      if hs_closed (r_base s) || (MAX_MESSAGE_SIZE <? blen r) then
        (r_destroy s, Raise (noise_error "Noise handshake message is invalid"))
      else if bool_decide (r_re s <> None) || (blen r <? 32) then
        (r_destroy s, Raise (noise_error "message1 is invalid or out of order"))
      else
        let re := slice_to 32 r in
        let payload := slice_from 32 r in
        (mkResponder (mix_hash (mix_hash (r_base s) re) payload) (r_s s) (r_e s) (Some re) (message2_written s), Ok payload)
  | _ => (r_destroy s, Raise (noise_error "Noise handshake message is invalid"))
  end.

(** The [try] block of [write_message2] *)
Definition write2_body (s : Handshake) (st e : priv) (re payload : bytes) : Handshake * result (bytes * bytes) :=
  match (let! d := dh e re in mix_key s d) with
  | Raise x => (s, Raise x)
  | Ok s1 =>
      match encrypt_and_hash s1 (public_bytes st) with
      | (s2, Raise x) => (s2, Raise x)
      | (s2, Ok encrypted_static) =>
          match (let! d := dh st re in mix_key s2 d) with
          | Raise x => (s2, Raise x)
          | Ok s3 =>
              match encrypt_and_hash s3 payload with
              | (s4, Raise x) => (s4, Raise x)
              | (s4, Ok encrypted_payload) => (s4, Ok (encrypted_static, encrypted_payload))
              end
          end
      end
  end.

(** [generated] is the key [X25519PrivateKey.generate()] would give. *)
Definition write_message2 (s : NXResponder) (payload : pyval) (generated : priv) : NXResponder * result bytes :=
  let bad := (r_destroy s, Raise (noise_error "message2 is not writable")) in
  match payload, r_re s with
  | PBytes p, Some re =>
      if hs_closed (r_base s) || message2_written s || (MAX_MESSAGE_SIZE - 96 <? blen p) then bad
      else
        let e := default generated (r_e s) in
        let base := mix_hash (r_base s) (public_bytes e) in
        match r_s s with
        | None => (mkResponder base None (Some e) (Some re) true, Raise no_key)
        | Some st =>
            match write2_body base st e re p with
            | (b, Raise x) =>
                let s1 := mkResponder b (r_s s) (Some e) (Some re) true in
                (if exc_isa (exn_class x) NoiseNXError then r_destroy s1 else s1, Raise x)
            | (b, Ok (encrypted_static, encrypted_payload)) =>
                match finish b [] false with
                | Raise x => (mkResponder b (r_s s) (Some e) (Some re) true, Raise x)
                | Ok b1 => (mkResponder b1 (r_s s) (Some e) (Some re) true, Ok (public_bytes e ++ encrypted_static ++ encrypted_payload))
                end
            end
        end
  | _, _ => bad
  end.

(** ** Lemmas *)

Context {L : NoiseLaws P}.

Lemma blen_sha256 (m : bytes) : blen (sha256 m) = 32.
Proof. unfold blen. by rewrite length_sha256. Qed.

Lemma blen_hmac (k m : bytes) : blen (hmac_sha256 k m) = 32.
Proof. unfold hmac_sha256. apply blen_sha256. Qed.

Lemma new_cipher_ok (k : bytes) : blen k = 32 -> new_cipher (PBytes k) = Ok (mkCipher k 0 false).
Proof. intros H. unfold new_cipher. by rewrite H. Qed.

Lemma nonce_bytes_length (n : Z) : blen (nonce_bytes n) = 12.
Proof. unfold nonce_bytes. rewrite blen_app. unfold blen. by rewrite length_be_encode. Qed.

(** A cipher state in use: open, with a key, its nonce in range *)
Definition cipher_live (c : CipherState) : Prop := cs_closed c = false /\ blen (cs_key c) = 32 /\ 0 <= cs_nonce c <= MAX_NONCE.

(** One message: sealed at one end and opened at the other with equal states,
    the states stay equal and only the nonce advances. *)
Lemma encrypt_decrypt (c : CipherState) (p ad : bytes) :
  cipher_live c -> cs_nonce c < MAX_NONCE -> blen p <= MAX_MESSAGE_SIZE - 16 -> blen ad <= MAX_ASSOCIATED_DATA ->
  exists m, encrypt c (PBytes p) (PBytes ad) = (advance c, Ok m) /\ blen m = blen p + 16
    /\ decrypt c (PBytes m) (PBytes ad) = (advance c, Ok p).
Proof.
  intros (Hc & Hk & Hn) Hlt Hp Ha. unfold MAX_MESSAGE_SIZE, MAX_ASSOCIATED_DATA in *.
  destruct (encrypt_total (cs_key c) (nonce_bytes (cs_nonce c)) p ad) as (m & Em & Hm);
    [done | apply nonce_bytes_length | lia | lia |].
  exists m. pose proof (blen_nonneg p). unfold encrypt, decrypt, ready, MAX_MESSAGE_SIZE, MAX_ASSOCIATED_DATA. rewrite Hc.
  replace (65535 <? blen ad) with false by lia. replace (65535 <? blen p) with false by lia.
  replace (65535 - 16 <? blen p) with false by lia. replace (65535 <? blen m) with false by lia.
  replace (blen m <? 16) with false by lia. replace (MAX_NONCE <=? cs_nonce c) with false by lia. cbn [orb andb negb].
  rewrite Em, (decrypt_encrypt _ _ _ _ _ Em). done.
Qed.

Lemma advance_live (c : CipherState) : cipher_live c -> cs_nonce c < MAX_NONCE -> cipher_live (advance c).
Proof. intros (H1 & H2 & H3) H. unfold cipher_live, advance; cbn. repeat split; try done; lia. Qed.

Lemma hash_step (s : Handshake) (c : CipherState) (p : bytes) :
  hs_cipher s = Some c -> cipher_live c -> cs_nonce c < MAX_NONCE -> blen p <= MAX_MESSAGE_SIZE - 16 -> blen (hs_h s) = 32 ->
  exists m, encrypt_and_hash s p = (mix_hash (set_cipher s (advance c)) m, Ok m) /\ blen m = blen p + 16
    /\ decrypt_and_hash s m = (mix_hash (set_cipher s (advance c)) m, Ok p).
Proof.
  intros Hs Hc Hn Hp Hh. destruct (encrypt_decrypt c p (hs_h s) Hc Hn Hp) as (m & E & Hm & D);
    [unfold MAX_ASSOCIATED_DATA; lia |].
  exists m. unfold encrypt_and_hash, decrypt_and_hash. by rewrite Hs, E, D.
Qed.

(** Both ends mix the same Diffie-Hellman secret. *)
Lemma dh_agrees (a b : priv) : dh a (public_bytes b) = dh b (public_bytes a).
Proof. unfold dh. by rewrite !public_length, exchange_agrees. Qed.

Lemma mix_key_ok (s : Handshake) (d : bytes) :
  mix_key s d = Ok (mkHandshake (hs_h s) (fst (hkdf (hs_ck s) d)) (hs_closed s) (hs_transport s)
                      (Some (mkCipher (snd (hkdf (hs_ck s) d)) 0 false))).
Proof. unfold mix_key, hkdf. cbn [fst snd]. rewrite new_cipher_ok by apply blen_hmac. done. Qed.

Lemma fresh_live (k : bytes) : blen k = 32 -> cipher_live (mkCipher k 0 false).
Proof. intros H. unfold cipher_live, MAX_NONCE; cbn. repeat split; try done; lia. Qed.

(** The two bodies run in step and leave the same handshake. *)
Lemma bodies_agree (s : Handshake) (st er ei : priv) (p d1 d2 : bytes) :
  blen (hs_h s) = 32 -> blen p <= MAX_MESSAGE_SIZE - 96 ->
  dh er (public_bytes ei) = Ok d1 -> dh st (public_bytes ei) = Ok d2 ->
  exists s' c1 c2, write2_body s st er (public_bytes ei) p = (s', Ok (c1, c2)) /\ blen c1 = 48 /\ blen c2 = blen p + 16
    /\ read2_body s ei (public_bytes er) (public_bytes er ++ c1 ++ c2) = (s', Ok (public_bytes st, p))
    /\ hs_closed s' = hs_closed s /\ blen (hs_h s') = 32.
Proof.
  intros Hh Hp D1 D2. unfold MAX_MESSAGE_SIZE in *. unfold write2_body, read2_body.
  rewrite (dh_agrees ei er), D1. cbn [rbind]. rewrite mix_key_ok. set (k1 := snd (hkdf (hs_ck s) d1)).
  set (s1 := mkHandshake _ _ _ _ _).
  destruct (hash_step s1 (mkCipher k1 0 false) (public_bytes st)) as (c1 & E1 & L1 & R1);
    [done | apply fresh_live, blen_hmac | done | rewrite public_length; done | done |].
  rewrite public_length in L1. rewrite E1. set (s2 := mix_hash _ c1) in *.
  assert (Hpl : forall c2, slice 32 80 (public_bytes er ++ c1 ++ c2) = c1).
  { intros c2. apply slice_app_mid; [by rewrite public_length | by rewrite L1]. }
  assert (Hsf : forall c2, slice_from 80 (public_bytes er ++ c1 ++ c2) = c2).
  { intros c2. rewrite app_assoc. apply slice_from_app. rewrite blen_app, public_length, L1. done. }
  rewrite D2. cbn [rbind]. rewrite mix_key_ok. set (k2 := snd (hkdf (hs_ck s2) d2)). set (s3 := mkHandshake (hs_h s2) _ _ _ _).
  destruct (hash_step s3 (mkCipher k2 0 false) p) as (c2 & E2 & L2 & R2);
    [done | apply fresh_live, blen_hmac | done | unfold MAX_MESSAGE_SIZE; lia | apply blen_sha256 |].
  rewrite E2. eexists _, c1, c2. split; [reflexivity |]. split; [lia |]. split; [done |].
  rewrite Hpl, R1. rewrite public_length. cbn [Z.eqb Pos.eqb negb]. rewrite (dh_agrees ei st), D2. cbn [rbind].
  rewrite mix_key_ok. fold k2. fold s3. rewrite Hsf, R2. split; [done |]. split; [done |]. apply blen_sha256.
Qed.

Lemma finish_ok (s : Handshake) (rs : bytes) (ini : bool) :
  exists k1 k2, blen k1 = 32 /\ blen k2 = 32 /\ hkdf (hs_ck s) [] = (k1, k2)
    /\ finish s rs ini
       = Ok (mkHandshake (hs_h s) (hs_ck s) (hs_closed s)
               (Some (if ini then mkTransport (mkCipher k1 0 false) (mkCipher k2 0 false) (hs_h s) rs
                      else mkTransport (mkCipher k2 0 false) (mkCipher k1 0 false) (hs_h s) rs)) (hs_cipher s)).
Proof.
  unfold finish, hkdf. eexists _, _. split; [apply blen_hmac |]. split; [apply blen_hmac |]. split; [reflexivity |].
  rewrite !new_cipher_ok by apply blen_hmac. by destruct ini.
Qed.

(** ** Reachable handshakes *)

Inductive initiator_step : NXInitiator -> NXInitiator -> Prop :=
| I_write s p s' r : write_message1 s p = (s', r) -> initiator_step s s'
| I_read s m s' r : read_message2 s m = (s', r) -> initiator_step s s'
| I_take s s' r : i_take_transport s = (s', r) -> initiator_step s s'
| I_destroy s : initiator_step s (i_destroy s).

Inductive responder_step : NXResponder -> NXResponder -> Prop :=
| R_read s m s' r : read_message1 s m = (s', r) -> responder_step s s'
| R_write s p g s' r : write_message2 s p g = (s', r) -> responder_step s s'
| R_take s s' r : r_take_transport s = (s', r) -> responder_step s s'
| R_destroy s : responder_step s (r_destroy s).

Inductive initiator_reaches : NXInitiator -> Prop :=
| Ir_new pr e s : new_initiator pr e = Ok s -> initiator_reaches s
| Ir_step s s' : initiator_reaches s -> initiator_step s s' -> initiator_reaches s'.

Inductive responder_reaches : NXResponder -> Prop :=
| Rr_new pr st e s : new_responder pr st e = Ok s -> responder_reaches s
| Rr_step s s' : responder_reaches s -> responder_step s s' -> responder_reaches s'.

(** Nothing secret is left. *)
Definition base_cleared (b : Handshake) : Prop :=
  hs_closed b = true /\ hs_h b = [] /\ hs_ck b = [] /\ hs_transport b = None
  /\ (forall c, hs_cipher b = Some c -> cs_closed c = true /\ cs_key c = []).

Definition i_cleared (s : NXInitiator) : Prop := base_cleared (i_base s) /\ i_e s = None /\ i_re s = None.
Definition r_cleared (s : NXResponder) : Prop := base_cleared (r_base s) /\ r_s s = None /\ r_e s = None /\ r_re s = None.

Definition i_open (s : NXInitiator) : Prop :=
  hs_closed (i_base s) = false /\ is_Some (i_e s)
  /\ (is_Some (hs_transport (i_base s)) <-> is_Some (i_re s)) /\ (is_Some (i_re s) -> message1_written s = true).
Definition r_open (s : NXResponder) : Prop :=
  hs_closed (r_base s) = false /\ is_Some (r_s s)
  /\ (is_Some (hs_transport (r_base s)) <-> message2_written s = true) /\ (message2_written s = true -> is_Some (r_re s)).

Lemma destroyed_cleared (b : Handshake) : base_cleared (destroyed b).
Proof. repeat (split; [done |]). unfold destroyed; cbn. destruct (hs_cipher b); cbn; [by intros ? [= <-] | done]. Qed.

Lemma i_destroy_cleared (s : NXInitiator) : i_cleared (i_destroy s).
Proof. split; [apply destroyed_cleared | done]. Qed.

Lemma r_destroy_cleared (s : NXResponder) : r_cleared (r_destroy s).
Proof. split; [apply destroyed_cleared | done]. Qed.

(** What one call does to a live cipher state: it advances it, or destroys it
    and raises the module's error. *)
Definition cipher_outcome {A} (c c' : CipherState) (r : result A) : Prop :=
  match r with
  | Ok _ => cs_nonce c < MAX_NONCE /\ c' = advance c
  | Raise e => c' = cipher_destroy c /\ exn_class e = NoiseNXError
  end.

Lemma ready_outcome (c : CipherState) (v ad : pyval) (d : bool) :
  cipher_live c ->
  match ready c v ad d with
  | (c', Ok (b, a)) => c' = c /\ v = PBytes b /\ ad = PBytes a /\ cs_nonce c < MAX_NONCE
                       /\ blen a <= MAX_ASSOCIATED_DATA /\ blen b <= MAX_MESSAGE_SIZE
  | (c', Raise e) => c' = cipher_destroy c /\ exn_class e = NoiseNXError
  end.
Proof.
  intros (Hc & _ & _). unfold ready. rewrite Hc. destruct v, ad; try done.
  destruct (Z.ltb_spec MAX_ASSOCIATED_DATA (blen b0)); [done |].
  destruct ((MAX_MESSAGE_SIZE <? blen b) || (negb d && (MAX_MESSAGE_SIZE - 16 <? blen b))) eqn:E; [done |].
  destruct (d && (blen b <? 16)); [done |]. destruct (Z.leb_spec MAX_NONCE (cs_nonce c)); [done |].
  apply orb_false_iff in E as [E _]. apply Z.ltb_ge in E. done.
Qed.

Lemma encrypt_outcome (c : CipherState) (v ad : pyval) :
  cipher_live c -> cipher_outcome c (fst (encrypt c v ad)) (snd (encrypt c v ad)).
Proof.
  intros H. pose proof (ready_outcome c v ad false H) as R. unfold encrypt. destruct (ready c v ad false) as [c1 [[b a] | e]]; [| done].
  destruct R as (-> & -> & -> & Hn & Ha & Hb). destruct H as (Hc & Hk & Hr).
  destruct (encrypt_total (cs_key c) (nonce_bytes (cs_nonce c)) b a) as (m & -> & _);
    [done | apply nonce_bytes_length | done | done | done].
Qed.

Lemma decrypt_outcome (c : CipherState) (v ad : pyval) :
  cipher_live c -> cipher_outcome c (fst (decrypt c v ad)) (snd (decrypt c v ad)).
Proof.
  intros H. pose proof (ready_outcome c v ad true H) as R. unfold decrypt. destruct (ready c v ad true) as [c1 [[b a] | e]]; [| done].
  destruct R as (-> & -> & -> & Hn & Ha & Hb).
  destruct (aesgcm_decrypt (cs_key c) (nonce_bytes (cs_nonce c)) b a) as [m | e] eqn:E; [done |].
  by rewrite (decrypt_throws _ _ _ _ e E).
Qed.

Lemma hash_raises (s s' : Handshake) (c : CipherState) (p : bytes) (e : exn) :
  hs_cipher s = Some c -> cipher_live c ->
  encrypt_and_hash s p = (s', Raise e) \/ decrypt_and_hash s p = (s', Raise e) -> exn_class e = NoiseNXError.
Proof.
  intros Hs Hc. unfold encrypt_and_hash, decrypt_and_hash. rewrite Hs.
  pose proof (encrypt_outcome c (PBytes p) (PBytes (hs_h s)) Hc) as H1.
  pose proof (decrypt_outcome c (PBytes p) (PBytes (hs_h s)) Hc) as H2.
  destruct (encrypt c _ _) as [c1 [m1 | e1]], (decrypt c _ _) as [c2 [m2 | e2]]; intros [E | E]; try done;
    injection E as <- <-; [apply H2 | apply H1 | apply H1 | apply H2].
Qed.

Lemma dh_throws (a : priv) (p : bytes) : throws [NoiseNXError] (dh a p).
Proof.
  unfold dh. throws_tac. apply (throws_mono [PyTypeError; PyValueError]); [apply exchange_throws |]. class_incl.
Qed.

Lemma dh_mix_raises (s : Handshake) (a : priv) (p : bytes) (e : exn) :
  (let! d := dh a p in mix_key s d) = Raise e -> exc_isa (exn_class e) NoiseNXError = true.
Proof.
  destruct (dh a p) as [d | x] eqn:E; cbn [rbind]; [by rewrite mix_key_ok |]. intros [= <-].
  pose proof (dh_throws a p x E) as H. cbn [existsb] in H. by rewrite orb_false_r in H.
Qed.

(** A key just mixed in gives a live cipher. *)
Lemma mix_key_live (s s' : Handshake) (a : priv) (p : bytes) :
  (let! d := dh a p in mix_key s d) = Ok s' ->
  hs_closed s' = hs_closed s /\ hs_transport s' = hs_transport s /\ exists c, hs_cipher s' = Some c /\ cipher_live c.
Proof.
  destruct (dh a p) as [d | x]; cbn [rbind]; [| done]. rewrite mix_key_ok. intros [= <-]. split; [done |]. split; [done |].
  eexists. split; [reflexivity |]. apply fresh_live, blen_hmac.
Qed.

Lemma hash_frame (s s' : Handshake) (p : bytes) (r : result bytes) :
  encrypt_and_hash s p = (s', r) \/ decrypt_and_hash s p = (s', r) ->
  hs_closed s' = hs_closed s /\ hs_transport s' = hs_transport s.
Proof.
  unfold encrypt_and_hash, decrypt_and_hash. destruct (hs_cipher s) as [c |]; [| intros [[= <- _] | [= <- _]]; done].
  destruct (encrypt c _ _) as [c1 [? | ?]], (decrypt c _ _) as [c2 [? | ?]]; intros [[= <- _] | [= <- _]]; done.
Qed.

Lemma read2_outcome (s : Handshake) (e : priv) (re raw : bytes) :
  match read2_body s e re raw with
  | (s', Ok _) => hs_closed s' = hs_closed s
  | (s', Raise x) => exc_isa (exn_class x) NoiseNXError = true
  end.
Proof.
  unfold read2_body. destruct (let! d := dh e re in mix_key s d) as [s1 | x] eqn:E1; [| by apply dh_mix_raises in E1].
  apply mix_key_live in E1 as (C1 & _ & c1 & Hc1 & L1). destruct (decrypt_and_hash s1 (slice 32 80 raw)) as [s2 [rs | x]] eqn:E2.
  2: { by rewrite (hash_raises s1 s2 c1 _ x Hc1 L1 (or_intror E2)). }
  pose proof (hash_frame s1 s2 _ _ (or_intror E2)) as [C2 _].
  destruct (negb (blen rs =? 32)); [done |].
  destruct (let! d := dh e rs in mix_key s2 d) as [s3 | x] eqn:E3; [| by apply dh_mix_raises in E3].
  apply mix_key_live in E3 as (C3 & _ & c3 & Hc3 & L3). destruct (decrypt_and_hash s3 (slice_from 80 raw)) as [s4 [pl | x]] eqn:E4.
  - pose proof (hash_frame s3 s4 _ _ (or_intror E4)) as [C4 _]. congruence.
  - by rewrite (hash_raises s3 s4 c3 _ x Hc3 L3 (or_intror E4)).
Qed.

Lemma write2_outcome (s : Handshake) (st e : priv) (re p : bytes) :
  match write2_body s st e re p with
  | (s', Ok _) => hs_closed s' = hs_closed s
  | (s', Raise x) => exc_isa (exn_class x) NoiseNXError = true
  end.
Proof.
  unfold write2_body. destruct (let! d := dh e re in mix_key s d) as [s1 | x] eqn:E1; [| by apply dh_mix_raises in E1].
  apply mix_key_live in E1 as (C1 & _ & c1 & Hc1 & L1). destruct (encrypt_and_hash s1 (public_bytes st)) as [s2 [c | x]] eqn:E2.
  2: { by rewrite (hash_raises s1 s2 c1 _ x Hc1 L1 (or_introl E2)). }
  pose proof (hash_frame s1 s2 _ _ (or_introl E2)) as [C2 _].
  destruct (let! d := dh st re in mix_key s2 d) as [s3 | x] eqn:E3; [| by apply dh_mix_raises in E3].
  apply mix_key_live in E3 as (C3 & _ & c3 & Hc3 & L3). destruct (encrypt_and_hash s3 p) as [s4 [pl | x]] eqn:E4.
  - pose proof (hash_frame s3 s4 _ _ (or_introl E4)) as [C4 _]. congruence.
  - by rewrite (hash_raises s3 s4 c3 _ x Hc3 L3 (or_introl E4)).
Qed.

Lemma write1_outcome (s : NXInitiator) (p : pyval) :
  i_open s \/ i_cleared s ->
  match write_message1 s p with (s', Ok _) => i_open s /\ i_open s' | (s', Raise _) => i_cleared s' end.
Proof.
  unfold write_message1. intros H. destruct p; try apply i_destroy_cleared.
  destruct (hs_closed (i_base s) || message1_written s || (MAX_MESSAGE_SIZE - 32 <? blen b)) eqn:E; [apply i_destroy_cleared |].
  apply orb_false_iff in E as [[E1 E2]%orb_false_iff _].
  destruct H as [(H1 & [e He] & H3 & H4) | ((H1 & _) & _)]; [| congruence]. rewrite He.
  split; [by unfold i_open; rewrite He |]. unfold i_open; cbn. split; [done |]. split; [done |].
  split; [apply H3 | done].
Qed.

Lemma read_message2_outcome (s : NXInitiator) (m : pyval) :
  i_open s \/ i_cleared s ->
  match read_message2 s m with (s', Ok _) => i_open s /\ i_open s' | (s', Raise _) => i_cleared s' end.
Proof.
  unfold read_message2. intros H. destruct m; try apply i_destroy_cleared.
  destruct (hs_closed (i_base s) || (MAX_MESSAGE_SIZE <? blen b)) eqn:E; [apply i_destroy_cleared |].
  apply orb_false_iff in E as [E1 _].
  destruct (negb (message1_written s) || bool_decide (i_re s <> None) || (blen b <? 32 + 48)) eqn:E2; [apply i_destroy_cleared |].
  apply orb_false_iff in E2 as [[E2%negb_false_iff E3]%orb_false_iff _].
  destruct H as [Ho | ((H1 & _) & _)]; [| congruence]. pose proof Ho as (H1 & [e He] & H3 & H4). rewrite He.
  pose proof (read2_outcome (mix_hash (i_base s) (slice_to 32 b)) e (slice_to 32 b) b) as R.
  destruct (read2_body _ _ _ _) as [b1 [[rs pl] | x]]; [| rewrite R; apply i_destroy_cleared].
  destruct (finish_ok b1 rs true) as (k1 & k2 & _ & _ & _ & ->). split; [done |]. unfold i_open; cbn.
  split; [by rewrite R |]. split; [done |]. split; [done |]. by intros _.
Qed.

Lemma read1_outcome (s : NXResponder) (m : pyval) :
  r_open s \/ r_cleared s ->
  match read_message1 s m with (s', Ok _) => r_open s /\ r_open s' | (s', Raise _) => r_cleared s' end.
Proof.
  unfold read_message1. intros H. destruct m; try apply r_destroy_cleared.
  destruct (hs_closed (r_base s) || (MAX_MESSAGE_SIZE <? blen b)) eqn:E; [apply r_destroy_cleared |].
  apply orb_false_iff in E as [E1 _].
  destruct (bool_decide (r_re s <> None) || (blen b <? 32)); [apply r_destroy_cleared |].
  destruct H as [Ho | ((H1 & _) & _)]; [| congruence]. split; [done |]. destruct Ho as (H1 & H2 & H3 & H4).
  unfold r_open; cbn. split; [done |]. split; [done |]. split; [done |]. intros _. done.
Qed.

Lemma write_message2_outcome (s : NXResponder) (p : pyval) (g : priv) :
  r_open s \/ r_cleared s ->
  match write_message2 s p g with (s', Ok _) => r_open s /\ r_open s' | (s', Raise _) => r_cleared s' end.
Proof.
  unfold write_message2. intros H. destruct p; try apply r_destroy_cleared.
  destruct (r_re s) as [re |] eqn:Er; [| apply r_destroy_cleared].
  destruct (hs_closed (r_base s) || message2_written s || (MAX_MESSAGE_SIZE - 96 <? blen b)) eqn:E; [apply r_destroy_cleared |].
  apply orb_false_iff in E as [[E1 E2]%orb_false_iff _].
  destruct H as [Ho | ((H1 & _) & _)]; [| congruence]. pose proof Ho as (H1 & [st Hs] & H3 & H4). rewrite Hs.
  match goal with |- context [write2_body ?a ?x ?e ?r ?q] => pose proof (write2_outcome a x e r q) as R; destruct (write2_body a x e r q) as [b1 [[c1 c2] | x1]] end.
  - destruct (finish_ok b1 [] false) as (k1 & k2 & _ & _ & _ & ->). split; [done |]. unfold r_open; cbn.
    split; [by rewrite R |]. split; [done |]. split; [done |]. done.
  - rewrite R. apply r_destroy_cleared.
Qed.

Lemma taken_cleared (s : Handshake) : base_cleared (taken s).
Proof. by repeat split. Qed.

Lemma i_take_outcome (s : NXInitiator) :
  i_open s \/ i_cleared s ->
  match i_take_transport s with (s', Ok _) => i_open s /\ i_cleared s' | (s', Raise _) => s' = s end.
Proof.
  intros H. unfold i_take_transport. destruct (hs_closed (i_base s)) eqn:Ec; [done |].
  destruct (hs_transport (i_base s)); [| done]. destruct H as [H | ((H & _) & _)]; [| congruence].
  split; [done |]. split; [apply taken_cleared | done].
Qed.

Lemma r_take_outcome (s : NXResponder) :
  r_open s \/ r_cleared s ->
  match r_take_transport s with (s', Ok _) => r_open s /\ r_cleared s' | (s', Raise _) => s' = s end.
Proof.
  intros H. unfold r_take_transport. destruct (hs_closed (r_base s)) eqn:Ec; [done |].
  destruct (hs_transport (r_base s)); [| done]. destruct H as [H | ((H & _) & _)]; [| congruence].
  split; [done |]. split; [apply taken_cleared | done].
Qed.

Lemma new_handshake_base (pr : pyval) (b : Handshake) :
  new_handshake pr = Ok b -> hs_closed b = false /\ hs_transport b = None /\ blen (hs_h b) = 32.
Proof.
  unfold new_handshake. destruct pr; try discriminate 1. intros H. inv_ok. repeat split. apply blen_sha256.
Qed.

Lemma initiator_reaches_cases (s : NXInitiator) : initiator_reaches s -> i_open s \/ i_cleared s.
Proof.
  induction 1 as [pr e s H | s s' _ IH S].
  - left. unfold new_initiator in H. inv_ok. apply new_handshake_base in E as (H1 & H2 & _). unfold i_open; cbn.
    split; [done |]. split; [done |]. rewrite H2. done.
  - destruct S as [s p s' r E | s m s' r E | s s' r E | s]; [| | | right; apply i_destroy_cleared].
    + pose proof (write1_outcome s p IH) as O. rewrite E in O. destruct r; [left; apply O | by right].
    + pose proof (read_message2_outcome s m IH) as O. rewrite E in O. destruct r; [left; apply O | by right].
    + pose proof (i_take_outcome s IH) as O. rewrite E in O. destruct r; [right; apply O | by subst].
Qed.

Lemma responder_reaches_cases (s : NXResponder) : responder_reaches s -> r_open s \/ r_cleared s.
Proof.
  induction 1 as [pr st e s H | s s' _ IH S].
  - left. unfold new_responder in H. inv_ok. apply new_handshake_base in E as (H1 & H2 & _). unfold r_open; cbn.
    split; [done |]. split; [done |]. rewrite H2. split; [split; [by intros [? [=]] | done] | done].
  - destruct S as [s m s' r E | s p g s' r E | s s' r E | s]; [| | | right; apply r_destroy_cleared].
    + pose proof (read1_outcome s m IH) as O. rewrite E in O. destruct r; [left; apply O | by right].
    + pose proof (write_message2_outcome s p g IH) as O. rewrite E in O. destruct r; [left; apply O | by right].
    + pose proof (r_take_outcome s IH) as O. rewrite E in O. destruct r; [right; apply O | by subst].
Qed.

(** ** Sequences of messages through one direction *)

Fixpoint encrypt_all (c : CipherState) (ms : list (bytes * bytes)) : CipherState * result (list bytes) :=
  match ms with
  | [] => (c, Ok [])
  | (p, ad) :: r =>
      match encrypt c (PBytes p) (PBytes ad) with
      | (c1, Raise e) => (c1, Raise e)
      | (c1, Ok m) => match encrypt_all c1 r with
                      | (c2, Raise e) => (c2, Raise e)
                      | (c2, Ok l) => (c2, Ok (m :: l))
                      end
      end
  end.

Fixpoint decrypt_all (c : CipherState) (ms : list (bytes * bytes)) : CipherState * result (list bytes) :=
  match ms with
  | [] => (c, Ok [])
  | (m, ad) :: r =>
      match decrypt c (PBytes m) (PBytes ad) with
      | (c1, Raise e) => (c1, Raise e)
      | (c1, Ok p) => match decrypt_all c1 r with
                      | (c2, Raise e) => (c2, Raise e)
                      | (c2, Ok l) => (c2, Ok (p :: l))
                      end
      end
  end.

(** What can be done to a cipher state, in any order and whatever each call
    answers: it is left as the call leaves it. *)
Inductive cipher_call : Type :=
| Encrypt (plaintext associated_data : pyval)
| Decrypt (ciphertext associated_data : pyval)
| Destroy.

Definition cipher_step (c : CipherState) (o : cipher_call) : CipherState :=
  match o with
  | Encrypt p ad => fst (encrypt c p ad)
  | Decrypt m ad => fst (decrypt c m ad)
  | Destroy => cipher_destroy c
  end.

Definition cipher_run (c : CipherState) (calls : list cipher_call) : CipherState := fold_left cipher_step calls c.

(** The [i]th of the calls is [encrypt p ad], and [r] is what it answers. *)
Definition encrypts (c : CipherState) (calls : list cipher_call) (i : nat) (p ad : pyval) (r : result bytes) : Prop :=
  calls !! i = Some (Encrypt p ad) /\ snd (encrypt (cipher_run c (take i calls)) p ad) = r.

Lemma nonce_bytes_inj (a b : Z) : 0 <= a <= MAX_NONCE -> 0 <= b <= MAX_NONCE -> nonce_bytes a = nonce_bytes b -> a = b.
Proof.
  unfold nonce_bytes, MAX_NONCE. intros Ha Hb E%app_inv_head.
  rewrite <- (be_decode_encode 8 a), <- (be_decode_encode 8 b), E by (change (256 ^ Z.of_nat 8) with (2 ^ 64); lia). done.
Qed.

(** The key is the first one until the state is closed for good; the nonce only
    grows. *)
Definition cipher_after (c c' : CipherState) : Prop :=
  cs_nonce c <= cs_nonce c' /\ (cs_closed c = true -> cs_closed c' = true)
  /\ (cs_closed c' = false -> cs_key c' = cs_key c).

#[export] Instance cipher_after_preorder : PreOrder cipher_after.
Proof.
  split; [intros c; by unfold cipher_after |]. unfold cipher_after. intros a b c (N1 & C1 & K1) (N2 & C2 & K2).
  split; [lia |]. split; [tauto |]. intros H. rewrite (K2 H). apply K1. destruct (cs_closed b); [by rewrite C2 in H | done].
Qed.

Lemma destroy_after (c : CipherState) : cipher_after c (cipher_destroy c).
Proof. by unfold cipher_after; cbn. Qed.

Lemma advance_after (c : CipherState) : cipher_after c (advance c).
Proof. unfold cipher_after; cbn. repeat split; [lia | done]. Qed.

Lemma ready_cases (c : CipherState) (v ad : pyval) (d : bool) :
  match ready c v ad d with
  | (c', Ok (b, a)) => c' = c /\ v = PBytes b /\ ad = PBytes a /\ cs_closed c = false /\ cs_nonce c < MAX_NONCE
  | (c', Raise e) => cipher_after c c' /\ cs_closed c' = true /\ exn_class e = NoiseNXError
  end.
Proof.
  destruct (cs_closed c) eqn:Hc; [unfold ready; by rewrite Hc |].
  unfold ready. rewrite Hc. pose proof (destroy_after c). destruct v, ad; try done.
  destruct (MAX_ASSOCIATED_DATA <? blen b0); [done |].
  destruct ((MAX_MESSAGE_SIZE <? blen b) || (negb d && (MAX_MESSAGE_SIZE - 16 <? blen b))); [done |].
  destruct (d && (blen b <? 16)); [done |]. by destruct (Z.leb_spec MAX_NONCE (cs_nonce c)).
Qed.

(** A seal that answers used the current nonce and moves on; one that raises an
    exception leaves the state closed. *)
Lemma encrypt_cases (c : CipherState) (p ad : pyval) :
  match encrypt c p ad with
  | (c', Ok r) => c' = advance c /\ cs_closed c = false /\ cs_nonce c < MAX_NONCE
      /\ exists v a, p = PBytes v /\ ad = PBytes a /\ aesgcm_encrypt (cs_key c) (nonce_bytes (cs_nonce c)) v a = Ok r
  | (c', Raise e) => cipher_after c c' /\ (exc_isa (exn_class e) PyException = true -> cs_closed c' = true)
  end.
Proof.
  unfold encrypt. pose proof (ready_cases c p ad false) as R. destruct (ready c p ad false) as [c1 [[v a] | e]].
  - destruct R as (-> & -> & -> & Hc & Hn). destruct (aesgcm_encrypt _ _ v a) as [r | e] eqn:E; [eauto 10 |].
    destruct (exc_isa (exn_class e) PyException) eqn:X; [split; [apply destroy_after | done] |].
    split; [reflexivity | by rewrite X].
  - destruct R as (A & C & _). done.
Qed.

Lemma decrypt_after (c : CipherState) (m ad : pyval) : cipher_after c (fst (decrypt c m ad)).
Proof.
  unfold decrypt. pose proof (ready_cases c m ad true) as R. destruct (ready c m ad true) as [c1 [[v a] | e]]; [| apply R].
  destruct R as (-> & _). destruct (aesgcm_decrypt _ _ v a); [apply advance_after |].
  destruct (existsb _ _); [apply destroy_after | reflexivity].
Qed.

Lemma cipher_step_after (c : CipherState) (o : cipher_call) : cipher_after c (cipher_step c o).
Proof.
  destruct o as [p ad | m ad |]; cbn [cipher_step]; [| apply decrypt_after | apply destroy_after].
  pose proof (encrypt_cases c p ad) as E. destruct (encrypt c p ad) as [c' [r | e]]; [| apply E].
  destruct E as (-> & _). apply advance_after.
Qed.

Lemma cipher_run_after (calls : list cipher_call) (c : CipherState) : cipher_after c (cipher_run c calls).
Proof.
  revert c. induction calls as [|o calls IH]; intros c; [reflexivity |]. etrans; [apply cipher_step_after | apply IH].
Qed.

(** The state an earlier call leaves is before the one a later call finds. *)
Lemma cipher_run_take (c : CipherState) (calls : list cipher_call) (i j : nat) (o : cipher_call) :
  calls !! i = Some o -> (i < j)%nat ->
  cipher_after (cipher_step (cipher_run c (take i calls)) o) (cipher_run c (take j calls)).
Proof.
  intros Hi Hj. replace (take j calls) with (take i calls ++ o :: drop (S i) (take j calls)).
  - unfold cipher_run at 2. rewrite fold_left_app. apply cipher_run_after.
  - rewrite <- (take_drop_middle (take j calls) i o) at 2 by (by rewrite lookup_take_lt).
    by rewrite take_take, Nat.min_l by lia.
Qed.

Lemma closed_encrypt (c : CipherState) (p ad : pyval) :
  cs_closed c = true -> snd (encrypt c p ad) = Raise (noise_error "CipherState is closed").
Proof. intros H. unfold encrypt, ready. by rewrite H. Qed.

(** ** Properties *)

(** C3: two honest ends with the same prologue complete the
    handshake: each call succeeds, both payloads arrive unchanged, the initiator
    learns the responder's static key, the handshake hashes are equal, and the
    send state of each end is the receive state of the other, fresh. *)
Theorem handshake_agrees (prologue p1 p2 static d1 d2 : bytes) (ei g st : priv) (eb : option pyval)
    (i : NXInitiator) (r : NXResponder) :
  new_initiator (PBytes prologue) (inr ei) = Ok i -> new_responder (PBytes prologue) (PBytes static) eb = Ok r ->
  r_s r = Some st -> blen p1 <= MAX_MESSAGE_SIZE - 32 -> blen p2 <= MAX_MESSAGE_SIZE - 96 ->
  exchange ei (public_bytes (default g (r_e r))) = Ok d1 -> exchange ei (public_bytes st) = Ok d2 ->
  exists i1 m1 r1 r2 m2 i2 i3 r3 ti tr,
    write_message1 i (PBytes p1) = (i1, Ok m1) /\ read_message1 r (PBytes m1) = (r1, Ok p1)
    /\ write_message2 r1 (PBytes p2) g = (r2, Ok m2) /\ read_message2 i1 (PBytes m2) = (i2, Ok p2)
    /\ i_take_transport i2 = (i3, Ok ti) /\ r_take_transport r2 = (r3, Ok tr)
    /\ handshake_hash ti = handshake_hash tr /\ send ti = receive tr /\ receive ti = send tr
    /\ remote_static_public_key ti = public_bytes st
    /\ cipher_live (send ti) /\ cipher_live (receive ti) /\ cs_nonce (send ti) = 0 /\ cs_nonce (receive ti) = 0.
Proof.
  unfold new_initiator, new_responder. intros Hi Hr Hst Hp1 Hp2 D1 D2. inv_ok. cbn [r_s r_e] in *. injection Hst as ->.
  pose proof E as (Hcl & Htr & Hh)%new_handshake_base. unfold MAX_MESSAGE_SIZE in *.
  pose proof (blen_nonneg p1). pose proof (blen_nonneg p2). set (er := default g a1) in *.
  assert (X1 : dh er (public_bytes ei) = Ok d1) by (rewrite <- dh_agrees; unfold dh; by rewrite public_length, D1).
  assert (X2 : dh st (public_bytes ei) = Ok d2) by (rewrite <- dh_agrees; unfold dh; by rewrite public_length, D2).
  set (b1 := mix_hash (mix_hash a2 (public_bytes ei)) p1).
  destruct (bodies_agree (mix_hash b1 (public_bytes er)) st er ei p2 d1 d2 (blen_sha256 _)) as (b2 & c1 & c2 & W & L1 & L2 & R & C & Hb2);
    [unfold MAX_MESSAGE_SIZE; lia | done | done |]. change (hs_closed b2 = hs_closed a2) in C. rewrite Hcl in C.
  destruct (finish_ok b2 (public_bytes st) true) as (k1 & k2 & K1 & K2 & Kh & F1).
  destruct (finish_ok b2 [] false) as (k1' & k2' & _ & _ & Kh' & F2). rewrite Kh in Kh'. injection Kh' as <- <-.
  do 10 eexists. split.
  { unfold write_message1. cbn [i_base message1_written i_e]. rewrite Hcl. unfold MAX_MESSAGE_SIZE.
    replace (65535 - 32 <? blen p1) with false by lia. reflexivity. }
  split.
  { unfold read_message1. cbn [r_base r_re r_s r_e message2_written]. rewrite Hcl. unfold MAX_MESSAGE_SIZE.
    rewrite (proj2 (Z.ltb_ge 65535 _)) by (rewrite blen_app, public_length; lia).
    rewrite bool_decide_false by (by intros []). rewrite (proj2 (Z.ltb_ge _ 32)) by (rewrite blen_app, public_length; lia).
    cbn [orb]. rewrite slice_to_app, slice_from_app by apply public_length. reflexivity. }
  split.
  { unfold write_message2. cbn [r_base r_re r_s r_e message2_written hs_closed mix_hash]. rewrite Hcl. unfold MAX_MESSAGE_SIZE.
    replace (65535 - 96 <? blen p2) with false by lia. cbn [orb]. fold er. fold b1. rewrite W, F2. reflexivity. }
  split.
  { unfold read_message2. cbn [i_base message1_written i_re i_e hs_closed mix_hash]. rewrite Hcl. unfold MAX_MESSAGE_SIZE.
    rewrite (proj2 (Z.ltb_ge 65535 _)) by (rewrite !blen_app, public_length; lia).
    rewrite bool_decide_false by (by intros []).
    rewrite (proj2 (Z.ltb_ge _ (32 + 48))) by (rewrite !blen_app, public_length; lia).
    cbn [orb negb]. rewrite slice_to_app by apply public_length. fold b1. rewrite R, F1. reflexivity. }
  split; [unfold i_take_transport; cbn [i_base hs_closed hs_transport]; rewrite C; reflexivity |].
  split; [unfold r_take_transport; cbn [r_base hs_closed hs_transport]; rewrite C; reflexivity |].
  repeat (split; [first [reflexivity | by apply fresh_live] |]). reflexivity.
Qed.

(** Messages sealed in order by one end are opened in order by
    the other to the same messages; both states advance by the number of
    messages. *)
Theorem transport_in_order (c : CipherState) (ms : list (bytes * bytes)) :
  cipher_live c -> cs_nonce c + blen ms <= MAX_NONCE ->
  Forall (fun m => blen (fst m) <= MAX_MESSAGE_SIZE - 16 /\ blen (snd m) <= MAX_ASSOCIATED_DATA) ms ->
  exists cs c', encrypt_all c ms = (c', Ok cs) /\ decrypt_all c (zip cs (map snd ms)) = (c', Ok (map fst ms))
    /\ length cs = length ms /\ cs_nonce c' = cs_nonce c + blen ms.
Proof.
  revert c. induction ms as [|[p ad] ms IH]; intros c Hc Hn Hs.
  { exists [], c. repeat split; try done. unfold blen; cbn [length]. lia. }
  apply Forall_cons in Hs as [[Hp Ha] Hs]. cbn [fst snd] in Hp, Ha. unfold blen in Hn. cbn [length] in Hn.
  destruct (encrypt_decrypt c p ad Hc ltac:(lia) Hp Ha) as (m & E & _ & D).
  destruct (IH (advance c)) as (cs & c' & E2 & D2 & Hl & Hn2); [apply advance_live; [done | lia] | unfold blen; cbn [cs_nonce advance]; lia | done |].
  exists (m :: cs), c'. cbn [encrypt_all decrypt_all map zip fst snd]. rewrite E, E2. cbn [zip_with]. rewrite D, D2.
  repeat split; [cbn; lia |]. unfold blen in *. cbn [length advance cs_nonce] in *. lia.
Qed.

(** C7: whatever AES-GCM answers, in any order of calls on a new cipher state
    (messages sealed, messages opened, the state destroyed, refusals and failures
    among them), each message the state seals is sealed by AES-GCM under the
    state's key and a nonce of its own: no two answered [encrypt] calls have the
    same twelve bytes.  An [encrypt] that raises an exception, also one AES-GCM
    raises, is the last to reach AES-GCM: every later one finds the state
    closed. *)
Theorem nonces_never_repeat (key : bytes) (c : CipherState) (calls : list cipher_call) :
  new_cipher (PBytes key) = Ok c ->
  (exists nonce : nat -> bytes,
      (forall i p ad r, encrypts c calls i p ad (Ok r) ->
         exists v a, p = PBytes v /\ ad = PBytes a /\ aesgcm_encrypt key (nonce i) v a = Ok r)
      /\ (forall i j p ad r p' ad' r', encrypts c calls i p ad (Ok r) -> encrypts c calls j p' ad' (Ok r') -> (i < j)%nat ->
            nonce i <> nonce j))
  /\ (forall i j p ad e p' ad' r, encrypts c calls i p ad (Raise e) -> encrypts c calls j p' ad' r -> (i < j)%nat ->
         exc_isa (exn_class e) PyException = true -> r = Raise (noise_error "CipherState is closed")).
Proof.
  unfold new_cipher. intros H. inv_ok. set (c := mkCipher key 0 false). split.
  - exists (fun i => nonce_bytes (cs_nonce (cipher_run c (take i calls)))). split.
    + intros i p ad r [Hi Hr]. pose proof (encrypt_cases (cipher_run c (take i calls)) p ad) as E.
      destruct (encrypt _ p ad) as [c' r0]; cbn [snd] in Hr; subst r0.
      destruct E as (_ & Hc & _ & v & a & -> & -> & E). exists v, a. repeat split.
      by rewrite (proj2 (proj2 (cipher_run_after (take i calls) c)) Hc) in E.
    + intros i j p ad r p' ad' r' [Hi Hr] [Hj Hr'] Lt X.
      pose proof (cipher_run_after (take i calls) c) as (N0 & _ & _). cbn [cs_nonce c] in N0.
      pose proof (cipher_run_take c calls i j _ Hi Lt) as (N & _ & _). cbn [cipher_step] in N.
      pose proof (encrypt_cases (cipher_run c (take i calls)) p ad) as E.
      pose proof (encrypt_cases (cipher_run c (take j calls)) p' ad') as E'.
      destruct (encrypt _ p ad) as [c1 r1], (encrypt _ p' ad') as [c2 r2]; cbn [fst snd] in *; subst r1 r2.
      destruct E as (-> & _ & M & _), E' as (_ & _ & M' & _). cbn [advance cs_nonce] in N.
      apply nonce_bytes_inj in X; lia.
  - intros i j p ad e p' ad' r [Hi Hr] [Hj <-] Lt X. apply closed_encrypt.
    pose proof (cipher_run_take c calls i j _ Hi Lt) as (_ & C & _). apply C. cbn [cipher_step].
    pose proof (encrypt_cases (cipher_run c (take i calls)) p ad) as E.
    destruct (encrypt _ p ad) as [c1 r1]; cbn [fst snd] in *; subst r1. by apply E.
Qed.

(** A handshake is either open or cleared of every secret; any
    read or write that raises leaves it cleared, and a cleared handshake, also
    one whose transport was taken, answers every call with an error. *)
Theorem handshake_fails_closed (i : NXInitiator) (r : NXResponder) :
  initiator_reaches i -> responder_reaches r ->
  (forall p i' e, write_message1 i p = (i', Raise e) -> i_cleared i')
  /\ (forall m i' e, read_message2 i m = (i', Raise e) -> i_cleared i')
  /\ (forall m r' e, read_message1 r m = (r', Raise e) -> r_cleared r')
  /\ (forall p g r' e, write_message2 r p g = (r', Raise e) -> r_cleared r')
  /\ (forall i' t, i_take_transport i = (i', Ok t) -> i_cleared i')
  /\ (forall r' t, r_take_transport r = (r', Ok t) -> r_cleared r')
  /\ (i_cleared i -> forall p m, is_ok (snd (write_message1 i p)) = false /\ is_ok (snd (read_message2 i m)) = false
        /\ is_ok (snd (i_take_transport i)) = false)
  /\ (r_cleared r -> forall p m g, is_ok (snd (read_message1 r m)) = false /\ is_ok (snd (write_message2 r p g)) = false
        /\ is_ok (snd (r_take_transport r)) = false).
Proof.
  intros Hi%initiator_reaches_cases Hr%responder_reaches_cases.
  pose proof (write1_outcome i) as W1. pose proof (read_message2_outcome i) as R2. pose proof (i_take_outcome i Hi) as TI.
  pose proof (read1_outcome r) as R1. pose proof (write_message2_outcome r) as W2. pose proof (r_take_outcome r Hr) as TR.
  split; [intros p i' e E; specialize (W1 p Hi); by rewrite E in W1 |].
  split; [intros m i' e E; specialize (R2 m Hi); by rewrite E in R2 |].
  split; [intros m r' e E; specialize (R1 m Hr); by rewrite E in R1 |].
  split; [intros p g r' e E; specialize (W2 p g Hr); by rewrite E in W2 |].
  split; [intros i' t E; rewrite E in TI; apply TI |]. split; [intros r' t E; rewrite E in TR; apply TR |]. split.
  - intros Hc p m. specialize (W1 p Hi). specialize (R2 m Hi). assert (Hno : i_open i -> False).
    { intros (Ho & _). destruct Hc as ((Hc & _) & _). congruence. }
    destruct (write_message1 i p) as [? [? | ?]]; [by destruct (Hno (proj1 W1)) |].
    destruct (read_message2 i m) as [? [? | ?]]; [by destruct (Hno (proj1 R2)) |].
    destruct (i_take_transport i) as [? [? | ?]]; [by destruct (Hno (proj1 TI)) | done].
  - intros Hc p m g. specialize (R1 m Hr). specialize (W2 p g Hr). assert (Hno : r_open r -> False).
    { intros (Ho & _). destruct Hc as ((Hc & _) & _). congruence. }
    destruct (read_message1 r m) as [? [? | ?]]; [by destruct (Hno (proj1 R1)) |].
    destruct (write_message2 r p g) as [? [? | ?]]; [by destruct (Hno (proj1 W2)) |].
    destruct (r_take_transport r) as [? [? | ?]]; [by destruct (Hno (proj1 TR)) | done].
Qed.

End Noise.

(** ** Witnesses

    Primitives for which the laws hold: public keys are padded private keys, an
    exchange adds them bytewise, and a sealed message carries a keyed hash. *)

Definition demo_public (k : bytes) : bytes := take 32 (k ++ repeat x00 32).
Definition demo_xor (a b : byte) : byte := z2b (Z.lxor (b2z a) (b2z b)).
Definition demo_tag (key nonce data aad : bytes) : bytes := take 16 (sha256 (key ++ nonce ++ aad ++ data)).

#[export] Instance demo_primitives : NoisePrimitives := {
  priv := bytes;
  from_private_bytes b := Ok b;
  public_bytes := demo_public;
  exchange a p := Ok (zip_with demo_xor (demo_public a) p);
  aesgcm_encrypt key nonce data aad := Ok (data ++ demo_tag key nonce data aad);
  aesgcm_decrypt key nonce data aad :=
    let n := blen data - 16 in
    if bytes_eqb (slice_from n data) (demo_tag key nonce (slice_to n data) aad) then Ok (slice_to n data)
    else Raise (err InvalidTag EmptyString)
}.

Lemma demo_tag_length (key nonce data aad : bytes) : blen (demo_tag key nonce data aad) = 16.
Proof. unfold demo_tag, blen. by rewrite length_take, length_sha256. Qed.

Lemma demo_xor_comm (a b : byte) : demo_xor a b = demo_xor b a.
Proof. unfold demo_xor. by rewrite Z.lxor_comm. Qed.

#[export] Instance demo_laws : NoiseLaws demo_primitives.
Proof.
  split; cbn [priv from_private_bytes public_bytes exchange aesgcm_encrypt aesgcm_decrypt demo_primitives].
  - intros k. unfold demo_public, blen. rewrite length_take, length_app, repeat_length. lia.
  - intros a b. f_equal. generalize (demo_public a) (demo_public b). intros x. induction x as [|u x IH]; intros [|v y]; try done.
    cbn. by rewrite demo_xor_comm, IH.
  - intros. apply throws_ok.
  - intros. apply throws_ok.
  - intros key nonce data aad _ _ _ _. eexists. split; [done |]. by rewrite blen_app, demo_tag_length.
  - intros key nonce data aad c [= <-]. rewrite blen_app, demo_tag_length.
    rewrite slice_from_app, slice_to_app by lia. unfold bytes_eqb. by rewrite bool_decide_true.
  - intros. case_if; [apply throws_ok | by apply throws_raise].
Qed.

Definition sample_initiator : NXInitiator :=
  match new_initiator (PBytes (bstr "prologue")) (inr (bstr "initiator")) with
  | Ok i => i
  | Raise _ => mkInitiator (mkHandshake [] [] true None None) None None false
  end.

Definition sample_responder : NXResponder :=
  match new_responder (PBytes (bstr "prologue")) (PBytes (repeat x07 32)) None with
  | Ok r => r
  | Raise _ => mkResponder (mkHandshake [] [] true None None) None None None false
  end.

Lemma sample_initiator_new : new_initiator (PBytes (bstr "prologue")) (inr (bstr "initiator")) = Ok sample_initiator.
Proof. vm_cast_no_check (eq_refl (Ok sample_initiator)). Qed.

Lemma sample_responder_new :
  new_responder (PBytes (bstr "prologue")) (PBytes (repeat x07 32)) None = Ok sample_responder.
Proof. vm_cast_no_check (eq_refl (Ok sample_responder)). Qed.

Lemma sample_responder_static : r_s sample_responder = Some (repeat x07 32) /\ r_e sample_responder = None.
Proof. split; vm_compute; reflexivity. Qed.

Lemma handshake_agrees_witness :
  exists i1 m1 r1 r2 m2 i2 i3 r3 ti tr,
    write_message1 sample_initiator (PBytes (bstr "hi")) = (i1, Ok m1) /\ read_message1 sample_responder (PBytes m1) = (r1, Ok (bstr "hi"))
    /\ write_message2 r1 (PBytes (bstr "welcome")) (bstr "responder") = (r2, Ok m2)
    /\ read_message2 i1 (PBytes m2) = (i2, Ok (bstr "welcome"))
    /\ i_take_transport i2 = (i3, Ok ti) /\ r_take_transport r2 = (r3, Ok tr)
    /\ handshake_hash ti = handshake_hash tr /\ send ti = receive tr /\ receive ti = send tr
    /\ remote_static_public_key ti = public_bytes (repeat x07 32)
    /\ cipher_live (send ti) /\ cipher_live (receive ti) /\ cs_nonce (send ti) = 0 /\ cs_nonce (receive ti) = 0.
Proof.
  eapply (@handshake_agrees demo_primitives demo_laws (bstr "prologue") (bstr "hi") (bstr "welcome") (repeat x07 32) _ _ (bstr "initiator") (bstr "responder")
            (repeat x07 32) None);
    [apply sample_initiator_new | apply sample_responder_new | apply sample_responder_static | done | done | reflexivity | reflexivity].
Defined.

Lemma transport_in_order_witness :
  exists cs c', encrypt_all (mkCipher (repeat x01 32) 0 false) [(bstr "one", []); (bstr "two", bstr "ad")] = (c', Ok cs)
    /\ decrypt_all (mkCipher (repeat x01 32) 0 false) (zip cs [[]; bstr "ad"]) = (c', Ok [bstr "one"; bstr "two"])
    /\ length cs = 2%nat /\ cs_nonce c' = 0 + 2.
Proof.
  apply (transport_in_order (mkCipher (repeat x01 32) 0 false) [(bstr "one", []); (bstr "two", bstr "ad")]);
    [by apply fresh_live | done | repeat constructor; done].
Defined.

(** Two messages are sealed, a third is not bytes, and a fourth comes too late. *)
Definition sample_sealing : list cipher_call :=
  [Encrypt (PBytes (bstr "a")) (PBytes []); Encrypt (PBytes (bstr "b")) (PBytes []); Encrypt PNone (PBytes []);
   Encrypt (PBytes (bstr "c")) (PBytes [])].

Definition sealed_by (i : nat) (p ad : pyval) : result bytes :=
  snd (encrypt (cipher_run (mkCipher (repeat x01 32) 0 false) (take i sample_sealing)) p ad).

Lemma nonces_never_repeat_witness :
  (exists nonce : nat -> bytes,
      sealed_by 0 (PBytes (bstr "a")) (PBytes []) = aesgcm_encrypt (repeat x01 32) (nonce 0%nat) (bstr "a") []
      /\ sealed_by 1 (PBytes (bstr "b")) (PBytes []) = aesgcm_encrypt (repeat x01 32) (nonce 1%nat) (bstr "b") []
      /\ nonce 0%nat <> nonce 1%nat)
  /\ sealed_by 3 (PBytes (bstr "c")) (PBytes []) = Raise (noise_error "CipherState is closed").
Proof.
  pose proof (nonces_never_repeat (repeat x01 32) (mkCipher (repeat x01 32) 0 false) sample_sealing eq_refl) as [(nonce & H1 & H2) H3].
  split; [exists nonce; split; [| split] |].
  - destruct (H1 0%nat (PBytes (bstr "a")) (PBytes []) _ (conj eq_refl eq_refl)) as (v & a & [= <-] & [= <-] & E). by rewrite E.
  - destruct (H1 1%nat (PBytes (bstr "b")) (PBytes []) _ (conj eq_refl eq_refl)) as (v & a & [= <-] & [= <-] & E). by rewrite E.
  - eapply (H2 0%nat 1%nat); [split; reflexivity | split; reflexivity | lia].
  - eapply (H3 2%nat 3%nat); [split; reflexivity | split; reflexivity | lia | reflexivity].
Defined.

Lemma handshake_fails_closed_witness :
  is_ok (snd (write_message1 (i_destroy sample_initiator) (PBytes (bstr "hi")))) = false
  /\ is_ok (snd (read_message2 (i_destroy sample_initiator) (PBytes []))) = false
  /\ is_ok (snd (i_take_transport (i_destroy sample_initiator))) = false.
Proof.
  apply (@handshake_fails_closed demo_primitives demo_laws (i_destroy sample_initiator) sample_responder);
    [| eapply Rr_new; apply sample_responder_new | apply i_destroy_cleared].
  eapply Ir_step; [eapply Ir_new; apply sample_initiator_new | apply I_destroy].
Defined.
