(* ===== verification/Stream.v ===== *)
(** * The framed stream ([agentbox_protocol/abws_stream.py], [waw_stream_contract.py])

    [ABWSFramedStreamPump] reads frames from an admitted transport and writes
    numbered frames to it; [waw_stream_contract] types the few control frames a
    stream bridge reads.  A coroutine is the sequence of its steps between two
    awaits: [receive] takes the outcome of each read, [send] the outcome of the
    write and of the drain, and whether the other direction closed the pump
    while it awaited.  Sends are serialised by a lock, so one send is one step.
    The bytes handed to the writer are kept as [written]; closing the writer has
    no further effect here, since the code suppresses what it raises. *)

From S2P Require Import Prelude PyVal Json Abws.

Local Open Scope Z_scope.

Definition MAX_READ_CHUNK_SIZE : Z := 64 * 1024.

Record Pump : Type := mkPump {
  parser : ABWSParser;
  next_outbound_sequence : Z;
  receive_started : bool;
  closed : bool;
  written : list bytes
}.

(** [read_timeout] is given in milliseconds. *)
Definition new_pump (first_inbound first_outbound read_chunk_size : Z) (read_timeout : option Z) : result Pump :=
  run! raise_if (negb (in_range 1 first_inbound MAX_U64))
         (err PyValueError "first_inbound_sequence must be a non-zero uint64") in
  run! raise_if (negb (in_range 1 first_outbound MAX_U64))
         (err PyValueError "first_outbound_sequence must be a non-zero uint64") in
  run! raise_if (negb (in_range 1 read_chunk_size MAX_READ_CHUNK_SIZE))
         (err PyValueError "read_chunk_size must be between 1 and 65536") in
  run! raise_if (match read_timeout with Some t => t <=? 0 | None => false end)
         (err PyValueError "read_timeout must be positive") in
  let! p := new_parser first_inbound in
  Ok (mkPump p first_outbound false false []).

(** [_close] *)
Definition close_ (p : Pump) : Pump := mkPump (parser p) (next_outbound_sequence p) (receive_started p) true (written p).

(** The [except] clauses of [receive] and [send]: the pump and the exception
    that leaves the coroutine *)
Definition on_error (p : Pump) (e : exn) (message : string) : Pump * exn :=
  if exc_isa (exn_class e) CancelledError then (close_ p, e)
  else if existsb (exc_isa (exn_class e)) [ABWSError; PyOSError; PyTimeoutError] then
    (close_ p, if exc_isa (exn_class e) ABWSError then e else err ABWSError message)
  else (p, e).

(** The start of [receive], when the first frame is asked for *)
Definition receive_start (p : Pump) : Pump * result unit :=
  if receive_started p then (p, Raise (err PyRuntimeError "ABWS receive may only be started once"))
  else if closed p then (p, Raise (err ABWSError "ABWS stream pump is closed"))
  else (mkPump (parser p) (next_outbound_sequence p) true (closed p) (written p), Ok tt).

Inductive received : Type :=
| Yields (frames : list ABWSFrame)
| Finished
| Failed (e : exn).

Definition set_parser (p : Pump) (q : ABWSParser) : Pump :=
  mkPump q (next_outbound_sequence p) (receive_started p) (closed p) (written p).

(** One iteration of the loop of [receive], on the outcome of the read *)
Definition receive_step (p : Pump) (read : result bytes) : Pump * received :=
  let fail p e := let '(p', e') := on_error p e "ABWS stream read failed" in (p', Failed e') in
  match read with
  | Raise e => fail p e
  | Ok chunk =>
      if blen chunk =? 0 then
        match finish (parser p) with
        | Raise e => fail p e
        | Ok _ => (close_ p, Finished)
        end
      else
        match feed (parser p) chunk with
        | (q, Raise e) => fail (set_parser p q) e
        | (q, Ok fs) => (set_parser p q, Yields fs)
        end
  end.

(** The loop over a sequence of reads: the frames it yields and how it ends;
    [None] when it waits for the next read. *)
Fixpoint receive_loop (p : Pump) (reads : list (result bytes)) : Pump * list ABWSFrame * option received :=
  match reads with
  | [] => (p, [], None)
  | r :: rs =>
      match receive_step p r with
      | (p1, Yields fs) => let '(p2, gs, o) := receive_loop p1 rs in (p2, fs ++ gs, o)
      | (p1, o) => (p1, [], Some o)
      end
  end.

(** What the writer does with one frame *)
Inductive write_outcome : Type :=
| Write_ok
| Write_raises (e : exn)
| Drain_raises (e : exn).

Definition add_written (p : Pump) (raw : bytes) : Pump :=
  mkPump (parser p) (next_outbound_sequence p) (receive_started p) (closed p) (written p ++ [raw]).

Definition send (p : Pump) (frame_type payload : pyval) (io : write_outcome) (closed_meanwhile : bool) : Pump * result Z :=
  let fail p e := let '(p', e') := on_error p e "ABWS stream write failed" in (p', Raise e') in
  if closed p then (p, Raise (err ABWSError "ABWS stream pump is closed"))
  else
    let sequence := next_outbound_sequence p in
    match encode_frame frame_type payload (PInt sequence) with
    | Raise e => fail p e
    | Ok encoded =>
        match io with
        | Write_raises e => fail p e
        | Drain_raises e => fail (if closed_meanwhile then close_ (add_written p encoded) else add_written p encoded) e
        | Write_ok =>
            let p1 := if closed_meanwhile then close_ (add_written p encoded) else add_written p encoded in
            if sequence =? MAX_U64 then (close_ p1, Ok sequence)
            else (mkPump (parser p1) (sequence + 1) (receive_started p1) (closed p1) (written p1), Ok sequence)
        end
    end.

(** ** Control frames *)

Record WAWResize : Type := mkResize { columns : Z; rows : Z }.
Record WAWReplay : Type := mkReplay { after_cursor : Z }.

Definition stream_error (text : string) : exn := err WAWStreamContractError text.

(** [_control] *)
Definition control_ (f : ABWSFrame) (allowed : list pystr) : result pydict :=
  match json_payload f with
  | None => Raise (stream_error "WAW stream control frame requires JSON")
  | Some d =>
      run! raise_if (negb (forallb (fun k => str_in k allowed) (dkeys d))
                     || match dget d $"protocol_version" with Some v => negb (scalar_eqb v (PInt 1)) | None => true end)
             (stream_error "WAW stream control payload fields are not allowed") in
      Ok d
  end.

Definition decode_resize (f : ABWSFrame) : result WAWResize :=
  run! raise_if (negb (frame_code (frame_type f) =? frame_code RESIZE)) (stream_error "expected RESIZE frame") in
  let! d := control_ f [$"protocol_version"; $"columns"; $"rows"] in
  match dget d $"columns", dget d $"rows" with
  | Some (PInt c), Some (PInt r) => Ok (mkResize c r)
  | _, _ => Raise (stream_error "resize geometry must contain integer columns and rows")
  end.

Definition decode_replay (f : ABWSFrame) : result WAWReplay :=
  run! raise_if (negb (frame_code (frame_type f) =? frame_code STATE)) (stream_error "expected STATE replay request") in
  let! d := control_ f [$"protocol_version"; $"after_cursor"] in
  match dget d $"after_cursor" with
  | Some (PInt z) =>
      run! raise_if (negb ((0 <=? z) && (z <? 2 ^ 64 - 1))) (stream_error "after_cursor must be a usable uint64 cursor") in
      Ok (mkReplay z)
  | _ => Raise (stream_error "after_cursor must be a usable uint64 cursor")
  end.

(** The message names the expected type. *)
Definition validate_empty_control (f : ABWSFrame) (k : FrameType) (name : string) : result unit :=
  run! raise_if (negb (frame_code (frame_type f) =? frame_code k)) (stream_error ("expected " ++ name ++ " frame")) in
  run! control_ f [$"protocol_version"] in
  Ok tt.

(** ** The frames on the wire *)

(** The hop sequence in the header of an encoded frame *)
Definition frame_sequence (raw : bytes) : Z := h_sequence (header_unpack (slice_to HEADER_SIZE raw)).

(** The exceptions a transport raises: cancellation, I/O errors, timeouts. *)
Definition transport_error (e : exn) : bool :=
  exc_isa (exn_class e) CancelledError || existsb (exc_isa (exn_class e)) [ABWSError; PyOSError; PyTimeoutError].

Definition io_expected (io : write_outcome) : bool :=
  match io with Write_ok => true | Write_raises e | Drain_raises e => transport_error e end.

(** Every interleaving of sends and reads on a pump that first sends sequence [s] *)
Inductive pump_reaches (s : Z) : Pump -> Prop :=
| Pump_new i c t p : new_pump i s c t = Ok p -> pump_reaches s p
| Pump_send p k v io m p' r : pump_reaches s p -> io_expected io = true -> send p k v io m = (p', r) -> pump_reaches s p'
| Pump_start p p' r : pump_reaches s p -> receive_start p = (p', r) -> pump_reaches s p'
| Pump_read p read p' r : pump_reaches s p -> receive_step p read = (p', r) -> pump_reaches s p'.

(** The numbers from [s] *)
Definition numbered (s : Z) (n : nat) : list Z := map (fun k => s + Z.of_nat k) (seq 0 n).

Definition pump_numbered (s : Z) (p : Pump) : Prop :=
  map frame_sequence (written p) = numbered s (length (written p))
  /\ s + blen (written p) <= MAX_U64 + 1
  /\ (closed p = false -> next_outbound_sequence p = s + blen (written p) /\ next_outbound_sequence p <= MAX_U64).

Lemma numbered_S (s : Z) (n : nat) : numbered s (S n) = numbered s n ++ [s + Z.of_nat n].
Proof. unfold numbered. by rewrite seq_S, map_app. Qed.

Lemma encode_frame_sequence (k v : pyval) (s : Z) (raw : bytes) :
  encode_frame k v (PInt s) = Ok raw -> frame_sequence raw = s /\ 1 <= s <= MAX_U64.
Proof.
  unfold encode_frame. intros H. apply rbind_ok in H as (kind & _ & H). apply rbind_ok in H as ([] & Hs%raise_if_ok & H).
  apply rbind_ok in H as (b & _ & H). apply rbind_ok in H as ([] & Hb%raise_if_ok & <-%Ok_inj). bool_to_prop.
  pose proof (frame_code_range kind). pose proof (blen_nonneg b). unfold frame_sequence, MAX_PAYLOAD, MAX_U64 in *.
  rewrite slice_to_app by apply blen_header_pack. rewrite header_unpack_pack by lia. split; [done | lia].
Qed.

Lemma on_error_frame (p p' : Pump) (e e' : exn) (msg : string) :
  on_error p e msg = (p', e') ->
  written p' = written p /\ (p' = close_ p \/ p' = p /\ transport_error e = false) /\ (transport_error e = true -> closed p' = true).
Proof.
  unfold on_error, transport_error. destruct (exc_isa (exn_class e) CancelledError); [intros [= <- _]; auto |].
  destruct (existsb _ _); intros [= <- _]; auto. split; [done |]. split; [by right | done].
Qed.

Lemma add_written_numbered (s : Z) (p : Pump) (raw : bytes) :
  pump_numbered s p -> closed p = false -> frame_sequence raw = next_outbound_sequence p ->
  map frame_sequence (written p ++ [raw]) = numbered s (length (written p ++ [raw]))
  /\ s + blen (written p ++ [raw]) <= MAX_U64 + 1.
Proof.
  intros (H1 & H2 & H3) Hc Hr. destruct (H3 Hc) as [H4 H5]. rewrite map_app, length_app, Nat.add_1_r, numbered_S, H1, blen_app.
  cbn [map]. rewrite Hr, H4. change (blen [raw]) with 1. split; [done | lia].
Qed.

Lemma send_numbered (s : Z) (p p' : Pump) (k v : pyval) (io : write_outcome) (m : bool) (r : result Z) :
  pump_numbered s p -> io_expected io = true -> send p k v io m = (p', r) -> pump_numbered s p'.
Proof.
  intros Hp Hio. unfold send. destruct (closed p) eqn:Hc; [by intros [= <- _] |].
  assert (Hsame : forall e q x, on_error p e "ABWS stream write failed" = (q, x) -> pump_numbered s q).
  { intros e q x (_ & Hq & _)%on_error_frame. destruct Hq as [-> | [-> _]]; [| done]. destruct Hp as (H1 & H2 & _). done. }
  destruct (encode_frame k v (PInt (next_outbound_sequence p))) as [raw | e] eqn:Ee.
  2: { destruct (on_error p e _) as [q x] eqn:Eo. intros [= <- _]. by apply (Hsame e q x). }
  apply encode_frame_sequence in Ee as [Hs Hr]. destruct (add_written_numbered s p raw Hp Hc Hs) as [A1 A2].
  destruct Hp as (H1 & H2 & H3). destruct (H3 Hc) as [H4 H5].
  destruct io as [| e | e].
  - destruct (Z.eqb_spec (next_outbound_sequence p) MAX_U64) as [E | E]; intros [= <- _].
    + split; [by destruct m |]. split; [by destruct m | done].
    + split; [by destruct m |]. split; [by destruct m |]. cbn [closed next_outbound_sequence written]. intros _.
      replace (written (if m then close_ (add_written p raw) else add_written p raw)) with (written p ++ [raw]) by (by destruct m).
      rewrite blen_app. change (blen [raw]) with 1. lia.
  - destruct (on_error p e _) as [q x] eqn:Eo. intros [= <- _]. by apply (Hsame e q x).
  - destruct (on_error _ e _) as [q x] eqn:Eo. intros [= <- _]. apply on_error_frame in Eo as (Hw & _ & Hcl).
    unfold pump_numbered. rewrite Hw. split; [by destruct m |]. split; [by destruct m |]. rewrite Hcl by done. done.
Qed.

Lemma receive_step_frame (p p' : Pump) (read : result bytes) (r : received) :
  receive_step p read = (p', r) ->
  written p' = written p /\ next_outbound_sequence p' = next_outbound_sequence p /\ (closed p' = false -> closed p = false).
Proof.
  assert (Hf : forall q e msg q' e', on_error q e msg = (q', e') -> written q = written p ->
    next_outbound_sequence q = next_outbound_sequence p -> closed q = closed p ->
    written q' = written p /\ next_outbound_sequence q' = next_outbound_sequence p /\ (closed q' = false -> closed p = false)).
  { intros q e msg q' e' (_ & H & _)%on_error_frame W N C. destruct H as [-> | [-> _]]; cbn; [done |]. rewrite C. done. }
  unfold receive_step. destruct read as [chunk | e].
  - destruct (blen chunk =? 0).
    + destruct (finish (parser p)); [by intros [= <- _] |]. destruct (on_error p e _) as [q x] eqn:E. intros [= <- _]. by eapply Hf.
    + destruct (feed (parser p) chunk) as [q [fs | e]]; [by intros [= <- _] |].
      destruct (on_error _ e _) as [q' x] eqn:E. intros [= <- _]. by eapply Hf.
  - destruct (on_error p e _) as [q x] eqn:E. intros [= <- _]. by eapply Hf.
Qed.

Lemma new_pump_inv (i s c : Z) (t : option Z) (p : Pump) :
  new_pump i s c t = Ok p -> p = mkPump (mkParser [] i false) s false false [] /\ 1 <= i <= MAX_U64 /\ 1 <= s <= MAX_U64.
Proof. unfold new_pump, new_parser. intros H. inv_ok. bool_to_prop. repeat split; lia. Qed.

Lemma pump_reaches_numbered (s : Z) (p : Pump) : pump_reaches s p -> pump_numbered s p.
Proof.
  induction 1 as [i c t p H | p k v io m p' r _ IH Hio E | p p' r _ IH E | p read p' r _ IH E].
  - apply new_pump_inv in H as (-> & _ & Hs). split; [done |]. change (blen (written _)) with 0. cbn. split; [lia | intros _; lia].
  - by eapply send_numbered.
  - unfold receive_start in E. destruct (receive_started p); [by injection E as <- _ |].
    destruct (closed p) eqn:Hc; injection E as <- _; [done |]. destruct IH as (I1 & I2 & I3). split; [done |]. split; [done |]. cbn. auto.
  - apply receive_step_frame in E as (W & N & C). destruct IH as (I1 & I2 & I3). unfold pump_numbered. rewrite W, N.
    split; [done |]. split; [done |]. auto.
Qed.

(** ** From one pump to another *)

Fixpoint send_all (p : Pump) (ms : list (FrameType * pyval)) : Pump * result (list Z) :=
  match ms with
  | [] => (p, Ok [])
  | (k, v) :: r =>
      match send p (PInt (frame_code k)) v Write_ok false with
      | (p1, Raise e) => (p1, Raise e)
      | (p1, Ok n) => match send_all p1 r with
                      | (p2, Raise e) => (p2, Raise e)
                      | (p2, Ok l) => (p2, Ok (n :: l))
                      end
      end
  end.

(** A frame carries a message: its type, and the dictionary or the bytes sent. *)
Definition carries (m : FrameType * pyval) (f : ABWSFrame) : Prop :=
  frame_type f = fst m
  /\ if is_json_type (fst m) then exists d, snd m = PDict d /\ json_payload f = Some d
     else py_bytes (snd m) = Ok (payload f) /\ json_payload f = None.

(** A control message is a JSON value with unique keys. *)
Definition sendable (m : FrameType * pyval) : Prop :=
  is_json_type (fst m) = true -> printable (snd m) = true /\ unique_keys (snd m) = true.

Lemma send_ok (p p' : Pump) (k : FrameType) (v : pyval) (n : Z) :
  send p (PInt (frame_code k)) v Write_ok false = (p', Ok n) ->
  n = next_outbound_sequence p
  /\ exists raw, encode_frame (PInt (frame_code k)) v (PInt n) = Ok raw /\ written p' = written p ++ [raw]
     /\ closed p' = (n =? MAX_U64) /\ (n <> MAX_U64 -> next_outbound_sequence p' = n + 1).
Proof.
  unfold send. destruct (closed p) eqn:Hc; [discriminate |].
  destruct (encode_frame _ v (PInt (next_outbound_sequence p))) as [raw | e] eqn:Ee.
  2: { destruct (on_error p e _); discriminate. }
  destruct (Z.eqb_spec (next_outbound_sequence p) MAX_U64) as [E | E]; intros [= <- <-]; split; try done; exists raw;
    (split; [done |]); (split; [done |]).
  - by rewrite (proj2 (Z.eqb_eq _ _) E).
  - rewrite (proj2 (Z.eqb_neq _ _) E). cbn. by rewrite Hc.
Qed.

Lemma send_all_frames (ms : list (FrameType * pyval)) : forall p p' seqs,
  Forall sendable ms -> send_all p ms = (p', Ok seqs) ->
  exists rs fs, written p' = written p ++ rs /\ frames_at (next_outbound_sequence p) rs fs /\ Forall2 carries ms fs
    /\ length rs = length ms /\ seqs = numbered (next_outbound_sequence p) (length ms)
    /\ (ms <> [] -> 1 <= next_outbound_sequence p /\ next_outbound_sequence p + blen ms <= MAX_U64 + 1).
Proof.
  induction ms as [|[k v] ms IH]; intros p p' seqs Hm H; cbn [send_all] in H.
  { injection H as <- <-. exists [], []. rewrite app_nil_r. split; [done |]. split; [done |]. split; [constructor 1 |]. by repeat split. }
  apply Forall_cons in Hm as [Hm Hms]. destruct (send p _ v _ _) as [p1 [n | e]] eqn:Es; [| discriminate].
  destruct (send_all p1 ms) as [p2 [l | e]] eqn:El; [| discriminate]. injection H as <- <-.
  apply send_ok in Es as (-> & raw & Ee & Hw & Hc & Hn). pose proof (encode_frame_sequence _ _ _ _ Ee) as [_ Hr].
  destruct (encode_frame_decodes k v _ raw Hm Ee) as (f & Hd & Hk & _ & Hf).
  assert (Hlast : next_outbound_sequence p = MAX_U64 -> ms = []).
  { intros E. destruct ms as [|[k' v'] ms']; [done |]. exfalso. cbn [send_all] in El. unfold send at 1 in El. rewrite Hc, E in El. discriminate. }
  destruct (IH p1 p2 l Hms El) as (rs & fs & W & F & C & L & Sq & B). exists (raw :: rs), (f :: fs).
  split; [by rewrite W, Hw, <- app_assoc |].
  assert (Hnil : ms = [] -> rs = [] /\ fs = [] /\ l = []).
  { intros ->. destruct rs; [| done]. inversion C; subst. done. }
  destruct (decide (next_outbound_sequence p = MAX_U64)) as [E | E].
  - pose proof (Hlast E) as Hm0. destruct (Hnil Hm0) as (-> & -> & ->). rewrite Hm0. cbn [frames_at length].
    split; [done |]. split; [constructor; [done | constructor 1] |]. split; [done |]. split; [| intros _; change (blen [_]) with 1; lia].
    unfold numbered. cbn. by rewrite Z.add_0_r.
  - rewrite (Hn E) in *. cbn [frames_at length]. split; [done |]. split; [constructor; [by split | done] |]. split; [by rewrite L |]. split.
    + unfold numbered. cbn [seq map]. rewrite Z.add_0_r. f_equal. rewrite Sq. unfold numbered. rewrite <- seq_shift, map_map.
      apply map_ext. intros i. lia.
    + intros _. unfold blen in *. cbn [length]. destruct ms as [|m ms]; [cbn; lia |]. destruct B as [_ B]; [done |]. lia.
Qed.

Lemma receive_step_eof (p : Pump) : finish (parser p) = Ok tt -> receive_step p (Ok []) = (close_ p, Finished).
Proof. intros H. unfold receive_step. change (blen (@nil byte) =? 0) with true. by rewrite H. Qed.

(** The loop of [receive] over non-empty chunks feeds the parser. *)
Lemma receive_loop_chunks (cs : list bytes) : forall p q fs rest,
  Forall (fun c => c <> []) cs -> feed_all (parser p) cs = (q, Ok fs) ->
  receive_loop p (map Ok cs ++ rest)
  = let '(p2, gs, o) := receive_loop (set_parser p q) rest in (p2, fs ++ gs, o).
Proof.
  induction cs as [|c cs IH]; intros p q fs rest Hc H; cbn [feed_all] in H.
  { injection H as <- <-. cbn [map app]. replace (set_parser p (parser p)) with p by (by destruct p).
    by destruct (receive_loop p rest) as [[? ?] ?]. }
  apply Forall_cons in Hc as [Hc Hcs]. destruct (feed (parser p) c) as [q1 [f1 | e]] eqn:Ef; [| discriminate].
  destruct (feed_all q1 cs) as [q2 [gs | e]] eqn:Ea; [| discriminate]. cbn [rbind] in H. injection H as <- <-.
  cbn [map app receive_loop receive_step]. rewrite (proj2 (Z.eqb_neq (blen c) 0)) by (destruct c; [done |]; unfold blen; cbn [length]; lia).
  rewrite Ef. rewrite (IH (set_parser p q1) q2 gs rest Hcs) by done.
  change (set_parser (set_parser p q1) q2) with (set_parser p q2).
  destruct (receive_loop (set_parser p q2) rest) as [[? ?] ?]. by rewrite app_assoc.
Qed.

(** ** Properties *)

(** In every interleaving of sends and reads, with every failure
    of the transport, the frames handed to the writer carry the sequence numbers
    from the first one on, without gap or repetition; while the pump is open the
    next number continues them, and the last 64-bit number is not exceeded. *)
Theorem pump_numbers_frames (s : Z) (p : Pump) :
  pump_reaches s p ->
  map frame_sequence (written p) = numbered s (length (written p)) /\ s + blen (written p) <= MAX_U64 + 1
  /\ (closed p = false -> next_outbound_sequence p = s + blen (written p)).
Proof. intros (H1 & H2 & H3)%pump_reaches_numbered. split; [done |]. split; [done |]. intros Hc. by apply H3. Qed.

(** A send or a read that ends with an ABWS error or a
    cancellation leaves the pump closed, as does a clean end of the stream; a
    closed pump writes nothing more and starts no receive. *)
Theorem pump_fails_closed (p : Pump) (k v : pyval) (io : write_outcome) (m : bool) (read : result bytes) :
  (forall p' e, send p k v io m = (p', Raise e) -> exc_isa (exn_class e) ABWSError || exc_isa (exn_class e) CancelledError = true ->
     closed p' = true)
  /\ (forall p' e, receive_step p read = (p', Failed e) ->
        exc_isa (exn_class e) ABWSError || exc_isa (exn_class e) CancelledError = true -> closed p' = true)
  /\ (forall p', receive_step p read = (p', Finished) -> closed p' = true)
  /\ (closed p = true -> is_ok (snd (send p k v io m)) = false /\ fst (send p k v io m) = p
        /\ is_ok (snd (receive_start p)) = false).
Proof.
  assert (He : forall q e msg q' e', on_error q e msg = (q', e') ->
    exc_isa (exn_class e') ABWSError || exc_isa (exn_class e') CancelledError = true -> closed q' = true).
  { intros q e msg q' e'. unfold on_error. destruct (exc_isa (exn_class e) CancelledError) eqn:E1; [by intros [= <- _] |].
    destruct (existsb _ _) eqn:E2; intros [= <- <-]; [done |]. cbn [existsb] in E2. apply orb_false_iff in E2 as [-> _].
    rewrite E1. done. }
  split; [| split; [| split]].
  - intros p' e. unfold send. destruct (closed p) eqn:Hc; [by intros [= <- _] |].
    destruct (encode_frame k v _) as [raw | x]; [destruct io as [| x | x] |];
      try (destruct (on_error _ x _) as [q y] eqn:Eo; intros [= <- <-]; by eapply He).
    destruct (_ =? MAX_U64); discriminate.
  - intros p' e. unfold receive_step. destruct read as [c | x].
    + destruct (blen c =? 0); [destruct (finish (parser p)) as [u | x] | destruct (feed (parser p) c) as [q [fs | x]]]; try discriminate;
        destruct (on_error _ x _) as [q' y] eqn:Eo; intros [= <- <-]; by eapply He.
    + destruct (on_error _ x _) as [q' y] eqn:Eo; intros [= <- <-]; by eapply He.
  - intros p'. unfold receive_step. destruct read as [c | x]; [| by destruct (on_error _ x _)].
    destruct (blen c =? 0); [destruct (finish (parser p)) as [u | x] | destruct (feed (parser p) c) as [q [fs | x]]];
      try (by destruct (on_error _ x _)); try discriminate. by intros [= <-].
  - intros Hc. unfold send, receive_start. rewrite Hc. by destruct (receive_started p).
Qed.

(** What one pump sends another receives.  When every message
    of a list was sent from sequence [s], the returned numbers count from [s],
    and however the written bytes are cut into reads, the receiving pump yields
    one frame per message, in order, with the same type and content, and closes
    cleanly at the end of the stream. *)
Theorem pump_delivers (s chunk : Z) (a a' b : Pump) (ms : list (FrameType * pyval)) (seqs : list Z) (cs : list bytes)
    (t : option Z) (o : Z) :
  new_pump o s chunk t = Ok a -> new_pump s o chunk t = Ok b -> Forall sendable ms ->
  send_all a ms = (a', Ok seqs) -> concat cs = concat (written a') -> Forall (fun c => c <> []) cs ->
  seqs = numbered s (length ms)
  /\ exists b' fs, receive_loop b (map Ok cs ++ [Ok []]) = (b', fs, Some Finished) /\ Forall2 carries ms fs /\ closed b' = true.
Proof.
  intros Ha Hb Hm Hs Hcs Hne. apply new_pump_inv in Ha as (-> & _ & Hs1). apply new_pump_inv in Hb as (-> & _ & _).
  destruct (send_all_frames ms _ _ _ Hm Hs) as (rs & fs & W & F & C & L & -> & B). cbn [next_outbound_sequence written app] in *.
  split; [done |]. rewrite W in Hcs.
  assert (Hmax : s + blen rs <= MAX_U64 + 1).
  { unfold blen. rewrite L. destruct ms as [|m0 ms0]; [cbn; lia |]. destruct B as [_ B]; [done |]. done. }
  assert (Hfeed : feed_all (mkParser [] s false) cs = (at_pos (s + blen rs) [], Ok fs)).
  { replace (mkParser [] s false) with (at_pos s []) by (unfold at_pos; f_equal; lia).
    apply feed_all_stream; try done; [lia |]. destruct rs as [|r rs'], fs as [|f fs']; try done.
    destruct F as [Hr _]. pose proof (frame_size _ _ _ Hr) as Hsz. unfold partial, HEADER_SIZE in *.
    change (blen (@nil byte)) with 0. lia. }
  exists (close_ (mkPump (at_pos (s + blen rs) []) o false false [])), fs. split; [| split; [exact C | reflexivity]].
  rewrite (receive_loop_chunks cs _ _ fs [Ok []] Hne) by exact Hfeed. cbn [receive_loop]. rewrite receive_step_eof by done.
  by rewrite app_nil_r.
Qed.

(** A terminal size sent as a control frame is decoded to the same size. *)
Lemma resize_roundtrip (f : ABWSFrame) (c r : Z) :
  carries (RESIZE, PDict [($"protocol_version", PInt 1); ($"columns", PInt c); ($"rows", PInt r)]) f ->
  decode_resize f = Ok (mkResize c r).
Proof. intros [Hk (d & [= <-] & Hj)]. unfold decode_resize, control_. by rewrite Hk, Hj. Qed.

(** ** Witnesses *)

Definition sample_pump : Pump := mkPump (mkParser [] 1 false) 7 false false [].

Definition sample_messages : list (FrameType * pyval) :=
  [(RESIZE, PDict [($"protocol_version", PInt 1); ($"columns", PInt 80); ($"rows", PInt 24)]); (INPUT, PBytes (bstr "ls"))].

Definition sample_sent : Pump := fst (send_all sample_pump sample_messages).

Lemma sample_sent_ok : send_all sample_pump sample_messages = (sample_sent, Ok [7; 8]).
Proof. vm_cast_no_check (eq_refl (sample_sent, @Ok (list Z) [7; 8])). Qed.

Lemma pump_numbers_frames_witness :
  map frame_sequence (written sample_pump) = numbered 7 (length (written sample_pump))
  /\ 7 + blen (written sample_pump) <= MAX_U64 + 1
  /\ (closed sample_pump = false -> next_outbound_sequence sample_pump = 7 + blen (written sample_pump)).
Proof. apply (pump_numbers_frames 7 sample_pump). by apply (Pump_new 7 1 4096 None). Defined.

Lemma pump_delivers_witness :
  [7; 8] = numbered 7 2
  /\ exists b' fs, receive_loop (mkPump (mkParser [] 7 false) 1 false false []) (map Ok (written sample_sent) ++ [Ok []])
                   = (b', fs, Some Finished)
       /\ Forall2 carries sample_messages fs /\ closed b' = true.
Proof.
  apply (pump_delivers 7 4096 sample_pump sample_sent (mkPump (mkParser [] 7 false) 1 false false []) sample_messages [7; 8]
           (written sample_sent) None 1);
    [reflexivity | reflexivity | | apply sample_sent_ok | reflexivity |].
  - apply Forall_cons. split; [by split | apply Forall_cons; split; [done | apply Forall_nil_2]].
  - apply Forall_forall. intros c Hc. vm_compute in Hc. set_unfold in Hc. destruct Hc as [-> | [-> | []]]; done.
Defined.
