(* ===== verification/Tickets.v ===== *)
(** * Attachment tickets and writer leases ([agentbox_core/waw_tickets.py])

    [AttachmentAuthority]: single-use tickets, one writer slot per workspace, the
    staged admission of a writer, and cleanup obligations that keep a slot taken
    until they are acknowledged.  Every method runs under one lock, so a method
    is one transition of the authority, written in a small state and error
    monad; what it changed before it raised stays changed.

    Instants are integers (finite clock readings), and so are the five seconds of
    [reserve].  The random tokens, the clock
    and what the publication queue does are arguments.  An object that the code
    compares with [is] carries the number of its allocation.  A dictionary keyed
    by workspace is a finite map; the pending tickets are a list in insertion
    order, since their order decides which digest leaves the bounded replay
    cache.  The wall-clock [expires_at] of an issued ticket, display metadata, is
    left out. *)

From S2P Require Import Prelude PyVal Sha256 WawDomain.

Local Open Scope Z_scope.

(** ** Errors *)

Inductive TicketErrorCode : Type :=
| INVALID | EXPIRED | REPLAYED | STALE | WRITER_BUSY | CAPACITY | SEQUENCE_EXHAUSTED | LEASE_EXPIRED | LEASE_MISMATCH
| RANDOMNESS_UNAVAILABLE | DELIVERY_FAILED.

Definition code_value (c : TicketErrorCode) : string :=
  match c with
  | INVALID => "ATTACHMENT_TICKET_INVALID" | EXPIRED => "ATTACHMENT_TICKET_EXPIRED"
  | REPLAYED => "ATTACHMENT_TICKET_REPLAYED" | STALE => "ATTACHMENT_STALE" | WRITER_BUSY => "WORKSPACE_WRITER_BUSY"
  | CAPACITY => "ATTACHMENT_TICKET_UNAVAILABLE" | SEQUENCE_EXHAUSTED => "SEQUENCE_EXHAUSTED"
  | LEASE_EXPIRED => "ATTACHMENT_LEASE_EXPIRED" | LEASE_MISMATCH => "ATTACHMENT_LEASE_MISMATCH"
  | RANDOMNESS_UNAVAILABLE => "RANDOMNESS_UNAVAILABLE" | DELIVERY_FAILED => "ADMITTED_DELIVERY_FAILED"
  end%string.

(** [TicketAuthorityError(code, message)]; without a message it is the code. *)
Definition ticket_error_with (c : TicketErrorCode) (message : string) : exn := Exn TicketAuthorityError (code_value c) message.
Definition ticket_error (c : TicketErrorCode) : exn := ticket_error_with c (code_value c).

(** ** Data *)

Record Context_ : Type := mkContext {
  session_id : pystr;
  user_id : pystr;
  authorization_scope : pystr;
  origin : pystr;
  runtime_epoch : pystr;
  c_auth_epoch : Z
}.

(** The text fields of [AuthenticatedAttachmentContext.__post_init__] *)
Definition context_text (v : pyval) (name : string) (maximum : Z) : result pystr :=
  let e := ticket_error_with INVALID (name ++ " is invalid") in
  match v with
  | PStr s =>
      run! raise_if ((blen s =? 0) || (maximum <? blen s) || existsb (fun c => (c <? 32) || in_range 127 c 159) s) e in
      Ok s
  | _ => Raise e
  end.

Definition new_context (session user scope orig repoch aepoch : pyval) : result Context_ :=
  let! s := context_text session "session_id" 128 in
  let! u := context_text user "user_id" 128 in
  let! a := context_text scope "authorization_scope" 128 in
  let! o := context_text orig "origin" 256 in
  let! r := match repoch with
            | PStr r => run! raise_if (negb (match_pos_decimal r) || (MAX_U64 <? digits_value r))
                               (ticket_error_with INVALID "runtime_epoch is invalid") in Ok r
            | _ => Raise (ticket_error_with INVALID "runtime_epoch is invalid")
            end in
  let! e := except_as (validate_positive_u64 aepoch "auth_epoch") [PyTypeError; PyValueError]
              (ticket_error_with INVALID "auth_epoch is invalid") in
  Ok (mkContext s u a o r e).

Record AttachmentTuple : Type := mkClaims {
  t_workspace : pystr;
  t_project : pystr;
  t_agent : AgentType;
  t_attachment : pystr;
  t_lease : Z;
  t_generation : Z;
  t_auth_epoch : Z;
  t_authority_epoch : Z;
  t_host : pystr;
  t_host_revision : Z;
  t_binding_revision : Z;
  t_binding_digest : pystr;
  t_mode : pystr
}.

(** [AttachmentTuple.__post_init__] *)
Definition new_tuple (workspace project agent attachment lease gen aepoch authority host hrev brev digest mode : pyval)
  : result AttachmentTuple :=
  let! w := validate_workspace_id workspace in
  let! p := validate_project_id project in
  let! a := except_as (enum_of [CLAUDE; CODEX] agent_value agent (err PyValueError "is not a valid AgentType"))
              [PyTypeError; PyValueError] (ticket_error_with INVALID "agent_type is invalid") in
  let! at_ := validate_attachment_id attachment in
  let! derived := WawDomain.workspace_id (PStr p) (PStr (agent_value a)) in
  run! raise_if (negb (str_eqb w derived)) (ticket_error_with STALE "workspace identity does not match") in
  let! l := validate_positive_u64 lease "lease_number" in
  let! g := validate_positive_u64 gen "generation" in
  let! ae := validate_positive_u64 aepoch "auth_epoch" in
  let! au := validate_positive_u64 authority "api_authority_epoch" in
  let! h := validate_runtime_host_installation_id host in
  let! hr := validate_positive_u64 hrev "runtime_host_installation_revision" in
  let! br := validate_positive_u64 brev "binding_revision" in
  let! d := validate_binding_digest digest in
  match mode with
  | PStr m => run! raise_if (negb (str_eqb m $"writer")) (ticket_error_with INVALID "mode must be writer") in
              Ok (mkClaims w p a at_ l g ae au h hr br d m)
  | _ => Raise (ticket_error_with INVALID "mode must be writer")
  end.

Record IssuedAttachmentTicket : Type := mkIssued { ticket : pystr; i_claims : AttachmentTuple; i_issued_at : Z; i_expires_at : Z }.

(** [IssuedAttachmentTicket.__post_init__], on a token of hexadecimal digits *)
Definition new_issued (t : pystr) (c : AttachmentTuple) (issued expires : Z) : result IssuedAttachmentTicket :=
  run! raise_if (negb (blen t =? 36) || negb (str_eqb (take 4 t) $"wat_")) (ticket_error_with INVALID "ticket format is invalid") in
  run! raise_if (negb (forallb is_lower_hex (drop 4 t))) (ticket_error_with INVALID "ticket format is invalid") in
  run! raise_if (expires <? issued) (ticket_error_with INVALID "ticket expiry precedes issuance") in
  Ok (mkIssued t c issued expires).

Record ActiveAttachment : Type := mkActive {
  a_claims : AttachmentTuple;
  a_opened_at : Z;
  a_last_heartbeat : Z;
  a_lease_expires : Z;
  a_absolute_expires : Z;
  a_context : option Context_
}.

Definition active_at (a : ActiveAttachment) (now : Z) : bool := (now <? a_lease_expires a) && (now <? a_absolute_expires a).

Record PendingTicket : Type := mkPending {
  p_digest : bytes;
  p_claims : AttachmentTuple;
  p_issued_at : Z;
  p_expires_at : Z;
  p_context : option Context_
}.

Inductive AdmissionStage : Type :=
| RESERVED | RUNTIME_PREPARED | VERIFIED | PREPARED_AUDITED | READY | QUARANTINED | COMMITTED | ADMITTED_AUDITED | ACTIVE | FENCED.

#[export] Instance admission_stage_eq_dec : EqDecision AdmissionStage.
Proof. solve_decision. Defined.

(** [tuple(AdmissionStage).index(stage)] *)
Definition stage_index (s : AdmissionStage) : Z :=
  match s with
  | RESERVED => 0 | RUNTIME_PREPARED => 1 | VERIFIED => 2 | PREPARED_AUDITED => 3 | READY => 4 | QUARANTINED => 5
  | COMMITTED => 6 | ADMITTED_AUDITED => 7 | ACTIVE => 8 | FENCED => 9
  end.

Record StagedAttachment : Type := mkStaged {
  sa_claims : AttachmentTuple;
  sa_context : Context_;
  sa_connection : Z;
  sa_started : Z;
  sa_deadline : Z;
  sa_lease_expires : Z;
  sa_absolute_expires : Z;
  sa_object : Z
}.

#[export] Instance context_eq_dec : EqDecision Context_.
Proof. solve_decision. Defined.
#[export] Instance claims_eq_dec : EqDecision AttachmentTuple.
Proof. solve_decision. Defined.
#[export] Instance staged_eq_dec : EqDecision StagedAttachment.
Proof. solve_decision. Defined.

Record StagedRecord : Type := mkRecord { handle : StagedAttachment; stage : AdmissionStage }.

(** ** Tickets *)

(** [_ticket_digest] *)
Definition ticket_digest (t : pyval) : result bytes :=
  let e := ticket_error_with INVALID "ticket format is invalid" in
  match t with
  | PStr s =>
      run! raise_if (negb (blen s =? 36)) e in
      run! raise_if (negb (str_eqb (take 4 s) $"wat_")) e in
      run! raise_if (negb (forallb is_lower_hex (drop 4 s))) e in
      Ok (sha256 (encode_text s))
  | _ => Raise e
  end.

(** [_same_tuple]: the texts of two fields are equal exactly when the fields are. *)
Definition same_tuple (a b : AttachmentTuple) : bool := bool_decide (a = b).

(** [hmac.compare_digest] of two strings, which must be ASCII *)
Definition compare_digest (a b : pystr) : result bool :=
  if existsb (fun c => 127 <? c) a || existsb (fun c => 127 <? c) b
  then Raise (err PyTypeError "comparing strings with non-ASCII characters is not supported")
  else Ok (str_eqb a b).

(** [all(...)] over comparisons, which stops at the first difference *)
Fixpoint all_same (l : list (pystr * pystr)) : result bool :=
  match l with
  | [] => Ok true
  | (a, b) :: r => let! same := compare_digest a b in if same then all_same r else Ok false
  end.

(** [_same_context] *)
Definition same_context (a b : option Context_) : result bool :=
  match a, b with
  | None, None => Ok true
  | None, Some _ | Some _, None => Ok false
  | Some x, Some y =>
      all_same [(session_id x, session_id y); (user_id x, user_id y); (authorization_scope x, authorization_scope y);
                (origin x, origin y); (runtime_epoch x, runtime_epoch y); (str_of_Z (c_auth_epoch x), str_of_Z (c_auth_epoch y))]
  end.

(** The fields of a tuple as the wire presents them *)
Definition tuple_texts (c : AttachmentTuple) : list (pystr * pystr) :=
  [($"workspace_id", t_workspace c); ($"project_id", t_project c); ($"agent_type", agent_value (t_agent c));
   ($"attachment_id", t_attachment c); ($"lease_number", str_of_Z (t_lease c)); ($"generation", str_of_Z (t_generation c));
   ($"auth_epoch", str_of_Z (t_auth_epoch c)); ($"api_authority_epoch", str_of_Z (t_authority_epoch c));
   ($"runtime_host_installation_id", t_host c); ($"runtime_host_installation_revision", str_of_Z (t_host_revision c));
   ($"binding_revision", str_of_Z (t_binding_revision c)); ($"binding_digest", t_binding_digest c); ($"mode", t_mode c)].

(** [_same_presented_tuple] *)
Definition same_presented_tuple (c : AttachmentTuple) (presented : pydict) : bool :=
  keys_equal (dkeys presented) (map fst (tuple_texts c))
  && forallb (fun '(k, text) => match dget presented k with Some (PStr s) => str_eqb s text | _ => false end) (tuple_texts c).

(** ** The authority *)

Record Config : Type := mkConfig {
  authority_epoch : Z;
  ticket_ttl : Z;
  lease_ttl : Z;
  absolute_lease : Z;
  max_records : Z;
  replay_cache_size : Z;
  max_writers : Z;
  max_per_admin : Z
}.

Record Authority : Type := mkAuthority {
  next_lease_number : Z;
  pending : list PendingTicket;
  active : gmap pystr ActiveAttachment;
  cleanup_pending : gmap pystr AttachmentTuple;
  cleanup_contexts : gmap pystr (option Context_);
  staged : gmap pystr StagedRecord;
  replayed : list bytes;
  shutdown_started : bool;
  next_object : Z
}.

(** [_u64_or_random]; [draw] is what [secrets.randbelow(_MAX_U64) + 1] gives. *)
Definition u64_or_random (value : option pyval) (draw : result Z) : result Z :=
  match value with
  | None => except_as draw [PyException] (ticket_error_with RANDOMNESS_UNAVAILABLE "secure authority randomness is unavailable")
  | Some v => validate_positive_u64 v "value"
  end.

Definition new_authority (epoch seed : option pyval) (draw1 draw2 : result Z)
    (tttl lttl absolute records replay writers admins : Z) : result (Config * Authority) :=
  run! raise_if ((tttl <=? 0) || (lttl <=? 0) || (absolute <=? 0)) (err PyValueError "ticket and lease TTLs must be positive") in
  run! raise_if (absolute <? lttl) (err PyValueError "lease TTL cannot exceed absolute lease lifetime") in
  run! raise_if (negb (in_range 1 records 64) || (replay <? 1)) (err PyValueError "authority capacities must be positive") in
  run! raise_if (negb (in_range 1 writers 32) || negb (in_range 1 admins 4)) (err PyValueError "writer capacities are invalid") in
  let! e := u64_or_random epoch draw1 in
  let! n := u64_or_random seed draw2 in
  Ok (mkConfig e tttl lttl absolute records replay writers admins, mkAuthority n [] ∅ ∅ ∅ ∅ [] false 0).

(** *** The monad of its methods *)

Definition M (A : Type) : Type := Authority -> Authority * result A.
Definition ret {A} (a : A) : M A := fun s => (s, Ok a).
Definition raise {A} (e : exn) : M A := fun s => (s, Raise e).
Definition bind {A B} (m : M A) (k : A -> M B) : M B :=
  fun s => match m s with (s1, Ok a) => k a s1 | (s1, Raise e) => (s1, Raise e) end.
Definition lift {A} (r : result A) : M A := fun s => (s, r).
Definition get : M Authority := fun s => (s, Ok s).
Definition modify (f : Authority -> Authority) : M unit := fun s => (f s, Ok tt).
Definition raise_when (b : bool) (e : exn) : M unit := if b then raise e else ret tt.

Notation "'do!' x := m 'in' k" := (bind m (fun x => k)) (at level 10, x name, m at level 200, k at level 200) : py_scope.
Notation "'exec!' m 'in' k" := (bind m (fun _ => k)) (at level 10, m at level 200, k at level 200) : py_scope.

(** [for x in l: body(x)], collecting what the body appends *)
Fixpoint for_each {A B} (l : list A) (body : A -> M (list B)) : M (list B) :=
  match l with
  | [] => ret []
  | x :: r => do! a := body x in do! b := for_each r body in ret (a ++ b)
  end.

(** *** Updates of single fields *)

Definition set_pending (l : list PendingTicket) (s : Authority) : Authority :=
  mkAuthority (next_lease_number s) l (active s) (cleanup_pending s) (cleanup_contexts s) (staged s) (replayed s)
    (shutdown_started s) (next_object s).
Definition set_active (m : gmap pystr ActiveAttachment) (s : Authority) : Authority :=
  mkAuthority (next_lease_number s) (pending s) m (cleanup_pending s) (cleanup_contexts s) (staged s) (replayed s)
    (shutdown_started s) (next_object s).
Definition set_cleanup (m : gmap pystr AttachmentTuple) (c : gmap pystr (option Context_)) (s : Authority) : Authority :=
  mkAuthority (next_lease_number s) (pending s) (active s) m c (staged s) (replayed s) (shutdown_started s) (next_object s).
Definition set_staged (m : gmap pystr StagedRecord) (s : Authority) : Authority :=
  mkAuthority (next_lease_number s) (pending s) (active s) (cleanup_pending s) (cleanup_contexts s) m (replayed s)
    (shutdown_started s) (next_object s).

Section Methods.
Context (cfg : Config).

(** [self._replayed.append(digest)] on a deque with a maximal length *)
Definition burn (d : bytes) (s : Authority) : Authority :=
  let l := replayed s ++ [d] in
  mkAuthority (next_lease_number s) (pending s) (active s) (cleanup_pending s) (cleanup_contexts s) (staged s)
    (slice_from (blen l - replay_cache_size cfg) l) (shutdown_started s) (next_object s).

Definition replayed_before (d : bytes) (s : Authority) : bool := existsb (bytes_eqb d) (replayed s).

(** The workspaces of all writer records: active, awaiting cleanup or staged *)
Definition writers (s : Authority) : gset pystr := dom (active s) ∪ dom (cleanup_pending s) ∪ dom (staged s).
Definition record_count (s : Authority) : Z := blen (pending s) + Z.of_nat (size (writers s)).

Definition shutdown_clean (s : Authority) : bool :=
  shutdown_started s && bool_decide (pending s = []) && bool_decide (active s = ∅) && bool_decide (staged s = ∅)
  && bool_decide (cleanup_pending s = ∅) && bool_decide (cleanup_contexts s = ∅).

(** [_admin_count] *)
Definition is_user (u : pystr) (c : option Context_) : bool := match c with Some x => str_eqb (user_id x) u | None => false end.
Definition count_user (u : pystr) (l : list (option Context_)) : Z := blen (filter (fun c => is_user u c = true) l).
Definition admin_count (u : pystr) (s : Authority) : Z :=
  count_user u (map p_context (pending s))
  + count_user u (map (fun kv => a_context (snd kv)) (map_to_list (active s)))
  + count_user u (map snd (map_to_list (cleanup_contexts s)))
  + count_user u (map (fun kv => Some (sa_context (handle (snd kv))))
      (filter (fun kv => active s !! (fst kv) = None /\ cleanup_pending s !! (fst kv) = None) (map_to_list (staged s)))).

(** [_reject_shutdown] *)
Definition reject_shutdown : M unit :=
  do! s := get in raise_when (shutdown_started s) (ticket_error_with STALE "attachment authority is shutting down").

(** [_exact_staged] *)
Definition exact_staged (h : StagedAttachment) : M StagedRecord :=
  do! s := get in
  match staged s !! t_workspace (sa_claims h) with
  | Some r => if bool_decide (handle r = h) then ret r else raise (ticket_error STALE)
  | None => raise (ticket_error STALE)
  end.

(** [fence] *)
Definition fence (h : StagedAttachment) : M unit :=
  do! r := exact_staged h in
  let w := t_workspace (sa_claims h) in
  exec! modify (fun s => set_staged (<[w := mkRecord (handle r) FENCED]> (staged s)) s) in
  exec! modify (fun s => set_active (delete w (active s)) s) in
  modify (fun s => set_cleanup (<[w := sa_claims h]> (cleanup_pending s)) (<[w := Some (sa_context h)]> (cleanup_contexts s)) s).

(** [if workspace in self._staged: self.fence(self._staged[workspace].handle)] *)
Definition fence_if_staged (w : pystr) : M unit :=
  do! s := get in
  match staged s !! w with Some r => fence (handle r) | None => ret tt end.

(** The lines that move an active lease to its cleanup obligation *)
Definition oblige (w : pystr) (a : ActiveAttachment) : M unit :=
  exec! modify (fun s => set_active (delete w (active s)) s) in
  modify (fun s => set_cleanup (<[w := a_claims a]> (cleanup_pending s)) (<[w := a_context a]> (cleanup_contexts s)) s).

(** [_burn_pending_and_fence_live_records] *)
Definition burn_pending_and_fence : M unit :=
  exec! modify (fun s => set_pending [] (fold_left (fun s p => burn (p_digest p) s) (pending s) s)) in
  do! s := get in
  exec! for_each (map_to_list (active s)) (fun '(w, a) =>
          do! s := get in
          exec! match staged s !! w with
                | Some r => fence (handle r)
                | None => oblige w a
                end in
          ret (@nil pystr)) in
  do! s := get in
  exec! for_each (map_to_list (staged s)) (fun '(w, _) =>
          do! s := get in
          match staged s !! w with
          | Some r => if bool_decide (stage r = FENCED) then ret [] else exec! fence (handle r) in ret (@nil pystr)
          | None => ret []
          end) in
  ret tt.

Definition begin_shutdown : M unit :=
  do! s := get in
  if shutdown_started s then ret tt
  else
    exec! modify (fun s => mkAuthority (next_lease_number s) (pending s) (active s) (cleanup_pending s) (cleanup_contexts s)
                             (staged s) (replayed s) true (next_object s)) in
    burn_pending_and_fence.

Definition invalidate_all : M unit := burn_pending_and_fence.

(** [sweep]: the attachments it expired *)
Definition sweep (now : Z) : M (list pystr) :=
  do! s := get in
  do! l1 := for_each (pending s) (fun p =>
              if p_expires_at p <=? now then
                exec! modify (fun s => burn (p_digest p)
                                 (set_pending (filter (fun q => p_digest q <> p_digest p) (pending s)) s)) in
                ret [t_attachment (p_claims p)]
              else ret []) in
  do! s := get in
  do! l2 := for_each (map_to_list (active s)) (fun '(w, a) =>
              if active_at a now then ret []
              else exec! oblige w a in exec! fence_if_staged w in ret [t_attachment (a_claims a)]) in
  do! s := get in
  do! l3 := for_each (map_to_list (staged s)) (fun '(w, _) =>
              do! s := get in
              match staged s !! w with
              | Some r =>
                  if negb (bool_decide (stage r = ACTIVE)) && negb (bool_decide (stage r = FENCED))
                     && (sa_deadline (handle r) <=? now)
                  then exec! fence (handle r) in ret [t_attachment (sa_claims (handle r))]
                  else ret []
              | None => ret []
              end) in
  ret (l1 ++ l2 ++ l3).

(** [_allocate_lease_number] *)
Definition allocate_lease_number : M Z :=
  do! s := get in
  let number := if next_lease_number s =? 0 then 1 else next_lease_number s in
  exec! raise_when (MAX_U64 <? number) (ticket_error SEQUENCE_EXHAUSTED) in
  exec! modify (fun s => mkAuthority (number + 1) (pending s) (active s) (cleanup_pending s) (cleanup_contexts s) (staged s)
                           (replayed s) (shutdown_started s) (next_object s)) in
  ret number.

(** [_new_ticket]; [draw] is what [secrets.token_hex(16)] gives. *)
Definition new_ticket (draw : result pystr) : result pystr :=
  let! token := except_as draw [PyException]
                  (ticket_error_with RANDOMNESS_UNAVAILABLE "secure ticket randomness is unavailable") in
  Ok ($"wat_" ++ token).

(** The [for _ in range(3)] of [issue], over the draws of its rounds *)
Fixpoint unused_ticket (draws : list (result pystr)) (claims : AttachmentTuple) (now : Z) : M (IssuedAttachmentTicket * bytes) :=
  match draws with
  | [] => raise (ticket_error_with CAPACITY "ticket collision")
  | draw :: r =>
      do! t := lift (new_ticket draw) in
      do! issued := lift (new_issued t claims now (now + ticket_ttl cfg)) in
      do! digest := lift (ticket_digest (PStr (ticket issued))) in
      do! s := get in
      if negb (existsb (fun p => bytes_eqb (p_digest p) digest) (pending s)) && negb (replayed_before digest s)
      then ret (issued, digest)
      else unused_ticket r claims now
  end.

Definition issue (now : Z) (workspace : pystr) (project agent attachment gen aepoch host hrev brev digest orig : pyval)
    (context : option Context_) (draw1 draw2 draw3 : result pystr) : M IssuedAttachmentTicket :=
  exec! reject_shutdown in
  exec! sweep now in
  do! s := get in
  exec! raise_when (bool_decide (is_Some (cleanup_pending s !! workspace))
                    || match staged s !! workspace with Some r => bool_decide (stage r = FENCED) | None => false end)
          (ticket_error WRITER_BUSY) in
  exec! raise_when (max_records cfg <=? record_count s) (ticket_error_with CAPACITY "attachment capacity is exhausted") in
  exec! raise_when (match context with Some c => max_per_admin cfg <=? admin_count (user_id c) s | None => false end)
          (ticket_error CAPACITY) in
  do! o := lift (match orig with
                 | PStr o => run! raise_if ((blen o =? 0) || (256 <? blen o)) (ticket_error_with INVALID "origin is invalid") in Ok o
                 | _ => Raise (ticket_error_with INVALID "origin is invalid")
                 end) in
  do! same := lift (match context with Some c => compare_digest (origin c) o | None => Ok true end) in
  exec! raise_when (negb same) (ticket_error_with INVALID "origin does not match attachment context") in
  do! lease_number := allocate_lease_number in
  do! claims := lift (new_tuple (PStr workspace) project agent attachment (PInt lease_number) gen aepoch
                        (PInt (authority_epoch cfg)) host hrev brev digest (PStr $"writer")) in
  do! found := unused_ticket [draw1; draw2; draw3] claims now in
  let '(issued, d) := found in
  exec! modify (fun s => set_pending (pending s ++ [mkPending d claims (i_issued_at issued) (i_expires_at issued) context]) s) in
  ret issued.

(** [self._pending.pop(digest, None)] *)
Definition pop_pending (d : bytes) : M (option PendingTicket) :=
  do! s := get in
  match List.find (fun p => bytes_eqb (p_digest p) d) (pending s) with
  | None => ret None
  | Some p => exec! modify (fun s => set_pending (filter (fun q => p_digest q <> d) (pending s)) s) in ret (Some p)
  end.

Definition consume (now : Z) (ticket_ : pyval) (expected : AttachmentTuple) (context : option Context_) : M ActiveAttachment :=
  exec! reject_shutdown in
  do! d := lift (ticket_digest ticket_) in
  do! found := pop_pending d in
  do! s := get in
  match found with
  | None => raise (if replayed_before d s then ticket_error_with REPLAYED "ticket was already consumed"
                   else ticket_error_with INVALID "ticket is unknown")
  | Some p =>
      exec! modify (burn d) in
      exec! raise_when (p_expires_at p <=? now) (ticket_error_with EXPIRED "ticket has expired") in
      exec! raise_when (negb (same_tuple (p_claims p) expected)) (ticket_error_with STALE "ticket tuple does not match") in
      do! same := lift (same_context (p_context p) context) in
      exec! raise_when (negb same) (ticket_error_with STALE "ticket context does not match") in
      let w := t_workspace expected in
      do! s := get in
      match active s !! w with
      | Some a =>
          if active_at a now then raise (ticket_error_with WRITER_BUSY "workspace writer is busy")
          else
            exec! oblige w a in
            exec! fence_if_staged w in
            raise (ticket_error_with WRITER_BUSY "workspace writer cleanup proof is pending")
      | None =>
          exec! raise_when (bool_decide (is_Some (cleanup_pending s !! w)))
                  (ticket_error_with WRITER_BUSY "workspace writer cleanup proof is pending") in
          exec! raise_when (bool_decide (is_Some (staged s !! w)) || (max_writers cfg <=? Z.of_nat (size (writers s))))
                  (ticket_error WRITER_BUSY) in
          let lease := mkActive expected now now (now + lease_ttl cfg) (now + absolute_lease cfg) (p_context p) in
          exec! modify (fun s => set_active (<[w := lease]> (active s)) s) in
          ret lease
      end
  end.

(** [reserve]; [connection_id] is [None] when the caller passes [None], and the
    presented claims come with a presented runtime epoch. *)
Definition reserve (now : Z) (ticket_ : pyval) (expected : AttachmentTuple) (context : Context_) (connection_id : option Z)
    (started_at : Z) (presented_claims : option pydict) (presented_runtime_epoch : option pystr) : M StagedAttachment :=
  exec! reject_shutdown in
  do! d := lift (ticket_digest ticket_) in
  do! found := pop_pending d in
  do! s := get in
  match found with
  | None => raise (ticket_error (if replayed_before d s then REPLAYED else INVALID))
  | Some p =>
      exec! modify (burn d) in
      match connection_id with
      | None => raise (ticket_error INVALID)
      | Some connection =>
          exec! raise_when ((started_at <? 0) || (now <? started_at)) (ticket_error INVALID) in
          exec! raise_when (p_expires_at p <=? now) (ticket_error EXPIRED) in
          exec! raise_when (started_at + 5 <=? now) (ticket_error STALE) in
          do! mismatch := lift (
            if negb (same_tuple (p_claims p) expected) then Ok true
            else
              let! same := same_context (p_context p) (Some context) in
              Ok (negb same || negb (t_auth_epoch expected =? c_auth_epoch context)
                  || negb (t_authority_epoch expected =? authority_epoch cfg)
                  || match presented_claims, presented_runtime_epoch with
                     | None, None => false
                     | Some pc, Some e => negb (same_presented_tuple (p_claims p) pc) || negb (str_eqb e (runtime_epoch context))
                     | _, _ => true
                     end)) in
          exec! raise_when mismatch (ticket_error STALE) in
          exec! sweep now in
          do! s := get in
          let w := t_workspace expected in
          exec! raise_when (bool_decide (is_Some (active s !! w)) || bool_decide (is_Some (cleanup_pending s !! w))
                            || bool_decide (is_Some (staged s !! w))) (ticket_error WRITER_BUSY) in
          exec! raise_when (max_writers cfg <=? Z.of_nat (size (writers s))) (ticket_error WRITER_BUSY) in
          exec! raise_when (max_per_admin cfg <=? admin_count (user_id context) s) (ticket_error CAPACITY) in
          let h := mkStaged expected context connection started_at (Z.min (started_at + 5) (p_expires_at p))
                     (now + lease_ttl cfg) (now + absolute_lease cfg) (next_object s) in
          exec! modify (fun s => mkAuthority (next_lease_number s) (pending s) (active s) (cleanup_pending s) (cleanup_contexts s)
                                   (<[w := mkRecord h RESERVED]> (staged s)) (replayed s) (shutdown_started s) (next_object s + 1)) in
          ret h
      end
  end.

(** [_check_reserved] *)
Definition check_reserved_ (h : StagedAttachment) (now : Z) : M StagedRecord :=
  do! r := exact_staged h in
  if (now <? sa_started h) || (Z.min (sa_deadline h) (sa_lease_expires h) <=? now)
     || bool_decide (stage r = FENCED) || bool_decide (stage r = ACTIVE)
  then
    exec! (if bool_decide (stage r = ACTIVE) then ret tt else fence h) in
    raise (ticket_error STALE)
  else ret r.

Definition check_reserved (now : Z) (h : StagedAttachment) : M unit := exec! check_reserved_ h now in ret tt.

Definition stage_of (h : StagedAttachment) : M AdmissionStage := do! r := exact_staged h in ret (stage r).

(** [record.stage = stage] *)
Definition set_stage (h : StagedAttachment) (st : AdmissionStage) : M unit :=
  modify (fun s => set_staged (<[t_workspace (sa_claims h) := mkRecord h st]> (staged s)) s).

(** [advance]; a value that is not a stage is [None]. *)
Definition advance (now : Z) (h : StagedAttachment) (next : option AdmissionStage) : M unit :=
  exec! reject_shutdown in
  do! r := check_reserved_ h now in
  match next with
  | Some st =>
      if bool_decide (st = ACTIVE) || bool_decide (st = FENCED) || negb (stage_index st =? stage_index (stage r) + 1)
      then exec! fence h in raise (ticket_error STALE)
      else set_stage h st
  | None => exec! fence h in raise (ticket_error STALE)
  end.

Inductive publication_call : Type := Release | Discard.

(** [activate_with_publication]: [released] and [discarded] are what the two
    calls of the queue do; the calls made are returned with the outcome.  The
    clock is read again after the release. *)
Definition activate_with_publication (now clock2 : Z) (h : StagedAttachment) (released discarded : result unit) (s : Authority)
  : Authority * result ActiveAttachment * list publication_call :=
  match (exec! reject_shutdown in
         do! r := check_reserved_ h now in
         if bool_decide (stage r = ADMITTED_AUDITED) then ret r else exec! fence h in raise (ticket_error STALE)) s with
  | (s1, Raise e) => (s1, Raise e, [])
  | (s1, Ok _) =>
      let lease := mkActive (sa_claims h) now now (sa_lease_expires h) (sa_absolute_expires h) (Some (sa_context h)) in
      match (exec! lift released in
             exec! check_reserved_ h clock2 in
             do! r := exact_staged h in
             raise_when (negb (bool_decide (stage r = ADMITTED_AUDITED))) (ticket_error STALE)) s1 with
      | (s2, Raise _) =>
          match fence h s2 with
          | (s3, Raise e) => (s3, Raise e, [Release])
          | (s3, Ok _) => (s3, match discarded with Ok _ => Raise (ticket_error DELIVERY_FAILED) | Raise e => Raise e end,
                           [Release; Discard])
          end
      | (s2, Ok _) =>
          let '(s3, r) := (exec! set_stage h ACTIVE in
                           exec! modify (fun s => set_active (<[t_workspace (sa_claims h) := lease]> (active s)) s) in
                           ret lease) s2 in
          (s3, r, [Release])
      end
  end.

Definition acknowledge_staged_cleanup (h : StagedAttachment) (connection_id : Z) (cleanup_state : pystr) (failure_audited : bool)
  : M unit :=
  do! r := exact_staged h in
  exec! raise_when (negb (bool_decide (stage r = FENCED)) || negb (connection_id =? sa_connection h)
                    || negb (str_eqb cleanup_state $"ATTACH_PTY_CLOSED") || negb failure_audited) (ticket_error LEASE_MISMATCH) in
  let w := t_workspace (sa_claims h) in
  exec! modify (fun s => set_staged (delete w (staged s)) s) in
  modify (fun s => set_cleanup (delete w (cleanup_pending s)) (delete w (cleanup_contexts s)) s).

(** The lookup of [heartbeat], [is_active] and [detach]: the active lease that
    matches exactly, if any *)
Definition matching_lease (expected : AttachmentTuple) (context : option Context_) : M (option ActiveAttachment) :=
  do! s := get in
  match active s !! t_workspace expected with
  | None => ret None
  | Some a =>
      if negb (same_tuple (a_claims a) expected) then ret None
      else do! same := lift (same_context (a_context a) context) in ret (if same then Some a else None)
  end.

Definition heartbeat (now : Z) (expected : AttachmentTuple) (context : option Context_) : M ActiveAttachment :=
  exec! reject_shutdown in
  do! found := matching_lease expected context in
  let w := t_workspace expected in
  match found with
  | None => raise (ticket_error_with LEASE_MISMATCH "lease does not match")
  | Some a =>
      if active_at a now then
        let updated := mkActive (a_claims a) (a_opened_at a) now (Z.min (now + lease_ttl cfg) (a_absolute_expires a))
                         (a_absolute_expires a) (a_context a) in
        exec! modify (fun s => set_active (<[w := updated]> (active s)) s) in
        ret updated
      else
        exec! oblige w a in
        exec! fence_if_staged w in
        raise (ticket_error_with LEASE_EXPIRED "lease has expired")
  end.

Definition is_active (now : Z) (expected : AttachmentTuple) (context : option Context_) : M bool :=
  do! found := matching_lease expected context in
  let w := t_workspace expected in
  match found with
  | None => ret false
  | Some a =>
      if active_at a now then ret true
      else exec! oblige w a in exec! fence_if_staged w in ret false
  end.

Definition detach (now : Z) (expected : AttachmentTuple) (context : option Context_) : M ActiveAttachment :=
  do! found := matching_lease expected context in
  let w := t_workspace expected in
  match found with
  | None => raise (ticket_error_with LEASE_MISMATCH "lease does not match")
  | Some a =>
      if active_at a now then
        do! s := get in
        match staged s !! w with
        | Some r => exec! fence (handle r) in ret a
        | None => exec! modify (fun s => set_active (delete w (active s)) s) in ret a
        end
      else
        exec! oblige w a in
        exec! fence_if_staged w in
        raise (ticket_error_with LEASE_EXPIRED "lease has expired")
  end.

(** [read_published]; [take] is what the queue's [take] gives. *)
Definition read_published (now : Z) (h : StagedAttachment) (take : result (option bytes)) : M (option bytes) :=
  do! r := exact_staged h in
  if negb (bool_decide (stage r = ACTIVE)) then ret None
  else
    do! live := is_active now (sa_claims h) (Some (sa_context h)) in
    if live then lift take else ret None.

Definition acknowledge_cleanup (expected : AttachmentTuple) (cleanup_state : pystr) : M unit :=
  let w := t_workspace expected in
  do! s := get in
  exec! raise_when (bool_decide (is_Some (staged s !! w))) (ticket_error LEASE_MISMATCH) in
  exec! raise_when (match cleanup_pending s !! w with Some c => negb (same_tuple c expected) | None => true end)
          (ticket_error_with LEASE_MISMATCH "cleanup acknowledgement does not match expired lease") in
  exec! raise_when (negb (str_eqb cleanup_state $"ATTACH_PTY_CLOSED"))
          (ticket_error_with LEASE_MISMATCH "positive PTY cleanup proof is required") in
  modify (fun s => set_cleanup (delete w (cleanup_pending s)) (delete w (cleanup_contexts s)) s).

Definition of_session (sid : pystr) (epoch : Z) (c : Context_) : bool := str_eqb (session_id c) sid && (c_auth_epoch c =? epoch).

(** [revoke_session]: the attachments it revoked *)
Definition revoke_session (sid auth_epoch : pyval) : M (list pystr) :=
  match sid with
  | PStr id =>
      exec! raise_when (blen id =? 0) (ticket_error_with INVALID "session_id is invalid") in
      do! epoch := lift (except_as (validate_positive_u64 auth_epoch "auth_epoch") [PyTypeError; PyValueError]
                           (ticket_error_with INVALID "auth_epoch is invalid")) in
      do! s := get in
      do! l1 := for_each (pending s) (fun p =>
                  match p_context p with
                  | Some c =>
                      if of_session id epoch c then
                        exec! modify (fun s => burn (p_digest p)
                                         (set_pending (filter (fun q => p_digest q <> p_digest p) (pending s)) s)) in
                        ret [t_attachment (p_claims p)]
                      else ret []
                  | None => ret []
                  end) in
      do! s := get in
      do! l2 := for_each (map_to_list (active s)) (fun '(w, a) =>
                  match a_context a with
                  | Some c => if of_session id epoch c then exec! oblige w a in ret [t_attachment (a_claims a)] else ret []
                  | None => ret []
                  end) in
      do! s := get in
      do! l3 := for_each (map_to_list (staged s)) (fun '(w, r) =>
                  if of_session id epoch (sa_context (handle r)) then
                    exec! fence (handle r) in ret [t_attachment (sa_claims (handle r))]
                  else ret []) in
      ret (fold_left (fun revoked x => if str_in x revoked then revoked else revoked ++ [x]) l3 (l1 ++ l2))
  | _ => raise (ticket_error_with INVALID "session_id is invalid")
  end.

End Methods.

(** ** The writer slot of one workspace

    The abstract view of the authority: for each workspace, what its writer slot
    holds.  The four dictionaries are consistent when they show one of these
    cases. *)

Inductive Slot : Type :=
| Free
| Leased (a : ActiveAttachment)
| Expired (c : AttachmentTuple) (x : option Context_)
| Reserved (h : StagedAttachment) (st : AdmissionStage)
| Live (a : ActiveAttachment) (h : StagedAttachment)
| Fenced (h : StagedAttachment).

(** A stage before the writer is live *)
Definition in_admission (st : AdmissionStage) : bool := match st with ACTIVE | FENCED => false | _ => true end.

Definition shows (s : Authority) (w : pystr) (sl : Slot) : Prop :=
  match sl with
  | Free => active s !! w = None /\ cleanup_pending s !! w = None /\ cleanup_contexts s !! w = None /\ staged s !! w = None
  | Leased a => active s !! w = Some a /\ cleanup_pending s !! w = None /\ cleanup_contexts s !! w = None /\ staged s !! w = None
                /\ t_workspace (a_claims a) = w
  | Expired c x => active s !! w = None /\ cleanup_pending s !! w = Some c /\ cleanup_contexts s !! w = Some x
                   /\ staged s !! w = None /\ t_workspace c = w
  | Reserved h st => active s !! w = None /\ cleanup_pending s !! w = None /\ cleanup_contexts s !! w = None
                     /\ staged s !! w = Some (mkRecord h st) /\ t_workspace (sa_claims h) = w /\ in_admission st = true
  | Live a h => active s !! w = Some a /\ cleanup_pending s !! w = None /\ cleanup_contexts s !! w = None
                /\ staged s !! w = Some (mkRecord h ACTIVE) /\ t_workspace (sa_claims h) = w
                /\ a_claims a = sa_claims h /\ a_context a = Some (sa_context h)
  | Fenced h => active s !! w = None /\ cleanup_pending s !! w = Some (sa_claims h)
                /\ cleanup_contexts s !! w = Some (Some (sa_context h)) /\ staged s !! w = Some (mkRecord h FENCED)
                /\ t_workspace (sa_claims h) = w
  end.

Definition consistent (s : Authority) : Prop := forall w, exists sl, shows s w sl.

(** Where a taken slot goes when its writer has to leave *)
Definition settled_form (sl : Slot) : Slot :=
  match sl with
  | Leased a => Expired (a_claims a) (a_context a)
  | Reserved h _ | Live _ h => Fenced h
  | other => other
  end.

(** A slot that stays, or whose writer has to leave: it then waits for its
    acknowledgement. *)
Definition settles (a b : Slot) : Prop := b = a \/ b = settled_form a.

(** What may happen to the slot of a workspace *)
Definition Moves : Type := pystr -> Slot -> Slot -> Prop.

Definition settling : Moves := fun _ => settles.

(** Only the slot of [w] may change, and as [P] says. *)
Definition at_slot (w : pystr) (P : Slot -> Slot -> Prop) : Moves := fun w' a b => a = b \/ w' = w /\ P a b.

(** Every slot of [s] moved once to the one of [s'], as [R] says. *)
Definition evolves (R : Moves) (s s' : Authority) : Prop := forall w, exists a b, shows s w a /\ shows s' w b /\ R w a b.

(** A slot may stay. *)
Definition stays (R : Moves) : Prop := forall w a, R w a a.

(** A move of [Q] before one of [R] is one of [R]. *)
Definition absorbs (Q R : Moves) : Prop := forall w a b c, Q w a b -> R w b c -> R w a c.

Definition same_slots (s s' : Authority) : Prop :=
  active s' = active s /\ cleanup_pending s' = cleanup_pending s /\ cleanup_contexts s' = cleanup_contexts s /\ staged s' = staged s.

(** ** Running the monad *)

Lemma bind_ok {A B} (m : M A) (k : A -> M B) (s s1 : Authority) (a : A) : m s = (s1, Ok a) -> bind m k s = k a s1.
Proof. intros H. unfold bind. by rewrite H. Qed.

Lemma bind_raise {A B} (m : M A) (k : A -> M B) (s s1 : Authority) (e : exn) :
  m s = (s1, Raise e) -> bind m k s = (s1, Raise e).
Proof. intros H. unfold bind. by rewrite H. Qed.

Lemma bind_get {B} (k : Authority -> M B) (s : Authority) : bind get k s = k s s.
Proof. done. Qed.

Lemma bind_ret {A B} (a : A) (k : A -> M B) (s : Authority) : bind (ret a) k s = k a s.
Proof. done. Qed.

Lemma bind_modify {B} (f : Authority -> Authority) (k : unit -> M B) (s : Authority) : bind (modify f) k s = k tt (f s).
Proof. done. Qed.

Lemma bind_assoc {A B C} (m : M A) (k : A -> M B) (j : B -> M C) (s : Authority) :
  bind (bind m k) j s = bind m (fun a => bind (k a) j) s.
Proof. unfold bind. by destruct (m s) as [s1 [a | e]]. Qed.

(** ** Slots: lemmas *)

Lemma shows_unique (s : Authority) (w : pystr) (a b : Slot) : shows s w a -> shows s w b -> a = b.
Proof. destruct a, b; cbn; intros Ha Hb; destruct_and?; simplify_eq; try done; congruence. Qed.

(** The four entries of a workspace *)
Definition agree_at (w : pystr) (s s' : Authority) : Prop :=
  active s' !! w = active s !! w /\ cleanup_pending s' !! w = cleanup_pending s !! w
  /\ cleanup_contexts s' !! w = cleanup_contexts s !! w /\ staged s' !! w = staged s !! w.

(** Only the slot of [w] may have changed. *)
Definition local (w : pystr) (s s' : Authority) : Prop := forall w', w' <> w -> agree_at w' s s'.

(** Nothing outside the slots changed. *)
Definition same_rest (s s' : Authority) : Prop :=
  next_lease_number s' = next_lease_number s /\ pending s' = pending s /\ replayed s' = replayed s
  /\ shutdown_started s' = shutdown_started s /\ next_object s' = next_object s.

Lemma agree_shows (w : pystr) (s s' : Authority) (sl : Slot) : agree_at w s s' -> shows s w sl -> shows s' w sl.
Proof. intros (H1 & H2 & H3 & H4). unfold shows. rewrite H1, H2, H3, H4. done. Qed.

Lemma agree_trans (w : pystr) (s1 s2 s3 : Authority) : agree_at w s1 s2 -> agree_at w s2 s3 -> agree_at w s1 s3.
Proof. unfold agree_at. intros (-> & -> & -> & ->) ?. done. Qed.

Lemma same_slots_agree (s s' : Authority) (w : pystr) : same_slots s s' -> agree_at w s s'.
Proof. intros (H1 & H2 & H3 & H4). unfold agree_at. by rewrite H1, H2, H3, H4. Qed.

Lemma settling_stays : stays settling.
Proof. intros w a. by left. Qed.

Lemma at_slot_stays (w : pystr) (P : Slot -> Slot -> Prop) : stays (at_slot w P).
Proof. intros w' a. by left. Qed.

Lemma settles_trans (a b c : Slot) : settles a b -> settles b c -> settles a c.
Proof. intros [-> | ->] [-> | ->]; unfold settles; [by left | by right | by right | right; by destruct a]. Qed.

Lemma settling_absorbs : absorbs settling settling.
Proof. intros w a b c. apply settles_trans. Qed.

Lemma evolves_refl (R : Moves) (s : Authority) : stays R -> consistent s -> evolves R s s.
Proof. intros HR H w. destruct (H w) as [a Ha]. exists a, a. auto. Qed.

Lemma evolves_same (R : Moves) (s s' : Authority) : stays R -> consistent s -> same_slots s s' -> evolves R s s'.
Proof.
  intros HR H Hs w. destruct (H w) as [a Ha]. exists a, a. split; [done |]. split; [| by apply HR].
  by apply (agree_shows w s s'); [apply same_slots_agree |].
Qed.

Lemma evolves_consistent (R : Moves) (s s' : Authority) : evolves R s s' -> consistent s'.
Proof. intros H w. destruct (H w) as (a & b & _ & Hb & _). by exists b. Qed.

Lemma evolves_mono (Q R : Moves) (s s' : Authority) : (forall w a b, Q w a b -> R w a b) -> evolves Q s s' -> evolves R s s'.
Proof. intros H V w. destruct (V w) as (a & b & Ha & Hb & HQ). exists a, b. auto. Qed.

Lemma evolves_trans (Q R : Moves) (s1 s2 s3 : Authority) : absorbs Q R -> evolves Q s1 s2 -> evolves R s2 s3 -> evolves R s1 s3.
Proof.
  intros HA H1 H2 w. destruct (H1 w) as (a & b & Ha & Hb & R1). destruct (H2 w) as (b' & c & Hb' & Hc & R2).
  rewrite (shows_unique s2 w b b') in R1 by done. exists a, c. split; [done |]. split; [done |]. by eapply HA.
Qed.

Lemma evolves_local (R : Moves) (s s' : Authority) (w : pystr) (a b : Slot) :
  stays R -> consistent s -> local w s s' -> shows s w a -> shows s' w b -> R w a b -> evolves R s s'.
Proof.
  intros HR H Hl Ha Hb HRab w'. destruct (decide (w' = w)) as [-> | Hn]; [by exists a, b |].
  destruct (H w') as [x Hx]. exists x, x. split; [done |]. split; [| by apply HR]. by apply (agree_shows w' s); [apply Hl |].
Qed.

(** *** The primitive moves *)

Definition fenced (w : pystr) (h : StagedAttachment) (s : Authority) : Authority :=
  set_cleanup (<[w := sa_claims h]> (cleanup_pending s)) (<[w := Some (sa_context h)]> (cleanup_contexts s))
    (set_active (delete w (active s)) (set_staged (<[w := mkRecord h FENCED]> (staged s)) s)).

Lemma fence_eq (s : Authority) (h : StagedAttachment) (st : AdmissionStage) :
  staged s !! t_workspace (sa_claims h) = Some (mkRecord h st) ->
  fence h s = (fenced (t_workspace (sa_claims h)) h s, Ok tt).
Proof.
  intros H. unfold fence, exact_staged, bind, get, modify, ret. rewrite H. cbn [handle]. by rewrite bool_decide_true.
Qed.

Lemma fenced_local (w : pystr) (h : StagedAttachment) (s : Authority) : local w s (fenced w h s) /\ same_rest s (fenced w h s).
Proof.
  split; [| by repeat split]. intros w' Hn. unfold agree_at, fenced; cbn.
  by rewrite lookup_delete_ne, !lookup_insert_ne by done.
Qed.

Lemma fenced_shows (w : pystr) (h : StagedAttachment) (s : Authority) :
  t_workspace (sa_claims h) = w -> shows (fenced w h s) w (Fenced h).
Proof. intros <-. unfold fenced, shows; cbn. by rewrite lookup_delete_eq, !lookup_insert_eq. Qed.

(** The slots that hold a staged record *)
Definition staged_in (sl : Slot) : option StagedRecord :=
  match sl with
  | Reserved h st => Some (mkRecord h st)
  | Live _ h => Some (mkRecord h ACTIVE)
  | Fenced h => Some (mkRecord h FENCED)
  | _ => None
  end.

Lemma shows_staged (s : Authority) (w : pystr) (sl : Slot) : shows s w sl -> staged s !! w = staged_in sl.
Proof. destruct sl; cbn; intros H; by destruct_and?. Qed.

Lemma shows_staged_workspace (s : Authority) (w : pystr) (sl : Slot) (r : StagedRecord) :
  shows s w sl -> staged_in sl = Some r -> t_workspace (sa_claims (handle r)) = w.
Proof. destruct sl; cbn; intros H E; simplify_eq; by destruct_and?. Qed.

Lemma fence_slot (sl : Slot) (r : StagedRecord) : staged_in sl = Some r -> settles sl (Fenced (handle r)).
Proof. destruct sl; intros [= <-]; by right. Qed.

(** Fencing the staged record of a consistent authority succeeds. *)
Lemma fence_works (s : Authority) (w : pystr) (sl : Slot) (r : StagedRecord) :
  consistent s -> shows s w sl -> staged_in sl = Some r ->
  fence (handle r) s = (fenced w (handle r) s, Ok tt) /\ evolves settling s (fenced w (handle r) s)
  /\ shows (fenced w (handle r) s) w (Fenced (handle r)).
Proof.
  intros Hc Hs Hr. pose proof (shows_staged_workspace s w sl r Hs Hr) as Hw. pose proof (shows_staged s w sl Hs) as Hst.
  rewrite Hr in Hst. split; [| split; [| by apply fenced_shows]].
  - destruct r as [h st]; cbn [handle] in *. rewrite (fence_eq s h st); by rewrite Hw.
  - apply (evolves_local settling s _ w sl (Fenced (handle r))); [apply settling_stays | done | apply fenced_local | done | by apply fenced_shows | by apply fence_slot].
Qed.

(** The slots that hold an active lease *)
Definition active_in (sl : Slot) : option ActiveAttachment :=
  match sl with Leased a | Live a _ => Some a | _ => None end.

Lemma shows_active (s : Authority) (w : pystr) (sl : Slot) : shows s w sl -> active s !! w = active_in sl.
Proof. destruct sl; cbn; intros H; by destruct_and?. Qed.

(** Where an expired lease goes *)
Definition retired (sl : Slot) : Slot :=
  match sl with
  | Leased a => Expired (a_claims a) (a_context a)
  | Live _ h => Fenced h
  | other => other
  end.

Definition obliged (w : pystr) (a : ActiveAttachment) (s : Authority) : Authority :=
  set_cleanup (<[w := a_claims a]> (cleanup_pending s)) (<[w := a_context a]> (cleanup_contexts s)) (set_active (delete w (active s)) s).

Lemma obliged_local (w : pystr) (a : ActiveAttachment) (s : Authority) : local w s (obliged w a s) /\ same_rest s (obliged w a s).
Proof.
  split; [| by repeat split]. intros w' Hn. unfold agree_at, obliged; cbn. by rewrite lookup_delete_ne, !lookup_insert_ne by done.
Qed.

Lemma local_trans (w : pystr) (s1 s2 s3 : Authority) : local w s1 s2 -> local w s2 s3 -> local w s1 s3.
Proof. intros H1 H2 w' Hn. by eapply agree_trans; [apply H1 | apply H2]. Qed.

Lemma same_rest_trans (s1 s2 s3 : Authority) : same_rest s1 s2 -> same_rest s2 s3 -> same_rest s1 s3.
Proof. unfold same_rest. intros (-> & -> & -> & -> & ->) ?. done. Qed.

Lemma retired_step (sl : Slot) : settles sl (retired sl).
Proof. destruct sl; first [by right | by left]. Qed.

(** Moving an active lease to its obligation, and fencing what is staged there,
    succeeds and retires the slot. *)
Lemma retire_works (s : Authority) (w : pystr) (sl : Slot) (a : ActiveAttachment) :
  consistent s -> shows s w sl -> active_in sl = Some a ->
  exists s', (exec! oblige w a in fence_if_staged w) s = (s', Ok tt)
    /\ evolves settling s s' /\ local w s s' /\ same_rest s s' /\ shows s' w (retired sl).
Proof.
  intros Hc Hs Ha. rewrite (bind_ok _ _ s (obliged w a s) tt) by reflexivity. unfold fence_if_staged. rewrite bind_get.
  destruct (obliged_local w a s) as [L R].
  assert (Hst : staged (obliged w a s) !! w = staged_in sl) by (cbn; by apply shows_staged).
  rewrite Hst. destruct sl as [| a0 | | | a0 h |]; try discriminate Ha; injection Ha as ->; cbn [staged_in retired].
  - exists (obliged w a s). assert (Hsh : shows (obliged w a s) w (Expired (a_claims a) (a_context a))).
    { destruct Hs as (H1 & H2 & H3 & H4 & H5). cbn. rewrite lookup_delete_eq, !lookup_insert_eq. done. }
    split; [done |]. split; [| done]. by apply (evolves_local settling s _ w (Leased a) (Expired (a_claims a) (a_context a))); try done; [apply settling_stays | right].
  - destruct Hs as (H1 & H2 & H3 & H4 & H5 & H6 & H7). cbn [handle].
    rewrite (fence_eq (obliged w a s) h ACTIVE) by (cbn; by rewrite H5). rewrite H5.
    destruct (fenced_local w h (obliged w a s)) as [L2 R2]. exists (fenced w h (obliged w a s)).
    pose proof (fenced_shows w h (obliged w a s) H5) as Hf. pose proof (local_trans w _ _ _ L L2) as LL.
    split; [done |]. split; [| split; [done | split; [by eapply same_rest_trans | done]]].
    apply (evolves_local settling s _ w (Live a h) (Fenced h)); try done; [apply settling_stays | by right].
Qed.

(** *** Loops over workspaces

    A loop whose body changes only the slot of its own item changes each of these
    slots by the effect of its body, and no other. *)
Lemma for_each_slots {A B} (key : A -> pystr) (eff : A -> Slot -> Slot -> Prop) (body : A -> M (list B)) (l : list A) :
  NoDup (map key l) ->
  (forall x a b, x ∈ l -> eff x a b -> settles a b) ->
  (forall x s a b, x ∈ l -> consistent s -> shows s (key x) a -> eff x a b ->
     exists s' r, body x s = (s', Ok r) /\ local (key x) s s' /\ same_rest s s' /\ shows s' (key x) b) ->
  forall s, consistent s -> (forall x, x ∈ l -> exists a b, shows s (key x) a /\ eff x a b) ->
  exists s' r, for_each l body s = (s', Ok r) /\ evolves settling s s' /\ same_rest s s'
    /\ (forall w, w ∉ map key l -> agree_at w s s')
    /\ (forall x, x ∈ l -> exists a b, shows s (key x) a /\ shows s' (key x) b /\ eff x a b).
Proof.
  induction l as [|x l IH]; intros Hn Hstep Hbody s Hc Hpre.
  { exists s, []. split; [done |]. split; [by apply evolves_refl; [apply settling_stays |] |]. split; [done |]. split; [done |].
    intros x Hx. by apply not_elem_of_nil in Hx. }
  cbn [map] in Hn. apply NoDup_cons in Hn as [Hx Hn]. destruct (Hpre x) as (a & b & Ha & He); [by left |].
  destruct (Hbody x s a b) as (s1 & r1 & E1 & L1 & R1 & S1); [by left | done | done | done |].
  assert (V1 : evolves settling s s1) by (apply (evolves_local settling s s1 (key x) a b); try done; [apply settling_stays | apply (Hstep x); [by left | done]]).
  assert (Hkey : forall y, y ∈ l -> key y <> key x).
  { intros y Hy E. apply Hx. rewrite <- E. by apply list_elem_of_fmap_2. }
  destruct (IH Hn) with (s := s1) as (s2 & r2 & E2 & V2 & R2 & A2 & F2).
  - intros y c d Hy. apply Hstep. by right.
  - intros y t c d Hy. apply Hbody. by right.
  - by apply evolves_consistent in V1.
  - intros y Hy. destruct (Hpre y) as (c & d & Hc1 & Hd); [by right |]. exists c, d. split; [| done].
    apply (agree_shows (key y) s); [apply L1; by apply Hkey | done].
  - exists s2, (r1 ++ r2). cbn [for_each]. rewrite (bind_ok _ _ s s1 r1) by done. rewrite (bind_ok _ _ s1 s2 r2) by done.
    split; [done |]. split; [by eapply evolves_trans; [apply settling_absorbs | |] |]. split; [by eapply same_rest_trans |]. split.
    + intros w Hw. cbn [map] in Hw. apply not_elem_of_cons in Hw as [Hw1 Hw2]. eapply agree_trans; [by apply L1 | by apply A2].
    + intros y Hy. apply elem_of_cons in Hy as [-> | Hy].
      * exists a, b. split; [done |]. split; [| done]. apply (agree_shows (key x) s1); [by apply A2 | done].
      * destruct (F2 y Hy) as (c & d & Hc1 & Hd & Hf). exists c, d. split; [| done].
        destruct (Hpre y) as (c' & _ & Hc' & _); [by right |].
        rewrite <- (shows_unique s1 (key y) c' c); [done | | done]. apply (agree_shows (key y) s); [apply L1; by apply Hkey | done].
Qed.

(** Loops over the pending tickets leave the slots alone and only remove tickets. *)
Definition tickets_only (s s' : Authority) : Prop :=
  same_slots s s' /\ next_lease_number s' = next_lease_number s /\ shutdown_started s' = shutdown_started s
  /\ next_object s' = next_object s /\ sublist (pending s') (pending s).

Lemma tickets_only_refl (s : Authority) : tickets_only s s.
Proof. by repeat split. Qed.

Lemma tickets_only_trans (s1 s2 s3 : Authority) : tickets_only s1 s2 -> tickets_only s2 s3 -> tickets_only s1 s3.
Proof.
  unfold tickets_only, same_slots. intros ((-> & -> & -> & ->) & -> & -> & -> & H1) (H2 & -> & -> & -> & H3).
  repeat (split; [done |]). by etransitivity.
Qed.

Lemma for_each_tickets {A B} (body : A -> M (list B)) (l : list A) :
  (forall x s, exists s' r, body x s = (s', Ok r) /\ tickets_only s s') ->
  forall s, exists s' r, for_each l body s = (s', Ok r) /\ tickets_only s s'.
Proof.
  intros Hb. induction l as [|x l IH]; intros s; [exists s, []; split; [done | apply tickets_only_refl] |].
  destruct (Hb x s) as (s1 & r1 & E1 & T1). destruct (IH s1) as (s2 & r2 & E2 & T2). exists s2, (r1 ++ r2).
  cbn [for_each]. rewrite (bind_ok _ _ s s1 r1) by done. rewrite (bind_ok _ _ s1 s2 r2) by done.
  split; [done | by eapply tickets_only_trans].
Qed.

Lemma drop_ticket (cfg : Config) (d : bytes) (s : Authority) :
  tickets_only s (burn cfg d (set_pending (filter (fun q => p_digest q <> d) (pending s)) s)).
Proof. repeat (split; [done |]). cbn. apply sublist_filter. Qed.

Lemma burn_tickets (cfg : Config) (d : bytes) (s : Authority) : tickets_only s (burn cfg d s).
Proof. by repeat split. Qed.

(** *** Items of the snapshots *)

Definition is_live (a : ActiveAttachment) (sl : Slot) : Prop := active_in sl = Some a.

Lemma active_snapshot (s : Authority) :
  consistent s -> NoDup (map fst (map_to_list (active s)))
  /\ forall x, x ∈ map_to_list (active s) -> exists sl, shows s (fst x) sl /\ is_live (snd x) sl.
Proof.
  intros Hc. split; [apply NoDup_fst_map_to_list |]. intros [w a] Hx%elem_of_map_to_list. destruct (Hc w) as [sl Hsl].
  exists sl. split; [done |]. cbn. unfold is_live. by rewrite <- (shows_active s w sl Hsl).
Qed.

Lemma staged_snapshot (s : Authority) :
  consistent s -> NoDup (map fst (map_to_list (staged s)))
  /\ forall x, x ∈ map_to_list (staged s) -> exists sl, shows s (fst x) sl /\ staged_in sl = Some (snd x).
Proof.
  intros Hc. split; [apply NoDup_fst_map_to_list |]. intros [w r] Hx%elem_of_map_to_list. destruct (Hc w) as [sl Hsl].
  exists sl. split; [done |]. cbn. by rewrite <- (shows_staged s w sl Hsl).
Qed.

(** *** Sweeping and fencing all *)

(** The slots settle and tickets may be dropped, but no slot is taken or given back. *)
Definition quiet (s s' : Authority) : Prop :=
  evolves settling s s' /\ next_lease_number s' = next_lease_number s /\ shutdown_started s' = shutdown_started s
  /\ next_object s' = next_object s /\ sublist (pending s') (pending s) /\ forall w a b, shows s w a -> shows s' w b -> settles a b.

Lemma quiet_consistent (s s' : Authority) : quiet s s' -> consistent s'.
Proof. intros (H & _). by apply evolves_consistent in H. Qed.

Lemma quiet_trans (s1 s2 s3 : Authority) : quiet s1 s2 -> quiet s2 s3 -> quiet s1 s3.
Proof.
  intros (V1 & N1 & D1 & O1 & P1 & F1) (V2 & N2 & D2 & O2 & P2 & F2). split; [by eapply evolves_trans; [apply settling_absorbs | |] |].
  rewrite N2, D2, O2. repeat (split; [done |]). split; [by etransitivity |].
  intros w a c Ha Hc. destruct (V1 w) as (_ & b & _ & Hb & _). by apply (settles_trans a b c); [apply (F1 w) | apply (F2 w)].
Qed.

Lemma tickets_quiet (s s' : Authority) : consistent s -> tickets_only s s' -> quiet s s'.
Proof.
  intros Hc (Hs & Hn & Hd & Ho & Hp). split; [by apply evolves_same; [apply settling_stays | |] |]. repeat (split; [done |]). intros w a b Ha Hb. left.
  apply (shows_unique s' w); [done |]. by apply (agree_shows w s); [apply same_slots_agree |].
Qed.

Lemma loop_quiet {A} (key : A -> pystr) (eff : A -> Slot -> Slot -> Prop) (l : list A) (s s' : Authority) :
  evolves settling s s' -> same_rest s s' -> (forall w, w ∉ map key l -> agree_at w s s') ->
  (forall x, x ∈ l -> exists a b, shows s (key x) a /\ shows s' (key x) b /\ eff x a b) ->
  (forall x a b, eff x a b -> settles a b) -> quiet s s'.
Proof.
  intros V (N & P & _ & D & O) Hout Hin Hf. split; [done |]. repeat (split; [done |]). split; [by rewrite P |]. intros w c d Hc Hd.
  destruct (decide (w ∈ map key l)) as [Hw | Hw].
  - apply list_elem_of_fmap in Hw as (x & -> & Hx). destruct (Hin x Hx) as (a & b & Ha & Hb & He).
    rewrite (shows_unique s (key x) c a), (shows_unique s' (key x) d b) by done. by apply (Hf x).
  - left. apply (shows_unique s' w); [done |]. by apply (agree_shows w s); [apply Hout |].
Qed.

(** The effect of the loop over the active leases that retires those that fail a test *)
Definition retire_eff (keep : ActiveAttachment -> bool) (x : pystr * ActiveAttachment) (a b : Slot) : Prop :=
  is_live (snd x) a /\ b = if keep (snd x) then a else retired a.

Lemma retire_eff_step (keep : ActiveAttachment -> bool) (x : pystr * ActiveAttachment) (a b : Slot) :
  retire_eff keep x a b -> settles a b.
Proof. intros [_ ->]. destruct (keep (snd x)); [by left | apply retired_step]. Qed.

Lemma retire_loop {B} (keep : ActiveAttachment -> bool) (body : pystr * ActiveAttachment -> M (list B)) (s : Authority) :
  consistent s ->
  (forall w a t sl, consistent t -> shows t w sl -> is_live a sl ->
     exists t' r, body (w, a) t = (t', Ok r) /\ local w t t' /\ same_rest t t' /\ shows t' w (if keep a then sl else retired sl)) ->
  exists s' r, for_each (map_to_list (active s)) body s = (s', Ok r) /\ quiet s s'
    /\ (forall w a, active s' !! w = Some a -> active s !! w = Some a /\ keep a = true)
    /\ (forall w, active s !! w = None -> agree_at w s s').
Proof.
  intros Hc Hbody. destruct (active_snapshot s Hc) as [Hn Hin].
  destruct (for_each_slots fst (retire_eff keep) body (map_to_list (active s)) Hn) with (s := s) as (s' & r & E & V & R & Out & In).
  - intros x a b _ H. by apply retire_eff_step in H.
  - intros [w a] t sl b _ Ht Hsl [Hl ->]. by apply Hbody.
  - done.
  - intros x Hx. destruct (Hin x Hx) as (sl & Hsl & Hl). exists sl. eexists. split; [done |]. by split.
  - exists s', r. split; [done |].
    assert (Hnot : forall w, active s !! w = None -> w ∉ map fst (map_to_list (active s))).
    { intros w Hw Hx. apply list_elem_of_fmap in Hx as ([w' a] & -> & Hx%elem_of_map_to_list). cbn in Hw. congruence. }
    split; [| split; [| intros w Hw; by apply Out, Hnot]].
    + apply (loop_quiet fst (retire_eff keep) (map_to_list (active s))); try done. intros x a b H. by apply retire_eff_step in H.
    + intros w a Hw. destruct (active s !! w) as [a0 |] eqn:E0.
      2: { destruct (Out w (Hnot w E0)) as (H1 & _). congruence. }
      destruct (In (w, a0)) as (x & y & Hx & Hy & [Hl ->]); [by apply elem_of_map_to_list |]. cbn in *.
      pose proof (shows_active s' w _ Hy) as Ha. rewrite Hw in Ha. unfold is_live in Hl.
      destruct (keep a0) eqn:Ek; [split; congruence |]. by destruct x.
Qed.

(** The loop over the staged records that fences those that pass a test *)
Definition fence_eff (pick : StagedRecord -> bool) (x : pystr * StagedRecord) (a b : Slot) : Prop :=
  exists r, staged_in a = Some r /\ handle r = handle (snd x) /\ b = if pick r then Fenced (handle r) else a.

Lemma fence_loop {B} (pick : StagedRecord -> bool) (body : pystr * StagedRecord -> M (list B)) (s : Authority) :
  consistent s ->
  (forall w r0 r t sl, consistent t -> shows t w sl -> staged_in sl = Some r -> handle r = handle r0 ->
     exists t' l, body (w, r0) t = (t', Ok l) /\ local w t t' /\ same_rest t t' /\ shows t' w (if pick r then Fenced (handle r) else sl)) ->
  exists s' l, for_each (map_to_list (staged s)) body s = (s', Ok l) /\ quiet s s'
    /\ (forall w r, staged s' !! w = Some r -> exists r0, staged s !! w = Some r0 /\ r = if pick r0 then mkRecord (handle r0) FENCED else r0)
    /\ (forall w, staged s !! w = None -> agree_at w s s')
    /\ (forall w, active s !! w = None -> active s' !! w = None).
Proof.
  intros Hc Hbody. destruct (staged_snapshot s Hc) as [Hn Hin].
  destruct (for_each_slots fst (fence_eff pick) body (map_to_list (staged s)) Hn) with (s := s) as (s' & l & E & V & R & Out & In).
  - intros x a b _ (r & Hr & _ & ->). destruct (pick r); [by apply fence_slot | by left].
  - intros [w r0] t sl b _ Ht Hsl (r & Hr & Hh & ->). by apply (Hbody w r0 r).
  - done.
  - intros x Hx. destruct (Hin x Hx) as (sl & Hsl & Hl). exists sl. eexists. split; [done |]. exists (snd x). done.
  - exists s', l. split; [done |].
    assert (Hnot : forall w, staged s !! w = None -> w ∉ map fst (map_to_list (staged s))).
    { intros w Hw Hx. apply list_elem_of_fmap in Hx as ([w' a] & -> & Hx%elem_of_map_to_list). cbn in Hw. congruence. }
    assert (Hcase : forall w r0, staged s !! w = Some r0 ->
      exists a, shows s w a /\ staged_in a = Some r0 /\ shows s' w (if pick r0 then Fenced (handle r0) else a)).
    { intros w r0 E0. destruct (In (w, r0)) as (x & y & Hx & Hy & (r1 & Hr & Hh & ->)); [by apply elem_of_map_to_list |]. cbn in *.
      pose proof (shows_staged s w x Hx) as Hs0. rewrite E0, Hr in Hs0. injection Hs0 as <-. by exists x. }
    split; [| split; [| split; [intros w Hw; by apply Out, Hnot |]]].
    + apply (loop_quiet fst (fence_eff pick) (map_to_list (staged s))); try done. intros x a b (r & Hr & _ & ->).
      destruct (pick r); [by apply fence_slot | by left].
    + intros w r Hw. destruct (staged s !! w) as [r0 |] eqn:E0.
      2: { destruct (Out w (Hnot w E0)) as (_ & _ & _ & H4). congruence. }
      exists r0. split; [done |]. destruct (Hcase w r0 E0) as (a & _ & Ha & Hb). pose proof (shows_staged s' w _ Hb) as Hs1.
      rewrite Hw in Hs1. destruct (pick r0); cbn in Hs1; congruence.
    + intros w Hw. destruct (staged s !! w) as [r0 |] eqn:E0.
      2: { destruct (Out w (Hnot w E0)) as (H1 & _). congruence. }
      destruct (Hcase w r0 E0) as (a & Ha & Hr & Hb). rewrite (shows_active s' w _ Hb). destruct (pick r0); [done |].
      by rewrite <- (shows_active s w a Ha).
Qed.

Section Works.
Context (cfg : Config).

(** Sweeping succeeds and neither takes nor frees a slot. *)
Lemma sweep_works (now : Z) (s : Authority) :
  consistent s -> exists s' l, sweep cfg now s = (s', Ok l) /\ quiet s s'.
Proof.
  intros Hc. unfold sweep. rewrite bind_get.
  destruct (for_each_tickets (fun p =>
      if p_expires_at p <=? now then
        exec! modify (fun s => burn cfg (p_digest p) (set_pending (filter (fun q => p_digest q <> p_digest p) (pending s)) s)) in
        ret [t_attachment (p_claims p)]
      else ret []) (pending s)) with (s := s) as (s1 & l1 & E1 & T1).
  { intros p t. destruct (p_expires_at p <=? now).
    - eexists _, _. split; [reflexivity | apply drop_ticket].
    - exists t, []. split; [done | apply tickets_only_refl]. }
  rewrite (bind_ok _ _ s s1 l1) by exact E1. apply tickets_quiet in T1; [| done]. pose proof (quiet_consistent _ _ T1) as C1.
  rewrite bind_get.
  destruct (retire_loop (fun a => active_at a now) (fun '(w, a) =>
      if active_at a now then ret []
      else exec! oblige w a in exec! fence_if_staged w in ret [t_attachment (a_claims a)]) s1 C1) as (s2 & l2 & E2 & Q2 & _).
  { intros w a t sl Ct Hsl Hl. destruct (active_at a now).
    - exists t, []. split; [done |]. split; [done |]. done.
    - destruct (retire_works t w sl a Ct Hsl Hl) as (t' & Et & Vt & Lt & Rt & St). exists t', [t_attachment (a_claims a)].
      split; [| done]. rewrite <- bind_assoc. by rewrite (bind_ok _ _ t t' tt). }
  rewrite (bind_ok _ _ s1 s2 l2) by exact E2. pose proof (quiet_consistent _ _ Q2) as C2. rewrite bind_get.
  destruct (fence_loop (fun r => negb (bool_decide (stage r = ACTIVE)) && negb (bool_decide (stage r = FENCED))
                                 && (sa_deadline (handle r) <=? now)) (fun '(w, _) =>
      do! s := get in
      match staged s !! w with
      | Some r =>
          if negb (bool_decide (stage r = ACTIVE)) && negb (bool_decide (stage r = FENCED)) && (sa_deadline (handle r) <=? now)
          then exec! fence (handle r) in ret [t_attachment (sa_claims (handle r))]
          else ret []
      | None => ret []
      end) s2 C2) as (s3 & l3 & E3 & Q3 & _).
  { intros w r0 r t sl Ct Hsl Hr _. rewrite bind_get, (shows_staged t w sl Hsl), Hr.
    destruct (negb _ && _ && _).
    - destruct (fence_works t w sl r Ct Hsl Hr) as (Et & _ & St). destruct (fenced_local w (handle r) t) as [Lt Rt].
      eexists _, _. split; [by rewrite (bind_ok _ _ t _ tt) by exact Et |]. done.
    - eexists t, _. split; [reflexivity |]. split; [done |]. done. }
  rewrite (bind_ok _ _ s2 s3 l3) by exact E3. eexists s3, _. split; [reflexivity |].
  by eapply quiet_trans; [| eapply quiet_trans].
Qed.

Lemma burn_all_tickets (l : list PendingTicket) (s : Authority) :
  tickets_only s (fold_left (fun s p => burn cfg (p_digest p) s) l s).
Proof.
  revert s. induction l as [|p l IH]; intros s; cbn [fold_left]; [apply tickets_only_refl |].
  eapply tickets_only_trans; [apply burn_tickets | apply IH].
Qed.

(** Fencing everything succeeds; afterwards no ticket is pending, no lease is
    active and every staged record is fenced. *)
Lemma burn_and_fence_works (s : Authority) :
  consistent s ->
  exists s', burn_pending_and_fence cfg s = (s', Ok tt) /\ quiet s s' /\ pending s' = [] /\ active s' = ∅
    /\ forall w r, staged s' !! w = Some r -> stage r = FENCED.
Proof.
  intros Hc. unfold burn_pending_and_fence. rewrite bind_modify, bind_get. set (s1 := set_pending [] _).
  assert (T1 : tickets_only s s1).
  { eapply tickets_only_trans; [apply (burn_all_tickets (pending s) s) |]. repeat (split; [done |]). apply sublist_nil_l. }
  apply tickets_quiet in T1; [| done]. pose proof (quiet_consistent _ _ T1) as C1.
  destruct (retire_loop (fun _ => false) (fun '(w, a) =>
      do! s := get in
      exec! match staged s !! w with Some r => fence (handle r) | None => oblige w a end in ret (@nil pystr)) s1 C1)
    as (s2 & l2 & E2 & Q2 & A2 & _).
  { intros w a t sl Ct Hsl Hl. rewrite bind_get, (shows_staged t w sl Hsl). unfold is_live in Hl.
    destruct sl as [| b | | | b h |]; try discriminate Hl; injection Hl as ->; cbn [staged_in retired].
    - exists (obliged w a t), []. destruct (obliged_local w a t) as [Lt Rt]. split; [done |]. split; [done |]. split; [done |].
      destruct Hsl as (H1 & H2 & H3 & H4 & H5). cbn. by rewrite lookup_delete_eq, !lookup_insert_eq.
    - destruct (fence_works t w (Live a h) (mkRecord h ACTIVE) Ct Hsl eq_refl) as (Et & _ & St). cbn [handle] in *.
      destruct (fenced_local w h t) as [Lt Rt]. eexists _, _. split; [by rewrite (bind_ok _ _ t _ tt) by exact Et |]. done. }
  rewrite (bind_ok _ _ s1 s2 l2) by exact E2. pose proof (quiet_consistent _ _ Q2) as C2. rewrite bind_get.
  destruct (fence_loop (fun r => negb (bool_decide (stage r = FENCED))) (fun '(w, _) =>
      do! s := get in
      match staged s !! w with
      | Some r => if bool_decide (stage r = FENCED) then ret [] else exec! fence (handle r) in ret (@nil pystr)
      | None => ret []
      end) s2 C2) as (s3 & l3 & E3 & Q3 & F3 & _ & A3).
  { intros w r0 r t sl Ct Hsl Hr _. rewrite bind_get, (shows_staged t w sl Hsl), Hr.
    destruct (bool_decide (stage r = FENCED)); cbn [negb].
    - eexists t, _. split; [reflexivity |]. split; [done |]. done.
    - destruct (fence_works t w sl r Ct Hsl Hr) as (Et & _ & St). destruct (fenced_local w (handle r) t) as [Lt Rt].
      eexists _, _. split; [by rewrite (bind_ok _ _ t _ tt) by exact Et |]. done. }
  rewrite (bind_ok _ _ s2 s3 l3) by exact E3. exists s3. split; [done |].
  split; [by eapply quiet_trans; [| eapply quiet_trans] |]. split.
  - destruct (quiet_trans _ _ _ Q2 Q3) as (_ & _ & _ & _ & Hp & _). by apply sublist_nil_r in Hp.
  - split.
    + apply map_empty. intros w. apply A3. apply eq_None_not_Some. intros [a Ha]. by apply A2 in Ha as [_ ?].
    + intros w r Hw. destruct (F3 w r Hw) as (r0 & _ & ->). case_bool_decide; done.
Qed.

(** *** Revoking a session

    The loop over the leases leaves a fenced record's stage behind until the loop
    over the staged records, so both are followed entry by entry. *)
Definition view (s : Authority) (w : pystr) : option ActiveAttachment * option AttachmentTuple * option (option Context_) * option StagedRecord :=
  (active s !! w, cleanup_pending s !! w, cleanup_contexts s !! w, staged s !! w).

Lemma view_agree (w : pystr) (s s' : Authority) : view s' w = view s w -> agree_at w s s'.
Proof. unfold view, agree_at. intros H. simplify_eq. done. Qed.

Lemma agree_view (w : pystr) (s s' : Authority) : agree_at w s s' -> view s' w = view s w.
Proof. unfold view. intros (-> & -> & -> & ->). done. Qed.

Lemma for_each_views {A B} (key : A -> pystr) (body : A -> M (list B)) (l : list A) :
  NoDup (map key l) -> forall (before after : A -> _) s,
  (forall x t, x ∈ l -> view t (key x) = before x ->
     exists t' r, body x t = (t', Ok r) /\ local (key x) t t' /\ same_rest t t' /\ view t' (key x) = after x) ->
  (forall x, x ∈ l -> view s (key x) = before x) ->
  exists s' r, for_each l body s = (s', Ok r) /\ same_rest s s'
    /\ (forall w, w ∉ map key l -> agree_at w s s') /\ (forall x, x ∈ l -> view s' (key x) = after x).
Proof.
  intros Hn before after s Hbody. revert s Hn Hbody. induction l as [|x l IH]; intros s Hn Hbody Hb.
  { exists s, []. repeat (split; [done |]). intros x Hx. by apply not_elem_of_nil in Hx. }
  cbn [map] in Hn. apply NoDup_cons in Hn as [Hx Hn]. destruct (Hbody x s) as (s1 & r1 & E1 & L1 & R1 & V1); [by left | apply Hb; by left |].
  assert (Hkey : forall y, y ∈ l -> key y <> key x).
  { intros y Hy E. apply Hx. rewrite <- E. by apply list_elem_of_fmap_2. }
  destruct (IH s1) as (s2 & r2 & E2 & R2 & A2 & V2); [done | intros y t Hy; apply Hbody; by right | |].
  { intros y Hy. rewrite (agree_view _ s s1) by (apply L1; by apply Hkey). apply Hb. by right. }
  exists s2, (r1 ++ r2). cbn [for_each]. rewrite (bind_ok _ _ s s1 r1) by done. rewrite (bind_ok _ _ s1 s2 r2) by done.
  split; [done |]. split; [by eapply same_rest_trans |]. split.
  - intros w Hw. cbn [map] in Hw. apply not_elem_of_cons in Hw as [Hw1 Hw2]. eapply agree_trans; [by apply L1 | by apply A2].
  - intros y Hy. apply elem_of_cons in Hy as [-> | Hy]; [| by apply V2]. by rewrite (agree_view _ s1 s2) by (by apply A2).
Qed.

Definition revoked_context (id : pystr) (epoch : Z) (c : option Context_) : bool :=
  match c with Some x => of_session id epoch x | None => false end.

(** What the slot of a workspace holds after the session is revoked *)
Definition revoked_slot (id : pystr) (epoch : Z) (sl : Slot) : Slot :=
  match sl with
  | Leased a => if revoked_context id epoch (a_context a) then Expired (a_claims a) (a_context a) else sl
  | Live _ h | Reserved h _ | Fenced h => if of_session id epoch (sa_context h) then Fenced h else sl
  | Free | Expired _ _ => sl
  end.

Lemma revoked_slot_settles (id : pystr) (epoch : Z) (sl : Slot) :
  settles sl (revoked_slot id epoch sl).
Proof. unfold settles. destruct sl; cbn; try case_match; first [by left | by right]. Qed.

(** The two loops of [revoke_session] over the slots *)
Definition revoke_leases (id : pystr) (epoch : Z) : pystr * ActiveAttachment -> M (list pystr) := fun '(w, a) =>
  match a_context a with
  | Some c => if of_session id epoch c then exec! oblige w a in ret [t_attachment (a_claims a)] else ret []
  | None => ret []
  end.

Definition revoke_staged (id : pystr) (epoch : Z) : pystr * StagedRecord -> M (list pystr) := fun '(_, r) =>
  if of_session id epoch (sa_context (handle r)) then exec! fence (handle r) in ret [t_attachment (sa_claims (handle r))] else ret [].

Lemma revoke_leases_loop (id : pystr) (epoch : Z) (s : Authority) :
  exists s' l, for_each (map_to_list (active s)) (revoke_leases id epoch) s = (s', Ok l) /\ same_rest s s'
    /\ forall w, view s' w = match active s !! w with
                            | Some a => if revoked_context id epoch (a_context a)
                                        then (None, Some (a_claims a), Some (a_context a), staged s !! w) else view s w
                            | None => view s w
                            end.
Proof.
  destruct (for_each_views fst (revoke_leases id epoch) (map_to_list (active s)) (NoDup_fst_map_to_list _)
              (fun x => view s (fst x))
              (fun x => if revoked_context id epoch (a_context (snd x))
                        then (None, Some (a_claims (snd x)), Some (a_context (snd x)), staged s !! fst x) else view s (fst x)) s)
    as (s' & l & E & R & Out & In); [| done |].
  - intros [w a] t Hx Hv. cbn [fst snd] in *. unfold revoke_leases, revoked_context. destruct (a_context a) as [c |] eqn:Ec; [| exists t, []; split; [reflexivity |]; split; [done |]; by split].
    destruct (of_session id epoch c); [| exists t, []; split; [reflexivity |]; split; [done |]; by split]. destruct (obliged_local w a t) as [L T].
    exists (obliged w a t). eexists. split; [reflexivity |]. split; [done |]. split; [done |].
    unfold view in *; cbn. rewrite lookup_delete_eq, !lookup_insert_eq, Ec. congruence.
  - exists s', l. split; [done |]. split; [done |]. intros w. destruct (active s !! w) as [a |] eqn:Ea.
    + by apply (In (w, a)), elem_of_map_to_list.
    + apply agree_view, Out. intros Hx. apply list_elem_of_fmap in Hx as ([w' a] & -> & Hx%elem_of_map_to_list). cbn in Ea. congruence.
Qed.

Lemma revoke_staged_loop (id : pystr) (epoch : Z) (s : Authority) :
  (forall w r, staged s !! w = Some r -> t_workspace (sa_claims (handle r)) = w) ->
  exists s' l, for_each (map_to_list (staged s)) (revoke_staged id epoch) s = (s', Ok l) /\ same_rest s s'
    /\ forall w, view s' w = match staged s !! w with
                            | Some r => let h := handle r in
                                        if of_session id epoch (sa_context h)
                                        then (None, Some (sa_claims h), Some (Some (sa_context h)), Some (mkRecord h FENCED)) else view s w
                            | None => view s w
                            end.
Proof.
  intros Hkey.
  destruct (for_each_views fst (revoke_staged id epoch) (map_to_list (staged s)) (NoDup_fst_map_to_list _)
              (fun x => view s (fst x))
              (fun x => let h := handle (snd x) in
                        if of_session id epoch (sa_context h)
                        then (None, Some (sa_claims h), Some (Some (sa_context h)), Some (mkRecord h FENCED)) else view s (fst x)) s)
    as (s' & l & E & R & Out & In); [| done |].
  - intros [w r] t Hx%elem_of_map_to_list Hv. cbn [fst snd] in *. unfold revoke_staged.
    destruct (of_session id epoch (sa_context (handle r))); [| exists t, []; split; [reflexivity |]; split; [done |]; by split].
    pose proof (Hkey w r Hx) as Hw. assert (Ht : staged t !! w = Some r) by (unfold view in Hv; simplify_eq; congruence).
    destruct r as [h st]; cbn [handle] in *. rewrite (bind_ok _ _ t (fenced w h t) tt).
    2: { rewrite (fence_eq t h st) by (by rewrite Hw). by rewrite Hw. }
    destruct (fenced_local w h t) as [L T]. exists (fenced w h t). eexists. split; [reflexivity |]. split; [done |]. split; [done |].
    unfold view; cbn. by rewrite lookup_delete_eq, !lookup_insert_eq.
  - exists s', l. split; [done |]. split; [done |]. intros w. destruct (staged s !! w) as [r |] eqn:Er.
    + by apply (In (w, r)), elem_of_map_to_list.
    + apply agree_view, Out. intros Hx. apply list_elem_of_fmap in Hx as ([w' r] & -> & Hx%elem_of_map_to_list). cbn in Er. congruence.
Qed.

Lemma revoked_shows (id : pystr) (epoch : Z) (s s' : Authority) (w : pystr) (sl : Slot) :
  shows s w sl ->
  view s' w = match staged s !! w with
              | Some r => let h := handle r in
                          if of_session id epoch (sa_context h)
                          then (None, Some (sa_claims h), Some (Some (sa_context h)), Some (mkRecord h FENCED)) else view s w
              | None => match active s !! w with
                        | Some a => if revoked_context id epoch (a_context a)
                                    then (None, Some (a_claims a), Some (a_context a), staged s !! w) else view s w
                        | None => view s w
                        end
              end ->
  shows s' w (revoked_slot id epoch sl).
Proof.
  intros Hs Hv. rewrite (shows_staged s w sl Hs), (shows_active s w sl Hs) in Hv. unfold view in Hv. unfold view in Hv.
  destruct sl; cbn in Hv |- *; repeat case_match; cbn in Hs |- *; destruct_and?; simplify_eq; repeat split; congruence.
Qed.

(** Revoking succeeds, and each slot of the session waits for its cleanup. *)
Lemma revoke_loops (id : pystr) (epoch : Z) (s : Authority) :
  consistent s ->
  exists s2 s3 l2 l3, for_each (map_to_list (active s)) (revoke_leases id epoch) s = (s2, Ok l2)
    /\ for_each (map_to_list (staged s2)) (revoke_staged id epoch) s2 = (s3, Ok l3)
    /\ quiet s s3 /\ forall w sl, shows s w sl -> shows s3 w (revoked_slot id epoch sl).
Proof.
  intros Hc. destruct (revoke_leases_loop id epoch s) as (s2 & l2 & E2 & R2 & V2).
  assert (Hst : forall w, staged s2 !! w = staged s !! w).
  { intros w. specialize (V2 w). unfold view in V2. repeat case_match; simplify_eq; congruence. }
  destruct (revoke_staged_loop id epoch s2) as (s3 & l3 & E3 & R3 & V3).
  { intros w r Hr. rewrite Hst in Hr. destruct (Hc w) as [sl Hsl]. apply (shows_staged_workspace s w sl); [done |].
    by rewrite <- (shows_staged s w sl Hsl). }
  assert (Hall : forall w sl, shows s w sl -> shows s3 w (revoked_slot id epoch sl)).
  { intros w sl Hsl. apply (revoked_shows id epoch s); [done |]. rewrite V3, Hst, V2. cbn zeta.
    destruct (staged s !! w) as [r |] eqn:Er; [| done]. destruct (of_session id epoch (sa_context (handle r))) eqn:Eo; [done |].
    destruct (active s !! w) as [a |] eqn:Ea; [| done]. rewrite (shows_active s w sl Hsl) in Ea. rewrite (shows_staged s w sl Hsl) in Er.
    destruct sl; try discriminate. injection Ea as ->. injection Er as <-. cbn in Hsl, Eo. destruct_and!. cbn.
    match goal with H : a_context a = _ |- _ => rewrite H end. cbn. by rewrite Eo. }
  exists s2, s3, l2, l3. split; [done |]. split; [done |]. split; [| done].
  destruct (same_rest_trans _ _ _ R2 R3) as (N & P & _ & D & O). split.
  - intros w. destruct (Hc w) as [sl Hsl]. exists sl, (revoked_slot id epoch sl). split; [done |]. split; [by apply Hall |].
    apply revoked_slot_settles.
  - repeat (split; [done |]). split; [by rewrite P |]. intros w a b Ha Hb.
    rewrite (shows_unique s3 w b (revoked_slot id epoch a)) by (done || by apply Hall). apply revoked_slot_settles.
Qed.

(** ** Weakest preconditions

    [wp m Q s]: running [m] from [s] ends in a state and outcome that satisfy
    [Q], whether it returns or raises. *)
Definition wp {A} (m : M A) (Q : Authority -> result A -> Prop) (s : Authority) : Prop := Q (fst (m s)) (snd (m s)).

Lemma twp_bind {A B} (m : M A) (k : A -> M B) (Q : Authority -> result B -> Prop) (s : Authority) :
  wp m (fun s1 r => match r with Ok a => wp (k a) Q s1 | Raise e => Q s1 (Raise e) end) s -> wp (bind m k) Q s.
Proof. unfold wp, bind. by destruct (m s) as [s1 [a | e]]. Qed.

Lemma twp_get {B} (k : Authority -> M B) (Q : Authority -> result B -> Prop) (s : Authority) : wp (k s) Q s -> wp (bind get k) Q s.
Proof. done. Qed.

Lemma twp_modify {B} (f : Authority -> Authority) (k : unit -> M B) (Q : Authority -> result B -> Prop) (s : Authority) :
  wp (k tt) Q (f s) -> wp (bind (modify f) k) Q s.
Proof. done. Qed.

Lemma twp_lift {A} (r : result A) (Q : Authority -> result A -> Prop) (s : Authority) : Q s r -> wp (lift r) Q s.
Proof. done. Qed.

Lemma twp_raise_when (b : bool) (e : exn) (Q : Authority -> result unit -> Prop) (s : Authority) :
  (b = true -> Q s (Raise e)) -> (b = false -> Q s (Ok tt)) -> wp (raise_when b e) Q s.
Proof. destruct b; intros H1 H2; [by apply H1 | by apply H2]. Qed.

Lemma wp_reject (Q : Authority -> result unit -> Prop) (s : Authority) :
  (forall e, Q s (Raise e)) -> (shutdown_started s = false -> Q s (Ok tt)) -> wp reject_shutdown Q s.
Proof. intros H1 H2. apply twp_bind. cbn. apply twp_raise_when; [intros _; apply H1 | done]. Qed.

Lemma wp_exact (h : StagedAttachment) (Q : Authority -> result StagedRecord -> Prop) (s : Authority) :
  (forall st, staged s !! t_workspace (sa_claims h) = Some (mkRecord h st) -> Q s (Ok (mkRecord h st))) ->
  (forall e, Q s (Raise e)) -> wp (exact_staged h) Q s.
Proof.
  intros H1 H2. apply twp_bind. cbn. destruct (staged s !! _) as [[h' st] |] eqn:E; [| apply H2]. cbn [handle].
  case_bool_decide; [subst; by apply H1 | apply H2].
Qed.

(** ** The invariant *)

(** A slot that holds no writer and admits none *)
Definition calm (sl : Slot) : bool := match sl with Free | Expired _ _ | Fenced _ => true | _ => false end.

Record Inv (s : Authority) : Prop := mkInv {
  inv_slots : consistent s;
  inv_writers : Z.of_nat (size (writers s)) <= max_writers cfg;
  inv_records : record_count s <= max_records cfg;
  inv_digests : NoDup (map p_digest (pending s));
  inv_shutdown : shutdown_started s = true -> pending s = [] /\ forall w sl, shows s w sl -> calm sl = true
}.

(** What every method but [issue] guarantees *)
Definition tame (R : Moves) (s s' : Authority) : Prop :=
  Inv s' /\ evolves R s s' /\ sublist (pending s') (pending s) /\ (shutdown_started s = true -> shutdown_started s' = true)
  /\ (shutdown_started s = true -> writers s' ⊆ writers s).

Lemma tame_refl (R : Moves) (s : Authority) : stays R -> Inv s -> tame R s s.
Proof. intros HR H. repeat (split; [first [done | apply evolves_refl; [done | apply H]] |]). done. Qed.

Lemma tame_trans (Q R : Moves) (s1 s2 s3 : Authority) : absorbs Q R -> tame Q s1 s2 -> tame R s2 s3 -> tame R s1 s3.
Proof.
  intros HA (_ & V1 & P1 & D1 & W1) (I2 & V2 & P2 & D2 & W2). split; [done |]. split; [by eapply evolves_trans |].
  split; [by etransitivity |]. split; [auto |]. intros H. etransitivity; auto.
Qed.

Lemma tame_mono (Q R : Moves) (s s' : Authority) : (forall w a b, Q w a b -> R w a b) -> tame Q s s' -> tame R s s'.
Proof. intros H (I1 & V1 & Hrest). split; [done |]. split; [by eapply evolves_mono | done]. Qed.

Lemma writer_shows (s : Authority) (w : pystr) (sl : Slot) : shows s w sl -> w ∈ writers s <-> sl <> Free.
Proof.
  intros H. unfold writers. rewrite !elem_of_union, !elem_of_dom, !is_Some_alt.
  destruct sl; cbn in H; destruct_and?; repeat match goal with E : _ !! w = _ |- _ => rewrite E; clear E end; cbn;
    (split; intros ?; first [tauto | congruence]).
Qed.

Lemma settles_free (a b : Slot) : settles a b -> a = Free <-> b = Free.
Proof. intros [-> | ->]; [done |]. by destruct a. Qed.

Lemma quiet_writers (s s' : Authority) : quiet s s' -> writers s' = writers s.
Proof.
  intros (V & _ & _ & _ & _ & F). apply set_eq. intros w. destruct (V w) as (a & b & Ha & Hb & _).
  rewrite (writer_shows s' w b Hb), (writer_shows s w a Ha). apply not_iff_compat. symmetry. apply settles_free. by eapply F.
Qed.

Lemma sublist_blen {A} (l k : list A) : sublist l k -> blen l <= blen k.
Proof. intros H%sublist_length. unfold blen. lia. Qed.

Lemma sublist_digests (l k : list PendingTicket) : sublist l k -> NoDup (map p_digest k) -> NoDup (map p_digest l).
Proof. intros H Hk. by apply (sublist_NoDup _ (map p_digest k)); [| apply fmap_sublist]. Qed.

Lemma quiet_tame (s s' : Authority) : Inv s -> quiet s s' -> tame settling s s'.
Proof.
  intros [Hc Hw Hr Hd Hs] Q. pose proof (quiet_writers s s' Q) as HW. pose proof (quiet_consistent s s' Q) as Hc'.
  destruct Q as (V & N & D & O & P & F). split; [| split; [done |]; split; [done |]; split; [by rewrite D | by rewrite HW]].
  split; [done | by rewrite HW | | by eapply sublist_digests |].
  - unfold record_count in *. rewrite HW. apply sublist_blen in P. lia.
  - rewrite D. intros H. destruct (Hs H) as [Hp Hcalm]. split; [rewrite Hp in P; by apply sublist_nil_r in P |].
    intros w b Hb. destruct (Hc w) as [a Ha]. pose proof (Hcalm w a Ha). destruct (F w a b Ha Hb) as [-> | ->]; [done | by destruct a].
Qed.

(** The same for calls that look at one workspace only *)
Lemma quiet_tame_at (w : pystr) (s s' : Authority) : Inv s -> quiet s s' -> local w s s' -> tame (at_slot w settles) s s'.
Proof.
  intros I Q L. pose proof (quiet_tame s s' I Q) as (I1 & V & Hrest). split; [done |]. split; [| done]. intros w'.
  destruct (V w') as (a & b & Ha & Hb & R). exists a, b. split; [done |]. split; [done |]. destruct (decide (w' = w)) as [-> | Hn]; [by right |].
  left. apply (shows_unique s' w'); [by apply (agree_shows w' s); [apply L |] | done].
Qed.

(** One slot moves and everything else stays. *)
Definition moved (w : pystr) (a b : Slot) (s s' : Authority) : Prop :=
  local w s s' /\ shows s w a /\ shows s' w b /\ pending s' = pending s
  /\ shutdown_started s' = shutdown_started s.

Lemma moved_evolves (R : Moves) (w : pystr) (a b : Slot) (s s' : Authority) :
  stays R -> R w a b -> consistent s -> moved w a b s s' -> evolves R s s'.
Proof. intros HR Hab Hc (L & Ha & Hb & _). by apply (evolves_local R s s' w a b). Qed.

Lemma moved_shutdown (w : pystr) (a b : Slot) (s s' : Authority) :
  Inv s -> moved w a b s s' -> (shutdown_started s = false \/ calm b = true) ->
  shutdown_started s' = true -> pending s' = [] /\ forall w sl, shows s' w sl -> calm sl = true.
Proof.
  intros I (L & Ha & Hb & P & D) Hcalm. rewrite D, P. intros H. destruct Hcalm as [Hf | Hcalm]; [congruence |].
  destruct (inv_shutdown s I H) as [Hp Hall]. split; [done |]. intros w' sl Hsl. destruct (decide (w' = w)) as [-> | Hn].
  - by rewrite (shows_unique s' w sl b).
  - destruct (inv_slots s I w') as [x Hx]. rewrite (shows_unique s' w' sl x); [by eapply Hall | done |].
    by apply (agree_shows w' s); [apply L |].
Qed.

Lemma moved_writers (w : pystr) (a b : Slot) (s s' : Authority) : consistent s -> moved w a b s s' -> writers s' ⊆ {[w]} ∪ writers s.
Proof.
  intros Hc (L & Ha & Hb & _) w' Hw'. destruct (decide (w' = w)) as [-> | Hn]; [by apply elem_of_union_l, elem_of_singleton |].
  apply elem_of_union_r.
  destruct (Hc w') as [x Hx]. pose proof (agree_shows w' s s' x (L w' Hn) Hx) as Hx'.
  rewrite (writer_shows s' w' x Hx') in Hw'. by rewrite (writer_shows s w' x Hx).
Qed.

(** A taken slot moves, or is given back. *)
Lemma moved_tame (R : Moves) (w : pystr) (a b : Slot) (s s' : Authority) :
  stays R -> R w a b -> Inv s -> a <> Free -> moved w a b s s' -> (shutdown_started s = false \/ calm b = true) -> tame R s s'.
Proof.
  intros HR Hab I Ha Hm Hcalm. pose proof (moved_evolves R w a b s s' HR Hab (inv_slots s I) Hm) as V.
  assert (Hsub : writers s' ⊆ writers s).
  { pose proof (moved_writers w a b s s' (inv_slots s I) Hm) as H. destruct Hm as (_ & Hsa & _).
    assert (Hin : w ∈ writers s) by (by apply (writer_shows s w a Hsa)). intros x Hx%H. apply elem_of_union in Hx as [->%elem_of_singleton | ?]; done. }
  pose proof (subseteq_size _ _ Hsub) as Hsz. pose proof (moved_shutdown w a b s s' I Hm Hcalm) as HS. destruct Hm as (_ & _ & _ & P & D).
  destruct I as [Hc Hw Hr Hd _]. split; [| split; [done |]; by rewrite P, D]. unfold record_count in Hr.
  split; [by apply evolves_consistent in V | lia | unfold record_count; rewrite P; lia | by rewrite P | done].
Qed.

(** A free slot is taken. *)
Lemma taken_tame (R : Moves) (w : pystr) (b : Slot) (s s' : Authority) :
  stays R -> R w Free b -> Inv s -> shutdown_started s = false -> Z.of_nat (size (writers s)) < max_writers cfg -> record_count s < max_records cfg ->
  moved w Free b s s' -> tame R s s'.
Proof.
  intros HR Hb I Hs Hw Hr Hm. pose proof (moved_evolves R w Free b s s' HR Hb (inv_slots s I) Hm) as V.
  pose proof (moved_writers w Free b s s' (inv_slots s I) Hm) as Hsub. apply subseteq_size in Hsub.
  assert (size ({[w]} ∪ writers s) <= S (size (writers s)))%nat by (rewrite size_union_alt, size_singleton, size_difference_alt; lia).
  pose proof (moved_shutdown w Free b s s' I Hm (or_introl Hs)) as HS. destruct Hm as (_ & _ & _ & P & D).
  destruct I as [Hc _ _ Hd _]. split; [| split; [done |]; rewrite P, D; split; [done |]; split; [done | congruence]]. unfold record_count in *.
  split; [by apply evolves_consistent in V | lia | unfold record_count; rewrite P; lia | by rewrite P | done].
Qed.

(** *** Rules for the internal operations *)

Lemma wp_sweep (now : Z) (Q : Authority -> result (list pystr) -> Prop) (s : Authority) :
  Inv s -> (forall s' l, quiet s s' -> Q s' (Ok l)) -> wp (sweep cfg now) Q s.
Proof. intros I H. destruct (sweep_works now s (inv_slots s I)) as (s' & l & E & Qs). unfold wp. rewrite E. by apply H. Qed.

Lemma moved_quiet (w : pystr) (a b : Slot) (s s' : Authority) :
  consistent s -> moved w a b s s' -> same_rest s s' -> settles a b -> quiet s s'.
Proof.
  intros Hc Hm (N & P & _ & D & O) Hs. split; [by apply (moved_evolves settling w a b); [apply settling_stays | | |] |]. destruct Hm as (L & Ha & Hb & _).
  repeat (split; [done |]). split; [by rewrite P |]. intros w' x y Hx Hy. destruct (decide (w' = w)) as [-> | Hn].
  - by rewrite (shows_unique s w x a), (shows_unique s' w y b).
  - left. apply (shows_unique s' w'); [done |]. by apply (agree_shows w' s); [apply L |].
Qed.

Lemma wp_retire {A} (w : pystr) (a : ActiveAttachment) (k : M A) (Q : Authority -> result A -> Prop) (s : Authority) :
  Inv s -> active s !! w = Some a -> (forall s', quiet s s' -> local w s s' -> wp k Q s') ->
  wp (exec! oblige w a in exec! fence_if_staged w in k) Q s.
Proof.
  intros I Ha H. destruct (inv_slots s I w) as [sl Hsl]. pose proof Hsl as Hl. apply shows_active in Hl. rewrite Ha in Hl.
  destruct (retire_works s w sl a (inv_slots s I) Hsl (eq_sym Hl)) as (s' & E & V & L & R & S').
  assert (Qs : quiet s s').
  { apply (moved_quiet w sl (retired sl)); [apply I | | done |].
    - pose proof R as (_ & P & _ & D & _). split; [done |]. split; [done |]. by split.
    - apply retired_step. }
  unfold wp. rewrite <- bind_assoc, (bind_ok _ _ s s' tt) by done. by apply H.
Qed.

Lemma wp_fence (h : StagedAttachment) (st : AdmissionStage) (Q : Authority -> result unit -> Prop) (s : Authority) :
  Inv s -> staged s !! t_workspace (sa_claims h) = Some (mkRecord h st) ->
  (forall s', quiet s s' -> local (t_workspace (sa_claims h)) s s' -> Q s' (Ok tt)) -> wp (fence h) Q s.
Proof.
  intros I Hst H. set (w := t_workspace (sa_claims h)) in *. destruct (inv_slots s I w) as [sl Hsl].
  pose proof (shows_staged s w sl Hsl) as Hr. rewrite Hst in Hr. symmetry in Hr.
  destruct (fence_works s w sl (mkRecord h st) (inv_slots s I) Hsl Hr) as (E & V & S'). unfold wp. cbn [handle] in *. rewrite E.
  destruct (fenced_local w h s) as [L R]. apply H; [| done]. apply (moved_quiet w sl (Fenced h)); [apply I | | done |].
  - pose proof R as (_ & P & _ & D & _). split; [done |]. split; [done |]. by split.
  - by apply (fence_slot sl (mkRecord h st)).
Qed.

(** The record of a staged handle in an admission stage is its slot. *)
Lemma staged_slot (h : StagedAttachment) (st : AdmissionStage) (s : Authority) :
  Inv s -> staged s !! t_workspace (sa_claims h) = Some (mkRecord h st) -> in_admission st = true ->
  shows s (t_workspace (sa_claims h)) (Reserved h st).
Proof.
  intros I Hst Hin. destruct (inv_slots s I (t_workspace (sa_claims h))) as [sl Hsl].
  pose proof (shows_staged _ _ _ Hsl) as Hr. rewrite Hst in Hr. destruct sl; cbn in Hr; simplify_eq; done.
Qed.

Lemma wp_check_reserved (h : StagedAttachment) (now : Z) (Q : Authority -> result StagedRecord -> Prop) (s : Authority) :
  Inv s ->
  (forall st, staged s !! t_workspace (sa_claims h) = Some (mkRecord h st) -> shows s (t_workspace (sa_claims h)) (Reserved h st) ->
     Q s (Ok (mkRecord h st))) ->
  (forall s' e, tame (at_slot (t_workspace (sa_claims h)) settles) s s' -> Q s' (Raise e)) -> wp (check_reserved_ h now) Q s.
Proof.
  intros I H1 H2. apply twp_bind, wp_exact; [| intros e; by apply H2, tame_refl; [apply at_slot_stays |]]. intros st Hst. cbn [stage].
  destruct (_ || _) eqn:E.
  - apply twp_bind. destruct (bool_decide (st = ACTIVE)); [apply H2; by apply tame_refl; [apply at_slot_stays |] |].
    apply (wp_fence h st); [done | done |]. intros s' Qs L. cbn. apply H2. by apply quiet_tame_at.
  - apply H1; [done |]. apply staged_slot; [done | done |]. repeat (apply orb_false_iff in E as [E ?]).
    destruct st; try done; by repeat case_bool_decide.
Qed.

(** A ticket that is presented leaves the pending ones. *)
Definition popped (d : bytes) (s s' : Authority) : Prop :=
  tickets_only s s' /\ pending s' = filter (fun q => p_digest q <> d) (pending s) /\ blen (pending s') < blen (pending s).

Lemma find_digest (d : bytes) (l : list PendingTicket) (p : PendingTicket) :
  List.find (fun p => bytes_eqb (p_digest p) d) l = Some p -> p ∈ l /\ p_digest p = d.
Proof. intros [H1 H2%bytes_eqb_eq]%List.find_some. split; [by apply list_elem_of_In | done]. Qed.

Lemma wp_pop (d : bytes) (Q : Authority -> result (option PendingTicket) -> Prop) (s : Authority) :
  (d ∉ map p_digest (pending s) -> Q s (Ok None)) -> (forall p s', p ∈ pending s -> p_digest p = d -> popped d s s' -> Q s' (Ok (Some p))) -> wp (pop_pending d) Q s.
Proof.
  intros H1 H2. unfold pop_pending. apply twp_bind. cbn. destruct (List.find _ (pending s)) as [p |] eqn:E.
  2: { apply H1. intros (p & -> & Hp%list_elem_of_In)%list_elem_of_fmap. pose proof (List.find_none _ _ E p Hp) as Hn. cbn in Hn.
       by rewrite (proj2 (bytes_eqb_eq _ _) eq_refl) in Hn. }
  apply find_digest in E as [Hin Hd]. apply H2; [done | done |]. split; [| split; [done |]].
  - repeat (split; [done |]). cbn. apply sublist_filter.
  - cbn. unfold blen. pose proof (length_filter_lt (fun q => p_digest q <> d) (pending s) p Hin). cbn in *. naive_solver lia.
Qed.

(** What presenting a ticket does, however it ends *)
Definition spent (R : Moves) (tk : pyval) (s s' : Authority) : Prop :=
  tame R s s' /\ forall d, ticket_digest tk = Ok d -> d ∉ map p_digest (pending s').

Lemma popped_burn (d : bytes) (s s' : Authority) : popped d s s' -> popped d s (burn cfg d s').
Proof. intros (T & P & L). split; [| done]. eapply tickets_only_trans; [done | apply burn_tickets]. Qed.

Lemma popped_quiet (d : bytes) (s s' : Authority) : Inv s -> popped d s s' -> quiet s s'.
Proof. intros I (T & _). apply tickets_quiet; [apply I | done]. Qed.

(** After a pop there is room for one more record. *)
Lemma popped_room (d : bytes) (s s1 s2 : Authority) :
  Inv s -> popped d s s1 -> quiet s1 s2 -> record_count s2 < max_records cfg.
Proof.
  intros I Hp Q2. pose proof (quiet_writers _ _ (popped_quiet d s s1 I Hp)) as W1. pose proof (quiet_writers _ _ Q2) as W2.
  destruct Hp as (_ & _ & L). destruct Q2 as (_ & _ & _ & _ & P & _). apply sublist_blen in P. pose proof (inv_records s I) as R.
  unfold record_count in *. rewrite W2, W1. lia.
Qed.

Lemma quiet_shutdown (s s' : Authority) : quiet s s' -> shutdown_started s' = shutdown_started s.
Proof. by intros (_ & _ & ? & _). Qed.

Lemma free_slot (s : Authority) (w : pystr) :
  Inv s -> active s !! w = None -> cleanup_pending s !! w = None -> staged s !! w = None -> shows s w Free.
Proof.
  intros I Ha Hc Hs. destruct (inv_slots s I w) as [sl Hsl]. destruct sl; [done | ..]; cbn in Hsl; destruct_and!; congruence.
Qed.

Lemma bool_decide_is_Some {A} (o : option A) : bool_decide (is_Some o) = false -> o = None.
Proof. intros H%bool_decide_eq_false. by apply eq_None_not_Some. Qed.

(** *** The methods *)

(** What each method may do to the slot of its workspace *)
Definition leases (e : AttachmentTuple) (a b : Slot) : Prop := settles a b \/ a = Free /\ exists x, a_claims x = e /\ b = Leased x.

Definition reserves (e : AttachmentTuple) : Moves := fun w a b =>
  settles a b \/ w = t_workspace e /\ a = Free /\ exists h, sa_claims h = e /\ b = Reserved h RESERVED.

Definition advances (h : StagedAttachment) (next : option AdmissionStage) (a b : Slot) : Prop :=
  settles a b \/ exists st st', next = Some st' /\ stage_index st' = stage_index st + 1 /\ a = Reserved h st /\ b = Reserved h st'.

Definition activates (h : StagedAttachment) (a b : Slot) : Prop := settles a b \/ a = Reserved h ADMITTED_AUDITED /\ exists x, b = Live x h.

Definition renews (e : AttachmentTuple) (a b : Slot) : Prop :=
  settles a b \/ exists x y, a_claims x = e /\ a_claims y = e /\ a_absolute_expires y = a_absolute_expires x /\ a_lease_expires y <= a_absolute_expires x
    /\ (a = Leased x /\ b = Leased y \/ exists h, a = Live x h /\ b = Live y h).

Definition releases (e : AttachmentTuple) (a b : Slot) : Prop := settles a b \/ exists x, a_claims x = e /\ a = Leased x /\ b = Free.

Definition frees_expired (e : AttachmentTuple) (cleanup : pystr) (a b : Slot) : Prop :=
  cleanup = $"ATTACH_PTY_CLOSED" /\ (exists x, a = Expired e x) /\ b = Free.

Definition frees_fenced (h : StagedAttachment) (connection : Z) (cleanup : pystr) (audited : bool) (a b : Slot) : Prop :=
  cleanup = $"ATTACH_PTY_CLOSED" /\ connection = sa_connection h /\ audited = true /\ a = Fenced h /\ b = Free.

Definition still : Moves := fun _ a b => a = b.

Lemma still_absorbs (R : Moves) : absorbs still R.
Proof. by intros w a b c ->. Qed.

Lemma reserves_stays (e : AttachmentTuple) : stays (reserves e).
Proof. intros w a. left. by left. Qed.

Lemma settling_reserves (e : AttachmentTuple) : absorbs settling (reserves e).
Proof.
  intros w a b c Hab [Hbc | (Hw & -> & Hc)]; [left; by eapply settles_trans |]. right. split; [done |]. split; [| done]. by apply (settles_free a Free).
Qed.

Lemma at_slot_mono (w : pystr) (P : Slot -> Slot -> Prop) (s s' : Authority) : (forall a b, settles a b -> P a b) ->
  tame (at_slot w settles) s s' -> tame (at_slot w P) s s'.
Proof. intros HP. apply tame_mono. intros w' a b [-> | [-> Hs]]; [by left | right; auto]. Qed.

Lemma at_slot_settling (w : pystr) (s s' : Authority) : tame (at_slot w settles) s s' -> tame settling s s'.
Proof. apply tame_mono. intros w' a b [-> | [_ Hs]]; [by left | done]. Qed.

Lemma at_slot_trans (w : pystr) : absorbs (at_slot w settles) (at_slot w settles).
Proof. intros w' a b c [-> | [-> H1]] [-> | [Hw H2]]; [by left | by right | by right |]. right. split; [done |]. by eapply settles_trans. Qed.

Lemma tickets_tame (s s' : Authority) : Inv s -> tickets_only s s' -> tame still s s'.
Proof.
  intros I T. destruct (quiet_tame s s' I (tickets_quiet s s' (inv_slots s I) T)) as (I1 & _ & Hrest). split; [done |]. split; [| done].
  apply evolves_same; [done | apply I | apply T].
Qed.

Ltac stay I := first
  [ by apply tame_refl; [apply at_slot_stays |]
  | by apply quiet_tame
  | by apply quiet_tame_at
  | by apply at_slot_mono; [by left | by apply quiet_tame_at]
  | by apply at_slot_mono; [by left |] ].
Ltac wp_guard := apply twp_bind, twp_raise_when; [intros _ | intros ?].
Ltac lifted := apply twp_bind, twp_lift; match goal with |- context [match ?r with Ok _ => _ | Raise _ => _ end] => destruct r end.

Lemma twp_mono {A} (m : M A) (P Q : Authority -> result A -> Prop) (s : Authority) :
  (forall s' r, P s' r -> Q s' r) -> wp m P s -> wp m Q s.
Proof. unfold wp. auto. Qed.

Lemma sublist_gone (d : bytes) (l k : list PendingTicket) : sublist l k -> d ∉ map p_digest k -> d ∉ map p_digest l.
Proof. intros H Hk Hl. apply Hk. eapply elem_of_sublist; [exact Hl | by apply fmap_sublist]. Qed.

(** The common beginning of [consume] and [reserve] *)
Lemma wp_present {A} (R : Moves) (tk : pyval) (k : bytes -> option PendingTicket -> M A) (s : Authority) :
  stays R -> Inv s -> (forall d s', exists e, k d None s' = (s', Raise e)) ->
  (forall d p s1, shutdown_started s = false -> popped d s (burn cfg d s1) -> Inv (burn cfg d s1) ->
     wp (k d (Some p)) (fun s' _ => tame R (burn cfg d s1) s') s1) ->
  wp (exec! reject_shutdown in do! d := lift (ticket_digest tk) in do! found := pop_pending d in k d found) (fun s' _ => spent R tk s s') s.
Proof.
  intros HR I Hnone Hsome. apply twp_bind. unfold reject_shutdown. apply twp_get.
  apply twp_raise_when; intros Hs.
  { split; [by apply tame_refl |]. intros d _. destruct (inv_shutdown s I Hs) as [-> _]. apply not_elem_of_nil. }
  apply twp_bind, twp_lift. destruct (ticket_digest tk) as [d |] eqn:Ed; [| split; [by apply tame_refl | rewrite Ed; discriminate]].
  apply twp_bind, wp_pop.
  - intros Hd. unfold wp. destruct (Hnone d s) as [e ->]. split; [by apply tame_refl |]. rewrite Ed. by intros ? [= <-].
  - intros p s1 _ _ Hp. apply popped_burn in Hp. pose proof (popped_quiet _ s _ I Hp) as Q1. pose proof (quiet_tame s _ I Q1) as T1.
    apply (twp_mono _ (fun s' _ => tame R (burn cfg d s1) s')); [| apply Hsome; [done | done | apply T1]].
    intros s' _ T2. split; [by eapply tame_trans; [apply (still_absorbs R) | apply tickets_tame; [done | apply Hp] |] |]. rewrite Ed. intros ? [= <-]. destruct T2 as (_ & _ & Hsub & _).
    apply (sublist_gone d _ _ Hsub). destruct Hp as (_ & -> & _). intros (q & -> & [? _]%list_elem_of_filter)%list_elem_of_fmap. done.
Qed.

(** The guards that found a slot free and room for it *)
Ltac room :=
  repeat match goal with
  | H : _ || _ = false |- _ => apply orb_false_iff in H as [? ?]
  | H : bool_decide _ = false |- _ => apply bool_decide_is_Some in H
  | H : (_ <=? _) = false |- _ => apply Z.leb_gt in H
  end.

Lemma consume_tame (now : Z) (tk : pyval) (expected : AttachmentTuple) (context : option Context_) (s : Authority) :
  Inv s -> wp (consume cfg now tk expected context) (fun s' _ => spent (at_slot (t_workspace expected) (leases expected)) tk s s') s.
Proof.
  intros I. unfold consume. apply (wp_present _ tk); [apply at_slot_stays | done | by eexists |]. intros d p s0 Hs Hp I1. apply twp_get, twp_modify.
  set (R := at_slot _ _). set (s1 := burn _ _ s0) in *. pose proof (popped_quiet _ s s1 I Hp) as Q1.
  assert (T1 : tame R s1 s1) by (by apply tame_refl; [apply at_slot_stays |]). wp_guard; [done |]. wp_guard; [done |]. lifted; [| done]. wp_guard; [done |].
  apply twp_get. destruct (active s1 !! t_workspace expected) as [a' |] eqn:Ea.
  - destruct (active_at a' now); [done |]. apply wp_retire; [done | done |]. intros s2 Q2 L2. stay I1.
  - wp_guard; [done |]. wp_guard; [done |]. room.
    assert (Hf : shows s1 (t_workspace expected) Free) by (by apply free_slot). apply twp_modify. set (x := mkActive _ _ _ _ _ _).
    apply (taken_tame R (t_workspace expected) (Leased x)); [apply at_slot_stays | | done | by rewrite (quiet_shutdown _ _ Q1) | done | |].
    + right. split; [done |]. right. split; [done |]. by exists x.
    + apply (popped_room _ s s1 s1 I Hp). apply tickets_quiet; [apply I1 | apply tickets_only_refl].
    + destruct Hf as (F1 & F2 & F3 & F4). split; [| split; [done |]; split; [| done]].
      * intros w' Hn. unfold agree_at; cbn. by rewrite lookup_insert_ne by done.
      * cbn. rewrite lookup_insert_eq. done.
Qed.

Lemma reserve_tame (now : Z) (tk : pyval) (expected : AttachmentTuple) (context : Context_) (connection : option Z) (started : Z)
    (pc : option pydict) (pe : option pystr) (s : Authority) :
  Inv s -> wp (reserve cfg now tk expected context connection started pc pe) (fun s' _ => spent (reserves expected) tk s s') s.
Proof.
  intros I. unfold reserve. apply (wp_present _ tk); [apply reserves_stays | done | by eexists |]. intros d p s0 Hs Hp I1. apply twp_get, twp_modify.
  set (s1 := burn _ _ s0) in *. pose proof (popped_quiet _ s s1 I Hp) as Q1.
  assert (T1 : tame (reserves expected) s1 s1) by (by apply tame_refl; [apply reserves_stays |]).
  destruct connection as [conn |]; [| done]. do 3 (wp_guard; [done |]). lifted; [| done]. wp_guard; [done |].
  apply twp_bind, wp_sweep; [done |]. intros s2 l Q2. apply twp_get.
  assert (T2 : tame settling s1 s2) by (by apply quiet_tame). assert (I2 : Inv s2) by apply T2.
  assert (T2' : tame (reserves expected) s1 s2) by (eapply tame_mono; [| exact T2]; by left).
  do 3 (wp_guard; [done |]).
  room.
  assert (Hf : shows s2 (t_workspace expected) Free) by (by apply free_slot).
  apply twp_modify. eapply tame_trans; [apply settling_reserves | exact T2 |]. set (h := mkStaged _ _ _ _ _ _ _ _).
  apply (taken_tame _ (t_workspace expected) (Reserved h RESERVED)); [apply reserves_stays | | done | | done | |].
  - right. split; [done |]. split; [done |]. by exists h.
  - by rewrite (quiet_shutdown _ _ Q2), (quiet_shutdown _ _ Q1).
  - by apply (popped_room _ s s1 s2 I Hp).
  - destruct Hf as (F1 & F2 & F3 & F4). split; [| split; [done |]; split; [| done]].
    + intros w' Hn. unfold agree_at; cbn. by rewrite lookup_insert_ne by done.
    + cbn. rewrite lookup_insert_eq. done.
Qed.

Lemma wp_unused (draws : list (result pystr)) (claims : AttachmentTuple) (now : Z)
    (Q : Authority -> result (IssuedAttachmentTicket * bytes) -> Prop) (s : Authority) :
  (forall e, Q s (Raise e)) -> (forall i d, ticket_digest (PStr (ticket i)) = Ok d -> d ∉ map p_digest (pending s) -> Q s (Ok (i, d))) ->
  wp (unused_ticket cfg draws claims now) Q s.
Proof.
  intros H1 H2. induction draws as [|r draws IH]; cbn [unused_ticket]; [apply H1 |].
  lifted; [| apply H1]. lifted; [| apply H1]. apply twp_bind, twp_lift. destruct (ticket_digest _) as [d |] eqn:Ed; [| apply H1].
  apply twp_get. destruct (existsb _ _) eqn:E; [apply IH |]. cbn [negb andb]. destruct (replayed_before _ s); [apply IH |].
  apply H2; [done |]. intros (p & -> & Hp)%list_elem_of_fmap. apply not_true_iff_false in E. apply E, existsb_exists.
  exists p. split; [by apply list_elem_of_In | by apply bytes_eqb_eq].
Qed.

(** The slots and the other fields after a change of one of the rest *)
Lemma same_inv (s s' : Authority) :
  Inv s -> same_slots s s' -> shutdown_started s' = shutdown_started s -> (shutdown_started s = true -> pending s' = pending s) ->
  record_count s' <= max_records cfg -> NoDup (map p_digest (pending s')) -> Inv s' /\ evolves settling s s'.
Proof.
  intros [Hc Hw Hr Hd Hs] SS D P R N. pose proof (evolves_same settling s s' settling_stays Hc SS) as V. split; [| done].
  assert (HW : writers s' = writers s) by (destruct SS as (H1 & H2 & H3 & H4); unfold writers; by rewrite H1, H2, H4).
  split; [by apply evolves_consistent in V | by rewrite HW | done | done |]. rewrite D. intros H. destruct (Hs H) as [Hp Hcalm].
  split; [by rewrite P |]. intros w sl Hsl. apply (Hcalm w). apply (agree_shows w s'); [| done].
  destruct SS as (H1 & H2 & H3 & H4). repeat split; by rewrite ?H1, ?H2, ?H3, ?H4.
Qed.

Lemma issue_inv (now : Z) (w : pystr) (project agent attachment gen aepoch host hrev brev digest orig : pyval)
    (context : option Context_) (d1 d2 d3 : result pystr) (s : Authority) :
  Inv s -> wp (issue cfg now w project agent attachment gen aepoch host hrev brev digest orig context d1 d2 d3)
             (fun s' _ => Inv s' /\ evolves settling s s' /\ (shutdown_started s = true -> s' = s)) s.
Proof.
  intros I. unfold issue. apply twp_bind, wp_reject; [intros _; split; [done | split; [apply evolves_refl; [apply settling_stays | apply I] | done]] | intros Hs].
  assert (Hd0 : forall t, shutdown_started s = true -> t = s) by (intros t H; congruence). apply twp_bind, wp_sweep; [done |]. intros s1 l Q1.
  destruct (quiet_tame s s1 I Q1) as (I1 & V1 & _).
  assert (S1 : Inv s1 /\ evolves settling s s1 /\ (shutdown_started s = true -> s1 = s)) by auto. apply twp_get. wp_guard; [done |]. wp_guard; [done |]. room. wp_guard; [done |].
  lifted; [| done]. lifted; [| done]. wp_guard; [done |]. unfold allocate_lease_number. apply twp_bind, twp_get. cbn beta zeta.
  wp_guard; [done |]. apply twp_modify. set (s2 := mkAuthority _ _ _ _ _ _ _ _ _).
  assert (S2 : Inv s2 /\ evolves settling s1 s2) by (apply same_inv; [done | done | done | done | apply I1 | apply I1]).
  destruct S2 as [I2 V2]. pose proof (evolves_trans _ _ _ _ _ settling_absorbs V1 V2) as V.
  assert (S2 : Inv s2 /\ evolves settling s s2 /\ (shutdown_started s = true -> s2 = s)) by auto. cbn beta iota. unfold wp at 1, ret at 1 2. cbn [fst snd].
  lifted; [| done]. apply twp_bind, wp_unused; [done |]. intros i d _ Hd. apply twp_modify. unfold wp, ret. cbn [fst snd].
  destruct (same_inv s2 (set_pending (pending s2 ++ [mkPending d a1 (i_issued_at i) (i_expires_at i) context]) s2)) as [I3 V3];
    [done | done | done | | | | split; [done | split; [by eapply evolves_trans; [apply settling_absorbs | |] | apply Hd0]]].
  - change (shutdown_started s2) with (shutdown_started s1). rewrite (quiet_shutdown _ _ Q1), Hs. done.
  - unfold record_count in *. change (writers (set_pending _ s2)) with (writers s1). cbn [pending set_pending].
    change (pending s2) with (pending s1) in *. unfold blen in *. rewrite length_app. cbn [length]. lia.
  - cbn [pending set_pending]. rewrite map_app. apply NoDup_app. split; [apply I2 |]. cbn [map]. split; [| apply NoDup_singleton].
    intros x Hx ->%list_elem_of_singleton. done.
Qed.

(** Fencing a staged record and raising *)
Lemma fence_raise {A} (h : StagedAttachment) (st : AdmissionStage) (e : exn) (s : Authority) :
  Inv s -> staged s !! t_workspace (sa_claims h) = Some (mkRecord h st) ->
  wp (exec! fence h in @raise A e) (fun s' _ => tame (at_slot (t_workspace (sa_claims h)) settles) s s') s.
Proof. intros I Hst. apply twp_bind, (wp_fence h st); [done | done |]. intros s' Q L. by apply quiet_tame_at. Qed.

Lemma check_reserved_tame (now : Z) (h : StagedAttachment) (s : Authority) :
  Inv s -> wp (check_reserved now h) (fun s' _ => tame (at_slot (t_workspace (sa_claims h)) settles) s s') s.
Proof. intros I. apply twp_bind, wp_check_reserved; [done | intros; stay I | done]. Qed.

Lemma advance_tame (now : Z) (h : StagedAttachment) (next : option AdmissionStage) (s : Authority) :
  Inv s -> wp (advance now h next) (fun s' _ => tame (at_slot (t_workspace (sa_claims h)) (advances h next)) s s') s.
Proof.
  intros I. assert (K : forall s', tame (at_slot (t_workspace (sa_claims h)) settles) s s' -> tame (at_slot (t_workspace (sa_claims h)) (advances h next)) s s')
    by (intros s'; apply at_slot_mono; by left).
  assert (F : forall st e, staged s !! t_workspace (sa_claims h) = Some (mkRecord h st) ->
    wp (exec! fence h in @raise unit e) (fun s' _ => tame (at_slot (t_workspace (sa_claims h)) (advances h next)) s s') s)
    by (intros st e Hst; eapply twp_mono; [| by apply (fence_raise h st)]; auto).
  apply twp_bind, wp_reject; [intros; stay I | intros Hs]. apply twp_bind, wp_check_reserved; [done | | auto].
  intros st Hst Hsl. destruct next as [st' |]; [| by apply (F st)]. cbn [stage].
  destruct (_ || _) eqn:E; [by apply (F st) |].
  repeat (apply orb_false_iff in E as [E ?]). match goal with H : negb _ = false |- _ => apply negb_false_iff, Z.eqb_eq in H as Hi end.
  assert (Hin : in_admission st' = true) by (destruct st'; try done; by repeat case_bool_decide).
  set (w := t_workspace (sa_claims h)) in *. apply (moved_tame _ w (Reserved h st) (Reserved h st')); [apply at_slot_stays | | done | done | | by left].
  { right. split; [done |]. right. by exists st, st'. }
  split; [| split; [done |]; split; [| done]].
  - intros w' Hn. unfold agree_at; cbn. by rewrite lookup_insert_ne by done.
  - destruct Hsl as (H1 & H2 & H3 & H4 & H5 & H6). cbn. rewrite lookup_insert_eq. done.
Qed.

Lemma acknowledge_staged_tame (h : StagedAttachment) (connection : Z) (cleanup : pystr) (audited : bool) (s : Authority) :
  Inv s -> wp (acknowledge_staged_cleanup h connection cleanup audited)
             (fun s' _ => tame (at_slot (t_workspace (sa_claims h)) (frees_fenced h connection cleanup audited)) s s') s.
Proof.
  intros I. apply twp_bind, wp_exact; [| intros; stay I]. intros st Hst. wp_guard; [stay I |].
  repeat match goal with H : _ || _ = false |- _ => apply orb_false_iff in H as [H ?] end.
  match goal with H : negb (bool_decide _) = false |- _ => apply negb_false_iff, bool_decide_eq_true in H; cbn in H; subst st end.
  repeat match goal with H : negb _ = false |- _ => apply negb_false_iff in H end.
  match goal with H : (_ =? _) = true |- _ => apply Z.eqb_eq in H end. match goal with H : str_eqb _ _ = true |- _ => apply str_eqb_eq in H end.
  set (w := t_workspace (sa_claims h)) in *. destruct (inv_slots s I w) as [sl Hsl]. pose proof (shows_staged s w sl Hsl) as Hr.
  rewrite Hst in Hr. destruct sl as [| | | h0 st | |h0]; cbn in Hr; simplify_eq; [by destruct Hsl as (_ & _ & _ & _ & _ & ?) |].
  apply twp_modify. eapply (moved_tame _ w (Fenced _) Free); [apply at_slot_stays | by right | done | done | | by right].
  split; [| split; [done |]; split; [| done]].
  - intros w' Hn. unfold agree_at; cbn. by rewrite !lookup_delete_ne by done.
  - destruct Hsl as (? & _). cbn. by rewrite !lookup_delete_eq.
Qed.

Lemma acknowledge_tame (expected : AttachmentTuple) (cleanup : pystr) (s : Authority) :
  Inv s -> wp (acknowledge_cleanup expected cleanup) (fun s' _ => tame (at_slot (t_workspace expected) (frees_expired expected cleanup)) s s') s.
Proof.
  intros I. unfold acknowledge_cleanup. apply twp_get. wp_guard; [stay I |]. room. apply twp_bind, twp_raise_when; [intros; stay I | intros Hc].
  wp_guard; [stay I |]. match goal with H : negb (str_eqb _ _) = false |- _ => apply negb_false_iff, str_eqb_eq in H end.
  set (w := t_workspace expected) in *. destruct (inv_slots s I w) as [sl Hsl].
  destruct (cleanup_pending s !! w) as [c |] eqn:Ec; [| discriminate]. apply negb_false_iff, bool_decide_eq_true in Hc as ->.
  destruct sl as [| | c0 x | | |]; try (cbn in Hsl; destruct_and!; congruence).
  assert (c0 = expected) as -> by (cbn in Hsl; destruct_and!; congruence).
  apply (moved_tame _ w (Expired expected x) Free); [apply at_slot_stays | right; split; [done |]; split; [done |]; split; [by exists x | done] | done | done | | by right].
  split; [| split; [done |]; split; [| done]].
  - intros w' Hn. unfold agree_at; cbn. by rewrite !lookup_delete_ne by done.
  - destruct Hsl as (? & _). cbn. by rewrite !lookup_delete_eq.
Qed.

Lemma wp_matching (expected : AttachmentTuple) (context : option Context_) (Q : Authority -> result (option ActiveAttachment) -> Prop)
    (s : Authority) :
  (forall e, Q s (Raise e)) -> Q s (Ok None) ->
  (forall a, active s !! t_workspace expected = Some a -> a_claims a = expected -> Q s (Ok (Some a))) -> wp (matching_lease expected context) Q s.
Proof.
  intros H1 H2 H3. unfold matching_lease. apply twp_get. destruct (active s !! _) as [a |] eqn:E; [| done].
  unfold same_tuple. case_bool_decide as Hc; cbn [negb]; [| done]. apply twp_bind, twp_lift.
  destruct (same_context _ _) as [[] | e]; [by apply H3 | done | apply H1].
Qed.

Lemma heartbeat_tame (now : Z) (expected : AttachmentTuple) (context : option Context_) (s : Authority) :
  Inv s -> wp (heartbeat cfg now expected context) (fun s' _ => tame (at_slot (t_workspace expected) (renews expected)) s s') s.
Proof.
  intros I. apply twp_bind, wp_reject; [intros; stay I | intros Hs]. apply twp_bind, wp_matching; [intros; stay I | stay I |].
  intros a Ha Hc. destruct (active_at a now); [| apply wp_retire; [done | done | intros s' Q L; stay I]].
  apply twp_modify. set (w := t_workspace expected) in *. destruct (inv_slots s I w) as [sl Hsl]. pose proof (shows_active s w sl Hsl) as Hr.
  rewrite Ha in Hr. set (u := mkActive _ _ _ _ _ _).
  assert (Hl : local w s (set_active (<[w := u]> (active s)) s)).
  { intros w' Hn. unfold agree_at; cbn. by rewrite lookup_insert_ne by done. }
  destruct sl as [| a0 | | | a0 h |]; try discriminate Hr; injection Hr as <-.
  - apply (moved_tame _ w (Leased a) (Leased u)); [apply at_slot_stays | | done | done | | by left].
    + right. split; [done |]. right. exists a, u. repeat (split; [done || (cbn; lia) |]). by left.
    + split; [done |]. split; [done |]. split; [| done]. destruct Hsl as (H1 & H2 & H3 & H4 & H5). cbn. by rewrite lookup_insert_eq.
  - apply (moved_tame _ w (Live a h) (Live u h)); [apply at_slot_stays | | done | done | | by left].
    + right. split; [done |]. right. exists a, u. repeat (split; [done || (cbn; lia) |]). right. by exists h.
    + split; [done |]. split; [done |]. split; [| done]. destruct Hsl as (H1 & H2 & H3 & H4 & H5 & H6 & H7). cbn. by rewrite lookup_insert_eq.
Qed.

Lemma is_active_tame (now : Z) (expected : AttachmentTuple) (context : option Context_) (s : Authority) :
  Inv s -> wp (is_active now expected context) (fun s' _ => tame (at_slot (t_workspace expected) settles) s s') s.
Proof.
  intros I. apply twp_bind, wp_matching; [intros; stay I | stay I |]. intros a Ha Hc. destruct (active_at a now); [stay I |].
  apply wp_retire; [done | done | intros s' Q L; stay I].
Qed.

Lemma detach_tame (now : Z) (expected : AttachmentTuple) (context : option Context_) (s : Authority) :
  Inv s -> wp (detach now expected context) (fun s' _ => tame (at_slot (t_workspace expected) (releases expected)) s s') s.
Proof.
  intros I. apply twp_bind, wp_matching; [intros; stay I | stay I |]. intros a Ha Hc.
  destruct (active_at a now); [| apply wp_retire; [done | done | intros s' Q L; stay I]].
  apply twp_get. set (w := t_workspace expected) in *. destruct (inv_slots s I w) as [sl Hsl].
  pose proof (shows_active s w sl Hsl) as Hr. rewrite Ha in Hr. rewrite (shows_staged s w sl Hsl).
  destruct sl as [| a0 | | | a0 h |]; try discriminate Hr; injection Hr as <-; cbn [staged_in handle].
  - apply twp_modify, (moved_tame _ w (Leased a) Free); [apply at_slot_stays | | done | done | | by right].
    + right. split; [done |]. right. by exists a.
    + split; [| split; [done |]; split; [| done]].
      * intros w' Hn. unfold agree_at; cbn. by rewrite lookup_delete_ne by done.
      * destruct Hsl as (H1 & H2 & H3 & H4 & H5). cbn. by rewrite lookup_delete_eq.
  - destruct Hsl as (H1 & H2 & H3 & H4 & H5 & H6 & H7). apply twp_bind, (wp_fence h ACTIVE); [done | by rewrite H5 |].
    intros s' Q L. rewrite H5 in L. stay I.
Qed.

Lemma read_published_tame (now : Z) (h : StagedAttachment) (tk : result (option bytes)) (s : Authority) :
  Inv s -> wp (read_published now h tk) (fun s' _ => tame (at_slot (t_workspace (sa_claims h)) settles) s s') s.
Proof.
  intros I. apply twp_bind, wp_exact; [| intros; stay I]. intros st _. destruct (negb _); [stay I |]. apply twp_bind.
  pose proof (is_active_tame now (sa_claims h) (Some (sa_context h)) s I) as H. unfold wp in *.
  destruct (is_active _ _ _ s) as [s1 [[] | e]]; done.
Qed.

Lemma fence_tame (h : StagedAttachment) (s : Authority) : Inv s -> wp (fence h) (fun s' _ => tame (at_slot (t_workspace (sa_claims h)) settles) s s') s.
Proof.
  intros I. assert (E : wp (exact_staged h) (fun s' r => s' = s /\ forall x, r = Ok x -> exists st, staged s !! t_workspace (sa_claims h) = Some (mkRecord h st)) s).
  { apply wp_exact; [intros st Hst; split; [done |]; intros _ _; by exists st | done]. }
  unfold wp in E |- *. destruct (exact_staged h s) as [s1 [r | e]] eqn:Ex; cbn [fst snd] in E; destruct E as [-> Hst].
  - destruct (Hst r eq_refl) as [st Hs]. apply (wp_fence h st (fun s' _ => tame _ s s')); [done | done |]. intros s' Q L. stay I.
  - unfold fence, bind. rewrite Ex. stay I.
Qed.

Lemma activate_tame (now clock2 : Z) (h : StagedAttachment) (released discarded : result unit) (s : Authority) :
  Inv s -> tame (at_slot (t_workspace (sa_claims h)) (activates h)) s (fst (fst (activate_with_publication now clock2 h released discarded s))).
Proof.
  intros I. unfold activate_with_publication. set (w := t_workspace (sa_claims h)). set (S := at_slot w settles).
  assert (HS : forall t t', tame S t t' -> tame (at_slot w (activates h)) t t') by (intros t t'; apply at_slot_mono; by left).
  set (m1 := bind reject_shutdown _). set (m2 := bind (lift released) _). set (m3 := bind (set_stage h ACTIVE) _).
  assert (H1 : wp m1 (fun s' r => tame S s s' /\ forall x, r = Ok x -> s' = s /\ shutdown_started s = false) s).
  { apply twp_bind, wp_reject; [split; [stay I | done] | intros Hs]. apply twp_bind, wp_check_reserved; [done | | by split].
    intros st Hst _. destruct (bool_decide _); [split; [stay I | done] |]. apply twp_bind, (wp_fence h st); [done | done |].
    intros s' Q L. split; [stay I | done]. }
  assert (H2 : forall t, Inv t -> wp m2 (fun s' r => tame S t s' /\ forall x, r = Ok x ->
                 s' = t /\ shows t w (Reserved h ADMITTED_AUDITED)) t).
  { intros t It. apply twp_bind, twp_lift. destruct released; [| split; [stay It | done]].
    apply twp_bind, wp_check_reserved; [done | | by split]. intros st Hst Hsl.
    apply twp_bind, wp_exact; [| split; [stay It | done]]. intros st' Hst'. rewrite Hst in Hst'. injection Hst' as <-. cbn [stage].
    apply twp_raise_when; [split; [stay It | done] |]. intros Hb%negb_false_iff%bool_decide_eq_true. subst st. split; [stay It |]. done. }
  unfold wp in H1, H2. destruct (m1 s) as [s1 [x1 | e1]]; cbn [fst snd] in H1; destruct H1 as [T1 D1]; [| by apply HS].
  specialize (H2 s1 (proj1 T1)). destruct (m2 s1) as [s2 [x2 | e2]]; cbn [fst snd] in H2; destruct H2 as [T2 F2].
  - destruct (F2 x2 eq_refl) as [-> Hsl]. destruct (D1 x1 eq_refl) as [-> Hsd]. unfold m3, set_stage, bind, modify, ret. cbn [fst snd]. fold w.
    set (a := mkActive _ _ _ _ _ _). apply (moved_tame _ w (Reserved h ADMITTED_AUDITED) (Live a h)); [apply at_slot_stays | | done | done | | by left].
    { right. split; [done |]. right. split; [done |]. by exists a. }
    split; [| split; [done |]; split; [| done]].
    + intros w' Hn. unfold agree_at; cbn. by rewrite !lookup_insert_ne by done.
    + destruct Hsl as (? & ? & ? & ? & ? & ?). cbn. by rewrite !lookup_insert_eq.
  - pose proof (fence_tame h s2 (proj1 T2)) as Hf. unfold wp in Hf. pose proof (tame_trans _ _ _ _ _ (at_slot_trans w) T1 T2) as T.
    destruct (fence h s2) as [s3 [[] | e3]]; cbn [fst snd] in Hf |- *; apply HS; by eapply tame_trans; [apply at_slot_trans | |].
Qed.

(** The state after everything is fenced *)
Definition drained (s : Authority) : Prop := pending s = [] /\ forall w sl, shows s w sl -> calm sl = true.

Lemma fenced_drained (s : Authority) :
  pending s = [] -> active s = ∅ -> (forall w r, staged s !! w = Some r -> stage r = FENCED) -> drained s.
Proof.
  intros P A F. split; [done |]. intros w sl Hsl. pose proof (shows_active s w sl Hsl) as Ha. rewrite A, lookup_empty in Ha.
  pose proof (shows_staged s w sl Hsl) as Hs. destruct sl; try done. apply F in Hs. cbn in Hs. subst.
  by destruct Hsl as (_ & _ & _ & _ & _ & ?).
Qed.

Lemma begin_shutdown_drains (s : Authority) :
  Inv s -> exists s', begin_shutdown cfg s = (s', Ok tt) /\ tame settling s s' /\ drained s' /\ shutdown_started s' = true
    /\ writers s' = writers s.
Proof.
  intros I. unfold begin_shutdown. rewrite bind_get. destruct (shutdown_started s) eqn:D.
  - exists s. split; [done |]. split; [by apply tame_refl; [apply settling_stays |] |]. split; [by apply inv_shutdown | done].
  - rewrite bind_modify. set (s1 := mkAuthority _ _ _ _ _ _ _ _ _).
    destruct (burn_and_fence_works s1) as (s' & E & Q & P & A & F).
    { intros w. destruct (inv_slots s I w) as [sl Hsl]. by exists sl. }
    exists s'. pose proof (fenced_drained s' P A F) as Dr.
    assert (Ds : shutdown_started s' = true) by (by rewrite (quiet_shutdown _ _ Q)).
    pose proof (quiet_writers _ _ Q) as W. change (writers s1) with (writers s) in W. split; [done |]. split; [| by split].
    destruct Q as (V & N & D1 & O & Ps & Fs). split; [| split; [| split; [by rewrite P; apply sublist_nil_l | split; [done | by rewrite W]]]].
    + split; [by apply evolves_consistent in V | rewrite W; apply I | | rewrite P; apply NoDup_nil_2 | by intros _].
      unfold record_count. rewrite W, P. pose proof (inv_records s I) as R. unfold record_count in R. pose proof (blen_nonneg (pending s)).
      change (blen []) with 0. lia.
    + intros w. destruct (V w) as (a & b & Ha & Hb & R). by exists a, b.
Qed.

(** The loop that drops the pending tickets of a session *)
Definition revoke_tickets (id : pystr) (epoch : Z) (p : PendingTicket) : M (list pystr) :=
  match p_context p with
  | Some c =>
      if of_session id epoch c then
        exec! modify (fun s => burn cfg (p_digest p) (set_pending (filter (fun q => p_digest q <> p_digest p) (pending s)) s)) in
        ret [t_attachment (p_claims p)]
      else ret []
  | None => ret []
  end.

Lemma revoke_tickets_loop (id : pystr) (epoch : Z) (l : list PendingTicket) (s : Authority) :
  exists s' r, for_each l (revoke_tickets id epoch) s = (s', Ok r) /\ tickets_only s s'
    /\ forall p, p ∈ l -> revoked_context id epoch (p_context p) = true -> p ∉ pending s'.
Proof.
  revert s. induction l as [|p l IH]; intros s.
  { exists s, []. split; [done |]. split; [apply tickets_only_refl |]. intros p Hp. by apply not_elem_of_nil in Hp. }
  assert (Hb : exists s1 r1, revoke_tickets id epoch p s = (s1, Ok r1) /\ tickets_only s s1
                /\ (revoked_context id epoch (p_context p) = true -> p ∉ pending s1)).
  { unfold revoke_tickets, revoked_context. destruct (p_context p) as [c |]; [| by exists s, []; split; [| split; [apply tickets_only_refl |]]].
    destruct (of_session id epoch c); [| by exists s, []; split; [| split; [apply tickets_only_refl |]]].
    eexists _, _. split; [reflexivity |]. split; [apply drop_ticket |]. intros _ [? _]%list_elem_of_filter. done. }
  destruct Hb as (s1 & r1 & E1 & T1 & F1). destruct (IH s1) as (s2 & r2 & E2 & T2 & F2). exists s2, (r1 ++ r2).
  cbn [for_each]. rewrite (bind_ok _ _ s s1 r1) by done. rewrite (bind_ok _ _ s1 s2 r2) by done. split; [done |].
  split; [by eapply tickets_only_trans |]. intros q [-> | Hq]%elem_of_cons Hr; [| by apply F2]. intros Hin. apply (F1 Hr).
  destruct T2 as (_ & _ & _ & _ & Hsub). by eapply elem_of_sublist.
Qed.

(** Revoking a session succeeds; afterwards it has no ticket and no live slot. *)
Lemma revoke_works (id : pystr) (epoch : Z) (s : Authority) :
  Inv s -> id <> [] -> in_range 1 epoch MAX_U64 = true ->
  exists s' l, revoke_session cfg (PStr id) (PInt epoch) s = (s', Ok l) /\ quiet s s'
    /\ (forall p, p ∈ pending s' -> revoked_context id epoch (p_context p) = false)
    /\ forall w sl, shows s w sl -> shows s' w (revoked_slot id epoch sl).
Proof.
  intros I Hid He. unfold revoke_session.
  rewrite (bind_ok (raise_when _ _) _ s s tt) by (by destruct id). rewrite (bind_ok (lift _) _ s s epoch).
  2: { unfold lift. f_equal. unfold validate_positive_u64, raise_if. by rewrite He. }
  rewrite bind_get. destruct (revoke_tickets_loop id epoch (pending s) s) as (s1 & l1 & E1 & T1 & F1).
  unfold revoke_tickets in E1. rewrite (bind_ok _ _ s s1 l1) by exact E1. rewrite bind_get.
  pose proof (tickets_quiet s s1 (inv_slots s I) T1) as Q1.
  destruct (revoke_loops id epoch s1) as (s2 & s3 & l2 & l3 & E2 & E3 & Q3 & V3); [by apply quiet_consistent in Q1 |].
  unfold revoke_leases in E2. rewrite (bind_ok _ _ s1 s2 l2) by exact E2. rewrite bind_get.
  unfold revoke_staged in E3. rewrite (bind_ok _ _ s2 s3 l3) by exact E3. eexists s3, _. split; [reflexivity |].
  split; [by eapply quiet_trans |]. split.
  - intros p Hp. apply not_true_iff_false. intros Hr. destruct T1 as (_ & _ & _ & _ & Hsub).
    destruct Q3 as (_ & _ & _ & _ & Hsub3 & _). assert (H1 : p ∈ pending s1) by (by eapply elem_of_sublist).
    apply (F1 p); [by eapply elem_of_sublist | done | done].
  - intros w sl Hsl. apply V3. apply (agree_shows w s); [| done]. apply same_slots_agree, T1.
Qed.

Lemma revoke_tame (sid epoch : pyval) (s : Authority) : Inv s -> wp (revoke_session cfg sid epoch) (fun s' _ => tame settling s s') s.
Proof.
  intros I. pose proof (tame_refl settling s settling_stays I) as T0. destruct sid as [| | | | id | | |]; try done.
  destruct (decide (id = [])) as [-> | Hid]; [done |].
  assert (He : (exists z, epoch = PInt z /\ in_range 1 z MAX_U64 = true) \/ exists e, validate_positive_u64 epoch "auth_epoch" = Raise e).
  { unfold validate_positive_u64. destruct epoch; try (right; by eexists). destruct (in_range _ _ _) eqn:E; [left; by eexists | right; by eexists]. }
  destruct He as [(z & -> & Hz) | [e He]].
  - destruct (revoke_works id z s I Hid Hz) as (s' & l & E & Q & _). unfold wp. rewrite E. by apply quiet_tame.
  - unfold revoke_session. apply twp_bind, twp_raise_when; [done | intros _]. apply twp_bind, twp_lift. rewrite He.
    unfold except_as. by destruct (existsb (exc_isa (exn_class e)) [PyTypeError; PyValueError]).
Qed.

(** ** Calls of the authority *)

Inductive call : Type :=
| CIssue (now : Z) (w : pystr) (project agent attachment gen aepoch host hrev brev digest orig : pyval) (context : option Context_)
    (draw1 draw2 draw3 : result pystr)
| CConsume (now : Z) (tk : pyval) (expected : AttachmentTuple) (context : option Context_)
| CReserve (now : Z) (tk : pyval) (expected : AttachmentTuple) (context : Context_) (connection : option Z) (started : Z)
    (presented : option pydict) (presented_epoch : option pystr)
| CCheckReserved (now : Z) (h : StagedAttachment)
| CAdvance (now : Z) (h : StagedAttachment) (next : option AdmissionStage)
| CFence (h : StagedAttachment)
| CActivate (now clock2 : Z) (h : StagedAttachment) (released discarded : result unit)
| CAcknowledgeStaged (h : StagedAttachment) (connection : Z) (cleanup : pystr) (audited : bool)
| CHeartbeat (now : Z) (expected : AttachmentTuple) (context : option Context_)
| CIsActive (now : Z) (expected : AttachmentTuple) (context : option Context_)
| CDetach (now : Z) (expected : AttachmentTuple) (context : option Context_)
| CReadPublished (now : Z) (h : StagedAttachment) (queued : result (option bytes))
| CAcknowledge (expected : AttachmentTuple) (cleanup : pystr)
| CSweep (now : Z)
| CRevokeSession (sid epoch : pyval)
| CInvalidateAll
| CBeginShutdown.

(** The state and the outcome, without the value *)
Definition forget {A} (x : Authority * result A) : Authority * result unit :=
  (fst x, match snd x with Ok _ => Ok tt | Raise e => Raise e end).

Definition exec (c : call) (s : Authority) : Authority * result unit :=
  match c with
  | CIssue now w p a at_ g ae h hr br d o ctx d1 d2 d3 => forget (issue cfg now w p a at_ g ae h hr br d o ctx d1 d2 d3 s)
  | CConsume now tk e ctx => forget (consume cfg now tk e ctx s)
  | CReserve now tk e ctx conn started pc pe => forget (reserve cfg now tk e ctx conn started pc pe s)
  | CCheckReserved now h => check_reserved now h s
  | CAdvance now h next => advance now h next s
  | CFence h => fence h s
  | CActivate now clock2 h rel dis => forget (fst (activate_with_publication now clock2 h rel dis s))
  | CAcknowledgeStaged h conn cleanup audited => acknowledge_staged_cleanup h conn cleanup audited s
  | CHeartbeat now e ctx => forget (heartbeat cfg now e ctx s)
  | CIsActive now e ctx => forget (is_active now e ctx s)
  | CDetach now e ctx => forget (detach now e ctx s)
  | CReadPublished now h q => forget (read_published now h q s)
  | CAcknowledge e cleanup => acknowledge_cleanup e cleanup s
  | CSweep now => forget (sweep cfg now s)
  | CRevokeSession sid epoch => forget (revoke_session cfg sid epoch s)
  | CInvalidateAll => invalidate_all cfg s
  | CBeginShutdown => begin_shutdown cfg s
  end.

Definition run (c : call) (s : Authority) : Authority := fst (exec c s).
Definition run_all (cs : list call) (s : Authority) : Authority := fold_left (fun s c => run c s) cs s.

Definition is_issue (c : call) : bool := match c with CIssue _ _ _ _ _ _ _ _ _ _ _ _ _ _ _ _ => true | _ => false end.

(** ** The slot machine

    What a call may do to the slot of [w], in one step.  A call names the workspace
    of its writer, and changes the slot of no other one; only the calls that go
    through all records may make several writers leave. *)
Definition call_step (c : call) : Moves :=
  match c with
  | CIssue _ _ _ _ _ _ _ _ _ _ _ _ _ _ _ _ | CSweep _ | CRevokeSession _ _ | CInvalidateAll | CBeginShutdown => settling
  | CConsume _ _ e _ => at_slot (t_workspace e) (leases e)
  | CReserve _ _ e _ _ _ _ _ => reserves e
  | CCheckReserved _ h | CFence h | CReadPublished _ h _ => at_slot (t_workspace (sa_claims h)) settles
  | CAdvance _ h next => at_slot (t_workspace (sa_claims h)) (advances h next)
  | CActivate _ _ h _ _ => at_slot (t_workspace (sa_claims h)) (activates h)
  | CAcknowledgeStaged h connection cleanup audited => at_slot (t_workspace (sa_claims h)) (frees_fenced h connection cleanup audited)
  | CHeartbeat _ e _ => at_slot (t_workspace e) (renews e)
  | CIsActive _ e _ => at_slot (t_workspace e) settles
  | CDetach _ e _ => at_slot (t_workspace e) (releases e)
  | CAcknowledge e cleanup => at_slot (t_workspace e) (frees_expired e cleanup)
  end.

Lemma run_tame (c : call) (s : Authority) : Inv s -> is_issue c = false -> tame (call_step c) s (run c s).
Proof.
  intros I Hc. destruct c; try discriminate Hc; unfold run, exec, forget; cbn [fst call_step].
  - apply (consume_tame now tk expected context s I).
  - apply (reserve_tame now tk expected context connection started presented presented_epoch s I).
  - by apply check_reserved_tame.
  - by apply advance_tame.
  - by apply fence_tame.
  - by apply activate_tame.
  - by apply acknowledge_staged_tame.
  - by apply heartbeat_tame.
  - by apply is_active_tame.
  - by apply detach_tame.
  - by apply read_published_tame.
  - by apply acknowledge_tame.
  - apply (wp_sweep now (fun s' _ => tame settling s s')); [done |]. intros s' l Q. by apply quiet_tame.
  - by apply revoke_tame.
  - destruct (burn_and_fence_works s (inv_slots s I)) as (s' & E & Q & _). unfold invalidate_all. rewrite E. by apply quiet_tame.
  - destruct (begin_shutdown_drains s I) as (s' & E & T & _). by rewrite E.
Qed.

Lemma run_inv (c : call) (s : Authority) :
  Inv s -> Inv (run c s) /\ evolves (call_step c) s (run c s)
  /\ (shutdown_started s = true -> shutdown_started (run c s) = true /\ writers (run c s) ⊆ writers s).
Proof.
  intros I. destruct (is_issue c) eqn:Hc.
  - destruct c; try discriminate Hc. destruct (issue_inv now w project agent attachment gen aepoch host hrev brev digest orig context
      draw1 draw2 draw3 s I) as (I' & V & D). unfold run, exec, forget; cbn [fst]. split; [done |]. split; [done |].
    intros H. by rewrite (D H).
  - destruct (run_tame c s I Hc) as (I' & V & _ & D & W). split; [done |]. split; [done |]. auto.
Qed.

Lemma run_all_inv (cs : list call) (s : Authority) :
  Inv s -> Inv (run_all cs s)
  /\ (shutdown_started s = true -> shutdown_started (run_all cs s) = true /\ writers (run_all cs s) ⊆ writers s).
Proof.
  revert s. induction cs as [|c cs IH]; intros s I; [done |]. destruct (run_inv c s I) as (I1 & _ & D1).
  destruct (IH (run c s) I1) as [I2 D2]. split; [done |]. intros H. destruct (D1 H) as [H1 W1]. destruct (D2 H1) as [H2 W2].
  split; [done | by etransitivity].
Qed.

Lemma run_all_pending (cs : list call) (s : Authority) :
  Inv s -> forallb (fun c => negb (is_issue c)) cs = true -> sublist (pending (run_all cs s)) (pending s).
Proof.
  revert s. induction cs as [|c cs IH]; intros s I H; [done |]. cbn in H. apply andb_true_iff in H as [Hc%negb_true_iff H].
  destruct (run_tame c s I Hc) as (I1 & _ & P & _). etransitivity; [by apply IH | done].
Qed.

End Works.

Lemma new_authority_inv (epoch seed : option pyval) (r1 r2 : result Z) (tttl lttl absolute records replay writers_ admins : Z)
    (cfg : Config) (s : Authority) :
  new_authority epoch seed r1 r2 tttl lttl absolute records replay writers_ admins = Ok (cfg, s) ->
  Inv cfg s /\ 1 <= max_records cfg <= 64 /\ 1 <= max_writers cfg <= 32 /\ shutdown_started s = false.
Proof.
  unfold new_authority. intros H. do 4 (apply rbind_ok in H as (? & ?%raise_if_ok & H)).
  destruct (u64_or_random epoch r1) as [e |]; [| discriminate]. cbn in H. destruct (u64_or_random seed r2) as [n |]; [| discriminate].
  cbn in H. injection H as <- <-. cbn. unfold in_range in *.
  repeat match goal with E : _ || _ = false |- _ => apply orb_false_iff in E as [? ?] | E : negb _ = false |- _ => apply negb_false_iff in E
         | E : _ && _ = true |- _ => apply andb_true_iff in E as [? ?] | E : (_ <=? _) = true |- _ => apply Z.leb_le in E end.
  assert (Hf : forall w sl, shows (mkAuthority n [] ∅ ∅ ∅ ∅ [] false 0) w sl -> sl = Free).
  { intros w sl Hsl. eapply (shows_unique _ w); [done |]. by repeat split. }
  split; [| split; [lia | split; [lia | done]]].
  split; cbn; [intros w; exists Free; by repeat split | | | apply NoDup_nil_2 | discriminate].
  - unfold writers; cbn. rewrite !dom_empty_L, !union_empty_l_L, size_empty. lia.
  - unfold record_count, writers; cbn. rewrite !dom_empty_L, !union_empty_l_L, size_empty. change (blen []) with 0. lia.
Qed.

(** ** The properties *)

(** An authority that its constructor returned *)
Definition created (cfg : Config) (s : Authority) : Prop :=
  exists epoch seed r1 r2 tttl lttl absolute records replay writers_ admins,
    new_authority epoch seed r1 r2 tttl lttl absolute records replay writers_ admins = Ok (cfg, s).

Lemma created_inv (cfg : Config) (s : Authority) :
  created cfg s -> Inv cfg s /\ 1 <= max_records cfg <= 64 /\ 1 <= max_writers cfg <= 32 /\ shutdown_started s = false.
Proof. intros (? & ? & ? & ? & ? & ? & ? & ? & ? & ? & ? & H). by eapply new_authority_inv. Qed.

(** A call that presents a ticket *)
Definition presents (c : call) (tk : pyval) : Prop :=
  match c with
  | CConsume _ t _ _ | CReserve _ t _ _ _ _ _ _ => t = tk
  | _ => False
  end.

Lemma unknown_ticket_raises (cfg : Config) (c : call) (tk : pyval) (s : Authority) :
  presents c tk -> (forall d, ticket_digest tk = Ok d -> d ∉ map p_digest (pending s)) -> exists e, exec cfg c s = (s, Raise e).
Proof.
  intros Hp Hd.
  assert (Hw : forall A (k : bytes -> option PendingTicket -> M A), (forall d s', exists e, k d None s' = (s', Raise e)) ->
    exists e, (exec! reject_shutdown in do! d := lift (ticket_digest tk) in do! found := pop_pending d in k d found) s = (s, Raise e)).
  { intros A k Hk. unfold reject_shutdown. rewrite bind_assoc, bind_get. destruct (shutdown_started s); [by eexists |]. cbn [raise_when].
    rewrite bind_ret. destruct (ticket_digest tk) as [d |] eqn:E; [| by eexists]. rewrite (bind_ok (lift (Ok d)) _ s s d) by done.
    rewrite (bind_ok (pop_pending d) _ s s None); [apply Hk |]. unfold pop_pending. rewrite bind_get.
    destruct (List.find _ _) as [p |] eqn:Ef; [| done]. apply find_digest in Ef as [Hin Hpd].
    destruct (Hd d eq_refl). rewrite <- Hpd. by apply list_elem_of_fmap_2. }
  destruct c; try done; cbn in Hp; subst tk0; unfold exec, forget, consume, reserve;
    (edestruct Hw as [e ->]; [by eexists | by exists e]).
Qed.

Lemma presented_gone (cfg : Config) (c : call) (tk : pyval) (s : Authority) :
  Inv cfg s -> presents c tk -> spent cfg (call_step c) tk s (run cfg c s).
Proof.
  intros I Hp. destruct c; try done; cbn in Hp; subst tk0; unfold run, exec, forget; cbn [fst].
  - by apply consume_tame.
  - by apply reserve_tame.
Qed.

(** C1: For every authority that its constructor returned and after
    any sequence of calls, every workspace shows exactly one writer slot in the
    four dictionaries, and every further call moves each slot in at most one step
    that this call may take: a slot is taken only when free and only by [consume] or
    [reserve] of these claims, is advanced by one stage by [advance], becomes live
    from [ADMITTED_AUDITED] by [activate_with_publication], is freed only by
    [detach] of an unstaged lease or by the acknowledgement of exactly its cleanup,
    and otherwise waits for that acknowledgement; a call for one writer leaves the
    slots of the other workspaces alone. *)
Theorem authority_refines_slots (cfg : Config) (s0 : Authority) (cs : list call) (c : call) :
  created cfg s0 ->
  let s := run_all cfg cs s0 in
  (forall w, exists! sl, shows s w sl)
  /\ forall w, exists a b, shows s w a /\ shows (run cfg c s) w b /\ call_step c w a b.
Proof.
  intros Hc s. destruct (created_inv cfg s0 Hc) as (I0 & _). destruct (run_all_inv cfg cs s0 I0) as [I _]. fold s in I. split.
  - intros w. destruct (inv_slots cfg s I w) as [sl Hsl]. exists sl. split; [done |]. intros sl' H. by apply (shows_unique s w).
  - by destruct (run_inv cfg c s I) as (_ & V & _).
Qed.

(** C39: after any sequence of calls there are at most [max_writers]
    (at most 32) writer records, at most [max_records] (at most 64) pending
    tickets and writer records together, and no two pending tickets have the same
    digest. *)
Theorem authority_bounded (cfg : Config) (s0 : Authority) (cs : list call) :
  created cfg s0 ->
  let s := run_all cfg cs s0 in
  Z.of_nat (size (writers s)) <= max_writers cfg <= 32 /\ record_count s <= max_records cfg <= 64
  /\ NoDup (map p_digest (pending s)).
Proof.
  intros Hc s. destruct (created_inv cfg s0 Hc) as (I0 & Hr & Hw & _). destruct (run_all_inv cfg cs s0 I0) as [I _]. fold s in I.
  pose proof (inv_writers cfg s I). pose proof (inv_records cfg s I). split; [lia |]. split; [lia | apply I].
Qed.

(** C6: A ticket is presented at most once: after a call that presents
    it, whatever the outcome, and any calls that issue no new ticket, every
    further call that presents it raises and leaves the authority unchanged. *)
Theorem ticket_single_use (cfg : Config) (s0 : Authority) (before between : list call) (first second : call) (tk : pyval) :
  created cfg s0 -> presents first tk -> presents second tk -> forallb (fun c => negb (is_issue c)) between = true ->
  let s := run_all cfg between (run cfg first (run_all cfg before s0)) in
  exists e, exec cfg second s = (s, Raise e).
Proof.
  intros Hc H1 H2 Hb s. destruct (created_inv cfg s0 Hc) as (I0 & _). destruct (run_all_inv cfg before s0 I0) as [I _].
  destruct (presented_gone cfg first tk _ I H1) as [(I1 & _) Hg]. apply (unknown_ticket_raises cfg second tk); [done |].
  intros d Hd. eapply sublist_gone; [by apply (run_all_pending cfg) | by apply Hg].
Qed.

(** Revoking a session succeeds after any sequence of calls, and
    afterwards no pending ticket and no writer that is leased, being admitted or
    live belongs to it: what belonged to it waits for its cleanup. *)
Theorem revoke_session_complete (cfg : Config) (s0 : Authority) (cs : list call) (id : pystr) (epoch : Z) :
  created cfg s0 -> id <> [] -> in_range 1 epoch MAX_U64 = true ->
  let s := run_all cfg cs s0 in
  exists s' l, revoke_session cfg (PStr id) (PInt epoch) s = (s', Ok l)
  /\ (forall p, p ∈ pending s' -> revoked_context id epoch (p_context p) = false)
  /\ (forall w a, active s' !! w = Some a -> revoked_context id epoch (a_context a) = false)
  /\ (forall w r, staged s' !! w = Some r -> of_session id epoch (sa_context (handle r)) = true -> stage r = FENCED)
  /\ writers s' = writers s.
Proof.
  intros Hc Hid He s. destruct (created_inv cfg s0 Hc) as (I0 & _). destruct (run_all_inv cfg cs s0 I0) as [I _]. fold s in I.
  destruct (revoke_works cfg id epoch s I Hid He) as (s' & l & E & Q & P & S). exists s', l. split; [done |]. split; [done |].
  assert (Hs : forall w, exists sl, shows s w sl /\ shows s' w (revoked_slot id epoch sl)).
  { intros w. destruct (inv_slots cfg s I w) as [sl Hsl]. exists sl. auto. }
  split; [| split; [| by apply quiet_writers]].
  - intros w a Ha. destruct (Hs w) as (sl & H1 & H2). pose proof (shows_active s' w _ H2) as H3. rewrite Ha in H3.
    destruct sl; cbn in H3; try discriminate H3; case_match; try discriminate H3; injection H3 as <-; [done |].
    cbn in H1. destruct_and!. match goal with X : a_context a = _ |- _ => rewrite X end. done.
  - intros w r Hr Ho. destruct (Hs w) as (sl & H1 & H2). pose proof (shows_staged s' w _ H2) as H3. rewrite Hr in H3.
    destruct sl; cbn in H3; try discriminate H3; try (case_match; try discriminate H3); injection H3 as ->; cbn in *; congruence.
Qed.

(** *** Draining a shutdown *)

(** The acknowledgements of a cleanup *)
Definition is_acknowledgement (c : call) : bool :=
  match c with CAcknowledge _ cleanup | CAcknowledgeStaged _ _ cleanup _ => str_eqb cleanup $"ATTACH_PTY_CLOSED" | _ => false end.

(** A call that proves no cleanup leaves a slot alone that waits for it. *)
Lemma calm_step (c : call) (w : pystr) (a b : Slot) :
  is_acknowledgement c = false -> calm a = true -> calm b = true -> call_step c w a b -> a = b.
Proof.
  intros Hc Ha Hb Hs. assert (K : forall x y, settles x y -> calm x = true -> x = y) by (by intros x y [-> | ->]; destruct x).
  assert (A : forall v P, at_slot v P w a b -> (P a b -> a = b) -> a = b) by (intros v P [? | [_ HP]] HK; auto).
  destruct c; cbn [call_step] in Hs; try (by apply K); try (by apply (A _ _ Hs); intros HP; apply K).
  - apply (A _ _ Hs). intros [HP | (-> & x & _ & ->)]; [by apply K | done].
  - destruct Hs as [HP | (_ & -> & h & _ & ->)]; [by apply K | done].
  - apply (A _ _ Hs). intros [HP | (st & st' & _ & _ & -> & _)]; [by apply K | done].
  - apply (A _ _ Hs). intros [HP | (-> & _)]; [by apply K | done].
  - apply (A _ _ Hs). intros (-> & _). done.
  - apply (A _ _ Hs). intros [HP | (x & y & _ & _ & _ & _ & [[-> _] | (h & -> & _)])]; [by apply K | done | done].
  - apply (A _ _ Hs). intros [HP | (x & _ & -> & _)]; [by apply K | done].
  - apply (A _ _ Hs). intros (-> & _). done.
Qed.

(** While it shuts down, only such proofs take records away. *)
Lemma calm_writers (cfg : Config) (c : call) (s : Authority) :
  Inv cfg s -> shutdown_started s = true -> is_acknowledgement c = false -> writers (run cfg c s) = writers s.
Proof.
  intros I Hs Hc. destruct (run_inv cfg c s I) as (I1 & V & D). destruct (D Hs) as [Hs1 _]. apply set_eq. intros w.
  destruct (V w) as (a & b & Ha & Hb & R). destruct (inv_shutdown cfg s I Hs) as [_ C]. destruct (inv_shutdown cfg _ I1 Hs1) as [_ C1].
  assert (a = b) as -> by (apply (calm_step c w); [done | by apply (C w) | by apply (C1 w) | done]).
  by rewrite (writer_shows s w b Ha), (writer_shows _ w b Hb).
Qed.

(** Once the authority shuts down, each remaining record has an acknowledgement
    that removes it and only it. *)
Lemma acknowledges (cfg : Config) (s : Authority) (w : pystr) :
  Inv cfg s -> shutdown_started s = true -> w ∈ writers s ->
  exists c s', is_acknowledgement c = true /\ exec cfg c s = (s', Ok tt) /\ writers s' = writers s ∖ {[w]}.
Proof.
  intros I Hs Hw. destruct (inv_slots cfg s I w) as [sl Hsl]. destruct (inv_shutdown cfg s I Hs) as [_ Hcalm].
  pose proof (proj1 (writer_shows s w sl Hsl) Hw) as Hn. specialize (Hcalm w sl Hsl). destruct sl as [| | c x | | | h]; try done.
  - destruct Hsl as (H1 & H2 & H3 & H4 & H5). exists (CAcknowledge c $"ATTACH_PTY_CLOSED"). eexists. split; [apply str_eqb_refl |]. split.
    + cbn [exec]. unfold acknowledge_cleanup. rewrite bind_get, H5, H4, bool_decide_false by (by intros [? ?]). cbn [raise_when].
      rewrite bind_ret, H2. unfold same_tuple. rewrite bool_decide_true by done. cbn [negb raise_when]. rewrite bind_ret.
      rewrite str_eqb_refl. cbn [negb raise_when]. rewrite bind_ret. reflexivity.
    + unfold writers; cbn. rewrite dom_delete_L. apply not_elem_of_dom in H1, H4. clear -H1 H4. set_solver.
  - destruct Hsl as (H1 & H2 & H3 & H4 & H5). exists (CAcknowledgeStaged h (sa_connection h) $"ATTACH_PTY_CLOSED" true). eexists. split; [apply str_eqb_refl |]. split.
    + cbn [exec]. unfold acknowledge_staged_cleanup, exact_staged. rewrite bind_assoc, bind_get, H5, H4. cbn [handle].
      rewrite bool_decide_true by done. rewrite bind_ret. cbn [stage]. rewrite Z.eqb_refl, str_eqb_refl, bool_decide_true by done.
      cbn [negb orb raise_when]. rewrite bind_ret, bind_modify. reflexivity.
    + unfold writers; cbn. rewrite !dom_delete_L. apply not_elem_of_dom in H1. clear -H1. set_solver.
Qed.

Lemma no_writers_clean (cfg : Config) (s : Authority) : Inv cfg s -> shutdown_started s = true -> writers s = ∅ -> shutdown_clean s = true.
Proof.
  intros I Hs Hw. destruct (inv_shutdown cfg s I Hs) as [Hp _].
  assert (Hf : forall w, shows s w Free).
  { intros w. destruct (inv_slots cfg s I w) as [sl Hsl]. destruct sl; [done | ..];
      (assert (Hin : w ∈ writers s) by (by apply (writer_shows s w _ Hsl)); rewrite Hw in Hin; by apply not_elem_of_empty in Hin). }
  unfold shutdown_clean. rewrite Hs, Hp. cbn [andb].
  rewrite !bool_decide_true; [done | | | | | done]; apply map_empty; intros w; destruct (Hf w) as (? & ? & ? & ?); done.
Qed.

Lemma drain (cfg : Config) (n : nat) (s : Authority) :
  Inv cfg s -> shutdown_started s = true -> size (writers s) = n ->
  exists acks, length acks = n /\ forallb is_acknowledgement acks = true /\ shutdown_clean (run_all cfg acks s) = true
    /\ forall k c, acks !! k = Some c -> snd (exec cfg c (run_all cfg (take k acks) s)) = Ok tt.
Proof.
  revert s. induction n as [|n IH]; intros s I Hs Hn.
  { exists []. split; [done |]. split; [done |]. split; [| done]. apply (no_writers_clean cfg); [done | done |]. by apply size_empty_inv, leibniz_equiv in Hn. }
  destruct (set_choose_L (writers s)) as [w Hw]; [intros E; rewrite E, size_empty in Hn; lia |].
  destruct (acknowledges cfg s w I Hs Hw) as (c & s1 & Hc & E & W). assert (Er : run cfg c s = s1) by (unfold run; by rewrite E).
  destruct (run_inv cfg c s I) as (I1 & _ & D1). rewrite Er in I1, D1. destruct (D1 Hs) as [Hs1 _].
  destruct (IH s1 I1 Hs1) as (acks & L & F & C & A).
  { rewrite W, size_difference, size_singleton, Hn; [lia |]. by apply singleton_subseteq_l. }
  exists (c :: acks). split; [cbn; lia |]. split; [cbn; by rewrite Hc |]. cbn [run_all fold_left] in *. unfold run_all in *. cbn [fold_left]. rewrite Er. split; [done |].
  intros [|k] c'; cbn; [intros [= <-]; by rewrite E |]. rewrite Er. apply A.
Qed.

(** C8: [begin_shutdown] succeeds after any sequence of calls.
    Whatever is called afterwards, no writer record appears; only a positive proof
    that the PTY of a record is closed takes a record away, and as many such proofs
    as there are records left, each of which is accepted, make the shutdown clean. *)
Theorem shutdown_drains (cfg : Config) (s0 : Authority) (before after : list call) :
  created cfg s0 ->
  let s := run_all cfg before s0 in
  let s' := run_all cfg after (run cfg CBeginShutdown s) in
  exec cfg CBeginShutdown s = (run cfg CBeginShutdown s, Ok tt) /\ writers (run cfg CBeginShutdown s) = writers s /\ writers s' ⊆ writers s
  /\ (forall c, is_acknowledgement c = false -> writers (run cfg c s') = writers s')
  /\ exists acks, length acks = size (writers s') /\ forallb is_acknowledgement acks = true /\ shutdown_clean (run_all cfg acks s') = true
       /\ forall k c, acks !! k = Some c -> snd (exec cfg c (run_all cfg (take k acks) s')) = Ok tt.
Proof.
  intros Hc s s'. destruct (created_inv cfg s0 Hc) as (I0 & _). destruct (run_all_inv cfg before s0 I0) as [I _]. fold s in I.
  destruct (begin_shutdown_drains cfg s I) as (s1 & E & T & Dr & Ds & Ws).
  assert (Er : run cfg CBeginShutdown s = s1) by (unfold run; cbn [exec]; by rewrite E). subst s'. rewrite Er.
  split; [done |]. split; [done |]. destruct (run_all_inv cfg after s1 (proj1 T)) as [I' D]. destruct (D Ds) as [Ds' W].
  rewrite Ws in W. split; [done |]. split; [intros c; by apply calm_writers | by apply drain].
Qed.

(** ** Witnesses *)

(** One project, one token, one browser session. *)
Definition demo_workspace : pystr :=
  Eval vm_compute in match WawDomain.workspace_id (PStr sample_project) (PStr $"codex") with Ok w => w | Raise _ => [] end.
Definition demo_attachment : pystr := $"att_00000000000000000000000000000001".
Definition demo_host : pystr := $"wri_00000000000000000000000000000002".
Definition demo_digest : pystr := $"00000000000000000000000000000000000000000000000000000000000000aa".
Definition demo_token : pystr := $"0123456789abcdef0123456789abcdef".
Definition demo_ticket : pyval := PStr ($"wat_" ++ demo_token).
Definition demo_context : Context_ := mkContext $"session" $"user" $"scope" $"https://host" $"9" 3.
Definition demo_claims : AttachmentTuple :=
  mkClaims demo_workspace sample_project CODEX demo_attachment 1 1 3 7 demo_host 1 1 demo_digest $"writer".
Definition demo_config : Config := mkConfig 7 30 60 600 8 16 4 2.
Definition demo_start : Authority := mkAuthority 1 [] ∅ ∅ ∅ ∅ [] false 0.
Definition demo_handle : StagedAttachment := mkStaged demo_claims demo_context 5 10 15 70 610 0.

Definition demo_issue : call :=
  CIssue 10 demo_workspace (PStr sample_project) (PStr $"codex") (PStr demo_attachment) (PInt 1) (PInt 3) (PStr demo_host) (PInt 1)
    (PInt 1) (PStr demo_digest) (PStr $"https://host") (Some demo_context) (Ok demo_token) (Ok []) (Ok []).
Definition demo_reserve : call := CReserve 10 demo_ticket demo_claims demo_context (Some 5) 10 None None.
Definition demo_admission : list call :=
  [demo_issue; demo_reserve]
  ++ map (fun st => CAdvance 11 demo_handle (Some st))
       [RUNTIME_PREPARED; VERIFIED; PREPARED_AUDITED; READY; QUARANTINED; COMMITTED; ADMITTED_AUDITED]
  ++ [CActivate 12 12 demo_handle (Ok tt) (Ok tt)].

Lemma demo_created : created demo_config demo_start.
Proof. exists (Some (PInt 7)), (Some (PInt 1)), (Ok 1), (Ok 1), 30, 60, 600, 8, 16, 4, 2. vm_compute. reflexivity. Qed.

Lemma demo_is_live : bool_decide (is_Some (active (run_all demo_config demo_admission demo_start) !! demo_workspace)) = true.
Proof. vm_compute. reflexivity. Qed.

(** The workspace of the demonstration has one slot, and a heartbeat keeps it. *)
Lemma authority_refines_slots_witness :
  bool_decide (is_Some (active (run_all demo_config demo_admission demo_start) !! demo_workspace)) = true
  /\ exists! sl, shows (run_all demo_config demo_admission demo_start) demo_workspace sl.
Proof.
  split; [exact demo_is_live |].
  apply (authority_refines_slots demo_config demo_start demo_admission (CHeartbeat 13 demo_claims (Some demo_context)) demo_created).
Defined.

Lemma authority_bounded_witness :
  size (writers (run_all demo_config demo_admission demo_start)) = 1%nat
  /\ record_count (run_all demo_config demo_admission demo_start) <= 8 <= 64.
Proof.
  split; [vm_compute; reflexivity |]. apply (authority_bounded demo_config demo_start demo_admission demo_created).
Defined.

(** The ticket that was reserved cannot be consumed. *)
Lemma ticket_single_use_witness :
  is_ok (snd (exec demo_config demo_reserve (run_all demo_config [demo_issue] demo_start))) = true
  /\ exists e, snd (exec demo_config (CConsume 12 demo_ticket demo_claims (Some demo_context))
                     (run demo_config demo_reserve (run_all demo_config [demo_issue] demo_start))) = Raise e.
Proof.
  split; [vm_compute; reflexivity |].
  destruct (ticket_single_use demo_config demo_start [demo_issue] [] demo_reserve (CConsume 12 demo_ticket demo_claims (Some demo_context))
              demo_ticket demo_created) as [e E]; [reflexivity | reflexivity | reflexivity |].
  exists e. cbn [run_all fold_left] in E |- *. rewrite E. reflexivity.
Defined.

Lemma revoke_session_complete_witness :
  exists s' l, revoke_session demo_config (PStr $"session") (PInt 3) (run_all demo_config demo_admission demo_start) = (s', Ok l)
  /\ forall w r, staged s' !! w = Some r -> of_session $"session" 3 (sa_context (handle r)) = true -> stage r = FENCED.
Proof.
  destruct (revoke_session_complete demo_config demo_start demo_admission $"session" 3 demo_created) as (s' & l & E & _ & _ & F & _);
    [discriminate | reflexivity |].
  exists s', l. split; [exact E | exact F].
Defined.

Lemma shutdown_drains_witness :
  shutdown_clean (run demo_config CBeginShutdown (run_all demo_config demo_admission demo_start)) = false
  /\ exists acks, length acks = size (writers (run demo_config CBeginShutdown (run_all demo_config demo_admission demo_start)))
     /\ forallb is_acknowledgement acks = true /\ shutdown_clean (run_all demo_config acks (run demo_config CBeginShutdown (run_all demo_config demo_admission demo_start))) = true.
Proof.
  split; [vm_compute; reflexivity |].
  destruct (shutdown_drains demo_config demo_start demo_admission [] demo_created) as (_ & _ & _ & _ & acks & L & F & C & _).
  exists acks. split; [exact L | split; [exact F | exact C]].
Defined.

(** A context with a non-ASCII user name is well formed, but comparing it raises
    [TypeError], which is not a ticket error. *)
Example non_ascii_context_raises :
  is_ok (new_context (PStr $"session") (PStr [233]) (PStr $"scope") (PStr $"https://host") (PStr $"9") (PInt 3)) = true
  /\ same_context (Some (mkContext $"session" [233] $"scope" $"https://host" $"9" 3))
       (Some (mkContext $"session" [233] $"scope" $"https://host" $"9" 3))
     = Raise (err PyTypeError "comparing strings with non-ASCII characters is not supported").
Proof. split; vm_compute; reflexivity. Qed.
