(* ===== verification/Crash.v ===== *)
(** * Programs on a disk that can fail and crash

    Shared by the stores of the Runtime: a program makes calls to the operating
    system, and every call takes its outcome from a list of events, so that it can
    succeed (a read or a write with any number of bytes), fail, or be where the
    process dies.  [cwp] is the crash specification of a program, [runs] its
    outcome when no call fails.  The type of the disk is a parameter. *)

From S2P Require Import Prelude PyVal.

Local Open Scope Z_scope.

(** ** Files *)

(** [os.stat_result] *)
Record Stat : Type := mkStat {
  is_dir : bool;
  is_link : bool;
  is_reg : bool;
  st_uid : Z;
  st_gid : Z;
  st_mode : Z;
  st_dev : Z;
  st_ino : Z;
  st_nlink : Z
}.

(** [f_synced]: the bytes are on stable storage. *)
Record File : Type := mkFile { f_stat : Stat; f_data : bytes; f_synced : bool }.

(** What is left of a file after a power loss *)
Definition survives (f g : File) : Prop := if f_synced f then g = f else f_stat g = f_stat f /\ f_synced g = true.

Definition survives_opt (o p : option File) : Prop :=
  match o, p with
  | None, None => True
  | Some f, Some g => survives f g
  | _, _ => False
  end.

Definition os_error : exn := err PyOSError "operating system".

(** ** Calls and their outcomes *)

Inductive event : Type :=
| Works (n : Z)
| Fails
| Dies.

Inductive outcome (D A : Type) : Type :=
| Died (d : D)
| Ran (d : D) (rest : list event) (r : result A).
Arguments Died {D A} d.
Arguments Ran {D A} d rest r.

(** A program over a disk [D] *)
Definition io (D A : Type) : Type := D -> list event -> outcome D A.

(** What a read or write of a call without an event may move *)
Definition ALL_BYTES : Z := 4096.

Section Programs.
Context {D : Type}.

Definition io_ret {A} (a : A) : io D A := fun d evs => Ran d evs (Ok a).
Definition io_raise {A} (e : exn) : io D A := fun d evs => Ran d evs (Raise e).
Definition io_lift {A} (r : result A) : io D A := fun d evs => Ran d evs r.

Definition io_bind {A B} (m : io D A) (k : A -> io D B) : io D B := fun d evs =>
  match m d evs with
  | Died d1 => Died d1
  | Ran d1 rest (Ok a) => k a d1 rest
  | Ran d1 rest (Raise e) => Ran d1 rest (Raise e)
  end.

(** [try: m except classes as exc: handler] *)
Definition io_try {A} (m : io D A) (classes : list exc_class) (handler : io D A) : io D A := fun d evs =>
  match m d evs with
  | Ran d1 rest (Raise e) => if existsb (exc_isa (exn_class e)) classes then handler d1 rest else Ran d1 rest (Raise e)
  | o => o
  end.

(** [try: m finally: cleanup]; what the cleanup raises replaces the outcome. *)
Definition io_finally {A} (m : io D A) (cleanup : io D unit) : io D A := fun d evs =>
  match m d evs with
  | Died d1 => Died d1
  | Ran d1 rest r =>
      match cleanup d1 rest with
      | Died d2 => Died d2
      | Ran d2 rest2 (Ok _) => Ran d2 rest2 r
      | Ran d2 rest2 (Raise e) => Ran d2 rest2 (Raise e)
      end
  end.

(** [m] with its exception as a value *)
Definition attempt {A} (m : io D A) : io D (result A) := fun d evs =>
  match m d evs with
  | Died d1 => Died d1
  | Ran d1 rest r => Ran d1 rest (Ok r)
  end.

(** [with suppress(OSError): m] *)
Definition suppress (m : io D unit) : io D unit := io_try m [PyOSError] (io_ret tt).

(** One call: with no event left it succeeds with all it was asked for. *)
Definition call {A} (act : Z -> D -> D * result A) : io D A := fun d evs =>
  match evs with
  | [] => let '(d1, r) := act ALL_BYTES d in Ran d1 [] r
  | Works n :: rest => let '(d1, r) := act n d in Ran d1 rest r
  | Fails :: rest => Ran d rest (Raise os_error)
  | Dies :: _ => Died d
  end.

(** A call that only answers *)
Definition observe {A} (a : A) : io D A := call (fun _ d => (d, Ok a)).

Definition io_raise_if (b : bool) (e : exn) : io D unit := if b then io_raise e else io_ret tt.

End Programs.

Notation "'io!' x := m 'in' k" := (io_bind m (fun x => k)) (at level 10, x name, m at level 200, k at level 200) : py_scope.
Notation "'then!' m 'in' k" := (io_bind m (fun _ => k)) (at level 10, m at level 200, k at level 200) : py_scope.

(** A program over a part of the disk *)
Definition zoom {D E A} (get : D -> E) (set : E -> D -> D) (m : io E A) : io D A := fun d evs =>
  match m (get d) evs with
  | Died e => Died (set e d)
  | Ran e rest r => Ran (set e d) rest r
  end.

(** What one operation of a store sees and is given: the directory by name and as opened,
    the random part of the temporary name, and the [stat] of a file it creates *)
Record Surroundings : Type := mkSurroundings { listed : Stat; opened : Stat; temp_token : pystr; created : Stat }.

(** A loop of [os.read], [block] bytes at a time, until nothing or [remaining]
    bytes came; [rest] is what is left of the file. *)
Fixpoint read_loop {D} (block : Z) (fuel : nat) (rest : bytes) (remaining : Z) (chunks : bytes) : io D bytes :=
  match fuel with
  | O => io_raise (err FuelExhausted "read")
  | S n =>
      if remaining =? 0 then io_ret chunks
      else
        io! data := call (fun k d => (d, Ok (slice_to (Z.max 1 (Z.min k (Z.min block remaining))) rest))) in
        if blen data =? 0 then io_ret chunks
        else read_loop block n (slice_from (blen data) rest) (remaining - blen data) (chunks ++ data)
  end.

(** ** Crash specifications

    [cwp m Q C d]: from [d], whatever the events, [m] either returns or raises in
    a disk and outcome that satisfy [Q], or dies in a disk that satisfies [C]. *)

Definition cwp {D A} (m : io D A) (Q : D -> result A -> Prop) (C : D -> Prop) (d : D) : Prop :=
  forall evs, match m d evs with Died d1 => C d1 | Ran d1 _ r => Q d1 r end.

Section Rules.
Context {D A B : Type}.
Implicit Types (d : D) (C : D -> Prop).

Lemma cwp_mono (m : io D A) (P Q : D -> result A -> Prop) C d :
  cwp m P C d -> (forall d1 r, P d1 r -> Q d1 r) -> cwp m Q C d.
Proof. intros H HP evs. specialize (H evs). destruct (m d evs); auto. Qed.

Lemma cwp_conseq (m : io D A) (P Q : D -> result A -> Prop) C' C d :
  cwp m P C' d -> (forall d1, C' d1 -> C d1) -> (forall d1 r, P d1 r -> Q d1 r) -> cwp m Q C d.
Proof. intros H HC HP evs. specialize (H evs). destruct (m d evs); auto. Qed.

Lemma cwp_bind (m : io D A) (k : A -> io D B) (Q : D -> result B -> Prop) C d :
  cwp m (fun d1 r => match r with Ok a => cwp (k a) Q C d1 | Raise e => Q d1 (Raise e) end) C d -> cwp (io_bind m k) Q C d.
Proof. intros H evs. specialize (H evs). unfold io_bind. destruct (m d evs) as [d1 | d1 rest [a | e]]; [done | apply H | done]. Qed.

Lemma cwp_ret (a : A) (Q : D -> result A -> Prop) C d : Q d (Ok a) -> cwp (io_ret a) Q C d.
Proof. by intros H evs. Qed.

Lemma cwp_raise (e : exn) (Q : D -> result A -> Prop) C d : Q d (Raise e) -> cwp (io_raise e) Q C d.
Proof. by intros H evs. Qed.

Lemma cwp_lift (r : result A) (Q : D -> result A -> Prop) C d : Q d r -> cwp (io_lift r) Q C d.
Proof. by intros H evs. Qed.

Lemma cwp_raise_if (b : bool) (e : exn) (Q : D -> result unit -> Prop) C d :
  Q d (Raise e) -> (b = false -> Q d (Ok tt)) -> cwp (io_raise_if b e) Q C d.
Proof. intros H1 H2 evs. destruct b; cbn; [done | by apply H2]. Qed.

Lemma cwp_call (act : Z -> D -> D * result A) (Q : D -> result A -> Prop) C d :
  C d -> Q d (Raise os_error) -> (forall n, Q (fst (act n d)) (snd (act n d))) -> cwp (call act) Q C d.
Proof.
  intros HC HF HS [|[n | |] rest]; cbn; try done.
  - specialize (HS ALL_BYTES). by destruct (act ALL_BYTES d).
  - specialize (HS n). by destruct (act n d).
Qed.

Lemma cwp_observe (a : A) (Q : D -> result A -> Prop) C d : C d -> Q d (Raise os_error) -> Q d (Ok a) -> cwp (observe a) Q C d.
Proof. intros. by apply cwp_call. Qed.

Lemma cwp_try (m : io D A) (classes : list exc_class) (handler : io D A) (Q : D -> result A -> Prop) C d :
  cwp m (fun d1 r => match r with
                     | Raise e => if existsb (exc_isa (exn_class e)) classes then cwp handler Q C d1 else Q d1 r
                     | Ok _ => Q d1 r
                     end) C d -> cwp (io_try m classes handler) Q C d.
Proof.
  intros H evs. specialize (H evs). unfold io_try. destruct (m d evs) as [d1 | d1 rest [a | e]]; try done.
  destruct (existsb _ classes); [apply H | done].
Qed.

Lemma cwp_attempt (m : io D A) (Q : D -> result (result A) -> Prop) C d : cwp m (fun d1 r => Q d1 (Ok r)) C d -> cwp (attempt m) Q C d.
Proof. intros Hm evs. specialize (Hm evs). unfold attempt. by destruct (m d evs). Qed.

Lemma cwp_finally (m : io D A) (cleanup : io D unit) (Q : D -> result A -> Prop) C d :
  cwp m (fun d1 r => cwp cleanup (fun d2 rc => Q d2 (match rc with Ok _ => r | Raise e => Raise e end)) C d1) C d ->
  cwp (io_finally m cleanup) Q C d.
Proof.
  intros H evs. specialize (H evs). unfold io_finally. destruct (m d evs) as [d1 | d1 rest r]; [done |].
  specialize (H rest). by destruct (cleanup d1 rest) as [d2 | d2 rest2 [u | e]].
Qed.

Lemma cwp_both (m : io D A) (P Q : D -> result A -> Prop) C1 C2 d :
  cwp m P C1 d -> cwp m Q C2 d -> cwp m (fun d1 r => P d1 r /\ Q d1 r) (fun d1 => C1 d1 /\ C2 d1) d.
Proof. intros HP HQ evs. specialize (HP evs). specialize (HQ evs). by destruct (m d evs). Qed.

Lemma cwp_all {X} (P : X -> Prop) (m : io D A) (Q : X -> D -> result A -> Prop) (C : X -> D -> Prop) d :
  (forall x, P x -> cwp m (Q x) (C x) d) -> cwp m (fun d1 r => forall x, P x -> Q x d1 r) (fun d1 => forall x, P x -> C x d1) d.
Proof. intros Hm evs. destruct (m d evs) eqn:E; intros x Hx; specialize (Hm x Hx evs); by rewrite E in Hm. Qed.

(** A run that leaves the disk alone until it is over *)
Lemma cwp_stays (m : io D A) (Q : D -> result A -> Prop) C d :
  C d -> (forall evs, match m d evs with Died d1 => d1 = d | Ran d1 _ r => d1 = d /\ Q d r end) -> cwp m Q C d.
Proof. intros HC H evs. specialize (H evs). destruct (m d evs) as [d1 | d1 rest r]; [by subst | by destruct H as [-> ?]]. Qed.

End Rules.

Lemma cwp_zoom {D E A} (get : D -> E) (set : E -> D -> D) (m : io E A) (Q : D -> result A -> Prop) (C : D -> Prop) (d : D) :
  cwp m (fun e r => Q (set e d) r) (fun e => C (set e d)) (get d) -> cwp (zoom get set m) Q C d.
Proof. intros Hm evs. specialize (Hm evs). unfold zoom. by destruct (m (get d) evs). Qed.

(** ** Invariants

    [maintains I m]: [I] holds of the disk whenever [m] returns, raises or dies, if it
    held before.  [keep] applies the rule for the program at hand. *)

Definition maintains {D A} (I : D -> Prop) (m : io D A) : Prop := forall d, I d -> cwp m (fun d1 _ => I d1) I d.

Section Keeping.
Context {D A B : Type} (I : D -> Prop).

Lemma keeps_bind (m : io D A) (k : A -> io D B) : maintains I m -> (forall a, maintains I (k a)) -> maintains I (io_bind m k).
Proof. intros Hm Hk d Hd. apply cwp_bind. eapply cwp_mono; [by apply Hm |]. cbn beta. intros d1 [a | e] H1; [by apply Hk | done]. Qed.

Lemma keeps_ret (a : A) : maintains I (io_ret a).
Proof. intros d Hd. by apply cwp_ret. Qed.

Lemma keeps_raise (e : exn) : maintains (A := A) I (io_raise e).
Proof. intros d Hd. by apply cwp_raise. Qed.

Lemma keeps_lift (r : result A) : maintains I (io_lift r).
Proof. intros d Hd. by apply cwp_lift. Qed.

Lemma keeps_raise_if (b : bool) (e : exn) : maintains I (io_raise_if b e).
Proof. intros d Hd. by apply cwp_raise_if. Qed.

Lemma keeps_try (m : io D A) (classes : list exc_class) (handler : io D A) : maintains I m -> maintains I handler -> maintains I (io_try m classes handler).
Proof.
  intros Hm Hh d Hd. apply cwp_try. eapply cwp_mono; [by apply Hm |]. cbn beta. intros d1 [a | e] H1; [done |].
  destruct (existsb _ _); [by apply Hh | done].
Qed.

Lemma keeps_attempt (m : io D A) : maintains I m -> maintains I (attempt m).
Proof. intros Hm d Hd. apply cwp_attempt. by apply Hm. Qed.

Lemma keeps_finally (m : io D A) (cleanup : io D unit) : maintains I m -> maintains I cleanup -> maintains I (io_finally m cleanup).
Proof. intros Hm Hc d Hd. apply cwp_finally. eapply cwp_mono; [by apply Hm |]. cbn beta. intros d1 r H1. by apply Hc. Qed.

Lemma keeps_zoom {E} (get : D -> E) (set : E -> D -> D) (m : io E A) :
  (forall d, I d -> cwp m (fun e _ => I (set e d)) (fun e => I (set e d)) (get d)) -> maintains I (zoom get set m).
Proof. intros Hm d Hd. apply cwp_zoom. by apply Hm. Qed.

End Keeping.

Create HintDb keep discriminated.
#[export] Hint Resolve keeps_ret keeps_raise keeps_lift keeps_raise_if : keep.

Ltac keep := repeat first
  [ progress intros
  | solve [eauto with keep]
  | simple apply keeps_bind | simple apply keeps_try | simple apply keeps_attempt | simple apply keeps_finally
  | progress cbv zeta
  | match goal with |- maintains _ (match ?x with _ => _ end) => destruct x eqn:? end ].

(** ** Without faults *)

(** [runs m d d1 r]: when every call succeeds in full, [m] ends in [d1] with [r]. *)
Definition runs {D A} (m : io D A) (d d1 : D) (r : result A) : Prop := m d [] = Ran d1 [] r.

Section Runs.
Context {D A B : Type}.

Lemma runs_bind (m : io D A) (k : A -> io D B) (d d1 d2 : D) (a : A) (r : result B) :
  runs m d d1 (Ok a) -> runs (k a) d1 d2 r -> runs (io_bind m k) d d2 r.
Proof. unfold runs, io_bind. by intros ->. Qed.

Lemma runs_raise (m : io D A) (k : A -> io D B) (d d1 : D) (e : exn) : runs m d d1 (Raise e) -> runs (io_bind m k) d d1 (Raise e).
Proof. unfold runs, io_bind. by intros ->. Qed.

Lemma runs_try (m : io D A) (cs : list exc_class) (h : io D A) (d d1 : D) (a : A) :
  runs m d d1 (Ok a) -> runs (io_try m cs h) d d1 (Ok a).
Proof. unfold runs, io_try. by intros ->. Qed.

Lemma runs_finally (m : io D A) (cleanup : io D unit) (d d1 d2 : D) (r : result A) :
  runs m d d1 r -> runs cleanup d1 d2 (Ok tt) -> runs (io_finally m cleanup) d d2 r.
Proof. unfold runs, io_finally. intros -> ->. done. Qed.

Lemma runs_attempt (m : io D A) (d d1 : D) (r : result A) : runs m d d1 r -> runs (attempt m) d d1 (Ok r).
Proof. unfold runs, attempt. by intros ->. Qed.

Lemma runs_call (act : Z -> D -> D * result A) (d d1 : D) (r : result A) :
  act ALL_BYTES d = (d1, r) -> runs (call act) d d1 r.
Proof. unfold runs, call. by intros ->. Qed.

Lemma runs_skip (m : io D A) (k : A -> io D B) (d d2 : D) (a : A) (r : result B) :
  runs m d d (Ok a) -> runs (k a) d d2 r -> runs (io_bind m k) d d2 r.
Proof. apply runs_bind. Qed.

End Runs.

Lemma runs_guard {D} (b : bool) (e : exn) (d : D) : b = false -> runs (io_raise_if b e) d d (Ok tt).
Proof. by intros ->. Qed.

(** ** Reading

    What a read returns does not depend on how the system cuts it. *)

Lemma slice_to_cut {A} (n : Z) (b q : list A) : blen b <= n -> slice_to n (b ++ q) = b ++ slice_to (n - blen b) q.
Proof.
  unfold slice_to, blen. intros H. rewrite take_app, take_ge by lia. do 2 f_equal. lia.
Qed.

Lemma read_loop_exact {D} (block : Z) (fuel : nat) (rest : bytes) (remaining : Z) (chunks : bytes) (d : D) (C : D -> Prop) :
  C d -> 1 <= block -> 0 <= remaining -> (length rest < fuel)%nat ->
  cwp (read_loop block fuel rest remaining chunks)
    (fun d1 r => d1 = d /\ (r = Ok (chunks ++ slice_to remaining rest) \/ r = Raise os_error)) C d.
Proof.
  intros HC Hblock. revert rest remaining chunks. induction fuel as [|fuel IH]; intros rest remaining chunks Hr Hf; [lia |]. cbn [read_loop].
  destruct (remaining =? 0) eqn:E.
  { apply Z.eqb_eq in E as ->. apply cwp_ret. split; [done |]. left. by rewrite app_nil_r. }
  apply Z.eqb_neq in E. apply cwp_bind, cwp_call; [done | by split; [| right] |]. intros n. cbn [fst snd].
  set (m := Z.max 1 _). assert (Hm : 1 <= m <= remaining) by lia.
  destruct (blen (slice_to m rest) =? 0) eqn:Eb.
  - apply Z.eqb_eq in Eb. assert (rest = []) as ->.
    { destruct rest; [done |]. unfold slice_to, blen in Eb. rewrite length_take in Eb. cbn [length] in Eb. lia. }
    apply cwp_ret. split; [done |]. left. unfold slice_to. by rewrite take_nil, app_nil_r.
  - apply Z.eqb_neq in Eb. assert (Hb : 0 <= blen (slice_to m rest) <= m) by (unfold slice_to, blen; rewrite length_take; lia).
    pose proof (slice_split m rest) as Hs. revert Hs Hb Eb. generalize (slice_to m rest) as b, (slice_from m rest) as q.
    intros b q -> Hb Eb. rewrite length_app in Hf. rewrite (slice_from_app (blen b)) by done. unfold blen in Hb, Eb.
    eapply cwp_mono; [apply IH; unfold blen; lia |]. cbn beta. intros d1 r [-> [-> | ->]]; (split; [done |]); [left | by right].
    by rewrite <- app_assoc, slice_to_cut by (unfold blen; lia).
Qed.

Lemma runs_read_loop {D} (block : Z) (fuel : nat) (rest : bytes) (remaining : Z) (chunks : bytes) (d : D) :
  1 <= block -> 0 <= remaining -> (length rest < fuel)%nat -> runs (read_loop block fuel rest remaining chunks) d d (Ok (chunks ++ slice_to remaining rest)).
Proof.
  intros Hblock. revert rest remaining chunks. induction fuel as [|fuel IH]; intros rest remaining chunks Hr Hf; [lia |]. cbn [read_loop].
  destruct (remaining =? 0) eqn:E; [apply Z.eqb_eq in E as ->; unfold runs, io_ret; by rewrite app_nil_r |]. apply Z.eqb_neq in E.
  set (m := Z.max 1 (Z.min ALL_BYTES (Z.min block remaining))).
  assert (Hm : 1 <= m <= remaining) by (unfold m, ALL_BYTES; lia).
  eapply runs_bind; [by apply runs_call |]. fold m. pose proof (slice_split m rest) as Hs.
  assert (Hb : blen (slice_to m rest) <= m) by (unfold slice_to, blen; rewrite length_take; lia).
  destruct (blen (slice_to m rest) =? 0) eqn:Eb.
  - apply Z.eqb_eq in Eb. destruct rest; [| unfold slice_to, blen in Eb; rewrite length_take in Eb; cbn [length] in Eb; lia].
    unfold runs, io_ret, slice_to. by rewrite take_nil, app_nil_r.
  - apply Z.eqb_neq in Eb. revert Hs Hb Eb. generalize (slice_to m rest) as b, (slice_from m rest) as q. intros b q -> Hb Eb.
    rewrite length_app in Hf. rewrite (slice_from_app (blen b)) by done. unfold blen in Hb, Eb.
    rewrite (slice_to_cut remaining) by (unfold blen; lia). rewrite app_assoc. apply IH; unfold blen; lia.
Qed.
