(* ===== verification/Epoch.v ===== *)
(** * The Runtime epoch counter ([agentbox_runtime/waw_epoch.py])

    [WAWRuntimeEpochStore] hands out each epoch once, across crashes.  The
    directory is a disk: the file that [epoch.json] names, the file it names
    after a power loss, and the temporary files.  Every call to the operating
    system takes its outcome from a list of events, so that it can succeed (a
    read or a write with any number of bytes), fail, or be where the process
    dies.  What the directory's [stat] shows, the names of the temporary files
    and the ownership of a new file are arguments.

    The directory lock makes an operation one transition between crashes; a
    process that dies gives the lock up.  [json.loads] of a text of at most 4096
    bytes is modelled without the interpreter's recursion limit, which deep
    nesting of a file that the store did not write could reach. *)

From stdpp Require Import sorting.
From S2P Require Import Prelude PyVal Json Crash.

Local Open Scope Z_scope.

Definition SCHEMA : pystr := $"waw-runtime-epoch-v1".
Definition EPOCH_MAX_BYTES : Z := 4096.

Definition epoch_error (message : string) : exn := err WAWRuntimeEpochError message.

(** ** The disk *)

(** [entry] is what [epoch.json] names, [durable] what it would name after a
    power loss. *)
Record Disk : Type := mkDisk { entry : option File; durable : option File; temps : gmap pystr File }.

Definition set_temp (name : pystr) (f : File) (d : Disk) : Disk := mkDisk (entry d) (durable d) (<[name := f]> (temps d)).

Local Abbreviation IO := (io Disk).

(** ** The record *)

(** [_strict_object] *)
Definition strict_pairs : pydict -> list (pystr * pyval) -> result pydict := unique_pairs (err PyValueError "duplicate JSON key").

Definition strict_object (st : unit) (pairs : list (pystr * pyval)) : result (unit * pyval) :=
  let! d := strict_pairs [] pairs in Ok (tt, PDict d).

(** The checks of [_read_epoch] on the parsed value *)
Definition check_record (value : pyval) : result Z :=
  let invalid := epoch_error "epoch record is invalid" in
  match value with
  | PDict d =>
      run! raise_if (negb (keys_equal (dkeys d) [$"schema_version"; $"epoch"])) invalid in
      run! raise_if (match dget d $"schema_version" with Some v => negb (scalar_eqb v (PStr SCHEMA)) | None => true end) invalid in
      match dget d $"epoch" with
      | Some (PStr s) =>
          run! raise_if (negb (match_pos_decimal s)) invalid in
          run! raise_if (negb (in_range 1 (digits_value s) MAX_U64)) (epoch_error "epoch record is outside uint64 domain") in
          Ok (digits_value s)
      | _ => Raise invalid
      end
  | _ => Raise invalid
  end.

(** The lines of [_read_epoch] after the file was read *)
Definition parse_epoch (payload : pystr) : result Z :=
  let! '(_, value) := except_as (loads default_number default_constant strict_object tt payload)
                        [JSONDecodeError; PyTypeError; PyValueError] (epoch_error "epoch file JSON is invalid") in
  check_record value.

(** The record that [_replace_epoch] writes, its keys sorted *)
Definition epoch_text (epoch : Z) : result pystr :=
  dumps (PDict [($"epoch", PStr (str_of_Z epoch)); ($"schema_version", PStr SCHEMA)]).

(** ** The store *)

Record Store : Type := mkStore { expected_uid : Z; expected_gid : Z }.

Definition new_store (uid gid : pyval) : result Store :=
  match uid, gid with
  | PInt u, PInt g =>
      run! raise_if (u <? 0) (err PyValueError "expected_uid must be a non-negative integer") in
      run! raise_if (g <? 0) (err PyValueError "expected_gid must be a non-negative integer") in
      Ok (mkStore u g)
  | PInt u, _ =>
      run! raise_if (u <? 0) (err PyValueError "expected_uid must be a non-negative integer") in
      Raise (err PyValueError "expected_gid must be a non-negative integer")
  | _, _ => Raise (err PyValueError "expected_uid must be a non-negative integer")
  end.

Section Operations.
Context (store : Store) (env : Surroundings).

Definition owned (s : Stat) : bool := (st_uid s =? expected_uid store) && (st_gid s =? expected_gid store).

(** [_open_directory] *)
Definition open_directory : IO unit :=
  io! details := io_try (observe (listed env)) [PyOSError] (io_raise (epoch_error "epoch directory is unavailable")) in
  then! io_raise_if (negb (is_dir details) || is_link details || negb (owned details) || negb (st_mode details =? 448))
          (epoch_error "epoch directory provenance is invalid") in
  then! io_try (observe tt) [PyOSError] (io_raise (epoch_error "epoch directory cannot be opened safely")) in
  fun d evs =>
    match (io! o := observe (opened env) in
           io_raise_if (negb (is_dir o) || negb (st_dev o =? st_dev details) || negb (st_ino o =? st_ino details)
                        || negb (owned o) || negb (st_mode o =? 448))
             (epoch_error "epoch directory changed during open")) d evs with
    | Ran d1 rest (Raise e) =>
        if exc_isa (exn_class e) PyException then (then! observe tt in io_raise e) d1 rest else Ran d1 rest (Raise e)
    | o => o
    end.

(** The [try] and [finally] of the three operations around the locked part *)
Definition locked {A} (body : IO A) : IO A :=
  then! open_directory in
  io_finally
    (then! io_try (observe tt) [PyOSError] (io_raise (epoch_error "epoch directory cannot be locked")) in body)
    (then! suppress (observe tt) in observe tt).

(** [os.open("epoch.json", O_RDONLY | O_NOFOLLOW)] *)
Definition open_epoch : IO File :=
  call (fun _ d => (d, match entry d with
                       | None => Raise (err PyFileNotFoundError "epoch.json")
                       | Some f => if is_link (f_stat f) then Raise os_error else Ok f
                       end)).

Definition read_bounded (f : File) : IO pystr :=
  io! raw := read_loop 1024 (length (f_data f) + 2) (f_data f) (EPOCH_MAX_BYTES + 1) [] in
  then! io_raise_if (EPOCH_MAX_BYTES <? blen raw) (epoch_error "epoch file exceeds bounded size") in
  match utf8_decode raw with
  | Some t => io_ret t
  | None => io_raise (epoch_error "epoch file is not UTF-8")
  end.

(** [_read_epoch] *)
Definition read_epoch : IO Z :=
  io! f := io_try open_epoch [PyOSError] (io_raise (epoch_error "epoch file is unavailable")) in
  io! payload := io_finally
    (io_try (then! observe tt in
             then! io_raise_if (negb (is_reg (f_stat f)) || negb (owned (f_stat f)) || negb (st_mode (f_stat f) =? 384)
                                || (EPOCH_MAX_BYTES <? blen (f_data f)))
                     (epoch_error "epoch file provenance is invalid") in
             read_bounded f)
       [PyOSError] (io_raise (epoch_error "epoch file cannot be read")))
    (observe tt) in
  io_lift (parse_epoch payload).

(** [_write_all] to the temporary file *)
Fixpoint write_all (fuel : nat) (name : pystr) (view : bytes) : IO unit :=
  match fuel with
  | O => io_raise (err FuelExhausted "_write_all")
  | S n =>
      if blen view =? 0 then io_ret tt
      else
        io! written := call (fun k d =>
          let w := Z.max 0 (Z.min k (blen view)) in
          match temps d !! name with
          | Some f => (set_temp name (mkFile (f_stat f) (f_data f ++ slice_to w view) false) d, Ok w)
          | None => (d, Ok w)
          end) in
        then! io_raise_if (written <=? 0) os_error in
        write_all n name (slice_from written view)
  end.

Definition create_temp (name : pystr) : IO unit :=
  call (fun _ d => match temps d !! name with
                   | Some _ => (d, Raise os_error)
                   | None => (set_temp name (mkFile (created env) [] false) d, Ok tt)
                   end).

Definition sync_temp (name : pystr) : IO unit :=
  call (fun _ d => match temps d !! name with
                   | Some f => (set_temp name (mkFile (f_stat f) (f_data f) true) d, Ok tt)
                   | None => (d, Raise os_error)
                   end).

Definition rename_temp (name : pystr) : IO unit :=
  call (fun _ d => match temps d !! name with
                   | Some f => (mkDisk (Some f) (durable d) (delete name (temps d)), Ok tt)
                   | None => (d, Raise (err PyFileNotFoundError "temporary epoch"))
                   end).

Definition sync_directory : IO unit := call (fun _ d => (mkDisk (entry d) (entry d) (temps d), Ok tt)).

Definition unlink_temp (name : pystr) : IO unit :=
  call (fun _ d => match temps d !! name with
                   | Some _ => (mkDisk (entry d) (durable d) (delete name (temps d)), Ok tt)
                   | None => (d, Raise (err PyFileNotFoundError "temporary epoch"))
                   end).

(** [_replace_epoch] *)
Definition replace_epoch (epoch : Z) : IO unit :=
  let temp_name := $".epoch." ++ temp_token env ++ $".tmp" in
  io! payload := io_lift (let! t := epoch_text epoch in encode_ascii t) in
  io_finally
    (io_try (then! create_temp temp_name in
             then! io_finally (then! write_all (S (length payload)) temp_name payload in
                               then! sync_temp temp_name in
                               io! details := observe (created env) in
                               io_raise_if (negb (owned details)) (epoch_error "temporary epoch provenance is invalid"))
                     (observe tt) in
             then! rename_temp temp_name in
             sync_directory)
       [PyOSError; PyValueError] (io_raise (epoch_error "epoch update could not be committed")))
    (suppress (unlink_temp temp_name)).

Definition bootstrap : IO Z :=
  locked (fun d evs =>
    match open_epoch d evs with
    | Ran d1 rest (Raise e) =>
        if exc_isa (exn_class e) PyFileNotFoundError then (then! replace_epoch 1 in io_ret 1) d1 rest
        else if exc_isa (exn_class e) PyOSError then Ran d1 rest (Raise (epoch_error "epoch file cannot be inspected"))
        else Ran d1 rest (Raise e)
    | Ran d1 rest (Ok _) => (then! observe tt in io_raise (epoch_error "Runtime epoch counter is already initialized")) d1 rest
    | Died d1 => Died d1
    end).

(** [consume_prepared]; the callbacks only construct values, so their outcomes
    are functions. *)
Definition consume_prepared {T} (prepare : pystr -> result T) (validate : T -> pystr -> result unit) : IO (Z * T) :=
  locked (
    io! current := read_epoch in
    then! io_raise_if (current =? MAX_U64) (epoch_error "Runtime epoch sequence is exhausted") in
    let next_epoch := current + 1 in
    let text_epoch := str_of_Z next_epoch in
    io! prepared := io_lift (prepare text_epoch) in
    then! io_lift (validate prepared text_epoch) in
    then! replace_epoch next_epoch in
    io_ret (next_epoch, prepared)).

Definition consume : IO Z :=
  locked (
    io! current := read_epoch in
    then! io_raise_if (current =? MAX_U64) (epoch_error "Runtime epoch sequence is exhausted") in
    let next_epoch := current + 1 in
    then! replace_epoch next_epoch in
    io_ret next_epoch).

End Operations.

(** *** The record reads back *)

Definition epoch_bytes (n : Z) : result bytes := let! t := epoch_text n in encode_ascii t.

(** The text of a record around its digits *)
Definition record_prefix : pystr := 123 :: dumps_string $"epoch" ++ [58; 34].
Definition record_suffix : pystr := 34 :: 44 :: dumps_string $"schema_version" ++ 58 :: dumps_string SCHEMA ++ [125].

Lemma epoch_text_shape (n : Z) : 1 <= n <= MAX_U64 -> epoch_text n = Ok (record_prefix ++ str_of_Z n ++ record_suffix).
Proof.
  intros Hn. destruct (str_of_u64 n Hn) as (Hd & _). unfold epoch_text. cbn [dumps map seq_results foldr rbind fst snd].
  f_equal. unfold dumps_string at 2. rewrite digits_plain by done. generalize (str_of_Z n) as s. intros s.
  transitivity (record_prefix ++ ((s ++ [34]) ++ 44 :: dumps_string $"schema_version" ++ 58 :: dumps_string SCHEMA) ++ [125]);
    [reflexivity |]. by rewrite <- !app_assoc.
Qed.

Lemma epoch_reads_back (n : Z) : 1 <= n <= MAX_U64 ->
  exists t b, epoch_bytes n = Ok b /\ utf8_decode b = Some t /\ parse_epoch t = Ok n /\ blen b <= EPOCH_MAX_BYTES.
Proof.
  intros Hn. pose proof (epoch_text_shape n Hn) as Ht. destruct (str_of_u64 n Hn) as (Hd & Hm & Hv & Hl).
  destruct (digits_ascii _ Hd) as [Hz Ha]. set (t := record_prefix ++ _ ++ _) in Ht.
  assert (Hz' : forallb (Z.leb 0) t = true) by (unfold t; by rewrite !forallb_app, Hz).
  assert (Ha' : forallb (fun c => c <? 128) t = true) by (unfold t; by rewrite !forallb_app, Ha).
  destruct (ascii_encodes t Hz' Ha') as (b & Eb & Lb). exists t, b.
  split; [unfold epoch_bytes; rewrite Ht; cbn [rbind]; unfold encode_ascii; by rewrite Eb, Ha' |].
  split; [by apply utf8_decode_encode |]. split.
  - unfold parse_epoch. rewrite (loads_dumps _ _ _ (PDict [($"epoch", PStr (str_of_Z n)); ($"schema_version", PStr SCHEMA)]) t tt).
    + assert (Hr : forall s, read_back default_number strict_object tt (PDict [($"epoch", PStr s); ($"schema_version", PStr SCHEMA)])
                            = Ok (tt, PDict [($"epoch", PStr s); ($"schema_version", PStr SCHEMA)])) by reflexivity.
      assert (Hc : forall s, check_record (PDict [($"epoch", PStr s); ($"schema_version", PStr SCHEMA)])
                   = run! raise_if (negb (match_pos_decimal s)) (epoch_error "epoch record is invalid") in
                     run! raise_if (negb (in_range 1 (digits_value s) MAX_U64)) (epoch_error "epoch record is outside uint64 domain") in
                     Ok (digits_value s)) by reflexivity.
      rewrite Hr. cbn [except_as rbind]. rewrite Hc, Hm, Hv. cbn [negb raise_if rbind]. unfold in_range.
      rewrite (proj2 (andb_true_iff _ _)); [done | lia].
    + cbn. by rewrite Hz.
    + exact Ht.
  - rewrite Lb. unfold t, blen. rewrite !length_app. assert (length record_prefix <= 100 /\ length record_suffix <= 100)%nat by (vm_compute; split; lia).
    unfold EPOCH_MAX_BYTES. lia.
Qed.

(** *** Operations *)

(** The file holds the record of [n], on stable storage. *)
Definition holds (n : Z) (f : File) : Prop := epoch_bytes n = Ok (f_data f) /\ f_synced f = true /\ 1 <= n <= MAX_U64.

(** Both names are as before. *)
Definition unmoved (d d1 : Disk) : Prop := entry d1 = entry d /\ durable d1 = durable d.

(** The name was moved to a record of [n], perhaps not yet durably. *)
Definition renamed (n : Z) (d d1 : Disk) : Prop :=
  exists f, entry d1 = Some f /\ holds n f /\ (durable d1 = durable d \/ durable d1 = Some f).

Definition committed (n : Z) (d1 : Disk) : Prop := exists f, entry d1 = Some f /\ durable d1 = Some f /\ holds n f.

Lemma unmoved_trans (d1 d2 d3 : Disk) : unmoved d1 d2 -> unmoved d2 d3 -> unmoved d1 d3.
Proof. unfold unmoved. intros [-> ->] ?. done. Qed.

Section Specs.
Context (store : Store) (env : Surroundings).

Lemma open_directory_spec (d : Disk) : cwp (open_directory store env) (fun d1 _ => d1 = d) (fun d1 => d1 = d) d.
Proof.
  unfold open_directory. apply cwp_bind, cwp_try, cwp_observe; [done | apply cwp_raise; done |].
  apply cwp_bind, cwp_raise_if; [done |]. intros _. apply cwp_bind, cwp_try, cwp_observe; [done | apply cwp_raise; done |].
  set (m := io_bind (observe (opened env)) _). intros evs.
  assert (Hm : cwp m (fun d1 _ => d1 = d) (fun d1 => d1 = d) d).
  { apply cwp_bind, cwp_observe; [done | done |]. apply cwp_raise_if; done. }
  specialize (Hm evs). destruct (m d evs) as [d1 | d1 rest [a | e]]; try done. subst d1.
  destruct (exc_isa _ _); [| done]. assert (Hc : cwp (A := unit) (then! observe tt in io_raise e) (fun d1 _ => d1 = d) (fun d1 => d1 = d) d).
  { apply cwp_bind, cwp_observe; [done | done |]. by apply cwp_raise. }
  exact (Hc rest).
Qed.

(** The lock and its release add no change of their own. *)
Lemma locked_spec {A} (body : IO A) (Q : Disk -> result A -> Prop) (C : Disk -> Prop) (d : Disk) :
  C d -> (forall e, Q d (Raise e)) -> (forall d1 r, Q d1 r -> C d1 /\ forall e, Q d1 (Raise e)) ->
  cwp body Q C d -> cwp (locked store env body) Q C d.
Proof.
  intros HC HQ HQC Hbody. apply cwp_bind. intros evs. pose proof (open_directory_spec d evs) as H.
  destruct (open_directory store env d evs) as [d1 | d1 rest [u | e]]; subst; [done | | apply HQ].
  apply cwp_finally. assert (Hclean : forall d1 r, Q d1 r ->
    cwp (then! suppress (observe tt) in observe tt) (fun d2 rc => Q d2 (match rc with Ok _ => r | Raise e => Raise e end)) C d1).
  { intros d1 r H1. destruct (HQC d1 r H1) as [H2 H3].
    apply cwp_bind, cwp_try, cwp_observe; [done | cbn; apply cwp_ret, cwp_observe; eauto | apply cwp_observe; eauto]. }
  apply cwp_bind, cwp_try, cwp_observe; [done | cbn; apply cwp_raise, Hclean, HQ |].
  eapply cwp_mono; [exact Hbody | intros d1 r H1; by apply Hclean].
Qed.

Lemma read_bounded_spec (f : File) (C : Disk -> Prop) (d : Disk) :
  C d -> cwp (read_bounded f) (fun d1 r => d1 = d /\ forall t, r = Ok t -> utf8_decode (f_data f) = Some t) C d.
Proof.
  intros HC. apply cwp_bind. eapply cwp_mono; [apply (read_loop_exact 1024 _ (f_data f)); [done | lia | unfold EPOCH_MAX_BYTES; lia | lia] |].
  cbn beta. intros d1 r [-> [-> | ->]]; [| done]. cbn [app]. apply cwp_bind, cwp_raise_if; [done |]. intros Hlen%Z.ltb_ge.
  assert (Hall : slice_to (EPOCH_MAX_BYTES + 1) (f_data f) = f_data f).
  { unfold slice_to, blen, EPOCH_MAX_BYTES in *. apply take_ge. rewrite length_take in Hlen. lia. }
  rewrite Hall. destruct (utf8_decode (f_data f)) as [t |]; [apply cwp_ret | apply cwp_raise]; (split; [done |]); congruence.
Qed.

(** Reading gives the recorded epoch or raises, and changes nothing. *)
Lemma read_epoch_spec (C : Disk -> Prop) (d : Disk) :
  C d -> cwp (read_epoch store) (fun d1 r => d1 = d /\ forall n, r = Ok n ->
    exists f t, entry d = Some f /\ utf8_decode (f_data f) = Some t /\ parse_epoch t = Ok n) C d.
Proof.
  intros HC. apply cwp_bind, cwp_try, cwp_call; [done | by apply cwp_raise |]. intros _. cbn [fst snd].
  destruct (entry d) as [f |] eqn:Ee; [| by apply cwp_raise]. destruct (is_link (f_stat f)); [by apply cwp_raise |].
  apply cwp_bind, cwp_finally, cwp_try, cwp_bind, cwp_observe; [done | apply cwp_raise, cwp_observe; done |].
  apply cwp_bind, cwp_raise_if; [cbn; apply cwp_observe; done |]. intros _.
  eapply cwp_mono; [by apply (read_bounded_spec f C) |]. cbn beta. intros d1 r [-> Hr].
  destruct r as [t | e].
  - apply cwp_observe; [done | done |]. apply cwp_lift. split; [done |]. intros n Hn. exists f, t. split; [done |]. split; [by apply Hr | done].
  - destruct (existsb _ _); [apply cwp_raise, cwp_observe; done | apply cwp_observe; done].
Qed.

Lemma write_all_spec (fuel : nat) (name : pystr) (view : bytes) (f : File) (C : Disk -> Prop) (d0 d : Disk) :
  (forall d1, unmoved d0 d1 -> C d1) -> unmoved d0 d -> temps d !! name = Some f -> (length view < fuel)%nat ->
  cwp (write_all fuel name view) (fun d1 r => unmoved d0 d1 /\ (r = Ok tt ->
    exists g, temps d1 !! name = Some g /\ f_stat g = f_stat f /\ f_data g = f_data f ++ view)) C d.
Proof.
  intros HC. revert view f d. induction fuel as [|fuel IH]; intros view f d Hu Hf Hlen; [lia |]. cbn [write_all].
  destruct (blen view =? 0) eqn:E.
  { apply Z.eqb_eq in E. unfold blen in E. destruct view; [| cbn in E; lia]. apply cwp_ret. split; [done |]. intros _. exists f.
    by rewrite app_nil_r. }
  apply cwp_bind, cwp_call; [by apply HC | done |]. intros k. cbv zeta. rewrite Hf. cbn [fst snd]. set (w := Z.max 0 _).
  apply cwp_bind, cwp_raise_if; [done |]. intros Hw%Z.leb_gt. assert (Hle : 0 < w <= blen view) by lia.
  eapply cwp_mono.
  - apply (IH _ (mkFile (f_stat f) (f_data f ++ slice_to w view) false)); [done | cbn; by rewrite lookup_insert_eq |].
    unfold slice_from. rewrite length_drop. unfold blen in Hle. lia.
  - cbn beta. intros d1 r [Hu1 H1]. split; [done |]. intros Hr. destruct (H1 Hr) as (g & G1 & G2 & G3). exists g. split; [done |].
    split; [done |]. rewrite G3. cbn. rewrite <- app_assoc. f_equal. symmetry. apply slice_split.
Qed.

(** Replacing leaves the name alone, moves it to a complete durable record, or,
    when it fails or dies, may have moved it without making that durable. *)
Lemma replace_epoch_spec (n : Z) (d : Disk) :
  1 <= n <= MAX_U64 ->
  cwp (replace_epoch store env n)
    (fun d1 r => (unmoved d d1 \/ renamed n d d1) /\ (r = Ok tt -> committed n d1))
    (fun d1 => unmoved d d1 \/ renamed n d d1) d.
Proof.
  intros Hn. destruct (epoch_reads_back n Hn) as (_ & b & Eb & _). unfold replace_epoch. set (name := _ ++ _ ++ _).
  fold (epoch_bytes n). apply cwp_bind, cwp_lift. rewrite Eb. set (C := fun d1 : Disk => unmoved d d1 \/ renamed n d d1).
  set (Q := fun (d1 : Disk) (r : result unit) => (unmoved d d1 \/ renamed n d d1) /\ (r = Ok tt -> committed n d1)).
  assert (HQC : forall d1 r, Q d1 r -> C d1) by (by intros d1 r [? _]).
  assert (Hclean : forall d1 r, Q d1 r ->
    cwp (suppress (unlink_temp name)) (fun d2 rc => Q d2 (match rc with Ok _ => r | Raise e => Raise e end)) C d1).
  { intros d1 r H. apply cwp_try, cwp_call; [by eapply HQC | cbn; by apply cwp_ret |]. intros _.
    destruct (temps d1 !! name); cbn; [exact H | by apply cwp_ret]. }
  assert (Hstay : forall d1 e, unmoved d d1 -> Q d1 (Raise e)) by (intros d1 e H; split; [by left | done]).
  apply cwp_finally. eapply cwp_mono; [| exact Hclean]. apply cwp_try.
  set (Q' := fun (d1 : Disk) (r : result unit) => match r with Ok _ => Q d1 r | Raise e => _ end).
  assert (HQ' : forall d1 r, Q d1 r -> Q' d1 r).
  { intros d1 [u | e] H; [exact H |]. unfold Q'. destruct (existsb (exc_isa (exn_class e)) _); [apply cwp_raise; destruct H as [H _]; by split | exact H]. }
  apply cwp_bind, cwp_call; [by left | by apply HQ', Hstay |]. intros _. destruct (temps d !! name) eqn:Et; cbn [fst snd]; [by apply HQ', Hstay |].
  apply cwp_bind, cwp_finally. set (d1 := set_temp name _ d). apply cwp_bind. eapply cwp_mono.
  { apply (write_all_spec _ name b (mkFile (created env) [] false) C d d1); [by left | done | cbn; by rewrite lookup_insert_eq | lia]. }
  cbn beta. intros d2 r [U2 W2].
  assert (Hfail : forall d3 e, unmoved d d3 -> cwp (observe tt) (fun d4 rc => match (match rc with Ok _ => Raise e | Raise e0 => Raise e0 end : result unit) with
      | Ok a => cwp (then! rename_temp name in sync_directory) Q' C d4 | Raise e0 => Q' d4 (Raise e0) end) C d3).
  { intros d3 e U3. apply cwp_observe; [by left | by apply HQ', Hstay | by apply HQ', Hstay]. }
  destruct r as [[] | e]; [| by apply Hfail]. destruct (W2 eq_refl) as (g & G1 & G2 & G3). cbn in G3.
  apply cwp_bind, cwp_call; [by left | by apply Hfail |]. intros _. rewrite G1. cbn [fst snd].
  apply cwp_bind, cwp_observe; [by left | by apply Hfail |]. apply cwp_raise_if; [by apply Hfail |]. intros _.
  apply cwp_observe; [by left | by apply HQ', Hstay |].
  set (f := mkFile (f_stat g) (f_data g) true). assert (Hf : holds n f) by (unfold holds, f; cbn; by rewrite G3).
  apply cwp_bind, cwp_call; [by left | by apply HQ', Hstay |]. intros _. cbn [temps set_temp]. rewrite lookup_insert_eq. cbn [fst snd].
  apply cwp_call.
  - right. exists f. split; [done |]. split; [done |]. left. by destruct U2.
  - apply HQ'. split; [| done]. right. exists f. split; [done |]. split; [done |]. left. by destruct U2.
  - intros _. apply HQ'. split; [right; exists f; by split; [| split; [| right]] | intros _; exists f; done].
Qed.

End Specs.

(** ** Histories *)

Inductive operation : Type :=
| Bootstrap
| Consume
| ConsumePrepared (T : Type) (prepare : pystr -> result T) (validate : T -> pystr -> result unit).

Definition perform (store : Store) (env : Surroundings) (op : operation) : IO Z :=
  match op with
  | Bootstrap => bootstrap store env
  | Consume => consume store env
  | ConsumePrepared _ prepare validate => io! r := consume_prepared store env prepare validate in io_ret (fst r)
  end.

(** The disk after the process died, or after the power was lost: the name is as
    it was or as it was made durable, and any temporary files may remain. *)
Inductive recovers : Disk -> Disk -> Prop :=
| Process_dies d : recovers d d
| Power_lost d o ts : survives_opt (entry d) o \/ survives_opt (durable d) o -> recovers d (mkDisk o o ts).

(** A history of one directory and the epochs that were handed out *)
Inductive history (store : Store) : Disk -> list Z -> Prop :=
| Hist_new d : entry d = None -> durable d = None -> history store d []
| Hist_run d l op env evs d1 rest r : history store d l -> perform store env op d evs = Ran d1 rest r ->
    history store d1 (match r with Ok n => l ++ [n] | Raise _ => l end)
| Hist_dies d l op env evs d1 d2 : history store d l -> perform store env op d evs = Died d1 -> recovers d1 d2 -> history store d2 l
| Hist_lost d l d1 : history store d l -> recovers d d1 -> history store d1 l.

(** The counter that a name shows, 0 before the first *)
Definition shows_epoch (o : option File) (n : Z) : Prop := match o with None => n = 0 | Some f => holds n f end.

Definition tracks (d : Disk) (now safe : Z) : Prop := shows_epoch (entry d) now /\ shows_epoch (durable d) safe /\ safe <= now.

Lemma holds_read (n m : Z) (f : File) (t : pystr) : holds n f -> utf8_decode (f_data f) = Some t -> parse_epoch t = Ok m -> m = n.
Proof.
  intros (Hb & _ & Hn) Ht Hp. destruct (epoch_reads_back n Hn) as (t' & b & Eb & Et & Ep & _). congruence.
Qed.

Lemma shows_nonneg (o : option File) (n : Z) : shows_epoch o n -> 0 <= n.
Proof. destruct o; cbn; [intros (_ & _ & ?); lia | lia]. Qed.

Lemma replaced_tracks (n now safe : Z) (d d1 : Disk) :
  tracks d now safe -> now < n -> unmoved d d1 \/ renamed n d d1 -> exists now1 safe1, tracks d1 now1 safe1 /\ safe <= safe1.
Proof.
  intros (He & Hd & Hle) Hn [[E1 E2] | (f & E1 & Hf & E2)].
  - exists now, safe. unfold tracks. rewrite E1, E2. done.
  - destruct E2 as [E2 | E2]; [exists n, safe | exists n, n]; unfold tracks, shows_epoch at 1; rewrite E1, E2; (split; [| lia]);
      (split; [done |]); (split; [done | lia]).
Qed.

Lemma committed_tracks (n : Z) (d1 : Disk) : committed n d1 -> tracks d1 n n.
Proof. intros (f & E1 & E2 & Hf). unfold tracks. rewrite E1, E2. by split; [| split]. Qed.

(** Every operation keeps the durable counter from going back, and an epoch that
    it returns is new and durable. *)
Definition advances (now safe : Z) (d1 : Disk) (r : result Z) : Prop :=
  (exists now1 safe1, tracks d1 now1 safe1 /\ safe <= safe1) /\ forall n, r = Ok n -> tracks d1 n n /\ now < n.

Definition endures (safe : Z) (d1 : Disk) : Prop := exists now1 safe1, tracks d1 now1 safe1 /\ safe <= safe1.

Section Histories.
Context (store : Store).

Lemma replace_advances (env : Surroundings) (now safe n : Z) (d : Disk) :
  tracks d now safe -> now < n <= MAX_U64 ->
  cwp (io_bind (replace_epoch store env n) (fun _ => io_ret n)) (advances now safe) (endures safe) d.
Proof.
  intros Ht Hn. pose proof (shows_nonneg _ _ (proj1 Ht)) as H0. apply cwp_bind. intros evs.
  pose proof (replace_epoch_spec store env n d ltac:(lia) evs) as H. destruct (replace_epoch store env n d evs) as [d1 | d1 rest [[] | e]].
  - by apply (replaced_tracks n now safe d); [| lia |].
  - destruct H as [H1 H2]. apply cwp_ret. split; [by apply (replaced_tracks n now safe d); [| lia |] |]. intros m [= <-].
    split; [by apply committed_tracks, H2 | lia].
  - destruct H as [H1 _]. split; [by apply (replaced_tracks n now safe d); [| lia |] | done].
Qed.

(** Reading, then going on with the epoch that was recorded *)
Lemma read_advances {A} (k : Z -> IO A) (Q : Disk -> result A -> Prop) (now safe : Z) (d : Disk) :
  tracks d now safe -> (forall e, Q d (Raise e)) -> (now <= MAX_U64 -> cwp (k now) Q (endures safe) d) ->
  cwp (io_bind (read_epoch store) k) Q (endures safe) d.
Proof.
  intros Ht HQ Hk. apply cwp_bind. eapply cwp_mono; [apply read_epoch_spec; by exists now, safe |]. cbn beta. intros d1 r [-> Hr].
  destruct r as [n | e]; [| apply HQ]. destruct (Hr n eq_refl) as (f & t & Ee & Eu & Ep). destruct Ht as (He & _). rewrite Ee in He.
  cbn in He. rewrite (holds_read now n f t He Eu Ep). apply Hk. destruct He as (_ & _ & ?). lia.
Qed.

Lemma raise_advances (now safe : Z) (d : Disk) (e : exn) : tracks d now safe -> advances now safe d (Raise e).
Proof. intros H. split; [by exists now, safe | done]. Qed.

Lemma advances_ends (now safe : Z) (d1 : Disk) (r : result Z) :
  advances now safe d1 r -> endures safe d1 /\ forall e, advances now safe d1 (Raise e).
Proof. intros [H1 H2]. split; [exact H1 |]. intros e. by split. Qed.

Lemma perform_advances (env : Surroundings) (op : operation) (now safe : Z) (d : Disk) :
  tracks d now safe -> cwp (perform store env op) (advances now safe) (endures safe) d.
Proof.
  intros Ht. pose proof (fun e => raise_advances now safe d e Ht) as HR. assert (HE : endures safe d) by (by exists now, safe).
  destruct op as [| | T prepare validate]; cbn [perform].
  - apply locked_spec; [done | eauto | apply advances_ends |]. intros evs. unfold open_epoch, call.
    assert (Hnew : entry d = None -> cwp (io_bind (replace_epoch store env 1) (fun _ => io_ret 1)) (advances now safe) (endures safe) d).
    { intros Hn. destruct Ht as (He & Hd & Hle). rewrite Hn in He. cbn in He. apply replace_advances; [unfold tracks; by rewrite Hn | unfold MAX_U64; lia]. }
    assert (Hold : forall e, cwp (A := Z) (then! observe tt in io_raise e) (advances now safe) (endures safe) d).
    { intros e. apply cwp_bind, cwp_observe; [done | eauto | apply cwp_raise; eauto]. }
    assert (Hact : forall rest, match match (match entry d with None => Raise (err PyFileNotFoundError "epoch.json")
        | Some f => if is_link (f_stat f) then Raise os_error else Ok f end) with
      | Ok _ => (then! observe tt in io_raise (epoch_error "Runtime epoch counter is already initialized")) d rest
      | Raise e => if exc_isa (exn_class e) PyFileNotFoundError then (then! replace_epoch store env 1 in io_ret 1) d rest
          else if exc_isa (exn_class e) PyOSError then Ran d rest (Raise (epoch_error "epoch file cannot be inspected")) else Ran d rest (Raise e)
      end with Died d1 => endures safe d1 | Ran d1 _ r => advances now safe d1 r end).
    { intros rest. destruct (entry d) as [f |] eqn:Ee; [| exact (Hnew eq_refl rest)].
      destruct (is_link (f_stat f)); [apply HR | exact (Hold _ rest)]. }
    destruct evs as [|[n | |] rest]; [exact (Hact []) | exact (Hact rest) | apply HR | done].
  - apply locked_spec; [done | eauto | apply advances_ends |]. apply (read_advances _ _ now); [done | apply HR |]. intros Hmax.
    apply cwp_bind, cwp_raise_if; [eauto |]. intros Hne%Z.eqb_neq. apply replace_advances; [done | lia].
  - apply cwp_bind. eapply cwp_mono.
    + apply (locked_spec store env _ (fun d1 r => advances now safe d1 (let! x := r in Ok (fst x))) (endures safe)); [done | eauto | |].
      * intros d1 r H. by apply advances_ends in H.
      * apply (read_advances _ _ now); [done | apply HR |]. intros Hmax. apply cwp_bind, cwp_raise_if; [eauto |]. intros Hne%Z.eqb_neq.
        apply cwp_bind, cwp_lift. destruct (prepare _) as [x | e]; [| cbn; eauto]. apply cwp_bind, cwp_lift.
        destruct (validate x _) as [[] | e]; [| cbn; eauto]. apply cwp_bind. intros evs.
        pose proof (replace_advances env now safe (now + 1) d Ht ltac:(lia) evs) as H. unfold io_bind in H.
        destruct (replace_epoch store env (now + 1) d evs) as [d1 | d1 rest [u | e]]; [exact H | apply cwp_ret; exact H | exact H].
    + cbn beta. intros d1 r H. destruct r as [[m x] | e]; [apply cwp_ret; exact H | exact H].
Qed.

Lemma recovers_tracks (d d1 : Disk) (now safe : Z) : tracks d now safe -> recovers d d1 -> endures safe d1.
Proof.
  intros (He & Hd & Hle) H. destruct H as [d | d o ts Ho]; [by exists now, safe |].
  assert (Hs : forall p n, shows_epoch p n -> survives_opt p o -> shows_epoch o n).
  { intros [f |] n Hp Hsv; destruct o as [g |]; try done. cbn in *. unfold survives in Hsv. destruct Hp as (H1 & H2 & H3).
    rewrite H2 in Hsv. by subst g. }
  destruct Ho as [Ho | Ho]; [exists now, now | exists safe, safe]; (split; [| lia]); unfold tracks; cbn; eauto with lia.
Qed.

Lemma history_inv (d : Disk) (l : list Z) :
  history store d l -> exists now safe, tracks d now safe /\ Forall (fun n => 1 <= n <= safe) l /\ StronglySorted Z.lt l.
Proof.
  induction 1 as [d E1 E2 | d l op env evs d1 rest r _ (now & safe & Ht & Hl & Hs) E | d l op env evs d1 d2 _ (now & safe & Ht & Hl & Hs) E Hr
                 | d l d1 _ (now & safe & Ht & Hl & Hs) Hr].
  - exists 0, 0. unfold tracks. rewrite E1, E2. split; [by repeat split |]. split; constructor.
  - pose proof (perform_advances env op now safe d Ht evs) as H. rewrite E in H. destruct H as [(now1 & safe1 & Ht1 & Hle) Hr].
    assert (Hl1 : Forall (fun n => 1 <= n <= safe1) l) by (eapply Forall_impl; [exact Hl | cbn; lia]).
    destruct r as [n | e]; [| by exists now1, safe1]. destruct (Hr n eq_refl) as [Hn Hlt]. exists n, n.
    pose proof (shows_nonneg _ _ (proj1 Ht)) as H0. destruct Ht as (_ & _ & Hle0). split; [done |]. split.
    + apply Forall_app. split; [eapply Forall_impl; [exact Hl | cbn; lia] |]. repeat constructor; lia.
    + apply StronglySorted_app_2; [| done | repeat constructor]. intros x y Hx ->%list_elem_of_singleton.
      rewrite Forall_forall in Hl. specialize (Hl x Hx). lia.
  - pose proof (perform_advances env op now safe d Ht evs) as H. rewrite E in H. destruct H as (now1 & safe1 & Ht1 & Hle).
    destruct (recovers_tracks d1 d2 now1 safe1 Ht1 Hr) as (now2 & safe2 & Ht2 & Hle2). exists now2, safe2. split; [done |].
    split; [eapply Forall_impl; [exact Hl | cbn; lia] | done].
  - destruct (recovers_tracks d d1 now safe Ht Hr) as (now2 & safe2 & Ht2 & Hle2). exists now2, safe2. split; [done |].
    split; [eapply Forall_impl; [exact Hl | cbn; lia] | done].
Qed.

End Histories.

(** ** Without faults *)

Lemma runs_read_bounded (f : File) (t : pystr) (d : Disk) :
  blen (f_data f) <= EPOCH_MAX_BYTES -> utf8_decode (f_data f) = Some t -> runs (read_bounded f) d d (Ok t).
Proof.
  intros Hl Ht. eapply runs_bind; [apply runs_read_loop; [lia | unfold EPOCH_MAX_BYTES; lia | lia] |]. cbn [app].
  assert (slice_to (EPOCH_MAX_BYTES + 1) (f_data f) = f_data f) as -> by (unfold slice_to, blen in *; apply take_ge; lia).
  eapply runs_bind; [apply runs_guard; by apply Z.ltb_ge |]. rewrite Ht. done.
Qed.

(** The surroundings in which the store works: its own directory, and new files
    that are its own *)
Definition sound (store : Store) (env : Surroundings) : bool :=
  is_dir (listed env) && negb (is_link (listed env)) && owned store (listed env) && (st_mode (listed env) =? 448)
  && is_dir (opened env) && (st_dev (opened env) =? st_dev (listed env)) && (st_ino (opened env) =? st_ino (listed env))
  && owned store (opened env) && (st_mode (opened env) =? 448) && owned store (created env).

(** A file that the store accepts *)
Definition own_file (store : Store) (f : File) : bool :=
  negb (is_link (f_stat f)) && is_reg (f_stat f) && owned store (f_stat f) && (st_mode (f_stat f) =? 384).

Section Progress.
Context (store : Store) (env : Surroundings).

Lemma runs_open (d : Disk) : sound store env = true -> runs (open_directory store env) d d (Ok tt).
Proof.
  intros H. unfold sound in H. repeat match goal with X : _ && _ = true |- _ => apply andb_true_iff in X as [X ?] end.
  unfold runs, open_directory, io_bind, io_try, observe, call. rewrite H.
  repeat match goal with X : ?b = true |- _ => progress rewrite X | X : negb ?b = true |- _ => apply negb_true_iff in X; rewrite X end.
  cbn -[owned Z.eqb]. repeat match goal with X : ?b = true |- _ => progress rewrite X end. done.
Qed.

Lemma runs_locked {A} (body : IO A) (d d1 : Disk) (r : result A) :
  sound store env = true -> runs body d d1 r -> runs (locked store env body) d d1 r.
Proof.
  intros Hs Hb. eapply runs_bind; [by apply runs_open |]. eapply runs_finally; [| done]. eapply runs_bind; [done | exact Hb].
Qed.

Lemma runs_read_epoch (n : Z) (f : File) (d : Disk) :
  entry d = Some f -> own_file store f = true -> holds n f -> runs (read_epoch store) d d (Ok n).
Proof.
  intros He Ho (Hb & _ & Hn). destruct (epoch_reads_back n Hn) as (t & b & Eb & Et & Ep & Hl). rewrite Hb in Eb. injection Eb as <-.
  unfold own_file in Ho. repeat match goal with X : _ && _ = true |- _ => apply andb_true_iff in X as [X ?] end. apply negb_true_iff in Ho.
  eapply runs_bind; [eapply runs_try, runs_call; by rewrite He, Ho |]. eapply runs_bind; [| unfold runs, io_lift; by rewrite Ep].
  eapply runs_finally; [| done]. apply runs_try. eapply runs_bind; [done |]. eapply runs_bind; [apply runs_guard | by apply runs_read_bounded].
  repeat match goal with X : ?b = true |- _ => progress rewrite X end. cbn. by apply Z.ltb_ge.
Qed.

Lemma runs_replace (n : Z) (d : Disk) :
  1 <= n <= MAX_U64 -> sound store env = true -> temps d !! ($".epoch." ++ temp_token env ++ $".tmp") = None ->
  exists d1 f, runs (replace_epoch store env n) d d1 (Ok tt) /\ entry d1 = Some f /\ durable d1 = Some f /\ holds n f
    /\ f_stat f = created env /\ temps d1 = temps d.
Proof.
  intros Hn Hs Ht. destruct (epoch_reads_back n Hn) as (t & b & Eb & _ & _ & Hl).
  set (f := mkFile (created env) b true). exists (mkDisk (Some f) (Some f) (temps d)), f.
  split; [| repeat (split; [done |]); done].
  assert (Hw : slice_to (blen b) b = b) by (unfold slice_to, blen; apply take_ge; lia).
  unfold replace_epoch. set (name := _ ++ _ ++ _) in *. fold (epoch_bytes n).
  eapply runs_bind; [unfold runs, io_lift; by rewrite Eb |]. eapply runs_finally.
  - apply runs_try. eapply runs_bind; [apply runs_call; by rewrite Ht |]. eapply runs_bind.
    + eapply runs_finally; [| done]. eapply runs_bind.
      * cbn [write_all]. assert (Hne : (blen b =? 0) = false).
        { unfold epoch_bytes in Eb. rewrite epoch_text_shape in Eb by done. cbn [rbind] in Eb. unfold encode_ascii in Eb.
          destruct b; [| done]. destruct (utf8_encode _) as [x |] eqn:Eu; [| done]. destruct (forallb _ _); [| done]. injection Eb as ->.
          apply utf8_decode_encode in Eu. discriminate Eu. }
        rewrite Hne. eapply runs_bind; [apply runs_call; cbv zeta; cbn [temps set_temp]; by rewrite lookup_insert_eq |].
        replace (Z.max 0 (Z.min ALL_BYTES (blen b))) with (blen b) by (pose proof (blen_nonneg b); unfold EPOCH_MAX_BYTES, ALL_BYTES in *; lia).
        eapply runs_bind; [apply runs_guard; apply Z.leb_gt; pose proof (blen_nonneg b); apply Z.eqb_neq in Hne; lia |].
        replace (slice_from (blen b) b) with (@nil byte) by (symmetry; unfold slice_from, blen; apply drop_ge; lia).
        destruct (length b) eqn:El; [exfalso; apply Z.eqb_neq in Hne; unfold blen in Hne; lia | done].
      * eapply runs_bind; [apply runs_call; cbn [temps set_temp]; by rewrite !lookup_insert_eq |].
        eapply runs_bind; [done |]. apply runs_guard. unfold sound in Hs. apply andb_true_iff in Hs as [_ ->]. done.
    + eapply runs_bind; [apply runs_call; cbn [temps set_temp]; by rewrite !lookup_insert_eq |].
      by apply runs_call.
  - cbn [entry durable temps set_temp f_data f_stat app]. rewrite Hw, !insert_insert_eq, delete_insert_id by done.
    unfold runs, suppress, io_try, unlink_temp, call. cbn [temps]. by rewrite Ht.
Qed.

End Progress.

(** ** The properties *)

(** C33: Whatever calls to the operating system fail, wherever a process
    dies, and whenever the power is lost, the epochs that one directory hands out
    by [bootstrap], [consume] and [consume_prepared] are strictly increasing
    numbers from 1 to 2^64-1: none is handed out twice. *)
Theorem epochs_never_repeat (store : Store) (d : Disk) (l : list Z) :
  history store d l -> StronglySorted Z.lt l /\ Forall (fun n => 1 <= n <= MAX_U64) l.
Proof.
  intros H. destruct (history_inv store d l H) as (now & safe & (_ & Hd & _) & Hl & Hs). split; [done |].
  eapply Forall_impl; [exact Hl |]. cbn. intros n Hn. destruct (durable d) as [f |]; cbn in Hd; [destruct Hd as (_ & _ & ?); lia | lia].
Qed.

(** When no call fails, [consume] on a store that holds [n] returns
    [n + 1], which is then recorded durably in a file the store accepts; at
    2^64-1 it raises and changes nothing. *)
Theorem consume_counts (store : Store) (env : Surroundings) (n : Z) (f : File) (d : Disk) :
  sound store env = true -> own_file store f = true -> own_file store (mkFile (created env) [] false) = true ->
  entry d = Some f -> holds n f -> temps d !! ($".epoch." ++ temp_token env ++ $".tmp") = None ->
  exists d1, consume store env d [] = Ran d1 [] (if n =? MAX_U64 then Raise (epoch_error "Runtime epoch sequence is exhausted") else Ok (n + 1))
  /\ if n =? MAX_U64 then d1 = d
     else exists g, entry d1 = Some g /\ durable d1 = Some g /\ holds (n + 1) g /\ own_file store g = true /\ temps d1 = temps d.
Proof.
  intros Hs Ho Hc He Hf Ht. pose proof (runs_read_epoch store n f d He Ho Hf) as Hr. destruct Hf as (_ & _ & Hn).
  destruct (n =? MAX_U64) eqn:En.
  - exists d. split; [| done]. apply runs_locked; [done |]. eapply runs_bind; [exact Hr |]. rewrite En. by apply runs_raise.
  - apply Z.eqb_neq in En as Hne. destruct (runs_replace store env (n + 1) d ltac:(lia) Hs Ht) as (d1 & g & R & E1 & E2 & Hg & St & Tm).
    exists d1. split; [| exists g; do 3 (split; [done |]); split; [unfold own_file in *; cbn in Hc; by rewrite St | done]].
    apply runs_locked; [done |]. eapply runs_bind; [exact Hr |]. rewrite En. eapply runs_bind; [done |]. by eapply runs_bind; [exact R |].
Qed.

(** ** Witnesses *)

Definition sample_store : Store := mkStore 10 20.
Definition sample_directory : Stat := mkStat true false false 10 20 448 1 2 2.
Definition sample_env : Surroundings := mkSurroundings sample_directory sample_directory $"00" (mkStat false false true 10 20 384 1 3 1).
Definition empty_disk : Disk := mkDisk None None ∅.
Definition disk_after (o : outcome Disk Z) : Disk := match o with Died d | Ran d _ _ => d end.

(** Bootstrapped, killed after the rename of the next epoch, and started again *)
Definition first_disk : Disk := Eval vm_compute in disk_after (bootstrap sample_store sample_env empty_disk []).
Definition killed_disk : Disk :=
  Eval vm_compute in disk_after (consume sample_store sample_env first_disk (repeat (Works 4096) 15 ++ [Dies])).

Lemma sample_history : history sample_store (disk_after (consume sample_store sample_env killed_disk [])) [1; 3].
Proof.
  apply (Hist_run sample_store killed_disk [1] Consume sample_env [] _ [] (Ok 3)); [| vm_compute; reflexivity].
  apply (Hist_dies sample_store first_disk [1] Consume sample_env (repeat (Works 4096) 15 ++ [Dies]) killed_disk);
    [| vm_compute; reflexivity | constructor].
  apply (Hist_run sample_store empty_disk [] Bootstrap sample_env [] _ [] (Ok 1)); [by constructor | vm_compute; reflexivity].
Qed.

Lemma epochs_never_repeat_witness : StronglySorted Z.lt [1; 3].
Proof. apply (epochs_never_repeat sample_store _ _ sample_history). Defined.

Lemma consume_counts_witness : exists d1, consume sample_store sample_env first_disk [] = Ran d1 [] (Ok 2).
Proof.
  destruct (consume_counts sample_store sample_env 1 (match entry first_disk with Some f => f | None => mkFile sample_directory [] false end) first_disk)
    as (d1 & H & _); [reflexivity | vm_compute; reflexivity | reflexivity | reflexivity | | vm_compute; reflexivity |].
  - split; [vm_compute; reflexivity |]. split; [reflexivity | unfold MAX_U64; lia].
  - exists d1. exact H.
Defined.
