(* ===== verification/Interact.v ===== *)
(** * Objects that call out

    The monad of an object that calls other components through a typed
    interface.  [E R] is a call whose answer has type [R].  The environment is
    any function from the calls made so far to an answer, so a theorem about all
    environments covers every behaviour of the components that are called.
    While a call runs, its component may call back into the object: the
    environment also says which callbacks it makes, and they are applied before
    the call returns.

    A computation keeps what it changed when it raises.  [wp m Q w] says that
    [m] ends from [w] in a world and an outcome that satisfy [Q]; the rules below
    take a computation apart along its text. *)

From S2P Require Import Prelude.

Section Interact.
Context {E : Type -> Type} {Callback St : Type} (callback : Callback -> St -> St).

Record call : Type := Called { answer : Type; request : E answer; outcome : result answer }.

Record Env : Type := mkEnv {
  replies : list call -> forall R, E R -> result R;
  callbacks : list call -> forall R, E R -> list Callback
}.

Record World : Type := mkWorld { object : St; log : list call }.

Definition M (A : Type) : Type := World -> World * result A.

Definition ret {A} (a : A) : M A := fun w => (w, Ok a).
Definition raise {A} (e : exn) : M A := fun w => (w, Raise e).
Definition lift {A} (r : result A) : M A := fun w => (w, r).
Definition get : M St := fun w => (w, Ok (object w)).
Definition modify (f : St -> St) : M unit := fun w => (mkWorld (f (object w)) (log w), Ok tt).
Definition raise_when (b : bool) (e : exn) : M unit := if b then raise e else ret tt.

Definition bind {A B} (m : M A) (k : A -> M B) : M B := fun w =>
  match m w with
  | (w1, Ok a) => k a w1
  | (w1, Raise e) => (w1, Raise e)
  end.

(** [try: m except <classes> as exc: handler(exc)] *)
Definition try_except {A} (m : M A) (classes : list exc_class) (handler : exn -> M A) : M A := fun w =>
  match m w with
  | (w1, Raise e) => if existsb (exc_isa (exn_class e)) classes then handler e w1 else (w1, Raise e)
  | o => o
  end.

Definition absorb (cs : list Callback) (s : St) : St := fold_left (fun s c => callback c s) cs s.

Definition perform (env : Env) {R} (e : E R) : M R := fun w =>
  let r := replies env (log w) R e in
  (mkWorld (absorb (callbacks env (log w) R e) (object w)) (log w ++ [Called R e r]), r).

(** A result computed on the object alone *)
Definition update {A} (f : St -> St * result A) : M A := fun w =>
  let '(s, r) := f (object w) in (mkWorld s (log w), r).

(** ** Rules *)

Definition wp {A} (m : M A) (Q : World -> result A -> Prop) (w : World) : Prop := let '(w1, r) := m w in Q w1 r.

Lemma wp_elim {A} (m : M A) Q w w1 r : wp m Q w -> m w = (w1, r) -> Q w1 r.
Proof. unfold wp. intros H E1. by rewrite E1 in H. Qed.

Lemma wp_mono {A} (m : M A) (P Q : World -> result A -> Prop) w : wp m P w -> (forall w1 r, P w1 r -> Q w1 r) -> wp m Q w.
Proof. unfold wp. destruct (m w). auto. Qed.

Lemma wp_conj {A} (m : M A) (P Q : World -> result A -> Prop) w :
  wp m P w -> wp m Q w -> wp m (fun w1 r => P w1 r /\ Q w1 r) w.
Proof. unfold wp. by destruct (m w). Qed.

Lemma wp_ret {A} (a : A) (Q : World -> result A -> Prop) w : Q w (Ok a) -> wp (ret a) Q w.
Proof. done. Qed.

Lemma wp_raise {A} (e : exn) (Q : World -> result A -> Prop) w : Q w (Raise e) -> wp (raise e) Q w.
Proof. done. Qed.

Lemma wp_lift {A} (r : result A) (Q : World -> result A -> Prop) w : Q w r -> wp (lift r) Q w.
Proof. done. Qed.

Lemma wp_get (Q : World -> result St -> Prop) w : Q w (Ok (object w)) -> wp get Q w.
Proof. done. Qed.

Lemma wp_modify f (Q : World -> result unit -> Prop) w : Q (mkWorld (f (object w)) (log w)) (Ok tt) -> wp (modify f) Q w.
Proof. done. Qed.

Lemma wp_raise_when (b : bool) (e : exn) (Q : World -> result unit -> Prop) w :
  (b = true -> Q w (Raise e)) -> (b = false -> Q w (Ok tt)) -> wp (raise_when b e) Q w.
Proof. destruct b; cbn; auto. Qed.

Lemma wp_bind {A B} (m : M A) (k : A -> M B) (Q : World -> result B -> Prop) w :
  wp m (fun w1 r => match r with Ok a => wp (k a) Q w1 | Raise e => Q w1 (Raise e) end) w -> wp (bind m k) Q w.
Proof. unfold wp, bind. by destruct (m w) as [w1 [a | e]]. Qed.

Lemma wp_try {A} (m : M A) (classes : list exc_class) (handler : exn -> M A) (Q : World -> result A -> Prop) w :
  wp m (fun w1 r => match r with
                    | Ok a => Q w1 (Ok a)
                    | Raise e => if existsb (exc_isa (exn_class e)) classes then wp (handler e) Q w1 else Q w1 (Raise e)
                    end) w -> wp (try_except m classes handler) Q w.
Proof.
  unfold wp, try_except. destruct (m w) as [w1 [a | e]]; [done |].
  by destruct (existsb (exc_isa (exn_class e)) classes).
Qed.

Lemma wp_update {A} (f : St -> St * result A) (Q : World -> result A -> Prop) w :
  (forall s r, f (object w) = (s, r) -> Q (mkWorld s (log w)) r) -> wp (update f) Q w.
Proof. unfold wp, update. intros H. destruct (f (object w)) eqn:E1. by apply H. Qed.

(** What holds of the object whatever callbacks run is all a call leaves. *)
Lemma wp_perform (env : Env) {R} (e : E R) (Q : World -> result R -> Prop) w :
  (forall cs r, Q (mkWorld (absorb cs (object w)) (log w ++ [Called R e r])) r) -> wp (perform env e) Q w.
Proof. intros H. apply H. Qed.

(** A relation between objects that every callback respects is respected by any
    number of them. *)
Lemma absorb_rel (Rel : St -> St -> Prop) (Hr : forall s, Rel s s) (Ht : forall a b c, Rel a b -> Rel b c -> Rel a c) :
  (forall c s, Rel s (callback c s)) -> forall cs s, Rel s (absorb cs s).
Proof.
  intros Hc cs. induction cs as [|c cs IH]; intros s; cbn; [apply Hr |]. eapply Ht; [apply Hc | apply IH].
Qed.

End Interact.

Arguments Called {E} answer request outcome.
Arguments call E : clear implicits.
Arguments World E St : clear implicits.
Arguments Env E Callback : clear implicits.
Arguments M E St A : clear implicits.
Arguments absorb {Callback St} callback cs s.
Arguments perform {E Callback St} callback env {R} e w : simpl never.
Arguments wp {E St A} m Q w : simpl never.
Arguments bind {E St A B} m k w : simpl never.
Arguments try_except {E St A} m classes handler w : simpl never.

Notation "'let*' x := m 'in' k" := (bind m (fun x => k)) (at level 10, x name, m at level 200, k at level 200) : py_scope.
Notation "'do*' m 'in' k" := (bind m (fun _ => k)) (at level 10, m at level 200, k at level 200) : py_scope.
