(* ===== verification/Supervisor.v ===== *)
(** * The Runtime supervisor ([agentbox_runtime/waw_supervisor.py])

    [WAWSupervisor] fences one generation of one workspace: its process
    lifecycle, its one writer, the output ring and the redraw.  The fixed command
    it starts is that of [waw_command.py], [waw_codex_command.py] and
    [waw_managed_command.py].

    Every public method runs under the supervisor's lock and is one computation
    of [Interact.M].  What it calls (the transport, the clock, the authority
    behind a lease, the shutdown hook of a publication, the host's file system)
    is the interface [Port]; the answers are arbitrary, and while the transport
    works it may push any output into the sink it was given.  Objects compared
    with [is] carry the number of their allocation.  Instants are integers, in
    milliseconds; [None] is a reading that is not a finite number.  Optional
    methods of the transport are the flags of [Capabilities]. *)

From S2P Require Import Prelude PyVal Sha256 WawDomain Pty Tickets Interact.

Local Open Scope Z_scope.

(** [RuntimeOperationError(code, message, category=category)] *)
Definition op_error (code message category : string) : exn := Exn RuntimeOperationError code (category ++ ": " ++ message).

(** ** Fixed commands *)

(** [path] is the sequence of the components of the path. *)
Record ExecutableIdentity : Type := mkExecutable {
  path : list pystr; device : Z; inode : Z; mode : Z; size_ : Z; modified_ns : Z
}.

#[export] Instance executable_eq_dec : EqDecision ExecutableIdentity.
Proof. solve_decision. Defined.

(** [path.name] *)
Definition path_name (p : list pystr) : pystr := default [] (last p).

(** [WAWClaudeCommand] and [WAWCodexCommand], told apart by [command_class] *)
Record WAWManagedCommand : Type := mkCommand {
  command_class : AgentType;
  command_workspace : pystr;
  command_project : pystr;
  command_executable : ExecutableIdentity;
  argv : list pystr;
  command_marker : pystr
}.

(** What the host shows of the working directory and of the executable *)
Record CwdFacts : Type := mkCwd { cwd_absolute : bool; cwd_is_dir : bool; cwd_symlink : bool; cwd_uid : Z; geteuid : Z; cwd_mode : Z }.
Record HostFacts : Type := mkFacts { cwd_facts : result CwdFacts; inspected : result ExecutableIdentity }.

Definition cwd_safe (c : CwdFacts) : bool :=
  cwd_absolute c && cwd_is_dir c && negb (cwd_symlink c) && (cwd_uid c =? geteuid c) && (Z.land (cwd_mode c) 18 =? 0).

(** [_MARKER] *)
Definition match_marker (s : pystr) : bool :=
  str_eqb (take 7 s) $"waw-v1:" && match_id $"wri" (take 36 (drop 7 s)) && str_eqb (take 1 (drop 43 s)) $":"
  && match_hex 32 (drop 44 s).

Definition class_name (a : AgentType) : string := match a with CLAUDE => "Claude" | CODEX => "Codex" end.

Definition fixed_argv (a : AgentType) : list pystr := match a with CLAUDE => [$"remote-control"] | CODEX => [] end.

(** [__post_init__] of the two command classes *)
Definition validate_managed_command (c : WAWManagedCommand) (host : HostFacts) : result unit :=
  run! validate_workspace_id (PStr (command_workspace c)) in
  run! validate_project_id (PStr (command_project c)) in
  let! derived := WawDomain.workspace_id (PStr (command_project c)) (PStr (agent_value (command_class c))) in
  run! raise_if (negb (str_eqb derived (command_workspace c)))
         (op_error "WAW_WORKSPACE_MISMATCH" ("Workspace identity is not bound to the " ++ class_name (command_class c) ++ " Project") "validation") in
  run! raise_if (negb (bool_decide (argv c = fixed_argv (command_class c))))
         (op_error "WAW_COMMAND_INVALID" (class_name (command_class c) ++ " command arguments are fixed") "validation") in
  let! cwd := cwd_facts host in
  run! raise_if (negb (cwd_safe cwd)) (op_error "WAW_PROJECT_INVALID" "Project working directory is invalid" "validation") in
  run! raise_if ((blen (command_marker c) =? 0) || (192 <? blen (command_marker c)) || negb (match_marker (command_marker c)))
         (op_error "WAW_MARKER_INVALID" "Managed session marker is invalid" "validation") in
  let! now := inspected host in
  raise_if (negb (bool_decide (now = command_executable c)) || negb (str_eqb (path_name (path (command_executable c))) (agent_value (command_class c))))
    (op_error "WAW_EXECUTABLE_INVALID" (class_name (command_class c) ++ " executable provenance is invalid") "validation").

(** [build_claude_command] and [build_codex_command]; [resolved] is what the
    registry answers for the project. *)
Definition build_command (a : AgentType) (resolved : result pystr) (workspace : pystr) (executable : ExecutableIdentity)
    (marker : pystr) (host : HostFacts) : result WAWManagedCommand :=
  let! project := resolved in
  let c := mkCommand a workspace project executable (fixed_argv a) marker in
  run! validate_managed_command c host in Ok c.

(** ** Leases and evidence *)

Record RuntimeAttachmentLease : Type := mkRuntimeLease {
  rl_object : Z; rl_claims : AttachmentTuple; rl_epoch : pystr; rl_expires_at : Z
}.

Inductive AttachmentLease : Type :=
| ApiLease (lease_object : Z) (a : ActiveAttachment)
| RuntimeLease (l : RuntimeAttachmentLease).

#[export] Instance active_attachment_eq_dec : EqDecision ActiveAttachment.
Proof. solve_decision. Defined.
#[export] Instance runtime_lease_eq_dec : EqDecision RuntimeAttachmentLease.
Proof. solve_decision. Defined.
#[export] Instance lease_eq_dec : EqDecision AttachmentLease.
Proof. solve_decision. Defined.

Definition lease_claims (l : AttachmentLease) : AttachmentTuple :=
  match l with ApiLease _ a => a_claims a | RuntimeLease r => rl_claims r end.
Definition lease_epoch (l : AttachmentLease) : option pystr :=
  match l with ApiLease _ a => runtime_epoch <$> a_context a | RuntimeLease r => Some (rl_epoch r) end.
Definition attachment_id (l : AttachmentLease) : pystr := t_attachment (lease_claims l).

(** [active_at]; no comparison with a reading that is not a number holds. *)
Definition lease_active_at (l : AttachmentLease) (now : option Z) : bool :=
  match now with
  | None => false
  | Some t => match l with ApiLease _ a => Tickets.active_at a t | RuntimeLease r => t <? rl_expires_at r end
  end.

Record RuntimeAttachmentCleanupEvidence : Type := mkCleanup { ce_lease : RuntimeAttachmentLease; ce_closed : bool; ce_remaining : pyval }.

Inductive SupervisorState : Type :=
| ADMITTED | STARTING | RUNNING | NEEDS_INTERACTION | TRUST_REQUIRED | LOGIN_REQUIRED | DETACHED | STOPPING | STOPPED | BROKEN
| INPUT_UNCERTAIN | RECONCILIATION_REQUIRED.

Inductive RuntimeProbeState : Type :=
| P_RUNNING | P_NEEDS_INTERACTION | P_TRUST_REQUIRED | P_LOGIN_REQUIRED | P_STOPPED | P_MISSING | P_EXITED | P_COLLISION | P_UNKNOWN.

#[export] Instance supervisor_state_eq_dec : EqDecision SupervisorState.
Proof. solve_decision. Defined.
#[export] Instance probe_state_eq_dec : EqDecision RuntimeProbeState.
Proof. solve_decision. Defined.

(** The fields are not validated by the constructors, so the numbers are any
    value. *)
Record RuntimeStartEvidence : Type := mkStartEvidence {
  se_workspace : pystr; se_generation : pyval; se_marker : pystr; se_state : SupervisorState; se_ready : bool
}.
Record RuntimeStopEvidence : Type := mkStopEvidence {
  ke_workspace : pystr; ke_generation : pyval; ke_marker : pystr; ke_closed : bool; ke_remaining : pyval
}.
Record RuntimeProbeEvidence : Type := mkProbe {
  pe_workspace : pystr; pe_generation : pyval; pe_marker : pystr; pe_state : RuntimeProbeState; pe_exit_code : pyval
}.

(** [RuntimePublicationInvalidator] *)
Record Publication : Type := mkPub { pub_callback : bool; pub_bound : bool; pub_invalidated : bool }.

(** ** The calls it makes *)

(** An answer [None] is an object that is not of the expected class. *)
Inductive Port : Type -> Type :=
| Clock : Port (option Z)
| Current (l : AttachmentLease) : Port bool
| Shutdown (l : RuntimeAttachmentLease) : Port bool
| Host : Port HostFacts
| T_start (c : WAWManagedCommand) (g : PtyGeometry) : Port RuntimeStartEvidence
| T_bind_output_sink (source : Z) : Port unit
| T_validate_resume (evidence : Z) : Port unit
| T_resume (evidence : Z) : Port (option RuntimeStartEvidence)
| T_reconcile : Port RuntimeStartEvidence
| T_open_attachment (l : RuntimeAttachmentLease) (g : PtyGeometry) : Port (option RuntimeStartEvidence)
| T_close_attachment (l : RuntimeAttachmentLease) : Port (option RuntimeAttachmentCleanupEvidence)
| T_probe : Port (option RuntimeProbeEvidence)
| T_detach : Port bool
| T_write (data : bytes) : Port unit
| T_resize (g : PtyGeometry) : Port unit
| T_produce_output : Port pyval
| T_capture_redraw (deadline : Z) : Port (option BoundedRedraw)
| T_stop : Port RuntimeStopEvidence.

Record Capabilities : Type := mkCaps {
  has_sink : bool; has_resume : bool; has_validate_resume : bool; has_reconcile : bool; has_open : bool;
  requires_commit : bool; has_close : bool; has_capture : bool; has_probe : bool; has_produce : bool; is_fixed : bool;
  fingerprint : pyval
}.

(** ** State *)

Record Config : Type := mkConfig {
  workspace : pystr;
  generation : Z;
  command : WAWManagedCommand;
  stop_binding : WorkspaceStopOperation;
  epoch : pystr;
  caps : Capabilities
}.

(** [sink] is the source that the sink of the transport was made with. *)
Record Supervisor : Type := mkSupervisor {
  state : SupervisorState;
  attachment : option AttachmentLease;
  runtime_pending : option RuntimeAttachmentLease;
  last_attachment_id : option pystr;
  source : option Z;
  sink : option Z;
  next_source : Z;
  ring : OutputRing;
  geometry : PtyGeometry;
  publications : gmap Z Publication
}.

Record SupervisorSnapshot : Type := mkSnapshot {
  sn_workspace : pystr; sn_generation : Z; sn_state : SupervisorState; sn_geometry : PtyGeometry; sn_next_cursor : Z; sn_buffered : Z; sn_attachment : option pystr
}.

Definition set_state (x : SupervisorState) (s : Supervisor) : Supervisor :=
  mkSupervisor x (attachment s) (runtime_pending s) (last_attachment_id s) (source s) (sink s) (next_source s) (ring s) (geometry s) (publications s).
Definition set_attachment (x : option AttachmentLease) (s : Supervisor) : Supervisor :=
  mkSupervisor (state s) x (runtime_pending s) (last_attachment_id s) (source s) (sink s) (next_source s) (ring s) (geometry s) (publications s).
Definition set_pending (x : option RuntimeAttachmentLease) (s : Supervisor) : Supervisor :=
  mkSupervisor (state s) (attachment s) x (last_attachment_id s) (source s) (sink s) (next_source s) (ring s) (geometry s) (publications s).
Definition set_last (x : option pystr) (s : Supervisor) : Supervisor :=
  mkSupervisor (state s) (attachment s) (runtime_pending s) x (source s) (sink s) (next_source s) (ring s) (geometry s) (publications s).
Definition set_source (x : option Z) (s : Supervisor) : Supervisor :=
  mkSupervisor (state s) (attachment s) (runtime_pending s) (last_attachment_id s) x (sink s) (next_source s) (ring s) (geometry s) (publications s).
Definition set_sink (x : option Z) (s : Supervisor) : Supervisor :=
  mkSupervisor (state s) (attachment s) (runtime_pending s) (last_attachment_id s) (source s) x (next_source s) (ring s) (geometry s) (publications s).
Definition fresh_source (s : Supervisor) : Supervisor :=
  mkSupervisor (state s) (attachment s) (runtime_pending s) (last_attachment_id s) (Some (next_source s)) (sink s) (next_source s + 1) (ring s) (geometry s) (publications s).
Definition set_ring (x : OutputRing) (s : Supervisor) : Supervisor :=
  mkSupervisor (state s) (attachment s) (runtime_pending s) (last_attachment_id s) (source s) (sink s) (next_source s) x (geometry s) (publications s).
Definition set_geometry (x : PtyGeometry) (s : Supervisor) : Supervisor :=
  mkSupervisor (state s) (attachment s) (runtime_pending s) (last_attachment_id s) (source s) (sink s) (next_source s) (ring s) x (publications s).
Definition set_publication (l : RuntimeAttachmentLease) (x : Publication) (s : Supervisor) : Supervisor :=
  mkSupervisor (state s) (attachment s) (runtime_pending s) (last_attachment_id s) (source s) (sink s) (next_source s) (ring s) (geometry s)
    (<[rl_object l := x]> (publications s)).

Definition publication (l : RuntimeAttachmentLease) (s : Supervisor) : Publication :=
  default (mkPub false false false) (publications s !! rl_object l).

Definition in_states (x : SupervisorState) (l : list SupervisorState) : bool := bool_decide (x ∈ l).

(** [WAWSupervisor.__init__] *)
Definition new_supervisor (workspace_ : pystr) (generation_ : Z) (c : WAWManagedCommand) (host : HostFacts) (g : PtyGeometry)
    (binding : WorkspaceStopOperation) (capacity_bytes : Z) (epoch_ : pyval) (ports : Capabilities) : result (Config * Supervisor) :=
  run! validate_managed_command c host in
  run! validate_workspace_id (PStr workspace_) in
  run! validate_positive_u64 (PInt generation_) "generation" in
  run! raise_if (negb (str_eqb (command_workspace c) workspace_))
         (op_error "WAW_WORKSPACE_MISMATCH" "Runtime command workspace does not match" "validation") in
  let mismatch := op_error "WAW_BINDING_MISMATCH" "Runtime command does not match the durable workspace binding" "validation" in
  run! raise_if (negb (str_eqb (so_workspace_id binding) workspace_) || negb (str_eqb (so_project_id binding) (command_project c))
                 || negb (bool_decide (so_agent_type binding = command_class c)) || negb (so_generation binding =? generation_)) mismatch in
  let! marker := managed_marker (PStr (so_host_id binding)) (PInt (so_host_revision binding)) (PStr (so_project_id binding))
                   (PStr (agent_value (so_agent_type binding))) (PStr (so_workspace_id binding)) (PInt (so_generation binding))
                   (PInt (so_binding_revision binding)) (PStr (so_binding_digest binding)) in
  run! raise_if (negb (str_eqb marker (command_marker c))) mismatch in
  let invalid := op_error "WAW_RUNTIME_EPOCH_INVALID" "Runtime epoch must be canonical" "validation" in
  let! e := match epoch_ with
            | PStr e =>
                run! raise_if (negb (forallb is_digit e) || (blen e =? 0) || bool_decide (head e = Some 48)) invalid in
                run! raise_if (4300 <? blen e) (err PyValueError "Exceeds the limit for integer string conversion") in
                run! raise_if (MAX_U64 <? digits_value e) invalid in
                Ok e
            | _ => Raise invalid
            end in
  let! r := new_ring capacity_bytes in
  Ok (mkConfig workspace_ generation_ c binding e ports, mkSupervisor ADMITTED None None None None None 0 r g ∅).

(** ** Output that enters the ring *)

Definition output_states : list SupervisorState := [RUNNING; DETACHED; INPUT_UNCERTAIN].

(** [range(0, n, step)] and the slices it cuts *)
Definition range_step (n step : Z) : list Z := map (fun i => Z.of_nat i * step) (seq 0 (Z.to_nat ((n + step - 1) / step))).
Definition cut (step : Z) (p : bytes) : list bytes := map (fun offset => slice offset (offset + step) p) (range_step (blen p) step).

Definition append_output (src : Z) (data : pyval) (s : Supervisor) : Supervisor * result Z :=
  if negb (bool_decide (source s = Some src))
  then (s, Raise (op_error "WAW_OUTPUT_SOURCE_INVALID" "Output source is not admitted for this generation" "conflict"))
  else if negb (in_states (state s) output_states)
  then (s, Raise (op_error "WAW_OUTPUT_INVALID" "Workspace is not producing output" "conflict"))
  else let '(r, f) := append (ring s) data in (set_ring r s, rmap end_cursor f).

Fixpoint append_chunks (src : Z) (chunks : list bytes) (s : Supervisor) : Supervisor * result (list Z) :=
  match chunks with
  | [] => (s, Ok [])
  | c :: rest =>
      match append_output src (PBytes c) s with
      | (s1, Raise e) => (s1, Raise e)
      | (s1, Ok cursor) => let '(s2, r) := append_chunks src rest s1 in (s2, rmap (cons cursor) r)
      end
  end.

Definition append_encrypted_output (src : Z) (data : pyval) (s : Supervisor) : Supervisor * result (list Z) :=
  match data with
  | PBytes p =>
      if negb (in_range 1 (blen p) (64 * 1024)) then (s, Raise (err PyValueError "producer read exceeds fixed bound"))
      else append_chunks src (cut 32768 p) s
  | _ => (s, Raise (err PyValueError "producer read exceeds fixed bound"))
  end.

(** What the transport does when it calls the sink it was given *)
Definition push (data : pyval) (s : Supervisor) : Supervisor :=
  match sink s with
  | Some src => fst (append_encrypted_output src data s)
  | None => s
  end.

(** ** Methods *)

Definition Act (A : Type) : Type := M Port Supervisor A.

(** [_same_stop_binding] *)
Definition same_stop_binding (a b : WorkspaceStopOperation) : bool :=
  str_eqb (so_workspace_id a) (so_workspace_id b) && str_eqb (so_project_id a) (so_project_id b)
  && bool_decide (so_agent_type a = so_agent_type b) && (so_generation a =? so_generation b)
  && (so_binding_revision a =? so_binding_revision b) && str_eqb (so_binding_digest a) (so_binding_digest b)
  && str_eqb (so_host_id a) (so_host_id b) && (so_host_revision a =? so_host_revision b).

(** [except RuntimeOperationError: raise] and [except Exception] with a new error *)
Definition reraise_or {A} (e : exn) : exn -> Act A := fun x => if exc_isa (exn_class x) RuntimeOperationError then raise x else raise e.

Section Methods.
Context (cfg : Config) (env : Env Port pyval).

Definition ask {R} (e : Port R) : Act R := perform push env e.

Definition snapshot : Act SupervisorSnapshot :=
  let* s := get in
  ret (mkSnapshot (workspace cfg) (generation cfg) (state s) (geometry s) (next_cursor (ring s)) (ring_bytes (ring s)) (attachment_id <$> attachment s)).

Definition fixed_executable_fingerprint : Act pystr :=
  match fingerprint (caps cfg) with
  | PStr v => if match_hex 64 v then ret v
              else raise (op_error "RUNTIME_UNAVAILABLE" "Fixed executable fingerprint is unavailable" "unavailable")
  | _ => raise (op_error "RUNTIME_UNAVAILABLE" "Fixed executable fingerprint is unavailable" "unavailable")
  end.

Definition fixed_auth_probe_transport : Act unit :=
  let* s := get in
  do* raise_when (negb (in_states (state s) [LOGIN_REQUIRED]))
        (op_error "WAW_RESUME_INVALID" "Workspace is not waiting for login" "conflict") in
  raise_when (negb (is_fixed (caps cfg))) (op_error "RUNTIME_UNAVAILABLE" "Fixed auth probe transport is unavailable" "unavailable").

(** [stopped_generation_guard] around the body of the [with] statement *)
Definition stopped_generation_guard {A} (operation : WorkspaceStopOperation) (body : Act A) : Act A :=
  do* raise_when (negb (same_stop_binding operation (stop_binding cfg)))
        (op_error "WAW_GENERATION_STALE" "Previous workspace generation binding is stale" "conflict") in
  let* s := get in
  do* raise_when (negb (in_states (state s) [STOPPED]))
        (op_error "RECONCILIATION_REQUIRED" "Previous workspace generation is not positively stopped" "conflict") in
  body.

Definition exact (w : pystr) (g : pyval) (m : pystr) : bool :=
  str_eqb w (workspace cfg) && scalar_eqb g (PInt (generation cfg)) && str_eqb m (command_marker (command cfg)).

Definition admissible (e : RuntimeStartEvidence) (states : list SupervisorState) : bool :=
  exact (se_workspace e) (se_generation e) (se_marker e) && se_ready e && in_states (se_state e) states.

Definition start : Act SupervisorSnapshot :=
  let* s := get in
  do* raise_when (negb (in_states (state s) [ADMITTED])) (op_error "WAW_START_INVALID" "Workspace is not admitted for start" "conflict") in
  let* evidence := try_except
    (let* host := ask Host in
     do* lift (validate_managed_command (command cfg) host) in
     let* e := ask (T_start (command cfg) (geometry s)) in
     do* raise_when (negb (admissible e [RUNNING; NEEDS_INTERACTION; TRUST_REQUIRED; LOGIN_REQUIRED]))
           (op_error "WAW_START_UNCONFIRMED" "Runtime start evidence is not admissible" "conflict") in
     ret e)
    [PyException]
    (fun _ => do* modify (set_state BROKEN) in raise (op_error "WAW_START_FAILED" "Runtime transport could not start" "unavailable")) in
  do* modify fresh_source in
  do* (if has_sink (caps cfg) then
         let* s1 := get in
         let src := default 0 (source s1) in
         do* modify (set_sink (Some src)) in
         try_except (ask (T_bind_output_sink src)) [PyException]
           (fun _ => do* modify (set_state BROKEN) in
                     raise (op_error "WAW_START_FAILED" "Runtime output producer could not be admitted" "unavailable"))
       else ret tt) in
  do* modify (set_state (se_state evidence)) in
  snapshot.

Definition resume_after_login (auth : Z) : Act SupervisorSnapshot :=
  let* s := get in
  do* raise_when (negb (in_states (state s) [LOGIN_REQUIRED])) (op_error "WAW_RESUME_INVALID" "Workspace is not waiting for login" "conflict") in
  do* raise_when (negb (has_resume (caps cfg))) (op_error "RUNTIME_UNAVAILABLE" "Fixed login resume port is unavailable" "unavailable") in
  do* (if has_validate_resume (caps cfg) then ask (T_validate_resume auth) else ret tt) in
  do* modify (set_state STARTING) in
  let* resumed := try_except
    (let* r := ask (T_resume auth) in
     match r with
     | Some e =>
         do* raise_when (negb (admissible e [RUNNING; NEEDS_INTERACTION; TRUST_REQUIRED]))
               (op_error "WAW_RESUME_UNCONFIRMED" "Runtime resume evidence is not admissible" "conflict") in
         ret e
     | None => raise (op_error "WAW_RESUME_UNCONFIRMED" "Runtime resume evidence is not admissible" "conflict")
     end)
    [PyException]
    (fun x => do* modify (set_state RECONCILIATION_REQUIRED) in
              reraise_or (op_error "WAW_RESUME_FAILED" "Runtime could not resume after login" "unavailable") x) in
  do* modify (set_state (se_state resumed)) in
  snapshot.

(** [_check_attachment] *)
Definition binding_matches (c : AttachmentTuple) : bool :=
  let b := stop_binding cfg in
  str_eqb (t_workspace c) (workspace cfg) && str_eqb (t_project c) (so_project_id b) && bool_decide (t_agent c = so_agent_type b)
  && (t_generation c =? generation cfg) && str_eqb (t_host c) (so_host_id b) && (t_host_revision c =? so_host_revision b)
  && (t_binding_revision c =? so_binding_revision b) && str_eqb (t_binding_digest c) (so_binding_digest b).

Definition check_attachment (l : AttachmentLease) : Act unit :=
  do* raise_when (negb (bool_decide (lease_epoch l = Some (epoch cfg))))
        (op_error "WAW_ATTACHMENT_STALE" "Attachment belongs to a different Runtime epoch" "conflict") in
  do* raise_when (negb (binding_matches (lease_claims l)))
        (op_error "WAW_ATTACHMENT_STALE" "Attachment does not match this workspace binding" "conflict") in
  let* now := ask Clock in
  do* raise_when (negb (lease_active_at l now)) (op_error "WAW_ATTACHMENT_EXPIRED" "Attachment lease is expired" "conflict") in
  let* valid := ask (Current l) in
  raise_when (negb valid) (op_error "WAW_ATTACHMENT_REVOKED" "Attachment is no longer current at the authority" "conflict").

(** [_require_attachment] *)
Definition require_attachment (l : AttachmentLease) : Act unit :=
  do* check_attachment l in
  let* s := get in
  raise_when (negb (bool_decide (attachment s = Some l)))
    (op_error "WAW_ATTACHMENT_REQUIRED" "An active writer attachment is required" "conflict").

Definition confirms_cleanup (l : RuntimeAttachmentLease) (e : option RuntimeAttachmentCleanupEvidence) : bool :=
  match e with
  | Some c => bool_decide (ce_lease c = l) && ce_closed c && match ce_remaining c with PInt n => n =? 0 | _ => false end
  | None => false
  end.

Definition cleanup_runtime_attachment (l : RuntimeAttachmentLease) : Act bool :=
  let* s := get in
  if negb (bool_decide (runtime_pending s = Some l)) then ret false
  else if match attachment s with Some a => negb (bool_decide (a = RuntimeLease l)) | None => false end then ret false
  else
    let* confirmed := try_except
      (let* e := (if has_close (caps cfg) then ask (T_close_attachment l) else ret None) in ret (confirms_cleanup l e))
      [PyException] (fun _ => ret false) in
    if negb confirmed then do* modify (set_state RECONCILIATION_REQUIRED) in ret false
    else
      do* modify (set_pending None) in
      do* modify (set_attachment None) in
      do* modify (set_last (Some (t_attachment (rl_claims l)))) in
      let* s1 := get in
      do* (if in_states (state s1) [RUNNING; DETACHED] then modify (set_state DETACHED) else ret tt) in
      ret true.

(** The evidence of [reconcile] that a detached process is still live *)
Definition reconciled (s : Supervisor) : Act unit :=
  if in_states (state s) [DETACHED] && has_reconcile (caps cfg) then
    try_except
      (let* e := ask T_reconcile in
       raise_when (negb (admissible e [RUNNING; NEEDS_INTERACTION; TRUST_REQUIRED; LOGIN_REQUIRED]))
         (op_error "WAW_ATTACH_UNCONFIRMED" "Runtime process is not live for reconnect" "conflict"))
      [PyException]
      (reraise_or (op_error "WAW_ATTACH_UNCONFIRMED" "Runtime process could not be reconciled for reconnect" "conflict"))
  else ret tt.

(** The part of [attach] that opens the PTY of a Runtime lease *)
Definition open_attachment (l : RuntimeAttachmentLease) : Act unit :=
  if has_open (caps cfg) then
    let* s := get in
    try_except
      (let* opened := ask (T_open_attachment l (geometry s)) in
       raise_when (match opened with
                   | Some o => negb (exact (se_workspace o) (se_generation o) (se_marker o)) || negb (in_states (se_state o) [RUNNING]) || negb (se_ready o)
                   | None => true
                   end) (op_error "WAW_ATTACH_UNCONFIRMED" "Fixed PTY attachment evidence is not exact" "conflict"))
      [PyException]
      (fun x => let* cleaned := cleanup_runtime_attachment l in
                do* (if negb cleaned then modify (set_state RECONCILIATION_REQUIRED) else ret tt) in
                reraise_or (op_error "WAW_ATTACH_UNCONFIRMED" "Fixed PTY attachment could not be committed" "conflict") x)
  else
    raise_when (requires_commit (caps cfg)) (op_error "RUNTIME_UNAVAILABLE" "Exact fixed PTY attachment port is unavailable" "unavailable").

Definition attach (l : AttachmentLease) : Act SupervisorSnapshot :=
  do* check_attachment l in
  let* s := get in
  do* raise_when (match runtime_pending s with Some p => negb (bool_decide (RuntimeLease p = l)) | None => false end)
        (op_error "WORKSPACE_WRITER_BUSY" "Runtime writer is reserved" "conflict") in
  do* raise_when (negb (in_states (state s) [RUNNING; DETACHED])) (op_error "WAW_ATTACH_INVALID" "Workspace is not attachable" "conflict") in
  do* raise_when (match attachment s with Some a => negb (bool_decide (lease_claims a = lease_claims l)) | None => false end)
        (op_error "WAW_WRITER_BUSY" "Workspace already has a writer attachment" "conflict") in
  do* raise_when (match attachment s with Some _ => false | None => bool_decide (last_attachment_id s = Some (attachment_id l)) end)
        (op_error "WAW_ATTACHMENT_REPLAYED" "Reconnect requires a fresh attachment" "conflict") in
  do* reconciled s in
  do* match l with RuntimeLease r => open_attachment r | ApiLease _ _ => ret tt end in
  do* modify (set_attachment (Some l)) in
  do* modify (set_state RUNNING) in
  snapshot.

Definition probe : Act RuntimeProbeEvidence :=
  do* raise_when (negb (has_probe (caps cfg))) (op_error "WAW_PROBE_UNAVAILABLE" "Runtime observation is unavailable" "unavailable") in
  let* evidence := ask T_probe in
  let* s := get in
  let unconfirmed := op_error "WAW_PROBE_UNCONFIRMED" "Runtime observation is not exact" "conflict" in
  match evidence with
  | None => raise unconfirmed
  | Some e =>
      do* raise_when (negb (str_eqb (pe_workspace e) (workspace cfg))
                      || match pe_generation e with PInt g => negb (g =? generation cfg) | _ => true end
                      || negb (str_eqb (pe_marker e) (command_marker (command cfg)))
                      || (bool_decide (pe_state e = P_EXITED)
                          && match pe_exit_code e with PNone => false | PInt c => negb (in_range (-128) c 255) | _ => true end)
                      || (negb (bool_decide (pe_state e = P_EXITED)) && negb (is_none (pe_exit_code e)))
                      || (in_states (state s) [STOPPED] && negb (bool_decide (pe_state e = P_STOPPED)))) unconfirmed in
      ret e
  end.

(** [runtime_attachment_guard] around the body of the [with] statement *)
Definition runtime_attachment_guard {A} (l : RuntimeAttachmentLease) (require_writer require_running : bool)
    (body : RuntimeProbeEvidence -> Act A) : Act A :=
  do* check_attachment (RuntimeLease l) in
  let* s := get in
  do* raise_when (negb (bool_decide (runtime_pending s = Some l))) (op_error "WAW_ATTACHMENT_STALE" "Runtime reservation is stale" "conflict") in
  do* raise_when (require_writer && negb (bool_decide (attachment s = Some (RuntimeLease l))))
        (op_error "WAW_ATTACHMENT_REQUIRED" "Writer is not committed" "conflict") in
  let* evidence := probe in
  let* s1 := get in
  do* raise_when (require_running && (negb (bool_decide (pe_state evidence = P_RUNNING)) || negb (in_states (state s1) [RUNNING; DETACHED])))
        (op_error "WORKSPACE_NOT_RUNNING" "Exact process is not running" "conflict") in
  let* a := body evidence in
  do* check_attachment (RuntimeLease l) in
  ret a.

Definition reserve_runtime_attachment (l : RuntimeAttachmentLease) : Act unit :=
  do* check_attachment (RuntimeLease l) in
  do* raise_when (negb (has_close (caps cfg)) || negb (has_capture (caps cfg)))
        (op_error "RUNTIME_UNAVAILABLE" "Exact attachment cleanup port or redraw port is unavailable" "unavailable") in
  let* s := get in
  do* raise_when (bool_decide (is_Some (runtime_pending s)) || bool_decide (is_Some (attachment s)))
        (op_error "WORKSPACE_WRITER_BUSY" "Runtime writer is reserved" "conflict") in
  do* raise_when (bool_decide (last_attachment_id s = Some (t_attachment (rl_claims l))))
        (op_error "WAW_ATTACHMENT_STALE" "Runtime attachment was retired" "conflict") in
  modify (set_pending (Some l)).

Definition commit_runtime_attachment (l : RuntimeAttachmentLease) : Act unit :=
  runtime_attachment_guard l false true (fun _ => do* attach (RuntimeLease l) in ret tt).

Definition clear_runtime_output (reason : pystr) : Act unit :=
  do* raise_when (negb (str_in reason [$"crypto_failure"; $"runtime_epoch"; $"exit"; $"stop"]))
        (err PyValueError "unsupported output-clear event") in
  modify (fun s => set_ring (clear (ring s)) s).

Definition detach (l : AttachmentLease) : Act SupervisorSnapshot :=
  do* require_attachment l in
  match l with
  | RuntimeLease r =>
      let* cleaned := cleanup_runtime_attachment r in
      do* raise_when (negb cleaned) (op_error "WAW_DETACH_UNCONFIRMED" "Runtime did not prove attach-child/PTY closure" "conflict") in
      snapshot
  | ApiLease _ _ =>
      let* detached := try_except (ask T_detach) [PyException]
        (fun _ => do* modify (set_state BROKEN) in
                  raise (op_error "WAW_DETACH_FAILED" "Runtime could not close the PTY attachment" "broken")) in
      do* raise_when (negb detached) (op_error "WAW_DETACH_UNCONFIRMED" "Runtime did not confirm PTY closure" "conflict") in
      do* modify (set_last (Some (attachment_id l))) in
      do* modify (set_attachment None) in
      do* modify (set_state DETACHED) in
      snapshot
  end.

Definition write_input (l : AttachmentLease) (data : pyval) : Act unit :=
  do* require_attachment l in
  let* s := get in
  do* raise_when (in_states (state s) [INPUT_UNCERTAIN])
        (op_error "WAW_INPUT_RECONCILIATION_REQUIRED" "Input is paused pending explicit reconciliation" "conflict") in
  let* p := lift (validate_input data) in
  try_except (ask (T_write p)) [PyException]
    (fun _ => do* modify (set_state INPUT_UNCERTAIN) in
              raise (op_error "WAW_INPUT_UNCERTAIN" "Runtime could not confirm PTY input delivery" "broken")).

Definition heartbeat (o1 : Z) (current : ActiveAttachment) (o2 : Z) (renewed : ActiveAttachment) : Act SupervisorSnapshot :=
  do* require_attachment (ApiLease o1 current) in
  do* check_attachment (ApiLease o2 renewed) in
  do* raise_when (negb (bool_decide (a_claims renewed = a_claims current)))
        (op_error "WAW_ATTACHMENT_STALE" "Heartbeat changed immutable attachment claims" "conflict") in
  do* raise_when (a_last_heartbeat renewed <=? a_last_heartbeat current)
        (op_error "WAW_HEARTBEAT_STALE" "Heartbeat did not advance the attachment lease" "conflict") in
  do* modify (set_attachment (Some (ApiLease o2 renewed))) in
  snapshot.

(** What [resize] does with an attachment it could not resize *)
Definition abandon (l : AttachmentLease) : Act bool :=
  match l with
  | RuntimeLease r => cleanup_runtime_attachment r
  | ApiLease _ _ =>
      let* cleaned := try_except (ask T_detach) [PyException] (fun _ => ret false) in
      if cleaned then
        do* modify (set_last (Some (attachment_id l))) in
        do* modify (set_attachment None) in
        do* modify (set_state DETACHED) in
        ret true
      else ret false
  end.

Definition resize (l : AttachmentLease) (g : PtyGeometry) : Act SupervisorSnapshot :=
  do* require_attachment l in
  let* s := get in
  do* raise_when (in_states (state s) [INPUT_UNCERTAIN])
        (op_error "WAW_INPUT_RECONCILIATION_REQUIRED" "Resize is paused pending input reconciliation" "conflict") in
  do* try_except (ask (T_resize g)) [PyException]
    (fun _ => let* cleaned := abandon l in
              do* (if negb cleaned then modify (set_state RECONCILIATION_REQUIRED) else ret tt) in
              raise (op_error "WAW_RESIZE_FAILED" "Runtime could not resize and retain the PTY attachment" "conflict")) in
  do* modify (set_geometry g) in
  snapshot.

(** The check of what [produce_output] of the transport returned *)
Definition produced (v : pyval) : Act Z :=
  match v with
  | PInt n => if n <? 0 then raise (op_error "WAW_OUTPUT_INVALID" "Fixed output producer returned invalid evidence" "broken") else ret n
  | _ => raise (op_error "WAW_OUTPUT_INVALID" "Fixed output producer returned invalid evidence" "broken")
  end.

Definition produce_output : Act Z :=
  do* raise_when (negb (has_produce (caps cfg))) (op_error "WAW_OUTPUT_INVALID" "Fixed output producer is unavailable" "conflict") in
  let* v := ask T_produce_output in
  produced v.

Definition output_source : Act Z :=
  let* s := get in
  match source s with
  | Some src => ret src
  | None => raise (op_error "WAW_OUTPUT_INVALID" "Workspace output is not admitted" "conflict")
  end.

(** A ring operation, [append_batch], as a change of the supervisor *)
Definition ring_batch (chunks : list bytes) (s : Supervisor) : Supervisor * result (list OutputFrame) :=
  let '(r, fs) := append_batch (ring s) (map PBytes chunks) in (set_ring r s, fs).

Definition REDRAW_DEADLINE : Z := 1000.

(** A finite clock reading, or the error of [publish_fresh_redraw] *)
Definition finite (t : option Z) : Act Z :=
  match t with
  | Some z => ret z
  | None => raise (op_error "WAW_REDRAW_TIMEOUT" "Runtime redraw clock is invalid" "unavailable")
  end.

(** The part of [publish_fresh_redraw] that publishes a capture *)
Definition publish (r : BoundedRedraw) (prior_head : Z) : Act RuntimeRedrawPublication :=
  let* publication_ := try_except
    (let* fs := update (ring_batch (cut MAX_FRAME_BYTES (redraw_payload r))) in
     let* s := get in
     let* p := lift (new_publication fs (next_cursor (ring s) - 1) (has_more r)) in
     ret p)
    [WAWPTYError; WAWRedrawError]
    (fun _ => raise (op_error "WAW_REDRAW_LIMIT_INVALID" "Fixed redraw publication is invalid" "broken")) in
  do* raise_when (match pub_frames publication_ with f :: _ => negb (start_cursor f =? prior_head + 1) | [] => false end)
        (err PyAssertionError "publish_fresh_redraw") in
  ret publication_.

Definition publish_fresh_redraw (l : RuntimeAttachmentLease) : Act RuntimeRedrawPublication :=
  let unconfirmed m := op_error "WAW_REDRAW_IDENTITY_UNCONFIRMED" m "conflict" in
  runtime_attachment_guard l false true (fun evidence =>
    do* raise_when (negb (bool_decide (pe_state evidence = P_RUNNING))) (unconfirmed "Runtime redraw process identity is unavailable") in
    let* s := get in
    do* raise_when (bool_decide (source s = None) || negb (has_capture (caps cfg)))
          (op_error "WAW_REDRAW_UNAVAILABLE" "Fixed redraw capture is unavailable" "unavailable") in
    let* t := ask Clock in
    let* started := finite t in
    let deadline := started + REDRAW_DEADLINE in
    let* s0 := get in
    let prior_head := next_cursor (ring s0) - 1 in
    let* redraw := try_except (ask (T_capture_redraw deadline)) [PyException]
      (reraise_or (op_error "WAW_REDRAW_CAPTURE_FAILED" "Fixed redraw capture failed" "unavailable")) in
    let* t1 := ask Clock in
    do* raise_when (match t1 with Some finished => (finished <? started) || (deadline <=? finished) | None => true end)
          (op_error "WAW_REDRAW_TIMEOUT" "Runtime redraw deadline expired" "unavailable") in
    do* check_attachment (RuntimeLease l) in
    let* s1 := get in
    do* raise_when (negb (bool_decide (runtime_pending s1 = Some l)) || negb (bool_decide (source s1 = source s)))
          (unconfirmed "Runtime redraw authority changed") in
    let* post := probe in
    do* raise_when (negb (bool_decide (pe_state post = P_RUNNING))) (unconfirmed "Runtime redraw process identity changed") in
    match redraw with
    | None => raise (op_error "WAW_REDRAW_LIMIT_INVALID" "Fixed redraw result is invalid" "broken")
    | Some r => publish r prior_head
    end).

Definition replay_output (after generation_ epoch_ : pyval) (l : option AttachmentLease) : Act OutputReplay :=
  do* match l with Some a => require_attachment a | None => ret tt end in
  do* raise_when (is_none generation_ || negb (scalar_eqb generation_ (PInt (generation cfg))))
        (op_error "WAW_OUTPUT_STALE" "Output cursor belongs to a different workspace generation" "conflict") in
  let* s := get in
  do* raise_when (in_states (state s) [STOPPED]) (op_error "WAW_OUTPUT_STOPPED" "Stopped workspace output is unavailable" "conflict") in
  do* raise_when (is_none epoch_ || negb (scalar_eqb epoch_ (PStr (epoch cfg))))
        (op_error "WAW_OUTPUT_STALE" "Output cursor belongs to a different Runtime epoch" "conflict") in
  do* (if bool_decide (is_Some (attachment s)) && has_produce (caps cfg)
       then let* v := ask T_produce_output in do* produced v in ret tt
       else ret tt) in
  let* s1 := get in
  lift (replay (ring s1) after).

(** [RuntimePublicationInvalidator.invalidate] and [bind] *)
Definition invalidate (l : RuntimeAttachmentLease) : Act bool :=
  let* s := get in
  let p := publication l s in
  do* modify (set_publication l (mkPub (pub_callback p) (pub_bound p) true)) in
  if pub_callback p then ask (Shutdown l) else ret true.

Definition bind_publication (l : RuntimeAttachmentLease) : Act unit :=
  let* s := get in
  let p := publication l s in
  do* raise_when (pub_bound p) (err PyValueError "Runtime publication is already bound") in
  do* modify (set_publication l (mkPub true true (pub_invalidated p))) in
  if pub_invalidated p then
    let* closed := ask (Shutdown l) in
    raise_when (negb closed) (op_error "WAW_STOP_UNCONFIRMED" "Publication shutdown is unconfirmed" "conflict")
  else ret tt.

(** [_stop_transport] *)
Definition stop_transport : Act SupervisorSnapshot :=
  let* s := get in
  do* raise_when (in_states (state s) [STOPPING; STOPPED]) (op_error "WAW_STOP_INVALID" "Workspace is already stopping or stopped" "conflict") in
  do* modify (set_state STOPPING) in
  do* match runtime_pending s with
      | Some l =>
          let* fenced := try_except (invalidate l) [PyException] (fun _ => ret false) in
          if negb fenced then
            do* modify (set_state RECONCILIATION_REQUIRED) in
            raise (op_error "WAW_STOP_UNCONFIRMED" "Publication shutdown is unconfirmed" "conflict")
          else ret tt
      | None => ret tt
      end in
  do* try_except
    (let* e := ask T_stop in
     if negb (exact (ke_workspace e) (ke_generation e) (ke_marker e)) || negb (ke_closed e) || negb (scalar_eqb (ke_remaining e) (PInt 0)) then
       do* modify (set_state RECONCILIATION_REQUIRED) in
       raise (op_error "WAW_STOP_UNCONFIRMED" "Runtime did not provide exact close evidence" "conflict")
     else ret tt)
    [PyException]
    (fun x =>
       let* s1 := get in
       if exc_isa (exn_class x) RuntimeOperationError && in_states (state s1) [RECONCILIATION_REQUIRED] then raise x
       else do* modify (set_state BROKEN) in raise (op_error "WAW_STOP_FAILED" "Runtime transport could not stop" "broken")) in
  do* modify (set_attachment None) in
  do* modify (set_source None) in
  do* modify (set_state STOPPED) in
  do* modify (fun s => set_ring (clear (ring s)) s) in
  snapshot.

Definition stop (l : AttachmentLease) : Act SupervisorSnapshot :=
  do* require_attachment l in
  stop_transport.

Definition exact_stop (operation : WorkspaceStopOperation) : Act SupervisorSnapshot :=
  do* raise_when (negb (same_stop_binding operation (stop_binding cfg)))
        (op_error "WAW_STOP_STALE" "Stop operation does not match this workspace" "conflict") in
  do* raise_when (negb (bool_decide (so_result operation = S_PENDING)))
        (op_error "WAW_STOP_INVALID" "Only a pending Stop operation may initiate Runtime stop" "conflict") in
  let* s := get in
  do* raise_when (in_states (state s) [STOPPING; STOPPED]) (op_error "WAW_STOP_INVALID" "Workspace is already stopping or stopped" "conflict") in
  stop_transport.

End Methods.

(** ** Executions

    The public operations; the body of a guard is any sequence of them, since
    the lock is reentrant. *)

#[local] Unset Elimination Schemes.

Inductive operation : Type :=
| Start
| ResumeAfterLogin (auth : Z)
| Attach (l : AttachmentLease)
| Reserve (l : RuntimeAttachmentLease)
| Commit (l : RuntimeAttachmentLease)
| Cleanup (l : RuntimeAttachmentLease)
| ClearOutput (reason : pystr)
| Probe
| Detach (l : AttachmentLease)
| WriteInput (l : AttachmentLease) (data : pyval)
| Heartbeat (o1 : Z) (current : ActiveAttachment) (o2 : Z) (renewed : ActiveAttachment)
| Resize (l : AttachmentLease) (g : PtyGeometry)
| ProduceOutput
| AppendOutput (src : Z) (data : pyval)
| AppendEncryptedOutput (src : Z) (data : pyval)
| PublishRedraw (l : RuntimeAttachmentLease)
| ReplayOutput (after generation_ epoch_ : pyval) (l : option AttachmentLease)
| BindPublication (l : RuntimeAttachmentLease)
| Stop (l : AttachmentLease)
| ExactStop (o : WorkspaceStopOperation)
| Guarded (l : RuntimeAttachmentLease) (require_writer require_running : bool) (body : list operation)
| StoppedGuard (o : WorkspaceStopOperation) (body : list operation).

#[local] Set Elimination Schemes.

Lemma operation_ind (P : operation -> Prop) :
  (forall o, match o with Guarded _ _ _ body | StoppedGuard _ body => Forall P body | _ => True end -> P o) -> forall o, P o.
Proof.
  intros H. fix IH 1. intros o. apply H. destruct o; try exact I; induction body; constructor; auto.
Qed.

Definition forget {A} (m : Act A) : Act unit := do* m in ret tt.

Fixpoint seq_acts (ms : list (Act unit)) : Act unit :=
  match ms with
  | [] => ret tt
  | m :: rest => do* m in seq_acts rest
  end.

Section Executions.
Context (cfg : Config) (env : Env Port pyval).

Fixpoint run (o : operation) : Act unit :=
  match o with
  | Start => forget (start cfg env)
  | ResumeAfterLogin auth => forget (resume_after_login cfg env auth)
  | Attach l => forget (attach cfg env l)
  | Reserve l => reserve_runtime_attachment cfg env l
  | Commit l => commit_runtime_attachment cfg env l
  | Cleanup l => forget (cleanup_runtime_attachment cfg env l)
  | ClearOutput reason => clear_runtime_output reason
  | Probe => forget (probe cfg env)
  | Detach l => forget (detach cfg env l)
  | WriteInput l data => write_input cfg env l data
  | Heartbeat o1 a1 o2 a2 => forget (heartbeat cfg env o1 a1 o2 a2)
  | Resize l g => forget (resize cfg env l g)
  | ProduceOutput => forget (produce_output cfg env)
  | AppendOutput src data => forget (update (append_output src data))
  | AppendEncryptedOutput src data => forget (update (append_encrypted_output src data))
  | PublishRedraw l => forget (publish_fresh_redraw cfg env l)
  | ReplayOutput after g e l => forget (replay_output cfg env after g e l)
  | BindPublication l => bind_publication env l
  | Stop l => forget (stop cfg env l)
  | ExactStop o => forget (exact_stop cfg env o)
  | Guarded l w r body => runtime_attachment_guard cfg env l w r (fun _ => seq_acts (map run body))
  | StoppedGuard o body => stopped_generation_guard cfg o (seq_acts (map run body))
  end.

(** The world after each of a sequence of operations, whatever they raise *)
Definition run_all (ops : list operation) (w : World Port Supervisor) : World Port Supervisor :=
  fold_left (fun w o => fst (run o w)) ops w.

End Executions.

(** ** What a call leaves alone *)

(** The stream behind the ring only grows. *)
Definition stream_grows (a b : OutputRing) : Prop := forall h, ring_window a h -> exists t, ring_window b (h ++ t).

Lemma stream_grows_refl (a : OutputRing) : stream_grows a a.
Proof. intros h W. exists []. by rewrite app_nil_r. Qed.

Lemma stream_grows_trans (a b c : OutputRing) : stream_grows a b -> stream_grows b c -> stream_grows a c.
Proof. intros H1 H2 h W. destruct (H1 h W) as (t & W1). destruct (H2 _ W1) as (u & W2). exists (t ++ u). by rewrite app_assoc. Qed.

Lemma stream_grows_clear (a : OutputRing) : stream_grows a (clear a).
Proof. intros h W. exists []. rewrite app_nil_r. by apply clear_window. Qed.

Lemma stream_grows_append (a b : OutputRing) (data : pyval) (r : result OutputFrame) : append a data = (b, r) -> stream_grows a b.
Proof.
  intros H h W. destruct (append_cases a h data W) as [(p & s & -> & _ & E & _ & W1) | (e & E)]; rewrite E in H; injection H as <- _.
  - by exists p.
  - exists []. by rewrite app_nil_r.
Qed.

Lemma stream_grows_batch (a b : OutputRing) (data : list pyval) (r : result (list OutputFrame)) :
  append_batch a data = (b, r) -> stream_grows a b.
Proof.
  intros H h W. destruct (append_batch_cases a h data W) as [(ps & s & fs & -> & E & _ & _ & W1) | (e & E)]; rewrite E in H; injection H as <- _.
  - by exists (concat ps).
  - exists []. by rewrite app_nil_r.
Qed.

#[export] Hint Resolve stream_grows_refl stream_grows_clear stream_grows_append stream_grows_batch : agentbox.

(** [refill s s']: only the ring changed, and its stream grew; with no admitted
    source that produces output nothing changed. *)
Record refill (s s' : Supervisor) : Prop := mkRefill {
  rf_frame : s' = set_ring (ring s') s;
  rf_grows : stream_grows (ring s) (ring s');
  rf_silent : source s = None \/ in_states (state s) output_states = false -> s' = s
}.

Lemma refill_refl (s : Supervisor) : refill s s.
Proof. split; [by destruct s | apply stream_grows_refl | done]. Qed.

Lemma refill_trans (a b c : Supervisor) : refill a b -> refill b c -> refill a c.
Proof.
  intros [E1 G1 S1] [E2 G2 S2]. split.
  - rewrite E2, E1. by destruct a.
  - by eapply stream_grows_trans.
  - intros H. rewrite S2; [by apply S1 |]. rewrite (S1 H). exact H.
Qed.

Lemma refill_append_output (src : Z) (data : pyval) (s s' : Supervisor) (r : result Z) :
  append_output src data s = (s', r) -> refill s s'.
Proof.
  unfold append_output. intros H. destruct (bool_decide (source s = Some src)) eqn:E1; cbn in H.
  - destruct (in_states (state s) output_states) eqn:E2; cbn in H; [| injection H as <- _; apply refill_refl].
    destruct (append (ring s) data) as [q f] eqn:E3. injection H as <- _. split; [done | cbn; by eapply stream_grows_append |].
    apply bool_decide_eq_true_1 in E1. intros [H | H]; congruence.
  - injection H as <- _. apply refill_refl.
Qed.

Lemma refill_append_chunks (src : Z) (cs : list bytes) : forall (s s' : Supervisor) (r : result (list Z)),
  append_chunks src cs s = (s', r) -> refill s s'.
Proof.
  induction cs as [|c cs IH]; intros s s' r H; cbn in H; [injection H as <- _; apply refill_refl |].
  destruct (append_output src (PBytes c) s) as [s1 [x | e]] eqn:E1; [| injection H as <- _; by eapply refill_append_output].
  destruct (append_chunks src cs s1) as [s2 q] eqn:E2. injection H as <- _.
  eapply refill_trans; [by eapply refill_append_output | by eapply IH].
Qed.

Lemma refill_append_encrypted (src : Z) (data : pyval) (s s' : Supervisor) (r : result (list Z)) :
  append_encrypted_output src data s = (s', r) -> refill s s'.
Proof.
  destruct data; cbn; intros H; try (injection H as <- _; apply refill_refl).
  destruct (in_range 1 (blen b) (64 * 1024)); cbn in H; [by eapply refill_append_chunks | injection H as <- _; apply refill_refl].
Qed.

Lemma refill_push (data : pyval) (s : Supervisor) : refill s (push data s).
Proof.
  unfold push. destruct (sink s); [| apply refill_refl].
  destruct (append_encrypted_output _ data s) eqn:E. by eapply refill_append_encrypted.
Qed.

Lemma refill_absorb (cs : list pyval) (s : Supervisor) : refill s (absorb push cs s).
Proof. apply absorb_rel; [apply refill_refl | apply refill_trans | intros; apply refill_push]. Qed.

(** ** Symbolic execution *)

Lemma refill_inv (s s' : Supervisor) : refill s s' ->
  exists r, s' = set_ring r s /\ stream_grows (ring s) r /\ (source s = None \/ in_states (state s) output_states = false -> r = ring s).
Proof. intros [E G S]. exists (ring s'). split; [done |]. split; [done |]. intros H. by rewrite (S H). Qed.

Lemma wp_ask (env : Env Port pyval) {R} (e : Port R) (Q : World Port Supervisor -> result R -> Prop) (w : World Port Supervisor) :
  (forall q r, stream_grows (ring (object w)) q ->
     (source (object w) = None \/ in_states (state (object w)) output_states = false -> q = ring (object w)) ->
     Q (mkWorld (set_ring q (object w)) (log w ++ [Called R e r])) r) -> wp (ask env e) Q w.
Proof.
  intros H. apply wp_perform. intros cs r. destruct (refill_inv _ _ (refill_absorb cs (object w))) as (q & -> & G & S). by apply H.
Qed.

(** One step along the text of a computation *)
Ltac wp_step :=
  lazymatch goal with
  | |- wp (bind _ _) _ _ => apply wp_bind
  | |- wp (try_except _ _ _) _ _ => apply wp_try
  | |- wp (ret _) _ _ => apply wp_ret
  | |- wp (raise _) _ _ => apply wp_raise
  | |- wp (lift ?r) _ _ => apply wp_lift; try destruct r eqn:?
  | |- wp get _ _ => apply wp_get
  | |- wp (modify _) _ _ => apply wp_modify
  | |- wp (raise_when _ _) _ _ => apply wp_raise_when; intros ?
  | |- wp (reraise_or _ _) _ _ => unfold reraise_or
  | |- wp (ask _ _) _ _ => apply wp_ask; intros ? [? | ?] ? ?
  | |- wp (snapshot _) _ _ => unfold snapshot
  | |- wp (forget _) _ _ => unfold forget
  | |- wp (if negb true then _ else _) _ _ => change (negb true) with false
  | |- wp (if negb false then _ else _) _ _ => change (negb false) with true
  | |- wp (if ?b then _ else _) _ _ => destruct b eqn:?
  | |- wp (match ?x with _ => _ end) _ _ => destruct x eqn:?
  | |- context [if existsb ?f ?l then _ else _] => destruct (existsb f l) eqn:?
  end; cbn beta iota in *; cbn [object log] in *.

Ltac wp_run := repeat wp_step.

(** ** The lifecycle as a machine

    What the supervisor promises: its state, its writer and its reservation move
    only along these edges. *)

Record View : Type := mkView { v_state : SupervisorState; v_writer : option AttachmentLease; v_reserved : option RuntimeAttachmentLease }.

Definition view (s : Supervisor) : View := mkView (state s) (attachment s) (runtime_pending s).

(** Closing a PTY releases the attachment, not a fault. *)
Definition released (x : SupervisorState) : SupervisorState := if in_states x [RUNNING; DETACHED] then DETACHED else x.

(** The edges of the lifecycle; one operation may take several of them. *)
Inductive edge : View -> View -> Prop :=
| E_start x p : x ∈ [RUNNING; NEEDS_INTERACTION; TRUST_REQUIRED; LOGIN_REQUIRED; BROKEN] ->
    edge (mkView ADMITTED None p) (mkView x None p)
| E_resume x p : x ∈ [STARTING; RUNNING; NEEDS_INTERACTION; TRUST_REQUIRED; RECONCILIATION_REQUIRED] ->
    edge (mkView LOGIN_REQUIRED None p) (mkView x None p)
| E_reserve x l : edge (mkView x None None) (mkView x None (Some l))
| E_attach x a l p : x ∈ [RUNNING; DETACHED] -> p = None \/ RuntimeLease <$> p = Some l ->
    (forall b, a = Some b -> lease_claims b = lease_claims l) -> edge (mkView x a p) (mkView RUNNING (Some l) p)
| E_renew x o1 a1 o2 a2 : a_claims a2 = a_claims a1 -> a_last_heartbeat a1 < a_last_heartbeat a2 ->
    edge (mkView x (Some (ApiLease o1 a1)) None) (mkView x (Some (ApiLease o2 a2)) None)
| E_release x a l : a = None \/ a = Some (RuntimeLease l) -> edge (mkView x a (Some l)) (mkView (released x) None None)
| E_detach x o a : edge (mkView x (Some (ApiLease o a)) None) (mkView DETACHED None None)
| E_uncertain x l p : x <> INPUT_UNCERTAIN -> edge (mkView x (Some l) p) (mkView INPUT_UNCERTAIN (Some l) p)
| E_fault x y a p : y ∈ [BROKEN; RECONCILIATION_REQUIRED] -> x ∉ [STOPPING; STOPPED] \/ is_Some a \/ is_Some p ->
    edge (mkView x a p) (mkView y a p)
| E_stop x a p : x ∉ [STOPPING; STOPPED] -> edge (mkView x a p) (mkView STOPPED None p)
| E_interrupted x a p : x ∉ [STOPPING; STOPPED] -> edge (mkView x a p) (mkView STOPPING a p).

(** There is at most one writer, it is the reserved lease if there is one, and
    only a workspace that was attached has one. *)
Record consistent (v : View) : Prop := mkConsistent {
  co_single : forall l r, v_writer v = Some l -> v_reserved v = Some r -> l = RuntimeLease r;
  co_writer : is_Some (v_writer v) -> v_state v ∈ [RUNNING; INPUT_UNCERTAIN; BROKEN; RECONCILIATION_REQUIRED; STOPPING]
}.

Lemma edge_consistent (v v' : View) : consistent v -> edge v v' -> consistent v'.
Proof.
  intros [C1 C2] He. destruct He; cbn in C1, C2; split; cbn; try (by intros ? ? [=]); try (by intros [? [=]]); set_solver.
Qed.

Lemma edges_consistent (v v' : View) : rtc edge v v' -> consistent v -> consistent v'.
Proof. induction 1; [done |]. intros. by eauto using edge_consistent. Qed.

(** ** Rules of the methods *)

(** Calls that act on the process, the PTY or a publication *)
Definition acts (c : call Port) : bool :=
  match request c with
  | Clock | Current _ | Host | T_validate_resume _ | T_reconcile | T_probe | T_produce_output => false
  | _ => true
  end.

(** The lease was checked just now: the clock was read, the lease had not
    expired, the authority confirmed it, and it is for this binding. *)
Definition checked (cfg : Config) (l : AttachmentLease) (ext : list (call Port)) : Prop :=
  exists t, ext = [Called _ Clock (Ok (Some t)); Called _ (Current l) (Ok true)] /\ lease_active_at l (Some t) = true
            /\ lease_epoch l = Some (epoch cfg) /\ binding_matches cfg (lease_claims l) = true.

(** What a call may leave in the ring *)
Definition refills (s : Supervisor) (q : OutputRing) : Prop :=
  stream_grows (ring s) q /\ (source s = None \/ in_states (state s) output_states = false -> q = ring s).

(** How a cleanup ends: another lease is not touched; without proof the
    reservation stays; with proof everything of the lease is released. *)
Inductive cleaned (l : RuntimeAttachmentLease) (s : Supervisor) : Supervisor -> result bool -> list (call Port) -> Prop :=
| Cl_other : runtime_pending s <> Some l \/ (exists a, attachment s = Some a /\ a <> RuntimeLease l) -> cleaned l s s (Ok false) []
| Cl_unproved q ext : refills s q -> runtime_pending s = Some l ->
    Forall (fun c => exists r, c = Called _ (T_close_attachment l) r) ext ->
    cleaned l s (set_state RECONCILIATION_REQUIRED (set_ring q s)) (Ok false) ext
| Cl_proved q e : refills s q -> runtime_pending s = Some l -> attachment s = None \/ attachment s = Some (RuntimeLease l) ->
    confirms_cleanup l e = true ->
    cleaned l s (set_state (released (state s)) (set_last (Some (t_attachment (rl_claims l))) (set_attachment None (set_pending None (set_ring q s)))))
      (Ok true) [Called _ (T_close_attachment l) (Ok e)]
| Cl_cancelled q x : refills s q -> existsb (exc_isa (exn_class x)) [PyException] = false ->
    cleaned l s (set_ring q s) (Raise x) [Called _ (T_close_attachment l) (Raise x)].

Lemma set_ring_twice (a b : OutputRing) (s : Supervisor) : set_ring a (set_ring b s) = set_ring a s.
Proof. done. Qed.

Lemma set_ring_same (s : Supervisor) : set_ring (ring s) s = s.
Proof. by destruct s. Qed.

(** A result of code that called out without acting: the ring may have been
    refilled and the log has grown. *)
Definition quietly {A} (w : World Port Supervisor) (P : list (call Port) -> result A -> Prop) (Q : World Port Supervisor -> result A -> Prop) : Prop :=
  forall q ext r, stream_grows (ring (object w)) q ->
    (source (object w) = None \/ in_states (state (object w)) output_states = false -> q = ring (object w)) ->
    Forall (fun c => acts c = false) ext -> P ext r -> Q (mkWorld (set_ring q (object w)) (log w ++ ext)) r.

Section Rules.
Context (cfg : Config) (env : Env Port pyval).
Implicit Types (w : World Port Supervisor).

Lemma quietly_here {A} w P (Q : World Port Supervisor -> result A -> Prop) r : quietly w P Q -> P [] r -> Q w r.
Proof.
  intros H HP. specialize (H (ring (object w)) [] r (stream_grows_refl _) ltac:(done) ltac:(constructor) HP).
  rewrite set_ring_same, app_nil_r in H. by destruct w.
Qed.

Lemma wp_check l (Q : World Port Supervisor -> result unit -> Prop) w :
  quietly w (fun ext r => r = Ok tt -> checked cfg l ext) Q -> wp (check_attachment cfg env l) Q w.
Proof.
  intros H. unfold check_attachment.
  wp_step. wp_step; [by apply (quietly_here w _ Q _ H) |].
  wp_step. wp_step; [by apply (quietly_here w _ Q _ H) |].
  wp_step. apply wp_ask; intros q1 [t | e] G1 S1; cbn beta iota.
  2: { apply H; [done | done | by repeat constructor | done]. }
  wp_step. wp_step. { apply H; [done | done | by repeat constructor | done]. }
  wp_step. wp_step; cbn [ring set_ring source state] in *; rewrite ?set_ring_twice, <- ?app_assoc.
  - wp_step; apply H; try done; try (by repeat constructor); try (by eapply stream_grows_trans).
    1-2: intuition congruence.
    intros _. destruct t as [t |]; [| done]. exists t.
    repeat match goal with H : negb ?b = false |- _ => apply negb_false_iff in H end.
    match goal with H : ?b = true |- context [Ok ?b] => rewrite H end.
    split; [done |]. split; [done |]. split; [by eapply bool_decide_eq_true_1 | done].
  - apply H; [by eapply stream_grows_trans | | by repeat constructor | done]. intuition congruence.
Qed.

Lemma wp_require l (Q : World Port Supervisor -> result unit -> Prop) w :
  quietly w (fun ext r => r = Ok tt -> checked cfg l ext /\ attachment (object w) = Some l) Q -> wp (require_attachment cfg env l) Q w.
Proof.
  intros H. unfold require_attachment. wp_step. apply wp_check. intros q ext [[] | e] G S F C; [| by apply H].
  do 2 wp_step. wp_step; apply H; try done. intros _. split; [by apply C |].
  match goal with B : negb _ = false |- _ => apply negb_false_iff, bool_decide_eq_true_1 in B; exact B end.
Qed.

Lemma wp_probe (Q : World Port Supervisor -> result RuntimeProbeEvidence -> Prop) w :
  quietly w (fun _ _ => True) Q -> wp (probe cfg env) Q w.
Proof.
  intros H. unfold probe. wp_step. wp_step; [by apply (quietly_here w _ Q _ H) |].
  wp_run; apply H; try done; by repeat constructor.
Qed.

Lemma wp_cleanup l (Q : World Port Supervisor -> result bool -> Prop) w :
  (forall s1 r ext, cleaned l (object w) s1 r ext -> Q (mkWorld s1 (log w ++ ext)) r) -> wp (cleanup_runtime_attachment cfg env l) Q w.
Proof.
  intros H. unfold cleanup_runtime_attachment. assert (Hn : cleaned l (object w) (object w) (Ok false) [] -> Q w (Ok false)).
  { intros C. specialize (H _ _ _ C). rewrite app_nil_r in H. by destruct w. }
  do 2 wp_step. destruct (bool_decide (runtime_pending (object w) = Some l)) eqn:E1; cbn [negb].
  2: { apply wp_ret, Hn. constructor. left. by apply bool_decide_eq_false_1 in E1. }
  apply bool_decide_eq_true_1 in E1.
  assert (Ha : (exists a, attachment (object w) = Some a /\ a <> RuntimeLease l)
               \/ (attachment (object w) = None \/ attachment (object w) = Some (RuntimeLease l))).
  { destruct (attachment (object w)) as [a |]; [| auto]. destruct (decide (a = RuntimeLease l)) as [-> | Hne]; [auto |]. left. by exists a. }
  destruct Ha as [Ha | Ha].
  { destruct Ha as (a & Ea & Hne). rewrite Ea. rewrite bool_decide_eq_false_2 by done. cbn. apply wp_ret, Hn. constructor. right. by exists a. }
  assert (Hm : match attachment (object w) with Some a => negb (bool_decide (a = RuntimeLease l)) | None => false end = false).
  { destruct Ha as [-> | ->]; [done |]. by rewrite bool_decide_eq_true_2. }
  rewrite Hm. do 3 wp_step. destruct (has_close (caps cfg)).
  - wp_step.
    + wp_step. destruct (confirms_cleanup l a) eqn:E2; cbn [negb].
      * wp_run; match goal with G : stream_grows _ ?q, S : _ -> ?q = _ |- _ => pose proof (H _ _ _ (Cl_proved l (object w) q a (conj G S) E1 Ha E2)) as C end;
          unfold released in C; cbn [state set_last set_attachment set_pending set_ring] in *; rewrite Heqb in C; [exact C |].
        by destruct w as [[] ?].
      * wp_run. apply H. constructor; [done | done |]. constructor; [by eexists | constructor].
    + destruct (existsb (exc_isa (exn_class e)) [PyException]) eqn:E2.
      * wp_run. apply H. constructor; [done | done |]. constructor; [by eexists | constructor].
      * apply H. by constructor.
  - wp_run; [| done | done].
    pose proof (H _ _ _ (Cl_unproved l (object w) (ring (object w)) [] (conj (stream_grows_refl _) (fun _ => eq_refl)) E1 ltac:(constructor))) as C.
    by rewrite set_ring_same, app_nil_r in C.
Qed.

End Rules.
