(* ===== verification/SupervisorSpec.v ===== *)
(** * What the Runtime supervisor promises

    For every environment and every sequence of operations on the supervisor of
    [Supervisor.v]: its lifecycle follows the machine [edge]; the PTY is written
    to only under a lease that was checked just before; a stopped generation
    stays stopped; and an output cursor denotes the same byte forever. *)

From S2P Require Import Prelude PyVal WawDomain Pty Tickets Interact Supervisor.

Local Open Scope Z_scope.

(** ** Automation *)

(** [wp_step], with the rules of the checks and of a cleanup in one step *)
Ltac op_step :=
  lazymatch goal with
  | |- wp (check_attachment _ _ _) _ _ => apply wp_check; intros ? ? [[] | ?] ? ? ? ?; cbn beta iota in *; cbn [object log] in *
  | |- wp (require_attachment _ _ _) _ _ => apply wp_require; intros ? ? [[] | ?] ? ? ? ?; cbn beta iota in *; cbn [object log] in *
  | |- wp (probe _ _) _ _ => apply wp_probe; intros ? ? [? | ?] ? ? ? ?; cbn beta iota in *; cbn [object log] in *
  | |- wp (cleanup_runtime_attachment _ _ _) _ _ =>
      apply wp_cleanup; let c := fresh "Cl" in intros ? ? ? c; destruct c;
      repeat match goal with R : refills _ _ |- _ => destruct R end; cbn beta iota in *; cbn [object log] in *
  | |- _ => wp_step
  end.

Ltac op_run := repeat op_step.

(** Tests on states and on optional values as propositions *)
Ltac facts :=
  unfold in_states in *; bool_to_prop;
  repeat match goal with
  | H : bool_decide _ = true |- _ => apply bool_decide_eq_true_1 in H
  | H : bool_decide _ = false |- _ => apply bool_decide_eq_false_1 in H
  | H : _ /\ _ |- _ => destruct H
  | H : Ok _ = Ok _ -> _ |- _ => specialize (H eq_refl)
  end.

(** Membership of a state in a list of states, by evaluation *)
Lemma mem_weaken (x : SupervisorState) (l l' : list SupervisorState) : x ∈ l -> forallb (fun y => in_states y l') l = true -> x ∈ l'.
Proof.
  intros Hx Hl. rewrite forallb_forall in Hl. apply list_elem_of_In in Hx. specialize (Hl x Hx).
  unfold in_states in Hl. by apply bool_decide_eq_true_1 in Hl.
Qed.

Lemma mem_disjoint (x : SupervisorState) (l l' : list SupervisorState) :
  x ∈ l -> forallb (fun y => negb (in_states y l')) l = true -> x ∉ l'.
Proof.
  intros Hx Hl. rewrite forallb_forall in Hl. apply list_elem_of_In in Hx. specialize (Hl x Hx).
  unfold in_states in Hl. by apply negb_true_iff, bool_decide_eq_false_1 in Hl.
Qed.

Ltac mem :=
  match goal with
  | H : ?x ∈ _ |- ?x ∈ _ => apply (mem_weaken _ _ _ H); vm_compute; reflexivity
  | H : ?x ∈ _ |- ?x ∉ _ => apply (mem_disjoint _ _ _ H); vm_compute; reflexivity
  | |- _ => refine (bool_decide_unpack _ _); vm_compute; exact I
  end.

(** ** The lifecycle machine *)

Definition lawful {A} (m : Act A) : Prop :=
  forall w, consistent (view (object w)) -> wp m (fun w1 _ => rtc edge (view (object w)) (view (object w1))) w.

Ltac fields := cbn [view state attachment runtime_pending last_attachment_id source sink ring geometry publications
  set_state set_attachment set_pending set_last set_source set_sink set_ring set_geometry set_publication fresh_source] in *.

(** The view did not move, a lease was released, a fault was recorded. *)
Ltac stay := by (fields; apply rtc_refl).
Ltac by_release :=
  unfold view; fields; match goal with H : runtime_pending _ = Some _ |- _ => rewrite H end; apply rtc_once, E_release; assumption.
Ltac by_fault :=
  unfold view; fields; apply rtc_once, E_fault; [mem |];
  first [left; mem | left; assumption
        | match goal with H : runtime_pending _ = Some _ |- _ => rewrite H; right; right; by eexists end
        | match goal with H : attachment _ = Some _ |- _ => rewrite H; right; left; by eexists end].

Lemma idle_writer (s : Supervisor) :
  consistent (view s) -> state s ∉ [RUNNING; INPUT_UNCERTAIN; BROKEN; RECONCILIATION_REQUIRED; STOPPING] -> attachment s = None.
Proof. intros [_ C] H. destruct (attachment s) eqn:E; [| done]. destruct H. apply C. cbn. by rewrite E. Qed.

Lemma admissible_state (cfg : Config) (e : RuntimeStartEvidence) (l : list SupervisorState) :
  negb (admissible cfg e l) = false -> se_state e ∈ l.
Proof. unfold admissible. intros H. facts. done. Qed.

Lemma lawful_ret {A} (a : A) : lawful (ret a).
Proof. intros w C. apply wp_ret, rtc_refl. Qed.

Lemma lawful_bind {A B} (m : Act A) (k : A -> Act B) : lawful m -> (forall a, lawful (k a)) -> lawful (let* a := m in k a).
Proof.
  intros Hm Hk w C. apply wp_bind. eapply wp_mono; [by apply Hm |]. cbn. intros w1 [a | e] H1; [| done].
  eapply wp_mono; [apply Hk; by eapply edges_consistent |]. cbn. intros. by etrans.
Qed.

Section Lifecycle.
Context (cfg : Config) (env : Env Port pyval).

Lemma start_lawful : lawful (start cfg env).
Proof.
  intros [s lg] C. cbn [object] in *. unfold start. op_run; try stay.
  all: assert (state s = ADMITTED) as Es by (facts; by apply list_elem_of_singleton).
  all: pose proof (idle_writer s C ltac:(rewrite Es; mem)) as Ea; unfold view; fields; rewrite Es, Ea; apply rtc_once, E_start.
  all: try match goal with H : negb (admissible _ _ _) = false |- _ => apply admissible_state in H end.
  all: first [mem | done].
Qed.

Lemma resume_lawful (auth : Z) : lawful (resume_after_login cfg env auth).
Proof.
  intros [s lg] C. cbn [object] in *. unfold resume_after_login. op_run; try stay.
  all: assert (state s = LOGIN_REQUIRED) as Es by (facts; by apply list_elem_of_singleton).
  all: pose proof (idle_writer s C ltac:(rewrite Es; mem)) as Ea; unfold view; fields; rewrite Es, Ea; apply rtc_once, E_resume.
  all: try match goal with H : negb (admissible _ _ _) = false |- _ => apply admissible_state in H end.
  all: first [mem | done].
Qed.

Lemma cleaned_edges (l : RuntimeAttachmentLease) (s s1 : Supervisor) (r : result bool) (ext : list (call Port)) :
  cleaned l s s1 r ext -> rtc edge (view s) (view s1).
Proof.
  destruct 1 as [| q ext G Hp _ | q e G Hp Ha _ |]; unfold view; fields; try stay; rewrite Hp; apply rtc_once.
  - apply E_fault; [mem | right; right; done].
  - by apply E_release.
Qed.

Lemma cleanup_lawful (l : RuntimeAttachmentLease) : lawful (cleanup_runtime_attachment cfg env l).
Proof. intros w C. apply wp_cleanup. intros s1 r ext. apply cleaned_edges. Qed.

Lemma reserve_lawful (l : RuntimeAttachmentLease) : lawful (reserve_runtime_attachment cfg env l).
Proof.
  intros [s lg] C. unfold reserve_runtime_attachment. op_run; try stay. facts. fields. unfold view; fields.
  repeat match goal with H : ~ is_Some _ |- _ => apply eq_None_not_Some in H; rewrite ?H end.
  apply rtc_once, E_reserve.
Qed.

Lemma open_rule (l : RuntimeAttachmentLease) (Q : World Port Supervisor -> result unit -> Prop) (w : World Port Supervisor) :
  state (object w) ∈ [RUNNING; DETACHED] ->
  (forall w1, view (object w1) = view (object w) -> Q w1 (Ok tt)) ->
  (forall w1 e, rtc edge (view (object w)) (view (object w1)) -> Q w1 (Raise e)) ->
  wp (open_attachment cfg env l) Q w.
Proof.
  intros Hs H1 H2. unfold open_attachment. op_run; try (by apply H1); try (by apply H2).
  all: apply H2; cbn [object]; fields; first [by_release | by_fault].
Qed.

Lemma attach_edge (s : Supervisor) (l : AttachmentLease) :
  match runtime_pending s with Some p => negb (bool_decide (RuntimeLease p = l)) | None => false end = false ->
  negb (in_states (state s) [RUNNING; DETACHED]) = false ->
  match attachment s with Some a => negb (bool_decide (lease_claims a = lease_claims l)) | None => false end = false ->
  rtc edge (view s) (mkView RUNNING (Some l) (runtime_pending s)).
Proof.
  intros H1 H2 H3. facts. apply rtc_once, E_attach; [done | |].
  - destruct (runtime_pending s); [right | by left]. cbn. facts. by f_equal.
  - intros b Hb. rewrite Hb in H3. by facts.
Qed.

Lemma attach_lawful (l : AttachmentLease) : lawful (attach cfg env l).
Proof.
  intros [s lg] C. unfold attach, reconciled. op_run; try stay.
  1,3: fields; by refine (attach_edge s _ _ _ _).
  all: assert (state s ∈ [RUNNING; DETACHED]) as Hs by (facts; done); apply open_rule; cbn [object]; fields; [done | | done].
  all: intros w1 Hv; wp_run; fields; injection Hv as Hv1 Hv2 Hv3; unfold view at 2; fields; rewrite Hv3; by refine (attach_edge s _ _ _ _).
Qed.

Lemma guard_lawful {A} (l : RuntimeAttachmentLease) (rw rr : bool) (body : RuntimeProbeEvidence -> Act A) :
  (forall e, lawful (body e)) -> lawful (runtime_attachment_guard cfg env l rw rr body).
Proof.
  intros Hb [s lg] C. unfold runtime_attachment_guard. op_run; try stay.
  eapply wp_mono; [by apply Hb |]. cbn [object]. fields. intros w1 [a0 | e] Hw; [| done]. op_run; fields; done.
Qed.

(** A writer of the API leaves no room for a reservation. *)
Lemma api_writer (s : Supervisor) (o : Z) (a : ActiveAttachment) :
  consistent (view s) -> attachment s = Some (ApiLease o a) -> runtime_pending s = None.
Proof. intros [C _] H. destruct (runtime_pending s) eqn:E; [| done]. by specialize (C _ _ H E). Qed.

Lemma detach_edge (s : Supervisor) (o : Z) (a : ActiveAttachment) :
  consistent (view s) -> attachment s = Some (ApiLease o a) -> rtc edge (view s) (mkView DETACHED None (runtime_pending s)).
Proof. intros C H. unfold view. rewrite (api_writer s o a C H), H. apply rtc_once, E_detach. Qed.

Lemma detach_lawful (l : AttachmentLease) : lawful (detach cfg env l).
Proof.
  intros [s lg] C. unfold detach. op_run; try stay; facts; fields; first [by_release | by_fault | by eapply (detach_edge s)].
Qed.

Lemma write_lawful (l : AttachmentLease) (data : pyval) : lawful (write_input cfg env l data).
Proof.
  intros [s lg] C. unfold write_input. op_run; try stay; facts; fields.
  unfold view; fields. match goal with H : attachment s = _ |- _ => rewrite H end. apply rtc_once, E_uncertain.
  intros Es. match goal with H : state s ∉ _ |- _ => apply H; rewrite Es; mem end.
Qed.

Lemma heartbeat_lawful (o1 : Z) (a1 : ActiveAttachment) (o2 : Z) (a2 : ActiveAttachment) : lawful (heartbeat cfg env o1 a1 o2 a2).
Proof.
  intros [s lg] C. unfold heartbeat. op_run; try stay; facts; fields.
  unfold view; fields. match goal with H : attachment s = _ |- _ => rewrite (api_writer s o1 a1 C H), H end.
  apply rtc_once, E_renew; [done | lia].
Qed.

Lemma resize_lawful (l : AttachmentLease) (g : PtyGeometry) : lawful (resize cfg env l g).
Proof.
  intros [s lg] C. unfold resize, abandon. op_run; try stay; facts; fields; first [by_release | by_fault | by eapply (detach_edge s)].
Qed.

Lemma quiet_lawful {A} (m : Act A) :
  (forall w, wp m (fun w1 _ => view (object w1) = view (object w)) w) -> lawful m.
Proof. intros H w C. eapply wp_mono; [apply H |]. cbn. intros w1 _ ->. apply rtc_refl. Qed.

Lemma refill_view (s s1 : Supervisor) : refill s s1 -> view s1 = view s.
Proof. intros (q & -> & _)%refill_inv. done. Qed.

Lemma produced_lawful (v : pyval) : lawful (produced v).
Proof. apply quiet_lawful. intros w. unfold produced. by op_run. Qed.

Lemma produce_lawful : lawful (produce_output cfg env).
Proof. apply quiet_lawful. intros [s lg]. unfold produce_output, produced. by op_run. Qed.

Lemma replay_lawful (after g e : pyval) (l : option AttachmentLease) : lawful (replay_output cfg env after g e l).
Proof. apply quiet_lawful. intros [s lg]. unfold replay_output, produced. by op_run. Qed.

Lemma bind_publication_lawful (l : RuntimeAttachmentLease) : lawful (bind_publication env l).
Proof. apply quiet_lawful. intros [s lg]. unfold bind_publication. by op_run. Qed.

Lemma publish_lawful (r : BoundedRedraw) (head : Z) : lawful (publish r head).
Proof.
  apply quiet_lawful. intros [s lg]. unfold publish, ring_batch. wp_run.
  apply wp_update. intros s1 r1. cbn [object]. destruct (append_batch (ring s) _) as [q fs] eqn:E.
  intros [= <- <-]. destruct fs as [fs | e]; wp_run; done.
Qed.

Lemma redraw_lawful (l : RuntimeAttachmentLease) : lawful (publish_fresh_redraw cfg env l).
Proof.
  apply guard_lawful. intros e [s lg] C. unfold finite. op_run; try stay.
  eapply wp_mono; [by apply publish_lawful |]. cbn. intros w1 _ Hw. fields. exact Hw.
Qed.

Lemma stop_transport_lawful : lawful (stop_transport cfg env).
Proof.
  intros [s lg] C. unfold stop_transport, invalidate. op_run; try stay; facts; unfold view; fields; apply rtc_once.
  all: first [by apply E_stop | by apply E_interrupted | apply E_fault; [mem | by left]].
Qed.

Lemma stop_lawful (l : AttachmentLease) : lawful (stop cfg env l).
Proof.
  apply lawful_bind; [| intros; apply stop_transport_lawful]. intros w C. apply wp_require. intros q ext r _ _ _ _. apply rtc_refl.
Qed.

Lemma exact_stop_lawful (o : WorkspaceStopOperation) : lawful (exact_stop cfg env o).
Proof. intros [s lg] C. unfold exact_stop. op_run; try stay. by apply stop_transport_lawful. Qed.

Lemma update_lawful {A} (f : Supervisor -> Supervisor * result A) :
  (forall s s1 r, f s = (s1, r) -> refill s s1) -> lawful (update f).
Proof. intros Hf. apply quiet_lawful. intros w. apply wp_update. intros s1 r E. by eapply refill_view, Hf. Qed.

Lemma clear_lawful (reason : pystr) : lawful (clear_runtime_output reason).
Proof. apply quiet_lawful. intros [s lg]. unfold clear_runtime_output. by op_run. Qed.

Lemma seq_lawful (ms : list (Act unit)) : Forall lawful ms -> lawful (seq_acts ms).
Proof. induction 1 as [|m ms Hm _ IH]; cbn; [apply lawful_ret |]. by apply lawful_bind. Qed.

Lemma forget_lawful {A} (m : Act A) : lawful m -> lawful (forget m).
Proof. intros H. apply lawful_bind; [done |]. intros. apply lawful_ret. Qed.

Lemma run_lawful (o : operation) : lawful (run cfg env o).
Proof.
  induction o as [o IH] using operation_ind. destruct o; cbn [run]; try apply forget_lawful;
    auto using start_lawful, resume_lawful, attach_lawful, reserve_lawful, cleanup_lawful, clear_lawful, detach_lawful, write_lawful,
      heartbeat_lawful, resize_lawful, produce_lawful, redraw_lawful, replay_lawful, bind_publication_lawful, stop_lawful, exact_stop_lawful.
  - apply guard_lawful. intros e. apply forget_lawful, attach_lawful.
  - apply quiet_lawful. intros w. by apply wp_probe.
  - apply update_lawful. intros s s1 r. apply refill_append_output.
  - apply update_lawful. intros s s1 r. apply refill_append_encrypted.
  - apply guard_lawful. intros e. apply seq_lawful. by apply Forall_map.
  - intros [s lg] C. unfold stopped_generation_guard. op_run; try stay.
    apply seq_lawful; [by apply Forall_map | done].
Qed.

End Lifecycle.

(** ** Properties that every operation preserves *)

Definition simple (o : operation) : bool := match o with Guarded _ _ _ _ | StoppedGuard _ _ => false | _ => true end.

Section Preservation.
Context (cfg : Config) (env : Env Port pyval) (P : World Port Supervisor -> Prop).

Definition preserves {A} (m : Act A) : Prop := forall w, P w -> wp m (fun w1 _ => P w1) w.

(** [P] is not affected by calls that do not act. *)
Definition calm : Prop := forall w q ext, P w -> stream_grows (ring (object w)) q ->
  (source (object w) = None \/ in_states (state (object w)) output_states = false -> q = ring (object w)) ->
  Forall (fun c => acts c = false) ext -> P (mkWorld (set_ring q (object w)) (log w ++ ext)).

Lemma preserves_ret {A} (a : A) : preserves (ret a).
Proof. by intros w H. Qed.

Lemma preserves_bind {A B} (m : Act A) (k : A -> Act B) : preserves m -> (forall a, preserves (k a)) -> preserves (let* a := m in k a).
Proof.
  intros Hm Hk w H. apply wp_bind. eapply wp_mono; [by apply Hm |]. cbn. intros w1 [a | e] H1; [by apply Hk | done].
Qed.

Lemma preserves_forget {A} (m : Act A) : preserves m -> preserves (forget m).
Proof. intros H. apply preserves_bind; [done |]. intros. apply preserves_ret. Qed.

Lemma preserves_seq (ms : list (Act unit)) : Forall preserves ms -> preserves (seq_acts ms).
Proof. induction 1 as [|m ms Hm _ IH]; cbn; [apply preserves_ret |]. by apply preserves_bind. Qed.

Context (Hcalm : calm).

Lemma preserves_guard {A} (l : RuntimeAttachmentLease) (rw rr : bool) (body : RuntimeProbeEvidence -> Act A) :
  (forall e, preserves (body e)) -> preserves (runtime_attachment_guard cfg env l rw rr body).
Proof.
  intros Hb w H. unfold runtime_attachment_guard. apply wp_bind, wp_check. intros q ext [[] | e] G S F _; [| by apply Hcalm].
  assert (HP1 : P (mkWorld (set_ring q (object w)) (log w ++ ext))) by (by apply Hcalm).
  wp_run; try done. apply wp_probe. intros q2 ext2 [e | e] G2 S2 F2 _; [| by apply (Hcalm _ q2 ext2 HP1)].
  pose proof (Hcalm _ q2 ext2 HP1 G2 S2 F2) as HP2. wp_run; try done.
  eapply wp_mono; [by apply Hb |]. cbn. intros w3 [a | x] HP3; [| done]. apply wp_bind, wp_check.
  intros q4 ext4 [[] | x] G4 S4 F4 _; [wp_run |]; by apply Hcalm.
Qed.

Lemma preserves_run : (forall o, simple o = true -> preserves (run cfg env o)) -> forall o, preserves (run cfg env o).
Proof.
  intros Hs o. induction o as [o IH] using operation_ind. destruct o; try (by apply Hs); cbn [run].
  - apply preserves_guard. intros e. apply preserves_seq. by apply Forall_map.
  - intros w H. unfold stopped_generation_guard. wp_run; try done. apply preserves_seq; [by apply Forall_map | done].
Qed.

Lemma run_all_preserves : (forall o, simple o = true -> preserves (run cfg env o)) -> forall ops w, P w -> P (run_all cfg env ops w).
Proof.
  intros Hs ops. induction ops as [|o ops IH]; intros w H; cbn; [done |]. apply IH.
  pose proof (preserves_run Hs o w H) as Hw. unfold wp in Hw. by destruct (run cfg env o w).
Qed.

End Preservation.

(** ** Authority over the PTY *)

(** Calls that change what the PTY shows or receives *)
Definition touches (c : call Port) : bool := match request c with T_write _ | T_resize _ => true | _ => false end.

Definition within_bounds (c : call Port) : Prop :=
  match request c with T_write p => 1 <= blen p <= MAX_INPUT_BYTES | _ => True end.

Definition authorised (cfg : Config) (lg : list (call Port)) : Prop :=
  forall pre c post, lg = pre ++ c :: post -> touches c = true ->
    within_bounds c /\ exists l before ext, pre = before ++ ext /\ checked cfg l ext.

Lemma authorised_nil (cfg : Config) : authorised cfg [].
Proof. intros [|x pre] c post; discriminate. Qed.

Lemma authorised_snoc (cfg : Config) (lg : list (call Port)) (c : call Port) :
  authorised cfg lg -> (touches c = true -> within_bounds c /\ exists l before ext, lg = before ++ ext /\ checked cfg l ext) ->
  authorised cfg (lg ++ [c]).
Proof.
  intros H Hc pre d post E Hd. destruct post as [|x post] using rev_ind.
  - apply app_inj_tail in E as [-> ->]. by apply Hc.
  - rewrite app_comm_cons, app_assoc in E. apply app_inj_tail in E as [-> _]. by apply (H pre d post).
Qed.

Lemma authorised_app (cfg : Config) (lg ext : list (call Port)) :
  authorised cfg lg -> Forall (fun c => touches c = false) ext -> authorised cfg (lg ++ ext).
Proof.
  intros H F. induction ext as [|c ext IH] using rev_ind; [by rewrite app_nil_r |].
  apply Forall_app in F as [F1 F2]. apply Forall_cons in F2 as [F2 _]. rewrite app_assoc. apply authorised_snoc; [by apply IH | congruence].
Qed.

Lemma quiet_touches (ext : list (call Port)) : Forall (fun c => acts c = false) ext -> Forall (fun c => touches c = false) ext.
Proof. intros F. eapply Forall_impl; [exact F |]. intros [R e r]. by destruct e. Qed.

Lemma closing_touches (l : RuntimeAttachmentLease) (ext : list (call Port)) :
  Forall (fun c => exists r, c = Called _ (T_close_attachment l) r) ext -> Forall (fun c => touches c = false) ext.
Proof. intros F. eapply Forall_impl; [exact F |]. by intros c [r ->]. Qed.

#[export] Hint Resolve quiet_touches closing_touches : agentbox.

Lemma authorised_checked (cfg : Config) (l : AttachmentLease) (lg ext : list (call Port)) (c : call Port) :
  authorised cfg lg -> Forall (fun c => acts c = false) ext -> checked cfg l ext -> within_bounds c -> authorised cfg ((lg ++ ext) ++ [c]).
Proof.
  intros H F Hl Hc. apply authorised_snoc; [apply authorised_app; auto with agentbox |]. intros _. split; [done |]. by exists l, lg, ext.
Qed.

Lemma validate_input_bounds (data : pyval) (p : bytes) : validate_input data = Ok p -> 1 <= blen p <= MAX_INPUT_BYTES.
Proof.
  unfold validate_input. intros H. destruct data; try discriminate. inv_ok. bool_to_prop.
  match goal with |- context [blen ?b] => pose proof (blen_nonneg b) end. lia.
Qed.

(** The log grew by calls that do not touch the PTY, after at most one that was
    authorised. *)
Ltac untouched :=
  cbn [object log] in *; rewrite ?app_assoc in *;
  repeat (apply authorised_app; [| first [eauto with agentbox; fail | by repeat constructor]]);
  first [done
        | match goal with H : Ok tt = Ok tt -> checked _ _ _ /\ _ |- _ => destruct (H eq_refl) as [? _] end;
          eapply authorised_checked; [eassumption | eassumption | eassumption |];
          first [exact I | by eapply validate_input_bounds]].

Section Authority.
Context (cfg : Config) (env : Env Port pyval).

Lemma authorised_simple (o : operation) : simple o = true -> preserves (fun w => authorised cfg (log w)) (run cfg env o).
Proof.
  intros Ho. assert (Hc : calm (fun w => authorised cfg (log w))).
  { intros w q ext H _ _ F. cbn. apply authorised_app; [done | by apply quiet_touches]. }
  destruct o; try discriminate Ho; cbn [run]; try apply preserves_forget.
  all: try (intros [s lg] H; cbn [log] in H).
  - unfold start. op_run. all: untouched.
  - unfold resume_after_login. op_run. all: untouched.
  - unfold attach, reconciled, open_attachment. op_run. all: untouched.
  - unfold reserve_runtime_attachment. op_run; untouched.
  - apply preserves_guard; [done | | done]. intros _ [s1 lg1] H1. cbn [log] in H1. unfold attach, reconciled, open_attachment. op_run. all: untouched.
  - op_run; untouched.
  - unfold clear_runtime_output. op_run; untouched.
  - op_run; untouched.
  - unfold detach. op_run. all: untouched.
  - unfold write_input. op_run. all: untouched.
  - unfold heartbeat. op_run; untouched.
  - unfold resize, abandon. op_run. all: untouched.
  - unfold produce_output, produced. op_run; untouched.
  - apply wp_update. by intros.
  - apply wp_update. by intros.
  - apply preserves_guard; [done | | done]. intros ev [s1 lg1] H1. cbn [log] in H1. unfold finite, publish. op_run; try untouched.
    all: apply wp_update; intros ? [? | ?] ?; cbn beta iota; op_run; untouched.
  - unfold replay_output, produced. op_run; untouched.
  - unfold bind_publication. op_run; untouched.
  - unfold stop, stop_transport, invalidate. op_run. all: untouched.
  - unfold exact_stop, stop_transport, invalidate. op_run. all: untouched.
Qed.

End Authority.

(** ** Output *)

(** The stream behind the ring continues [h]. *)
Definition continues (h : bytes) (r : OutputRing) : Prop := exists t, ring_window r (h ++ t).

Lemma continues_grows (h : bytes) (a b : OutputRing) : continues h a -> stream_grows a b -> continues h b.
Proof. intros (t & W) G. destruct (G _ W) as (u & W1). exists (t ++ u). by rewrite app_assoc. Qed.

Lemma continues_batch (h : bytes) (cs : list bytes) (s s1 : Supervisor) (r : result (list OutputFrame)) :
  continues h (ring s) -> ring_batch cs s = (s1, r) -> continues h (ring s1).
Proof.
  intros H E. unfold ring_batch in E. destruct (append_batch (ring s) _) as [q fs] eqn:Eq. injection E as <- _.
  eapply continues_grows; [done | by eapply stream_grows_batch].
Qed.

Ltac grown := cbn [object log] in *; fields; by eauto 8 using continues_grows with agentbox.

Section Output.
Context (cfg : Config) (env : Env Port pyval) (h : bytes).

Lemma continues_simple (o : operation) : simple o = true -> preserves (fun w => continues h (ring (object w))) (run cfg env o).
Proof.
  intros Ho. assert (Hc : calm (fun w => continues h (ring (object w)))) by (intros w q ext H G _ _; grown).
  destruct o; try discriminate Ho; cbn [run]; try apply preserves_forget.
  all: try (intros [s lg] H; cbn [object] in H).
  - unfold start. op_run; grown.
  - unfold resume_after_login. op_run; grown.
  - unfold attach, reconciled, open_attachment. op_run; grown.
  - unfold reserve_runtime_attachment. op_run; grown.
  - apply preserves_guard; [done | | done]. intros _ [s1 lg1] H1. cbn [object] in H1. unfold attach, reconciled, open_attachment. op_run; grown.
  - op_run; grown.
  - unfold clear_runtime_output. op_run; grown.
  - op_run; grown.
  - unfold detach. op_run; grown.
  - unfold write_input. op_run; grown.
  - unfold heartbeat. op_run; grown.
  - unfold resize, abandon. op_run; grown.
  - unfold produce_output, produced. op_run; grown.
  - apply wp_update. intros s1 r E. eapply continues_grows; [exact H | by eapply rf_grows, refill_append_output].
  - apply wp_update. intros s1 r E. eapply continues_grows; [exact H | by eapply rf_grows, refill_append_encrypted].
  - apply preserves_guard; [done | | done]. intros ev [s1 lg1] H1. cbn [object] in H1. unfold finite, publish. op_run; try (by grown).
    all: apply wp_update; intros s2 [? | ?] E; cbn beta iota; op_run; cbn [object] in *; (eapply continues_batch; [| exact E]); grown.
  - unfold replay_output, produced. op_run; grown.
  - unfold bind_publication. op_run; grown.
  - unfold stop, stop_transport, invalidate. op_run; grown.
  - unfold exact_stop, stop_transport, invalidate. op_run; grown.
Qed.

End Output.

(** ** A stopped generation *)

Record finished (s : Supervisor) : Prop := mkFinished {
  fi_state : state s ∈ [STOPPING; STOPPED; RECONCILIATION_REQUIRED; BROKEN];
  fi_writer : attachment s = None;
  fi_source : source s = None;
  fi_output : frames (ring s) = []
}.

(** Calls that start the process, open, resize, write to or capture its PTY *)
Definition revives (c : call Port) : bool :=
  match request c with
  | T_start _ _ | T_bind_output_sink _ | T_resume _ | T_open_attachment _ _ | T_detach | T_write _ | T_resize _ | T_capture_redraw _ => true
  | _ => false
  end.

(** Since [lg0] no such call was made. *)
Definition dead_since (lg0 lg : list (call Port)) : Prop := exists ext, lg = lg0 ++ ext /\ Forall (fun c => revives c = false) ext.

Lemma dead_since_app (lg0 lg ext : list (call Port)) :
  dead_since lg0 lg -> Forall (fun c => revives c = false) ext -> dead_since lg0 (lg ++ ext).
Proof. intros (e & -> & F) F1. exists (e ++ ext). rewrite app_assoc. split; [done |]. by apply Forall_app. Qed.

Lemma quiet_revives (ext : list (call Port)) : Forall (fun c => acts c = false) ext -> Forall (fun c => revives c = false) ext.
Proof. intros F. eapply Forall_impl; [exact F |]. intros [R e r]. by destruct e. Qed.

Lemma closing_revives (l : RuntimeAttachmentLease) (ext : list (call Port)) :
  Forall (fun c => exists r, c = Called _ (T_close_attachment l) r) ext -> Forall (fun c => revives c = false) ext.
Proof. intros F. eapply Forall_impl; [exact F |]. by intros c [r ->]. Qed.

#[export] Hint Resolve quiet_revives closing_revives : agentbox.

Lemma finished_silent (s : Supervisor) (q : OutputRing) :
  finished s -> (source s = None \/ in_states (state s) output_states = false -> q = ring s) -> frames q = [].
Proof. intros [_ _ Hs Ho] S. rewrite S by auto. exact Ho. Qed.

Definition dead (lg0 : list (call Port)) (w : World Port Supervisor) : Prop := finished (object w) /\ dead_since lg0 (log w).

Ltac dead_log :=
  repeat (apply dead_since_app; [| first [eauto with agentbox; fail | by repeat constructor]]); done.

Lemma released_dead (x : SupervisorState) :
  x ∈ [STOPPING; STOPPED; RECONCILIATION_REQUIRED; BROKEN] -> released x ∈ [STOPPING; STOPPED; RECONCILIATION_REQUIRED; BROKEN].
Proof. intros H. unfold released, in_states. rewrite bool_decide_eq_false_2; [done | mem]. Qed.

(** The object is still finished: a ring without a source was not refilled. *)
Ltac still_dead :=
  let Hr := fresh "Hr" in
  match goal with H : finished _ |- _ => destruct H as [? ? Hr ?] end;
  split; cbn [object log] in *; [| dead_log]; fields;
  repeat match goal with S : source _ = None \/ _ -> _ = _ |- _ => specialize (S (or_introl Hr)); subst end;
  split; fields; first [assumption | by apply released_dead | mem | reflexivity].

Section Stopped.
Context (cfg : Config) (env : Env Port pyval) (lg0 : list (call Port)).

Lemma dead_calm : calm (dead lg0).
Proof.
  intros [s lg] q ext [H L] G S F. split; cbn [object log] in *; [| apply dead_since_app; auto with agentbox].
  pose proof (finished_silent s q H S). destruct H. split; fields; done.
Qed.

Lemma dead_require {A} (l : AttachmentLease) (k : unit -> Act A) : preserves (dead lg0) (let* x := require_attachment cfg env l in k x).
Proof.
  intros [s lg] H. apply wp_bind, wp_require. intros q ext [[] | e] G S F C; [| by apply dead_calm].
  destruct (C eq_refl) as [_ Ha]. destruct H as [[_ Hw _ _] _]. cbn [object] in *. congruence.
Qed.

Lemma dead_state (s : Supervisor) (l : list SupervisorState) :
  finished s -> in_states (state s) l = true -> forallb (fun y => negb (in_states y [STOPPING; STOPPED; RECONCILIATION_REQUIRED; BROKEN])) l = true -> False.
Proof. intros [Hf _ _ _] Hs Hl. facts. by apply (mem_disjoint _ _ _ Hs Hl). Qed.

Lemma dead_gate {A} (l : list SupervisorState) (e : exn) (k : Supervisor -> Act A) :
  forallb (fun y => negb (in_states y [STOPPING; STOPPED; RECONCILIATION_REQUIRED; BROKEN])) l = true ->
  preserves (dead lg0) (let* s := get in do* raise_when (negb (in_states (state s) l)) e in k s).
Proof.
  intros Hl [s lg] [H L]. do 3 wp_step. wp_step; [by split |]. exfalso. match goal with B : negb _ = false |- _ => apply negb_false_iff in B end.
  by eapply dead_state.
Qed.

Lemma dead_attach (l : AttachmentLease) : preserves (dead lg0) (attach cfg env l).
Proof.
  intros [s lg] HD. unfold attach. apply wp_bind, wp_check. intros q ext [[] | e] G S F _; [| by apply dead_calm]. cbn beta iota.
  pose proof (dead_calm _ q ext HD G S F) as HD1. do 3 wp_step. wp_step; [done |]. wp_step. wp_step; [done |].
  exfalso. match goal with B : negb (in_states _ _) = false |- _ => apply negb_false_iff in B end.
  destruct HD1 as [HD1 _]. by eapply (dead_state _ _ HD1).
Qed.

Lemma dead_stop : preserves (dead lg0) (stop_transport cfg env).
Proof. intros [s lg] [H L]. unfold stop_transport, invalidate. op_run; still_dead. Qed.

Lemma dead_update {A} (f : Supervisor -> Supervisor * result A) :
  (forall s s1 r, f s = (s1, r) -> refill s s1) -> preserves (dead lg0) (update f).
Proof.
  intros Hf [s lg] [H L]. apply wp_update. intros s1 r E. destruct (Hf _ _ _ E) as [_ _ S]. cbn [object] in *.
  rewrite S; [by split | left; by apply fi_source].
Qed.

Lemma dead_replay (after g e : pyval) (l : option AttachmentLease) : preserves (dead lg0) (replay_output cfg env after g e l).
Proof.
  intros w HD. unfold replay_output. destruct l as [l |]; [by apply dead_require |]. destruct w as [s lg], HD as [H L].
  unfold produced. op_run; still_dead.
Qed.

Lemma dead_redraw (l : RuntimeAttachmentLease) : preserves (dead lg0) (publish_fresh_redraw cfg env l).
Proof.
  apply preserves_guard; [apply dead_calm |]. intros ev [s lg] [H L]. wp_step. wp_step; [by split |]. do 3 wp_step. wp_step; [by split |].
  exfalso. destruct H as [_ _ Hr _]. rewrite Hr in *. discriminate.
Qed.

Lemma dead_simple (o : operation) : simple o = true -> preserves (dead lg0) (run cfg env o).
Proof.
  intros Ho. destruct o; try discriminate Ho; cbn [run]; try apply preserves_forget.
  all: try (by apply dead_require); try (by apply dead_attach); try (by apply dead_replay); try (by apply dead_redraw).
  - by apply dead_gate.
  - by apply dead_gate.
  - intros [s lg] [H L]. unfold reserve_runtime_attachment. op_run; still_dead.
  - apply preserves_guard; [apply dead_calm |]. intros _. apply preserves_forget, dead_attach.
  - intros [s lg] [H L]. op_run; still_dead.
  - intros [s lg] [H L]. unfold clear_runtime_output. op_run; still_dead.
  - intros [s lg] [H L]. op_run; still_dead.
  - intros [s lg] [H L]. unfold produce_output, produced. op_run; still_dead.
  - apply dead_update. intros s s1 r. apply refill_append_output.
  - apply dead_update. intros s s1 r. apply refill_append_encrypted.
  - intros [s lg] [H L]. unfold bind_publication. op_run; still_dead.
  - intros [s lg] [H L]. unfold exact_stop. op_run; try still_dead. by apply dead_stop.
Qed.

End Stopped.

(** ** Properties *)

Lemma new_supervisor_fresh (ws : pystr) (g cap : Z) (c : WAWManagedCommand) (host : HostFacts) (geo : PtyGeometry)
    (b : WorkspaceStopOperation) (e : pyval) (ports : Capabilities) (cfg : Config) (s : Supervisor) :
  new_supervisor ws g c host geo b cap e ports = Ok (cfg, s) ->
  view s = mkView ADMITTED None None /\ source s = None /\ ring_window (ring s) [].
Proof.
  unfold new_supervisor. intros H. inv_ok. simplify_eq/=.
  split; [done |]. split; [done |]. by eapply new_ring_window.
Qed.

Lemma fresh_consistent (p : option RuntimeAttachmentLease) : consistent (mkView ADMITTED None p).
Proof. split; cbn; [done | by intros [? [=]]]. Qed.

Lemma run_all_lawful (cfg : Config) (env : Env Port pyval) (ops : list operation) : forall w,
  consistent (view (object w)) -> rtc edge (view (object w)) (view (object (run_all cfg env ops w))).
Proof.
  induction ops as [|o ops IH]; intros w C; cbn; [apply rtc_refl |].
  pose proof (run_lawful cfg env o w C) as H. unfold wp in H. destruct (run cfg env o w) as [w1 r]. cbn.
  etrans; [exact H |]. apply IH. by eapply edges_consistent.
Qed.

(** A call that is not for the writer, or after an uncertain write, touches
    nothing. *)
Lemma write_refused (cfg : Config) (env : Env Port pyval) (l : AttachmentLease) (data : pyval) (w : World Port Supervisor) :
  ~ (attachment (object w) = Some l /\ state (object w) <> INPUT_UNCERTAIN) ->
  wp (write_input cfg env l data) (fun w1 _ => forall ext d, log w1 = log w ++ ext -> d ∈ ext -> touches d = true -> False) w.
Proof.
  intros Hn. destruct w as [s lg]. unfold write_input. op_run; cbn [object log] in *; fields.
  all: try (intros ext1 d Ee%app_inv_head Hd Ht; subst; match goal with F : Forall (fun c => acts c = false) _ |- _ => apply quiet_touches in F;
              rewrite Forall_forall in F; specialize (F d Hd); cbn in F; congruence end).
  all: exfalso; apply Hn; facts; split; [done |]; intros Es; match goal with N : state _ ∉ _ |- _ => apply N; rewrite Es; mem end.
Qed.

Lemma resize_refused (cfg : Config) (env : Env Port pyval) (l : AttachmentLease) (geo : PtyGeometry) (w : World Port Supervisor) :
  ~ (attachment (object w) = Some l /\ state (object w) <> INPUT_UNCERTAIN) ->
  wp (resize cfg env l geo) (fun w1 _ => forall ext d, log w1 = log w ++ ext -> d ∈ ext -> touches d = true -> False) w.
Proof.
  intros Hn. destruct w as [s lg]. unfold resize. op_run; cbn [object log] in *; fields.
  all: try (intros ext1 d Ee%app_inv_head Hd Ht; subst; match goal with F : Forall (fun c => acts c = false) _ |- _ => apply quiet_touches in F;
              rewrite Forall_forall in F; specialize (F d Hd); cbn in F; congruence end).
  all: exfalso; apply Hn; facts; split; [done |]; intros Es; match goal with N : state _ ∉ _ |- _ => apply N; rewrite Es; mem end.
Qed.

Lemma run_resize_refused (cfg : Config) (env : Env Port pyval) (l : AttachmentLease) (geo : PtyGeometry) (w : World Port Supervisor) :
  ~ (attachment (object w) = Some l /\ state (object w) <> INPUT_UNCERTAIN) ->
  wp (run cfg env (Resize l geo)) (fun w1 _ => forall ext d, log w1 = log w ++ ext -> d ∈ ext -> touches d = true -> False) w.
Proof.
  intros Hn. cbn [run]. unfold forget. apply wp_bind. eapply wp_mono; [by apply resize_refused |]. cbn beta. intros w1 [x | x] Hx; [by apply wp_ret | done].
Qed.

(** A write that reached the PTY and raised leaves the state that pauses input. *)
Lemma write_uncertain (cfg : Config) (env : Env Port pyval) (l : AttachmentLease) (data : pyval) (w : World Port Supervisor) :
  wp (write_input cfg env l data) (fun w1 r => forall ext d e, log w1 = log w ++ ext -> d ∈ ext -> touches d = true -> r = Raise e ->
    exc_isa (exn_class e) PyException = true -> state (object w1) = INPUT_UNCERTAIN) w.
Proof.
  destruct w as [s lg]. unfold write_input. op_run; cbn [object log] in *; fields.
  all: try (intros ext1 d e1 Ee%app_inv_head Hd Ht; subst; match goal with F : Forall (fun c => acts c = false) _ |- _ => apply quiet_touches in F;
              rewrite Forall_forall in F; specialize (F d Hd); cbn in F; congruence end).
  all: intros ext1 d e1 _ _ _ Er Hx; first [done | injection Er as <-; cbn [existsb] in *; rewrite Hx in *; done].
Qed.

(** A successful stop leaves a finished supervisor. *)
Lemma stop_finishes (cfg : Config) (env : Env Port pyval) (w : World Port Supervisor) :
  wp (stop_transport cfg env) (fun w1 r => is_ok r = true -> finished (object w1) /\ state (object w1) = STOPPED) w.
Proof.
  destruct w as [s lg]. unfold stop_transport, invalidate. op_run; cbn [object log is_ok] in *; try done.
  all: intros _; split; [| done]; split; fields; first [done | mem].
Qed.

Definition stops (o : operation) : bool := match o with Stop _ | ExactStop _ => true | _ => false end.

Lemma run_stop_finishes (cfg : Config) (env : Env Port pyval) (o : operation) (w : World Port Supervisor) :
  stops o = true -> wp (run cfg env o) (fun w1 r => is_ok r = true -> finished (object w1) /\ state (object w1) = STOPPED) w.
Proof.
  destruct o; try done; intros _; cbn [run]; unfold forget, stop, exact_stop; destruct w as [s lg]; op_run; try done.
  all: eapply wp_mono; [apply stop_finishes |]; cbn beta; intros w1 [? | ?] Hw; [apply wp_ret; auto | done].
Qed.

(** A replay answers from a ring that continues the stream. *)
Lemma replay_rule (cfg : Config) (env : Env Port pyval) (after g e : pyval) (l : option AttachmentLease) (h : bytes) (w : World Port Supervisor) :
  continues h (ring (object w)) ->
  wp (replay_output cfg env after g e l)
     (fun w1 r => forall answer, r = Ok answer -> exists u, ring_window (ring (object w1)) (h ++ u) /\ replay (ring (object w1)) after = Ok answer) w.
Proof.
  intros H. destruct w as [s lg]. unfold replay_output, produced. op_run; cbn [object log] in *; fields; try done.
  all: intros answer Ea; simplify_eq; match goal with E : replay ?q _ = Ok _ |- _ => assert (C : continues h q) by grown; destruct C as (u & W); by exists u end.
Qed.

Section Properties.
Context (ws : pystr) (g cap : Z) (c : WAWManagedCommand) (host : HostFacts) (geo : PtyGeometry)
  (b : WorkspaceStopOperation) (e : pyval) (ports : Capabilities) (env : Env Port pyval).

(** C35: whatever the transport, the clock and the authority answer,
    and whatever is called in which order, the supervisor's state, writer and
    reservation are consistent (one writer, the reserved lease if there is one),
    and every operation moves them along the edges of the lifecycle machine. *)
Theorem supervisor_lifecycle (cfg : Config) (s : Supervisor) (ops : list operation) :
  new_supervisor ws g c host geo b cap e ports = Ok (cfg, s) ->
  let w := run_all cfg env ops (mkWorld s []) in
  consistent (view (object w))
  /\ forall o w1 r, run cfg env o w = (w1, r) -> rtc edge (view (object w)) (view (object w1)).
Proof.
  intros H w. destruct (new_supervisor_fresh _ _ _ _ _ _ _ _ _ _ _ H) as (Hv & _ & _).
  assert (C0 : consistent (view s)) by (rewrite Hv; apply fresh_consistent).
  assert (C : consistent (view (object w))) by (eapply edges_consistent; [by apply (run_all_lawful cfg env ops (mkWorld s [])) | done]).
  split; [done |]. intros o w1 r E. by apply (wp_elim _ _ _ _ _ (run_lawful cfg env o w C) E).
Qed.

(** C36: every call that writes to the PTY or resizes it comes
    directly after a clock reading and the authority's confirmation of a lease
    that is for this binding and epoch and not expired, with input within its
    bounds.  [write_input] and [resize] reach the PTY only for the attached writer
    and in a state other than [INPUT_UNCERTAIN], and a write that reached the PTY and
    raised leaves this state. *)
Theorem pty_calls_authorised (cfg : Config) (s : Supervisor) (ops : list operation) :
  new_supervisor ws g c host geo b cap e ports = Ok (cfg, s) ->
  let w := run_all cfg env ops (mkWorld s []) in
  (forall pre d post, log w = pre ++ d :: post -> touches d = true ->
     within_bounds d /\ exists l before ext, pre = before ++ ext /\ checked cfg l ext)
  /\ (forall l data w1 r ext d, run cfg env (WriteInput l data) w = (w1, r) -> log w1 = log w ++ ext -> d ∈ ext -> touches d = true ->
       attachment (object w) = Some l /\ state (object w) <> INPUT_UNCERTAIN
       /\ forall x, r = Raise x -> exc_isa (exn_class x) PyException = true -> state (object w1) = INPUT_UNCERTAIN)
  /\ forall l geometry w1 r ext d, run cfg env (Resize l geometry) w = (w1, r) -> log w1 = log w ++ ext -> d ∈ ext -> touches d = true ->
     attachment (object w) = Some l /\ state (object w) <> INPUT_UNCERTAIN.
Proof.
  intros _ w. split; [| split].
  - apply (run_all_preserves cfg env (fun w => authorised cfg (log w))); [| | apply authorised_nil].
    + intros w0 q ext H _ _ F. apply authorised_app; [done | by apply quiet_touches].
    + apply authorised_simple.
  - intros l data w1 r ext d E El Hd Ht. apply and_assoc. split.
    + destruct (decide (attachment (object w) = Some l /\ state (object w) <> INPUT_UNCERTAIN)) as [? | Hn]; [done |].
      exfalso. apply (wp_elim _ _ _ _ _ (write_refused cfg env l data w Hn) E ext d El Hd Ht).
    + intros x Hx. by apply (wp_elim _ _ _ _ _ (write_uncertain cfg env l data w) E ext d x El Hd Ht).
  - intros l geometry w1 r ext d E El Hd Ht. destruct (decide (attachment (object w) = Some l /\ state (object w) <> INPUT_UNCERTAIN)) as [? | Hn]; [done |].
    exfalso. apply (wp_elim _ _ _ _ _ (run_resize_refused cfg env l geometry w Hn) E ext d El Hd Ht).
Qed.

(** After an operation that stopped the generation, whatever is
    called and whatever the environment does, the process is never started or
    resumed, no PTY is opened, captured, resized or written to, there is no
    writer, and no output is accepted or replayed. *)
Theorem stopped_forever (cfg : Config) (w w1 : World Port Supervisor) (o : operation) (ops : list operation) :
  stops o = true -> run cfg env o w = (w1, Ok tt) ->
  state (object w1) = STOPPED
  /\ let w2 := run_all cfg env ops w1 in
     (exists ext, log w2 = log w1 ++ ext /\ Forall (fun d => revives d = false) ext)
     /\ attachment (object w2) = None /\ source (object w2) = None /\ frames (ring (object w2)) = []
     /\ state (object w2) ∈ [STOPPING; STOPPED; RECONCILIATION_REQUIRED; BROKEN].
Proof.
  intros Ho E. destruct (wp_elim _ _ _ _ _ (run_stop_finishes cfg env o w Ho) E eq_refl) as [F Hs]. split; [done |].
  assert (D : dead (log w1) (run_all cfg env ops w1)).
  { apply run_all_preserves; [apply dead_calm | apply dead_simple |]. split; [done |]. exists []. by rewrite app_nil_r. }
  destruct D as [[Hf Hw Hr Hout] L]. done.
Qed.

(** An output cursor denotes the same byte forever.  After any
    operations the ring is a window on a stream; whatever happens later
    (detaching, reattaching, redraws, clearing) the stream is only extended, and
    a replay from a cursor the stream had reached answers with frames that
    continue that stream from the cursor, or with the gap of what was dropped. *)
Theorem output_cursors_stable (cfg : Config) (s : Supervisor) (ops later : list operation) :
  new_supervisor ws g c host geo b cap e ports = Ok (cfg, s) ->
  exists h, let w := run_all cfg env ops (mkWorld s []) in ring_window (ring (object w)) h
  /\ exists t, let w2 := run_all cfg env later w in ring_window (ring (object w2)) (h ++ t)
  /\ forall after g1 e1 l w3 answer, 0 <= after <= blen h -> replay_output cfg env (PInt after) g1 e1 l w2 = (w3, Ok answer) ->
     exists u, let now := h ++ t ++ u in
     ring_window (ring (object w3)) now /\
     match answer with
     | Gap next first_ last_ => next = blen now /\ first_ = after + 1 /\ after < last_ <= blen now
     | Frames fs next => next = blen now /\ exists base, 0 <= base <= after /\ chained base fs
                         /\ slice_from (after - base) (frames_bytes fs) = slice_from after now
     end.
Proof.
  intros H. destruct (new_supervisor_fresh _ _ _ _ _ _ _ _ _ _ _ H) as (_ & _ & W0).
  assert (Hc : forall h, calm (fun w => continues h (ring (object w)))) by (intros h w q ext Hw G _ _; grown).
  destruct (run_all_preserves cfg env _ (Hc []) (continues_simple cfg env []) ops (mkWorld s [])) as (h & W); [by exists [] |].
  exists h. split; [exact W |].
  destruct (run_all_preserves cfg env _ (Hc h) (continues_simple cfg env h) later (run_all cfg env ops (mkWorld s []))) as (t & W2);
    [exists []; by rewrite app_nil_r |].
  exists t. split; [exact W2 |]. intros after g1 e1 l w3 answer Ha E.
  destruct (wp_elim _ _ _ _ _ (replay_rule cfg env (PInt after) g1 e1 l (h ++ t) (run_all cfg env later _)
              ltac:(exists []; by rewrite app_nil_r)) E answer eq_refl) as (u & W3 & Er).
  exists u. cbn zeta. rewrite <- app_assoc in W3. split; [done |]. pose proof (blen_nonneg t). pose proof (blen_nonneg u).
  assert (Hl : blen (h ++ t ++ u) = blen h + blen t + blen u) by (rewrite !blen_app; lia).
  destruct (replay_window _ _ after W3 ltac:(lia)) as [(Hd & Eq) | (Hd & fs & base & Eq & Hb & Hch & _ & Hs & _)];
    rewrite Eq in Er; injection Er as <-.
  - pose proof (rw_dropped _ _ W3). repeat split; lia.
  - split; [done |]. by exists base.
Qed.

End Properties.

(** ** Samples and witnesses *)

Definition or_default {A} (d : A) (r : result A) : A := match r with Ok a => a | Raise _ => d end.

Definition sample_id (prefix : string) : pystr := $prefix ++ repeat 97 32.
Definition sample_ws : pystr := or_default [] (WawDomain.workspace_id (PStr (sample_id "prj_")) (PStr $"claude")).
Definition sample_digest : pystr := repeat 97 64.
Definition sample_binding : WorkspaceStopOperation :=
  mkStop sample_ws (sample_id "prj_") CLAUDE 1 1 sample_digest (sample_id "wri_") 1 (sample_id "wso_") S_PENDING.
Definition sample_marker : pystr :=
  or_default [] (managed_marker (PStr (sample_id "wri_")) (PInt 1) (PStr (sample_id "prj_")) (PStr $"claude") (PStr sample_ws) (PInt 1) (PInt 1)
                   (PStr sample_digest)).
Definition sample_executable : ExecutableIdentity := mkExecutable [$"/"; $"usr"; $"bin"; $"claude"] 1 2 33261 4096 5.
Definition sample_command : WAWManagedCommand :=
  mkCommand CLAUDE sample_ws (sample_id "prj_") sample_executable [$"remote-control"] sample_marker.
Definition sample_host : HostFacts := mkFacts (Ok (mkCwd true true false 1000 1000 16832)) (Ok sample_executable).
Definition sample_caps : Capabilities := mkCaps true true true true true true true true true true true (PStr sample_digest).
Definition sample_geometry : PtyGeometry := mkGeometry 80 24.
Definition sample_new : result (Config * Supervisor) :=
  new_supervisor sample_ws 1 sample_command sample_host sample_geometry sample_binding 1024 (PStr $"7") sample_caps.
Definition sample_pair : Config * Supervisor :=
  or_default (mkConfig [] 0 sample_command sample_binding [] sample_caps,
              mkSupervisor BROKEN None None None None None 0 (mkRing 0 [] 0 0 0 0) sample_geometry ∅) sample_new.
Definition sample_cfg : Config := fst sample_pair.
Definition sample_supervisor : Supervisor := snd sample_pair.

Definition sample_claims : AttachmentTuple :=
  mkClaims sample_ws (sample_id "prj_") CLAUDE (sample_id "att_") 1 1 1 1 (sample_id "wri_") 1 1 sample_digest $"writer".
Definition sample_lease : RuntimeAttachmentLease := mkRuntimeLease 9 sample_claims $"7" 60000.
Definition sample_evidence : RuntimeStartEvidence := mkStartEvidence sample_ws (PInt 1) sample_marker RUNNING true.

(** A transport that works and pushes output when it is asked to produce some;
    [writes] and [closes] say whether a write or a cleanup succeeds. *)
Definition sample_env (writes closes : bool) : Env Port pyval := mkEnv
  (fun _ R e =>
     match e in Port R return result R with
     | Clock => Ok (Some 5)
     | Current _ => Ok true
     | Shutdown _ => Ok true
     | Host => Ok sample_host
     | T_start _ _ => Ok sample_evidence
     | T_bind_output_sink _ => Ok tt
     | T_validate_resume _ => Ok tt
     | T_resume _ => Ok (Some sample_evidence)
     | T_reconcile => Ok sample_evidence
     | T_open_attachment _ _ => Ok (Some sample_evidence)
     | T_close_attachment l => if closes then Ok (Some (mkCleanup l true (PInt 0))) else Ok None
     | T_probe => Ok (Some (mkProbe sample_ws (PInt 1) sample_marker P_RUNNING PNone))
     | T_detach => Ok true
     | T_write _ => if writes then Ok tt else Raise (err PyOSError "write")
     | T_resize _ => Ok tt
     | T_produce_output => Ok (PInt 5)
     | T_capture_redraw _ => Ok (Some (mkRedraw (bstr "screen") false))
     | T_stop => Ok (mkStopEvidence sample_ws (PInt 1) sample_marker true (PInt 0))
     end)
  (fun _ R e => match e with T_produce_output => [PBytes (bstr "hello")] | _ => [] end).

Definition sample_ops : list operation :=
  [Start; Reserve sample_lease; Commit sample_lease; WriteInput (RuntimeLease sample_lease) (PBytes (bstr "ls")); ProduceOutput;
   PublishRedraw sample_lease].
Definition sample_world : World Port Supervisor := run_all sample_cfg (sample_env true true) sample_ops (mkWorld sample_supervisor []).

Example sample_run :
  view (object sample_world) = mkView RUNNING (Some (RuntimeLease sample_lease)) (Some sample_lease)
  /\ next_cursor (ring (object sample_world)) = 12 /\ length (log sample_world) = 28%nat.
Proof. vm_compute. done. Qed.

(** An uncertain write pauses input, but a cleanup without proof replaces the
    state that pauses it while the writer stays attached: the next input reaches
    the PTY. *)
Definition count_writes (lg : list (call Port)) : nat :=
  length (filter (fun d => match request d with T_write _ => true | _ => false end = true) lg).

Example uncertain_input_resumes :
  let env := sample_env false false in
  let write := WriteInput (RuntimeLease sample_lease) (PBytes (bstr "ls")) in
  let uncertain := run_all sample_cfg env [Start; Reserve sample_lease; Commit sample_lease; write; write] (mkWorld sample_supervisor []) in
  let after := run_all sample_cfg env [Cleanup sample_lease; write] uncertain in
  state (object uncertain) = INPUT_UNCERTAIN /\ count_writes (log uncertain) = 1%nat
  /\ attachment (object after) = Some (RuntimeLease sample_lease) /\ count_writes (log after) = 2%nat.
Proof. vm_compute. done. Qed.

Lemma sample_new_ok : new_supervisor sample_ws 1 sample_command sample_host sample_geometry sample_binding 1024 (PStr $"7") sample_caps
  = Ok (sample_cfg, sample_supervisor).
Proof. vm_compute. reflexivity. Qed.

Lemma supervisor_lifecycle_witness : consistent (view (object sample_world)).
Proof.
  apply (supervisor_lifecycle sample_ws 1 1024 sample_command sample_host sample_geometry sample_binding (PStr $"7") sample_caps
           (sample_env true true) sample_cfg sample_supervisor sample_ops sample_new_ok).
Defined.

Lemma pty_calls_authorised_witness : authorised sample_cfg (log sample_world).
Proof.
  exact (proj1 (pty_calls_authorised sample_ws 1 1024 sample_command sample_host sample_geometry sample_binding (PStr $"7") sample_caps
           (sample_env true true) sample_cfg sample_supervisor sample_ops sample_new_ok)).
Defined.

Lemma stopped_forever_witness :
  let w1 := fst (run sample_cfg (sample_env true true) (ExactStop sample_binding) sample_world) in
  attachment (object (run_all sample_cfg (sample_env true true) sample_ops w1)) = None.
Proof.
  apply (stopped_forever (sample_env true true) sample_cfg sample_world
           (fst (run sample_cfg (sample_env true true) (ExactStop sample_binding) sample_world)) (ExactStop sample_binding) sample_ops);
    [reflexivity | vm_compute; reflexivity].
Defined.

Lemma output_cursors_stable_witness :
  exists h, ring_window (ring (object sample_world)) h.
Proof.
  destruct (output_cursors_stable sample_ws 1 1024 sample_command sample_host sample_geometry sample_binding (PStr $"7") sample_caps
           (sample_env true true) sample_cfg sample_supervisor sample_ops [] sample_new_ok) as (h & W & _).
  by exists h.
Defined.
