(* ===== verification/Bridge.v ===== *)
(** * The stream bridge ([agentbox_runtime/waw_stream_bridge.py])

    [WAWStreamBridge] applies decoded frames of one attachment to a supervisor
    and encodes the replies.  It composes [Supervisor.v], [Stream.v] and
    [Abws.v]: its computations act on the pair of the bridge and the world of its
    supervisor, and make no other calls. *)

From S2P Require Import Prelude PyVal Json Abws Stream WawDomain Pty Tickets Interact Supervisor SupervisorSpec.

Local Open Scope Z_scope.

Inductive WAWStreamState : Type := B_DETACHED | B_ATTACHED | B_CLOSED | B_ERROR.

#[export] Instance stream_state_eq_dec : EqDecision WAWStreamState.
Proof. solve_decision. Defined.

Record WAWStreamBridge : Type := mkBridge {
  b_object : Z;
  b_attachment : ActiveAttachment;
  bound_generation : Z;
  bound_runtime_epoch : pystr;
  b_state : WAWStreamState;
  next_sequence : Z
}.

Definition new_bridge (o : Z) (a : ActiveAttachment) : result WAWStreamBridge :=
  match a_context a with
  | None => Raise (op_error "WAW_ATTACHMENT_CONTEXT_REQUIRED" "Stream bridge requires an attachment Runtime identity" "validation")
  | Some c => Ok (mkBridge o a (t_generation (a_claims a)) (runtime_epoch c) B_DETACHED 1)
  end.

Record WAWStreamSnapshot : Type := mkStreamSnapshot { ss_state : WAWStreamState; ss_next_sequence : Z; ss_output_cursor : Z }.

(** ** The monad *)

Inductive NoPort : Type -> Type := .

Definition Pair : Type := WAWStreamBridge * World Port Supervisor.
Definition BAct (A : Type) : Type := M NoPort Pair A.

(** A method of the supervisor *)
Definition on_supervisor {A} (m : Act A) : BAct A := update (fun '(b, w) => let '(w1, r) := m w in ((b, w1), r)).

Definition lease_of (b : WAWStreamBridge) : AttachmentLease := ApiLease (b_object b) (b_attachment b).
Definition set_bstate (x : WAWStreamState) : BAct unit :=
  modify (fun '(b, w) => (mkBridge (b_object b) (b_attachment b) (bound_generation b) (bound_runtime_epoch b) x (next_sequence b), w)).

Section Methods.
Context (cfg : Config) (env : Env Port pyval).

(** [_ensure] *)
Definition ensure (states : list WAWStreamState) : BAct unit :=
  let* p := get in
  raise_when (negb (bool_decide (b_state (fst p) ∈ states)))
    (op_error "WAW_STREAM_STATE" "stream operation is invalid in the current state" "conflict").

(** [_take_sequence] *)
Definition take_sequence : BAct Z :=
  update (fun '(b, w) => ((mkBridge (b_object b) (b_attachment b) (bound_generation b) (bound_runtime_epoch b) (b_state b) (next_sequence b + 1), w),
                          Ok (next_sequence b))).

Definition emit (k : FrameType) (v : pyval) : BAct bytes :=
  let* n := take_sequence in
  lift (encode_frame (PInt (frame_code k)) v (PInt n)).

(** [_reply] *)
Definition reply (k : FrameType) (fields : list (string * pyval)) : BAct bytes :=
  emit k (PDict (($"protocol_version", PInt 1) :: map (fun '(n, v) => (ustr n, v)) fields)).

Fixpoint emit_frames (fs : list OutputFrame) : BAct (list bytes) :=
  match fs with
  | [] => ret []
  | f :: r => let* x := emit OUTPUT (PBytes (Pty.payload f)) in let* rest := emit_frames r in ret (x :: rest)
  end.

Definition snapshot_ : BAct WAWStreamSnapshot :=
  let* v := on_supervisor (snapshot cfg) in
  let* p := get in
  ret (mkStreamSnapshot (b_state (fst p)) (next_sequence (fst p)) (sn_next_cursor v)).

Definition attach_ : BAct WAWStreamSnapshot :=
  do* ensure [B_DETACHED] in
  let* p := get in
  do* on_supervisor (attach cfg env (lease_of (fst p))) in
  do* set_bstate B_ATTACHED in
  snapshot_.

(** The replay of both [handle] and [output] *)
Definition bridge_replay (after : pyval) : BAct OutputReplay :=
  let* p := get in
  on_supervisor (replay_output cfg env after (PInt (bound_generation (fst p))) (PStr (bound_runtime_epoch (fst p))) (Some (lease_of (fst p)))).

Definition gap_reply (next first_ last_ : Z) : BAct (list bytes) :=
  let* x := reply GAP [("start_cursor"%string, PInt first_); ("end_cursor"%string, PInt last_); ("next_cursor"%string, PInt next)] in
  ret [x].

Definition dispatch (f : ABWSFrame) : BAct (list bytes) :=
  let* p := get in
  let lease := lease_of (fst p) in
  match frame_type f with
  | INPUT =>
      do* ensure [B_ATTACHED] in
      do* on_supervisor (write_input cfg env lease (PBytes (Abws.payload f))) in
      let* x := reply ACK [("ack"%string, PStr $"INPUT")] in ret [x]
  | RESIZE =>
      do* ensure [B_ATTACHED] in
      let* g := lift (decode_resize f) in
      let* geo := lift (new_geometry (PInt (Stream.columns g)) (PInt (Stream.rows g))) in
      do* on_supervisor (resize cfg env lease geo) in
      let* x := reply RESIZE_ACK [("columns"%string, PInt (Stream.columns g)); ("rows"%string, PInt (Stream.rows g))] in ret [x]
  | STATE =>
      do* ensure [B_ATTACHED] in
      let* r := lift (decode_replay f) in
      let* answer := bridge_replay (PInt (after_cursor r)) in
      match answer with
      | Gap next first_ last_ => gap_reply next first_ last_
      | Frames fs next =>
          let* replies := emit_frames fs in
          match replies with
          | [] => let* x := reply STATE [("next_cursor"%string, PInt next)] in ret [x]
          | _ => ret replies
          end
      end
  | DETACH =>
      do* ensure [B_ATTACHED] in
      do* lift (validate_empty_control f DETACH "DETACH") in
      do* on_supervisor (detach cfg env lease) in
      do* set_bstate B_DETACHED in
      let* x := reply DETACH_ACK [] in ret [x]
  | CLOSE =>
      do* lift (validate_empty_control f CLOSE "CLOSE") in
      do* (if bool_decide (b_state (fst p) = B_ATTACHED) then let* _x := on_supervisor (detach cfg env lease) in ret tt else ret tt) in
      do* set_bstate B_CLOSED in
      let* x := reply CLOSE [] in ret [x]
  | _ => raise (stream_error "frame type is not permitted by WAW stream bridge")
  end.

Definition handle (f : ABWSFrame) : BAct (list bytes) :=
  do* ensure [B_ATTACHED; B_DETACHED] in
  try_except (dispatch f) [ABWSError; RuntimeOperationError; PyValueError] (fun x => do* set_bstate B_ERROR in raise x).

Definition output (after : pyval) : BAct (list bytes) :=
  do* ensure [B_ATTACHED] in
  let* answer := bridge_replay after in
  match answer with
  | Gap next first_ last_ => gap_reply next first_ last_
  | Frames fs _ => emit_frames fs
  end.

End Methods.

(** ** Every reply can be encoded *)

Lemma plain_no_surrogate (s : pystr) : plain_text s = true -> existsb is_surrogate s = false.
Proof.
  intros H. destruct (existsb is_surrogate s) eqn:E; [exfalso | done]. apply existsb_exists in E as (c & Hc & Hs).
  unfold plain_text in H. rewrite forallb_forall in H. apply H in Hc. unfold plain_char, is_surrogate, in_range in *. lia.
Qed.

Lemma flat_value_valid (v : pyval) (k : pystr) (kc : Z) : flat_member (k, v) = true -> validate_json_value v 1 kc = Ok kc.
Proof.
  unfold flat_member. cbn [fst snd]. intros H. bool_to_prop. destruct v as [| | | | s | | |]; try done. cbn beta iota in *. bool_to_prop.
  cbn [validate_json_value]. by rewrite plain_no_surrogate.
Qed.

Lemma flat_validate (d : pydict) : forall kc, 0 <= kc -> forallb flat_member d = true -> kc + blen d <= MAX_JSON_KEYS ->
  validate_members (fun item kc => validate_json_value item (0 + 1) kc) 0 d kc = Ok (kc + blen d).
Proof.
  induction d as [|[k v] d IH]; intros kc Hk H Hl; [cbn; f_equal; unfold blen; cbn; lia |].
  cbn [forallb] in H. apply andb_true_iff in H as [H1 H2]. assert (blen ((k, v) :: d) = 1 + blen d) as El by (unfold blen; cbn [length]; lia).
  pose proof (blen_nonneg d). cbn [validate_members fst snd]. replace (MAX_JSON_KEYS <? kc + 1) with false by lia. cbn [raise_if rbind].
  change (MAX_JSON_DEPTH <? 0 + 1) with false. cbn [raise_if rbind]. rewrite plain_no_surrogate.
  2: { unfold flat_member in H1. by bool_to_prop. }
  cbn [raise_if rbind]. rewrite (flat_value_valid v k) by done. cbn [rbind].
  change ((fix go (d0 : list (pystr * pyval)) (key_count : Z) {struct d0} : result Z := _) d (kc + 1))
    with (validate_members (fun item kc => validate_json_value item (0 + 1) kc) 0 d (kc + 1)).
  rewrite IH by (try done; lia). f_equal. lia.
Qed.

Lemma encode_json_flat (d : pydict) :
  forallb flat_member d = true -> protocol_version_1 d = true -> blen d <= 8 -> exists b, encode_json (PDict d) = Ok b /\ blen b <= MAX_JSON_PAYLOAD.
Proof.
  intros Hf Hp Hl. destruct (flat_dumps d Hf) as (t & Et & Ha & Htl). destruct (ascii_utf8 t Ha) as (b & Eb & Hb).
  exists b. unfold encode_json. rewrite Hp. cbn [negb raise_if rbind].
  change (validate_json_value (PDict d) 0 0) with (validate_members (fun item kc => validate_json_value item (0 + 1) kc) 0 d 0).
  rewrite flat_validate by (try done; unfold MAX_JSON_KEYS; lia). cbn [rbind]. rewrite Et. cbn [rbind]. unfold py_encode. rewrite Eb.
  cbn [except_as rbind]. unfold MAX_JSON_PAYLOAD in *. replace (4096 <? blen b) with false by lia. split; [done | lia].
Qed.

(** A control frame of flat fields, and an output frame of legal size, can be
    encoded at every sequence number. *)
Lemma encode_flat (k : FrameType) (d : pydict) (n : Z) :
  is_json_type k = true -> forallb flat_member d = true -> protocol_version_1 d = true -> blen d <= 8 -> 1 <= n <= MAX_U64 ->
  exists raw, encode_frame (PInt (frame_code k)) (PDict d) (PInt n) = Ok raw.
Proof.
  intros Hk Hf Hp Hl Hn. destruct (encode_json_flat d Hf Hp Hl) as (b & Eb & Hb). unfold encode_frame. cbn [coerce_type].
  rewrite frame_of_code_code. cbn [rbind]. replace ((n <? 1) || (MAX_U64 <? n)) with false by lia. cbn [raise_if rbind]. rewrite Hk, Eb.
  cbn [rbind]. unfold MAX_JSON_PAYLOAD, MAX_PAYLOAD in *. replace (65512 <? blen b) with false by lia. cbn [raise_if rbind]. by eexists.
Qed.

Lemma encode_output (p : bytes) (n : Z) : payload_fits p -> 1 <= n <= MAX_U64 ->
  exists raw, encode_frame (PInt (frame_code OUTPUT)) (PBytes p) (PInt n) = Ok raw.
Proof.
  unfold payload_fits, MAX_OUTPUT_FRAME_BYTES. intros Hp Hn. unfold encode_frame. cbn [coerce_type]. rewrite frame_of_code_code. cbn [rbind].
  replace ((n <? 1) || (MAX_U64 <? n)) with false by lia. change (is_json_type OUTPUT) with false. cbn [raise_if rbind py_bytes].
  unfold MAX_WAW_PAYLOAD, MAX_PAYLOAD. replace (49212 <? blen p) with false by lia. cbn [raise_if rbind].
  replace (65512 <? blen p) with false by lia. cbn [raise_if rbind]. eexists. reflexivity.
Qed.

(** What a replay of a window answers fits into the replies. *)
Definition answer_fits (a : OutputReplay) : Prop :=
  match a with
  | Frames fs next => Forall (fun f => payload_fits (Pty.payload f)) fs /\ 0 <= next <= MAX_OUTPUT_CURSOR
  | Gap next first_ last_ => 0 <= next <= MAX_OUTPUT_CURSOR /\ 0 <= first_ <= MAX_OUTPUT_CURSOR + 1 /\ 0 <= last_ <= MAX_OUTPUT_CURSOR
  end.

Lemma chained_fits (prev : Z) (fs : list OutputFrame) : chained prev fs -> Forall (fun f => payload_fits (Pty.payload f)) fs.
Proof. revert prev. induction fs as [|f fs IH]; intros prev H; [constructor |]. destruct H as (_ & _ & Hp & H). constructor; [done | by eapply IH]. Qed.

Lemma replay_fits (q : OutputRing) (h : bytes) (after : pyval) (a : OutputReplay) :
  ring_window q h -> replay q after = Ok a -> answer_fits a.
Proof.
  intros [Hc Hn Hlen Hd Hs Hch _ _ _ _] H. unfold replay in H. destruct after as [| | z | | | | |]; try discriminate. inv_ok. bool_to_prop.
  pose proof (blen_nonneg h).
  destruct (z <? dropped_until q) eqn:E1; [inv_ok; cbn; bool_to_prop; lia |].
  pose proof (chained_fits _ _ Hch) as Hf. destruct (frames q) as [|f r] eqn:E2; [inv_ok; cbn; split; [constructor | lia] |].
  destruct Hch as (Hst & _). destruct (z <? start_cursor f - 1) eqn:E3; inv_ok; unfold answer_fits; bool_to_prop; [lia |].
  split; [| lia]. rewrite Forall_forall in Hf |- *. intros x [_ Hx]%list_elem_of_filter. by apply Hf.
Qed.

(** ** Sessions *)

(** What happens around one bridge: its own methods, and any operation of others
    on the same supervisor. *)
Inductive bridge_op : Type :=
| BAttach
| BHandle (f : ABWSFrame)
| BOutput (after : pyval)
| BOther (o : operation).

Section Sessions.
Context (cfg : Config) (env : Env Port pyval).

Definition run_bridge (o : bridge_op) : BAct (list bytes) :=
  match o with
  | BAttach => do* attach_ cfg env in ret []
  | BHandle f => handle cfg env f
  | BOutput after => output cfg env after
  | BOther o => do* on_supervisor (run cfg env o) in ret []
  end.

(** The world after a sequence of operations, and every frame they returned *)
Fixpoint bridge_session (ops : list bridge_op) (p : World NoPort Pair) : World NoPort Pair * list bytes :=
  match ops with
  | [] => (p, [])
  | o :: rest =>
      let '(p1, r) := run_bridge o p in
      let '(p2, out) := bridge_session rest p1 in
      (p2, match r with Ok frames => frames ++ out | Raise _ => out end)
  end.

End Sessions.

(** ** Numbering *)

(** [m] leaves the stream behind the supervisor's ring a continuation of [h]. *)
Definition keeps_window (h : bytes) {A} (m : Act A) : Prop := preserves (fun w => continues h (ring (object w))) m.

Lemma unforget {A} (P : World Port Supervisor -> Prop) (m : Act A) : preserves P (forget m) -> preserves P m.
Proof. intros H w Hw. specialize (H w Hw). unfold forget, bind, wp in *. by destruct (m w) as [w1 [a | e]]. Qed.

Section Numbering.
Context (cfg : Config) (env : Env Port pyval) (h : bytes).

(** The stream continues [h] and [n] frames were returned: the next number is
    [n + 1], or the numbers are exhausted. *)
Record live (n : Z) (p : Pair) : Prop := mkLive {
  li_window : continues h (ring (object (snd p)));
  li_range : 0 <= n <= MAX_U64;
  li_next : next_sequence (fst p) = n + 1 \/ MAX_U64 < next_sequence (fst p)
}.

(** The outcome of a computation that returns the frames after the first [n] *)
Definition returns (n : Z) (w : World NoPort Pair) (r : result (list bytes)) : Prop :=
  match r with
  | Ok out => map frame_sequence out = numbered (n + 1) (length out) /\ live (n + blen out) (object w)
  | Raise _ => live n (object w)
  end.

Lemma run_keeps_window (o : operation) : keeps_window h (run cfg env o).
Proof.
  apply preserves_run; [intros w q ext H G _ _; by eapply continues_grows | apply continues_simple].
Qed.

Lemma wp_on_supervisor {A} (m : Act A) (Q : World NoPort Pair -> result A -> Prop) (w : World NoPort Pair) (n : Z) :
  keeps_window h m -> live n (object w) ->
  (forall w1 r, live n (object w1) -> fst (object w1) = fst (object w) -> m (snd (object w)) = (snd (object w1), r) -> Q w1 r) ->
  wp (on_supervisor m) Q w.
Proof.
  intros Hm [L1 L2 L3] HQ. apply wp_update. intros p r E. destruct w as [[b u] lg]. cbn [object] in *. specialize (Hm u L1). unfold wp in Hm.
  destruct (m u) as [u1 r1] eqn:Em. injection E as <- <-. apply HQ; [by split | done | done].
Qed.

(** The outcome of emitting frames: it fails only when the numbers are exhausted. *)
Definition emits (n : Z) (w : World NoPort Pair) (r : result (list bytes)) : Prop :=
  match r with
  | Ok out => map frame_sequence out = numbered (n + 1) (length out) /\ live (n + blen out) (object w)
  | Raise _ => live n (object w) /\ MAX_U64 < next_sequence (fst (object w))
  end.

Lemma emits_returns (n : Z) (w : World NoPort Pair) (r : result (list bytes)) : emits n w r -> returns n w r.
Proof. destruct r; [done | by intros []]. Qed.

Lemma wp_emit (k : FrameType) (v : pyval) (Q : World NoPort Pair -> result bytes -> Prop) (w : World NoPort Pair) (n : Z) :
  live n (object w) -> (forall m, 1 <= m <= MAX_U64 -> exists raw, encode_frame (PInt (frame_code k)) v (PInt m) = Ok raw) ->
  (forall raw w1, live (n + 1) (object w1) -> frame_sequence raw = n + 1 -> encode_frame (PInt (frame_code k)) v (PInt (n + 1)) = Ok raw -> Q w1 (Ok raw)) ->
  (forall e w1, live n (object w1) -> MAX_U64 < next_sequence (fst (object w1)) -> Q w1 (Raise e)) -> wp (emit k v) Q w.
Proof.
  intros [L1 L2 L3] Hk H1 H2. unfold emit. apply wp_bind, wp_update. intros p r E. destruct w as [[b u] lg]. cbn [object fst snd] in *.
  injection E as <- <-. apply wp_lift. destruct (encode_frame _ v (PInt (next_sequence b))) as [raw | e] eqn:Ee.
  - destruct (encode_frame_sequence _ _ _ _ Ee) as [Hs Hr]. destruct L3 as [L3 | L3]; [| lia]. rewrite L3 in *.
    apply H1; [| done | done]. split; cbn; [done | lia | left; lia].
  - assert (MAX_U64 < next_sequence b + 1) as Hx; [| apply H2; [split; cbn; [done | lia | by right] | done]].
    destruct L3 as [L3 | L3]; [| lia]. destruct (decide (n + 1 <= MAX_U64)) as [Hm | Hm]; [| lia].
    destruct (Hk (n + 1) ltac:(lia)) as (raw & Hraw). rewrite L3 in Ee. congruence.
Qed.

Lemma wp_reply (k : FrameType) (fields : list (string * pyval)) (w : World NoPort Pair) (n : Z) :
  live n (object w) -> is_json_type k = true -> forallb flat_member (map (fun '(n, v) => (ustr n, v)) fields) = true -> blen fields <= 7 ->
  wp (let* x := reply k fields in ret [x]) (returns n) w.
Proof.
  intros L Hk Hf Hl. apply wp_bind. eapply wp_emit; [exact L | | |].
  - intros m Hm. apply encode_flat; [done | | reflexivity | | done].
    + cbn [forallb]. rewrite Hf. reflexivity.
    + unfold blen in *. cbn [length]. rewrite length_map. lia.
  - intros raw w1 L1 Hs _. apply wp_ret. unfold returns. cbn [map length]. rewrite Hs. split; [| done].
    unfold numbered. cbn [seq map]. f_equal. lia.
  - intros e w1 L1 _. exact L1.
Qed.

Lemma numbered_cons (s : Z) (n : nat) : numbered s (S n) = s :: numbered (s + 1) n.
Proof.
  unfold numbered. cbn [seq map]. f_equal; [lia |]. rewrite <- seq_shift, map_map. apply map_ext. intros k. lia.
Qed.

Lemma wp_emit_frames (fs : list OutputFrame) : forall (w : World NoPort Pair) (n : Z),
  live n (object w) -> Forall (fun f => payload_fits (Pty.payload f)) fs -> wp (emit_frames fs) (emits n) w.
Proof.
  induction fs as [|f fs IH]; intros w n L Hf; cbn [emit_frames].
  { apply wp_ret. split; [done |]. change (blen []) with 0. by rewrite Z.add_0_r. }
  apply Forall_cons in Hf as [Hf Hfs]. apply wp_bind. eapply wp_emit; [exact L | intros m Hm; by apply encode_output | |].
  - intros raw w1 L1 Hs _. apply wp_bind. eapply wp_mono; [by apply (IH w1 (n + 1) L1 Hfs) |].
    intros w2 [out | e] [HR1 HR2].
    + apply wp_ret. unfold emits. cbn [map length]. rewrite numbered_cons, Hs, HR1. split; [done |].
      replace (n + blen (raw :: out)) with (n + 1 + blen out) by (unfold blen; cbn [length]; lia). done.
    + destruct L as [_ L2 _], HR1 as [R1 _ _]. split; [| done]. split; [done | lia | by right].
  - intros e w1 L1 H1. by split.
Qed.

Lemma wp_ensure (states : list WAWStreamState) (Q : World NoPort Pair -> result unit -> Prop) (w : World NoPort Pair) :
  (forall e, Q w (Raise e)) -> Q w (Ok tt) -> wp (ensure states) Q w.
Proof. intros H1 H2. unfold ensure. apply wp_bind, wp_get. by apply wp_raise_when. Qed.

Lemma wp_set_bstate (x : WAWStreamState) (Q : World NoPort Pair -> result unit -> Prop) (w : World NoPort Pair) (n : Z) :
  live n (object w) -> (forall w1, live n (object w1) -> Q w1 (Ok tt)) -> wp (set_bstate x) Q w.
Proof. intros [L1 L2 L3] H. destruct w as [[b u] lg]. apply wp_modify, H. by split. Qed.

Lemma wp_bridge_replay (after : pyval) (Q : World NoPort Pair -> result OutputReplay -> Prop) (w : World NoPort Pair) (n : Z) :
  live n (object w) -> (forall w1 e, live n (object w1) -> Q w1 (Raise e)) ->
  (forall w1 answer u, live n (object w1) -> ring_window (ring (object (snd (object w1)))) (h ++ u) ->
     replay (ring (object (snd (object w1)))) after = Ok answer -> Q w1 (Ok answer)) ->
  wp (bridge_replay cfg env after) Q w.
Proof.
  intros L H1 H2. unfold bridge_replay. apply wp_bind, wp_get. destruct w as [[b u] lg]. cbn [object fst snd].
  eapply wp_on_supervisor; [apply (unforget _ _ (run_keeps_window (ReplayOutput after _ _ _))) | exact L |].
  intros w1 r L1 _ E. cbn [object snd] in E. destruct r as [answer | e]; [| by apply H1].
  destruct (wp_elim _ _ _ _ _ (replay_rule cfg env after _ _ _ h u ltac:(apply L)) E answer eq_refl) as (t & Wh & Er). by eapply H2.
Qed.

Lemma flat_int (k : string) (z : Z) : plain_text (ustr k) && (blen (ustr k) <=? 40) = true -> 0 <= z <= MAX_U64 -> flat_member (ustr k, PInt z) = true.
Proof. intros Hk Hz. unfold flat_member. cbn [fst snd]. rewrite Hk. unfold in_range. lia. Qed.

Lemma geometry_fits (c r : Z) (g : PtyGeometry) : new_geometry (PInt c) (PInt r) = Ok g -> 0 <= c <= MAX_U64 /\ 0 <= r <= MAX_U64.
Proof.
  unfold new_geometry, in_range, MIN_COLUMNS, MAX_COLUMNS, MIN_ROWS, MAX_ROWS, MAX_U64. intros H. inv_ok. case_match; [| done]. case_match; [| done].
  bool_to_prop. lia.
Qed.

Lemma wp_gap_reply (w : World NoPort Pair) (n next first_ last_ : Z) :
  live n (object w) -> answer_fits (Gap next first_ last_) -> wp (gap_reply next first_ last_) (returns n) w.
Proof.
  intros L (H1 & H2 & H3). unfold MAX_OUTPUT_CURSOR in *. apply wp_reply; [done | done | | vm_compute; discriminate].
  cbn [map forallb]. rewrite !flat_int by (try reflexivity; lia). reflexivity.
Qed.

(** A step on the supervisor, then a reply *)
Ltac step :=
  lazymatch goal with
  | L : live ?n (object ?w) |- wp (let* x := reply _ _ in ret [x]) _ ?w => apply wp_reply; [exact L | reflexivity | try reflexivity | vm_compute; discriminate]
  | |- wp (bind _ _) _ _ => apply wp_bind
  | |- wp get _ _ => apply wp_get; cbn beta iota
  | |- wp (ensure _) _ _ => apply wp_ensure; [by intros | cbn beta iota]
  | |- wp (lift ?r) _ _ => apply wp_lift; let E := fresh "E" in destruct r eqn:E; [cbn beta iota | done]
  | L : live ?n (object ?w) |- wp (set_bstate _) _ ?w => let w1 := fresh "w" in let L1 := fresh "L" in eapply wp_set_bstate; [exact L | intros w1 L1; cbn beta iota]
  end.

Ltac sup o :=
  lazymatch goal with L : live ?n (object ?w) |- wp (on_supervisor _) _ ?w =>
    eapply wp_on_supervisor; [first [apply (run_keeps_window o) | apply (unforget _ _ (run_keeps_window o))] | exact L |];
    let w1 := fresh "w" in let L1 := fresh "L" in intros w1 [? | ?] L1 _ _; cbn beta iota; [| done] end.

Lemma dispatch_returns (f : ABWSFrame) (w : World NoPort Pair) (n : Z) : live n (object w) -> wp (dispatch cfg env f) (returns n) w.
Proof.
  intros L. unfold dispatch. do 2 step. destruct (object w) as [b u] eqn:Eo. rewrite <- Eo in L. cbn [fst].
  destruct (frame_type f); try (by apply wp_raise).
  - do 3 step. sup (WriteInput (lease_of b) (PBytes (Abws.payload f))). step.
  - do 7 step. destruct (geometry_fits _ _ _ E0) as [Hc Hr]. sup (Resize (lease_of b) a0). step. cbn [map forallb].
    by rewrite !flat_int.
  - do 5 step. sup (Detach (lease_of b)). do 3 step.
  - do 3 step. case_bool_decide.
    + step. sup (Detach (lease_of b)). apply wp_ret. do 3 step.
    + apply wp_ret. do 3 step.
  - do 5 step. eapply wp_bridge_replay; [exact L | by intros |]. intros w1 answer t L1 Wh Er. cbn beta iota.
    pose proof (replay_fits _ _ _ _ Wh Er) as Ha. destruct answer as [fs next | next first_ last_]; [| by apply wp_gap_reply].
    destruct Ha as [Hf Hn]. step. eapply wp_mono; [by apply (wp_emit_frames fs w1 n L1 Hf) |]. intros w2 [out | e] He; cbn beta iota.
    + destruct out as [|x out]; [| apply wp_ret; by apply emits_returns].
      destruct He as [_ He]. change (blen []) with 0 in He. rewrite Z.add_0_r in He. step. cbn [map forallb].
      rewrite flat_int; [done | done |]. unfold MAX_OUTPUT_CURSOR in Hn. lia.
    + by apply emits_returns in He.
Qed.

Lemma handle_returns (f : ABWSFrame) (w : World NoPort Pair) (n : Z) : live n (object w) -> wp (handle cfg env f) (returns n) w.
Proof.
  intros L. unfold handle. do 2 step. apply wp_try. eapply wp_mono; [by apply dispatch_returns |]. intros w1 [out | e] H; [done |].
  destruct (existsb _ _); [| done]. cbn in H. step. step. by apply wp_raise.
Qed.

Lemma output_returns (after : pyval) (w : World NoPort Pair) (n : Z) : live n (object w) -> wp (output cfg env after) (returns n) w.
Proof.
  intros L. unfold output. do 3 step. eapply wp_bridge_replay; [exact L | by intros |]. intros w1 answer t L1 Wh Er. cbn beta iota.
  pose proof (replay_fits _ _ _ _ Wh Er) as Ha. destruct answer as [fs next | next first_ last_]; [| by apply wp_gap_reply].
  eapply wp_mono; [apply (wp_emit_frames fs w1 n L1), Ha |]. intros w2 r. apply emits_returns.
Qed.

Lemma returns_none (w : World NoPort Pair) (n : Z) : live n (object w) -> returns n w (Ok []).
Proof. intros L. split; [done |]. change (blen []) with 0. by rewrite Z.add_0_r. Qed.

Lemma run_bridge_returns (o : bridge_op) (w : World NoPort Pair) (n : Z) : live n (object w) -> wp (run_bridge cfg env o) (returns n) w.
Proof.
  intros L. destruct o as [| f | after | o]; cbn [run_bridge]; [| by apply handle_returns | by apply output_returns |].
  - unfold attach_, snapshot_. do 6 step. sup (Attach (lease_of (fst (object w)))). do 3 step.
    eapply wp_on_supervisor; [| exact L1 |]; [| intros w2 [? | ?] L2 _ _; cbn beta iota; [| done]].
    + intros u Hu. unfold snapshot. by repeat (apply wp_bind || apply wp_get || apply wp_ret).
    + do 2 step. apply wp_ret, wp_ret. by apply returns_none.
  - step. sup o. apply wp_ret. by apply returns_none.
Qed.

Lemma numbered_app (s : Z) (a b : nat) : numbered s (a + b) = numbered s a ++ numbered (s + Z.of_nat a) b.
Proof.
  revert s. induction a as [|a IH]; intros s; cbn [Nat.add]; [cbn; by rewrite Z.add_0_r |].
  rewrite !numbered_cons, IH. cbn [app]. do 3 f_equal. lia.
Qed.

Lemma session_returns (ops : list bridge_op) : forall (w w1 : World NoPort Pair) (n : Z) (out : list bytes),
  live n (object w) -> bridge_session cfg env ops w = (w1, out) -> returns n w1 (Ok out).
Proof.
  induction ops as [|o ops IH]; intros w w1 n out L E; cbn [bridge_session] in E; [injection E as <- <-; by apply returns_none |].
  pose proof (run_bridge_returns o w n L) as H. unfold wp in H. destruct (run_bridge cfg env o w) as [w2 r]. 
  destruct (bridge_session cfg env ops w2) as [w3 out3] eqn:E3. injection E as <- <-. destruct r as [fs | e].
  - destruct H as [H1 H2]. destruct (IH w2 w3 _ out3 H2 E3) as [H3 H4]. split.
    + rewrite map_app, H1, H3, length_app, numbered_app. unfold blen. do 2 f_equal. lia.
    + rewrite blen_app, Z.add_assoc. done.
  - by apply (IH w2 w3 n out3 H).
Qed.

(** ** What a client decodes *)

(** The frame a client reads *)
Definition reads (raw : bytes) (k : FrameType) (v : pyval) : Prop :=
  exists f, decode_frame raw (Some (frame_sequence raw)) = Ok f /\ frame_type f = k
  /\ if is_json_type k then exists d, v = PDict d /\ json_payload f = Some d else py_bytes v = Ok (Abws.payload f).

Lemma emit_reads (k : FrameType) (v : pyval) (w w1 : World NoPort Pair) (raw : bytes) :
  (is_json_type k = true -> printable v = true /\ unique_keys v = true) ->
  emit k v w = (w1, Ok raw) -> reads raw k v /\ snd (object w1) = snd (object w).
Proof.
  intros Hv. destruct w as [[b u] lg]. unfold emit, bind, take_sequence, update, lift. cbn [object log]. intros [= <- E]. split; [| done].
  destruct (encode_frame_sequence _ _ _ _ E) as [Hs _]. destruct (encode_frame_decodes _ _ _ _ Hv E) as (f & Hd & Hk & _ & Hp).
  exists f. rewrite Hs. split; [done |]. split; [done |]. destruct (is_json_type k); [done | apply Hp].
Qed.

Lemma frames_read (fs : list OutputFrame) : forall (w w1 : World NoPort Pair) (out : list bytes),
  emit_frames fs w = (w1, Ok out) -> Forall2 (fun raw f => reads raw OUTPUT (PBytes (Pty.payload f))) out fs /\ snd (object w1) = snd (object w).
Proof.
  induction fs as [|f fs IH]; intros w w1 out E; cbn [emit_frames] in E; [injection E as <- <-; by split; [constructor |] |].
  unfold bind, ret in E. destruct (emit OUTPUT _ w) as [w2 [x | ?]] eqn:E1; [| done].
  destruct (emit_frames fs w2) as [w3 [rest | ?]] eqn:E2; [| done]. injection E as <- <-.
  apply emit_reads in E1 as [R1 S1]; [| done]. destruct (IH _ _ _ E2) as [R2 S2]. split; [by constructor | by rewrite S2].
Qed.

Lemma reply_reads (k : FrameType) (fields : list (string * pyval)) (w w1 : World NoPort Pair) (out : list bytes) :
  printable (PDict (map (fun '(n, v) => (ustr n, v)) fields)) = true ->
  unique_keys (PDict (($"protocol_version", PInt 1) :: map (fun '(n, v) => (ustr n, v)) fields)) = true ->
  (let* x := reply k fields in ret [x]) w = (w1, Ok out) ->
  exists raw, out = [raw] /\ snd (object w1) = snd (object w)
  /\ (is_json_type k = true -> reads raw k (PDict (($"protocol_version", PInt 1) :: map (fun '(n, v) => (ustr n, v)) fields))).
Proof.
  intros Hp Hu E. unfold bind in E. unfold reply in E. destruct (emit k _ w) as [w2 [x | ?]] eqn:E1; [| done]. injection E as <- <-.
  apply emit_reads in E1 as [R1 S1]; [by exists x |]. intros _. split; [| done]. cbn [printable forallb] in *. done.
Qed.

(** The frames that answer a replay from the cursor [after] of the stream [now] *)
Definition replays (after : Z) (now : bytes) (out : list bytes) : Prop :=
  (exists raw dropped, out = [raw] /\ after < dropped <= blen now
     /\ reads raw GAP (PDict [($"protocol_version", PInt 1); ($"start_cursor", PInt (after + 1)); ($"end_cursor", PInt dropped); ($"next_cursor", PInt (blen now))]))
  \/ (exists raw, out = [raw] /\ after = blen now
     /\ reads raw STATE (PDict [($"protocol_version", PInt 1); ($"next_cursor", PInt (blen now))]))
  \/ (exists fs base, out <> [] /\ Forall2 (fun raw f => reads raw OUTPUT (PBytes (Pty.payload f))) out fs
     /\ 0 <= base <= after /\ chained base fs /\ slice_from (after - base) (frames_bytes fs) = slice_from after now).

Lemma handle_replays (f : ABWSFrame) (after : Z) (w w1 : World NoPort Pair) (n : Z) (out : list bytes) :
  live n (object w) -> frame_type f = STATE -> decode_replay f = Ok (mkReplay after) -> 0 <= after <= blen h ->
  handle cfg env f w = (w1, Ok out) ->
  exists u, ring_window (ring (object (snd (object w1)))) (h ++ u) /\ replays after (h ++ u) out.
Proof.
  intros L Hf Hd Ha. revert out.
  assert (H : wp (handle cfg env f) (fun (w1 : World NoPort Pair) r => forall out, r = Ok out ->
                exists u, ring_window (ring (object (snd (object w1)))) (h ++ u) /\ replays after (h ++ u) out) w);
    [| intros out E; by apply (wp_elim _ _ _ _ _ H E)].
  unfold handle. do 2 step. apply wp_try.
  eapply (wp_mono _ (fun (w1 : World NoPort Pair) r => forall out, r = Ok out -> exists u, ring_window (ring (object (snd (object w1)))) (h ++ u) /\ replays after (h ++ u) out));
    [| intros w2 [x | e] H; [done | destruct (existsb _ _); [| done]; unfold set_bstate; by apply wp_bind, wp_modify, wp_raise]].
  unfold dispatch. do 2 step. rewrite Hf. do 5 step. injection Hd as ->. cbn [after_cursor].
  eapply wp_bridge_replay; [exact L | by intros |]. intros w2 answer t L1 Wh Er. cbn beta iota.
  pose proof (blen_nonneg t). assert (Hl : blen (h ++ t) = blen h + blen t) by apply blen_app.
  destruct (replay_window _ _ after Wh ltac:(lia)) as [(Hdr & Eq) | (Hdr & fs & base & Eq & Hb & Hch & _ & Hs & He)];
    rewrite Eq in Er; injection Er as <-; unfold wp.
  - destruct (gap_reply _ _ _ w2) as [w3 r] eqn:E3. intros out ->. apply reply_reads in E3 as (raw & -> & S3 & Hr); [| reflexivity..].
    exists t. rewrite S3. split; [done |]. left. exists raw, (dropped_until (ring (object (snd (object w2))))). split; [done |].
    pose proof (rw_dropped _ _ Wh). split; [lia | by apply Hr].
  - unfold bind at 1. destruct (emit_frames fs w2) as [w3 [rs | e]] eqn:E3; [| done]. apply frames_read in E3 as [R3 S3].
    destruct rs as [|x rs].
    + apply Forall2_nil_inv_l in R3 as ->. destruct ((let* x := reply STATE _ in ret [x]) w3) as [w4 r] eqn:E4. intros out ->.
      apply reply_reads in E4 as (raw & -> & S4 & Hr); [| reflexivity..]. exists t. rewrite S4, S3. split; [done |]. right. left.
      exists raw. split; [done |]. split; [done | by apply Hr].
    + intros out [= <-]. exists t. rewrite S3. split; [done |]. right. right. by exists fs, base.
Qed.

End Numbering.

Lemma decode_replay_range (f : ABWSFrame) (r : WAWReplay) : decode_replay f = Ok r -> 0 <= after_cursor r.
Proof.
  unfold decode_replay. intros H. inv_ok. destruct (dget _ _) as [[| | z | | | | |] |]; try discriminate. inv_ok. bool_to_prop. cbn. lia.
Qed.

Section Theorems.
Context (ws : pystr) (g cap : Z) (c : WAWManagedCommand) (host : HostFacts) (geo : PtyGeometry)
  (b : WorkspaceStopOperation) (e : pyval) (ports : Capabilities) (env : Env Port pyval).

(** C37: the frames a bridge returns over its whole life, whatever its
    client sends and whatever happens to the supervisor in between, are numbered
    1, 2, 3, ... without a repetition or a hole, up to the largest 64-bit number;
    and after them a replay request from a cursor the stream had reached is
    answered with frames a client decodes to exactly the continuation of the
    stream from that cursor, to the gap of what was dropped, or to the statement
    that there is nothing new. *)
Theorem bridge_delivers (cfg : Config) (s : Supervisor) (o : Z) (a : ActiveAttachment) (bridge : WAWStreamBridge)
  (ops later : list bridge_op) (w w2 : World NoPort Pair) (out out2 : list bytes) :
  new_supervisor ws g c host geo b cap e ports = Ok (cfg, s) -> new_bridge o a = Ok bridge ->
  bridge_session cfg env ops (mkWorld (bridge, mkWorld s []) []) = (w, out) -> bridge_session cfg env later w = (w2, out2) ->
  map frame_sequence (out ++ out2) = numbered 1 (length (out ++ out2)) /\ blen (out ++ out2) <= MAX_U64
  /\ exists h, ring_window (ring (object (snd (object w)))) h
     /\ forall f after w3 frames, frame_type f = STATE -> decode_replay f = Ok (mkReplay after) -> after <= blen h ->
        handle cfg env f w2 = (w3, Ok frames) ->
        map frame_sequence frames = numbered (1 + blen (out ++ out2)) (length frames)
        /\ exists u, ring_window (ring (object (snd (object w3)))) (h ++ u) /\ replays after (h ++ u) frames.
Proof.
  intros Hs Hb E1 E2. destruct (new_supervisor_fresh _ _ _ _ _ _ _ _ _ _ _ Hs) as (_ & _ & W0).
  assert (L0 : live [] 0 (bridge, mkWorld s [] : World Port Supervisor)).
  { split; cbn; [by exists [] | unfold MAX_U64; lia |]. left. unfold new_bridge in Hb. destruct (a_context a); [by injection Hb as <- | done]. }
  destruct (session_returns cfg env [] ops (mkWorld (bridge, mkWorld s []) []) w 0 out L0 E1) as [N1 [(h & W1) R1 S1]].
  assert (L1 : live h (0 + blen out) (object w)) by (split; [exists []; by rewrite app_nil_r | done | done]).
  destruct (session_returns cfg env h later w w2 _ out2 L1 E2) as [N2 L2].
  assert (Hl : 0 + blen out + blen out2 = blen (out ++ out2)) by (rewrite blen_app; lia). rewrite Hl in L2.
  split; [| split; [apply L2 |]].
  - by rewrite map_app, N1, N2, length_app, numbered_app, Z.add_0_l, (Z.add_comm (blen out)).
  - exists h. split; [exact W1 |]. intros f after w3 frames Hf Hd Ha E3. pose proof (decode_replay_range _ _ Hd) as Hp. cbn [after_cursor] in Hp.
    split; [| by eapply handle_replays].
    pose proof (handle_returns cfg env h f w2 _ L2) as H. unfold wp in H. rewrite E3 in H. rewrite Z.add_comm. apply H.
Qed.

End Theorems.

(** ** Witness *)

Definition sample_attachment : ActiveAttachment :=
  mkActive sample_claims 1 1 60000 60000 (Some (mkContext $"session" $"user" $"scope" $"https://host" $"7" 1)).
Definition sample_bridge : WAWStreamBridge := mkBridge 4 sample_attachment 1 $"7" B_DETACHED 1.
Definition request (k : FrameType) (v : pyval) : ABWSFrame :=
  or_default (mkABWSFrame PING 0 [] None) (let! raw := encode_frame (PInt (frame_code k)) v (PInt 1) in decode_frame raw None).
Definition sample_session : list bridge_op :=
  [BOther Start; BAttach; BHandle (request INPUT (PBytes (bstr "ls"))); BOther ProduceOutput;
   BHandle (request RESIZE (PDict [($"protocol_version", PInt 1); ($"columns", PInt 100); ($"rows", PInt 30)]))].
Definition replay_request : ABWSFrame := request STATE (PDict [($"protocol_version", PInt 1); ($"after_cursor", PInt 2)]).
Definition bridge_world : World NoPort Pair * list bytes :=
  bridge_session sample_cfg (sample_env true true) sample_session (mkWorld (sample_bridge, mkWorld sample_supervisor []) []).

Example sample_sequences : map frame_sequence (snd bridge_world) = [1; 2].
Proof. vm_compute. reflexivity. Qed.

Definition sample_answer : World NoPort Pair * result (list bytes) := handle sample_cfg (sample_env true true) replay_request (fst bridge_world).

Lemma pair_eq {A B} (p : A * B) : p = (fst p, snd p).
Proof. by destruct p. Qed.

Lemma bridge_world_eq : bridge_session sample_cfg (sample_env true true) sample_session (mkWorld (sample_bridge, mkWorld sample_supervisor []) [])
  = (fst bridge_world, snd bridge_world).
Proof. unfold bridge_world. apply pair_eq. Qed.

Lemma sample_answer_eq (frames : list bytes) : snd sample_answer = Ok frames ->
  handle sample_cfg (sample_env true true) replay_request (fst bridge_world) = (fst sample_answer, Ok frames).
Proof. intros <-. unfold sample_answer. apply pair_eq. Qed.

Lemma sample_answered : exists frames, snd sample_answer = Ok frames /\ length frames = 2%nat.
Proof.
  assert (H : match snd sample_answer with Ok frames => length frames = 2%nat | Raise _ => False end) by (vm_compute; reflexivity).
  destruct (snd sample_answer) as [frames | e]; [by exists frames | done].
Qed.

Lemma sample_reached : next_cursor (ring (object (snd (object (fst bridge_world))))) = 6 /\ blen (snd bridge_world ++ []) = 2
  /\ frame_type replay_request = STATE /\ decode_replay replay_request = Ok (mkReplay 2) /\ new_bridge 4 sample_attachment = Ok sample_bridge.
Proof. split_and!; vm_compute; reflexivity. Qed.

Lemma bridge_delivers_witness :
  exists h frames, ring_window (ring (object (snd (object (fst bridge_world))))) h
  /\ snd sample_answer = Ok frames /\ map frame_sequence frames = [3; 4].
Proof.
  destruct sample_reached as (Hn & Hb & Hk & Hr & Hbr).
  destruct (bridge_delivers sample_ws 1 1024 sample_command sample_host sample_geometry sample_binding (PStr $"7") sample_caps
              (sample_env true true) sample_cfg sample_supervisor 4 sample_attachment sample_bridge sample_session []
              (fst bridge_world) (fst bridge_world) (snd bridge_world) [] sample_new_ok Hbr bridge_world_eq (eq_refl _))
    as (N & M & h & W & H).
  destruct sample_answered as (frames & Ea & Hlen). exists h, frames. split; [exact W |]. split; [exact Ea |].
  rewrite (rw_next _ _ W) in Hn.
  destruct (H replay_request 2 (fst sample_answer) frames Hk Hr ltac:(lia) (sample_answer_eq frames Ea)) as [Hq _].
  rewrite Hq, Hlen, Hb. reflexivity.
Defined.
