(* ===== verification/Unicode.v ===== *)
(** * Text: what [json.loads] does with bytes, and Unicode properties

    [json.loads] on bytes guesses the encoding ([json.detect_encoding]) and decodes
    with the [surrogatepass] handler, so it reads UTF-8, UTF-16 and UTF-32 with or
    without a byte order mark.  The tables of the Unicode database are an
    interface with the laws the code relies on. *)

From S2P Require Import Prelude PyVal Json.

Local Open Scope Z_scope.

(** ** Decoders with [errors="surrogatepass"] *)

Fixpoint utf8_pass (l : bytes) : option pystr :=
  match l with
  | [] => Some []
  | b0 :: l1 =>
      let c0 := b2z b0 in
      if c0 <? 128 then cons c0 <$> utf8_pass l1
      else if in_range 194 c0 223 then
        match l1 with
        | b1 :: l2 => if is_cont b1 then cons ((c0 - 192) * 64 + cont_bits b1) <$> utf8_pass l2 else None
        | _ => None
        end
      else if in_range 224 c0 239 then
        match l1 with
        | b1 :: b2 :: l3 =>
            let cp := (c0 - 224) * 4096 + cont_bits b1 * 64 + cont_bits b2 in
            if is_cont b1 && is_cont b2 && (2048 <=? cp) then cons cp <$> utf8_pass l3 else None
        | _ => None
        end
      else if in_range 240 c0 244 then
        match l1 with
        | b1 :: b2 :: b3 :: l4 =>
            let cp := (c0 - 240) * 262144 + cont_bits b1 * 4096 + cont_bits b2 * 64 + cont_bits b3 in
            if is_cont b1 && is_cont b2 && is_cont b3 && (65536 <=? cp) && (cp <=? 1114111)
            then cons cp <$> utf8_pass l4 else None
        | _ => None
        end
      else None
  end.

Fixpoint utf16_units (big : bool) (l : bytes) : option (list Z) :=
  match l with
  | [] => Some []
  | a :: b :: r => cons (if big then b2z a * 256 + b2z b else b2z b * 256 + b2z a) <$> utf16_units big r
  | _ => None
  end.

(** A pair is one character; a surrogate of its own passes. *)
Fixpoint utf16_text (units : list Z) : pystr :=
  match units with
  | [] => []
  | u :: r =>
      match r with
      | v :: r' => if in_range 55296 u 56319 && in_range 56320 v 57343 then 65536 + (u - 55296) * 1024 + (v - 56320) :: utf16_text r' else u :: utf16_text r
      | [] => [u]
      end
  end.

Fixpoint utf32_text (big : bool) (l : bytes) : option pystr :=
  match l with
  | [] => Some []
  | a :: b :: c :: d :: r =>
      let cp := if big then be_decode [a; b; c; d] else be_decode [d; c; b; a] in
      if cp <=? 1114111 then cons cp <$> utf32_text big r else None
  | _ => None
  end.

(** ** [json.detect_encoding] *)

Inductive encoding : Type := Utf8 | Utf8Sig | Utf16 | Utf16BE | Utf16LE | Utf32 | Utf32BE | Utf32LE.

Definition is_zero (b : byte) : bool := b2z b =? 0.
Definition starts_with (p l : bytes) : bool := bytes_eqb (take (length p) l) p.

Definition BOM_UTF32_BE : bytes := map z2b [0; 0; 254; 255].
Definition BOM_UTF32_LE : bytes := map z2b [255; 254; 0; 0].
Definition BOM_UTF16_BE : bytes := map z2b [254; 255].
Definition BOM_UTF16_LE : bytes := map z2b [255; 254].
Definition BOM_UTF8 : bytes := map z2b [239; 187; 191].

Definition detect_encoding (l : bytes) : encoding :=
  if starts_with BOM_UTF32_BE l || starts_with BOM_UTF32_LE l then Utf32
  else if starts_with BOM_UTF16_BE l || starts_with BOM_UTF16_LE l then Utf16
  else if starts_with BOM_UTF8 l then Utf8Sig
  else
    match l with
    | a :: b :: c :: d :: _ =>
        if is_zero a then (if is_zero b then Utf32BE else Utf16BE)
        else if is_zero b then (if is_zero c && is_zero d then Utf32LE else Utf16LE)
        else Utf8
    | [a; b] => if is_zero a then Utf16BE else if is_zero b then Utf16LE else Utf8
    | _ => Utf8
    end.

(** [s.decode(detect_encoding(s), "surrogatepass")]; the codecs with a mark drop it *)
Definition decode_detected (l : bytes) : option pystr :=
  match detect_encoding l with
  | Utf8 => utf8_pass l
  | Utf8Sig => utf8_pass (drop 3 l)
  | Utf16 => utf16_text <$> utf16_units (starts_with BOM_UTF16_BE l) (drop 2 l)
  | Utf16BE => utf16_text <$> utf16_units true l
  | Utf16LE => utf16_text <$> utf16_units false l
  | Utf32 => utf32_text (starts_with BOM_UTF32_BE l) (drop 4 l)
  | Utf32BE => utf32_text true l
  | Utf32LE => utf32_text false l
  end.

(** ** [json.dumps(..., ensure_ascii=True)] *)

Definition hex4_text (n : Z) : pystr := [hex_char (n / 4096); hex_char (n / 256 mod 16); hex_char (n / 16 mod 16); hex_char (n mod 16)].

Definition escape_ascii (c : Z) : pystr :=
  if c =? 34 then [92; 34]
  else if c =? 92 then [92; 92]
  else if c =? 10 then [92; 110]
  else if c =? 13 then [92; 114]
  else if c =? 9 then [92; 116]
  else if c =? 12 then [92; 102]
  else if c =? 8 then [92; 98]
  else if in_range 32 c 126 then [c]
  else if c <? 65536 then 92 :: 117 :: hex4_text c
  else 92 :: 117 :: hex4_text (55296 + (c - 65536) / 1024) ++ 92 :: 117 :: hex4_text (56320 + (c - 65536) mod 1024).

Definition ascii_string (s : pystr) : pystr := 34 :: flat_map escape_ascii s ++ [34].

Fixpoint dumps_ascii (v : pyval) : result pystr :=
  match v with
  | PNone => Ok $"null"
  | PBool true => Ok $"true"
  | PBool false => Ok $"false"
  | PInt z => Ok (str_of_Z z)
  | PFloat t => Ok (if str_eqb t $"nan" then $"NaN" else if str_eqb t $"inf" then $"Infinity" else if str_eqb t $"-inf" then $"-Infinity" else t)
  | PStr s => Ok (ascii_string s)
  | PBytes _ => Raise (err PyTypeError "Object of type bytes is not JSON serializable")
  | PList l => let! parts := seq_results (map dumps_ascii l) in Ok (91 :: join_comma parts ++ [93])
  | PDict d =>
      let! parts := seq_results (map (fun kv => let! t := dumps_ascii (snd kv) in Ok (ascii_string (fst kv) ++ 58 :: t)) d) in
      Ok (123 :: join_comma parts ++ [125])
  end.

(** ** Properties of characters *)

Class Unicode : Type := mkUnicode {
  nfc : pystr -> pystr;          (* [unicodedata.normalize("NFC", s)] *)
  category_c : Z -> bool;        (* [unicodedata.category(c).startswith("C")] *)
  isalnum : Z -> bool;           (* [c.isalnum()] *)
  isspace : Z -> bool            (* [c.isspace()] *)
}.

(** Surrogates are of the category Cs. *)
Class UnicodeLaws (U : Unicode) : Prop := {
  surrogate_category : forall c, is_surrogate c = true -> category_c c = true
}.

Fixpoint lstrip `{Unicode} (s : pystr) : pystr :=
  match s with
  | c :: r => if isspace c then lstrip r else s
  | [] => []
  end.

Definition strip `{Unicode} (s : pystr) : pystr := rev (lstrip (rev (lstrip s))).

(** The ASCII part of the database *)
#[export] Instance ascii_unicode : Unicode :=
  mkUnicode id (fun c => (c <? 32) || in_range 127 c 159 || is_surrogate c)
    (fun c => is_digit c || in_range 65 c 90 || in_range 97 c 122) (fun c => in_range 9 c 13 || in_range 28 c 32).

#[export] Instance ascii_laws : UnicodeLaws ascii_unicode.
Proof. split. intros c H. unfold category_c. cbn. by rewrite H, orb_true_r. Qed.

(** ** Lemmas *)

Lemma utf8_pass_strict (l : bytes) : forall s, utf8_decode l = Some s -> utf8_pass l = Some s.
Proof.
  induction l as [l IH] using (induction_ltof1 _ (@length byte)). unfold ltof in IH. intros s. destruct l as [|b0 l]; [done |].
  cbn [utf8_decode utf8_pass]. repeat case_match; try done; intros Hd; apply fmap_Some in Hd as (r & Hr & ->);
    repeat match goal with E : _ && _ = true |- _ => apply andb_true_iff in E as [? ?] end;
    (erewrite IH; [| | exact Hr]; [done | cbn; lia]) || congruence.
Qed.

(** A printed object is read as UTF-8. *)
Lemma decode_detected_utf8 (a b : byte) (l : bytes) (s : pystr) :
  b2z a = 123 -> b2z b <> 0 -> utf8_decode (a :: b :: l) = Some s -> decode_detected (a :: b :: l) = Some s.
Proof.
  intros Ha Hb H. unfold decode_detected.
  assert (K : forall p, match p with c :: _ => b2z c <> 123 | [] => False end -> starts_with p (a :: b :: l) = false).
  { intros [|c p] Hc; [done |]. unfold starts_with. apply not_true_iff_false. rewrite bytes_eqb_eq. cbn. intros [= -> _]. congruence. }
  assert (detect_encoding (a :: b :: l) = Utf8) as ->; [| by apply utf8_pass_strict].
  unfold detect_encoding. rewrite !K by (vm_compute; discriminate). cbn [orb].
  unfold is_zero. replace (b2z a =? 0) with false by lia. replace (b2z b =? 0) with false by lia. by destruct l as [|? [|? ?]].
Qed.

(** ** Reading ASCII text back *)

Lemma hex4_text_spec (n : Z) : 0 <= n < 65536 -> exists a b c d, hex4_text n = [a; b; c; d] /\ hex4 a b c d = Some n.
Proof.
  intros Hn. do 4 eexists. split; [reflexivity |]. unfold hex4.
  rewrite !hex_digit_char by (Z.to_euclidean_division_equations; lia). f_equal. Z.to_euclidean_division_equations; lia.
Qed.

Lemma scan_string_ascii (c : Z) (l : pystr) : scalar_value c = true ->
  scan_string (escape_ascii c ++ l) = prod_map (cons c) id <$> scan_string l.
Proof.
  intros Hc. unfold scalar_value, is_surrogate, in_range in Hc. unfold escape_ascii.
  repeat (case_if; [bool_to_prop; subst; reflexivity |]). destruct (in_range 32 c 126) eqn:E7.
  { unfold in_range in E7. cbn. replace (c =? 34) with false by lia. replace (c =? 92) with false by lia. by replace (c <? 32) with false by lia. }
  destruct (c <? 65536) eqn:E8; bool_to_prop.
  - destruct (hex4_text_spec c ltac:(lia)) as (h1 & h2 & h3 & h4 & -> & Hh). cbn -[hex4 in_range]. rewrite Hh.
    replace (in_range 55296 c 56319) with false; [done |]. unfold in_range. lia.
  - set (hi := 55296 + (c - 65536) / 1024). set (lo := 56320 + (c - 65536) mod 1024).
    assert (Hhi : 55296 <= hi <= 56319) by (subst hi; Z.to_euclidean_division_equations; lia).
    assert (Hlo : 56320 <= lo <= 57343) by (subst lo; Z.to_euclidean_division_equations; lia).
    destruct (hex4_text_spec hi ltac:(lia)) as (h1 & h2 & h3 & h4 & -> & Hh). destruct (hex4_text_spec lo ltac:(lia)) as (g1 & g2 & g3 & g4 & -> & Hg).
    cbn -[hex4 in_range Z.mul Z.add]. rewrite Hh, Hg. replace (in_range 55296 hi 56319) with true by (unfold in_range; lia).
    replace (in_range 56320 lo 57343) with true by (unfold in_range; lia).
    replace (65536 + (hi - 55296) * 1024 + (lo - 56320)) with c; [done |]. subst hi lo. Z.to_euclidean_division_equations; lia.
Qed.

Lemma scan_ascii_string (s rest : pystr) : forallb scalar_value s = true -> scan_string (flat_map escape_ascii s ++ 34 :: rest) = Some (s, rest).
Proof.
  induction s as [|c s IH]; cbn [flat_map forallb]; [done |]. intros [Hc Hs]%andb_true_iff. by rewrite <- app_assoc, scan_string_ascii, IH.
Qed.

(** Texts that tell where they end, joined with commas and closed by a bracket,
    tell the list they came from. *)
Section Joined.
Context {A : Type} (P : A -> Prop) (T : A -> pystr).
Hypothesis T_inj : forall a b r r', P a -> P b -> T a ++ r = T b ++ r' -> a = b /\ r = r'.
Hypothesis T_open : forall a, P a -> exists c t, T a = c :: t /\ c <> 93.

Lemma join_comma_inj (l : list A) : forall l' r r', Forall P l -> Forall P l' ->
  join_comma (map T l) ++ 93 :: r = join_comma (map T l') ++ 93 :: r' -> l = l' /\ r = r'.
Proof.
  induction l as [|a l IH]; intros l' r r' Hl Hl' E.
  - destruct l' as [|b l']; [by injection E as -> |]. apply Forall_cons in Hl' as [Hb _]. exfalso.
    destruct l' as [|b' l']; cbn [map join_comma app] in E; rewrite <- ?app_assoc in E;
      destruct (T_open b Hb) as (c & t & Et & Hc); rewrite Et in E; cbn [app] in E; apply Hc; by injection E.
  - destruct l' as [|b l'].
    { apply Forall_cons in Hl as [Ha _]. exfalso. destruct l as [|a' l]; cbn [map join_comma app] in E; rewrite <- ?app_assoc in E;
        destruct (T_open a Ha) as (c & t & Et & Hc); rewrite Et in E; cbn [app] in E; apply Hc; by injection E. }
    apply Forall_cons in Hl as [Ha Hl], Hl' as [Hb Hl']. destruct l as [|a' l], l' as [|b' l']; cbn [map join_comma] in E; rewrite <- ?app_assoc in E;
      apply T_inj in E as [-> E]; try done; cbn [app] in E; [by injection E as -> |].
    injection E as E. destruct (IH (b' :: l') r r' Hl Hl' E) as [-> ->]. done.
Qed.

End Joined.
