(* ===== verification/Control.v ===== *)
(** * The control-socket codec ([agentbox_protocol/waw_control.py])

    One JSON object per line, in closed profiles: ten actions, each with its
    request and its responses, and the digest of a binding inventory.  A request or
    response is a dictionary; [value[k]] of a missing key is a [KeyError]. *)

From stdpp Require Import sorting.
From S2P Require Import Prelude PyVal Json Abws Sha256 Unicode.

Local Open Scope Z_scope.

Definition MAX_CONTROL_LINE : Z := 16 * 1024.
Definition MAX_CONTROL_ENVELOPE : Z := 4 * 1024.
Definition MAX_CONTROL_DEPTH : Z := 16.
Definition MAX_CONTROL_KEYS : Z := 64.

Definition control_error (msg : string) : exn := err WAWControlError msg.

(** ** One line *)

(** [_pairs] *)
Definition pairs_ (st : unit) (ps : list (pystr * pyval)) : result (unit * pyval) :=
  let! d := unique_pairs (control_error "duplicate JSON object key") [] ps in Ok (tt, PDict d).

Definition reject_constant_ (value : pystr) : result pyval := Raise (control_error "JSON constant is not permitted").

(** The two loops of [_walk] *)
Definition walk_members (f : pyval -> Z -> result Z) :=
  fix go (d : list (pystr * pyval)) (keys : Z) : result Z :=
    match d with
    | [] => Ok keys
    | kv :: r =>
        let keys := keys + 1 in
        run! raise_if (MAX_CONTROL_KEYS <? keys) (control_error "JSON object key count exceeds WAW control limit") in
        let! keys := f (snd kv) keys in
        go r keys
    end.

Definition walk_items (f : pyval -> Z -> result Z) :=
  fix go (l : list pyval) (keys : Z) : result Z :=
    match l with
    | [] => Ok keys
    | item :: r => let! keys := f item keys in go r keys
    end.

Fixpoint walk (value : pyval) (depth keys : Z) : result Z :=
  if MAX_CONTROL_DEPTH <? depth then Raise (control_error "JSON nesting exceeds WAW control limit")
  else
    match value with
    | PDict d => walk_members (fun item keys => walk item (depth + 1) keys) d keys
    | PList l => walk_items (fun item keys => walk item (depth + 1) keys) l keys
    | PStr s => if existsb is_surrogate s then Raise (control_error "unpaired UTF-16 surrogate is not permitted") else Ok keys
    | _ => Ok keys
    end.

Definition LF : byte := z2b 10.
Definition CR : byte := z2b 13.

(** [json.loads(body, object_pairs_hook=_pairs, parse_constant=_reject_constant)] *)
Definition loads_body (body : bytes) : result pyval :=
  match decode_detected body with
  | None => Raise (err UnicodeDecodeError "invalid data")
  | Some text => let! '(_, v) := loads default_number reject_constant_ pairs_ tt text in Ok v
  end.

Definition load_line (value : bytes) : result pydict :=
  run! raise_if (MAX_CONTROL_LINE <? blen value) (control_error "control record exceeds 16 KiB") in
  let body := removelast value in
  run! raise_if (negb (bool_decide (last value = Some LF)) || bool_decide (LF ∈ body) || bool_decide (last body = Some CR))
         (control_error "control record must end with exactly one LF") in
  run! raise_if (MAX_CONTROL_ENVELOPE <? blen body + 1) (control_error "control envelope exceeds 4 KiB") in
  let! decoded := except_as (loads_body body) [JSONDecodeError; UnicodeDecodeError; PyTypeError] (control_error "control JSON is malformed") in
  match decoded with
  | PDict d => run! walk (PDict d) 0 0 in Ok d
  | _ => Raise (control_error "control JSON must be an object")
  end.

(** ** Fields *)

Definition item (d : pydict) (k : string) : result pyval :=
  match dget d (ustr k) with
  | Some v => Ok v
  | None => Raise (err PyKeyError k)
  end.

Definition names (l : list string) : list pystr := map ustr l.

Definition require_keys (d : pydict) (expected : list string) : result unit :=
  raise_if (negb (keys_equal (dkeys d) (names expected))) (control_error "control action fields are not exact").

(** A check of the value of a named field *)
Definition check : Type := string -> pyval -> result unit.

(** [_string] with a pattern *)
Definition string_ (pattern : pystr -> bool) : check := fun name v =>
  match v with
  | PStr s => raise_if (Nat.eqb (length s) 0 || negb (pattern s)) (control_error (name ++ " is invalid"))
  | _ => Raise (control_error (name ++ " is invalid"))
  end.

(** [_decimal_u64] *)
Definition decimal_u64 (allow_zero : bool) : check := fun name v =>
  match v with
  | PStr s =>
      run! raise_if (negb (match_decimal s)) (control_error (name ++ " is not a canonical decimal uint64")) in
      raise_if ((MAX_U64 <? digits_value s) || (negb allow_zero && (digits_value s =? 0))) (control_error (name ++ " is not a uint64"))
  | _ => Raise (control_error (name ++ " is not a canonical decimal uint64"))
  end.

Definition u64 : check := decimal_u64 false.

(** [if v is not None: c(v)] *)
Definition optional (c : check) : check := fun name v => match v with PNone => Ok tt | _ => c name v end.

(** [v in {...}]: a list or a dictionary cannot be hashed. *)
Definition in_set (v : pyval) (l : list string) : result bool :=
  match v with
  | PStr s => Ok (str_in s (names l))
  | PList _ | PDict _ => Raise (err PyTypeError "unhashable type")
  | _ => Ok false
  end.

Definition is_str (v : pyval) (s : string) : bool := match v with PStr t => str_eqb t (ustr s) | _ => false end.

Definition one_of (l : list string) (message : string) : check := fun _ v =>
  let! b := in_set v l in raise_if (negb b) (control_error message).

Definition equals (s : string) (message : string) : check := fun _ v => raise_if (negb (is_str v s)) (control_error message).

(** The checks of several fields, one after the other *)
Fixpoint check_fields (d : pydict) (l : list (string * check)) : result unit :=
  match l with
  | [] => Ok tt
  | (k, c) :: r => let! v := item d k in run! c k v in check_fields d r
  end.

Definition REQUEST_ID : check := string_ (match_id $"wreq").
Definition PROJECT_ID : check := string_ (match_id $"prj").
Definition WORKSPACE_ID : check := string_ (match_id $"aws").
Definition ATTACHMENT_ID : check := string_ (match_id $"att").
Definition HOST_ID : check := string_ (match_id $"wri").
Definition DIGEST : check := string_ (match_hex 64).
Definition NONCE : check := string_ (match_hex 32).
Definition CAPABILITY : check := string_ (match_hex 64).
Definition agent_type_ : check := one_of ["claude"; "codex"] "agent_type is invalid".

Definition version_1 (v : option pyval) : result unit :=
  raise_if (negb (match v with Some (PInt z) => z =? 1 | _ => false end)) (control_error "protocol_version must be 1").

(** [_common] *)
Definition common_ (d : pydict) (action : pystr) : result unit :=
  run! version_1 (dget d $"protocol_version") in
  run! REQUEST_ID "request_id" (default PNone (dget d $"request_id")) in
  raise_if (negb (match dget d $"action" with Some (PStr a) => str_eqb a action | _ => false end)) (control_error "action is invalid").

(** ** Actions *)

Definition COMMON : list string := ["protocol_version"; "request_id"; "action"]%string.
Definition WORKSPACE_FIELDS : list string :=
  ["workspace_id"; "project_id"; "agent_type"; "generation"; "binding_revision"; "binding_digest"; "runtime_host_installation_id";
   "runtime_host_installation_revision"]%string.
Definition TUPLE_FIELDS : list string :=
  ["workspace_id"; "project_id"; "agent_type"; "attachment_id"; "mode"; "lease_number"; "generation"; "binding_revision"; "binding_digest";
   "auth_epoch"; "api_authority_epoch"; "runtime_host_installation_id"; "runtime_host_installation_revision"; "runtime_epoch"]%string.

(** The ten actions *)
Inductive action : Type := BIND | REGISTER | FINALIZE | START | STOP | STATUS | RECONCILE | EVIDENCE | PREPARE | DETACH.

Definition action_name (a : action) : string :=
  match a with
  | BIND => "workspace.api_authority.bind"
  | REGISTER => "workspace.project_binding.register"
  | FINALIZE => "workspace.project_binding.inventory.finalize.v1"
  | START => "workspace.workspace.start"
  | STOP => "workspace.workspace.stop"
  | STATUS => "workspace.workspace.status"
  | RECONCILE => "workspace.workspace.reconcile"
  | EVIDENCE => "workspace.workspace.executable_evidence.v1"
  | PREPARE => "workspace.attach.prepare"
  | DETACH => "workspace.attach.detach"
  end.

#[export] Instance action_eq_dec : EqDecision action.
Proof. solve_decision. Defined.

Definition actions : list action := [BIND; REGISTER; FINALIZE; START; STOP; STATUS; RECONCILE; EVIDENCE; PREPARE; DETACH].

Definition action_of (s : pystr) : option action := List.find (fun a => str_eqb s (ustr (action_name a))) actions.

Definition request_fields (a : action) : list string :=
  COMMON ++
  match a with
  | BIND => ["api_authority_epoch"; "authority_nonce"]
  | REGISTER => ["project_id"; "relative_key"; "project_revision"; "binding_revision"; "previous_binding_revision"; "previous_binding_digest";
                 "schema_version"; "runtime_host_installation_id"; "runtime_host_installation_revision"]
  | FINALIZE => ["runtime_epoch"; "binding_count"; "inventory_digest"]
  | START | STOP | STATUS | RECONCILE => WORKSPACE_FIELDS
  | EVIDENCE => app WORKSPACE_FIELDS ["runtime_epoch"]
  | PREPARE => app TUPLE_FIELDS ["resume_cursor"; "previous_runtime_epoch"]
  | DETACH => TUPLE_FIELDS
  end%string.

(** ** Relative keys *)

Section Keys.
Context `{Unicode}.

(** [_RELATIVE_KEY] *)
Definition match_relative_key (s : pystr) : bool :=
  match s with
  | [] => false
  | c :: r => negb (existsb (Z.eqb c) [47; 92; 46]) && forallb (fun c => negb (existsb (Z.eqb c) [47; 92])) r
  end.

Definition validate_relative_key (v : pyval) : result pystr :=
  run! string_ (fun _ => true) "relative_key" v in
  match v with
  | PStr key =>
      run! raise_if ((80 <? blen key) || negb (str_eqb key (strip key)) || str_in key [$"."; $".."] || negb (match_relative_key key)
                     || negb (str_eqb (nfc key) key)) (control_error "relative_key is invalid") in
      run! raise_if (existsb category_c key) (control_error "relative_key contains a Unicode category C character") in
      run! raise_if (existsb (fun c => (c <? 32) || in_range 127 c 159) key) (control_error "relative_key contains a control character") in
      run! raise_if (existsb (fun c => negb (isalnum c || existsb (Z.eqb c) [45; 95; 46; 32])) key)
             (control_error "relative_key contains unsupported characters") in
      Ok key
  | _ => Raise (control_error "relative_key is invalid")
  end.

Definition RELATIVE_KEY : check := fun _ v => rmap (fun _ => tt) (validate_relative_key v).

(** [previous] precedes the binding [revision] exactly. *)
Definition predecessor (revision previous previous_digest : pyval) (first_message exact_message : string) : result unit :=
  if is_str revision "1" then raise_if (negb (is_none previous && is_none previous_digest)) (control_error first_message)
  else
    run! u64 "previous_binding_revision" previous in
    run! DIGEST "previous_binding_digest" previous_digest in
    match previous, revision with
    | PStr p, PStr r => raise_if (negb (digits_value p + 1 =? digits_value r)) (control_error exact_message)
    | _, _ => Ok tt
    end.

(** ** Requests *)

(** The checks of every action on a workspace *)
Definition workspace_checks : list (string * check) :=
  [("workspace_id", WORKSPACE_ID); ("project_id", PROJECT_ID); ("agent_type", agent_type_); ("generation", u64); ("binding_revision", u64);
   ("runtime_host_installation_revision", u64); ("binding_digest", DIGEST); ("runtime_host_installation_id", HOST_ID)]%string.

Definition attach_checks : list (string * check) :=
  [("attachment_id", ATTACHMENT_ID); ("mode", equals "writer" "mode is invalid"); ("lease_number", u64); ("auth_epoch", u64);
   ("api_authority_epoch", u64); ("runtime_epoch", u64)]%string.

Definition resume_checks : list (string * check) :=
  [("resume_cursor", optional (decimal_u64 true)); ("previous_runtime_epoch", optional u64)]%string.

Definition request_checks (a : action) (d : pydict) : result unit :=
  match a with
  | BIND => check_fields d [("api_authority_epoch", u64); ("authority_nonce", NONCE)]%string
  | REGISTER =>
      run! check_fields d [("project_id", PROJECT_ID); ("relative_key", RELATIVE_KEY); ("project_revision", u64); ("binding_revision", u64);
                           ("runtime_host_installation_revision", u64)]%string in
      let! previous := item d "previous_binding_revision" in
      let! previous_digest := item d "previous_binding_digest" in
      let! revision := item d "binding_revision" in
      run! predecessor revision previous previous_digest "first binding cannot have a predecessor"
             "binding predecessor must be the exact prior revision" in
      check_fields d [("schema_version", equals "waw-project-binding-v1" "schema_version is invalid"); ("runtime_host_installation_id", HOST_ID)]%string
  | FINALIZE => check_fields d [("runtime_epoch", u64); ("binding_count", decimal_u64 true); ("inventory_digest", DIGEST)]%string
  | START | STOP | STATUS | RECONCILE => check_fields d workspace_checks
  | EVIDENCE => run! check_fields d workspace_checks in check_fields d [("runtime_epoch", u64)]%string
  | PREPARE => run! check_fields d workspace_checks in run! check_fields d attach_checks in check_fields d resume_checks
  | DETACH => run! check_fields d workspace_checks in check_fields d attach_checks
  end.

(** [_validate_request] *)
Definition validate_request (d : pydict) : result pydict :=
  match dget d $"action" with
  | Some (PStr s) =>
      match action_of s with
      | None => Raise (control_error "unsupported WAW control action")
      | Some a =>
          run! require_keys d (request_fields a) in
          run! common_ d s in
          run! request_checks a d in
          Ok d
      end
  | _ => Raise (control_error "action is invalid")
  end.

Definition decode_control_request (raw : bytes) : result pydict := let! d := load_line raw in validate_request d.

(** The encoding of a validated message *)
Definition encode_line (d : pydict) (message : string) : result bytes :=
  let! encoded := except_as (let! text := dumps (PDict d) in let! b := py_encode text in Ok (b ++ [LF]))
    [PyTypeError; UnicodeEncodeError; PyValueError] (control_error message) in
  run! raise_if (MAX_CONTROL_ENVELOPE <? blen encoded) (control_error "control envelope exceeds 4 KiB") in
  Ok encoded.

Definition encode_control_request (d : pydict) : result bytes :=
  run! validate_request d in
  encode_line d "control request is not strict JSON".

(** ** Responses *)

Definition ERROR_CODES : list string :=
  ["PROTOCOL_INVALID"; "SEQUENCE_EXHAUSTED"; "RANDOMNESS_UNAVAILABLE"; "RUNTIME_INSTALLATION_UNTRUSTED"; "RUNTIME_INSTALLATION_MISMATCH";
   "RUNTIME_PEER_FORBIDDEN"; "RUNTIME_UNAVAILABLE"; "WAW_SOCKET_SET_INCOMPLETE"; "WAW_SOCKET_PROVENANCE_INVALID"; "WAW_AGENT_UNSUPPORTED";
   "CONTROL_BUSY"; "CONTROL_UNAVAILABLE"; "WAW_TMP_UNTRUSTED"; "WAW_CGROUP_UNTRUSTED"; "SERVICE_SHUTDOWN"; "WORKSPACE_NOT_FOUND";
   "WORKSPACE_NOT_READY"; "WORKSPACE_NOT_RUNNING"; "WORKSPACE_START_IN_PROGRESS"; "WORKSPACE_WRITER_BUSY"; "WORKSPACE_RESOURCE_LIMITED";
   "WORKSPACE_COLLISION"; "WORKSPACE_MISSING"; "WORKSPACE_EXITED"; "WORKSPACE_STOPPED"; "RECONCILIATION_REQUIRED"; "BINDING_BOOTSTRAP_REQUIRED";
   "BINDING_INVENTORY_MISMATCH"; "BINDING_REPLAY_INCOMPLETE"; "PROJECT_PATH_UNSUPPORTED"; "PROJECT_RUNTIME_ACTIVE"; "PROJECT_IDENTITY_CHANGED";
   "CODEX_REMOTE_CONFLICT"; "WORKSPACE_AUTH_REQUIRED"; "WORKSPACE_AUTH_STATUS_UNKNOWN"; "WORKSPACE_AUTH_CHECK_REQUIRED";
   "WORKSPACE_TRUST_REQUIRED"; "WORKSPACE_EXECUTABLE_UNSUPPORTED"; "ATTACHMENT_TICKET_EXPIRED"; "ATTACHMENT_TICKET_REPLAYED";
   "ATTACHMENT_TICKET_UNAVAILABLE"; "ATTACHMENT_TICKET_RATE_LIMITED"; "KEY_CONFIRM_FAILED"; "STREAM_CRYPTO_FAILURE"; "ATTACHMENT_PREPARE_REPLAY";
   "ATTACHMENT_STALE"; "DETACH_FAILED"; "DETACH_IN_PROGRESS"; "ATTACHMENT_NOT_READY"; "ADMITTED_DELIVERY_FAILED"; "INPUT_RATE_LIMITED";
   "CONTROL_RATE_LIMITED"; "OUTPUT_BACKPRESSURE"; "RESIZE_FAILED"; "TERMINAL_PARSE_LIMIT"; "INPUT_WRITE_UNCERTAIN"; "STOP_TIMEOUT";
   "INTERNAL_BOUNDED"]%string.

Definition WORKSPACE_STATES : list string :=
  ["STARTING"; "RUNNING"; "NEEDS_INTERACTION"; "TRUST_REQUIRED"; "LOGIN_REQUIRED"; "STOPPING"; "EXITED"; "STOPPED"; "MISSING"; "COLLISION"; "BROKEN";
   "UNKNOWN"]%string.
Definition RECONCILIATION_STATES : list string :=
  ["authoritative"; "stopping"; "missing"; "collision"; "exited"; "reconciliation_required"; "unknown"]%string.
Definition PROCESS_STATES : list string :=
  ["NOT_STARTED"; "STARTING"; "RUNNING"; "LOGIN_REQUIRED"; "TRUST_REQUIRED"; "NEEDS_INTERACTION"; "EXITED"; "STOPPING"; "STOPPED"; "MISSING";
   "COLLISION"; "BROKEN"; "UNKNOWN"]%string.

Definition COMMON_RESPONSE : list string := ["protocol_version"; "request_id"; "status"]%string.

Definition boolean_ (message : string) : check := fun _ v => match v with PBool _ => Ok tt | _ => Raise (control_error message) end.

(** [_response_error] *)
Definition response_error (d : pydict) : result pydict :=
  run! require_keys d (COMMON_RESPONSE ++ ["error_code"; "retryable"]%string) in
  run! check_fields d [("status", equals "ERROR" "response status is invalid"); ("request_id", REQUEST_ID)]%string in
  let! v := item d "protocol_version" in
  run! version_1 (Some v) in
  run! check_fields d [("error_code", string_ (fun _ => true)); ("error_code", one_of ERROR_CODES "error_code is invalid");
                       ("retryable", boolean_ "retryable is invalid")]%string in
  Ok d.

(** [_response_common] *)
Definition response_common (d : pydict) (expected : list string) : result unit :=
  run! require_keys d expected in
  let! v := item d "protocol_version" in
  run! version_1 (Some v) in
  run! check_fields d [("request_id", REQUEST_ID)]%string in
  let! status := item d "status" in
  if is_str status "ERROR" then run! response_error d in Raise (control_error "error response has wrong schema") else Ok tt.

(** [_response_identity] *)
Definition identity_checks : list (string * check) :=
  [("workspace_id", WORKSPACE_ID); ("project_id", PROJECT_ID); ("agent_type", agent_type_)]%string.

Definition tuple_checks : list (string * check) :=
  identity_checks ++
  [("attachment_id", ATTACHMENT_ID); ("mode", equals "writer" "mode is invalid"); ("binding_digest", DIGEST); ("lease_number", u64);
   ("generation", u64); ("binding_revision", u64); ("auth_epoch", u64); ("api_authority_epoch", u64); ("runtime_host_installation_revision", u64);
   ("runtime_host_installation_id", HOST_ID); ("runtime_epoch", u64)]%string.

Definition response_fields (a : action) : list string :=
  COMMON_RESPONSE ++
  match a with
  | BIND => ["api_authority_epoch"; "runtime_epoch"; "runtime_host_installation_id"; "runtime_host_installation_revision"; "host_manifest_digest";
             "project_root_manifest_digest"; "enrollment_epoch"; "enrollment_state"]
  | REGISTER => ["project_id"; "binding_revision"; "binding_digest"; "runtime_host_installation_id"; "runtime_host_installation_revision"]
  | FINALIZE => ["runtime_epoch"; "binding_count"; "inventory_digest"]
  | START => ["workspace_id"; "project_id"; "agent_type"; "generation"; "state"; "runtime_host_installation_id"; "runtime_host_installation_revision"]
  | STOP => ["workspace_id"; "project_id"; "agent_type"; "generation"; "state"]
  | STATUS => ["workspace_id"; "project_id"; "agent_type"; "generation"; "binding_revision"; "binding_digest"; "state"; "reconciliation_state";
               "runtime_epoch"; "process_state"; "exit_code"; "attachment_capacity"]
  | RECONCILE => ["workspace_id"; "project_id"; "agent_type"; "generation"; "binding_revision"; "binding_digest"; "runtime_epoch"; "state";
                  "reconciliation_state"]
  | EVIDENCE => ["workspace_id"; "project_id"; "agent_type"; "generation"; "binding_revision"; "binding_digest"; "runtime_host_installation_id";
                 "runtime_host_installation_revision"; "runtime_epoch"; "executable_fingerprint"]
  | PREPARE => app TUPLE_FIELDS ["resume_cursor"; "previous_runtime_epoch"; "capability"]
  | DETACH => app TUPLE_FIELDS ["cleanup_state"; "reason_code"]
  end%string.

Definition status_of (a : action) : list string :=
  match a with
  | BIND => ["BOUND"; "ALREADY_BOUND"]
  | REGISTER => ["REGISTERED"; "ALREADY_CURRENT"]
  | FINALIZE => ["FINALIZED"; "ALREADY_FINALIZED"]
  | START => ["STARTED"; "ALREADY_RUNNING"; "START_IN_PROGRESS"]
  | STOP => ["STOPPED"; "ALREADY_STOPPED"; "STOP_IN_PROGRESS"]
  | STATUS => ["STATUS"]
  | RECONCILE => ["RECONCILED"; "MISSING"; "COLLISION"; "UNKNOWN"; "RECONCILIATION_REQUIRED"]
  | EVIDENCE => ["EXECUTABLE_EVIDENCE"]
  | PREPARE => ["PREPARED"; "RECONCILIATION_REQUIRED"; "WORKSPACE_WRITER_BUSY"; "WORKSPACE_NOT_RUNNING"]
  | DETACH => ["DETACHED"; "ALREADY_DETACHED"; "DETACH_IN_PROGRESS"; "REJECTED"]
  end%string.

(** [status != "..."] for the actions with one status, [status not in {...}] for
    the others *)
Definition check_status (a : action) (status : pyval) : result unit :=
  match a with
  | STATUS => equals "STATUS" "response status is invalid" "status" status
  | EVIDENCE => equals "EXECUTABLE_EVIDENCE" "response status is invalid" "status" status
  | _ => one_of (status_of a) "response status is invalid" "status" status
  end.

Definition exit_code_ : check := fun _ v =>
  match v with
  | PNone => Ok tt
  | PInt z => raise_if (negb (in_range (-128) z 255)) (control_error "exit_code is invalid")
  | _ => Raise (control_error "exit_code is invalid")
  end.

Definition capacity_value (cap : pydict) (k : string) : Z := match dget cap (ustr k) with Some (PStr s) => digits_value s | _ => 0 end.

Definition attachment_capacity_ : check := fun _ v =>
  match v with
  | PDict cap =>
      run! raise_if (negb (keys_equal (dkeys cap) (names ["admitted"; "pending"; "limit"]%string))) (control_error "attachment_capacity is invalid") in
      let amount : check := fun k v => decimal_u64 true (String.append "attachment_capacity." k) v in
      run! check_fields cap [("admitted", amount); ("pending", amount); ("limit", amount)]%string in
      let! limit := item cap "limit" in
      raise_if (negb (is_str limit "32") || (64 <? capacity_value cap "admitted" + capacity_value cap "pending"))
        (control_error "attachment_capacity is invalid")
  | _ => Raise (control_error "attachment_capacity is invalid")
  end.

(** The states of a status or reconciliation answer, in the order of the [or] *)
Definition states_ (d : pydict) (l : list (string * list string)) (message : string) : result unit :=
  check_fields d (map (fun '(k, s) => (k, one_of s message)) l).

(** [cleanup_state] and [reason_code] of a detach answer *)
Definition detach_result (d : pydict) (status : pyval) : result unit :=
  let bad := control_error "detach cleanup result is invalid" in
  let! cleanup := item d "cleanup_state" in
  let! reason := item d "reason_code" in
  let! detached := in_set status ["DETACHED"; "ALREADY_DETACHED"]%string in
  if detached then raise_if (negb (is_str cleanup "ATTACH_PTY_CLOSED") || negb (is_none reason)) bad
  else
    let reasons := if is_str status "DETACH_IN_PROGRESS" then ["DETACH_IN_PROGRESS"; "RECONCILIATION_REQUIRED"] else ["DETACH_FAILED"; "RECONCILIATION_REQUIRED"] in
    if negb (is_str cleanup "ATTACH_PTY_CLOSE_UNCERTAIN") then Raise bad
    else let! b := in_set reason reasons%string in raise_if (negb b) bad.

Definition response_checks (a : action) (d : pydict) (status : pyval) : result unit :=
  match a with
  | BIND =>
      check_fields d [("api_authority_epoch", u64); ("runtime_epoch", u64); ("runtime_host_installation_id", HOST_ID);
                      ("runtime_host_installation_revision", u64); ("host_manifest_digest", DIGEST); ("project_root_manifest_digest", DIGEST);
                      ("enrollment_epoch", u64); ("enrollment_state", one_of ["bootstrap"; "steady"; "rotation"] "enrollment_state is invalid")]%string
  | REGISTER =>
      check_fields d [("project_id", PROJECT_ID); ("binding_revision", u64); ("binding_digest", DIGEST); ("runtime_host_installation_id", HOST_ID);
                      ("runtime_host_installation_revision", u64)]%string
  | FINALIZE => check_fields d [("runtime_epoch", u64); ("binding_count", decimal_u64 true); ("inventory_digest", DIGEST)]%string
  | START | STOP =>
      run! check_fields d (identity_checks ++ [("generation", u64)]%string) in
      run! check_fields d (if bool_decide (a = START)
                           then [("runtime_host_installation_id", HOST_ID); ("runtime_host_installation_revision", u64)]%string else []) in
      check_fields d [("state", one_of WORKSPACE_STATES "state is invalid")]%string
  | STATUS =>
      run! check_fields d (identity_checks ++ [("generation", u64); ("binding_revision", u64); ("binding_digest", DIGEST); ("runtime_epoch", u64)]%string) in
      run! states_ d [("state", WORKSPACE_STATES); ("reconciliation_state", RECONCILIATION_STATES); ("process_state", PROCESS_STATES)]%string
             "status state is invalid" in
      check_fields d [("exit_code", exit_code_); ("attachment_capacity", attachment_capacity_)]%string
  | RECONCILE =>
      run! check_fields d (identity_checks ++ [("generation", u64); ("binding_revision", u64); ("runtime_epoch", u64); ("binding_digest", DIGEST)]%string) in
      states_ d [("state", WORKSPACE_STATES); ("reconciliation_state", RECONCILIATION_STATES)]%string "reconciliation state is invalid"
  | EVIDENCE =>
      check_fields d (identity_checks ++
        [("generation", u64); ("binding_revision", u64); ("runtime_host_installation_revision", u64); ("runtime_epoch", u64); ("binding_digest", DIGEST);
         ("runtime_host_installation_id", HOST_ID); ("executable_fingerprint", DIGEST)]%string)
  | PREPARE =>
      run! check_fields d tuple_checks in
      run! check_fields d resume_checks in
      if is_str status "PREPARED" then check_fields d [("capability", CAPABILITY)]%string
      else raise_if (dhas d $"capability") (control_error "capability is forbidden for non-prepared response")
  | DETACH => run! check_fields d tuple_checks in detach_result d status
  end.

(** [hmac.compare_digest] of two strings *)
Definition compare_digest_str (a b : pystr) : result bool :=
  if forallb (fun c => c <? 128) a && forallb (fun c => c <? 128) b then Ok (str_eqb a b)
  else Raise (err PyTypeError "comparing strings with non-ASCII characters is not supported").

Definition expect_request_id (d : pydict) (expected : option pyval) : result unit :=
  match expected with
  | None => Ok tt
  | Some v =>
      run! string_ (match_id $"wreq") "expected_request_id" v in
      let mismatch := control_error "response request_id does not match request" in
      match dget d $"request_id", v with
      | Some (PStr r), PStr e => let! same := compare_digest_str r e in raise_if (negb same) mismatch
      | _, _ => Raise mismatch
      end
  end.

(** [_validate_response] *)
Definition validate_response (d : pydict) (action_ : pystr) (expected_request_id : option pyval) : result pydict :=
  run! expect_request_id d expected_request_id in
  match action_of action_ with
  | None => Raise (control_error "unsupported WAW control action")
  | Some a =>
      let status := default PNone (dget d $"status") in
      if is_str status "ERROR" then response_error d
      else
        let expected := response_fields a in
        let expected := if bool_decide (a = PREPARE) && negb (is_str status "PREPARED")
                        then filter (fun k => k <> "capability"%string) expected else expected in
        run! response_common d expected in
        run! check_status a status in
        run! response_checks a d status in
        Ok d
  end.

Definition decode_control_response (raw : bytes) (action_ : pystr) (expected_request_id : option pyval) : result pydict :=
  let! d := load_line raw in validate_response d action_ expected_request_id.

Definition encode_control_response (d : pydict) (action_ : pystr) : result bytes :=
  run! validate_response d action_ None in
  encode_line d "control response is not strict JSON".

(** ** Binding inventories *)

Definition INVENTORY_FIELDS : list string :=
  ["project_id"; "relative_key"; "project_revision"; "binding_revision"; "previous_binding_revision"; "previous_binding_digest"; "binding_digest";
   "runtime_host_installation_id"; "runtime_host_installation_revision"]%string.

(** An entry of the projection: its project and the row *)
Definition Row : Type := pystr * list pyval.

Definition inventory_row (v : pyval) : result Row :=
  match v with
  | PDict d =>
      run! raise_if (negb (keys_equal (dkeys d) (names INVENTORY_FIELDS))) (control_error "binding inventory item fields are not exact") in
      run! check_fields d [("project_id", PROJECT_ID); ("relative_key", RELATIVE_KEY); ("project_revision", u64); ("binding_revision", u64)]%string in
      let! previous := item d "previous_binding_revision" in
      let! previous_digest := item d "previous_binding_digest" in
      let! revision := item d "binding_revision" in
      run! predecessor revision previous previous_digest "first inventory binding cannot have a predecessor" "inventory predecessor must be exact" in
      run! check_fields d [("binding_digest", DIGEST); ("runtime_host_installation_id", HOST_ID); ("runtime_host_installation_revision", u64)]%string in
      let! project := item d "project_id" in
      let! row := seq_results (map (item d) INVENTORY_FIELDS) in
      match project with
      | PStr p => Ok (p, row)
      | _ => Raise (control_error "project_id is invalid")
      end
  | _ => Raise (control_error "binding inventory item fields are not exact")
  end.

(** [a <= b] on strings *)
Fixpoint str_leb (a b : pystr) : bool :=
  match a, b with
  | [], _ => true
  | _, [] => false
  | x :: a', y :: b' => (x <? y) || ((x =? y) && str_leb a' b')
  end.

(** [projection.sort(key=lambda item: item[0])] *)
Fixpoint insert_row (r : Row) (l : list Row) : list Row :=
  match l with
  | [] => [r]
  | x :: rest => if str_leb (fst r) (fst x) then r :: l else x :: insert_row r rest
  end.

Fixpoint sort_rows (l : list Row) : list Row :=
  match l with
  | [] => []
  | r :: rest => insert_row r (sort_rows rest)
  end.

Fixpoint neighbours_equal (l : list Row) : bool :=
  match l with
  | a :: rest => match rest with b :: _ => str_eqb (fst a) (fst b) || neighbours_equal rest | [] => false end
  | [] => false
  end.

(** The ASCII text that is hashed *)
Definition inventory_text (rows : list Row) : result pystr := dumps_ascii (PList (map (fun r => PList (snd r)) rows)).

Definition inventory_rows (items : list pyval) : result (list Row) :=
  run! raise_if (256 <? blen items) (control_error "binding inventory exceeds 256 entries") in
  let! rows := seq_results (map inventory_row items) in
  let projection := sort_rows rows in
  run! raise_if (neighbours_equal projection) (control_error "binding inventory project_id is duplicated") in
  Ok projection.

Definition binding_inventory_digest (items : list pyval) : result (pystr * pystr) :=
  let! projection := inventory_rows items in
  let! text := inventory_text projection in
  let! encoded := py_encode text in
  Ok (str_of_Z (blen projection), hexdigest (sha256 encoded)).

End Keys.

(** ** Lemmas: lines *)

(** The values of messages: scalars without floats and bytes, and one level of
    objects *)
Definition flat (v : pyval) : bool := match v with PNone | PBool _ | PInt _ | PStr _ => true | _ => false end.
Definition shallow (v : pyval) : bool := flat v || match v with PDict d => forallb (fun kv => flat (snd kv)) d | _ => false end.
Definition inner_keys (v : pyval) : Z := match v with PDict d => blen d | _ => 0 end.
Definition total_keys (d : pydict) : Z := foldr Z.add 0 (map (fun kv => 1 + inner_keys (snd kv)) d).

(** The characters of the strings in a value *)
Fixpoint value_text (v : pyval) : pystr :=
  match v with
  | PStr s => s
  | PList l => flat_map value_text l
  | PDict d => flat_map (fun kv => value_text (snd kv)) d
  | _ => []
  end.

Definition clean (s : pystr) : Prop := forall c, c ∈ s -> is_surrogate c = false.

Lemma clean_app (a b : pystr) : clean (a ++ b) -> clean a /\ clean b.
Proof. intros H. split; intros c Hc; apply H, elem_of_app; auto. Qed.

Lemma walk_flat (v : pyval) (depth keys : Z) : flat v = true -> depth <= MAX_CONTROL_DEPTH -> clean (value_text v) -> walk v depth keys = Ok keys.
Proof.
  intros Hf Hd Hc. destruct v as [| b | z | t | s | raw | l | d]; try done; cbn [walk]; replace (MAX_CONTROL_DEPTH <? depth) with false by lia; try done.
  replace (existsb is_surrogate s) with false; [done |]. symmetry. apply not_true_iff_false. intros (c & Hin & Hs)%existsb_exists.
  rewrite (Hc c) in Hs; [done |]. by apply list_elem_of_In.
Qed.

Lemma walk_members_step (f : pyval -> Z -> result Z) (size : pyval -> Z) (d : pydict) : forall keys,
  (forall v, 0 <= size v) -> (forall kv k, kv ∈ d -> k + size (snd kv) <= MAX_CONTROL_KEYS -> f (snd kv) k = Ok (k + size (snd kv))) ->
  keys + foldr Z.add 0 (map (fun kv => 1 + size (snd kv)) d) <= MAX_CONTROL_KEYS ->
  walk_members f d keys = Ok (keys + foldr Z.add 0 (map (fun kv => 1 + size (snd kv)) d)).
Proof.
  induction d as [|kv d IH]; intros keys Hs Hf Hk; cbn [map foldr walk_members]; [f_equal; lia |]. cbn [map foldr] in Hk.
  pose proof (Hs (snd kv)). assert (0 <= foldr Z.add 0 (map (fun kv => 1 + size (snd kv)) d)).
  { clear -Hs. induction d as [|x d IH]; cbn; [lia |]. pose proof (Hs (snd x)). lia. }
  replace (MAX_CONTROL_KEYS <? keys + 1) with false by lia. cbn [raise_if rbind]. rewrite Hf by (try left; lia). cbn [rbind].
  change ((fix go (d0 : list (pystr * pyval)) (keys0 : Z) {struct d0} : result Z := _) d (keys + 1 + size (snd kv)))
    with (walk_members f d (keys + 1 + size (snd kv))).
  rewrite IH; [f_equal; lia | done | intros; apply Hf; [by right | done] | lia].
Qed.

Lemma inner_keys_nonneg (v : pyval) : 0 <= inner_keys v.
Proof. destruct v; try done. apply blen_nonneg. Qed.

Lemma sum_ones (d : pydict) : foldr Z.add 0 (map (fun _ => 1 + 0) d) = blen d.
Proof. unfold blen. induction d as [|x d IH]; cbn [map foldr length]; lia. Qed.

Lemma clean_member (d : pydict) (kv : pystr * pyval) : clean (value_text (PDict d)) -> kv ∈ d -> clean (value_text (snd kv)).
Proof. intros H Hin c Hc. apply H. cbn. apply list_elem_of_In, in_flat_map. exists kv. by rewrite <- !list_elem_of_In. Qed.

Lemma walk_message (d : pydict) : forallb (fun kv => shallow (snd kv)) d = true -> total_keys d <= MAX_CONTROL_KEYS -> clean (value_text (PDict d)) ->
  exists n, walk (PDict d) 0 0 = Ok n.
Proof.
  intros Hs Hk Hc. exists (0 + total_keys d). cbn [walk]. change (MAX_CONTROL_DEPTH <? 0) with false. cbn match.
  apply walk_members_step; [apply inner_keys_nonneg | | done]. intros kv k Hin Hl.
  rewrite forallb_forall in Hs. specialize (Hs kv ltac:(by apply list_elem_of_In)). pose proof (clean_member _ _ Hc Hin) as Hv.
  unfold shallow in Hs. apply orb_true_iff in Hs as [Hs | Hs].
  - rewrite walk_flat; [| done | unfold MAX_CONTROL_DEPTH; lia | done]. destruct (snd kv); try done; cbn; f_equal; lia.
  - destruct (snd kv) as [| | | | | | | cap] eqn:Ev; try done. cbn [walk inner_keys]. change (MAX_CONTROL_DEPTH <? 0 + 1) with false. cbn match.
    rewrite <- (sum_ones cap). apply (walk_members_step _ (fun _ => 0)); [done | | cbn [inner_keys] in Hl; rewrite sum_ones; lia].
    intros kv' k' Hin' _. rewrite forallb_forall in Hs. rewrite Z.add_0_r.
    apply walk_flat; [by apply Hs, list_elem_of_In | unfold MAX_CONTROL_DEPTH; lia | by eapply clean_member].
Qed.

Lemma utf8_clean (s : pystr) (b : bytes) : utf8_encode s = Some b -> clean s.
Proof.
  revert b. induction s as [|c s IH]; intros b H x Hx; [by apply elem_of_nil in Hx |]. cbn [utf8_encode] in H.
  destruct (utf8_encode1 c) as [a |] eqn:Ea; [| done]. destruct (utf8_encode s) as [r |] eqn:Er; [| done].
  apply elem_of_cons in Hx as [-> | Hx]; [| by eapply IH]. unfold utf8_encode1 in Ea. by destruct (is_surrogate c); [rewrite orb_true_r in Ea |].
Qed.

Lemma dumps_string_elem (s : pystr) (c : Z) : c ∈ s -> is_surrogate c = true -> c ∈ dumps_string s.
Proof.
  intros Hc Hs. unfold dumps_string. apply elem_of_cons. right. apply elem_of_app. left. apply list_elem_of_In, in_flat_map. exists c.
  split; [by apply list_elem_of_In |]. unfold escape_char, is_surrogate, in_range in *.
  repeat match goal with |- context [if ?b then _ else _] => replace b with false by lia end. by left.
Qed.

Lemma join_comma_elem (parts : list pystr) (p : pystr) (c : Z) : p ∈ parts -> c ∈ p -> c ∈ join_comma parts.
Proof.
  induction parts as [|q parts IH]; intros Hp Hc; [by apply elem_of_nil in Hp |]. apply elem_of_cons in Hp as [<- | Hp].
  - destruct parts; [done |]. cbn. apply elem_of_app. by left.
  - specialize (IH Hp Hc). destruct parts; [by apply elem_of_nil in Hp |]. cbn [join_comma]. apply elem_of_app. right. by right.
Qed.

Lemma seq_results_elem {A B} (f : A -> result B) (l : list A) (ys : list B) (x : A) :
  seq_results (map f l) = Ok ys -> x ∈ l -> exists y, f x = Ok y /\ y ∈ ys.
Proof.
  revert ys. induction l as [|a l IH]; intros ys H Hx; [by apply elem_of_nil in Hx |]. unfold seq_results in H. cbn [map foldr] in H.
  apply rbind_ok in H as (y & Ey & H). apply rbind_ok in H as (r & Er & <-%Ok_inj). apply elem_of_cons in Hx as [-> | Hx].
  - exists y. split; [done | left].
  - destruct (IH r Er Hx) as (z & Hz & Hin). exists z. split; [done | by right].
Qed.

Lemma dumps_surrogate (v : pyval) : forall t c, dumps v = Ok t -> c ∈ value_text v -> is_surrogate c = true -> c ∈ t.
Proof.
  induction v as [| b | z | f | s | raw | l IH | d IH] using pyval_ind; intros t c Ht Hc Hs; cbn [value_text] in Hc; try (by apply elem_of_nil in Hc).
  - injection Ht as <-. by apply dumps_string_elem.
  - cbn [dumps] in Ht. apply rbind_ok in Ht as (parts & Hp & <-%Ok_inj). apply list_elem_of_In, in_flat_map in Hc as (x & Hx & Hc).
    apply list_elem_of_In in Hx. apply list_elem_of_In in Hc. destruct (seq_results_elem _ _ _ x Hp Hx) as (y & Ey & Hy).
    rewrite Forall_forall in IH. right. apply elem_of_app. left. eapply join_comma_elem; [exact Hy |]. by eapply IH.
  - cbn [dumps] in Ht. apply rbind_ok in Ht as (parts & Hp & <-%Ok_inj). apply list_elem_of_In, in_flat_map in Hc as (x & Hx & Hc).
    apply list_elem_of_In in Hx. apply list_elem_of_In in Hc. destruct (seq_results_elem _ _ _ x Hp Hx) as (y & Ey & Hy).
    rewrite Forall_forall in IH. apply rbind_ok in Ey as (u & Eu & <-%Ok_inj). right. apply elem_of_app. left.
    eapply join_comma_elem; [exact Hy |]. apply elem_of_app. right. right. by eapply IH.
Qed.

(** No character of a printed value is a line feed, and an object starts and ends
    with its braces. *)
Lemma utf8_encode_app (a b : pystr) (x : bytes) : utf8_encode (a ++ b) = Some x ->
  exists p q, utf8_encode a = Some p /\ utf8_encode b = Some q /\ x = p ++ q.
Proof.
  revert x. induction a as [|c a IH]; intros x H; [by exists [], x |]. cbn [app utf8_encode] in *.
  destruct (utf8_encode1 c) as [e |]; [| done]. destruct (utf8_encode (a ++ b)) as [r |] eqn:Er; [| done]. injection H as <-.
  destruct (IH r eq_refl) as (p & q & Hp & Hq & ->). rewrite Hp. exists (e ++ p), q. by rewrite app_assoc.
Qed.

Lemma utf8_no_byte (s : pystr) (b : bytes) (x : byte) : 0 <= b2z x < 128 -> utf8_encode s = Some b -> x ∈ b -> b2z x ∈ s.
Proof.
  intros Hx. revert b. induction s as [|c s IH]; intros b H Hin; cbn [utf8_encode] in H; [injection H as <-; by apply elem_of_nil in Hin |].
  destruct (utf8_encode1 c) as [a |] eqn:Ea; [| done]. destruct (utf8_encode s) as [r |] eqn:Er; [| done]. injection H as <-.
  apply elem_of_app in Hin as [Hin | Hin]; [| right; by eapply IH]. unfold utf8_encode1 in Ea.
  destruct ((c <? 0) || (1114111 <? c) || is_surrogate c) eqn:E0; [done |]. bool_to_prop.
  assert (K : forall l, Forall (fun z => 128 <= z < 256) l -> x ∈ map z2b l -> False).
  { intros l Hl Hm. apply list_elem_of_In, in_map_iff in Hm as (z & <- & Hz). rewrite Forall_forall in Hl.
    specialize (Hl z ltac:(by apply list_elem_of_In)). rewrite b2z_z2b_small in Hx by lia. lia. }
  destruct (c <? 128) eqn:E1; [injection Ea as <-; apply list_elem_of_singleton in Hin as ->; bool_to_prop; rewrite b2z_z2b_small by lia; by left |].
  exfalso. destruct (c <? 2048) eqn:E2; [| destruct (c <? 65536) eqn:E3]; injection Ea as <-; bool_to_prop.
  - apply (K [192 + c / 64; 128 + c mod 64]); [| done]. repeat constructor; Z.to_euclidean_division_equations; lia.
  - apply (K [224 + c / 4096; 128 + c / 64 mod 64; 128 + c mod 64]); [| done]. repeat constructor; Z.to_euclidean_division_equations; lia.
  - apply (K [240 + c / 262144; 128 + c / 4096 mod 64; 128 + c / 64 mod 64; 128 + c mod 64]); [| done].
    repeat constructor; Z.to_euclidean_division_equations; lia.
Qed.

Lemma escape_printing (c x : Z) : 0 <= c -> x ∈ escape_char c -> 32 <= x.
Proof.
  intros Hc Hx. unfold escape_char in Hx.
  repeat (case_match; [by (repeat (apply elem_of_cons in Hx as [-> | Hx]; [try lia; unfold hex_char; Z.to_euclidean_division_equations; case_match; lia |]); apply elem_of_nil in Hx) |]).
  apply list_elem_of_singleton in Hx as ->. lia.
Qed.

Lemma join_comma_inv (parts : list pystr) (c : Z) : c ∈ join_comma parts -> c = 44 \/ exists p, p ∈ parts /\ c ∈ p.
Proof.
  induction parts as [|q parts IH]; intros Hc; [by apply elem_of_nil in Hc |]. destruct parts as [|r parts].
  - right. exists q. split; [left | done].
  - cbn [join_comma] in Hc. apply elem_of_app in Hc as [Hc | Hc]; [right; exists q; split; [left | done] |].
    apply elem_of_cons in Hc as [-> | Hc]; [by left |]. destruct (IH Hc) as [-> | (p & Hp & Hcp)]; [by left | right; exists p; split; [by right | done]].
Qed.

Lemma seq_results_inv {A B} (f : A -> result B) (l : list A) (ys : list B) (y : B) :
  seq_results (map f l) = Ok ys -> y ∈ ys -> exists x, x ∈ l /\ f x = Ok y.
Proof.
  revert ys. induction l as [|a l IH]; intros ys H Hy; unfold seq_results in H; cbn [map foldr] in H.
  { injection H as <-. by apply elem_of_nil in Hy. }
  apply rbind_ok in H as (b & Eb & H). apply rbind_ok in H as (r & Er & <-%Ok_inj). apply elem_of_cons in Hy as [-> | Hy].
  - exists a. split; [left | done].
  - destruct (IH r Er Hy) as (x & Hx & Ex). exists x. split; [by right | done].
Qed.

Lemma dumps_string_printing (s : pystr) (c : Z) : forallb (Z.leb 0) s = true -> c ∈ dumps_string s -> 32 <= c.
Proof.
  intros Hs Hc. unfold dumps_string in Hc. apply elem_of_cons in Hc as [-> | Hc]; [lia |].
  apply elem_of_app in Hc as [Hc | Hc]; [| apply list_elem_of_singleton in Hc as ->; lia].
  apply list_elem_of_In, in_flat_map in Hc as (x & Hx & Hc). rewrite forallb_forall in Hs. apply (escape_printing x); [by apply Z.leb_le, Hs |].
  by apply list_elem_of_In.
Qed.

Lemma str_of_Z_printing (z c : Z) : c ∈ str_of_Z z -> 32 <= c.
Proof.
  intros Hc. destruct (str_of_Z_shape z) as (d & r & E & _ & Hd & _). rewrite E in Hc. apply elem_of_app in Hc as [Hc | Hc].
  - destruct (z <? 0); [apply list_elem_of_singleton in Hc as ->; lia | by apply elem_of_nil in Hc].
  - rewrite forallb_forall in Hd. specialize (Hd c ltac:(by apply list_elem_of_In)). unfold is_digit, in_range in Hd. lia.
Qed.

Lemma brackets_printing (x y c : Z) (parts : list pystr) : 32 <= x -> 32 <= y -> (forall p, p ∈ parts -> c ∈ p -> 32 <= c) ->
  c ∈ x :: join_comma parts ++ [y] -> 32 <= c.
Proof.
  intros Hx Hy Hp Hc. apply elem_of_cons in Hc as [-> | Hc]; [done |]. apply elem_of_app in Hc as [Hc | Hc].
  - apply join_comma_inv in Hc as [-> | (p & Hin & Hc)]; [lia | by eapply Hp].
  - by apply list_elem_of_singleton in Hc as ->.
Qed.

Lemma dumps_printing (v : pyval) : forall t c, printable v = true -> dumps v = Ok t -> c ∈ t -> 32 <= c.
Proof.
  assert (K : forall w, forallb (fun x => 32 <=? x) $w = true -> forall c, c ∈ $w -> 32 <= c).
  { intros w Hw c Hc. rewrite forallb_forall in Hw. by apply Z.leb_le, Hw, list_elem_of_In. }
  induction v as [| b | z | f | s | raw | l IH | d IH] using pyval_ind; intros t c Hp Ht Hc; try discriminate Hp.
  - injection Ht as <-. by apply (K "null"%string).
  - destruct b; injection Ht as <-; [by apply (K "true"%string) | by apply (K "false"%string)].
  - injection Ht as <-. by eapply str_of_Z_printing.
  - injection Ht as <-. by eapply dumps_string_printing.
  - cbn [dumps] in Ht. apply rbind_ok in Ht as (parts & Hps & <-%Ok_inj). revert Hc. apply brackets_printing; [lia | lia |]. intros p Hin Hc.
    destruct (seq_results_inv _ _ _ p Hps Hin) as (x & Hx & Ex). rewrite Forall_forall in IH. cbn [printable] in Hp. rewrite forallb_forall in Hp.
    eapply IH; [exact Hx | by apply Hp, list_elem_of_In | exact Ex | exact Hc].
  - cbn [dumps] in Ht. apply rbind_ok in Ht as (parts & Hps & <-%Ok_inj). revert Hc. apply brackets_printing; [lia | lia |]. intros p Hin Hc.
    destruct (seq_results_inv _ _ _ p Hps Hin) as (x & Hx & Ex). rewrite Forall_forall in IH. cbn [printable] in Hp. rewrite forallb_forall in Hp.
    specialize (Hp x ltac:(by apply list_elem_of_In)). apply andb_true_iff in Hp as [Hk Hv]. apply rbind_ok in Ex as (u & Eu & <-%Ok_inj).
    apply elem_of_app in Hc as [Hc | Hc]; [by eapply dumps_string_printing |]. apply elem_of_cons in Hc as [-> | Hc]; [lia |].
    eapply IH; [exact Hx | exact Hv | exact Eu | exact Hc].
Qed.

Lemma dumps_object (d : pydict) (t : pystr) : dumps (PDict d) = Ok t -> exists c r, t = 123 :: c :: r.
Proof.
  cbn [dumps]. intros H. apply rbind_ok in H as (parts & _ & <-%Ok_inj). destruct (join_comma parts ++ [125]) as [|c r] eqn:E; [| by exists c, r].
  by apply app_eq_nil in E as [_ ?].
Qed.

Lemma utf8_encode1_nonempty (c : Z) : utf8_encode1 c <> Some [].
Proof. unfold utf8_encode1. repeat case_match; done. Qed.

Lemma pairs_unique (d : pydict) : NoDup (dkeys d) -> pairs_ tt d = Ok (tt, PDict d).
Proof. intros Hd. unfold pairs_. by rewrite (unique_pairs_ok _ [] d). Qed.

(** The text of an object is detected as UTF-8. *)
Lemma object_detected (d : pydict) (t : pystr) (b : bytes) :
  printable (PDict d) = true -> dumps (PDict d) = Ok t -> utf8_encode t = Some b -> decode_detected b = Some t.
Proof.
  intros Hp Et Eu. pose proof (utf8_decode_encode _ _ Eu) as Hd. assert (Hpr : forall c, c ∈ t -> 32 <= c) by (intros c; by apply (dumps_printing (PDict d))).
  pose proof Eu as Eb. destruct (dumps_object d t Et) as (c & r & ->). cbn [utf8_encode] in Eu.
  change (utf8_encode1 123) with (Some [z2b 123]) in Eu. destruct (utf8_encode1 c) as [[|y p] |] eqn:Ec; [| | done].
  - by apply utf8_encode1_nonempty in Ec.
  - destruct (utf8_encode r) as [q |]; [| done]. injection Eu as <-. apply decode_detected_utf8; [done | | done].
    intros Hy. pose proof (b2z_range y). assert (Hin : b2z y ∈ 123 :: c :: r) by (eapply utf8_no_byte; [| exact Eb |]; [lia | right; left]).
    apply Hpr in Hin. lia.
Qed.

(** Printing a message and loading the line gives the message back. *)
Lemma load_encoded (d : pydict) (message : string) (raw : bytes) :
  printable (PDict d) = true -> unique_keys (PDict d) = true -> forallb (fun kv => shallow (snd kv)) d = true ->
  total_keys d <= MAX_CONTROL_KEYS -> encode_line d message = Ok raw -> load_line raw = Ok d.
Proof.
  intros Hp Hu Hs Hk E. unfold encode_line in E. apply rbind_ok in E as (x & Ex & E). apply except_as_ok in Ex.
  apply rbind_ok in E as ([] & Hl%raise_if_ok & <-%Ok_inj). apply rbind_ok in Ex as (t & Et & Ex). apply rbind_ok in Ex as (b & Eb & <-%Ok_inj).
  unfold py_encode in Eb. destruct (utf8_encode t) as [b' |] eqn:Eu; [| done]. injection Eb as ->.
  assert (Hpr : forall c, c ∈ t -> 32 <= c) by (intros c; by apply (dumps_printing (PDict d))).
  assert (Hno : forall y, b2z y < 32 -> y ∈ b -> False).
  { intros y Hy Hin. pose proof (b2z_range y). apply (utf8_no_byte t b y) in Hin; [apply Hpr in Hin; lia | lia | done]. }
  assert (Hc : clean (value_text (PDict d))).
  { intros c Hc. destruct (is_surrogate c) eqn:Es; [| done]. rewrite <- Es. eapply utf8_clean; [exact Eu |]. by eapply dumps_surrogate. }
  rewrite blen_app in Hl. change (blen [LF]) with 1 in Hl. unfold load_line, MAX_CONTROL_LINE, MAX_CONTROL_ENVELOPE in *. rewrite blen_app.
  change (blen [LF]) with 1. bool_to_prop. replace (16 * 1024 <? blen b + 1) with false by lia. cbn [raise_if rbind].
  rewrite removelast_last, last_snoc. rewrite (bool_decide_eq_true_2 (Some LF = Some LF)) by done.
  rewrite (bool_decide_eq_false_2 (LF ∈ b)) by (intros Hin; by apply (Hno LF)).
  rewrite (bool_decide_eq_false_2 (last b = Some CR)) by (intros Hin%last_Some_elem_of; by apply (Hno CR)).
  cbn [negb orb raise_if rbind]. replace (4 * 1024 <? blen b + 1) with false by lia. cbn [raise_if rbind].
  assert (Hdec : decode_detected b = Some t) by (by apply (object_detected d)).
  unfold loads_body. rewrite Hdec, (loads_dumps _ _ _ _ _ _ Hp Et), read_back_plain by (done || apply pairs_unique).
  cbn [rbind except_as]. destruct (walk_message d Hs Hk Hc) as (n & ->). done.
Qed.

(** ** Lemmas: validated messages *)

Definition code_point (c : Z) : bool := in_range 0 c 1114111.

(** Every string in the value is a sequence of code points, as every Python string. *)
Fixpoint code_points (v : pyval) : bool :=
  match v with
  | PStr s => forallb code_point s
  | PList l => forallb code_points l
  | PDict d => forallb (fun kv => forallb code_point (fst kv) && code_points (snd kv)) d
  | _ => true
  end.

(** A dictionary as Python has them: unique keys and strings of code points *)
Definition py_dict (d : pydict) : Prop := unique_keys (PDict d) = true /\ code_points (PDict d) = true.

Lemma code_points_nonneg (s : pystr) : forallb code_point s = true -> forallb (Z.leb 0) s = true.
Proof. rewrite !forallb_forall. intros H c Hc. specialize (H c Hc). unfold code_point, in_range in H. lia. Qed.

Lemma keys_equal_elem (a b : list pystr) : keys_equal a b = true -> forall k, k ∈ a <-> k ∈ b.
Proof.
  unfold keys_equal, keys_superset. intros [H1 H2]%andb_true_iff k. rewrite forallb_forall in H1, H2.
  split; intros Hk; apply str_in_elem; [apply H2 | apply H1]; by apply list_elem_of_In.
Qed.

Lemma py_dict_nodup (d : pydict) : py_dict d -> NoDup (dkeys d).
Proof. intros [[H _]%andb_true_iff _]. by apply bool_decide_eq_true_1 in H. Qed.

Lemma py_dict_inner (d cap : pydict) (k : pystr) : py_dict d -> (k, PDict cap) ∈ d -> py_dict cap.
Proof.
  intros [[_ Hu]%andb_true_iff Hc] Hin. cbn [code_points] in Hc. rewrite forallb_forall in Hu, Hc. apply list_elem_of_In in Hin.
  split; [exact (Hu _ Hin) |]. specialize (Hc _ Hin). by apply andb_true_iff in Hc as [_ Hc].
Qed.

(** The field is present, with a value of [n] inner keys at most. *)
Definition present (d : pydict) (n : Z) (k : string) : Prop :=
  exists v, dget d (ustr k) = Some v /\ shallow v = true /\ inner_keys v <= n.

Definition flat_check (c : check) : Prop := forall k v, c k v = Ok tt -> flat v = true.

Lemma present_flat (d : pydict) (n : Z) (k : string) (v : pyval) : 0 <= n -> dget d (ustr k) = Some v -> flat v = true -> present d n k.
Proof. intros Hn Hv Hf. exists v. unfold shallow. rewrite Hf. split; [done |]. split; [done |]. by destruct v. Qed.

Lemma string_flat (p : pystr -> bool) : flat_check (string_ p).
Proof. by intros k []. Qed.

Lemma decimal_flat (b : bool) : flat_check (decimal_u64 b).
Proof. by intros k []. Qed.

Lemma optional_flat (c : check) : flat_check c -> flat_check (optional c).
Proof. intros H k [] Hc; try done; by apply (H k). Qed.

Lemma one_of_flat (l : list string) (m : string) : flat_check (one_of l m).
Proof. by intros k []. Qed.

Lemma equals_flat (s m : string) : flat_check (equals s m).
Proof. by intros k []. Qed.

Lemma boolean_flat (m : string) : flat_check (boolean_ m).
Proof. by intros k []. Qed.

Lemma exit_code_flat : flat_check exit_code_.
Proof. by intros k []. Qed.

Lemma relative_key_flat `{Unicode} : flat_check RELATIVE_KEY.
Proof. by intros k []. Qed.

Create HintDb flat.
#[export] Hint Resolve string_flat decimal_flat optional_flat one_of_flat equals_flat boolean_flat exit_code_flat relative_key_flat : flat.

Lemma item_ok (d : pydict) (k : string) (v : pyval) : item d k = Ok v -> dget d (ustr k) = Some v.
Proof. unfold item. by destruct (dget d (ustr k)) as [w |]; [intros [= ->] |]. Qed.

Lemma check_fields_ok (d : pydict) (l : list (string * check)) (u : unit) : check_fields d l = Ok u ->
  Forall (fun kc => exists v, dget d (ustr (fst kc)) = Some v /\ snd kc (fst kc) v = Ok tt) l.
Proof.
  revert u. induction l as [|[k c] l IH]; intros u H; [constructor |]. cbn [check_fields] in H. apply rbind_ok in H as (v & Ev & H).
  apply rbind_ok in H as ([] & Ec & H). constructor; [| by eapply IH]. exists v. split; [by apply item_ok | done].
Qed.

Lemma check_fields_cons (d : pydict) (x : string * check) (l : list (string * check)) (u : unit) :
  check_fields d (x :: l) = Ok u -> check_fields d [x] = Ok tt /\ check_fields d l = Ok u.
Proof.
  destruct x as [k c]. cbn [check_fields]. intros E. apply rbind_ok in E as (v & -> & E). apply rbind_ok in E as ([] & Ec & E). cbn [rbind].
  by rewrite Ec.
Qed.

Lemma check_fields_present (d : pydict) (n : Z) (l : list (string * check)) (u : unit) : 0 <= n -> check_fields d l = Ok u ->
  Forall (fun kc => flat_check (snd kc)) l -> Forall (fun kc => present d n (fst kc)) l.
Proof.
  intros Hn H%check_fields_ok Hf. rewrite Forall_forall in H, Hf |- *. intros kc Hin. destruct (H kc Hin) as (v & Hv & Hc).
  eapply present_flat; [done | exact Hv |]. by eapply (Hf kc Hin).
Qed.

Lemma dget_nodup (d : pydict) (k : pystr) (v : pyval) : NoDup (dkeys d) -> (k, v) ∈ d -> dget d k = Some v.
Proof.
  induction d as [|[k' v'] d IH]; intros Hd Hin; [by apply elem_of_nil in Hin |]. unfold dkeys in Hd. cbn [map fst] in Hd. apply NoDup_cons in Hd as [Hk Hd].
  cbn [dget]. apply elem_of_cons in Hin as [[= <- <-] | Hin]; [by rewrite str_eqb_refl |].
  destruct (str_eqb k k') eqn:E; [| by apply IH]. apply str_eqb_eq in E as ->. exfalso. apply Hk, list_elem_of_In, in_map_iff.
  exists (k', v). by rewrite <- list_elem_of_In.
Qed.

Lemma key_count (d : pydict) (l : list string) : NoDup (dkeys d) -> keys_equal (dkeys d) (names l) = true -> blen d <= blen l.
Proof.
  intros Hd Hk. unfold blen. apply Nat2Z.inj_le. replace (length d) with (length (dkeys d)) by apply length_map.
  replace (length l) with (length (names l)) by apply length_map. apply NoDup_incl_length; [by apply NoDup_ListNoDup |].
  intros k Hin. apply list_elem_of_In. apply list_elem_of_In in Hin. by apply (keys_equal_elem _ _ Hk).
Qed.

Lemma fields_forall (P : pyval -> Prop) (d : pydict) (l : list string) :
  NoDup (dkeys d) -> keys_equal (dkeys d) (names l) = true -> Forall (fun k => exists v, dget d (ustr k) = Some v /\ P v) l ->
  forall kv, kv ∈ d -> P (snd kv).
Proof.
  intros Hnd Hk Hl [k v] Hin. assert (Hkd : k ∈ dkeys d) by (apply list_elem_of_In, in_map_iff; exists (k, v); by rewrite <- list_elem_of_In).
  apply (keys_equal_elem _ _ Hk) in Hkd. apply list_elem_of_In, in_map_iff in Hkd as (x & <- & Hx). rewrite Forall_forall in Hl.
  destruct (Hl x ltac:(by apply list_elem_of_In)) as (w & Hw & HP). rewrite (dget_nodup d (ustr x) v Hnd Hin) in Hw. by injection Hw as <-.
Qed.

(** A message with exactly the fields [l], all present, can be printed and is small. *)
Lemma fields_message (d : pydict) (l : list string) (n : Z) :
  py_dict d -> keys_equal (dkeys d) (names l) = true -> Forall (present d n) l -> 0 <= n -> (1 + n) * blen l <= MAX_CONTROL_KEYS ->
  printable (PDict d) = true /\ forallb (fun kv => shallow (snd kv)) d = true /\ total_keys d <= MAX_CONTROL_KEYS.
Proof.
  intros Hd Hk Hl Hn Hb. pose proof (py_dict_nodup d Hd) as Hnd.
  pose proof (fields_forall (fun v => shallow v = true /\ inner_keys v <= n) d l Hnd Hk Hl) as Hm.
  split_and!.
  - destruct Hd as [_ Hc]. cbn [printable code_points] in *. rewrite forallb_forall in Hc |- *. intros kv Hin. specialize (Hc kv Hin).
    apply andb_true_iff in Hc as [Hc1 Hc2]. rewrite (code_points_nonneg _ Hc1). cbn [andb]. destruct (Hm kv ltac:(by apply list_elem_of_In)) as [Hs _].
    unfold shallow in Hs. destruct (snd kv) as [| | | | | | | cap]; try done; [by apply code_points_nonneg |]. cbn [orb flat] in Hs. cbn [printable code_points] in *.
    rewrite forallb_forall in Hc2, Hs |- *. intros x Hx. specialize (Hc2 x Hx). apply andb_true_iff in Hc2 as [Hc3 Hc2]. specialize (Hs x Hx).
    rewrite (code_points_nonneg _ Hc3). destruct (snd x); try done. by apply code_points_nonneg.
  - apply forallb_forall. intros kv Hin. by apply Hm, list_elem_of_In.
  - etrans; [| exact Hb]. etrans; [| apply Z.mul_le_mono_nonneg_l; [lia |]; apply (key_count d l Hnd Hk)].
    clear -Hm. unfold total_keys, blen. induction d as [|kv d IH]; cbn [map foldr length]; [lia |].
    destruct (Hm kv ltac:(left)) as [_ Hi]. specialize (IH ltac:(intros x Hx; apply Hm; by right)). lia.
Qed.

(** Split what succeeded into the fields it showed present. *)
Ltac presents n :=
  repeat match goal with
  | H : rbind _ _ = Ok _ |- _ => apply rbind_ok in H as (? & ? & H)
  | H : check_fields _ (if ?b then _ else _) = Ok _ |- _ => destruct b
  | H : check_fields ?d ?l = Ok _ |- _ =>
      apply (check_fields_present d n) in H; [| lia | repeat (constructor; [by eauto with flat |]); constructor];
      repeat (apply Forall_cons in H as [? H]); clear H; cbn [fst] in *
  end.

Lemma common_present (d : pydict) (s : pystr) (u : unit) (n : Z) : 0 <= n -> common_ d s = Ok u -> Forall (present d n) COMMON.
Proof.
  intros Hn H. unfold common_ in H. apply rbind_ok in H as ([] & Hv%raise_if_ok & H). apply rbind_ok in H as ([] & Hr & H%raise_if_ok).
  apply negb_false_iff in Hv, H. unfold COMMON. repeat constructor.
  - destruct (dget d $"protocol_version") as [[] |] eqn:E; try done. by eapply present_flat.
  - destruct (dget d $"request_id") as [v |] eqn:E; [| done]. eapply present_flat; [done | exact E |]. by eapply string_flat.
  - destruct (dget d $"action") as [[] |] eqn:E; try done. by eapply present_flat.
Qed.

Section Messages.
Context `{Unicode}.

Lemma predecessor_present (d : pydict) (r p q : pyval) (m1 m2 : string) :
  item d "previous_binding_revision" = Ok p -> item d "previous_binding_digest" = Ok q -> predecessor r p q m1 m2 = Ok tt ->
  present d 0 "previous_binding_revision" /\ present d 0 "previous_binding_digest".
Proof.
  intros Hp%item_ok Hq%item_ok E. assert (flat p = true /\ flat q = true) as [Fp Fq]; [| split; by eapply present_flat].
  unfold predecessor in E. destruct (is_str r "1").
  - apply raise_if_ok, negb_false_iff, andb_true_iff in E as [E1 E2]. by destruct p, q.
  - apply rbind_ok in E as ([] & E1 & E). apply rbind_ok in E as ([] & E2 & _). split; [by eapply decimal_flat | by eapply string_flat].
Qed.

Lemma request_present (a : action) (d : pydict) (s : pystr) (u v : unit) :
  common_ d s = Ok u -> request_checks a d = Ok v -> Forall (present d 0) (request_fields a).
Proof.
  intros Hc Hr. apply (common_present _ _ _ 0) in Hc; [| done]. unfold request_fields. apply Forall_app. split; [done |]. clear Hc.
  destruct a; cbn [request_checks] in Hr; unfold workspace_checks, attach_checks, resume_checks in Hr; presents 0%Z;
    try (cbn [app]; unfold WORKSPACE_FIELDS, TUPLE_FIELDS; cbn [app]; by repeat constructor).
  match goal with H : predecessor _ _ _ _ _ = Ok ?x |- _ => destruct x; destruct (predecessor_present d _ _ _ _ _ ltac:(eassumption) ltac:(eassumption) H) end.
  by repeat constructor.
Qed.

Lemma validate_request_message (d r : pydict) : py_dict d -> validate_request d = Ok r ->
  r = d /\ printable (PDict d) = true /\ forallb (fun kv => shallow (snd kv)) d = true /\ total_keys d <= MAX_CONTROL_KEYS.
Proof.
  intros Hd E. unfold validate_request in E. destruct (dget d $"action") as [[| | | | s | | |] |]; try done.
  destruct (action_of s) as [a |]; [| done]. apply rbind_ok in E as ([] & Hk%raise_if_ok%negb_false_iff & E).
  apply rbind_ok in E as ([] & Hc & E). apply rbind_ok in E as ([] & Hr & <-%Ok_inj). split; [done |].
  eapply (fields_message d (request_fields a) 0); [done | done | by eapply request_present | done |].
  unfold MAX_CONTROL_KEYS. by destruct a.
Qed.

Lemma capacity_present (d : pydict) (u : unit) : py_dict d ->
  check_fields d [("attachment_capacity", attachment_capacity_)]%string = Ok u -> present d 3 "attachment_capacity".
Proof.
  intros Hd E. apply check_fields_ok, Forall_cons in E as [(v & Hv & E) _]. cbn [fst snd] in *. exists v. split; [done |].
  unfold attachment_capacity_ in E. destruct v as [| | | | | | | cap]; try done. apply rbind_ok in E as ([] & Hk%raise_if_ok%negb_false_iff & E).
  apply rbind_ok in E as ([] & Hc & _). assert (Hcap : py_dict cap) by (eapply py_dict_inner; [exact Hd | by apply dget_elem]).
  split; [| exact (key_count cap _ (py_dict_nodup _ Hcap) Hk)]. cbn [shallow flat orb]. apply forallb_forall. intros kv Hin%list_elem_of_In.
  apply (fields_forall (fun v => flat v = true) cap _ (py_dict_nodup _ Hcap) Hk); [| done].
  apply check_fields_ok in Hc. rewrite !Forall_cons in Hc. cbn [fst snd] in Hc. destruct Hc as ((x & Hx & Fx) & (y & Hy & Fy) & (z & Hz & Fz) & _).
  repeat constructor; eexists; (split; [eassumption | by eapply decimal_flat]).
Qed.

Lemma version_flat (d : pydict) (n : Z) (v : pyval) (u : unit) :
  0 <= n -> item d "protocol_version" = Ok v -> version_1 (Some v) = Ok u -> present d n "protocol_version".
Proof.
  intros Hn Hv%item_ok Ho%raise_if_ok%negb_false_iff. eapply present_flat; [done | exact Hv |]. by destruct v.
Qed.

Lemma response_error_present (d r : pydict) : response_error d = Ok r ->
  r = d /\ keys_equal (dkeys d) (names (COMMON_RESPONSE ++ ["error_code"; "retryable"]%string)) = true
  /\ Forall (present d 0) (COMMON_RESPONSE ++ ["error_code"; "retryable"]%string).
Proof.
  unfold response_error. intros E. apply rbind_ok in E as ([] & Hk%raise_if_ok%negb_false_iff & E). presents 0%Z. injection E as <-.
  split; [done |]. split; [done |]. assert (present d 0 "protocol_version") by (by eapply version_flat). by repeat constructor.
Qed.

Lemma detach_present (d : pydict) (status : pyval) (u : unit) : detach_result d status = Ok u ->
  present d 0 "cleanup_state" /\ present d 0 "reason_code".
Proof.
  unfold detach_result. intros E. apply rbind_ok in E as (c & Hc%item_ok & E). apply rbind_ok in E as (q & Hq%item_ok & E).
  apply rbind_ok in E as (b & _ & E). assert (flat c = true /\ flat q = true) as [Fc Fq]; [| split; by eapply present_flat].
  destruct b.
  - apply raise_if_ok, orb_false_iff in E as [E1 E2]. apply negb_false_iff in E1, E2. by destruct c, q.
  - destruct (negb (is_str c "ATTACH_PTY_CLOSE_UNCERTAIN")) eqn:Ec; [done |]. apply negb_false_iff in Ec. apply rbind_ok in E as (b & Hb & E).
    split; [by destruct c | destruct q; try done; injection Hb as <-; done].
Qed.

Definition inner_bound (a : action) : Z := if bool_decide (a = STATUS) then 3 else 0.

(** The fields of a successful response *)
Definition success_fields (a : action) (status : pyval) : list string :=
  if bool_decide (a = PREPARE) && negb (is_str status "PREPARED") then filter (fun k => k <> "capability"%string) (response_fields a)
  else response_fields a.

Lemma without_capability : filter (fun k => k <> "capability"%string) (response_fields PREPARE)
  = COMMON_RESPONSE ++ TUPLE_FIELDS ++ ["resume_cursor"; "previous_runtime_epoch"]%string.
Proof. vm_compute. reflexivity. Qed.

Lemma success_present (a : action) (d : pydict) (status : pyval) (u v : unit) :
  py_dict d -> response_common d (success_fields a status) = Ok u -> response_checks a d status = Ok v ->
  default PNone (dget d $"status") = status -> check_status a status = Ok tt ->
  keys_equal (dkeys d) (names (success_fields a status)) = true /\ Forall (present d (inner_bound a)) (success_fields a status).
Proof.
  intros Hd Hc Hr Hst Hs. unfold response_common in Hc. apply rbind_ok in Hc as ([] & Hk%raise_if_ok%negb_false_iff & Hc). split; [done |].
  set (n := inner_bound a). assert (Hn : 0 <= n) by (unfold n, inner_bound; case_bool_decide; lia).
  assert (Hcommon : Forall (present d n) COMMON_RESPONSE).
  { presents n. repeat constructor; [by eapply version_flat | done |].
    match goal with E : item d "status" = Ok ?w |- _ => apply item_ok in E; rewrite E in Hst; cbn in Hst; subst w; eapply present_flat; [done | exact E |] end.
    destruct a; cbn [check_status] in Hs; (by eapply one_of_flat) || (by eapply equals_flat). }
  clear Hc Hst Hs. unfold success_fields.
  destruct a; cbn [response_checks] in Hr; unfold identity_checks, tuple_checks, resume_checks, states_ in Hr; cbn [app map identity_checks] in Hr.
  all: try (presents n; unfold response_fields; apply Forall_app; split; [done |]; cbn [app]; by repeat constructor).
  - change (bool_decide (START = START)) with true in Hr. presents n. apply Forall_app. split; [done |]. by repeat constructor.
  - change (bool_decide (STOP = START)) with false in Hr. presents n. apply Forall_app. split; [done |]. by repeat constructor.
  - apply rbind_ok in Hr as (? & Hr1 & Hr). apply rbind_ok in Hr as (? & Hr2 & Hr). apply check_fields_cons in Hr as [Hr3 Hr].
    pose proof (capacity_present d v Hd Hr) as Hcap. clear Hr. presents n. apply Forall_app. split; [done |]. by repeat constructor.
  - change (bool_decide (PREPARE = PREPARE)) with true. destruct (is_str status "PREPARED"); cbn [andb negb]; [| rewrite without_capability];
      presents n; apply Forall_app; (split; [done |]); by repeat constructor.
  - apply rbind_ok in Hr as (? & Hr1 & Hr). apply detach_present in Hr as [? ?]. presents n. apply Forall_app. split; [done |]. by repeat constructor.
Qed.

Lemma validate_response_message (d r : pydict) (s : pystr) (e : option pyval) : py_dict d -> validate_response d s e = Ok r ->
  r = d /\ printable (PDict d) = true /\ forallb (fun kv => shallow (snd kv)) d = true /\ total_keys d <= MAX_CONTROL_KEYS.
Proof.
  intros Hd E. unfold validate_response in E. apply rbind_ok in E as ([] & _ & E). destruct (action_of s) as [a |]; [| done].
  destruct (is_str (default PNone (dget d $"status")) "ERROR").
  - destruct (response_error_present d r E) as (-> & Hk & Hp). split; [done |].
    eapply (fields_message d _ 0); [done | exact Hk | exact Hp | done | by vm_compute].
  - set (status := default PNone (dget d $"status")) in E. fold (success_fields a status) in E.
    apply rbind_ok in E as ([] & Hc & E). apply rbind_ok in E as ([] & Hs & E). apply rbind_ok in E as ([] & Hr & <-%Ok_inj). split; [done |].
    destruct (success_present a d status tt tt Hd Hc Hr eq_refl Hs) as [Hk Hp].
    eapply (fields_message d _ (inner_bound a)); [done | exact Hk | exact Hp | unfold inner_bound; case_bool_decide; lia |].
    clear. unfold success_fields, MAX_CONTROL_KEYS. destruct a; try by vm_compute. cbn [andb]. by destruct (is_str status "PREPARED").
Qed.
End Messages.

(** ** Lemmas: inventories *)

Lemma str_leb_total (a b : pystr) : str_leb a b = false -> str_leb b a = true.
Proof.
  revert b. induction a as [|x a IH]; intros [|y b]; cbn; try done. intros [H1 H2]%orb_false_iff. apply orb_true_iff.
  destruct (Z.eqb_spec x y) as [-> | Hn]; [right; rewrite Z.eqb_refl; by apply IH | left; lia].
Qed.

Lemma str_leb_refl (a : pystr) : str_leb a a = true.
Proof. destruct (str_leb a a) eqn:E; [done |]. by rewrite (str_leb_total _ _ E) in E. Qed.

Lemma str_leb_trans (a b c : pystr) : str_leb a b = true -> str_leb b c = true -> str_leb a c = true.
Proof.
  revert b c. induction a as [|x a IH]; intros [|y b] [|z c]; cbn; try done. intros [H1 | H1]%orb_true_iff [H2 | H2]%orb_true_iff; apply orb_true_iff.
  - left. lia.
  - apply andb_true_iff in H2 as [H2 _]. left. lia.
  - apply andb_true_iff in H1 as [H1 _]. left. lia.
  - apply andb_true_iff in H1 as [H1 H3], H2 as [H2 H4]. right. apply andb_true_iff. split; [lia | by eapply IH].
Qed.

Lemma str_leb_antisym (a b : pystr) : str_leb a b = true -> str_leb b a = true -> a = b.
Proof.
  revert b. induction a as [|x a IH]; intros [|y b]; cbn; try done. intros [H1 | H1]%orb_true_iff [H2 | H2]%orb_true_iff; try lia.
  apply andb_true_iff in H1 as [H1 H3], H2 as [H2 H4]. f_equal; [lia | by apply IH].
Qed.

Definition row_le (a b : Row) : Prop := str_leb (fst a) (fst b) = true.

Lemma insert_row_perm (r : Row) (l : list Row) : insert_row r l ≡ₚ r :: l.
Proof. induction l as [|x l IH]; cbn; [done |]. destruct (str_leb (fst r) (fst x)); [done |]. rewrite IH. by apply Permutation_swap. Qed.

Lemma sort_rows_perm (l : list Row) : sort_rows l ≡ₚ l.
Proof. induction l as [|r l IH]; cbn; [done |]. by rewrite insert_row_perm, IH. Qed.

Lemma insert_row_sorted (r : Row) (l : list Row) : StronglySorted row_le l -> StronglySorted row_le (insert_row r l).
Proof.
  induction 1 as [|x l Hl IH Hx]; cbn; [repeat constructor |]. destruct (str_leb (fst r) (fst x)) eqn:E.
  - constructor; [by constructor |]. constructor; [done |]. eapply Forall_impl; [exact Hx |]. intros y. by apply str_leb_trans.
  - constructor; [done |]. rewrite insert_row_perm. constructor; [by apply str_leb_total | done].
Qed.

Lemma sort_rows_sorted (l : list Row) : StronglySorted row_le (sort_rows l).
Proof. induction l as [|r l IH]; cbn; [constructor | by apply insert_row_sorted]. Qed.

Lemma neighbours_nodup (l : list Row) : StronglySorted row_le l -> neighbours_equal l = false -> NoDup (map fst l).
Proof.
  induction 1 as [|x l Hl IH Hx]; intros Hn; [constructor |]. destruct l as [|y l]; [repeat constructor; by apply not_elem_of_nil |].
  cbn [neighbours_equal] in Hn. apply orb_false_iff in Hn as [Hxy Hn]. cbn [map]. apply NoDup_cons. split; [| by apply IH].
  intros Hin. apply str_eqb_neq in Hxy. apply Hxy. apply list_elem_of_In, (in_map_iff fst (y :: l)) in Hin as (z & Ez & Hz).
  apply list_elem_of_In in Hz. rewrite Forall_forall in Hx. apply str_leb_antisym; [apply Hx; left |].
  rewrite <- Ez. apply StronglySorted_cons in Hl as [Hy _]. apply elem_of_cons in Hz as [-> | Hz]; [apply str_leb_refl |].
  rewrite Forall_forall in Hy. by apply Hy.
Qed.

Lemma sorted_rows_unique (l k : list Row) : l ≡ₚ k -> StronglySorted row_le l -> StronglySorted row_le k -> NoDup (map fst l) -> l = k.
Proof.
  intros Hp Hl Hk Hn. apply (StronglySorted_unique_strong row_le); [| done | done | done]. intros x y Hx Hy H1 H2.
  rewrite <- Hp in Hy. pose proof (str_leb_antisym _ _ H1 H2) as E. apply list_elem_of_lookup in Hx as (i & Hi), Hy as (j & Hj).
  assert (i = j) as ->; [| congruence]. unfold Row in *.
  apply (NoDup_lookup (fst <$> l) i j (fst x) Hn); rewrite list_lookup_fmap; [by rewrite Hi |]. rewrite Hj. cbn. by rewrite E.
Qed.

Lemma seq_results_cons {A} (c : result A) (cs : list (result A)) (a : A) (r : list A) :
  c = Ok a -> seq_results cs = Ok r -> seq_results (c :: cs) = Ok (a :: r).
Proof. intros -> H. unfold seq_results in *. cbn [foldr rbind]. by rewrite H. Qed.

Lemma seq_results_perm {A B} (f : A -> result B) (l k : list A) (ys : list B) : l ≡ₚ k -> seq_results (map f l) = Ok ys ->
  exists zs, seq_results (map f k) = Ok zs /\ ys ≡ₚ zs.
Proof.
  intros Hp. revert ys. induction Hp as [| x l k Hp IH | x y l | l k m _ IH1 _ IH2]; intros ys E.
  - by exists ys.
  - apply seq_results_ok_cons in E as (a & r & Ea & Er & ->). destruct (IH r Er) as (zs & Ez & Pz). exists (a :: zs).
    split; [exact (seq_results_cons _ _ a zs Ea Ez) | by constructor].
  - apply seq_results_ok_cons in E as (a & r & Ea & Er & ->). apply seq_results_ok_cons in Er as (b & q & Eb & Eq & ->). exists (b :: a :: q).
    split; [exact (seq_results_cons _ _ b (a :: q) Eb (seq_results_cons _ _ a q Ea Eq)) | apply Permutation_swap].
  - destruct (IH1 ys E) as (zs & Ez & Pz). destruct (IH2 zs Ez) as (ws & Ew & Pw). exists ws. split; [done | by etrans].
Qed.

Lemma inventory_rows_perm `{Unicode} (items items' : list pyval) (rows : list Row) :
  items ≡ₚ items' -> inventory_rows items = Ok rows -> inventory_rows items' = Ok rows.
Proof.
  intros Hp E. unfold inventory_rows in *. apply rbind_ok in E as ([] & Hl%raise_if_ok & E). apply rbind_ok in E as (rs & Er & E).
  apply rbind_ok in E as ([] & Hn%raise_if_ok & <-%Ok_inj). destruct (seq_results_perm inventory_row items items' rs Hp Er) as (rs' & Er' & Pr).
  unfold blen in *. rewrite <- (Permutation_length Hp), Hl. cbn [raise_if rbind]. rewrite Er'. cbn [rbind].
  rewrite <- (sorted_rows_unique (sort_rows rs) (sort_rows rs')); [by rewrite Hn | | apply sort_rows_sorted | apply sort_rows_sorted |].
  - by rewrite !sort_rows_perm.
  - apply neighbours_nodup; [apply sort_rows_sorted | done].
Qed.

(** *** The text determines the rows *)

Definition entry (v : pyval) : Prop := v = PNone \/ exists s, v = PStr s /\ forallb scalar_value s = true.
Definition entry_text (v : pyval) : pystr := match v with PStr s => ascii_string s | _ => $"null" end.
Definition row_text (l : list pyval) : pystr := 91 :: join_comma (map entry_text l) ++ [93].

Lemma entry_inj (v w : pyval) (r r' : pystr) : entry v -> entry w -> entry_text v ++ r = entry_text w ++ r' -> v = w /\ r = r'.
Proof.
  intros [-> | (s & -> & Hs)] [-> | (t & -> & Ht)] E; cbn [entry_text] in E.
  - by apply app_inv_head in E.
  - discriminate.
  - discriminate.
  - unfold ascii_string in E. cbn [app] in E. injection E as E. rewrite <- !app_assoc in E. cbn [app] in E.
    apply (f_equal scan_string) in E. rewrite !scan_ascii_string in E by done. by injection E as -> ->.
Qed.

Lemma entry_open (v : pyval) : entry v -> exists c t, entry_text v = c :: t /\ c <> 93.
Proof. intros [-> | (s & -> & _)]; [by exists 110, $"ull" |]. unfold entry_text, ascii_string. eauto. Qed.

Lemma row_text_inj (l k : list pyval) (r r' : pystr) : Forall entry l -> Forall entry k -> row_text l ++ r = row_text k ++ r' -> l = k /\ r = r'.
Proof.
  intros Hl Hk E. unfold row_text in E. cbn [app] in E. injection E as E. rewrite <- !app_assoc in E.
  by apply (join_comma_inj entry entry_text entry_inj entry_open l k r r').
Qed.

Lemma row_open (l : list pyval) : Forall entry l -> exists c t, row_text l = c :: t /\ c <> 93.
Proof. intros _. unfold row_text. eauto. Qed.

Lemma dumps_entries (l : list pyval) : Forall entry l -> seq_results (map dumps_ascii l) = Ok (map entry_text l).
Proof.
  induction 1 as [|v l Hv _ IH]; [done |]. cbn [map]. apply seq_results_cons; [| done]. by destruct Hv as [-> | (s & -> & _)].
Qed.

Lemma inventory_text_rows (rows : list Row) : Forall (fun r => Forall entry (snd r)) rows ->
  inventory_text rows = Ok (91 :: join_comma (map row_text (map snd rows)) ++ [93]).
Proof.
  intros Hr. unfold inventory_text. cbn [dumps_ascii].
  assert (seq_results (map dumps_ascii (map (fun r => PList (snd r)) rows)) = Ok (map row_text (map snd rows))) as ->; [| done].
  induction Hr as [|r rows Hr _ IH]; [done |]. cbn [map]. apply seq_results_cons; [| done]. cbn [dumps_ascii]. by rewrite dumps_entries.
Qed.

(** The strings a check accepts have no surrogates. *)
Definition clean_check (c : check) : Prop := forall k s, c k (PStr s) = Ok tt -> clean s.

Lemma hex_clean (s : pystr) : forallb is_lower_hex s = true -> clean s.
Proof.
  intros H c Hc. rewrite forallb_forall in H. specialize (H c ltac:(by apply list_elem_of_In)).
  unfold is_lower_hex, is_digit, is_surrogate, in_range in *. lia.
Qed.

Lemma digits_clean (s : pystr) : forallb is_digit s = true -> clean s.
Proof.
  intros H. apply hex_clean. rewrite forallb_forall in H |- *. intros c Hc. unfold is_lower_hex. by rewrite (H c Hc).
Qed.

Lemma string_clean (p : pystr -> bool) : (forall s, p s = true -> clean s) -> clean_check (string_ p).
Proof. intros Hp k s H. apply raise_if_ok, orb_false_iff in H as [_ H%negb_false_iff]. by apply Hp. Qed.

Lemma match_id_clean (prefix s : pystr) : clean (prefix ++ $"_") -> match_id prefix s = true -> clean s.
Proof.
  intros Hp H. unfold match_id in H. apply andb_true_iff in H as [H Hx%hex_clean]. apply andb_true_iff in H as [H%str_eqb_eq _].
  rewrite <- H in Hp. intros c Hc. rewrite <- (take_drop (length prefix + 1) s) in Hc. apply elem_of_app in Hc as [Hc | Hc]; [by apply Hp | by apply Hx].
Qed.

Lemma match_hex_clean (n : nat) (s : pystr) : match_hex n s = true -> clean s.
Proof. unfold match_hex. intros [_ H]%andb_true_iff. by apply hex_clean. Qed.

Lemma decimal_clean (b : bool) : clean_check (decimal_u64 b).
Proof.
  intros k s H. unfold decimal_u64 in H. apply rbind_ok in H as ([] & H%raise_if_ok%negb_false_iff & _). apply digits_clean.
  unfold match_decimal in H. apply orb_true_iff in H as [H%str_eqb_eq | H]; [by subst |]. destruct s as [|c s]; [done |]. cbn [match_pos_decimal] in H.
  apply andb_true_iff in H as [H _]. apply andb_true_iff in H as [H1 H2]. cbn [forallb]. rewrite H2. unfold is_nonzero_digit, is_digit, in_range in *. lia.
Qed.

Lemma text_clean (w : string) : forallb (fun c => negb (is_surrogate c)) $w = true -> clean $w.
Proof. intros H c Hc. rewrite forallb_forall in H. by apply negb_true_iff, H, list_elem_of_In. Qed.

Lemma project_clean : clean_check PROJECT_ID.
Proof. apply string_clean. intros s. apply match_id_clean. by apply (text_clean "prj_"). Qed.

Lemma host_clean : clean_check HOST_ID.
Proof. apply string_clean. intros s. apply match_id_clean. by apply (text_clean "wri_"). Qed.

Lemma digest_clean : clean_check DIGEST.
Proof. apply string_clean. intros s. apply match_hex_clean. Qed.

Lemma relative_key_clean `{UnicodeLaws} : clean_check RELATIVE_KEY.
Proof.
  intros k s E c Hc. unfold RELATIVE_KEY in E. destruct (validate_relative_key (PStr s)) as [r |] eqn:Er; [| done]. unfold validate_relative_key in Er.
  apply rbind_ok in Er as ([] & _ & Er). apply rbind_ok in Er as ([] & _ & Er). apply rbind_ok in Er as ([] & Hx%raise_if_ok & _).
  apply not_true_iff_false. intros Hs. apply not_true_iff_false in Hx. apply Hx. apply existsb_exists. exists c.
  split; [by apply list_elem_of_In | by apply surrogate_category].
Qed.

Create HintDb clean.
#[export] Hint Resolve decimal_clean project_clean host_clean digest_clean relative_key_clean : clean.

Lemma item_entry (d : pydict) (k : string) (v : pyval) : code_points (PDict d) = true -> item d k = Ok v ->
  v = PNone \/ (exists s, v = PStr s /\ clean s) -> entry v.
Proof.
  intros Hc Hv%item_ok%dget_elem [-> | (s & -> & Hs)]; [by left | right]. exists s. split; [done |].
  cbn [code_points] in Hc. rewrite forallb_forall in Hc. specialize (Hc _ ltac:(by apply list_elem_of_In)). apply andb_true_iff in Hc as [_ Hc].
  cbn [snd code_points] in Hc. rewrite forallb_forall in Hc |- *. intros c Hin. specialize (Hc c Hin). unfold scalar_value, code_point in *.
  rewrite Hc. cbn [andb]. apply negb_true_iff, Hs. by apply list_elem_of_In.
Qed.

(** A check that only accepts strings *)
Definition text_check (c : check) : Prop := forall k v, c k v = Ok tt -> exists s, v = PStr s.

Lemma checked_entry (d : pydict) (k : string) (c : check) (v : pyval) : code_points (PDict d) = true -> text_check c -> clean_check c ->
  (exists w, dget d (ustr k) = Some w /\ c k w = Ok tt) -> item d k = Ok v -> entry v.
Proof.
  intros Hd Ht Hc (w & Hw & Ew) Ev. assert (w = v) as -> by (apply item_ok in Ev; congruence). destruct (Ht k v Ew) as (s & ->).
  eapply item_entry; [done | done |]. right. exists s. split; [done | by eapply Hc].
Qed.

Lemma predecessor_entries (r p q : pyval) (m1 m2 : string) : predecessor r p q m1 m2 = Ok tt ->
  (p = PNone \/ exists s, p = PStr s /\ clean s) /\ (q = PNone \/ exists s, q = PStr s /\ clean s).
Proof.
  unfold predecessor. destruct (is_str r "1"); intros E.
  - apply raise_if_ok, negb_false_iff, andb_true_iff in E as [E1 E2]. by destruct p, q; auto.
  - apply rbind_ok in E as ([] & E1 & E). apply rbind_ok in E as ([] & E2 & _). split; right.
    + destruct p as [| | | | s | | |]; try done. exists s. split; [done | by eapply decimal_clean].
    + destruct q as [| | | | s | | |]; try done. exists s. split; [done | by eapply digest_clean].
Qed.

Lemma inventory_row_entries `{UnicodeLaws} (v : pyval) (r : Row) : code_points v = true -> inventory_row v = Ok r ->
  Forall entry (snd r) /\ exists rest, snd r = PStr (fst r) :: rest.
Proof.
  intros Hcp E. unfold inventory_row in E. destruct v as [| | | | | | | d]; try done. apply rbind_ok in E as ([] & _ & E).
  apply rbind_ok in E as (u & H1%check_fields_ok & E). apply rbind_ok in E as (p & Hp & E). apply rbind_ok in E as (q & Hq & E).
  apply rbind_ok in E as (b & Hb & E). apply rbind_ok in E as ([] & [Kp Kq]%predecessor_entries & E).
  apply rbind_ok in E as (u' & H2%check_fields_ok & E). apply rbind_ok in E as (pr & Hpr & E). apply rbind_ok in E as (row & Hrow & E).
  destruct pr as [| | | | pid | | |]; try done. injection E as <-. cbn [fst snd].
  rewrite !Forall_cons in H1; rewrite !Forall_cons in H2; cbn [fst snd] in H1, H2. destruct H1 as (C1 & C2 & C3 & C4 & _), H2 as (C5 & C6 & C7 & _). split.
  - apply Forall_forall. intros v Hv. destruct (seq_results_inv _ _ _ v Hrow Hv) as (k & Hk & Ek). unfold INVENTORY_FIELDS in Hk.
    assert (Tt : forall p, text_check (string_ p)) by (intros ? ? []; try done; eauto).
    assert (Td : forall b, text_check (decimal_u64 b)) by (intros ? ? []; try done; eauto).
    assert (Tr : text_check RELATIVE_KEY) by (intros ? []; try done; eauto).
    repeat (apply elem_of_cons in Hk as [-> | Hk];
      [first [eapply item_entry; [done | exact Ek |]; match goal with E : item d _ = Ok v, F : item d _ = Ok ?w |- _ => replace v with w by congruence; assumption end
             | eapply checked_entry; [done | | | | exact Ek]; [| | eassumption]; by eauto with clean] |]).
    by apply elem_of_nil in Hk.
  - unfold INVENTORY_FIELDS in Hrow. cbn [map] in Hrow. apply seq_results_ok_cons in Hrow as (a & rest & Ea & _ & ->). exists rest. congruence.
Qed.

(** The entries of every inventory that has rows *)
Definition row_ok (r : Row) : Prop := Forall entry (snd r) /\ exists rest, snd r = PStr (fst r) :: rest.

Lemma inventory_rows_ok `{UnicodeLaws} (items : list pyval) (rows : list Row) :
  Forall (fun v => code_points v = true) items -> inventory_rows items = Ok rows -> Forall row_ok rows.
Proof.
  intros Hc E. unfold inventory_rows in E. apply rbind_ok in E as ([] & _ & E). apply rbind_ok in E as (rs & Er & E).
  apply rbind_ok in E as ([] & _ & <-%Ok_inj). rewrite sort_rows_perm. apply Forall_forall. intros r Hr.
  destruct (seq_results_inv _ _ _ r Er Hr) as (v & Hv & Ev). rewrite Forall_forall in Hc. by apply (inventory_row_entries v r (Hc v Hv)).
Qed.

Lemma row_ok_text (rows : list Row) : Forall row_ok rows -> inventory_text rows = Ok (91 :: join_comma (map row_text (map snd rows)) ++ [93]).
Proof. intros Hr. apply inventory_text_rows. eapply Forall_impl; [exact Hr | by intros r []]. Qed.

Lemma rows_snd_inj (rows rows' : list Row) : Forall row_ok rows -> Forall row_ok rows' -> map snd rows = map snd rows' -> rows = rows'.
Proof.
  intros H. revert rows'. induction H as [|[p l] rows [_ (rest & Hl)] _ IH]; intros [|[p' l'] rows'] H' E; try done. cbn in Hl, E. injection E as E1 E2.
  apply Forall_cons in H' as [[_ (rest' & Hl')] H']. cbn in Hl'. rewrite (IH rows' H' E2). congruence.
Qed.

Lemma inventory_text_inj (rows rows' : list Row) (t : pystr) : Forall row_ok rows -> Forall row_ok rows' ->
  inventory_text rows = Ok t -> inventory_text rows' = Ok t -> rows = rows'.
Proof.
  intros H H' E E'. rewrite row_ok_text in E, E' by done. rewrite <- E in E'. injection E' as E'. apply rows_snd_inj; [done | done |].
  assert (K : forall l, Forall row_ok l -> Forall (Forall entry) (map snd l)).
  { intros l Hl. apply Forall_map. eapply Forall_impl; [exact Hl | by intros r []]. }
  symmetry. exact (proj1 (join_comma_inj (Forall entry) row_text row_text_inj row_open (map snd rows') (map snd rows) [] [] (K _ H') (K _ H) E')).
Qed.

(** *** Request identifiers *)

Definition has_request_id (d : pydict) : Prop := exists r, dget d $"request_id" = Some (PStr r) /\ match_id $"wreq" r = true.

Lemma request_id_check (d : pydict) (v : pyval) : dget d $"request_id" = Some v -> REQUEST_ID "request_id" v = Ok tt -> has_request_id d.
Proof.
  intros Hv E. destruct v as [| | | | r | | |]; try done. exists r. split; [done |]. by apply raise_if_ok, orb_false_iff in E as [_ E%negb_false_iff].
Qed.

Lemma request_id_field (d : pydict) (l : list (string * check)) (u : unit) :
  check_fields d l = Ok u -> ("request_id"%string, REQUEST_ID) ∈ l -> has_request_id d.
Proof.
  intros E%check_fields_ok Hin. rewrite Forall_forall in E. destruct (E _ Hin) as (v & Hv & Ev). by eapply request_id_check.
Qed.

Lemma request_id_ok `{Unicode} (d r : pydict) : validate_request d = Ok r -> has_request_id d.
Proof.
  intros E. unfold validate_request in E. destruct (dget d $"action") as [[| | | | s | | |] |]; try done. destruct (action_of s) as [a |]; [| done].
  apply rbind_ok in E as ([] & _ & E). apply rbind_ok in E as ([] & Hc & _). unfold common_ in Hc. apply rbind_ok in Hc as ([] & _ & Hc).
  apply rbind_ok in Hc as ([] & Hr & _). destruct (dget d $"request_id") as [v |] eqn:Ev; [| done]. by eapply request_id_check.
Qed.

Lemma response_id_ok `{Unicode} (d r : pydict) (s : pystr) (e : option pyval) : validate_response d s e = Ok r -> has_request_id d.
Proof.
  intros E. unfold validate_response in E. apply rbind_ok in E as ([] & _ & E). destruct (action_of s) as [a |]; [| done].
  destruct (is_str _ "ERROR").
  - unfold response_error in E. apply rbind_ok in E as ([] & _ & E). apply rbind_ok in E as ([] & Hc & _). eapply request_id_field; [exact Hc |].
    right. left.
  - apply rbind_ok in E as ([] & Hc & _). unfold response_common in Hc. apply rbind_ok in Hc as ([] & _ & Hc). apply rbind_ok in Hc as (v & _ & Hc).
    apply rbind_ok in Hc as ([] & _ & Hc). apply rbind_ok in Hc as ([] & Hc & _). eapply request_id_field; [exact Hc | left].
Qed.

Lemma match_id_ascii (r : pystr) : match_id $"wreq" r = true -> forallb (fun c => c <? 128) r = true.
Proof.
  intros M. unfold match_id in M. apply andb_true_iff in M as [M Hx]. apply andb_true_iff in M as [M%str_eqb_eq _].
  rewrite <- (take_drop (length $"wreq" + 1) r), M, forallb_app. change (forallb (fun c => c <? 128) ($"wreq" ++ $"_")) with true. cbn [andb].
  rewrite forallb_forall in Hx |- *. intros c Hc. specialize (Hx c Hc). unfold is_lower_hex, is_digit, in_range in Hx. lia.
Qed.

Lemma response_expected `{Unicode} (d : pydict) (s rid : pystr) : validate_response d s None = Ok d -> match_id $"wreq" rid = true ->
  validate_response d s (Some (PStr rid)) =
  if scalar_eqb (default PNone (dget d $"request_id")) (PStr rid) then Ok d
  else Raise (control_error "response request_id does not match request").
Proof.
  intros V M. destruct (response_id_ok d d s None V) as (r & Hr & Mr). unfold validate_response in *. cbn [expect_request_id rbind] in V.
  assert (expect_request_id d (Some (PStr rid)) = raise_if (negb (str_eqb r rid)) (control_error "response request_id does not match request")) as ->.
  { unfold expect_request_id, string_. replace (Nat.eqb (length rid) 0) with false by (by destruct rid). rewrite M. cbn [negb orb raise_if rbind].
    rewrite Hr. unfold compare_digest_str. by rewrite !match_id_ascii. }
  rewrite Hr. cbn [default from_option id scalar_eqb]. destruct (str_eqb r rid); [cbn [negb raise_if rbind] | done]. exact V.
Qed.

(** *** Errors *)

Definition unhashable (v : pyval) : bool := match v with PList _ | PDict _ => true | _ => false end.

(** A check that refuses only with a control error *)
Definition control_check (c : check) : Prop := forall k v e, c k v = Raise e -> exn_class e = WAWControlError.

Lemma raise_if_raise (b : bool) (x e : exn) : raise_if b x = Raise e -> e = x.
Proof. destruct b; [by intros [= <-] | done]. Qed.

Lemma string_control (p : pystr -> bool) : control_check (string_ p).
Proof. intros k v e. destruct v; try by intros [= <-]. by intros ->%raise_if_raise. Qed.

Lemma decimal_control (b : bool) : control_check (decimal_u64 b).
Proof.
  intros k v e. destruct v as [| | | | s | | |]; try by intros [= <-]. cbn [decimal_u64]. destruct (raise_if (negb (match_decimal s)) _) eqn:E; cbn [rbind].
  - by intros ->%raise_if_raise.
  - apply raise_if_raise in E as ->. by intros [= <-].
Qed.

Lemma optional_control (c : check) : control_check c -> control_check (optional c).
Proof. intros Hc k v e. destruct v; try apply Hc. done. Qed.

Lemma equals_control (s m : string) : control_check (equals s m).
Proof. intros k v e. by intros ->%raise_if_raise. Qed.

Lemma relative_key_control `{Unicode} : control_check RELATIVE_KEY.
Proof.
  intros k v e. unfold RELATIVE_KEY. destruct (validate_relative_key v) as [r | x] eqn:E; [done |]. intros [= <-]. unfold validate_relative_key in E.
  destruct (string_ (fun _ => true) "relative_key" v) as [[] | y] eqn:Es; cbn [rbind] in E; [| injection E as <-; by eapply string_control].
  destruct v; try (by injection E as <-).
  repeat match goal with
  | E : rbind (raise_if ?b ?z) _ = Raise _ |- _ => destruct b; cbn [raise_if rbind] in E; [by injection E as <- |]
  end. done.
Qed.

Create HintDb control.
#[export] Hint Resolve string_control decimal_control optional_control equals_control relative_key_control : control.

(** The outcomes of a request's checks *)
Definition refused (d : pydict) (e : exn) : Prop :=
  exn_class e = WAWControlError
  \/ (exn_class e = PyTypeError /\ exists v, dget d $"agent_type" = Some v /\ unhashable v = true).

Lemma agent_type_refused (d : pydict) (v : pyval) (e : exn) : dget d $"agent_type" = Some v -> agent_type_ "agent_type" v = Raise e -> refused d e.
Proof.
  intros Hv E. unfold agent_type_, one_of in E. destruct (in_set v ["claude"; "codex"]%string) as [b | x] eqn:Es; cbn [rbind] in E.
  - apply raise_if_raise in E as ->. by left.
  - injection E as <-. right. destruct v; try done; injection Es as <-; (split; [done |]; eexists; split; [exact Hv | done]).
Qed.

Definition refusing (d : pydict) (kc : string * check) : Prop :=
  exists v, dget d (ustr (fst kc)) = Some v /\ forall e, snd kc (fst kc) v = Raise e -> refused d e.

Lemma check_fields_refused (d : pydict) (l : list (string * check)) (e : exn) : Forall (refusing d) l -> check_fields d l = Raise e -> refused d e.
Proof.
  induction 1 as [|[k c] l (v & Hv & Hc) _ IH]; [done |]. cbn [check_fields fst snd] in *. unfold item. rewrite Hv. cbn [rbind].
  destruct (c k v) as [u | x] eqn:E; cbn [rbind]; [exact IH |]. intros [= <-]. by apply Hc.
Qed.

Lemma walk_throws (v : pyval) : forall depth keys, throws [WAWControlError] (walk v depth keys).
Proof.
  induction v as [| b | z | t | s | raw | l IH | d IH] using pyval_ind; intros depth keys; cbn [walk]; throws_tac.
  - clear -IH. revert keys. induction IH as [|x l Hx _ IH]; intros keys; cbn; throws_tac; auto.
  - clear -IH. revert keys. induction IH as [|x d Hx _ IH]; intros keys; cbn; throws_tac; auto.
Qed.

Lemma load_line_error (raw : bytes) (e : exn) : load_line raw = Raise e -> exn_class e = WAWControlError.
Proof.
  intros E. assert (H : throws [WAWControlError] (load_line raw)).
  { unfold load_line. throws_tac; try apply walk_throws. unfold loads_body. throws_tac.
    apply loads_throws; intros; unfold default_number, reject_constant_, pairs_; throws_tac; [reflexivity | by apply unique_pairs_throws]. }
  specialize (H e E). revert H. generalize (exn_class e). intros []; vm_compute; congruence.
Qed.

Lemma refusing_control (d : pydict) (k : string) (c : check) : (exists v, dget d (ustr k) = Some v) -> control_check c -> refusing d (k, c).
Proof. intros (v & Hv) Hc. exists v. split; [done |]. intros e He. left. by eapply Hc. Qed.

Lemma refusing_agent (d : pydict) : (exists v, dget d $"agent_type" = Some v) -> refusing d ("agent_type"%string, agent_type_).
Proof. intros (v & Hv). exists v. split; [done |]. intros e He. by eapply agent_type_refused. Qed.

Lemma common_refused (d : pydict) (s : pystr) (e : exn) : common_ d s = Raise e -> refused d e.
Proof.
  unfold common_. intros E. destruct (version_1 _) as [[] | x] eqn:E1; cbn [rbind] in E; [| injection E as <-; apply raise_if_raise in E1 as ->; by left].
  destruct (REQUEST_ID _ _) as [[] | x] eqn:E2; cbn [rbind] in E; [| injection E as <-; left; by eapply string_control].
  apply raise_if_raise in E as ->. by left.
Qed.

Lemma predecessor_refused (d : pydict) (r p q : pyval) (m1 m2 : string) (e : exn) : predecessor r p q m1 m2 = Raise e -> refused d e.
Proof.
  intros E. left. unfold predecessor in E. destruct (is_str r "1"); [by apply raise_if_raise in E as -> |].
  destruct (u64 _ p) as [[] | x] eqn:E1; cbn [rbind] in E; [| injection E as <-; by eapply decimal_control].
  destruct (DIGEST _ q) as [[] | x] eqn:E2; cbn [rbind] in E; [| injection E as <-; by eapply string_control].
  destruct p, r; try done. by apply raise_if_raise in E as ->.
Qed.

Lemma fields_there (d : pydict) (l : list string) : keys_equal (dkeys d) (names l) = true -> Forall (fun k => exists v, dget d (ustr k) = Some v) l.
Proof.
  intros Hk. apply Forall_forall. intros k Hin. apply dget_some. unfold dhas. apply str_in_elem, (keys_equal_elem _ _ Hk).
  by apply list_elem_of_In, in_map, list_elem_of_In.
Qed.

(** Follow a raise through the checks. *)
Ltac follow E :=
  lazymatch type of E with
  | rbind ?c _ = Raise _ => let Ec := fresh "Ec" in destruct c eqn:Ec; cbn [rbind] in E; [clear Ec; follow E | injection E as <-; follow Ec]
  | check_fields _ _ = Raise _ =>
      eapply check_fields_refused; [| exact E];
      repeat (apply Forall_cons; split; [first [by apply refusing_agent | apply refusing_control; [assumption | by eauto 3 with control]] |]); apply Forall_nil; exact I
  | predecessor _ _ _ _ _ = Raise _ => by eapply predecessor_refused
  | item ?d ?k = Raise _ => exfalso; match goal with F : exists v, dget d (ustr k) = Some v |- _ => destruct F as [? F]; unfold item in E; by rewrite F in E end
  end.

Lemma request_refused `{Unicode} (d : pydict) (e : exn) : validate_request d = Raise e -> refused d e.
Proof.
  intros E. unfold validate_request in E. destruct (dget d $"action") as [[| | | | s | | |] |] eqn:Ea; try (injection E as <-; by left).
  destruct (action_of s) as [a |] eqn:Eact; [| injection E as <-; by left].
  destruct (require_keys d (request_fields a)) as [[] | x] eqn:Ek; cbn [rbind] in E; [| injection E as <-; apply raise_if_raise in Ek as ->; by left].
  apply raise_if_ok, negb_false_iff in Ek. apply fields_there in Ek.
  destruct (common_ d s) as [[] | x] eqn:Ec; cbn [rbind] in E; [| injection E as <-; by eapply common_refused].
  destruct (request_checks a d) as [[] | x] eqn:Er; cbn [rbind] in E; [done |]. injection E as <-. clear Ec Ea Eact.
  destruct a; unfold request_fields, COMMON, WORKSPACE_FIELDS, TUPLE_FIELDS in Ek; cbn [app] in Ek; rewrite !Forall_cons in Ek; destruct_and? Ek;
    cbn [request_checks] in Er; unfold workspace_checks, attach_checks, resume_checks in Er; follow Er.
Qed.

(** ** Theorems *)

Section Theorems.
Context `{UnicodeLaws}.

(** C38: an exchange over the control socket is lossless and bound to its
    request.  The line of every request that can be sent is decoded by the peer to
    the same request; the line of every response to its action is decoded by the
    requester to the same response when it names the request, and refused as a
    mismatch otherwise. *)
Theorem control_exchange (req resp : pydict) (a rid : pystr) (raw1 raw2 : bytes) :
  py_dict req -> py_dict resp -> encode_control_request req = Ok raw1 -> encode_control_response resp a = Ok raw2 ->
  dget req $"request_id" = Some (PStr rid) ->
  decode_control_request raw1 = Ok req
  /\ decode_control_response raw2 a (Some (PStr rid)) =
     if scalar_eqb (default PNone (dget resp $"request_id")) (PStr rid) then Ok resp
     else Raise (control_error "response request_id does not match request").
Proof.
  intros Hreq Hresp E1 E2 Hid. unfold encode_control_request in E1. apply rbind_ok in E1 as (d1 & V1 & E1).
  unfold encode_control_response in E2. apply rbind_ok in E2 as (d2 & V2 & E2).
  destruct (validate_request_message req d1 Hreq V1) as (-> & P1 & S1 & T1). destruct (validate_response_message resp d2 a None Hresp V2) as (-> & P2 & S2 & T2).
  unfold decode_control_request, decode_control_response. rewrite (load_encoded req _ raw1 P1 (proj1 Hreq) S1 T1 E1).
  rewrite (load_encoded resp _ raw2 P2 (proj1 Hresp) S2 T2 E2). cbn [rbind]. split; [done |].
  destruct (request_id_ok req req V1) as (r1 & Hr1 & M1). rewrite Hid in Hr1. injection Hr1 as <-. by apply response_expected.
Qed.

(** Decoding a request line ends with the request or with the one
    control error, with a single exception: when the member [agent_type] is a list
    or an object the membership test raises a [TypeError]. *)
Theorem control_request_errors (raw : bytes) (e : exn) :
  decode_control_request raw = Raise e ->
  exn_class e = WAWControlError
  \/ exn_class e = PyTypeError /\ exists d v, load_line raw = Ok d /\ dget d $"agent_type" = Some v /\ unhashable v = true.
Proof.
  intros E. unfold decode_control_request in E. destruct (load_line raw) as [d | x] eqn:El; cbn [rbind] in E.
  - apply request_refused in E as [E | (E & v & Hv)]; [by left | right]. split; [done |]. by exists d, v.
  - injection E as <-. left. by eapply load_line_error.
Qed.

(** The bytes that [binding_inventory_digest] hashes *)
Definition hashed_inventory (items : list pyval) : result bytes :=
  let! projection := inventory_rows items in
  let! text := inventory_text projection in
  py_encode text.

(** The two inventories are written as different bytes that SHA-256 does not
    tell apart. *)
Definition inventories_collide (items items' : list pyval) : Prop :=
  exists b b', hashed_inventory items = Ok b /\ hashed_inventory items' = Ok b' /\ b <> b' /\ sha256 b = sha256 b'.

(** Two inventories with the same digest have the same rows. *)
Lemma inventory_digest_rows (items items' : list pyval) (n n' digest : pystr) :
  Forall (fun v => code_points v = true) items -> Forall (fun v => code_points v = true) items' ->
  binding_inventory_digest items = Ok (n, digest) -> binding_inventory_digest items' = Ok (n', digest) ->
  inventory_rows items' = inventory_rows items \/ inventories_collide items' items.
Proof.
  intros Hc Hc' E E'. unfold inventories_collide, hashed_inventory. unfold binding_inventory_digest in E, E'. apply rbind_ok in E as (rows & Er & E). apply rbind_ok in E as (t & Et & E).
  apply rbind_ok in E as (b & Eb & [= _ <-]%Ok_inj). apply rbind_ok in E' as (rows' & Er' & E'). apply rbind_ok in E' as (t' & Et' & E').
  apply rbind_ok in E' as (b' & Eb' & [= _ Hd%hexdigest_inj]%Ok_inj). destruct (decide (b' = b)) as [-> | Hn].
  2: { right. exists b', b. rewrite Er, Er'. cbn [rbind]. rewrite Et, Et'. by split_and!. }
  left. rewrite Er, Er'. f_equal. apply (inventory_text_inj rows' rows t'); [exact (inventory_rows_ok items' rows' Hc' Er') | exact (inventory_rows_ok items rows Hc Er) | done |].
  rewrite Et. f_equal. unfold py_encode in Eb, Eb'. destruct (utf8_encode t) as [x |] eqn:Ex; [| done]. destruct (utf8_encode t') as [x' |] eqn:Ex'; [| done].
  injection Eb as ->. injection Eb' as ->. apply utf8_decode_encode in Ex, Ex'. congruence.
Qed.

(** The digest of a binding inventory does not depend on the order in
    which the bindings are listed, and two inventories with the same digest consist
    of the same bindings, unless they are a collision of SHA-256 themselves. *)
Theorem inventory_canonical (items : list pyval) (n digest : pystr) :
  Forall (fun v => code_points v = true) items -> binding_inventory_digest items = Ok (n, digest) ->
  (forall items', items ≡ₚ items' -> binding_inventory_digest items' = Ok (n, digest))
  /\ forall items' n', Forall (fun v => code_points v = true) items' -> binding_inventory_digest items' = Ok (n', digest) ->
     inventory_rows items' = inventory_rows items \/ inventories_collide items' items.
Proof.
  intros Hc E. split.
  - intros items' Hp. unfold binding_inventory_digest in *. apply rbind_ok in E as (rows & Er & E). apply rbind_ok in E as (t & Et & E).
    apply rbind_ok in E as (b & Eb & [= <- <-]%Ok_inj). rewrite (inventory_rows_perm items items' rows Hp Er). cbn [rbind]. rewrite Et. cbn [rbind]. by rewrite Eb.
  - intros items' n' Hc' E'. exact (inventory_digest_rows items items' n n' digest Hc Hc' E E').
Qed.

End Theorems.

(** ** Samples and witnesses *)

Definition hex_id (prefix : string) (c : Z) : pyval := PStr ($prefix ++ repeat c 32).
Definition text (s : string) : pyval := PStr $s.
Definition dict_of (l : list (string * pyval)) : pydict := map (fun '(k, v) => (ustr k, v)) l.

Definition sample_identity : list (string * pyval) :=
  [("workspace_id", hex_id "aws_" 97); ("project_id", hex_id "prj_" 98); ("agent_type", text "codex"); ("generation", text "3")]%string.

Definition sample_request : pydict := dict_of
  ([("protocol_version", PInt 1); ("request_id", hex_id "wreq_" 99); ("action", text "workspace.workspace.status")]%string ++ sample_identity ++
   [("binding_revision", text "7"); ("binding_digest", PStr (repeat 100 64)); ("runtime_host_installation_id", hex_id "wri_" 101);
    ("runtime_host_installation_revision", text "18446744073709551615")]%string).

Definition sample_response (id : Z) : pydict := dict_of
  ([("protocol_version", PInt 1); ("request_id", hex_id "wreq_" id); ("status", text "STATUS")]%string ++ sample_identity ++
   [("binding_revision", text "7"); ("binding_digest", PStr (repeat 100 64)); ("state", text "RUNNING"); ("reconciliation_state", text "authoritative");
    ("runtime_epoch", text "2"); ("process_state", text "RUNNING"); ("exit_code", PNone);
    ("attachment_capacity", PDict (dict_of [("admitted", text "1"); ("pending", text "0"); ("limit", text "32")]))]%string).

Definition or_empty {A} (r : result (list A)) : list A := match r with Ok l => l | Raise _ => [] end.

Definition sample_line : bytes := or_empty (encode_control_request sample_request).
Definition status_action : pystr := $"workspace.workspace.status".
Definition answer_line (id : Z) : bytes := or_empty (encode_control_response (sample_response id) status_action).

Lemma control_exchange_witness :
  decode_control_request sample_line = Ok sample_request
  /\ decode_control_response (answer_line 99) status_action (Some (hex_id "wreq_" 99)) = Ok (sample_response 99)
  /\ is_ok (decode_control_response (answer_line 97) status_action (Some (hex_id "wreq_" 99))) = false.
Proof.
  assert (P : py_dict sample_request /\ py_dict (sample_response 99) /\ py_dict (sample_response 97)) by (vm_compute; tauto).
  destruct P as (P1 & P2 & P3).
  assert (E : encode_control_request sample_request = Ok sample_line /\ encode_control_response (sample_response 99) status_action = Ok (answer_line 99)
              /\ encode_control_response (sample_response 97) status_action = Ok (answer_line 97)) by (vm_compute; tauto).
  destruct E as (E1 & E2 & E3).
  destruct (control_exchange sample_request (sample_response 99) status_action ($"wreq_" ++ repeat 99 32) sample_line (answer_line 99) P1 P2 E1 E2 eq_refl)
    as [H1 H2].
  destruct (control_exchange sample_request (sample_response 97) status_action ($"wreq_" ++ repeat 99 32) sample_line (answer_line 97) P1 P3 E1 E3 eq_refl)
    as [_ H3].
  split; [exact H1 |]. unfold hex_id. rewrite H2, H3. split; vm_compute; reflexivity.
Defined.

(** A line whose [agent_type] is a list *)
Definition hostile_line : bytes :=
  or_empty (encode_line (dict_of [("protocol_version", PInt 1); ("request_id", hex_id "wreq_" 99); ("action", text "workspace.workspace.status");
    ("workspace_id", hex_id "aws_" 97); ("project_id", hex_id "prj_" 98); ("agent_type", PList []); ("generation", text "3");
    ("binding_revision", text "7"); ("binding_digest", PStr (repeat 100 64)); ("runtime_host_installation_id", hex_id "wri_" 101);
    ("runtime_host_installation_revision", text "1")]%string) "").

Lemma control_request_errors_witness : exists d v, load_line hostile_line = Ok d /\ dget d $"agent_type" = Some v /\ unhashable v = true.
Proof.
  destruct (control_request_errors hostile_line (err PyTypeError "unhashable type")) as [E | [_ E]]; [vm_compute; reflexivity | discriminate E | exact E].
Defined.

(** The same line in UTF-16 is a request too: [json.loads] guesses the encoding,
    so bytes that are not UTF-8 are accepted. *)
Definition utf16_line : bytes := BOM_UTF16_LE ++ flat_map (fun b => [b; z2b 0]) (removelast sample_line) ++ [LF].

Example utf16_accepted : utf8_decode utf16_line = None /\ decode_control_request utf16_line = Ok sample_request.
Proof. vm_compute. done. Qed.

Definition sample_binding_item (p : Z) (key revision : string) : pyval := PDict (dict_of
  [("project_id", hex_id "prj_" p); ("relative_key", text key); ("project_revision", text "1"); ("binding_revision", text revision);
   ("previous_binding_revision", if String.eqb revision "1" then PNone else text "1");
   ("previous_binding_digest", if String.eqb revision "1" then PNone else PStr (repeat 97 64)); ("binding_digest", PStr (repeat 98 64));
   ("runtime_host_installation_id", hex_id "wri_" 101); ("runtime_host_installation_revision", text "1")]%string).

Definition sample_inventory : list pyval := [sample_binding_item 99 "project one" "1"; sample_binding_item 98 "second-project" "2"].

Lemma inventory_canonical_witness : exists n digest,
  binding_inventory_digest sample_inventory = Ok (n, digest) /\ binding_inventory_digest (rev sample_inventory) = Ok (n, digest).
Proof.
  destruct (binding_inventory_digest sample_inventory) as [[n digest] | e] eqn:E; [| exfalso; vm_compute in E; discriminate].
  exists n, digest. split; [done |].
  destruct (inventory_canonical sample_inventory n digest) as [H _]; [repeat constructor | exact E |].
  apply H, Permutation_rev.
Defined.
