(* ===== verification/Canonical.v ===== *)
(** * Canonical JSON ([rfc8785])

    [rfc8785.dumps] is a package that the stores of the Runtime call: the class
    [Rfc8785], with the law that states the canonical form of RFC 8785 for values
    without floating-point numbers, and [printed_rfc8785] as an instance.  The
    lemmas show that a canonical value is printed and read back as it is. *)

From stdpp Require Import sorting.
From S2P Require Import Prelude PyVal Json Unicode Control.

Local Open Scope Z_scope.

Class Rfc8785 : Type := rfc8785_dumps : pydict -> result bytes.

(** The largest integer that a JSON number keeps exactly *)
Definition MAX_SAFE : Z := 2 ^ 53 - 1.

(** The keys are in ascending order, without a repetition. *)
Fixpoint ascending (l : list pystr) : bool :=
  match l with
  | a :: ((b :: _) as r) => negb (str_leb b a) && ascending r
  | _ => true
  end.

(** A value in the order and of the characters and numbers that RFC 8785 prints
    as they are; keys of ASCII characters have the same order in UTF-16. *)
Fixpoint canonical (v : pyval) : bool :=
  match v with
  | PNone | PBool _ => true
  | PInt z => in_range (- MAX_SAFE) z MAX_SAFE
  | PStr s => forallb scalar_value s
  | PList l => forallb canonical l
  | PDict d => ascending (dkeys d)
               && forallb (fun kv => forallb (fun c => c <? 128) (fst kv) && forallb (Z.leb 0) (fst kv) && canonical (snd kv)) d
  | PFloat _ | PBytes _ => false
  end.

(** The integers of a value are exact. *)
Fixpoint exact_integers (v : pyval) : bool :=
  match v with
  | PInt z => in_range (- MAX_SAFE) z MAX_SAFE
  | PList l => forallb exact_integers l
  | PDict d => forallb (fun kv => exact_integers (snd kv)) d
  | _ => true
  end.

(** An object in canonical order is printed as it is, without whitespace and with
    the shortest escapes (RFC 8785, section 3.2); an integer beyond the exact ones
    raises [IntegerDomainError]. *)
Class Rfc8785Laws (R : Rfc8785) : Prop := {
  rfc8785_canonical : forall d t b, canonical (PDict d) = true -> dumps (PDict d) = Ok t -> utf8_encode t = Some b -> rfc8785_dumps d = Ok b;
  rfc8785_domain : forall d b, rfc8785_dumps d = Ok b -> exact_integers (PDict d) = true
}.

Definition printed_rfc8785 : Rfc8785 := fun d =>
  run! raise_if (negb (exact_integers (PDict d))) (err PyValueError "IntegerDomainError") in
  let! t := dumps (PDict d) in
  match utf8_encode t with Some b => Ok b | None => Raise (err PyValueError "CanonicalizationError") end.

Lemma canonical_exact (v : pyval) : canonical v = true -> exact_integers v = true.
Proof.
  induction v as [| b | z | t | s | raw | l IH | d IH] using pyval_ind; try done; cbn [canonical exact_integers].
  - intros H. rewrite forallb_forall in *. rewrite Forall_forall in IH. intros x Hx. apply IH; [by apply list_elem_of_In | by apply H].
  - intros [_ H]%andb_true_iff. rewrite forallb_forall in *. rewrite Forall_forall in IH. intros kv Hx. specialize (H kv Hx).
    apply andb_true_iff in H as [_ Hv]. by apply IH; [apply list_elem_of_In |].
Qed.

#[export] Instance printed_laws : Rfc8785Laws printed_rfc8785.
Proof.
  constructor; unfold printed_rfc8785, rfc8785_dumps.
  - intros d t b Hc Et Eb. rewrite (canonical_exact _ Hc), Et. cbn [negb raise_if rbind]. by rewrite Eb.
  - intros d b E. by apply rbind_ok in E as ([] & ?%raise_if_ok%negb_false_iff & _).
Qed.

(** ** Characters of a printed value

    A class of characters that includes the printable ASCII characters: a value
    whose text is of the class is printed in it. *)

Class CharClass (good : Z -> bool) : Prop := {
  class_printable : forall c, 32 <= c < 127 -> good c = true;
  class_nonneg : forall c, good c = true -> 0 <= c
}.

Definition is_ascii (c : Z) : bool := in_range 0 c 127.

#[export] Instance scalar_class : CharClass scalar_value.
Proof. split; intros c; unfold scalar_value, is_surrogate, in_range; lia. Qed.

#[export] Instance ascii_class : CharClass is_ascii.
Proof. split; intros c; unfold is_ascii, in_range; lia. Qed.

Section Printed.
Context {good : Z -> bool} `{CharClass good}.

(** The text of a value, its keys included *)
Fixpoint texts (v : pyval) : bool :=
  match v with
  | PStr s => forallb good s
  | PList l => forallb texts l
  | PDict d => forallb (fun kv => forallb good (fst kv) && texts (snd kv)) d
  | PFloat _ | PBytes _ => false
  | _ => true
  end.

Lemma class_text (P : Z -> bool) (s : pystr) : (forall c, P c = true -> 32 <= c < 127) -> forallb P s = true -> forallb good s = true.
Proof. intros HP Hs. rewrite forallb_forall in *. intros c Hc. by apply class_printable, HP, Hs. Qed.

Lemma class_hex (s : pystr) : forallb is_lower_hex s = true -> forallb good s = true.
Proof. apply class_text. intros c. unfold is_lower_hex, is_digit, in_range. lia. Qed.

Lemma class_id (prefix s : pystr) : forallb good (prefix ++ $"_") = true -> match_id prefix s = true -> forallb good s = true.
Proof.
  intros Hp E. unfold match_id in E. apply andb_true_iff in E as [E Hx%class_hex]. apply andb_true_iff in E as [E%str_eqb_eq _].
  by rewrite <- (take_drop (length prefix + 1) s), forallb_app, E, Hp, Hx.
Qed.

Lemma class_decimal (s : pystr) : match_pos_decimal s = true -> forallb good s = true.
Proof.
  destruct s as [|c s]; [done |]. cbn [match_pos_decimal]. intros [[Hc Hs]%andb_true_iff _]%andb_true_iff. cbn [forallb].
  rewrite class_printable by (unfold is_nonzero_digit, in_range in Hc; lia). apply (class_text is_digit); [| done]. intros x. unfold is_digit, in_range. lia.
Qed.

Lemma class_number (z : Z) : forallb good (str_of_Z z) = true.
Proof.
  destruct (str_of_Z_shape z) as (c & r & -> & _ & Hd & _). rewrite forallb_app. apply andb_true_iff. split.
  - destruct (z <? 0); [| done]. cbn. by rewrite class_printable.
  - apply (class_text is_digit); [| done]. intros x. unfold is_digit, in_range. lia.
Qed.

Lemma class_escape (c : Z) : good c = true -> forallb good (escape_char c) = true.
Proof.
  intros Hc. pose proof (class_nonneg c Hc) as H0. assert (K : forall n, 0 <= n <= 15 -> good (hex_char n) = true).
  { intros n Hn. apply class_printable. unfold hex_char. destruct (n <? 10) eqn:?; lia. }
  unfold escape_char. repeat match goal with |- context [if ?b then _ else _] => destruct b eqn:? end; cbn [forallb]; rewrite ?Hc;
    rewrite ?class_printable by lia; try reflexivity.
  rewrite !K by (Z.to_euclidean_division_equations; lia). reflexivity.
Qed.

Lemma class_quoted (s : pystr) : forallb good s = true -> forallb good (dumps_string s) = true.
Proof.
  intros Hs. unfold dumps_string. cbn [forallb]. rewrite forallb_app. cbn [forallb]. rewrite !class_printable by lia. rewrite !andb_true_r. cbn [andb].
  induction s as [|c s IH]; [done |]. cbn [forallb flat_map] in *. apply andb_true_iff in Hs as [Hc Hs]. by rewrite forallb_app, class_escape, IH.
Qed.

Lemma class_joined (parts : list pystr) : Forall (fun p => forallb good p = true) parts -> forallb good (join_comma parts) = true.
Proof.
  induction 1 as [|p l Hp Hl IH]; [done |]. cbn [join_comma]. destruct l; [done |]. rewrite forallb_app, Hp. cbn [forallb]. rewrite class_printable by lia. by rewrite IH.
Qed.

(** A list of values that print prints. *)
Lemma class_parts {A} (f : A -> result pystr) (l : list A) : Forall (fun x => exists t, f x = Ok t /\ forallb good t = true) l ->
  exists parts, seq_results (map f l) = Ok parts /\ forallb good (join_comma parts) = true.
Proof.
  intros Hl. assert (K : exists parts, seq_results (map f l) = Ok parts /\ Forall (fun p => forallb good p = true) parts).
  { induction Hl as [|x l (t & Et & Ht) _ (ps & Eps & Hps)]; [by exists [] |]. exists (t :: ps). split; [by apply seq_results_cons | by constructor]. }
  destruct K as (ps & E & Hps). exists ps. split; [done |]. by apply class_joined.
Qed.

Lemma texts_dumps (v : pyval) : texts v = true -> exists t, dumps v = Ok t /\ forallb good t = true.
Proof.
  induction v as [| b | z | t | s | raw | l IH | d IH] using pyval_ind; try done; cbn [texts dumps]; intros Hv.
  - eexists. split; [done |]. cbn. by rewrite !class_printable.
  - destruct b; (eexists; split; [done |]); cbn; by rewrite !class_printable.
  - eexists. split; [done |]. apply class_number.
  - eexists. split; [done |]. by apply class_quoted.
  - destruct (class_parts dumps l) as (ps & -> & Hps).
    { rewrite forallb_forall in Hv. rewrite Forall_forall in IH |- *. intros x Hx. apply IH; [done |]. by apply Hv, list_elem_of_In. }
    eexists. split; [reflexivity |]. cbn [forallb]. rewrite forallb_app, Hps. cbn. by rewrite !class_printable.
  - destruct (class_parts (fun kv : pystr * pyval => let! t := dumps (snd kv) in Ok (dumps_string (fst kv) ++ 58 :: t)) d) as (ps & -> & Hps).
    { rewrite forallb_forall in Hv. rewrite Forall_forall in IH |- *. intros kv Hx. specialize (Hv kv ltac:(by apply list_elem_of_In)).
      apply andb_true_iff in Hv as [H1 H2]. destruct (IH kv Hx H2) as (t & -> & Ht). eexists. split; [reflexivity |].
      rewrite forallb_app, class_quoted by done. cbn [forallb andb]. by rewrite class_printable, Ht. }
    eexists. split; [reflexivity |]. cbn [forallb]. rewrite forallb_app, Hps. cbn. by rewrite !class_printable.
Qed.

Lemma texts_printable (v : pyval) : texts v = true -> printable v = true.
Proof.
  assert (K : forall s, forallb good s = true -> forallb (Z.leb 0) s = true).
  { intros s Hs. rewrite forallb_forall in *. intros c Hc. apply Z.leb_le, class_nonneg. by apply Hs. }
  induction v as [| b | z | t | s | raw | l IH | d IH] using pyval_ind; try done; cbn [texts printable]; [apply K | |]; intros Hv.
  - rewrite forallb_forall in *. rewrite Forall_forall in IH. intros x Hx. apply IH; [by apply list_elem_of_In | by apply Hv].
  - rewrite forallb_forall in *. rewrite Forall_forall in IH. intros kv Hx. specialize (Hv kv Hx).
    apply andb_true_iff in Hv as [Hk%K Hv]. rewrite Hk. by apply IH; [apply list_elem_of_In |].
Qed.

End Printed.

Arguments texts good v : clear implicits.

(** Of scalar values *)
Lemma scalar_hex (s : pystr) : forallb is_lower_hex s = true -> forallb scalar_value s = true.
Proof. apply class_hex. Qed.

Lemma scalar_id (prefix s : pystr) : forallb scalar_value (prefix ++ $"_") = true -> match_id prefix s = true -> forallb scalar_value s = true.
Proof. apply class_id. Qed.

Lemma scalar_decimal (s : pystr) : match_pos_decimal s = true -> forallb scalar_value s = true.
Proof. apply class_decimal. Qed.

(** ** Canonical values *)

Lemma canonical_texts (v : pyval) : canonical v = true -> texts scalar_value v = true.
Proof.
  induction v as [| b | z | t | s | raw | l IH | d IH] using pyval_ind; try done; cbn [canonical texts].
  - intros Hv. rewrite forallb_forall in *. rewrite Forall_forall in IH. intros x Hx. apply IH; [by apply list_elem_of_In | by apply Hv].
  - intros [_ Hv]%andb_true_iff. rewrite forallb_forall in *. rewrite Forall_forall in IH. intros kv Hx. specialize (Hv kv Hx).
    apply andb_true_iff in Hv as [[H1 H2]%andb_true_iff Hv]. apply andb_true_iff. split; [| by apply IH; [apply list_elem_of_In |]].
    rewrite forallb_forall in *. intros c Hc. specialize (H1 c Hc). specialize (H2 c Hc). unfold scalar_value, is_surrogate, in_range. lia.
Qed.

Lemma canonical_printable (v : pyval) : canonical v = true -> printable v = true.
Proof. intros Hv%canonical_texts. by apply (texts_printable (good := scalar_value)). Qed.

Lemma ascending_sorted (l : list pystr) : ascending l = true -> Sorted (fun a b => str_leb b a = false) l.
Proof.
  induction l as [|a [|b l] IH]; intros H; [constructor | by repeat constructor |]. apply andb_true_iff in H as [Hab%negb_true_iff H].
  constructor; [by apply IH | by constructor].
Qed.

Lemma ascending_unique (l : list pystr) : ascending l = true -> NoDup l.
Proof.
  intros H%ascending_sorted%Sorted_StronglySorted.
  - induction H as [|a l Hl IH Ha]; constructor; [| done]. intros Hin. rewrite Forall_forall in Ha. specialize (Ha a Hin). by rewrite str_leb_refl in Ha.
  - intros a b c Hab Hbc. destruct (str_leb c a) eqn:E; [| done]. pose proof (str_leb_total _ _ Hab) as H1. by rewrite (str_leb_trans c a b) in Hbc.
Qed.

Lemma canonical_unique (v : pyval) : canonical v = true -> unique_keys v = true.
Proof.
  induction v as [| b | z | t | s | raw | l IH | d IH] using pyval_ind; try done; cbn [canonical unique_keys].
  - intros H. rewrite forallb_forall in *. rewrite Forall_forall in IH. intros x Hx. apply IH; [by apply list_elem_of_In | by apply H].
  - intros [Hs H]%andb_true_iff. apply andb_true_iff. split; [by apply bool_decide_eq_true_2, ascending_unique |].
    rewrite forallb_forall in *. rewrite Forall_forall in IH. intros kv Hx. specialize (H kv Hx).
    apply andb_true_iff in H as [_ Hv]. by apply IH; [apply list_elem_of_In |].
Qed.

(** A canonical object is printed by [rfc8785.dumps] as its text. *)
Lemma canonical_text `{Rfc8785Laws} (d : pydict) : canonical (PDict d) = true ->
  exists t b, dumps (PDict d) = Ok t /\ utf8_encode t = Some b /\ rfc8785_dumps d = Ok b.
Proof.
  intros Hc. destruct (texts_dumps _ (canonical_texts _ Hc)) as (t & Et & Hs). destruct (utf8_encode_total t Hs) as (b & Eb). exists t, b.
  split; [done |]. split; [done |]. by apply (rfc8785_canonical d t).
Qed.

(** ... and read back as it is, with a hook that builds the dictionary. *)
Lemma canonical_loads (hook : unit -> list (pystr * pyval) -> result (unit * pyval)) (d : pydict) (t : pystr) :
  (forall d, NoDup (dkeys d) -> hook tt d = Ok (tt, PDict d)) -> canonical (PDict d) = true -> dumps (PDict d) = Ok t ->
  loads default_number default_constant hook tt t = Ok (tt, PDict d).
Proof.
  intros Hh Hc Et. rewrite (loads_dumps _ _ _ _ _ _ (canonical_printable _ Hc) Et). apply read_back_plain; [done |]. by apply canonical_unique.
Qed.
