(* ===== verification/NoiseContract.v ===== *)
(** * The handshake metadata contract ([agentbox_protocol/waw_noise_contract.py])

    The ordering of the twelve handshake messages as an immutable session, with
    the lifecycle tuple every message repeats, a transcript digest that chains
    them, and the bounded fence against a replayed handshake identifier.  A
    tuple or a message can be built from a mapping of arbitrary values, so their
    fields are Python values until the validators have seen them.
    [rfc8785.dumps] is third-party code: the parameter [dumps], and where a theorem
    needs to know when it succeeds, the class [Rfc8785] of [Canonical.v] with its
    laws and [Rfc8785Total] below. *)

From S2P Require Import Prelude PyVal Json Sha256 Canonical.

Local Open Scope Z_scope.

Definition contract_error (code text : string) : exn := Exn WAWNoiseContractError code text.
Definition invalid (field : string) : exn := contract_error "PROTOCOL_INVALID" ("invalid " ++ field).

Inductive WAWNoiseMessageType : Type :=
| WS_HELLO | RUNTIME_HELLO | KEY_INIT | HELLO_ACK | KEY_ATTEST | KEY_CONFIRM | KEY_CONFIRM_ACK | STREAM_READY
| STREAM_READY_ACK | ADMISSION_COMMIT | ADMISSION_COMMIT_ACK | ADMITTED.

Inductive WAWNoiseRole : Type := CLIENT | RUNTIME.

Inductive WAWNoiseState : Type :=
| INIT | CLIENT_HELLO_ACCEPTED | SERVER_HELLO_ACCEPTED | KEY_INIT_ACCEPTED | HELLO_ACK_ACCEPTED
| KEY_ATTEST_ACCEPTED | KEY_CONFIRM_ACCEPTED | KEY_CONFIRM_ACK_ACCEPTED | STREAM_READY_ACCEPTED
| STREAM_READY_ACK_ACCEPTED | ADMISSION_COMMIT_ACCEPTED | ADMISSION_COMMIT_ACK_ACCEPTED
| READY_FOR_EXTERNAL_HANDSHAKE | REJECTED.

#[export] Instance noise_type_eq_dec : EqDecision WAWNoiseMessageType.
Proof. solve_decision. Defined.
#[export] Instance noise_role_eq_dec : EqDecision WAWNoiseRole.
Proof. solve_decision. Defined.
#[export] Instance noise_state_eq_dec : EqDecision WAWNoiseState.
Proof. solve_decision. Defined.

(** The values of the string enumerations *)
Definition type_value (t : WAWNoiseMessageType) : pystr :=
  match t with
  | WS_HELLO => $"WS_HELLO" | RUNTIME_HELLO => $"RUNTIME_HELLO" | KEY_INIT => $"KEY_INIT" | HELLO_ACK => $"HELLO_ACK"
  | KEY_ATTEST => $"KEY_ATTEST" | KEY_CONFIRM => $"KEY_CONFIRM" | KEY_CONFIRM_ACK => $"KEY_CONFIRM_ACK"
  | STREAM_READY => $"STREAM_READY" | STREAM_READY_ACK => $"STREAM_READY_ACK" | ADMISSION_COMMIT => $"ADMISSION_COMMIT"
  | ADMISSION_COMMIT_ACK => $"ADMISSION_COMMIT_ACK" | ADMITTED => $"ADMITTED"
  end.

Definition role_value (r : WAWNoiseRole) : pystr := match r with CLIENT => $"CLIENT" | RUNTIME => $"RUNTIME" end.

Definition all_types : list WAWNoiseMessageType :=
  [WS_HELLO; RUNTIME_HELLO; KEY_INIT; HELLO_ACK; KEY_ATTEST; KEY_CONFIRM; KEY_CONFIRM_ACK; STREAM_READY;
   STREAM_READY_ACK; ADMISSION_COMMIT; ADMISSION_COMMIT_ACK; ADMITTED].

(** [Enum(value)] *)
Definition member {A} (members : list A) (value_of : A -> pystr) (v : pyval) : result A :=
  match v with
  | PStr s => match List.find (fun a => str_eqb s (value_of a)) members with
              | Some a => Ok a
              | None => Raise (err PyValueError "is not a valid member")
              end
  | _ => Raise (err PyValueError "is not a valid member")
  end.

Record WAWNoiseTuple : Type := mkTuple {
  workspace_id : pyval;
  project_id : pyval;
  agent_type : pyval;
  generation : pyval;
  runtime_epoch : pyval;
  runtime_host_installation_id : pyval;
  runtime_host_installation_revision : pyval;
  binding_revision : pyval;
  binding_digest : pyval;
  api_authority_epoch : pyval;
  auth_epoch : pyval;
  attachment_id : pyval
}.

Record WAWNoiseMessage : Type := mkMessage {
  protocol_version : pyval;
  message_type : WAWNoiseMessageType;
  role : WAWNoiseRole;
  m_handshake_id : pyval;
  sequence : pyval;
  m_tuple : WAWNoiseTuple;
  m_transcript_digest : pyval
}.

Record WAWNoiseSession : Type := mkSession {
  handshake_id : pyval;
  s_tuple : WAWNoiseTuple;
  state : WAWNoiseState;
  next_sequence : pyval;
  transcript_digest : pyval
}.

(** ** Validators *)

(** [_text] *)
Definition text_ (v : pyval) (field : string) (pattern : pystr -> bool) : result pystr :=
  match v with
  | PStr s =>
      run! raise_if (match s with [] => true | _ => false end || (512 <? blen s) || existsb (Z.eqb 0) s) (invalid field) in
      run! raise_if (existsb (fun c => (c <? 32) || (c =? 127)) s) (invalid field) in
      run! raise_if (negb (pattern s)) (invalid field) in
      Ok s
  | _ => Raise (invalid field)
  end.

(** [_decimal] with [positive=True], the only use *)
Definition decimal_ (v : pyval) (field : string) : result pystr :=
  let! s := text_ v field match_pos_decimal in
  run! raise_if (MAX_U64 <? digits_value s) (invalid field) in
  Ok s.

(** [_digest] *)
Definition digest_ (v : pyval) (field : string) : result pystr :=
  let! s := text_ v field (match_hex 64) in
  run! raise_if (str_eqb s (repeat 48 64)) (invalid field) in
  Ok s.

(** [type(v) is int and lo <= v <= hi] *)
Definition int_in (v : pyval) (lo hi : Z) : bool := match v with PInt z => in_range lo z hi | _ => false end.

(** [_validate_tuple] *)
Definition validate_tuple (t : WAWNoiseTuple) : result unit :=
  run! text_ (workspace_id t) "workspace_id" (match_id $"aws") in
  run! text_ (project_id t) "project_id" (match_id $"prj") in
  run! raise_if (negb (scalar_eqb (agent_type t) (PStr $"claude")))
         (contract_error "WAW_AGENT_UNSUPPORTED" "contract-only WAW-1 accepts Claude") in
  run! raise_if (negb (int_in (generation t) 1 MAX_U64)) (invalid "generation") in
  run! decimal_ (runtime_epoch t) "runtime_epoch" in
  run! text_ (runtime_host_installation_id t) "runtime_host_installation_id" (match_id $"wri") in
  run! decimal_ (runtime_host_installation_revision t) "runtime_host_installation_revision" in
  run! decimal_ (binding_revision t) "binding_revision" in
  run! digest_ (binding_digest t) "binding_digest" in
  run! decimal_ (api_authority_epoch t) "api_authority_epoch" in
  run! decimal_ (auth_epoch t) "auth_epoch" in
  run! text_ (attachment_id t) "attachment_id" (match_id $"att") in
  Ok tt.

(** [_validate_message] *)
Definition validate_message (m : WAWNoiseMessage) : result unit :=
  run! raise_if (negb (int_in (protocol_version m) 1 1)) (contract_error "PROTOCOL_INVALID" "unsupported protocol_version") in
  run! text_ (m_handshake_id m) "handshake_id" (match_id $"wsh") in
  run! raise_if (negb (int_in (sequence m) 0 MAX_U64)) (invalid "sequence") in
  run! validate_tuple (m_tuple m) in
  run! digest_ (m_transcript_digest m) "transcript_digest" in
  Ok tt.

(** [_validate_session] *)
Definition validate_session (s : WAWNoiseSession) : result unit :=
  run! raise_if (negb (int_in (next_sequence s) 0 MAX_U64)) (contract_error "PROTOCOL_INVALID" "session sequence is invalid") in
  run! validate_tuple (s_tuple s) in
  run! text_ (handshake_id s) "handshake_id" (match_id $"wsh") in
  run! digest_ (transcript_digest s) "transcript_digest" in
  Ok tt.

(** ** Closed mappings *)

Definition tuple_fields : list pystr :=
  [$"workspace_id"; $"project_id"; $"agent_type"; $"generation"; $"runtime_epoch"; $"runtime_host_installation_id";
   $"runtime_host_installation_revision"; $"binding_revision"; $"binding_digest"; $"api_authority_epoch"; $"auth_epoch";
   $"attachment_id"].

Definition message_fields : list pystr :=
  [$"protocol_version"; $"message_type"; $"role"; $"handshake_id"; $"sequence"; $"tuple"; $"transcript_digest"].

(** [data[k]] *)
Definition item (d : pydict) (k : string) : result pyval :=
  match dget d (ustr k) with Some v => Ok v | None => Raise (err PyKeyError k) end.

(** [_closed(value, WAWNoiseTuple)] of a mapping *)
Definition closed_tuple (v : pyval) : result WAWNoiseTuple :=
  match v with
  | PDict d =>
      run! raise_if (negb (keys_equal (dkeys d) tuple_fields))
             (contract_error "PROTOCOL_INVALID" "WAWNoiseTuple fields are not closed") in
      let! a := item d "workspace_id" in let! b := item d "project_id" in
      let! c := item d "agent_type" in let! g := item d "generation" in
      let! e := item d "runtime_epoch" in let! h := item d "runtime_host_installation_id" in
      let! i := item d "runtime_host_installation_revision" in let! j := item d "binding_revision" in
      let! k := item d "binding_digest" in let! l := item d "api_authority_epoch" in
      let! n := item d "auth_epoch" in let! o := item d "attachment_id" in
      Ok (mkTuple a b c g e h i j k l n o)
  | _ => Raise (contract_error "PROTOCOL_INVALID" "WAWNoiseTuple must be a closed mapping")
  end.

(** [_closed(value, WAWNoiseMessage)] of a mapping *)
Definition closed_message (v : pyval) : result WAWNoiseMessage :=
  match v with
  | PDict d =>
      run! raise_if (negb (keys_equal (dkeys d) message_fields))
             (contract_error "PROTOCOL_INVALID" "WAWNoiseMessage fields are not closed") in
      except_as
        (let! tv := item d "message_type" in let! t := member all_types type_value tv in
         let! rv := item d "role" in let! r := member [CLIENT; RUNTIME] role_value rv in
         let! uv := item d "tuple" in let! u := closed_tuple uv in
         let! p := item d "protocol_version" in let! h := item d "handshake_id" in
         let! q := item d "sequence" in let! g := item d "transcript_digest" in
         Ok (mkMessage p t r h q u g))
        [PyTypeError; PyValueError; PyKeyError]
        (contract_error "PROTOCOL_INVALID" "WAWNoiseMessage fields are malformed")
  | _ => Raise (contract_error "PROTOCOL_INVALID" "WAWNoiseMessage must be a closed mapping")
  end.

(** [_tuple_payload] *)
Definition tuple_payload (t : WAWNoiseTuple) : pydict :=
  [($"workspace_id", workspace_id t); ($"project_id", project_id t); ($"agent_type", agent_type t);
   ($"generation", generation t); ($"runtime_epoch", runtime_epoch t);
   ($"runtime_host_installation_id", runtime_host_installation_id t);
   ($"runtime_host_installation_revision", runtime_host_installation_revision t);
   ($"binding_revision", binding_revision t); ($"binding_digest", binding_digest t);
   ($"api_authority_epoch", api_authority_epoch t); ($"auth_epoch", auth_epoch t); ($"attachment_id", attachment_id t)].

(** [_message_payload] *)
Definition message_payload (m : WAWNoiseMessage) : pydict :=
  [($"protocol_version", protocol_version m); ($"message_type", PStr (type_value (message_type m)));
   ($"role", PStr (role_value (role m))); ($"handshake_id", m_handshake_id m); ($"sequence", sequence m);
   ($"tuple", PDict (tuple_payload (m_tuple m)))].

(** [bound.tuple != session.tuple]: the fields compared one by one *)
Definition tuple_eqb (a b : WAWNoiseTuple) : bool :=
  forallb (fun '(x, y) => scalar_eqb x y) (zip (map snd (tuple_payload a)) (map snd (tuple_payload b))).

(** A caller passes a record or a mapping. *)
Inductive message_input : Type :=
| Typed (m : WAWNoiseMessage)
| Mapped (v : pyval).

Inductive tuple_input : Type :=
| TypedTuple (t : WAWNoiseTuple)
| MappedTuple (v : pyval).

Definition closed_tuple_input (i : tuple_input) : result WAWNoiseTuple :=
  match i with TypedTuple t => Ok t | MappedTuple v => closed_tuple v end.

Definition closed_message_input (i : message_input) : result WAWNoiseMessage :=
  match i with Typed m => Ok m | Mapped v => closed_message v end.

(** [_TRANSITIONS]; the two terminal states have no entry. *)
Definition TRANSITIONS (s : WAWNoiseState) : option (WAWNoiseMessageType * WAWNoiseRole * WAWNoiseState) :=
  match s with
  | INIT => Some (WS_HELLO, CLIENT, CLIENT_HELLO_ACCEPTED)
  | CLIENT_HELLO_ACCEPTED => Some (RUNTIME_HELLO, RUNTIME, SERVER_HELLO_ACCEPTED)
  | SERVER_HELLO_ACCEPTED => Some (KEY_INIT, CLIENT, KEY_INIT_ACCEPTED)
  | KEY_INIT_ACCEPTED => Some (HELLO_ACK, RUNTIME, HELLO_ACK_ACCEPTED)
  | HELLO_ACK_ACCEPTED => Some (KEY_ATTEST, RUNTIME, KEY_ATTEST_ACCEPTED)
  | KEY_ATTEST_ACCEPTED => Some (KEY_CONFIRM, CLIENT, KEY_CONFIRM_ACCEPTED)
  | KEY_CONFIRM_ACCEPTED => Some (KEY_CONFIRM_ACK, RUNTIME, KEY_CONFIRM_ACK_ACCEPTED)
  | KEY_CONFIRM_ACK_ACCEPTED => Some (STREAM_READY, CLIENT, STREAM_READY_ACCEPTED)
  | STREAM_READY_ACCEPTED => Some (STREAM_READY_ACK, RUNTIME, STREAM_READY_ACK_ACCEPTED)
  | STREAM_READY_ACK_ACCEPTED => Some (ADMISSION_COMMIT, CLIENT, ADMISSION_COMMIT_ACCEPTED)
  | ADMISSION_COMMIT_ACCEPTED => Some (ADMISSION_COMMIT_ACK, RUNTIME, ADMISSION_COMMIT_ACK_ACCEPTED)
  | ADMISSION_COMMIT_ACK_ACCEPTED => Some (ADMITTED, RUNTIME, READY_FOR_EXTERNAL_HANDSHAKE)
  | READY_FOR_EXTERNAL_HANDSHAKE | REJECTED => None
  end.

(** ** The replay fence *)

Record WAWNoiseReplayFence : Type := mkFence {
  capacity : Z;
  reserved : list (pystr * pystr);
  order : list (pystr * pystr)
}.

Definition new_fence (c : pyval) : result WAWNoiseReplayFence :=
  match c with
  | PInt z => run! raise_if (negb (in_range 1 z 1024)) (err PyValueError "capacity must be an integer in 1..1024") in
              Ok (mkFence z [] [])
  | _ => Raise (err PyValueError "capacity must be an integer in 1..1024")
  end.

Section Contract.
Context (dumps : pydict -> result bytes).

(** [_digest_bytes] *)
Definition digest_bytes (d : pydict) : result pystr := let! b := dumps d in Ok (hexdigest (sha256 b)).

Definition tuple_digest (i : tuple_input) : result pystr :=
  let! t := closed_tuple_input i in
  run! validate_tuple t in
  digest_bytes (tuple_payload t).

Definition encode_message (i : message_input) : result bytes :=
  let! m := closed_message_input i in
  run! validate_message m in
  dumps (message_payload m ++ [($"transcript_digest", m_transcript_digest m)]).

Definition decode_message (i : message_input) : result WAWNoiseMessage :=
  let! m := closed_message_input i in
  run! validate_message m in
  Ok m.

Definition reserve (f : WAWNoiseReplayFence) (hid : pyval) (t : WAWNoiseTuple) : WAWNoiseReplayFence * result unit :=
  match (let! h := text_ hid "handshake_id" (match_id $"wsh") in
         run! validate_tuple t in
         let! d := tuple_digest (TypedTuple t) in Ok (h, d)) with
  | Raise e => (f, Raise e)
  | Ok key =>
      if existsb (fun k => str_eqb (fst k) (fst key) && str_eqb (snd k) (snd key)) (reserved f)
         || existsb (fun k => str_eqb (fst k) (fst key)) (reserved f)
      then (f, Raise (contract_error "HANDSHAKE_REPLAY" "handshake identity was already reserved"))
      else if capacity f <=? blen (order f) then
        (f, Raise (contract_error "HANDSHAKE_REPLAY_WINDOW_EXHAUSTED" "bounded handshake replay window is exhausted"))
      else (mkFence (capacity f) (key :: reserved f) (order f ++ [key]), Ok tt)
  end.

Definition start_session (f : WAWNoiseReplayFence) (tuple_value : tuple_input) (hid : pyval)
  : WAWNoiseReplayFence * result WAWNoiseSession :=
  match (let! t := closed_tuple_input tuple_value in
         run! validate_tuple t in
         run! text_ hid "handshake_id" (match_id $"wsh") in Ok t) with
  | Raise e => (f, Raise e)
  | Ok t =>
      match reserve f hid t with
      | (f1, Raise e) => (f1, Raise e)
      | (f1, Ok _) => (f1, let! d := tuple_digest (TypedTuple t) in Ok (mkSession hid t INIT (PInt 0) (PStr d)))
      end
  end.

Definition accept_message (s : WAWNoiseSession) (i : message_input) : result WAWNoiseSession :=
  run! validate_session s in
  run! raise_if (bool_decide (state s = REJECTED) || bool_decide (state s = READY_FOR_EXTERNAL_HANDSHAKE))
         (contract_error "HANDSHAKE_TERMINAL" "handshake state is terminal") in
  let! bound := match i with
                | Mapped (PDict d) => decode_message (Mapped (PDict d))
                | Typed m => run! validate_message m in Ok m
                | Mapped _ => Raise (contract_error "PROTOCOL_INVALID" "message must be an exact typed record")
                end in
  match TRANSITIONS (state s) with
  | None => Raise (err PyKeyError "state")
  | Some (expected_type, expected_role, next_state) =>
      run! raise_if (negb (scalar_eqb (m_handshake_id bound) (handshake_id s)))
             (contract_error "HANDSHAKE_ID_MISMATCH" "handshake identity changed") in
      run! raise_if (negb (tuple_eqb (m_tuple bound) (s_tuple s)))
             (contract_error "WAW_TUPLE_MISMATCH" "lifecycle tuple changed") in
      run! raise_if (negb (bool_decide (message_type bound = expected_type)) || negb (bool_decide (role bound = expected_role)))
             (contract_error "HANDSHAKE_ORDER_INVALID" "message is not the exact next role/type") in
      run! raise_if (negb (scalar_eqb (sequence bound) (next_sequence s)))
             (contract_error "HANDSHAKE_SEQUENCE_INVALID" "message sequence is not contiguous") in
      run! raise_if (negb (scalar_eqb (m_transcript_digest bound) (transcript_digest s)))
             (contract_error "TRANSCRIPT_MISMATCH" "transcript digest is stale or replayed") in
      run! raise_if (scalar_eqb (next_sequence s) (PInt MAX_U64))
             (contract_error "HANDSHAKE_SEQUENCE_EXHAUSTED" "handshake sequence is exhausted") in
      let! next_digest := digest_bytes [($"previous", transcript_digest s); ($"message", PDict (message_payload bound))] in
      match next_sequence s with
      | PInt n => Ok (mkSession (handshake_id s) (s_tuple s) next_state (PInt (n + 1)) (PStr next_digest))
      | _ => Raise (err PyTypeError "unsupported operand")
      end
  end.

End Contract.

(** ** What the validators establish *)

Lemma text_inv (v : pyval) (field : string) (pattern : pystr -> bool) (s : pystr) :
  text_ v field pattern = Ok s -> v = PStr s /\ pattern s = true.
Proof. unfold text_. destruct v; try discriminate 1. intros H. inv_ok. by apply negb_false_iff in G1. Qed.

Lemma decimal_inv (v : pyval) (field : string) (s : pystr) : decimal_ v field = Ok s -> v = PStr s.
Proof. unfold decimal_. intros H. inv_ok. by apply text_inv in E as [-> _]. Qed.

Lemma digest_inv (v : pyval) (field : string) (s : pystr) : digest_ v field = Ok s -> v = PStr s.
Proof. unfold digest_. intros H. inv_ok. by apply text_inv in E as [-> _]. Qed.

Lemma int_in_inv (v : pyval) (lo hi : Z) : int_in v lo hi = true -> exists z, v = PInt z /\ lo <= z <= hi.
Proof. destruct v; try discriminate 1. cbn. intros H. bool_to_prop. eauto. Qed.

Lemma scalar_eqb_str (v : pyval) (s : pystr) : scalar_eqb v (PStr s) = true -> v = PStr s.
Proof. destruct v; try discriminate 1. cbn. by intros ->%str_eqb_eq. Qed.

Lemma scalar_eqb_text (v : pyval) (s : pystr) : v = PStr s -> scalar_eqb v v = true.
Proof. intros ->. cbn. apply str_eqb_refl. Qed.

Lemma scalar_neq (v : pyval) (s : pystr) : scalar_eqb v (PStr s) = false -> v <> PStr s.
Proof. intros H ->. by rewrite (scalar_eqb_text _ s eq_refl) in H. Qed.

(** A validated tuple holds eleven strings and an integer. *)
Lemma validate_tuple_shape (t : WAWNoiseTuple) :
  validate_tuple t = Ok tt ->
  exists a b c g e h i j k l n o, t = mkTuple (PStr a) (PStr b) (PStr c) (PInt g) (PStr e) (PStr h) (PStr i) (PStr j)
                                        (PStr k) (PStr l) (PStr n) (PStr o).
Proof.
  unfold validate_tuple. intros H. inv_ok. apply negb_false_iff, scalar_eqb_str in G. apply negb_false_iff, int_in_inv in G0 as (g & G0 & _).
  repeat match goal with
  | E : text_ _ _ _ = Ok _ |- _ => apply text_inv in E as [E _]
  | E : decimal_ _ _ = Ok _ |- _ => apply decimal_inv in E
  | E : digest_ _ _ = Ok _ |- _ => apply digest_inv in E
  end. destruct t; cbn in *; subst. repeat eexists.
Qed.

Lemma tuple_eqb_eq (a b : WAWNoiseTuple) : validate_tuple a = Ok tt -> validate_tuple b = Ok tt -> tuple_eqb a b = true -> a = b.
Proof.
  intros Ha Hb. apply validate_tuple_shape in Ha as (a1 & a2 & a3 & a4 & a5 & a6 & a7 & a8 & a9 & a10 & a11 & a12 & ->).
  apply validate_tuple_shape in Hb as (b1 & b2 & b3 & b4 & b5 & b6 & b7 & b8 & b9 & b10 & b11 & b12 & ->).
  unfold tuple_eqb. cbn. rewrite !andb_true_iff, !str_eqb_eq, Z.eqb_eq. intros H. by destruct_and! H; subst.
Qed.

Lemma tuple_eqb_refl (a : WAWNoiseTuple) : validate_tuple a = Ok tt -> tuple_eqb a a = true.
Proof.
  intros Ha. apply validate_tuple_shape in Ha as (a1 & a2 & a3 & a4 & a5 & a6 & a7 & a8 & a9 & a10 & a11 & a12 & ->).
  unfold tuple_eqb. cbn. by rewrite !str_eqb_refl, Z.eqb_refl.
Qed.

(** ** The flow *)

Definition flow : list (WAWNoiseMessageType * WAWNoiseRole) :=
  [(WS_HELLO, CLIENT); (RUNTIME_HELLO, RUNTIME); (KEY_INIT, CLIENT); (HELLO_ACK, RUNTIME); (KEY_ATTEST, RUNTIME);
   (KEY_CONFIRM, CLIENT); (KEY_CONFIRM_ACK, RUNTIME); (STREAM_READY, CLIENT); (STREAM_READY_ACK, RUNTIME);
   (ADMISSION_COMMIT, CLIENT); (ADMISSION_COMMIT_ACK, RUNTIME); (ADMITTED, RUNTIME)].

(** The state after each message of the flow *)
Definition flow_states : list WAWNoiseState :=
  [INIT; CLIENT_HELLO_ACCEPTED; SERVER_HELLO_ACCEPTED; KEY_INIT_ACCEPTED; HELLO_ACK_ACCEPTED; KEY_ATTEST_ACCEPTED;
   KEY_CONFIRM_ACCEPTED; KEY_CONFIRM_ACK_ACCEPTED; STREAM_READY_ACCEPTED; STREAM_READY_ACK_ACCEPTED;
   ADMISSION_COMMIT_ACCEPTED; ADMISSION_COMMIT_ACK_ACCEPTED; READY_FOR_EXTERNAL_HANDSHAKE].

(** How many messages a state still expects *)
Definition remaining (s : WAWNoiseState) : nat :=
  match s with
  | INIT => 12 | CLIENT_HELLO_ACCEPTED => 11 | SERVER_HELLO_ACCEPTED => 10 | KEY_INIT_ACCEPTED => 9
  | HELLO_ACK_ACCEPTED => 8 | KEY_ATTEST_ACCEPTED => 7 | KEY_CONFIRM_ACCEPTED => 6 | KEY_CONFIRM_ACK_ACCEPTED => 5
  | STREAM_READY_ACCEPTED => 4 | STREAM_READY_ACK_ACCEPTED => 3 | ADMISSION_COMMIT_ACCEPTED => 2
  | ADMISSION_COMMIT_ACK_ACCEPTED => 1 | READY_FOR_EXTERNAL_HANDSHAKE | REJECTED => 0
  end.

Lemma transition_follows_flow (k : nat) (s ns : WAWNoiseState) (t : WAWNoiseMessageType) (r : WAWNoiseRole) :
  flow_states !! k = Some s -> TRANSITIONS s = Some (t, r, ns) -> flow !! k = Some (t, r) /\ flow_states !! S k = Some ns.
Proof.
  intros Hs Ht. do 13 (destruct k as [|k]; [injection Hs as <-; cbn in Ht; first [discriminate Ht | by injection Ht as <- <- <-] |]). done.
Qed.

Lemma transition_decreases (s ns : WAWNoiseState) (t : WAWNoiseMessageType) (r : WAWNoiseRole) :
  TRANSITIONS s = Some (t, r, ns) -> remaining s = S (remaining ns).
Proof. by destruct s; intros [= <- <- <-]. Qed.

Section Runs.
Context (dumps : pydict -> result bytes).

(** What is true of a session, the message it accepted and the next session *)
Definition accepted (s : WAWNoiseSession) (m : WAWNoiseMessage) (s' : WAWNoiseSession) : Prop :=
  exists n d,
    (next_sequence s = PInt n /\ sequence m = PInt n /\ 0 <= n < MAX_U64)
    /\ TRANSITIONS (state s) = Some (message_type m, role m, state s')
    /\ (m_handshake_id m = handshake_id s /\ m_tuple m = s_tuple s /\ m_transcript_digest m = transcript_digest s)
    /\ digest_bytes dumps [($"previous", transcript_digest s); ($"message", PDict (message_payload m))] = Ok d
    /\ s' = mkSession (handshake_id s) (s_tuple s) (state s') (PInt (n + 1)) (PStr d).

Lemma accept_message_inv (s s' : WAWNoiseSession) (i : message_input) :
  accept_message dumps s i = Ok s' -> exists m, closed_message_input i = Ok m /\ validate_message m = Ok tt /\ accepted s m s'.
Proof.
  unfold accept_message. intros H. apply rbind_ok in H as ([] & Vs & H). apply rbind_ok in H as ([] & _ & H).
  apply rbind_ok in H as (m & Hm & H).
  assert (Hb : closed_message_input i = Ok m /\ validate_message m = Ok tt).
  { destruct i as [m0 | [| | | | | | | d]]; try discriminate Hm; unfold decode_message in Hm; inv_ok; cbn [closed_message_input] in *.
    - by destruct a.
    - destruct a0. split; [done |]. done. }
  destruct Hb as [Hb Vm]. exists m. split; [done |]. split; [done |]. clear Hm Hb.
  destruct (TRANSITIONS (state s)) as [[[t r] ns] |] eqn:Et; [| discriminate].
  apply rbind_ok in H as ([] & H1%raise_if_ok%negb_false_iff & H). apply rbind_ok in H as ([] & H2%raise_if_ok%negb_false_iff & H).
  apply rbind_ok in H as ([] & H3%raise_if_ok & H). apply rbind_ok in H as ([] & H4%raise_if_ok%negb_false_iff & H).
  apply rbind_ok in H as ([] & H5%raise_if_ok%negb_false_iff & H). apply rbind_ok in H as ([] & H6%raise_if_ok & H).
  apply rbind_ok in H as (d & Hd & H). apply orb_false_iff in H3 as [T1%negb_false_iff%bool_decide_eq_true_1 T2%negb_false_iff%bool_decide_eq_true_1].
  unfold validate_session in Vs. apply rbind_ok in Vs as ([] & V1%raise_if_ok%negb_false_iff%int_in_inv & Vs).
  destruct V1 as (n & Hn & Hr). apply rbind_ok in Vs as ([] & V2 & Vs). apply rbind_ok in Vs as (hs & V3%text_inv & Vs).
  apply rbind_ok in Vs as (ds & V4%digest_inv & _). destruct V3 as [V3 _].
  unfold validate_message in Vm. apply rbind_ok in Vm as ([] & _ & Vm). apply rbind_ok in Vm as (hm & W1%text_inv & Vm).
  destruct W1 as [W1 _]. apply rbind_ok in Vm as ([] & W2%raise_if_ok%negb_false_iff%int_in_inv & Vm). destruct W2 as (q & Hq & _).
  apply rbind_ok in Vm as ([] & W3 & Vm). rewrite Hn, Hq in *. cbn [scalar_eqb] in H4, H6. apply Z.eqb_eq in H4. subst q.
  apply Z.eqb_neq in H6. injection H as <-. exists n, d. cbn [state].
  rewrite V3 in H1 |- *. rewrite V4 in H5, Hd |- *. apply scalar_eqb_str in H1, H5.
  repeat split; try done; try lia; try congruence. by apply tuple_eqb_eq.
Qed.

(** Inputs accepted one after the other, with the messages they stand for *)
Inductive noise_run (s0 : WAWNoiseSession) : list WAWNoiseMessage -> WAWNoiseSession -> Prop :=
| Run_start : noise_run s0 [] s0
| Run_accept ms s i m s' : noise_run s0 ms s -> accept_message dumps s i = Ok s' -> closed_message_input i = Ok m ->
    noise_run s0 (ms ++ [m]) s'.

(** The fence after any sequence of attempts, with the identifiers it let through *)
Inductive fence_run : WAWNoiseReplayFence -> list pystr -> Prop :=
| Fence_new c f : new_fence c = Ok f -> fence_run f []
| Fence_started f hs t h f' s : fence_run f hs -> start_session dumps f t (PStr h) = (f', Ok s) -> fence_run f' (hs ++ [h])
| Fence_refused f hs t hid f' e : fence_run f hs -> start_session dumps f t hid = (f', Raise e) -> fence_run f' hs.

Lemma start_session_inv (f f' : WAWNoiseReplayFence) (t : tuple_input) (hid : pyval) (s : WAWNoiseSession) :
  start_session dumps f t hid = (f', Ok s) ->
  exists tv h d, closed_tuple_input t = Ok tv /\ validate_tuple tv = Ok tt /\ hid = PStr h /\ match_id $"wsh" h = true
    /\ tuple_digest dumps (TypedTuple tv) = Ok d /\ reserve dumps f hid tv = (f', Ok tt) /\ s = mkSession hid tv INIT (PInt 0) (PStr d).
Proof.
  unfold start_session. destruct (closed_tuple_input t) as [tv | e] eqn:Et; cbn [rbind]; [| discriminate].
  destruct (validate_tuple tv) as [[] | e] eqn:Ev; cbn [rbind]; [| discriminate].
  destruct (text_ hid "handshake_id" (match_id $"wsh")) as [h | e] eqn:Eh; cbn [rbind]; [| discriminate].
  apply text_inv in Eh as [-> Hh]. destruct (reserve dumps f (PStr h) tv) as [f1 [[] | e]] eqn:Er; [| discriminate].
  intros [= <- H]. inv_ok. exists tv, h, a. done.
Qed.

(** What one reservation of a valid identity does *)
Lemma reserve_eq (f : WAWNoiseReplayFence) (h d : pystr) (t : WAWNoiseTuple) :
  text_ (PStr h) "handshake_id" (match_id $"wsh") = Ok h -> validate_tuple t = Ok tt ->
  tuple_digest dumps (TypedTuple t) = Ok d ->
  reserve dumps f (PStr h) t
  = if str_in h (map fst (reserved f))
    then (f, Raise (contract_error "HANDSHAKE_REPLAY" "handshake identity was already reserved"))
    else if capacity f <=? blen (order f)
    then (f, Raise (contract_error "HANDSHAKE_REPLAY_WINDOW_EXHAUSTED" "bounded handshake replay window is exhausted"))
    else (mkFence (capacity f) ((h, d) :: reserved f) (order f ++ [(h, d)]), Ok tt).
Proof.
  intros Hh Ht Hd. unfold reserve. rewrite Hh. cbn [rbind]. rewrite Ht. cbn [rbind]. rewrite Hd. cbn [rbind fst snd].
  assert (E1 : existsb (fun k => str_eqb (fst k) h) (reserved f) = str_in h (map fst (reserved f))).
  { unfold str_in. induction (reserved f) as [|k l IH]; [done |]. cbn. rewrite IH. f_equal.
    destruct (str_eqb (fst k) h) eqn:E; symmetry; [apply str_eqb_eq in E; by apply str_eqb_eq | apply str_eqb_neq; by apply str_eqb_neq in E]. }
  rewrite E1. destruct (str_in h (map fst (reserved f))) eqn:E2; [by rewrite orb_true_r |]. rewrite orb_false_r.
  replace (existsb _ (reserved f)) with false; [done |]. symmetry. apply not_true_iff_false. intros Hx.
  apply existsb_exists in Hx as (k & Hk & Hb). apply andb_true_iff in Hb as [Hb _].
  assert (existsb (fun k => str_eqb (fst k) h) (reserved f) = true) by (apply existsb_exists; by exists k). congruence.
Qed.

Lemma reserve_cases (f f' : WAWNoiseReplayFence) (hid : pyval) (t : WAWNoiseTuple) (r : result unit) :
  reserve dumps f hid t = (f', r) ->
  match r with
  | Raise _ => f' = f
  | Ok _ => exists h d, hid = PStr h /\ (h ∉ map fst (reserved f)) /\ blen (order f) < capacity f
                       /\ f' = mkFence (capacity f) ((h, d) :: reserved f) (order f ++ [(h, d)])
  end.
Proof.
  destruct (text_ hid "handshake_id" (match_id $"wsh")) as [h | e] eqn:Eh.
  2: { unfold reserve. rewrite Eh. by intros [= <- <-]. }
  destruct (validate_tuple t) as [[] | e] eqn:Ev.
  2: { unfold reserve. rewrite Eh, Ev. by intros [= <- <-]. }
  destruct (tuple_digest dumps (TypedTuple t)) as [d | e] eqn:Ed.
  2: { unfold reserve. rewrite Eh. cbn [rbind]. rewrite Ev. cbn [rbind]. rewrite Ed. by intros [= <- <-]. }
  pose proof Eh as [-> _]%text_inv. rewrite (reserve_eq f h d t Eh Ev Ed).
  destruct (str_in h (map fst (reserved f))) eqn:E1; [by intros [= <- <-] |].
  destruct (Z.leb_spec (capacity f) (blen (order f))); intros [= <- <-]; [done |]. exists h, d. repeat split; try done.
  intros Hin. apply str_in_elem in Hin. congruence.
Qed.

(** The fence holds exactly the identifiers it let through, each once. *)
Definition fence_holds (f : WAWNoiseReplayFence) (hs : list pystr) : Prop :=
  1 <= capacity f <= 1024 /\ hs = map fst (order f) /\ NoDup (map fst (order f))
  /\ blen (order f) <= capacity f /\ map fst (reserved f) = reverse (map fst (order f)).

Lemma fence_run_holds (f : WAWNoiseReplayFence) (hs : list pystr) : fence_run f hs -> fence_holds f hs.
Proof.
  induction 1 as [c f H | f hs t h f' s _ IH E | f hs t hid f' e _ IH E].
  - unfold new_fence in H. destruct c; try discriminate H. inv_ok. bool_to_prop. unfold fence_holds; cbn.
    split; [lia |]. split; [done |]. split; [apply NoDup_nil_2 |]. split; [change (blen []) with 0; lia | done].
  - apply start_session_inv in E as (tv & h0 & d & _ & _ & _ & _ & _ & E & _).
    apply reserve_cases in E as (h1 & d1 & [= <-] & Hn & Hc & ->). destruct IH as (I1 & -> & I3 & I4 & I5).
    unfold fence_holds; cbn [capacity order reserved map fst]. rewrite I5 in Hn |- *. rewrite elem_of_reverse in Hn.
    rewrite !map_app, blen_app, reverse_app. cbn [map fst]. change (blen [_]) with 1.
    split; [done |]. split; [done |]. split; [| split; [lia | done]].
    apply NoDup_app. split; [done |]. split; [| constructor; [apply not_elem_of_nil | constructor]].
    intros x Hx ->%list_elem_of_singleton. done.
  - unfold start_session in E. destruct (rbind (closed_tuple_input t) _) as [tv | x]; [| by injection E as <- _].
    destruct (reserve dumps f hid tv) as [f1 [u | x]] eqn:Er.
    + pose proof Er as Er0. apply reserve_cases in Er as (h & d & -> & _ & _ & _).
      injection E as <- E. exfalso. unfold reserve in Er0.
      destruct (text_ (PStr h) _ _); cbn [rbind] in Er0; [| discriminate].
      destruct (validate_tuple tv); cbn [rbind] in Er0; [| discriminate].
      destruct (tuple_digest dumps (TypedTuple tv)); [discriminate | cbn in Er0; discriminate].
    + injection E as <- _. apply reserve_cases in Er as ->. done.
Qed.

Lemma run_position (f f' : WAWNoiseReplayFence) (t : tuple_input) (hid : pyval) (s0 s : WAWNoiseSession) (ms : list WAWNoiseMessage) :
  start_session dumps f t hid = (f', Ok s0) -> noise_run s0 ms s ->
  flow_states !! length ms = Some (state s) /\ next_sequence s = PInt (blen ms)
  /\ map (fun m => (message_type m, role m)) ms = take (length ms) flow
  /\ map sequence ms = map (fun k => PInt (Z.of_nat k)) (seq 0 (length ms))
  /\ handshake_id s = hid /\ s_tuple s = s_tuple s0
  /\ Forall (fun m => m_handshake_id m = hid /\ m_tuple m = s_tuple s0) ms.
Proof.
  intros (tv & h & d & _ & _ & _ & _ & _ & _ & ->)%start_session_inv. cbn [s_tuple].
  induction 1 as [| ms s i m s' _ (I1 & I2 & I3 & I4 & I5 & I6 & I7) Ha Hm]; [repeat split; constructor |].
  apply accept_message_inv in Ha as (m' & Hm' & _ & n & d' & (S1 & S2 & S3) & Ht & (D1 & D2 & _) & _ & ->). rewrite Hm in Hm'. injection Hm' as <-.
  destruct (transition_follows_flow _ _ _ _ _ I1 Ht) as [F1 F2].
  rewrite I2 in S1. injection S1 as <-. rewrite !length_app, !map_app, Nat.add_1_r, seq_S, map_app. cbn [map length state next_sequence handshake_id s_tuple].
  split; [done |]. split; [by rewrite blen_app |]. split; [by rewrite (take_S_r _ _ _ F1), I3 |].
  split; [rewrite I4, S2; by rewrite Nat.add_0_l |]. split; [done |]. split; [done |].
  apply Forall_app. split; [done |]. constructor; [split; congruence | constructor].
Qed.

(** The one message a session expects *)
Definition expected_message (s : WAWNoiseSession) (t : WAWNoiseMessageType) (r : WAWNoiseRole) : WAWNoiseMessage :=
  mkMessage (PInt 1) t r (handshake_id s) (next_sequence s) (s_tuple s) (transcript_digest s).

Lemma expected_accepted (s : WAWNoiseSession) (t : WAWNoiseMessageType) (r : WAWNoiseRole) (ns : WAWNoiseState) (n : Z) (d : pystr) :
  validate_session s = Ok tt -> TRANSITIONS (state s) = Some (t, r, ns) -> next_sequence s = PInt n -> n < MAX_U64 ->
  digest_bytes dumps [($"previous", transcript_digest s); ($"message", PDict (message_payload (expected_message s t r)))] = Ok d ->
  accept_message dumps s (Typed (expected_message s t r))
  = Ok (mkSession (handshake_id s) (s_tuple s) ns (PInt (n + 1)) (PStr d)).
Proof.
  intros Vs Ht Hn Hlt Hd. unfold accept_message. rewrite Vs. cbn [rbind].
  replace (bool_decide (state s = REJECTED) || bool_decide (state s = READY_FOR_EXTERNAL_HANDSHAKE)) with false.
  2: { symmetry. apply orb_false_iff. split; apply bool_decide_eq_false_2; intros E; by rewrite E in Ht. }
  unfold validate_session in Vs. apply rbind_ok in Vs as ([] & V1%raise_if_ok & Vs). apply rbind_ok in Vs as ([] & V2 & Vs).
  apply rbind_ok in Vs as (hs & V3 & Vs). apply rbind_ok in Vs as (ds & V4 & _).
  unfold validate_message. cbn [raise_if rbind expected_message protocol_version m_handshake_id sequence m_tuple m_transcript_digest].
  rewrite V3, V1, V2, V4. cbn [raise_if rbind]. change (int_in (PInt 1) 1 1) with true. cbn [negb raise_if rbind]. rewrite Ht.
  rewrite Hd. cbn [expected_message m_handshake_id sequence m_tuple m_transcript_digest message_type role].
  pose proof V3 as [V3' _]%text_inv. pose proof V4 as V4'%digest_inv. rewrite (scalar_eqb_text _ _ V3').
  rewrite tuple_eqb_refl, !bool_decide_true by done. rewrite Hn. cbn [scalar_eqb negb orb raise_if rbind]. rewrite Z.eqb_refl.
  rewrite (scalar_eqb_text _ _ V4'). cbn [negb raise_if rbind].
  by rewrite (proj2 (Z.eqb_neq n MAX_U64)) by lia.
Qed.

(** A digest the code computed passes its own check, unless it is all zeros. *)
Lemma digest_valid (d : pydict) (g : pystr) :
  digest_bytes dumps d = Ok g -> g <> repeat 48 64 -> digest_ (PStr g) "transcript_digest" = Ok g.
Proof.
  unfold digest_bytes. intros H Hz. inv_ok. set (g := hexdigest (sha256 a)) in *.
  destruct (hexdigest_spec (sha256 a)) as [Hl Hh]. rewrite length_sha256 in Hl. fold g in Hl, Hh.
  assert (Hc : forall c, c ∈ g -> 48 <= c <= 102).
  { intros c Hc%list_elem_of_In. rewrite forallb_forall in Hh. specialize (Hh c Hc).
    unfold is_lower_hex, is_digit, in_range in Hh. lia. }
  unfold digest_, text_, match_hex. rewrite Hh. replace (Nat.eqb (length g) 64) with true by (rewrite Hl; done).
  replace (512 <? blen g) with false by (unfold blen; rewrite Hl; done).
  replace (existsb (Z.eqb 0) g) with false.
  2: { symmetry. apply not_true_iff_false. intros (c & Hi & Hb)%existsb_exists. apply list_elem_of_In, Hc in Hi. lia. }
  replace (existsb (fun c => (c <? 32) || (c =? 127)) g) with false.
  2: { symmetry. apply not_true_iff_false. intros (c & Hi & Hb)%existsb_exists. apply list_elem_of_In, Hc in Hi. lia. }
  destruct g as [|c0 g0] eqn:Eg; [done |]. cbn [orb raise_if rbind andb negb].
  by replace (str_eqb (c0 :: g0) (repeat 48 64)) with false by (symmetry; by apply str_eqb_neq).
Qed.

Lemma digest_nonzero (v : pyval) (g : pystr) : digest_ v "transcript_digest" = Ok g -> g <> repeat 48 64.
Proof. unfold digest_. intros H. inv_ok. by apply str_eqb_neq. Qed.

Lemma flow_state_transition (k : nat) (s : WAWNoiseState) :
  flow_states !! k = Some s -> (k < 12)%nat -> exists t r ns, TRANSITIONS s = Some (t, r, ns).
Proof. intros Hs Hk. do 12 (destruct k as [|k]; [injection Hs as <-; by eexists _, _, _ |]). lia. Qed.

End Runs.

(** ** The encoder *)

(** [rfc8785.dumps] encodes an object of strings of Unicode scalar values, exact
    integers, [None], booleans, lists and objects, in whatever order its keys are. *)
Class Rfc8785Total (R : Rfc8785) : Prop :=
  rfc8785_total : forall d, texts scalar_value (PDict d) = true -> exact_integers (PDict d) = true -> exists b, rfc8785_dumps d = Ok b.

#[export] Instance printed_total : Rfc8785Total printed_rfc8785.
Proof.
  intros d Ht Hx. unfold rfc8785_dumps, printed_rfc8785. rewrite Hx. cbn [negb raise_if rbind].
  destruct (texts_dumps (good := scalar_value) (PDict d) Ht) as (t & -> & Hs). cbn [rbind].
  destruct (utf8_encode_total t Hs) as (b & ->). by exists b.
Qed.

Section Encoder.
Context `{R : Rfc8785} {L : Rfc8785Laws R} {T : Rfc8785Total R}.

(** The text of a validated tuple *)
Lemma validate_tuple_texts (t : WAWNoiseTuple) : validate_tuple t = Ok tt -> texts scalar_value (PDict (tuple_payload t)) = true.
Proof.
  intros V. pose proof V as (a & b & c & g & e & h & i & j & k & l & n & o & ->)%validate_tuple_shape.
  unfold validate_tuple in V. cbn [workspace_id project_id agent_type generation runtime_epoch runtime_host_installation_id
    runtime_host_installation_revision binding_revision binding_digest api_authority_epoch auth_epoch attachment_id] in V.
  assert (Td : forall s f d, decimal_ (PStr s) f = Ok d -> forallb scalar_value s = true).
  { intros s f d Hd. unfold decimal_ in Hd. inv_ok. apply text_inv in E as [[= ->] Hm]. by apply scalar_decimal. }
  assert (Tg : forall s f d, digest_ (PStr s) f = Ok d -> forallb scalar_value s = true).
  { intros s f d Hd. unfold digest_ in Hd. inv_ok. apply text_inv in E as [[= ->] Hm]. unfold match_hex in Hm. apply andb_true_iff in Hm as [_ Hm].
    by apply scalar_hex. }
  assert (Ti : forall s f p d, forallb scalar_value (p ++ $"_") = true -> text_ (PStr s) f (match_id p) = Ok d -> forallb scalar_value s = true).
  { intros s f p d Hp [[= ->] Hm]%text_inv. by apply (scalar_id p). }
  inv_ok. apply negb_false_iff, scalar_eqb_str in G. injection G as ->.
  cbn [texts tuple_payload workspace_id project_id agent_type generation runtime_epoch runtime_host_installation_id
    runtime_host_installation_revision binding_revision binding_digest api_authority_epoch auth_epoch attachment_id forallb fst snd].
  repeat match goal with
  | X : text_ _ _ _ = Ok _ |- _ => apply Ti in X; [| reflexivity]
  | X : decimal_ _ _ = Ok _ |- _ => apply Td in X
  | X : digest_ _ _ = Ok _ |- _ => apply Tg in X
  end.
  repeat match goal with X : forallb scalar_value ?s = true |- context [forallb scalar_value ?s] => rewrite X end. reflexivity.
Qed.

(** The encoder takes the messages of a session that started: their numbers are
    exact, because the tuple was encoded before. *)
Lemma message_encodes (s : WAWNoiseSession) (t : WAWNoiseMessageType) (r : WAWNoiseRole) (n : Z) :
  validate_session s = Ok tt -> exact_integers (PDict (tuple_payload (s_tuple s))) = true -> next_sequence s = PInt n -> 0 <= n <= 12 ->
  exists d, digest_bytes rfc8785_dumps [($"previous", transcript_digest s); ($"message", PDict (message_payload (expected_message s t r)))] = Ok d.
Proof.
  intros V Hx Hn Hr. unfold validate_session in V. apply rbind_ok in V as ([] & _ & V). apply rbind_ok in V as ([] & V2 & V).
  apply rbind_ok in V as (h & [Eh Hh]%text_inv & V). apply rbind_ok in V as (g & Vg & _). unfold digest_ in Vg. inv_ok. apply text_inv in E as [Eg Hg].
  unfold match_hex in Hg. apply andb_true_iff in Hg as [_ Hg%scalar_hex]. apply (scalar_id $"wsh" _ eq_refl) in Hh.
  destruct (rfc8785_total [($"previous", transcript_digest s); ($"message", PDict (message_payload (expected_message s t r)))]) as [b Hb];
    [| | exists (hexdigest (sha256 b)); unfold digest_bytes; by rewrite Hb].
  - unfold message_payload, expected_message. cbn [protocol_version message_type role m_handshake_id sequence m_tuple m_transcript_digest].
    rewrite Eg, Eh, Hn. pose proof (validate_tuple_texts _ V2) as Ht.
    cbn [texts forallb fst snd] in Ht |- *. rewrite Ht, Hg, Hh. by destruct t, r.
  - unfold message_payload, expected_message. cbn [protocol_version message_type role m_handshake_id sequence m_tuple m_transcript_digest].
    rewrite Eg, Eh, Hn. cbn [exact_integers forallb fst snd] in Hx |- *. rewrite Hx. unfold in_range, MAX_SAFE. lia.
Qed.

(** The next message of the flow, and the first [k] of them *)
Definition next_accepted (s : WAWNoiseSession) : result WAWNoiseSession :=
  match TRANSITIONS (state s) with
  | None => Raise (contract_error "HANDSHAKE_TERMINAL" "handshake state is terminal")
  | Some (t, r, _) => accept_message rfc8785_dumps s (Typed (expected_message s t r))
  end.

Fixpoint follow (k : nat) (s : WAWNoiseSession) : result WAWNoiseSession :=
  match k with
  | O => Ok s
  | S k => let! s1 := follow k s in next_accepted s1
  end.

Definition zero_digest : pyval := PStr (repeat 48 64).

Lemma started_valid (f f' : WAWNoiseReplayFence) (t : tuple_input) (hid : pyval) (s0 : WAWNoiseSession) :
  start_session rfc8785_dumps f t hid = (f', Ok s0) -> transcript_digest s0 <> zero_digest ->
  validate_session s0 = Ok tt /\ exact_integers (PDict (tuple_payload (s_tuple s0))) = true.
Proof.
  intros (tv & h & d & _ & V & -> & Hh & Ed & Er & ->)%start_session_inv Hz. cbn [transcript_digest s_tuple] in *.
  unfold tuple_digest in Ed. cbn [closed_tuple_input rbind] in Ed. rewrite V in Ed. cbn [rbind] in Ed. split.
  - unfold validate_session; cbn [next_sequence s_tuple handshake_id transcript_digest]. change (int_in (PInt 0) 0 MAX_U64) with true.
    cbn [negb raise_if rbind]. rewrite V. cbn [rbind].
    assert (Et : exists h', text_ (PStr h) "handshake_id" (match_id $"wsh") = Ok h').
    { unfold reserve in Er. destruct (text_ (PStr h) _ _); [by eexists | discriminate]. }
    destruct Et as [h' ->]. cbn [rbind]. rewrite (digest_valid _ _ _ Ed); [done |]. intros ->. done.
  - unfold digest_bytes in Ed. apply rbind_ok in Ed as (b & Eb & _). by apply rfc8785_domain in Eb.
Qed.

(** One message more *)
Lemma follow_step (k : nat) (s : WAWNoiseSession) : validate_session s = Ok tt -> exact_integers (PDict (tuple_payload (s_tuple s))) = true ->
  next_sequence s = PInt (Z.of_nat k) -> flow_states !! k = Some (state s) -> (k < 12)%nat ->
  exists m s1, next_accepted s = Ok s1 /\ accept_message rfc8785_dumps s (Typed m) = Ok s1
    /\ s_tuple s1 = s_tuple s /\ (transcript_digest s1 <> zero_digest -> validate_session s1 = Ok tt).
Proof.
  intros V Hx Hn Hs Hk. destruct (flow_state_transition _ _ Hs Hk) as (ty & ro & ns & Ht).
  destruct (message_encodes s ty ro _ V Hx Hn) as [d Hd]; [lia |]. unfold next_accepted. rewrite Ht.
  rewrite (expected_accepted _ s ty ro ns _ d V Ht Hn ltac:(unfold MAX_U64; lia) Hd).
  exists (expected_message s ty ro). eexists. split; [reflexivity |].
  split; [by apply expected_accepted; [| | | unfold MAX_U64; lia |] |]. split; [done |]. cbn [transcript_digest]. intros Hz.
  unfold validate_session in V. apply rbind_ok in V as ([] & _ & V). apply rbind_ok in V as ([] & V2 & V). apply rbind_ok in V as (h & V3 & _).
  unfold validate_session; cbn [next_sequence s_tuple handshake_id transcript_digest].
  rewrite V2, V3, (digest_valid _ _ _ Hd ltac:(intros E; apply Hz; by rewrite E)). cbn [rbind].
  replace (int_in (PInt (Z.of_nat k + 1)) 0 MAX_U64) with true; [done |]. symmetry. unfold int_in, in_range, MAX_U64. lia.
Qed.

(** The first [k] messages of the flow are accepted. *)
Lemma follow_accepted (f f' : WAWNoiseReplayFence) (t : tuple_input) (hid : pyval) (s0 : WAWNoiseSession) (k : nat) :
  start_session rfc8785_dumps f t hid = (f', Ok s0) ->
  (forall k s, (k < 12)%nat -> follow k s0 = Ok s -> transcript_digest s <> zero_digest) -> (k <= 12)%nat ->
  exists ms s, follow k s0 = Ok s /\ noise_run rfc8785_dumps s0 ms s /\ length ms = k /\ s_tuple s = s_tuple s0
    /\ (transcript_digest s <> zero_digest -> validate_session s = Ok tt).
Proof.
  intros Hs Hz. pose proof (started_valid f f' t hid s0 Hs) as Hv. induction k as [|k IH]; intros Hk.
  { exists [], s0. split; [done |]. split; [constructor |]. split; [done |]. split; [done |]. intros H. apply (Hv H). }
  destruct (IH ltac:(lia)) as (ms & s & Hf & Hr & Hl & Ht & V). pose proof (Hz k s ltac:(lia) Hf) as Hzk.
  destruct (run_position _ f f' t hid s0 s ms Hs Hr) as (P1 & P2 & _). rewrite Hl in P1. unfold blen in P2. rewrite Hl in P2.
  destruct (follow_step k s (V Hzk)) as (m & s1 & E1 & E2 & Et & V1); [| done | done | lia |].
  { rewrite Ht. apply (Hv (Hz 0%nat s0 ltac:(lia) eq_refl)). }
  exists (ms ++ [m]), s1. cbn [follow]. rewrite Hf. split; [exact E1 |]. split; [by apply (Run_accept _ s0 ms s (Typed m)) |].
  split; [rewrite length_app, Hl; cbn; lia |]. split; [congruence | done].
Qed.

End Encoder.

(** ** Properties *)

Section Properties.
Context (dumps : pydict -> result bytes).

(** From a started session the accepted messages are, in
    order, a prefix of the twelve of the flow, each from its role, numbered from
    zero and bound to one handshake identifier and one tuple; the session is
    ready exactly after all twelve, and accepts no more. *)
Theorem transcript_is_flow (f f' : WAWNoiseReplayFence) (t : tuple_input) (hid : pyval) (s0 s : WAWNoiseSession)
    (ms : list WAWNoiseMessage) :
  start_session dumps f t hid = (f', Ok s0) -> noise_run dumps s0 ms s ->
  map (fun m => (message_type m, role m)) ms = take (length ms) flow
  /\ map sequence ms = map (fun k => PInt (Z.of_nat k)) (seq 0 (length ms))
  /\ Forall (fun m => m_handshake_id m = hid /\ m_tuple m = s_tuple s0) ms
  /\ (length ms <= 12)%nat /\ (state s = READY_FOR_EXTERNAL_HANDSHAKE <-> length ms = 12%nat)
  /\ (state s = READY_FOR_EXTERNAL_HANDSHAKE -> forall i, is_ok (accept_message dumps s i) = false).
Proof.
  intros Hs Hr. destruct (run_position dumps f f' t hid s0 s ms Hs Hr) as (P1 & P2 & P3 & P4 & P5 & P6 & P7).
  pose proof (lookup_lt_Some _ _ _ P1) as Hlen. cbn in Hlen.
  split; [done |]. split; [done |]. split; [done |]. split; [lia |]. split.
  - split; intros H.
    + rewrite H in P1. clear - P1 Hlen. revert P1 Hlen. generalize (length ms) as k. intros k P1 Hlen.
      do 12 (destruct k as [|k]; [discriminate P1 |]). lia.
    + rewrite H in P1. by injection P1 as <-.
  - intros H i. destruct (accept_message dumps s i) as [s' | e] eqn:E; [| done].
    apply accept_message_inv in E as (m & _ & _ & n & d & _ & Ht & _). by rewrite H in Ht.
Qed.

(** C32: no session, reachable or not, accepts messages for ever: the
    relation "some input leads from one session to the next" is well founded. *)
Theorem handshake_terminates : well_founded (fun s' s => exists i, accept_message dumps s i = Ok s').
Proof.
  apply (well_founded_lt_compat _ (fun s => remaining (state s))).
  intros s' s (i & (m & _ & _ & n & d & _ & Ht & _)%accept_message_inv).
  apply transition_decreases in Ht. lia.
Qed.

(** C31: a session that started with [rfc8785.dumps], which encodes text of
    Unicode scalar values and integers up to 2^53 - 1 and refuses larger ones, can be
    completed: unless one of the twelve transcript digests before the last message is
    all zeros, which the validators refuse, the twelve messages of the flow, each
    with the next number and the digest of the session, are accepted one after the
    other up to the ready state. *)
Theorem handshake_completes `{R : Rfc8785} {L : Rfc8785Laws R} {T : Rfc8785Total R}
    (f f' : WAWNoiseReplayFence) (t : tuple_input) (hid : pyval) (s0 : WAWNoiseSession) :
  start_session rfc8785_dumps f t hid = (f', Ok s0) ->
  (forall k s, (k < 12)%nat -> follow k s0 = Ok s -> transcript_digest s <> zero_digest) ->
  exists ms s, follow 12 s0 = Ok s /\ noise_run rfc8785_dumps s0 ms s /\ length ms = 12%nat /\ state s = READY_FOR_EXTERNAL_HANDSHAKE.
Proof.
  intros Hs Hz. destruct (follow_accepted f f' t hid s0 12 Hs Hz) as (ms & s & Hf & Hr & Hl & _); [lia |]. exists ms, s.
  split; [done |]. split; [done |]. split; [done |].
  destruct (run_position _ f f' t hid s0 s ms Hs Hr) as (P1 & _). rewrite Hl in P1. by injection P1 as <-.
Qed.

(** After any attempts a fence has let each handshake identifier
    through at most once and never more than its capacity; the next valid attempt
    is refused as a replay exactly when its identifier was let through, refused
    as exhausted exactly when the window is full, and started otherwise. *)
Theorem fence_single_use (f : WAWNoiseReplayFence) (hs : list pystr) (t : WAWNoiseTuple) (h d : pystr) :
  fence_run dumps f hs -> text_ (PStr h) "handshake_id" (match_id $"wsh") = Ok h -> validate_tuple t = Ok tt ->
  tuple_digest dumps (TypedTuple t) = Ok d ->
  NoDup hs /\ blen hs <= capacity f <= 1024
  /\ snd (start_session dumps f (TypedTuple t) (PStr h))
     = if decide (h ∈ hs) then Raise (contract_error "HANDSHAKE_REPLAY" "handshake identity was already reserved")
       else if capacity f <=? blen hs
       then Raise (contract_error "HANDSHAKE_REPLAY_WINDOW_EXHAUSTED" "bounded handshake replay window is exhausted")
       else Ok (mkSession (PStr h) t INIT (PInt 0) (PStr d)).
Proof.
  intros (I1 & -> & I3 & I4 & I5)%fence_run_holds Hh Ht Hd.
  assert (Hb : blen (map fst (order f)) = blen (order f)) by (unfold blen; by rewrite length_map).
  rewrite Hb. split; [done |]. split; [lia |].
  unfold start_session. cbn [closed_tuple_input rbind]. rewrite Ht. cbn [rbind]. rewrite Hh. cbn [rbind].
  rewrite (reserve_eq dumps f h d t Hh Ht Hd), I5.
  assert (Hin : str_in h (reverse (map fst (order f))) = true <-> h ∈ map fst (order f))
    by (by rewrite str_in_elem, elem_of_reverse).
  destruct (decide (h ∈ _)) as [Hi | Hi]; [by rewrite (proj2 Hin Hi) |].
  destruct (str_in h _) eqn:E; [by destruct (Hi (proj1 Hin eq_refl)) |]. destruct (capacity f <=? blen (order f)); [done |].
  cbn [snd]. by rewrite Hd.
Qed.

(** Decoding the mapping a valid message is encoded from gives
    the message back: no field is lost, renamed or reinterpreted. *)
Theorem message_roundtrip (m : WAWNoiseMessage) :
  validate_message m = Ok tt ->
  decode_message (Mapped (PDict (message_payload m ++ [($"transcript_digest", m_transcript_digest m)]))) = Ok m
  /\ encode_message dumps (Mapped (PDict (message_payload m ++ [($"transcript_digest", m_transcript_digest m)])))
     = encode_message dumps (Typed m).
Proof.
  intros V.
  assert (C : closed_message (PDict (message_payload m ++ [($"transcript_digest", m_transcript_digest m)])) = Ok m).
  { destruct m as [p t r h q [] g]. destruct t, r; vm_compute; reflexivity. }
  unfold decode_message, encode_message. cbn [closed_message_input]. rewrite C. cbn [rbind]. rewrite V. done.
Qed.

End Properties.

(** ** Witnesses

    An encoder that writes the members in the order of the mapping, with the
    JSON model; one that ignores its argument; and the one of [Canonical.v]. *)

Definition demo_dumps (d : pydict) : result bytes :=
  let! s := Json.dumps (PDict d) in
  match utf8_encode s with Some b => Ok b | None => Raise (err UnicodeEncodeError EmptyString) end.

Definition constant_dumps (d : pydict) : result bytes := Ok (bstr "demo").

Definition sample_tuple : WAWNoiseTuple :=
  mkTuple (PStr ($"aws_" ++ repeat 97 32)) (PStr ($"prj_" ++ repeat 98 32)) (PStr $"claude") (PInt 7) (PStr $"3")
    (PStr ($"wri_" ++ repeat 99 32)) (PStr $"1") (PStr $"2") (PStr (repeat 100 64)) (PStr $"5") (PStr $"9")
    (PStr ($"att_" ++ repeat 101 32)).

Definition sample_hid : pystr := $"wsh_" ++ repeat 102 32.
Definition sample_fence : WAWNoiseReplayFence := mkFence 2 [] [].

Definition sample_start (dumps : pydict -> result bytes) : WAWNoiseReplayFence * result WAWNoiseSession :=
  start_session dumps sample_fence (TypedTuple sample_tuple) (PStr sample_hid).

Definition session_or (r : WAWNoiseReplayFence * result WAWNoiseSession) : WAWNoiseSession :=
  match snd r with Ok s => s | Raise _ => mkSession PNone sample_tuple REJECTED PNone PNone end.

Definition demo_session : WAWNoiseSession := session_or (sample_start demo_dumps).

(** The session of a start that succeeds *)
Lemma sample_session_started (dumps : pydict -> result bytes) : is_ok (snd (sample_start dumps)) = true ->
  sample_start dumps = (fst (sample_start dumps), Ok (session_or (sample_start dumps))).
Proof. unfold session_or. by destruct (sample_start dumps) as [f [s | e]]. Qed.

Lemma demo_started : sample_start demo_dumps = (fst (sample_start demo_dumps), Ok demo_session).
Proof. apply sample_session_started. vm_cast_no_check (eq_refl true). Qed.

Definition sample_message : WAWNoiseMessage := expected_message demo_session WS_HELLO CLIENT.

Definition demo_second : WAWNoiseSession :=
  match accept_message demo_dumps demo_session (Typed sample_message) with Ok s => s | Raise _ => demo_session end.

Lemma demo_accepts : accept_message demo_dumps demo_session (Typed sample_message) = Ok demo_second.
Proof. vm_cast_no_check (eq_refl (Ok demo_second)). Qed.

Lemma transcript_is_flow_witness :
  map (fun m => (message_type m, role m)) [sample_message] = take 1 flow
  /\ map sequence [sample_message] = [PInt 0]
  /\ Forall (fun m => m_handshake_id m = PStr sample_hid /\ m_tuple m = s_tuple demo_session) [sample_message]
  /\ (1 <= 12)%nat /\ (state demo_second = READY_FOR_EXTERNAL_HANDSHAKE <-> 1%nat = 12%nat)
  /\ (state demo_second = READY_FOR_EXTERNAL_HANDSHAKE -> forall i, is_ok (accept_message demo_dumps demo_second i) = false).
Proof.
  apply (transcript_is_flow demo_dumps sample_fence (fst (sample_start demo_dumps)) (TypedTuple sample_tuple) (PStr sample_hid)
           demo_session demo_second [sample_message]); [apply demo_started |].
  apply (Run_accept demo_dumps demo_session [] demo_session (Typed sample_message)); [constructor | apply demo_accepts | reflexivity].
Defined.

#[local] Existing Instance printed_rfc8785.

(** No digest of the first [n] sessions of the flow is all zeros. *)
Fixpoint digests_clear (n : nat) (s : WAWNoiseSession) : bool :=
  match n with
  | O => true
  | S n => negb (scalar_eqb (transcript_digest s) zero_digest) && match next_accepted s with Ok s1 => digests_clear n s1 | Raise _ => true end
  end.

Lemma follow_cons (k : nat) (s : WAWNoiseSession) : follow (S k) s = (let! s1 := next_accepted s in follow k s1).
Proof.
  induction k as [|k IH]; [cbn; by destruct (next_accepted s) |]. change (follow (S (S k)) s) with (let! s1 := follow (S k) s in next_accepted s1).
  rewrite IH. by destruct (next_accepted s).
Qed.

Lemma digests_clear_follow (n k : nat) (s s1 : WAWNoiseSession) : digests_clear n s = true -> (k < n)%nat -> follow k s = Ok s1 ->
  transcript_digest s1 <> zero_digest.
Proof.
  revert k s. induction n as [|n IH]; intros k s Hc Hk Hf; [lia |]. cbn [digests_clear] in Hc. apply andb_true_iff in Hc as [Hz%negb_true_iff Hc].
  destruct k as [|k]; [injection Hf as <-; by apply scalar_neq |]. rewrite follow_cons in Hf.
  destruct (next_accepted s) as [s2 |]; [| discriminate Hf]. by apply (IH k s2); [| lia |].
Qed.

Definition encoded_session : WAWNoiseSession := session_or (sample_start rfc8785_dumps).

Lemma encoded_started : sample_start rfc8785_dumps = (fst (sample_start rfc8785_dumps), Ok encoded_session).
Proof. apply sample_session_started. vm_cast_no_check (eq_refl true). Qed.

Lemma encoded_clear : digests_clear 12 encoded_session = true.
Proof. vm_cast_no_check (eq_refl true). Qed.

Lemma handshake_completes_witness :
  exists ms s, follow 12 encoded_session = Ok s /\ noise_run rfc8785_dumps encoded_session ms s /\ length ms = 12%nat
    /\ state s = READY_FOR_EXTERNAL_HANDSHAKE.
Proof.
  apply (handshake_completes sample_fence (fst (sample_start rfc8785_dumps)) (TypedTuple sample_tuple) (PStr sample_hid));
    [exact encoded_started |]. intros k s Hk Hf. exact (digests_clear_follow 12 k encoded_session s encoded_clear Hk Hf).
Defined.

(** A generation beyond the exact integers is valid for [_validate_tuple], and
    the encoder refuses it with an error of its own. *)
Definition large_tuple : WAWNoiseTuple :=
  mkTuple (workspace_id sample_tuple) (project_id sample_tuple) (agent_type sample_tuple) (PInt (2 ^ 60)) (runtime_epoch sample_tuple)
    (runtime_host_installation_id sample_tuple) (runtime_host_installation_revision sample_tuple) (binding_revision sample_tuple)
    (binding_digest sample_tuple) (api_authority_epoch sample_tuple) (auth_epoch sample_tuple) (attachment_id sample_tuple).

Example large_generation_refused : validate_tuple large_tuple = Ok tt
  /\ snd (start_session rfc8785_dumps sample_fence (TypedTuple large_tuple) (PStr sample_hid)) = Raise (err PyValueError "IntegerDomainError").
Proof. vm_compute. split; reflexivity. Qed.

Lemma fence_single_use_witness :
  snd (start_session constant_dumps sample_fence (TypedTuple sample_tuple) (PStr sample_hid))
  = if decide (sample_hid ∈ []) then Raise (contract_error "HANDSHAKE_REPLAY" "handshake identity was already reserved")
    else if capacity sample_fence <=? 0
    then Raise (contract_error "HANDSHAKE_REPLAY_WINDOW_EXHAUSTED" "bounded handshake replay window is exhausted")
    else Ok (mkSession (PStr sample_hid) sample_tuple INIT (PInt 0) (PStr (hexdigest (sha256 (bstr "demo"))))).
Proof.
  apply (fence_single_use constant_dumps sample_fence [] sample_tuple sample_hid (hexdigest (sha256 (bstr "demo"))));
    [by apply (Fence_new _ (PInt 2)) | reflexivity | reflexivity | reflexivity].
Defined.

Lemma message_roundtrip_witness :
  decode_message (Mapped (PDict (message_payload sample_message ++ [($"transcript_digest", m_transcript_digest sample_message)])))
  = Ok sample_message.
Proof. apply (message_roundtrip demo_dumps sample_message). vm_compute. reflexivity. Defined.
