(* ===== verification/Cgroup.v ===== *)
(** * Cgroup attestations ([agentbox_runtime/waw_cgroup_attestation.py])

    The record of what the host showed of one generation's cgroup, and its
    canonical form.  [_validated] takes a typed record or a parsed object; both
    become the values of the closed set of fields, which are then checked.

    As for the other files of the Runtime, the interpreter's recursion limit on
    bytes that the encoder did not write is left out. *)

From stdpp Require Import sorting.
From S2P Require Import Prelude PyVal Json Unicode Sha256 Control Canonical.

Local Open Scope Z_scope.

Definition CGROUP_MAX_BYTES : Z := 64 * 1024.
Definition MAX_STRING : Z := 512.
Definition CGROUP_SCHEMA : pystr := $"waw-cgroup-attestation-v1".
Definition ABSENCE_SCHEMA : pystr := $"waw-cgroup-absence-attestation-v2".
Definition CLEANUP_STATES : list pystr := [$"LIVE"; $"FENCED"; $"EMPTY_DURABLE"].
Definition AGENT_TYPES : list pystr := [$"claude"; $"codex"].

Definition cgroup_error (message : string) : exn := err WAWCgroupAttestationError message.

(** ** The record *)

Record Limits : Type := mkLimits {
  memory_max : Z;
  memory_swap_max : Z;
  cpu_quota_usec : Z;
  cpu_period_usec : Z;
  pids_max : Z
}.

Record Leaf : Type := mkLeaf {
  leaf_attachment_id : pystr;
  leaf_relative_path : pystr;
  leaf_device : pystr;
  leaf_inode : pystr;
  leaf_lease_number : Z;
  leaf_cleanup_state : pystr
}.

Record Cgroup : Type := mkCgroup {
  cg_workspace_id : pystr;
  cg_project_id : pystr;
  cg_agent_type : pystr;
  cg_generation : Z;
  cg_runtime_epoch : pystr;
  cg_service_unit : pystr;
  cg_service_invocation_id : pystr;
  cg_service_cgroup_device : pystr;
  cg_service_cgroup_inode : pystr;
  cg_service_cgroup_mount_id : pystr;
  cg_delegated_subgroup : pystr;
  cg_delegate_subgroup_device : pystr;
  cg_delegate_subgroup_inode : pystr;
  cg_delegate_subgroup_mount_id : pystr;
  cg_cgroup_mount_id : pystr;
  cg_cgroup_filesystem_id : pystr;
  cg_workspace_relative_path : pystr;
  cg_workspace_device : pystr;
  cg_workspace_inode : pystr;
  cg_workload_relative_path : pystr;
  cg_workload_device : pystr;
  cg_workload_inode : pystr;
  cg_attachment_leaves : list Leaf;
  cg_controller_configuration_digest : pystr;
  cg_workspace_limits : Limits;
  cg_workload_limits : Limits;
  cg_attachment_limits : Limits;
  cg_last_frozen : pystr;
  cg_last_populated : pystr;
  cg_cleanup_state : pystr;
  cg_workspace_presence : pystr
}.

#[export] Instance limits_eq_dec : EqDecision Limits.
Proof. solve_decision. Defined.
#[export] Instance leaf_eq_dec : EqDecision Leaf.
Proof. solve_decision. Defined.
#[export] Instance cgroup_eq_dec : EqDecision Cgroup.
Proof. solve_decision. Defined.

(** ** Checks of single values *)

Definition invalid (field : string) : exn := cgroup_error (String.append "invalid " field).

(** [_string] *)
Definition string_ (value : pyval) (field : string) : result pystr :=
  match value with
  | PStr s =>
      run! raise_if (bool_decide (s = []) || (MAX_STRING <? blen s) || existsb (fun c => (c <? 32) || (c =? 127)) s) (invalid field) in
      Ok s
  | _ => Raise (invalid field)
  end.

(** [[A-Za-z0-9]] and [[A-Za-z0-9_.-]] *)
Definition is_alnum (c : Z) : bool := in_range 65 c 90 || in_range 97 c 122 || is_digit c.
Definition is_component_char (c : Z) : bool := is_alnum c || (c =? 95) || (c =? 46) || (c =? 45).

Definition match_component (s : pystr) : bool :=
  match s with
  | [] => false
  | c :: r => is_alnum c && forallb is_component_char r && (length r <=? 63)%nat
  end.

(** [ws-[0-9a-f]{64}-g[1-9][0-9]{0,19}] *)
Definition match_workspace_component (s : pystr) : bool :=
  str_eqb (take 3 s) $"ws-" && match_hex 64 (take 64 (drop 3 s)) && str_eqb (take 2 (drop 67 s)) $"-g" && match_pos_decimal (drop 69 s).

(** [_component]; the names [.] and [..] do not begin with a letter or digit. *)
Definition component_ (value : pyval) (field : string) : result pystr :=
  let! s := string_ value field in
  run! raise_if (negb (match_component s) || str_in s [$"."; $".."]) (invalid field) in
  Ok s.

(** [value.split(sep)] *)
Fixpoint split_at (sep : Z) (s : pystr) : list pystr :=
  match s with
  | [] => [[]]
  | c :: r =>
      if c =? sep then [] :: split_at sep r
      else match split_at sep r with p :: ps => (c :: p) :: ps | [] => [[c]] end
  end.

Definition bad_part (first : bool) (part : pystr) : bool :=
  negb (match_component part) && negb (first && match_workspace_component part) || str_in part [$"."; $".."].

(** [_relative_path] *)
Definition relative_path_ (value : pyval) (field : string) : result pystr :=
  let! s := string_ value field in
  run! raise_if (str_eqb (take 1 s) $"/"
                 || match split_at 47 s with p :: ps => bad_part true p || existsb (bad_part false) ps | [] => false end) (invalid field) in
  Ok s.

(** [_decimal(value, field, positive=True)], the only way it is called *)
Definition decimal_ (value : pyval) (field : string) : result pystr :=
  match value with
  | PStr s =>
      run! raise_if (negb (match_pos_decimal s)) (invalid field) in
      run! raise_if (MAX_U64 <? digits_value s) (invalid field) in
      Ok s
  | _ => Raise (invalid field)
  end.

(** [_uint] *)
Definition uint_ (value : pyval) (field : string) (positive : bool) : result Z :=
  match value with
  | PInt z => run! raise_if ((z <? (if positive then 1 else 0)) || (MAX_U64 <? z)) (invalid field) in Ok z
  | _ => Raise (invalid field)
  end.

Definition match_device (s : pystr) : bool :=
  match split_at 58 s with
  | [major; minor] =>
      let digits p := forallb is_digit p && (1 <=? length p)%nat && (length p <=? 10)%nat in digits major && digits minor
  | _ => false
  end.

(** A number of several digits that begins with a zero *)
Definition leading_zero (p : pystr) : bool := (1 <? length p)%nat && str_eqb (take 1 p) $"0".

(** [_device] *)
Definition device_ (value : pyval) (field : string) : result pystr :=
  let! s := string_ value field in
  run! raise_if (negb (match_device s)) (invalid field) in
  run! raise_if (existsb leading_zero (split_at 58 s)) (invalid field) in
  Ok s.

(** [_digest] *)
Definition cgroup_digest (value : pyval) (field : string) : result pystr :=
  let! s := string_ value field in
  run! raise_if (negb (match_hex 64 s) || str_eqb s (repeat 48 64)) (invalid field) in
  Ok s.

(** [values[field]]; the set of fields is closed before it is read. *)
Definition value_of (d : pydict) (f : pystr) : pyval := match dget d f with Some v => v | None => PNone end.

Definition LIMIT_FIELDS : list pystr := [$"memory_max"; $"memory_swap_max"; $"cpu_quota_usec"; $"cpu_period_usec"; $"pids_max"].

(** [_limits] *)
Definition limits_ (value : pyval) (field : string) : result Limits :=
  match value with
  | PDict values =>
      run! raise_if (negb (keys_equal (dkeys values) LIMIT_FIELDS)) (invalid field) in
      let! memory := uint_ (value_of values $"memory_max") (String.append field ".memory_max") true in
      let! swap := uint_ (value_of values $"memory_swap_max") (String.append field ".memory_swap_max") false in
      let! quota := uint_ (value_of values $"cpu_quota_usec") (String.append field ".cpu_quota_usec") true in
      let! period := uint_ (value_of values $"cpu_period_usec") (String.append field ".cpu_period_usec") true in
      let! pids := uint_ (value_of values $"pids_max") (String.append field ".pids_max") true in
      Ok (mkLimits memory swap quota period pids)
  | _ => Raise (invalid field)
  end.

Definition LEAF_FIELDS : list pystr := [$"attachment_id"; $"relative_path"; $"device"; $"inode"; $"lease_number"; $"cleanup_state"].

(** [_leaf] *)
Definition leaf_ (value : pyval) : result Leaf :=
  match value with
  | PDict values =>
      run! raise_if (negb (keys_equal (dkeys values) LEAF_FIELDS)) (invalid "attachment_leaves") in
      let! attachment := string_ (value_of values $"attachment_id") "attachment_id" in
      run! raise_if (negb (match_id $"att" attachment)) (invalid "attachment_id") in
      let! cleanup := string_ (value_of values $"cleanup_state") "cleanup_state" in
      run! raise_if (negb (str_in cleanup CLEANUP_STATES)) (invalid "attachment cleanup_state") in
      let! path := relative_path_ (value_of values $"relative_path") "attachment relative_path" in
      let! device := device_ (value_of values $"device") "attachment device" in
      let! inode := decimal_ (value_of values $"inode") "attachment inode" in
      let! lease := uint_ (value_of values $"lease_number") "attachment lease_number" true in
      Ok (mkLeaf attachment path device inode lease cleanup)
  | _ => Raise (invalid "attachment_leaves")
  end.

(** ** The fields *)

Definition FIELDS : list pystr :=
  [$"workspace_id"; $"project_id"; $"agent_type"; $"generation"; $"runtime_epoch"; $"service_unit"; $"service_invocation_id";
   $"service_cgroup_device"; $"service_cgroup_inode"; $"service_cgroup_mount_id"; $"delegated_subgroup"; $"delegate_subgroup_device";
   $"delegate_subgroup_inode"; $"delegate_subgroup_mount_id"; $"cgroup_mount_id"; $"cgroup_filesystem_id"; $"workspace_relative_path";
   $"workspace_device"; $"workspace_inode"; $"workload_relative_path"; $"workload_device"; $"workload_inode"; $"attachment_leaves";
   $"controller_configuration_digest"; $"workspace_limits"; $"workload_limits"; $"attachment_limits"; $"last_frozen"; $"last_populated";
   $"cleanup_state"].

(** [_limits_payload], and the values that [_limits] takes of typed limits *)
Definition limits_payload (l : Limits) : pyval :=
  PDict [($"cpu_period_usec", PInt (cpu_period_usec l)); ($"cpu_quota_usec", PInt (cpu_quota_usec l)); ($"memory_max", PInt (memory_max l));
         ($"memory_swap_max", PInt (memory_swap_max l)); ($"pids_max", PInt (pids_max l))].

(** The object of a leaf, and the values that [_leaf] takes of a typed leaf *)
Definition leaf_payload (l : Leaf) : pyval :=
  PDict [($"attachment_id", PStr (leaf_attachment_id l)); ($"cleanup_state", PStr (leaf_cleanup_state l)); ($"device", PStr (leaf_device l));
         ($"inode", PStr (leaf_inode l)); ($"lease_number", PInt (leaf_lease_number l)); ($"relative_path", PStr (leaf_relative_path l))].

(** [{key: getattr(value, key) for key in _FIELDS}] of [_mapping] *)
Definition record_fields (r : Cgroup) : pydict :=
  [($"workspace_id", PStr (cg_workspace_id r)); ($"project_id", PStr (cg_project_id r)); ($"agent_type", PStr (cg_agent_type r));
   ($"generation", PInt (cg_generation r)); ($"runtime_epoch", PStr (cg_runtime_epoch r)); ($"service_unit", PStr (cg_service_unit r));
   ($"service_invocation_id", PStr (cg_service_invocation_id r)); ($"service_cgroup_device", PStr (cg_service_cgroup_device r));
   ($"service_cgroup_inode", PStr (cg_service_cgroup_inode r)); ($"service_cgroup_mount_id", PStr (cg_service_cgroup_mount_id r));
   ($"delegated_subgroup", PStr (cg_delegated_subgroup r)); ($"delegate_subgroup_device", PStr (cg_delegate_subgroup_device r));
   ($"delegate_subgroup_inode", PStr (cg_delegate_subgroup_inode r)); ($"delegate_subgroup_mount_id", PStr (cg_delegate_subgroup_mount_id r));
   ($"cgroup_mount_id", PStr (cg_cgroup_mount_id r)); ($"cgroup_filesystem_id", PStr (cg_cgroup_filesystem_id r));
   ($"workspace_relative_path", PStr (cg_workspace_relative_path r)); ($"workspace_device", PStr (cg_workspace_device r));
   ($"workspace_inode", PStr (cg_workspace_inode r)); ($"workload_relative_path", PStr (cg_workload_relative_path r));
   ($"workload_device", PStr (cg_workload_device r)); ($"workload_inode", PStr (cg_workload_inode r));
   ($"attachment_leaves", PList (map leaf_payload (cg_attachment_leaves r)));
   ($"controller_configuration_digest", PStr (cg_controller_configuration_digest r)); ($"workspace_limits", limits_payload (cg_workspace_limits r));
   ($"workload_limits", limits_payload (cg_workload_limits r)); ($"attachment_limits", limits_payload (cg_attachment_limits r));
   ($"last_frozen", PStr (cg_last_frozen r)); ($"last_populated", PStr (cg_last_populated r)); ($"cleanup_state", PStr (cg_cleanup_state r))].

(** [d.pop(k, None)] for its effect *)
Definition dpop (d : pydict) (k : pystr) : pydict := filter (fun kv => fst kv <> k) d.

(** The end of [_mapping] *)
Definition closed_fields (d : pydict) (presence : pystr) : result (pydict * pystr) :=
  run! raise_if (negb (keys_equal (dkeys d) FIELDS)) (cgroup_error "attestation fields are not closed") in
  run! raise_if (negb (str_in presence [$"present"; $"absent"])) (cgroup_error "invalid workspace presence") in
  Ok (d, presence).

(** [_mapping] of a parsed value *)
Definition mapping (value : pyval) : result (pydict * pystr) :=
  match value with
  | PDict d =>
      let typed := negb (dhas d $"schema_version") in
      let schema := match dget d $"schema_version" with Some v => v | None => PStr CGROUP_SCHEMA end in
      let d := dpop d $"schema_version" in
      if scalar_eqb schema (PStr ABSENCE_SCHEMA) then
        run! raise_if (negb (scalar_eqb (value_of d $"workspace_presence") (PStr $"absent"))) (cgroup_error "absence schema requires absent workspace") in
        closed_fields (dpop d $"workspace_presence") $"absent"
      else if scalar_eqb schema (PStr CGROUP_SCHEMA) then
        closed_fields (if typed && scalar_eqb (value_of d $"workspace_presence") (PStr $"present") then dpop d $"workspace_presence" else d) $"present"
      else Raise (cgroup_error "invalid schema_version")
  | _ => Raise (cgroup_error "attestation must be a mapping or typed record")
  end.

(** [_mapping] of a typed record *)
Definition mapping_record (r : Cgroup) : result (pydict * pystr) := closed_fields (record_fields r) (cg_workspace_presence r).

(** ** Validation *)

Fixpoint each {A} (check : A -> result unit) (l : list A) : result unit :=
  match l with
  | [] => Ok tt
  | x :: r => run! check x in each check r
  end.

(** [tuple(_leaf(item) for item in leaves)] *)
Fixpoint leaves_of (l : list pyval) : result (list Leaf) :=
  match l with
  | [] => Ok []
  | v :: r => let! leaf := leaf_ v in let! leaves := leaves_of r in Ok (leaf :: leaves)
  end.

(** One of the two loops over the physical identities: [of_workspace] of an absent
    workspace is the word for it. *)
Definition physical (check : pyval -> string -> result pystr) (absent : bool) (values : pydict) (field : string * bool) : result unit :=
  let '(name, of_workspace) := field in
  let value := value_of values (ustr name) in
  if absent && of_workspace
  then raise_if (negb (scalar_eqb value (PStr $"absent"))) (cgroup_error "absent workspace cannot have physical identity")
  else run! check value name in Ok tt.

Definition DEVICES : list (string * bool) :=
  [("service_cgroup_device", false); ("delegate_subgroup_device", false); ("workspace_device", true); ("workload_device", true)]%string.

Definition INODES : list (string * bool) :=
  [("service_cgroup_inode", false); ("service_cgroup_mount_id", false); ("delegate_subgroup_inode", false); ("delegate_subgroup_mount_id", false);
   ("cgroup_mount_id", false); ("workspace_inode", true); ("workload_inode", true)]%string.

(** The text of a field that was checked *)
Definition text_of (values : pydict) (f : pystr) : pystr := match value_of values f with PStr s => s | _ => [] end.

(** The hierarchy of the limits: inner limits do not exceed outer ones *)
Definition exceeds (inner outer : Limits) : bool :=
  (memory_max outer <? memory_max inner) || (cpu_quota_usec outer <? cpu_quota_usec inner)
  || (cpu_period_usec outer <? cpu_period_usec inner) || (pids_max outer <? pids_max inner).

(** [_validated] after [_mapping] *)
Definition validate_fields (mapped : pydict * pystr) : result Cgroup :=
  let '(values, presence) := mapped in
  let absent := str_eqb presence $"absent" in
  let value f := value_of values f in
  let! workspace_id := string_ (value $"workspace_id") "workspace_id" in
  run! raise_if (negb (match_id $"aws" workspace_id)) (invalid "workspace_id") in
  let! project_id := string_ (value $"project_id") "project_id" in
  run! raise_if (negb (match_id $"prj" project_id)) (invalid "project_id") in
  let! agent_type := string_ (value $"agent_type") "agent_type" in
  run! raise_if (negb (str_in agent_type AGENT_TYPES)) (invalid "agent_type") in
  let! generation := uint_ (value $"generation") "generation" true in
  let! runtime_epoch := decimal_ (value $"runtime_epoch") "runtime_epoch" in
  let! service_unit := string_ (value $"service_unit") "service_unit" in
  run! raise_if (negb (str_eqb service_unit $"agentbox-runtime.service")) (invalid "service_unit") in
  let! service_invocation_id := component_ (value $"service_invocation_id") "service_invocation_id" in
  run! each (physical device_ absent values) DEVICES in
  run! each (physical decimal_ absent values) INODES in
  let! delegated_subgroup := component_ (value $"delegated_subgroup") "delegated_subgroup" in
  let! cgroup_filesystem_id := component_ (value $"cgroup_filesystem_id") "cgroup_filesystem_id" in
  let! workspace_relative_path := relative_path_ (value $"workspace_relative_path") "workspace_relative_path" in
  let! workload_relative_path := relative_path_ (value $"workload_relative_path") "workload_relative_path" in
  run! raise_if (absent && (negb (match_workspace_component workspace_relative_path)
                            || negb (str_eqb workload_relative_path (workspace_relative_path ++ $"/workload"))))
         (cgroup_error "absence requires exact generated workspace path") in
  let! attachment_leaves :=
    match value $"attachment_leaves" with
    | PList l => run! raise_if (1 <? blen l) (cgroup_error "attachment_leaves must contain at most one leaf") in leaves_of l
    | _ => Raise (cgroup_error "attachment_leaves must contain at most one leaf")
    end in
  let! controller_digest := cgroup_digest (value $"controller_configuration_digest") "controller_configuration_digest" in
  let! last_frozen := string_ (value $"last_frozen") "last_frozen" in
  let! last_populated := string_ (value $"last_populated") "last_populated" in
  run! raise_if (negb (str_in last_frozen [$"0"; $"1"]) || negb (str_in last_populated [$"0"; $"1"])) (cgroup_error "invalid cgroup state flag") in
  let! cleanup_state := string_ (value $"cleanup_state") "cleanup_state" in
  run! raise_if (negb (str_in cleanup_state CLEANUP_STATES)) (invalid "cleanup_state") in
  let! workspace_limits := limits_ (value $"workspace_limits") "workspace_limits" in
  let! workload_limits := limits_ (value $"workload_limits") "workload_limits" in
  let! attachment_limits := limits_ (value $"attachment_limits") "attachment_limits" in
  run! raise_if (exceeds attachment_limits workload_limits || exceeds workload_limits workspace_limits) (cgroup_error "cgroup limits violate hierarchy") in
  let leaves := negb (bool_decide (attachment_leaves = [])) in
  run! raise_if (str_eqb cleanup_state $"EMPTY_DURABLE" && (leaves || negb (str_eqb last_populated $"0")))
         (cgroup_error "EMPTY_DURABLE requires no attachment leaves and populated=0") in
  run! raise_if (absent && (negb (str_eqb cleanup_state $"EMPTY_DURABLE") || negb (str_eqb last_populated $"0") || negb (str_eqb last_frozen $"0") || leaves))
         (cgroup_error "absence requires empty workspace without leaves") in
  Ok (mkCgroup workspace_id project_id agent_type generation runtime_epoch service_unit service_invocation_id
        (text_of values $"service_cgroup_device") (text_of values $"service_cgroup_inode") (text_of values $"service_cgroup_mount_id")
        delegated_subgroup (text_of values $"delegate_subgroup_device") (text_of values $"delegate_subgroup_inode")
        (text_of values $"delegate_subgroup_mount_id") (text_of values $"cgroup_mount_id") cgroup_filesystem_id
        workspace_relative_path (text_of values $"workspace_device") (text_of values $"workspace_inode")
        workload_relative_path (text_of values $"workload_device") (text_of values $"workload_inode")
        attachment_leaves controller_digest workspace_limits workload_limits attachment_limits last_frozen last_populated cleanup_state presence).

(** [_validated] of a parsed value and of a typed record *)
Definition validated (value : pyval) : result Cgroup := let! m := mapping value in validate_fields m.
Definition validated_record (r : Cgroup) : result Cgroup := let! m := mapping_record r in validate_fields m.

(** ** Encoding *)

(** The object that is encoded, its members in the order in which they are
    printed *)
Definition payload (r : Cgroup) : pydict :=
  let absent := str_eqb (cg_workspace_presence r) $"absent" in
  [($"agent_type", PStr (cg_agent_type r)); ($"attachment_leaves", PList (map leaf_payload (cg_attachment_leaves r)));
   ($"attachment_limits", limits_payload (cg_attachment_limits r)); ($"cgroup_filesystem_id", PStr (cg_cgroup_filesystem_id r));
   ($"cgroup_mount_id", PStr (cg_cgroup_mount_id r)); ($"cleanup_state", PStr (cg_cleanup_state r));
   ($"controller_configuration_digest", PStr (cg_controller_configuration_digest r));
   ($"delegate_subgroup_device", PStr (cg_delegate_subgroup_device r)); ($"delegate_subgroup_inode", PStr (cg_delegate_subgroup_inode r));
   ($"delegate_subgroup_mount_id", PStr (cg_delegate_subgroup_mount_id r)); ($"delegated_subgroup", PStr (cg_delegated_subgroup r));
   ($"generation", PInt (cg_generation r)); ($"last_frozen", PStr (cg_last_frozen r)); ($"last_populated", PStr (cg_last_populated r));
   ($"project_id", PStr (cg_project_id r)); ($"runtime_epoch", PStr (cg_runtime_epoch r));
   ($"schema_version", PStr (if absent then ABSENCE_SCHEMA else CGROUP_SCHEMA));
   ($"service_cgroup_device", PStr (cg_service_cgroup_device r)); ($"service_cgroup_inode", PStr (cg_service_cgroup_inode r));
   ($"service_cgroup_mount_id", PStr (cg_service_cgroup_mount_id r)); ($"service_invocation_id", PStr (cg_service_invocation_id r));
   ($"service_unit", PStr (cg_service_unit r)); ($"workload_device", PStr (cg_workload_device r)); ($"workload_inode", PStr (cg_workload_inode r));
   ($"workload_limits", limits_payload (cg_workload_limits r)); ($"workload_relative_path", PStr (cg_workload_relative_path r));
   ($"workspace_device", PStr (cg_workspace_device r)); ($"workspace_id", PStr (cg_workspace_id r)); ($"workspace_inode", PStr (cg_workspace_inode r));
   ($"workspace_limits", limits_payload (cg_workspace_limits r))]
  ++ (if absent then [($"workspace_presence", PStr $"absent")] else [])
  ++ [($"workspace_relative_path", PStr (cg_workspace_relative_path r))].

Section Codec.
Context `{Rfc8785}.

Definition encode_validated (checked : result Cgroup) : result bytes :=
  let! record := checked in
  let! raw := except_as (rfc8785_dumps (payload record)) [PyTypeError; PyValueError] (cgroup_error "attestation canonicalization failed") in
  run! raise_if (negb (in_range 1 (blen raw) CGROUP_MAX_BYTES)) (cgroup_error "attestation is oversized") in
  Ok raw.

(** [encode_waw_cgroup_attestation] of a typed record *)
Definition encode_attestation (r : Cgroup) : result bytes := encode_validated (validated_record r).

(** [_strict_pairs] *)
Definition strict_fields (st : unit) (pairs : list (pystr * pyval)) : result (unit * pyval) :=
  let! d := unique_pairs (cgroup_error "duplicate JSON key") [] pairs in Ok (tt, PDict d).

Definition loads_attestation (raw : bytes) : result pyval :=
  match utf8_decode raw with
  | None => Raise (err UnicodeDecodeError "invalid data")
  | Some text => let! '(_, v) := loads default_number default_constant strict_fields tt text in Ok v
  end.

(** The two [except] clauses of [decode_waw_cgroup_attestation] *)
Definition parse_attestation (raw : bytes) : result pyval :=
  match loads_attestation raw with
  | Ok v => Ok v
  | Raise e =>
      if exc_isa (exn_class e) WAWCgroupAttestationError then Raise e
      else except_as (Raise e) [UnicodeDecodeError; JSONDecodeError; PyTypeError; PyValueError] (cgroup_error "attestation JSON is invalid")
  end.

(** [decode_waw_cgroup_attestation] *)
Definition decode_attestation (raw : bytes) : result Cgroup :=
  run! raise_if (negb (in_range 1 (blen raw) CGROUP_MAX_BYTES)) (cgroup_error "attestation bytes are invalid") in
  let! value := parse_attestation raw in
  let! record := validated value in
  let! again := encode_attestation record in
  run! raise_if (negb (bytes_eqb again raw)) (cgroup_error "attestation is not canonical") in
  Ok record.

(** [waw_cgroup_attestation_sha256] *)
Definition attestation_sha256 (raw : bytes) : result pystr :=
  run! decode_attestation raw in Ok (hexdigest (sha256 raw)).

End Codec.

(** ** The context *)

(** The expectations of [verify_waw_cgroup_attestation_context] beyond the
    identity, given when a recorded attestation is recovered *)
Record Shape : Type := mkShape { sh_digest : pystr; sh_workspace : Limits; sh_workload : Limits; sh_attachment : Limits }.

Definition same_text (actual wanted : pystr) (label : string) : result unit :=
  let! equal := compare_digest_str actual wanted in
  raise_if (negb equal) (cgroup_error (String.append "attestation " (String.append label " mismatch"))).

(** [verify_waw_cgroup_attestation_context] of a typed record *)
Definition verify_context (r : Cgroup) (workspace_id project_id agent_type : pystr) (generation : Z) (runtime_epoch : pystr) (shape : option Shape) : result unit :=
  run! same_text (cg_workspace_id r) workspace_id "workspace identity" in
  run! same_text (cg_project_id r) project_id "project identity" in
  run! same_text (cg_agent_type r) agent_type "agent type" in
  run! same_text (cg_runtime_epoch r) runtime_epoch "runtime epoch" in
  run! raise_if (negb (cg_generation r =? generation)) (cgroup_error "attestation generation mismatch") in
  match shape with
  | None => Ok tt
  | Some s =>
      run! same_text (cg_controller_configuration_digest r) (sh_digest s) "controller digest" in
      run! raise_if (negb (bool_decide (cg_workspace_limits r = sh_workspace s))) (cgroup_error "attestation workspace limits mismatch") in
      run! raise_if (negb (bool_decide (cg_workload_limits r = sh_workload s))) (cgroup_error "attestation workload limits mismatch") in
      raise_if (negb (bool_decide (cg_attachment_limits r = sh_attachment s))) (cgroup_error "attestation attachment limits mismatch")
  end.

(** ** Lemmas: checked values *)

(** Text of scalar values, as it is printed *)
Definition plain (s : pystr) : Prop := forallb scalar_value s = true.

Lemma string_ok (v : pyval) (f : string) (s : pystr) : string_ v f = Ok s -> v = PStr s.
Proof. destruct v; try done. cbn. intros E. by apply rbind_ok in E as ([] & _ & <-%Ok_inj). Qed.

Lemma plain_chars (P : Z -> bool) (s : pystr) : (forall c, P c = true -> 0 <= c < 128) -> forallb P s = true -> plain s.
Proof.
  intros HP H. unfold plain. rewrite forallb_forall in *. intros c Hc. specialize (HP c (H c Hc)). unfold scalar_value, is_surrogate, in_range in *. lia.
Qed.

Lemma component_char_ascii (c : Z) : is_component_char c = true -> 0 <= c < 128.
Proof. unfold is_component_char, is_alnum, is_digit, in_range. lia. Qed.

Lemma component_plain (s : pystr) : match_component s = true -> plain s.
Proof.
  destruct s as [|c s]; [done |]. intros [[Hc Hs]%andb_true_iff _]%andb_true_iff. apply (plain_chars is_component_char); [apply component_char_ascii |].
  cbn [forallb]. rewrite Hs, andb_true_r. unfold is_component_char. by rewrite Hc.
Qed.

Lemma workspace_component_plain (s : pystr) : match_workspace_component s = true -> plain s.
Proof.
  intros [[[H1%str_eqb_eq [_ H2%scalar_hex]%andb_true_iff]%andb_true_iff H3%str_eqb_eq]%andb_true_iff H4%scalar_decimal]%andb_true_iff.
  rewrite <- (take_drop 3 s), <- (take_drop 64 (drop 3 s)), <- (take_drop 2 (drop 64 (drop 3 s))), !drop_drop. unfold plain.
  rewrite !forallb_app. cbn [Nat.add]. by rewrite H1, H2, H3, H4.
Qed.

(** A text is plain when its parts and the separator are. *)
Lemma split_plain (sep : Z) (s : pystr) : scalar_value sep = true -> Forall plain (split_at sep s) -> plain s.
Proof.
  intros Hsep. induction s as [|c s IH]; [done |]. cbn [split_at]. destruct (c =? sep) eqn:E.
  - apply Z.eqb_eq in E as ->. intros [_ H]%Forall_cons. unfold plain. cbn [forallb]. by rewrite Hsep, (IH H).
  - destruct (split_at sep s) as [|p ps]; intros [Hp H]%Forall_cons; unfold plain in *; cbn [forallb] in *.
    + by apply andb_true_iff in Hp as [-> _]; rewrite IH.
    + apply andb_true_iff in Hp as [-> Hp]. apply IH. by constructor.
Qed.

Lemma part_plain (first : bool) (p : pystr) : bad_part first p = false -> plain p.
Proof.
  unfold bad_part. intros [[H | H]%andb_false_iff _]%orb_false_iff; apply negb_false_iff in H; [by apply component_plain |].
  apply andb_true_iff in H as [_ H]. by apply workspace_component_plain.
Qed.

Lemma component_ok (v : pyval) (f : string) (s : pystr) : component_ v f = Ok s -> v = PStr s /\ plain s.
Proof.
  unfold component_. intros E. apply rbind_ok in E as (x & Hx%string_ok & E). apply rbind_ok in E as ([] & [H%negb_false_iff _]%raise_if_ok%orb_false_iff & <-%Ok_inj).
  split; [done |]. by apply component_plain.
Qed.

Lemma relative_path_ok (v : pyval) (f : string) (s : pystr) : relative_path_ v f = Ok s -> v = PStr s /\ plain s.
Proof.
  unfold relative_path_. intros E. apply rbind_ok in E as (x & Hx%string_ok & E). apply rbind_ok in E as ([] & [_ H]%raise_if_ok%orb_false_iff & <-%Ok_inj).
  split; [done |]. apply (split_plain 47); [done |]. destruct (split_at 47 x) as [|p ps]; [constructor |]. apply orb_false_iff in H as [Hp Hps].
  constructor; [by apply (part_plain true) |]. apply Forall_forall. intros q Hq. apply (part_plain false). destruct (bad_part false q) eqn:E; [| done].
  exfalso. apply not_true_iff_false in Hps. apply Hps, existsb_exists. exists q. split; [by apply list_elem_of_In | done].
Qed.

Lemma decimal_ok (v : pyval) (f : string) (s : pystr) : decimal_ v f = Ok s -> v = PStr s /\ plain s /\ match_pos_decimal s = true /\ digits_value s <= MAX_U64.
Proof.
  destruct v; try done. cbn. intros E. apply rbind_ok in E as ([] & H%raise_if_ok%negb_false_iff & E). apply rbind_ok in E as ([] & Hu%raise_if_ok & <-%Ok_inj).
  split; [done |]. split; [by apply scalar_decimal |]. split; [done | lia].
Qed.

Lemma uint_ok (v : pyval) (f : string) (p : bool) (z : Z) : uint_ v f p = Ok z -> v = PInt z /\ (if p then 1 else 0) <= z <= MAX_U64.
Proof.
  destruct v; try done. cbn. intros E. apply rbind_ok in E as ([] & H%raise_if_ok & <-%Ok_inj). split; [done |]. lia.
Qed.

Lemma device_ok (v : pyval) (f : string) (s : pystr) : device_ v f = Ok s -> v = PStr s /\ plain s.
Proof.
  unfold device_. intros E. apply rbind_ok in E as (x & Hx%string_ok & E). apply rbind_ok in E as ([] & H%raise_if_ok%negb_false_iff & E).
  apply rbind_ok in E as ([] & _ & <-%Ok_inj). split; [done |]. apply (split_plain 58); [done |]. unfold match_device in H.
  destruct (split_at 58 x) as [|a [|b [|]]]; try done. cbv zeta in H. apply andb_true_iff in H as [[[Ha _]%andb_true_iff _]%andb_true_iff [[Hb _]%andb_true_iff _]%andb_true_iff].
  assert (K : forall c, is_digit c = true -> 0 <= c < 128) by (intros c; unfold is_digit, in_range; lia).
  repeat constructor; by apply (plain_chars is_digit).
Qed.

Lemma cgroup_digest_ok (v : pyval) (f : string) (s : pystr) : cgroup_digest v f = Ok s -> v = PStr s /\ plain s.
Proof.
  unfold cgroup_digest. intros E. apply rbind_ok in E as (x & Hx%string_ok & E). apply rbind_ok in E as ([] & [H%negb_false_iff _]%raise_if_ok%orb_false_iff & <-%Ok_inj).
  split; [done |]. apply andb_true_iff in H as [_ H]. by apply scalar_hex.
Qed.

Lemma member_plain (s : pystr) (l : list pystr) : Forall plain l -> str_in s l = true -> plain s.
Proof. intros Hl (x & Hx & ->%str_eqb_eq)%existsb_exists. rewrite Forall_forall in Hl. by apply Hl, list_elem_of_In. Qed.

Lemma limits_back (l k : Limits) (f : string) : limits_ (limits_payload l) f = Ok k -> k = l.
Proof.
  destruct l as [m s q p n]. unfold limits_, limits_payload. intros E. apply rbind_ok in E as ([] & _ & E).
  do 5 (apply rbind_ok in E as (? & [[= <-] _]%uint_ok & E)). by apply Ok_inj in E as <-.
Qed.

Lemma leaf_back (l k : Leaf) : leaf_ (leaf_payload l) = Ok k ->
  k = l /\ plain (leaf_attachment_id l) /\ plain (leaf_cleanup_state l) /\ plain (leaf_relative_path l) /\ plain (leaf_device l) /\ plain (leaf_inode l).
Proof.
  destruct l as [a p d i n c]. unfold leaf_, leaf_payload. intros E. apply rbind_ok in E as ([] & _ & E).
  apply rbind_ok in E as (? & [= <-]%string_ok & E). apply rbind_ok in E as ([] & Ha%raise_if_ok%negb_false_iff & E).
  apply rbind_ok in E as (? & [= <-]%string_ok & E). apply rbind_ok in E as ([] & Hc%raise_if_ok%negb_false_iff & E).
  apply rbind_ok in E as (? & [[= <-] Hp]%relative_path_ok & E). apply rbind_ok in E as (? & [[= <-] Hd]%device_ok & E).
  apply rbind_ok in E as (? & ([= <-] & Hi & _)%decimal_ok & E). apply rbind_ok in E as (? & [[= <-] _]%uint_ok & E). apply Ok_inj in E as <-. cbn.
  split; [done |]. split; [by apply (scalar_id $"att") |]. split; [| done]. eapply member_plain; [| exact Hc]. repeat constructor.
Qed.

Lemma leaves_back (l k : list Leaf) : leaves_of (map leaf_payload l) = Ok k -> k = l /\ Forall (fun x => leaf_ (leaf_payload x) = Ok x) l.
Proof.
  revert k. induction l as [|x l IH]; intros k E; cbn in E; [by injection E as <- |]. apply rbind_ok in E as (y & Hy & E).
  apply rbind_ok in E as (ys & Hys & <-%Ok_inj). destruct (leaf_back x y Hy) as [-> _]. destruct (IH ys Hys) as [-> Hl]. split; [done |]. by constructor.
Qed.

(** ** Lemmas: records *)

Lemma each_ok {A} (check : A -> result unit) (l : list A) (u : unit) : each check l = Ok u -> Forall (fun x => check x = Ok tt) l.
Proof. induction l as [|x l IH]; [constructor |]. cbn. intros E. apply rbind_ok in E as ([] & Hx & E). constructor; [done | by apply IH]. Qed.

Lemma physical_ok (check : pyval -> string -> result pystr) (absent : bool) (values : pydict) (x : string * bool) :
  (forall v f s, check v f = Ok s -> v = PStr s /\ plain s) -> physical check absent values x = Ok tt -> plain (text_of values (ustr (fst x))).
Proof.
  intros Hc. destruct x as [name ws]. unfold physical, text_of. cbn [fst]. destruct (absent && ws).
  - intros H%raise_if_ok%negb_false_iff. destruct (value_of values (ustr name)); try done. cbn in H. by apply str_eqb_eq in H as ->.
  - intros E. by apply rbind_ok in E as (s & [-> Hs]%Hc & _).
Qed.

(** The text of a record is plain. *)
Record plain_record (r : Cgroup) : Prop := {
  pr_ids : plain (cg_workspace_id r) /\ plain (cg_project_id r) /\ plain (cg_agent_type r) /\ plain (cg_runtime_epoch r) /\ plain (cg_service_unit r);
  pr_names : plain (cg_service_invocation_id r) /\ plain (cg_delegated_subgroup r) /\ plain (cg_cgroup_filesystem_id r)
             /\ plain (cg_workspace_relative_path r) /\ plain (cg_workload_relative_path r);
  pr_devices : plain (cg_service_cgroup_device r) /\ plain (cg_delegate_subgroup_device r) /\ plain (cg_workspace_device r) /\ plain (cg_workload_device r);
  pr_inodes : plain (cg_service_cgroup_inode r) /\ plain (cg_service_cgroup_mount_id r) /\ plain (cg_delegate_subgroup_inode r)
              /\ plain (cg_delegate_subgroup_mount_id r) /\ plain (cg_cgroup_mount_id r) /\ plain (cg_workspace_inode r) /\ plain (cg_workload_inode r);
  pr_states : plain (cg_controller_configuration_digest r) /\ plain (cg_last_frozen r) /\ plain (cg_last_populated r) /\ plain (cg_cleanup_state r);
  pr_leaves : Forall (fun x => leaf_ (leaf_payload x) = Ok x) (cg_attachment_leaves r);
  pr_presence : str_in (cg_workspace_presence r) [$"present"; $"absent"] = true;
  pr_key : match_id $"aws" (cg_workspace_id r) = true /\ 1 <= cg_generation r <= MAX_U64;
  pr_epoch : match_pos_decimal (cg_runtime_epoch r) = true /\ digits_value (cg_runtime_epoch r) <= MAX_U64
}.

(** The physical identities that were checked are plain. *)
Lemma devices_plain (absent : bool) (r : Cgroup) : Forall (fun x => physical device_ absent (record_fields r) x = Ok tt) DEVICES ->
  plain (cg_service_cgroup_device r) /\ plain (cg_delegate_subgroup_device r) /\ plain (cg_workspace_device r) /\ plain (cg_workload_device r).
Proof.
  intros H. eapply Forall_impl in H; [| intros x; apply physical_ok, device_ok]. unfold DEVICES in H.
  repeat (apply Forall_cons in H as [? H]). repeat split; assumption.
Qed.

Lemma inodes_plain (absent : bool) (r : Cgroup) : Forall (fun x => physical decimal_ absent (record_fields r) x = Ok tt) INODES ->
  plain (cg_service_cgroup_inode r) /\ plain (cg_service_cgroup_mount_id r) /\ plain (cg_delegate_subgroup_inode r)
  /\ plain (cg_delegate_subgroup_mount_id r) /\ plain (cg_cgroup_mount_id r) /\ plain (cg_workspace_inode r) /\ plain (cg_workload_inode r).
Proof.
  intros H. eapply Forall_impl in H; [| intros x; apply physical_ok; intros v f s E; by destruct (decimal_ok v f s E) as (? & ? & _)]. unfold INODES in H.
  repeat (apply Forall_cons in H as [? H]). repeat split; assumption.
Qed.

Lemma validated_same (r k : Cgroup) : validated_record r = Ok k -> k = r /\ plain_record r.
Proof.
  intros E. apply rbind_ok in E as ([values presence] & E0 & E). unfold mapping_record, closed_fields in E0.
  apply rbind_ok in E0 as ([] & _ & E0). apply rbind_ok in E0 as ([] & Hpr%raise_if_ok%negb_false_iff & [= <- <-]).
  unfold validate_fields in E. cbv zeta in E.
  apply rbind_ok in E as (? & [= <-]%string_ok & E). apply rbind_ok in E as ([] & H1%raise_if_ok%negb_false_iff & E).
  apply rbind_ok in E as (? & [= <-]%string_ok & E). apply rbind_ok in E as ([] & H2%raise_if_ok%negb_false_iff & E).
  apply rbind_ok in E as (? & [= <-]%string_ok & E). apply rbind_ok in E as ([] & H3%raise_if_ok%negb_false_iff & E).
  apply rbind_ok in E as (? & [[= <-] Hg]%uint_ok & E). apply rbind_ok in E as (? & ([= <-] & H4 & He)%decimal_ok & E).
  apply rbind_ok in E as (? & [= <-]%string_ok & E). apply rbind_ok in E as ([] & H5%raise_if_ok%negb_false_iff%str_eqb_eq & E).
  apply rbind_ok in E as (? & [[= <-] H6]%component_ok & E).
  apply rbind_ok in E as (? & Hdev%each_ok & E). apply rbind_ok in E as (? & Hino%each_ok & E).
  apply rbind_ok in E as (? & [[= <-] H7]%component_ok & E). apply rbind_ok in E as (? & [[= <-] H8]%component_ok & E).
  apply rbind_ok in E as (? & [[= <-] H9]%relative_path_ok & E). apply rbind_ok in E as (? & [[= <-] H10]%relative_path_ok & E).
  apply rbind_ok in E as ([] & _ & E). apply rbind_ok in E as (leaves & Hl & E). change (value_of (record_fields r) $"attachment_leaves") with
    (PList (map leaf_payload (cg_attachment_leaves r))) in Hl. cbv iota beta in Hl. apply rbind_ok in Hl as ([] & _ & [-> Hl]%leaves_back).
  apply rbind_ok in E as (? & [[= <-] H11]%cgroup_digest_ok & E). apply rbind_ok in E as (? & [= <-]%string_ok & E).
  apply rbind_ok in E as (? & [= <-]%string_ok & E). apply rbind_ok in E as ([] & [Hf%negb_false_iff Hpo%negb_false_iff]%raise_if_ok%orb_false_iff & E).
  apply rbind_ok in E as (? & [= <-]%string_ok & E). apply rbind_ok in E as ([] & Hcl%raise_if_ok%negb_false_iff & E).
  apply rbind_ok in E as (? & ->%limits_back & E). apply rbind_ok in E as (? & ->%limits_back & E). apply rbind_ok in E as (? & ->%limits_back & E).
  do 3 (apply rbind_ok in E as ([] & _ & E)). apply Ok_inj in E as <-. split; [by destruct r |].
  constructor; try done.
  - split; [by apply (scalar_id $"aws") |]. split; [by apply (scalar_id $"prj") |]. split; [by eapply member_plain; [| exact H3]; repeat constructor |].
    split; [done |]. change (value_of (record_fields r) $"service_unit") with (PStr (cg_service_unit r)) in *. by rewrite H5.
  - by apply devices_plain in Hdev.
  - by apply inodes_plain in Hino.
  - split; [done |]. split; [by eapply member_plain; [| exact Hf]; repeat constructor |]. split; [by eapply member_plain; [| exact Hpo]; repeat constructor |].
    by eapply member_plain; [| exact Hcl]; repeat constructor.
Qed.

(** ** Lemmas: the payload *)

Lemma plain_str (s : pystr) : plain s -> canonical (PStr s) = true.
Proof. done. Qed.

Lemma limits_canonical (l : Limits) : exact_integers (limits_payload l) = true -> canonical (limits_payload l) = true.
Proof. cbn. rewrite !andb_true_r. intros H. repeat (apply andb_true_iff in H as [-> H]). by rewrite H. Qed.

Lemma leaf_canonical (l : Leaf) : leaf_ (leaf_payload l) = Ok l -> exact_integers (leaf_payload l) = true -> canonical (leaf_payload l) = true.
Proof.
  intros (_ & H1 & H2 & H3 & H4 & H5)%leaf_back He. unfold leaf_payload in *. cbn [exact_integers forallb snd canonical andb] in *.
  unfold plain in *. rewrite H1, H2, H3, H4, H5. rewrite andb_true_r in He. by rewrite He.
Qed.

Lemma leaves_canonical (l : list Leaf) : Forall (fun x => leaf_ (leaf_payload x) = Ok x) l -> exact_integers (PList (map leaf_payload l)) = true ->
  canonical (PList (map leaf_payload l)) = true.
Proof.
  cbn [exact_integers canonical]. induction 1 as [|x l Hx _ IH]; [done |]. cbn [map forallb]. intros [H1 H2]%andb_true_iff. by rewrite leaf_canonical, IH.
Qed.

Lemma payload_canonical (r : Cgroup) : plain_record r -> exact_integers (PDict (payload r)) = true -> canonical (PDict (payload r)) = true.
Proof.
  intros [(I1 & I2 & I3 & I4 & I5) (N1 & N2 & N3 & N4 & N5) (D1 & D2 & D3 & D4) (O1 & O2 & O3 & O4 & O5 & O6 & O7) (S1 & S2 & S3 & S4) Hl Hp] He.
  cbn [exact_integers] in He. rewrite forallb_forall in He. assert (Hk : ascending (dkeys (payload r)) = true) by (unfold payload; by destruct (str_eqb _ _)).
  cbn [canonical]. rewrite Hk. cbn [andb]. apply forallb_forall. intros kv Hin. pose proof (He kv Hin) as Hx. clear He Hk. unfold payload in Hin. rewrite !in_app_iff in Hin.
  cbn [In] in Hin. destruct Hin as [Hin | [Hin | Hin]].
  - repeat (destruct Hin as [<- | Hin]; [cbn [fst snd] in *; apply andb_true_iff; split; [reflexivity |];
      first [by apply plain_str | by apply limits_canonical | by apply leaves_canonical | exact Hx | by destruct (str_eqb _ _)] |]). done.
  - by destruct (str_eqb _ _); [destruct Hin as [<- | []] |].
  - destruct Hin as [<- | []]. cbn [fst snd]. apply andb_true_iff. by split.
Qed.

(** *** Reading the payload back *)

Lemma dget_pop (d : pydict) (k f : pystr) : f <> k -> dget (dpop d k) f = dget d f.
Proof.
  intros Hf. unfold dpop. induction d as [|[x v] d IH]; [done |]. rewrite filter_cons. cbn [fst dget]. destruct (decide (x <> k)) as [Hx | Hx]; cbn [dget].
  - by rewrite IH.
  - rewrite IH. destruct (str_eqb f x) eqn:E; [| done]. apply str_eqb_eq in E as <-. by destruct Hx.
Qed.

Lemma value_pop (d : pydict) (k f : pystr) : f <> k -> value_of (dpop d k) f = value_of d f.
Proof. intros Hf. unfold value_of. by rewrite dget_pop. Qed.

(** Validation reads the closed set of fields, in whatever order they are. *)
Lemma validate_fields_ext (d e : pydict) (presence : pystr) : Forall (fun f => value_of d f = value_of e f) FIELDS ->
  validate_fields (d, presence) = validate_fields (e, presence).
Proof.
  intros H. assert (K : forall f, str_in f FIELDS = true -> value_of d f = value_of e f).
  { intros f (x & Hx & ->%str_eqb_eq)%existsb_exists. rewrite Forall_forall in H. by apply H, list_elem_of_In. }
  unfold validate_fields, text_of. cbv zeta. cbn [each DEVICES INODES physical].
  repeat match goal with |- context [value_of d ?f] => rewrite (K f) by (vm_compute; reflexivity) end. reflexivity.
Qed.

Lemma payload_value (r : Cgroup) : Forall (fun f => value_of (payload r) f = value_of (record_fields r) f) FIELDS.
Proof. unfold payload. destruct (str_eqb _ _); unfold FIELDS; repeat constructor. Qed.

Lemma dkeys_pop (d : pydict) (k : pystr) : dkeys (dpop d k) = filter (fun f => f <> k) (dkeys d).
Proof.
  unfold dpop, dkeys. induction d as [|[x v] d IH]; [done |]. rewrite filter_cons. cbn [map fst]. rewrite filter_cons.
  destruct (decide (x <> k)); cbn [map fst]; by rewrite IH.
Qed.

Lemma values_pop (d e : pydict) (k : pystr) : str_in k FIELDS = false -> Forall (fun f => value_of d f = value_of e f) FIELDS ->
  Forall (fun f => value_of (dpop d k) f = value_of e f) FIELDS.
Proof.
  intros Hk H. rewrite Forall_forall in *. intros f Hf. rewrite value_pop; [by apply H |]. intros ->. apply not_true_iff_false in Hk. apply Hk.
  apply existsb_exists. exists k. split; [by apply list_elem_of_In | by apply str_eqb_eq].
Qed.

Lemma mapping_payload (r : Cgroup) : str_in (cg_workspace_presence r) [$"present"; $"absent"] = true ->
  exists d, mapping (PDict (payload r)) = Ok (d, cg_workspace_presence r) /\ Forall (fun f => value_of d f = value_of (record_fields r) f) FIELDS.
Proof.
  intros Hp. assert (cg_workspace_presence r = $"absent" \/ cg_workspace_presence r = $"present") as [E | E].
  { cbn [str_in existsb] in Hp. rewrite orb_false_r in Hp. apply orb_true_iff in Hp as [H%str_eqb_eq | H%str_eqb_eq]; auto. }
  - exists (dpop (dpop (payload r) $"schema_version") $"workspace_presence"). split; [| do 2 (apply values_pop; [by vm_compute |]); apply payload_value].
    assert (Hs : dget (payload r) $"schema_version" = Some (PStr ABSENCE_SCHEMA)) by (unfold payload; by rewrite E).
    assert (Hw : value_of (dpop (payload r) $"schema_version") $"workspace_presence" = PStr $"absent") by (rewrite value_pop by done; unfold payload; by rewrite E).
    assert (Hk : keys_equal (dkeys (dpop (dpop (payload r) $"schema_version") $"workspace_presence")) FIELDS = true).
    { rewrite !dkeys_pop. unfold payload. rewrite E. vm_compute. reflexivity. }
    unfold mapping. rewrite Hs. cbv zeta. rewrite Hw. unfold closed_fields. by rewrite Hk, E.
  - exists (dpop (payload r) $"schema_version"). split; [| apply values_pop; [by vm_compute | apply payload_value]].
    assert (Hs : dget (payload r) $"schema_version" = Some (PStr CGROUP_SCHEMA)) by (unfold payload; by rewrite E).
    assert (Ht : dhas (payload r) $"schema_version" = true) by (unfold payload; rewrite E; vm_compute; reflexivity).
    assert (Hk : keys_equal (dkeys (dpop (payload r) $"schema_version")) FIELDS = true).
    { rewrite !dkeys_pop. unfold payload. rewrite E. vm_compute. reflexivity. }
    unfold mapping. rewrite Hs, Ht. cbv zeta. change (scalar_eqb (PStr CGROUP_SCHEMA) (PStr ABSENCE_SCHEMA)) with false.
    change (scalar_eqb (PStr CGROUP_SCHEMA) (PStr CGROUP_SCHEMA)) with true. cbn [negb andb]. unfold closed_fields. by rewrite Hk, E.
Qed.

Section Roundtrip.
Context `{Rfc8785Laws}.

Lemma strict_fields_ok (d : pydict) : NoDup (dkeys d) -> strict_fields tt d = Ok (tt, PDict d).
Proof. intros Hd. unfold strict_fields. by rewrite (unique_pairs_ok _ [] d). Qed.

(** What is encoded is the text of the payload of a validated record. *)
Lemma encode_ok (r : Cgroup) (raw : bytes) : encode_attestation r = Ok raw ->
  validated_record r = Ok r /\ in_range 1 (blen raw) CGROUP_MAX_BYTES = true
  /\ exists t, canonical (PDict (payload r)) = true /\ dumps (PDict (payload r)) = Ok t /\ utf8_encode t = Some raw.
Proof.
  unfold encode_attestation, encode_validated. intros E. apply rbind_ok in E as (k & Ek & E). destruct (validated_same r k Ek) as [-> Hr].
  apply rbind_ok in E as (b & Eb%except_as_ok & E). apply rbind_ok in E as ([] & Hl%raise_if_ok%negb_false_iff & <-%Ok_inj). split; [done |]. split; [done |].
  pose proof (payload_canonical r Hr (rfc8785_domain _ _ Eb)) as Hc. destruct (canonical_text _ Hc) as (t & x & Et & Ex & Ed). exists t.
  split; [done |]. split; [done |]. congruence.
Qed.

Lemma encoded_decodes (r : Cgroup) (raw : bytes) : encode_attestation r = Ok raw -> decode_attestation raw = Ok r.
Proof.
  intros E. destruct (encode_ok r raw E) as (Hv & Hl & t & Hc & Et & Eu). unfold decode_attestation. rewrite Hl. cbn [negb raise_if rbind].
  unfold parse_attestation, loads_attestation. rewrite (utf8_decode_encode _ _ Eu), (canonical_loads _ _ _ strict_fields_ok Hc Et). cbn [rbind].
  destruct (validated_same r r Hv) as [_ Hr]. destruct (mapping_payload r (pr_presence r Hr)) as (d & Em & Hd).
  assert (validated (PDict (payload r)) = Ok r) as ->.
  { unfold validated. rewrite Em. cbn [rbind]. rewrite (validate_fields_ext _ _ _ Hd). unfold validated_record, mapping_record, closed_fields in Hv.
    apply rbind_ok in Hv as (m & Hm & Hv). apply rbind_ok in Hm as ([] & _ & Hm). by apply rbind_ok in Hm as ([] & _ & <-%Ok_inj). }
  cbn [rbind]. rewrite E. cbn [rbind]. by rewrite (proj2 (bytes_eqb_eq raw raw) eq_refl).
Qed.

End Roundtrip.

(** C29: Encoding and decoding of cgroup attestations are inverse to
    each other: bytes decode to a record exactly when the record is encoded as
    these bytes, so a record has one encoding and the bytes of a record say all
    of it. *)
Theorem attestation_exact `{Rfc8785Laws} (r : Cgroup) (raw : bytes) : decode_attestation raw = Ok r <-> encode_attestation r = Ok raw.
Proof.
  split; [| by apply encoded_decodes]. unfold decode_attestation. intros E. apply rbind_ok in E as ([] & _ & E). apply rbind_ok in E as (v & _ & E).
  apply rbind_ok in E as (k & _ & E). apply rbind_ok in E as (again & Ea & E). apply rbind_ok in E as ([] & Hb%raise_if_ok%negb_false_iff & <-%Ok_inj).
  apply bytes_eqb_eq in Hb as <-. done.
Qed.

(** ** Witnesses *)

Definition sample_limits (n : Z) : Limits := mkLimits (n * 1048576) 0 (n * 1000) 100000 (n * 10).

(** The cgroup of a generation, as the host showed it in an epoch *)
Definition sample_cgroup (generation : Z) (epoch invocation cleanup populated : pystr) : Cgroup :=
  mkCgroup ($"aws_" ++ repeat 97 32) ($"prj_" ++ repeat 97 32) $"claude" generation epoch $"agentbox-runtime.service" invocation
    $"0:29" $"101" $"31" $"payload" $"0:29" $"102" $"31" $"31" $"cgroup2" ($"ws-" ++ repeat 98 64 ++ $"-g" ++ str_of_Z generation)
    $"0:29" $"103" ($"ws-" ++ repeat 98 64 ++ $"-g" ++ str_of_Z generation ++ $"/workload") $"0:29" $"104" [] (repeat 49 64)
    (sample_limits 3) (sample_limits 2) (sample_limits 1) $"0" populated cleanup $"present".

Definition live_cgroup : Cgroup := sample_cgroup 1 $"7" $"invocation-1" $"LIVE" $"1".

#[local] Existing Instance printed_rfc8785.

Definition live_raw : bytes := Eval vm_compute in match encode_attestation live_cgroup with Ok raw => raw | Raise _ => [] end.

Lemma live_encoded : encode_attestation live_cgroup = Ok live_raw.
Proof. vm_compute. reflexivity. Qed.

Lemma attestation_exact_witness : decode_attestation live_raw = Ok live_cgroup.
Proof. exact (proj2 (attestation_exact live_cgroup live_raw) live_encoded). Defined.

(** A generation is a 64-bit number, but the canonical form has no integers
    beyond the exact ones. *)
Example generation_not_printed : validated_record (sample_cgroup (MAX_SAFE + 1) $"7" $"invocation-1" $"LIVE" $"1") = Ok (sample_cgroup (MAX_SAFE + 1) $"7" $"invocation-1" $"LIVE" $"1")
  /\ encode_attestation (sample_cgroup (MAX_SAFE + 1) $"7" $"invocation-1" $"LIVE" $"1") = Raise (cgroup_error "attestation canonicalization failed").
Proof. vm_compute. split; reflexivity. Qed.
