(* ===== verification/Folder.v ===== *)
(** * A directory that is written atomically

    Shared by the stores of the Runtime that keep one file per record: what the
    names of a directory show now and what they would show after a power loss,
    the calls to the operating system that the stores make in it, and what an
    atomic replacement of a file leaves when it fails or dies. *)

From S2P Require Import Prelude PyVal Crash.

Local Open Scope Z_scope.

(** [shown]: what each name shows now; [kept]: what it would show after a power
    loss. *)
Record Folder : Type := mkFolder { shown : gmap pystr File; kept : gmap pystr File }.

Local Abbreviation IO := (io Folder).

Definition set_shown (m : gmap pystr File) (d : Folder) : Folder := mkFolder m (kept d).

(** The calls to the operating system *)

(** [os.open(name, O_RDONLY | O_NOFOLLOW)] *)
Definition open_file (name : pystr) : IO File :=
  call (fun _ d => (d, match shown d !! name with
                       | None => Raise (err PyFileNotFoundError "open")
                       | Some f => if is_link (f_stat f) then Raise os_error else Ok f
                       end)).

(** [os.open(name, O_WRONLY | O_CREAT | O_EXCL)] *)
Definition create_file (name : pystr) (s : Stat) : IO unit :=
  call (fun _ d => match shown d !! name with
                   | Some _ => (d, Raise os_error)
                   | None => (set_shown (<[name := mkFile s [] false]> (shown d)) d, Ok tt)
                   end).

(** [os.write(descriptor, raw)], which may write less *)
Definition write_once (name : pystr) (raw : bytes) : IO Z :=
  call (fun n d =>
    let w := Z.max 0 (Z.min n (blen raw)) in
    match shown d !! name with
    | Some f => (set_shown (<[name := mkFile (f_stat f) (f_data f ++ slice_to w raw) false]> (shown d)) d, Ok w)
    | None => (d, Ok w)
    end).

Definition sync_file (name : pystr) : IO unit :=
  call (fun _ d => match shown d !! name with
                   | Some f => (set_shown (<[name := mkFile (f_stat f) (f_data f) true]> (shown d)) d, Ok tt)
                   | None => (d, Raise os_error)
                   end).

Definition replace_file (source target : pystr) : IO unit :=
  call (fun _ d => match shown d !! source with
                   | Some f => (set_shown (<[target := f]> (delete source (shown d))) d, Ok tt)
                   | None => (d, Raise (err PyFileNotFoundError "replace"))
                   end).

Definition sync_folder : IO unit := call (fun _ d => (mkFolder (shown d) (shown d), Ok tt)).

Definition unlink_file (name : pystr) : IO unit :=
  call (fun _ d => match shown d !! name with
                   | Some _ => (set_shown (delete name (shown d)) d, Ok tt)
                   | None => (d, Raise (err PyFileNotFoundError "unlink"))
                   end).

Definition close_file : IO unit := observe tt.

(** [while view: written = os.write(fd, view); ...] *)
Fixpoint write_view (fuel : nat) (name : pystr) (view : bytes) : IO unit :=
  match fuel with
  | O => io_raise (err FuelExhausted "write")
  | S n =>
      if blen view =? 0 then io_ret tt
      else
        io! written := write_once name view in
        then! io_raise_if (written <=? 0) os_error in
        write_view n name (slice_from written view)
  end.

(** After a power loss every name shows what it showed or what was durable. *)
Definition power_lost (d : Folder) (m : gmap pystr File) : Prop :=
  forall n, survives_opt (shown d !! n) (m !! n) \/ survives_opt (kept d !! n) (m !! n).

(** ** Lemmas *)

Lemma read_all {A} (f : list A) (n : Z) : blen (slice_to n f) = blen f -> slice_to n f = f.
Proof. unfold slice_to, blen. rewrite length_take. intros Hl. apply take_ge. lia. Qed.

(** ** Replacing a file

    Apart from the temporary name [t], nothing moved. *)
Definition same_but (t : pystr) (d d1 : Folder) : Prop :=
  forall n, n <> t -> shown d1 !! n = shown d !! n /\ kept d1 !! n = kept d !! n.

(** [name] was moved to a complete file of [raw]; [flushed]: durably. *)
Definition replaced (t name : pystr) (raw : bytes) (d d1 : Folder) (flushed : bool) : Prop :=
  exists f, f_data f = raw /\ f_synced f = true /\ forall n, n <> t ->
    shown d1 !! n = <[name := f]> (shown d) !! n /\ kept d1 !! n = (if flushed then shown d1 else kept d) !! n.

Definition moved (t name : pystr) (raw : bytes) (d d1 : Folder) : Prop := same_but t d d1 \/ exists flushed, replaced t name raw d d1 flushed.

Definition wrote (t name : pystr) (raw : bytes) (d d1 : Folder) (r : result unit) : Prop :=
  match r with Ok _ => replaced t name raw d d1 true | Raise _ => moved t name raw d d1 end.

Lemma wrote_moved (t name : pystr) (raw : bytes) (d d1 : Folder) (r : result unit) : wrote t name raw d d1 r -> moved t name raw d d1.
Proof. destruct r; cbn; [intros Hr; right; eauto | done]. Qed.

(** A change of the temporary name alone *)
Lemma wrote_elsewhere (t name : pystr) (raw : bytes) (d d1 : Folder) (r : result unit) (o : option File) :
  wrote t name raw d d1 r -> wrote t name raw d (set_shown (match o with Some f => <[t := f]> (shown d1) | None => delete t (shown d1) end) d1) r.
Proof.
  intros Hr. assert (K : forall n, n <> t -> shown (set_shown (match o with Some f => <[t := f]> (shown d1) | None => delete t (shown d1) end) d1) !! n = shown d1 !! n).
  { intros n Hn. cbn. destruct o; [by rewrite lookup_insert_ne | by rewrite lookup_delete_ne]. }
  assert (K2 : forall flushed, replaced t name raw d d1 flushed ->
    replaced t name raw d (set_shown (match o with Some f => <[t := f]> (shown d1) | None => delete t (shown d1) end) d1) flushed).
  { intros fl (f & H1 & H2 & H3). exists f. split; [done |]. split; [done |]. intros n Hn. destruct (H3 n Hn) as [E1 E2].
    split; [by rewrite (K n Hn) |]. destruct fl; cbn [kept set_shown]; rewrite ?(K n Hn); done. }
  destruct r as [u | e]; cbn [wrote] in *; [by apply K2 |]. destruct Hr as [Hs | [fl Hr]]; [left | right; exists fl; by apply K2].
  intros n Hn. rewrite (K n Hn). by apply Hs.
Qed.

Lemma same_elsewhere (t : pystr) (d d1 : Folder) (f : File) : same_but t d d1 -> same_but t d (set_shown (<[t := f]> (shown d1)) d1).
Proof. intros Hs n Hn. cbn. rewrite lookup_insert_ne by done. by apply Hs. Qed.

(** The only exception is one of the operating system's own. *)
Definition os_only {A} (r : result A) : Prop := forall e, r = Raise e -> e = os_error.

Lemma os_only_os {A} : os_only (@Raise A os_error).
Proof. by intros e [= <-]. Qed.

#[export] Hint Resolve os_only_os : core.

Section Writing.
Context (t name : pystr) (raw : bytes) (d : Folder) (C : Folder -> Prop).

Lemma create_file_spec (s : Stat) : C d ->
  cwp (create_file t s) (fun d1 r => same_but t d d1 /\ os_only r /\ (r = Ok tt -> shown d1 !! t = Some (mkFile s [] false))) C d.
Proof.
  intros HC. apply cwp_call; [done | by split |]. intros _. destruct (shown d !! t); cbn [fst snd]; [by split |].
  split; [by apply same_elsewhere |]. split; [done |]. intros _. cbn. by rewrite lookup_insert_eq.
Qed.

Lemma write_view_spec (fuel : nat) (view : bytes) (f : File) (d1 : Folder) : (forall d2, same_but t d d2 -> C d2) ->
  same_but t d d1 -> shown d1 !! t = Some f -> (length view < fuel)%nat ->
  cwp (write_view fuel t view) (fun d2 r => same_but t d d2 /\ os_only r
    /\ (r = Ok tt -> exists g, shown d2 !! t = Some g /\ f_data g = f_data f ++ view)) C d1.
Proof.
  intros HC. revert view f d1. induction fuel as [|fuel IH]; intros view f d1 Hs Hf Hlen; [lia |]. cbn [write_view]. destruct (blen view =? 0) eqn:E.
  { apply Z.eqb_eq in E. unfold blen in E. destruct view; [| cbn in E; lia]. apply cwp_ret. split; [done |]. split; [done |]. intros _. exists f. by rewrite app_nil_r. }
  apply cwp_bind, cwp_call; [by apply HC | by split |]. intros k. cbv zeta. rewrite Hf. cbn [fst snd]. set (w := Z.max 0 _). set (d2 := set_shown _ d1).
  assert (Hs2 : same_but t d d2) by (by apply same_elsewhere). apply cwp_bind, cwp_raise_if; [by split |]. intros Hw%Z.leb_gt. assert (Hle : 0 < w <= blen view) by lia.
  eapply cwp_mono.
  - apply (IH _ (mkFile (f_stat f) (f_data f ++ slice_to w view) false)); [done | cbn; by rewrite lookup_insert_eq |].
    unfold slice_from. rewrite length_drop. unfold blen in Hle. lia.
  - cbn beta. intros d3 r (Hs3 & Ho & Hr). split; [done |]. split; [done |]. intros Er. destruct (Hr Er) as (g & G1 & G2). exists g. split; [done |].
    rewrite G2. cbn. rewrite <- app_assoc. f_equal. symmetry. apply slice_split.
Qed.

Lemma sync_file_spec (f : File) (d1 : Folder) : (forall d2, same_but t d d2 -> C d2) -> same_but t d d1 -> shown d1 !! t = Some f ->
  cwp (sync_file t) (fun d2 r => same_but t d d2 /\ os_only r
    /\ (r = Ok tt -> exists g, shown d2 !! t = Some g /\ f_data g = f_data f /\ f_synced g = true)) C d1.
Proof.
  intros HC Hs Hf. apply cwp_call; [by apply HC | by split |]. intros _. rewrite Hf. cbn [fst snd]. split; [by apply same_elsewhere |]. split; [done |]. intros _.
  eexists. split; [cbn; by rewrite lookup_insert_eq |]. done.
Qed.

Lemma rename_spec (d1 : Folder) (g : File) : (forall d2, moved t name raw d d2 -> C d2) ->
  same_but t d d1 -> shown d1 !! t = Some g -> f_data g = raw -> f_synced g = true ->
  cwp (then! replace_file t name in sync_folder) (fun d2 r => wrote t name raw d d2 r /\ os_only r) C d1.
Proof.
  intros HC Hs Hg Hd Hsync. apply cwp_bind, cwp_call; [apply HC; by left | split; [by left | done] |]. intros _. rewrite Hg. cbn [fst snd].
  assert (K : forall n, n <> t -> <[name := g]> (delete t (shown d1)) !! n = <[name := g]> (shown d) !! n).
  { intros n Hn. destruct (decide (n = name)) as [-> | Hn2]; [by rewrite !lookup_insert_eq |]. rewrite !lookup_insert_ne, lookup_delete_ne by done. by apply Hs. }
  assert (H0 : replaced t name raw d (set_shown (<[name := g]> (delete t (shown d1))) d1) false).
  { exists g. split; [done |]. split; [done |]. intros n Hn. split; [by apply K |]. by apply Hs. }
  apply cwp_call; [apply HC; right; by exists false | split; [right; by exists false | done] |]. intros _. cbn [fst snd]. split; [| done]. exists g.
  split; [done |]. split; [done |]. intros n Hn. split; [by apply K | done].
Qed.

(** Removing the temporary name keeps what was written. *)
Lemma unlink_spec (r : result unit) (d1 : Folder) : (forall d2, moved t name raw d d2 -> C d2) -> wrote t name raw d d1 r ->
  cwp (suppress (unlink_file t)) (fun d2 x => x = Ok tt /\ wrote t name raw d d2 r) C d1.
Proof.
  intros HC Hw. pose proof (HC _ (wrote_moved _ _ _ _ _ _ Hw)) as HC1. apply cwp_try, cwp_call; [done | cbn; by apply cwp_ret |]. intros _.
  destruct (shown d1 !! t) eqn:Et; cbn [fst snd]; [| cbn; by apply cwp_ret]. split; [done |]. by apply (wrote_elsewhere t name raw d d1 r None).
Qed.

End Writing.
