(* ===== verification/Floors.v ===== *)
(** * Generation floors ([agentbox_runtime/waw_workspace_attestation.py])

    [WAWWorkspaceAttestationStore] keeps for every workspace the generation that
    was last started, with the binding and the host it was started for.  A start
    reserves its generation here before anything else happens, so that no
    generation is started twice, across crashes and power losses.

    The directory is a [Folder] and the outcomes of the calls to the operating
    system are events, as for the other stores; the lock of the directory makes an
    operation one transition.  The interpreter's recursion limit on a file that the
    store did not write is left out. *)

From stdpp Require Import sorting.
From S2P Require Import Prelude PyVal Json Unicode Control Canonical Crash Cgroup Folder.

Local Open Scope Z_scope.

Definition FLOOR_SCHEMA : pystr := $"waw-workspace-attestation-v1".
Definition FLOOR_MAX_BYTES : Z := 4096.

Definition floor_error (message : string) : exn := err WAWWorkspaceAttestationError message.

(** ** The record *)

(** [WAWWorkspaceAttestation] *)
Record Floor : Type := mkFloor {
  fl_workspace : pystr;
  fl_generation : Z;
  fl_revision : pystr;
  fl_digest : pystr;
  fl_host : pystr;
  fl_host_revision : pystr;
  fl_epoch : pystr
}.

#[export] Instance floor_eq_dec : EqDecision Floor.
Proof. solve_decision. Defined.

Definition is_invalid (field : string) : exn := floor_error (String.append field " is invalid").

(** [(?:aws|wri)_[0-9a-f]{32}] *)
Definition match_floor_id (s : pystr) : bool := match_id $"aws" s || match_id $"wri" s.

Definition validate_id (value : pyval) (field : string) : result pystr :=
  match value with
  | PStr s => run! raise_if (negb (match_floor_id s)) (is_invalid field) in Ok s
  | _ => Raise (is_invalid field)
  end.

Definition validate_digest (value : pyval) (field : string) : result pystr :=
  match value with
  | PStr s => run! raise_if (negb (match_hex 64 s)) (is_invalid field) in Ok s
  | _ => Raise (is_invalid field)
  end.

Definition validate_decimal (value : pyval) (field : string) : result pystr :=
  match value with
  | PStr s => run! raise_if (negb (match_pos_decimal s) || (MAX_U64 <? digits_value s)) (is_invalid field) in Ok s
  | _ => Raise (is_invalid field)
  end.

(** [type(generation) is not int or not 1 <= generation <= _MAX_U64] *)
Definition validate_generation (value : pyval) (message : string) : result Z :=
  match value with
  | PInt z => run! raise_if (negb (in_range 1 z MAX_U64)) (floor_error message) in Ok z
  | _ => Raise (floor_error message)
  end.

(** The record that [_write_locked] prints, its keys sorted *)
Definition floor_record (a : Floor) : pydict :=
  [($"binding_digest", PStr (fl_digest a)); ($"binding_revision", PStr (fl_revision a)); ($"min_generation", PInt (fl_generation a));
   ($"runtime_epoch", PStr (fl_epoch a)); ($"runtime_host_installation_id", PStr (fl_host a));
   ($"runtime_host_installation_revision", PStr (fl_host_revision a)); ($"schema_version", PStr FLOOR_SCHEMA); ($"workspace_id", PStr (fl_workspace a))].

Definition floor_bytes (a : Floor) : result bytes := let! t := dumps (PDict (floor_record a)) in encode_ascii t.

Definition FLOOR_FIELDS : list pystr :=
  [$"schema_version"; $"workspace_id"; $"min_generation"; $"binding_revision"; $"binding_digest"; $"runtime_host_installation_id";
   $"runtime_host_installation_revision"; $"runtime_epoch"].

(** An object of [json.loads] without a hook: the last of equal keys counts. *)
Definition plain_object (st : unit) (pairs : list (pystr * pyval)) : result (unit * pyval) :=
  Ok (tt, PDict (fold_left (fun d kv => dset d (fst kv) (snd kv)) pairs [])).

Definition loads_floor (raw : bytes) : result pyval :=
  match utf8_decode raw with
  | None => Raise (err UnicodeDecodeError "invalid data")
  | Some text => let! '(_, v) := loads default_number default_constant plain_object tt text in Ok v
  end.

(** The lines of [_read_locked] after the file was read *)
Definition parse_floor (workspace_id : pystr) (raw : bytes) : result Floor :=
  let! value := except_as (loads_floor raw) [UnicodeDecodeError; JSONDecodeError; PyTypeError; PyValueError] (floor_error "attestation JSON is invalid") in
  match value with
  | PDict d =>
      run! raise_if (negb (keys_equal (dkeys d) FLOOR_FIELDS)) (floor_error "attestation fields are invalid") in
      run! raise_if (negb (scalar_eqb (value_of d $"schema_version") (PStr FLOOR_SCHEMA)) || negb (scalar_eqb (value_of d $"workspace_id") (PStr workspace_id)))
             (floor_error "attestation identity is invalid") in
      let! generation := validate_generation (value_of d $"min_generation") "attestation generation is invalid" in
      let! revision := validate_decimal (value_of d $"binding_revision") "binding_revision" in
      let! digest := validate_digest (value_of d $"binding_digest") "binding_digest" in
      let! host := validate_id (value_of d $"runtime_host_installation_id") "runtime_host_installation_id" in
      let! host_revision := validate_decimal (value_of d $"runtime_host_installation_revision") "runtime_host_installation_revision" in
      let! epoch := validate_decimal (value_of d $"runtime_epoch") "runtime_epoch" in
      Ok (mkFloor workspace_id generation revision digest host host_revision epoch)
  | _ => Raise (floor_error "attestation fields are invalid")
  end.

(** ** The store *)

(** [_expected_uid] and [_expected_gid] *)
Record FloorStore : Type := mkFloorStore { floor_uid : Z; floor_gid : Z }.

(** [__init__]; the directory is a [Path]. *)
Definition new_floor_store (uid gid : pyval) : result FloorStore :=
  match uid with
  | PInt u =>
      run! raise_if (u <? 0) (err PyValueError "expected_uid must be a non-negative integer") in
      match gid with
      | PInt g => run! raise_if (g <? 0) (err PyValueError "expected_gid must be a non-negative integer") in Ok (mkFloorStore u g)
      | _ => Raise (err PyValueError "expected_gid must be a non-negative integer")
      end
  | _ => Raise (err PyValueError "expected_uid must be a non-negative integer")
  end.

Definition floor_name (workspace_id : pystr) : pystr := workspace_id ++ $".json".

Local Abbreviation IO := (io Folder).

Section Store.
Context (store : FloorStore) (env : Surroundings).

Definition floor_owned (s : Stat) : bool := (st_uid s =? floor_uid store) && (st_gid s =? floor_gid store).

(** [_locked_directory] around a body *)
Definition locked {A} (body : IO A) : IO A :=
  io! details := io_try (observe (listed env)) [PyOSError] (io_raise (floor_error "attestation directory is unavailable")) in
  then! io_raise_if (negb (is_dir details) || is_link details || negb (floor_owned details) || negb (st_mode details =? 448))
          (floor_error "attestation directory provenance is invalid") in
  let unlocked : IO A := io_raise (floor_error "attestation directory cannot be locked") in
  io! fd := attempt (observe tt) in
  match fd with
  | Raise _ => unlocked
  | Ok _ =>
      io! lock := attempt (io! o := observe (opened env) in
                           then! io_raise_if (negb (st_dev o =? st_dev details) || negb (st_ino o =? st_ino details)
                                              || negb (floor_owned o) || negb (st_mode o =? 448))
                                   (floor_error "attestation directory changed during open") in
                           observe tt) in
      match lock with
      | Raise _ => then! suppress (observe tt) in unlocked
      | Ok _ => io_finally body (then! suppress (observe tt) in observe tt)
      end
  end.

(** [_read_bounded] *)
Definition read_floor_bytes (f : File) : IO bytes :=
  io! raw := read_loop 1024 (length (f_data f) + 2) (f_data f) (FLOOR_MAX_BYTES + 1) [] in
  then! io_raise_if (FLOOR_MAX_BYTES <? blen raw) (floor_error "attestation file is oversized") in
  io_ret raw.

(** The checks of [_read_locked] on the opened file *)
Definition bad_floor_file (f : File) : bool :=
  negb (is_reg (f_stat f)) || negb (floor_owned (f_stat f)) || negb (st_mode (f_stat f) =? 384) || (FLOOR_MAX_BYTES <? blen (f_data f)).

(** [_read_locked] *)
Definition read_floor (workspace_id : pystr) : IO (option Floor) :=
  io! found := io_try (io_try (io! f := open_file (floor_name workspace_id) in io_ret (Some f)) [PyFileNotFoundError] (io_ret None))
                 [PyOSError] (io_raise (floor_error "attestation file cannot be opened")) in
  match found with
  | None => io_ret None
  | Some f =>
      io! raw := io_finally
        (io_try (io! details := observe f in
                 then! io_raise_if (bad_floor_file details) (floor_error "attestation file provenance is invalid") in
                 read_floor_bytes f)
           [PyOSError] (io_raise (floor_error "attestation file cannot be read")))
        close_file in
      io_lift (rmap Some (parse_floor workspace_id raw))
  end.

(** [_write_locked] *)
Definition write_floor (a : Floor) : IO unit :=
  let name := $".attestation." ++ temp_token env ++ $".tmp" in
  io! payload := io_lift (floor_bytes a) in
  io_finally
    (io_try (then! create_file name (created env) in
             then! io_finally (then! write_view (S (length payload)) name payload in sync_file name) close_file in
             then! replace_file name (floor_name (fl_workspace a)) in
             sync_folder)
       [PyOSError; PyValueError] (io_raise (floor_error "attestation update could not be committed")))
    (suppress (unlink_file name)).

(** ** Operations *)

Definition read (workspace_id : pyval) : IO (option Floor) :=
  io! w := io_lift (validate_id workspace_id "workspace_id") in locked (read_floor w).

(** The checks of [advance] against the current floor *)
Definition check_advance (current : option Floor) (next : Floor) : result unit :=
  match current with
  | Some c =>
      run! raise_if (fl_generation next <=? fl_generation c) (floor_error "generation floor would move backwards") in
      raise_if (negb (str_eqb (fl_revision next) (fl_revision c)) || negb (str_eqb (fl_digest next) (fl_digest c)) || negb (str_eqb (fl_host next) (fl_host c))
                || negb (str_eqb (fl_host_revision next) (fl_host_revision c)) || negb (str_eqb (fl_epoch next) (fl_epoch c)))
        (floor_error "workspace provenance changed")
  | None => raise_if (negb (fl_generation next =? 1)) (floor_error "missing first-generation attestation")
  end.

Definition advance (workspace_id generation binding_revision binding_digest host host_revision runtime_epoch : pyval) : IO Floor :=
  io! w := io_lift (validate_id workspace_id "workspace_id") in
  io! g := io_lift (validate_generation generation "generation is invalid") in
  io! r := io_lift (validate_decimal binding_revision "binding_revision") in
  io! b := io_lift (validate_digest binding_digest "binding_digest") in
  io! h := io_lift (validate_id host "runtime_host_installation_id") in
  io! hr := io_lift (validate_decimal host_revision "runtime_host_installation_revision") in
  io! e := io_lift (validate_decimal runtime_epoch "runtime_epoch") in
  locked (
    io! current := read_floor w in
    let record := mkFloor w g r b h hr e in
    then! io_lift (check_advance current record) in
    then! write_floor record in
    io_ret record).

(** [replace(expected, runtime_epoch=epoch)] *)
Definition with_epoch (epoch : pystr) (a : Floor) : Floor :=
  mkFloor (fl_workspace a) (fl_generation a) (fl_revision a) (fl_digest a) (fl_host a) (fl_host_revision a) epoch.

(** The evidence of [recover_epoch] does not match the floor. *)
Definition unmatched (expected : Floor) (empty : Cgroup) : bool :=
  negb (str_eqb (cg_workspace_id empty) (fl_workspace expected)) || negb (cg_generation empty =? fl_generation expected)
  || (digits_value (cg_runtime_epoch empty) <=? digits_value (fl_epoch expected))
  || negb (str_eqb (cg_cleanup_state empty) $"EMPTY_DURABLE") || negb (str_eqb (cg_last_populated empty) $"0")
  || negb (bool_decide (cg_attachment_leaves empty = [])).

Definition recover_epoch `{Rfc8785} (expected : Floor) (empty : Cgroup) : IO Floor :=
  then! io_lift (validate_id (PStr (fl_workspace expected)) "workspace_id") in
  then! io_lift (validate_decimal (PStr (fl_epoch expected)) "runtime_epoch") in
  then! io_lift (except_as (encode_attestation empty) [WAWCgroupAttestationError] (floor_error "recovery evidence is malformed")) in
  then! io_raise_if (unmatched expected empty) (floor_error "recovery empty evidence does not match floor") in
  let recovered := with_epoch (cg_runtime_epoch empty) expected in
  locked (
    io! current := read_floor (fl_workspace expected) in
    if bool_decide (current = Some recovered) then io_ret recovered
    else
      then! io_raise_if (negb (bool_decide (current = Some expected))) (floor_error "recovery floor changed") in
      then! write_floor recovered in
      io_ret recovered).

End Store.

(** ** Lemmas: the record reads back *)

(** A decimal of 64 bits *)
Definition u64_text (s : pystr) : bool := match_pos_decimal s && (digits_value s <=? MAX_U64).

(** A floor whose fields the store has checked *)
Definition wf_floor (a : Floor) : bool :=
  match_floor_id (fl_workspace a) && in_range 1 (fl_generation a) MAX_U64 && u64_text (fl_revision a) && match_hex 64 (fl_digest a)
  && match_floor_id (fl_host a) && u64_text (fl_host_revision a) && u64_text (fl_epoch a).

Lemma validate_floor_id_ok (v : pyval) (f : string) (s : pystr) : validate_id v f = Ok s -> v = PStr s /\ match_floor_id s = true.
Proof. destruct v; try done. cbn. intros E. by apply rbind_ok in E as ([] & ?%raise_if_ok%negb_false_iff & <-%Ok_inj). Qed.

Lemma validate_digest_ok (v : pyval) (f : string) (s : pystr) : validate_digest v f = Ok s -> v = PStr s /\ match_hex 64 s = true.
Proof. destruct v; try done. cbn. intros E. by apply rbind_ok in E as ([] & ?%raise_if_ok%negb_false_iff & <-%Ok_inj). Qed.

Lemma validate_decimal_ok (v : pyval) (f : string) (s : pystr) : validate_decimal v f = Ok s -> v = PStr s /\ u64_text s = true.
Proof.
  destruct v; try done. cbn. intros E. apply rbind_ok in E as ([] & [H1%negb_false_iff H2]%raise_if_ok%orb_false_iff & <-%Ok_inj). split; [done |].
  unfold u64_text. rewrite H1. lia.
Qed.

Lemma validate_decimal_u64 (s : pystr) (f : string) : u64_text s = true -> validate_decimal (PStr s) f = Ok s.
Proof. intros [H1 H2]%andb_true_iff. cbn. rewrite H1. replace (MAX_U64 <? digits_value s) with false by lia. done. Qed.

Lemma validate_generation_ok (v : pyval) (m : string) (z : Z) : validate_generation v m = Ok z -> v = PInt z /\ in_range 1 z MAX_U64 = true.
Proof. destruct v; try done. cbn. intros E. by apply rbind_ok in E as ([] & ?%raise_if_ok%negb_false_iff & <-%Ok_inj). Qed.

Lemma floor_id_ascii (s : pystr) : match_floor_id s = true -> forallb is_ascii s = true.
Proof. intros [H | H]%orb_true_iff; [apply (class_id $"aws") | apply (class_id $"wri")]; done. Qed.

Lemma floor_u64_ascii (s : pystr) : u64_text s = true -> forallb is_ascii s = true.
Proof. intros [H _]%andb_true_iff. by apply class_decimal. Qed.

Lemma plain_object_ok (d : pydict) : NoDup (dkeys d) -> plain_object tt d = Ok (tt, PDict d).
Proof.
  intros Hd. unfold plain_object. assert (K : forall e acc, NoDup (dkeys (acc ++ e)) -> fold_left (fun d (kv : pystr * pyval) => dset d (fst kv) (snd kv)) e acc = acc ++ e).
  { induction e as [|[k v] e IH]; intros acc Hn; [by rewrite app_nil_r |]. cbn [fold_left fst snd].
    rewrite dkeys_dset_new; [rewrite IH; by rewrite <- app_assoc |]. unfold dkeys in Hn. rewrite map_app in Hn. cbn in Hn.
    apply not_true_iff_false. intros (x & Hx & ->%str_eqb_eq)%existsb_exists. apply NoDup_app in Hn as (_ & Hn & _). apply (Hn x); [by apply list_elem_of_In | left]. }
  by rewrite (K d []).
Qed.

Lemma floor_ascii (a : Floor) : wf_floor a = true -> texts is_ascii (PDict (floor_record a)) = true.
Proof.
  unfold wf_floor. rewrite !andb_true_iff. intros ((((((Hw%floor_id_ascii & _) & Hr%floor_u64_ascii) & [_ Hd%class_hex]%andb_true_iff) & Hh%floor_id_ascii) & Hhr%floor_u64_ascii) & He%floor_u64_ascii).
  cbn [texts floor_record forallb fst snd]. by rewrite Hw, Hr, Hd, Hh, Hhr, He.
Qed.

(** The text of a record has one byte per character. *)
Lemma floor_text (a : Floor) : wf_floor a = true ->
  exists t b, dumps (PDict (floor_record a)) = Ok t /\ floor_bytes a = Ok b /\ utf8_decode b = Some t.
Proof.
  intros Hw%floor_ascii. destruct (texts_dumps _ Hw) as (t & Et & Ht). assert (Hz : forallb (Z.leb 0) t = true /\ forallb (fun c => c <? 128) t = true).
  { split; apply forallb_forall; intros c Hc; rewrite forallb_forall in Ht; specialize (Ht c Hc); unfold is_ascii, in_range in Ht; lia. }
  destruct (ascii_encodes t (proj1 Hz) (proj2 Hz)) as (b & Eb & _). exists t, b. split; [done |]. split; [| by apply utf8_decode_encode].
  unfold floor_bytes. rewrite Et. cbn [rbind]. unfold encode_ascii. by rewrite Eb, (proj2 Hz).
Qed.

Lemma floor_reads_back (a : Floor) (raw : bytes) : wf_floor a = true -> floor_bytes a = Ok raw -> parse_floor (fl_workspace a) raw = Ok a.
Proof.
  intros Hw Er. destruct (floor_text a Hw) as (t & b & Et & Eb & Ed). assert (b = raw) as -> by congruence.
  unfold parse_floor, loads_floor. rewrite Ed, (loads_dumps _ _ _ _ _ _ (texts_printable _ (floor_ascii a Hw)) Et), read_back_plain by (apply plain_object_ok || by vm_compute).
  cbn [rbind except_as]. assert (keys_equal (dkeys (floor_record a)) FLOOR_FIELDS = true) as -> by (vm_compute; reflexivity).
  change (value_of (floor_record a) $"schema_version") with (PStr FLOOR_SCHEMA). change (value_of (floor_record a) $"workspace_id") with (PStr (fl_workspace a)).
  change (value_of (floor_record a) $"min_generation") with (PInt (fl_generation a)). change (value_of (floor_record a) $"binding_revision") with (PStr (fl_revision a)).
  change (value_of (floor_record a) $"binding_digest") with (PStr (fl_digest a)). change (value_of (floor_record a) $"runtime_host_installation_id") with (PStr (fl_host a)).
  change (value_of (floor_record a) $"runtime_host_installation_revision") with (PStr (fl_host_revision a)).
  change (value_of (floor_record a) $"runtime_epoch") with (PStr (fl_epoch a)).
  unfold wf_floor in Hw. rewrite !andb_true_iff in Hw. destruct Hw as ((((((_ & Hg) & Hr) & Hd) & Hh) & Hhr) & He).
  cbn [scalar_eqb]. rewrite !(proj2 (str_eqb_eq _ _) eq_refl). cbn [negb orb raise_if rbind]. unfold validate_generation. rewrite Hg.
  cbn [negb raise_if rbind]. rewrite !validate_decimal_u64 by done. cbn [rbind]. unfold validate_digest, validate_id. rewrite Hd, Hh.
  cbn [negb raise_if rbind]. by destruct a.
Qed.

(** What is read is a checked floor. *)
Lemma parse_floor_wf (w : pystr) (raw : bytes) (a : Floor) : match_floor_id w = true -> parse_floor w raw = Ok a -> wf_floor a = true /\ fl_workspace a = w.
Proof.
  intros Hw E. unfold parse_floor in E. apply rbind_ok in E as (v & _ & E). destruct v as [| | | | | | | d]; try done. do 2 (apply rbind_ok in E as ([] & _ & E)).
  apply rbind_ok in E as (g & [_ Hg]%validate_generation_ok & E). apply rbind_ok in E as (r & [_ Hr]%validate_decimal_ok & E).
  apply rbind_ok in E as (x & [_ Hx]%validate_digest_ok & E). apply rbind_ok in E as (h & [_ Hh]%validate_floor_id_ok & E).
  apply rbind_ok in E as (hr & [_ Hhr]%validate_decimal_ok & E). apply rbind_ok in E as (e & [_ He]%validate_decimal_ok & E). apply Ok_inj in E as <-.
  split; [| done]. unfold wf_floor. cbn. by rewrite !andb_true_iff.
Qed.

(** ** Specifications *)

(** What [_read_locked] found *)
Definition found_floor (d : Folder) (w : pystr) (o : option Floor) : Prop :=
  match o with
  | None => shown d !! floor_name w = None
  | Some a => exists f, shown d !! floor_name w = Some f /\ parse_floor w (f_data f) = Ok a
  end.

Section Specs.
Context (store : FloorStore) (env : Surroundings).
Implicit Types (d : Folder) (C : Folder -> Prop).

(** The lock and its release add no change of their own. *)
Lemma locked_folder_spec {A} (body : io Folder A) (Q : Folder -> result A -> Prop) C d :
  C d -> (forall e, Q d (Raise e)) -> (forall d1 r, Q d1 r -> C d1 /\ forall e, Q d1 (Raise e)) -> cwp body Q C d -> cwp (locked store env body) Q C d.
Proof.
  intros HC HQ HQC Hbody. unfold locked. apply cwp_bind, cwp_try, cwp_observe; [done | by apply cwp_raise |].
  apply cwp_bind, cwp_raise_if; [done |]. intros _. cbv zeta. apply cwp_bind, cwp_attempt, cwp_observe; [done | by apply cwp_raise |].
  assert (Hun : forall e : exn, cwp (A := A) (then! suppress (observe tt) in io_raise (floor_error "attestation directory cannot be locked")) Q C d).
  { intros _. apply cwp_bind, cwp_try, cwp_observe; [done | cbn; by apply cwp_ret, cwp_raise | by apply cwp_raise]. }
  apply cwp_bind, cwp_attempt, cwp_bind, cwp_observe; [done | by apply Hun, os_error |]. apply cwp_bind, cwp_raise_if; [by apply Hun, os_error |]. intros _.
  apply cwp_observe; [done | by apply Hun, os_error |]. apply cwp_finally. eapply cwp_mono; [exact Hbody |]. cbn beta. intros d1 r Hr.
  destruct (HQC d1 r Hr) as [H1 H2]. apply cwp_bind, cwp_try, cwp_observe; [done | cbn; apply cwp_ret, cwp_observe; auto | apply cwp_observe; auto].
Qed.

Lemma read_floor_bytes_spec (f : File) C d : C d -> cwp (read_floor_bytes f) (fun d1 r => d1 = d /\ forall raw, r = Ok raw -> raw = f_data f) C d.
Proof.
  intros HC. apply cwp_bind. eapply cwp_mono; [apply (read_loop_exact 1024 _ (f_data f)); [done | lia | unfold FLOOR_MAX_BYTES; lia | lia] |].
  cbn beta. intros d1 r [-> [-> | ->]]; [| done]. cbn [app]. apply cwp_bind, cwp_raise_if; [done |]. intros Hlen%Z.ltb_ge. apply cwp_ret. split; [done |].
  intros raw [= <-]. unfold slice_to, blen, FLOOR_MAX_BYTES in *. apply take_ge. rewrite length_take in Hlen. lia.
Qed.

Lemma read_floor_spec (w : pystr) C d : C d -> cwp (read_floor store w) (fun d1 r => d1 = d /\ forall o, r = Ok o -> found_floor d w o) C d.
Proof.
  intros HC. apply cwp_bind, cwp_try, cwp_try, cwp_bind, cwp_call; [done | cbn; by apply cwp_raise |]. intros _. cbn [fst snd].
  destruct (shown d !! floor_name w) as [f |] eqn:Ef.
  - destruct (is_link (f_stat f)); [cbn; by apply cwp_raise |]. apply cwp_ret. apply cwp_bind, cwp_finally, cwp_try.
    assert (K : forall r, (forall raw, r = Ok raw -> raw = f_data f) -> cwp close_file (fun d2 rc =>
      match (match rc with Ok _ => r | Raise e => Raise e end) with
      | Ok raw => cwp (io_lift (rmap Some (parse_floor w raw))) (fun d1 r => d1 = d /\ forall o, r = Ok o -> found_floor d w o) C d2
      | Raise e => d2 = d /\ forall o, Raise e = Ok o -> found_floor d w o
      end) C d).
    { intros r Hr. apply cwp_observe; [done | by split |]. destruct r as [raw | e]; [| by split]. apply cwp_lift. split; [done |]. intros o Ho.
      rewrite (Hr raw eq_refl) in Ho. destruct (parse_floor w (f_data f)) as [a |] eqn:Ea; [| done]. injection Ho as <-. by exists f. }
    apply cwp_bind, cwp_observe; [done | cbn; by apply cwp_raise, K |]. apply cwp_bind, cwp_raise_if; [cbn; by apply K |]. intros _.
    eapply cwp_mono; [by apply read_floor_bytes_spec |]. cbn beta. intros d1 r [-> Hr]. destruct r as [raw | e]; [by apply K |].
    destruct (existsb _ _); [by apply cwp_raise, K | by apply K].
  - cbn. apply cwp_ret, cwp_ret. split; [done |]. by intros o [= <-].
Qed.

(** The temporary name of [_write_locked] *)
Definition floor_temp : pystr := $".attestation." ++ temp_token env ++ $".tmp".

Lemma write_floor_spec (a : Floor) (raw : bytes) d : floor_bytes a = Ok raw ->
  cwp (write_floor env a) (wrote floor_temp (floor_name (fl_workspace a)) raw d) (moved floor_temp (floor_name (fl_workspace a)) raw d) d.
Proof.
  intros Er. unfold write_floor. apply cwp_bind, cwp_lift. rewrite Er. fold floor_temp. set (t := floor_temp). set (name := floor_name _). set (C := moved t name raw d).
  assert (Hs : forall d2, same_but t d d2 -> C d2) by (by left). assert (Hd : same_but t d d) by done. assert (Hm : forall d2, C d2 -> C d2) by done.
  apply cwp_finally. set (Q := fun d1 r => wrote t name raw d d1 r).
  assert (Hclean : forall d1 r, Q d1 r -> cwp (suppress (unlink_file t)) (fun d2 rc => Q d2 (match rc with Ok _ => r | Raise e => Raise e end)) C d1).
  { intros d1 r Hr. eapply cwp_mono; [by apply (unlink_spec t name raw d C r d1) |]. cbn beta. by intros d2 x [-> H2]. }
  eapply cwp_mono; [| exact Hclean]. apply cwp_try.
  set (Q' := fun (d1 : Folder) (r : result unit) => match r with Ok _ => Q d1 r | Raise e => _ end).
  assert (HQ' : forall d1 r, Q d1 r -> Q' d1 r).
  { intros d1 [u | e] Hr; [exact Hr |]. unfold Q'. destruct (existsb _ _); [by apply cwp_raise | exact Hr]. }
  assert (Hstay : forall d1 e, same_but t d d1 -> Q' d1 (Raise e)) by (intros d1 e H1; apply HQ'; by left).
  apply cwp_bind. eapply cwp_mono; [apply (create_file_spec t d C (created env)); by apply Hs |]. cbn beta. intros d1 r (Hs1 & _ & Hf). destruct r as [[] | e]; [| by apply Hstay].
  specialize (Hf eq_refl). apply cwp_bind, cwp_finally, cwp_bind. eapply cwp_mono; [by apply (write_view_spec t d C _ raw (mkFile (created env) [] false)); [| | | lia] |].
  assert (Hfail : forall d3 e, same_but t d d3 -> cwp close_file (fun d4 rc => match (match rc with Ok _ => Raise e | Raise e0 => Raise e0 end : result unit) with
      | Ok _ => cwp (then! replace_file t name in sync_folder) Q' C d4 | Raise e0 => Q' d4 (Raise e0) end) C d3).
  { intros d3 e H3. apply cwp_observe; [by apply Hs | by apply Hstay | by apply Hstay]. }
  cbn beta. intros d2 r (Hs2 & _ & Hg). destruct r as [[] | e]; [| by apply Hfail]. destruct (Hg eq_refl) as (g & Eg & Dg). cbn [f_data app] in Dg.
  eapply cwp_mono; [by apply (sync_file_spec t d C g) |]. cbn beta. intros d3 r (Hs3 & _ & Hy). destruct r as [[] | e]; [| by apply Hfail].
  destruct (Hy eq_refl) as (y & Ey & Dy & Sy). apply cwp_observe; [by apply Hs | by apply Hstay |].
  eapply cwp_mono; [apply (rename_spec t name raw d C d3 y); [done | done | done | congruence | done] |]. cbn beta. intros d4 r [Hw _]. by apply HQ'.
Qed.

End Specs.

(** ** The invariant *)

(** The floors of one workspace for one binding and host *)
Definition same_origin (a b : Floor) : Prop :=
  fl_workspace a = fl_workspace b /\ fl_revision a = fl_revision b /\ fl_digest a = fl_digest b /\ fl_host a = fl_host b /\ fl_host_revision a = fl_host_revision b.

Definition no_higher (a b : Floor) : Prop := same_origin a b /\ fl_generation a <= fl_generation b /\ digits_value (fl_epoch a) <= digits_value (fl_epoch b).

Definition no_higher_opt (o p : option Floor) : Prop :=
  match o, p with
  | None, _ => True
  | Some a, Some b => no_higher a b
  | Some _, None => False
  end.

#[export] Instance no_higher_preorder : PreOrder no_higher_opt.
Proof.
  split; [intros [a |]; [| done]; cbn; repeat split; lia |]. intros [a |] [b |] [c |]; cbn; try done. unfold no_higher, same_origin.
  intros ((? & ? & ? & ? & ?) & ? & ?) ((? & ? & ? & ? & ?) & ? & ?). repeat split; try congruence; lia.
Qed.

Definition holds_floor (a : Floor) (f : File) : Prop := wf_floor a = true /\ floor_bytes a = Ok (f_data f) /\ f_synced f = true.

Definition shows_floor (o : option File) (oa : option Floor) : Prop :=
  match o, oa with
  | None, None => True
  | Some f, Some a => holds_floor a f
  | _, _ => False
  end.

(** [now] is the floor that the file of [w] shows, [safe] the one that is durable. *)
Definition tracks_floor (w : pystr) (d : Folder) (now safe : option Floor) : Prop :=
  shows_floor (shown d !! floor_name w) now /\ shows_floor (kept d !! floor_name w) safe /\ no_higher_opt safe now
  /\ forall a, now = Some a -> fl_workspace a = w.

(** Nothing was taken back. *)
Definition endures_floor (w : pystr) (now safe : option Floor) (d1 : Folder) : Prop :=
  exists now1 safe1, tracks_floor w d1 now1 safe1 /\ no_higher_opt now now1 /\ no_higher_opt safe safe1.

Section Invariant.
Context (w : pystr).
Hypothesis Hw : match_floor_id w = true.
Implicit Types (d : Folder) (now safe : option Floor).

Lemma endures_refl d now safe : tracks_floor w d now safe -> endures_floor w now safe d.
Proof. intros Ht. by exists now, safe. Qed.

Lemma found_now d now safe o : tracks_floor w d now safe -> found_floor d w o -> o = now.
Proof.
  intros (Hs & _ & _ & Hn) Hf. unfold found_floor, shows_floor in *. destruct o as [a |].
  - destruct Hf as (f & Ef & Hp). rewrite Ef in Hs. destruct now as [b |]; [| done]. destruct Hs as (Hb & Hr & _).
    pose proof (floor_reads_back b _ Hb Hr) as E. rewrite (Hn b eq_refl) in E. congruence.
  - rewrite Hf in Hs. by destruct now.
Qed.

Lemma floor_name_start : exists c r, floor_name w = c :: r /\ c <> 46.
Proof.
  unfold floor_name. apply orb_true_iff in Hw as [H | H]; unfold match_id in H; apply andb_true_iff in H as [[H%str_eqb_eq _]%andb_true_iff _];
    (destruct w as [|x r]; [done |]); cbn in H; injection H as -> _; by do 2 eexists.
Qed.

Lemma floor_not_temp (rest : pystr) : floor_name w <> $"." ++ rest.
Proof. destruct floor_name_start as (c & r & -> & Hc). intros [= E _]. by apply Hc. Qed.

Lemma floor_name_inj (v : pystr) : floor_name v = floor_name w -> v = w.
Proof. unfold floor_name. by apply app_inj_2. Qed.

(** What a replacement leaves of the floor of [w] *)
Lemma moved_floor (a : Floor) (rest : pystr) (raw : bytes) d d1 now safe : tracks_floor w d now safe -> wf_floor a = true -> floor_bytes a = Ok raw ->
  (fl_workspace a = w -> no_higher_opt now (Some a)) -> moved ($"." ++ rest) (floor_name (fl_workspace a)) raw d d1 -> endures_floor w now safe d1.
Proof.
  intros Ht Ha Hraw Hn [Hs | (fl & f & Hd & Hsync & Hall)]; pose proof Ht as (H1 & H2 & H3 & H4).
  - exists now, safe. split; [| done]. destruct (Hs _ (floor_not_temp rest)) as [E1 E2]. unfold tracks_floor. by rewrite E1, E2.
  - destruct (Hall _ (floor_not_temp rest)) as [E1 E2]. destruct (decide (fl_workspace a = w)) as [Ew | Ew].
    + specialize (Hn Ew). rewrite Ew, lookup_insert_eq in E1. assert (Hf : holds_floor a f) by (split; [done |]; by rewrite Hd).
      assert (Hsa : no_higher_opt safe (Some a)) by (by transitivity now). destruct fl.
      * exists (Some a), (Some a). split; [| done]. unfold tracks_floor. rewrite E2, E1. split; [done |]. split; [done |]. split; [done |]. by intros b [= <-].
      * exists (Some a), safe. split; [| done]. unfold tracks_floor. rewrite E2, E1. split; [done |]. split; [done |]. split; [done |]. by intros b [= <-].
    + rewrite lookup_insert_ne in E1 by (intros ?%floor_name_inj; done). destruct fl.
      * exists now, now. split; [| done]. unfold tracks_floor. by rewrite E2, E1.
      * exists now, safe. split; [| done]. unfold tracks_floor. by rewrite E2, E1.
Qed.

(** A replacement that was made durable *)
Lemma written_floor (a : Floor) (rest : pystr) (raw : bytes) d d1 : wf_floor a = true -> floor_bytes a = Ok raw -> fl_workspace a = w ->
  replaced ($"." ++ rest) (floor_name (fl_workspace a)) raw d d1 true -> tracks_floor w d1 (Some a) (Some a).
Proof.
  intros Ha Hraw Ew (f & Hd & Hsync & Hall). destruct (Hall _ (floor_not_temp rest)) as [E1 E2]. rewrite Ew, lookup_insert_eq in E1.
  assert (Hf : holds_floor a f) by (split; [done |]; by rewrite Hd). unfold tracks_floor. rewrite E2, E1. split; [done |]. split; [done |]. split; [done |].
  by intros b [= <-].
Qed.

(** The part of an operation under the lock that writes [a] *)
Lemma write_floor_endures (env : Surroundings) (a : Floor) d now safe : tracks_floor w d now safe -> wf_floor a = true ->
  (fl_workspace a = w -> no_higher_opt now (Some a)) ->
  cwp (write_floor env a) (fun d1 r => endures_floor w now safe d1 /\ (r = Ok tt -> fl_workspace a = w -> tracks_floor w d1 (Some a) (Some a)))
    (endures_floor w now safe) d.
Proof.
  intros Ht Ha Hn. destruct (floor_text a Ha) as (_ & raw & _ & Hraw & _).
  assert (K : forall d1, moved (floor_temp env) (floor_name (fl_workspace a)) raw d d1 -> endures_floor w now safe d1).
  { intros d1 Hm. by apply (moved_floor a ($"attestation." ++ temp_token env ++ $".tmp") raw d d1). }
  eapply cwp_conseq; [by apply (write_floor_spec env a raw d) | exact K |]. intros d1 r Hr. split; [by apply K, (wrote_moved _ _ _ _ _ r) |].
  intros -> Ew. by apply (written_floor a ($"attestation." ++ temp_token env ++ $".tmp") raw d d1).
Qed.

(** What an operation leaves, and what it means that it returned [a] *)
Definition advanced_floor now safe (d1 : Folder) (r : result Floor) : Prop :=
  endures_floor w now safe d1 /\ forall a, r = Ok a -> fl_workspace a = w ->
    tracks_floor w d1 (Some a) (Some a) /\ forall b, now = Some b -> same_origin b a /\ fl_generation b < fl_generation a.

Lemma check_advance_ok (o : option Floor) (a : Floor) (u : unit) : check_advance o a = Ok u -> (forall b, o = Some b -> fl_workspace b = fl_workspace a) ->
  no_higher_opt o (Some a) /\ forall b, o = Some b -> same_origin b a /\ fl_generation b < fl_generation a.
Proof.
  intros E Ho. destruct o as [b |]; [| done]. specialize (Ho b eq_refl). cbn in E. apply rbind_ok in E as ([] & Hg%raise_if_ok%Z.leb_gt & E%raise_if_ok).
  repeat match goal with X : _ || _ = false |- _ => apply orb_false_iff in X as [X ?] end.
  repeat match goal with X : negb (str_eqb _ _) = false |- _ => apply negb_false_iff, str_eqb_eq in X end.
  assert (same_origin b a) by (by repeat split). split; [| intros c [= <-]; by split]. cbn. split; [done |]. split; [lia |]. by replace (fl_epoch a) with (fl_epoch b).
Qed.

Lemma advance_spec (store : FloorStore) (env : Surroundings) (v g r b h hr e : pyval) d now safe : tracks_floor w d now safe ->
  cwp (advance store env v g r b h hr e) (advanced_floor now safe) (endures_floor w now safe) d.
Proof.
  intros Ht. pose proof (endures_refl _ _ _ Ht) as He. assert (HR : forall e, advanced_floor now safe d (Raise e)) by (by split). unfold advance.
  do 7 (apply cwp_bind, cwp_lift; match goal with |- context [match ?c with Ok _ => _ | Raise _ => _ end] => destruct c as [? |] eqn:?; [| done] end).
  match goal with X : validate_id v _ = Ok ?x |- _ => rename x into v'; apply validate_floor_id_ok in X as [_ X] end.
  match goal with X : validate_generation g _ = Ok ?x |- _ => apply validate_generation_ok in X as [_ X] end.
  match goal with X : validate_digest b _ = Ok ?x |- _ => apply validate_digest_ok in X as [_ X] end.
  match goal with X : validate_id h _ = Ok ?x |- _ => apply validate_floor_id_ok in X as [_ X] end.
  repeat match goal with X : validate_decimal _ _ = Ok ?x |- _ => apply validate_decimal_ok in X as [_ X] end.
  set (a := mkFloor _ _ _ _ _ _ _). assert (Ha : wf_floor a = true) by (unfold wf_floor; cbn; by rewrite !andb_true_iff).
  apply locked_folder_spec; [done | done | intros d1 x [H1 _]; by split |].
  apply cwp_bind. eapply cwp_mono; [by apply read_floor_spec |]. cbn beta. intros d1 x [-> Hf]. destruct x as [o | ex]; [| done]. specialize (Hf o eq_refl).
  cbv zeta. fold a. apply cwp_bind, cwp_lift. destruct (check_advance o a) as [u | ex] eqn:Ec; [| done].
  assert (Ho : fl_workspace a = w -> o = now) by (intros Ew; apply (found_now d now safe); [done |]; by rewrite <- Ew).
  assert (K : fl_workspace a = w -> no_higher_opt now (Some a) /\ forall b, now = Some b -> same_origin b a /\ fl_generation b < fl_generation a).
  { intros Ew. rewrite <- (Ho Ew). apply (check_advance_ok o a u Ec). intros c Hc. rewrite Ew. destruct Ht as (_ & _ & _ & Hn). apply Hn. by rewrite <- Ho. }
  apply cwp_bind. eapply cwp_mono; [apply (write_floor_endures env a d now safe Ht Ha); intros Ew; apply (K Ew) |]. cbn beta. intros d1 x [H1 H2].
  destruct x as [[] | ex]; [| by split]. apply cwp_ret. split; [done |]. intros c [= <-] Ew. split; [by apply H2 | by apply K].
Qed.

Lemma recover_epoch_spec `{Rfc8785Laws} (store : FloorStore) (env : Surroundings) (expected : Floor) (empty : Cgroup) d now safe : tracks_floor w d now safe ->
  cwp (recover_epoch store env expected empty) (fun d1 _ => endures_floor w now safe d1) (endures_floor w now safe) d.
Proof.
  intros Ht. pose proof (endures_refl _ _ _ Ht) as He. unfold recover_epoch.
  apply cwp_bind, cwp_lift. destruct (validate_id (PStr (fl_workspace expected)) "workspace_id") as [v |] eqn:Ev; [| done]. apply validate_floor_id_ok in Ev as [[= <-] Hv].
  apply cwp_bind, cwp_lift. destruct (validate_decimal _ _) as [e |] eqn:Ee; [| done]. apply cwp_bind, cwp_lift. destruct (except_as _ _ _) as [raw |] eqn:Er; [| done].
  apply except_as_ok in Er. destruct (encode_ok empty raw Er) as (Hval & _ & _). apply cwp_bind, cwp_raise_if; [done |]. intros Hm. cbv zeta.
  set (recovered := with_epoch _ expected). apply locked_folder_spec; [done | done | done |].
  apply cwp_bind. eapply cwp_mono; [by apply read_floor_spec |]. cbn beta. intros d1 x [-> Hf]. destruct x as [o | ex]; [| done]. specialize (Hf o eq_refl).
  case_bool_decide; [by apply cwp_ret |]. apply cwp_bind, cwp_raise_if; [done |]. intros Hc%negb_false_iff%bool_decide_eq_true. subst o.
  assert (Ha : wf_floor recovered = true).
  { destruct Hf as (f & _ & Hp). destruct (parse_floor_wf _ _ _ Hv Hp) as [Ha _]. revert Ha. unfold wf_floor. cbn. rewrite !andb_true_iff.
    intros [Hx _]. split; [exact Hx |]. destruct (validated_same _ _ Hval) as [_ Hr].
    destruct (pr_epoch empty Hr) as [X1 X2]. unfold u64_text. rewrite X1. lia. }
  assert (Hlt : digits_value (fl_epoch expected) < digits_value (fl_epoch recovered)).
  { unfold unmatched in Hm. repeat (apply orb_false_iff in Hm as [Hm ?]). change (fl_epoch recovered) with (cg_runtime_epoch empty). lia. }
  apply cwp_bind. eapply cwp_mono; [apply (write_floor_endures env recovered d now safe Ht Ha) |].
  - intros Ew. rewrite <- (found_now d now safe (Some expected) Ht); [| by rewrite <- Ew]. cbn. split; [by repeat split |]. split; [cbn; lia | lia].
  - cbn beta. intros d1 x [H1 _]. destruct x as [[] | ex]; [by apply cwp_ret | done].
Qed.

Lemma read_floor_endures (store : FloorStore) (env : Surroundings) (v : pyval) d now safe : tracks_floor w d now safe ->
  cwp (read store env v) (fun d1 _ => endures_floor w now safe d1) (endures_floor w now safe) d.
Proof.
  intros Ht. pose proof (endures_refl _ _ _ Ht) as He. apply cwp_bind, cwp_lift. destruct (validate_id v "workspace_id") as [x |]; [| done].
  apply locked_folder_spec; [done | done | done |]. eapply cwp_mono; [by apply read_floor_spec |]. by intros d1 r [-> _].
Qed.

Lemma lost_floor d (m : gmap pystr File) now safe : tracks_floor w d now safe -> power_lost d m ->
  exists now1, tracks_floor w (mkFolder m m) now1 now1 /\ no_higher_opt safe now1.
Proof.
  intros (H1 & H2 & H3 & H4) Hm. assert (K : forall o o2 oa, shows_floor o oa -> survives_opt o o2 -> shows_floor o2 oa).
  { intros o o2 oa Hs Hv. destruct o as [f |], o2 as [g |], oa as [a |]; try done. destruct Hs as (X1 & X2 & X3). cbn in Hv. unfold survives in Hv.
    rewrite X3 in Hv. by subst g. }
  destruct (Hm (floor_name w)) as [Hl | Hl].
  - exists now. split; [| done]. pose proof (K _ _ _ H1 Hl). unfold tracks_floor. by cbn.
  - exists safe. split; [| done]. pose proof (K _ _ _ H2 Hl). unfold tracks_floor. cbn. split; [done |]. split; [done |]. split; [done |].
    intros a ->. cbn in H3. destruct now as [b |]; [| done]. destruct H3 as ((-> & _) & _). by apply H4.
Qed.

End Invariant.

(** ** Histories of one directory *)

Inductive floor_request : Type :=
| ReadFloor (w : pyval)
| Advance (w g r b h hr e : pyval)
| RecoverEpoch (expected : Floor) (empty : Cgroup).

(** What a request did to the outside: the floor that [advance] returned *)
Definition perform_floor `{Rfc8785} (store : FloorStore) (env : Surroundings) (q : floor_request) : io Folder (option Floor) :=
  match q with
  | ReadFloor w => then! read store env w in io_ret None
  | Advance w g r b h hr e => io! a := advance store env w g r b h hr e in io_ret (Some a)
  | RecoverEpoch expected empty => then! recover_epoch store env expected empty in io_ret None
  end.

Definition advanced_by (r : result (option Floor)) : list Floor := match r with Ok (Some a) => [a] | _ => [] end.

(** A directory that was empty at first, and the floors that [advance] returned;
    every request may come from another process. *)
Inductive floored `{Rfc8785} : Folder -> list Floor -> Prop :=
| Floored_new : floored (mkFolder ∅ ∅) []
| Floored_run d log store env q evs d1 rest r : floored d log -> perform_floor store env q d evs = Ran d1 rest r -> floored d1 (log ++ advanced_by r)
| Floored_dies d log store env q evs d1 : floored d log -> perform_floor store env q d evs = Died d1 -> floored d1 log
| Floored_lost d log m : floored d log -> power_lost d m -> floored (mkFolder m m) log.

(** The floor that the file of [w] shows *)
Definition floor_of (d : Folder) (w : pystr) : option Floor :=
  match shown d !! floor_name w with
  | Some f => match parse_floor w (f_data f) with Ok a => Some a | Raise _ => None end
  | None => None
  end.

(** [b] was started after [a]. *)
Definition later (a b : Floor) : Prop := same_origin a b /\ fl_generation a < fl_generation b.

Section Histories.
Context `{Rfc8785Laws} (w : pystr).
Hypothesis Hw : match_floor_id w = true.

Definition of_workspace (log : list Floor) : list Floor := filter (fun a => fl_workspace a = w) log.

(** The floor [safe] has reached the generation of [a]. *)
Definition reached (safe : option Floor) (a : Floor) : Prop :=
  match safe with Some s => same_origin a s /\ fl_generation a <= fl_generation s | None => False end.

Lemma same_origin_trans (a b c : Floor) : same_origin a b -> same_origin b c -> same_origin a c.
Proof. intros (? & ? & ? & ? & ?) (? & ? & ? & ? & ?). repeat split; congruence. Qed.

Lemma reached_higher (safe safe1 : option Floor) (a : Floor) : reached safe a -> no_higher_opt safe safe1 -> reached safe1 a.
Proof.
  destruct safe as [s |], safe1 as [t |]; cbn; try done. intros [H1 H2] (H3 & H4 & _). split; [by apply (same_origin_trans a s) | lia].
Qed.

(** The floors of [w] ascend, up to one that is durable. *)
Definition ascends (log : list Floor) (safe : option Floor) : Prop :=
  StronglySorted later (of_workspace log) /\ Forall (reached safe) (of_workspace log).

Lemma perform_endures (store : FloorStore) (env : Surroundings) (q : floor_request) (d : Folder) (now safe : option Floor) : tracks_floor w d now safe ->
  cwp (perform_floor store env q) (fun d1 r => endures_floor w now safe d1 /\ forall a, r = Ok (Some a) -> fl_workspace a = w ->
    tracks_floor w d1 (Some a) (Some a) /\ forall b, now = Some b -> later b a) (endures_floor w now safe) d.
Proof.
  intros Ht. destruct q as [v | v g r b h hr e | expected empty]; cbn [perform_floor]; apply cwp_bind.
  - eapply cwp_mono; [by apply (read_floor_endures w) |]. cbn beta. intros d1 [o | x] H1; [apply cwp_ret |]; by split.
  - eapply cwp_mono; [by apply (advance_spec w Hw) |]. intros d1 [a | x] [H1 H2]; [| by split]. apply cwp_ret. split; [done |]. intros c [= <-] Ew. by apply H2.
  - eapply cwp_mono; [by apply (recover_epoch_spec w Hw) |]. cbn beta. intros d1 [o | x] H1; [apply cwp_ret |]; by split.
Qed.

Lemma ascends_higher (log : list Floor) (safe safe1 : option Floor) : ascends log safe -> no_higher_opt safe safe1 -> ascends log safe1.
Proof. intros [H1 H2] Hs. split; [done |]. eapply Forall_impl; [exact H2 |]. cbn beta. intros a Ha. by apply (reached_higher safe). Qed.

Lemma ascends_snoc (log : list Floor) (safe now : option Floor) (a : Floor) : ascends log safe -> no_higher_opt safe now -> fl_workspace a = w ->
  (forall b, now = Some b -> later b a) -> ascends (log ++ [a]) (Some a).
Proof.
  intros [A1 A2] Hs Ew Hl. assert (K : Forall (fun b => later b a) (of_workspace log)).
  { eapply Forall_impl; [exact A2 |]. intros b Hb. apply (reached_higher safe now b) in Hb; [| done]. destruct now as [c |]; [| done].
    destruct Hb as [Hb1 Hb2], (Hl c eq_refl) as [Hc1 Hc2]. split; [by apply (same_origin_trans b c) | lia]. }
  unfold ascends. assert (of_workspace (log ++ [a]) = of_workspace log ++ [a]) as -> by (unfold of_workspace; by rewrite filter_app, filter_cons_True, filter_nil).
  split.
  - apply StronglySorted_app_2; [| done | repeat constructor]. intros x y Hx ->%list_elem_of_singleton. rewrite Forall_forall in K. by apply K.
  - apply Forall_app. split; [| constructor; [by split; [repeat split | lia] | done]]. eapply Forall_impl; [exact K |]. intros b [Hb1 Hb2]. split; [done | lia].
Qed.

Lemma floored_tracks (d : Folder) (log : list Floor) : floored d log -> exists now safe, tracks_floor w d now safe /\ ascends log safe.
Proof.
  induction 1 as [| d log store env q evs d1 rest r _ (now & safe & Ht & Ha) E | d log store env q evs d1 _ (now & safe & Ht & Ha) E | d log m _ (now & safe & Ht & Ha) Hm].
  - exists None, None. split; [| by repeat constructor]. unfold tracks_floor. cbn. by rewrite !lookup_empty.
  - pose proof (perform_endures store env q d now safe Ht evs) as Hq. rewrite E in Hq. destruct Hq as [(now1 & safe1 & Ht1 & _ & Hs1) Hr].
    pose proof (ascends_higher log safe safe1 Ha Hs1) as Ha1. destruct r as [[a |] | x]; cbn [advanced_by]; rewrite ?app_nil_r; try (by exists now1, safe1).
    destruct (decide (fl_workspace a = w)) as [Ew | Ew].
    + destruct (Hr a eq_refl Ew) as [Ht2 Hl]. exists (Some a), (Some a). split; [done |]. apply (ascends_snoc log safe now); [done | apply Ht | done | done].
    + exists now1, safe1. split; [done |].
      assert (of_workspace (log ++ [a]) = of_workspace log) as Eo by (unfold of_workspace; by rewrite filter_app, filter_cons_False, filter_nil, app_nil_r).
      unfold ascends. by rewrite Eo.
  - pose proof (perform_endures store env q d now safe Ht evs) as Hq. rewrite E in Hq. destruct Hq as (now1 & safe1 & Ht1 & _ & Hs1).
    exists now1, safe1. split; [done |]. by apply (ascends_higher log safe).
  - destruct (lost_floor w d m now safe Ht Hm) as (now1 & Ht1 & Hs1). exists now1, now1. split; [done |]. by apply (ascends_higher log safe).
Qed.

Lemma tracked_floor (d : Folder) (now safe : option Floor) : tracks_floor w d now safe -> floor_of d w = now.
Proof.
  intros (Hs & _ & _ & Hn). unfold floor_of, shows_floor in *. destruct (shown d !! floor_name w) as [f |], now as [a |]; try done.
  destruct Hs as (Ha & Hb & _). pose proof (floor_reads_back a _ Ha Hb) as E. rewrite (Hn a eq_refl) in E. by rewrite E.
Qed.

End Histories.

(** C26: Whatever calls to the operating system fail, wherever a
    process dies and whenever the power is lost, the floors that [advance]
    returned for a workspace have ascending generations, all for one binding and
    one host, and the floor that the store shows has reached them all: no
    generation of a workspace is reserved twice. *)
Theorem floors_never_repeat `{Rfc8785Laws} (d : Folder) (log : list Floor) (w : pystr) : floored d log -> match_floor_id w = true ->
  StronglySorted later (of_workspace w log) /\ Forall (reached (floor_of d w)) (of_workspace w log).
Proof.
  intros Hd Hw. destruct (floored_tracks w Hw d log Hd) as (now & safe & Ht & Ha1 & Ha2). split; [done |]. rewrite (tracked_floor w d now safe Ht).
  eapply Forall_impl; [exact Ha2 |]. intros a Ha. apply (reached_higher safe); [done | apply Ht].
Qed.

(** ** Witnesses *)

#[local] Existing Instance printed_rfc8785.

Definition floor_store : FloorStore := mkFloorStore 10 20.
Definition floor_dir : Stat := mkStat true false false 10 20 448 1 2 2.
Definition floor_env (c : Z) : Surroundings := mkSurroundings floor_dir floor_dir (repeat c 24) (mkStat false false true 10 20 384 1 3 1).
Definition floor_workspace : pystr := $"aws_" ++ repeat 97 32.

(** [advance] for a generation of the sample workspace *)
Definition advance_to (g : Z) : floor_request :=
  Advance (PStr floor_workspace) (PInt g) (PStr $"1") (PStr (repeat 48 64)) (PStr ($"wri_" ++ repeat 98 32)) (PStr $"1") (PStr $"7").
Definition sample_floor (g : Z) : Floor := mkFloor floor_workspace g $"1" (repeat 48 64) ($"wri_" ++ repeat 98 32) $"1" $"7".

Definition floor_after {A} (o : outcome Folder A) : Folder := match o with Died d | Ran d _ _ => d end.
Definition empty_folder : Folder := mkFolder ∅ ∅.

(** The first generation is reserved; the process dies after it renamed the file
    of the second, and the third is reserved. *)
Definition floors_one : Folder := Eval vm_compute in floor_after (perform_floor floor_store (floor_env 49) (advance_to 1) empty_folder []).
Definition die_renamed : list event := repeat (Works 4096) 14 ++ [Dies].
Definition floors_two : Folder := Eval vm_compute in floor_after (perform_floor floor_store (floor_env 50) (advance_to 2) floors_one die_renamed).
Definition floors_three : Folder := Eval vm_compute in floor_after (perform_floor floor_store (floor_env 51) (advance_to 3) floors_two []).

(** The floor that a power loss would leave when it takes all that is not durable *)
Definition durable_floor (d : Folder) : option Floor := floor_of (mkFolder (kept d) (kept d)) floor_workspace.

Example second_burned :
  floor_of floors_two floor_workspace = Some (sample_floor 2) /\ durable_floor floors_two = Some (sample_floor 1)
  /\ match perform_floor floor_store (floor_env 51) (advance_to 2) floors_two [] with
     | Ran _ _ (Raise e) => e = floor_error "generation floor would move backwards"
     | _ => False
     end.
Proof. split; [| split]; vm_compute; reflexivity. Qed.

Lemma floored_three : floored floors_three [sample_floor 1; sample_floor 3].
Proof.
  apply (Floored_run floors_two [sample_floor 1] floor_store (floor_env 51) (advance_to 3) [] floors_three [] (Ok (Some (sample_floor 3)))); [| vm_compute; reflexivity].
  apply (Floored_dies floors_one [sample_floor 1] floor_store (floor_env 50) (advance_to 2) die_renamed); [| vm_compute; reflexivity].
  apply (Floored_run empty_folder [] floor_store (floor_env 49) (advance_to 1) [] floors_one [] (Ok (Some (sample_floor 1)))); [constructor | vm_compute; reflexivity].
Qed.

Lemma floors_never_repeat_witness : StronglySorted later (of_workspace floor_workspace [sample_floor 1; sample_floor 3])
  /\ Forall (reached (floor_of floors_three floor_workspace)) (of_workspace floor_workspace [sample_floor 1; sample_floor 3]).
Proof. exact (floors_never_repeat floors_three [sample_floor 1; sample_floor 3] floor_workspace floored_three eq_refl). Defined.

(** The retried recovery of an epoch does not sync: the directory could not be made
    durable, so [recover_epoch] raises; the same call then finds the new epoch and
    returns it, and a power loss takes the floor back to the old one. *)
Definition recovered_cgroup : Cgroup := sample_cgroup 1 $"8" $"invocation-2" $"EMPTY_DURABLE" $"0".
Definition floor_sync_fails : list event := repeat (Works 4096) 14 ++ [Fails].
Definition floors_unsynced : Folder :=
  Eval vm_compute in floor_after (recover_epoch floor_store (floor_env 50) (sample_floor 1) recovered_cgroup floors_one floor_sync_fails).

Example recovery_not_durable :
  match recover_epoch floor_store (floor_env 50) (sample_floor 1) recovered_cgroup floors_one floor_sync_fails with
  | Ran _ _ (Raise e) => e = floor_error "attestation update could not be committed"
  | _ => False
  end
  /\ match recover_epoch floor_store (floor_env 51) (sample_floor 1) recovered_cgroup floors_unsynced [] with
     | Ran d _ (Ok a) => a = with_epoch $"8" (sample_floor 1) /\ durable_floor d = Some (sample_floor 1)
     | _ => False
     end.
Proof. split; vm_compute; [| split]; reflexivity. Qed.
