(* ===== verification/CgroupStore.v ===== *)
(** * The store of cgroup attestations ([agentbox_runtime/waw_cgroup_attestation_store.py])

    [WAWCgroupAttestationStore] keeps one attestation per generation of a
    workspace, in files named by a digest of the workspace and the generation.  An
    attestation only moves forward, from [LIVE] over [FENCED] to [EMPTY_DURABLE],
    and the next generation is recorded only after the one before is empty.

    The directory is a [Folder], as for the other stores.  A file that is open
    under the lock does not change, so both [fstat] of a read show the same. *)

From stdpp Require Import sorting.
From S2P Require Import Prelude PyVal Json Unicode Sha256 Control Canonical Crash Cgroup Folder.

Local Open Scope Z_scope.

Definition MAX_RECORD_FILES : Z := 256.

Definition group_error (message : string) : exn := err WAWCgroupAttestationStoreError message.

#[export] Instance stat_eq_dec : EqDecision Stat.
Proof. solve_decision. Defined.

(** ** Names *)

(** [_validate_key] *)
Definition validate_key (workspace_id : pystr) (generation : Z) : result unit :=
  run! raise_if (negb (match_id $"aws" workspace_id)) (group_error "workspace_id is invalid") in
  raise_if (negb (in_range 1 generation MAX_U64)) (group_error "generation is invalid").

(** [hashlib.sha256(workspace_id.encode("ascii")).hexdigest()[:32]] *)
Definition workspace_digest (workspace_id : pystr) : result pystr :=
  let! b := encode_ascii workspace_id in Ok (take 32 (hexdigest (sha256 b))).

(** [_record_name] *)
Definition record_name (workspace_id : pystr) (generation : Z) : result pystr :=
  run! validate_key workspace_id generation in
  let! digest := workspace_digest workspace_id in
  Ok (digest ++ $"-g" ++ str_of_Z generation ++ $".json").

(** [[0-9a-f]{32}-g([1-9][0-9]{0,19})\.json]: the group *)
Definition match_record_file (name : pystr) : option pystr :=
  let digits := take (length name - 39) (drop 34 name) in
  if match_hex 32 (take 32 name) && str_eqb (take 2 (drop 32 name)) $"-g" && match_pos_decimal digits
     && str_eqb (drop (34 + length digits) name) $".json"
  then Some digits else None.

(** ** Updates *)

Definition is_empty (r : Cgroup) : bool := str_eqb (cg_cleanup_state r) $"EMPTY_DURABLE".

(** [_STATES]; the states of a record were checked. *)
Definition state_rank (s : pystr) : Z := if str_eqb s $"LIVE" then 0 else if str_eqb s $"FENCED" then 1 else 2.

(** The immutable fields agree. *)
Definition same_identity (a b : Cgroup) : bool :=
  str_eqb (cg_workspace_id a) (cg_workspace_id b) && str_eqb (cg_project_id a) (cg_project_id b) && str_eqb (cg_agent_type a) (cg_agent_type b)
  && (cg_generation a =? cg_generation b) && str_eqb (cg_runtime_epoch a) (cg_runtime_epoch b) && str_eqb (cg_service_unit a) (cg_service_unit b)
  && str_eqb (cg_service_invocation_id a) (cg_service_invocation_id b) && str_eqb (cg_service_cgroup_device a) (cg_service_cgroup_device b)
  && str_eqb (cg_service_cgroup_inode a) (cg_service_cgroup_inode b) && str_eqb (cg_service_cgroup_mount_id a) (cg_service_cgroup_mount_id b)
  && str_eqb (cg_delegated_subgroup a) (cg_delegated_subgroup b) && str_eqb (cg_delegate_subgroup_device a) (cg_delegate_subgroup_device b)
  && str_eqb (cg_delegate_subgroup_inode a) (cg_delegate_subgroup_inode b) && str_eqb (cg_delegate_subgroup_mount_id a) (cg_delegate_subgroup_mount_id b)
  && str_eqb (cg_cgroup_mount_id a) (cg_cgroup_mount_id b) && str_eqb (cg_cgroup_filesystem_id a) (cg_cgroup_filesystem_id b)
  && str_eqb (cg_workspace_relative_path a) (cg_workspace_relative_path b) && str_eqb (cg_workspace_device a) (cg_workspace_device b)
  && str_eqb (cg_workspace_inode a) (cg_workspace_inode b) && str_eqb (cg_workload_relative_path a) (cg_workload_relative_path b)
  && str_eqb (cg_workload_device a) (cg_workload_device b) && str_eqb (cg_workload_inode a) (cg_workload_inode b)
  && str_eqb (cg_workspace_presence a) (cg_workspace_presence b)
  && str_eqb (cg_controller_configuration_digest a) (cg_controller_configuration_digest b)
  && bool_decide (cg_workspace_limits a = cg_workspace_limits b) && bool_decide (cg_workload_limits a = cg_workload_limits b)
  && bool_decide (cg_attachment_limits a = cg_attachment_limits b).

(** [_validate_update] *)
Definition validate_update (current updated : Cgroup) : result unit :=
  run! raise_if (negb (same_identity current updated)) (group_error "attestation immutable identity changed") in
  run! raise_if (state_rank (cg_cleanup_state updated) <? state_rank (cg_cleanup_state current)) (group_error "attestation cleanup state moved backwards") in
  run! raise_if (is_empty current && negb (bool_decide (updated = current))) (group_error "EMPTY_DURABLE attestation cannot be changed") in
  run! raise_if (str_eqb (cg_last_populated current) $"0" && str_eqb (cg_last_populated updated) $"1") (group_error "attestation populated state moved backwards") in
  raise_if (is_empty updated && (negb (bool_decide (cg_attachment_leaves updated = [])) || negb (str_eqb (cg_last_populated updated) $"0")))
    (group_error "EMPTY_DURABLE attestation is not empty").

(** ** The store *)

(** [_expected_uid] and [_expected_gid] *)
Record GroupStore : Type := mkGroupStore { group_uid : Z; group_gid : Z }.

(** [__init__]; the directory is a [Path]. *)
Definition new_group_store (uid gid : pyval) : result GroupStore :=
  match uid with
  | PInt u =>
      run! raise_if (u <? 0) (err PyValueError "expected_uid must be a non-negative integer") in
      match gid with
      | PInt g => run! raise_if (g <? 0) (err PyValueError "expected_gid must be a non-negative integer") in Ok (mkGroupStore u g)
      | _ => Raise (err PyValueError "expected_gid must be a non-negative integer")
      end
  | _ => Raise (err PyValueError "expected_uid must be a non-negative integer")
  end.

(** [WAWCgroupAttestationSnapshot] *)
Record Snapshot : Type := mkSnapshot { latest_generation_ : option Z; unresolved_generations_ : list Z; latest_unresolved_ : option Cgroup }.

Local Abbreviation IO := (io Folder).

(** [os.listdir] *)
Definition list_folder : IO (list pystr) := call (fun _ d => (d, Ok (map fst (map_to_list (shown d))))).

(** [sorted(records, key=lambda record: record.generation)] *)
Definition by_generation (a b : Cgroup) : Prop := cg_generation a <= cg_generation b.

#[export] Instance by_generation_dec : RelDecision by_generation.
Proof. intros a b. unfold by_generation. apply _. Defined.

Definition sort_records (l : list Cgroup) : list Cgroup := merge_sort by_generation l.

Section Store.
Context `{Rfc8785} (store : GroupStore) (env : Surroundings).

Definition group_owned (s : Stat) : bool := (st_uid s =? group_uid store) && (st_gid s =? group_gid store).

(** [_locked_directory] around a body *)
Definition locked {A} (body : IO A) : IO A :=
  io! details := io_try (observe (listed env)) [PyOSError] (io_raise (group_error "attestation directory is unavailable")) in
  then! io_raise_if (negb (is_dir details) || is_link details || negb (group_owned details) || negb (st_mode details =? 448))
          (group_error "attestation directory provenance is invalid") in
  let unlocked (e : exn) : IO A :=
    if exc_isa (exn_class e) WAWCgroupAttestationStoreError then io_raise e else io_raise (group_error "attestation directory cannot be locked") in
  io! fd := attempt (observe tt) in
  match fd with
  | Raise e => unlocked e
  | Ok _ =>
      io! lock := attempt (io! o := observe (opened env) in
                           then! io_raise_if (negb (st_dev o =? st_dev details) || negb (st_ino o =? st_ino details)
                                              || negb (group_owned o) || negb (st_mode o =? 448))
                                   (group_error "attestation directory changed during open") in
                           observe tt) in
      match lock with
      | Raise e => then! suppress (observe tt) in unlocked e
      | Ok _ => io_finally body (then! suppress (observe tt) in observe tt)
      end
  end.

(** The checks of [_read_locked] on the opened file *)
Definition bad_group_file (f : File) : bool :=
  let s := f_stat f in
  negb (is_reg s) || negb (group_owned s) || negb (st_mode s =? 384) || negb (st_nlink s =? 1) || (CGROUP_MAX_BYTES <? blen (f_data f)).

(** The [try] of [_read_locked] around the opened file *)
Definition read_group_bytes (f : File) : IO bytes :=
  io_finally
    (io_try (io! first := observe f in
             then! io_raise_if (bad_group_file first) (group_error "attestation file provenance is invalid") in
             io! payload := read_loop 8192 (length (f_data f) + 2) (f_data f) (CGROUP_MAX_BYTES + 1) [] in
             then! io_raise_if (CGROUP_MAX_BYTES <? blen payload) (group_error "attestation file is oversized") in
             io! second := observe f in
             then! io_raise_if (negb (bool_decide (f_stat first = f_stat second)) || negb (blen (f_data first) =? blen (f_data second)))
                     (group_error "attestation file changed during read") in
             io_ret payload)
       [PyOSError] (io_raise (group_error "attestation file cannot be read")))
    (suppress close_file).

(** [_read_locked] *)
Definition read_group (workspace_id : pystr) (generation : Z) : IO (option Cgroup) :=
  io! name := io_lift (record_name workspace_id generation) in
  io! found := io_try (io_try (io! f := open_file name in io_ret (Some f)) [PyFileNotFoundError] (io_ret None))
                 [PyOSError] (io_raise (group_error "attestation file cannot be opened")) in
  match found with
  | None => io_ret None
  | Some f =>
      io! payload := read_group_bytes f in
      io! record := io_lift (except_as (decode_attestation payload) [WAWCgroupAttestationError] (group_error "attestation record is invalid")) in
      then! io_raise_if (negb (str_eqb (cg_workspace_id record) workspace_id) || negb (cg_generation record =? generation))
              (group_error "attestation record key mismatch") in
      io_ret (Some record)
  end.

(** The loop of [_records_for_workspace_locked] *)
Fixpoint read_candidates (workspace_id : pystr) (names : list pystr) : IO (list Cgroup) :=
  match names with
  | [] => io_ret []
  | name :: rest =>
      match match_record_file name with
      | None => io_raise (group_error "attestation filename is invalid")
      | Some digits =>
          io! record := read_group workspace_id (digits_value digits) in
          io! records := read_candidates workspace_id rest in
          io_ret (match record with Some r => r :: records | None => records end)
      end
  end.

(** [name.startswith(prefix)] *)
Definition starts_with (prefix name : pystr) : bool := str_eqb (take (length prefix) name) prefix.

(** [_records_for_workspace_locked] *)
Definition records_for (workspace_id : pystr) : IO (list Cgroup) :=
  io! digest := io_lift (workspace_digest workspace_id) in
  io! names := io_try list_folder [PyOSError] (io_raise (group_error "attestation directory cannot be listed")) in
  let candidates := filter (fun n => starts_with (digest ++ $"-g") n = true) names in
  then! io_raise_if (MAX_RECORD_FILES <? blen candidates) (group_error "too many attestation records") in
  io! records := read_candidates workspace_id candidates in
  io_ret (sort_records records).

(** [_latest_record_locked] *)
Definition latest_record (workspace_id : pystr) : IO (option Cgroup) :=
  io! records := records_for workspace_id in io_ret (last records).

(** [_replace_locked] *)
Definition replace_group (record : Cgroup) (raw : bytes) : IO unit :=
  io! name := io_lift (record_name (cg_workspace_id record) (cg_generation record)) in
  let temporary := $".cgroup-attestation." ++ temp_token env ++ $".tmp" in
  let unprepared : IO unit := io_raise (group_error "attestation update could not be prepared") in
  io! fd := attempt (create_file temporary (created env)) in
  match fd with
  | Raise _ => unprepared
  | Ok _ =>
      io! prepared := attempt (then! write_view (S (length raw)) temporary raw in
                               then! sync_file temporary in
                               io! details := observe (created env) in
                               io_raise_if (negb (group_owned details) || negb (st_mode details =? 384) || negb (st_nlink details =? 1))
                                 (group_error "temporary attestation provenance is invalid")) in
      then! suppress close_file in
      match prepared with
      | Raise _ => unprepared
      | Ok _ =>
          io_finally
            (io_try (then! replace_file temporary name in sync_folder) [PyOSError] (io_raise (group_error "attestation update could not be committed")))
            (suppress (unlink_file temporary))
      end
  end.

(** ** Operations *)

Definition check_workspace (workspace_id : pystr) : IO unit := io_raise_if (negb (match_id $"aws" workspace_id)) (group_error "workspace_id is invalid").

Definition read (workspace_id : pystr) (generation : Z) : IO (option Cgroup) :=
  then! io_lift (validate_key workspace_id generation) in locked (read_group workspace_id generation).

Definition unresolved (records : list Cgroup) : list Cgroup := filter (fun r => is_empty r = false) records.

Definition latest_unresolved (workspace_id : pystr) : IO (option Cgroup) :=
  then! check_workspace workspace_id in
  locked (io! records := records_for workspace_id in io_ret (last (unresolved records))).

Definition has_unresolved (workspace_id : pystr) : IO bool :=
  io! o := latest_unresolved workspace_id in io_ret (bool_decide (o <> None)).

Definition unresolved_generations (workspace_id : pystr) : IO (list Z) :=
  then! check_workspace workspace_id in
  locked (io! records := records_for workspace_id in io_ret (map cg_generation (unresolved records))).

Definition latest_generation (workspace_id : pystr) : IO (option Z) :=
  then! check_workspace workspace_id in
  locked (io! latest := latest_record workspace_id in io_ret (cg_generation <$> latest)).

Definition snapshot (workspace_id : pystr) : IO Snapshot :=
  then! check_workspace workspace_id in
  locked (io! records := records_for workspace_id in
          io_ret (mkSnapshot (cg_generation <$> last records) (map cg_generation (unresolved records)) (last (unresolved records)))).

(** The checks of [write] for the first record of a generation *)
Definition check_next (record : Cgroup) : IO unit :=
  if cg_generation record =? 1 then io_ret tt
  else
    io! previous := latest_record (cg_workspace_id record) in
    match previous with
    | None => io_raise (group_error "missing first-generation cgroup attestation")
    | Some p =>
        then! io_raise_if (negb (cg_generation record =? cg_generation p + 1)) (group_error "cgroup attestation generation has a gap") in
        then! io_raise_if (negb (str_eqb (cg_project_id record) (cg_project_id p)) || negb (str_eqb (cg_agent_type record) (cg_agent_type p))
                           || negb (str_eqb (cg_runtime_epoch record) (cg_runtime_epoch p)))
                (group_error "cgroup attestation lifecycle identity changed") in
        io_raise_if (negb (is_empty p)) (group_error "previous cgroup attestation is not empty")
    end.

Definition encoded (record : Cgroup) (message : string) : IO bytes :=
  io_lift (except_as (encode_attestation record) [WAWCgroupAttestationError] (group_error message)).

Definition write (record : Cgroup) : IO Cgroup :=
  then! io_raise_if (negb (str_eqb (cg_workspace_presence record) $"present")) (group_error "absence requires explicit recovery") in
  io! raw := encoded record "attestation validation failed" in
  locked (
    io! current := read_group (cg_workspace_id record) (cg_generation record) in
    match current with
    | Some c =>
        then! io_lift (validate_update c record) in
        io! again := io_lift (encode_attestation c) in
        if bytes_eqb again raw then io_ret c
        else then! replace_group record raw in io_ret record
    | None =>
        then! check_next record in
        then! replace_group record raw in io_ret record
    end).

(** The logical identity that a recovery preserves *)
Definition preserved (a b : Cgroup) : bool :=
  str_eqb (cg_workspace_id a) (cg_workspace_id b) && str_eqb (cg_project_id a) (cg_project_id b) && str_eqb (cg_agent_type a) (cg_agent_type b)
  && (cg_generation a =? cg_generation b) && str_eqb (cg_service_unit a) (cg_service_unit b)
  && str_eqb (cg_delegated_subgroup a) (cg_delegated_subgroup b) && str_eqb (cg_workspace_relative_path a) (cg_workspace_relative_path b)
  && str_eqb (cg_workload_relative_path a) (cg_workload_relative_path b)
  && str_eqb (cg_controller_configuration_digest a) (cg_controller_configuration_digest b)
  && bool_decide (cg_workspace_limits a = cg_workspace_limits b) && bool_decide (cg_workload_limits a = cg_workload_limits b)
  && bool_decide (cg_attachment_limits a = cg_attachment_limits b).

(** [same_epoch_removal]: the empty cgroup of the same invocation was removed. *)
Definition removal (expected observed : Cgroup) : bool :=
  str_eqb (cg_runtime_epoch observed) (cg_runtime_epoch expected) && str_eqb (cg_service_invocation_id observed) (cg_service_invocation_id expected)
  && is_empty expected && str_eqb (cg_workspace_presence expected) $"present" && str_eqb (cg_workspace_presence observed) $"absent"
  && str_eqb (cg_service_cgroup_device expected) (cg_service_cgroup_device observed) && str_eqb (cg_service_cgroup_inode expected) (cg_service_cgroup_inode observed)
  && str_eqb (cg_service_cgroup_mount_id expected) (cg_service_cgroup_mount_id observed)
  && str_eqb (cg_delegate_subgroup_device expected) (cg_delegate_subgroup_device observed)
  && str_eqb (cg_delegate_subgroup_inode expected) (cg_delegate_subgroup_inode observed)
  && str_eqb (cg_delegate_subgroup_mount_id expected) (cg_delegate_subgroup_mount_id observed)
  && str_eqb (cg_cgroup_mount_id expected) (cg_cgroup_mount_id observed) && str_eqb (cg_cgroup_filesystem_id expected) (cg_cgroup_filesystem_id observed).

(** The evidence of [recover_empty] is not that of the same generation, empty, of
    a later invocation. *)
Definition changed_identity (expected observed : Cgroup) : bool :=
  negb (preserved expected observed)
  || (negb (removal expected observed)
      && ((digits_value (cg_runtime_epoch observed) <=? digits_value (cg_runtime_epoch expected))
          || str_eqb (cg_service_invocation_id observed) (cg_service_invocation_id expected)))
  || negb (is_empty observed) || negb (str_eqb (cg_last_populated observed) $"0") || negb (bool_decide (cg_attachment_leaves observed = [])).

(** [l[:-1]] *)
Definition all_but_last {A} (l : list A) : list A := take (length l - 1) l.

Definition recover_empty (expected observed : Cgroup) : IO bool :=
  then! encoded expected "recovery evidence is malformed" in
  io! raw := encoded observed "recovery evidence is malformed" in
  then! io_raise_if (changed_identity expected observed) (group_error "recovery evidence changed logical identity") in
  locked (
    io! records := records_for (cg_workspace_id expected) in
    match last records with
    | None => io_raise (group_error "recovery does not target latest generation")
    | Some current =>
        then! io_raise_if (negb (cg_generation current =? cg_generation expected)) (group_error "recovery does not target latest generation") in
        then! io_raise_if (existsb (fun r => negb (is_empty r)) (all_but_last records)) (group_error "recovery has older unresolved generations") in
        if bool_decide (current = observed) then io_ret true
        else
          then! io_raise_if (negb (bool_decide (current = expected))) (group_error "recovery record changed") in
          then! replace_group observed raw in
          io_ret true
    end).

Definition acknowledge_empty (record : Cgroup) : IO bool :=
  then! io_raise_if (negb (is_empty record) || negb (str_eqb (cg_last_populated record) $"0") || negb (bool_decide (cg_attachment_leaves record = [])))
          (group_error "empty acknowledgement is invalid") in
  io! raw := encoded record "attestation validation failed" in
  locked (
    io! records := records_for (cg_workspace_id record) in
    then! io_raise_if (match last (unresolved records) with Some u => negb (cg_generation record =? cg_generation u) | None => true end)
            (group_error "empty acknowledgement does not target latest unresolved generation") in
    io! current := read_group (cg_workspace_id record) (cg_generation record) in
    match current with
    | None => io_raise (group_error "empty acknowledgement record is missing")
    | Some c =>
        then! io_lift (validate_update c record) in
        then! replace_group record raw in
        io! remaining := records_for (cg_workspace_id record) in
        io_ret (negb (existsb (fun r => negb (is_empty r)) remaining))
    end).

End Store.

(** ** Names *)

Lemma record_name_ok (w : pystr) (g : Z) (n : pystr) : record_name w g = Ok n ->
  match_id $"aws" w = true /\ 1 <= g <= MAX_U64 /\ exists digest, workspace_digest w = Ok digest /\ n = digest ++ $"-g" ++ str_of_Z g ++ $".json".
Proof.
  unfold record_name, validate_key. intros E. apply rbind_ok in E as ([] & E1 & E). apply rbind_ok in E1 as ([] & Hw%raise_if_ok%negb_false_iff & Hg%raise_if_ok%negb_false_iff).
  apply rbind_ok in E as (digest & Hd & <-%Ok_inj). split; [done |]. split; [unfold in_range in Hg; lia |]. by exists digest.
Qed.

Lemma workspace_digest_hex (w digest : pystr) : workspace_digest w = Ok digest -> match_hex 32 digest = true.
Proof.
  unfold workspace_digest. intros E. apply rbind_ok in E as (b & _ & <-%Ok_inj). destruct (hexdigest_spec (sha256 b)) as [Hl Hx]. unfold match_hex.
  apply andb_true_iff. split.
  - apply Nat.eqb_eq. rewrite length_take, Hl, length_sha256. done.
  - rewrite forallb_forall in *. intros c Hc. apply Hx. apply list_elem_of_In. eapply subseteq_take. by apply list_elem_of_In.
Qed.

Lemma hex_length (n : nat) (s : pystr) : match_hex n s = true -> length s = n.
Proof. by intros [H%Nat.eqb_eq _]%andb_true_iff. Qed.

(** The name of a record is one of its workspace, and tells its generation. *)
Lemma record_name_reads (w : pystr) (g : Z) (n digest : pystr) : record_name w g = Ok n -> workspace_digest w = Ok digest ->
  starts_with (digest ++ $"-g") n = true /\ exists digits, match_record_file n = Some digits /\ digits_value digits = g.
Proof.
  intros (_ & Hg & digest' & Hd & ->)%record_name_ok Hd'. assert (digest' = digest) as -> by congruence. pose proof (workspace_digest_hex w digest Hd) as Hx.
  pose proof (hex_length 32 digest Hx) as Hl. destruct (str_of_u64 g Hg) as (_ & Hm & Hv & _). split.
  - unfold starts_with. rewrite (app_assoc digest), take_app_length. by apply str_eqb_eq.
  - exists (str_of_Z g). split; [| done]. unfold match_record_file. rewrite <- Hl at 1 2 3. rewrite take_app_length, drop_app_length. cbn [take str_eqb]. rewrite Hl.
    replace (drop 34 (digest ++ $"-g" ++ str_of_Z g ++ $".json")) with (str_of_Z g ++ $".json").
    2:{ rewrite drop_app_ge by lia. by rewrite Hl. }
    assert (length (digest ++ $"-g" ++ str_of_Z g ++ $".json") - 39 = length (str_of_Z g))%nat as ->.
    { rewrite !length_app, Hl. change (length $"-g") with 2%nat. change (length $".json") with 5%nat. lia. }
    rewrite take_app_length, Hx, Hm. replace (drop (34 + length (str_of_Z g)) (digest ++ $"-g" ++ str_of_Z g ++ $".json")) with $".json".
    2:{ rewrite <- drop_drop. rewrite drop_app_ge by lia. rewrite Hl. change (drop (34 - 32) ($"-g" ++ str_of_Z g ++ $".json")) with (str_of_Z g ++ $".json").
        by rewrite drop_app_length. }
    done.
Qed.

Lemma record_name_inj (w : pystr) (g g' : Z) (n : pystr) : record_name w g = Ok n -> record_name w g' = Ok n -> g = g'.
Proof.
  intros H1 H2. destruct (record_name_ok w g n H1) as (_ & _ & digest & Hd & _). destruct (record_name_reads w g n digest H1 Hd) as (_ & x & Hx & <-).
  destruct (record_name_reads w g' n digest H2 Hd) as (_ & y & Hy & <-). congruence.
Qed.

(** ** Specifications *)

(** What [_read_locked] finds now, whether or not it would survive a power loss *)
Definition found_group `{Rfc8785} (d : Folder) (w : pystr) (g : Z) (o : option Cgroup) : Prop :=
  exists n, record_name w g = Ok n /\
    match o with
    | None => shown d !! n = None
    | Some r => exists f, shown d !! n = Some f /\ decode_attestation (f_data f) = Ok r /\ cg_workspace_id r = w /\ cg_generation r = g
    end.

Section Specs.
Context `{Rfc8785} (store : GroupStore) (env : Surroundings).
Implicit Types (d : Folder) (C : Folder -> Prop).

(** The lock and its release add no change of their own. *)
Lemma locked_groups_spec {A} (body : io Folder A) (Q : Folder -> result A -> Prop) C d :
  C d -> (forall e, Q d (Raise e)) -> (forall d1 r, Q d1 r -> C d1 /\ forall e, Q d1 (Raise e)) -> cwp body Q C d -> cwp (locked store env body) Q C d.
Proof.
  intros HC HQ HQC Hbody. unfold locked. apply cwp_bind, cwp_try, cwp_observe; [done | by apply cwp_raise |].
  apply cwp_bind, cwp_raise_if; [done |]. intros _. cbv zeta.
  assert (Hun : forall e : exn, cwp (A := A) (if exc_isa (exn_class e) WAWCgroupAttestationStoreError then io_raise e
      else io_raise (group_error "attestation directory cannot be locked")) Q C d) by (intros e; destruct (exc_isa _ _); by apply cwp_raise).
  assert (Hcl : forall e : exn, cwp (A := A) (then! suppress (observe tt) in if exc_isa (exn_class e) WAWCgroupAttestationStoreError then io_raise e
      else io_raise (group_error "attestation directory cannot be locked")) Q C d).
  { intros e. apply cwp_bind, cwp_try, cwp_observe; [done | apply cwp_ret, Hun | apply Hun]. }
  apply cwp_bind, cwp_attempt, cwp_observe; [done | apply Hun |].
  apply cwp_bind, cwp_attempt, cwp_bind, cwp_observe; [done | apply Hcl |]. apply cwp_bind, cwp_raise_if; [apply Hcl |]. intros _.
  apply cwp_observe; [done | apply Hcl |]. apply cwp_finally. eapply cwp_mono; [exact Hbody |]. cbn beta. intros d1 r Hr.
  destruct (HQC d1 r Hr) as [H1 H2]. apply cwp_bind, cwp_try, cwp_observe; [done | cbn; apply cwp_ret, cwp_observe; auto | apply cwp_observe; auto].
Qed.

Lemma read_group_bytes_spec (f : File) C d : C d -> cwp (read_group_bytes store f) (fun d1 r => d1 = d /\ forall raw, r = Ok raw -> raw = f_data f) C d.
Proof.
  intros HC. apply cwp_finally, cwp_try. assert (K : forall r, (forall raw, r = Ok raw -> raw = f_data f) ->
    cwp (suppress close_file) (fun d2 rc => d2 = d /\ forall raw, match rc with Ok _ => r | Raise e => Raise e end = Ok raw -> raw = f_data f) C d).
  { intros r Hr. apply cwp_try, cwp_observe; [done | cbn; by apply cwp_ret | by split]. }
  assert (KO : cwp (D := Folder) (A := bytes) (io_raise (group_error "attestation file cannot be read"))
    (fun d1 r => cwp (suppress close_file) (fun d2 rc => d2 = d /\ forall raw, match rc with Ok _ => r | Raise e => Raise e end = Ok raw -> raw = f_data f) C d1) C d).
  { by apply cwp_raise, K. }
  apply cwp_bind, cwp_observe; [done | exact KO |]. apply cwp_bind, cwp_raise_if; [by apply K |]. intros _. apply cwp_bind.
  eapply cwp_mono; [apply (read_loop_exact 8192 _ (f_data f)); [done | lia | unfold CGROUP_MAX_BYTES; lia | lia] |].
  cbn beta. intros d1 r [-> [-> | ->]]; [| exact KO]. cbn [app]. apply cwp_bind, cwp_raise_if; [by apply K |]. intros Hlen%Z.ltb_ge.
  apply cwp_bind, cwp_observe; [done | exact KO |]. apply cwp_bind, cwp_raise_if; [by apply K |]. intros _. apply cwp_ret, K.
  intros raw [= <-]. unfold slice_to, blen, CGROUP_MAX_BYTES in *. apply take_ge. rewrite length_take in Hlen. lia.
Qed.

Lemma read_group_spec (w : pystr) (g : Z) C d : C d -> cwp (read_group store w g) (fun d1 r => d1 = d /\ forall o, r = Ok o -> found_group d w g o) C d.
Proof.
  intros HC. apply cwp_bind, cwp_lift. destruct (record_name w g) as [n | e] eqn:En; [| by split].
  apply cwp_bind, cwp_try, cwp_try, cwp_bind, cwp_call; [done | cbn; by apply cwp_raise |]. intros _. cbn [fst snd].
  destruct (shown d !! n) as [f |] eqn:Ef.
  - destruct (is_link (f_stat f)); [cbn; by apply cwp_raise |]. apply cwp_ret, cwp_bind. eapply cwp_mono; [by apply read_group_bytes_spec |].
    cbn beta. intros d1 r [-> Hr]. destruct r as [raw | e]; [| by split]. rewrite (Hr raw eq_refl). apply cwp_bind, cwp_lift.
    destruct (except_as _ _ _) as [r |] eqn:Er; [| by split]. apply except_as_ok in Er. apply cwp_bind, cwp_raise_if; [by split |].
    intros [H1%negb_false_iff%str_eqb_eq H2%negb_false_iff%Z.eqb_eq]%orb_false_iff. apply cwp_ret. split; [done |]. intros o [= <-]. exists n. split; [done |]. by exists f.
  - cbn. apply cwp_ret, cwp_ret. split; [done |]. intros o [= <-]. by exists n.
Qed.

Lemma read_candidates_spec (w : pystr) (names : list pystr) C d : C d -> cwp (read_candidates store w names) (fun d1 x => d1 = d /\ forall l, x = Ok l ->
  Forall (fun r => found_group d w (cg_generation r) (Some r)) l
  /\ forall n digits, n ∈ names -> match_record_file n = Some digits -> exists o, found_group d w (digits_value digits) o /\ forall r, o = Some r -> r ∈ l) C d.
Proof.
  intros HC. induction names as [|n names IH]; cbn [read_candidates].
  { apply cwp_ret. split; [done |]. intros l [= <-]. split; [done |]. intros n digits Hn. by apply elem_of_nil in Hn. }
  destruct (match_record_file n) as [digits |] eqn:En; [| by apply cwp_raise]. apply cwp_bind. eapply cwp_mono; [by apply read_group_spec |].
  cbn beta. intros d1 x [-> Hx]. destruct x as [o | e]; [| by split]. specialize (Hx o eq_refl). apply cwp_bind. eapply cwp_mono; [exact IH |].
  cbn beta. intros d1 x [-> Hl]. destruct x as [l | e]; [| by split]. destruct (Hl l eq_refl) as [H1 H2]. apply cwp_ret. split; [done |]. intros k [= <-]. split.
  - destruct o as [r |]; [| done]. constructor; [| done]. destruct Hx as (m & Hm & f & Hf & Hdec & Hw & Hg). rewrite Hg. exists m. split; [done |]. by exists f.
  - intros m ds [-> | Hm]%elem_of_cons Hd.
    + assert (ds = digits) as -> by congruence. exists o. split; [done |]. intros r ->. left.
    + destruct (H2 m ds Hm Hd) as (o2 & Ho & Hin). exists o2. split; [done |]. intros r ->. specialize (Hin r eq_refl). destruct o; [by right | done].
Qed.

(** The records of a workspace: all of them, in the order of generations *)
Definition all_records d (w : pystr) (l : list Cgroup) : Prop :=
  StronglySorted by_generation l /\ Forall (fun r => found_group d w (cg_generation r) (Some r)) l
  /\ forall g r, found_group d w g (Some r) -> r ∈ l.

#[export] Instance by_generation_total : Total by_generation.
Proof. intros a b. unfold by_generation. lia. Qed.

#[export] Instance by_generation_trans : Transitive by_generation.
Proof. intros a b c. unfold by_generation. lia. Qed.

Lemma found_functional d (w : pystr) (g : Z) (o p : option Cgroup) : found_group d w g o -> found_group d w g p -> o = p.
Proof.
  intros (n & Hn & Ho) (m & Hm & Hp). assert (m = n) as -> by congruence. destruct o as [a |], p as [b |]; try done.
  - destruct Ho as (f & Hf & Ha & _), Hp as (f' & Hf' & Hb & _). congruence.
  - destruct Ho as (f & Hf & _). congruence.
  - destruct Hp as (f & Hf & _). congruence.
Qed.

Lemma records_for_spec (w : pystr) C d : C d -> cwp (records_for store w) (fun d1 x => d1 = d /\ forall l, x = Ok l -> all_records d w l) C d.
Proof.
  intros HC. apply cwp_bind, cwp_lift. destruct (workspace_digest w) as [digest | e] eqn:Ed; [| by split].
  apply cwp_bind, cwp_try, cwp_call; [done | cbn; by apply cwp_raise |]. intros _. cbn [fst snd]. cbv zeta.
  apply cwp_bind, cwp_raise_if; [by split |]. intros _. apply cwp_bind. eapply cwp_mono; [by apply read_candidates_spec |]. cbn beta.
  intros d1 x [-> Hx]. destruct x as [l | e]; [| by split]. destruct (Hx l eq_refl) as [H1 H2]. apply cwp_ret. split; [done |]. intros k [= <-].
  unfold sort_records. split; [apply StronglySorted_merge_sort; apply _ |]. split; [by rewrite merge_sort_Permutation |].
  intros g r Hr. rewrite merge_sort_Permutation. pose proof Hr as (n & Hn & f & Hf & _). destruct (record_name_reads w g n digest Hn Ed) as (Hs & digits & Hm & Hv).
  destruct (H2 n digits) as (o & Ho & Hin); [| done |].
  - apply list_elem_of_filter. split; [done |]. apply list_elem_of_fmap. exists (n, f). split; [done |]. by apply elem_of_map_to_list.
  - rewrite Hv in Ho. apply Hin. by apply (found_functional d w g).
Qed.

End Specs.

(** ** What the operations change *)

(** [b] is the same generation as [a], no earlier in its life. *)
Record progress (a b : Cgroup) : Prop := {
  progress_identity : preserved a b = true;
  progress_state : state_rank (cg_cleanup_state a) <= state_rank (cg_cleanup_state b);
  progress_empty : is_empty a = true -> is_empty b = true;
  progress_epoch : digits_value (cg_runtime_epoch a) <= digits_value (cg_runtime_epoch b)
}.

Ltac split_bools := repeat match goal with
  | X : _ && _ = true |- _ => apply andb_true_iff in X as [X ?]
  | X : str_eqb _ _ = true |- _ => apply str_eqb_eq in X
  | X : bool_decide _ = true |- _ => apply bool_decide_eq_true in X
  | X : (_ =? _) = true |- _ => apply Z.eqb_eq in X
  end.

Lemma preserved_fields (a b : Cgroup) : preserved a b = true <->
  cg_workspace_id a = cg_workspace_id b /\ cg_project_id a = cg_project_id b /\ cg_agent_type a = cg_agent_type b /\ cg_generation a = cg_generation b
  /\ cg_service_unit a = cg_service_unit b /\ cg_delegated_subgroup a = cg_delegated_subgroup b /\ cg_workspace_relative_path a = cg_workspace_relative_path b
  /\ cg_workload_relative_path a = cg_workload_relative_path b /\ cg_controller_configuration_digest a = cg_controller_configuration_digest b
  /\ cg_workspace_limits a = cg_workspace_limits b /\ cg_workload_limits a = cg_workload_limits b /\ cg_attachment_limits a = cg_attachment_limits b.
Proof. unfold preserved. rewrite !andb_true_iff, !str_eqb_eq, !bool_decide_eq_true, Z.eqb_eq. tauto. Qed.

Lemma same_identity_preserved (a b : Cgroup) : same_identity a b = true -> preserved a b = true /\ cg_runtime_epoch a = cg_runtime_epoch b.
Proof. intros Hs. rewrite preserved_fields. unfold same_identity in Hs. split_bools. tauto. Qed.

#[export] Instance progress_preorder : PreOrder progress.
Proof.
  split.
  - intros a. split; [by apply preserved_fields | lia | done | lia].
  - intros a b c [A1 A2 A3 A4] [B1 B2 B3 B4]. rewrite preserved_fields in A1, B1. split; [rewrite preserved_fields | lia | auto | lia].
    repeat match goal with X : _ /\ _ |- _ => destruct X end. repeat split; congruence.
Qed.

Lemma validate_update_progress (c r : Cgroup) (u : unit) : validate_update c r = Ok u -> progress c r.
Proof.
  unfold validate_update. intros E. apply rbind_ok in E as ([] & [Hp He]%raise_if_ok%negb_false_iff%same_identity_preserved & E).
  apply rbind_ok in E as ([] & Hr%raise_if_ok & E). apply rbind_ok in E as ([] & Hc%raise_if_ok & E). split; [done | lia | | rewrite He; lia].
  intros Hempty. rewrite Hempty in Hc. cbn in Hc. by apply negb_false_iff, bool_decide_eq_true in Hc as ->.
Qed.

Lemma recovery_progress (expected observed : Cgroup) : changed_identity expected observed = false -> progress expected observed.
Proof.
  unfold changed_identity. intros [[[[Hp%negb_false_iff Hr]%orb_false_iff Hempty%negb_false_iff]%orb_false_iff _]%orb_false_iff _]%orb_false_iff.
  pose proof Hempty as Hs%str_eqb_eq. split; [done | rewrite Hs; change (state_rank $"EMPTY_DURABLE") with 2; unfold state_rank; repeat case_match; lia | done |].
  apply andb_false_iff in Hr as [Hr%negb_false_iff | [Hr _]%orb_false_iff]; [| lia]. unfold removal in Hr. split_bools. apply Z.eq_le_incl. f_equal. congruence.
Qed.

Section Changes.
Context `{Rfc8785Laws}.

(** A record may be written: it continues what is recorded of its generation, or
    begins one after the generation before was found empty. *)
Definition in_turn (d : Folder) (r : Cgroup) : Prop :=
  found_group d (cg_workspace_id r) (cg_generation r) None
    /\ (cg_generation r = 1 \/ exists p, found_group d (cg_workspace_id r) (cg_generation r - 1) (Some p) /\ is_empty p = true)
  \/ exists c, found_group d (cg_workspace_id r) (cg_generation r) (Some c) /\ progress c r.

(** What an operation does to the directory, when it returns, raises or dies *)
Definition group_step (d d1 : Folder) : Prop :=
  (exists t, same_but ($"." ++ t) d d1)
  \/ exists r n raw t flushed, record_name (cg_workspace_id r) (cg_generation r) = Ok n /\ encode_attestation r = Ok raw /\ in_turn d r
       /\ replaced ($"." ++ t) n raw d d1 flushed.

Lemma step_refl (d : Folder) : group_step d d.
Proof. left. by exists []. Qed.

Lemma record_name_not_temp (w : pystr) (g : Z) (n t : pystr) : record_name w g = Ok n -> n <> $"." ++ t.
Proof.
  intros (_ & _ & digest & Hd & ->)%record_name_ok. apply workspace_digest_hex in Hd. destruct digest as [|c digest]; [done |].
  apply andb_true_iff in Hd as [_ Hd]. cbn [forallb] in Hd. apply andb_true_iff in Hd as [Hc _]. intros [= -> _].
  unfold is_lower_hex, is_digit, in_range in Hc. done.
Qed.

(** What was recorded stays recorded, and moves forward. *)
Lemma step_progress (d d1 : Folder) (w : pystr) (g : Z) (r : Cgroup) : group_step d d1 -> found_group d w g (Some r) ->
  exists r1, found_group d1 w g (Some r1) /\ progress r r1.
Proof.
  intros Hst Hr. pose proof Hr as (n & Hn & f & Hf & Hdec & Hw & Hg). destruct Hst as [(t & Hs) | (r1 & n1 & raw & t & fl & Hn1 & Hraw & Hturn & f1 & Hd & _ & Hall)].
  - exists r. split; [| done]. exists n. split; [done |]. exists f. by rewrite (proj1 (Hs n (record_name_not_temp w g n t Hn))).
  - pose proof (proj1 (Hall n (record_name_not_temp w g n t Hn))) as E. destruct (decide (n = n1)) as [<- | Hne].
    + rewrite lookup_insert_eq in E. destruct Hturn as [[(m & Hm & Hnone) _] | (c & (m & Hm & f2 & Hf2 & Hdec2 & Hw2 & Hg2) & Hp)].
      * assert (m = n) as -> by congruence. congruence.
      * assert (m = n) as -> by congruence. assert (c = r) as -> by congruence. exists r1. split; [| done]. exists n. split; [done |]. exists f1.
        split; [done |]. rewrite Hd, (encoded_decodes r1 raw Hraw). split; [done |]. destruct Hp as [Hid _ _ _]. apply preserved_fields in Hid as (? & _ & _ & ? & _). split; congruence.
    + rewrite lookup_insert_ne in E by done. exists r. split; [| done]. exists n. split; [done |]. exists f. by rewrite E.
Qed.

Context (store : GroupStore) (env : Surroundings).

Definition group_temp : pystr := $".cgroup-attestation." ++ temp_token env ++ $".tmp".

Lemma replace_group_spec (r : Cgroup) (raw : bytes) (n : pystr) (d : Folder) : record_name (cg_workspace_id r) (cg_generation r) = Ok n ->
  cwp (replace_group store env r raw) (wrote group_temp n raw d) (moved group_temp n raw d) d.
Proof.
  intros En. apply cwp_bind, cwp_lift. rewrite En. cbv zeta. fold group_temp. set (t := group_temp). set (C := moved t n raw d).
  assert (Hs : forall d2, same_but t d d2 -> C d2) by (by left). assert (Hd : same_but t d d) by done. assert (Hm : forall d2, C d2 -> C d2) by done.
  assert (Hstay : forall d1 e, same_but t d d1 -> wrote t n raw d d1 (Raise e)) by (by left).
  apply cwp_bind, cwp_attempt. eapply cwp_mono; [apply (create_file_spec t d C (created env)); by apply Hs |]. cbn beta. intros d1 x (Hs1 & _ & Hf).
  destruct x as [[] | e]; [| apply cwp_raise; by apply Hstay]. specialize (Hf eq_refl).
  assert (Hfail : forall d2, same_but t d d2 -> cwp (then! suppress close_file in io_raise (group_error "attestation update could not be prepared")) (wrote t n raw d) C d2).
  { intros d2 H2. apply cwp_bind, cwp_try, cwp_observe; [by apply Hs | cbn; apply cwp_ret, cwp_raise; by apply Hstay | apply cwp_raise; by apply Hstay]. }
  apply cwp_bind, cwp_attempt, cwp_bind. eapply cwp_mono; [by apply (write_view_spec t d C _ raw (mkFile (created env) [] false)); [| | | lia] |].
  cbn beta. intros d2 x (Hs2 & _ & Hg). destruct x as [[] | e]; [| by apply Hfail]. destruct (Hg eq_refl) as (g & Eg & Dg). cbn [f_data app] in Dg.
  apply cwp_bind. eapply cwp_mono; [by apply (sync_file_spec t d C g) |]. cbn beta. intros d3 x (Hs3 & _ & Hy). destruct x as [[] | e]; [| by apply Hfail].
  destruct (Hy eq_refl) as (y & Ey & Dy & Sy). apply cwp_bind, cwp_observe; [by apply Hs | by apply Hfail |]. apply cwp_raise_if; [by apply Hfail |]. intros _.
  assert (Hend : cwp (io_finally (io_try (then! replace_file t n in sync_folder) [PyOSError] (io_raise (group_error "attestation update could not be committed")))
      (suppress (unlink_file t))) (wrote t n raw d) C d3).
  { apply cwp_finally, cwp_try. assert (Hclean : forall d4 x, wrote t n raw d d4 x ->
      cwp (suppress (unlink_file t)) (fun d5 rc => wrote t n raw d d5 (match rc with Ok _ => x | Raise e => Raise e end)) C d4).
    { intros d4 x Hx. eapply cwp_mono; [by apply (unlink_spec t n raw d C x d4) |]. cbn beta. by intros d5 u [-> H5]. }
    eapply cwp_mono; [apply (rename_spec t n raw d C d3 y); [done | done | done | congruence | done] |]. cbn beta. intros d4 x [Hw _].
    destruct x as [[] | e]; [by apply Hclean |]. destruct (existsb _ _); [apply cwp_raise |]; by apply Hclean. }
  apply cwp_bind, cwp_try, cwp_observe; [by apply Hs | cbn; apply cwp_ret; exact Hend | exact Hend].
Qed.

Lemma replace_group_step (r : Cgroup) (raw : bytes) (d : Folder) : encode_attestation r = Ok raw -> in_turn d r ->
  cwp (replace_group store env r raw) (fun d1 _ => group_step d d1) (group_step d) d.
Proof.
  intros Hraw Ht. assert (exists n, record_name (cg_workspace_id r) (cg_generation r) = Ok n) as (n & En).
  { destruct Ht as [[(n & Hn & _) _] | (c & (n & Hn & _) & _)]; by exists n. }
  assert (K : forall d1, moved group_temp n raw d d1 -> group_step d d1).
  { intros d1 [Hs | [fl Hr]]; [left; by exists ($"cgroup-attestation." ++ temp_token env ++ $".tmp") | right]. by exists r, n, raw, ($"cgroup-attestation." ++ temp_token env ++ $".tmp"), fl. }
  eapply cwp_conseq; [by apply (replace_group_spec r raw n) | exact K |]. intros d1 x Hx. by apply K, (wrote_moved _ _ _ _ _ x).
Qed.

Lemma check_next_turn (r : Cgroup) (d : Folder) : found_group d (cg_workspace_id r) (cg_generation r) None ->
  cwp (check_next store r) (fun d1 x => d1 = d /\ (x = Ok tt -> in_turn d r)) (group_step d) d.
Proof.
  intros Hn. pose proof (step_refl d) as Hd. unfold check_next. destruct (cg_generation r =? 1) eqn:E1.
  { apply Z.eqb_eq in E1. apply cwp_ret. split; [done |]. intros _. left. split; [done | by left]. }
  apply cwp_bind, cwp_bind. eapply cwp_mono; [by apply records_for_spec |]. cbn beta. intros d1 x [-> Hx]. destruct x as [l | e]; [| by split].
  destruct (Hx l eq_refl) as (_ & Hall & _). apply cwp_ret. destruct (last l) as [p |] eqn:El; [| by apply cwp_raise].
  apply cwp_bind, cwp_raise_if; [by split |]. intros Hg%negb_false_iff%Z.eqb_eq. apply cwp_bind, cwp_raise_if; [by split |]. intros _.
  apply cwp_raise_if; [by split |]. intros He%negb_false_iff. split; [done |]. intros _. left. split; [done |]. right. exists p. split; [| done].
  rewrite Forall_forall in Hall. replace (cg_generation r - 1) with (cg_generation p) by lia. by apply Hall, last_Some_elem_of.
Qed.

Lemma write_group_step (r : Cgroup) (d : Folder) : cwp (write store env r) (fun d1 _ => group_step d d1) (group_step d) d.
Proof.
  pose proof (step_refl d) as Hd. apply cwp_bind, cwp_raise_if; [done |]. intros _. apply cwp_bind, cwp_lift. destruct (except_as _ _ _) as [raw |] eqn:Er; [| done].
  apply except_as_ok in Er. apply locked_groups_spec; [done | done | done |]. apply cwp_bind. eapply cwp_mono; [by apply read_group_spec |]. cbn beta.
  intros d1 x [-> Hx]. destruct x as [[c |] | e]; [| | done]; specialize (Hx _ eq_refl).
  - apply cwp_bind, cwp_lift. destruct (validate_update c r) as [u |] eqn:Eu; [| done]. apply cwp_bind, cwp_lift. destruct (encode_attestation c) as [again |]; [| done].
    destruct (bytes_eqb again raw); [by apply cwp_ret |]. apply cwp_bind. eapply cwp_mono; [apply (replace_group_step r raw d Er); right; exists c; split; [done |]; by apply (validate_update_progress c r u) |].
    cbn beta. intros d1 [[] | e] H1; [by apply cwp_ret | done].
  - apply cwp_bind. eapply cwp_mono; [by apply check_next_turn |]. cbn beta. intros d1 x [-> Hn]. destruct x as [[] | e]; [| done]. apply cwp_bind.
    eapply cwp_mono; [apply (replace_group_step r raw d Er); by apply Hn |]. cbn beta. intros d1 [[] | e] H1; [by apply cwp_ret | done].
Qed.

(** A new generation that [write] returned: what the records show is durable, the
    new one among them. *)
Definition recorded (r : Cgroup) (d d1 : Folder) (x : result Cgroup) : Prop := forall c, x = Ok c ->
  found_group d1 (cg_workspace_id r) (cg_generation r) (Some r) /\ exists t, forall n, n <> $"." ++ t -> kept d1 !! n = shown d1 !! n.

Lemma replaced_recorded (r : Cgroup) (raw : bytes) (n : pystr) (d d1 : Folder) (c : Cgroup) : encode_attestation r = Ok raw ->
  record_name (cg_workspace_id r) (cg_generation r) = Ok n -> replaced group_temp n raw d d1 true -> recorded r d d1 (Ok c).
Proof.
  intros Hraw En (f & Hf & _ & Hall) _ _. split.
  - exists n. split; [done |]. exists f. rewrite (proj1 (Hall n (record_name_not_temp _ _ n ($"cgroup-attestation." ++ temp_token env ++ $".tmp") En))), lookup_insert_eq.
    by rewrite Hf, (encoded_decodes r raw Hraw).
  - exists ($"cgroup-attestation." ++ temp_token env ++ $".tmp"). intros m Hm. by apply Hall.
Qed.

Lemma write_new_recorded (r : Cgroup) (d : Folder) : found_group d (cg_workspace_id r) (cg_generation r) None ->
  cwp (write store env r) (recorded r d) (fun _ => True) d.
Proof.
  intros Hnone. assert (HR : forall d1 e, recorded r d d1 (Raise e)) by done. apply cwp_bind, cwp_raise_if; [done |]. intros _. apply cwp_bind, cwp_lift.
  destruct (except_as _ _ _) as [raw |] eqn:Er; [| done]. apply except_as_ok in Er. apply locked_groups_spec; [done | done | done |]. apply cwp_bind.
  eapply cwp_mono; [by apply read_group_spec |]. cbn beta. intros d1 x [-> Hx]. destruct x as [[c |] | e]; [| | done]; specialize (Hx _ eq_refl).
  - discriminate (found_functional d _ _ _ _ Hx Hnone).
  - apply cwp_bind. eapply cwp_conseq; [by apply check_next_turn | done |]. cbn beta. intros d1 x [-> _]. destruct x as [[] | e]; [| done]. apply cwp_bind.
    pose proof Hnone as (n & En & _). eapply cwp_conseq; [by apply (replace_group_spec r raw n) | done |]. cbn beta.
    intros d1 [[] | e] H1; [| done]. apply cwp_ret. by apply (replaced_recorded r raw n).
Qed.

Lemma recover_empty_step (expected observed : Cgroup) (d : Folder) : cwp (recover_empty store env expected observed) (fun d1 _ => group_step d d1) (group_step d) d.
Proof.
  pose proof (step_refl d) as Hd. apply cwp_bind, cwp_lift. destruct (except_as _ _ _) as [x |]; [| done]. clear x.
  apply cwp_bind, cwp_lift. destruct (except_as (encode_attestation observed) _ _) as [raw |] eqn:Er; [| done]. apply except_as_ok in Er.
  apply cwp_bind, cwp_raise_if; [done |]. intros Hp%recovery_progress. apply locked_groups_spec; [done | done | done |].
  apply cwp_bind. eapply cwp_mono; [by apply records_for_spec |]. cbn beta. intros d1 x [-> Hx]. destruct x as [l | e]; [| done]. destruct (Hx l eq_refl) as (_ & Hall & _).
  destruct (last l) as [current |] eqn:El; [| by apply cwp_raise]. apply cwp_bind, cwp_raise_if; [done |]. intros _. apply cwp_bind, cwp_raise_if; [done |]. intros _.
  case_bool_decide; [by apply cwp_ret |]. apply cwp_bind, cwp_raise_if; [done |]. intros ->%negb_false_iff%bool_decide_eq_true.
  apply cwp_bind. eapply cwp_mono; [apply (replace_group_step observed raw d Er) |].
  - right. exists expected. split; [| done]. rewrite Forall_forall in Hall. specialize (Hall expected (last_Some_elem_of _ _ El)).
    destruct Hp as [Hid _ _ _]. apply preserved_fields in Hid as (<- & _ & _ & <- & _). exact Hall.
  - cbn beta. intros d1 [[] | e] H1; [by apply cwp_ret | done].
Qed.

Lemma acknowledge_empty_step (r : Cgroup) (d : Folder) : cwp (acknowledge_empty store env r) (fun d1 _ => group_step d d1) (group_step d) d.
Proof.
  pose proof (step_refl d) as Hd. apply cwp_bind, cwp_raise_if; [done |]. intros _. apply cwp_bind, cwp_lift. destruct (except_as _ _ _) as [raw |] eqn:Er; [| done].
  apply except_as_ok in Er. apply locked_groups_spec; [done | done | done |]. apply cwp_bind. eapply cwp_mono; [by apply records_for_spec |]. cbn beta.
  intros d1 x [-> Hx]. destruct x as [l | e]; [| done]. apply cwp_bind, cwp_raise_if; [done |]. intros _. apply cwp_bind. eapply cwp_mono; [by apply read_group_spec |].
  cbn beta. intros d1 x [-> Hc]. destruct x as [[c |] | e]; [| by apply cwp_raise | done]. specialize (Hc _ eq_refl). apply cwp_bind, cwp_lift.
  destruct (validate_update c r) as [u |] eqn:Eu; [| done]. apply cwp_bind.
  eapply cwp_mono; [apply (replace_group_step r raw d Er); right; exists c; split; [done |]; by apply (validate_update_progress c r u) |].
  cbn beta. intros d1 [[] | e] H1; [| done]. apply cwp_bind. eapply cwp_mono; [by apply records_for_spec |]. cbn beta. intros d2 x [-> _].
  destruct x; [by apply cwp_ret | done].
Qed.

(** Reading changes nothing. *)
Lemma locked_reads {A} (body : io Folder A) (d : Folder) : cwp body (fun d1 _ => d1 = d) (fun d1 => d1 = d) d -> cwp (locked store env body) (fun d1 _ => d1 = d) (fun d1 => d1 = d) d.
Proof. intros Hb. apply locked_groups_spec; [done | done | by intros d1 r -> | done]. Qed.

Lemma snapshot_spec (w : pystr) (d : Folder) : cwp (snapshot store env w) (fun d1 x => d1 = d /\ forall s, x = Ok s ->
  exists l, all_records d w l /\ s = mkSnapshot (cg_generation <$> last l) (map cg_generation (unresolved l)) (last (unresolved l))) (fun d1 => d1 = d) d.
Proof.
  apply cwp_bind, cwp_raise_if; [done |]. intros _. apply locked_groups_spec; [done | done | intros d1 r [-> _]; by split |]. apply cwp_bind.
  eapply cwp_mono; [by apply records_for_spec |]. cbn beta. intros d1 x [-> Hx]. destruct x as [l | e]; [| by split]. apply cwp_ret. split; [done |].
  intros s [= <-]. exists l. split; [by apply Hx | done].
Qed.

Lemma reads_records {A} (w : pystr) (k : list Cgroup -> A) (d : Folder) :
  cwp (then! check_workspace w in locked store env (io! l := records_for store w in io_ret (k l))) (fun d1 _ => d1 = d) (fun d1 => d1 = d) d.
Proof.
  apply cwp_bind, cwp_raise_if; [done |]. intros _. apply locked_reads, cwp_bind. eapply cwp_mono; [by apply records_for_spec |]. cbn beta. intros d1 x [-> _].
  destruct x; [by apply cwp_ret | done].
Qed.

(** *** Groups that are found empty *)

(** Every record of [w] is empty. *)
Definition all_empty (d : Folder) (w : pystr) : Prop := forall g r, found_group d w g (Some r) -> is_empty r = true.

(** What is recorded was recorded before, or is empty. *)
Definition emptying (d d1 : Folder) : Prop := forall w g r, found_group d1 w g (Some r) -> is_empty r = true \/ found_group d w g (Some r).

Lemma all_empty_emptying (d d1 : Folder) (w : pystr) : emptying d d1 -> all_empty d w -> all_empty d1 w.
Proof. intros He Ha g r Hr. destruct (He w g r Hr) as [? | ?]; [done | by apply (Ha g)]. Qed.

Lemma unresolved_none (d : Folder) (w : pystr) (l : list Cgroup) : all_records d w l -> last (unresolved l) = None -> all_empty d w.
Proof.
  intros (_ & _ & Hall) Hu%last_None g r Hr. destruct (is_empty r) eqn:E; [done |]. assert (Hin : r ∈ unresolved l).
  { apply list_elem_of_filter. split; [done |]. by apply (Hall g). }
  rewrite Hu in Hin. by apply elem_of_nil in Hin.
Qed.

(** [r] is the record that the file of its generation shows. *)
Definition shows_group (d : Folder) (r : Cgroup) : Prop :=
  forall w g c, record_name w g = record_name (cg_workspace_id r) (cg_generation r) -> found_group d w g (Some c) -> c = r.

Lemma replaced_found (r : Cgroup) (raw : bytes) (n t : pystr) (d d1 : Folder) (fl : bool) : record_name (cg_workspace_id r) (cg_generation r) = Ok n ->
  encode_attestation r = Ok raw -> replaced ($"." ++ t) n raw d d1 fl -> forall w g c, found_group d1 w g (Some c) -> c = r \/ found_group d w g (Some c) /\ record_name w g <> Ok n.
Proof.
  intros Hn Hraw (f & Hd & _ & Hall) w g c (m & Hm & f1 & Hf1 & Hc & Hw & Hg). rewrite (proj1 (Hall m (record_name_not_temp w g m t Hm))) in Hf1.
  destruct (decide (m = n)) as [-> | Hne].
  - rewrite lookup_insert_eq in Hf1. left. assert (f1 = f) as -> by congruence. rewrite Hd, (encoded_decodes r raw Hraw) in Hc. congruence.
  - rewrite lookup_insert_ne in Hf1 by done. right. split; [| congruence]. exists m. split; [done |]. by exists f1.
Qed.

Lemma moved_emptying (r : Cgroup) (raw : bytes) (n t : pystr) (d d1 : Folder) : record_name (cg_workspace_id r) (cg_generation r) = Ok n ->
  encode_attestation r = Ok raw -> is_empty r = true -> moved ($"." ++ t) n raw d d1 -> emptying d d1.
Proof.
  intros Hn Hraw He [Hs | [fl Hr]] w g c Hc.
  - right. destruct Hc as (m & Hm & Hf). exists m. split; [done |]. by rewrite <- (proj1 (Hs m (record_name_not_temp w g m t Hm))).
  - destruct (replaced_found r raw n t d d1 fl Hn Hraw Hr w g c Hc) as [-> | [? _]]; [by left | by right].
Qed.

Lemma replace_group_empties (r : Cgroup) (raw : bytes) (d : Folder) : encode_attestation r = Ok raw -> is_empty r = true ->
  cwp (replace_group store env r raw) (fun d1 x => emptying d d1 /\ (x = Ok tt -> shows_group d1 r)) (emptying d) d.
Proof.
  intros Hraw He. assert (Hd : emptying d d) by (by right). destruct (record_name (cg_workspace_id r) (cg_generation r)) as [n | e] eqn:En.
  2:{ apply cwp_bind, cwp_lift. by rewrite En. }
  set (t := $"cgroup-attestation." ++ temp_token env ++ $".tmp"). assert (K : forall d1, moved group_temp n raw d d1 -> emptying d d1).
  { intros d1 Hm. by apply (moved_emptying r raw n t). }
  eapply cwp_conseq; [by apply (replace_group_spec r raw n) | exact K |]. intros d1 x Hx. split; [by apply K, (wrote_moved _ _ _ _ _ x) |].
  intros -> w g c Hwg Hc. destruct (replaced_found r raw n t d d1 true En Hraw Hx w g c Hc) as [-> | [_ Hne]]; [done |]. by rewrite Hwg, En in Hne.
Qed.

Lemma all_but_last_last {A} (l : list A) (x : A) : last l = Some x -> l = all_but_last l ++ [x].
Proof.
  intros [k ->]%last_Some. unfold all_but_last. rewrite length_app. cbn [length]. replace (length k + 1 - 1)%nat with (length k) by lia.
  by rewrite take_app_length.
Qed.

(** A recovery that returns leaves no group of the workspace. *)
Lemma recover_empty_empties (expected observed : Cgroup) (d : Folder) : cwp (recover_empty store env expected observed)
  (fun d1 x => emptying d d1 /\ (x = Ok true -> all_empty d1 (cg_workspace_id observed))) (emptying d) d.
Proof.
  assert (Hd : emptying d d) by (by right). apply cwp_bind, cwp_lift. destruct (except_as _ _ _) as [x |]; [| done]. clear x.
  apply cwp_bind, cwp_lift. destruct (except_as (encode_attestation observed) _ _) as [raw |] eqn:Er; [| done]. apply except_as_ok in Er.
  apply cwp_bind, cwp_raise_if; [done |]. intros Hch. assert (He : is_empty observed = true).
  { unfold changed_identity in Hch. by apply orb_false_iff in Hch as [[[_ ?%negb_false_iff]%orb_false_iff _]%orb_false_iff _]. }
  apply recovery_progress, progress_identity, preserved_fields in Hch as (Hw & _ & _ & Hg & _).
  apply locked_groups_spec; [done | done | intros d1 x [H1 _]; by split |]. apply cwp_bind. eapply cwp_mono; [by apply records_for_spec |]. cbn beta.
  intros d1 x [-> Hx]. destruct x as [l | e]; [| done]. destruct (Hx l eq_refl) as (_ & Hall & Hin).
  destruct (last l) as [current |] eqn:El; [| by apply cwp_raise]. apply cwp_bind, cwp_raise_if; [done |]. intros Hcg%negb_false_iff%Z.eqb_eq.
  apply cwp_bind, cwp_raise_if; [done |]. intros Hold. pose proof (all_but_last_last l current El) as Hl.
  assert (Hrest : forall g r, found_group d (cg_workspace_id observed) g (Some r) -> is_empty r = true \/ r = current).
  { intros g r Hr. rewrite <- Hw in Hr. apply Hin in Hr. rewrite Hl in Hr. apply elem_of_app in Hr as [Hr | ->%list_elem_of_singleton]; [| by right]. left.
    destruct (is_empty r) eqn:E; [done |]. assert (X : existsb (fun r => negb (is_empty r)) (all_but_last l) = true).
    { apply existsb_exists. exists r. split; [by apply list_elem_of_In | by rewrite E]. }
    congruence. }
  case_bool_decide as Hcur.
  { apply cwp_ret. split; [done |]. intros _ g r Hr. destruct (Hrest g r Hr) as [? | ->]; [done |]. by rewrite Hcur. }
  apply cwp_bind, cwp_raise_if; [done |]. intros Hce%negb_false_iff%bool_decide_eq_true. apply cwp_bind. eapply cwp_mono; [by apply (replace_group_empties observed raw) |].
  cbn beta. intros d1 x [H1 H2]. destruct x as [[] | e]; [| by split]. apply cwp_ret. split; [done |]. intros _ g r Hr.
  destruct (H1 _ _ _ Hr) as [? | Hr0]; [done |]. destruct (Hrest g r Hr0) as [? | ->]; [done |]. specialize (H2 eq_refl).
  assert (cg_generation current = g) as Eg by (by destruct Hr as (n & _ & f & _ & _ & _ & ?)).
  rewrite (H2 (cg_workspace_id observed) g current); [done | | done]. f_equal. congruence.
Qed.

(** So does an acknowledgement that says so. *)
Lemma acknowledge_empty_empties (r : Cgroup) (d : Folder) : cwp (acknowledge_empty store env r)
  (fun d1 x => emptying d d1 /\ (x = Ok true -> all_empty d1 (cg_workspace_id r))) (emptying d) d.
Proof.
  assert (Hd : emptying d d) by (by right). apply cwp_bind, cwp_raise_if; [done |]. intros [[He%negb_false_iff _]%orb_false_iff _]%orb_false_iff.
  apply cwp_bind, cwp_lift. destruct (except_as _ _ _) as [raw |] eqn:Er; [| done]. apply except_as_ok in Er.
  apply locked_groups_spec; [done | done | intros d1 x [H1 _]; by split |]. apply cwp_bind. eapply cwp_mono; [by apply records_for_spec |]. cbn beta.
  intros d1 x [-> Hx]. destruct x as [l | e]; [| done]. apply cwp_bind, cwp_raise_if; [done |]. intros _. apply cwp_bind. eapply cwp_mono; [by apply read_group_spec |].
  cbn beta. intros d1 x [-> Hc]. destruct x as [[c |] | e]; [| by apply cwp_raise | done]. apply cwp_bind, cwp_lift.
  destruct (validate_update c r) as [u |]; [| done]. apply cwp_bind. eapply cwp_mono; [by apply (replace_group_empties r raw) |]. cbn beta.
  intros d1 x [H1 _]. destruct x as [[] | e]; [| by split]. apply cwp_bind. eapply cwp_mono; [by apply records_for_spec |]. cbn beta. intros d2 x [-> Hy].
  destruct x as [k | e]; [| by split]. destruct (Hy k eq_refl) as (_ & _ & Hin). apply cwp_ret. split; [done |]. intros [= Hk%negb_true_iff] g c0 Hc0.
  destruct (is_empty c0) eqn:E; [done |]. assert (X : existsb (fun r => negb (is_empty r)) k = true).
  { apply existsb_exists. exists c0. split; [by apply list_elem_of_In, (Hin g) | by rewrite E]. }
  congruence.
Qed.

End Changes.


(** ** Histories of one directory *)

Inductive group_request : Type :=
| ReadGroup (w : pystr) (g : Z)
| LatestUnresolved (w : pystr)
| HasUnresolved (w : pystr)
| UnresolvedGenerations (w : pystr)
| LatestGeneration (w : pystr)
| TakeSnapshot (w : pystr)
| WriteGroup (r : Cgroup)
| RecoverEmpty (expected observed : Cgroup)
| AcknowledgeEmpty (r : Cgroup).

Definition perform_group `{Rfc8785} (store : GroupStore) (env : Surroundings) (q : group_request) : io Folder unit :=
  match q with
  | ReadGroup w g => then! read store env w g in io_ret tt
  | LatestUnresolved w => then! latest_unresolved store env w in io_ret tt
  | HasUnresolved w => then! has_unresolved store env w in io_ret tt
  | UnresolvedGenerations w => then! unresolved_generations store env w in io_ret tt
  | LatestGeneration w => then! latest_generation store env w in io_ret tt
  | TakeSnapshot w => then! snapshot store env w in io_ret tt
  | WriteGroup r => then! write store env r in io_ret tt
  | RecoverEmpty expected observed => then! recover_empty store env expected observed in io_ret tt
  | AcknowledgeEmpty r => then! acknowledge_empty store env r in io_ret tt
  end.

(** The directory [d] after requests that began with [d0], each by any process with
    any outcome of its calls; the machine keeps running. *)
Inductive grouped `{Rfc8785} (d0 : Folder) : Folder -> Prop :=
| Grouped_start : grouped d0 d0
| Grouped_run d store env q evs d1 rest r : grouped d0 d -> perform_group store env q d evs = Ran d1 rest r -> grouped d0 d1
| Grouped_dies d store env q evs d1 : grouped d0 d -> perform_group store env q d evs = Died d1 -> grouped d0 d1.

Section Histories.
Context `{Rfc8785Laws}.

Lemma reads_step {A} (m : io Folder A) (d : Folder) : cwp m (fun d1 _ => d1 = d) (fun d1 => d1 = d) d ->
  cwp (then! m in io_ret tt) (fun d1 _ => group_step d d1) (group_step d) d.
Proof.
  intros Hm. apply cwp_bind. eapply cwp_conseq; [exact Hm | intros d1 ->; apply step_refl |]. cbn beta. intros d1 x ->.
  destruct x; [apply cwp_ret |]; apply step_refl.
Qed.

Lemma writes_step {A} (m : io Folder A) (d : Folder) : cwp m (fun d1 _ => group_step d d1) (group_step d) d ->
  cwp (then! m in io_ret tt) (fun d1 _ => group_step d d1) (group_step d) d.
Proof. intros Hm. apply cwp_bind. eapply cwp_mono; [exact Hm |]. cbn beta. intros d1 x H1. destruct x; [by apply cwp_ret | done]. Qed.

Lemma perform_group_step (store : GroupStore) (env : Surroundings) (q : group_request) (d : Folder) :
  cwp (perform_group store env q) (fun d1 _ => group_step d d1) (group_step d) d.
Proof.
  destruct q; cbn [perform_group]; [apply reads_step .. | apply writes_step | apply writes_step | apply writes_step].
  - apply cwp_bind, cwp_lift. destruct (validate_key w g) as [u |]; [| done]. apply locked_reads. eapply cwp_mono; [by apply read_group_spec |]. by intros d1 r [-> _].
  - apply reads_records.
  - apply cwp_bind. eapply cwp_mono; [apply reads_records |]. cbn beta. intros d1 x ->. destruct x; [by apply cwp_ret | done].
  - apply reads_records.
  - apply cwp_bind, cwp_raise_if; [done |]. intros _. apply locked_reads, cwp_bind, cwp_bind. eapply cwp_mono; [by apply records_for_spec |].
    cbn beta. intros d1 x [-> _]. destruct x; [by apply cwp_ret, cwp_ret | done].
  - eapply cwp_mono; [apply snapshot_spec |]. by intros d1 x [-> _].
  - apply write_group_step.
  - apply recover_empty_step.
  - apply acknowledge_empty_step.
Qed.

Lemma grouped_ind_steps (d0 : Folder) (I : Folder -> Prop) : I d0 -> (forall d d1, I d -> group_step d d1 -> I d1) -> forall d, grouped d0 d -> I d.
Proof.
  intros H0 Hs d Hd. induction Hd as [| d store env q evs d1 rest r _ IH E | d store env q evs d1 _ IH E]; [done | |];
    pose proof (perform_group_step store env q d evs) as Hq; rewrite E in Hq; by apply (Hs d).
Qed.

(** Every generation but the first follows one that is empty. *)
Definition ordered (d : Folder) : Prop := forall w g r, found_group d w g (Some r) -> 1 < g ->
  exists p, found_group d w (g - 1) (Some p) /\ is_empty p = true.

Lemma step_ordered (d d1 : Folder) : ordered d -> group_step d d1 -> ordered d1.
Proof.
  intros Ho Hst w g r Hr Hg. assert (K : forall p, found_group d w (g - 1) (Some p) -> is_empty p = true ->
    exists p1, found_group d1 w (g - 1) (Some p1) /\ is_empty p1 = true).
  { intros p Hp He. destruct (step_progress d d1 w (g - 1) p Hst Hp) as (p1 & Hp1 & Hpr). exists p1. split; [done |]. by apply Hpr. }
  assert (L : forall c, found_group d w g (Some c) -> exists p1, found_group d1 w (g - 1) (Some p1) /\ is_empty p1 = true).
  { intros c Hc. destruct (Ho w g c Hc Hg) as (p & Hp & He). by apply (K p). }
  destruct Hr as (n & Hn & f & Hf & Hdec & Hw & Hgr). destruct Hst as [(t & Hs) | (r1 & n1 & raw & t & fl & Hn1 & Hraw & Hturn & f1 & Hd & _ & Hall)].
  - apply (L r). exists n. split; [done |]. exists f. by rewrite <- (proj1 (Hs n (record_name_not_temp w g n t Hn))).
  - pose proof (proj1 (Hall n (record_name_not_temp w g n t Hn))) as E. destruct (decide (n = n1)) as [<- | Hne].
    + rewrite lookup_insert_eq in E. assert (f1 = f) as -> by congruence. rewrite Hd, (encoded_decodes r1 raw Hraw) in Hdec. apply Ok_inj in Hdec. subst r1.
      unfold in_turn in Hturn. rewrite Hw, Hgr in Hturn. destruct Hturn as [[_ [-> | (p & Hp & He)]] | (c & Hc & _)]; [lia | by apply (K p) | by apply (L c)].
    + rewrite lookup_insert_ne in E by done. apply (L r). exists n. split; [done |]. exists f. by rewrite <- E.
Qed.

Lemma ordered_below (d : Folder) (w : pystr) (k : nat) (g : Z) (r : Cgroup) : ordered d -> found_group d w g (Some r) -> 1 <= g - Z.of_nat k -> (0 < k)%nat ->
  exists p, found_group d w (g - Z.of_nat k) (Some p) /\ is_empty p = true.
Proof.
  intros Ho. revert g r. induction k as [|k IH]; intros g r Hr Hk Hpos; [lia |]. destruct (Ho w g r Hr) as (p & Hp & He); [lia |].
  destruct k as [|k]; [by exists p |]. destruct (IH (g - 1) p Hp) as (q & Hq & Hqe); [lia | lia |]. exists q. split; [| done].
  by replace (g - Z.of_nat (S (S k))) with (g - 1 - Z.of_nat (S k)) by lia.
Qed.

(** The files of the records were synced before they got their names. *)
Definition records_synced (d : Folder) : Prop := forall w g n f, record_name w g = Ok n -> shown d !! n = Some f -> f_synced f = true.

Lemma step_synced (d d1 : Folder) : records_synced d -> group_step d d1 -> records_synced d1.
Proof.
  intros Hd Hst w g n f Hn Hf. destruct Hst as [(t & Hs) | (r & n1 & raw & t & fl & _ & _ & _ & f1 & _ & Hy & Hall)].
  - rewrite (proj1 (Hs n (record_name_not_temp w g n t Hn))) in Hf. by apply (Hd w g n).
  - rewrite (proj1 (Hall n (record_name_not_temp w g n t Hn))) in Hf. apply lookup_insert_Some in Hf as [[_ <-] | [_ Hf]]; [done | by apply (Hd w g n)].
Qed.

Lemma grouped_ordered (d : Folder) : grouped (mkFolder ∅ ∅) d -> ordered d /\ records_synced d.
Proof.
  revert d. apply grouped_ind_steps.
  - split; [intros v j p (n & _ & f & Hf & _) | intros v j n f _ Hf]; cbn [shown] in Hf; by rewrite lookup_empty in Hf.
  - intros d d1 [Ho Hy] Hst. split; [by apply (step_ordered d) | by apply (step_synced d)].
Qed.

Lemma ordered_turn (d : Folder) (w : pystr) (g k : Z) (r : Cgroup) : ordered d -> found_group d w g (Some r) -> 1 <= k < g ->
  exists p, found_group d w k (Some p) /\ is_empty p = true.
Proof.
  intros Ho Hr Hk. replace k with (g - Z.of_nat (Z.to_nat (g - k))) by lia. apply (ordered_below d w _ g r); [done | done | lia | lia].
Qed.

(** A record that is shown and durable is found after a power loss. *)
Lemma survives_power (d : Folder) (m : gmap pystr File) (t w : pystr) (g : Z) (r : Cgroup) : records_synced d ->
  (forall n, n <> $"." ++ t -> kept d !! n = shown d !! n) -> power_lost d m -> found_group d w g (Some r) -> found_group (mkFolder m m) w g (Some r).
Proof.
  intros Hy Hk Hm (n & Hn & f & Hf & Hr). exists n. split; [done |]. exists f. split; [| done]. cbn [shown].
  specialize (Hm n). rewrite (Hk n (record_name_not_temp w g n t Hn)), Hf in Hm. pose proof (Hy w g n f Hn Hf) as Ey.
  destruct (m !! n) as [f1 |]; unfold survives_opt, survives in Hm; rewrite ?Ey in Hm; naive_solver.
Qed.

(** C27: in a directory that was empty at first, under any sequence of
    operations of any processes whose calls succeed, fail or end the process, every
    generation below a recorded one is recorded too, and every process finds it
    empty.  When [write] returns a generation that was not recorded before, this is
    durable: whatever a power loss leaves of the directory has every generation
    below it, and empty. *)
Theorem groups_in_turn (d : Folder) : grouped (mkFolder ∅ ∅) d ->
  (forall w g k r, found_group d w g (Some r) -> 1 <= k < g -> exists p, found_group d w k (Some p) /\ is_empty p = true)
  /\ forall store env r evs d1 rest c m k, found_group d (cg_workspace_id r) (cg_generation r) None ->
       write store env r d evs = Ran d1 rest (Ok c) -> power_lost d1 m -> 1 <= k < cg_generation r ->
       exists p, found_group (mkFolder m m) (cg_workspace_id r) k (Some p) /\ is_empty p = true.
Proof.
  intros Hd. split; [intros w g k r; by apply ordered_turn, grouped_ordered |].
  intros store env r evs d1 rest c m k Hnone E Hm Hk.
  assert (Hd1 : grouped (mkFolder ∅ ∅) d1).
  { apply (Grouped_run _ d store env (WriteGroup r) evs d1 rest (Ok tt)); [done |]. cbn [perform_group]. unfold io_bind. by rewrite E. }
  destruct (grouped_ordered d1 Hd1) as [Ho Hy]. pose proof (write_new_recorded store env r d Hnone evs) as Hw. rewrite E in Hw.
  destruct (Hw c eq_refl) as (Hr & t & Hkept). destruct (ordered_turn d1 _ _ k r Ho Hr Hk) as (p & Hp & He). exists p. split; [| done].
  by apply (survives_power d1 m t).
Qed.

(** C28: whatever operations of whatever processes follow, and
    however their calls end, an attestation that is recorded stays recorded, with the
    logical identity it has; its cleanup state and its epoch do not go back, and a
    group that was empty stays so. *)
Theorem attestations_progress (d0 d : Folder) (w : pystr) (g : Z) (r : Cgroup) : grouped d0 d -> found_group d0 w g (Some r) ->
  exists r1, found_group d w g (Some r1) /\ progress r r1.
Proof.
  intros Hd Hr. revert d Hd. apply grouped_ind_steps; [by exists r |]. intros d d1 (r1 & H1 & P1) Hst.
  destruct (step_progress d d1 w g r1 Hst H1) as (r2 & H2 & P2). exists r2. split; [done |]. by transitivity r1.
Qed.

End Histories.

(** ** Concrete runs *)

#[local] Existing Instance printed_rfc8785.

Definition group_store : GroupStore := mkGroupStore 10 20.
Definition group_dir : Stat := mkStat true false false 10 20 448 1 2 2.
Definition group_env (c : Z) : Surroundings := mkSurroundings group_dir group_dir (repeat c 24) (mkStat false false true 10 20 384 1 3 1).
Definition empty_cgroup : Cgroup := sample_cgroup 1 $"7" $"invocation-1" $"EMPTY_DURABLE" $"0".
Definition second_cgroup : Cgroup := sample_cgroup 2 $"7" $"invocation-1" $"LIVE" $"1".

Definition group_after {A} (o : outcome Folder A) : Folder := match o with Died d | Ran d _ _ => d end.
Definition no_groups : Folder := mkFolder ∅ ∅.

(** The first generation is live, then found empty; then the second begins. *)
Definition groups_live : Folder := Eval vm_compute in group_after (write group_store (group_env 49) live_cgroup no_groups []).
Definition groups_empty : Folder := Eval vm_compute in group_after (acknowledge_empty group_store (group_env 50) empty_cgroup groups_live []).
Definition groups_second : Folder := Eval vm_compute in group_after (write group_store (group_env 51) second_cgroup groups_empty []).

Example second_while_live : match write group_store (group_env 51) second_cgroup groups_live [] with
  | Ran d _ (Raise e) => e = group_error "previous cgroup attestation is not empty" /\ d = groups_live
  | _ => False
  end.
Proof. vm_compute. split; reflexivity. Qed.

(** The directory could not be synchronised, so [write] raised; the same [write]
    once more finds the bytes it was to write and returns, without making them durable. *)
Example write_again_not_durable :
  match write group_store (group_env 49) live_cgroup no_groups (repeat (Works 4096) 11 ++ [Fails]) with
  | Ran d _ (Raise e) => e = group_error "attestation update could not be committed"
      /\ match write group_store (group_env 50) live_cgroup d [] with
         | Ran d1 _ (Ok r) => r = live_cgroup /\ kept d1 = ∅
         | _ => False
         end
  | _ => False
  end.
Proof. vm_compute. repeat split; reflexivity. Qed.

Lemma groups_empty_grouped : grouped groups_live groups_empty.
Proof. apply (Grouped_run _ groups_live group_store (group_env 50) (AcknowledgeEmpty empty_cgroup) [] _ [] (Ok tt)); [constructor | vm_compute; reflexivity]. Qed.

Lemma groups_second_grouped : grouped groups_live groups_second.
Proof.
  apply (Grouped_run _ groups_empty group_store (group_env 51) (WriteGroup second_cgroup) [] _ [] (Ok tt)); [exact groups_empty_grouped | vm_compute; reflexivity].
Qed.

Lemma groups_live_grouped : grouped no_groups groups_live.
Proof. apply (Grouped_run _ no_groups group_store (group_env 49) (WriteGroup live_cgroup) [] _ [] (Ok tt)); [constructor | vm_compute; reflexivity]. Qed.

Lemma grouped_trans (d0 d1 d : Folder) : grouped d0 d1 -> grouped d1 d -> grouped d0 d.
Proof. intros H1. induction 1; [done | by eapply Grouped_run | by eapply Grouped_dies]. Qed.

(** A record that the directory shows, computed *)
Definition group_of (d : Folder) (w : pystr) (g : Z) : option Cgroup :=
  match record_name w g with
  | Ok n => f ← shown d !! n; match decode_attestation (f_data f) with Ok r => if str_eqb (cg_workspace_id r) w && (cg_generation r =? g) then Some r else None | Raise _ => None end
  | Raise _ => None
  end.

Lemma group_of_found (d : Folder) (w : pystr) (g : Z) (r : Cgroup) : group_of d w g = Some r -> found_group d w g (Some r).
Proof.
  unfold group_of. destruct (record_name w g) as [n |] eqn:En; [| done]. destruct (shown d !! n) as [f |] eqn:Ef; [| done]. cbn [mbind option_bind].
  destruct (decode_attestation _) as [c |] eqn:Ec; [| done]. destruct (_ && _) eqn:Eb; [| done]. intros [= <-]. split_bools. exists n. split; [done |]. by exists f.
Qed.

Lemma second_found : group_of groups_second (cg_workspace_id second_cgroup) 2 = Some second_cgroup.
Proof. vm_compute. reflexivity. Qed.

Lemma live_found : group_of groups_live (cg_workspace_id live_cgroup) 1 = Some live_cgroup.
Proof. vm_compute. reflexivity. Qed.

(** The directory could not be synchronised, neither when the first generation was
    found empty nor when the second was written, and both calls raised: processes
    find the second generation after an empty first one, while a power loss may
    still leave the first one alone, and live. *)
Definition unflushed : Folder := group_after (acknowledge_empty group_store (group_env 50) empty_cgroup groups_live (repeat (Works 4096) 23 ++ [Fails])).

Example second_before_durable :
  match write group_store (group_env 51) second_cgroup unflushed (repeat (Works 4096) 18 ++ [Fails]) with
  | Ran d _ (Raise e) => e = group_error "attestation update could not be committed"
      /\ group_of d (cg_workspace_id second_cgroup) 2 = Some second_cgroup
      /\ group_of (mkFolder (kept d) (kept d)) (cg_workspace_id second_cgroup) 1 = Some live_cgroup
  | _ => False
  end.
Proof. vm_compute. repeat split; reflexivity. Qed.

(** What was kept is one of the things a power loss may leave. *)
Lemma power_lost_kept (d : Folder) : map_Forall (fun _ f => f_synced f = true) (kept d) -> power_lost d (kept d).
Proof. intros Hs n. right. destruct (kept d !! n) as [f |] eqn:E; [| done]. cbn. unfold survives. by rewrite (Hs n f E). Qed.

Lemma second_kept : power_lost groups_second (kept groups_second).
Proof. apply power_lost_kept. refine (bool_decide_unpack _ _). vm_compute. exact I. Qed.

Lemma second_absent : found_group groups_empty (cg_workspace_id second_cgroup) (cg_generation second_cgroup) None.
Proof. eexists. split; [reflexivity |]. vm_compute. reflexivity. Qed.

Lemma second_written : write group_store (group_env 51) second_cgroup groups_empty [] = Ran groups_second [] (Ok second_cgroup).
Proof. vm_compute. reflexivity. Qed.

Lemma groups_in_turn_witness :
  (exists p, found_group groups_second (cg_workspace_id second_cgroup) 1 (Some p) /\ is_empty p = true)
  /\ exists p, found_group (mkFolder (kept groups_second) (kept groups_second)) (cg_workspace_id second_cgroup) 1 (Some p) /\ is_empty p = true.
Proof.
  split.
  - apply (proj1 (groups_in_turn groups_second (grouped_trans _ _ _ groups_live_grouped groups_second_grouped)) (cg_workspace_id second_cgroup) 2 1 second_cgroup);
      [apply group_of_found, second_found | lia].
  - apply (proj2 (groups_in_turn groups_empty (grouped_trans _ _ _ groups_live_grouped groups_empty_grouped)) group_store (group_env 51) second_cgroup [] groups_second []
      second_cgroup); [exact second_absent | exact second_written | exact second_kept | vm_compute; split; congruence].
Defined.

Lemma attestations_progress_witness : exists r1, found_group groups_second (cg_workspace_id live_cgroup) 1 (Some r1) /\ progress live_cgroup r1.
Proof.
  apply (attestations_progress groups_live groups_second (cg_workspace_id live_cgroup) 1 live_cgroup groups_second_grouped).
  apply group_of_found, live_found.
Defined.
