(* ===== verification/BindingStore.v ===== *)
(** * The Runtime's binding store ([agentbox_runtime/waw_project_binding_store.py])

    [WAWProjectBindingStore] keeps the current binding of every Project in one
    file each, replaced atomically.  The directory is a [Folder]: what its names
    show now, and what they would show after a power loss.  [Crash.v] gives the
    outcomes of the calls to the operating system, [Canonical.v] the canonical form
    of the record.

    What [stat] shows of the directory and of a new file, and the random part of
    the temporary name, are arguments.  As for the epoch file, the interpreter's
    recursion limit on a file that the store did not write is left out. *)

From stdpp Require Import sorting.
From S2P Require Import Prelude PyVal Json Unicode Control Canonical Crash Folder.

Local Open Scope Z_scope.

Definition MAX_BINDINGS : Z := 256.
Definition MAX_RECORD_BYTES : Z := 4096.
Definition BINDING_SCHEMA : pystr := $"waw-runtime-project-binding-v1".

Definition store_error (message : string) : exn := err WAWProjectBindingStoreError message.

(** ** The record *)

Record DurableBinding : Type := mkDurable {
  db_project : pystr;
  db_key : pystr;
  db_project_revision : pystr;
  db_revision : pystr;
  db_digest : pystr;
  db_previous : option pystr;
  db_previous_digest : option pystr;
  db_host : pystr;
  db_host_revision : pystr
}.

#[export] Instance durable_eq_dec : EqDecision DurableBinding.
Proof. solve_decision. Defined.

Definition project_id_ (value : pyval) : result pystr :=
  match value with
  | PStr s => run! raise_if (negb (match_id $"prj" s)) (store_error "project identity is invalid") in Ok s
  | _ => Raise (store_error "project identity is invalid")
  end.

Definition u64_ (value : pyval) (field : string) : result pystr :=
  let invalid := store_error (String.append field " is invalid") in
  match value with
  | PStr s =>
      run! raise_if (negb (match_pos_decimal s)) invalid in
      run! raise_if (MAX_U64 <? digits_value s) invalid in
      Ok s
  | _ => Raise invalid
  end.

Definition digest_ (value : pyval) (field : string) : result pystr :=
  let invalid := store_error (String.append field " is invalid") in
  match value with
  | PStr s => run! raise_if (negb (match_hex 64 s)) invalid in Ok s
  | _ => Raise invalid
  end.

Definition text_or_none (o : option pystr) : pyval := match o with Some s => PStr s | None => PNone end.

(** [o is not None] *)
Definition given {A} (o : option A) : bool := match o with Some _ => true | None => false end.

Section Records.
Context `{Unicode} `{Rfc8785}.

Definition relative_key_ (value : pyval) : result pystr :=
  except_as (validate_relative_key value) [WAWControlError] (store_error "Project key is invalid").

(** [__post_init__] *)
Definition post_init (b : DurableBinding) : result DurableBinding :=
  run! project_id_ (PStr (db_project b)) in
  run! relative_key_ (PStr (db_key b)) in
  run! u64_ (PStr (db_project_revision b)) "project_revision" in
  run! u64_ (PStr (db_revision b)) "binding_revision" in
  run! u64_ (PStr (db_host_revision b)) "runtime_host_installation_revision" in
  run! digest_ (PStr (db_digest b)) "binding_digest" in
  run! (if str_eqb (db_revision b) $"1"
        then raise_if (given (db_previous b) || given (db_previous_digest b)) (store_error "first binding cannot have a predecessor")
        else match db_previous b, db_previous_digest b with
             | Some p, Some q =>
                 let! previous := u64_ (PStr p) "previous_binding_revision" in
                 run! digest_ (PStr q) "previous_binding_digest" in
                 raise_if (negb (digits_value previous + 1 =? digits_value (db_revision b))) (store_error "binding predecessor is invalid")
             | _, _ => Raise (store_error "binding predecessor is unavailable")
             end) in
  run! raise_if (negb (match_id $"wri" (db_host b))) (store_error "runtime host identity is invalid") in
  Ok b.

Definition to_record (b : DurableBinding) : pydict :=
  [($"binding_digest", PStr (db_digest b));
   ($"binding_revision", PStr (db_revision b));
   ($"previous_binding_digest", text_or_none (db_previous_digest b));
   ($"previous_binding_revision", text_or_none (db_previous b));
   ($"project_id", PStr (db_project b));
   ($"project_revision", PStr (db_project_revision b));
   ($"relative_key", PStr (db_key b));
   ($"runtime_host_installation_id", PStr (db_host b));
   ($"runtime_host_installation_revision", PStr (db_host_revision b));
   ($"schema_version", PStr BINDING_SCHEMA)].

Definition RECORD_KEYS : list pystr :=
  [$"binding_digest"; $"binding_revision"; $"previous_binding_digest"; $"previous_binding_revision"; $"project_id"; $"project_revision";
   $"relative_key"; $"runtime_host_installation_id"; $"runtime_host_installation_revision"; $"schema_version"].

(** [value[field]] of a required field, which has to be text *)
Definition required_text (d : pydict) (field : pystr) : result pystr :=
  match dget d field with
  | Some (PStr s) => Ok s
  | _ => Raise (store_error "binding record is invalid")
  end.

Definition optional_text (d : pydict) (field : pystr) : result (option pystr) :=
  match dget d field with
  | Some (PStr s) => Ok (Some s)
  | Some PNone => Ok None
  | _ => Raise (store_error "binding record is invalid")
  end.

Definition from_record (value : pyval) : result DurableBinding :=
  match value with
  | PDict d =>
      run! raise_if (negb (keys_equal (dkeys d) RECORD_KEYS)) (store_error "binding record is invalid") in
      run! raise_if (match dget d $"schema_version" with Some v => negb (scalar_eqb v (PStr BINDING_SCHEMA)) | None => true end)
             (store_error "binding schema is invalid") in
      let! project := required_text d $"project_id" in
      let! key := required_text d $"relative_key" in
      let! project_revision := required_text d $"project_revision" in
      let! revision := required_text d $"binding_revision" in
      let! digest := required_text d $"binding_digest" in
      let! host := required_text d $"runtime_host_installation_id" in
      let! host_revision := required_text d $"runtime_host_installation_revision" in
      let! previous := optional_text d $"previous_binding_revision" in
      let! previous_digest := optional_text d $"previous_binding_digest" in
      post_init (mkDurable project key project_revision revision digest previous previous_digest host host_revision)
  | _ => Raise (store_error "binding record is invalid")
  end.

(** One element of [dict(value)] for a list: a sequence of two, whose first is
    text *)
Definition pair_of (v : pyval) : option (pystr * pyval) :=
  match v with
  | PList [PStr k; x] => Some (k, x)
  | PStr [a; b] => Some ([a], PStr [b])
  | PDict [(k, _); (x, _)] => Some (k, PStr x)
  | _ => None
  end.

Fixpoint dict_of_pairs (acc : pydict) (l : list pyval) : option pydict :=
  match l with
  | [] => Some acc
  | v :: r => match pair_of v with Some (k, x) => dict_of_pairs (dset acc k x) r | None => None end
  end.

(** [dict(value)] as far as [rfc8785.dumps] prints it: [None] where [dict] or,
    for a key that is not text, [rfc8785.dumps] raises. *)
Definition as_dict (value : pyval) : option pydict :=
  match value with
  | PDict d => Some d
  | PList l => dict_of_pairs [] l
  | PStr [] => Some []
  | _ => None
  end.

Definition canonical_record (value : pyval) : result bytes :=
  let failed := store_error "binding record cannot be canonicalized" in
  let! raw := match as_dict value with
              | Some d => except_as (rfc8785_dumps d) [PyTypeError; PyValueError] failed
              | None => Raise failed
              end in
  run! raise_if (negb (in_range 1 (blen raw) MAX_RECORD_BYTES)) (store_error "binding record is oversized") in
  Ok raw.

(** [_no_duplicates] *)
Definition no_duplicates (st : unit) (pairs : list (pystr * pyval)) : result (unit * pyval) :=
  let! d := unique_pairs (store_error "binding record has duplicate fields") [] pairs in Ok (tt, PDict d).

Definition loads_record (raw : bytes) : result pyval :=
  match decode_detected raw with
  | None => Raise (err UnicodeDecodeError "invalid data")
  | Some text => let! '(_, v) := loads default_number default_constant no_duplicates tt text in Ok v
  end.

Definition decode_record (raw : bytes) : result DurableBinding :=
  let! decoded := except_as (loads_record raw) [JSONDecodeError; UnicodeDecodeError; PyTypeError] (store_error "binding record is invalid") in
  let! canonical := canonical_record decoded in
  run! raise_if (negb (bytes_eqb canonical raw)) (store_error "binding record is not canonical") in
  from_record decoded.

End Records.

(** ** The directory *)

(** What one operation sees: the [stat] of the directory, the random part of a
    temporary name and the [stat] of a file it creates *)
Record Sights : Type := mkSights { folder_stat : Stat; token : pystr; new_stat : Stat }.

(** [_expected_uid], [_expected_gid] and [_closed] of the store *)
Record BindingStore : Type := mkBindingStore { store_uid : Z; store_gid : Z; store_closed : bool }.

Local Abbreviation IO := (io Folder).

(** [os.read(descriptor, size)], which may return less *)
Definition read_once (f : File) (size : Z) : IO bytes :=
  call (fun n d => (d, Ok (slice_to (Z.max 1 (Z.min n size)) (f_data f)))).

(** [os.listdir], in the order of [sorted] *)
Definition sorted_names (l : list pystr) : list pystr := map fst (sort_rows (map (fun n => (n, [])) l)).

Definition list_names : IO (list pystr) := call (fun _ d => (d, Ok (sorted_names (map fst (map_to_list (shown d)))))).

(** ** The store *)

Definition json_suffix : pystr := $".json".

(** [_name] *)
Definition name_of (project_id : pystr) : pystr := project_id ++ json_suffix.

(** [name.endswith(".json")] *)
Definition ends_json (name : pystr) : bool := (5 <=? length name)%nat && str_eqb (drop (length name - 5) name) json_suffix.

Section Store.
Context `{Unicode} `{Rfc8785} (store : BindingStore) (env : Sights).

Definition store_owned (s : Stat) : bool := (st_uid s =? store_uid store) && (st_gid s =? store_gid store).

(** [_validate_directory] *)
Definition validate_directory (s : Stat) : result unit :=
  raise_if (negb (is_dir s) || negb (store_owned s) || negb (Z.land (st_mode s) 63 =? 0)) (store_error "binding store provenance is invalid").

Definition require_open : IO unit :=
  then! io_raise_if (store_closed store) (store_error "binding store is closed") in
  io! details := observe (folder_stat env) in
  io_lift (validate_directory details).

(** The checks of [_read] on the opened file *)
Definition bad_provenance (f : File) : bool :=
  let s := f_stat f in
  negb (is_reg s) || negb (store_owned s) || negb (st_mode s =? 384) || negb (st_nlink s =? 1)
  || (blen (f_data f) <? 1) || (MAX_RECORD_BYTES <? blen (f_data f)).

Definition read_file (f : File) : IO bytes :=
  io_finally
    (io! details := observe f in
     then! io_raise_if (bad_provenance details) (store_error "binding record provenance is invalid") in
     io! raw := read_once f (MAX_RECORD_BYTES + 1) in
     then! io_raise_if (negb (blen raw =? blen (f_data f))) (store_error "binding record changed during read") in
     io_ret raw)
    close_file.

(** [_read] *)
Definition read (project_id : pystr) : IO (option DurableBinding) :=
  then! require_open in
  io! opened := io_try (io_try (io! f := open_file (name_of project_id) in io_ret (Some f)) [PyFileNotFoundError] (io_ret None))
                  [PyOSError] (io_raise (store_error "binding record is unavailable")) in
  match opened with
  | None => io_ret None
  | Some f => io! raw := read_file f in io_lift (rmap Some (decode_record raw))
  end.

Definition get (project_id : pyval) : IO (option DurableBinding) :=
  io! p := io_lift (project_id_ project_id) in read p.

(** The loop of [list_current] *)
Fixpoint read_names (names : list pystr) : IO (list DurableBinding) :=
  match names with
  | [] => io_ret []
  | name :: rest =>
      let invalid := store_error "binding store inventory is invalid" in
      then! io_raise_if (negb (ends_json name)) invalid in
      let project_id := take (length name - 5) name in
      io! value := read project_id in
      match value with
      | Some b => if str_eqb (db_project b) project_id then io! bs := read_names rest in io_ret (b :: bs) else io_raise invalid
      | None => io_raise invalid
      end
  end.

Definition list_current : IO (list DurableBinding) :=
  then! require_open in
  io! names := io_try list_names [PyOSError] (io_raise (store_error "binding store is unavailable")) in
  then! io_raise_if (MAX_BINDINGS <? blen names) (store_error "binding store capacity is invalid") in
  read_names names.

(** The checks of [commit] against the current binding *)
Definition check_next (value : DurableBinding) (current : option DurableBinding) : IO unit :=
  match current with
  | Some c =>
      then! io_raise_if (negb (digits_value (db_revision value) =? digits_value (db_revision c) + 1)) (store_error "binding revision is not next") in
      io_raise_if (negb (bool_decide (db_previous value = Some (db_revision c))) || negb (bool_decide (db_previous_digest value = Some (db_digest c))))
        (store_error "binding predecessor is stale")
  | None =>
      then! io_raise_if (negb (str_eqb (db_revision value) $"1")) (store_error "binding bootstrap is unavailable") in
      io! l := list_current in
      io_raise_if (MAX_BINDINGS <=? blen l) (store_error "binding store capacity is exhausted")
  end.

(** The body of the [try] of [commit]: whether the descriptor is still open, and
    how the body ended *)
Definition write_body (temporary name : pystr) (raw : bytes) : IO (bool * result unit) :=
  io! a := attempt (create_file temporary (new_stat env)) in
  match a with
  | Raise e => io_ret (false, Raise e)
  | Ok _ =>
      io! b := attempt (io! written := write_once temporary raw in
                        then! io_raise_if (negb (written =? blen raw)) (store_error "binding record write was incomplete") in
                        then! sync_file temporary in
                        close_file) in
      match b with
      | Raise e => io_ret (true, Raise e)
      | Ok _ => io! c := attempt (then! replace_file temporary name in sync_folder) in io_ret (false, c)
      end
  end.

(** The [try], [except] and [finally] of [commit] *)
Definition write_record (temporary name : pystr) (raw : bytes) : IO unit :=
  io! outcome := write_body temporary name raw in
  let r := except_as (snd outcome) [PyOSError] (store_error "binding record persistence failed") in
  then! (if fst outcome then close_file else io_ret tt) in
  then! suppress (unlink_file temporary) in
  io_lift r.

Definition commit (value : DurableBinding) : IO DurableBinding :=
  then! require_open in
  io! current := read (db_project value) in
  if bool_decide (current = Some value) then io_ret value
  else
    then! check_next value current in
    io! raw := io_lift (canonical_record (PDict (to_record value))) in
    let name := name_of (db_project value) in
    let temporary := $"." ++ name ++ $".tmp-" ++ token env in
    then! write_record temporary name raw in
    io! result := read (db_project value) in
    if bool_decide (result = Some value) then io_ret value
    else io_raise (store_error "binding record did not persist exactly").

End Store.

(** [__init__]; whether the path is absolute and whether the test token was given
    are arguments. *)
Definition new_binding_store (absolute create test_only : bool) (uid gid : Z) (env : Sights) : IO BindingStore :=
  then! io_raise_if (negb absolute) (err PyValueError "binding store directory must be absolute") in
  then! (if create
         then then! io_raise_if (negb test_only) (err PyValueError "production binding store directory must be installer-created") in observe tt
         else io_ret tt) in
  then! io_try (observe tt) [PyOSError] (io_raise (store_error "binding store is unavailable")) in
  let store := mkBindingStore uid gid false in
  io! r := attempt (io! details := observe (folder_stat env) in io_lift (validate_directory store details)) in
  match r with
  | Ok _ => io_ret store
  | Raise e => then! close_file in io_raise e
  end.

(** [close] *)
Definition close_store (store : BindingStore) : BindingStore * IO unit :=
  if store_closed store then (store, io_ret tt)
  else (mkBindingStore (store_uid store) (store_gid store) true,
        io_try close_file [PyOSError] (io_raise (store_error "binding store close failed"))).

(** ** Lemmas: the record reads back *)

Lemma scalar_clean (s : pystr) : clean s -> forallb code_point s = true -> forallb scalar_value s = true.
Proof.
  intros Hs Hc. rewrite forallb_forall in *. intros c Hin. specialize (Hc c Hin). specialize (Hs c ltac:(by apply list_elem_of_In)).
  unfold scalar_value, code_point, is_surrogate, in_range in *. lia.
Qed.

(** ** Lemmas: validated bindings *)

Lemma project_id_ok (v : pyval) (s : pystr) : project_id_ v = Ok s -> v = PStr s /\ match_id $"prj" s = true.
Proof. destruct v; try done. cbn. intros E. apply rbind_ok in E as ([] & H%raise_if_ok%negb_false_iff & <-%Ok_inj). done. Qed.

Lemma u64_ok (v : pyval) (f : string) (s : pystr) : u64_ v f = Ok s -> v = PStr s /\ match_pos_decimal s = true /\ digits_value s <= MAX_U64.
Proof.
  destruct v; try done. cbn. intros E. apply rbind_ok in E as ([] & H%raise_if_ok%negb_false_iff & E).
  apply rbind_ok in E as ([] & Hm%raise_if_ok & <-%Ok_inj). split; [done |]. split; [done | lia].
Qed.

Lemma digest_ok (v : pyval) (f : string) (s : pystr) : digest_ v f = Ok s -> v = PStr s /\ match_hex 64 s = true.
Proof. destruct v; try done. cbn. intros E. apply rbind_ok in E as ([] & H%raise_if_ok%negb_false_iff & <-%Ok_inj). done. Qed.

(** [b] has a predecessor exactly when its revision is not 1, the one before. *)
Definition predecessor_ok (b : DurableBinding) : Prop :=
  if str_eqb (db_revision b) $"1" then db_previous b = None /\ db_previous_digest b = None
  else exists p q, db_previous b = Some p /\ db_previous_digest b = Some q /\ match_pos_decimal p = true /\ match_hex 64 q = true
         /\ digits_value p + 1 = digits_value (db_revision b).

Section Validated.
Context `{Unicode}.

Lemma relative_key_same (k r : pystr) : validate_relative_key (PStr k) = Ok r -> r = k.
Proof.
  unfold validate_relative_key. intros E. do 5 (apply rbind_ok in E as ([] & _ & E)). by injection E.
Qed.

Lemma post_init_ok (b c : DurableBinding) : post_init b = Ok c ->
  c = b /\ match_id $"prj" (db_project b) = true /\ validate_relative_key (PStr (db_key b)) = Ok (db_key b)
  /\ match_pos_decimal (db_project_revision b) = true /\ match_pos_decimal (db_revision b) = true /\ match_pos_decimal (db_host_revision b) = true
  /\ match_hex 64 (db_digest b) = true /\ predecessor_ok b /\ match_id $"wri" (db_host b) = true.
Proof.
  unfold post_init. intros E.
  apply rbind_ok in E as (? & [[= <-] Hp]%project_id_ok & E). apply rbind_ok in E as (k & Hk & E). apply rbind_ok in E as (? & ([= <-] & Hpr & _)%u64_ok & E).
  apply rbind_ok in E as (? & ([= <-] & Hr & _)%u64_ok & E). apply rbind_ok in E as (? & ([= <-] & Hhr & _)%u64_ok & E).
  apply rbind_ok in E as (? & [[= <-] Hd]%digest_ok & E). apply rbind_ok in E as ([] & Hpre & E).
  apply rbind_ok in E as ([] & Hh%raise_if_ok%negb_false_iff & <-%Ok_inj). unfold relative_key_ in Hk. apply except_as_ok in Hk.
  rewrite (relative_key_same _ _ Hk) in Hk. repeat (split; [done |]). split; [| done].
  unfold predecessor_ok. destruct (str_eqb (db_revision b) $"1").
  - apply raise_if_ok, orb_false_iff in Hpre as [H1 H2]. by destruct (db_previous b), (db_previous_digest b).
  - destruct (db_previous b) as [p |]; [| done]. destruct (db_previous_digest b) as [q |]; [| done]. exists p, q.
    apply rbind_ok in Hpre as (? & ([= <-] & Hp1 & _)%u64_ok & Hpre). apply rbind_ok in Hpre as (? & [[= <-] Hq]%digest_ok & Hn%raise_if_ok%negb_false_iff).
    repeat (split; [done |]). lia.
Qed.

End Validated.

(** A binding that the constructor made, of Python's characters *)
Definition wf_binding `{Unicode} (b : DurableBinding) : Prop := post_init b = Ok b /\ forallb code_point (db_key b) = true.

Lemma record_canonical `{UnicodeLaws} (b : DurableBinding) : wf_binding b -> canonical (PDict (to_record b)) = true.
Proof.
  intros [(_ & Hp & Hk & Hpr & Hr & Hhr & Hd & Hpre & Hh)%post_init_ok Hc].
  assert (K : clean (db_key b)) by (apply (relative_key_clean "relative_key"); unfold RELATIVE_KEY; by rewrite Hk).
  apply scalar_id in Hp, Hh; [| reflexivity | reflexivity]. apply scalar_decimal in Hpr, Hr, Hhr. unfold match_hex in Hd.
  apply andb_true_iff in Hd as [_ Hd%scalar_hex]. pose proof (scalar_clean _ K Hc) as Hkey.
  assert (Hprev : canonical (text_or_none (db_previous b)) = true /\ canonical (text_or_none (db_previous_digest b)) = true).
  { unfold predecessor_ok in Hpre. destruct (str_eqb _ _); [by destruct Hpre as [-> ->] |].
    by destruct Hpre as (p & q & -> & -> & H1%scalar_decimal & [_ H2%scalar_hex]%andb_true_iff & _). }
  destruct Hprev as [H1 H2]. unfold to_record. cbn [canonical forallb fst snd]. by rewrite H1, H2, Hp, Hh, Hpr, Hr, Hhr, Hd, Hkey.
Qed.

Lemma no_duplicates_ok (d : pydict) : NoDup (dkeys d) -> no_duplicates tt d = Ok (tt, PDict d).
Proof. intros Hd. unfold no_duplicates. by rewrite (unique_pairs_ok _ [] d). Qed.

Lemma from_to_record `{Unicode} (b : DurableBinding) : from_record (PDict (to_record b)) = post_init b.
Proof. destruct b as [p k pr r dg [q |] [qd |] h hr]; reflexivity. Qed.

Section Roundtrip.
Context `{UnicodeLaws} `{Rfc8785Laws}.

(** The record of a binding is its text. *)
Lemma record_text (b : DurableBinding) (raw : bytes) : wf_binding b -> canonical_record (PDict (to_record b)) = Ok raw ->
  exists t, dumps (PDict (to_record b)) = Ok t /\ utf8_encode t = Some raw.
Proof.
  intros Hb E. destruct (canonical_text _ (record_canonical b Hb)) as (t & x & Et & Ex & Er). exists t. split; [done |].
  unfold canonical_record in E. cbn [as_dict] in E. rewrite Er in E. cbn [except_as rbind] in E. by apply rbind_ok in E as ([] & _ & <-%Ok_inj).
Qed.

Lemma record_reads_back (b : DurableBinding) (raw : bytes) : wf_binding b -> canonical_record (PDict (to_record b)) = Ok raw -> decode_record raw = Ok b.
Proof.
  intros Hb E. destruct (record_text b raw Hb E) as (t & Et & Eu). pose proof (record_canonical b Hb) as Hc.
  unfold decode_record, loads_record. rewrite (object_detected _ t raw (canonical_printable _ Hc) Et Eu), (canonical_loads _ _ _ no_duplicates_ok Hc Et).
  cbn [rbind except_as]. rewrite E. cbn [rbind]. replace (bytes_eqb raw raw) with true by (symmetry; by apply bytes_eqb_eq). cbn [negb raise_if rbind].
  rewrite from_to_record. apply Hb.
Qed.

End Roundtrip.
