(* ===== verification/BindingHeads.v ===== *)
(** * The heads of the binding store

    What [BindingStore] shows over its life: crash specifications of its
    operations, the history of one directory with its failures, dying processes
    and power losses, and the theorems about the head of a Project. *)

From stdpp Require Import sorting.
From S2P Require Import Prelude PyVal Json Unicode Control Canonical Crash Folder BindingStore.

Local Open Scope Z_scope.

(** ** Specifications of the operations *)

(** What [read] found *)
Definition found `{Unicode} `{Rfc8785} (d : Folder) (p : pystr) (o : option DurableBinding) : Prop :=
  match o with
  | None => shown d !! name_of p = None
  | Some b => exists f, shown d !! name_of p = Some f /\ decode_record (f_data f) = Ok b
  end.

Lemma ends_json_name (n : pystr) : ends_json n = true -> n = name_of (take (length n - 5) n).
Proof.
  unfold ends_json, name_of. intros [_ Hs%str_eqb_eq]%andb_true_iff. rewrite <- Hs. by rewrite take_drop.
Qed.

Section Specs.
Context `{Unicode} `{Rfc8785} (store : BindingStore) (env : Sights).
Implicit Types (d : Folder) (C : Folder -> Prop).

Lemma require_open_spec C d : C d -> cwp (require_open store env) (fun d1 _ => d1 = d) C d.
Proof. intros HC. apply cwp_bind, cwp_raise_if; [done |]. intros _. apply cwp_bind, cwp_observe; [done.. |]. by apply cwp_lift. Qed.

Lemma read_file_spec (f : File) C d : C d -> cwp (read_file store f) (fun d1 r => d1 = d /\ forall raw, r = Ok raw -> raw = f_data f) C d.
Proof.
  intros HC. apply cwp_finally. assert (K : forall r, (forall raw, r = Ok raw -> raw = f_data f) ->
    cwp close_file (fun d2 rc => d2 = d /\ forall raw, match rc with Ok _ => r | Raise e => Raise e end = Ok raw -> raw = f_data f) C d).
  { intros r Hr. apply cwp_observe; [done | by split | by split]. }
  apply cwp_bind, cwp_observe; [done | by apply K |]. apply cwp_bind, cwp_raise_if; [by apply K |]. intros _.
  apply cwp_bind, cwp_call; [done | by apply K |]. intros n. cbn [fst snd]. apply cwp_bind, cwp_raise_if; [by apply K |].
  intros Hl%negb_false_iff%Z.eqb_eq. apply cwp_ret, K. intros raw [= <-]. by apply read_all.
Qed.

Lemma read_spec (p : pystr) C d : C d -> cwp (read store env p) (fun d1 r => d1 = d /\ forall o, r = Ok o -> found d p o) C d.
Proof.
  intros HC. apply cwp_bind. eapply cwp_mono; [by apply require_open_spec |]. cbn beta. intros d1 r ->. destruct r as [[] | e]; [| by split].
  apply cwp_bind, cwp_try, cwp_try, cwp_bind, cwp_call; [done | cbn; by apply cwp_raise |]. intros _. cbn [fst snd].
  destruct (shown d !! name_of p) as [f |] eqn:Ef.
  - destruct (is_link (f_stat f)); [cbn; by apply cwp_raise |]. apply cwp_ret. apply cwp_bind. eapply cwp_mono; [by apply read_file_spec |].
    cbn beta. intros d1 r [-> Hr]. destruct r as [raw | e]; [| by split]. rewrite (Hr raw eq_refl). apply cwp_lift. split; [done |]. intros o Ho.
    destruct (decode_record (f_data f)) as [b |] eqn:Eb; [| done]. injection Ho as <-. by exists f.
  - cbn. apply cwp_ret, cwp_ret. split; [done |]. by intros o [= <-].
Qed.

Lemma get_spec (v : pyval) C d : C d -> cwp (get store env v) (fun d1 _ => d1 = d) C d.
Proof.
  intros HC. apply cwp_bind, cwp_lift. destruct (project_id_ v) as [p | e]; [| done]. eapply cwp_mono; [by apply read_spec |]. by intros d1 r [-> _].
Qed.

(** The list of [read_names]: what was found under every name *)
Definition listed_all (d : Folder) (l : list pystr) (bs : list DurableBinding) : Prop :=
  length bs = length l /\ Forall (fun b => found d (db_project b) (Some b)) bs
  /\ forall n, n ∈ l -> ends_json n = true /\ exists b, b ∈ bs /\ n = name_of (db_project b).

Lemma read_names_spec (l : list pystr) C d : C d -> cwp (read_names store env l) (fun d1 r => d1 = d /\ forall bs, r = Ok bs -> listed_all d l bs) C d.
Proof.
  intros HC. induction l as [|n l IH]; cbn [read_names].
  { apply cwp_ret. split; [done |]. intros bs [= <-]. repeat split; [constructor | set_solver..]. }
  apply cwp_bind, cwp_raise_if; [by split |]. intros Hn%negb_false_iff. apply cwp_bind. eapply cwp_mono; [by apply read_spec |].
  cbn beta. intros d1 r [-> Hf]. destruct r as [[b |] | e]; [| by apply cwp_raise | by split].
  destruct (str_eqb _ _) eqn:Eb; [| by apply cwp_raise]. apply str_eqb_eq in Eb. apply cwp_bind. eapply cwp_mono; [exact IH |]. cbn beta. intros d1 r [-> Hr].
  destruct r as [bs | e]; [| by split]. apply cwp_ret. split; [done |]. intros x [= <-]. destruct (Hr bs eq_refl) as (Hl & Hbs & Hb).
  specialize (Hf _ eq_refl). rewrite <- Eb in Hf. split; [cbn; lia |]. split; [by constructor |].
  intros m [-> | Hm]%elem_of_cons; [| destruct (Hb m Hm) as (? & c & ? & ?); split; [done |]; exists c; split; [by right | done]].
  split; [done |]. exists b. split; [left |]. rewrite Eb. by apply ends_json_name.
Qed.

Lemma list_current_spec C d : C d -> cwp (list_current store env) (fun d1 r => d1 = d /\ forall bs, r = Ok bs ->
  blen bs = Z.of_nat (size (shown d)) /\ Forall (fun b => found d (db_project b) (Some b)) bs
  /\ forall n, is_Some (shown d !! n) -> ends_json n = true /\ exists b, b ∈ bs /\ n = name_of (db_project b)) C d.
Proof.
  intros HC. apply cwp_bind. eapply cwp_mono; [by apply require_open_spec |]. cbn beta. intros d1 r ->. destruct r as [[] | e]; [| by split].
  apply cwp_bind, cwp_try, cwp_call; [done | cbn; by apply cwp_raise |]. intros _. cbn [fst snd].
  apply cwp_bind, cwp_raise_if; [by split |]. intros _. eapply cwp_mono; [by apply read_names_spec |]. cbn beta. intros d1 r [-> Hr]. split; [done |].
  intros bs E. destruct (Hr bs E) as (Hl & Hf & Hn). unfold sorted_names in *. split; [| split; [done |]].
  - unfold blen. rewrite Hl, length_map, sort_rows_perm, !length_map. by rewrite length_map_to_list.
  - intros n [f Hnf]. apply Hn. apply list_elem_of_fmap. exists (n, []). split; [done |]. rewrite sort_rows_perm.
    apply list_elem_of_fmap. exists n. split; [done |]. apply list_elem_of_fmap. exists (n, f). split; [done |]. by apply elem_of_map_to_list.
Qed.

End Specs.

(** *** Writing *)

(** The exceptions of the store and of the operating system *)
Definition store_or_os (e : exn) : Prop := exn_class e = WAWProjectBindingStoreError \/ exn_class e = PyOSError.

Definition bounded {A} (r : result A) : Prop := forall e, r = Raise e -> store_or_os e.

Lemma bounded_store {A} (message : string) : bounded (@Raise A (store_error message)).
Proof. intros e [= <-]. by left. Qed.

Lemma bounded_os {A} : bounded (@Raise A os_error).
Proof. intros e [= <-]. by right. Qed.

#[local] Hint Resolve bounded_store bounded_os : core.

Section Writing.
Context (env : Sights) (t name : pystr) (raw : bytes) (d : Folder).
Local Abbreviation C := (moved t name raw d).

Lemma write_temp_spec (d1 : Folder) (f : File) : same_but t d d1 -> shown d1 !! t = Some f -> f_data f = [] ->
  cwp (io! written := write_once t raw in
       then! io_raise_if (negb (written =? blen raw)) (store_error "binding record write was incomplete") in
       then! sync_file t in close_file)
    (fun d2 r => same_but t d d2 /\ bounded r /\ (r = Ok tt -> exists g, shown d2 !! t = Some g /\ f_data g = raw /\ f_synced g = true)) C d1.
Proof.
  intros Hs Hf Hd. apply cwp_bind, cwp_call; [by left | split; [done |]; split; [auto | done] |]. intros n. cbv zeta. rewrite Hf. cbn [fst snd]. set (w := Z.max 0 _).
  set (g := mkFile (f_stat f) _ false). assert (Hs2 : same_but t d (set_shown (<[t := g]> (shown d1)) d1)) by (by apply same_elsewhere).
  apply cwp_bind, cwp_raise_if; [split; [done |]; split; [auto | done] |]. intros Hw%negb_false_iff%Z.eqb_eq. apply cwp_bind, cwp_call; [by left | split; [done |]; split; [auto | done] |]. intros _.
  cbn [shown set_shown]. rewrite lookup_insert_eq. cbn [fst snd]. set (g2 := mkFile (f_stat g) (f_data g) true).
  set (d2 := set_shown _ _). assert (Hs3 : same_but t d d2) by (by apply (same_elsewhere t d _ g2) in Hs2).
  apply cwp_observe; [by left | split; [done |]; split; [auto | done] |]. split; [done |]. split; [done |]. intros _. exists g2. split; [cbn; by rewrite lookup_insert_eq |]. split; [| done].
  cbn. rewrite Hd, Hw. unfold slice_to, blen. cbn. apply take_ge. lia.
Qed.

Lemma write_body_spec : cwp (write_body env t name raw) (fun d1 r => exists b x, r = Ok (b, x) /\ wrote t name raw d d1 x /\ bounded x) C d.
Proof.
  assert (Hd : same_but t d d) by done.
  apply cwp_bind, cwp_attempt, cwp_call; [by left | apply cwp_ret; do 2 eexists; split; [done |]; split; [by left | done] |]. intros _.
  destruct (shown d !! t) as [f |] eqn:Ef; cbn [fst snd]; [apply cwp_ret; do 2 eexists; split; [done |]; split; [by left | done] |].
  set (d1 := set_shown _ d). assert (Hs : same_but t d d1) by (by apply same_elsewhere).
  apply cwp_bind, cwp_attempt. eapply cwp_mono; [apply (write_temp_spec d1 (mkFile (new_stat env) [] false)); [done | cbn; by rewrite lookup_insert_eq | done] |].
  cbn beta. intros d2 r (Hs2 & Hb & Hr). destruct r as [[] | e]; [| apply cwp_ret; do 2 eexists; split; [done |]; split; [by left | done]].
  destruct (Hr eq_refl) as (g & Hg & Hdata & Hsync). apply cwp_bind, cwp_attempt. eapply cwp_mono; [by apply (rename_spec t name raw d C d2 g) |].
  cbn beta. intros d3 r [Hw Hb3]. apply cwp_ret. do 2 eexists. split; [done |]. split; [done |]. by intros e ->%Hb3; right.
Qed.

Lemma write_record_spec : cwp (write_record env t name raw) (fun d1 r => wrote t name raw d d1 r /\ bounded r) C d.
Proof.
  apply cwp_bind. eapply cwp_mono; [apply write_body_spec |]. cbn beta. intros d1 r (b & x & -> & Hw & Hbx). cbn [fst snd].
  pose proof (wrote_moved _ _ _ _ _ _ Hw) as Hm.
  assert (Hend : cwp (then! suppress (unlink_file t) in io_lift (except_as x [PyOSError] (store_error "binding record persistence failed")))
    (fun d2 r => wrote t name raw d d2 r /\ bounded r) C d1).
  { assert (Hx : forall d2, wrote t name raw d d2 x -> wrote t name raw d d2 (except_as x [PyOSError] (store_error "binding record persistence failed"))
      /\ bounded (except_as x [PyOSError] (store_error "binding record persistence failed"))).
    { intros d2 H2. destruct x as [u | e]; [by split |]. unfold except_as. destruct (existsb _ _); by split. }
    apply cwp_bind. eapply cwp_mono; [by apply (unlink_spec t name raw d C x d1) |]. cbn beta. intros d2 u [-> H2]. by apply cwp_lift, Hx. }
  apply cwp_bind. destruct b; [| by apply cwp_ret]. apply cwp_observe; [done | by split | exact Hend].
Qed.

End Writing.

(** ** Successions of bindings *)

(** [b] follows [a]: the next revision, linked by revision and digest. *)
Definition follows (a b : DurableBinding) : Prop :=
  digits_value (db_revision b) = digits_value (db_revision a) + 1 /\ db_previous b = Some (db_revision a) /\ db_previous_digest b = Some (db_digest a).

(** What may come after the head [o] *)
Definition next_head (o : option DurableBinding) (b : DurableBinding) : Prop :=
  match o with None => db_revision b = $"1" | Some a => follows a b end.

(** The bindings of the Project [p] from the first on *)
Definition succession `{Unicode} (p : pystr) (l : list DurableBinding) : Prop :=
  forall i b, l !! i = Some b -> wf_binding b /\ db_project b = p /\ next_head (match i with O => None | S j => l !! j end) b.

Section Successions.
Context `{Unicode} (p : pystr).

Lemma succession_snoc (l : list DurableBinding) (b : DurableBinding) :
  succession p l -> wf_binding b -> db_project b = p -> next_head (last l) b -> succession p (l ++ [b]).
Proof.
  intros Hl Hw Hp Hn i x Hx. apply lookup_app_Some in Hx as [Hx | [Hi Hx]].
  - destruct (Hl i x Hx) as (H1 & H2 & H3). split; [done |]. split; [done |]. destruct i as [|j]; [done |].
    apply lookup_lt_Some in Hx. by rewrite lookup_app_l by lia.
  - apply list_lookup_singleton_Some in Hx as [Hz <-]. split; [done |]. split; [done |]. destruct i as [|j].
    + by destruct l; [| cbn in Hi; lia].
    + rewrite lookup_app_l by lia. rewrite last_lookup in Hn. by replace j with (pred (length l)) by lia.
Qed.

Lemma succession_prefix (l k : list DurableBinding) : l `prefix_of` k -> succession p k -> succession p l.
Proof.
  intros [r ->] Hk i b Hb. assert (Hi := lookup_lt_Some _ _ _ Hb). specialize (Hk i b). rewrite lookup_app_l in Hk by done.
  destruct (Hk Hb) as (H1 & H2 & H3). split; [done |]. split; [done |]. destruct i; [done |]. by rewrite lookup_app_l in H3 by lia.
Qed.

(** Revisions count from 1. *)
Lemma succession_revision (l : list DurableBinding) (i : nat) (b : DurableBinding) :
  succession p l -> l !! i = Some b -> digits_value (db_revision b) = Z.of_nat i + 1.
Proof.
  intros Hl. revert b. induction i as [|i IH]; intros b Hb; destruct (Hl _ _ Hb) as (_ & _ & Hn).
  - cbn in Hn. by rewrite Hn.
  - destruct (l !! i) as [a |] eqn:Ha; [| apply lookup_ge_None in Ha; apply lookup_lt_Some in Hb; lia].
    destruct Hn as [-> _]. rewrite (IH a eq_refl). lia.
Qed.

Definition no_later (a b : DurableBinding) : Prop := a = b \/ digits_value (db_revision a) < digits_value (db_revision b).

Lemma succession_last (l : list DurableBinding) (a b : DurableBinding) : succession p l -> a ∈ l -> last l = Some b -> no_later a b.
Proof.
  intros Hl Ha Hb. apply list_elem_of_lookup in Ha as (i & Ha). rewrite last_lookup in Hb.
  pose proof (succession_revision l i a Hl Ha) as H1. pose proof (succession_revision l _ b Hl Hb) as H2. apply lookup_lt_Some in Ha as Hi.
  destruct (decide (i = pred (length l))) as [-> | Hne]; [left; congruence | right; lia].
Qed.

End Successions.

(** ** The invariant *)

Section Heads.
Context `{UnicodeLaws} `{Rfc8785Laws}.
Implicit Types (d : Folder) (p : pystr) (c : list DurableBinding).

Definition holds_binding (b : DurableBinding) (f : File) : Prop :=
  wf_binding b /\ canonical_record (PDict (to_record b)) = Ok (f_data f) /\ f_synced f = true.

Definition shows_binding (o : option File) (ob : option DurableBinding) : Prop :=
  match o, ob with
  | None, None => True
  | Some f, Some b => holds_binding b f
  | _, _ => False
  end.

(** [c] is the succession that the file of [p] shows, and a part of it is durable. *)
Definition tracks_head p d c : Prop :=
  succession p c /\ shows_binding (shown d !! name_of p) (last c) /\ exists l, l `prefix_of` c /\ shows_binding (kept d !! name_of p) (last l).

Lemma found_shown p d (o ob : option DurableBinding) : found d p o -> shows_binding (shown d !! name_of p) ob -> o = ob.
Proof.
  unfold found, shows_binding. destruct o as [b |].
  - intros (f & -> & Hd) Hs. destruct ob as [b2 |]; [| done]. destruct Hs as (Hw & Hc & _). rewrite (record_reads_back b2 _ Hw Hc) in Hd. by injection Hd as ->.
  - intros -> Hs. by destruct ob.
Qed.

Lemma name_of_inj p q : name_of p = name_of q -> p = q.
Proof. unfold name_of. apply app_inj_2. done. Qed.

Lemma project_name_start p : match_id $"prj" p = true -> exists r, name_of p = 112 :: r.
Proof.
  unfold match_id. intros [[Hp%str_eqb_eq _]%andb_true_iff _]%andb_true_iff. destruct p as [|x p]; [done |]. cbn in Hp. injection Hp as -> _.
  by eexists.
Qed.

(** The temporary name is not the name of a Project. *)
Lemma temporary_name p (rest : pystr) : match_id $"prj" p = true -> name_of p <> $"." ++ rest.
Proof. intros (r & ->)%project_name_start. done. Qed.

(** What is left of the operation, for a Project that it may have moved *)
Lemma moved_tracks p d d1 c (v : DurableBinding) (raw : bytes) (rest : pystr) :
  match_id $"prj" p = true -> tracks_head p d c -> wf_binding v -> canonical_record (PDict (to_record v)) = Ok raw ->
  (db_project v = p -> next_head (last c) v) ->
  moved ($"." ++ rest) (name_of (db_project v)) raw d d1 -> exists c1, tracks_head p d1 c1 /\ c `prefix_of` c1.
Proof.
  intros Hp (Hc & Hs & l & Hl & Hk) Hw Hraw Hn [Hsame | (fl & f & Hd & Hsync & Hr)].
  - exists c. split; [| done]. destruct (Hsame _ (temporary_name p rest Hp)) as [E1 E2]. split; [done |]. rewrite E1, E2. split; [done |]. by exists l.
  - destruct (Hr _ (temporary_name p rest Hp)) as [E1 E2]. destruct (decide (db_project v = p)) as [Hv | Hv].
    + exists (c ++ [v]). split; [| by exists [v]]. assert (Hf : holds_binding v f) by (split; [done |]; by rewrite Hd).
      assert (Hs1 : shows_binding (shown d1 !! name_of p) (Some v)) by (rewrite E1, Hv, lookup_insert_eq; done).
      split; [by apply succession_snoc; auto |]. rewrite last_snoc. split; [done |]. destruct fl.
      * exists (c ++ [v]). split; [done |]. rewrite last_snoc, E2. done.
      * exists l. split; [by apply prefix_app_r |]. by rewrite E2.
    + exists c. split; [| done]. rewrite lookup_insert_ne in E1 by (intros ?%name_of_inj; congruence). split; [done |]. rewrite E1, E2. split; [done |].
      destruct fl; [exists c; split; [done |]; by rewrite E1 | by exists l].
Qed.

(** After the operation the succession has at most grown. *)
Definition grew p c d1 : Prop := exists c1, tracks_head p d1 c1 /\ c `prefix_of` c1.

(** What [commit v] did for the Project [p]: when it returned, [v] is its head,
    and durably so unless it was the head before. *)
Definition committed_head p c (v : DurableBinding) d1 (r : result DurableBinding) : Prop :=
  grew p c d1 /\ forall b, r = Ok b -> b = v /\ (db_project v = p -> (exists c1, tracks_head p d1 c1 /\ c `prefix_of` c1 /\ last c1 = Some v)
    /\ (last c <> Some v -> shows_binding (kept d1 !! name_of p) (Some v))).

Lemma grew_refl p d c : tracks_head p d c -> grew p c d.
Proof. intros Ht. by exists c. Qed.

Lemma commit_raises p c v d (e : exn) : grew p c d -> committed_head p c v d (Raise e).
Proof. intros Hg. by split. Qed.

Lemma check_next_spec (store : BindingStore) (env : Sights) (v : DurableBinding) (o : option DurableBinding) (C : Folder -> Prop) d :
  C d -> cwp (check_next store env v o) (fun d1 r => d1 = d /\ (r = Ok tt -> next_head o v
    /\ (o = None -> Z.of_nat (size (shown d)) < MAX_BINDINGS))) C d.
Proof.
  intros HC. destruct o as [a |]; cbn [check_next].
  - apply cwp_bind, cwp_raise_if; [by split |]. intros Hr%negb_false_iff%Z.eqb_eq. apply cwp_raise_if; [by split |].
    intros [H1%negb_false_iff%bool_decide_eq_true H2%negb_false_iff%bool_decide_eq_true]%orb_false_iff. by split.
  - apply cwp_bind, cwp_raise_if; [by split |]. intros Hr%negb_false_iff%str_eqb_eq. apply cwp_bind. eapply cwp_mono; [by apply list_current_spec |].
    cbn beta. intros d1 r [-> Hl]. destruct r as [bs | e]; [| by split]. destruct (Hl bs eq_refl) as [Hsize _]. apply cwp_raise_if; [by split |].
    intros Hb. split; [done |]. intros _. split; [done |]. intros _. lia.
Qed.

Lemma commit_spec (store : BindingStore) (env : Sights) (v : DurableBinding) p c d :
  match_id $"prj" p = true -> wf_binding v -> tracks_head p d c ->
  cwp (commit store env v) (committed_head p c v) (grew p c) d.
Proof.
  intros Hp Hw Ht. pose proof (grew_refl _ _ _ Ht) as Hg. pose proof (fun e => commit_raises p c v d e Hg) as HR.
  apply cwp_bind. eapply cwp_mono; [by apply require_open_spec |]. cbn beta. intros d1 r ->. destruct r as [[] | e]; [| done].
  apply cwp_bind. eapply cwp_mono; [by apply read_spec |]. cbn beta. intros d1 r [-> Hread]. destruct r as [current | e]; [| done].
  specialize (Hread current eq_refl). assert (Hcur : db_project v = p -> current = last c).
  { intros Hv. apply (found_shown p d); [by rewrite <- Hv | apply Ht]. }
  case_bool_decide as Heq.
  { apply cwp_ret. split; [done |]. intros b [= <-]. split; [done |]. intros Hv. specialize (Hcur Hv). split; [exists c; by rewrite <- Hcur | congruence]. }
  apply cwp_bind. eapply cwp_mono; [by apply check_next_spec |]. cbn beta. intros d1 r [-> Hnext]. destruct r as [[] | e]; [| done].
  destruct (Hnext eq_refl) as [Hn _]. apply cwp_bind, cwp_lift. destruct (canonical_record (PDict (to_record v))) as [raw | e] eqn:Hraw; [| done].
  cbv zeta. set (rest := name_of (db_project v) ++ _).
  assert (Hmoved : forall d1, moved ($"." ++ rest) (name_of (db_project v)) raw d d1 -> grew p c d1).
  { intros d1 Hm. apply (moved_tracks p d d1 c v raw rest); try done. intros Hv. by rewrite <- Hcur. }
  apply cwp_bind. eapply cwp_conseq; [apply write_record_spec | exact Hmoved |]. intros d1 r [Hwr _].
  destruct r as [[] | e]; cbn [wrote] in Hwr; [| by apply commit_raises, Hmoved].
  assert (Hg1 : grew p c d1) by (apply Hmoved; right; by exists true). pose proof (fun e => commit_raises p c v d1 e Hg1) as HR1.
  apply cwp_bind. eapply cwp_mono; [by apply read_spec |]. cbn beta. intros d2 r [-> Hr2]. destruct r as [o | e]; [| done].
  case_bool_decide as Ho; [| by apply cwp_raise]. apply cwp_ret. split; [done |]. intros b [= <-]. split; [done |]. intros Hv.
  destruct Hg1 as (c1 & Ht1 & Hpre). assert (Hlast : last c1 = Some v).
  { rewrite <- Ho. symmetry. apply (found_shown p d1); [rewrite <- Hv; by apply Hr2 | apply Ht1]. }
  split; [by exists c1 |]. intros _. destruct Hwr as (f & Hd & Hsync & Hall). destruct (Hall _ (temporary_name p rest Hp)) as [E1 E2].
  rewrite E2, E1, Hv, lookup_insert_eq. split; [done |]. by rewrite Hd.
Qed.

End Heads.

(** ** What [commit] moved *)

Section Moves.
Context `{UnicodeLaws} `{Rfc8785Laws} (store : BindingStore) (env : Sights).

Lemma require_open_bounded (d : Folder) : cwp (require_open store env) (fun d1 r => d1 = d /\ bounded r) (fun d1 => d1 = d) d.
Proof.
  assert (K : forall e, store_or_os e -> bounded (@Raise unit e)) by (by intros e He x [= <-]).
  apply cwp_bind, cwp_raise_if; [split; [done |]; apply K; by left |]. intros _. apply cwp_bind, cwp_observe; [done | split; [done |]; apply K; by right |].
  apply cwp_lift. split; [done |]. unfold validate_directory, raise_if. destruct (_ || _); [apply K; by left | done].
Qed.

Lemma read_file_bounded (f : File) (d : Folder) : cwp (read_file store f) (fun d1 r => d1 = d /\ bounded r /\ forall raw, r = Ok raw -> raw = f_data f) (fun d1 => d1 = d) d.
Proof.
  assert (K : forall (r : result bytes), bounded r -> (forall raw, r = Ok raw -> raw = f_data f) ->
    cwp close_file (fun d2 rc => d2 = d /\ bounded (match rc with Ok _ => r | Raise e => Raise e end)
      /\ forall raw, match rc with Ok _ => r | Raise e => Raise e end = Ok raw -> raw = f_data f) (fun d1 => d1 = d) d).
  { intros r Hb Hr. apply cwp_observe; [done | | by split]. split; [done |]. split; [| done]. intros e [= <-]. by right. }
  assert (K2 : forall e, store_or_os e -> bounded (@Raise bytes e)) by (by intros e He x [= <-]).
  apply cwp_finally, cwp_bind, cwp_observe; [done | apply K; [apply K2; by right | done] |].
  apply cwp_bind, cwp_raise_if; [apply K; [apply K2; by left | done] |]. intros _. apply cwp_bind, cwp_call; [done | apply K; [apply K2; by right | done] |].
  intros n. cbn [fst snd]. apply cwp_bind, cwp_raise_if; [apply K; [apply K2; by left | done] |]. intros Hl%negb_false_iff%Z.eqb_eq.
  apply cwp_ret, K; [done |]. intros raw [= <-]. by apply read_all.
Qed.

(** Reading a file that holds a binding *)
Lemma read_holding (b : DurableBinding) (f : File) (p : pystr) (d : Folder) : holds_binding b f -> shown d !! name_of p = Some f ->
  cwp (read store env p) (fun d1 r => d1 = d /\ bounded r /\ forall o, r = Ok o -> o = Some b) (fun d1 => d1 = d) d.
Proof.
  intros (Hw & Hc & _) Hf. assert (K : forall e, store_or_os e -> bounded (@Raise (option DurableBinding) e)) by (by intros e He x [= <-]).
  apply cwp_bind. eapply cwp_mono; [apply require_open_bounded |]. cbn beta. intros d1 r [-> Hr]. destruct r as [[] | e]; [| split; [done |]; split; [apply K; by apply Hr | done]].
  apply cwp_bind, cwp_try, cwp_try, cwp_bind, cwp_call; [done | cbn; apply cwp_raise; split; [done |]; split; [apply K; by left | done] |]. intros _. cbn [fst snd].
  rewrite Hf. destruct (is_link (f_stat f)); [cbn; apply cwp_raise; split; [done |]; split; [apply K; by left | done] |]. apply cwp_ret. apply cwp_bind.
  eapply cwp_mono; [apply read_file_bounded |]. cbn beta. intros d1 r (-> & Hb & Hd). destruct r as [raw | e]; [| split; [done |]; split; [apply K; by apply Hb | done]].
  rewrite (Hd raw eq_refl). apply cwp_lift. rewrite (record_reads_back b _ Hw Hc). split; [done |]. split; [done |]. by intros o [= <-].
Qed.

(** The change of [commit v]: [v] follows what was found, and was written. *)
Definition advanced (v : DurableBinding) (d d1 : Folder) (flushed : bool) : Prop :=
  exists rest raw current, found d (db_project v) current /\ next_head current v /\ canonical_record (PDict (to_record v)) = Ok raw
    /\ replaced ($"." ++ rest) (name_of (db_project v)) raw d d1 flushed.

(** Nothing but temporary names changed. *)
Definition idle (d d1 : Folder) : Prop := exists rest, same_but ($"." ++ rest) d d1.

Lemma idle_refl (d : Folder) : idle d d.
Proof. by exists []. Qed.

Definition commit_result (v : DurableBinding) (d d1 : Folder) (r : result DurableBinding) : Prop :=
  match r with
  | Ok b => b = v /\ (d1 = d /\ found d (db_project v) (Some v) \/ advanced v d d1 true)
  | Raise e => idle d d1 \/ store_or_os e /\ exists flushed, advanced v d d1 flushed
  end.

Lemma commit_moves (v : DurableBinding) (d : Folder) : wf_binding v ->
  cwp (commit store env v) (commit_result v d) (fun d1 => idle d d1 \/ exists flushed, advanced v d d1 flushed) d.
Proof.
  intros Hw. pose proof (idle_refl d) as Hi. assert (HR : forall e, commit_result v d d (Raise e)) by (by left).
  apply cwp_bind. eapply cwp_mono; [apply require_open_spec; by left |]. cbn beta. intros d1 r ->. destruct r as [[] | e]; [| done].
  apply cwp_bind. eapply cwp_mono; [apply read_spec; by left |]. cbn beta. intros d1 r [-> Hread]. destruct r as [current | e]; [| done].
  specialize (Hread current eq_refl). case_bool_decide as Heq; [apply cwp_ret; subst; by repeat (split; [done |]); left |].
  apply cwp_bind. eapply cwp_mono; [apply check_next_spec; by left |]. cbn beta. intros d1 r [-> Hnext]. destruct r as [[] | e]; [| done].
  destruct (Hnext eq_refl) as [Hn _]. apply cwp_bind, cwp_lift. destruct (canonical_record (PDict (to_record v))) as [raw | e] eqn:Hraw; [| done].
  cbv zeta. set (rest := name_of (db_project v) ++ _).
  assert (Hadv : forall d1 fl, replaced ($"." ++ rest) (name_of (db_project v)) raw d d1 fl -> advanced v d d1 fl) by (intros d1 fl Hr; by exists rest, raw, current).
  assert (Hmoved : forall d1, moved ($"." ++ rest) (name_of (db_project v)) raw d d1 -> idle d d1 \/ exists fl, advanced v d d1 fl).
  { intros d1 [Hs | [fl Hr]]; [left; by exists rest | right; exists fl; by apply Hadv]. }
  apply cwp_bind. eapply cwp_conseq; [apply write_record_spec | exact Hmoved |]. intros d1 r [Hwr Hb].
  destruct r as [[] | e]; cbn [wrote] in Hwr; [| destruct (Hmoved d1 Hwr) as [? | ?]; [by left | right; split; [by apply Hb | done]]].
  pose proof Hwr as (f & Hd & Hsync & Hall). assert (Hp : match_id $"prj" (db_project v) = true) by (destruct Hw as [(_ & ? & _)%post_init_ok _]; done).
  destruct (Hall _ (temporary_name _ rest Hp)) as [E1 _]. rewrite lookup_insert_eq in E1. assert (Hf : holds_binding v f) by (split; [done |]; by rewrite Hd).
  apply cwp_bind. eapply cwp_conseq; [by apply (read_holding v f) | intros d2 ->; right; exists true; by apply Hadv |].
  intros d2 r (-> & Hrb & Ho). destruct r as [o | e]; [| right; split; [by apply Hrb |]; exists true; by apply Hadv].
  rewrite (Ho o eq_refl), bool_decide_eq_true_2 by done. apply cwp_ret. split; [done |]. right. by apply Hadv.
Qed.

End Moves.

(** ** Histories of one directory *)

Inductive request : Type :=
| Commit (v : DurableBinding)
| Get (project_id : pyval)
| ListCurrent.

(** What a request did to the outside: the binding that [commit] returned *)
Definition perform_request `{Unicode} `{Rfc8785} (store : BindingStore) (env : Sights) (q : request) : io Folder (option DurableBinding) :=
  match q with
  | Commit v => io! b := commit store env v in io_ret (Some b)
  | Get v => then! get store env v in io_ret None
  | ListCurrent => then! list_current store env in io_ret None
  end.

(** The caller passes a constructed binding. *)
Definition wf_request `{Unicode} (q : request) : Prop := match q with Commit v => wf_binding v | _ => True end.

Inductive log_entry : Type :=
| Acked (b : DurableBinding)
| PowerLoss.

Definition acked (r : result (option DurableBinding)) : list log_entry := match r with Ok (Some b) => [Acked b] | _ => [] end.

(** A directory that was empty at first, and what happened to it; every request
    may come from another process with a store object of its own. *)
Inductive stored `{Unicode} `{Rfc8785} : Folder -> list log_entry -> Prop :=
| Stored_new : stored (mkFolder ∅ ∅) []
| Stored_run d log store env q evs d1 rest r : stored d log -> wf_request q ->
    perform_request store env q d evs = Ran d1 rest r -> stored d1 (log ++ acked r)
| Stored_dies d log store env q evs d1 : stored d log -> wf_request q -> perform_request store env q d evs = Died d1 -> stored d1 log
| Stored_lost d log m : stored d log -> power_lost d m -> stored (mkFolder m m) (log ++ [PowerLoss]).

(** The bindings of [p] that were acknowledged since the last power loss *)
Definition step_acks (p : pystr) (acc : list DurableBinding) (e : log_entry) : list DurableBinding :=
  match e with
  | Acked b => if str_eqb (db_project b) p then acc ++ [b] else acc
  | PowerLoss => []
  end.

Definition acks (p : pystr) (log : list log_entry) : list DurableBinding := foldl (step_acks p) [] log.

Lemma acks_snoc (p : pystr) (log : list log_entry) (e : log_entry) : acks p (log ++ [e]) = step_acks p (acks p log) e.
Proof. unfold acks. by rewrite foldl_app. Qed.

(** The binding that the file of [p] shows *)
Definition head_of `{Unicode} `{Rfc8785} (d : Folder) (p : pystr) : option DurableBinding :=
  match shown d !! name_of p with
  | Some f => match decode_record (f_data f) with Ok b => Some b | Raise _ => None end
  | None => None
  end.

Section Histories.
Context `{UnicodeLaws} `{Rfc8785Laws} (p : pystr).
Hypothesis Hp : match_id $"prj" p = true.

Definition in_succession (c : list DurableBinding) (l : list DurableBinding) : Prop := Forall (fun b => b ∈ c) l /\ StronglySorted no_later l.

Lemma in_succession_prefix (c c1 l : list DurableBinding) : c `prefix_of` c1 -> in_succession c l -> in_succession c1 l.
Proof. intros [r ->] [H1 H2]. split; [| done]. eapply Forall_impl; [exact H1 |]. cbn. intros b. rewrite elem_of_app. auto. Qed.

Lemma in_succession_snoc (c l : list DurableBinding) (b : DurableBinding) :
  succession p c -> in_succession c l -> last c = Some b -> in_succession c (l ++ [b]).
Proof.
  intros Hc [H1 H2] Hb. split; [apply Forall_app; split; [done |]; constructor; [by apply last_Some_elem_of | done] |].
  apply StronglySorted_app_2; [| done | repeat constructor]. intros x y Hx ->%list_elem_of_singleton. rewrite Forall_forall in H1.
  by apply (succession_last p c); [| apply H1 |].
Qed.

Lemma shows_survives (o o2 : option File) (ob : option DurableBinding) : shows_binding o ob -> survives_opt o o2 -> shows_binding o2 ob.
Proof.
  intros Hs Hv. destruct o as [f |], o2 as [g |], ob as [b |]; try done. destruct Hs as (H1 & H2 & H3). cbn in Hv. unfold survives in Hv. rewrite H3 in Hv.
  by subst g.
Qed.

Lemma lost_tracks (d : Folder) (m : gmap pystr File) (c : list DurableBinding) : tracks_head p d c -> power_lost d m ->
  exists c1, tracks_head p (mkFolder m m) c1.
Proof.
  intros (Hc & Hs & l & Hl & Hk) Hm. destruct (Hm (name_of p)) as [Hm1 | Hm1].
  - exists c. pose proof (shows_survives _ _ _ Hs Hm1). split; [done |]. split; [done |]. by exists c.
  - exists l. pose proof (shows_survives _ _ _ Hk Hm1). split; [by apply (succession_prefix p l c) |]. split; [done |]. by exists l.
Qed.

Lemma request_grows (store : BindingStore) (env : Sights) (q : request) (d : Folder) (c : list DurableBinding) :
  wf_request q -> tracks_head p d c ->
  cwp (perform_request store env q) (fun d1 r => exists c1, tracks_head p d1 c1 /\ c `prefix_of` c1
    /\ forall b, r = Ok (Some b) -> db_project b = p -> last c1 = Some b) (grew p c) d.
Proof.
  intros Hw Ht. pose proof (grew_refl _ _ _ Ht) as Hg. destruct q as [v | v |]; cbn [perform_request].
  - apply cwp_bind. eapply cwp_mono; [by apply (commit_spec _ _ v p c) |]. intros d1 r [(c1 & Hc1 & Hpre) Hr].
    destruct r as [b | e]; [| by exists c1]. destruct (Hr b eq_refl) as [-> Hv]. apply cwp_ret.
    destruct (decide (db_project v = p)) as [E | E]; [| exists c1; split; [done |]; split; [done |]; congruence].
    destruct (Hv E) as [(c2 & Hc2 & Hpre2 & Hlast) _]. exists c2. split; [done |]. split; [done |]. by intros b [= <-] _.
  - apply cwp_bind. eapply cwp_mono; [by apply get_spec |]. cbn beta. intros d1 r ->. destruct r; [apply cwp_ret |]; by exists c.
  - apply cwp_bind. eapply cwp_mono; [by apply list_current_spec |]. cbn beta. intros d1 r [-> _]. destruct r; [apply cwp_ret |]; by exists c.
Qed.

Lemma stored_inv (d : Folder) (log : list log_entry) : stored d log -> exists c, tracks_head p d c /\ in_succession c (acks p log).
Proof.
  induction 1 as [| d log store env q evs d1 rest r _ (c & Ht & Ha) Hw E | d log store env q evs d1 _ (c & Ht & Ha) Hw E | d log m _ (c & Ht & Ha) Hm].
  - exists []. split; [| by repeat constructor]. split; [done |]. cbn [shown kept]; rewrite !lookup_empty. split; [done |]. by exists [].
  - pose proof (request_grows store env q d c Hw Ht evs) as Hq. rewrite E in Hq. destruct Hq as (c1 & Ht1 & Hpre & Hr).
    exists c1. split; [done |]. pose proof (in_succession_prefix c c1 _ Hpre Ha) as Ha1. destruct r as [[b |] |]; cbn [acked]; rewrite ?app_nil_r; try done.
    rewrite acks_snoc. cbn [step_acks]. destruct (str_eqb (db_project b) p) eqn:Eb; [| done]. apply str_eqb_eq in Eb.
    apply in_succession_snoc; [apply Ht1 | done | by apply Hr].
  - pose proof (request_grows store env q d c Hw Ht evs) as Hq. rewrite E in Hq. destruct Hq as (c1 & Ht1 & Hpre).
    exists c1. split; [done |]. by apply (in_succession_prefix c).
  - destruct (lost_tracks d m c Ht Hm) as (c1 & Hc1). exists c1. split; [done |]. rewrite acks_snoc. by repeat constructor.
Qed.

Lemma tracked_head (d : Folder) (c : list DurableBinding) : tracks_head p d c -> head_of d p = last c.
Proof.
  intros (_ & Hs & _). unfold head_of, shows_binding in *. destruct (shown d !! name_of p) as [f |], (last c) as [b |]; try done.
  destruct Hs as (Hw & Hc & _). by rewrite (record_reads_back b _ Hw Hc).
Qed.

End Histories.

(** ** The properties *)

(** C21: Whatever calls to the operating system fail, wherever a process
    dies and whenever the power is lost, the head of every Project ends a
    succession of bindings with revisions 1, 2, 3, ... each linked to the one
    before by revision and digest, and the bindings that [commit] returned since
    the last power loss are bindings of it in this order: a head never goes back,
    and no revision is ever given to two bindings. *)
Theorem store_heads `{UnicodeLaws} `{Rfc8785Laws} (d : Folder) (log : list log_entry) (p : pystr) :
  stored d log -> match_id $"prj" p = true ->
  exists c, head_of d p = last c /\ succession p c /\ Forall (fun b => b ∈ c) (acks p log) /\ StronglySorted no_later (acks p log).
Proof.
  intros Hs Hp. destruct (stored_inv p Hp d log Hs) as (c & Ht & Ha). exists c. split; [by apply tracked_head |]. split; [apply Ht | exact Ha].
Qed.

(** C24: A binding that [commit] wrote and returned is the head of
    its Project, and still is when the power is lost then. *)
Theorem commit_durable `{UnicodeLaws} `{Rfc8785Laws} (d : Folder) (log : list log_entry) (store : BindingStore) (env : Sights)
    (v b : DurableBinding) (evs rest : list event) (d1 : Folder) (m : gmap pystr File) :
  stored d log -> wf_binding v -> head_of d (db_project v) <> Some v -> commit store env v d evs = Ran d1 rest (Ok b) -> power_lost d1 m ->
  b = v /\ head_of d1 (db_project v) = Some v /\ head_of (mkFolder m m) (db_project v) = Some v.
Proof.
  intros Hs Hw Hne E Hm. assert (Hp : match_id $"prj" (db_project v) = true) by (destruct Hw as [(_ & ? & _)%post_init_ok _]; done).
  destruct (stored_inv _ Hp d log Hs) as (c & Ht & _). rewrite (tracked_head _ d c Ht) in Hne.
  pose proof (commit_spec store env v _ c d Hp Hw Ht evs) as Hc. rewrite E in Hc. destruct Hc as [_ Hc]. destruct (Hc b eq_refl) as [-> Hv].
  destruct (Hv eq_refl) as [(c1 & Ht1 & _ & Hlast) Hk]. specialize (Hk Hne). split; [done |]. rewrite (tracked_head _ d1 c1 Ht1). split; [done |].
  destruct Ht1 as (_ & Hshow & _). rewrite Hlast in Hshow. assert (Hm1 : shows_binding (m !! name_of (db_project v)) (Some v)).
  { destruct (Hm (name_of (db_project v))) as [Hm1 | Hm1]; [exact (shows_survives _ _ _ Hshow Hm1) | exact (shows_survives _ _ _ Hk Hm1)]. }
  unfold head_of. cbn [shown]. destruct (m !! name_of (db_project v)) as [f |]; [| done]. destruct Hm1 as (Hw1 & Hc1 & _).
  by rewrite (record_reads_back v _ Hw1 Hc1).
Qed.

(** ** Witnesses *)

#[local] Existing Instance printed_rfc8785.

Definition heads_store : BindingStore := mkBindingStore 10 20 false.
Definition heads_folder : Stat := mkStat true false false 10 20 448 1 2 2.
Definition heads_env (c : Z) : Sights := mkSights heads_folder (repeat c 32) (mkStat false false true 10 20 384 1 3 1).

Definition heads_project : pystr := $"prj_" ++ repeat 97 32.
Definition first_binding : DurableBinding :=
  mkDurable heads_project $"project one" $"1" $"1" (repeat 48 64) None None ($"wri_" ++ repeat 98 32) $"1".
Definition second_binding : DurableBinding :=
  mkDurable heads_project $"project one" $"2" $"2" (repeat 49 64) (Some $"1") (Some (repeat 48 64)) ($"wri_" ++ repeat 98 32) $"1".

Definition folder_after {A} (o : outcome Folder A) : Folder := match o with Died d | Ran d _ _ => d end.
Definition result_of {A} (o : outcome Folder A) : option (result A) := match o with Died _ => None | Ran _ _ r => Some r end.
Definition no_folder : Folder := mkFolder ∅ ∅.

(** The first binding is committed, and the process dies after it renamed the
    file of the second. *)
Definition folder_one : Folder := Eval vm_compute in folder_after (commit heads_store (heads_env 49) first_binding no_folder []).
Definition die_after_rename : list event := repeat (Works 4096) 11 ++ [Dies].
Definition folder_two : Folder :=
  Eval vm_compute in folder_after (commit heads_store (heads_env 50) second_binding folder_one die_after_rename).

Lemma first_wf : wf_binding first_binding.
Proof. split; vm_compute; reflexivity. Qed.

Lemma second_wf : wf_binding second_binding.
Proof. split; vm_compute; reflexivity. Qed.

Example dies_after_rename :
  result_of (commit heads_store (heads_env 50) second_binding folder_one die_after_rename) = None
  /\ head_of folder_two heads_project = Some second_binding /\ kept folder_two !! name_of heads_project = kept folder_one !! name_of heads_project.
Proof. vm_compute. done. Qed.

Lemma stored_one : stored folder_one [Acked first_binding].
Proof.
  apply (Stored_run no_folder [] heads_store (heads_env 49) (Commit first_binding) [] folder_one [] (Ok (Some first_binding)));
    [constructor | apply first_wf | vm_compute; reflexivity].
Qed.

Lemma stored_two : stored folder_two [Acked first_binding].
Proof.
  apply (Stored_dies folder_one _ heads_store (heads_env 50) (Commit second_binding) die_after_rename); [apply stored_one | apply second_wf | vm_compute; reflexivity].
Qed.

Lemma store_heads_witness : exists c, head_of folder_two heads_project = last c /\ succession heads_project c
  /\ Forall (fun b => b ∈ c) [first_binding] /\ StronglySorted no_later [first_binding].
Proof. exact (store_heads folder_two [Acked first_binding] heads_project stored_two eq_refl). Defined.

Lemma heads_keep (d : Folder) : power_lost d (kept d) \/ ~ map_Forall (fun _ f => f_synced f = true) (kept d).
Proof.
  destruct (decide (map_Forall (fun _ f => f_synced f = true) (kept d))) as [Hs | Hs]; [left | by right]. intros n. right.
  destruct (kept d !! n) as [f |] eqn:E; [| done]. cbn. unfold survives. by rewrite (Hs n f E).
Qed.

Lemma commits_first : commit heads_store (heads_env 49) first_binding no_folder [] = Ran folder_one [] (Ok first_binding).
Proof. vm_compute. reflexivity. Qed.

Lemma folder_one_lost : power_lost folder_one (kept folder_one).
Proof. destruct (heads_keep folder_one) as [Hk | Hk]; [exact Hk |]. exfalso. apply Hk. apply (bool_decide_unpack _). vm_compute. done. Qed.

Lemma commit_durable_witness : head_of (mkFolder (kept folder_one) (kept folder_one)) heads_project = Some first_binding.
Proof.
  refine (proj2 (proj2 (commit_durable no_folder [] heads_store (heads_env 49) first_binding first_binding [] [] folder_one (kept folder_one)
    Stored_new first_wf _ commits_first folder_one_lost))).
  done.
Defined.

(** ** What the store does not promise *)

(** The directory cannot be made durable, so [commit] raises; the same [commit]
    then returns the binding without trying again, and a power loss takes it. *)
Definition sync_fails : list event := repeat (Works 4096) 10 ++ [Fails].
Definition folder_unsynced : Folder := Eval vm_compute in folder_after (commit heads_store (heads_env 49) first_binding no_folder sync_fails).

Example retried_not_durable :
  result_of (commit heads_store (heads_env 49) first_binding no_folder sync_fails) = Some (Raise (store_error "binding record persistence failed"))
  /\ commit heads_store (heads_env 50) first_binding folder_unsynced [] = Ran folder_unsynced [] (Ok first_binding)
  /\ power_lost folder_unsynced ∅ /\ head_of (mkFolder ∅ ∅) heads_project = None.
Proof.
  split; [vm_compute; reflexivity |]. split; [vm_compute; reflexivity |]. split; [| done]. intros n. right.
  assert (kept folder_unsynced = ∅) as -> by reflexivity. by rewrite lookup_empty.
Qed.

(** A process that dies before the rename leaves its temporary file; nothing
    removes it, and from then on [list_current] and the first [commit] of any
    Project raise. *)
Definition die_before_rename : list event := repeat (Works 4096) 9 ++ [Dies].
Definition folder_littered : Folder := Eval vm_compute in folder_after (commit heads_store (heads_env 49) first_binding no_folder die_before_rename).

Example leftover_blocks :
  result_of (list_current heads_store (heads_env 50) folder_littered []) = Some (Raise (store_error "binding store inventory is invalid"))
  /\ result_of (commit heads_store (heads_env 50) first_binding folder_littered []) = Some (Raise (store_error "binding store inventory is invalid")).
Proof. split; vm_compute; reflexivity. Qed.
