(* ===== verification/BindingCommit.v ===== *)
(** * What [commit] decides when no call fails

    The binding store of [BindingStore] on a directory that holds only its own
    files: every record fits its bound, every file is read back, and [commit]
    answers as the head of the Project and the number of bindings say. *)

From stdpp Require Import sorting.
From S2P Require Import Prelude PyVal Json Unicode Control Canonical Crash Folder BindingStore BindingHeads.

Local Open Scope Z_scope.

(** ** The size of a record *)

Lemma utf8_length (s : pystr) : forall b, utf8_encode s = Some b -> blen b <= 4 * blen s.
Proof.
  induction s as [|c s IH]; intros b E; cbn [utf8_encode] in E; [by injection E as <- |].
  destruct (utf8_encode1 c) as [x |] eqn:Ec; [| done]. destruct (utf8_encode s) as [y |]; [| done]. injection E as <-. specialize (IH y eq_refl).
  assert (length x <= 4)%nat by (unfold utf8_encode1 in Ec; repeat case_match; simplify_eq; cbn; lia).
  unfold blen in *. rewrite length_app. cbn [length]. lia.
Qed.

Lemma escape_length (s : pystr) : (forall c, c ∈ s -> 32 <= c) -> (length (dumps_string s) <= 2 * length s + 2)%nat.
Proof.
  intros Hs. unfold dumps_string. cbn [length]. rewrite length_app. cbn [length]. enough (length (flat_map escape_char s) <= 2 * length s)%nat by lia.
  induction s as [|c s IH]; [done |]. cbn [flat_map length]. rewrite length_app. specialize (IH ltac:(set_solver)). specialize (Hs c ltac:(left)).
  assert (length (escape_char c) <= 2)%nat; [| lia]. unfold escape_char.
  repeat match goal with |- context [if ?b then _ else _] => destruct b eqn:? end; cbn; lia.
Qed.

(** [s] is printed as it is, in at most [n] characters and the quotes. *)
Definition prints (n : nat) (s : pystr) : Prop := (length (dumps_string s) <= n + 2)%nat.

Lemma plain_prints (s : pystr) (n : nat) : plain_text s = true -> (length s <= n)%nat -> prints n s.
Proof. intros Hs Hn. unfold prints. rewrite dumps_plain by done. cbn. rewrite length_app. cbn. lia. Qed.

Lemma hex_plain (s : pystr) : forallb is_lower_hex s = true -> plain_text s = true.
Proof. unfold plain_text. rewrite !forallb_forall. intros Hs c Hc%Hs. unfold is_lower_hex, is_digit, plain_char, in_range in *. lia. Qed.

Lemma id_prints (prefix s : pystr) : plain_text (prefix ++ $"_") = true -> length prefix = 3%nat -> match_id prefix s = true -> prints 36 s.
Proof.
  unfold match_id. intros Hp Hl [[Hs%str_eqb_eq Hn%Nat.eqb_eq]%andb_true_iff Hx%hex_plain]%andb_true_iff. rewrite Hl in *.
  apply plain_prints; [| rewrite length_drop in Hn; lia]. rewrite <- (take_drop (3 + 1) s). unfold plain_text in *. by rewrite forallb_app, Hs, Hp.
Qed.

Lemma hex64_prints (s : pystr) : match_hex 64 s = true -> prints 64 s.
Proof. unfold match_hex. intros [Hn%Nat.eqb_eq Hx%hex_plain]%andb_true_iff. apply plain_prints; [done | lia]. Qed.

Lemma decimal_prints (s : pystr) : match_pos_decimal s = true -> prints 20 s.
Proof.
  destruct s as [|c s]; [done |]. cbn [match_pos_decimal]. intros [[Hc Hs]%andb_true_iff Hn%Nat.leb_le]%andb_true_iff.
  apply plain_prints; [| cbn; lia]. apply digits_plain_text. cbn [forallb]. rewrite Hs. unfold is_nonzero_digit, is_digit, in_range in *. lia.
Qed.

(** The length of an object from those of its members *)
Definition member_fits (kv : pystr * pyval) (n : nat) : Prop :=
  exists x, dumps (snd kv) = Ok x /\ (length (dumps_string (fst kv)) + length x + 2 <= n)%nat.

Lemma object_fits (d : pydict) (ns : list nat) (t : pystr) : Forall2 member_fits d ns -> dumps (PDict d) = Ok t -> (2 <= length t <= sum_list ns + 2)%nat.
Proof.
  intros Hd E. cbn [dumps] in E. apply rbind_ok in E as (parts & E & <-%Ok_inj).
  assert (Hj : (length (join_comma parts) <= sum_list ns)%nat).
  { revert parts E. induction Hd as [|[k v] n d ns (x & Ex & Hx) _ IH]; intros parts E; cbn [map] in E; [by injection E as <- |].
    apply seq_results_ok_cons in E as (a & r & Ea & Er & ->). specialize (IH r Er). cbn [fst snd] in *. rewrite Ex in Ea. apply Ok_inj in Ea as <-.
    assert (Ha : (length (dumps_string k ++ (58 : Z) :: x) + 1 <= n)%nat) by (rewrite length_app; cbn [length]; lia).
    revert Ha IH. generalize (dumps_string k ++ (58 : Z) :: x) as y. intros y Ha IH. change (sum_list (n :: ns)) with (n + sum_list ns)%nat. cbn [join_comma]. destruct r as [|z r]; [lia |].
    rewrite length_app. cbn [length]. lia. }
  cbn [length]. rewrite length_app. cbn [length]. lia.
Qed.

Lemma text_fits (k s : pystr) (n m : nat) : prints n s -> (length (dumps_string k) + n + 4 <= m)%nat -> member_fits (k, PStr s) m.
Proof. intros Hs Hm. exists (dumps_string s). split; [done |]. unfold prints in Hs. cbn [fst]. lia. Qed.

Lemma optional_fits (k : pystr) (o : option pystr) (n m : nat) : (forall s, o = Some s -> prints n s) -> (2 <= n)%nat ->
  (length (dumps_string k) + n + 4 <= m)%nat -> member_fits (k, text_or_none o) m.
Proof.
  intros Ho Hn Hm. destruct o as [s |]; [by apply (text_fits k s n); [apply Ho |] |]. exists $"null". split; [done |]. cbn [fst]. change (length $"null") with 4%nat. lia.
Qed.

Section Size.
Context `{UnicodeLaws} `{Rfc8785Laws}.

Lemma key_prints (k : pystr) : validate_relative_key (PStr k) = Ok k -> prints 160 k.
Proof.
  unfold validate_relative_key. intros E. apply rbind_ok in E as ([] & _ & E). apply rbind_ok in E as ([] & Hl%raise_if_ok & E).
  apply rbind_ok in E as ([] & _ & E). apply rbind_ok in E as ([] & Hc%raise_if_ok & _). repeat (apply orb_false_iff in Hl as [Hl _]).
  unfold prints. assert (Hk : (length k <= 80)%nat) by (unfold blen in Hl; lia). pose proof (escape_length k) as He.
  assert (forall c, c ∈ k -> 32 <= c); [| specialize (He ltac:(done)); lia]. intros c Hin. apply not_true_iff_false in Hc.
  destruct (Z.ltb_spec c 32) as [Hlt |]; [| done]. exfalso. apply Hc. apply existsb_exists. exists c. split; [by apply list_elem_of_In | lia].
Qed.

(** Every binding has a record within the bound. *)
Lemma record_fits (b : DurableBinding) : wf_binding b -> exists raw, canonical_record (PDict (to_record b)) = Ok raw /\ 1 <= blen raw <= MAX_RECORD_BYTES.
Proof.
  intros Hb. destruct (canonical_text _ (record_canonical b Hb)) as (t & raw & Et & Eu & Er).
  assert (Hlen : (1 <= length t <= 1000)%nat).
  { destruct Hb as [(_ & Hp & Hk%key_prints & Hpr%decimal_prints & Hr%decimal_prints & Hhr%decimal_prints & Hd%hex64_prints & Hpre & Hh)%post_init_ok _].
    apply id_prints in Hp, Hh; try done.
    assert (Hprev : (forall s, db_previous b = Some s -> prints 20 s) /\ forall s, db_previous_digest b = Some s -> prints 64 s).
    { unfold predecessor_ok in Hpre. destruct (str_eqb _ _); [by destruct Hpre as [-> ->] |].
      destruct Hpre as (p & q & -> & -> & H1%decimal_prints & H2%hex64_prints & _). by split; intros s [= <-]. }
    destruct Hprev as [H1 H2]. enough (2 <= length t <= sum_list [84; 42; 93; 51; 54; 44; 180; 72; 62; 84] + 2)%nat by (cbn in *; lia).
    apply (object_fits (to_record b)); [| done].
    repeat (constructor; [first [by eapply text_fits; [eassumption | vm_compute; lia] | by eapply optional_fits; [eassumption | lia | vm_compute; lia]
      | apply (text_fits _ _ 40); [vm_compute; lia | vm_compute; lia]] |]). constructor. }
  pose proof (utf8_length t raw Eu) as Hu. assert (Hne : 1 <= blen raw).
  { destruct raw; [| unfold blen; cbn; lia]. pose proof (utf8_decode_encode _ _ Eu) as Hd. cbn in Hd. injection Hd as <-. cbn in Hlen. lia. }
  assert (Hm : blen raw <= MAX_RECORD_BYTES) by (unfold MAX_RECORD_BYTES, blen in *; lia).
  exists raw. split; [| done]. unfold canonical_record. cbn [as_dict]. rewrite Er. cbn [except_as rbind].
  replace (in_range 1 (blen raw) MAX_RECORD_BYTES) with true by (unfold in_range; lia). done.
Qed.

End Size.

(** ** A directory of the store's own files *)

Section Decides.
Context `{UnicodeLaws} `{Rfc8785Laws} (store : BindingStore) (env : Sights).
Implicit Types (d : Folder) (p : pystr).

(** The store is open, its directory is its own, and so are the files it makes. *)
Definition usable : bool :=
  negb (store_closed store) && is_dir (folder_stat env) && store_owned store (folder_stat env) && (Z.land (st_mode (folder_stat env)) 63 =? 0)
  && is_reg (new_stat env) && negb (is_link (new_stat env)) && store_owned store (new_stat env) && (st_mode (new_stat env) =? 384) && (st_nlink (new_stat env) =? 1).

Definition own_record (f : File) : bool :=
  is_reg (f_stat f) && negb (is_link (f_stat f)) && store_owned store (f_stat f) && (st_mode (f_stat f) =? 384) && (st_nlink (f_stat f) =? 1).

(** [n] is the name of a Project and [f] a file of the store with its binding. *)
Definition healthy_file (n : pystr) (f : File) : Prop :=
  exists b, n = name_of (db_project b) /\ holds_binding b f /\ own_record f = true.

Definition healthy d : Prop := map_Forall healthy_file (shown d).

Hypothesis Huse : usable = true.

Lemma runs_require_open d : runs (require_open store env) d d (Ok tt).
Proof.
  unfold usable in Huse. repeat (apply andb_true_iff in Huse as [Huse ?]). apply negb_true_iff in Huse.
  eapply runs_bind; [by apply runs_guard |]. eapply runs_bind; [by apply runs_call |]. unfold runs, io_lift, validate_directory.
  repeat match goal with X : ?b = true |- _ => rewrite X; clear X end. done.
Qed.

Lemma runs_read_file d (b : DurableBinding) (f : File) : holds_binding b f -> own_record f = true -> runs (read_file store f) d d (Ok (f_data f)).
Proof.
  intros (Hw & Hc & _) Ho. destruct (record_fits b Hw) as (raw & E & Hl). rewrite Hc in E. injection E as <-. unfold own_record in Ho.
  repeat (apply andb_true_iff in Ho as [Ho ?]). eapply runs_finally; [| by apply runs_call]. eapply runs_bind; [by apply runs_call |].
  eapply runs_bind; [apply runs_guard; unfold bad_provenance; repeat match goal with X : ?b = true |- _ => rewrite X; clear X end; cbn; lia |].
  eapply runs_bind; [by apply runs_call |]. assert (slice_to (Z.max 1 (Z.min ALL_BYTES (MAX_RECORD_BYTES + 1))) (f_data f) = f_data f) as ->.
  { unfold slice_to, blen, ALL_BYTES, MAX_RECORD_BYTES in *. apply take_ge. lia. }
  eapply runs_bind; [apply runs_guard; by rewrite Z.eqb_refl | done].
Qed.

Lemma runs_read d p : healthy d -> match_id $"prj" p = true -> runs (read store env p) d d (Ok (head_of d p)).
Proof.
  intros Hd Hp. eapply runs_bind; [apply runs_require_open |]. unfold head_of. destruct (shown d !! name_of p) as [f |] eqn:Ef.
  - destruct (Hd _ _ Ef) as (b & _ & Hf & Ho). assert (Hl : is_link (f_stat f) = false).
    { unfold own_record in Ho. repeat (apply andb_true_iff in Ho as [Ho ?]). by apply negb_true_iff. }
    eapply runs_bind.
    + do 2 apply runs_try. eapply runs_bind; [apply runs_call; by rewrite Ef, Hl | done].
    + eapply runs_bind; [by apply (runs_read_file d b) |]. unfold runs, io_lift. destruct Hf as (Hw & Hc & _). by rewrite (record_reads_back b _ Hw Hc).
  - apply (runs_bind _ _ d d d None); [| done]. unfold runs, io_try, io_bind, open_file, call. rewrite Ef. reflexivity.
Qed.

Lemma name_ends p : ends_json (name_of p) = true /\ take (length (name_of p) - 5) (name_of p) = p.
Proof.
  unfold ends_json, name_of. assert (Hl : length (p ++ json_suffix) = (length p + 5)%nat) by (rewrite length_app; done). rewrite Hl.
  replace (length p + 5 - 5)%nat with (length p) by lia. rewrite take_app_length, drop_app_length. split; [| done].
  apply andb_true_iff. split; [apply Nat.leb_le; lia | by apply str_eqb_eq].
Qed.

Lemma runs_read_names d (l : list pystr) : healthy d -> (forall n, n ∈ l -> is_Some (shown d !! n)) ->
  exists bs, runs (read_names store env l) d d (Ok bs) /\ length bs = length l.
Proof.
  intros Hd. induction l as [|n l IH]; intros Hl; [by exists [] |]. destruct (IH ltac:(set_solver)) as (bs & Hbs & Hlen).
  destruct (Hl n ltac:(left)) as [f Hf]. destruct (Hd n f Hf) as (b & -> & Hb & Ho). destruct (name_ends (db_project b)) as [He Ht].
  exists (b :: bs). split; [| cbn; lia]. cbn [read_names]. eapply runs_bind; [apply runs_guard; by rewrite He |]. rewrite Ht.
  assert (Hp : match_id $"prj" (db_project b) = true) by (destruct Hb as ([(_ & ? & _)%post_init_ok _] & _); done).
  eapply runs_bind; [by apply runs_read |]. unfold head_of. rewrite Hf. destruct Hb as (Hw & Hc & _). rewrite (record_reads_back b _ Hw Hc).
  rewrite (proj2 (str_eqb_eq _ _) eq_refl). by eapply runs_bind.
Qed.

Lemma runs_list d : healthy d -> exists bs, runs (list_current store env) d d
  (if MAX_BINDINGS <? Z.of_nat (size (shown d)) then Raise (store_error "binding store capacity is invalid") else Ok bs) /\ blen bs = Z.of_nat (size (shown d)).
Proof.
  intros Hd. set (names := sorted_names (map fst (map_to_list (shown d)))).
  assert (Hn : length names = size (shown d)) by (unfold names, sorted_names; by rewrite length_map, sort_rows_perm, !length_map, length_map_to_list).
  destruct (runs_read_names d names Hd) as (bs & Hbs & Hl).
  { intros n Hin. unfold names, sorted_names in Hin. apply list_elem_of_fmap in Hin as ([x ?] & -> & Hin). rewrite sort_rows_perm in Hin.
    apply list_elem_of_fmap in Hin as (y & [= -> ->] & Hin). apply list_elem_of_fmap in Hin as ([z f] & -> & Hin). exists f. by apply elem_of_map_to_list. }
  exists bs. split; [| unfold blen; lia]. eapply runs_bind; [apply runs_require_open |]. eapply runs_bind; [apply runs_try; by apply runs_call |].
  fold names. unfold blen. rewrite Hn. destruct (MAX_BINDINGS <? Z.of_nat (size (shown d))); [by apply runs_raise |]. by eapply runs_bind.
Qed.

Lemma runs_write d (t name : pystr) (raw : bytes) : shown d !! t = None -> name <> t -> 1 <= blen raw <= MAX_RECORD_BYTES ->
  let m := <[name := mkFile (new_stat env) raw true]> (shown d) in runs (write_record env t name raw) d (mkFolder m m) (Ok tt).
Proof.
  intros Ht Hne Hl m. assert (Hw : Z.max 0 (Z.min ALL_BYTES (blen raw)) = blen raw) by (unfold ALL_BYTES, MAX_RECORD_BYTES in *; lia).
  assert (Hs : slice_to (blen raw) raw = raw) by (unfold slice_to, blen; apply take_ge; lia).
  apply (runs_bind _ _ d (mkFolder m m) (mkFolder m m) (false, Ok tt)).
  - eapply runs_bind; [apply runs_attempt, runs_call; by rewrite Ht |]. cbn beta iota. eapply runs_bind.
    { apply runs_attempt. eapply runs_bind; [apply runs_call; cbv zeta; cbn [shown set_shown]; by rewrite lookup_insert_eq |].
      rewrite Hw. eapply runs_bind; [apply runs_guard; by rewrite Z.eqb_refl |].
      eapply runs_bind; [apply runs_call; cbn [shown set_shown]; by rewrite lookup_insert_eq | by apply runs_call]. }
    cbn beta iota. eapply runs_bind.
    { apply runs_attempt. eapply runs_bind; [apply runs_call; cbn [shown set_shown]; by rewrite lookup_insert_eq | by apply runs_call]. }
    cbn [shown kept set_shown f_stat f_data app]. rewrite Hs, !insert_insert_eq, delete_insert_id by done. done.
  - cbn [fst snd]. eapply runs_bind; [done |]. eapply runs_bind; [| done]. unfold runs, suppress, io_try, unlink_file, call. cbn [shown].
    unfold m. rewrite lookup_insert_ne, Ht by done. reflexivity.
Qed.

(** The answer of [commit] *)
Definition decided d (v : DurableBinding) : result DurableBinding :=
  match head_of d (db_project v) with
  | Some c =>
      if bool_decide (c = v) then Ok v
      else if negb (digits_value (db_revision v) =? digits_value (db_revision c) + 1) then Raise (store_error "binding revision is not next")
      else if negb (bool_decide (db_previous v = Some (db_revision c))) || negb (bool_decide (db_previous_digest v = Some (db_digest c)))
      then Raise (store_error "binding predecessor is stale")
      else Ok v
  | None =>
      if negb (str_eqb (db_revision v) $"1") then Raise (store_error "binding bootstrap is unavailable")
      else if MAX_BINDINGS <? Z.of_nat (size (shown d)) then Raise (store_error "binding store capacity is invalid")
      else if MAX_BINDINGS <=? Z.of_nat (size (shown d)) then Raise (store_error "binding store capacity is exhausted")
      else Ok v
  end.

Lemma runs_check_next d (v : DurableBinding) : healthy d -> head_of d (db_project v) <> Some v ->
  runs (check_next store env v (head_of d (db_project v))) d d (rmap (fun _ => tt) (decided d v)).
Proof.
  intros Hd Hne. unfold decided, check_next. destruct (head_of d (db_project v)) as [c |].
  - rewrite (bool_decide_eq_false_2 (c = v)) by (by intros ->). destruct (negb (_ =? _)); [by apply runs_raise |]. eapply runs_bind; [done |].
    by destruct (negb (bool_decide (db_previous v = _)) || _).
  - destruct (negb _); [by apply runs_raise |]. eapply runs_bind; [done |]. destruct (runs_list d Hd) as (bs & Hbs & Hl).
    destruct (MAX_BINDINGS <? _); [by apply runs_raise |]. eapply runs_bind; [exact Hbs |]. rewrite Hl. by destruct (MAX_BINDINGS <=? _).
Qed.

(** The directory with [v] as the head of its Project *)
Definition with_head d (v : DurableBinding) d1 : Prop :=
  healthy d1 /\ head_of d1 (db_project v) = Some v /\ forall q, q <> db_project v -> head_of d1 q = head_of d q.

Lemma insert_head d (v : DurableBinding) (f : File) (k : gmap pystr File) : healthy d -> holds_binding v f -> own_record f = true ->
  with_head d v (mkFolder (<[name_of (db_project v) := f]> (shown d)) k).
Proof.
  intros Hd Hf Ho. split; [| split].
  - apply map_Forall_insert_2; [by exists v | done].
  - unfold head_of. cbn [shown]. rewrite lookup_insert_eq. destruct Hf as (Hw & Hc & _). by rewrite (record_reads_back v _ Hw Hc).
  - intros q Hq. unfold head_of. cbn [shown]. by rewrite lookup_insert_ne by (intros ?%name_of_inj; congruence).
Qed.

Lemma temporary_free d (rest : pystr) : healthy d -> shown d !! ($"." ++ rest) = None.
Proof.
  intros Hd. destruct (shown d !! ($"." ++ rest)) as [f |] eqn:E; [| done]. destruct (Hd _ _ E) as (b & Hn & ([(_ & Hp & _)%post_init_ok _] & _) & _).
  symmetry in Hn. by apply temporary_name in Hn.
Qed.

Lemma runs_commit d (v : DurableBinding) : healthy d -> wf_binding v ->
  exists d1, runs (commit store env v) d d1 (decided d v) /\ match decided d v with Ok _ => with_head d v d1 | Raise _ => d1 = d end.
Proof.
  intros Hd Hw. assert (Hp : match_id $"prj" (db_project v) = true) by (destruct Hw as [(_ & ? & _)%post_init_ok _]; done).
  pose proof (runs_read d _ Hd Hp) as Hread. destruct (decide (head_of d (db_project v) = Some v)) as [Hh | Hh].
  - exists d. assert (decided d v = Ok v) as -> by (unfold decided; by rewrite Hh, bool_decide_eq_true_2). split; [| by split].
    eapply runs_bind; [apply runs_require_open |]. eapply runs_bind; [exact Hread |]. by rewrite Hh, bool_decide_eq_true_2.
  - pose proof (runs_check_next d v Hd Hh) as Hcheck. assert (Hok : forall b, decided d v = Ok b -> b = v).
    { unfold decided. intros b. repeat case_match; congruence. }
    destruct (decided d v) as [b | e].
    + rewrite (Hok b eq_refl) in *. destruct (record_fits v Hw) as (raw & Hraw & Hl).
      set (f := mkFile (new_stat env) raw true). assert (Hf : holds_binding v f) by (by split).
      assert (Ho : own_record f = true) by (unfold usable in Huse; unfold own_record; cbn; repeat (apply andb_true_iff in Huse as [Huse ?]); by rewrite !andb_true_iff).
      destruct (insert_head d v f (<[name_of (db_project v) := f]> (shown d)) Hd Hf Ho) as (H1 & H2 & H3).
      eexists. split; [| exact (conj H1 (conj H2 H3))].
      eapply runs_bind; [apply runs_require_open |]. eapply runs_bind; [exact Hread |]. rewrite bool_decide_eq_false_2 by done.
      eapply runs_bind; [exact Hcheck |]. eapply runs_bind; [unfold runs, io_lift; by rewrite Hraw |]. cbv zeta.
      eapply runs_bind; [apply runs_write; [by apply temporary_free | by apply temporary_name | done] |].
      eapply runs_bind; [by apply runs_read |]. fold f. by rewrite H2, bool_decide_eq_true_2.
    + exists d. split; [| done]. eapply runs_bind; [apply runs_require_open |]. eapply runs_bind; [exact Hread |]. rewrite bool_decide_eq_false_2 by done.
      by apply runs_raise.
Qed.

End Decides.

(** ** The property *)

(** C25: On a directory of the store's own files, and when no call
    fails, [commit] answers: the binding when it is the head already or follows
    the head (or is the first and there is room), which makes it the head and
    leaves every other Project alone, and the matching error otherwise, which
    changes nothing. *)
Theorem commit_decides `{UnicodeLaws} `{Rfc8785Laws} (store : BindingStore) (env : Sights) (d : Folder) (v : DurableBinding) :
  usable store env = true -> healthy store d -> wf_binding v ->
  exists d1, commit store env v d [] = Ran d1 [] (decided d v)
  /\ healthy store d1 /\ (forall q, q <> db_project v -> head_of d1 q = head_of d q)
  /\ match decided d v with Ok b => b = v /\ head_of d1 (db_project v) = Some v | Raise _ => d1 = d end.
Proof.
  intros Hu Hd Hw. destruct (runs_commit store env Hu d v Hd Hw) as (d1 & Hr & H1). exists d1. split; [exact Hr |].
  assert (Hok : forall b, decided d v = Ok b -> b = v) by (unfold decided; intros b; repeat case_match; congruence).
  destruct (decided d v) as [b | e]; [| by subst d1]. destruct H1 as (H1 & H2 & H3). rewrite (Hok b eq_refl). done.
Qed.

(** ** Witness *)

#[local] Existing Instance printed_rfc8785.

Lemma decided_first : decided no_folder first_binding = Ok first_binding.
Proof. vm_compute. reflexivity. Qed.

Lemma commit_decides_witness :
  exists d1, commit heads_store (heads_env 49) first_binding no_folder [] = Ran d1 [] (Ok first_binding) /\ head_of d1 heads_project = Some first_binding.
Proof.
  destruct (commit_decides heads_store (heads_env 49) no_folder first_binding eq_refl (map_Forall_empty _) first_wf) as (d1 & E & _ & _ & Hd).
  rewrite decided_first in E, Hd. destruct Hd as [_ Hd]. exists d1. split; [exact E | exact Hd].
Defined.
