(* ===== verification/Verifier.v ===== *)
(** * The Project verifier ([WAWProjectBindingVerifier] of
    [agentbox_runtime/waw_project_binding_store.py])

    The verifier holds the descriptor of the Project root and one descriptor per
    relative key, and gives the digest of a binding of a directory it has looked
    at.  What [os.stat] and [os.fstat] show is a list of answers in the state, in
    the order of the calls, so that directories may be replaced between any two of
    them; that a call fails is an event of [Crash.v]. *)

From stdpp Require Import sorting.
From S2P Require Import Prelude PyVal Json Unicode Sha256 Control Canonical Crash Folder BindingStore.

Local Open Scope Z_scope.

Definition verifier_error (message : string) : exn := err WAWProjectBindingVerifierError message.

(** Device, inode, user, group and mode *)
Definition Identity : Type := Z * Z * Z * Z * Z.

(** [_directory_identity] *)
Definition directory_identity (s : Stat) : Identity := (st_dev s, st_ino s, st_uid s, st_gid s, Z.land (st_mode s) 4095).

(** [_project_descriptors] gives for every key the identity of its descriptor. *)
Record Verifier : Type := mkVerifier {
  ve_uid : Z;
  ve_gid : Z;
  root_identity : Identity;
  project_descriptors : gmap pystr Identity;
  ve_closed : bool
}.

(** The verifier and what the system will show *)
Record World : Type := mkWorld { verifier : Verifier; sees : list Stat }.

Local Abbreviation IO := (io World).

(** [os.fstat] and [os.stat] *)
Definition look : IO Stat :=
  call (fun _ w => match sees w with
                   | s :: rest => (mkWorld (verifier w) rest, Ok s)
                   | [] => (w, Raise os_error)
                   end).

Definition the_verifier : IO Verifier := fun w evs => Ran w evs (Ok (verifier w)).

(** [_validate_directory] *)
Definition validate_path (v : Verifier) (s : Stat) : result unit :=
  raise_if (negb (is_dir s) || negb (st_uid s =? ve_uid v) || negb (st_gid s =? ve_gid v) || negb (Z.land (st_mode s) 18 =? 0))
    (verifier_error "Project path provenance is invalid").

(** [_open_root] and the rest of [__init__]; whether the path is absolute is an
    argument. *)
Definition new_verifier (absolute : bool) (uid gid : pyval) : IO Verifier :=
  then! io_raise_if (negb absolute) (err PyValueError "WAW Project root must be absolute") in
  match uid, gid with
  | PInt u, PInt g =>
      then! io_raise_if (u <? 0) (err PyValueError "WAW Project root uid is invalid") in
      then! io_raise_if (g <? 0) (err PyValueError "WAW Project root gid is invalid") in
      let v := mkVerifier u g (0, 0, 0, 0, 0) ∅ false in
      then! io_try (observe tt) [PyOSError] (io_raise (verifier_error "Project root is unavailable")) in
      io! r := attempt (io! s := look in io_lift (validate_path v s)) in
      match r with
      | Raise e => then! observe tt in io_raise e
      | Ok _ => io! s := look in io_ret (mkVerifier u g (directory_identity s) ∅ false)
      end
  | PInt u, _ =>
      then! io_raise_if (u <? 0) (err PyValueError "WAW Project root uid is invalid") in
      io_raise (err PyValueError "WAW Project root gid is invalid")
  | _, _ => io_raise (err PyValueError "WAW Project root uid is invalid")
  end.

Definition revalidate_root : IO unit :=
  io! v := the_verifier in
  then! io_raise_if (ve_closed v) (verifier_error "Project verifier is closed") in
  io! details := look in
  then! io_lift (validate_path v details) in
  then! io_raise_if (negb (bool_decide (directory_identity details = root_identity v))) (verifier_error "Project root identity changed") in
  io! named := io_try look [PyOSError] (io_raise (verifier_error "Project root is unavailable")) in
  then! io_lift (validate_path v named) in
  io_raise_if (negb (bool_decide (directory_identity named = root_identity v))) (verifier_error "Project root identity changed").

(** [f"{mode:04o}"] of permission bits *)
Definition octal4 (n : Z) : pystr := [48 + n / 512 mod 8; 48 + n / 64 mod 8; 48 + n / 8 mod 8; 48 + n mod 8].

Section Digest.
Context `{Unicode} `{Rfc8785}.

(** [_canonical_sha256] *)
Definition canonical_sha256 (value : pydict) : result pystr :=
  let! raw := except_as (rfc8785_dumps value) [PyTypeError; PyValueError] (verifier_error "Project binding cannot be canonicalized") in
  Ok (hexdigest (sha256 raw)).

Definition path_record (root project : Identity) : pydict :=
  let '(device, inode, uid, gid, mode) := project in
  let '(root_device, root_inode, _, _, _) := root in
  [($"project_device", PStr (str_of_Z device)); ($"project_gid", PStr (str_of_Z gid)); ($"project_inode", PStr (str_of_Z inode));
   ($"project_mode", PStr (octal4 mode)); ($"project_uid", PStr (str_of_Z uid)); ($"root_device", PStr (str_of_Z root_device));
   ($"root_inode", PStr (str_of_Z root_inode)); ($"schema_version", PStr $"waw-project-path-v1")].

Definition binding_record (fingerprint project_id project_revision relative_key : pystr) : pydict :=
  [($"path_fingerprint", PStr fingerprint); ($"project_id", PStr project_id); ($"project_revision", PStr project_revision);
   ($"relative_key", PStr relative_key); ($"schema_version", PStr $"waw-project-binding-v1")].

(** The digest that [binding_digest] computes from what it saw *)
Definition digest_of (root project : Identity) (project_id relative_key project_revision : pystr) : result pystr :=
  let! fingerprint := canonical_sha256 (path_record root project) in
  canonical_sha256 (binding_record fingerprint project_id project_revision relative_key).

(** [request[name]] *)
Definition lookup_field (request : pydict) (name : pystr) : result pyval :=
  match dget request name with Some v => Ok v | None => Raise (err PyKeyError "request") end.

Definition request_fields_ (request : pydict) : result (pystr * pystr * pystr) :=
  except_as (let! a := lookup_field request $"project_id" in
             let! project_id := project_id_ a in
             let! b := lookup_field request $"relative_key" in
             let! relative_key := relative_key_ b in
             let! c := lookup_field request $"project_revision" in
             let! project_revision := u64_ c "project_revision" in
             Ok (project_id, relative_key, project_revision))
    [PyKeyError; PyTypeError; WAWProjectBindingStoreError] (verifier_error "Project binding request is invalid").

(** The body of the [try] of [binding_digest]: whether the descriptor was kept,
    and the digest *)
Definition examine (project_id relative_key project_revision : pystr) : IO (bool * pystr) :=
  let changed := verifier_error "Project path identity changed" in
  io! v := the_verifier in
  io! details := look in
  then! io_lift (validate_path v details) in
  io! named := look in
  then! io_lift (validate_path v named) in
  let project := directory_identity details in
  then! io_raise_if (negb (bool_decide (project = directory_identity named))) changed in
  then! match project_descriptors v !! relative_key with
        | None => io_ret tt
        | Some held =>
            io! held_details := io_try look [PyOSError] (io_raise (verifier_error "Project path descriptor is unavailable")) in
            then! io_lift (validate_path v held_details) in
            io_raise_if (negb (bool_decide (directory_identity held_details = held)) || negb (bool_decide (project = held))) changed
        end in
  then! revalidate_root in
  io! final_named := look in
  then! io_lift (validate_path v final_named) in
  then! io_raise_if (negb (bool_decide (directory_identity final_named = project))) changed in
  then! revalidate_root in
  io! digest := io_lift (digest_of (root_identity v) project project_id relative_key project_revision) in
  match project_descriptors v !! relative_key with
  | Some _ => io_ret (false, digest)
  | None =>
      then! io_raise_if (MAX_BINDINGS <=? Z.of_nat (size (project_descriptors v))) (verifier_error "Project binding descriptor capacity exceeded") in
      fun w evs =>
        Ran (mkWorld (mkVerifier (ve_uid v) (ve_gid v) (root_identity v) (<[relative_key := project]> (project_descriptors v)) (ve_closed v)) (sees w))
          evs (Ok (true, digest))
  end.

Definition binding_digest (request : pydict) : IO pystr :=
  io! fields := io_lift (request_fields_ request) in
  let '(project_id, relative_key, project_revision) := fields in
  then! revalidate_root in
  then! io_try (observe tt) [PyOSError] (io_raise (verifier_error "Project path is unavailable")) in
  io! r := attempt (examine project_id relative_key project_revision) in
  match r with
  | Ok (true, digest) => io_ret digest
  | Ok (false, digest) => then! observe tt in io_ret digest
  | Raise e => then! observe tt in io_raise e
  end.

End Digest.

(** [close]: every descriptor is closed, and the first failure is raised. *)
Fixpoint close_all (n : nat) : IO bool :=
  match n with
  | O => io_ret false
  | S k => io! r := attempt (observe tt) in io! more := close_all k in io_ret (match r with Ok _ => more | Raise _ => true end)
  end.

Definition close_verifier : IO unit :=
  io! v := the_verifier in
  if ve_closed v then io_ret tt
  else
    then! (fun w evs => Ran (mkWorld (mkVerifier (ve_uid v) (ve_gid v) (root_identity v) ∅ true) (sees w)) evs (Ok tt)) in
    io! failed := close_all (S (size (project_descriptors v))) in
    io_raise_if failed (verifier_error "Project verifier close failed").

(** ** Lemmas: the digest *)

Lemma str_of_Z_inj (a b : Z) : str_of_Z a = str_of_Z b -> a = b.
Proof. intros E. pose proof (default_number_str a) as Ha. rewrite E, default_number_str in Ha. by injection Ha. Qed.

Lemma octal4_scalar (n : Z) : forallb scalar_value (octal4 n) = true.
Proof.
  unfold octal4. cbn [forallb]. assert (K : forall m, scalar_value (48 + m mod 8) = true).
  { intros m. pose proof (Z.mod_pos_bound m 8 ltac:(lia)). unfold scalar_value, is_surrogate, in_range. lia. }
  by rewrite !K.
Qed.

Lemma octal4_inj (a b : Z) : 0 <= a < 4096 -> 0 <= b < 4096 -> octal4 a = octal4 b -> a = b.
Proof. unfold octal4. intros Ha Hb [= H1 H2 H3 H4]. Z.to_euclidean_division_equations. lia. Qed.

Lemma hexdigest_scalar (b : bytes) : forallb scalar_value (hexdigest b) = true.
Proof.
  destruct (hexdigest_spec b) as [_ Hx]. by apply scalar_hex.
Qed.

(** The mode of an identity is of permission bits. *)
Definition bits (i : Identity) : Prop := 0 <= snd i < 4096.

Lemma directory_bits (s : Stat) : bits (directory_identity s).
Proof. unfold bits, directory_identity. cbn. change 4095 with (Z.ones 12). rewrite Z.land_ones by lia. by apply Z.mod_pos_bound. Qed.

Section Digests.
Context `{UnicodeLaws} `{Rfc8785Laws}.

(** The two objects are written as different bytes that SHA-256 does not tell
    apart. *)
Definition collide (d d' : pydict) : Prop :=
  exists b b', rfc8785_dumps d = Ok b /\ rfc8785_dumps d' = Ok b' /\ b <> b' /\ sha256 b = sha256 b'.

(** Two canonical objects with the same digest are equal. *)
Lemma canonical_sha256_inj (d d' : pydict) (h : pystr) : canonical (PDict d) = true -> canonical (PDict d') = true ->
  canonical_sha256 d = Ok h -> canonical_sha256 d' = Ok h -> d = d' \/ collide d d'.
Proof.
  intros Hc Hc' E E'. destruct (canonical_text d Hc) as (t & b & Et & Eb & Ed), (canonical_text d' Hc') as (t' & b' & Et' & Eb' & Ed').
  unfold canonical_sha256 in *. rewrite Ed in E. rewrite Ed' in E'. cbn [except_as rbind] in *.
  injection E as <-. injection E' as Hh%hexdigest_inj. destruct (decide (b = b')) as [-> | Hn]; [left | right; by exists b, b'].
  apply utf8_decode_encode in Eb, Eb'. assert (t = t') as <- by congruence.
  pose proof (canonical_loads no_duplicates d t (no_duplicates_ok) Hc Et) as L1. pose proof (canonical_loads no_duplicates d' t (no_duplicates_ok) Hc' Et') as L2.
  congruence.
Qed.

Lemma path_record_ok (r p : Identity) : canonical (PDict (path_record r p)) = true.
Proof.
  destruct r as [[[[rd ri] ru] rg] rm], p as [[[[d i] u] g] m]. unfold path_record. cbn [canonical forallb fst snd]. by rewrite !class_number, octal4_scalar.
Qed.

Lemma binding_record_ok (f p r k : pystr) : forallb scalar_value f = true -> forallb scalar_value p = true -> forallb scalar_value r = true ->
  forallb scalar_value k = true -> canonical (PDict (binding_record f p r k)) = true.
Proof. intros Hf Hp Hr Hk. unfold binding_record. cbn [canonical forallb fst snd]. by rewrite Hf, Hp, Hr, Hk. Qed.

(** Fields that a request passes *)
Definition good_fields (p k r : pystr) : Prop :=
  match_id $"prj" p = true /\ validate_relative_key (PStr k) = Ok k /\ forallb code_point k = true /\ match_pos_decimal r = true.

Lemma good_scalar (p k r : pystr) : good_fields p k r -> forallb scalar_value p = true /\ forallb scalar_value k = true /\ forallb scalar_value r = true.
Proof.
  intros (Hp & Hk & Hc & Hr). split; [by apply (scalar_id $"prj") |]. split; [| by apply scalar_decimal]. apply scalar_clean; [| done].
  apply (relative_key_clean "relative_key"). unfold RELATIVE_KEY. by rewrite Hk.
Qed.

(** The digests of these two bindings meet in SHA-256: the records of the two
    directories do, or the records of the two bindings with the fingerprints of
    their directories. *)
Definition bindings_collide (root root' i i' : Identity) (p p' k k' r r' : pystr) : Prop :=
  collide (path_record root i) (path_record root' i')
  \/ exists f f', canonical_sha256 (path_record root i) = Ok f /\ canonical_sha256 (path_record root' i') = Ok f'
     /\ collide (binding_record f p r k) (binding_record f' p' r' k').

(** The same digest: the same binding of the same directory *)
Lemma digest_of_inj (root root' i i' : Identity) (p p' k k' r r' h : pystr) :
  good_fields p k r -> good_fields p' k' r' -> bits i -> bits i' -> digest_of root i p k r = Ok h -> digest_of root' i' p' k' r' = Ok h ->
  p = p' /\ k = k' /\ r = r' /\ i = i' \/ bindings_collide root root' i i' p p' k k' r r'.
Proof.
  intros (Sp & Sk & Sr)%good_scalar (Sp' & Sk' & Sr')%good_scalar Hi Hi' E E'. unfold digest_of in *.
  apply rbind_ok in E as (f & Ef & E), E' as (f' & Ef' & E').
  assert (Hf : forall x y, canonical_sha256 x = Ok y -> forallb scalar_value y = true).
  { intros x y Hx. unfold canonical_sha256 in Hx. apply rbind_ok in Hx as (raw & _ & <-%Ok_inj). apply hexdigest_scalar. }
  destruct (canonical_sha256_inj _ _ h (binding_record_ok f p r k (Hf _ _ Ef) Sp Sr Sk) (binding_record_ok f' p' r' k' (Hf _ _ Ef') Sp' Sr' Sk') E E')
    as [[= -> -> -> ->] | Hc]; [| right; right; by exists f, f'].
  destruct (canonical_sha256_inj _ _ f' (path_record_ok root i) (path_record_ok root' i') Ef Ef') as [Hr | Hc]; [left | right; by left]. do 3 (split; [done |]).
  destruct i as [[[[d n] u] g] m], i' as [[[[d' n'] u'] g'] m'], root as [[[[? ?] ?] ?] ?], root' as [[[[? ?] ?] ?] ?]. unfold path_record in Hr.
  injection Hr as H1%str_of_Z_inj H2%str_of_Z_inj H3%str_of_Z_inj M1 M2 M3 M4 H5%str_of_Z_inj _ _. unfold bits in *. cbn [snd] in *.
  assert (m = m') by (apply octal4_inj; [done | done |]; unfold octal4; congruence). congruence.
Qed.

End Digests.

(** ** Specifications *)

(** The verifier is the one of before. *)
Definition unchanged (v : Verifier) (w1 : World) : Prop := verifier w1 = v.

Definition anywhere (w : World) : Prop := True.

Lemma look_spec (v : Verifier) (w : World) : unchanged v w -> cwp look (fun w1 _ => unchanged v w1) anywhere w.
Proof. intros Hw. apply cwp_call; [done | done |]. intros _. by destruct (sees w). Qed.

(** One look, whatever it shows, and what follows *)
Lemma look_bind {A} (v : Verifier) (k : Stat -> io World A) (Q : World -> result A -> Prop) (w : World) :
  unchanged v w -> (forall w1 e, unchanged v w1 -> Q w1 (Raise e)) -> (forall w1 s, unchanged v w1 -> cwp (k s) Q anywhere w1) ->
  cwp (io! s := look in k s) Q anywhere w.
Proof. intros Hw HR Hk. apply cwp_bind. eapply cwp_mono; [by apply look_spec |]. intros w1 [s | e] H1; auto. Qed.

Lemma look_bind_try {A} (v : Verifier) (x : exn) (k : Stat -> io World A) (Q : World -> result A -> Prop) (w : World) :
  unchanged v w -> (forall w1 e, unchanged v w1 -> Q w1 (Raise e)) -> (forall w1 s, unchanged v w1 -> cwp (k s) Q anywhere w1) ->
  cwp (io! s := io_try look [PyOSError] (io_raise x) in k s) Q anywhere w.
Proof.
  intros Hw HR Hk. apply cwp_bind, cwp_try. eapply cwp_mono; [by apply look_spec |]. intros w1 [s | e] H1; [auto |].
  destruct (existsb _ _); [apply cwp_raise; auto | auto].
Qed.

(** A check of what was seen *)
Lemma lift_bind {A B} (r : result A) (k : A -> io World B) (Q : World -> result B -> Prop) (w : World) :
  (forall e, Q w (Raise e)) -> (forall a, r = Ok a -> cwp (k a) Q anywhere w) -> cwp (io! a := io_lift r in k a) Q anywhere w.
Proof. intros HR Hk. apply cwp_bind, cwp_lift. destruct r; auto. Qed.

Lemma guard_bind {B} (b : bool) (e : exn) (k : io World B) (Q : World -> result B -> Prop) (w : World) :
  (forall e, Q w (Raise e)) -> (b = false -> cwp k Q anywhere w) -> cwp (then! io_raise_if b e in k) Q anywhere w.
Proof. intros HR Hk. apply cwp_bind, cwp_raise_if; auto. Qed.

Lemma verifier_bind {A} (v : Verifier) (k : Verifier -> io World A) (Q : World -> result A -> Prop) (w : World) :
  unchanged v w -> cwp (k v) Q anywhere w -> cwp (io! x := the_verifier in k x) Q anywhere w.
Proof. intros Hw Hk evs. unfold io_bind, the_verifier. rewrite Hw. apply Hk. Qed.

Lemma revalidate_spec (v : Verifier) (w : World) : unchanged v w -> cwp revalidate_root (fun w1 _ => unchanged v w1) anywhere w.
Proof.
  intros Hw. apply (verifier_bind v); [done |]. apply guard_bind; [done |]. intros _. apply (look_bind v); [done | done |].
  intros w1 s H1. apply lift_bind; [done |]. intros _ _. apply guard_bind; [done |]. intros _. apply (look_bind_try v); [done | done |].
  intros w2 s2 H2. apply lift_bind; [done |]. intros _ _. by apply cwp_raise_if.
Qed.

Lemma revalidate_bind {A} (v : Verifier) (k : io World A) (Q : World -> result A -> Prop) (w : World) :
  unchanged v w -> (forall w1 e, unchanged v w1 -> Q w1 (Raise e)) -> (forall w1, unchanged v w1 -> cwp k Q anywhere w1) ->
  cwp (then! revalidate_root in k) Q anywhere w.
Proof. intros Hw HR Hk. apply cwp_bind. eapply cwp_mono; [by apply revalidate_spec |]. intros w1 [[] | e] H1; auto. Qed.

Section Specs.
Context `{Unicode} `{Rfc8785}.

(** The verifier has kept its root and every descriptor. *)
Definition keeps (v v1 : Verifier) : Prop :=
  root_identity v1 = root_identity v /\ project_descriptors v ⊆ project_descriptors v1.

Definition pinned (v1 : Verifier) (p k r h : pystr) : Prop :=
  exists i, project_descriptors v1 !! k = Some i /\ bits i /\ digest_of (root_identity v1) i p k r = Ok h.

Definition examined (v : Verifier) (p k r : pystr) (w1 : World) (x : result (bool * pystr)) : Prop :=
  keeps v (verifier w1) /\ forall b h, x = Ok (b, h) -> pinned (verifier w1) p k r h.

Lemma examine_spec (v : Verifier) (p k r : pystr) (w : World) : unchanged v w -> cwp (examine p k r) (examined v p k r) anywhere w.
Proof.
  intros Hw. assert (HR : forall w1 e, unchanged v w1 -> examined v p k r w1 (Raise e)) by (intros w1 e H1; split; [rewrite H1; by split | done]).
  apply (verifier_bind v); [done |]. apply (look_bind v); [done | done |]. intros w1 details H1. apply lift_bind; [auto |]. intros _ _.
  apply (look_bind v); [done | done |]. intros w2 named H2. apply lift_bind; [auto |]. intros _ _. cbv zeta. apply guard_bind; [auto |]. intros _.
  apply cwp_bind. eapply (cwp_mono _ (fun w3 x => unchanged v w3 /\ (x = Ok tt -> match project_descriptors v !! k with
    | Some held => directory_identity details = held | None => True end))).
  - destruct (project_descriptors v !! k) as [held |]; [| by apply cwp_ret].
    apply (look_bind_try v); [done | by split |]. intros w3 hd H3. apply lift_bind; [by split |]. intros _ _. apply cwp_raise_if; [by split |].
    intros [_ Heq%negb_false_iff%bool_decide_eq_true]%orb_false_iff. by split.
  - cbn beta. intros w3 x [H3 Hx]. destruct x as [[] | e]; [| auto]. specialize (Hx eq_refl).
    apply (revalidate_bind v); [done | done |]. intros w4 H4. apply (look_bind v); [done | done |]. intros w5 final H5.
    apply lift_bind; [auto |]. intros _ _. apply guard_bind; [auto |]. intros _. apply (revalidate_bind v); [done | done |]. intros w6 H6.
    apply lift_bind; [auto |]. intros h Hh. destruct (project_descriptors v !! k) as [held |] eqn:Ek.
    + apply cwp_ret. split; [rewrite H6; by split |]. intros b y [= <- <-]. rewrite H6. exists held. subst held. split; [done |]. split; [apply directory_bits | done].
    + apply guard_bind; [auto |]. intros _ evs. split; [split; [done |]; cbn; by apply insert_subseteq |]. intros b y [= <- <-].
      exists (directory_identity details). cbn. rewrite lookup_insert_eq. split; [done |]. split; [apply directory_bits | done].
Qed.

(** What [binding_digest] did *)
Definition digested (v : Verifier) (request : pydict) (w1 : World) (x : result pystr) : Prop :=
  keeps v (verifier w1) /\ forall h, x = Ok h -> exists p k r, request_fields_ request = Ok (p, k, r) /\ pinned (verifier w1) p k r h.

Lemma binding_digest_spec (request : pydict) (w : World) : cwp (binding_digest request) (digested (verifier w) request) anywhere w.
Proof.
  set (v := verifier w). assert (HR : forall w1 e, unchanged v w1 -> digested v request w1 (Raise e)) by (intros w1 e H1; split; [rewrite H1; by split | done]).
  apply lift_bind; [intros e; by apply HR |]. intros [[p k] r] Hf. apply (revalidate_bind v); [done | done |]. intros w1 H1.
  apply cwp_bind, cwp_try, cwp_observe; [done | cbn; apply cwp_raise; auto |]. apply cwp_bind, cwp_attempt.
  eapply cwp_mono; [by apply (examine_spec v) |]. cbn beta. intros w2 x [Hk Hx].
  assert (HR2 : forall e, digested v request w2 (Raise e)) by (by split).
  destruct x as [[[] h] | e].
  - apply cwp_ret. split; [done |]. intros y [= <-]. exists p, k, r. split; [done |]. by eapply Hx.
  - apply cwp_bind, cwp_observe; [done | done |]. apply cwp_ret. split; [done |]. intros y [= <-]. exists p, k, r. split; [done |]. by eapply Hx.
  - apply cwp_bind, cwp_observe; [done | done |]. by apply cwp_raise.
Qed.

End Specs.

(** ** Histories of one verifier *)

(** The calls that one verifier answered before it was closed; between two calls
    the directories may have changed in any way. *)
Inductive verified `{Unicode} `{Rfc8785} : Verifier -> list (pydict * pystr) -> Prop :=
| Verified_new uid gid root : verified (mkVerifier uid gid root ∅ false) []
| Verified_call v log request shows evs w1 rest x : verified v log -> binding_digest request (mkWorld v shows) evs = Ran w1 rest x ->
    verified (verifier w1) (log ++ match x with Ok h => [(request, h)] | Raise _ => [] end).

Section Histories.
Context `{UnicodeLaws} `{Rfc8785Laws}.

Lemma keeps_pinned (v v1 : Verifier) (p k r h : pystr) : keeps v v1 -> pinned v p k r h -> pinned v1 p k r h.
Proof. intros [Hr Hk] (i & Hi & Hb & Hh). exists i. rewrite Hr. split; [by eapply lookup_weaken | done]. Qed.

Lemma verified_inv (v : Verifier) (log : list (pydict * pystr)) : verified v log ->
  forall request h, (request, h) ∈ log -> exists p k r, request_fields_ request = Ok (p, k, r) /\ pinned v p k r h.
Proof.
  induction 1 as [uid gid root | v log request shows evs w1 rest x _ IH E]; intros q h Hin; [set_solver |].
  pose proof (binding_digest_spec request (mkWorld v shows) evs) as Hs. rewrite E in Hs. destruct Hs as [Hk Hx]. apply elem_of_app in Hin as [Hin | Hin].
  - destruct (IH q h Hin) as (p & k & r & Hf & Hp). exists p, k, r. split; [done |]. by apply (keeps_pinned v).
  - destruct x as [y | e]; [| set_solver]. apply list_elem_of_singleton in Hin as [= -> ->]. by apply Hx.
Qed.

Lemma fields_good (request : pydict) (p k r : pystr) : code_points (PDict request) = true -> request_fields_ request = Ok (p, k, r) -> good_fields p k r.
Proof.
  intros Hc E. unfold request_fields_ in E. apply except_as_ok in E. apply rbind_ok in E as (a & Ea & E). apply rbind_ok in E as (p' & [-> Hp]%project_id_ok & E).
  apply rbind_ok in E as (b & Eb & E). apply rbind_ok in E as (k' & Ek%except_as_ok & E). apply rbind_ok in E as (c & Ec & E).
  apply rbind_ok in E as (r' & (-> & Hr & _)%u64_ok & E). injection E as <- <- <-. unfold lookup_field in Eb.
  destruct (dget request $"relative_key") as [b' |] eqn:Ed; [| done]. injection Eb as ->. apply dget_elem in Ed.
  assert (b = PStr k') as ->.
  { destruct b as [| | | | s | | |]; try done. f_equal. by apply relative_key_same in Ek. }
  split; [done |]. split; [done |]. split; [| done]. cbn [code_points] in Hc. rewrite forallb_forall in Hc.
  specialize (Hc _ ltac:(by apply list_elem_of_In)). by apply andb_true_iff in Hc as [_ Hc].
Qed.

(** C23: One verifier answers two requests for the same Project, key and
    revision with the same digest, however the directories change in between; and
    when two verifiers, of one Runtime or of two, give the same digest, then the
    Project, key and revision are the same and so is the directory that each holds
    for the key, with its device, inode, owner, group and mode, unless SHA-256
    gives the same digest to the two records that were hashed. *)
Theorem digest_pins (v v' : Verifier) (log log' : list (pydict * pystr)) (q q' : pydict) (h h' : pystr) :
  verified v log -> verified v' log' -> (q, h) ∈ log -> (q', h') ∈ log' -> code_points (PDict q) = true -> code_points (PDict q') = true ->
  (v = v' -> request_fields_ q = request_fields_ q' -> h = h')
  /\ (h = h' -> exists p k r i p' k' r' i',
       request_fields_ q = Ok (p, k, r) /\ project_descriptors v !! k = Some i
       /\ request_fields_ q' = Ok (p', k', r') /\ project_descriptors v' !! k' = Some i'
       /\ (p = p' /\ k = k' /\ r = r' /\ i = i' \/ bindings_collide (root_identity v) (root_identity v') i i' p p' k k' r r')).
Proof.
  intros Hv Hv' Hq Hq' Hc Hc'. destruct (verified_inv v log Hv q h Hq) as (p & k & r & Hf & i & Hi & Hb & Hh).
  destruct (verified_inv v' log' Hv' q' h' Hq') as (p' & k' & r' & Hf' & i' & Hi' & Hb' & Hh'). split.
  - intros -> E. rewrite Hf, Hf' in E. injection E as -> -> ->. congruence.
  - intros ->. exists p, k, r, i, p', k', r', i'. do 4 (split; [done |]).
    exact (digest_of_inj _ _ i i' p p' k k' r r' h' (fields_good q _ _ _ Hc Hf) (fields_good q' _ _ _ Hc' Hf') Hb Hb' Hh Hh').
Qed.

End Histories.

(** ** Witness *)

#[local] Existing Instance printed_rfc8785.

Definition root_stat : Stat := mkStat true false false 10 20 493 1 2 3.
Definition project_stat : Stat := mkStat true false false 10 20 488 1 7 2.
Definition sample_verifier : Verifier := mkVerifier 10 20 (directory_identity root_stat) ∅ false.
Definition sample_digest_request : pydict :=
  [($"project_id", PStr ($"prj_" ++ repeat 97 32)); ($"relative_key", PStr $"one"); ($"project_revision", PStr $"1")].

(** What a call sees of a directory that stays in place, without and with a held
    descriptor *)
Definition calm (held : bool) : list Stat :=
  [root_stat; root_stat; project_stat; project_stat] ++ (if held then [project_stat] else []) ++ [root_stat; root_stat; project_stat; root_stat; root_stat].

Definition answer (v : Verifier) (held : bool) : outcome World pystr := binding_digest sample_digest_request (mkWorld v (calm held)) [].
Definition after_call (o : outcome World pystr) : Verifier := match o with Died w | Ran w _ _ => verifier w end.
Definition digest_text (o : outcome World pystr) : pystr := match o with Ran _ _ (Ok h) => h | _ => [] end.

Definition pinned_verifier : Verifier := Eval vm_compute in after_call (answer sample_verifier false).
Definition pinned_digest : pystr := Eval vm_compute in digest_text (answer sample_verifier false).

Lemma answers_first : binding_digest sample_digest_request (mkWorld sample_verifier (calm false)) [] = Ran (mkWorld pinned_verifier []) [] (Ok pinned_digest).
Proof. vm_compute. reflexivity. Qed.

Lemma answers_again : binding_digest sample_digest_request (mkWorld pinned_verifier (calm true)) [] = Ran (mkWorld pinned_verifier []) [] (Ok pinned_digest).
Proof. vm_compute. reflexivity. Qed.

Lemma verified_twice : verified pinned_verifier [(sample_digest_request, pinned_digest); (sample_digest_request, pinned_digest)].
Proof.
  apply (Verified_call pinned_verifier [(sample_digest_request, pinned_digest)] sample_digest_request (calm true) [] (mkWorld pinned_verifier []) [] (Ok pinned_digest));
    [| exact answers_again].
  apply (Verified_call sample_verifier [] sample_digest_request (calm false) [] (mkWorld pinned_verifier []) [] (Ok pinned_digest)); [constructor | exact answers_first].
Qed.

Lemma digest_pins_witness : exists p k r i p' k' r' i',
  request_fields_ sample_digest_request = Ok (p, k, r) /\ project_descriptors pinned_verifier !! k = Some i
  /\ request_fields_ sample_digest_request = Ok (p', k', r') /\ project_descriptors pinned_verifier !! k' = Some i'
  /\ (p = p' /\ k = k' /\ r = r' /\ i = i'
      \/ bindings_collide (root_identity pinned_verifier) (root_identity pinned_verifier) i i' p p' k k' r r').
Proof.
  refine (proj2 (digest_pins pinned_verifier pinned_verifier _ _ sample_digest_request sample_digest_request pinned_digest pinned_digest
    verified_twice verified_twice _ _ eq_refl eq_refl) eq_refl); left.
Defined.

(** Another directory under the same name is refused. *)
Definition moved_stat : Stat := mkStat true false false 10 20 488 1 8 2.

Example replaced_refused :
  match binding_digest sample_digest_request (mkWorld pinned_verifier [root_stat; root_stat; moved_stat; moved_stat; project_stat]) [] with
  | Ran _ _ (Raise e) => e = verifier_error "Project path identity changed"
  | _ => False
  end.
Proof. vm_compute. reflexivity. Qed.
