(* ===== verification/Registry.v ===== *)
(** * The Runtime's project inventory (the binding part of [WAWLifecycleRegistry]
    in [agentbox_runtime/waw_lifecycle.py])

    The registry serves project bindings from memory; the binding store holds them
    durably and the verifier vouches for their directories.  At start the inventory
    of the store is replayed, then the API confirms the digest of the inventory and
    the application gate opens.  A [Host] is the registry with the directory of
    the store, the verifier and what the executor will answer.

    Requests are records of fields that [validate_request] of [Control.v] accepted.
    Dispatch runs under a lock, so an operation is one transition; the replay runs
    before the listeners start, and whether a shutdown came meanwhile is an
    argument of it.  The executor's answers are a list in the state: it may raise
    anything, [CancelledError] included. *)

From S2P Require Import Prelude PyVal Json Unicode Sha256 Control Canonical Crash Folder BindingStore BindingHeads Verifier.

Local Open Scope Z_scope.

Definition dispatch_error (code : string) : exn := Exn WAWControlDispatchError code code.

(** [WAWProjectBinding] *)
Record ProjectBinding : Type := mkBinding {
  pb_project : pystr;
  pb_key : pystr;
  pb_project_revision : pystr;
  pb_revision : pystr;
  pb_digest : pystr;
  pb_host : pystr;
  pb_host_revision : pystr
}.

#[export] Instance project_binding_eq_dec : EqDecision ProjectBinding.
Proof. solve_decision. Defined.

(** [_binding_from_durable] *)
Definition binding_from_durable (b : DurableBinding) : ProjectBinding :=
  mkBinding (db_project b) (db_key b) (db_project_revision b) (db_revision b) (db_digest b) (db_host b) (db_host_revision b).

(** [_binding_inventory_item] *)
Definition inventory_item (b : DurableBinding) : pyval :=
  PDict [($"project_id", PStr (db_project b)); ($"relative_key", PStr (db_key b)); ($"project_revision", PStr (db_project_revision b));
         ($"binding_revision", PStr (db_revision b)); ($"previous_binding_revision", text_or_none (db_previous b));
         ($"previous_binding_digest", text_or_none (db_previous_digest b)); ($"binding_digest", PStr (db_digest b));
         ($"runtime_host_installation_id", PStr (db_host b)); ($"runtime_host_installation_revision", PStr (db_host_revision b))].

(** The fields of the registry that the inventory uses; [rg_resources]: it has a
    store and a verifier. *)
Record Registry : Type := mkRegistry {
  rg_host : pystr;
  rg_host_revision : pystr;
  rg_epoch : pystr;
  rg_resources : bool;
  rg_authority : option (pystr * pystr);
  rg_bindings : gmap pystr ProjectBinding;
  rg_durable : gmap pystr DurableBinding;
  rg_hydrated : gset pystr;
  rg_shutting_down : bool;
  rg_gate_required : bool;
  rg_gate_open : bool;
  rg_replay_complete : bool;
  rg_finalized : option ((pystr * pystr) * pystr * pystr)
}.

(** [__init__] *)
Definition new_registry (host host_revision epoch : pystr) (resources : bool) : result Registry :=
  run! raise_if (negb (match_pos_decimal epoch)) (err PyValueError "runtime_epoch must be a canonical positive decimal") in
  run! raise_if (MAX_U64 <? digits_value epoch) (err PyValueError "runtime_epoch exceeds uint64") in
  Ok (mkRegistry host host_revision epoch resources None ∅ ∅ ∅ false false true (negb resources) None).

Record Host : Type := mkHost { registry : Registry; folder : Folder; world : World; executor : list (result unit) }.

Definition set_registry (r : Registry) (h : Host) : Host := mkHost r (folder h) (world h) (executor h).
Definition set_folder (d : Folder) (h : Host) : Host := mkHost (registry h) d (world h) (executor h).
Definition set_world (w : World) (h : Host) : Host := mkHost (registry h) (folder h) w (executor h).

Local Abbreviation IO := (io Host).

Definition ask : IO Registry := fun h evs => Ran h evs (Ok (registry h)).
Definition modify (f : Registry -> Registry) : IO unit := fun h evs => Ran (set_registry (f (registry h)) h) evs (Ok tt).

Definition on_folder {A} (m : io Folder A) : IO A := fun h evs =>
  match m (folder h) evs with
  | Died d => Died (set_folder d h)
  | Ran d rest r => Ran (set_folder d h) rest r
  end.

Definition on_world {A} (m : io World A) : IO A := fun h evs =>
  match m (world h) evs with
  | Died w => Died (set_world w h)
  | Ran w rest r => Ran (set_world w h) rest r
  end.

(** *** Changes of single fields *)

Definition with_authority (a : option (pystr * pystr)) (r : Registry) : Registry :=
  mkRegistry (rg_host r) (rg_host_revision r) (rg_epoch r) (rg_resources r) a (rg_bindings r) (rg_durable r) (rg_hydrated r) (rg_shutting_down r)
    (rg_gate_required r) (rg_gate_open r) (rg_replay_complete r) (rg_finalized r).

Definition with_inventory (bindings : gmap pystr ProjectBinding) (durable : gmap pystr DurableBinding) (hydrated : gset pystr) (r : Registry) : Registry :=
  mkRegistry (rg_host r) (rg_host_revision r) (rg_epoch r) (rg_resources r) (rg_authority r) bindings durable hydrated (rg_shutting_down r)
    (rg_gate_required r) (rg_gate_open r) (rg_replay_complete r) (rg_finalized r).

Definition with_gate (required open complete : bool) (finalized : option ((pystr * pystr) * pystr * pystr)) (r : Registry) : Registry :=
  mkRegistry (rg_host r) (rg_host_revision r) (rg_epoch r) (rg_resources r) (rg_authority r) (rg_bindings r) (rg_durable r) (rg_hydrated r) (rg_shutting_down r)
    required open complete finalized.

(** [binding_inventory_finalize_required] *)
Definition finalize_required (r : Registry) : bool := rg_gate_required r && rg_resources r.

(** [application_gate_open] *)
Definition application_gate_open (r : Registry) : bool := negb (rg_gate_required r) || rg_gate_open r.

(** [_fence_binding_inventory] *)
Definition fence_inventory (replay_incomplete : bool) (r : Registry) : Registry :=
  if finalize_required r then with_gate (rg_gate_required r) false (if replay_incomplete then false else rg_replay_complete r) None r else r.

(** [configure_application_gate]; the request cache and the attachments are those
    of the rest of the registry. *)
Definition configure_gate (cached attached : bool) : IO unit :=
  io! r := ask in
  then! io_raise_if (rg_gate_required r || given (rg_authority r) || cached || attached || rg_shutting_down r)
          (err PyValueError "application gate cannot be configured") in
  modify (fun r => with_gate true false (rg_replay_complete r) (rg_finalized r) r).

Definition open_gate : IO unit :=
  io! r := ask in
  then! io_raise_if (negb (rg_gate_required r) || rg_shutting_down r) (err PyRuntimeError "application gate cannot be opened") in
  then! io_raise_if (rg_resources r && negb (given (rg_finalized r))) (err PyRuntimeError "binding inventory is not finalized") in
  modify (fun r => with_gate (rg_gate_required r) true (rg_replay_complete r) (rg_finalized r) r).

Definition close_gate : IO unit :=
  modify (fun r => if rg_gate_required r then with_gate true false (rg_replay_complete r) (rg_finalized r) r else r).

(** [_clear_peer_authority_caches], as far as the inventory goes *)
Definition clear_peer_authority : IO unit :=
  modify (fun r => let r1 := with_authority None r in
                   if finalize_required r then with_gate (rg_gate_required r) false (rg_replay_complete r) None r1 else r1).

Definition require_authority : IO unit :=
  io! r := ask in io_raise_if (negb (given (rg_authority r))) (dispatch_error "BINDING_BOOTSTRAP_REQUIRED").

(** [_require_dispatch_open] *)
Definition require_dispatch_open (a : action) : IO unit :=
  io! r := ask in
  io_raise_if (rg_shutting_down r || (rg_gate_required r && negb (rg_gate_open r) && negb (bool_decide (a ∈ [BIND; REGISTER; FINALIZE]))))
    (dispatch_error "RUNTIME_UNAVAILABLE").

(** ** Binding the API *)

(** [_bind] without a peer authority and without encrypted attachments *)
Definition bind (epoch nonce : pystr) : IO string :=
  io! r := ask in
  io! raw := io_lift (let! b := encode_ascii nonce in Ok (hexdigest (sha256 b))) in
  then! io_raise_if (match rg_authority r with Some a => negb (bool_decide (a = (epoch, raw))) | None => false end)
          (dispatch_error "RUNTIME_INSTALLATION_MISMATCH") in
  then! modify (with_authority (Some (epoch, raw))) in
  io_ret (if given (rg_authority r) then "ALREADY_BOUND" else "BOUND")%string.

(** ** Registering *)

Record RegisterRequest : Type := mkRegister {
  rq_project : pystr;
  rq_key : pystr;
  rq_project_revision : pystr;
  rq_revision : pystr;
  rq_previous : option pystr;
  rq_previous_digest : option pystr;
  rq_host : pystr;
  rq_host_revision : pystr
}.

(** [_register_executor_binding]; an executor that takes no bindings has nothing
    to answer. *)
Definition register_executor (b : ProjectBinding) : IO unit := fun h evs =>
  match executor h with
  | [] => Ran h evs (Ok tt)
  | r :: rest => Ran (mkHost (registry h) (folder h) (world h) rest) evs r
  end.

(** The two [except] clauses around it in [_register] *)
Definition register_fenced (b : ProjectBinding) : IO unit :=
  io! x := attempt (register_executor b) in
  match x with
  | Ok _ => io_ret tt
  | Raise e =>
      then! modify (fence_inventory true) in
      if exc_isa (exn_class e) CancelledError then io_raise e else io_raise (dispatch_error "BINDING_REPLAY_INCOMPLETE")
  end.

(** The request as [binding_digest] reads it *)
Definition digest_request (project key revision : pystr) : pydict :=
  [($"project_id", PStr project); ($"relative_key", PStr key); ($"project_revision", PStr revision)].

Section Inventory.
Context `{Unicode} `{Rfc8785} (store : BindingStore) (env : Sights).

(** [_hydrate_durable_binding] *)
Definition hydrate (project : pystr) : IO (option ProjectBinding) :=
  io! r := ask in
  if rg_resources r then
    io! durable := io_try (on_folder (get store env (PStr project))) [WAWProjectBindingStoreError] (io_raise (dispatch_error "RUNTIME_UNAVAILABLE")) in
    match durable with
    | None => io_ret None
    | Some b =>
        then! io_raise_if (negb (str_eqb (db_host b) (rg_host r)) || negb (str_eqb (db_host_revision b) (rg_host_revision r)))
                (dispatch_error "RUNTIME_INSTALLATION_MISMATCH") in
        then! modify (fun r => with_inventory (<[project := binding_from_durable b]> (rg_bindings r)) (<[project := b]> (rg_durable r)) (rg_hydrated r) r) in
        io_ret (Some (binding_from_durable b))
    end
  else io_ret None.

(** The digest of the binding, from the verifier or from the digest factory that
    stands in for it, whose answer is [factory] *)
Definition register_digest (q : RegisterRequest) (factory : option pyval) : IO pystr :=
  io! r := ask in
  io! value :=
    (if rg_resources r
     then io_try (io! h := on_world (binding_digest (digest_request (rq_project q) (rq_key q) (rq_project_revision q))) in io_ret (PStr h))
            [WAWProjectBindingVerifierError]
            (then! modify (fence_inventory true) in io_raise (dispatch_error "RECONCILIATION_REQUIRED"))
     else match factory with Some v => io_ret v | None => io_raise (dispatch_error "RUNTIME_UNAVAILABLE") end) in
  match value with
  | PStr s => then! io_raise_if (negb (match_hex 64 s)) (dispatch_error "INTERNAL_BOUNDED") in io_ret s
  | _ => io_raise (dispatch_error "INTERNAL_BOUNDED")
  end.

Definition add_hydrated (project : pystr) (r : Registry) : Registry := with_inventory (rg_bindings r) (rg_durable r) ({[project]} ∪ rg_hydrated r) r.

(** The part of [_register] for a binding that is there already *)
Definition register_current (q : RegisterRequest) (previous : ProjectBinding) (digest : pystr) : IO (string * ProjectBinding) :=
  if str_eqb (rq_key q) (pb_key previous) && str_eqb (rq_project_revision q) (pb_project_revision previous) && str_eqb digest (pb_digest previous)
  then
    then! register_fenced previous in
    then! modify (add_hydrated (rq_project q)) in
    io_ret ("ALREADY_CURRENT"%string, previous)
  else io_raise (dispatch_error "PROJECT_IDENTITY_CHANGED").

(** The part of [_register] for a new binding *)
Definition register_new (q : RegisterRequest) (digest : pystr) : IO (string * ProjectBinding) :=
  io! r := ask in
  let binding := mkBinding (rq_project q) (rq_key q) (rq_project_revision q) (rq_revision q) digest (rg_host r) (rg_host_revision r) in
  io! durable := io_lift (post_init (mkDurable (rq_project q) (rq_key q) (rq_project_revision q) (rq_revision q) digest
                                       (rq_previous q) (rq_previous_digest q) (rg_host r) (rg_host_revision r))) in
  then! register_fenced binding in
  io! durable :=
    (if rg_resources r
     then io_try (on_folder (commit store env durable)) [WAWProjectBindingStoreError]
            (then! modify (fence_inventory true) in io_raise (dispatch_error "BINDING_REPLAY_INCOMPLETE"))
     else io_ret durable) in
  then! modify (fun r => with_inventory (<[rq_project q := binding]> (rg_bindings r)) (<[rq_project q := durable]> (rg_durable r)) ({[rq_project q]} ∪ rg_hydrated r) r) in
  io_ret ("REGISTERED"%string, binding).

(** [_register]; the response is the status with the binding it reports. *)
Definition register (q : RegisterRequest) (factory : option pyval) : IO (string * ProjectBinding) :=
  then! require_authority in
  io! r := ask in
  then! io_raise_if (finalize_required r && negb (rg_replay_complete r)) (dispatch_error "BINDING_REPLAY_INCOMPLETE") in
  then! io_raise_if (negb (str_eqb (rq_host q) (rg_host r)) || negb (str_eqb (rq_host_revision q) (rg_host_revision r)))
          (dispatch_error "RUNTIME_INSTALLATION_MISMATCH") in
  io! previous := match rg_bindings r !! rq_project q with
                  | Some b => io_ret (Some b)
                  | None => hydrate (rq_project q)
                  end in
  match previous with
  | None =>
      then! io_raise_if (negb (str_eqb (rq_revision q) $"1") || given (rq_previous q) || given (rq_previous_digest q))
              (dispatch_error (if rg_resources r then "BINDING_BOOTSTRAP_REQUIRED" else "PROJECT_IDENTITY_CHANGED")) in
      io! digest := register_digest q factory in
      register_new q digest
  | Some b =>
      let same := str_eqb (rq_revision q) (pb_revision b) in
      then! io_raise_if (negb same && (negb (bool_decide (rq_previous q = Some (pb_revision b)))
                                       || negb (bool_decide (rq_previous_digest q = Some (pb_digest b)))))
              (dispatch_error "PROJECT_IDENTITY_CHANGED") in
      io! digest := register_digest q factory in
      if same then register_current q b digest else register_new q digest
  end.

(** ** Replaying the inventory *)

(** The loop of [_perform_binding_inventory_replay] *)
Fixpoint replay_bindings (values : list DurableBinding) (done : gmap pystr DurableBinding) : IO (gmap pystr DurableBinding) :=
  match values with
  | [] => io_ret done
  | b :: rest =>
      let mismatch := dispatch_error "BINDING_INVENTORY_MISMATCH" in
      io! r := ask in
      then! io_raise_if (given (done !! db_project b)) mismatch in
      then! io_raise_if (negb (str_eqb (db_host b) (rg_host r)) || negb (str_eqb (db_host_revision b) (rg_host_revision r))) mismatch in
      io! digest := io_try (on_world (binding_digest (digest_request (db_project b) (db_key b) (db_project_revision b))))
                      [WAWProjectBindingVerifierError] (io_raise mismatch) in
      io! equal := io_lift (compare_digest_str digest (db_digest b)) in
      then! io_raise_if (negb equal) mismatch in
      io! x := attempt (register_executor (binding_from_durable b)) in
      match x with
      | Ok _ => replay_bindings rest (<[db_project b := b]> done)
      | Raise e => if exc_isa (exn_class e) CancelledError then io_raise e else io_raise (dispatch_error "BINDING_REPLAY_INCOMPLETE")
      end
  end.

(** [_perform_binding_inventory_replay]; [shutdown]: a shutdown began meanwhile *)
Definition replay_inventory (shutdown : bool) : IO unit :=
  io! r := ask in
  if rg_resources r then
    io! values := io_try (on_folder (list_current store env)) [WAWProjectBindingStoreError] (io_raise (dispatch_error "BINDING_REPLAY_INCOMPLETE")) in
    io! durable := replay_bindings values ∅ in
    then! io_lift (except_as (binding_inventory_digest (map inventory_item values)) [WAWControlError] (dispatch_error "BINDING_INVENTORY_MISMATCH")) in
    then! io_raise_if (shutdown || rg_shutting_down r) (dispatch_error "BINDING_REPLAY_INCOMPLETE") in
    modify (fun r => with_gate (rg_gate_required r) (rg_gate_open r) true (rg_finalized r)
                       (with_inventory (binding_from_durable <$> durable) durable (dom durable) r))
  else modify (fun r => with_gate (rg_gate_required r) (rg_gate_open r) true (rg_finalized r) r).

(** ** Confirming the inventory *)

(** The inventory in the order of the Projects *)
Definition inventory_of (durable : gmap pystr DurableBinding) : list pyval :=
  flat_map (fun p => match durable !! p with Some b => [inventory_item b] | None => [] end) (sorted_names (map fst (map_to_list durable))).

(** [_finalize_binding_inventory] *)
Definition finalize (epoch count digest : pystr) : IO string :=
  then! require_authority in
  io! r := ask in
  then! io_raise_if (negb (str_eqb epoch (rg_epoch r))) (dispatch_error "RUNTIME_INSTALLATION_MISMATCH") in
  then! io_raise_if (negb (rg_replay_complete r)) (dispatch_error "BINDING_REPLAY_INCOMPLETE") in
  then! io_raise_if (negb (bool_decide (dom (rg_bindings r) = dom (rg_durable r))) || negb (bool_decide (dom (rg_bindings r) = rg_hydrated r))
                     || negb (bool_decide (rg_bindings r = binding_from_durable <$> rg_durable r)))
          (dispatch_error "BINDING_REPLAY_INCOMPLETE") in
  io! inventory := io_lift (except_as (binding_inventory_digest (inventory_of (rg_durable r))) [WAWControlError] (dispatch_error "BINDING_REPLAY_INCOMPLETE")) in
  let mismatch : IO string := then! modify (fence_inventory false) in io_raise (dispatch_error "BINDING_INVENTORY_MISMATCH") in
  io! equal := io_lift (if str_eqb count (fst inventory) then compare_digest_str digest (snd inventory) else Ok false) in
  if negb equal then mismatch
  else
    match rg_authority r with
    | None => io_raise (err PyAssertionError "")
    | Some authority =>
        let expected := (authority, fst inventory, snd inventory) in
        match rg_finalized r with
        | Some current => if bool_decide (current = expected) then io_ret "ALREADY_FINALIZED"%string else mismatch
        | None =>
            then! modify (fun r => with_gate (rg_gate_required r) (rg_gate_open r) (rg_replay_complete r) (Some expected) r) in
            io! x := attempt (if rg_gate_required r then open_gate else io_ret tt) in
            match x with
            | Ok _ => io_ret "FINALIZED"%string
            | Raise e =>
                then! modify (fun r => with_gate (rg_gate_required r) (rg_gate_open r) (rg_replay_complete r) None r) in
                io_raise e
            end
        end
    end.

End Inventory.

(** ** The operations of a host *)

(** The start of [begin_shutdown] *)
Definition begin_shutdown : IO unit :=
  modify (fun r => mkRegistry (rg_host r) (rg_host_revision r) (rg_epoch r) (rg_resources r) (rg_authority r) (rg_bindings r) (rg_durable r) (rg_hydrated r) true
                     (rg_gate_required r) (rg_gate_open r) (rg_replay_complete r) (rg_finalized r)).

Inductive host_op : Type :=
| HBind (epoch nonce : pystr)
| HClear
| HRegister (q : RegisterRequest) (factory : option pyval)
| HReplay (shutdown : bool)
| HFinalize (epoch count digest : pystr)
| HOpen
| HClose
| HShutdown.

(** The operations that a request asks for are dispatched. *)
Definition perform_op `{Unicode} `{Rfc8785} (store : BindingStore) (env : Sights) (op : host_op) : IO unit :=
  match op with
  | HBind epoch nonce => then! require_dispatch_open BIND in then! bind epoch nonce in io_ret tt
  | HClear => clear_peer_authority
  | HRegister q factory => then! require_dispatch_open REGISTER in then! register store env q factory in io_ret tt
  | HReplay shutdown => replay_inventory store env shutdown
  | HFinalize epoch count digest => then! require_dispatch_open FINALIZE in then! finalize epoch count digest in io_ret tt
  | HOpen => open_gate
  | HClose => close_gate
  | HShutdown => begin_shutdown
  end.

(** The registry of a started host: with a store and a verifier, and its gate
    configured *)
Definition gated_registry (host host_revision epoch : pystr) : Registry :=
  mkRegistry host host_revision epoch true None ∅ ∅ ∅ false true false false None.
