(* ===== verification/RegistrySpec.v ===== *)
(** * The open gate serves the durable bindings

    The invariant of a [Host] of [Registry.v] and its theorem: what the registry
    serves through an open gate is what the binding store holds. *)

From stdpp Require Import sorting.
From S2P Require Import Prelude PyVal Json Unicode Sha256 Control Canonical Crash Folder BindingStore BindingHeads Verifier Registry.

Local Open Scope Z_scope.

(** ** Rules *)

Section HostRules.
Context {A : Type}.
Implicit Types (h : Host) (C : Host -> Prop).

Lemma cwp_ask {B} (k : Registry -> io Host B) (Q : Host -> result B -> Prop) C h : cwp (k (registry h)) Q C h -> cwp (io! r := ask in k r) Q C h.
Proof. intros Hk evs. apply Hk. Qed.

Lemma cwp_modify (f : Registry -> Registry) (Q : Host -> result unit -> Prop) C h : Q (set_registry (f (registry h)) h) (Ok tt) -> cwp (modify f) Q C h.
Proof. by intros HQ evs. Qed.

Lemma cwp_on_folder (m : io Folder A) (Q : Host -> result A -> Prop) C h :
  cwp m (fun d r => Q (set_folder d h) r) (fun d => C (set_folder d h)) (folder h) -> cwp (on_folder m) Q C h.
Proof. intros Hm evs. specialize (Hm evs). unfold on_folder. by destruct (m (folder h) evs). Qed.

Lemma cwp_on_world (m : io World A) (Q : Host -> result A -> Prop) C h :
  (forall w r, Q (set_world w h) r) -> (forall w, C (set_world w h)) -> cwp (on_world m) Q C h.
Proof. intros HQ HC evs. unfold on_world. by destruct (m (world h) evs). Qed.

Lemma cwp_executor (b : ProjectBinding) (Q : Host -> result unit -> Prop) C h :
  (forall ex r, Q (mkHost (registry h) (folder h) (world h) ex) r) -> cwp (register_executor b) Q C h.
Proof. intros HQ evs. unfold register_executor. destruct h as [r d w [|x ex]]; apply HQ. Qed.

End HostRules.

(** ** The invariant *)

Section Invariant.
Context `{UnicodeLaws} `{Rfc8785Laws}.
Implicit Types (h : Host) (d : Folder) (r : Registry).

(** The directory has only been used by the store. *)
Definition store_made d : Prop := exists log, stored d log.

(** The registry serves exactly the heads of the store. *)
Definition served r d : Prop := forall p, match_id $"prj" p = true ->
  rg_durable r !! p = head_of d p /\ rg_bindings r !! p = binding_from_durable <$> head_of d p.

Record registry_inv (r : Registry) (d : Folder) : Prop := {
  inv_gated : rg_gate_required r = true /\ rg_resources r = true;
  inv_ids : map_Forall (fun p _ => match_id $"prj" p = true) (rg_durable r);
  inv_served : rg_replay_complete r = true -> served r d;
  inv_gate : rg_gate_open r = true -> rg_replay_complete r = true /\ given (rg_finalized r) = true;
  inv_final : forall a n g, rg_finalized r = Some (a, n, g) -> rg_authority r = Some a /\ rg_replay_complete r = true
}.

Definition host_inv h : Prop := store_made (folder h) /\ registry_inv (registry h) (folder h).

(** An exception of the operating system escaped. *)
Definition escaped {A} (x : result A) : Prop := exists e, x = Raise e /\ exn_class e = PyOSError.

Definition kept_inv {A} h (x : result A) : Prop := store_made (folder h) /\ (~ escaped x -> host_inv h).
Definition kept_made h : Prop := store_made (folder h).

Lemma inv_kept {A} h (x : result A) : host_inv h -> kept_inv h x.
Proof. intros Hh. split; [apply Hh | done]. Qed.

#[local] Hint Resolve inv_kept : core.

Lemma head_tracked d p (c : list DurableBinding) : tracks_head p d c -> head_of d p = last c.
Proof. apply tracked_head. Qed.

(** What was found is the head. *)
Lemma found_head d p (o : option DurableBinding) : found d p o -> head_of d p = o.
Proof. unfold found, head_of. destruct o as [b |]; [by intros (f & -> & ->) | by intros ->]. Qed.

Lemma idle_head d d1 p : match_id $"prj" p = true -> idle d d1 -> head_of d1 p = head_of d p.
Proof. intros Hp (rest & Hs). unfold head_of. by rewrite (proj1 (Hs _ (temporary_name p rest Hp))). Qed.

Lemma advanced_head (v : DurableBinding) d d1 (fl : bool) p : wf_binding v -> match_id $"prj" p = true -> advanced v d d1 fl ->
  head_of d1 p = if str_eqb p (db_project v) then Some v else head_of d p.
Proof.
  intros Hw Hp (rest & raw & current & _ & _ & Hraw & f & Hd & Hsync & Hall). unfold head_of. rewrite (proj1 (Hall _ (temporary_name p rest Hp))).
  destruct (str_eqb p (db_project v)) eqn:E.
  - apply str_eqb_eq in E as ->. rewrite lookup_insert_eq, Hd. by rewrite (record_reads_back v raw Hw Hraw).
  - rewrite lookup_insert_ne; [done |]. intros En%name_of_inj. rewrite En, (proj2 (str_eqb_eq _ _) eq_refl) in E. done.
Qed.

Lemma commit_made (store : BindingStore) (env : Sights) (v : DurableBinding) d : store_made d -> wf_binding v ->
  cwp (commit store env v) (fun d1 _ => store_made d1) store_made d.
Proof.
  intros [log Hs] Hw evs. destruct (commit store env v d evs) as [d1 | d1 rest x] eqn:E.
  - exists log. apply (Stored_dies d log store env (Commit v) evs); [done | done |]. cbn. unfold io_bind. by rewrite E.
  - eexists. apply (Stored_run d log store env (Commit v) evs d1 rest (match x with Ok b => Ok (Some b) | Raise e => Raise e end)); [done | done |].
    cbn. unfold io_bind. rewrite E. by destruct x.
Qed.

(** *** Changes of the registry *)

Lemma fence_inv r d : registry_inv r d -> registry_inv (fence_inventory true r) d.
Proof.
  intros [[G1 G2] Hid _ _ _]. unfold fence_inventory, finalize_required. rewrite G1, G2. cbn. by constructor; cbn.
Qed.

Lemma fence_any r d d1 : registry_inv r d -> registry_inv (fence_inventory true r) d1.
Proof. intros [[G1 G2] Hid _ _ _]. unfold fence_inventory, finalize_required. rewrite G1, G2. cbn. by constructor; cbn. Qed.

Lemma unfinalized_inv r d : registry_inv r d -> registry_inv (fence_inventory false r) d.
Proof.
  intros [[G1 G2] Hid Hs _ _]. unfold fence_inventory, finalize_required. rewrite G1, G2. cbn. by constructor; cbn.
Qed.

(** The durable binding [b] is the head of [p] in the memory as on the disk. *)
Lemma publish_inv r d d1 (p : pystr) (b : DurableBinding) (hy : gset pystr) : registry_inv r d -> match_id $"prj" p = true ->
  (forall q, match_id $"prj" q = true -> head_of d1 q = if str_eqb q p then Some b else head_of d q) ->
  registry_inv (with_inventory (<[p := binding_from_durable b]> (rg_bindings r)) (<[p := b]> (rg_durable r)) hy r) d1.
Proof.
  intros [G Hid Hs Hg Hf] Hp Hd. constructor; cbn; try done; [by apply map_Forall_insert_2 |]. intros Hc q Hq. specialize (Hs Hc q Hq). rewrite (Hd q Hq). cbn. destruct (str_eqb q p) eqn:E.
  - apply str_eqb_eq in E as ->. by rewrite !lookup_insert_eq.
  - rewrite !lookup_insert_ne; [done | |]; intros ->; by rewrite (proj2 (str_eqb_eq _ _) eq_refl) in E.
Qed.

Lemma same_heads_inv r d d1 : registry_inv r d -> (forall q, match_id $"prj" q = true -> head_of d1 q = head_of d q) -> registry_inv r d1.
Proof. intros [G Hid Hs Hg Hf] Hd. constructor; try done. intros Hc q Hq. rewrite (Hd q Hq). by apply Hs. Qed.

(** *** Operations *)

Lemma get_found (store : BindingStore) (env : Sights) (p : pystr) (C : Folder -> Prop) d : C d ->
  cwp (get store env (PStr p)) (fun d1 x => d1 = d /\ forall o, x = Ok o -> match_id $"prj" p = true /\ found d p o) C d.
Proof.
  intros HC. apply cwp_bind, cwp_lift. destruct (project_id_ (PStr p)) as [q | e] eqn:E; [| by split]. apply project_id_ok in E as [[= <-] Hp].
  eapply cwp_mono; [by apply read_spec |]. cbn beta. intros d1 x [-> Hx]. split; [done |]. intros o Eo. split; [done |]. by apply Hx.
Qed.

Lemma decoded_project (raw : bytes) (b : DurableBinding) : decode_record raw = Ok b -> match_id $"prj" (db_project b) = true.
Proof.
  unfold decode_record. intros E. apply rbind_ok in E as (v & _ & E). apply rbind_ok in E as (c & _ & E). apply rbind_ok in E as ([] & _ & E).
  destruct v as [| | | | | | | m]; try done. cbn [from_record] in E. do 11 (apply rbind_ok in E as (? & _ & E)). by pose proof (post_init_ok _ _ E) as (-> & ? & _).
Qed.

Section Operations.
Context (store : BindingStore) (env : Sights).

(** An operation that keeps the invariant and returns *)
Definition keeps_inv {A} (m : io Host A) : Prop := forall h, host_inv h -> cwp m kept_inv kept_made h.

Lemma stays_bind {A B} (m : io Host A) (k : A -> io Host B) : keeps_inv m -> (forall a, keeps_inv (k a)) -> keeps_inv (io_bind m k).
Proof.
  intros Hm Hk h Hh. apply cwp_bind. eapply cwp_mono; [by apply Hm |]. intros h1 [a | e] [H1 H2]; [apply Hk, H2; by intros (e & ? & _) |].
  split; [done |]. intros Hne. apply H2. intros (x & [= <-] & Hx). apply Hne. by exists e.
Qed.

Lemma stays_raise_if (b : bool) (e : exn) : keeps_inv (io_raise_if b e).
Proof. intros h Hh. apply cwp_raise_if; auto. Qed.

Lemma stays_raise {A} (e : exn) : keeps_inv (@io_raise Host A e).
Proof. intros h Hh. apply cwp_raise. auto. Qed.

Lemma stays_ret {A} (a : A) : keeps_inv (@io_ret Host A a).
Proof. intros h Hh. apply cwp_ret. auto. Qed.

Lemma stays_lift {A} (x : result A) : keeps_inv (io_lift x).
Proof. intros h Hh. apply cwp_lift. auto. Qed.

Lemma stays_modify (f : Registry -> Registry) : (forall r d, registry_inv r d -> registry_inv (f r) d) -> keeps_inv (modify f).
Proof. intros Hf h [Hm Hh]. apply cwp_modify, inv_kept. split; [done |]. by apply Hf. Qed.

Lemma stays_world {A} (m : io World A) : keeps_inv (on_world m).
Proof. intros h Hh. apply cwp_on_world; [intros w x; by apply inv_kept | intros w; apply Hh]. Qed.

Lemma stays_executor (b : ProjectBinding) : keeps_inv (register_executor b).
Proof. intros h Hh. apply cwp_executor. intros ex x. by apply inv_kept. Qed.

Lemma stays_attempt {A} (m : io Host A) : (forall h, host_inv h -> cwp m (fun h1 _ => host_inv h1) kept_made h) -> keeps_inv (attempt m).
Proof. intros Hm h Hh. apply cwp_attempt. eapply cwp_mono; [by apply Hm |]. intros h1 r H1. by apply inv_kept. Qed.

Lemma stays_try {A} (m handler : io Host A) (classes : list exc_class) :
  (forall h, host_inv h -> cwp m (fun h1 _ => host_inv h1) kept_made h) -> keeps_inv handler -> keeps_inv (io_try m classes handler).
Proof.
  intros Hm Hk h Hh. apply cwp_try. eapply cwp_mono; [by apply Hm |]. intros h1 [a | e] H1; [by apply inv_kept |].
  destruct (existsb _ _); [by apply Hk | by apply inv_kept].
Qed.

Lemma stays_ask {B} (k : Registry -> io Host B) : (forall r, keeps_inv (k r)) -> keeps_inv (io! r := ask in k r).
Proof. intros Hk h Hh. by apply cwp_ask, Hk. Qed.

Create HintDb keeps.
#[local] Hint Resolve stays_raise_if stays_raise stays_ret stays_lift stays_world stays_executor : keeps.
#[local] Hint Resolve fence_inv unfinalized_inv : keeps.

(** Reading the store *)
Lemma get_keeps (v : pyval) h : host_inv h -> cwp (on_folder (get store env v)) (fun h1 _ => host_inv h1) kept_made h.
Proof.
  intros Hh. apply cwp_on_folder. eapply cwp_conseq; [apply (get_spec store env v (fun d => d = folder h)); done | |].
  - intros d1 ->. apply Hh.
  - intros d1 x ->. by destruct h.
Qed.

Lemma register_fenced_keeps (b : ProjectBinding) : keeps_inv (register_fenced b).
Proof.
  apply stays_bind.
  - apply stays_attempt. intros h Hh. by apply cwp_executor.
  - intros [u | e]; [auto with keeps |]. apply stays_bind; [apply stays_modify; auto with keeps |]. intros _. destruct (exc_isa _ _); auto with keeps.
Qed.

Lemma register_fenced_spec (b : ProjectBinding) h : host_inv h ->
  cwp (register_fenced b) (fun h1 x => host_inv h1 /\ (x = Ok tt -> registry h1 = registry h /\ folder h1 = folder h)) kept_made h.
Proof.
  intros Hh. apply cwp_bind, cwp_attempt, cwp_executor. intros ex [[] | e]; [apply cwp_ret; by split |].
  apply cwp_bind, cwp_modify. assert (host_inv (set_registry (fence_inventory true (registry h)) (mkHost (registry h) (folder h) (world h) ex))).
  { split; [apply Hh | by apply fence_inv, Hh]. }
  destruct (exc_isa _ _); by apply cwp_raise.
Qed.

Lemma register_digest_keeps (q : RegisterRequest) (factory : option pyval) : keeps_inv (register_digest q factory).
Proof.
  apply stays_ask. intros r. apply stays_bind.
  - destruct (rg_resources r); [| destruct factory; auto with keeps]. apply stays_try.
    + intros h Hh. apply cwp_bind, cwp_on_world; [intros w [y | e]; [by apply cwp_ret | done] | intros w; apply Hh].
    + apply stays_bind; [apply stays_modify; auto with keeps | auto with keeps].
  - intros v. destruct v; auto with keeps. apply stays_bind; auto with keeps.
Qed.

Lemma register_current_keeps (q : RegisterRequest) (b : ProjectBinding) (digest : pystr) : keeps_inv (register_current q b digest).
Proof.
  unfold register_current. destruct (_ && _); [| auto with keeps]. apply stays_bind; [apply register_fenced_keeps |]. intros _.
  apply stays_bind; [| auto with keeps]. apply stays_modify. intros r d [G Hid Hs Hg Hf]. by constructor.
Qed.

Lemma hydrate_keeps (p : pystr) : keeps_inv (hydrate store env p).
Proof.
  intros h Hh. apply cwp_ask. destruct (rg_resources (registry h)); [| apply stays_ret; done].
  apply cwp_bind, cwp_try, cwp_on_folder.
  assert (K : forall A (x : result A), kept_inv h x) by (intros; by apply inv_kept).
  eapply cwp_conseq; [apply (get_found store env p (fun d => d = folder h)); done | intros d1 ->; apply Hh |].
  intros d1 [o | e] [-> Ho]; replace (set_folder (folder h) h) with h by (by destruct h).
  - destruct o as [b |]; [| apply cwp_ret; apply K]. apply cwp_bind, cwp_raise_if; [apply K |]. intros _.
    apply cwp_bind, cwp_modify, cwp_ret, inv_kept. split; [apply Hh |]. cbn [set_registry registry folder].
    apply (publish_inv (registry h) (folder h)); [apply Hh | by apply (Ho _ eq_refl) |]. intros q Hq. destruct (str_eqb q p) eqn:E; [| done]. apply str_eqb_eq in E as ->.
    by apply found_head, (Ho _ eq_refl).
  - destruct (existsb _ _); [apply cwp_raise; apply K | apply K].
Qed.

(** The store's part of registering a new binding *)
Lemma registry_commit_keeps (v : DurableBinding) h : host_inv h -> wf_binding v ->
  cwp (on_folder (commit store env v)) (fun h1 x => registry h1 = registry h /\ store_made (folder h1) /\ commit_result v (folder h) (folder h1) x) kept_made h.
Proof.
  intros [Hm Hh] Hw. apply cwp_on_folder. intros evs. pose proof (commit_made store env v _ Hm Hw evs) as H1. pose proof (commit_moves store env v (folder h) Hw evs) as H2.
  by destruct (commit store env v (folder h) evs).
Qed.

Lemma register_new_keeps (q : RegisterRequest) (digest : pystr) : forallb code_point (rq_key q) = true -> keeps_inv (register_new store env q digest).
Proof.
  intros Hkey h Hh. apply cwp_ask. cbv zeta. apply cwp_bind, cwp_lift. set (v := mkDurable _ _ _ _ _ _ _ _ _).
  destruct (post_init v) as [b | e] eqn:E; [| by apply inv_kept]. pose proof (proj1 (post_init_ok v b E)) as ->.
  assert (Hw : wf_binding v) by (by split). apply cwp_bind. eapply cwp_mono; [apply (register_fenced_spec _ h); done |]. cbn beta.
  intros h1 x [Hx1 Hx]. destruct x as [[] | e]; [| by apply inv_kept]. destruct (Hx eq_refl) as [Er Ed]. clear Hx.
  assert (rg_resources (registry h) = true) as -> by apply Hh. apply cwp_bind, cwp_try. eapply cwp_mono; [by apply (registry_commit_keeps v) |]. cbn beta.
  intros h2 x (E2 & Hm2 & Hr). destruct Hx1 as [Hm1 Hi1]. destruct x as [b | e].
  - destruct Hr as [-> Hr]. apply cwp_bind, cwp_modify, cwp_ret, inv_kept. split; [done |]. cbn [set_registry registry folder]. rewrite E2.
    change (mkBinding _ _ _ _ _ _ _) with (binding_from_durable v). change (rq_project q) with (db_project v).
    apply (publish_inv (registry h1) (folder h1)); [done | by apply (post_init_ok v v) |]. intros p Hp. destruct Hr as [[-> Hf] | Ha]; [| by apply (advanced_head v _ _ true)].
    destruct (str_eqb p (db_project v)) eqn:Ep; [| done]. apply str_eqb_eq in Ep as ->. by apply found_head.
  - destruct (existsb _ _) eqn:Ex.
    + apply cwp_bind, cwp_modify, cwp_raise, inv_kept. split; [done |]. cbn. rewrite E2. by apply (fence_any _ (folder h1)).
    + split; [done |]. intros Hne. split; [done |]. rewrite E2. apply (same_heads_inv _ (folder h1)); [done |]. intros p Hp.
      destruct Hr as [Hi | [[Hs | Hs] _]]; [by apply idle_head | by rewrite Hs in Ex | exfalso; apply Hne; by exists e].
Qed.

Lemma register_keeps (q : RegisterRequest) (factory : option pyval) : forallb code_point (rq_key q) = true -> keeps_inv (register store env q factory).
Proof.
  intros Hkey. apply stays_bind; [apply stays_ask; auto with keeps |]. intros _. apply stays_ask. intros r. apply stays_bind; [auto with keeps |]. intros _.
  apply stays_bind; [auto with keeps |]. intros _. apply stays_bind; [destruct (rg_bindings r !! _); [auto with keeps | apply hydrate_keeps] |].
  intros [b |]; (apply stays_bind; [auto with keeps |]; intros _); (apply stays_bind; [apply register_digest_keeps |]; intros digest);
    [destruct (str_eqb _ _); [apply register_current_keeps | by apply register_new_keeps] | by apply register_new_keeps].
Qed.

(** *** Replay *)

Definition replayed (values : list DurableBinding) (done m : gmap pystr DurableBinding) : Prop :=
  (forall b, b ∈ values -> m !! db_project b = Some b) /\ done ⊆ m
  /\ forall p b, m !! p = Some b -> done !! p = Some b \/ b ∈ values /\ db_project b = p.

Lemma replay_bindings_spec (values : list DurableBinding) (done : gmap pystr DurableBinding) h : store_made (folder h) ->
  cwp (replay_bindings values done) (fun h1 x => registry h1 = registry h /\ folder h1 = folder h /\ forall m, x = Ok m -> replayed values done m) kept_made h.
Proof.
  revert done h. induction values as [|b values IH]; intros done h Hm; cbn [replay_bindings].
  { apply cwp_ret. split; [done |]. split; [done |]. intros m [= <-]. split; [set_solver |]. split; [done | by left]. }
  apply cwp_ask, cwp_bind, cwp_raise_if; [done |]. intros Hb. apply cwp_bind, cwp_raise_if; [done |]. intros _.
  apply cwp_bind, cwp_try, cwp_on_world; [| done]. intros w [g | e]; [| destruct (existsb _ _); [by apply cwp_raise | done]].
  apply cwp_bind, cwp_lift. destruct (compare_digest_str g (db_digest b)) as [eq | e]; [| done]. apply cwp_bind, cwp_raise_if; [done |]. intros _.
  apply cwp_bind, cwp_attempt, cwp_executor. intros ex [u | e]; [| destruct (exc_isa _ _); by apply cwp_raise].
  eapply cwp_mono; [apply IH; done |]. cbn. intros h1 x (E1 & E2 & Hx). split; [done |]. split; [done |]. intros m Em. destruct (Hx m Em) as (H1 & H2 & H3).
  assert (Hbm : m !! db_project b = Some b) by (eapply lookup_weaken; [| exact H2]; by rewrite lookup_insert_eq).
  assert (Hnone : done !! db_project b = None) by (by destruct (done !! db_project b)). split; [| split].
  - intros c [-> | Hc]%elem_of_cons; auto.
  - etransitivity; [by apply insert_subseteq | exact H2].
  - intros p c Hc. destruct (H3 p c Hc) as [Hc1 | [Hc1 Hc2]]; [| right; split; [by right | done]].
    apply lookup_insert_Some in Hc1 as [[<- <-] | [_ Hc1]]; [right; split; [left | done] | by left].
Qed.

(** The replayed inventory is the one of the disk. *)
Lemma replayed_served r d (values : list DurableBinding) (m : gmap pystr DurableBinding) :
  Forall (fun b => found d (db_project b) (Some b)) values -> (forall n, is_Some (shown d !! n) -> exists b, b ∈ values /\ n = name_of (db_project b)) ->
  replayed values ∅ m -> served (with_inventory (binding_from_durable <$> m) m (dom m) r) d.
Proof.
  intros Hf Hn (H1 & _ & H3) p Hp. assert (K : m !! p = head_of d p); [| by cbn; rewrite lookup_fmap, K].
  rewrite Forall_forall in Hf. destruct (shown d !! name_of p) as [f |] eqn:Ef.
  - destruct (Hn (name_of p)) as (b & Hb & En%name_of_inj); [by exists f |]. subst p. rewrite (H1 b Hb). symmetry. by apply found_head, Hf.
  - assert (head_of d p = None) as -> by (unfold head_of; by rewrite Ef). destruct (m !! p) as [b |] eqn:Eb; [| done].
    destruct (H3 p b Eb) as [Hb | [Hb <-]]; [by rewrite lookup_empty in Hb |]. destruct (Hf b Hb) as (f & Ef2 & _). congruence.
Qed.

Lemma replay_keeps (shutdown : bool) : keeps_inv (replay_inventory store env shutdown).
Proof.
  intros h Hh. assert (K : forall A (x : result A), kept_inv h x) by (intros; by apply inv_kept). apply cwp_ask.
  assert (rg_resources (registry h) = true) as -> by apply Hh. apply cwp_bind, cwp_try, cwp_on_folder.
  eapply cwp_conseq; [apply (list_current_spec store env (fun d => d = folder h)); done | intros d1 ->; apply Hh |].
  intros d1 [values | e] [-> Hl]; replace (set_folder (folder h) h) with h by (by destruct h); [| destruct (existsb _ _); [apply cwp_raise |]; apply K].
  destruct (Hl values eq_refl) as (_ & Hf & Hn). apply cwp_bind. eapply cwp_mono; [apply replay_bindings_spec, Hh |]. cbn beta. intros h1 x (E1 & E2 & Hx).
  assert (Hh1 : host_inv h1) by (destruct h1; cbn in *; subst; exact Hh). assert (K1 : forall A (y : result A), kept_inv h1 y) by (intros; by apply inv_kept).
  destruct x as [m | e]; [| apply K1]. apply cwp_bind, cwp_lift. destruct (except_as _ _ _); [| apply K1]. apply cwp_bind, cwp_raise_if; [apply K1 |]. intros _.
  apply cwp_modify, inv_kept. split; [apply Hh1 |]. cbn [set_registry registry folder]. destruct Hh1 as [_ [G Hid Hs Hg Hfin]].
  constructor; cbn; [done | | | intros Ho; split; [done | by apply Hg] | intros a1 n1 g1 Ea; split; [by eapply Hfin | done]].
  { intros p b Hb. destruct (Hx m eq_refl) as (_ & _ & H3). destruct (H3 p b Hb) as [Hb1 | [Hb1 <-]]; [by rewrite lookup_empty in Hb1 |].
    rewrite Forall_forall in Hf. destruct (Hf b Hb1) as (f & _ & Hdec). by apply decoded_project in Hdec. }
  intros _. rewrite E2. apply (replayed_served _ _ values); [done | | by apply Hx]. intros n Hsome. by destruct (Hn n Hsome) as [_ ?].
Qed.

(** *** Gate and authority *)

Lemma open_gate_spec h : host_inv h ->
  cwp open_gate (fun h1 x => folder h1 = folder h /\ host_inv h1 /\ forall e, x = Raise e -> h1 = h) kept_made h.
Proof.
  intros Hh. apply cwp_ask, cwp_bind, cwp_raise_if; [done |]. intros _. apply cwp_bind, cwp_raise_if; [done |]. intros Hf. apply cwp_modify.
  split; [done |]. split; [| done]. destruct Hh as [Hm [G Hid Hs Hg Hfin]]. destruct G as [G1 G2]. rewrite G2 in Hf. cbn in Hf. apply negb_false_iff in Hf.
  split; [done |]. constructor; cbn; try done. intros _. split; [| done]. destruct (rg_finalized (registry h)) as [[[a n] g] |] eqn:E; [| done].
  by eapply Hfin.
Qed.

Lemma finalize_keeps (epoch count digest : pystr) : keeps_inv (finalize epoch count digest).
Proof.
  apply stays_bind; [apply stays_ask; auto with keeps |]. intros _ h Hh. assert (K : forall A (x : result A), kept_inv h x) by (intros; by apply inv_kept).
  apply cwp_ask, cwp_bind, cwp_raise_if; [apply K |]. intros _. apply cwp_bind, cwp_raise_if; [apply K |]. intros Hrc%negb_false_iff.
  apply cwp_bind, cwp_raise_if; [apply K |]. intros _. apply cwp_bind, cwp_lift. destruct (except_as _ _ _) as [[n g] | e]; [| apply K]. cbv zeta.
  assert (Hmis : cwp (A := string) (then! modify (fence_inventory false) in io_raise (dispatch_error "BINDING_INVENTORY_MISMATCH")) kept_inv kept_made h).
  { apply stays_bind; [apply stays_modify; auto with keeps | auto with keeps | done]. }
  apply cwp_bind, cwp_lift. destruct (if str_eqb count _ then _ else _) as [[|] | e]; cbn [negb]; [| exact Hmis | apply K].
  destruct (rg_authority (registry h)) as [a |] eqn:Ea; [| apply cwp_raise, K]. destruct (rg_finalized (registry h)) as [current |] eqn:Ef.
  { destruct (bool_decide _); [apply cwp_ret, K | exact Hmis]. }
  apply cwp_bind, cwp_modify, cwp_bind, cwp_attempt. set (h1 := set_registry _ h).
  destruct Hh as [Hm [G Hid Hs Hg Hfin]]. assert (Hclosed : rg_gate_open (registry h) = false).
  { destruct (rg_gate_open (registry h)); [| done]. destruct (Hg eq_refl) as [_ Hx]. by rewrite Ef in Hx. }
  assert (Hh1 : host_inv h1) by (split; [done |]; constructor; cbn; [done | done | done | by rewrite Hclosed | by intros ? ? ? [= <- _ _]]).
  rewrite (proj1 G). eapply cwp_mono; [by apply open_gate_spec |]. cbn beta. intros h2 [[] | e] (E2 & Hh2 & He); [apply cwp_ret; by apply inv_kept |].
  rewrite (He e eq_refl). apply cwp_bind, cwp_modify, cwp_raise, inv_kept. split; [done |]. constructor; cbn; [done | done | done | by rewrite Hclosed | done].
Qed.

Lemma bind_keeps (epoch nonce : pystr) : keeps_inv (bind epoch nonce).
Proof.
  intros h Hh. assert (K : forall A (x : result A), kept_inv h x) by (intros; by apply inv_kept). apply cwp_ask, cwp_bind, cwp_lift.
  destruct (rbind _ _) as [raw | e]; [| apply K]. apply cwp_bind, cwp_raise_if; [apply K |]. intros Ha. apply cwp_bind, cwp_modify, cwp_ret, inv_kept.
  destruct Hh as [Hm [G Hid Hs Hg Hfin]]. split; [done |]. constructor; cbn; try done. intros a n g Ef. destruct (Hfin a n g Ef) as [Ea Hc]. split; [| done].
  rewrite Ea in Ha. apply negb_false_iff, bool_decide_eq_true in Ha. congruence.
Qed.

Lemma perform_keeps (op : host_op) : match op with HRegister q _ => forallb code_point (rq_key q) = true | _ => True end ->
  keeps_inv (perform_op store env op).
Proof.
  assert (D : forall a, keeps_inv (require_dispatch_open a)) by (intros a; apply stays_ask; auto with keeps).
  destruct op as [e n | | q f | s | e c g | | |]; intros Hop; cbn [perform_op].
  - apply stays_bind; [done |]. intros _. apply stays_bind; [apply bind_keeps | auto with keeps].
  - apply stays_modify. intros r d [[G1 G2] Hid Hs Hg Hf]. unfold finalize_required. rewrite G1, G2. cbn. by constructor; cbn.
  - apply stays_bind; [done |]. intros _. apply stays_bind; [by apply register_keeps | auto with keeps].
  - apply replay_keeps.
  - apply stays_bind; [done |]. intros _. apply stays_bind; [apply finalize_keeps | auto with keeps].
  - intros h Hh. eapply cwp_mono; [by apply open_gate_spec |]. intros h1 x (_ & H1 & _). by apply inv_kept.
  - apply stays_modify. intros r d [[G1 G2] Hid Hs Hg Hf]. rewrite G1. constructor; cbn; done.
  - apply stays_modify. intros r d [[G1 G2] Hid Hs Hg Hf]. by constructor; cbn.
Qed.

End Operations.

End Invariant.

(** ** Histories of a host *)

(** Hosts that start on a directory of the store, and go on, with how each
    operation since the start ended: between two operations the directories of the
    Projects may change and the executor may answer anything.  A host whose process
    died starts again on what is left of the directory. *)
Inductive hosted `{Unicode} `{Rfc8785} : Host -> list (result unit) -> Prop :=
| Hosted_start d log host host_revision epoch w ex : stored d log -> hosted (mkHost (gated_registry host host_revision epoch) d w ex) []
| Hosted_op h ended store env op shows ex evs h1 rest x : hosted h ended ->
    match op with HRegister q _ => forallb code_point (rq_key q) = true | _ => True end ->
    perform_op store env op (mkHost (registry h) (folder h) (mkWorld (verifier (world h)) shows) ex) evs = Ran h1 rest x ->
    hosted h1 (x :: ended).

(** None of the operations ended in an [OSError] of its own.  One can: [_register]
    expects the errors of the store and lets an [OSError] of a failing [fstat]
    through, without closing the gate ([escaped_not_fenced] below). *)
Definition no_escape (ended : list (result unit)) : Prop := Forall (fun x => ~ escaped x) ended.

Lemma hosted_inv `{UnicodeLaws} `{Rfc8785Laws} (h : Host) (ended : list (result unit)) : hosted h ended -> no_escape ended -> host_inv h.
Proof.
  induction 1 as [d log host hr epoch w ex Hs | h ended store env op shows ex evs h1 rest x _ IH Hop E]; intros Hne.
  - split; [by exists log |]. by constructor; cbn.
  - apply Forall_cons in Hne as [Hne Hall]. specialize (IH Hall). pose proof (perform_keeps store env op Hop (mkHost (registry h) (folder h) (mkWorld (verifier (world h)) shows) ex) IH evs) as Hp. rewrite E in Hp.
    by apply Hp.
Qed.

Section Finalizing.
Context `{UnicodeLaws} `{Rfc8785Laws}.

(** What [finalize] leaves alone, and what it has compared when it returns *)
Definition confirmed (count digest : pystr) (h h1 : Host) (x : result string) : Prop :=
  folder h1 = folder h /\ forall status, x = Ok status ->
    rg_replay_complete (registry h) = true /\ binding_inventory_digest (inventory_of (rg_durable (registry h))) = Ok (count, digest).

Lemma finalize_exact (epoch count digest : pystr) (h : Host) : cwp (finalize epoch count digest) (confirmed count digest h) (fun _ => True) h.
Proof.
  assert (K : forall e, confirmed count digest h h (Raise e)) by (by split).
  apply cwp_bind, cwp_ask, cwp_raise_if; [done |]. intros _. apply cwp_ask, cwp_bind, cwp_raise_if; [done |]. intros _.
  apply cwp_bind, cwp_raise_if; [done |]. intros Hrc%negb_false_iff. apply cwp_bind, cwp_raise_if; [done |]. intros _. apply cwp_bind, cwp_lift.
  destruct (except_as _ _ _) as [[n g] | e] eqn:Ed; [| done]. apply except_as_ok in Ed. cbv zeta. cbn [fst snd].
  assert (Hmis : cwp (A := string) (then! modify (fence_inventory false) in io_raise (dispatch_error "BINDING_INVENTORY_MISMATCH")) (confirmed count digest h) (fun _ => True) h).
  { by apply cwp_bind, cwp_modify, cwp_raise. }
  apply cwp_bind, cwp_lift. destruct (if str_eqb count n then _ else _) as [[|] | e] eqn:Ec; cbn [negb]; [| exact Hmis | done].
  destruct (str_eqb count n) eqn:En; [| done]. apply str_eqb_eq in En as <-. unfold compare_digest_str in Ec. destruct (_ && _); [| done].
  injection Ec as <-%str_eqb_eq. assert (KO : forall h1 status, folder h1 = folder h -> confirmed count digest h h1 (Ok status)) by (by split).
  destruct (rg_authority (registry h)) as [a |]; [| by apply cwp_raise]. destruct (rg_finalized (registry h)) as [current |].
  { destruct (bool_decide _); [apply cwp_ret; by apply KO | exact Hmis]. }
  apply cwp_bind, cwp_modify, cwp_bind, cwp_attempt. set (h1 := set_registry _ h).
  apply (cwp_mono _ (fun h2 (_ : result unit) => folder h2 = folder h)).
  - destruct (rg_gate_required (registry h)); [| by apply cwp_ret]. apply cwp_ask, cwp_bind, cwp_raise_if; [done |]. intros _.
    apply cwp_bind, cwp_raise_if; [done |]. intros _. by apply cwp_modify.
  - intros h2 [[] | e] E2; [apply cwp_ret; by apply KO |]. apply cwp_bind, cwp_modify, cwp_raise. by split.
Qed.

(** A binding that the registry holds has text of code points. *)
Lemma item_code_points (b : DurableBinding) : wf_binding b -> code_points (inventory_item b) = true.
Proof.
  intros Hb. pose proof (record_canonical b Hb) as Ht. assert (P : forall s, forallb scalar_value s = true -> forallb code_point s = true).
  { intros s Hs. rewrite forallb_forall in *. intros c Hc. specialize (Hs c Hc). unfold scalar_value, code_point in *. by apply andb_true_iff in Hs as [-> _]. }
  unfold to_record in Ht. cbn [canonical forallb fst snd] in Ht.
  apply andb_true_iff in Ht as [_ Ht].
  repeat (apply andb_true_iff in Ht as [? Ht]). repeat match goal with X : _ && _ = true |- _ => apply andb_true_iff in X as [_ X] end.
  destruct b as [p k pr r dg [q |] [qd |] h hr]; cbn in *; by rewrite !P.
Qed.

Lemma inventory_code_points (r : Registry) (d : Folder) : store_made d -> registry_inv r d -> rg_replay_complete r = true ->
  Forall (fun v => code_points v = true) (inventory_of (rg_durable r)).
Proof.
  intros [log Hlog] [_ Hid Hs _ _] Hc. apply Forall_forall. intros v Hv. unfold inventory_of in Hv. apply list_elem_of_In, in_flat_map in Hv as (p & _ & Hv).
  destruct (rg_durable r !! p) as [b |] eqn:Eb; [| done]. destruct Hv as [<- | []]. apply item_code_points. pose proof (Hid p b Eb) as Hp.
  destruct (Hs Hc p Hp) as [Eh _]. rewrite Eb in Eh. destruct (stored_inv p Hp d log Hlog) as (c & Ht & _).
  rewrite (tracked_head p d c Ht) in Eh. destruct Ht as (Hsucc & _). symmetry in Eh. rewrite last_lookup in Eh. by destruct (Hsucc _ _ Eh).
Qed.

End Finalizing.

(** C20: As long as no operation since the process started ended in an
    [OSError] of its own, while the application gate of a host is open, the
    inventory has been replayed and confirmed for the API that is bound, and the
    registry serves for every Project exactly the binding that is the head of its
    succession in the binding store, and none for a Project without one; the
    directory was only ever used by the store, whatever failed and died before. *)
Theorem gate_serves_heads `{UnicodeLaws} `{Rfc8785Laws} (h : Host) (ended : list (result unit)) :
  hosted h ended -> no_escape ended -> application_gate_open (registry h) = true ->
  (exists log, stored (folder h) log) /\ rg_replay_complete (registry h) = true
  /\ (exists a n g, rg_finalized (registry h) = Some (a, n, g) /\ rg_authority (registry h) = Some a)
  /\ forall p, match_id $"prj" p = true -> rg_bindings (registry h) !! p = binding_from_durable <$> head_of (folder h) p.
Proof.
  intros Hh Hne Ho. destruct (hosted_inv h ended Hh Hne) as [Hm [[G1 G2] Hid Hs Hg Hf]]. unfold application_gate_open in Ho. rewrite G1 in Ho. destruct (Hg Ho) as [Hc Hgiven].
  split; [done |]. split; [done |]. split; [| intros p Hp; by apply Hs].
  destruct (rg_finalized (registry h)) as [[[a n] g] |] eqn:Ef; [| done]. exists a, n, g. split; [done |]. by destruct (Hf a n g eq_refl).
Qed.

(** C22: When a host, no operation of which ended in an [OSError] of its own
    since the process started, confirms an inventory, then the inventory that the
    API took the digest of and that of the Runtime have the same rows, unless these
    two inventories are a collision of SHA-256, and the Runtime's holds exactly the
    heads of the binding store. *)
Theorem finalize_agrees `{UnicodeLaws} `{Rfc8785Laws} (h h1 : Host) (ended : list (result unit)) (items : list pyval) (epoch count digest : pystr) (evs rest : list event) (status : string) :
  hosted h ended -> no_escape ended -> Forall (fun v => code_points v = true) items -> binding_inventory_digest items = Ok (count, digest) ->
  finalize epoch count digest h evs = Ran h1 rest (Ok status) ->
  (inventory_rows items = inventory_rows (inventory_of (rg_durable (registry h)))
   \/ inventories_collide items (inventory_of (rg_durable (registry h))))
  /\ forall p, match_id $"prj" p = true -> rg_durable (registry h) !! p = head_of (folder h1) p.
Proof.
  intros Hh Hne Hc Ei E. destruct (hosted_inv h ended Hh Hne) as [Hm Hinv]. pose proof (finalize_exact epoch count digest h evs) as Hf. rewrite E in Hf. destruct Hf as [Ef Hs].
  destruct (Hs status eq_refl) as [Hrc Hd]. split.
  - apply (inventory_digest_rows _ items count count digest); [by apply (inventory_code_points _ (folder h)) | done..].
  - intros p Hp. rewrite Ef. by apply Hinv.
Qed.

(** ** Witnesses *)

#[local] Existing Instance printed_rfc8785.

Definition host_id : pystr := $"wri_" ++ repeat 98 32.
Definition host_nonce : pystr := repeat 49 32.
Definition started_host : Host := mkHost (gated_registry host_id $"1" $"1") no_folder (mkWorld sample_verifier []) [].
Definition host_after {A} (o : outcome Host A) : Host := match o with Died h | Ran h _ _ => h end.
Definition empty_digest : pystr := Eval vm_compute in match binding_inventory_digest [] with Ok (_, g) => g | Raise _ => [] end.

(** The host with what the system will show *)
Definition looking (h : Host) (shows : list Stat) : Host := mkHost (registry h) (folder h) (mkWorld (verifier (world h)) shows) [].

Definition run_op (op : host_op) (shows : list Stat) (h : Host) : outcome Host unit := perform_op heads_store (heads_env 49) op (looking h shows) [].

Definition bound_host : Host := Eval vm_compute in host_after (run_op (HBind $"1" host_nonce) [] started_host).
Definition replayed_host : Host := Eval vm_compute in host_after (run_op (HReplay false) [] bound_host).
Definition open_host : Host := Eval vm_compute in host_after (run_op (HFinalize $"1" $"0" empty_digest) [] replayed_host).

Definition sample_register : RegisterRequest := mkRegister heads_project $"one" $"1" $"1" None None host_id $"1".
Definition serving_host : Host := Eval vm_compute in host_after (run_op (HRegister sample_register None) (calm false) open_host).

Example serving : application_gate_open (registry serving_host) = true /\ is_Some (rg_bindings (registry serving_host) !! heads_project).
Proof. vm_compute. by split; [| eexists]. Qed.

Lemma not_escaped {A} (a : A) : ~ escaped (Ok a).
Proof. by intros (e & ? & _). Qed.

Lemma run_bind : run_op (HBind $"1" host_nonce) [] started_host = Ran bound_host [] (Ok tt).
Proof. vm_compute. reflexivity. Qed.

Lemma run_replay : run_op (HReplay false) [] bound_host = Ran replayed_host [] (Ok tt).
Proof. vm_compute. reflexivity. Qed.

Lemma run_finalize : run_op (HFinalize $"1" $"0" empty_digest) [] replayed_host = Ran open_host [] (Ok tt).
Proof. vm_compute. reflexivity. Qed.

Lemma run_register : run_op (HRegister sample_register None) (calm false) open_host = Ran serving_host [] (Ok tt).
Proof. vm_compute. reflexivity. Qed.

(** A host whose operations all returned *)
Definition hosted_well (h : Host) : Prop := exists ended, hosted h ended /\ no_escape ended.

Lemma hosted_step (op : host_op) (shows : list Stat) (h h1 : Host) : hosted_well h ->
  match op with HRegister q _ => forallb code_point (rq_key q) = true | _ => True end -> run_op op shows h = Ran h1 [] (Ok tt) -> hosted_well h1.
Proof.
  intros (ended & Hh & Hne) Hop E. exists (Ok tt :: ended). split; [| by constructor; [apply not_escaped |]].
  exact (Hosted_op h ended heads_store (heads_env 49) op shows [] [] h1 [] (Ok tt) Hh Hop E).
Qed.

Lemma replayed_hosted : hosted_well replayed_host.
Proof.
  apply (hosted_step (HReplay false) [] bound_host); [| done | exact run_replay].
  apply (hosted_step (HBind $"1" host_nonce) [] started_host); [| done | exact run_bind].
  exists []. split; [apply (Hosted_start no_folder []); constructor | constructor].
Qed.

Lemma serving_hosted : hosted_well serving_host.
Proof.
  apply (hosted_step (HRegister sample_register None) (calm false) open_host); [| done | exact run_register].
  apply (hosted_step (HFinalize $"1" $"0" empty_digest) [] replayed_host); [apply replayed_hosted | done | exact run_finalize].
Qed.

Lemma gate_serves_heads_witness : rg_bindings (registry serving_host) !! heads_project = binding_from_durable <$> head_of (folder serving_host) heads_project.
Proof.
  destruct serving_hosted as (ended & Hh & Hne).
  exact (proj2 (proj2 (proj2 (gate_serves_heads serving_host ended Hh Hne eq_refl))) heads_project eq_refl).
Defined.

(** The process starts again on the directory with the binding of the Project; the
    API confirms the inventory of its own database. *)
Definition restarted_host : Host := mkHost (gated_registry host_id $"1" $"2") (folder serving_host) (mkWorld sample_verifier []) [].
Definition rebound_host : Host := Eval vm_compute in host_after (run_op (HBind $"2" host_nonce) [] restarted_host).
Definition recovered_host : Host := Eval vm_compute in host_after (run_op (HReplay false) (calm false) rebound_host).

Definition api_items : list pyval :=
  [PDict [($"binding_digest", PStr pinned_digest); ($"binding_revision", PStr $"1"); ($"previous_binding_digest", PNone);
          ($"previous_binding_revision", PNone); ($"project_id", PStr heads_project); ($"project_revision", PStr $"1");
          ($"relative_key", PStr $"one"); ($"runtime_host_installation_id", PStr host_id); ($"runtime_host_installation_revision", PStr $"1")]].

Definition api_digest : pystr := Eval vm_compute in match binding_inventory_digest api_items with Ok (_, g) => g | Raise _ => [] end.

Lemma digest_api : binding_inventory_digest api_items = Ok ($"1", api_digest).
Proof. vm_compute. reflexivity. Qed.

Lemma run_rebind : run_op (HBind $"2" host_nonce) [] restarted_host = Ran rebound_host [] (Ok tt).
Proof. vm_compute. reflexivity. Qed.

Lemma run_recover : run_op (HReplay false) (calm false) rebound_host = Ran recovered_host [] (Ok tt).
Proof. vm_compute. reflexivity. Qed.

Lemma recovered_hosted : hosted_well recovered_host.
Proof.
  apply (hosted_step (HReplay false) (calm false) rebound_host); [| done | exact run_recover].
  apply (hosted_step (HBind $"2" host_nonce) [] restarted_host); [| done | exact run_rebind].
  destruct serving_hosted as (ended & Hh & Hne). destruct (hosted_inv _ _ Hh Hne) as [[log Hlog] _].
  exists []. split; [by apply (Hosted_start _ log) | constructor].
Qed.

Definition confirmed_host : Host := host_after (finalize $"2" $"1" api_digest recovered_host []).

Lemma finalized : finalize $"2" $"1" api_digest recovered_host [] = Ran confirmed_host [] (Ok "FINALIZED"%string).
Proof. vm_compute. reflexivity. Qed.

Lemma finalize_agrees_witness :
  (inventory_rows api_items = inventory_rows (inventory_of (rg_durable (registry recovered_host)))
   \/ inventories_collide api_items (inventory_of (rg_durable (registry recovered_host))))
  /\ is_Some (rg_durable (registry recovered_host) !! heads_project)
  /\ rg_durable (registry recovered_host) !! heads_project = head_of (folder confirmed_host) heads_project.
Proof.
  destruct recovered_hosted as (ended & Hh & Hne).
  destruct (finalize_agrees recovered_host confirmed_host ended api_items $"2" $"1" api_digest [] [] "FINALIZED"%string Hh Hne
    ltac:(by repeat constructor) digest_api finalized) as [H1 H2].
  split; [exact H1 |]. split; [vm_compute; by eexists | exact (H2 heads_project eq_refl)].
Defined.

(** ** What the registry does not fence *)

(** The [fstat] of the read-back fails after the record was renamed and synced:
    the [OSError] is not one that [_register] expects, so the gate stays open while
    the store has a binding that the registry does not serve. *)
Definition readback_fails : list event := repeat (Works 4096) 26 ++ [Fails].

Example escaped_not_fenced :
  match perform_op heads_store (heads_env 49) (HRegister sample_register None) (looking open_host (calm false)) readback_fails with
  | Ran h _ (Raise e) => exn_class e = PyOSError /\ application_gate_open (registry h) = true
                         /\ rg_bindings (registry h) !! heads_project = None /\ is_Some (head_of (folder h) heads_project)
  | _ => False
  end.
Proof. vm_compute. repeat (split; [reflexivity |]). by eexists. Qed.
