(* ===== verification/Tables.v ===== *)
(** * The WAW tables ([agentbox_core/waw_models.py])

    The rows of the four durable tables, their constraints as SQLite evaluates
    them, and the access the services make through a SQLAlchemy session.

    A table is the list of its rows in insertion order.  A transaction is a
    function from the database to a result: [database.transaction] commits the
    database a successful one gives and rolls back one that raises.  [flush]
    sends a statement: SQLite checks the rows a statement writes, and a
    database that satisfied its constraints before satisfies them after
    exactly when every row does.  A [CHECK] is an expression of SQL's three-valued logic and
    refuses a row only when it is false; text functions of SQLite read a text
    up to its first NUL.  Of a Project only the columns the services read are
    kept; instants are integers. *)

From S2P Require Import Prelude PyVal WawDomain Unicode Control.

Local Open Scope Z_scope.

(** ** Access to a table *)

Class Keyed (R K : Type) : Type := key_of : R -> K.

Section Table.
Context {R K : Type} `{Keyed R K} `{EqDecision K}.

(** [session.get(Row, key)] *)
Definition get (k : K) (t : list R) : option R := find (fun r => bool_decide (key_of r = k)) t.

(** The [UPDATE] of one row by its key, and of the rows of a [WHERE]. *)
Definition put (r : R) (t : list R) : list R := map (fun x => if bool_decide (key_of x = key_of r) then r else x) t.
Definition update_where (p : R -> bool) (f : R -> R) (t : list R) : list R := map (fun x => if p x then f x else x) t.

(** A unique index on the rows for which [f] gives a value. *)
Definition unique_index {X : Type} `{EqDecision X} (f : R -> option X) (t : list R) : bool := bool_decide (NoDup (omap f t)).
End Table.

(** ** SQL expressions *)

Abbreviation sbool := (option bool).

Definition sand (a b : sbool) : sbool :=
  match a, b with
  | Some false, _ | _, Some false => Some false
  | Some true, Some true => Some true
  | _, _ => None
  end.
Definition sor (a b : sbool) : sbool :=
  match a, b with
  | Some true, _ | _, Some true => Some true
  | Some false, Some false => Some false
  | _, _ => None
  end.

Definition present {A} (v : option A) : bool := match v with Some _ => true | None => false end.
Definition absent {A} (v : option A) : bool := negb (present v).

(** A comparison with a column that may be NULL *)
Definition compared {A} (p : A -> bool) (v : option A) : sbool := option_map p v.

(** [CHECK (c)] *)
Definition holds (c : sbool) : bool := match c with Some false => false | _ => true end.

(** The part of a text [length], [substr] and [GLOB] see. *)
Fixpoint c_text (s : pystr) : pystr :=
  match s with
  | c :: r => if c =? 0 then [] else c :: c_text r
  | [] => []
  end.

Definition id_check (prefix : string) (s : pystr) : bool := match_id (ustr prefix) (c_text s).
Definition digest_check (s : pystr) : bool := match_hex 64 (c_text s).
Definition epoch_check (s : pystr) : bool :=
  match_pos_decimal (c_text s) && ((blen (c_text s) <? 20) || str_leb s $"18446744073709551615").

(** [failure_code NOT GLOB '*[^[:cntrl:]]*']: SQLite has no named classes, so
    the set ends at the first bracket and the pattern asks for a character
    outside it that a closing bracket follows. *)
Fixpoint glob_cntrl (s : pystr) : bool :=
  match s with
  | a :: ((b :: _) as r) => (negb (existsb (Z.eqb a) $"[:cntrl:") && (b =? 93)) || glob_cntrl r
  | _ => false
  end.

(** [s = trim(s)] *)
Definition trimmed (s : pystr) : bool :=
  match s with
  | [] => true
  | c :: _ => negb (c =? 32) && negb (List.last s 0 =? 32)
  end.

(** ** Rows *)

Record Project : Type := mkProject {
  p_id : pystr;
  p_relative_path : pystr;
  p_state : pystr;
  p_archived_at : option Z;
  p_revision : Z
}.

Record RuntimeHostInstallation : Type := mkHost {
  h_id : pystr;
  h_revision : Z;
  h_created_at : Z;
  h_updated_at : Z;
  h_last_runtime_epoch : option pystr
}.

Inductive EvidenceState : Type := UNOBSERVED | VERIFIED | STALE.

#[export] Instance EvidenceState_eq_dec : EqDecision EvidenceState.
Proof. solve_decision. Defined.

Record AgentWorkspaceSessionRecord : Type := mkSession {
  s_id : pystr;
  s_project_id : pystr;
  s_authorization_scope : pystr;
  s_host_id : pystr;
  s_host_revision : Z;
  s_agent_type : AgentType;
  s_state : WorkspaceState;
  s_runtime_session_name : pystr;
  s_runtime_marker : pystr;
  s_executable_fingerprint : option pystr;
  s_generation : Z;
  s_binding_revision : Z;
  s_binding_digest : pystr;
  s_revision : Z;
  s_created_at : Z;
  s_updated_at : Z;
  s_last_seen_at : Z;
  s_exit_code : option Z;
  s_failure_code : option pystr;
  s_reconciliation_state : ReconciliationState;
  s_evidence_state : EvidenceState;
  s_evidence_generation : option Z;
  s_evidence_epoch : option pystr
}.

Inductive BindingStatus : Type := PENDING | CURRENT | RECONCILIATION_REQUIRED | SUPERSEDED.

#[export] Instance BindingStatus_eq_dec : EqDecision BindingStatus.
Proof. solve_decision. Defined.

Record ProjectBindingRecord : Type := mkBinding {
  b_project_id : pystr;
  b_revision : Z;
  b_relative_key : pystr;
  b_project_revision : Z;
  b_digest : option pystr;
  b_previous_revision : option Z;
  b_previous_digest : option pystr;
  b_host_id : pystr;
  b_host_revision : Z;
  b_status : BindingStatus;
  b_created_at : Z;
  b_updated_at : Z
}.

Record WorkspaceStopOperationRecord : Type := mkStopRow {
  o_id : pystr;
  o_workspace_id : pystr;
  o_project_id : pystr;
  o_agent_type : AgentType;
  o_generation : Z;
  o_binding_revision : Z;
  o_binding_digest : pystr;
  o_host_id : pystr;
  o_host_revision : Z;
  o_result : StopResult;
  o_failure_code : option pystr;
  o_created_at : Z;
  o_updated_at : Z
}.

#[export] Instance project_key : Keyed Project pystr := p_id.
#[export] Instance host_key : Keyed RuntimeHostInstallation pystr := h_id.
#[export] Instance session_key : Keyed AgentWorkspaceSessionRecord pystr := s_id.
#[export] Instance binding_key : Keyed ProjectBindingRecord (pystr * Z) := fun b => (b_project_id b, b_revision b).
#[export] Instance stop_key : Keyed WorkspaceStopOperationRecord pystr := o_id.

Record Database : Type := mkDatabase {
  projects : list Project;
  hosts : list RuntimeHostInstallation;
  sessions : list AgentWorkspaceSessionRecord;
  bindings : list ProjectBindingRecord;
  stops : list WorkspaceStopOperationRecord
}.

Definition set_hosts (db : Database) (t : list RuntimeHostInstallation) : Database :=
  mkDatabase (projects db) t (sessions db) (bindings db) (stops db).
Definition set_sessions (db : Database) (t : list AgentWorkspaceSessionRecord) : Database :=
  mkDatabase (projects db) (hosts db) t (bindings db) (stops db).
Definition set_bindings (db : Database) (t : list ProjectBindingRecord) : Database :=
  mkDatabase (projects db) (hosts db) (sessions db) t (stops db).
Definition set_stops (db : Database) (t : list WorkspaceStopOperationRecord) : Database :=
  mkDatabase (projects db) (hosts db) (sessions db) (bindings db) t.

(** Assignments to the columns of a session that services assign to; the
    others are written once. *)
Definition revise (s : AgentWorkspaceSessionRecord) (state : WorkspaceState) (reconciliation : ReconciliationState)
    (exit_code : option Z) (failure_code : option pystr) (generation : Z) (marker : pystr) (fingerprint : option pystr)
    (evidence : EvidenceState) (evidence_generation : option Z) (evidence_epoch : option pystr) (revision updated_at last_seen_at : Z)
  : AgentWorkspaceSessionRecord :=
  mkSession (s_id s) (s_project_id s) (s_authorization_scope s) (s_host_id s) (s_host_revision s) (s_agent_type s) state
    (s_runtime_session_name s) marker fingerprint generation (s_binding_revision s) (s_binding_digest s) revision
    (s_created_at s) updated_at last_seen_at exit_code failure_code reconciliation evidence evidence_generation evidence_epoch.

(** ** Constraints

    The closed sets of agent types, states and results are the types of their
    columns, and the one [runtime_type] is not kept. *)

(** A composite key that some host has *)
Definition host_identity (db : Database) (id : pystr) (revision : Z) : bool :=
  existsb (fun h => str_eqb (h_id h) id && (h_revision h =? revision)) (hosts db).

Definition host_ok (h : RuntimeHostInstallation) : bool :=
  id_check "wri" (h_id h) && (1 <=? h_revision h) && holds (compared epoch_check (h_last_runtime_epoch h)).

(** [ck_waw_sessions_executable_evidence_consistency] *)
Definition evidence_consistent (s : AgentWorkspaceSessionRecord) : sbool :=
  let fingerprint := Some (present (s_executable_fingerprint s)) in
  let epoch := Some (present (s_evidence_epoch s)) in
  sor (sor
    (Some (bool_decide (s_evidence_state s = UNOBSERVED) && absent (s_executable_fingerprint s)
           && absent (s_evidence_generation s) && absent (s_evidence_epoch s)))
    (sand (sand (sand (Some (bool_decide (s_evidence_state s = VERIFIED))) fingerprint)
                (compared (fun g => g =? s_generation s) (s_evidence_generation s))) epoch))
    (Some (bool_decide (s_evidence_state s = STALE)
           && ((absent (s_evidence_generation s) && absent (s_evidence_epoch s))
               || (present (s_executable_fingerprint s) && present (s_evidence_generation s) && present (s_evidence_epoch s))))).

Definition session_ok (db : Database) (s : AgentWorkspaceSessionRecord) : bool :=
  id_check "aws" (s_id s) && id_check "prj" (s_project_id s)
  && negb (str_eqb (s_authorization_scope s) []) && (blen (c_text (s_authorization_scope s)) <=? 128)
  && id_check "wri" (s_host_id s) && (1 <=? s_host_revision s)
  && (1 <=? s_generation s) && (1 <=? s_revision s) && (1 <=? s_binding_revision s) && digest_check (s_binding_digest s)
  && in_range 1 (blen (c_text (s_runtime_session_name s))) 80 && in_range 1 (blen (c_text (s_runtime_marker s))) 192
  && holds (compared digest_check (s_executable_fingerprint s))
  && holds (compared (fun g => 1 <=? g) (s_evidence_generation s)) && holds (compared epoch_check (s_evidence_epoch s))
  && holds (evidence_consistent s)
  && holds (compared (fun c => in_range (-128) c 255) (s_exit_code s))
  && holds (compared (fun f => in_range 1 (blen (c_text f)) 64 && negb (glob_cntrl (c_text f))) (s_failure_code s))
  && present (get (s_project_id s) (projects db)) && host_identity db (s_host_id s) (s_host_revision s).

(** [ck_waw_project_bindings_predecessor] *)
Definition predecessor_check (b : ProjectBindingRecord) : sbool :=
  sor (Some ((b_revision b =? 1) && absent (b_previous_revision b) && absent (b_previous_digest b)))
      (sand (sand (Some (1 <? b_revision b)) (compared (fun p => p =? b_revision b - 1) (b_previous_revision b)))
            (compared digest_check (b_previous_digest b))).

(** [fk_waw_project_bindings_predecessor]: a key with a NULL refers to no row. *)
Definition predecessor_exists (db : Database) (b : ProjectBindingRecord) : bool :=
  match b_previous_revision b, b_previous_digest b with
  | Some r, Some d => existsb (fun x => str_eqb (b_project_id x) (b_project_id b) && (b_revision x =? r)
                                        && bool_decide (b_digest x = Some d)) (bindings db)
  | _, _ => true
  end.

Definition relative_key_check (s : pystr) : bool :=
  in_range 1 (blen (c_text s)) 80 && trimmed s && negb (str_in s [$"."; $".."]) && negb (existsb (Z.eqb 47) s)
  && negb (existsb (Z.eqb 92) s).

Definition binding_ok (db : Database) (b : ProjectBindingRecord) : bool :=
  id_check "prj" (b_project_id b) && relative_key_check (b_relative_key b) && (1 <=? b_project_revision b)
  && (1 <=? b_revision b) && holds (compared digest_check (b_digest b)) && holds (predecessor_check b)
  && id_check "wri" (b_host_id b) && (1 <=? b_host_revision b)
  && (negb (bool_decide (b_status b ∈ [CURRENT; SUPERSEDED])) || present (b_digest b))
  && present (get (b_project_id b) (projects db)) && predecessor_exists db b && host_identity db (b_host_id b) (b_host_revision b).

Definition stop_ok (db : Database) (o : WorkspaceStopOperationRecord) : bool :=
  id_check "wso" (o_id o) && id_check "aws" (o_workspace_id o) && (1 <=? o_generation o) && (1 <=? o_binding_revision o)
  && digest_check (o_binding_digest o) && holds (compared (fun f => blen (c_text f) <=? 64) (o_failure_code o))
  && present (get (o_workspace_id o) (sessions db)) && host_identity db (o_host_id o) (o_host_revision o).

(** The partial unique indexes of the bindings *)
Definition open_attempt (b : ProjectBindingRecord) : bool :=
  bool_decide (b_status b = PENDING) || (bool_decide (b_status b = RECONCILIATION_REQUIRED) && absent (b_digest b)).
Definition head (b : ProjectBindingRecord) : bool :=
  bool_decide (b_status b = CURRENT) || (bool_decide (b_status b = RECONCILIATION_REQUIRED) && present (b_digest b)).

Definition indexed {R X} (p : R -> bool) (f : R -> X) (r : R) : option X := if p r then Some (f r) else None.

Definition constraints (db : Database) : bool :=
  forallb host_ok (hosts db) && forallb (session_ok db) (sessions db) && forallb (binding_ok db) (bindings db)
  && forallb (stop_ok db) (stops db)
  && unique_index (fun p => Some (p_id p)) (projects db)
  && unique_index (fun h => Some (h_id h)) (hosts db)
  && unique_index (fun s => Some (s_id s)) (sessions db)
  && unique_index (fun s => Some (s_project_id s, s_agent_type s)) (sessions db)
  && unique_index (fun s => Some (s_runtime_session_name s)) (sessions db)
  && unique_index (fun b => Some (b_project_id b, b_revision b)) (bindings db)
  && unique_index (indexed open_attempt b_project_id) (bindings db)
  && unique_index (indexed head b_project_id) (bindings db)
  && unique_index (fun o => Some (o_id o)) (stops db)
  && unique_index (fun o => Some (o_workspace_id o, o_generation o, o_binding_revision o)) (stops db).

Definition integrity_error : exn := err IntegrityError "constraint failed".

(** [session.flush()] after the statement that gives [db] *)
Definition flush (db : Database) : result Database := if constraints db then Ok db else Raise integrity_error.

(** Binding a parameter of a statement *)
Definition MAX_SQLITE : Z := 2 ^ 63 - 1.
Definition bind_int (z : Z) : result unit :=
  raise_if (negb (in_range (- 2 ^ 63) z MAX_SQLITE)) (err PyOverflowError "Python int too large to convert to SQLite INTEGER").
Definition bind_text (s : pystr) : result unit :=
  raise_if (absent (utf8_encode s)) (err UnicodeEncodeError "surrogates not allowed").

(** [revision + 1]: in SQL the sum of an integer that has no successor is the
    real number 2^63, which absorbs further ones; in Python the integer has a successor
    that no parameter can carry, and the real one is kept. *)
Definition sql_increment (z : Z) : Z := if z <? 2 ^ 63 then z + 1 else z.
Definition increment (z : Z) : result Z :=
  if z =? MAX_SQLITE then rmap (fun _ => z) (bind_int (z + 1)) else Ok (sql_increment z).

(** [database.transaction]: the database after the block, and its result *)
Definition transaction {A} (body : Database -> result (A * Database)) (db : Database) : Database * result A :=
  match body db with
  | Ok (a, db') => (db', Ok a)
  | Raise e => (db, Raise e)
  end.

(** ** Lemmas *)

Section TableLemmas.
Context {R K : Type} `{Keyed R K} `{EqDecision K}.
Implicit Types (t : list R) (r : R) (k : K).

Lemma get_elem k t r : get k t = Some r -> r ∈ t /\ key_of r = k.
Proof. intros [Hi Hp]%find_some. bool_to_prop. split; [by apply list_elem_of_In | done]. Qed.

Lemma get_none k t r : get k t = None -> r ∈ t -> key_of r <> k.
Proof. intros Hn Hr%list_elem_of_In. pose proof (find_none _ _ Hn r Hr) as E. cbn beta in E. by bool_to_prop. Qed.

Lemma get_present k t : present (get k t) = true <-> exists r, r ∈ t /\ key_of r = k.
Proof.
  destruct (get k t) as [r |] eqn:E; cbn; split; try done.
  - intros _. exists r. by apply get_elem.
  - intros (r & Hr & Hk). by destruct (get_none k t r E Hr).
Qed.

Lemma put_elem r t x : x ∈ put r t -> x = r \/ x ∈ t /\ key_of x <> key_of r.
Proof. unfold put. intros (y & -> & Hy)%list_elem_of_fmap. case_bool_decide; [by left | by right]. Qed.

Lemma elem_put r t x : x ∈ t -> (if bool_decide (key_of x = key_of r) then r else x) ∈ put r t.
Proof. intros Hx. unfold put. apply list_elem_of_fmap. by exists x. Qed.

Lemma put_keys r t : map key_of (put r t) = map key_of t.
Proof. unfold put. rewrite map_map. apply map_ext. intros x. by case_bool_decide. Qed.

Lemma get_map k (f : R -> R) t :
  (forall r, r ∈ t -> key_of (f r) = key_of r) -> get k (map f t) = option_map f (get k t).
Proof.
  intros Hf. unfold get. induction t as [|x t IH]; [done |]. cbn [map find].
  rewrite (Hf x) by set_solver. case_bool_decide; [done |]. apply IH. intros r Hr. apply Hf. set_solver.
Qed.

Lemma get_put k (r : R) t :
  get k (put r t) = if bool_decide (key_of r = k) then option_map (fun _ => r) (get k t) else get k t.
Proof.
  unfold put. rewrite get_map by (intros x _; by case_bool_decide). destruct (get k t) as [x |] eqn:E; [| by case_bool_decide].
  apply get_elem in E as [_ <-]. cbn. repeat case_bool_decide; congruence.
Qed.

Lemma update_where_elem (p : R -> bool) (f : R -> R) t x : x ∈ update_where p f t -> exists y, y ∈ t /\ x = if p y then f y else y.
Proof. unfold update_where. intros (y & -> & Hy)%list_elem_of_fmap. eauto. Qed.

Lemma update_where_none (p : R -> bool) (f : R -> R) t : (forall x, x ∈ t -> p x = false) -> update_where p f t = t.
Proof.
  unfold update_where. induction t as [|x t IH]; [done |]. intros Hn. cbn. rewrite (Hn x) by set_solver. f_equal. apply IH. set_solver.
Qed.

Lemma unique_inj {X} `{EqDecision X} (f : R -> option X) t (a b : R) (x : X) :
  unique_index f t = true -> a ∈ t -> b ∈ t -> f a = Some x -> f b = Some x -> a = b.
Proof.
  unfold unique_index. intros Hn%bool_decide_eq_true_1. revert Hn. induction t as [|r t IH]; [set_solver |]. cbn [omap list_omap].
  intros Hn Ha Hb Ea Eb.
  assert (Hin : forall c, c ∈ t -> f c = Some x -> x ∈ omap f t) by (intros c Hc Ec; apply list_elem_of_omap; eauto).
  apply elem_of_cons in Ha, Hb. destruct Ha as [-> | Ha], Hb as [-> | Hb]; [done | | |].
  - rewrite Ea in Hn. apply NoDup_cons in Hn as [Hx _]. by destruct Hx; eapply Hin.
  - rewrite Eb in Hn. apply NoDup_cons in Hn as [Hx _]. by destruct Hx; eapply Hin.
  - apply IH; try done. by destruct (f r); [apply NoDup_cons in Hn as [_ Hn] |].
Qed.

(** A map that keeps the indexed value of a row, or takes the row out of the index *)
Lemma unique_map {X} `{EqDecision X} (f : R -> option X) (g : R -> R) t :
  (forall r, r ∈ t -> f (g r) = f r \/ f (g r) = None) -> unique_index f t = true -> unique_index f (map g t) = true.
Proof.
  unfold unique_index. rewrite !bool_decide_eq_true. induction t as [|r t IH]; [done |]. cbn [map omap list_omap]. intros Hg Hn.
  assert (Ht : NoDup (omap f t)) by (destruct (f r); [by apply NoDup_cons in Hn as [_ Hn] | done]).
  assert (IH' : NoDup (omap f (map g t))) by (apply IH; [intros; apply Hg; set_solver | done]).
  destruct (Hg r ltac:(set_solver)) as [-> | ->]; [| done]. destruct (f r) as [x |]; [| done].
  apply NoDup_cons in Hn as [Hx _]. apply NoDup_cons. split; [| done].
  intros (y & Hy & Ey)%list_elem_of_omap. apply list_elem_of_fmap in Hy as (z & -> & Hz).
  destruct (Hg z ltac:(set_solver)) as [E | E]; [| congruence]. apply Hx, list_elem_of_omap. exists z. split; [done | congruence].
Qed.

Lemma unique_intro {X} `{EqDecision X} (f : R -> option X) t :
  unique_index (fun x => Some (key_of x)) t = true ->
  (forall a b x, a ∈ t -> b ∈ t -> f a = Some x -> f b = Some x -> a = b) -> unique_index f t = true.
Proof.
  unfold unique_index. rewrite !bool_decide_eq_true. induction t as [|r t IH]; [intros _ _; apply NoDup_nil_2 |]. cbn [omap list_omap]. intros [Hk Hn]%NoDup_cons Hf.
  assert (IH' : NoDup (omap f t)) by (apply IH; [done | intros a b x Ha Hb; apply Hf; set_solver]).
  destruct (f r) as [x |] eqn:E; [| done]. apply NoDup_cons. split; [| done]. intros (y & Hy & Ey)%list_elem_of_omap.
  assert (r = y) as -> by (apply (Hf r y x); try done; set_solver). apply Hk, list_elem_of_omap. eauto.
Qed.

(** The row of a key, where keys are unique *)
Lemma get_unique t r : unique_index (fun x => Some (key_of x)) t = true -> r ∈ t -> get (key_of r) t = Some r.
Proof.
  intros Hu Hr. destruct (get (key_of r) t) as [x |] eqn:E.
  - destruct (get_elem _ _ _ E) as [Hx Hk]. f_equal. apply (unique_inj (fun x => Some (key_of x)) t x r (key_of r) Hu Hx Hr); [by rewrite Hk | done].
  - by destruct (get_none _ _ r E Hr).
Qed.
End TableLemmas.

Lemma flush_ok (db db' : Database) : flush db = Ok db' <-> db' = db /\ constraints db = true.
Proof. unfold flush. destruct (constraints db); split; intros E; inv_ok; try done; by destruct E as [-> ?]. Qed.

Lemma constraints_split (db : Database) :
  constraints db = true <->
  (forallb host_ok (hosts db) = true /\ forallb (session_ok db) (sessions db) = true /\ forallb (binding_ok db) (bindings db) = true
   /\ forallb (stop_ok db) (stops db) = true)
  /\ (unique_index (fun p => Some (p_id p)) (projects db) = true /\ unique_index (fun h => Some (h_id h)) (hosts db) = true
      /\ unique_index (fun s => Some (s_id s)) (sessions db) = true
      /\ unique_index (fun s => Some (s_project_id s, s_agent_type s)) (sessions db) = true
      /\ unique_index (fun s => Some (s_runtime_session_name s)) (sessions db) = true)
  /\ (unique_index (fun b => Some (b_project_id b, b_revision b)) (bindings db) = true
      /\ unique_index (indexed open_attempt b_project_id) (bindings db) = true
      /\ unique_index (indexed head b_project_id) (bindings db) = true)
  /\ (unique_index (fun o => Some (o_id o)) (stops db) = true
      /\ unique_index (fun o => Some (o_workspace_id o, o_generation o, o_binding_revision o)) (stops db) = true).
Proof. unfold constraints. rewrite !andb_true_iff. tauto. Qed.

Lemma forallb_elem {A} (p : A -> bool) (l : list A) : forallb p l = true <-> forall x, x ∈ l -> p x = true.
Proof. rewrite forallb_forall. split; intros F x Hx; apply F; by apply list_elem_of_In. Qed.

(** The constraints of a database in which one table was written *)
Lemma constraints_bindings (db : Database) (t : list ProjectBindingRecord) :
  constraints db = true -> (forall b, b ∈ t -> binding_ok (set_bindings db t) b = true) ->
  unique_index (fun b => Some (b_project_id b, b_revision b)) t = true -> unique_index (indexed open_attempt b_project_id) t = true ->
  unique_index (indexed head b_project_id) t = true -> constraints (set_bindings db t) = true.
Proof. rewrite !constraints_split. intros ((? & ? & ? & ?) & ? & ? & ?) Hb%forallb_elem K O Hd. repeat split; try tauto. Qed.

Lemma constraints_sessions (db : Database) (t : list AgentWorkspaceSessionRecord) :
  constraints db = true -> (forall s, s ∈ t -> session_ok (set_sessions db t) s = true) ->
  unique_index (fun s => Some (s_id s)) t = true -> unique_index (fun s => Some (s_project_id s, s_agent_type s)) t = true ->
  unique_index (fun s => Some (s_runtime_session_name s)) t = true -> (forall s, s ∈ sessions db -> exists s', s' ∈ t /\ s_id s' = s_id s) ->
  constraints (set_sessions db t) = true.
Proof.
  rewrite !constraints_split. intros ((? & ? & ? & Ho) & ? & ? & ?) Hs%forallb_elem U1 U2 U3 Hk.
  repeat split; try tauto. apply forallb_elem. intros o Hin. rewrite forallb_elem in Ho. specialize (Ho o Hin).
  unfold stop_ok in *. rewrite !andb_true_iff in *. destruct_and!. split_and!; try done.
  match goal with F : present (get _ _) = true |- _ => apply get_present in F as (s & Hs1 & Hs2) end.
  destruct (Hk s Hs1) as (s' & Hs' & E). apply get_present. exists s'. split; [done |]. unfold key_of, session_key in *. congruence.
Qed.

Lemma transaction_ok {A} (body : Database -> result (A * Database)) (db db' : Database) (r : result A) :
  transaction body db = (db', r) -> (exists a, r = Ok a /\ body db = Ok (a, db')) \/ (exists e, r = Raise e /\ db' = db /\ body db = Raise e).
Proof. unfold transaction. destruct (body db) as [[a d] | e]; intros [= <- <-]; eauto 6. Qed.
