(* ===== verification/Bindings.v ===== *)
(** * The Project binding ledger ([agentbox_core/waw_project_bindings.py])

    [ProjectBindingService] over the tables of [Tables.v].  Each operation is
    the body of its transaction; [now] is the instant [transaction_now] gives.
    A row read by a query on a partial unique index is the one row the index
    allows.  The theorems: the rows of a Project form one gapless chain of
    attested bindings with at most one attempt after it, an attested binding
    never changes, and a retry observes what the first call wrote. *)

From stdpp Require Import sorting.
From S2P Require Import Prelude PyVal WawDomain Unicode Control Tables.

Local Open Scope Z_scope.

Definition binding_conflict (text : string) : exn := err ProjectBindingConflict text.
Definition binding_not_ready : exn := err ProjectBindingNotReady "project_id".
Definition binding_not_found : exn := err ProjectBindingNotFound "project_id".

Definition MAX_REPLAY_BINDINGS : Z := 256.

(** ** Arguments *)

(** [_positive_integer] *)
Definition positive_integer (v : pyval) (field : string) : result Z :=
  match v with
  | PInt z => if in_range 1 z MAX_SQLITE then Ok z else Raise (binding_conflict (field ++ " is invalid"))
  | _ => Raise (binding_conflict (field ++ " is invalid"))
  end.

(** [_identifier] and [_digest] *)
Definition identifier (v : pyval) (field prefix : string) : result pystr :=
  match v with
  | PStr s => if match_id (ustr prefix) s then Ok s else Raise (binding_conflict (field ++ " is invalid"))
  | _ => Raise (binding_conflict (field ++ " is invalid"))
  end.
Definition digest (v : pyval) (field : string) : result pystr :=
  match v with
  | PStr s => if match_hex 64 s then Ok s else Raise (binding_conflict (field ++ " is invalid"))
  | _ => Raise (binding_conflict (field ++ " is invalid"))
  end.

(** [None if v is None else check(v)] *)
Definition nullable {A} (check : pyval -> result A) (v : pyval) : result (option A) :=
  match v with
  | PNone => Ok None
  | _ => rmap Some (check v)
  end.

(** ** Queries *)

(** [select(ProjectBindingRecord).where(project_id == p, ...)] *)
Definition of_project (p : pystr) (b : ProjectBindingRecord) : bool := str_eqb (b_project_id b) p.
Definition find_open (db : Database) (p : pystr) : option ProjectBindingRecord :=
  find (fun b => of_project p b && absent (b_digest b) && bool_decide (b_status b ∈ [PENDING; RECONCILIATION_REQUIRED]))
    (bindings db).
Definition find_head (db : Database) (p : pystr) : option ProjectBindingRecord :=
  find (fun b => of_project p b && present (b_digest b) && bool_decide (b_status b ∈ [CURRENT; RECONCILIATION_REQUIRED]))
    (bindings db).

Definition found (r : option ProjectBindingRecord) : result ProjectBindingRecord :=
  match r with Some b => Ok b | None => Raise binding_not_found end.

(** [get], [get_head], [get_open_attempt] *)
Definition get_binding (project_id binding_revision : pyval) (db : Database) : result (ProjectBindingRecord * Database) :=
  let! p := identifier project_id "project_id" "prj" in
  let! r := positive_integer binding_revision "binding_revision" in
  let! b := found (get (p, r) (bindings db)) in
  Ok (b, db).
Definition get_head (project_id : pyval) (db : Database) : result (ProjectBindingRecord * Database) :=
  let! p := identifier project_id "project_id" "prj" in
  let! b := found (find_head db p) in
  Ok (b, db).
Definition get_open_attempt (project_id : pyval) (db : Database) : result (ProjectBindingRecord * Database) :=
  let! p := identifier project_id "project_id" "prj" in
  let! b := found (find_open db p) in
  Ok (b, db).

(** ** Enumeration *)

(** [ORDER BY project_id, binding_revision] *)
Definition row_le (a b : ProjectBindingRecord) : Prop :=
  (if str_eqb (b_project_id a) (b_project_id b) then b_revision a <=? b_revision b
   else str_leb (b_project_id a) (b_project_id b)) = true.
#[export] Instance row_le_dec (a b : ProjectBindingRecord) : Decision (row_le a b).
Proof. unfold row_le. apply _. Defined.
Definition key_le (a b : pystr) : Prop := str_leb a b = true.
#[export] Instance key_le_dec (a b : pystr) : Decision (key_le a b).
Proof. unfold key_le. apply _. Defined.

Definition enumeration_limit (limit : pyval) (text : string) : result Z :=
  match limit with
  | PInt z => if in_range 1 z MAX_REPLAY_BINDINGS then Ok z else Raise (binding_conflict text)
  | _ => Raise (binding_conflict text)
  end.

Definition list_current (limit : pyval) (db : Database) : result (list ProjectBindingRecord * Database) :=
  let! n := enumeration_limit limit "binding enumeration limit is invalid" in
  let rows := slice_to (n + 1) (merge_sort row_le (filter (fun b => b_status b = CURRENT) (bindings db))) in
  run! raise_if (n <? blen rows) (binding_conflict "binding enumeration limit exceeded") in
  Ok (rows, db).

(** [by_project.setdefault(row.project_id, []).append(row)] *)
Fixpoint add_candidate (b : ProjectBindingRecord) (groups : list (pystr * list ProjectBindingRecord))
  : list (pystr * list ProjectBindingRecord) :=
  match groups with
  | [] => [(b_project_id b, [b])]
  | (p, l) :: rest => if str_eqb p (b_project_id b) then (p, l ++ [b]) :: rest else (p, l) :: add_candidate b rest
  end.
Definition by_project (rows : list ProjectBindingRecord) : list (pystr * list ProjectBindingRecord) :=
  fold_left (fun g b => add_candidate b g) rows [].
Definition candidates_of (p : pystr) (groups : list (pystr * list ProjectBindingRecord)) : list ProjectBindingRecord :=
  match find (fun g => str_eqb (fst g) p) groups with Some (_, l) => l | None => [] end.

Definition inventory_mismatch : exn := binding_conflict "BINDING_INVENTORY_MISMATCH".

(** [_validate_replay_candidate] *)
Definition validate_replay_candidate (db : Database) (b : ProjectBindingRecord) : result unit :=
  run! match get (b_project_id b) (projects db) with
       | None => Raise binding_not_ready
       | Some p => raise_if (present (p_archived_at p) || negb (str_eqb (p_state p) $"ready")
                             || negb (p_revision p =? b_project_revision b)
                             || negb (str_eqb (p_relative_path p) (b_relative_key b))) binding_not_ready
       end in
  match get (b_host_id b) (hosts db) with
  | None => Raise inventory_mismatch
  | Some h => raise_if (negb (h_revision h =? b_host_revision b)) inventory_mismatch
  end.

(** [_validate_replay_predecessor] *)
Definition validate_replay_predecessor (db : Database) (b : ProjectBindingRecord) : result unit :=
  if b_revision b =? 1 then
    raise_if (present (b_previous_revision b) || present (b_previous_digest b)) inventory_mismatch
  else
    run! raise_if (negb (bool_decide (b_previous_revision b = Some (b_revision b - 1))) || absent (b_previous_digest b))
           inventory_mismatch in
    match get (b_project_id b, b_revision b - 1) (bindings db) with
    | None => Raise inventory_mismatch
    | Some q =>
        run! raise_if (negb (bool_decide (b_digest q = b_previous_digest b))) inventory_mismatch in
        raise_if (negb (bool_decide (b_status q = if absent (b_digest b) then CURRENT else SUPERSEDED))) inventory_mismatch
    end.

(** One round of the loop over the sorted Project identifiers *)
Definition select_replay (db : Database) (candidates : list ProjectBindingRecord) : result ProjectBindingRecord :=
  run! raise_if (existsb (fun b => bool_decide (b_status b = RECONCILIATION_REQUIRED) && present (b_digest b)) candidates)
         inventory_mismatch in
  let attempt := find (fun b => absent (b_digest b) && bool_decide (b_status b ∈ [PENDING; RECONCILIATION_REQUIRED])) candidates in
  let current := find (fun b => bool_decide (b_status b = CURRENT)) candidates in
  match (match attempt with Some b => Some b | None => current end) with
  | None => Raise inventory_mismatch
  | Some b =>
      run! validate_replay_candidate db b in
      run! validate_replay_predecessor db b in
      Ok b
  end.

Fixpoint replay_loop (db : Database) (groups : list (pystr * list ProjectBindingRecord)) (ids : list pystr)
  : result (list ProjectBindingRecord) :=
  match ids with
  | [] => Ok []
  | p :: rest =>
      let! b := select_replay db (candidates_of p groups) in
      let! plan := replay_loop db groups rest in
      Ok (b :: plan)
  end.

Definition list_replay_plan (limit : pyval) (db : Database) : result (list ProjectBindingRecord * Database) :=
  let! n := enumeration_limit limit "binding replay limit is invalid" in
  let rows := slice_to (2 * n + 1)
                (merge_sort row_le (filter (fun b => b_status b ∈ [PENDING; CURRENT; RECONCILIATION_REQUIRED]) (bindings db))) in
  let groups := by_project rows in
  run! raise_if ((2 * n <? blen rows) || (n <? blen groups)) (binding_conflict "BINDING_REPLAY_INCOMPLETE") in
  let! plan := replay_loop db groups (merge_sort key_le (map fst groups)) in
  Ok (plan, db).

(** ** Writes *)

Section Service.
Context `{Unicode}.

Definition waw_key (path : pystr) : result pystr :=
  except_as (validate_relative_key (PStr path)) [WAWControlError]
    (err ProjectBindingNotReady "Project relative key is not WAW-compatible").

(** The head the caller observed *)
Definition expected_head (revision digest_ : pyval) : result (option (Z * pystr)) :=
  match revision, digest_ with
  | PNone, PNone => Ok None
  | PNone, _ | _, PNone => Raise (binding_conflict "binding predecessor is incomplete")
  | _, _ =>
      let! r := positive_integer revision "expected_head_revision" in
      let! d := digest digest_ "expected_head_digest" in
      Ok (Some (r, d))
  end.

(** What [observed != expected] compares *)
Definition attempt_facts (b : ProjectBindingRecord) : pystr * Z * option Z * option pystr * pystr * Z :=
  (b_relative_key b, b_project_revision b, b_previous_revision b, b_previous_digest b, b_host_id b, b_host_revision b).

(** The checks against the head that give the revision of the next attempt *)
Definition next_revision (db : Database) (project : pystr) (key : pystr) (project_revision : Z) (host : pystr)
    (host_revision : Z) (expected : option (Z * pystr)) : result Z :=
  match find_head db project with
  | None => run! raise_if (present expected) (binding_conflict "binding predecessor does not exist") in Ok 1
  | Some h =>
      run! raise_if (negb (bool_decide (option_map fst expected = Some (b_revision h)))
                     || negb (bool_decide (b_digest h = option_map snd expected)))
             (binding_conflict "binding predecessor is stale") in
      run! raise_if (negb (str_eqb key (b_relative_key h)) && (project_revision =? b_project_revision h))
             (binding_conflict "Project identity changed without a revision advance") in
      run! raise_if (bool_decide (b_status h = CURRENT) && (project_revision =? b_project_revision h)
                     && str_eqb key (b_relative_key h) && str_eqb host (b_host_id h) && (host_revision =? b_host_revision h))
             (binding_conflict "current binding requires reconciliation before an unchanged advance") in
      run! raise_if (MAX_SQLITE <=? b_revision h) (binding_conflict "binding revision is exhausted") in
      run! raise_if (existsb (fun s => str_eqb (s_project_id s) project && negb (bool_decide (s_state s ∈ [EXITED; STOPPED])))
                       (sessions db))
             (binding_conflict "Project binding cannot advance while a workspace is non-terminal") in
      Ok (b_revision h + 1)
  end.

Definition reserve (project_id expected_project_revision host_installation_id host_installation_revision
    expected_head_revision expected_head_digest : pyval) (now : Z) (db : Database) : result (ProjectBindingRecord * Database) :=
  let! project := identifier project_id "project_id" "prj" in
  let! project_revision := positive_integer expected_project_revision "expected_project_revision" in
  let! host_id := identifier host_installation_id "runtime_host_installation_id" "wri" in
  let! host_revision := positive_integer host_installation_revision "runtime_host_installation_revision" in
  let! expected := expected_head expected_head_revision expected_head_digest in
  let! key := match get project (projects db) with
              | None => Raise binding_not_ready
              | Some p =>
                  run! raise_if (present (p_archived_at p) || negb (str_eqb (p_state p) $"ready")
                                 || negb (p_revision p =? project_revision)) binding_not_ready in
                  waw_key (p_relative_path p)
              end in
  run! match get host_id (hosts db) with
       | None => Raise (binding_conflict "runtime host identity is not current")
       | Some h => raise_if (negb (h_revision h =? host_revision)) (binding_conflict "runtime host identity is not current")
       end in
  match find_open db project with
  | Some b =>
      run! raise_if (negb (bool_decide (attempt_facts b = (key, project_revision, option_map fst expected, option_map snd expected,
                                                           host_id, host_revision))))
             (binding_conflict "another binding attempt is pending") in
      Ok (b, db)
  | None =>
      let! revision := next_revision db project key project_revision host_id host_revision expected in
      let row := mkBinding project revision key project_revision None (option_map fst expected) (option_map snd expected)
                   host_id host_revision PENDING now now in
      let! db' := except_as (flush (set_bindings db (bindings db ++ [row]))) [IntegrityError]
                    (binding_conflict "binding reservation conflicted") in
      Ok (row, db')
  end.

Definition set_status (b : ProjectBindingRecord) (st : BindingStatus) (now : Z) : ProjectBindingRecord :=
  mkBinding (b_project_id b) (b_revision b) (b_relative_key b) (b_project_revision b) (b_digest b) (b_previous_revision b)
    (b_previous_digest b) (b_host_id b) (b_host_revision b) st (b_created_at b) now.
Definition attest (b : ProjectBindingRecord) (d : pystr) (now : Z) : ProjectBindingRecord :=
  mkBinding (b_project_id b) (b_revision b) (b_relative_key b) (b_project_revision b) (Some d) (b_previous_revision b)
    (b_previous_digest b) (b_host_id b) (b_host_revision b) CURRENT (b_created_at b) now.

Definition save (b : ProjectBindingRecord) (db : Database) : result Database := flush (set_bindings db (put b (bindings db))).

(** The checks of [commit] on the Project and the host of the attempt *)
Definition committable (db : Database) (b : ProjectBindingRecord) (project_revision : Z) : result unit :=
  run! match get (b_project_id b) (projects db) with
       | None => Raise binding_not_ready
       | Some p =>
           let! key := waw_key (p_relative_path p) in
           raise_if (present (p_archived_at p) || negb (str_eqb (p_state p) $"ready") || negb (p_revision p =? project_revision)
                     || negb (str_eqb key (b_relative_key b)) || negb (b_project_revision b =? project_revision)) binding_not_ready
       end in
  match get (b_host_id b) (hosts db) with
  | None => Raise (binding_conflict "runtime host identity changed")
  | Some h => raise_if (negb (h_revision h =? b_host_revision b)) (binding_conflict "runtime host identity changed")
  end.

(** The predecessor the commit supersedes *)
Definition superseded_by (db : Database) (b : ProjectBindingRecord) : result (option ProjectBindingRecord) :=
  match b_previous_revision b with
  | Some r =>
      match get (b_project_id b, r) (bindings db) with
      | None => Raise (binding_conflict "binding predecessor changed")
      | Some q =>
          run! raise_if (negb (bool_decide (b_digest q = b_previous_digest b))
                         || negb (bool_decide (b_status q ∈ [CURRENT; RECONCILIATION_REQUIRED])))
                 (binding_conflict "binding predecessor changed") in
          Ok (Some q)
      end
  | None =>
      run! raise_if (present (find_head db (b_project_id b))) (binding_conflict "first binding already has a head") in
      Ok None
  end.

Definition commit (project_id binding_revision expected_project_revision binding_digest : pyval) (now : Z) (db : Database)
  : result (ProjectBindingRecord * Database) :=
  let! project := identifier project_id "project_id" "prj" in
  let! revision := positive_integer binding_revision "binding_revision" in
  let! project_revision := positive_integer expected_project_revision "expected_project_revision" in
  let! d := digest binding_digest "binding_digest" in
  let! b := found (get (project, revision) (bindings db)) in
  if bool_decide (b_status b = CURRENT) then
    run! raise_if (negb (bool_decide (b_digest b = Some d) && (b_project_revision b =? project_revision)))
           (binding_conflict "binding attestation differs from current") in
    Ok (b, db)
  else
    run! raise_if (negb (bool_decide (b_status b ∈ [PENDING; RECONCILIATION_REQUIRED])) || present (b_digest b))
           (binding_conflict "binding attempt is not committable") in
    run! committable db b project_revision in
    let! predecessor := superseded_by db b in
    let! db1 := match predecessor with
                | Some q => save (set_status q SUPERSEDED now) db
                | None => Ok db
                end in
    let row := attest b d now in
    let! db2 := save row db1 in
    Ok (row, db2).

(** [_fence_binding_workspaces] *)
Definition fence_code : pystr := $"BINDING_RECONCILIATION_REQUIRED".
Definition already_fenced (s : AgentWorkspaceSessionRecord) : sbool :=
  sand (Some (bool_decide (s_state s = UNKNOWN) && bool_decide (s_reconciliation_state s = R_RECONCILIATION_REQUIRED)))
       (compared (str_eqb fence_code) (s_failure_code s)).
Definition fence_target (b : ProjectBindingRecord) (s : AgentWorkspaceSessionRecord) : bool :=
  str_eqb (s_project_id s) (b_project_id b) && (s_binding_revision s =? b_revision b)
  && bool_decide (Some (s_binding_digest s) = b_digest b) && negb (bool_decide (s_state s ∈ [EXITED; STOPPED; STOPPING]))
  && bool_decide (already_fenced s = Some false).
Definition fenced_row (now : Z) (s : AgentWorkspaceSessionRecord) : AgentWorkspaceSessionRecord :=
  revise s UNKNOWN R_RECONCILIATION_REQUIRED (s_exit_code s) (Some fence_code) (s_generation s) (s_runtime_marker s)
    (s_executable_fingerprint s) (s_evidence_state s) (s_evidence_generation s) (s_evidence_epoch s)
    (sql_increment (s_revision s)) now now.
Definition fence_binding_workspaces (b : ProjectBindingRecord) (now : Z) (db : Database) : result Database :=
  run! raise_if (existsb (fun s => fence_target b s && (MAX_SQLITE <=? s_revision s)) (sessions db))
         (binding_conflict "workspace revision is exhausted") in
  flush (set_sessions db (update_where (fence_target b) (fenced_row now) (sessions db))).

Definition reconcile_row (d : option pystr) (b : ProjectBindingRecord) (now : Z) (db : Database) : result (ProjectBindingRecord * Database) :=
  run! raise_if (negb (bool_decide (b_digest b = d))) (binding_conflict "binding reconciliation target is stale") in
  if bool_decide (b_status b = RECONCILIATION_REQUIRED) then
    let! db1 := if present (b_digest b) then fence_binding_workspaces b now db else Ok db in
    Ok (b, db1)
  else
    run! raise_if (negb (bool_decide (b_status b ∈ [PENDING; CURRENT]))) (binding_conflict "binding is not reconcilable") in
    let row := set_status b RECONCILIATION_REQUIRED now in
    let! db1 := save row db in
    let! db2 := if present (b_digest b) then fence_binding_workspaces row now db1 else Ok db1 in
    Ok (row, db2).

Definition require_reconciliation (project_id binding_revision expected_binding_digest : pyval) (now : Z) (db : Database)
  : result (ProjectBindingRecord * Database) :=
  let! project := identifier project_id "project_id" "prj" in
  let! revision := positive_integer binding_revision "binding_revision" in
  let! d := nullable (fun v => digest v "expected_binding_digest") expected_binding_digest in
  let! b := found (get (project, revision) (bindings db)) in
  reconcile_row d b now db.
End Service.

(** ** The chain of a Project *)

(** The bindings of one Project, in the order of their revisions, each name the
    digest of the one before; a binding is superseded exactly when the next one is
    attested, and only the last may be without a digest. *)
Record chained (t : list ProjectBindingRecord) : Prop := {
  chained_positive : forall b, b ∈ t -> 1 <= b_revision b;
  chained_first : forall b, b ∈ t -> b_revision b = 1 -> b_previous_revision b = None /\ b_previous_digest b = None;
  chained_link : forall b, b ∈ t -> 1 < b_revision b ->
    exists q, q ∈ t /\ b_project_id q = b_project_id b /\ b_revision q = b_revision b - 1
              /\ b_previous_revision b = Some (b_revision q) /\ b_previous_digest b = b_digest q /\ present (b_digest q) = true;
  chained_superseded : forall b, b ∈ t ->
    b_status b = SUPERSEDED <-> exists q, q ∈ t /\ b_project_id q = b_project_id b /\ b_revision q = b_revision b + 1 /\ present (b_digest q) = true;
  chained_pending : forall b, b ∈ t -> b_status b = PENDING -> b_digest b = None;
  chained_attested : forall b, b ∈ t -> b_status b ∈ [CURRENT; SUPERSEDED] -> present (b_digest b) = true
}.

Abbreviation keyed t := (unique_index (fun b => Some (b_project_id b, b_revision b)) t = true).

(** What one operation may do to the table. *)
Inductive ledger_write (db : Database) (now : Z) : list ProjectBindingRecord -> Prop :=
| wrote_nothing : ledger_write db now (bindings db)
| wrote_attempt (b : ProjectBindingRecord) :
    b_status b = PENDING -> b_digest b = None -> find_open db (b_project_id b) = None ->
    match find_head db (b_project_id b) with
    | None => b_revision b = 1 /\ b_previous_revision b = None /\ b_previous_digest b = None
    | Some h => b_revision b = b_revision h + 1 /\ b_previous_revision b = Some (b_revision h) /\ b_previous_digest b = b_digest h
                /\ forall s, s ∈ sessions db -> s_project_id s = b_project_id b -> s_state s ∈ [EXITED; STOPPED]
    end ->
    ledger_write db now (bindings db ++ [b])
| wrote_commit (b : ProjectBindingRecord) (d : pystr) (predecessor : option ProjectBindingRecord) :
    b ∈ bindings db -> b_digest b = None -> b_status b ∈ [PENDING; RECONCILIATION_REQUIRED] ->
    superseded_by db b = Ok predecessor ->
    ledger_write db now (put (attest b d now)
      (match predecessor with Some q => put (set_status q SUPERSEDED now) (bindings db) | None => bindings db end))
| wrote_status (b : ProjectBindingRecord) :
    b ∈ bindings db -> b_status b ∈ [PENDING; CURRENT] ->
    ledger_write db now (put (set_status b RECONCILIATION_REQUIRED now) (bindings db)).

Lemma find_head_elem (db : Database) (p : pystr) (h : ProjectBindingRecord) :
  find_head db p = Some h ->
  h ∈ bindings db /\ b_project_id h = p /\ present (b_digest h) = true /\ b_status h ∈ [CURRENT; RECONCILIATION_REQUIRED].
Proof.
  intros [Hi Hp]%find_some. bool_to_prop. repeat split; try done; [by apply list_elem_of_In | by apply str_eqb_eq].
Qed.

Lemma find_open_elem (db : Database) (p : pystr) (b : ProjectBindingRecord) :
  find_open db p = Some b ->
  b ∈ bindings db /\ b_project_id b = p /\ b_digest b = None /\ b_status b ∈ [PENDING; RECONCILIATION_REQUIRED].
Proof.
  intros [Hi Hp]%find_some. bool_to_prop. repeat split; try done; [by apply list_elem_of_In | by apply str_eqb_eq |].
  by destruct (b_digest b).
Qed.

Lemma keyed_inj (t : list ProjectBindingRecord) (a b : ProjectBindingRecord) :
  keyed t -> a ∈ t -> b ∈ t -> b_project_id a = b_project_id b -> b_revision a = b_revision b -> a = b.
Proof. intros K Ha Hb Hp Hr. eapply unique_inj; try done. cbn. by rewrite Hp, Hr. Qed.

Lemma get_keyed (t : list ProjectBindingRecord) (b : ProjectBindingRecord) :
  keyed t -> b ∈ t -> get (b_project_id b, b_revision b) t = Some b.
Proof. intros K. apply (get_unique (K := (pystr * Z)%type) t b K). Qed.

(** Rewriting the columns of rows by a map on the table. *)
Lemma put_map_elem (f : ProjectBindingRecord -> ProjectBindingRecord) (t : list ProjectBindingRecord) (x : ProjectBindingRecord) :
  x ∈ map f t <-> exists y, y ∈ t /\ x = f y.
Proof. split; [intros (y & -> & Hy)%list_elem_of_fmap | intros (y & Hy & ->); apply list_elem_of_fmap]; eauto. Qed.

(** A map that keeps the keys and links of rows and the digests that are there keeps the chain, if it
    supersedes the rows whose successor it attests. *)
Lemma chained_map (t : list ProjectBindingRecord) (f : ProjectBindingRecord -> ProjectBindingRecord) :
  chained t ->
  (forall b, b ∈ t -> b_project_id (f b) = b_project_id b /\ b_revision (f b) = b_revision b
     /\ b_previous_revision (f b) = b_previous_revision b /\ b_previous_digest (f b) = b_previous_digest b) ->
  (forall b, b ∈ t -> present (b_digest b) = true -> b_digest (f b) = b_digest b) ->
  (forall b, b ∈ t -> b_status (f b) = SUPERSEDED <->
     exists q, q ∈ t /\ b_project_id q = b_project_id b /\ b_revision q = b_revision b + 1 /\ present (b_digest (f q)) = true) ->
  (forall b, b ∈ t -> b_status (f b) = PENDING -> b_digest (f b) = None) ->
  (forall b, b ∈ t -> b_status (f b) ∈ [CURRENT; SUPERSEDED] -> present (b_digest (f b)) = true) ->
  chained (map f t).
Proof.
  intros C Hk Hd Hs Hp Ha. split.
  - intros ? (y & Hy & ->)%put_map_elem. destruct (Hk y Hy) as (_ & -> & _). by apply (chained_positive t C).
  - intros ? (y & Hy & ->)%put_map_elem. destruct (Hk y Hy) as (_ & -> & -> & ->). by apply (chained_first t C).
  - intros ? (y & Hy & ->)%put_map_elem. destruct (Hk y Hy) as (-> & -> & -> & ->). intros H1.
    destruct (chained_link t C y Hy H1) as (q & Hq & E1 & E2 & E3 & E4 & E5). destruct (Hk q Hq) as (K1 & K2 & _).
    exists (f q). rewrite K1, K2, (Hd q Hq E5). split; [apply put_map_elem; eauto | done].
  - intros ? (y & Hy & ->)%put_map_elem. rewrite (Hs y Hy). destruct (Hk y Hy) as (-> & -> & _). split.
    + intros (q & Hq & E1 & E2 & E3). destruct (Hk q Hq) as (K1 & K2 & _). exists (f q). rewrite K1, K2.
      split; [apply put_map_elem; eauto | done].
    + intros (? & (q & Hq & ->)%put_map_elem & E1 & E2 & E3). destruct (Hk q Hq) as (K1 & K2 & _). rewrite K1 in E1. rewrite K2 in E2. eauto.
  - intros ? (y & Hy & ->)%put_map_elem. by apply Hp.
  - intros ? (y & Hy & ->)%put_map_elem. by apply Ha.
Qed.

Lemma chained_put_status (t : list ProjectBindingRecord) (b : ProjectBindingRecord) (now : Z) :
  keyed t -> chained t -> b ∈ t -> b_status b ∈ [PENDING; CURRENT] -> chained (put (set_status b RECONCILIATION_REQUIRED now) t).
Proof.
  intros K C Hb Hst. unfold put. set (f := fun x : ProjectBindingRecord => if bool_decide _ then _ else x).
  assert (F : forall x, x ∈ t -> (x = b /\ f x = set_status b RECONCILIATION_REQUIRED now) \/ f x = x).
  { intros x Hx. unfold f. case_bool_decide as E; [left | by right]. split; [| done]. unfold key_of, binding_key in E. cbn in E.
    injection E as E1 E2. by apply (keyed_inj t). }
  assert (D : forall x, x ∈ t -> b_digest (f x) = b_digest x) by (intros x Hx; by destruct (F x Hx) as [[-> ->] | ->]).
  apply chained_map; try done.
  - intros x Hx. by destruct (F x Hx) as [[-> ->] | ->].
  - intros x Hx _. by apply D.
  - intros x Hx. transitivity (b_status x = SUPERSEDED).
    { destruct (F x Hx) as [[-> ->] | ->]; [| done]. cbn. split; [done |]. intros E. rewrite E in Hst. set_solver. }
    rewrite (chained_superseded t C x Hx). split; intros (q & Hq & E1 & E2 & E3); exists q; by rewrite D in *.
  - intros x Hx. destruct (F x Hx) as [[-> ->] | ->]; [done | by apply (chained_pending t C)].
  - intros x Hx. destruct (F x Hx) as [[-> ->] | ->]; [cbn; set_solver | by apply (chained_attested t C)].
Qed.

(** A new attempt after the head, or the first one. *)
Lemma chained_snoc (t : list ProjectBindingRecord) (b : ProjectBindingRecord) :
  keyed (t ++ [b]) -> chained t -> b_status b = PENDING -> b_digest b = None ->
  (b_revision b = 1 /\ b_previous_revision b = None /\ b_previous_digest b = None
   \/ exists h, h ∈ t /\ b_project_id h = b_project_id b /\ b_revision b = b_revision h + 1 /\ b_previous_revision b = Some (b_revision h)
             /\ b_previous_digest b = b_digest h /\ present (b_digest h) = true) ->
  chained (t ++ [b]).
Proof.
  intros K C Hst Hd Hnew.
  assert (Hb : b ∈ t ++ [b]) by (apply elem_of_app; right; by apply list_elem_of_singleton).
  assert (Hin : forall x, x ∈ t -> x ∈ t ++ [b]) by (intros; apply elem_of_app; by left).
  assert (Hcase : forall x, x ∈ t ++ [b] -> x = b \/ x ∈ t) by (intros x [? | ->%list_elem_of_singleton]%elem_of_app; auto).
  assert (Hfresh : forall x, x ∈ t -> b_project_id x = b_project_id b -> b_revision x = b_revision b -> x = b).
  { intros x Hx. by apply (keyed_inj (t ++ [b])); auto. }
  assert (Hlast : forall q, q ∈ t ++ [b] -> b_project_id q = b_project_id b -> b_revision q = b_revision b + 1 -> False).
  { intros q [-> | Hq]%Hcase Hp Hr; [lia |]. pose proof (chained_positive t C q Hq).
    destruct (decide (b_revision b < 1)) as [Hlt | Hge].
    - destruct Hnew as [(? & _) | (h & Hh & _ & ? & _)]; [lia |]. pose proof (chained_positive t C h Hh). lia.
    - destruct (chained_link t C q Hq ltac:(lia)) as (x & Hx & E1 & E2 & _ & _ & E5).
      assert (x = b) as -> by (apply Hfresh; [done | congruence | lia]). by rewrite Hd in E5. }
  split.
  - intros x [-> | Hx]%Hcase; [| by apply (chained_positive t C)].
    destruct Hnew as [(? & _) | (h & Hh & _ & ? & _)]; [lia |]. pose proof (chained_positive t C h Hh). lia.
  - intros x [-> | Hx]%Hcase; [| by apply (chained_first t C)].
    destruct Hnew as [(_ & ? & ?) | (h & Hh & _ & ? & _)]; [done |]. pose proof (chained_positive t C h Hh). lia.
  - intros x [-> | Hx]%Hcase Hr.
    + destruct Hnew as [(? & _) | (h & Hh & E1 & E2 & E3 & E4 & E5)]; [lia |]. exists h. repeat split; auto. lia.
    + destruct (chained_link t C x Hx Hr) as (q & Hq & E). exists q. auto.
  - intros x [-> | Hx]%Hcase.
    + rewrite Hst. split; [done |]. intros (q & Hq & E1 & E2 & _). by destruct (Hlast q).
    + rewrite (chained_superseded t C x Hx). split; intros (q & Hq & E); exists q; [by auto |].
      apply Hcase in Hq as [-> | Hq]; [| done]. destruct E as (_ & _ & E). by rewrite Hd in E.
  - intros x [-> | Hx]%Hcase; [done | by apply (chained_pending t C)].
  - intros x [-> | Hx]%Hcase; [rewrite Hst; set_solver | by apply (chained_attested t C)].
Qed.

(** The predecessor columns of a row of a chain *)
Lemma chained_previous (t : list ProjectBindingRecord) (b : ProjectBindingRecord) (r : Z) :
  chained t -> b ∈ t -> b_previous_revision b = Some r -> b_revision b = r + 1 /\ present (b_previous_digest b) = true.
Proof.
  intros C Hb E. pose proof (chained_positive t C b Hb).
  destruct (decide (b_revision b = 1)) as [E1 | E1]; [destruct (chained_first t C b Hb E1); congruence |].
  destruct (chained_link t C b Hb ltac:(lia)) as (y & Hy & _ & E2 & E3 & -> & E4). rewrite E in E3. injection E3 as ->. split; [lia | done].
Qed.

Lemma superseded_by_ok (db : Database) (b : ProjectBindingRecord) (predecessor : option ProjectBindingRecord) :
  superseded_by db b = Ok predecessor ->
  match predecessor with
  | Some q => q ∈ bindings db /\ b_project_id q = b_project_id b /\ b_previous_revision b = Some (b_revision q)
              /\ b_digest q = b_previous_digest b /\ b_status q ∈ [CURRENT; RECONCILIATION_REQUIRED]
  | None => b_previous_revision b = None /\ find_head db (b_project_id b) = None
  end.
Proof.
  unfold superseded_by. destruct (b_previous_revision b) as [r |].
  - destruct (get _ _) as [q |] eqn:E; [| done]. apply get_elem in E as [Hq [= E1 E2]]. intros Hok. inv_ok. bool_to_prop. repeat split; done || congruence.
  - intros Hok. inv_ok. by destruct (find_head db (b_project_id b)).
Qed.

(** The two updates of a commit as one map *)
Definition committed (b : ProjectBindingRecord) (d : pystr) (predecessor : option ProjectBindingRecord) (now : Z)
    (x : ProjectBindingRecord) : ProjectBindingRecord :=
  if bool_decide (key_of (K := (pystr * Z)%type) x = key_of b) then attest b d now
  else match predecessor with
       | Some q => if bool_decide (key_of (K := (pystr * Z)%type) x = key_of q) then set_status q SUPERSEDED now else x
       | None => x
       end.

Lemma commit_map (t : list ProjectBindingRecord) (b : ProjectBindingRecord) (d : pystr) (predecessor : option ProjectBindingRecord) (now : Z) :
  match predecessor with Some q => b_revision q <> b_revision b | None => True end ->
  put (attest b d now) (match predecessor with Some q => put (set_status q SUPERSEDED now) t | None => t end)
  = map (committed b d predecessor now) t.
Proof.
  intros Hne. destruct predecessor as [q |]; [| done]. unfold put. rewrite map_map. apply map_ext. intros x. unfold committed.
  unfold key_of, binding_key. cbn. repeat case_bool_decide; cbn in *; congruence.
Qed.

Lemma chained_commit (db : Database) (b : ProjectBindingRecord) (d : pystr) (predecessor : option ProjectBindingRecord) (now : Z) :
  keyed (bindings db) -> chained (bindings db) -> b ∈ bindings db -> b_digest b = None -> b_status b ∈ [PENDING; RECONCILIATION_REQUIRED] ->
  superseded_by db b = Ok predecessor -> chained (map (committed b d predecessor now) (bindings db)).
Proof.
  intros K C Hb Hd Hst Hs. set (t := bindings db) in *. apply superseded_by_ok in Hs. set (f := committed b d predecessor now).
  assert (F : forall x, x ∈ t -> x = b /\ f x = attest b d now
             \/ x <> b /\ (f x = x /\ predecessor <> Some x \/ predecessor = Some x /\ f x = set_status x SUPERSEDED now)).
  { intros x Hx. unfold f, committed, key_of, binding_key. case_bool_decide as E.
    - left. injection E as E1 E2. split; [by apply (keyed_inj t) | done].
    - right. split; [by intros -> |]. destruct predecessor as [q |]; [| by left]. destruct Hs as (Hq & _).
      case_bool_decide as E'; [right | left; split; [done | by intros [= ->]]].
      injection E' as E1 E2. assert (x = q) as -> by by apply (keyed_inj t). done. }
  assert (Hfb : f b = attest b d now) by (destruct (F b Hb) as [[_ ?] | [? _]]; done).
  assert (D : forall x, x ∈ t -> present (b_digest x) = true -> b_digest (f x) = b_digest x).
  { intros x Hx Hp. destruct (F x Hx) as [[-> _] | [_ [[-> _] | [_ ->]]]]; [by rewrite Hd in Hp | done | done]. }
  assert (P : forall x, x ∈ t -> present (b_digest (f x)) = true -> x = b \/ present (b_digest x) = true).
  { intros x Hx. destruct (F x Hx) as [[-> _] | [_ [[-> _] | [_ ->]]]]; auto. }
  apply chained_map; try done.
  - intros x Hx. by destruct (F x Hx) as [[-> ->] | [_ [[-> _] | [_ ->]]]].
  - intros x Hx. pose proof (chained_superseded t C x Hx) as Hsup. destruct (F x Hx) as [[-> ->] | [Hne [[-> Hnp] | [Hp ->]]]].
    + cbn. split; [done |]. intros (q & Hq & E1 & E2 & E3). pose proof (chained_positive t C b Hb).
      destruct (chained_link t C q Hq ltac:(lia)) as (y & Hy & E4 & E5 & _ & _ & E6).
      assert (y = b) as -> by (apply (keyed_inj t); try done; [congruence | lia]). by rewrite Hd in E6.
    + rewrite Hsup. split; intros (q & Hq & E1 & E2 & E3); exists q; repeat split; try done; [by rewrite D |].
      destruct (P q Hq E3) as [-> | ?]; [exfalso | done]. pose proof (chained_positive t C x Hx).
      destruct (chained_link t C b Hb ltac:(lia)) as (y & Hy & E4 & E5 & E6 & _ & _).
      assert (y = x) as -> by (apply (keyed_inj t); try done; [congruence | lia]).
      destruct predecessor as [q |]; [| by destruct Hs; congruence]. destruct Hs as (Hq' & E7 & E8 & _).
      apply Hnp. f_equal. apply (keyed_inj t); try done; congruence.
    + cbn. split; [intros _ | done]. subst predecessor. destruct Hs as (_ & E1 & E2 & _).
      exists b. rewrite Hfb. cbn. repeat split; try done. by apply (chained_previous t b).
  - intros x Hx. destruct (F x Hx) as [[-> ->] | [_ [[-> _] | [_ ->]]]]; try done. by apply (chained_pending t C).
  - intros x Hx. destruct (F x Hx) as [[-> ->] | [_ [[-> _] | [Hp ->]]]]; cbn; [done | by apply (chained_attested t C) |].
    intros _. subst predecessor. destruct Hs as (_ & _ & E2 & -> & _). by apply (chained_previous t b (b_revision x)).
Qed.

(** ** What the operations write *)

Lemma save_ok (b : ProjectBindingRecord) (db db' : Database) :
  save b db = Ok db' -> db' = set_bindings db (put b (bindings db)) /\ constraints db' = true.
Proof. unfold save. intros [-> ?]%flush_ok. done. Qed.

Lemma found_ok (o : option ProjectBindingRecord) (b : ProjectBindingRecord) : found o = Ok b -> o = Some b.
Proof. destruct o; cbn; intros E; inv_ok; done. Qed.

Lemma get_binding_elem (db : Database) (p : pystr) (r : Z) (b : ProjectBindingRecord) :
  found (get (p, r) (bindings db)) = Ok b -> b ∈ bindings db /\ b_project_id b = p /\ b_revision b = r.
Proof. intros E%found_ok. apply get_elem in E as [Hb [= E1 E2]]. done. Qed.

Section Writes.
Context `{Unicode}.

Lemma next_revision_ok (db : Database) (p key : pystr) (pr : Z) (host : pystr) (hr : Z) (expected : option (Z * pystr)) (r : Z) :
  next_revision db p key pr host hr expected = Ok r ->
  match find_head db p with
  | None => r = 1 /\ expected = None
  | Some h => r = b_revision h + 1 /\ option_map fst expected = Some (b_revision h) /\ option_map snd expected = b_digest h
              /\ forall s, s ∈ sessions db -> s_project_id s = p -> s_state s ∈ [EXITED; STOPPED]
  end.
Proof.
  unfold next_revision. destruct (find_head db p) as [h |]; intros E; inv_ok.
  - bool_to_prop. repeat split; try done. intros s Hs%list_elem_of_In Hp.
    match goal with G : existsb _ (sessions db) = false |- _ => rename G into Hl end.
    destruct (decide (s_state s ∈ [EXITED; STOPPED])) as [? | Hn]; [done | exfalso].
    apply not_true_iff_false in Hl. apply Hl, existsb_exists. exists s. split; [done |].
    rewrite Hp, str_eqb_refl. cbn [andb]. by rewrite bool_decide_eq_false_2.
  - by destruct expected.
Qed.

Lemma reserve_writes (a1 a2 a3 a4 a5 a6 : pyval) (now : Z) (db db' : Database) (b : ProjectBindingRecord) :
  constraints db = true -> reserve a1 a2 a3 a4 a5 a6 now db = Ok (b, db') ->
  db' = set_bindings db (bindings db') /\ constraints db' = true /\ ledger_write db now (bindings db').
Proof.
  intros Hc. unfold reserve. intros E.
  repeat match type of E with rbind _ _ = _ => let H := fresh "E" in apply rbind_ok in E as (? & H & E) end.
  destruct (find_open db x) as [o |] eqn:Ho; inv_ok.
  - injection E as -> ->. split; [by destruct db' | split; [done | constructor]].
  - injection E as <- <-. match goal with F : except_as _ _ _ = Ok _ |- _ => apply except_as_ok, flush_ok in F as [-> Hc'] end.
    split; [done | split; [done |]]. cbn [bindings set_bindings]. apply wrote_attempt; try done. cbn [b_project_id].
    match goal with F : next_revision _ _ _ _ _ _ _ = Ok _ |- _ => apply next_revision_ok in F; rename F into N end.
    destruct (find_head db x) as [h |]; cbn; [done |]. by destruct N as [-> ->].
Qed.

Lemma commit_writes (a1 a2 a3 a4 : pyval) (now : Z) (db db' : Database) (b : ProjectBindingRecord) :
  constraints db = true -> commit a1 a2 a3 a4 now db = Ok (b, db') ->
  db' = set_bindings db (bindings db') /\ constraints db' = true /\ ledger_write db now (bindings db').
Proof.
  intros Hc. unfold commit. intros E.
  do 5 (let H := fresh "E" in apply rbind_ok in E as (? & H & E)).
  match goal with F : found _ = Ok _ |- _ => apply get_binding_elem in F as (Hb & Hp & Hr) end.
  case_bool_decide as Hst.
  { inv_ok. injection E as -> ->. split; [by destruct db' | split; [done | constructor]]. }
  inv_ok. injection E as <- <-. bool_to_prop.
  match goal with F : superseded_by _ _ = Ok ?o |- _ => rename F into Hs; rename o into predecessor end. destruct predecessor as [q |].
  - match goal with F : save (set_status _ _ _) _ = Ok _ |- _ => apply save_ok in F as [-> _] end.
    match goal with F : save _ _ = Ok _ |- _ => apply save_ok in F as [-> Hc'] end.
    split; [done | split; [done |]]. apply (wrote_commit db now _ _ (Some q)); try done. by destruct (b_digest _).
  - inv_ok. match goal with F : save _ _ = Ok _ |- _ => apply save_ok in F as [-> Hc'] end.
    split; [done | split; [done |]]. apply (wrote_commit _ now _ _ None); try done. by destruct (b_digest _).
Qed.

Lemma fence_ok (b : ProjectBindingRecord) (now : Z) (db db' : Database) :
  fence_binding_workspaces b now db = Ok db' ->
  db' = set_sessions db (update_where (fence_target b) (fenced_row now) (sessions db)) /\ constraints db' = true
  /\ forall s, s ∈ sessions db -> fence_target b s = true -> s_revision s < MAX_SQLITE.
Proof.
  unfold fence_binding_workspaces. intros E. inv_ok. apply flush_ok in E as [-> Hc]. split; [done | split; [done |]].
  intros s Hs%list_elem_of_In Ht. apply not_true_iff_false in G. destruct (decide (s_revision s < MAX_SQLITE)) as [? | Hn]; [done | exfalso].
  apply G, existsb_exists. exists s. split; [done |]. rewrite Ht. cbn [andb]. apply Z.leb_le. lia.
Qed.

(** What reconciliation does to the sessions of the binding *)
Definition reconciles (b : ProjectBindingRecord) (now : Z) (db db' : Database) : Prop :=
  if present (b_digest b) then
    sessions db' = update_where (fence_target b) (fenced_row now) (sessions db)
    /\ forall s, s ∈ sessions db -> fence_target b s = true -> s_revision s < MAX_SQLITE
  else sessions db' = sessions db.

Lemma fence_if_ok (b : ProjectBindingRecord) (now : Z) (db db' : Database) :
  constraints db = true -> (if present (b_digest b) then fence_binding_workspaces b now db else Ok db) = Ok db' ->
  db' = set_sessions db (sessions db') /\ constraints db' = true /\ reconciles b now db db'.
Proof.
  intros Hc. unfold reconciles. destruct (present (b_digest b)).
  - intros (-> & ? & ?)%fence_ok. auto.
  - intros E. inv_ok. split; [by destruct db' | done].
Qed.

Lemma reconcile_writes (a1 a2 a3 : pyval) (now : Z) (db db' : Database) (b : ProjectBindingRecord) :
  constraints db = true -> require_reconciliation a1 a2 a3 now db = Ok (b, db') ->
  db' = set_sessions (set_bindings db (bindings db')) (sessions db') /\ constraints db' = true /\ ledger_write db now (bindings db')
  /\ b_status b = RECONCILIATION_REQUIRED /\ b ∈ bindings db' /\ reconciles b now db db'.
Proof.
  intros Hc. unfold require_reconciliation. intros E.
  do 4 (let H := fresh "E" in apply rbind_ok in E as (? & H & E)). unfold reconcile_row in E.
  match goal with F : found _ = Ok ?x |- _ => apply get_binding_elem in F as (Hb & Hp & Hr); rename x into row end.
  inv_ok. bool_to_prop. case_bool_decide as Hst.
  { apply rbind_ok in E as (db1 & F & E). inv_ok. injection E as -> ->. apply fence_if_ok in F as (-> & Hc' & Hs); [| done].
    cbn in *. repeat split; try done. constructor. }
  inv_ok. injection E as <- <-. bool_to_prop. match goal with F : save _ _ = Ok _ |- _ => apply save_ok in F as [-> Hc'] end.
  match goal with F : (if _ then _ else _) = Ok _ |- _ => rename F into Hf end.
  change (b_digest row) with (b_digest (set_status row RECONCILIATION_REQUIRED now)) in Hf. apply fence_if_ok in Hf as (-> & Hc2 & Hs); [| done].
  cbn [bindings sessions set_bindings set_sessions b_status set_status] in *. repeat split; try done; [by apply wrote_status |].
  pose proof (elem_put (K := (pystr * Z)%type) (set_status row RECONCILIATION_REQUIRED now) _ row Hb) as Hin.
  by rewrite bool_decide_eq_true_2 in Hin.
Qed.
End Writes.

(** Every write keeps the chain. *)
Lemma write_chained (db : Database) (now : Z) (t : list ProjectBindingRecord) :
  keyed (bindings db) -> keyed t -> chained (bindings db) -> ledger_write db now t -> chained t.
Proof.
  intros K K' C W. destruct W as [| b Hst Hd _ Hh | b d q Hb Hd Hst Hs | b Hb Hst]; [done | | |].
  - apply chained_snoc; try done. destruct (find_head db (b_project_id b)) as [h |] eqn:E; [right | by left].
    apply find_head_elem in E as (? & ? & ? & ?). destruct Hh as (? & ? & ? & _). eauto 10.
  - rewrite commit_map; [by apply chained_commit |]. destruct q as [q |]; [| done]. apply superseded_by_ok in Hs as (_ & _ & E & _).
    destruct (chained_previous _ b _ C Hb E). lia.
  - by apply chained_put_status.
Qed.

(** Membership in a literal list *)
Ltac elem := by (apply list_elem_of_In; cbn; auto).

(** ** The shape of a chain *)

(** The revisions of the Project [p] are 1..n, those with a digest 1..m; all
    before the m-th are superseded, the m-th is the head, and one after it is an open attempt. *)
Definition chain_of (t : list ProjectBindingRecord) (p : pystr) (n m : Z) : Prop :=
  (0 <= m <= n /\ n <= m + 1)
  /\ (forall r, 1 <= r <= n <-> exists b, b ∈ t /\ b_project_id b = p /\ b_revision b = r)
  /\ forall b, b ∈ t -> b_project_id b = p ->
     (present (b_digest b) = true <-> b_revision b <= m)
     /\ (if b_revision b <? m then b_status b = SUPERSEDED
         else if b_revision b =? m then b_status b ∈ [CURRENT; RECONCILIATION_REQUIRED]
         else b_status b ∈ [PENDING; RECONCILIATION_REQUIRED])
     /\ (if b_revision b =? 1 then b_previous_revision b = None /\ b_previous_digest b = None
         else exists q, q ∈ t /\ b_project_id q = p /\ b_revision q = b_revision b - 1
              /\ b_previous_revision b = Some (b_revision q) /\ b_previous_digest b = b_digest q).

(** The largest revision of a Project *)
Lemma largest_revision (t : list ProjectBindingRecord) (p : pystr) :
  exists n, 0 <= n /\ (n = 0 \/ exists b, b ∈ t /\ b_project_id b = p /\ b_revision b = n)
            /\ forall b, b ∈ t -> b_project_id b = p -> b_revision b <= n.
Proof.
  induction t as [|x t (n & H0 & Hn & Hmax)].
  - exists 0. repeat split; [lia | by left | set_solver].
  - assert (Hkeep : n = 0 \/ exists b, b ∈ x :: t /\ b_project_id b = p /\ b_revision b = n) by (destruct Hn as [? | (b & ? & ?)]; [by left | right; exists b; set_solver]).
    destruct (decide (b_project_id x = p /\ n < b_revision x)) as [[Hp Hlt] | Hx].
    + exists (b_revision x). repeat split; [lia | right; exists x; set_solver |]. intros b [-> | Hb]%elem_of_cons Hbp; [lia |].
      specialize (Hmax b Hb Hbp). lia.
    + exists n. repeat split; try done. intros b [-> | Hb]%elem_of_cons Hbp; [| by apply Hmax].
      destruct (decide (n < b_revision x)); [by destruct Hx | lia].
Qed.

Lemma chained_below (t : list ProjectBindingRecord) (p : pystr) (b : ProjectBindingRecord) (r : Z) :
  chained t -> b ∈ t -> b_project_id b = p -> 1 <= r <= b_revision b -> exists x, x ∈ t /\ b_project_id x = p /\ b_revision x = r.
Proof.
  intros C Hb Hp Hr. remember (Z.to_nat (b_revision b - r)) as k eqn:Ek. revert b Hb Hp Hr Ek.
  induction k as [|k IH]; intros b Hb Hp Hr Ek; [exists b; repeat split; auto; lia |].
  destruct (chained_link t C b Hb ltac:(lia)) as (q & Hq & E1 & E2 & _). apply (IH q); [done | congruence | lia | lia].
Qed.

(** A row with a successor is attested. *)
Lemma chained_before (t : list ProjectBindingRecord) (a b : ProjectBindingRecord) :
  keyed t -> chained t -> a ∈ t -> b ∈ t -> b_project_id a = b_project_id b -> b_revision a < b_revision b -> present (b_digest a) = true.
Proof.
  intros K C Ha Hb Hp Hlt. pose proof (chained_positive t C a Ha).
  destruct (chained_below t (b_project_id b) b (b_revision a + 1) C Hb eq_refl ltac:(lia)) as (y & Hy & Hyp & Hyr).
  destruct (chained_link t C y Hy ltac:(lia)) as (q & Hq & E1 & E2 & _ & _ & E5).
  assert (q = a) as -> by (apply (keyed_inj t); try done; [congruence | lia]). done.
Qed.

Lemma chained_shape (t : list ProjectBindingRecord) (p : pystr) : keyed t -> chained t -> exists n m, chain_of t p n m.
Proof.
  intros K C. destruct (largest_revision t p) as (n & H0 & Hn & Hmax).
  assert (Hm : exists m, (0 <= m <= n /\ n <= m + 1) /\ forall b, b ∈ t -> b_project_id b = p -> present (b_digest b) = true <-> b_revision b <= m).
  { assert (Hlow : forall b, b ∈ t -> b_project_id b = p -> b_revision b < n -> present (b_digest b) = true).
    { intros b Hb Hp Hlt. destruct Hn as [-> | (l & Hl & Hlp & <-)]; [pose proof (chained_positive t C b Hb); lia |].
      apply (chained_before t b l); try done; congruence. }
    destruct Hn as [-> | (l & Hl & Hlp & Hlr)].
    - exists 0. split; [lia |]. intros b Hb Hp. specialize (Hmax b Hb Hp). pose proof (chained_positive t C b Hb). lia.
    - pose proof (chained_positive t C l Hl).
      assert (Htop : forall b, b ∈ t -> b_project_id b = p -> b_revision b = n -> b = l) by (intros; apply (keyed_inj t); congruence).
      exists (if present (b_digest l) then n else n - 1). destruct (present (b_digest l)) eqn:El; (split; [lia |]); intros b Hb Hp;
        specialize (Hmax b Hb Hp); (destruct (decide (b_revision b = n)) as [E | E]; [rewrite (Htop b Hb Hp E), El in *; split; (done || lia) |]);
        split; intros _; (lia || apply Hlow; try done; lia). }
  destruct Hm as (m & Hb & Hd). exists n, m. split; [done | split].
  - intros r. split.
    + intros Hr. destruct Hn as [-> | (l & Hl & Hlp & Hlr)]; [lia |]. apply (chained_below t p l); try done. lia.
    + intros (b & Hb' & Hp & <-). split; [by apply (chained_positive t C) | by apply Hmax].
  - intros b Hb' Hp. pose proof (chained_positive t C b Hb'). split; [by apply Hd |]. split.
    + assert (S : b_status b = SUPERSEDED <-> b_revision b < m).
      { rewrite (chained_superseded t C b Hb'). split.
        - intros (q & Hq & E1 & E2 & E3). apply Hd in E3; [lia | done | congruence].
        - intros Hlt. destruct Hn as [-> | (l & Hl & Hlp & Hlr)]; [lia |].
          destruct (chained_below t p l (b_revision b + 1) C Hl Hlp ltac:(lia)) as (y & Hy & Hyp & Hyr).
          exists y. repeat split; try done; [congruence | apply Hd; [done | done | lia]]. }
      pose proof (Hd b Hb' Hp) as D. pose proof (chained_pending t C b Hb') as P. pose proof (chained_attested t C b Hb') as A.
      case_if; bool_to_prop; [by apply S |]. assert (b_status b <> SUPERSEDED) by (rewrite S; lia).
      case_if; bool_to_prop; destruct (b_status b) eqn:Est; try done; try elem; exfalso.
      * rewrite P in D by done. cbn in D. destruct D as [_ D]. specialize (D ltac:(lia)). done.
      * destruct D as [D _]. specialize (D (A ltac:(elem))). lia.
    + case_if; bool_to_prop; [by apply (chained_first t C) |].
      destruct (chained_link t C b Hb' ltac:(lia)) as (q & Hq & E1 & E2 & E3 & E4 & _). exists q. repeat split; try done. congruence.
Qed.

(** ** Append-only *)

(** The status and digest of a row move only forward. *)
Inductive advances : BindingStatus * option pystr -> BindingStatus * option pystr -> Prop :=
| adv_same x : advances x x
| adv_ambiguous : advances (PENDING, None) (RECONCILIATION_REQUIRED, None)
| adv_attested st d : st ∈ [PENDING; RECONCILIATION_REQUIRED] -> advances (st, None) (CURRENT, Some d)
| adv_drifted d : advances (CURRENT, Some d) (RECONCILIATION_REQUIRED, Some d)
| adv_superseded st d : st ∈ [CURRENT; RECONCILIATION_REQUIRED] -> advances (st, Some d) (SUPERSEDED, Some d).

(** The row keeps its identity and what was asked of the Runtime. *)
Definition evolves (a b : ProjectBindingRecord) : Prop :=
  (b_project_id b, b_revision b, attempt_facts b, b_created_at b) = (b_project_id a, b_revision a, attempt_facts a, b_created_at a)
  /\ advances (b_status a, b_digest a) (b_status b, b_digest b).

(** The next attempt of a Project that has none. *)
Definition appended (t : list ProjectBindingRecord) (b : ProjectBindingRecord) : Prop :=
  b_status b = PENDING /\ b_digest b = None
  /\ forall x, x ∈ t -> b_project_id x = b_project_id b -> b_revision x < b_revision b /\ present (b_digest x) = true.

Lemma binding_evolves_refl (b : ProjectBindingRecord) : evolves b b.
Proof. split; [done | constructor]. Qed.

Lemma map_evolves (t : list ProjectBindingRecord) (f : ProjectBindingRecord -> ProjectBindingRecord) :
  (forall x, x ∈ t -> evolves x (f x)) ->
  (forall x, x ∈ t -> exists y, y ∈ map f t /\ evolves x y) /\ (forall y, y ∈ map f t -> exists x, x ∈ t /\ evolves x y).
Proof.
  intros Hf. split; [intros x Hx; exists (f x) | intros y (x & Hx & ->)%put_map_elem; exists x]; (split; [| by apply Hf]); [apply put_map_elem |]; eauto.
Qed.

(** A row of a Project without an open attempt is attested. *)
Lemma no_open_attested (db : Database) (b : ProjectBindingRecord) :
  chained (bindings db) -> b ∈ bindings db -> find_open db (b_project_id b) = None -> present (b_digest b) = true.
Proof.
  intros C Hb Hn. destruct (b_digest b) as [d |] eqn:Ed; [done | exfalso].
  apply list_elem_of_In in Hb as Hin. pose proof (find_none _ _ Hn b Hin) as F. cbn beta in F. unfold of_project in F.
  rewrite str_eqb_refl, Ed in F. cbn [andb absent present negb] in F. apply bool_decide_eq_false_1 in F.
  pose proof (chained_attested _ C b Hb) as A. rewrite Ed in A.
  destruct (b_status b) eqn:Est; try (apply F; elem); by specialize (A ltac:(elem)).
Qed.

Lemma attempt_appended (db : Database) (b : ProjectBindingRecord) :
  keyed (bindings db ++ [b]) -> chained (bindings db) -> b_status b = PENDING -> b_digest b = None ->
  find_open db (b_project_id b) = None -> chained (bindings db ++ [b]) -> appended (bindings db) b.
Proof.
  intros K C Hst Hd Ho C'. split; [done | split; [done |]]. intros x Hx Hp.
  assert (Hin : x ∈ bindings db ++ [b]) by (apply elem_of_app; by left).
  assert (Hb : b ∈ bindings db ++ [b]) by (apply elem_of_app; right; by apply list_elem_of_singleton).
  assert (Hpx : present (b_digest x) = true) by (apply (no_open_attested db); [done | done | congruence]).
  split; [| done]. destruct (decide (b_revision x < b_revision b)) as [? | Hge]; [done | exfalso].
  destruct (decide (b_revision x = b_revision b)) as [E | E].
  - assert (x = b) as -> by by apply (keyed_inj (bindings db ++ [b])). by rewrite Hd in Hpx.
  - pose proof (chained_before _ b x K C' Hb Hin ltac:(congruence) ltac:(lia)) as F. by rewrite Hd in F.
Qed.

Lemma put_evolves (t : list ProjectBindingRecord) (b b' : ProjectBindingRecord) :
  keyed t -> b ∈ t -> evolves b b' ->
  forall x, x ∈ t -> evolves x (if bool_decide (key_of (K := (pystr * Z)%type) x = key_of b') then b' else x).
Proof.
  intros K Hb He x Hx. case_bool_decide as E; [| apply binding_evolves_refl]. destruct He as [F A]. unfold key_of, binding_key in E.
  injection E as E1 E2. assert (x = b) as -> by (apply (keyed_inj t); congruence). by split.
Qed.

Lemma write_evolves (db : Database) (now : Z) (t : list ProjectBindingRecord) :
  keyed (bindings db) -> keyed t -> chained (bindings db) -> ledger_write db now t ->
  (forall x, x ∈ bindings db -> exists y, y ∈ t /\ evolves x y)
  /\ (forall y, y ∈ t -> (exists x, x ∈ bindings db /\ evolves x y) \/ appended (bindings db) y).
Proof.
  intros K K' C W. assert (C' : chained t) by by eapply write_chained.
  destruct W as [| b Hst Hd Ho Hh | b d q Hb Hd Hst Hs | b Hb Hst].
  - split; [intros x Hx; exists x | intros y Hy; left; exists y]; (split; [done | apply binding_evolves_refl]).
  - split.
    + intros x Hx. exists x. split; [apply elem_of_app; by left | apply binding_evolves_refl].
    + intros y [Hy | ->%list_elem_of_singleton]%elem_of_app; [left; exists y; split; [done | apply binding_evolves_refl] | right].
      by apply attempt_appended.
  - assert (Hq : match q with Some q => b_revision q <> b_revision b | None => True end).
    { destruct q as [q |]; [| done]. apply superseded_by_ok in Hs as (_ & _ & E & _). destruct (chained_previous _ b _ C Hb E). lia. }
    rewrite commit_map in * by done. destruct (map_evolves (bindings db) (committed b d q now)) as [E1 E2]; [| by split; [| intros y Hy; left; apply E2]].
    intros x Hx. unfold committed. case_bool_decide as E.
    + injection E as Ep Er. assert (x = b) as -> by by apply (keyed_inj (bindings db)). split; [done |]. cbn. rewrite Hd. by constructor.
    + destruct q as [q |]; [| apply binding_evolves_refl]. apply superseded_by_ok in Hs as (Hqin & _ & Ep & Ed & Hqs).
      apply (put_evolves (bindings db) q (set_status q SUPERSEDED now)); try done. split; [done |]. cbn.
      destruct (chained_previous _ b _ C Hb Ep) as [_ F]. rewrite <- Ed in F. destruct (b_digest q); [by constructor | done].
  - assert (E : evolves b (set_status b RECONCILIATION_REQUIRED now)).
    { split; [done |]. cbn. pose proof (chained_pending _ C b Hb) as P. pose proof (chained_attested _ C b Hb) as A.
      destruct (b_status b) eqn:Est; [rewrite P by done; constructor | | constructor | set_solver].
      specialize (A ltac:(elem)). destruct (b_digest b); [constructor | done]. }
    destruct (map_evolves (bindings db) _ (put_evolves (bindings db) b _ K Hb E)) as [E1 E2].
    by split; [| intros y Hy; left; apply E2].
Qed.

(** ** Retries *)

Section Retries.
Context `{Unicode}.

Lemma find_open_snoc (db : Database) (b : ProjectBindingRecord) :
  find_open db (b_project_id b) = None -> b_digest b = None -> b_status b = PENDING ->
  find_open (set_bindings db (bindings db ++ [b])) (b_project_id b) = Some b.
Proof.
  unfold find_open. cbn [bindings set_bindings]. intros Hn Hd Hst. induction (bindings db) as [|x t IH]; cbn [app find] in *.
  - unfold of_project. by rewrite str_eqb_refl, Hd, Hst.
  - destruct (of_project _ x && _ && _); [done | by apply IH].
Qed.

Lemma reserve_again (a1 a2 a3 a4 a5 a6 : pyval) (now later : Z) (db db' : Database) (b : ProjectBindingRecord) :
  reserve a1 a2 a3 a4 a5 a6 now db = Ok (b, db') -> reserve a1 a2 a3 a4 a5 a6 later db' = Ok (b, db').
Proof.
  unfold reserve. destruct (identifier a1 _ _) as [p |]; [cbn [rbind] | done]. destruct (positive_integer a2 _) as [pr |]; [cbn [rbind] | done].
  destruct (identifier a3 _ _) as [h |]; [cbn [rbind] | done]. destruct (positive_integer a4 _) as [hr |]; [cbn [rbind] | done].
  destruct (expected_head a5 a6) as [e |]; [cbn [rbind] | done]. destruct (find_open db p) as [o |] eqn:Ho.
  - intros E. assert (Hdb : db' = db) by (inv_ok; congruence). rewrite Hdb, Ho in *. done.
  - intros E. apply rbind_ok in E as (key & Ek & E). apply rbind_ok in E as ([] & Eh & E). apply rbind_ok in E as (r & Er & E).
    apply rbind_ok in E as (db1 & Ef & E). inv_ok. injection E as <- <-. apply except_as_ok, flush_ok in Ef as [-> _].
    cbn [projects hosts set_bindings]. rewrite Ek. cbn [rbind]. rewrite Eh. cbn [rbind].
    match goal with |- context [find_open (set_bindings db (_ ++ [?row])) _] => pose proof (find_open_snoc db row Ho eq_refl eq_refl) as Hs end.
    cbn [b_project_id] in Hs. rewrite Hs. by rewrite bool_decide_eq_true_2.
Qed.

Lemma commit_again (a1 a2 a3 a4 : pyval) (now later : Z) (db db' : Database) (b : ProjectBindingRecord) :
  commit a1 a2 a3 a4 now db = Ok (b, db') -> commit a1 a2 a3 a4 later db' = Ok (b, db').
Proof.
  unfold commit. destruct (identifier a1 _ _) as [p |]; [cbn [rbind] | done]. destruct (positive_integer a2 _) as [r |]; [cbn [rbind] | done].
  destruct (positive_integer a3 _) as [pr |]; [cbn [rbind] | done]. destruct (digest a4 _) as [d |]; [cbn [rbind] | done].
  destruct (get (p, r) (bindings db)) as [x |] eqn:Eg; [cbn [rbind found] | done]. case_bool_decide as Hst.
  - intros E. assert (Hdb : db' = db) by (inv_ok; congruence). rewrite Hdb, Eg in *. cbn [found rbind]. by rewrite bool_decide_eq_true_2.
  - intros E. apply rbind_ok in E as ([] & _ & E). apply rbind_ok in E as ([] & Ec & E). apply rbind_ok in E as (q & Eq & E).
    apply rbind_ok in E as (db1 & E1 & E). apply rbind_ok in E as (db2 & E2 & E). inv_ok. injection E as <- <-.
    apply save_ok in E2 as [-> _]. cbn [bindings set_bindings]. pose proof Eg as [_ Hk]%get_elem. injection Hk as Hp Hr.
    rewrite get_put. unfold key_of at 1, binding_key at 1. cbn [attest b_project_id b_revision]. rewrite bool_decide_eq_true_2 by congruence.
    assert (Hpr : b_project_revision x = pr).
    { unfold committable in Ec. destruct (get _ (projects db)); [| done]. inv_ok. by bool_to_prop. }
    assert (Hin : exists y, get (p, r) (bindings db1) = Some y).
    { destruct q as [q |]; inv_ok; [| eauto]. apply save_ok in E1 as [-> _]. cbn [bindings set_bindings]. rewrite get_put, Eg. case_bool_decide; cbn; eauto. }
    destruct Hin as [y ->]. cbn [option_map found rbind b_status b_digest b_project_revision attest].
    by rewrite Hpr, Z.eqb_refl, !bool_decide_eq_true_2.
Qed.

Lemma fence_target_fenced (b : ProjectBindingRecord) (now : Z) (s : AgentWorkspaceSessionRecord) : fence_target b (fenced_row now s) = false.
Proof. unfold fence_target. rewrite andb_comm. done. Qed.

Lemma fenced_again (b : ProjectBindingRecord) (now later : Z) (t : list AgentWorkspaceSessionRecord) :
  update_where (fence_target b) (fenced_row later) (update_where (fence_target b) (fenced_row now) t)
  = update_where (fence_target b) (fenced_row now) t
  /\ existsb (fun s => fence_target b s && (MAX_SQLITE <=? s_revision s)) (update_where (fence_target b) (fenced_row now) t) = false.
Proof.
  assert (Hn : forall x, x ∈ update_where (fence_target b) (fenced_row now) t -> fence_target b x = false).
  { intros x (y & _ & ->)%update_where_elem. destruct (fence_target b y) eqn:E; [apply fence_target_fenced | done]. }
  split; [by apply update_where_none |]. apply not_true_iff_false. intros (s & Hs%list_elem_of_In & E)%existsb_exists. by rewrite (Hn s Hs) in E.
Qed.

Lemma fence_again (b : ProjectBindingRecord) (now later : Z) (db db' : Database) :
  fence_binding_workspaces b now db = Ok db' -> fence_binding_workspaces b later db' = Ok db'.
Proof.
  intros (-> & Hc & _)%fence_ok. unfold fence_binding_workspaces. cbn [sessions set_sessions].
  destruct (fenced_again b now later (sessions db)) as [E1 E2]. rewrite E2, E1. cbn [raise_if rbind]. by apply flush_ok.
Qed.

Lemma reconcile_again (a1 a2 a3 : pyval) (now later : Z) (db db' : Database) (b : ProjectBindingRecord) :
  require_reconciliation a1 a2 a3 now db = Ok (b, db') -> require_reconciliation a1 a2 a3 later db' = Ok (b, db').
Proof.
  unfold require_reconciliation. destruct (identifier a1 _ _) as [p |]; [cbn [rbind] | done].
  destruct (positive_integer a2 _) as [r |]; [cbn [rbind] | done]. destruct (nullable _ a3) as [d |]; [cbn [rbind] | done].
  destruct (get (p, r) (bindings db)) as [x |] eqn:Eg; [cbn [rbind found] | done]. intros E. unfold reconcile_row in E.
  apply rbind_ok in E as ([] & Ed & E).
  assert (Hdone : forall db1 y, get (p, r) (bindings db1) = Some y -> b_digest y = b_digest x -> b_status y = RECONCILIATION_REQUIRED ->
            forall db2, (if present (b_digest x) then fence_binding_workspaces y now db1 else Ok db1) = Ok db2 ->
            (let! b0 := found (get (p, r) (bindings db2)) in reconcile_row d b0 later db2) = Ok (y, db2)).
  { intros db1 y Gy Dy Sy db2 Ef.
    assert (Hb : get (p, r) (bindings db2) = Some y) by (destruct (present (b_digest x)); [by apply fence_ok in Ef as (-> & _) | inv_ok; done]).
    rewrite Hb. cbn [found rbind]. unfold reconcile_row. rewrite Dy, Ed. cbn [rbind]. rewrite bool_decide_eq_true_2 by done.
    destruct (present (b_digest x)); [rewrite (fence_again y now later db1 db2 Ef) |]; done. }
  case_bool_decide as Hst.
  - apply rbind_ok in E as (db1 & Ef & E). inv_ok. injection E as <- <-. by apply (Hdone db).
  - apply rbind_ok in E as ([] & _ & E). apply rbind_ok in E as (db1 & Es & E). apply rbind_ok in E as (db2 & Ef & E). inv_ok. injection E as <- <-.
    apply save_ok in Es as [-> _]. apply (Hdone (set_bindings db (put (set_status x RECONCILIATION_REQUIRED now) (bindings db)))); try done.
    cbn [bindings set_bindings]. rewrite get_put, Eg. pose proof Eg as [_ Hk]%get_elem. by rewrite bool_decide_eq_true_2.
Qed.
End Retries.
