(* ===== verification/BindingsSpec.v ===== *)
(** * The ledger's writes never break a constraint

    From a database that satisfies its constraints and whose bindings form
    chains, the statements [commit] and [require_reconciliation] send are
    accepted, so those operations raise the ledger's own errors only. *)

From S2P Require Import Prelude PyVal WawDomain Unicode Control Tables Bindings.

Local Open Scope Z_scope.

Create HintDb ledger.

(** A text of hexadecimal digits has no NUL. *)
Lemma hex_c_text (s : pystr) : forallb is_lower_hex s = true -> c_text s = s.
Proof.
  induction s as [|c s IH]; [done |]. cbn [forallb c_text]. intros [Hc Hs]%andb_true_iff.
  destruct (c =? 0) eqn:E; [| by rewrite IH]. bool_to_prop. subst c. done.
Qed.

Lemma digest_checked (v : pyval) (field : string) (d : pystr) : digest v field = Ok d -> digest_check d = true.
Proof.
  unfold digest. destruct v; try done. destruct (match_hex 64 s) eqn:E; intros F; inv_ok. unfold digest_check.
  rewrite hex_c_text; [done |]. unfold match_hex in E. by bool_to_prop.
Qed.

(** A chain has one head and one open attempt. *)
Lemma chained_head_unique (t : list ProjectBindingRecord) (a b : ProjectBindingRecord) :
  keyed t -> chained t -> a ∈ t -> b ∈ t -> head a = true -> head b = true -> b_project_id a = b_project_id b -> a = b.
Proof.
  intros K C Ha Hb Ia Ib Hp. destruct (chained_shape t (b_project_id b) K C) as (n & m & _ & _ & S).
  assert (R : forall x, x ∈ t -> b_project_id x = b_project_id b -> head x = true -> b_revision x = m).
  { intros x Hx Hxp Hh. destruct (S x Hx Hxp) as (D & St & _). unfold head in Hh.
    assert (present (b_digest x) = true).
    { apply orb_true_iff in Hh as [Hh | Hh]; bool_to_prop; [apply (chained_attested t C x Hx); rewrite Hh; elem | done]. }
    assert (b_revision x <= m) by by apply D. destruct (b_revision x <? m) eqn:E; bool_to_prop; [| lia].
    rewrite St in Hh. done. }
  apply (keyed_inj t); try done. by rewrite (R a), (R b).
Qed.

Lemma chained_open_unique (t : list ProjectBindingRecord) (a b : ProjectBindingRecord) :
  keyed t -> chained t -> a ∈ t -> b ∈ t -> open_attempt a = true -> open_attempt b = true -> b_project_id a = b_project_id b -> a = b.
Proof.
  intros K C Ha Hb Ia Ib Hp. destruct (chained_shape t (b_project_id b) K C) as (n & m & B & I & S).
  assert (R : forall x, x ∈ t -> b_project_id x = b_project_id b -> open_attempt x = true -> b_revision x = m + 1).
  { intros x Hx Hxp Hh. destruct (S x Hx Hxp) as (D & _ & _). unfold open_attempt in Hh.
    assert (b_digest x = None).
    { apply orb_true_iff in Hh as [Hh | Hh]; bool_to_prop; [by apply (chained_pending t C x Hx) | by destruct (b_digest x)]. }
    assert (~ b_revision x <= m) by (rewrite <- D; by rewrite H).
    destruct (proj2 (I (b_revision x)) ltac:(eauto)). lia. }
  apply (keyed_inj t); try done. by rewrite (R a), (R b).
Qed.

Lemma chained_indexes (t : list ProjectBindingRecord) :
  keyed t -> chained t ->
  unique_index (indexed open_attempt b_project_id) t = true /\ unique_index (indexed head b_project_id) t = true.
Proof.
  intros K C. split; apply (unique_intro (K := (pystr * Z)%type) _ t K); unfold indexed; intros a b x Ha Hb Ia Ib.
  - destruct (open_attempt a) eqn:Ea, (open_attempt b) eqn:Eb; try done. by apply (chained_open_unique t); try congruence.
  - destruct (head a) eqn:Ea, (head b) eqn:Eb; try done. by apply (chained_head_unique t); try congruence.
Qed.

(** Writing rows in place, with the columns a Runtime request was made of kept *)
Lemma constraints_rewrite (db : Database) (f : ProjectBindingRecord -> ProjectBindingRecord) :
  constraints db = true ->
  (forall b, b ∈ bindings db ->
     (b_project_id (f b), b_revision (f b), attempt_facts (f b)) = (b_project_id b, b_revision b, attempt_facts b)
     /\ (b_digest (f b) = b_digest b \/ b_digest b = None /\ exists d, b_digest (f b) = Some d /\ digest_check d = true)
     /\ (b_status (f b) ∈ [CURRENT; SUPERSEDED] -> present (b_digest (f b)) = true)) ->
  unique_index (indexed open_attempt b_project_id) (map f (bindings db)) = true ->
  unique_index (indexed head b_project_id) (map f (bindings db)) = true ->
  constraints (set_bindings db (map f (bindings db))) = true.
Proof.
  intros Hc Hf Uo Uh. pose proof Hc as ((_ & _ & Hb & _) & _ & (Hk & _) & _)%constraints_split. rewrite forallb_elem in Hb.
  apply constraints_bindings; try done.
  - intros ? (b & Hin & ->)%put_map_elem. destruct (Hf b Hin) as (E & D & St). injection E as E1 E2 E3 E4 E5 E6 E7 E8. specialize (Hb b Hin).
    unfold binding_ok in *. unfold predecessor_exists, predecessor_check in *. rewrite E1, E2, E3, E4, E5, E6, E7, E8.
    cbn [bindings projects hosts set_bindings] in *. rewrite !andb_true_iff in *. destruct_and!. split_and!; try done.
    + destruct D as [-> | (_ & d & -> & Hd)]; [done | cbn; by rewrite Hd].
    + destruct (bool_decide (b_status (f b) ∈ [CURRENT; SUPERSEDED])) eqn:Hs; [bool_to_prop; by apply St | done].
    + destruct (b_previous_revision b) as [r |]; [| done]. destruct (b_previous_digest b) as [d |]; [| done].
      match goal with F : existsb _ _ = true |- _ => apply existsb_exists in F as (x & Hx & Fx) end. apply list_elem_of_In in Hx. bool_to_prop.
      apply existsb_exists. exists (f x). split; [apply list_elem_of_In, put_map_elem; eauto |].
      destruct (Hf x Hx) as (Ex & Dx & _). injection Ex as X1 X2 _ _ _ _ _ _. rewrite X1, X2.
      rewrite !andb_true_iff. split_and!; try done; [by apply Z.eqb_eq |]. apply bool_decide_eq_true_2. destruct Dx as [-> | [? _]]; congruence.
  - apply unique_map; [| done]. intros b Hin. left. destruct (Hf b Hin) as (E & _ & _). injection E as E1 E2 _. by rewrite E1, E2.
Qed.

Lemma keyed_map (t : list ProjectBindingRecord) (f : ProjectBindingRecord -> ProjectBindingRecord) :
  (forall b, b ∈ t -> b_project_id (f b) = b_project_id b /\ b_revision (f b) = b_revision b) -> keyed t -> keyed (map f t).
Proof. intros Hf. apply unique_map. intros b Hb. left. by destruct (Hf b Hb) as [-> ->]. Qed.

Lemma fenced_ok (db : Database) (now : Z) (s : AgentWorkspaceSessionRecord) : session_ok db s = true -> session_ok db (fenced_row now s) = true.
Proof.
  unfold session_ok. cbn [fenced_row revise s_id s_project_id s_authorization_scope s_host_id s_host_revision s_generation s_revision
    s_binding_revision s_binding_digest s_runtime_session_name s_runtime_marker s_executable_fingerprint s_evidence_generation
    s_evidence_epoch s_exit_code s_failure_code]. unfold evidence_consistent. cbn [fenced_row revise s_executable_fingerprint s_evidence_state
    s_evidence_generation s_evidence_epoch s_generation]. rewrite !andb_true_iff. intros F. destruct_and!. split_and!; try done.
  bool_to_prop. apply Z.leb_le. unfold sql_increment. case_if; lia.
Qed.

Lemma fence_accepted (db : Database) (b : ProjectBindingRecord) (now : Z) :
  constraints db = true -> throws [ProjectBindingError] (fence_binding_workspaces b now db).
Proof.
  intros Hc. unfold fence_binding_workspaces. apply throws_bind; [by apply throws_raise_if | intros _ _].
  enough (E : constraints (set_sessions db (update_where (fence_target b) (fenced_row now) (sessions db))) = true) by (unfold flush; by rewrite E).
  pose proof Hc as ((_ & Hs & _) & (_ & _ & U1 & U2 & U3) & _)%constraints_split. rewrite forallb_elem in Hs.
  assert (Same : forall X (f : AgentWorkspaceSessionRecord -> X), (forall s, f (fenced_row now s) = f s) ->
            forall s, s ∈ sessions db -> Some (f (if fence_target b s then fenced_row now s else s)) = Some (f s)
                                         \/ Some (f (if fence_target b s then fenced_row now s else s)) = None).
  { intros X f Hf s _. left. destruct (fence_target b s); [by rewrite Hf | done]. }
  apply constraints_sessions; try done.
  - intros ? (s & Hin & ->)%update_where_elem. specialize (Hs s Hin). destruct (fence_target b s); [by apply (fenced_ok db) | done].
  - apply unique_map; [| done]. by apply (Same _ s_id).
  - apply unique_map; [| done]. by apply (Same _ (fun s => (s_project_id s, s_agent_type s))).
  - apply unique_map; [| done]. by apply (Same _ s_runtime_session_name).
  - intros s Hin. exists (if fence_target b s then fenced_row now s else s). split; [apply list_elem_of_fmap; eauto | by destruct (fence_target b s)].
Qed.

(** The update of one row of a chain by a row that keeps what was asked of the Runtime *)
Lemma save_accepted (db : Database) (b b' : ProjectBindingRecord) :
  constraints db = true -> b ∈ bindings db ->
  (b_project_id b', b_revision b', attempt_facts b') = (b_project_id b, b_revision b, attempt_facts b) ->
  (b_digest b' = b_digest b \/ b_digest b = None /\ exists d, b_digest b' = Some d /\ digest_check d = true) ->
  (b_status b' ∈ [CURRENT; SUPERSEDED] -> present (b_digest b') = true) ->
  unique_index (indexed open_attempt b_project_id) (put b' (bindings db)) = true ->
  unique_index (indexed head b_project_id) (put b' (bindings db)) = true ->
  save b' db = Ok (set_bindings db (put b' (bindings db))) /\ constraints (set_bindings db (put b' (bindings db))) = true.
Proof.
  intros Hc Hb Hf Hd Hs Uo Uh. pose proof Hc as ((_ & _ & Hok & _) & _ & (Hk & _) & _)%constraints_split. rewrite forallb_elem in Hok.
  enough (E : constraints (set_bindings db (put b' (bindings db))) = true) by (unfold save, flush; by rewrite E).
  apply constraints_rewrite; try done. intros x Hx. case_bool_decide as E.
  - injection E as E1 E2. injection Hf as F1 F2 F3 F4 F5 F6 F7 F8. assert (x = b) as -> by (apply (keyed_inj (bindings db)); congruence).
    unfold attempt_facts. split; [congruence | done].
  - repeat split; auto. intros St. specialize (Hok x Hx). unfold binding_ok in Hok. rewrite !andb_true_iff in Hok. destruct_and!.
    match goal with F : negb (bool_decide (b_status x ∈ _)) || _ = true |- _ => rewrite bool_decide_eq_true_2 in F by done; exact F end.
Qed.

(** [UPDATE ... SET status = 'SUPERSEDED'] of a row that is not an open attempt *)
Lemma supersede_accepted (db : Database) (q : ProjectBindingRecord) (now : Z) :
  constraints db = true -> q ∈ bindings db -> present (b_digest q) = true ->
  save (set_status q SUPERSEDED now) db = Ok (set_bindings db (put (set_status q SUPERSEDED now) (bindings db)))
  /\ constraints (set_bindings db (put (set_status q SUPERSEDED now) (bindings db))) = true.
Proof.
  intros Hc Hq Hp. pose proof Hc as (_ & _ & (_ & Uo & Uh) & _)%constraints_split.
  apply (save_accepted db q); auto; apply unique_map; try done; intros x _; case_bool_decide; auto.
Qed.

Section Errors.
Context `{Unicode}.

Lemma commit_accepted (db : Database) (b : ProjectBindingRecord) (d : pystr) (predecessor : option ProjectBindingRecord) (now : Z) :
  constraints db = true -> chained (bindings db) -> b ∈ bindings db -> b_digest b = None ->
  b_status b ∈ [PENDING; RECONCILIATION_REQUIRED] -> digest_check d = true -> superseded_by db b = Ok predecessor ->
  exists db1, match predecessor with Some q => save (set_status q SUPERSEDED now) db | None => Ok db end = Ok db1
              /\ exists db2, save (attest b d now) db1 = Ok db2 /\ attest b d now ∈ bindings db2.
Proof.
  intros Hc C Hb Hn Hst Hd Hs. pose proof Hc as (_ & _ & (Hk & _ & _) & _)%constraints_split.
  assert (Hq : match predecessor with Some q => b_revision q <> b_revision b /\ q ∈ bindings db /\ present (b_digest q) = true | None => True end).
  { destruct predecessor as [q |]; [| done]. apply superseded_by_ok in Hs as (Hq & _ & E & F & _).
    destruct (chained_previous _ b _ C Hb E) as [? G]. rewrite F. split; [lia | done]. }
  set (t1 := match predecessor with Some q => put (set_status q SUPERSEDED now) (bindings db) | None => bindings db end).
  assert (E1 : match predecessor with Some q => save (set_status q SUPERSEDED now) db | None => Ok db end = Ok (set_bindings db t1)
               /\ constraints (set_bindings db t1) = true).
  { unfold t1. destruct predecessor as [q |]; [| by destruct db]. apply supersede_accepted; tauto. }
  destruct E1 as [E1 Hc1]. exists (set_bindings db t1). split; [done |].
  assert (Hm : put (attest b d now) t1 = map (committed b d predecessor now) (bindings db)).
  { apply commit_map. destruct predecessor; tauto. }
  assert (Hb1 : b ∈ t1).
  { unfold t1. destruct predecessor as [q |]; [| done].
    pose proof (elem_put (K := (pystr * Z)%type) (set_status q SUPERSEDED now) _ b Hb) as Hin.
    rewrite bool_decide_eq_false_2 in Hin; [done |]. intros [= _ E]. by destruct Hq as [[] _]. }
  destruct (chained_indexes (map (committed b d predecessor now) (bindings db))) as [Uo Uh].
  { rewrite <- Hm. pose proof Hc1 as (_ & _ & (Hk1 & _) & _)%constraints_split. by apply unique_map; [intros x _; left; case_bool_decide as E; [injection E as -> -> |] |]. }
  { by apply chained_commit. }
  rewrite <- Hm in Uo, Uh. destruct (save_accepted (set_bindings db t1) b (attest b d now)) as [E2 _]; eauto.
  eexists. split; [done |]. pose proof (elem_put (K := (pystr * Z)%type) (attest b d now) t1 b Hb1) as Hin. by rewrite bool_decide_eq_true_2 in Hin.
Qed.

Lemma waw_key_throws (path : pystr) : throws [ProjectBindingError] (waw_key path).
Proof.
  unfold waw_key. apply throws_except; [| done]. intros e E. pose proof (relative_key_control EmptyString (PStr path) e) as K.
  unfold RELATIVE_KEY in K. rewrite E in K. cbn in *. by rewrite (K eq_refl).
Qed.

Lemma identifier_throws (v : pyval) (f p : string) : throws [ProjectBindingError] (identifier v f p).
Proof. unfold identifier. throws_tac. Qed.
Lemma positive_throws (v : pyval) (f : string) : throws [ProjectBindingError] (positive_integer v f).
Proof. unfold positive_integer. throws_tac. Qed.
Lemma digest_throws (v : pyval) (f : string) : throws [ProjectBindingError] (digest v f).
Proof. unfold digest. throws_tac. Qed.
Lemma found_throws (o : option ProjectBindingRecord) : throws [ProjectBindingError] (found o).
Proof. unfold found. throws_tac. Qed.
Hint Resolve waw_key_throws identifier_throws positive_throws digest_throws found_throws : ledger.

Lemma expected_head_throws (a b : pyval) : throws [ProjectBindingError] (expected_head a b).
Proof. unfold expected_head. throws_tac; auto with ledger. Qed.
Hint Resolve expected_head_throws : ledger.

Lemma reserve_errors (a1 a2 a3 a4 a5 a6 : pyval) (now : Z) (db : Database) :
  throws [ProjectBindingError] (reserve a1 a2 a3 a4 a5 a6 now db).
Proof.
  unfold reserve. throws_tac; auto with ledger.
  - unfold next_revision. throws_tac.
  - unfold flush. case_if; [done | by apply throws_raise].
Qed.

Lemma commit_errors (a1 a2 a3 a4 : pyval) (now : Z) (db : Database) :
  constraints db = true -> chained (bindings db) -> throws [ProjectBindingError] (commit a1 a2 a3 a4 now db).
Proof.
  intros Hc C. unfold commit. do 3 (apply throws_bind; [auto with ledger | intros ? _]).
  apply throws_bind; [auto with ledger | intros d Ed%digest_checked]. apply throws_bind; [auto with ledger | intros b (Hb & _ & _)%get_binding_elem].
  case_bool_decide as Hst; [throws_tac |].
  apply throws_bind; [throws_tac | intros ? G%raise_if_ok]. apply throws_bind; [unfold committable; throws_tac; auto with ledger | intros _ _].
  apply throws_bind; [unfold superseded_by; throws_tac | intros q Eq]. bool_to_prop.
  destruct (commit_accepted db b d q now) as (db1 & -> & db2 & E2 & _); try done; [by destruct (b_digest b) |].
  cbn [rbind]. rewrite E2. done.
Qed.

Lemma reconcile_errors (a1 a2 a3 : pyval) (now : Z) (db : Database) :
  constraints db = true -> chained (bindings db) -> throws [ProjectBindingError] (require_reconciliation a1 a2 a3 now db).
Proof.
  intros Hc C. unfold require_reconciliation. do 2 (apply throws_bind; [auto with ledger | intros ? _]).
  apply throws_bind; [destruct a3; cbn [nullable]; throws_tac; unfold rmap; throws_tac; auto with ledger | intros d _].
  apply throws_bind; [auto with ledger | intros b (Hb & _ & _)%get_binding_elem]. unfold reconcile_row.
  apply throws_bind; [throws_tac | intros _ _]. case_bool_decide as Hst.
  { apply throws_bind; [| done]. case_if; [by apply fence_accepted | done]. }
  apply throws_bind; [throws_tac | intros ? G%raise_if_ok]. bool_to_prop.
  pose proof Hc as (_ & _ & (Hk & _ & _) & _)%constraints_split.
  destruct (chained_indexes (put (set_status b RECONCILIATION_REQUIRED now) (bindings db))) as [Uo Uh].
  { by apply unique_map; [intros x _; left; case_bool_decide as E; [injection E as -> -> |] |]. }
  { by apply chained_put_status. }
  destruct (save_accepted db b (set_status b RECONCILIATION_REQUIRED now)) as [-> Hc']; auto; [cbn; set_solver |].
  cbn [rbind]. apply throws_bind; [| done]. case_if; [by apply fence_accepted | done].
Qed.
End Errors.
