(* ===== verification/Replay.v ===== *)
(** * The replay plan of the binding ledger

    [list_replay_plan] reads the rows that are not superseded, groups them by
    Project and selects one row of each.  The lemmas relate the groups to the
    table and the selection to the queries on the partial indexes. *)

From stdpp Require Import sorting.
From S2P Require Import Prelude PyVal WawDomain Unicode Control Tables Bindings BindingsSpec.

Local Open Scope Z_scope.

#[export] Instance key_le_total : Total key_le.
Proof. intros a b. unfold key_le. destruct (str_leb a b) eqn:E; [by left | right; by apply str_leb_total]. Qed.
#[export] Instance key_le_trans : Transitive key_le.
Proof. intros a b c. unfold key_le. apply str_leb_trans. Qed.

(** ** Groups *)

Lemma candidates_add (b : ProjectBindingRecord) (groups : list (pystr * list ProjectBindingRecord)) (p : pystr) :
  candidates_of p (add_candidate b groups) = if str_eqb (b_project_id b) p then candidates_of p groups ++ [b] else candidates_of p groups.
Proof.
  unfold candidates_of. induction groups as [|[q l] g IH].
  - cbn. by destruct (str_eqb (b_project_id b) p).
  - cbn [add_candidate]. destruct (str_eqb q (b_project_id b)) eqn:E.
    + apply str_eqb_eq in E as ->. cbn [find fst]. by destruct (str_eqb (b_project_id b) p) eqn:Ep.
    + cbn [find fst]. destruct (str_eqb q p) eqn:Eq; [| done]. apply str_eqb_eq in Eq as ->.
      destruct (str_eqb (b_project_id b) p) eqn:Ep; [apply str_eqb_eq in Ep; by rewrite Ep, str_eqb_refl in E | done].
Qed.

Lemma groups_add (b : ProjectBindingRecord) (groups : list (pystr * list ProjectBindingRecord)) :
  map fst (add_candidate b groups) = if bool_decide (b_project_id b ∈ map fst groups) then map fst groups else map fst groups ++ [b_project_id b].
Proof.
  induction groups as [|[q l] g IH]; [done |]. cbn [add_candidate map fst]. destruct (str_eqb q (b_project_id b)) eqn:E.
  - apply str_eqb_eq in E as ->. rewrite bool_decide_eq_true_2; [done | by apply elem_of_cons; left].
  - apply str_eqb_neq in E. cbn [map fst]. rewrite IH. repeat case_bool_decide; try done; exfalso; set_solver.
Qed.

Lemma by_project_snoc (rows : list ProjectBindingRecord) (b : ProjectBindingRecord) :
  by_project (rows ++ [b]) = add_candidate b (by_project rows).
Proof. unfold by_project. by rewrite fold_left_app. Qed.

Lemma candidates_by_project (rows : list ProjectBindingRecord) (p : pystr) (b : ProjectBindingRecord) :
  b ∈ candidates_of p (by_project rows) <-> b ∈ rows /\ b_project_id b = p.
Proof.
  induction rows as [|r rows IH] using rev_ind; [unfold candidates_of; cbn; set_solver |].
  rewrite by_project_snoc, candidates_add, elem_of_app, list_elem_of_singleton. destruct (str_eqb (b_project_id r) p) eqn:E.
  - apply str_eqb_eq in E. rewrite elem_of_app, IH, list_elem_of_singleton. naive_solver.
  - apply str_eqb_neq in E. rewrite IH. naive_solver.
Qed.

Lemma groups_by_project (rows : list ProjectBindingRecord) :
  NoDup (map fst (by_project rows)) /\ forall p, p ∈ map fst (by_project rows) <-> exists b, b ∈ rows /\ b_project_id b = p.
Proof.
  induction rows as [|r rows [N I]] using rev_ind; [split; [constructor | cbn; set_solver] |].
  rewrite by_project_snoc, groups_add. case_bool_decide as E.
  - split; [done |]. intros p. rewrite I. split; [intros (b & Hb & Hp); exists b; set_solver |].
    intros (b & [Hb | ->%list_elem_of_singleton]%elem_of_app & <-); [eauto | by apply I].
  - split; [apply NoDup_app; split_and!; [done | set_solver | apply NoDup_singleton] |].
    intros p. rewrite elem_of_app, I, list_elem_of_singleton. split.
    + intros [(b & Hb & Hp) | ->]; [exists b | exists r]; set_solver.
    + intros (b & [Hb | ->%list_elem_of_singleton]%elem_of_app & <-); eauto.
Qed.

(** ** Selection *)

Lemma replay_loop_ok (db : Database) (groups : list (pystr * list ProjectBindingRecord)) (ids : list pystr) (plan : list ProjectBindingRecord) :
  replay_loop db groups ids = Ok plan -> Forall2 (fun p b => select_replay db (candidates_of p groups) = Ok b) ids plan.
Proof.
  revert plan. induction ids as [|p ids IH]; intros plan E; cbn in E; inv_ok; [constructor |]. constructor; [done | by apply IH].
Qed.

(** The row selected is the open attempt of its Project, or else the current head. *)
Lemma select_replay_ok (db : Database) (p : pystr) (candidates : list ProjectBindingRecord) (b : ProjectBindingRecord) :
  keyed (bindings db) -> chained (bindings db) ->
  (forall x, x ∈ candidates <-> x ∈ bindings db /\ b_project_id x = p /\ b_status x ∈ [PENDING; CURRENT; RECONCILIATION_REQUIRED]) ->
  select_replay db candidates = Ok b ->
  b ∈ bindings db /\ b_project_id b = p
  /\ (forall x, x ∈ bindings db -> b_project_id x = p -> head x = true -> b_status x = CURRENT)
  /\ (open_attempt b = true \/ b_status b = CURRENT /\ forall x, x ∈ bindings db -> b_project_id x = p -> open_attempt x = false)
  /\ validate_replay_candidate db b = Ok tt /\ validate_replay_predecessor db b = Ok tt.
Proof.
  intros K C Hin E. unfold select_replay in E. apply rbind_ok in E as ([] & Hr%raise_if_ok & E).
  assert (Hheads : forall x, x ∈ bindings db -> b_project_id x = p -> head x = true -> b_status x = CURRENT).
  { intros x Hx Hp Hh. unfold head in Hh. apply orb_true_iff in Hh as [Hh | Hh]; bool_to_prop; [done | exfalso].
    apply not_true_iff_false in Hr. apply Hr, existsb_exists. exists x. split; [| by rewrite bool_decide_eq_true_2].
    apply list_elem_of_In, Hin. split_and!; try done. match goal with F : b_status x = _ |- _ => rewrite F end. elem. }
  assert (Hopen : forall x, x ∈ candidates -> open_attempt x = absent (b_digest x) && bool_decide (b_status x ∈ [PENDING; RECONCILIATION_REQUIRED])).
  { intros x [Hx _]%Hin. unfold open_attempt. pose proof (chained_pending _ C x Hx) as P. destruct (b_status x); cbn; try by rewrite andb_false_r.
    - by rewrite P.
    - by rewrite andb_true_r. }
  destruct (find _ candidates) as [o |] eqn:Eo.
  - apply rbind_ok in E as ([] & E1 & E). apply rbind_ok in E as ([] & E2 & E). inv_ok. apply find_some in Eo as [Ho%list_elem_of_In Fo].
    pose proof (Hopen _ Ho) as Oo. apply Hin in Ho as (? & ? & ?). split_and!; try done. left. by rewrite Oo.
  - destruct (find _ candidates) as [o |] eqn:Ec in E; [| done].
    apply rbind_ok in E as ([] & E1 & E). apply rbind_ok in E as ([] & E2 & E). inv_ok. apply find_some in Ec as [Ho%list_elem_of_In Fo]. bool_to_prop.
    pose proof Ho as (? & ? & ?)%Hin. split_and!; try done. right. split; [done |]. intros x Hx Hp. apply not_true_iff_false. intros Ox.
    assert (Hxc : x ∈ candidates). { apply Hin. split_and!; try done. unfold open_attempt in Ox. apply orb_true_iff in Ox as [Ox | Ox]; bool_to_prop;
      match goal with F : b_status x = _ |- _ => rewrite F end; elem. }
    rewrite (Hopen x Hxc) in Ox. apply list_elem_of_In in Hxc. by rewrite (find_none _ _ Eo x Hxc) in Ox.
Qed.

(** ** The plan *)

Lemma slice_to_all {A} (n : Z) (l : list A) : blen (slice_to (n + 1) l) <= n -> slice_to (n + 1) l = l.
Proof.
  unfold slice_to, blen. rewrite length_take. intros H. apply take_ge. lia.
Qed.

Lemma Forall2_elem_r {A B} (P : A -> B -> Prop) (l : list A) (k : list B) (b : B) : Forall2 P l k -> b ∈ k -> exists a, a ∈ l /\ P a b.
Proof. intros F Hb. induction F; [set_solver |]. apply elem_of_cons in Hb as [-> | Hb]; [set_solver |]. destruct IHF as (a & ? & ?); set_solver. Qed.

Lemma Forall2_elem_l {A B} (P : A -> B -> Prop) (l : list A) (k : list B) (a : A) : Forall2 P l k -> a ∈ l -> exists b, b ∈ k /\ P a b.
Proof. intros F Ha. induction F; [set_solver |]. apply elem_of_cons in Ha as [-> | Ha]; [set_solver |]. destruct IHF as (b & ? & ?); set_solver. Qed.

(** One row for each Project with a binding that is not superseded, in the order of the identifiers *)
Definition replays (db : Database) (limit : Z) (plan : list ProjectBindingRecord) : Prop :=
  blen plan <= limit /\ NoDup (map b_project_id plan) /\ StronglySorted key_le (map b_project_id plan)
  /\ (forall x, x ∈ bindings db -> b_status x <> SUPERSEDED -> exists b, b ∈ plan /\ b_project_id b = b_project_id x)
  /\ (forall x, x ∈ bindings db -> head x = true -> b_status x = CURRENT)
  /\ forall b, b ∈ plan -> b ∈ bindings db
     /\ (open_attempt b = true
         \/ b_status b = CURRENT /\ forall x, x ∈ bindings db -> b_project_id x = b_project_id b -> open_attempt x = false)
     /\ validate_replay_candidate db b = Ok tt /\ validate_replay_predecessor db b = Ok tt.

Lemma list_replay_plan_ok (db db' : Database) (limit : pyval) (plan : list ProjectBindingRecord) :
  keyed (bindings db) -> chained (bindings db) -> list_replay_plan limit db = Ok (plan, db') ->
  db' = db /\ exists n, limit = PInt n /\ 1 <= n <= MAX_REPLAY_BINDINGS /\ replays db n plan.
Proof.
  intros K C E. unfold list_replay_plan in E. apply rbind_ok in E as (n & En & E).
  assert (Hn : limit = PInt n /\ 1 <= n <= MAX_REPLAY_BINDINGS).
  { unfold enumeration_limit in En. destruct limit; try done. destruct (in_range 1 z MAX_REPLAY_BINDINGS) eqn:R; inv_ok. bool_to_prop. done. }
  destruct Hn as [-> Hn]. set (sorted := merge_sort row_le _) in E. apply rbind_ok in E as ([] & Hl%raise_if_ok & E).
  apply orb_false_iff in Hl as [Hl1 Hl2]. bool_to_prop. rewrite (slice_to_all (2 * n) sorted Hl1) in *. inv_ok. injection E as <- <-.
  split; [done |]. exists n. split; [done | split; [done |]].
  assert (Hrows : forall x, x ∈ sorted <-> x ∈ bindings db /\ b_status x ∈ [PENDING; CURRENT; RECONCILIATION_REQUIRED]).
  { intros x. unfold sorted. rewrite (merge_sort_Permutation row_le), list_elem_of_filter. tauto. }
  destruct (groups_by_project sorted) as [ND Hg]. set (groups := by_project sorted) in *. set (ids := merge_sort key_le (map fst groups)) in *.
  assert (Pi : ids ≡ₚ map fst groups) by apply merge_sort_Permutation.
  match goal with F : replay_loop _ _ _ = Ok _ |- _ => pose proof (replay_loop_ok _ _ _ _ F) as F2 end.
  assert (Hcand : forall p x, x ∈ candidates_of p groups <->
            x ∈ bindings db /\ b_project_id x = p /\ b_status x ∈ [PENDING; CURRENT; RECONCILIATION_REQUIRED]).
  { intros p x. unfold groups. rewrite candidates_by_project, Hrows. tauto. }
  pose proof (fun p b => select_replay_ok db p _ b K C (Hcand p)) as Hsel.
  assert (Hids : map b_project_id a = ids).
  { clear -F2 Hsel. induction F2 as [|p b ids' plan' Hb F IH]; [done |]. cbn. f_equal; [| done]. by destruct (Hsel p b Hb) as (_ & -> & _). }
  assert (Hcover : forall x, x ∈ bindings db -> b_status x <> SUPERSEDED -> b_project_id x ∈ ids).
  { intros x Hx Hs. rewrite Pi, Hg. exists x. split; [apply Hrows; split; [done |] | done]. destruct (b_status x); (done || elem). }
  unfold replays. rewrite Hids. split_and!.
  - unfold blen. apply Forall2_length in F2. apply Permutation_length in Pi. rewrite length_map in Pi. unfold blen in *. lia.
  - by rewrite Pi.
  - apply (StronglySorted_merge_sort key_le).
  - intros x Hx Hs. destruct (Forall2_elem_l _ _ _ _ F2 (Hcover x Hx Hs)) as (b & Hb & Eb). exists b. split; [done |].
    by destruct (Hsel _ _ Eb) as (_ & ? & _).
  - intros x Hx Hh. assert (Hs : b_status x <> SUPERSEDED) by (intros Es; unfold head in Hh; by rewrite Es in Hh).
    destruct (Forall2_elem_l _ _ _ _ F2 (Hcover x Hx Hs)) as (b & _ & Eb). destruct (Hsel _ _ Eb) as (_ & _ & Hc & _). by apply Hc.
  - intros b Hb. destruct (Forall2_elem_r _ _ _ _ F2 Hb) as (p & Hp & Eb). destruct (Hsel _ _ Eb) as (? & <- & _ & ? & ? & ?). done.
Qed.
