(* ===== verification/Workspaces.v ===== *)
(** * Workspace sessions ([agentbox_core/waw_sessions.py])

    [WorkspaceSessionService] over the tables of [Tables.v].  Each operation is
    the body of its transaction with the checks that precede it; [now] is the
    instant the operation reads, [token] the random part of a new identifier.
    Rows are rebuilt as domain objects ([WawDomain.v]) where the code does so. *)

From S2P Require Import Prelude PyVal Sha256 WawDomain Unicode Control Tables.

Local Open Scope Z_scope.

Definition session_conflict (text : string) : exn := err WorkspaceSessionConflict text.
Definition session_not_found : exn := err WorkspaceSessionNotFound "workspace_id".
Definition session_not_ready : exn := err WorkspaceSessionNotReady "project_id".
Definition epoch_error (text : string) : exn := err RuntimeEpochBindingError text.

Inductive EpochClassification : Type := FIRST_BIND | API_RESTART | RUNTIME_RESTART.

#[export] Instance EpochClassification_eq_dec : EqDecision EpochClassification.
Proof. solve_decision. Defined.

(** [_runtime_epoch] *)
Definition runtime_epoch (v : pyval) : result Z :=
  match v with
  | PStr s =>
      run! raise_if (negb (match_decimal s)) (epoch_error "Runtime epoch is invalid") in
      let parsed := digits_value s in
      run! raise_if ((parsed =? 0) || (MAX_U64 <? parsed)) (epoch_error "Runtime epoch is invalid") in
      Ok parsed
  | _ => Raise (epoch_error "Runtime epoch is invalid")
  end.

Definition restartable (st : WorkspaceState) : bool := bool_decide (st ∈ [EXITED; STOPPED; MISSING; BROKEN; UNKNOWN]).
Definition terminal (st : WorkspaceState) : bool := bool_decide (st ∈ [EXITED; STOPPED]).

(** [Enum(value)] where the caller does not turn the [ValueError] into another *)
Definition member {A} (members : list A) (value_of : A -> pystr) (v : pyval) : result A :=
  enum_of members value_of v (err PyValueError "is not a valid member").

Definition find_session (workspace_id_value : pystr) (db : Database) : result AgentWorkspaceSessionRecord :=
  run! bind_text workspace_id_value in
  match get workspace_id_value (sessions db) with
  | Some s => Ok s
  | None => Raise session_not_found
  end.

Definition save_session (s : AgentWorkspaceSessionRecord) (db : Database) : result Database :=
  flush (set_sessions db (put s (sessions db))).

Definition get_session (workspace_id_value : pystr) (db : Database) : result (AgentWorkspaceSessionRecord * Database) :=
  let! s := find_session workspace_id_value db in
  Ok (s, db).

(** ** The Runtime epoch fence *)

Definition of_host (id : pystr) (revision : Z) (s : AgentWorkspaceSessionRecord) : bool :=
  str_eqb (s_host_id s) id && (s_host_revision s =? revision).
Definition stop_of_host (id : pystr) (revision : Z) (o : WorkspaceStopOperationRecord) : bool :=
  str_eqb (o_host_id o) id && (o_host_revision o =? revision).

Definition restart_code : pystr := $"RUNTIME_RESTART".
Definition restarted (now : Z) (s : AgentWorkspaceSessionRecord) : AgentWorkspaceSessionRecord :=
  revise s UNKNOWN R_RECONCILIATION_REQUIRED (s_exit_code s) (Some restart_code) (s_generation s) (s_runtime_marker s)
    (s_executable_fingerprint s) STALE (s_evidence_generation s) (s_evidence_epoch s) (sql_increment (s_revision s)) now now.
Definition resolve_stop (r : StopResult) (failure_code : option pystr) (now : Z) (o : WorkspaceStopOperationRecord)
  : WorkspaceStopOperationRecord :=
  mkStopRow (o_id o) (o_workspace_id o) (o_project_id o) (o_agent_type o) (o_generation o) (o_binding_revision o)
    (o_binding_digest o) (o_host_id o) (o_host_revision o) r failure_code (o_created_at o) now.

Definition observe_host (epoch : option pystr) (now : Z) (h : RuntimeHostInstallation) : RuntimeHostInstallation :=
  mkHost (h_id h) (h_revision h) (h_created_at h) now epoch.
Definition save_host (h : RuntimeHostInstallation) (db : Database) : result Database := flush (set_hosts db (put h (hosts db))).

Definition classify_runtime_epoch (host_id host_revision observed_epoch : pyval) (now : Z) (db : Database)
  : result (EpochClassification * Database) :=
  let! observed := runtime_epoch observed_epoch in
  match host_id, host_revision, observed_epoch with
  | PStr id, PInt revision, PStr text =>
      run! raise_if (revision <? 1) (epoch_error "Runtime host identity is invalid") in
      run! bind_text id in
      match get id (hosts db) with
      | None => Raise (epoch_error "Runtime host identity is not current")
      | Some h =>
          run! raise_if (negb (h_revision h =? revision)) (epoch_error "Runtime host identity is not current") in
          match h_last_runtime_epoch h with
          | None =>
              let! db1 := save_host (observe_host (Some text) now h) db in
              Ok (FIRST_BIND, db1)
          | Some raw =>
              let! previous := runtime_epoch (PStr raw) in
              run! raise_if (observed <? previous) (epoch_error "Runtime epoch is stale") in
              if observed =? previous then
                let! db1 := save_host (observe_host (Some raw) now h) db in
                Ok (API_RESTART, db1)
              else
                let! db1 := save_host (observe_host (Some text) now h) db in
                let! db2 := flush (set_sessions db1 (update_where (fun s => of_host id revision s && negb (terminal (s_state s)))
                                                       (restarted now) (sessions db1))) in
                let! db3 := flush (set_stops db2 (update_where (fun o => stop_of_host id revision o && bool_decide (o_result o = S_PENDING))
                                                    (resolve_stop S_RECONCILIATION_REQUIRED (Some restart_code) now) (stops db2))) in
                Ok (RUNTIME_RESTART, db3)
          end
      end
  | _, _, _ => Raise (epoch_error "Runtime host identity is invalid")
  end.

(** ** Creation *)

(** [_insert_workspace] *)
Definition insert_workspace (w : AgentWorkspaceSession) (agent : AgentType) (scope : pystr) (fingerprint : option pystr) (now : Z)
    (db : Database) : result (AgentWorkspaceSessionRecord * Database) :=
  let! name := managed_session_name (PStr (w_project_id w)) (PStr (agent_value agent)) in
  let! marker := managed_marker (PStr (w_host_id w)) (PInt (w_host_revision w)) (PStr (w_project_id w)) (PStr (agent_value agent))
                   (PStr (w_id w)) (PInt 1) (PInt (w_binding_revision w)) (PStr (w_binding_digest w)) in
  let row := mkSession (w_id w) (w_project_id w) scope (w_host_id w) (w_host_revision w) agent STARTING name marker fingerprint 1
               (w_binding_revision w) (w_binding_digest w) 1 now now now None None R_AUTHORITATIVE
               (if present fingerprint then STALE else UNOBSERVED) None None in
  run! bind_text scope in
  run! bind_int (w_binding_revision w) in
  let! db' := except_as (flush (set_sessions db (sessions db ++ [row]))) [IntegrityError]
                (session_conflict "Project/AgentType workspace already exists") in
  Ok (row, db').

Definition scope_ok (scope : pystr) : result unit :=
  raise_if (Nat.eqb (length scope) 0 || (128 <? blen scope)) (domain_error "authorization_scope is invalid").

(** [project is None or project.archived_at is not None or project.state != "ready"] *)
Definition ready_project (project_id : pystr) (db : Database) : result Project :=
  match get project_id (projects db) with
  | None => Raise session_not_ready
  | Some p => run! raise_if (present (p_archived_at p) || negb (str_eqb (p_state p) $"ready")) session_not_ready in Ok p
  end.
Definition current_host (id : pystr) (revision : Z) (db : Database) : result unit :=
  match get id (hosts db) with
  | None => Raise (session_conflict "runtime host identity is not current")
  | Some h => raise_if (negb (h_revision h =? revision)) (session_conflict "runtime host identity is not current")
  end.

Definition first_generation (project_id agent host host_revision binding_revision digest : pyval) : result AgentWorkspaceSession :=
  new_workspace project_id agent host host_revision binding_revision digest (PInt 1) (PStr (state_value STARTING))
    (PStr (reconciliation_value R_AUTHORITATIVE)) None.

Definition create (project_id agent_type_ : pyval) (authorization_scope : pystr) (host_id host_revision binding_revision binding_digest : pyval)
    (executable_fingerprint : option pystr) (now : Z) (db : Database) : result (AgentWorkspaceSessionRecord * Database) :=
  let! agent := member [CLAUDE; CODEX] agent_value agent_type_ in
  run! scope_ok authorization_scope in
  run! raise_if (match executable_fingerprint with Some f => negb (match_hex 64 f) | None => false end)
         (domain_error "executable_fingerprint must be lowercase SHA-256") in
  let! w := first_generation project_id (PStr (agent_value agent)) host_id host_revision binding_revision binding_digest in
  let! _p := ready_project (w_project_id w) db in
  run! current_host (w_host_id w) (w_host_revision w) db in
  insert_workspace w agent authorization_scope executable_fingerprint now db.

Definition create_from_current_binding (project_id : pystr) (agent_type_ : pyval) (authorization_scope : pystr) (now : Z) (db : Database)
  : result (AgentWorkspaceSessionRecord * Database) :=
  let! agent := member [CLAUDE; CODEX] agent_value agent_type_ in
  run! scope_ok authorization_scope in
  run! bind_text project_id in
  let! p := ready_project project_id db in
  let not_current := err WorkspaceSessionNotReady "Project binding is not current" in
  match find (fun b => str_eqb (b_project_id b) project_id && bool_decide (b_status b = CURRENT)) (bindings db) with
  | None => Raise not_current
  | Some b =>
      match b_digest b with
      | None => Raise not_current
      | Some d =>
          run! raise_if (negb (b_project_revision b =? p_revision p) || negb (str_eqb (b_relative_key b) (p_relative_path p))) not_current in
          run! current_host (b_host_id b) (b_host_revision b) db in
          let! w := first_generation (PStr project_id) (PStr (agent_value agent)) (PStr (b_host_id b)) (PInt (b_host_revision b))
                      (PInt (b_revision b)) (PStr d) in
          insert_workspace w agent authorization_scope None now db
      end
  end.

(** ** The lifecycle *)

(** [AgentWorkspaceSession(...)] of a row *)
Definition as_domain (s : AgentWorkspaceSessionRecord) : result AgentWorkspaceSession :=
  new_workspace (PStr (s_project_id s)) (PStr (agent_value (s_agent_type s))) (PStr (s_host_id s)) (PInt (s_host_revision s))
    (PInt (s_binding_revision s)) (PStr (s_binding_digest s)) (PInt (s_generation s)) (PStr (state_value (s_state s)))
    (PStr (reconciliation_value (s_reconciliation_state s))) (Some (PStr (s_id s))).

Definition expected_ok (v : pyval) (text : string) : result Z :=
  match v with
  | PInt z => if 1 <=? z then Ok z else Raise (session_conflict text)
  | _ => Raise (session_conflict text)
  end.

Definition bind_optional {A} (bind : A -> result unit) (v : option A) : result unit :=
  match v with Some a => bind a | None => Ok tt end.

Definition transition (workspace_id_value : pystr) (expected_revision state : pyval) (reconciliation : option pyval)
    (exit_code : option Z) (failure_code : option pystr) (now : Z) (db : Database)
  : result (AgentWorkspaceSessionRecord * Database) :=
  let! expected := expected_ok expected_revision "expected revision is invalid" in
  let! target := member all_states state_value state in
  let! s := find_session workspace_id_value db in
  run! raise_if (negb (s_revision s =? expected)) (session_conflict "workspace revision is stale") in
  let! current := as_domain s in
  let! next := WawDomain.transition current (PStr (state_value target)) reconciliation in
  let! revision := increment (s_revision s) in
  run! bind_optional bind_int exit_code in
  run! bind_optional bind_text failure_code in
  let row := revise s (w_state next) (if present reconciliation then w_reconciliation next else s_reconciliation_state s) exit_code
               failure_code (s_generation s) (s_runtime_marker s) (s_executable_fingerprint s) (s_evidence_state s)
               (s_evidence_generation s) (s_evidence_epoch s) revision now now in
  let! db' := save_session row db in
  Ok (row, db').

Definition begin_start (workspace_id_value : pystr) (expected_revision now : Z) (db : Database)
  : result (AgentWorkspaceSessionRecord * Database) :=
  let! s := find_session workspace_id_value db in
  run! raise_if (negb (s_revision s =? expected_revision) || negb (restartable (s_state s)))
         (session_conflict "workspace is stale or not restartable") in
  run! raise_if (2 ^ 63 - 1 <=? s_generation s) (session_conflict "generation sequence exhausted") in
  let generation := s_generation s + 1 in
  let! marker := managed_marker (PStr (s_host_id s)) (PInt (s_host_revision s)) (PStr (s_project_id s))
                   (PStr (agent_value (s_agent_type s))) (PStr (s_id s)) (PInt generation) (PInt (s_binding_revision s))
                   (PStr (s_binding_digest s)) in
  let! revision := increment (s_revision s) in
  let row := revise s STARTING R_AUTHORITATIVE None None generation marker (s_executable_fingerprint s)
               (if bool_decide (s_evidence_state s = VERIFIED) then STALE else s_evidence_state s) (s_evidence_generation s)
               (s_evidence_epoch s) revision now now in
  let! db' := save_session row db in
  Ok (row, db').

(** ** Executable evidence *)

Definition evidence (s : AgentWorkspaceSessionRecord) : option pystr * option Z * option pystr :=
  (s_executable_fingerprint s, s_evidence_generation s, s_evidence_epoch s).

Definition record_executable_evidence (workspace_id_value : pystr) (expected_revision generation runtime_epoch_ : pyval)
    (executable_fingerprint : pystr) (now : Z) (db : Database) : result (AgentWorkspaceSessionRecord * Database) :=
  let! expected := expected_ok expected_revision "expected revision is invalid" in
  let! g := expected_ok generation "evidence generation is invalid" in
  let! epoch := runtime_epoch runtime_epoch_ in
  run! raise_if (negb (match_hex 64 executable_fingerprint)) (session_conflict "executable fingerprint is invalid") in
  let! s := find_session workspace_id_value db in
  let observed := (Some executable_fingerprint, Some g, Some (str_of_Z epoch)) in
  if negb (s_revision s =? expected) || negb (s_generation s =? g) then
    run! raise_if (negb ((s_revision s =? expected + 1) && bool_decide (s_evidence_state s = VERIFIED)
                         && bool_decide (evidence s = observed)))
           (session_conflict "workspace evidence target is stale") in
    Ok (s, db)
  else if bool_decide (s_evidence_state s = VERIFIED) then
    run! raise_if (negb (bool_decide (evidence s = observed))) (session_conflict "executable evidence differs from current") in
    Ok (s, db)
  else
    let! revision := increment (s_revision s) in
    let row := revise s (s_state s) (s_reconciliation_state s) (s_exit_code s) (s_failure_code s) (s_generation s) (s_runtime_marker s)
                 (Some executable_fingerprint) VERIFIED (Some g) (Some (str_of_Z epoch)) revision now now in
    let! db' := save_session row db in
    Ok (row, db').

Definition executable_evidence_is_current (s : AgentWorkspaceSessionRecord) (epoch : pyval) : bool :=
  match runtime_epoch epoch with
  | Raise _ => false
  | Ok e =>
      bool_decide (s_evidence_state s = VERIFIED)
      && match s_executable_fingerprint s with Some f => match_hex 64 f | None => false end
      && bool_decide (s_evidence_generation s = Some (s_generation s))
      && bool_decide (s_evidence_epoch s = Some (str_of_Z e))
  end.

Definition require_current_executable_evidence (s : AgentWorkspaceSessionRecord) (epoch : pyval) : result unit :=
  raise_if (negb (executable_evidence_is_current s epoch))
    (err WorkspaceExecutableEvidenceRequired "Current Runtime executable evidence is required").

(** ** Stop operations *)

Definition begin_stop (workspace_id_value : pystr) (expected_revision : Z) (token : pystr) (now : Z) (db : Database)
  : result (WorkspaceStopOperationRecord * Database) :=
  let! s := find_session workspace_id_value db in
  run! raise_if (negb (s_revision s =? expected_revision)) (session_conflict "workspace revision is stale") in
  let! current := as_domain s in
  run! WawDomain.transition current (PStr (state_value STOPPING)) None in
  let! operation := new_stop (PStr (s_id s)) (PStr (s_project_id s)) (PStr (agent_value (s_agent_type s))) (PInt (s_generation s))
                      (PInt (s_binding_revision s)) (PStr (s_binding_digest s)) (PStr (s_host_id s)) (PInt (s_host_revision s))
                      None (PStr (stop_value S_PENDING)) token in
  let record := mkStopRow (so_id operation) (s_id s) (s_project_id s) (s_agent_type s) (s_generation s) (s_binding_revision s)
                  (s_binding_digest s) (s_host_id s) (s_host_revision s) (so_result operation) None now now in
  let! revision := increment (s_revision s) in
  let row := revise s STOPPING R_STOPPING (s_exit_code s) (s_failure_code s) (s_generation s) (s_runtime_marker s)
               (s_executable_fingerprint s) (s_evidence_state s) (s_evidence_generation s) (s_evidence_epoch s) revision now
               (s_last_seen_at s) in
  let! db1 := save_session row db in
  let! db2 := flush (set_stops db1 (stops db1 ++ [record])) in
  Ok (record, db2).

(** The comparison of the row with the record of the Stop *)
Definition exact_target (o : WorkspaceStopOperationRecord) (s : AgentWorkspaceSessionRecord) : bool :=
  str_eqb (s_project_id s) (o_project_id o) && bool_decide (s_agent_type s = o_agent_type o) && (s_generation s =? o_generation o)
  && (s_binding_revision s =? o_binding_revision o) && str_eqb (s_binding_digest s) (o_binding_digest o)
  && str_eqb (s_host_id s) (o_host_id o) && (s_host_revision s =? o_host_revision o) && bool_decide (s_state s = STOPPING)
  && bool_decide (s_reconciliation_state s = R_STOPPING).

Definition failure_code_ok (failure_code : option pystr) : bool :=
  match failure_code with
  | Some f => negb (Nat.eqb (length f) 0) && (blen f <=? 64) && forallb (fun c => 32 <=? c) f
  | None => true
  end.

Definition complete_stop (stop_operation_id : pystr) (result_ : pyval) (failure_code : option pystr) (now : Z) (db : Database)
  : result (WorkspaceStopOperationRecord * Database) :=
  let! outcome := member [S_PENDING; S_STOPPED; S_RECONCILIATION_REQUIRED; S_TIMEOUT] stop_value result_ in
  run! raise_if (bool_decide (outcome = S_PENDING)) (session_conflict "stop completion result must be terminal") in
  run! bind_text stop_operation_id in
  match get stop_operation_id (stops db) with
  | None => Raise (err WorkspaceStopNotFound "stop_operation_id")
  | Some o =>
      if negb (bool_decide (o_result o = S_PENDING)) then
        run! raise_if (negb (bool_decide (o_result o = outcome))) (session_conflict "stop operation is already terminal") in
        Ok (o, db)
      else
        run! raise_if (negb (failure_code_ok failure_code)) (session_conflict "stop failure code is invalid") in
        match get (o_workspace_id o) (sessions db) with
        | None => Raise (session_conflict "stop operation binding is stale")
        | Some s =>
            run! raise_if (negb (exact_target o s)) (session_conflict "stop operation binding is stale") in
            let stopped := bool_decide (outcome = S_STOPPED) in
            let! revision := increment (s_revision s) in
            run! bind_optional bind_text failure_code in
            let row := revise s (if stopped then STOPPED else UNKNOWN) (if stopped then R_AUTHORITATIVE else R_RECONCILIATION_REQUIRED)
                         (s_exit_code s) failure_code (s_generation s) (s_runtime_marker s) (s_executable_fingerprint s)
                         (s_evidence_state s) (s_evidence_generation s) (s_evidence_epoch s) revision now now in
            let record := resolve_stop outcome failure_code now o in
            let! db1 := save_session row db in
            let! db2 := flush (set_stops db1 (put record (stops db1))) in
            Ok (record, db2)
        end
  end.
