(* ===== verification/WorkspacesSpec.v ===== *)
(** * What the session operations write

    Each operation of [Workspaces.v] changes the session table row by row: a
    row keeps its identity, a changed row has a later revision, its state moves
    along the lifecycle, and its executable evidence is verified only by the
    operation that records it. *)

From S2P Require Import Prelude PyVal Sha256 WawDomain Unicode Control Tables Bindings BindingsSpec Workspaces.

Local Open Scope Z_scope.

(** ** One row *)

(** The columns that are written once *)
Definition identity (s : AgentWorkspaceSessionRecord)
  : pystr * pystr * pystr * pystr * Z * AgentType * pystr * Z * pystr * Z :=
  (s_id s, s_project_id s, s_authorization_scope s, s_host_id s, s_host_revision s, s_agent_type s, s_runtime_session_name s,
   s_binding_revision s, s_binding_digest s, s_created_at s).

(** A transition of the domain or a fence within a generation, or a restart in the next one *)
Definition lifecycle_edge (s s' : AgentWorkspaceSessionRecord) : Prop :=
  (s_generation s' = s_generation s
   /\ (s_state s' = s_state s \/ s_state s' ∈ TRANSITIONS (s_state s) \/ (s_state s ∉ [EXITED; STOPPED]) /\ s_state s' = UNKNOWN))
  \/ s_generation s' = s_generation s + 1 /\ restartable (s_state s) = true /\ s_state s' = STARTING.

(** Verified evidence is the evidence that was verified, unless this step recorded it. *)
Definition evidence_edge (recorded : AgentWorkspaceSessionRecord -> Prop) (s s' : AgentWorkspaceSessionRecord) : Prop :=
  s_evidence_state s' = VERIFIED ->
  (s_evidence_state s = VERIFIED /\ evidence s' = evidence s /\ s_generation s' = s_generation s) \/ recorded s'.

Record versioned (recorded : AgentWorkspaceSessionRecord -> Prop) (s s' : AgentWorkspaceSessionRecord) : Prop := {
  versioned_identity : identity s' = identity s;
  versioned_revision : s' = s \/ s_revision s < s_revision s' \/ 2 ^ 63 <= s_revision s;
  versioned_state : lifecycle_edge s s';
  versioned_evidence : evidence_edge recorded s s'
}.

Lemma versioned_refl (P : AgentWorkspaceSessionRecord -> Prop) (s : AgentWorkspaceSessionRecord) : versioned P s s.
Proof. split; [done | by left | left; auto | left; auto]. Qed.

Lemma increment_later (z r : Z) : increment z = Ok r -> z < r \/ 2 ^ 63 <= z.
Proof.
  unfold increment, sql_increment, MAX_SQLITE. destruct (z =? 2 ^ 63 - 1) eqn:E; [bool_to_prop; by subst z |].
  intros F. inv_ok. case_if; bool_to_prop; lia.
Qed.

Lemma sql_increment_later (z : Z) : z < sql_increment z \/ 2 ^ 63 <= z.
Proof. unfold sql_increment. case_if; bool_to_prop; lia. Qed.

(** ** The table *)

(** A row of a new workspace *)
Definition created (t : list AgentWorkspaceSessionRecord) (s : AgentWorkspaceSessionRecord) : Prop :=
  s_generation s = 1 /\ s_revision s = 1 /\ s_state s = STARTING /\ s_evidence_state s <> VERIFIED
  /\ forall x, x ∈ t -> s_id x <> s_id s /\ (s_project_id x, s_agent_type x) <> (s_project_id s, s_agent_type s).

Definition grows (recorded : AgentWorkspaceSessionRecord -> Prop) (t t' : list AgentWorkspaceSessionRecord) : Prop :=
  (forall s, s ∈ t -> exists s', s' ∈ t' /\ versioned recorded s s')
  /\ forall s', s' ∈ t' -> (exists s, s ∈ t /\ versioned recorded s s') \/ created t s'.

Lemma grows_map (P : AgentWorkspaceSessionRecord -> Prop) (t : list AgentWorkspaceSessionRecord)
    (f : AgentWorkspaceSessionRecord -> AgentWorkspaceSessionRecord) :
  (forall s, s ∈ t -> versioned P s (f s)) -> grows P t (map f t).
Proof.
  intros Hf. split; [intros s Hs; exists (f s); split; [apply list_elem_of_fmap; eauto | auto] |].
  intros ? (s & -> & Hs)%list_elem_of_fmap. left. eauto.
Qed.

Lemma grows_same (P : AgentWorkspaceSessionRecord -> Prop) (t : list AgentWorkspaceSessionRecord) : grows P t t.
Proof. rewrite <- (map_id t) at 2. apply grows_map. intros s _. apply versioned_refl. Qed.

Lemma sessions_keyed (db : Database) : constraints db = true -> unique_index (fun s => Some (s_id s)) (sessions db) = true.
Proof. by intros (_ & (_ & _ & K & _) & _)%constraints_split. Qed.

Lemma grows_put (P : AgentWorkspaceSessionRecord -> Prop) (db : Database) (s s' : AgentWorkspaceSessionRecord) :
  constraints db = true -> s ∈ sessions db -> versioned P s s' -> grows P (sessions db) (put s' (sessions db)).
Proof.
  intros K%sessions_keyed Hs V. apply grows_map. intros x Hx. case_bool_decide as E; [| apply versioned_refl].
  unfold key_of, session_key in E. assert (x = s) as ->; [| done]. destruct V as [I _ _ _]. injection I as I _ _ _ _ _ _ _ _ _.
  eapply (unique_inj (fun s => Some (s_id s)) (sessions db)); try done. by rewrite E, I.
Qed.

Lemma grows_snoc (P : AgentWorkspaceSessionRecord -> Prop) (db : Database) (s : AgentWorkspaceSessionRecord) :
  constraints (set_sessions db (sessions db ++ [s])) = true -> s_generation s = 1 -> s_revision s = 1 -> s_state s = STARTING ->
  s_evidence_state s <> VERIFIED -> grows P (sessions db) (sessions db ++ [s]).
Proof.
  intros (_ & (_ & _ & K & U & _) & _)%constraints_split Hg Hr Hst He. cbn [sessions set_sessions] in *. split.
  - intros x Hx. exists x. split; [apply elem_of_app; by left | apply versioned_refl].
  - intros x [Hx | ->%list_elem_of_singleton]%elem_of_app; [left; exists x; split; [done | apply versioned_refl] | right].
    split_and!; try done. unfold unique_index in *. apply bool_decide_eq_true_1 in K, U. rewrite omap_app in K. rewrite omap_app in U.
    apply NoDup_app in K as (_ & K & _), U as (_ & U & _). intros x Hx. split; intros E.
    + apply (K (s_id x)); [apply list_elem_of_omap; eauto |]. cbn. rewrite E. by apply list_elem_of_singleton.
    + apply (U (s_project_id x, s_agent_type x)); [apply list_elem_of_omap; eauto |]. cbn. rewrite E. by apply list_elem_of_singleton.
Qed.

(** ** The operations *)

(** Everything but the sessions and the stops is as it was. *)
Definition only_sessions (db db' : Database) : Prop :=
  projects db' = projects db /\ hosts db' = hosts db /\ bindings db' = bindings db.

Definition nothing_recorded (s : AgentWorkspaceSessionRecord) : Prop := False.

(** The effect of a session operation on a database that satisfies its constraints *)
Definition session_effect (recorded : AgentWorkspaceSessionRecord -> Prop) (db db' : Database) : Prop :=
  only_sessions db db' /\ constraints db' = true /\ grows recorded (sessions db) (sessions db').

Lemma effect_none (P : AgentWorkspaceSessionRecord -> Prop) (db : Database) : constraints db = true -> session_effect P db db.
Proof. intros Hc. split_and!; try done. apply grows_same. Qed.

Lemma find_session_ok (id : pystr) (db : Database) (s : AgentWorkspaceSessionRecord) :
  find_session id db = Ok s -> s ∈ sessions db /\ s_id s = id.
Proof.
  unfold find_session. intros E. inv_ok. destruct (get id (sessions db)) as [x |] eqn:G; [| done]. inv_ok. by apply get_elem in G.
Qed.

Lemma save_session_effect (P : AgentWorkspaceSessionRecord -> Prop) (s s' : AgentWorkspaceSessionRecord) (db db' : Database) :
  constraints db = true -> s ∈ sessions db -> versioned P s s' -> save_session s' db = Ok db' ->
  session_effect P db db' /\ db' = set_sessions db (put s' (sessions db)).
Proof. unfold save_session. intros Hc Hs V [-> Hc']%flush_ok. split; [| done]. split_and!; try done. by apply (grows_put P db s). Qed.

Lemma insert_effect (w : AgentWorkspaceSession) (a : AgentType) (scope : pystr) (f : option pystr) (now : Z) (db db' : Database)
    (s : AgentWorkspaceSessionRecord) :
  insert_workspace w a scope f now db = Ok (s, db') -> session_effect nothing_recorded db db' /\ stops db' = stops db.
Proof.
  unfold insert_workspace. intros E. inv_ok. match goal with F : except_as _ _ _ = Ok _ |- _ => apply except_as_ok, flush_ok in F as [-> Hc] end.
  injection E as <- <-. split; [| done]. split_and!; try done. apply grows_snoc; try done. cbn. by destruct (present f).
Qed.

Lemma create_effect (a1 a2 : pyval) (scope : pystr) (a3 a4 a5 a6 : pyval) (f : option pystr) (now : Z) (db db' : Database)
    (s : AgentWorkspaceSessionRecord) :
  create a1 a2 scope a3 a4 a5 a6 f now db = Ok (s, db') -> session_effect nothing_recorded db db' /\ stops db' = stops db.
Proof.
  unfold create. intros E. do 6 (let F := fresh "F" in apply rbind_ok in E as (? & F & E)). by eapply insert_effect.
Qed.

Lemma create_from_effect (p : pystr) (a : pyval) (scope : pystr) (now : Z) (db db' : Database) (s : AgentWorkspaceSessionRecord) :
  create_from_current_binding p a scope now db = Ok (s, db') -> session_effect nothing_recorded db db' /\ stops db' = stops db.
Proof.
  unfold create_from_current_binding. intros E. do 4 (let F := fresh "F" in apply rbind_ok in E as (? & F & E)).
  destruct (find _ (bindings db)) as [b |]; [| done]. destruct (b_digest b) as [d |]; [| done].
  do 3 (let F := fresh "F" in apply rbind_ok in E as (? & F & E)). by eapply insert_effect.
Qed.

(** The domain object of a row, and what the domain allows *)
Lemma as_domain_ok (s : AgentWorkspaceSessionRecord) (w : AgentWorkspaceSession) :
  as_domain s = Ok w -> workspace_wf w /\ w_state w = s_state s.
Proof.
  intros E. split; [by eapply new_workspace_wf |]. unfold as_domain, new_workspace in E. rewrite workspace_state_value in E. inv_ok. done.
Qed.

Lemma domain_transition_ok (s : AgentWorkspaceSessionRecord) (w w' : AgentWorkspaceSession) (v : pyval) (rc : option pyval) :
  as_domain s = Ok w -> WawDomain.transition w v rc = Ok w' -> w_state w' = s_state s \/ w_state w' ∈ TRANSITIONS (s_state s).
Proof.
  intros [W <-]%as_domain_ok E. destruct (transition_ok _ _ _ _ W E) as [_ [-> | (st & r & Hst & ->)]]; [by left | by right].
Qed.

(** The row an operation read, and the row it saved *)
Ltac row_read Hs Hid := match goal with F : find_session _ _ = Ok _ |- _ => apply find_session_ok in F as [Hs Hid] end.
Ltac row_numbered Hr := match goal with F : increment _ = Ok _ |- _ => apply increment_later in F as Hr end.
Ltac row_saved P Hs :=
  match goal with
  | F : save_session _ _ = Ok _ |- _ => eapply (save_session_effect P) in F; [destruct F as [F ->]; exact (conj F eq_refl) | done | exact Hs |]
  end.

Lemma transition_effect (id : pystr) (a1 a2 : pyval) (rc : option pyval) (ec : option Z) (fc : option pystr) (now : Z) (db db' : Database)
    (s : AgentWorkspaceSessionRecord) :
  constraints db = true -> transition id a1 a2 rc ec fc now db = Ok (s, db') ->
  session_effect nothing_recorded db db' /\ stops db' = stops db.
Proof.
  intros Hc. unfold transition. intros E. do 10 (let F := fresh "F" in apply rbind_ok in E as (? & F & E)). inv_ok. injection E as <- <-.
  row_read Hs Hid.
  row_numbered Hr.
  match goal with F : as_domain _ = Ok _, G : WawDomain.transition _ _ _ = Ok _ |- _ => pose proof (domain_transition_ok _ _ _ _ _ F G) as Hst end.
  row_saved nothing_recorded Hs.
  split; [done | by right | left; cbn; tauto | intros Hv; left; done].
Qed.

Lemma begin_start_effect (id : pystr) (r now : Z) (db db' : Database) (s : AgentWorkspaceSessionRecord) :
  constraints db = true -> begin_start id r now db = Ok (s, db') -> session_effect nothing_recorded db db' /\ stops db' = stops db.
Proof.
  intros Hc. unfold begin_start. intros E. do 6 (let F := fresh "F" in apply rbind_ok in E as (? & F & E)). inv_ok. injection E as <- <-.
  row_read Hs Hid.
  row_numbered Hr.
  row_saved nothing_recorded Hs.
  bool_to_prop. split; [done | by right | right; done |]. intros Hv. cbn in Hv. case_bool_decide; done.
Qed.

(** The row that a successful recording leaves *)
Definition recorded_by (id : pystr) (generation epoch : pyval) (fingerprint : pystr) (s : AgentWorkspaceSessionRecord) : Prop :=
  s_id s = id /\ generation = PInt (s_generation s) /\ s_executable_fingerprint s = Some fingerprint
  /\ exists e, runtime_epoch epoch = Ok e /\ s_evidence_epoch s = Some (str_of_Z e).

Lemma record_effect (id : pystr) (a1 g epoch : pyval) (f : pystr) (now : Z) (db db' : Database) (s : AgentWorkspaceSessionRecord) :
  constraints db = true -> record_executable_evidence id a1 g epoch f now db = Ok (s, db') ->
  session_effect (recorded_by id g epoch f) db db' /\ stops db' = stops db.
Proof.
  intros Hc. unfold record_executable_evidence. intros E. do 5 (let F := fresh "F" in apply rbind_ok in E as (? & F & E)).
  destruct (negb _ || negb _) eqn:Eq; [inv_ok; injection E as <- <-; split; [by apply effect_none | done] |].
  case_bool_decide as Hv; [inv_ok; injection E as <- <-; split; [by apply effect_none | done] |].
  do 2 (let F := fresh "F" in apply rbind_ok in E as (? & F & E)). inv_ok. injection E as <- <-. bool_to_prop.
  row_read Hs Hid.
  row_numbered Hr.
  row_saved (recorded_by id g epoch f) Hs.
  split; [done | by right | left; cbn; tauto |]. intros _. right. unfold recorded_by. cbn. split_and!; try done; [| eauto].
  match goal with F : expected_ok g _ = Ok _ |- _ => unfold expected_ok in F; destruct g; try done; destruct (1 <=? z); inv_ok end. congruence.
Qed.

(** ** Stop operations *)

(** The record of a Stop keeps its target, and its result is final. *)
Definition stop_target (o : WorkspaceStopOperationRecord) : pystr * pystr * pystr * AgentType * Z * Z * pystr * pystr * Z * Z :=
  (o_id o, o_workspace_id o, o_project_id o, o_agent_type o, o_generation o, o_binding_revision o, o_binding_digest o, o_host_id o,
   o_host_revision o, o_created_at o).
Definition settles (o o' : WorkspaceStopOperationRecord) : Prop :=
  stop_target o' = stop_target o /\ (o' = o \/ o_result o = S_PENDING /\ o_result o' <> S_PENDING).

(** A new intent is for a session that is stopping. *)
Definition intended (sessions_ : list AgentWorkspaceSessionRecord) (o : WorkspaceStopOperationRecord) : Prop :=
  o_result o = S_PENDING /\ exists s, s ∈ sessions_ /\ s_id s = o_workspace_id o /\ exact_target o s = true.

Definition stops_grow (db db' : Database) : Prop :=
  (forall o, o ∈ stops db -> exists o', o' ∈ stops db' /\ settles o o')
  /\ forall o', o' ∈ stops db' -> (exists o, o ∈ stops db /\ settles o o') \/ intended (sessions db') o'.

Lemma settles_refl (o : WorkspaceStopOperationRecord) : settles o o.
Proof. split; auto. Qed.

Lemma stops_same (db db' : Database) : stops db' = stops db -> stops_grow db db'.
Proof.
  intros E. unfold stops_grow. rewrite E. split; [intros o Ho; exists o | intros o Ho; left; exists o]; (split; [done | apply settles_refl]).
Qed.

Lemma stops_map (db db' : Database) (f : WorkspaceStopOperationRecord -> WorkspaceStopOperationRecord) :
  stops db' = map f (stops db) -> (forall o, o ∈ stops db -> settles o (f o)) -> stops_grow db db'.
Proof.
  intros E Hf. unfold stops_grow. rewrite E. split.
  - intros o Ho. exists (f o). split; [apply list_elem_of_fmap; eauto | auto].
  - intros ? (o & -> & Ho)%list_elem_of_fmap. left. eauto.
Qed.

Lemma effect_stops (P : AgentWorkspaceSessionRecord -> Prop) (db db' : Database) (t : list WorkspaceStopOperationRecord) :
  session_effect P db db' -> constraints (set_stops db' t) = true -> session_effect P db (set_stops db' t).
Proof. intros (O & _ & G) Hc. by split_and!. Qed.

Lemma begin_stop_effect (id : pystr) (r : Z) (token : pystr) (now : Z) (db db' : Database) (o : WorkspaceStopOperationRecord) :
  constraints db = true -> begin_stop id r token now db = Ok (o, db') -> session_effect nothing_recorded db db' /\ stops_grow db db'.
Proof.
  intros Hc. unfold begin_stop. intros E. do 8 (let F := fresh "F" in apply rbind_ok in E as (? & F & E)). inv_ok. injection E as <- <-.
  row_read Hs Hid. row_numbered Hr.
  match goal with F : as_domain _ = Ok _, G : WawDomain.transition _ _ _ = Ok _ |- _ => pose proof F as [W Ew]%as_domain_ok; rename G into Gt end.
  assert (Hst : STOPPING = w_state x1 \/ STOPPING ∈ TRANSITIONS (w_state x1)).
  { unfold WawDomain.transition in Gt. rewrite workspace_state_value in Gt. cbn [rbind] in Gt. case_bool_decide; [by left |].
    case_bool_decide; [by right | done]. }
  match goal with F : new_stop _ _ _ _ _ _ _ _ _ _ _ = Ok ?x |- _ => rename F into Fo end.
  match goal with F : save_session _ _ = Ok _ |- _ => eapply (save_session_effect nothing_recorded) in F as [Heff ->]; [| done | exact Hs |] end.
  - match goal with F : flush _ = Ok _ |- _ => apply flush_ok in F as [-> Hc'] end. split; [by apply effect_stops |].
    split; [intros o Ho; exists o; split; [apply elem_of_app; by left | apply settles_refl] |].
    intros o [Ho | ->%list_elem_of_singleton]%elem_of_app; [left; exists o; split; [done | apply settles_refl] | right]. split.
    + cbn. unfold new_stop in Fo. rewrite stop_result_value in Fo. inv_ok. done.
    + match goal with |- context [sessions (set_stops (set_sessions db (put ?row _)) _)] => exists row end. cbn [sessions set_stops set_sessions].
      split; [| split; [done |]].
      * pose proof (elem_put (K := pystr) (revise x STOPPING R_STOPPING (s_exit_code x) (s_failure_code x) (s_generation x) (s_runtime_marker x)
          (s_executable_fingerprint x) (s_evidence_state x) (s_evidence_generation x) (s_evidence_epoch x) x4 now (s_last_seen_at x)) _ x Hs) as Hin.
        by rewrite bool_decide_eq_true_2 in Hin.
      * unfold exact_target. cbn. by rewrite !str_eqb_refl, !Z.eqb_refl, bool_decide_eq_true_2.
  - split; [done | by right | left; cbn; split; [done |] | by left]. rewrite <- Ew. destruct Hst as [<- | ?]; auto.
Qed.

Lemma complete_stop_effect (id : pystr) (r : pyval) (fc : option pystr) (now : Z) (db db' : Database) (o : WorkspaceStopOperationRecord) :
  constraints db = true -> complete_stop id r fc now db = Ok (o, db') -> session_effect nothing_recorded db db' /\ stops_grow db db'.
Proof.
  intros Hc. unfold complete_stop. intros E. do 3 (let F := fresh "F" in apply rbind_ok in E as (? & F & E)).
  destruct (get id (stops db)) as [x2 |] eqn:Eg; [| done]. apply get_elem in Eg as [Ho Hid].
  case_bool_decide as Hp; cbn [negb] in E; [| inv_ok; injection E as <- <-; split; [by apply effect_none | by apply stops_same]].
  apply rbind_ok in E as ([] & _ & E). destruct (get _ (sessions db)) as [s |] eqn:Es; [| done]. apply get_elem in Es as [Hs _].
  do 5 (let F := fresh "F" in apply rbind_ok in E as (? & F & E)). inv_ok. injection E as <- <-. row_numbered Hr. bool_to_prop.
  assert (Hst : s_state s = STOPPING) by (match goal with F : exact_target _ _ = true |- _ => unfold exact_target in F; by bool_to_prop end).
  match goal with F : save_session _ _ = Ok _ |- _ => eapply (save_session_effect nothing_recorded) in F as [Heff ->]; [| done | exact Hs |] end.
  - match goal with F : flush _ = Ok _ |- _ => apply flush_ok in F as [-> Hc'] end. split; [by apply effect_stops |].
    eapply stops_map; [done |]. intros o Hin.
    cbn beta. match goal with |- settles _ (if ?c then _ else _) => destruct c eqn:E end; [| apply settles_refl].
    bool_to_prop. unfold key_of, stop_key in E. cbn in E.
    pose proof Hc as (_ & _ & _ & U & _)%constraints_split. assert (o = x2) as -> by (eapply unique_inj; try done; cbn; by rewrite E). split; auto.
  - split; [done | by right | left; cbn; split; [done |] | by left]. rewrite Hst. case_bool_decide; set_solver.
Qed.

(** ** The epoch fence *)

(** The number of the epoch a host last bound, 0 before the first *)
Definition bound_epoch (h : RuntimeHostInstallation) : Z :=
  match h_last_runtime_epoch h with Some raw => digits_value raw | None => 0 end.

Definition host_edge (h h' : RuntimeHostInstallation) : Prop :=
  (h_id h', h_revision h', h_created_at h') = (h_id h, h_revision h, h_created_at h) /\ bound_epoch h <= bound_epoch h'.

(** What the classification did to the rows of the host *)
Definition fenced_tables (c : EpochClassification) (id : pystr) (revision now : Z) (db db' : Database) : Prop :=
  match c with
  | RUNTIME_RESTART =>
      sessions db' = update_where (fun s => of_host id revision s && negb (terminal (s_state s))) (restarted now) (sessions db)
      /\ stops db' = update_where (fun o => stop_of_host id revision o && bool_decide (o_result o = S_PENDING))
                       (resolve_stop S_RECONCILIATION_REQUIRED (Some restart_code) now) (stops db)
  | _ => sessions db' = sessions db /\ stops db' = stops db
  end.

Lemma runtime_epoch_ok (v : pyval) (e : Z) :
  runtime_epoch v = Ok e -> exists s, v = PStr s /\ match_decimal s = true /\ e = digits_value s /\ 0 < e <= MAX_U64.
Proof.
  unfold runtime_epoch. destruct v as [| | | | s | | |]; try done. intros E. inv_ok. bool_to_prop. exists s. split_and!; try done.
  assert (P : 0 <= digits_value s); [| lia]. unfold match_decimal in *.
  assert (D : forallb is_digit s = true).
  { match goal with F : _ || _ = true |- _ => apply orb_true_iff in F as [->%str_eqb_eq | F]; [done |] end. unfold match_pos_decimal in *.
    destruct s as [|c r]; [done |]. bool_to_prop. cbn. unfold is_nonzero_digit, is_digit in *. apply andb_true_iff. split; [| done].
    unfold in_range in *. bool_to_prop. apply andb_true_iff. split; apply Z.leb_le; lia. }
  clear -D. unfold digits_value. assert (G : forall a, 0 <= a -> 0 <= fold_left (fun acc c => acc * 10 + (c - 48)) s a); [| by apply G].
  induction s as [|c s IH]; intros a Ha; [done |]. cbn in *. apply andb_true_iff in D as [Dc Ds]. apply IH; [done |].
  unfold is_digit in Dc. bool_to_prop. lia.
Qed.

Lemma save_host_ok (h : RuntimeHostInstallation) (db db' : Database) :
  save_host h db = Ok db' -> db' = set_hosts db (put h (hosts db)) /\ constraints db' = true.
Proof. unfold save_host. intros [-> ?]%flush_ok. done. Qed.

Lemma classify_ok (host_id host_revision epoch : pyval) (now : Z) (db db' : Database) (c : EpochClassification) :
  classify_runtime_epoch host_id host_revision epoch now db = Ok (c, db') ->
  exists id revision h observed stored, host_id = PStr id /\ host_revision = PInt revision /\ runtime_epoch epoch = Ok observed
    /\ h ∈ hosts db /\ h_id h = id /\ h_revision h = revision
    /\ (projects db' = projects db /\ bindings db' = bindings db /\ hosts db' = put (observe_host (Some stored) now h) (hosts db))
    /\ digits_value stored = observed /\ constraints db' = true /\ fenced_tables c id revision now db db'
    /\ match c with
       | FIRST_BIND => h_last_runtime_epoch h = None
       | API_RESTART => bound_epoch h = observed
       | RUNTIME_RESTART => bound_epoch h < observed
       end.
Proof.
  unfold classify_runtime_epoch. intros E. apply rbind_ok in E as (observed & Eo & E).
  pose proof Eo as (text & -> & _ & Et & Hpos)%runtime_epoch_ok. destruct host_id as [| | | | id | | |]; try done.
  destruct host_revision as [| | revision | | | | |]; try done. apply rbind_ok in E as ([] & _ & E). apply rbind_ok in E as ([] & _ & E).
  destruct (get id (hosts db)) as [h |] eqn:Eg; [| done]. apply get_elem in Eg as [Hh Hid]. apply rbind_ok in E as ([] & Hr%raise_if_ok & E).
  bool_to_prop. destruct (h_last_runtime_epoch h) as [raw |] eqn:Er.
  - apply rbind_ok in E as (previous & Ep & E). apply rbind_ok in E as ([] & Hs%raise_if_ok & E). bool_to_prop.
    apply runtime_epoch_ok in Ep as (raw' & [= <-] & _ & Ep & _).
    assert (Hb : bound_epoch h = previous) by (unfold bound_epoch; by rewrite Er).
    destruct (observed =? previous) eqn:Eq; bool_to_prop.
    + apply rbind_ok in E as (db1 & F & E). inv_ok. injection E as <- <-. apply save_host_ok in F as [-> Hc].
      exists (h_id h), (h_revision h), h, (digits_value raw), raw. split_and!; try done.
    + apply rbind_ok in E as (db1 & F1 & E). apply rbind_ok in E as (db2 & F2 & E). apply rbind_ok in E as (db3 & F3 & E). inv_ok. injection E as <- <-.
      apply save_host_ok in F1 as [-> _]. apply flush_ok in F2 as [-> _]. apply flush_ok in F3 as [-> Hc].
      exists (h_id h), (h_revision h), h, (digits_value text), text. split_and!; try done. lia.
  - apply rbind_ok in E as (db1 & F & E). inv_ok. injection E as <- <-. apply save_host_ok in F as [-> Hc].
    exists (h_id h), (h_revision h), h, (digits_value text), text. split_and!; try done.
Qed.

Lemma restarted_versioned (now : Z) (s : AgentWorkspaceSessionRecord) :
  terminal (s_state s) = false -> versioned nothing_recorded s (restarted now s).
Proof.
  unfold terminal. intros Ht. bool_to_prop. split; [done | right; apply sql_increment_later | left; cbn; auto | done].
Qed.

Lemma classify_effect (host_id host_revision epoch : pyval) (now : Z) (db db' : Database) (c : EpochClassification) :
  constraints db = true -> classify_runtime_epoch host_id host_revision epoch now db = Ok (c, db') ->
  (projects db' = projects db /\ bindings db' = bindings db) /\ constraints db' = true
  /\ grows nothing_recorded (sessions db) (sessions db') /\ stops_grow db db'
  /\ forall h, h ∈ hosts db -> exists h', h' ∈ hosts db' /\ host_edge h h'.
Proof.
  intros Hc (id & revision & h & observed & stored & _ & _ & Eo & Hh & _ & _ & (Ep & Eb & Eh) & Es & Hc' & Hf & Hcl)%classify_ok.
  apply runtime_epoch_ok in Eo as (_ & _ & _ & _ & Hpos).
  split_and!; try done.
  - destruct c; cbn in Hf; destruct Hf as [-> _]; try apply grows_same. apply grows_map. intros s _.
    match goal with |- versioned _ _ (if ?c then _ else _) => destruct c eqn:E end; [| apply versioned_refl]. bool_to_prop. by apply restarted_versioned.
  - destruct c; cbn in Hf; destruct Hf as [_ Hs]; try by apply stops_same. eapply stops_map; [done |]. intros o _. cbn beta.
    match goal with |- settles _ (if ?c then _ else _) => destruct c eqn:E end; [| apply settles_refl]. bool_to_prop. split; auto.
  - intros x Hx. rewrite Eh. eexists. split; [by apply (elem_put (K := pystr)) |]. case_bool_decide as E; [| by split].
    unfold key_of, host_key in E. cbn in E. pose proof Hc as (_ & (_ & U & _) & _)%constraints_split.
    assert (x = h) as -> by (eapply unique_inj; try done; cbn; by rewrite E). split; [done |].
    unfold bound_epoch at 2. cbn. rewrite Es. unfold bound_epoch in *. destruct c, (h_last_runtime_epoch h); try done; lia.
Qed.
