(* ===== verification/Ledger.v ===== *)
(** * The durable ledger as a whole

    The operations of [ProjectBindingService] and [WorkspaceSessionService]
    interleaved on one database, with the changes other parts of the program
    make to the tables of Projects and hosts.  A call is one step: it reads, checks
    and writes without another call in between.  The binding service, the
    classification of an epoch, the creation of a workspace and the recording of
    evidence take the write lock first ([BEGIN IMMEDIATE]); [transition],
    [begin_start], [begin_stop] and [complete_stop] read before they write, and are
    taken as one step because the API's handlers call the services one after the
    other.  Each theorem is about every database a sequence of such
    calls reaches. *)

From stdpp Require Import sorting.
From S2P Require Import Prelude PyVal Sha256 WawDomain Unicode Control Tables Bindings BindingsSpec Replay Workspaces WorkspacesSpec.

Local Open Scope Z_scope.

Inductive call : Type :=
| Reserve (project revision host host_revision head_revision head_digest : pyval) (now : Z)
| Commit (project binding_revision project_revision binding_digest : pyval) (now : Z)
| RequireReconciliation (project binding_revision binding_digest : pyval) (now : Z)
| ClassifyEpoch (host host_revision epoch : pyval) (now : Z)
| Create (project agent : pyval) (scope : pystr) (host host_revision binding_revision binding_digest : pyval) (fingerprint : option pystr) (now : Z)
| CreateFromBinding (project : pystr) (agent : pyval) (scope : pystr) (now : Z)
| Transition (workspace : pystr) (revision state : pyval) (reconciliation : option pyval) (exit_code : option Z) (failure_code : option pystr) (now : Z)
| BeginStart (workspace : pystr) (revision now : Z)
| RecordEvidence (workspace : pystr) (revision generation epoch : pyval) (fingerprint : pystr) (now : Z)
| BeginStop (workspace : pystr) (revision : Z) (token : pystr) (now : Z)
| CompleteStop (stop : pystr) (result_ : pyval) (failure_code : option pystr) (now : Z)
| Outside (projects_ : list Project) (new_hosts : list RuntimeHostInstallation).

Definition forget {A} (r : Database * result A) : Database * result unit := (fst r, rmap (fun _ => tt) (snd r)).

(** Other services rewrite the Projects and install hosts, within the constraints. *)
Definition outside (ps : list Project) (hs : list RuntimeHostInstallation) (db : Database) : result (unit * Database) :=
  let! db' := flush (mkDatabase ps (hosts db ++ hs) (sessions db) (bindings db) (stops db)) in
  Ok (tt, db').

Definition run `{Unicode} (c : call) (db : Database) : Database * result unit :=
  match c with
  | Reserve p r h hr er ed now => forget (transaction (reserve p r h hr er ed now) db)
  | Commit p br pr d now => forget (transaction (commit p br pr d now) db)
  | RequireReconciliation p br d now => forget (transaction (require_reconciliation p br d now) db)
  | ClassifyEpoch h hr e now => forget (transaction (classify_runtime_epoch h hr e now) db)
  | Create p a sc h hr br d f now => forget (transaction (create p a sc h hr br d f now) db)
  | CreateFromBinding p a sc now => forget (transaction (create_from_current_binding p a sc now) db)
  | Transition w r st rc ec fc now => forget (transaction (transition w r st rc ec fc now) db)
  | BeginStart w r now => forget (transaction (begin_start w r now) db)
  | RecordEvidence w r g e f now => forget (transaction (record_executable_evidence w r g e f now) db)
  | BeginStop w r token now => forget (transaction (begin_stop w r token now) db)
  | CompleteStop o r fc now => forget (transaction (complete_stop o r fc now) db)
  | Outside ps hs => forget (transaction (outside ps hs) db)
  end.

Definition run_all `{Unicode} (cs : list call) (db : Database) : Database := fold_left (fun d c => fst (run c d)) cs db.

(** A database without sessions, bindings or stops *)
Definition fresh (db : Database) : Prop := constraints db = true /\ sessions db = [] /\ bindings db = [] /\ stops db = [].

(** ** The invariant and the step *)

Definition ledger_inv (db : Database) : Prop := constraints db = true /\ chained (bindings db).

(** The row a call leaves when it records evidence *)
Definition records (c : call) (s : AgentWorkspaceSessionRecord) : Prop :=
  match c with
  | RecordEvidence id _ g e f _ => recorded_by id g e f s
  | _ => False
  end.

Definition bindings_grow (t t' : list ProjectBindingRecord) : Prop :=
  (forall b, b ∈ t -> exists b', b' ∈ t' /\ evolves b b')
  /\ forall b', b' ∈ t' -> (exists b, b ∈ t /\ evolves b b') \/ appended t b'.

Definition hosts_grow (t t' : list RuntimeHostInstallation) : Prop := forall h, h ∈ t -> exists h', h' ∈ t' /\ host_edge h h'.

Record ledger_step (recorded : AgentWorkspaceSessionRecord -> Prop) (db db' : Database) : Prop := {
  step_bindings : bindings_grow (bindings db) (bindings db');
  step_sessions : grows recorded (sessions db) (sessions db');
  step_stops : stops_grow db db';
  step_hosts : hosts_grow (hosts db) (hosts db')
}.

Lemma bindings_same (t : list ProjectBindingRecord) : bindings_grow t t.
Proof. split; [intros b Hb; exists b | intros b Hb; left; exists b]; (split; [done | apply binding_evolves_refl]). Qed.

Lemma hosts_same (t : list RuntimeHostInstallation) : hosts_grow t t.
Proof. intros h Hh. exists h. repeat split; [done | lia]. Qed.

Lemma grows_mono (P Q : AgentWorkspaceSessionRecord -> Prop) (t t' : list AgentWorkspaceSessionRecord) :
  (forall s, P s -> Q s) -> grows P t t' -> grows Q t t'.
Proof.
  intros PQ [G1 G2].
  assert (V : forall s s', versioned P s s' -> versioned Q s s').
  { intros s s' [I R S E]. split; try done. intros Hv. destruct (E Hv); auto. }
  split; [intros s Hs; destruct (G1 s Hs) as (s' & ? & ?); eauto | intros s' Hs'; destruct (G2 s' Hs') as [(s & ? & ?) | ?]; eauto].
Qed.

Lemma step_same (P : AgentWorkspaceSessionRecord -> Prop) (db : Database) : ledger_step P db db.
Proof. split; [apply bindings_same | apply grows_same | by apply stops_same | apply hosts_same]. Qed.

(** A session operation leaves the bindings alone. *)
Lemma effect_step (P Q : AgentWorkspaceSessionRecord -> Prop) (db db' : Database) :
  (forall s, P s -> Q s) -> ledger_inv db -> session_effect P db db' -> stops_grow db db' -> ledger_inv db' /\ ledger_step Q db db'.
Proof.
  intros PQ [Hc C] ((_ & Eh & Eb) & Hc' & G) S. split; [split; [done | by rewrite Eb] |].
  split; [rewrite Eb; apply bindings_same | by apply (grows_mono P) | done | rewrite Eh; apply hosts_same].
Qed.

Lemma keyed_of (db : Database) : constraints db = true -> keyed (bindings db).
Proof. by intros (_ & _ & (K & _) & _)%constraints_split. Qed.

(** A binding operation that leaves the sessions alone *)
Lemma write_step (P : AgentWorkspaceSessionRecord -> Prop) (now : Z) (db db' : Database) :
  ledger_inv db -> db' = set_bindings db (bindings db') -> constraints db' = true -> ledger_write db now (bindings db') ->
  ledger_inv db' /\ ledger_step P db db'.
Proof.
  intros [Hc C] E Hc' W. pose proof (keyed_of db Hc) as K. pose proof (keyed_of db' Hc') as K'.
  split; [split; [done | by apply (write_chained db now)] |]. rewrite E. split; cbn [bindings sessions stops hosts set_bindings].
  - by apply (write_evolves db now).
  - apply grows_same.
  - by apply stops_same.
  - apply hosts_same.
Qed.

Lemma fenced_versioned (b : ProjectBindingRecord) (now : Z) (s : AgentWorkspaceSessionRecord) :
  fence_target b s = true -> versioned nothing_recorded s (fenced_row now s).
Proof.
  unfold fence_target. intros F. bool_to_prop. split; [done | right; apply sql_increment_later | left; cbn | intros Hv; left; done].
  split; [done | right; right; split; [set_solver | done]].
Qed.

Lemma reconcile_sessions (P : AgentWorkspaceSessionRecord -> Prop) (b : ProjectBindingRecord) (now : Z) (db db' : Database) :
  reconciles b now db db' -> grows P (sessions db) (sessions db').
Proof.
  unfold reconciles. destruct (present (b_digest b)); [intros [-> _] | intros ->; apply grows_same].
  apply (grows_mono nothing_recorded); [done |]. apply grows_map. intros s _.
  destruct (fence_target b s) eqn:E; [by eapply fenced_versioned | apply versioned_refl].
Qed.

Lemma forget_ok {A} (body : Database -> result (A * Database)) (db db' : Database) (r : result unit) :
  forget (transaction body db) = (db', r) -> (exists a, body db = Ok (a, db') /\ r = Ok tt) \/ (exists e, body db = Raise e /\ r = Raise e /\ db' = db).
Proof. unfold forget, transaction. destruct (body db) as [[a d] | e]; cbn; intros [= <- <-]; eauto 6. Qed.

Section Runs.
Context `{Unicode}.

Lemma run_step (c : call) (db db' : Database) (r : result unit) :
  ledger_inv db -> run c db = (db', r) -> ledger_inv db' /\ ledger_step (records c) db db'.
Proof.
  intros I. pose proof I as [Hc C]. destruct c; cbn [run]; intros E; (apply forget_ok in E as [(a & E & _) | (e & _ & _ & ->)]; [| split; [done | apply step_same]]).
  - apply reserve_writes in E as (E & Hc' & W); [| done]. by eapply write_step.
  - apply commit_writes in E as (E & Hc' & W); [| done]. by eapply write_step.
  - apply reconcile_writes in E as (E & Hc' & W & _ & _ & R); [| done].
    pose proof (keyed_of db Hc) as K. pose proof (keyed_of db' Hc') as K'. split; [split; [done | by apply (write_chained db now)] |].
    split; [by apply (write_evolves db now) | by eapply reconcile_sessions | apply stops_same; by rewrite E | rewrite E; apply hosts_same].
  - apply classify_effect in E as ((_ & Eb) & Hc' & G & S & H'); [| done]. split; [split; [done | by rewrite Eb] |].
    split; [rewrite Eb; apply bindings_same | done | done | done].
  - apply create_effect in E as [E S]. by eapply effect_step; [| | | apply stops_same].
  - apply create_from_effect in E as [E S]. by eapply effect_step; [| | | apply stops_same].
  - apply transition_effect in E as [E S]; [| done]. by eapply effect_step; [| | | apply stops_same].
  - apply begin_start_effect in E as [E S]; [| done]. by eapply effect_step; [| | | apply stops_same].
  - apply record_effect in E as [E S]; [| done]. by eapply effect_step; [| | | apply stops_same].
  - apply begin_stop_effect in E as [E S]; [| done]. by eapply effect_step.
  - apply complete_stop_effect in E as [E S]; [| done]. by eapply effect_step.
  - unfold outside in E. inv_ok. injection E as <- <-. match goal with F : flush _ = Ok _ |- _ => apply flush_ok in F as [-> Hc'] end.
    split; [by split |]. split; [apply bindings_same | apply grows_same | by apply stops_same |].
    intros h Hh. exists h. split; [apply elem_of_app; by left | split; [done | lia]].
Qed.

Lemma fresh_inv (db : Database) : fresh db -> ledger_inv db.
Proof. intros (Hc & _ & Eb & _). split; [done |]. rewrite Eb. split; set_solver. Qed.

Lemma ledger_run_inv (cs : list call) (db : Database) : ledger_inv db -> ledger_inv (run_all cs db).
Proof.
  revert db. induction cs as [|c cs IH]; intros db I; [done |]. cbn. apply IH. destruct (run c db) as [db' r] eqn:E. by destruct (run_step c db db' r I E).
Qed.

Lemma run_all_snoc (cs : list call) (c : call) (db : Database) : run_all (cs ++ [c]) db = fst (run c (run_all cs db)).
Proof. unfold run_all. by rewrite fold_left_app. Qed.
End Runs.

(** ** Landing a commit *)

(** The predecessor of an open attempt is the head. *)
Lemma superseded_by_lands (db : Database) (b : ProjectBindingRecord) :
  ledger_inv db -> b ∈ bindings db -> open_attempt b = true -> exists q, superseded_by db b = Ok q.
Proof.
  intros [Hc C] Hb Ho. pose proof (keyed_of db Hc) as K. destruct (chained_shape (bindings db) (b_project_id b) K C) as (n & m & Hnm & I & S).
  assert (Hr : b_revision b = m + 1).
  { assert (Hd : b_digest b = None).
    { unfold open_attempt in Ho. apply orb_true_iff in Ho as [Ho | Ho]; bool_to_prop; [by apply (chained_pending _ C) | by destruct (b_digest b)]. }
    destruct (S b Hb eq_refl) as (D & _). rewrite Hd in D. pose proof (proj2 (I (b_revision b)) ltac:(eauto)).
    destruct (decide (b_revision b <= m)) as [Hle%D | ?]; [done | lia]. }
  unfold superseded_by. destruct (b_previous_revision b) as [r |] eqn:Ep.
  - destruct (chained_previous _ b r C Hb Ep) as [E _]. destruct (chained_link _ C b Hb) as (q & Hq & Eq & Rq & Pq & Dq & _).
    { pose proof (chained_positive _ C b Hb). destruct (decide (b_revision b = 1)) as [E1 | ?]; [| lia]. destruct (chained_first _ C b Hb E1); congruence. }
    assert (r = b_revision q) as -> by lia. rewrite <- Eq, (get_keyed _ q K Hq), Dq.
    destruct (S q Hq Eq) as (_ & Sq & _). rewrite Rq, Hr in Sq. replace (m + 1 - 1 <? m) with false in Sq by lia. replace (m + 1 - 1 =? m) with true in Sq by lia.
    rewrite !bool_decide_eq_true_2 by done. cbn. eauto.
  - destruct (find_head db (b_project_id b)) as [h |] eqn:Eh; [exfalso | cbn; eauto]. apply find_head_elem in Eh as (Hh & Ph & Dh & _).
    destruct (S h Hh Ph) as (D & _). apply D in Dh. pose proof (chained_positive _ C h Hh).
    destruct (chained_link _ C b Hb ltac:(lia)) as (q & _ & _ & _ & Pq & _). congruence.
Qed.

(** A row the fence passes over has the state it would give. *)
Lemma already_fenced_state (s : AgentWorkspaceSessionRecord) :
  already_fenced s <> Some false -> s_state s = UNKNOWN /\ s_reconciliation_state s = R_RECONCILIATION_REQUIRED.
Proof.
  unfold already_fenced. intros Hn. destruct (bool_decide (s_state s = UNKNOWN)) eqn:E1; [| by destruct Hn].
  destruct (bool_decide (s_reconciliation_state s = R_RECONCILIATION_REQUIRED)) eqn:E2; [by bool_to_prop | by destruct Hn].
Qed.

Section Theorems.
Context `{Unicode}.

(** C15: whatever calls ran, the bindings of a Project are one chain: its
    revisions are 1..n without a gap or a duplicate, each names the revision and
    digest of the one before, those up to some m (n or n-1) are attested, all before the m-th are
    superseded, the m-th is the one head and an m+1-th the one open attempt; and
    a further call only moves rows forward, never changing a digest or what was
    asked of the Runtime, or appends one attempt after an attested head. *)
Theorem binding_chain (db0 : Database) (cs : list call) :
  fresh db0 ->
  let db := run_all cs db0 in
  (forall p, exists n m, chain_of (bindings db) p n m)
  /\ (forall a b, a ∈ bindings db -> b ∈ bindings db -> b_project_id a = b_project_id b -> b_revision a = b_revision b -> a = b)
  /\ forall c db' r, run c db = (db', r) -> bindings_grow (bindings db) (bindings db').
Proof.
  intros F db. pose proof (ledger_run_inv cs db0 (fresh_inv db0 F)) as I. fold db in I. pose proof I as [Hc C].
  split; [intros p; apply chained_shape; [by apply keyed_of | done] |].
  split; [intros a b; apply keyed_inj; by apply keyed_of |]. intros c db' r E. by destruct (run_step c db db' r I E) as [_ [G _ _ _]].
Qed.

(** The ledger's operations raise its own errors only, so no
    statement they send is ever refused by a constraint; and an attested digest
    lands: committing an open attempt whose Project and host are still the ones
    it was reserved for succeeds and makes it the head. *)
Theorem commit_lands (db0 : Database) (cs : list call) :
  fresh db0 ->
  let db := run_all cs db0 in
  (forall p r h hr er ed now, throws [ProjectBindingError] (reserve p r h hr er ed now db))
  /\ (forall p br pr d now, throws [ProjectBindingError] (commit p br pr d now db))
  /\ (forall p br d now, throws [ProjectBindingError] (require_reconciliation p br d now db))
  /\ forall b d now, b ∈ bindings db -> open_attempt b = true -> match_id $"prj" (b_project_id b) = true ->
     b_revision b <= MAX_SQLITE -> 1 <= b_project_revision b <= MAX_SQLITE -> match_hex 64 d = true ->
     committable db b (b_project_revision b) = Ok tt ->
     exists db', commit (PStr (b_project_id b)) (PInt (b_revision b)) (PInt (b_project_revision b)) (PStr d) now db = Ok (attest b d now, db')
                 /\ attest b d now ∈ bindings db' /\ head (attest b d now) = true.
Proof.
  intros F db. pose proof (ledger_run_inv cs db0 (fresh_inv db0 F)) as I. fold db in I. pose proof I as [Hc C].
  split_and!; [intros; apply reserve_errors | intros; by apply commit_errors | intros; by apply reconcile_errors |].
  intros b d now Hb Ho Hp Hr Hpr Hd Hcm. unfold commit, identifier, digest. rewrite Hp, Hd. cbn [rbind].
  pose proof (chained_positive _ C b Hb). unfold positive_integer, in_range. replace ((1 <=? b_revision b) && (b_revision b <=? MAX_SQLITE)) with true by lia.
  replace ((1 <=? b_project_revision b) && (b_project_revision b <=? MAX_SQLITE)) with true by lia. cbn [rbind].
  rewrite (get_keyed _ b (keyed_of db Hc) Hb). cbn [found rbind].
  assert (Hopen : b_digest b = None /\ b_status b ∈ [PENDING; RECONCILIATION_REQUIRED]).
  { unfold open_attempt in Ho. apply orb_true_iff in Ho as [Ho | Ho]; bool_to_prop.
    - split; [by apply (chained_pending _ C) | rewrite Ho; elem].
    - split; [by destruct (b_digest b) |]. match goal with G : b_status b = _ |- _ => rewrite G end. elem. }
  destruct Hopen as [Hn Hst]. rewrite bool_decide_eq_false_2 by (intros E; rewrite E in Hst; set_solver).
  rewrite bool_decide_eq_true_2, Hn by done. cbn [negb present orb raise_if rbind]. rewrite Hcm. cbn [rbind].
  destruct (superseded_by_lands db b I Hb Ho) as [q Eq]. rewrite Eq. cbn [rbind].
  assert (Hdc : digest_check d = true) by (apply (digest_checked (PStr d) EmptyString); cbn; by rewrite Hd).
  destruct (commit_accepted db b d q now Hc C Hb Hn Hst Hdc Eq) as (db1 & -> & db2 & E2 & Hin). cbn [rbind]. rewrite E2. cbn [rbind].
  by exists db2.
Qed.

(** A call that is repeated after its answer was lost gives the same
    answer and changes nothing: the open attempt that was reserved, the binding that
    was committed, the row that requires reconciliation. *)
Theorem binding_retries (db : Database) (later : Z) :
  (forall p r h hr er ed now b db', reserve p r h hr er ed now db = Ok (b, db') -> reserve p r h hr er ed later db' = Ok (b, db'))
  /\ (forall p br pr d now b db', commit p br pr d now db = Ok (b, db') -> commit p br pr d later db' = Ok (b, db'))
  /\ (forall p br d now b db', require_reconciliation p br d now db = Ok (b, db') -> require_reconciliation p br d later db' = Ok (b, db')).
Proof. split_and!; intros *; [apply reserve_again | apply commit_again | apply reconcile_again]. Qed.

(** C18: a binding with a digest that is made to require reconciliation
    fences, in the same transaction, every workspace bound to it: in the new
    database each is exited, stopped, still stopping, or unknown and to be
    reconciled; a row the fence changed has exactly the next revision, and
    no other row changed. *)
Theorem reconciliation_fences (db0 : Database) (cs : list call) (p br d : pyval) (now : Z) (b : ProjectBindingRecord) (db' : Database) :
  fresh db0 -> let db := run_all cs db0 in
  require_reconciliation p br d now db = Ok (b, db') -> present (b_digest b) = true ->
  b_status b = RECONCILIATION_REQUIRED /\ b ∈ bindings db'
  /\ Forall2 (fun s s' => s' = s \/ s' = fenced_row now s /\ s_revision s' = s_revision s + 1
                /\ (s_project_id s, s_binding_revision s, Some (s_binding_digest s)) = (b_project_id b, b_revision b, b_digest b))
       (sessions db) (sessions db')
  /\ forall s, s ∈ sessions db' -> (s_project_id s, s_binding_revision s, Some (s_binding_digest s)) = (b_project_id b, b_revision b, b_digest b) ->
     s_state s ∈ [EXITED; STOPPED; STOPPING] \/ s_state s = UNKNOWN /\ s_reconciliation_state s = R_RECONCILIATION_REQUIRED.
Proof.
  intros F db E Hd. pose proof (ledger_run_inv cs db0 (fresh_inv db0 F)) as [Hc C]. fold db in Hc, C.
  apply reconcile_writes in E as (_ & _ & _ & Hst & Hb & R); [| done]. unfold reconciles in R. rewrite Hd in R. destruct R as [-> Hx].
  split_and!; try done.
  - apply Forall2_fmap_r. apply Forall_Forall2_diag, Forall_forall. intros s Hs. simpl.
    destruct (fence_target b s) eqn:E; [right | by left].
    specialize (Hx s Hs E). split; [done |]. split.
    + cbn. unfold sql_increment, MAX_SQLITE in *. by replace (s_revision s <? 2 ^ 63) with true by lia.
    + unfold fence_target in E. bool_to_prop. match goal with G : str_eqb _ _ = true |- _ => apply str_eqb_eq in G end. congruence.
  - intros s (x & Hin & ->)%update_where_elem Hm. destruct (fence_target b x) eqn:E; [by right |].
    destruct (decide (s_state x ∈ [EXITED; STOPPED; STOPPING])) as [? | Hn]; [by left | right]. injection Hm as M1 M2 M3.
    unfold fence_target in E. rewrite M1, M2, str_eqb_refl, Z.eqb_refl, M3 in E. rewrite (bool_decide_eq_true_2 (b_digest b = b_digest b) eq_refl), (bool_decide_eq_false_2 _ Hn) in E.
    cbn [andb negb] in E. apply bool_decide_eq_false_1 in E. by apply already_fenced_state.
Qed.

(** C16: in every reachable database a further call keeps each
    session: its identity, host, binding and name never change, a changed row
    has a later revision (until the counter has no successor), so a
    compare-and-swap on the revision sees every change; its generation grows by
    one exactly when a restartable row is started again, and otherwise its state moves along the
    domain's transitions or, if not terminal, to unknown; new rows are the
    first of their Project and agent.  A Stop keeps its target, and its result
    once it has one; hosts keep their identity and never go back to an older epoch. *)
Theorem sessions_versioned (db0 : Database) (cs : list call) (c : call) (db' : Database) (r : result unit) :
  fresh db0 -> let db := run_all cs db0 in
  run c db = (db', r) ->
  grows (records c) (sessions db) (sessions db') /\ stops_grow db db' /\ hosts_grow (hosts db) (hosts db') /\ (r <> Ok tt -> db' = db).
Proof.
  intros F db E. pose proof (ledger_run_inv cs db0 (fresh_inv db0 F)) as I. fold db in I.
  destruct (run_step c db db' r I E) as [_ [_ G S Hh]]. split_and!; try done. intros Hr.
  destruct c; cbn [run] in E; (apply forget_ok in E as [(a & _ & ->) | (e & _ & _ & ->)]; done).
Qed.

(** C17: when the epoch of a host advances, the transaction that
    records it leaves no workspace of that host with a state it could not have
    checked: each is exited or stopped, or unknown with its evidence stale, so
    that no epoch makes the evidence current; every Stop of the host has a
    result; and a repeated epoch changes no session and no Stop. *)
Theorem restart_fences (db0 : Database) (cs : list call) (host revision epoch : pyval) (now : Z) (c : EpochClassification) (db' : Database) :
  fresh db0 -> let db := run_all cs db0 in
  classify_runtime_epoch host revision epoch now db = Ok (c, db') ->
  exists id rev h observed, host = PStr id /\ revision = PInt rev /\ runtime_epoch epoch = Ok observed
    /\ (h ∈ hosts db /\ h_id h = id /\ h_revision h = rev)
    /\ (exists h', h' ∈ hosts db' /\ h_id h' = id /\ bound_epoch h' = observed)
    /\ match c with
       | RUNTIME_RESTART =>
           bound_epoch h < observed
           /\ (forall s, s ∈ sessions db' -> of_host id rev s = true ->
                s_state s ∈ [EXITED; STOPPED]
                \/ s_state s = UNKNOWN /\ s_reconciliation_state s = R_RECONCILIATION_REQUIRED
                   /\ forall e, executable_evidence_is_current s e = false)
           /\ (forall o, o ∈ stops db' -> stop_of_host id rev o = true -> o_result o <> S_PENDING)
       | _ => sessions db' = sessions db /\ stops db' = stops db /\ (c = API_RESTART -> bound_epoch h = observed)
       end.
Proof.
  intros F db E. pose proof (ledger_run_inv cs db0 (fresh_inv db0 F)) as [Hc C]. fold db in Hc, C.
  apply classify_ok in E as (id & rev & h & observed & stored & -> & -> & Eo & Hh & <- & <- & (_ & _ & Eh) & Es & _ & Hf & Hcl).
  exists (h_id h), (h_revision h), h, observed. split_and!; try done.
  - exists (observe_host (Some stored) now h). split; [| done]. rewrite Eh.
    pose proof (elem_put (K := pystr) (observe_host (Some stored) now h) (hosts db) h Hh) as Hin. by rewrite bool_decide_eq_true_2 in Hin.
  - destruct c; cbn in Hf; destruct Hf as [-> ->]; try done. split_and!; [done | |].
    + intros s (x & _ & ->)%update_where_elem. destruct (of_host _ _ x) eqn:Ex; cbn [andb]; [| congruence].
      destruct (terminal (s_state x)) eqn:Et; cbn [negb]; [intros _; left; unfold terminal in Et; by bool_to_prop |].
      intros _. right. split_and!; try done. intros e. unfold executable_evidence_is_current. destruct (runtime_epoch e); [| done].
      by rewrite bool_decide_eq_false_2.
    + intros o (x & _ & ->)%update_where_elem. destruct (stop_of_host _ _ x) eqn:Ex; cbn [andb]; [| congruence].
      case_bool_decide; [done | by intros _].
Qed.

(** The row of a session, verified with the same evidence in the same generation *)
Definition still_verified (s s0 : AgentWorkspaceSessionRecord) : Prop :=
  s_id s0 = s_id s /\ s_evidence_state s0 = VERIFIED /\ evidence s0 = evidence s /\ s_generation s0 = s_generation s.

(** A verified row was recorded by some call, and has been verified since. *)
Lemma evidence_traced (db0 : Database) (cs : list call) (s : AgentWorkspaceSessionRecord) (number : Z) :
  fresh db0 -> s ∈ sessions (run_all cs db0) -> s_evidence_state s = VERIFIED -> s_evidence_epoch s = Some (str_of_Z number) -> 0 < number <= MAX_U64 ->
  exists before revision e f now after, cs = before ++ RecordEvidence (s_id s) revision (PInt (s_generation s)) e f now :: after
    /\ s_executable_fingerprint s = Some f /\ runtime_epoch e = Ok number
    /\ forall mid rest, after = mid ++ rest ->
       exists s0, s0 ∈ sessions (run_all (before ++ RecordEvidence (s_id s) revision (PInt (s_generation s)) e f now :: mid) db0) /\ still_verified s s0.
Proof.
  intros F Hs Hv Hep Hpos. revert s Hs Hv Hep. induction cs as [|c cs IH] using rev_ind; intros s Hs Hv Hep.
  { destruct F as (_ & E & _). cbn in Hs. rewrite E in Hs. set_solver. }
  pose proof (ledger_run_inv cs db0 (fresh_inv db0 F)) as I. pose proof Hs as Hnow. rewrite run_all_snoc in Hs.
  destruct (run c (run_all cs db0)) as [db' r] eqn:E. destruct (run_step c _ db' r I E) as [_ [_ [_ G] _ _]]. cbn [fst] in Hs.
  destruct (G s Hs) as [(s1 & Hs1 & V) | (_ & _ & _ & N & _)]; [| done]. destruct V as [Id _ _ Ev].
  injection Id as Id _ _ _ _ _ _ _ _ _. destruct (Ev Hv) as [(Hv1 & He1 & Hg1) | Hrec].
  - injection He1 as Hf1 Hg2 He2. destruct (IH s1 Hs1 Hv1 ltac:(by rewrite <- He2)) as (before & revision & e & f & now & after & -> & Ef & Ee & Hm).
    rewrite <- Id, <- Hg1, <- Hf1 in *. exists before, revision, e, f, now, (after ++ [c]). rewrite <- app_assoc. split_and!; try done.
    intros mid rest Hsplit. destruct rest as [|x rest] using rev_ind.
    + rewrite app_nil_r in Hsplit. subst mid. exists s. rewrite app_assoc in Hnow || rewrite <- app_assoc in Hnow. split; [done | by split_and!].
    + rewrite app_assoc in Hsplit. apply app_inj_tail in Hsplit as [-> _]. destruct (Hm mid rest eq_refl) as (s0 & Hs0 & Q1 & Q2 & Q3 & Q4).
      exists s0. split; [done |]. unfold still_verified, evidence in *. split_and!; congruence.
  - destruct c; try done. destruct Hrec as (Hid & -> & Hf & e0 & Ee & Hep0). rewrite Hep in Hep0. injection Hep0 as Hn.
    assert (number = e0) as <-.
    { pose proof (runtime_epoch_ok _ _ Ee) as (_ & _ & _ & _ & Hp0).
      assert (Q : forall z, 0 < z -> digits_value (str_of_Z z) = z).
      { intros z Hz. unfold str_of_Z. replace (z <? 0) with false by lia. apply digits_value_str. lia. }
      rewrite <- (Q number), <- (Q e0) by lia. by rewrite Hn. }
    subst workspace. exists cs, revision, epoch, fingerprint, now, []. split_and!; try done.
    intros mid rest [-> ->]%symmetry%app_nil. exists s. split; [done | by split_and!].
Qed.

(** If the executable evidence of a session is current for an
    epoch, then an earlier call recorded exactly that fingerprint for that
    session, generation and epoch, and in every database since the row has stayed
    verified with it in that generation: no restart of the workspace or of its Runtime
    lies between. *)
Theorem evidence_recorded (db0 : Database) (cs : list call) (s : AgentWorkspaceSessionRecord) (epoch : pyval) :
  fresh db0 -> s ∈ sessions (run_all cs db0) -> executable_evidence_is_current s epoch = true ->
  exists before revision e f now after e_number,
    cs = before ++ RecordEvidence (s_id s) revision (PInt (s_generation s)) e f now :: after
    /\ s_executable_fingerprint s = Some f /\ runtime_epoch e = Ok e_number /\ runtime_epoch epoch = Ok e_number
    /\ forall mid rest, after = mid ++ rest ->
       exists s0, s0 ∈ sessions (run_all (before ++ RecordEvidence (s_id s) revision (PInt (s_generation s)) e f now :: mid) db0) /\ still_verified s s0.
Proof.
  intros F Hs Hcur. unfold executable_evidence_is_current in Hcur. destruct (runtime_epoch epoch) as [number |] eqn:En; [| done].
  bool_to_prop. match goal with G : s_evidence_epoch s = _ |- _ => rename G into Hep end.
  match goal with G : s_evidence_state s = VERIFIED |- _ => rename G into Hv end.
  enough (P : exists before revision e f now after, cs = before ++ RecordEvidence (s_id s) revision (PInt (s_generation s)) e f now :: after
            /\ s_executable_fingerprint s = Some f /\ runtime_epoch e = Ok number
            /\ forall mid rest, after = mid ++ rest ->
               exists s0, s0 ∈ sessions (run_all (before ++ RecordEvidence (s_id s) revision (PInt (s_generation s)) e f now :: mid) db0) /\ still_verified s s0).
  { destruct P as (before & revision & e & f & now & after & ? & ? & ? & ?). by exists before, revision, e, f, now, after, number. }
  pose proof (runtime_epoch_ok _ _ En) as (_ & _ & _ & _ & Hpos). by apply evidence_traced.
Qed.
(** C19: a replay plan has one row for each Project that has a binding
    which is not superseded, in strictly ascending order of Project and within the
    limit: the open attempt where there is one, else the current head; the Project
    and the host of each row are still as it says and its predecessor is
    in the ledger; and there is no plan while some head requires reconciliation. *)
Theorem replay_plan_exact (db0 : Database) (cs : list call) (limit : pyval) (plan : list ProjectBindingRecord) (db' : Database) :
  fresh db0 -> let db := run_all cs db0 in
  list_replay_plan limit db = Ok (plan, db') ->
  db' = db /\ exists n, limit = PInt n /\ 1 <= n <= MAX_REPLAY_BINDINGS /\ replays db n plan.
Proof.
  intros F db E. pose proof (ledger_run_inv cs db0 (fresh_inv db0 F)) as [Hc C]. fold db in Hc, C.
  eapply list_replay_plan_ok; [by apply keyed_of | done | done].
Qed.
End Theorems.

(** ** A run *)

Definition sample_project : pystr := $"prj_" ++ repeat 97 32.
Definition sample_host : pystr := $"wri_" ++ repeat 98 32.
Definition sample_digest : pystr := repeat 99 64.
Definition sample_db : Database :=
  mkDatabase [mkProject sample_project $"demo" $"ready" None 1] [mkHost sample_host 1 0 0 None] [] [] [].
Definition sample_workspace : pystr :=
  match workspace_id (PStr sample_project) (PStr $"codex") with Ok w => w | Raise _ => [] end.

(** The first binding is reserved, committed and used by a workspace whose executable is verified. *)
Definition sample_calls : list call :=
  [Reserve (PStr sample_project) (PInt 1) (PStr sample_host) (PInt 1) PNone PNone 1;
   Commit (PStr sample_project) (PInt 1) (PInt 1) (PStr sample_digest) 2;
   ClassifyEpoch (PStr sample_host) (PInt 1) (PStr $"7") 3;
   CreateFromBinding sample_project (PStr $"codex") $"admin" 4;
   Transition sample_workspace (PInt 1) (PStr $"RUNNING") None None None 5;
   RecordEvidence sample_workspace (PInt 2) (PInt 1) (PStr $"7") sample_digest 6].
Definition sample_ledger : Database := Eval vm_compute in run_all sample_calls sample_db.
Definition sample_session : AgentWorkspaceSessionRecord :=
  match sessions sample_ledger with s :: _ => s | [] => mkSession [] [] [] [] 0 CLAUDE UNKNOWN [] [] None 0 0 [] 0 0 0 0 None None R_UNKNOWN UNOBSERVED None None end.
Definition sample_attempt : list call := firstn 1 sample_calls.
Definition sample_binding : ProjectBindingRecord :=
  mkBinding sample_project 1 $"demo" 1 None None None sample_host 1 PENDING 1 1.

Lemma sample_fresh : fresh sample_db.
Proof. split_and!; vm_compute; reflexivity. Qed.

Lemma ledger_sample_reached : run_all sample_calls sample_db = sample_ledger.
Proof. vm_compute. reflexivity. Qed.

Lemma binding_chain_witness :
  length (bindings sample_ledger) = 1%nat /\ exists n m, chain_of (bindings (run_all sample_calls sample_db)) sample_project n m.
Proof. split; [reflexivity |]. apply (binding_chain sample_db sample_calls sample_fresh). Defined.

Lemma commit_lands_witness :
  exists db', commit (PStr sample_project) (PInt 1) (PInt 1) (PStr sample_digest) 9 (run_all sample_attempt sample_db) = Ok (attest sample_binding sample_digest 9, db').
Proof.
  destruct (commit_lands sample_db sample_attempt sample_fresh) as (_ & _ & _ & L).
  destruct (L sample_binding sample_digest 9) as (db' & E & _); try (vm_compute; reflexivity).
  - vm_compute. apply list_elem_of_here.
  - unfold MAX_SQLITE. cbn. lia.
  - unfold MAX_SQLITE. cbn. lia.
  - exists db'. exact E.
Defined.

Lemma binding_retries_witness :
  exists b db', commit (PStr sample_project) (PInt 1) (PInt 1) (PStr sample_digest) 11 (run_all sample_attempt sample_db) = Ok (b, db')
                /\ commit (PStr sample_project) (PInt 1) (PInt 1) (PStr sample_digest) 13 db' = Ok (b, db').
Proof.
  destruct (commit (PStr sample_project) (PInt 1) (PInt 1) (PStr sample_digest) 11 (run_all sample_attempt sample_db)) as [[b db'] | e] eqn:E;
    [| vm_compute in E; discriminate E].
  exists b, db'. split; [reflexivity |]. apply (proj1 (proj2 (binding_retries (run_all sample_attempt sample_db) 13)) _ _ _ _ _ _ _ E).
Defined.

(** The binding and the database that [require_reconciliation] gives, and those of a restart *)
Definition sample_reconciled : ProjectBindingRecord * Database :=
  Eval vm_compute in match require_reconciliation (PStr sample_project) (PInt 1) (PStr sample_digest) 14 sample_ledger with Ok r => r | Raise _ => (sample_binding, sample_db) end.
Definition sample_restarted : Database :=
  Eval vm_compute in match classify_runtime_epoch (PStr sample_host) (PInt 1) (PStr $"8") 16 sample_ledger with Ok r => snd r | Raise _ => sample_db end.
Definition sample_plan : list ProjectBindingRecord :=
  Eval vm_compute in match list_replay_plan (PInt 256) sample_ledger with Ok r => fst r | Raise _ => [] end.

Lemma sample_reconciles :
  require_reconciliation (PStr sample_project) (PInt 1) (PStr sample_digest) 14 (run_all sample_calls sample_db) = Ok sample_reconciled.
Proof. vm_compute. reflexivity. Qed.
Lemma sample_restarts :
  classify_runtime_epoch (PStr sample_host) (PInt 1) (PStr $"8") 16 (run_all sample_calls sample_db) = Ok (RUNTIME_RESTART, sample_restarted).
Proof. vm_compute. reflexivity. Qed.
Lemma sample_replays : list_replay_plan (PInt 256) (run_all sample_calls sample_db) = Ok (sample_plan, sample_ledger).
Proof. vm_compute. reflexivity. Qed.

Lemma reconciliation_fences_witness :
  map s_state (sessions (snd sample_reconciled)) = [UNKNOWN]
  /\ forall s, s ∈ sessions (snd sample_reconciled) ->
     (s_project_id s, s_binding_revision s, Some (s_binding_digest s))
     = (b_project_id (fst sample_reconciled), b_revision (fst sample_reconciled), b_digest (fst sample_reconciled)) ->
     s_state s ∈ [EXITED; STOPPED; STOPPING] \/ s_state s = UNKNOWN /\ s_reconciliation_state s = R_RECONCILIATION_REQUIRED.
Proof.
  split; [reflexivity |].
  apply (reconciliation_fences sample_db sample_calls _ _ _ 14 (fst sample_reconciled) (snd sample_reconciled) sample_fresh sample_reconciles).
  reflexivity.
Defined.

Lemma sessions_versioned_witness :
  grows (records (BeginStop sample_workspace 3 (repeat 100 32) 15)) (sessions (run_all sample_calls sample_db))
    (sessions (fst (run (BeginStop sample_workspace 3 (repeat 100 32) 15) (run_all sample_calls sample_db)))).
Proof.
  destruct (run (BeginStop sample_workspace 3 (repeat 100 32) 15) (run_all sample_calls sample_db)) as [db' r] eqn:E.
  apply (sessions_versioned sample_db sample_calls _ db' r sample_fresh E).
Defined.

Lemma restart_fences_witness :
  map s_state (sessions sample_restarted) = [UNKNOWN] /\ exists h, h ∈ hosts (run_all sample_calls sample_db) /\ bound_epoch h < 8.
Proof.
  split; [reflexivity |].
  destruct (restart_fences sample_db sample_calls _ _ _ _ _ _ sample_fresh sample_restarts) as (id & rev & h & observed & _ & _ & Eo & (Hh & _ & _) & _ & Hlt & _).
  exists h. split; [exact Hh |]. injection Eo as <-. exact Hlt.
Defined.

Lemma evidence_recorded_witness :
  exists before after r e f now,
    sample_calls = before ++ RecordEvidence (s_id sample_session) r (PInt (s_generation sample_session)) e f now :: after
    /\ s_executable_fingerprint sample_session = Some f.
Proof.
  destruct (evidence_recorded sample_db sample_calls sample_session (PStr $"7") sample_fresh) as (before & r & e & f & now & after & n & E & Ef & _).
  - rewrite ledger_sample_reached. vm_compute. apply list_elem_of_here.
  - vm_compute. reflexivity.
  - exists before, after, r, e, f, now. exact (conj E Ef).
Defined.

Lemma replay_plan_exact_witness : length sample_plan = 1%nat /\ replays (run_all sample_calls sample_db) 256 sample_plan.
Proof.
  split; [reflexivity |].
  destruct (replay_plan_exact sample_db sample_calls (PInt 256) _ _ sample_fresh sample_replays) as (_ & n & [= <-] & _ & R). exact R.
Defined.

(** A Stop whose outcome was not confirmed cannot be asked for again in the
    same generation: the second intent breaks the unique index of the Stops, and
    [begin_stop] lets the database's error out. *)
Example stop_not_retried :
  snd (run (BeginStop sample_workspace 5 (repeat 101 32) 17)
         (run_all (sample_calls ++ [BeginStop sample_workspace 3 (repeat 100 32) 15;
                                    CompleteStop ($"wso_" ++ repeat 100 32) (PStr $"TIMEOUT") None 16]) sample_db))
  = Raise integrity_error.
Proof. vm_compute. reflexivity. Qed.

(** A revision after the first without a predecessor passes the check that
    should demand one: its comparisons with NULL are unknown, not false. *)
Example predecessor_null_accepted :
  holds (predecessor_check (mkBinding sample_project 2 $"demo" 1 None None None sample_host 1 PENDING 1 1)) = true.
Proof. reflexivity. Qed.

(** The check on failure codes accepts control characters, and refuses a
    printable code in which a bracket closes. *)
Example failure_code_check :
  glob_cntrl [7; 10; 27] = false /\ glob_cntrl $"code[1]" = true.
Proof. split; reflexivity. Qed.
