(* ===== verification/Lifecycle.v ===== *)
(** * The lifecycle of workspaces (the workspace part of [WAWLifecycleRegistry] in
    [agentbox_runtime/waw_lifecycle.py])

    The registry starts, stops, observes and reconciles workspaces for the API.  It
    burns a generation in the floor store before an executor starts it, records the
    cgroups of a started workspace in the attestation store, and keeps a workspace
    whose processes may be left over in quarantine until its cgroups are found empty.

    A [Machine] is the inventory of [Registry.v], the memory of the registry that
    concerns workspaces, and the directories of the two stores.  The executor, the
    cgroup factory and what the stores see of the file system are the [Ports]: what
    they answer is a function of the number of questions so far, and may be any
    exception.  Requests are dictionaries that [validate_request] of [Control.v]
    accepted.  Dispatch runs under a lock, so a request is one transition; only the
    end of a detached cleanup comes from outside.  There is no peer authority and
    there are no encrypted attachments, as in [Registry.v]. *)

From S2P Require Import Prelude PyVal Json Unicode Control Canonical Crash Folder Cgroup Floors CgroupStore BindingStore BindingHeads Verifier Registry.

Local Open Scope Z_scope.

(** ** Data *)

(** [WAWLifecycleIdentity] *)
Record Identity : Type := mkIdentity {
  li_workspace : pystr;
  li_project : pystr;
  li_agent : pystr;
  li_generation : pystr;
  li_revision : pystr;
  li_digest : pystr;
  li_host : pystr;
  li_host_revision : pystr
}.

#[export] Instance identity_eq_dec : EqDecision Identity.
Proof. solve_decision. Defined.

(** [int(identity.generation)] of a checked generation *)
Definition generation_of (i : Identity) : Z := digits_value (li_generation i).

(** [replace(identity, generation=...)] *)
Definition with_generation (g : pystr) (i : Identity) : Identity :=
  mkIdentity (li_workspace i) (li_project i) (li_agent i) g (li_revision i) (li_digest i) (li_host i) (li_host_revision i).

(** [WAWLifecycleObservation]; the exit code and the epoch are checked for their
    type. *)
Record Observation : Type := mkObservation {
  ob_state : pystr;
  ob_reconciliation : pystr;
  ob_process : pystr;
  ob_exit_code : pyval;
  ob_epoch : pyval
}.

Definition STATES : list string :=
  ["STARTING"; "RUNNING"; "NEEDS_INTERACTION"; "TRUST_REQUIRED"; "LOGIN_REQUIRED"; "STOPPING"; "EXITED"; "STOPPED"; "MISSING"; "COLLISION"; "BROKEN";
   "UNKNOWN"]%string.
Definition LIFECYCLE_RECONCILIATION : list string :=
  ["authoritative"; "stopping"; "missing"; "collision"; "exited"; "reconciliation_required"; "unknown"]%string.
Definition LIFECYCLE_PROCESS : list string := STATES ++ ["NOT_STARTED"%string].

(** [_OBSERVATION_PROCESS_STATES] and [_OBSERVATION_RECONCILIATION_STATES] *)
Definition OBSERVATIONS : list (string * (list string * list string)) :=
  [("STARTING", (["RUNNING"; "NOT_STARTED"], ["authoritative"; "stopping"]));
   ("RUNNING", (["RUNNING"], ["authoritative"]));
   ("NEEDS_INTERACTION", (["RUNNING"], ["authoritative"]));
   ("TRUST_REQUIRED", (["RUNNING"], ["authoritative"]));
   ("LOGIN_REQUIRED", (["NOT_STARTED"], ["authoritative"]));
   ("STOPPING", (["RUNNING"; "STOPPED"], ["stopping"; "authoritative"]));
   ("EXITED", (["STOPPED"], ["exited"; "authoritative"]));
   ("STOPPED", (["STOPPED"], ["authoritative"]));
   ("MISSING", (["NOT_STARTED"], ["missing"]));
   ("COLLISION", (["UNKNOWN"], ["collision"]));
   ("BROKEN", (["UNKNOWN"], ["reconciliation_required"; "unknown"]));
   ("UNKNOWN", (["UNKNOWN"], ["reconciliation_required"; "unknown"]))]%string.

(** The two tables at a state *)
Definition observed_with (state : pystr) : list string * list string :=
  match List.find (fun e => str_eqb (ustr (fst e)) state) OBSERVATIONS with Some e => snd e | None => ([], []) end.

Definition text_in (s : pystr) (l : list string) : bool := str_in s (names l).

(** [_validate_observation] *)
Definition validate_observation (epoch : pystr) (o : Observation) : result unit :=
  let bounded := dispatch_error "INTERNAL_BOUNDED" in
  run! raise_if (negb (text_in (ob_state o) STATES)) bounded in
  run! raise_if (negb (text_in (ob_reconciliation o) LIFECYCLE_RECONCILIATION)) bounded in
  run! raise_if (negb (text_in (ob_reconciliation o) (snd (observed_with (ob_state o))))) bounded in
  run! raise_if (negb (text_in (ob_process o) LIFECYCLE_PROCESS)) bounded in
  run! raise_if (negb (text_in (ob_process o) (fst (observed_with (ob_state o))))) bounded in
  run! raise_if (if str_eqb (ob_state o) $"EXITED" then is_none (ob_exit_code o) else negb (is_none (ob_exit_code o))) bounded in
  run! match ob_epoch o with
       | PStr e =>
           run! raise_if (negb (match_decimal e) || (digits_value e =? 0)) bounded in
           raise_if (negb (str_eqb e epoch)) (dispatch_error "RUNTIME_INSTALLATION_MISMATCH")
       | _ => Raise bounded
       end in
  match ob_exit_code o with
  | PNone => Ok tt
  | PInt z => raise_if (negb (in_range (-128) z 255)) bounded
  | _ => Raise bounded
  end.

(** [_validate_generation] *)
Definition validate_lifecycle_generation (g : pystr) : result unit :=
  raise_if (negb (match_decimal g) || (digits_value g <? 1) || (MAX_U64 <? digits_value g)) (dispatch_error "PROTOCOL_INVALID").

(** ** The registry *)

(** What the cgroup factory can do: build an attestation; observe a recovery too;
    and finalise one too *)
Inductive Factory : Type := Builder | Observer | Cleaner.

Definition can_observe (f : Factory) : bool := match f with Builder => false | _ => true end.
Definition can_clean (f : Factory) : bool := match f with Cleaner => true | _ => false end.

(** The fields of the registry for workspaces; [lc_detached] are the identities of
    the cleanups that run on their own, [lc_cache] the answered requests with the
    oldest first. *)
Record Lifecycle : Type := mkLifecycle {
  lc_executor : bool;
  lc_floors : option FloorStore;
  lc_groups : option (GroupStore * Factory);
  lc_workspaces : gmap pystr (Identity * Observation);
  lc_quarantine : gset pystr;
  lc_floor : gmap pystr Z;
  lc_recovered : gmap pystr Z;
  lc_detached : list Identity;
  lc_cache : list (pystr * (pystr * pydict))
}.

(** [__init__]; the two timeouts are no part of the model. *)
Definition new_lifecycle (executor : bool) (floors : option FloorStore) (groups : option GroupStore) (factory : option Factory) : result Lifecycle :=
  match groups, factory with
  | Some g, Some f => Ok (mkLifecycle executor floors (Some (g, f)) ∅ ∅ ∅ ∅ [] [])
  | None, None => Ok (mkLifecycle executor floors None ∅ ∅ ∅ ∅ [] [])
  | _, _ => Raise (err PyValueError "cgroup_attestation_store and cgroup_attestation_factory must be provided together")
  end.

(** *** Changes of single fields *)

Definition with_workspace (i : Identity) (o : Observation) (l : Lifecycle) : Lifecycle :=
  mkLifecycle (lc_executor l) (lc_floors l) (lc_groups l) (<[li_workspace i := (i, o)]> (lc_workspaces l)) (lc_quarantine l) (lc_floor l) (lc_recovered l)
    (lc_detached l) (lc_cache l).

Definition with_quarantine (q : gset pystr) (l : Lifecycle) : Lifecycle :=
  mkLifecycle (lc_executor l) (lc_floors l) (lc_groups l) (lc_workspaces l) q (lc_floor l) (lc_recovered l) (lc_detached l) (lc_cache l).

(** [self._generation_floor[w] = max(self._generation_floor.get(w, 0), g)] *)
Definition with_floor (w : pystr) (g : Z) (l : Lifecycle) : Lifecycle :=
  mkLifecycle (lc_executor l) (lc_floors l) (lc_groups l) (lc_workspaces l) (lc_quarantine l)
    (<[w := Z.max (default 0 (lc_floor l !! w)) g]> (lc_floor l)) (lc_recovered l) (lc_detached l) (lc_cache l).

Definition with_recovered (w : pystr) (g : Z) (l : Lifecycle) : Lifecycle :=
  mkLifecycle (lc_executor l) (lc_floors l) (lc_groups l) (lc_workspaces l) (lc_quarantine l) (lc_floor l) (<[w := g]> (lc_recovered l)) (lc_detached l)
    (lc_cache l).

Definition with_detached (d : list Identity) (l : Lifecycle) : Lifecycle :=
  mkLifecycle (lc_executor l) (lc_floors l) (lc_groups l) (lc_workspaces l) (lc_quarantine l) (lc_floor l) (lc_recovered l) d (lc_cache l).

Definition with_cache (c : list (pystr * (pystr * pydict))) (l : Lifecycle) : Lifecycle :=
  mkLifecycle (lc_executor l) (lc_floors l) (lc_groups l) (lc_workspaces l) (lc_quarantine l) (lc_floor l) (lc_recovered l) (lc_detached l) c.

(** ** The machine and its ports *)

(** What is asked of the executor and of the cgroup factory *)
Inductive question : Type :=
| AskStart (i : Identity)
| AskStop (i : Identity)
| AskStatus (i : Identity)
| AskReconcile (i : Identity)
| AskEvidence (i : Identity)
| AskBuild (i : Identity) (o : Observation)
| AskObserve (i : Identity)
| AskFinalize (r : Cgroup).

(** [asked]: the questions so far, each with the cgroup directory as it was then *)
Record Machine : Type := mkMachine {
  host : Host;
  life : Lifecycle;
  floor_dir : Folder;
  group_dir : Folder;
  clock : nat;
  asked : list (question * Folder)
}.

(** How a wait for the task of a cleanup ends: the task is done, the time is over,
    or the wait is interrupted. *)
Inductive waited : Type :=
| Finished (r : result Observation)
| Unfinished
| Interrupted (e : exn).

(** What the factory builds: an attestation; something else, or nothing in time; or
    it raises. *)
Inductive built : Type :=
| Attested (r : Cgroup)
| NotAttested
| NotBuilt (e : exn).

Record Ports : Type := mkPorts {
  port_start : nat -> Identity -> result Observation;
  port_stop : nat -> Identity -> result Observation;
  port_status : nat -> Identity -> result Observation;
  port_reconcile : nat -> Identity -> result Observation;
  port_cleanup : nat -> Identity -> waited;
  port_evidence : option (nat -> Identity -> result pyval);
  port_build : nat -> Identity -> Observation -> built;
  port_observe : nat -> Identity -> result Cgroup;
  port_finalize : nat -> Cgroup -> result unit;
  floor_sights : nat -> Surroundings;
  group_sights : nat -> Surroundings
}.

Local Abbreviation IO := (io Machine).

Definition set_host (h : Host) (m : Machine) : Machine := mkMachine h (life m) (floor_dir m) (group_dir m) (clock m) (asked m).
Definition set_life (l : Lifecycle) (m : Machine) : Machine := mkMachine (host m) l (floor_dir m) (group_dir m) (clock m) (asked m).
Definition set_floor_dir (d : Folder) (m : Machine) : Machine := mkMachine (host m) (life m) d (group_dir m) (clock m) (asked m).
Definition set_group_dir (d : Folder) (m : Machine) : Machine := mkMachine (host m) (life m) (floor_dir m) d (clock m) (asked m).
Definition next_clock (m : Machine) : Machine := mkMachine (host m) (life m) (floor_dir m) (group_dir m) (S (clock m)) (asked m).
Definition note (q : question) (m : Machine) : Machine :=
  mkMachine (host m) (life m) (floor_dir m) (group_dir m) (clock m) (asked m ++ [(q, group_dir m)]).

(** [self] *)
Definition self : IO Lifecycle := fun m evs => Ran m evs (Ok (life m)).
Definition inventory : IO Registry := fun m evs => Ran m evs (Ok (registry (host m))).
Definition change (f : Lifecycle -> Lifecycle) : IO unit := fun m evs => Ran (set_life (f (life m)) m) evs (Ok tt).
Definition tick : IO nat := fun m evs => Ran (next_clock m) evs (Ok (clock m)).

Definition on_host {A} (m : io Host A) : IO A := zoom host set_host m.

(** A question is noted; the process may die over it. *)
Definition consult {A} (q : question) (answer : nat -> A) : IO A :=
  io! n := tick in
  fun m evs => match evs with Dies :: _ => Died (note q m) | _ => Ran (note q m) evs (Ok (answer n)) end.

Definition RECONCILE_FIRST : exn := dispatch_error "RECONCILIATION_REQUIRED".

Definition quarantine (w : pystr) : IO unit := change (fun l => with_quarantine ({[w]} ∪ lc_quarantine l) l).
Definition release (w : pystr) : IO unit := change (fun l => with_quarantine (lc_quarantine l ∖ {[w]}) l).

Definition quarantined (w : pystr) (l : Lifecycle) : bool := bool_decide (w ∈ lc_quarantine l).

(** [self._generation_floor.get(w, 0)] *)
Definition floor_of_workspace (w : pystr) (l : Lifecycle) : Z := default 0 (lc_floor l !! w).

(** [except Exception] around a cleanup whose failure is reported in another way *)
Definition swallow (m : IO unit) : IO unit := io_try m [PyException] (io_ret tt).

Section Operations.
Context `{Unicode} `{Rfc8785} (ports : Ports).

Definition on_floors {A} (op : Surroundings -> io Folder A) : IO A :=
  io! n := tick in zoom floor_dir set_floor_dir (op (floor_sights ports n)).

Definition on_groups {A} (op : Surroundings -> io Folder A) : IO A :=
  io! n := tick in zoom group_dir set_group_dir (op (group_sights ports n)).

(** ** Checks *)

(** [_hydrate_durable_generation_floor] *)
Definition hydrate_floor (w : pystr) : IO unit :=
  io! l := self in
  match lc_floors l with
  | None => io_ret tt
  | Some store =>
      io! record := io_try (on_floors (fun env => Floors.read store env (PStr w))) [PyException] (io_raise RECONCILE_FIRST) in
      match record with
      | None => io_ret tt
      | Some a =>
          then! change (with_floor w (fl_generation a)) in
          io! l := self in
          if bool_decide (lc_workspaces l !! w = None) && (default 0 (lc_recovered l !! w) <? fl_generation a) then quarantine w else io_ret tt
      end
  end.

(** [_check_identity] *)
Definition check_identity (i : Identity) : IO unit :=
  then! io_lift (validate_lifecycle_generation (li_generation i)) in
  io! l := self in
  io! r := inventory in
  then! io_raise_if (generation_of i <? floor_of_workspace (li_workspace i) l)
          (if bool_decide (lc_workspaces l !! li_workspace i = None) then RECONCILE_FIRST else dispatch_error "PROJECT_IDENTITY_CHANGED") in
  then! io_raise_if (negb (str_eqb (li_host i) (rg_host r)) || negb (str_eqb (li_host_revision i) (rg_host_revision r)))
          (dispatch_error "RUNTIME_INSTALLATION_MISMATCH") in
  match rg_bindings r !! li_project i with
  | None => io_raise (dispatch_error "BINDING_BOOTSTRAP_REQUIRED")
  | Some b =>
      io_raise_if (negb (str_eqb (li_revision i) (pb_revision b)) || negb (str_eqb (li_digest i) (pb_digest b))) (dispatch_error "PROJECT_IDENTITY_CHANGED")
  end.

(** [active_live]: the only group that is not empty is that of the workspace that
    runs. *)
Definition active_live (current : option (Identity * Observation)) (i : Identity) (s : Snapshot) : bool :=
  match current, latest_unresolved_ s with
  | Some (c, _), Some u =>
      str_eqb (li_generation c) (li_generation i) && bool_decide (unresolved_generations_ s = [cg_generation u])
      && str_eqb (cg_cleanup_state u) $"LIVE" && str_eqb (cg_last_populated u) $"1"
  | _, _ => false
  end.

(** The part of [_lifecycle] that looks at the recorded groups *)
Definition screen (i : Identity) : IO unit :=
  let w := li_workspace i in
  io! l := self in
  match lc_groups l with
  | Some (store, _) =>
      if quarantined w l then io_ret tt
      else
        io_try (io! s := on_groups (fun env => snapshot store env w) in
                then! match latest_generation_ s with Some g => change (with_floor w g) | None => io_ret tt end in
                io! l := self in
                if given (latest_unresolved_ s) && negb (active_live (lc_workspaces l !! w) i s) then quarantine w else io_ret tt)
          [WAWCgroupAttestationStoreError] (io_raise RECONCILE_FIRST)
  | None => io_ret tt
  end.

(** ** Fencing the groups *)

(** [replace(record, cleanup_state="FENCED")] *)
Definition fenced (r : Cgroup) : Cgroup :=
  mkCgroup (cg_workspace_id r) (cg_project_id r) (cg_agent_type r) (cg_generation r) (cg_runtime_epoch r) (cg_service_unit r) (cg_service_invocation_id r)
    (cg_service_cgroup_device r) (cg_service_cgroup_inode r) (cg_service_cgroup_mount_id r) (cg_delegated_subgroup r) (cg_delegate_subgroup_device r)
    (cg_delegate_subgroup_inode r) (cg_delegate_subgroup_mount_id r) (cg_cgroup_mount_id r) (cg_cgroup_filesystem_id r) (cg_workspace_relative_path r)
    (cg_workspace_device r) (cg_workspace_inode r) (cg_workload_relative_path r) (cg_workload_device r) (cg_workload_inode r) (cg_attachment_leaves r)
    (cg_controller_configuration_digest r) (cg_workspace_limits r) (cg_workload_limits r) (cg_attachment_limits r) (cg_last_frozen r)
    (cg_last_populated r) $"FENCED" (cg_workspace_presence r).

(** [_fence_cgroup_attestation] *)
Definition fence_attestation (r : Cgroup) : IO unit :=
  io! l := self in
  match lc_groups l with
  | None => io_ret tt
  | Some (store, _) =>
      then! on_groups (fun env => write store env (if str_eqb (cg_cleanup_state r) $"LIVE" then fenced r else r)) in io_ret tt
  end.

(** [_fence_cgroup_for_identity] *)
Definition fence_identity (i : Identity) : IO unit :=
  io! l := self in
  match lc_groups l with
  | None => io_ret tt
  | Some (store, _) =>
      io! record := on_groups (fun env => CgroupStore.read store env (li_workspace i) (generation_of i)) in
      match record with Some r => fence_attestation r | None => io_ret tt end
  end.

(** ** Cleaning up a failed start *)

Definition MAX_DETACHED_CLEANUPS : Z := 32.

(** [_register_detached_cleanup] *)
Definition register_detached (i : Identity) : IO unit :=
  then! change (fun l => with_detached (lc_detached l ++ [i]) l) in quarantine (li_workspace i).

Definition stopped_exactly (epoch : pystr) (o : Observation) : bool :=
  str_eqb (ob_state o) $"STOPPED" && str_eqb (ob_process o) $"STOPPED" && str_eqb (ob_reconciliation o) $"authoritative" && (match ob_epoch o with PStr e => str_eqb e epoch | _ => false end).

(** [_cleanup_failed_start] *)
Definition cleanup_failed_start (i : Identity) : IO unit :=
  io! l := self in
  then! io_raise_if (negb (lc_executor l)) RECONCILE_FIRST in
  then! io_raise_if (MAX_DETACHED_CLEANUPS <=? Z.of_nat (length (lc_detached l))) RECONCILE_FIRST in
  io! x := consult (AskStop i) (fun n => port_cleanup ports n i) in
  match x with
  | Interrupted e => then! register_detached i in io_raise e
  | Unfinished => then! register_detached i in io_raise RECONCILE_FIRST
  | Finished r =>
      io! o := io_lift r in
      io! g := inventory in
      then! io_lift (validate_observation (rg_epoch g) o) in
      io_raise_if (negb (stopped_exactly (rg_epoch g) o)) RECONCILE_FIRST
  end.

(** The two observations that [_rollback_failed_executor_start] makes up *)
Definition unknown_observation (epoch : pystr) : Observation := mkObservation $"UNKNOWN" $"reconciliation_required" $"UNKNOWN" PNone (PStr epoch).
Definition stopped_observation (epoch : pystr) : Observation := mkObservation $"STOPPED" $"authoritative" $"STOPPED" PNone (PStr epoch).

(** [_rollback_failed_executor_start] *)
Definition rollback_failed_start (i : Identity) : IO unit :=
  let w := li_workspace i in
  io! r := inventory in
  then! change (with_floor w (generation_of i)) in
  then! change (with_workspace i (unknown_observation (rg_epoch r))) in
  then! quarantine w in
  then! io_finally
          (io! x := attempt (cleanup_failed_start i) in
           match x with
           | Ok _ => io_ret tt
           | Raise e => if exc_isa (exn_class e) PyException then io_raise RECONCILE_FIRST else io_raise e
           end)
          (fence_identity i) in
  then! change (with_workspace i (stopped_observation (rg_epoch r))) in
  io! l := self in
  if negb (given (lc_floors l)) && negb (given (lc_groups l)) then release w else io_ret tt.

(** ** Recovery *)

(** The floor does not belong to the generation that was found empty. *)
Definition floor_differs (r : Registry) (revision digest : pystr) (a : Floor) : bool :=
  negb (str_eqb (fl_revision a) revision) || negb (str_eqb (fl_digest a) digest) || negb (str_eqb (fl_host a) (rg_host r))
  || negb (str_eqb (fl_host_revision a) (rg_host_revision r)) || (digits_value (rg_epoch r) <? digits_value (fl_epoch a)).

(** The binding that the acknowledgement names is not that of the workspace that
    runs, or else of its Project. *)
Definition acknowledges_other (l : Lifecycle) (r : Registry) (record : Cgroup) (revision digest : pystr) : bool :=
  match lc_workspaces l !! cg_workspace_id record with
  | Some (i, _) =>
      negb (str_eqb (li_project i) (cg_project_id record)) || negb (str_eqb (li_agent i) (cg_agent_type record))
      || negb (generation_of i =? cg_generation record) || negb (str_eqb (li_host i) (rg_host r))
      || negb (str_eqb (li_host_revision i) (rg_host_revision r)) || negb (str_eqb revision (li_revision i)) || negb (str_eqb digest (li_digest i))
  | None =>
      match rg_bindings r !! cg_project_id record with
      | None => true
      | Some b => negb (str_eqb revision (pb_revision b)) || negb (str_eqb digest (pb_digest b))
      end
  end.

(** The shape of a record that its recovery must keep *)
Definition shape_of (u : Cgroup) : Shape :=
  mkShape (cg_controller_configuration_digest u) (cg_workspace_limits u) (cg_workload_limits u) (cg_attachment_limits u).

(** The first part of [_acknowledge_cgroup_cleanup_unlocked]: a workspace that is not
    in quarantine has a record to recover, or this very record. *)
Definition admit_record (store : GroupStore) (record : Cgroup) : IO unit :=
  let w := cg_workspace_id record in
  io! l := self in
  if quarantined w l then io_ret tt
  else
    io! s := io_try (on_groups (fun env => snapshot store env w)) [WAWCgroupAttestationStoreError] (io_raise RECONCILE_FIRST) in
    then! (if given (latest_unresolved_ s) then io_ret tt
           else io! found := on_groups (fun env => CgroupStore.read store env w (cg_generation record)) in
                io_raise_if (negb (bool_decide (found = Some record))) RECONCILE_FIRST) in
    quarantine w.

(** The record that is recovered *)
Definition unresolved_record (store : GroupStore) (record : Cgroup) : IO (option Cgroup) :=
  io! u := on_groups (fun env => latest_unresolved store env (cg_workspace_id record)) in
  match u with
  | Some _ => io_ret u
  | None => on_groups (fun env => CgroupStore.read store env (cg_workspace_id record) (cg_generation record))
  end.

(** The floor of the workspace, when there is a floor store *)
Definition floor_to_recover (r : Registry) (l : Lifecycle) (record : Cgroup) (revision digest : pystr) : IO (option Floor) :=
  match lc_floors l with
  | None => io_ret None
  | Some floors =>
      io! a := on_floors (fun env => Floors.read floors env (PStr (cg_workspace_id record))) in
      match a with
      | None => io_raise RECONCILE_FIRST
      | Some f =>
          then! io_raise_if (negb (fl_generation f =? cg_generation record) || floor_differs r revision digest f) RECONCILE_FIRST in
          io_ret (Some f)
      end
  end.

(** The record is written as empty; the answer is whether no group is left. *)
Definition settle (store : GroupStore) (r : Registry) (u record : Cgroup) : IO bool :=
  if (digits_value (cg_runtime_epoch u) <? digits_value (rg_epoch r))
     || (str_eqb (cg_workspace_presence u) $"present" && str_eqb (cg_workspace_presence record) $"absent")
  then on_groups (fun env => recover_empty store env u record)
  else if bool_decide (u = record) && is_empty record then
    io! s := on_groups (fun env => snapshot store env (cg_workspace_id record)) in
    io_ret (bool_decide (unresolved_generations_ s = []) && bool_decide (latest_generation_ s = Some (cg_generation record)))
  else on_groups (fun env => acknowledge_empty store env record).

(** The floor follows to the epoch of this process. *)
Definition advance_epoch (r : Registry) (l : Lifecycle) (fully_empty : bool) (floor : option Floor) (record : Cgroup) : IO unit :=
  match lc_floors l, floor with
  | Some floors, Some f =>
      if fully_empty && negb (str_eqb (fl_epoch f) (rg_epoch r))
      then then! on_floors (fun env => recover_epoch floors env f record) in io_ret tt
      else io_ret tt
  | _, _ => io_ret tt
  end.

(** The end of [_acknowledge_cgroup_cleanup_unlocked] *)
Definition finish_cleanup (store : GroupStore) (l : Lifecycle) (r : Registry) (u record : Cgroup) (revision digest : pystr) : IO unit :=
  io! fully_empty := io_try
    (io! floor := floor_to_recover r l record revision digest in
     io! fully_empty := settle store r u record in
     then! advance_epoch r l fully_empty floor record in
     io_ret fully_empty)
    [WAWCgroupAttestationStoreError; WAWWorkspaceAttestationError] (io_raise RECONCILE_FIRST) in
  if fully_empty : bool
  then then! release (cg_workspace_id record) in change (with_recovered (cg_workspace_id record) (cg_generation record))
  else io_ret tt.

(** [_acknowledge_cgroup_cleanup_unlocked] *)
Definition acknowledge_cleanup (record : Cgroup) (binding_revision binding_digest : option pystr) : IO unit :=
  io! l := self in
  io! r := inventory in
  match lc_groups l, binding_revision, binding_digest with
  | Some (store, _), Some revision, Some digest =>
      then! admit_record store record in
      then! io_raise_if (negb (is_empty record) || negb (str_eqb (cg_last_populated record) $"0")) RECONCILE_FIRST in
      then! io_raise_if (negb (bool_decide (cg_attachment_leaves record = []))) RECONCILE_FIRST in
      then! io_raise_if (negb (str_eqb (cg_runtime_epoch record) (rg_epoch r))) (dispatch_error "RUNTIME_INSTALLATION_MISMATCH") in
      then! io_raise_if (acknowledges_other l r record revision digest) RECONCILE_FIRST in
      io! found := unresolved_record store record in
      match found with
      | None => io_raise RECONCILE_FIRST
      | Some u =>
          then! io_raise_if (negb (cg_generation record =? cg_generation u)) RECONCILE_FIRST in
          then! io_lift (verify_context record (cg_workspace_id u) (cg_project_id u) (cg_agent_type u) (cg_generation u) (rg_epoch r) (Some (shape_of u))) in
          finish_cleanup store l r u record revision digest
      end
  | _, _, _ => io_raise RECONCILE_FIRST
  end.

(** [observer.finalize_recovery] *)
Definition finalize_recovery (record : Cgroup) : IO unit :=
  io! x := consult (AskFinalize record) (fun n => port_finalize ports n record) in io_lift x.

(** The [try] of [_recover_persisted_workspace] *)
Definition recover_generation (floors : FloorStore) (store : GroupStore) (factory : Factory) (i : Identity) : IO unit :=
  let w := li_workspace i in
  io! r := inventory in
  io! found := on_floors (fun env => Floors.read floors env (PStr w)) in
  io! s := on_groups (fun env => snapshot store env w) in
  match found with
  | None => io_ret tt
  | Some a =>
      if negb (bool_decide (latest_generation_ s = Some (fl_generation a))) || floor_differs r (li_revision i) (li_digest i) a then io_ret tt
      else
        io! previous := on_groups (fun env => CgroupStore.read store env w (fl_generation a)) in
        then! match previous with
              | Some p =>
                  if is_empty p && str_eqb (cg_runtime_epoch p) (rg_epoch r) && str_eqb (cg_workspace_presence p) $"present" && can_clean factory
                  then io_try (finalize_recovery p) [PyFileNotFoundError] (io_ret tt)
                  else io_ret tt
              | None => io_ret tt
              end in
        let old := with_generation (str_of_Z (fl_generation a)) i in
        io! x := consult (AskObserve old) (fun n => port_observe ports n old) in
        io! candidate := io_lift x in
        then! acknowledge_cleanup candidate (Some (li_revision i)) (Some (li_digest i)) in
        if can_clean factory then finalize_recovery candidate else io_ret tt
  end.

(** [_recover_persisted_workspace] *)
Definition recover_persisted (i : Identity) : IO unit :=
  let w := li_workspace i in
  io! l := self in
  match lc_floors l, lc_groups l with
  | Some floors, Some (store, factory) =>
      if negb (bool_decide (lc_workspaces l !! w = None)) || negb (can_observe factory) || negb (bool_decide (lc_detached l = [])) then io_ret tt
      else
        io_try (recover_generation floors store factory i)
          [RuntimeOperationError; WAWWorkspaceAttestationError; WAWCgroupAttestationStoreError; WAWControlDispatchError; PyOSError; PyTimeoutError]
          (quarantine w)
  | _, _ => io_ret tt
  end.

(** ** Responses *)

(** The fields of the request that a response repeats *)
Definition repeated (d : pydict) (keys : list string) : result pydict :=
  seq_results (map (fun k => let! v := item d k in Ok (ustr k, v)) keys).

(** A response: the version, the request, its status, and the fields of the action *)
Definition respond (d : pydict) (status : string) (keys : list string) (fields : pydict) : result pydict :=
  let! id := item d "request_id" in
  let! same := repeated d keys in
  Ok (($"protocol_version", PInt 1) :: ($"request_id", id) :: ($"status", PStr (ustr status)) :: same ++ fields).

(** [_start_response]; the state stands before the fields of the host there, which
    does not matter for a dictionary. *)
Definition start_response (d : pydict) (o : Observation) (status : string) : result pydict :=
  respond d status ["workspace_id"; "project_id"; "agent_type"; "generation"; "runtime_host_installation_id"; "runtime_host_installation_revision"]
    [($"state", PStr (ob_state o))].

(** [_stop_response] *)
Definition stop_response (d : pydict) (o : Observation) (status : string) : result pydict :=
  respond d status ["workspace_id"; "project_id"; "agent_type"; "generation"] [($"state", PStr (ob_state o))].

(** [_status_response] *)
Definition status_response (d : pydict) (o : Observation) : result pydict :=
  respond d "STATUS" ["workspace_id"; "project_id"; "agent_type"; "generation"; "binding_revision"; "binding_digest"]
    [($"state", PStr (ob_state o)); ($"reconciliation_state", PStr (ob_reconciliation o)); ($"runtime_epoch", ob_epoch o);
     ($"process_state", PStr (ob_process o)); ($"exit_code", ob_exit_code o);
     ($"attachment_capacity", PDict [($"admitted", PStr $"0"); ($"pending", PStr $"0"); ($"limit", PStr $"32")])].

(** [_reconcile_response] *)
Definition reconcile_response (d : pydict) (o : Observation) : result pydict :=
  let status := if str_eqb (ob_state o) $"MISSING" then "MISSING"
                else if str_eqb (ob_state o) $"COLLISION" then "COLLISION"
                else if str_eqb (ob_state o) $"UNKNOWN" then "UNKNOWN" else "RECONCILED" in
  respond d status ["workspace_id"; "project_id"; "agent_type"; "generation"; "binding_revision"; "binding_digest"]
    [($"runtime_epoch", ob_epoch o); ($"state", PStr (ob_state o)); ($"reconciliation_state", PStr (ob_reconciliation o))].

(** [_quarantine_reconcile_response] *)
Definition quarantine_response (d : pydict) (epoch : pystr) : result pydict :=
  respond d "RECONCILIATION_REQUIRED" ["workspace_id"; "project_id"; "agent_type"; "generation"; "binding_revision"; "binding_digest"]
    [($"runtime_epoch", PStr epoch); ($"state", PStr $"UNKNOWN"); ($"reconciliation_state", PStr $"reconciliation_required")].

(** ** The handler *)

(** A text of the request; the fields of a validated request are texts. *)
Definition text (d : pydict) (k : string) : result pystr :=
  let! v := item d k in match v with PStr s => Ok s | _ => Raise (err PyTypeError k) end.

Definition request_identity (d : pydict) : result Identity :=
  let! w := text d "workspace_id" in
  let! p := text d "project_id" in
  let! a := text d "agent_type" in
  let! g := text d "generation" in
  let! r := text d "binding_revision" in
  let! b := text d "binding_digest" in
  let! h := text d "runtime_host_installation_id" in
  let! hr := text d "runtime_host_installation_revision" in
  Ok (mkIdentity w p a g r b h hr).

Definition AGENT_TYPES : list string := ["claude"; "codex"]%string.

Definition running (o : Observation) : bool := text_in (ob_state o) ["RUNNING"; "NEEDS_INTERACTION"; "TRUST_REQUIRED"; "LOGIN_REQUIRED"].

(** What the checks against the current workspace decide: the response is known, or
    the executor is asked. *)
Inductive decision : Type :=
| Answered (r : pydict)
| Proceed.

(** The checks of a start against the current workspace *)
Definition check_current_start (d : pydict) (l : Lifecycle) (i : Identity) (current : option (Identity * Observation)) : result decision :=
  let changed := dispatch_error "PROJECT_IDENTITY_CHANGED" in
  match current with
  | None => Ok Proceed
  | Some (c, o) =>
      run! raise_if (negb (str_eqb (li_project c) (li_project i)) || negb (str_eqb (li_agent c) (li_agent i))
                     || negb (str_eqb (li_revision c) (li_revision i)) || negb (str_eqb (li_digest c) (li_digest i))) changed in
      run! raise_if (negb (bool_decide (c = i)) && (generation_of i <=? floor_of_workspace (li_workspace i) l)) changed in
      run! raise_if (bool_decide (c = i) && str_eqb (ob_state o) $"STOPPED") changed in
      if running o then let! r := start_response d o "ALREADY_RUNNING" in Ok (Answered r) else Ok Proceed
  end.

(** The checks of [_lifecycle] after the quarantine *)
Definition check_current (a : action) (d : pydict) (i : Identity) : IO decision :=
  io! l := self in
  let current := lc_workspaces l !! li_workspace i in
  let changed := dispatch_error "PROJECT_IDENTITY_CHANGED" in
  match a with
  | START =>
      io! x := io_lift (check_current_start d l i current) in
      match x with
      | Answered r => io_ret (Answered r)
      | Proceed =>
          then! io_raise_if (generation_of i <=? floor_of_workspace (li_workspace i) l)
                  (if bool_decide (current = None) && given (lc_floors l) then RECONCILE_FIRST else changed) in
          io_ret Proceed
      end
  | _ =>
      match current with
      | None => io_raise (dispatch_error "WORKSPACE_NOT_FOUND")
      | Some (c, o) =>
          then! io_raise_if (negb (bool_decide (c = i))) changed in
          if bool_decide (a = STOP) && str_eqb (ob_state o) $"STOPPED" then
            then! (if given (lc_groups l) then io_try (fence_identity i) [PyException] (io_raise RECONCILE_FIRST) else io_ret tt) in
            io! r := io_lift (stop_response d o "ALREADY_STOPPED") in
            io_ret (Answered r)
          else io_ret Proceed
      end
  end.

(** The generation is burned durably before any executor side effect. *)
Definition reserve (a : action) (i : Identity) : IO unit :=
  io! l := self in
  io! r := inventory in
  match a, lc_floors l with
  | START, Some floors =>
      io! x := attempt (on_floors (fun env => advance floors env (PStr (li_workspace i)) (PInt (generation_of i)) (PStr (li_revision i)) (PStr (li_digest i))
                                                (PStr (li_host i)) (PStr (li_host_revision i)) (PStr (rg_epoch r)))) in
      match x with
      | Ok _ => io_ret tt
      | Raise e => if exc_isa (exn_class e) PyException then then! quarantine (li_workspace i) in io_raise RECONCILE_FIRST else io_raise e
      end
  | _, _ => io_ret tt
  end.

(** [method(identity)] with the check of its observation *)
Definition invoke (a : action) (i : Identity) : IO Observation :=
  io! x := match a with
           | START => consult (AskStart i) (fun n => port_start ports n i)
           | STOP => consult (AskStop i) (fun n => port_stop ports n i)
           | STATUS => consult (AskStatus i) (fun n => port_status ports n i)
           | _ => consult (AskReconcile i) (fun n => port_reconcile ports n i)
           end in
  io! o := io_lift x in
  io! r := inventory in
  then! io_lift (validate_observation (rg_epoch r) o) in
  io_ret o.

(** The [except BaseException] around it *)
Definition invoke_failed {A} (a : action) (i : Identity) (e : exn) : IO A :=
  io! l := self in
  match a with
  | START => then! rollback_failed_start i in io_raise e
  | STOP =>
      if given (lc_groups l) then
        then! quarantine (li_workspace i) in
        then! io_try (fence_identity i) [PyException] (io_raise RECONCILE_FIRST) in
        io_raise RECONCILE_FIRST
      else io_raise e
  | _ => io_raise e
  end.

(** [_build_cgroup_attestation] *)
Definition build_attestation (i : Identity) (o : Observation) : IO Cgroup :=
  io! x := consult (AskBuild i o) (fun n => port_build ports n i o) in
  match x with
  | Attested r => io_ret r
  | NotAttested => io_raise RECONCILE_FIRST
  | NotBuilt e => io_raise e
  end.

(** The cleanup of a start that must not be kept *)
Definition undo_start {A} (i : Identity) (record : option Cgroup) : IO A :=
  then! swallow (cleanup_failed_start i) in
  then! swallow (match record with Some r => fence_attestation r | None => fence_identity i end) in
  io_raise RECONCILE_FIRST.

(** The record of a start is live, that of a stop is not. *)
Definition wrong_state (a : action) (r : Cgroup) : bool :=
  match a with
  | START => negb (str_eqb (cg_cleanup_state r) $"LIVE") || negb (str_eqb (cg_last_populated r) $"1")
  | _ => str_eqb (cg_cleanup_state r) $"LIVE"
  end.

(** The attestation of a start or a stop is not recorded. *)
Definition unattested {A} (a : action) (i : Identity) (record : option Cgroup) (e : exn) : IO A :=
  if exc_isa (exn_class e) PyException then
    match a with
    | START => undo_start i record
    | _ =>
        then! quarantine (li_workspace i) in
        then! io_try (match record with Some r => fence_attestation r | None => fence_identity i end) [PyException] (io_raise RECONCILE_FIRST) in
        io_raise RECONCILE_FIRST
    end
  else io_raise e.

(** The recording of the groups of a start or a stop *)
Definition attest (a : action) (i : Identity) (o : Observation) : IO (option Cgroup) :=
  io! l := self in
  io! g := inventory in
  match a, lc_groups l with
  | START, Some (store, _) | STOP, Some (store, _) =>
      io! x := attempt (build_attestation i o) in
      match x with
      | Raise e => unattested a i None e
      | Ok r =>
          io! y := attempt (then! io_lift (verify_context r (li_workspace i) (li_project i) (li_agent i) (generation_of i) (rg_epoch g) None) in
                            then! io_raise_if (wrong_state a r) RECONCILE_FIRST in
                            on_groups (fun env => write store env r)) in
          match y with
          | Raise e => unattested a i (Some r) e
          | Ok _ => io_ret (Some r)
          end
      end
  | _, _ => io_ret None
  end.

(** The floor that was reserved is read back. *)
Definition read_back (a : action) (i : Identity) (record : option Cgroup) : IO unit :=
  io! l := self in
  io! g := inventory in
  match a, lc_floors l with
  | START, Some floors =>
      let mine (f : Floor) := (fl_generation f =? generation_of i) && str_eqb (fl_revision f) (li_revision i) && str_eqb (fl_digest f) (li_digest i)
        && str_eqb (fl_host f) (li_host i) && str_eqb (fl_host_revision f) (li_host_revision i) && str_eqb (fl_epoch f) (rg_epoch g) in
      io_try (io! found := on_floors (fun env => Floors.read floors env (PStr (li_workspace i))) in
              io_raise_if (negb (match found with Some f => mine f | None => false end)) (err WAWWorkspaceAttestationError "reserved generation read-back changed"))
        [WAWWorkspaceAttestationError]
        (then! quarantine (li_workspace i) in undo_start i record)
  | _, _ => io_ret tt
  end.

(** The end of [_lifecycle] *)
Definition conclude (a : action) (d : pydict) (i : Identity) (o : Observation) (cleanup_retry : bool) : IO pydict :=
  then! change (with_workspace i o) in
  then! (if cleanup_retry && str_eqb (ob_state o) $"STOPPED" then release (li_workspace i) else io_ret tt) in
  match a with
  | START => then! change (with_floor (li_workspace i) (generation_of i)) in io_lift (start_response d o "STARTED")
  | STOP => io_lift (stop_response d o (if str_eqb (ob_state o) $"STOPPED" then "STOPPED" else "STOP_IN_PROGRESS"))
  | STATUS => io_lift (status_response d o)
  | _ => io_lift (reconcile_response d o)
  end.

(** From the executor on *)
Definition execute (a : action) (d : pydict) (i : Identity) (cleanup_retry : bool) : IO pydict :=
  io! l := self in
  then! io_raise_if (negb (lc_executor l)) (dispatch_error "RUNTIME_UNAVAILABLE") in
  then! reserve a i in
  io! x := attempt (invoke a i) in
  match x with
  | Raise e => invoke_failed a i e
  | Ok o =>
      io! record := attest a i o in
      then! read_back a i record in
      conclude a d i o cleanup_retry
  end.

(** An exact stop may retry the cleanup when nothing durable is involved. *)
Definition may_retry (a : action) (i : Identity) (l : Lifecycle) : bool :=
  bool_decide (a = STOP) && negb (given (lc_floors l)) && negb (given (lc_groups l))
  && bool_decide (fst <$> lc_workspaces l !! li_workspace i = Some i) && negb (bool_decide (i ∈ lc_detached l)).

(** [_lifecycle] *)
Definition lifecycle (a : action) (d : pydict) : IO pydict :=
  then! on_host require_authority in
  then! io_raise_if (negb (match dget d $"agent_type" with Some (PStr t) => text_in t AGENT_TYPES | _ => false end)) (dispatch_error "WAW_AGENT_UNSUPPORTED") in
  io! i := io_lift (request_identity d) in
  then! hydrate_floor (li_workspace i) in
  then! check_identity i in
  then! screen i in
  io! l := self in
  then! (if bool_decide (a = START) && quarantined (li_workspace i) l then recover_persisted i else io_ret tt) in
  io! l := self in
  io! r := inventory in
  if bool_decide (a = RECONCILE) && quarantined (li_workspace i) l then io_lift (quarantine_response d (rg_epoch r))
  else
    let cleanup_retry := may_retry a i l in
    then! io_raise_if (quarantined (li_workspace i) l && negb cleanup_retry) RECONCILE_FIRST in
    io! x := check_current a d i in
    match x with
    | Answered r => io_ret r
    | Proceed => execute a d i cleanup_retry
    end.

(** [_executable_evidence] *)
Definition executable_evidence (d : pydict) : IO pydict :=
  then! on_host require_authority in
  io! r := inventory in
  then! io_raise_if (negb (match dget d $"runtime_epoch" with Some (PStr e) => str_eqb e (rg_epoch r) | _ => false end))
          (dispatch_error "RUNTIME_INSTALLATION_MISMATCH") in
  io! i := io_lift (request_identity d) in
  then! hydrate_floor (li_workspace i) in
  then! check_identity i in
  io! l := self in
  then! io_raise_if (negb (match lc_workspaces l !! li_workspace i with Some (c, o) => bool_decide (c = i) && running o | None => false end))
          (dispatch_error "WORKSPACE_NOT_RUNNING") in
  match (if lc_executor l then port_evidence ports else None) with
  | None => io_raise (dispatch_error "RUNTIME_UNAVAILABLE")
  | Some provider =>
      io! x := consult (AskEvidence i) (fun n => provider n i) in
      io! v := io_try (io_lift x) [RuntimeOperationError] (io_raise (dispatch_error "RUNTIME_UNAVAILABLE")) in
      match v with
      | PStr fingerprint =>
          then! io_raise_if (negb (match_hex 64 fingerprint)) (dispatch_error "INTERNAL_BOUNDED") in
          io_lift (respond d "EXECUTABLE_EVIDENCE"
            ["workspace_id"; "project_id"; "agent_type"; "generation"; "binding_revision"; "binding_digest"; "runtime_host_installation_id";
             "runtime_host_installation_revision"]
            [($"runtime_epoch", PStr (rg_epoch r)); ($"executable_fingerprint", PStr fingerprint)])
      | _ => io_raise (dispatch_error "INTERNAL_BOUNDED")
      end
  end.

(** ** Dispatch *)

Definition MAX_CACHED : nat := 1024.

(** The request with its keys in order *)
Definition sorted_items (d : pydict) : pydict :=
  flat_map (fun k => match dget d k with Some v => [(k, v)] | None => [] end) (sorted_names (map fst d)).

(** [json.dumps(request, sort_keys=True, separators=(",", ":"), ensure_ascii=False)] *)
Definition fingerprint_of (d : pydict) : result pystr := dumps (PDict (sorted_items d)).

Definition cached (id : pystr) (l : Lifecycle) : option (pystr * pydict) := snd <$> List.find (fun e => str_eqb (fst e) id) (lc_cache l).

(** The response becomes the newest entry; the oldest ones go. *)
Definition remember (id fingerprint : pystr) (r : pydict) (l : Lifecycle) : Lifecycle :=
  let entries := filter (fun e => fst e <> id) (lc_cache l) ++ [(id, (fingerprint, r))] in
  with_cache (drop (length entries - MAX_CACHED) entries) l.

(** [dispatch] of an action on a workspace; the other actions are those of
    [Registry.v] and of the attachments. *)
Definition dispatch (a : action) (d : pydict) : IO pydict :=
  then! on_host (require_dispatch_open a) in
  match dget d $"request_id" with
  | Some (PStr id) =>
      io! fingerprint := io_lift (fingerprint_of d) in
      io! l := self in
      match cached id l with
      | Some (before, r) =>
          then! io_raise_if (negb (str_eqb before fingerprint)) (dispatch_error "PROTOCOL_INVALID") in io_ret r
      | None =>
          io! r := (if bool_decide (a = EVIDENCE) then executable_evidence d else lifecycle a d) in
          then! change (remember id fingerprint r) in
          io_ret r
      end
  | _ => io_raise (dispatch_error "PROTOCOL_INVALID")
  end.

(** [_consume_detached_cleanup]: the first cleanup of [i] ended, however. *)
Fixpoint without {A} `{EqDecision A} (x : A) (l : list A) : list A :=
  match l with
  | [] => []
  | y :: r => if bool_decide (y = x) then r else y :: without x r
  end.

Definition cleanup_ended (i : Identity) : IO unit := change (fun l => with_detached (without i (lc_detached l)) l).

End Operations.

(** What happens to a machine: a request of the API for a workspace, the answer to
    another request that enters the cache, the acknowledgement of an empty group, the
    end of a detached cleanup, or an operation on the inventory *)
Inductive machine_op : Type :=
| Dispatch (a : action) (d : pydict)
| OtherAnswer (id fingerprint : pystr) (r : pydict)
| Acknowledge (record : Cgroup) (binding_revision binding_digest : option pystr)
| CleanupEnded (i : Identity)
| OnInventory (store : BindingStore) (env : Sights) (op : host_op).

Definition workspace_action (a : action) : bool := bool_decide (a ∈ [START; STOP; STATUS; RECONCILE; EVIDENCE]).

(** [_clear_peer_authority_caches] clears the cache too. *)
Definition clear_cache : IO unit := change (with_cache []).

Definition perform_machine `{Unicode} `{Rfc8785} (ports : Ports) (op : machine_op) : io Machine unit :=
  match op with
  | Dispatch a d => if workspace_action a then then! dispatch ports a d in io_ret tt else io_ret tt
  | OtherAnswer id fingerprint r =>
      io! l := self in
      match cached id l with
      | Some (before, _) => io_raise_if (negb (str_eqb before fingerprint)) (dispatch_error "PROTOCOL_INVALID")
      | None => change (remember id fingerprint r)
      end
  | Acknowledge record r b => acknowledge_cleanup ports record r b
  | CleanupEnded i => cleanup_ended i
  | OnInventory store env op =>
      then! on_host (perform_op store env op) in
      match op with HClear => clear_cache | _ => io_ret tt end
  end.
