(* ===== verification/LifecycleSpec.v ===== *)
(** * What the lifecycle of workspaces guarantees

    Two properties of the handlers of [Lifecycle.v] along every history of a
    machine, with failing calls, executors that answer anything, processes that die
    anywhere, restarts and power losses: no generation of a workspace is started
    twice, and a start is asked for only when every recorded group of the workspace
    was found empty.

    An invariant that the handlers keep is stated once ([framed]); the handlers are
    then walked through by [keep], the rules of [Crash.v] for invariants. *)

From stdpp Require Import sorting.
From S2P Require Import Prelude PyVal Json Unicode Control Canonical Crash Folder Cgroup Floors CgroupStore BindingStore BindingHeads Verifier Registry Lifecycle.

Local Open Scope Z_scope.

(** ** Steps *)

Section Steps.
Context {A : Type}.
Implicit Types (m : Machine) (Q : Machine -> result A -> Prop) (C : Machine -> Prop).

Lemma cwp_self (k : Lifecycle -> io Machine A) Q C m : cwp (k (life m)) Q C m -> cwp (io! l := self in k l) Q C m.
Proof. intros Hk evs. exact (Hk evs). Qed.

Lemma cwp_inventory (k : Registry -> io Machine A) Q C m : cwp (k (registry (host m))) Q C m -> cwp (io! r := inventory in k r) Q C m.
Proof. intros Hk evs. exact (Hk evs). Qed.

Lemma cwp_change (f : Lifecycle -> Lifecycle) (Q : Machine -> result unit -> Prop) C m : Q (set_life (f (life m)) m) (Ok tt) -> cwp (change f) Q C m.
Proof. intros HQ evs. exact HQ. Qed.

Lemma cwp_consult (q : question) (answer : nat -> A) Q C m :
  C (note q (next_clock m)) -> Q (note q (next_clock m)) (Ok (answer (clock m))) -> cwp (consult q answer) Q C m.
Proof. intros HC HQ evs. unfold consult, io_bind, tick. cbn. destruct evs as [|[] evs]; done. Qed.

Lemma cwp_on_floors (ports : Ports) (op : Surroundings -> io Folder A) Q C m :
  cwp (op (floor_sights ports (clock m))) (fun d r => Q (set_floor_dir d (next_clock m)) r) (fun d => C (set_floor_dir d (next_clock m))) (floor_dir m) ->
  cwp (on_floors ports op) Q C m.
Proof. intros Hop evs. exact (cwp_zoom _ _ _ Q C (next_clock m) Hop evs). Qed.

Lemma cwp_on_groups (ports : Ports) (op : Surroundings -> io Folder A) Q C m :
  cwp (op (group_sights ports (clock m))) (fun d r => Q (set_group_dir d (next_clock m)) r) (fun d => C (set_group_dir d (next_clock m))) (group_dir m) ->
  cwp (on_groups ports op) Q C m.
Proof. intros Hop evs. exact (cwp_zoom _ _ _ Q C (next_clock m) Hop evs). Qed.

End Steps.

(** Reading the floors and the groups changes nothing. *)
Lemma read_floor_same (store : FloorStore) (env : Surroundings) (v : pyval) (d : Folder) :
  cwp (Floors.read store env v) (fun d1 _ => d1 = d) (fun d1 => d1 = d) d.
Proof.
  apply cwp_bind, cwp_lift. destruct (validate_id v "workspace_id") as [x |]; [| done].
  apply locked_folder_spec; [done | done | by intros d1 r -> |]. eapply cwp_mono; [by apply read_floor_spec |]. by intros d1 r [-> _].
Qed.

Lemma same_floor_dir (m : Machine) : set_floor_dir (floor_dir m) m = m.
Proof. by destruct m. Qed.

Lemma same_group_dir (m : Machine) : set_group_dir (group_dir m) m = m.
Proof. by destruct m. Qed.

Lemma same_host (m : Machine) : set_host (host m) m = m.
Proof. by destruct m. Qed.

Lemma cwp_guard_host (g : Registry -> bool) (e : exn) (m : Machine) :
  cwp (on_host (io! r := ask in io_raise_if (g r) e)) (fun m1 _ => m1 = m) (fun m1 => m1 = m) m.
Proof. intros evs. unfold on_host, zoom, io_bind, ask. cbn. destruct (g _); cbn; apply same_host. Qed.

(** ** Frames *)

Definition is_start (q : question) : bool := match q with AskStart _ => true | _ => false end.

(** A remembered workspace: its generation is not above the floor, and its state is
    one of the table. *)
Definition remembered (i : Identity) (o : Observation) (l : Lifecycle) : Prop :=
  generation_of i <= floor_of_workspace (li_workspace i) l /\ text_in (ob_state o) STATES = true.

Section Frames.
Context `{Unicode} `{Rfc8785Laws} (ports : Ports).

(** What the handlers do to a machine, but for starting a workspace *)
Record framed (I : Machine -> Prop) : Prop := {
  fr_clock m : I m -> I (next_clock m);
  fr_note m q : is_start q = false -> I m -> I (note q m);
  fr_groups m d : I m -> I (set_group_dir d m);
  fr_quarantine m q : I m -> I (set_life (with_quarantine q (life m)) m);
  fr_floor m w g : I m -> I (set_life (with_floor w g (life m)) m);
  fr_recovered m w g : I m -> I (set_life (with_recovered w g (life m)) m);
  fr_detached m l : I m -> I (set_life (with_detached l (life m)) m);
  fr_workspace m i o : remembered i o (life m) -> I m -> I (set_life (with_workspace i o (life m)) m);
  fr_epoch m store env expected empty : I m ->
    cwp (recover_epoch store env expected empty) (fun d _ => I (set_floor_dir d m)) (fun d => I (set_floor_dir d m)) (floor_dir m)
}.

Context (I : Machine -> Prop) (HI : framed I).

Lemma keeps_self : maintains I self.
Proof. intros m Hm evs. exact Hm. Qed.

Lemma keeps_inventory : maintains I inventory.
Proof. intros m Hm evs. exact Hm. Qed.

Lemma keeps_change (f : Lifecycle -> Lifecycle) : (forall m, I m -> I (set_life (f (life m)) m)) -> maintains I (change f).
Proof. intros Hf m Hm. apply cwp_change. by apply Hf. Qed.

Lemma keeps_quarantine (w : pystr) : maintains I (quarantine w).
Proof. apply keeps_change. intros m. by apply fr_quarantine. Qed.

Lemma keeps_release (w : pystr) : maintains I (release w).
Proof. apply keeps_change. intros m. by apply fr_quarantine. Qed.

Lemma keeps_floor (w : pystr) (g : Z) : maintains I (change (with_floor w g)).
Proof. apply keeps_change. intros m. by apply fr_floor. Qed.

Lemma keeps_recovered (w : pystr) (g : Z) : maintains I (change (with_recovered w g)).
Proof. apply keeps_change. intros m. by apply fr_recovered. Qed.

Lemma keeps_consult {A} (q : question) (answer : nat -> A) : is_start q = false -> maintains I (consult q answer).
Proof. intros Hq m Hm. apply cwp_consult; apply fr_note; try done; by apply fr_clock. Qed.

Lemma keeps_groups {A} (op : Surroundings -> io Folder A) : maintains I (on_groups ports op).
Proof.
  intros m Hm. apply cwp_on_groups. intros evs. destruct (op _ _ evs); apply fr_groups; try done; by apply fr_clock.
Qed.

Lemma keeps_read_floor (store : FloorStore) (v : pyval) : maintains I (on_floors ports (fun env => Floors.read store env v)).
Proof.
  intros m Hm. apply cwp_on_floors. eapply cwp_conseq; [apply read_floor_same | |]; cbn beta; intros; subst;
    change (floor_dir m) with (floor_dir (next_clock m)); rewrite same_floor_dir; by apply fr_clock.
Qed.

Lemma keeps_epoch (store : FloorStore) (f : Floor) (r : Cgroup) : maintains I (on_floors ports (fun env => recover_epoch store env f r)).
Proof. intros m Hm. apply cwp_on_floors. apply (fr_epoch I HI (next_clock m)). by apply fr_clock. Qed.

Lemma keeps_guard (g : Registry -> bool) (e : exn) : maintains I (on_host (io! r := ask in io_raise_if (g r) e)).
Proof. intros m Hm. eapply cwp_conseq; [apply cwp_guard_host | |]; cbn beta; intros; by subst. Qed.

Lemma keeps_authority : maintains I (on_host require_authority).
Proof. apply keeps_guard. Qed.

Lemma keeps_dispatch_open (a : action) : maintains I (on_host (require_dispatch_open a)).
Proof. apply keeps_guard. Qed.

End Frames.

#[export] Hint Resolve keeps_self keeps_inventory keeps_quarantine keeps_release keeps_floor keeps_recovered keeps_groups keeps_read_floor keeps_epoch
  keeps_authority keeps_dispatch_open : keep.
#[export] Hint Extern 2 (maintains _ (consult _ _)) => apply keeps_consult; [assumption | reflexivity] : keep.

(** ** The handlers keep what is framed *)

Section Handlers.
Context `{Unicode} `{Rfc8785Laws} (ports : Ports) (I : Machine -> Prop) (HI : framed I).
Implicit Types (i : Identity) (o : Observation) (r : Cgroup).

Lemma hydrate_floor_keeps (w : pystr) : maintains I (hydrate_floor ports w).
Proof. unfold hydrate_floor. keep. Qed.

Lemma check_identity_keeps i : maintains I (check_identity i).
Proof. unfold check_identity. keep. Qed.

Lemma screen_keeps i : maintains I (screen ports i).
Proof. unfold screen. keep. Qed.

Lemma fence_attestation_keeps r : maintains I (fence_attestation ports r).
Proof. unfold fence_attestation. keep. Qed.

Lemma fence_identity_keeps i : maintains I (fence_identity ports i).
Proof. pose proof fence_attestation_keeps. unfold fence_identity. keep. Qed.

Lemma register_detached_keeps i : maintains I (register_detached i).
Proof. unfold register_detached. keep. apply keeps_change. intros m. by apply fr_detached. Qed.

Lemma cleanup_failed_start_keeps i : maintains I (cleanup_failed_start ports i).
Proof. pose proof register_detached_keeps. unfold cleanup_failed_start. keep. Qed.

Lemma acknowledge_cleanup_keeps r (rev digest : option pystr) : maintains I (acknowledge_cleanup ports r rev digest).
Proof. unfold acknowledge_cleanup, admit_record, unresolved_record, finish_cleanup, floor_to_recover, settle, advance_epoch. keep. Qed.

Lemma finalize_recovery_keeps r : maintains I (finalize_recovery ports r).
Proof. unfold finalize_recovery. keep. Qed.

Lemma recover_persisted_keeps i : maintains I (recover_persisted ports i).
Proof. pose proof acknowledge_cleanup_keeps. pose proof finalize_recovery_keeps. unfold recover_persisted, recover_generation. keep. Qed.

Lemma undo_start_keeps {A} i (record : option Cgroup) : maintains (A := A) I (undo_start ports i record).
Proof.
  pose proof cleanup_failed_start_keeps. pose proof fence_attestation_keeps. pose proof fence_identity_keeps. unfold undo_start, swallow. keep.
Qed.

Lemma unattested_keeps {A} (a : action) i (record : option Cgroup) (e : exn) : maintains (A := A) I (unattested ports a i record e).
Proof.
  pose proof (undo_start_keeps (A := A)). pose proof fence_attestation_keeps. pose proof fence_identity_keeps. unfold unattested. keep.
Qed.

Lemma attest_keeps (a : action) i o : maintains I (attest ports a i o).
Proof. pose proof (unattested_keeps (A := option Cgroup)). unfold attest, build_attestation. keep. Qed.

Lemma read_back_keeps (a : action) i (record : option Cgroup) : maintains I (read_back ports a i record).
Proof. pose proof (undo_start_keeps (A := unit)). unfold read_back. keep. Qed.

Lemma check_current_keeps (a : action) (d : pydict) i : maintains I (check_current ports a d i).
Proof. pose proof fence_identity_keeps. unfold check_current. keep. Qed.

End Handlers.

(** ** Invariants are framed piece by piece *)

Section Framing.
Context `{Unicode} `{Rfc8785Laws}.

Lemma framed_and (I J : Machine -> Prop) : framed I -> framed J -> framed (fun m => I m /\ J m).
Proof.
  intros [A1 A2 A3 A4 A5 A6 A7 A8 A9] [B1 B2 B3 B4 B5 B6 B7 B8 B9]. split; try (intros; destruct_and?; split; by auto).
  intros m store env expected empty [HI HJ]. apply cwp_both; [by apply A9 | by apply B9].
Qed.

Lemma framed_all {X} (P : X -> Prop) (I : X -> Machine -> Prop) : (forall x, P x -> framed (I x)) -> framed (fun m => forall x, P x -> I x m).
Proof.
  intros Hf. split; try (intros; match goal with X : P ?x |- I ?x _ => destruct (Hf x X); by auto end).
  intros m store env expected empty HI. apply cwp_all. intros x Hx. destruct (Hf x Hx) as [_ _ _ _ _ _ _ _ A9]. apply A9. by apply HI.
Qed.

(** What concerns only the memory of the registry and the questions *)
Lemma framed_memory (I : Machine -> Prop) :
  (forall m m1, lc_executor (life m1) = lc_executor (life m) -> lc_floors (life m1) = lc_floors (life m) -> lc_groups (life m1) = lc_groups (life m) ->
     (forall w p, lc_workspaces (life m1) !! w = Some p -> lc_workspaces (life m) !! w = Some p \/ li_workspace (fst p) = w /\ remembered (fst p) (snd p) (life m1)) ->
     (forall w, floor_of_workspace w (life m) <= floor_of_workspace w (life m1)) ->
     (forall i d, (AskStart i, d) ∈ asked m1 -> (AskStart i, d) ∈ asked m) -> I m -> I m1) -> framed I.
Proof.
  intros HI. assert (K : forall m q, is_start q = false -> forall i d, (AskStart i, d) ∈ asked (note q m) -> (AskStart i, d) ∈ asked m).
  { intros m q Hq i d. cbn. intros [? | [= <- _]%list_elem_of_singleton]%elem_of_app; [done |]. done. }
  split.
  - intros m. apply HI; by auto.
  - intros m q Hq. apply HI; try done; [by auto | by apply K].
  - intros m d. apply HI; by auto.
  - intros m q. apply HI; by auto.
  - intros m w g. apply HI; try done; [by auto |]. intros v. unfold floor_of_workspace. cbn. destruct (decide (v = w)) as [-> |]; [rewrite lookup_insert_eq; cbn; lia |].
    by rewrite lookup_insert_ne by done.
  - intros m w g. apply HI; by auto.
  - intros m l. apply HI; by auto.
  - intros m i o Hr. apply HI; try done. cbn. intros w p. destruct (decide (w = li_workspace i)) as [-> |]; [rewrite lookup_insert_eq | rewrite lookup_insert_ne by done; by auto].
    intros [= <-]. by right.
  - intros m store env expected empty Hm evs. destruct (recover_epoch _ _ _ _ _ evs); (eapply HI; [.. | exact Hm]; by auto).
Qed.

(** The floor does not go down. *)
Lemma framed_above (w : pystr) (g : Z) : framed (fun m => g <= floor_of_workspace w (life m)).
Proof. apply framed_memory. intros m m1 _ _ _ _ Hf _ Hg. specialize (Hf w). lia. Qed.

Lemma framed_above_if (P : Prop) (w : pystr) (g : Z) : framed (fun m => P -> g <= floor_of_workspace w (life m)).
Proof. apply framed_memory. intros m m1 _ _ _ _ Hf _ Hg HP. specialize (Hf w). specialize (Hg HP). lia. Qed.

(** The stores stay. *)
Lemma framed_stores : framed (fun m => lc_floors (life m) <> None /\ lc_groups (life m) <> None).
Proof. apply framed_memory. by intros m m1 _ -> ->. Qed.

Definition remembers (m : Machine) : Prop := forall w i o, lc_workspaces (life m) !! w = Some (i, o) -> li_workspace i = w /\ remembered i o (life m).

Lemma framed_remembers : framed remembers.
Proof.
  apply framed_memory. intros m m1 _ _ _ Hw Hf _ Hm w i o Hi. destruct (Hw w (i, o) Hi) as [Hi0 | [? ?]]; [| done].
  destruct (Hm w i o Hi0) as [? [H1 H2]]. split; [done |]. split; [| done]. specialize (Hf (li_workspace i)). lia.
Qed.

(** When a start was asked for, every group of the workspace had been found empty. *)
Definition started_empty (m : Machine) : Prop := forall i d, (AskStart i, d) ∈ asked m -> all_empty d (li_workspace i).

Lemma framed_started_empty : framed started_empty.
Proof. apply framed_memory. intros m m1 _ _ _ _ _ Ha Hm i d Hi. by apply Hm, Ha. Qed.

(** The generations of [w] that the executor was asked to start, in order *)
Definition started (w : pystr) (l : list (question * Folder)) : list Z :=
  omap (fun e => match fst e with AskStart i => if decide (li_workspace i = w) then Some (generation_of i) else None | _ => None end) l.

(** They ascend, up to a floor that is durable. *)
Definition burned (w : pystr) (m : Machine) : Prop := exists now safe, tracks_floor w (floor_dir m) now safe
  /\ StronglySorted Z.lt (started w (asked m)) /\ Forall (fun g => exists s, safe = Some s /\ g <= fl_generation s) (started w (asked m)).

Lemma endures_burned (w : pystr) (m m1 : Machine) (now safe : option Floor) : endures_floor w now safe (floor_dir m1) -> started w (asked m1) = started w (asked m) ->
  StronglySorted Z.lt (started w (asked m)) -> Forall (fun g => exists s, safe = Some s /\ g <= fl_generation s) (started w (asked m)) -> burned w m1.
Proof.
  intros (now1 & safe1 & Ht & _ & Hs) Ea H1 H2. exists now1, safe1. rewrite Ea. split; [done |]. split; [done |]. eapply Forall_impl; [exact H2 |]. cbn beta.
  intros g (s & -> & Hg). destruct safe1 as [s1 |]; [| done]. destruct Hs as (_ & Hle & _). exists s1. split; [done | lia].
Qed.

Lemma framed_burned (w : pystr) : match_floor_id w = true -> framed (burned w).
Proof.
  intros Hw. assert (K : forall m m1, floor_dir m1 = floor_dir m -> started w (asked m1) = started w (asked m) -> burned w m -> burned w m1).
  { intros m m1 Hd Ha (now & safe & Hx). exists now, safe. by rewrite Hd, Ha. }
  split; try (intros; eapply K; [.. | eassumption]; done).
  - intros m q Hq. apply K; [done |]. unfold started. cbn. rewrite omap_app. cbn. destruct q; [done | by rewrite app_nil_r ..].
  - intros m store env expected empty (now & safe & Ht & H1 & H2). eapply cwp_conseq; [by apply (recover_epoch_spec w Hw) | |]; cbn beta.
    + intros d1 He. by apply (endures_burned w m _ now safe).
    + intros d1 x He. by apply (endures_burned w m _ now safe).
Qed.

End Framing.

(** ** Starting a workspace *)

Section Starting.
Context `{Unicode} `{Rfc8785Laws} (ports : Ports).
Implicit Types (i : Identity) (o : Observation) (m : Machine).

(** The invariant of a machine with both stores *)
Definition sound m : Prop :=
  (lc_floors (life m) <> None /\ lc_groups (life m) <> None) /\ remembers m /\ started_empty m /\ forall w, match_floor_id w = true -> burned w m.

Lemma framed_sound : framed sound.
Proof.
  apply framed_and; [apply framed_stores |]. apply framed_and; [apply framed_remembers |]. apply framed_and; [apply framed_started_empty |].
  apply framed_all. apply framed_burned.
Qed.

(** What [advance] returns is what it was given. *)
Lemma advance_returns (store : FloorStore) (env : Surroundings) (w : pystr) (g : Z) (r b h hr e : pyval) (d : Folder) :
  cwp (advance store env (PStr w) (PInt g) r b h hr e) (fun _ x => forall a, x = Ok a -> match_floor_id w = true /\ fl_workspace a = w /\ fl_generation a = g)
    (fun _ => True) d.
Proof.
  unfold advance. do 7 (apply cwp_bind, cwp_lift; match goal with |- context [match ?c with Ok _ => _ | Raise _ => _ end] => destruct c as [? |] eqn:?; [| done] end).
  match goal with X : validate_id _ _ = Ok ?x |- _ => apply validate_floor_id_ok in X as [[= <-] Hid] end.
  match goal with X : validate_generation _ _ = Ok ?x |- _ => apply validate_generation_ok in X as [[= <-] _] end.
  apply locked_folder_spec; [done | done | by intros d1 x _ |]. apply cwp_bind. eapply cwp_mono; [by apply read_floor_spec |]. cbn beta.
  intros d1 x _. destruct x as [cur | ex]; [| done]. apply cwp_bind, cwp_lift. destruct (check_advance _ _); [| done]. apply cwp_bind.
  intros evs. destruct (write_floor _ _ _ evs) as [| d2 rest [u | ex]]; [done | | done]. apply cwp_ret. by intros ? [= <-].
Qed.

(** A generation is durably burned before its start is asked for. *)
Lemma reserve_start i m : sound m -> all_empty (group_dir m) (li_workspace i) ->
  cwp (reserve ports START i) (fun m1 x => sound m1 /\ (x = Ok tt -> sound (note (AskStart i) (next_clock m1)))) sound m.
Proof.
  intros Hm Hempty. pose proof framed_sound as HF. apply cwp_self, cwp_inventory. destruct (lc_floors (life m)) as [store |] eqn:Ef; [| by destruct Hm as [[? _] _]].
  apply cwp_bind, cwp_attempt, cwp_on_floors. destruct Hm as (Hst & Hr & He & Hb).
  set (adv := advance _ _ _ _ _ _ _ _ _).
  assert (Hadv : cwp adv (fun d x => (forall w, match_floor_id w = true -> exists now safe, tracks_floor w (floor_dir m) now safe
       /\ StronglySorted Z.lt (started w (asked m)) /\ Forall (fun g => exists s, safe = Some s /\ g <= fl_generation s) (started w (asked m)) /\ advanced_floor w now safe d x)
       /\ forall a, x = Ok a -> match_floor_id (li_workspace i) = true /\ fl_workspace a = li_workspace i /\ fl_generation a = generation_of i)
     (fun d => (forall w, match_floor_id w = true -> burned w (set_floor_dir d (next_clock m))) /\ True) (floor_dir m)).
  { apply cwp_both; [| apply advance_returns]. apply cwp_all. intros w Hw. destruct (Hb w Hw) as (now & safe & Ht & H1 & H2).
    eapply cwp_conseq; [by apply (advance_spec w Hw) | |]; cbn beta.
    - intros d1 Hd. by apply (endures_burned w m _ now safe).
    - intros d1 x Hd. by exists now, safe. }
  eapply cwp_conseq; [exact Hadv | |]; cbn beta.
  - intros d1 [Hd _]. split; [exact Hst |]. split; [exact Hr |]. split; [exact He | exact Hd].
  - intros d1 x [Hd Hx]. assert (Hs : sound (set_floor_dir d1 (next_clock m))).
    { split; [exact Hst |]. split; [exact Hr |]. split; [exact He |]. intros w Hw. destruct (Hd w Hw) as (now & safe & _ & H1 & H2 & [H3 _]).
      by apply (endures_burned w m _ now safe). }
    destruct x as [a | e].
    2:{ destruct (exc_isa _ _); [| apply cwp_raise; by split]. apply cwp_bind. eapply cwp_mono; [by apply (keeps_quarantine _ HF) |]. cbn beta.
        intros m1 y H1. destruct y; [apply cwp_raise |]; by split. }
    apply cwp_ret. split; [done |]. intros _. destruct (Hx a eq_refl) as (Hid & Ew & Eg). split; [exact Hst |]. split; [exact Hr |]. split.
    + intros j d Hj. cbn in Hj. apply elem_of_app in Hj as [Hj | Hj%list_elem_of_singleton]; [by apply (He j) |]. by injection Hj as -> ->.
    + intros w Hw. destruct (Hd w Hw) as (now & safe & Ht & H1 & H2 & [H3 H4]). unfold burned, started. cbn. rewrite omap_app. cbn.
      fold (started w (asked m)). case_decide as Eiw.
      * destruct (H4 a eq_refl) as [H5 H6]; [congruence |]. assert (Hlt : Forall (fun g => g < generation_of i) (started w (asked m))).
        { eapply Forall_impl; [exact H2 |]. cbn beta. intros g (s & -> & Hg). destruct Ht as (_ & _ & Hno & _). destruct now as [b |]; [| done].
          destruct Hno as (_ & Hle & _). destruct (H6 b eq_refl) as [_ Hlt]. lia. }
        exists (Some a), (Some a). split; [done |]. split.
        -- apply StronglySorted_app_2; [| done | repeat constructor]. intros x y Hx1 ->%list_elem_of_singleton. rewrite Forall_forall in Hlt. by apply Hlt.
        -- apply Forall_app. split; [| constructor; [exists a; split; [done | lia] | done]]. eapply Forall_impl; [exact Hlt |]. cbn beta. intros g Hg. exists a. split; [done | lia].
      * rewrite app_nil_r. destruct H3 as (now1 & safe1 & Ht1 & _ & Hs1). exists now1, safe1. split; [done |]. split; [done |].
        eapply Forall_impl; [exact H2 |]. cbn beta. intros g (s & -> & Hg). destruct safe1 as [s1 |]; [| done]. destruct Hs1 as (_ & Hle & _). exists s1. split; [done | lia].
Qed.

End Starting.

(** ** From the executor on *)

Section Executing.
Context `{Unicode} `{Rfc8785Laws} (ports : Ports) (I : Machine -> Prop) (HI : framed I).
Implicit Types (i : Identity) (o : Observation) (m : Machine).

Lemma keeps_workspace i o : text_in (ob_state o) STATES = true ->
  maintains (fun m => I m /\ generation_of i <= floor_of_workspace (li_workspace i) (life m)) (change (with_workspace i o)).
Proof. intros Ho m [Hm Hg]. apply cwp_change. split; [by apply fr_workspace | done]. Qed.

Lemma raised_floor i l : generation_of i <= floor_of_workspace (li_workspace i) (with_floor (li_workspace i) (generation_of i) l).
Proof. unfold floor_of_workspace. cbn. rewrite lookup_insert_eq. cbn. lia. Qed.

Lemma rollback_keeps i : maintains I (rollback_failed_start ports i).
Proof.
  intros m Hm. pose proof (framed_and I _ HI (framed_above (li_workspace i) (generation_of i))) as HJ. set (J := fun m => I m /\ _) in HJ.
  apply cwp_inventory, cwp_bind, cwp_change. set (m1 := set_life _ m). assert (Hm1 : J m1) by (split; [by apply fr_floor | apply raised_floor]).
  match goal with |- cwp ?k _ _ _ => assert (K : maintains J k) end; [| eapply cwp_conseq; [by apply K | by intros d [Hd _] | by intros d x [Hd _]]]. clear m1 Hm1.
  pose proof (cleanup_failed_start_keeps ports J HJ). pose proof (fence_identity_keeps ports J HJ).
  assert (forall o, text_in (ob_state o) STATES = true -> maintains J (change (with_workspace i o))) by (intros o; apply keeps_workspace). keep.
Qed.

(** What follows a failed question *)
Lemma invoke_failed_keeps {A} (a : action) i (e : exn) : maintains (A := A) I (invoke_failed ports a i e).
Proof. pose proof rollback_keeps. pose proof (fence_identity_keeps ports I HI). unfold invoke_failed. keep. Qed.

(** The observation of an executor was checked. *)
Lemma validated_state (epoch : pystr) o (u : unit) : validate_observation epoch o = Ok u -> text_in (ob_state o) STATES = true.
Proof. unfold validate_observation. intros E. by apply rbind_ok in E as ([] & ?%raise_if_ok%negb_false_iff & _). Qed.

Lemma invoked (x : result Observation) (Q : Machine -> result Observation -> Prop) (C : Machine -> Prop) m :
  (forall e, Q m (Raise e)) -> (forall o, x = Ok o -> validate_observation (rg_epoch (registry (host m))) o = Ok tt -> Q m (Ok o)) ->
  cwp (io! o := io_lift x in io! r := inventory in then! io_lift (validate_observation (rg_epoch r) o) in io_ret o) Q C m.
Proof.
  intros HE HO. apply cwp_bind, cwp_lift. destruct x as [o1 | e]; [| apply HE]. apply cwp_inventory, cwp_bind, cwp_lift.
  destruct (validate_observation _ o1) as [[] | e] eqn:E; [by apply cwp_ret, HO | apply HE].
Qed.

(** What the executor returns was checked, and the machine is as before but for the
    question. *)
Lemma invoke_spec (a : action) i m : (a = START -> I (note (AskStart i) (next_clock m))) -> I m ->
  cwp (invoke ports a i) (fun m1 x => I m1 /\ forall o, x = Ok o -> validate_observation (rg_epoch (registry (host m))) o = Ok tt) I m.
Proof.
  intros Hs Hm. assert (K : forall q, is_start q = false -> I (note q (next_clock m))) by (intros q Hq; apply fr_note; [done | done | by apply fr_clock]).
  assert (L : forall m1 x, I m1 -> registry (host m1) = registry (host m) -> cwp (io! o := io_lift x in io! r := inventory in then! io_lift (validate_observation (rg_epoch r) o) in io_ret o)
    (fun m1 x => I m1 /\ forall o, x = Ok o -> validate_observation (rg_epoch (registry (host m))) o = Ok tt) I m1).
  { intros m1 x H1 Eh. apply invoked; [by split |]. intros o _ Ho. split; [done |]. intros o1 [= <-]. by rewrite <- Eh. }
  apply cwp_bind. destruct a; apply cwp_consult; auto.
Qed.

Lemma conclude_keeps (a : action) (d : pydict) i o (retry : bool) m : text_in (ob_state o) STATES = true -> I m ->
  (a <> START -> generation_of i <= floor_of_workspace (li_workspace i) (life m)) ->
  cwp (conclude a d i o retry) (fun m1 _ => I m1) I m.
Proof.
  intros Ho Hm Hg. assert (Hq : exists q, I (set_life (with_quarantine q (life m)) m) /\ forall (k : io Machine pydict),
    cwp k (fun m1 _ => I m1) I (set_life (with_workspace i o (with_quarantine q (life m))) m) ->
    cwp (then! change (with_workspace i o) in then! (if retry && str_eqb (ob_state o) $"STOPPED" then release (li_workspace i) else io_ret tt) in k) (fun m1 _ => I m1) I m).
  { destruct (retry && _).
    - eexists. split; [by apply fr_quarantine |]. intros k Hk. apply cwp_bind, cwp_change, cwp_bind, cwp_change. exact Hk.
    - exists (lc_quarantine (life m)). split; [by destruct m as [? []] |]. intros k Hk. apply cwp_bind, cwp_change, cwp_bind, cwp_ret. exact Hk. }
  destruct Hq as (q & Hm1 & Hk). apply Hk. clear Hk. set (l := with_quarantine q (life m)) in *.
  assert (Hend : a <> START -> forall x : result pydict, cwp (io_lift x) (fun m1 _ => I m1) I (set_life (with_workspace i o l) m)).
  { intros Ha x. apply cwp_lift. apply (fr_workspace I HI (set_life l m)); [| done]. split; [by apply Hg | done]. }
  destruct a; try (by apply Hend). apply cwp_bind, cwp_change, cwp_lift.
  apply (fr_workspace I HI (set_life (with_floor (li_workspace i) (generation_of i) l) m)); [split; [apply raised_floor | done] |]. by apply (fr_floor I HI (set_life l m)).
Qed.

End Executing.

Section Execute.
Context `{Unicode} `{Rfc8785Laws} (ports : Ports) (I : Machine -> Prop) (HI : framed I).
Implicit Types (i : Identity) (m : Machine).

(** The handler from the executor on, when the start is prepared *)
Lemma execute_keeps (a : action) (d : pydict) i (retry : bool) m : I m ->
  (a <> START -> generation_of i <= floor_of_workspace (li_workspace i) (life m)) ->
  cwp (reserve ports a i) (fun m1 x => I m1 /\ (a <> START -> life m1 = life m) /\ (x = Ok tt -> a = START -> I (note (AskStart i) (next_clock m1)))) I m ->
  cwp (execute ports a d i retry) (fun m1 _ => I m1) I m.
Proof.
  intros Hm Hg Hres. apply cwp_self, cwp_bind, cwp_raise_if; [done |]. intros _. apply cwp_bind. eapply cwp_mono; [exact Hres |]. cbn beta.
  intros m1 x (H1 & Hl & Hs). destruct x as [[] | e]; [| done]. specialize (Hs eq_refl).
  pose proof (framed_and I _ HI (framed_above_if (a <> START) (li_workspace i) (generation_of i))) as HJ. set (J := fun m => I m /\ _) in HJ.
  assert (HJ1 : J m1) by (split; [done |]; intros Ha; rewrite (Hl Ha); auto).
  assert (HJs : a = START -> J (note (AskStart i) (next_clock m1))) by (intros Ha; split; [by apply Hs | done]).
  eapply (cwp_conseq _ (fun m _ => J m) _ J); [| by intros d1 [? _] | by intros d1 x [? _]].
  apply cwp_bind, cwp_attempt. eapply cwp_mono; [by apply (invoke_spec ports J HJ) |]. cbn beta. intros m2 x [H2 Ho]. destruct x as [o | e].
  2:{ by apply (invoke_failed_keeps ports J HJ). }
  apply cwp_bind. eapply cwp_mono; [by apply (attest_keeps ports J HJ) |]. cbn beta. intros m3 x H3. destruct x as [record | e]; [| done].
  apply cwp_bind. eapply cwp_mono; [by apply (read_back_keeps ports J HJ) |]. cbn beta. intros m4 x H4. destruct x as [[] | e]; [| done].
  apply (conclude_keeps J HJ); [by eapply validated_state, Ho | done | apply H4].
Qed.

End Execute.

(** ** Quarantine is left only with empty groups *)

Section Clearing.
Context `{Unicode} `{Rfc8785Laws} (ports : Ports) (w : pystr).
Implicit Types (i : Identity) (r : Cgroup) (m : Machine).

Definition cleared m : Prop := w ∈ lc_quarantine (life m) \/ all_empty (group_dir m) w.

Lemma cleared_quarantine (v : pystr) : maintains cleared (quarantine v).
Proof. intros m [Hm | Hm]; apply cwp_change; [left; cbn; set_solver | by right]. Qed.

Lemma cleared_consult {A} (q : question) (answer : nat -> A) : maintains cleared (consult q answer).
Proof. intros m Hm. by apply cwp_consult. Qed.

Lemma cleared_floors {A} (op : Surroundings -> io Folder A) : maintains cleared (on_floors ports op).
Proof. intros m Hm. apply cwp_on_floors. intros evs. by destruct (op _ _ evs). Qed.

(** An operation on the groups that adds only empty records *)
Lemma cleared_groups {A} (op : Surroundings -> io Folder A) :
  (forall env d, cwp (op env) (fun d1 _ => emptying d d1) (emptying d) d) -> maintains cleared (on_groups ports op).
Proof.
  intros Hop m Hm. apply cwp_on_groups. eapply cwp_conseq; [apply Hop | |]; cbn beta; intros; (destruct Hm as [? | ?]; [by left | right; by eapply all_empty_emptying]).
Qed.

Lemma same_emptying {A} (op : io Folder A) (d : Folder) : cwp op (fun d1 _ => d1 = d) (fun d1 => d1 = d) d -> cwp op (fun d1 _ => emptying d d1) (emptying d) d.
Proof. intros Hop. eapply cwp_conseq; [exact Hop | |]; cbn beta; intros; subst; by right. Qed.

Lemma cleared_snapshot (store : GroupStore) (v : pystr) : maintains cleared (on_groups ports (fun env => snapshot store env v)).
Proof. apply cleared_groups. intros env d. apply same_emptying. eapply cwp_mono; [apply snapshot_spec |]. by intros d1 x [-> _]. Qed.

Lemma cleared_read (store : GroupStore) (v : pystr) (g : Z) : maintains cleared (on_groups ports (fun env => CgroupStore.read store env v g)).
Proof.
  apply cleared_groups. intros env d. apply same_emptying. apply cwp_bind, cwp_lift. destruct (validate_key v g); [| done]. apply locked_reads.
  eapply cwp_mono; [by apply read_group_spec |]. by intros d1 x [-> _].
Qed.

Lemma cleared_unresolved (store : GroupStore) (v : pystr) : maintains cleared (on_groups ports (fun env => latest_unresolved store env v)).
Proof. apply cleared_groups. intros env d. apply same_emptying, reads_records. Qed.

Hint Resolve cleared_quarantine cleared_consult cleared_floors cleared_snapshot cleared_read cleared_unresolved : keep.

(** The answer that no group is left is right. *)
Lemma settle_spec (store : GroupStore) (g : Registry) (u r : Cgroup) m : cleared m ->
  cwp (settle ports store g u r) (fun m1 x => cleared m1 /\ (x = Ok true -> all_empty (group_dir m1) (cg_workspace_id r))) cleared m.
Proof.
  intros Hm. assert (K : forall op : Surroundings -> io Folder bool, (forall env d, cwp (op env) (fun d1 x => emptying d d1 /\ (x = Ok true -> all_empty d1 (cg_workspace_id r))) (emptying d) d) ->
    cwp (on_groups ports op) (fun m1 x => cleared m1 /\ (x = Ok true -> all_empty (group_dir m1) (cg_workspace_id r))) cleared m).
  { intros op Hop. apply cwp_on_groups. eapply cwp_conseq; [apply Hop | |]; cbn beta.
    - intros d1 Hd. destruct Hm as [? | ?]; [by left | right; by eapply all_empty_emptying].
    - intros d1 x [Hd Hx]. split; [| exact Hx]. destruct Hm as [? | ?]; [by left | right; by eapply all_empty_emptying]. }
  unfold settle. destruct (_ || _); [apply K; intros; apply recover_empty_empties |]. destruct (_ && _); [| apply K; intros; apply acknowledge_empty_empties].
  apply cwp_bind, cwp_on_groups. eapply cwp_conseq; [apply snapshot_spec | |]; cbn beta.
  - by intros d1 ->.
  - intros d1 x [-> Hx]. destruct x as [s | e]; [| by split]. destruct (Hx s eq_refl) as (l & Hl & ->). apply cwp_ret. split; [done |].
    intros [= [Hu%bool_decide_eq_true _]%andb_true_iff]. cbn in Hu. cbn. apply (unresolved_none _ _ l Hl). apply last_None. by apply fmap_nil_inv in Hu.
Qed.

Lemma finish_cleared (store : GroupStore) (l : Lifecycle) (g : Registry) (u r : Cgroup) (rev digest : pystr) :
  maintains cleared (finish_cleanup ports store l g u r rev digest).
Proof.
  intros m Hm. set (P := fun (full : bool) m => full = true -> all_empty (group_dir m) (cg_workspace_id r)).
  apply cwp_bind, (cwp_mono _ (fun m1 x => cleared m1 /\ forall full, x = Ok full -> P full m1)).
  2:{ intros m1 x [H1 Hx]. destruct x as [[] | e]; [| by apply cwp_ret | done]. apply cwp_bind, cwp_change, cwp_change.
      destruct (decide (cg_workspace_id r = w)) as [Ew | Hne]; [right; specialize (Hx true eq_refl eq_refl); by rewrite Ew in Hx |]. destruct H1 as [H1 | H1]; [left; cbn; set_solver | by right]. }
  assert (HR : forall m e, cleared m -> (if existsb (exc_isa (exn_class e)) [WAWCgroupAttestationStoreError; WAWWorkspaceAttestationError]
      then cwp (io_raise RECONCILE_FIRST) (fun m1 x => cleared m1 /\ forall full, x = Ok full -> P full m1) cleared m
      else cleared m /\ forall full, Raise e = Ok full -> P full m)) by (intros m0 e Hm0; destruct (existsb _ _); [apply cwp_raise |]; by split).
  assert (Hfl : maintains cleared (floor_to_recover ports g l r rev digest)) by (unfold floor_to_recover; keep).
  apply cwp_try, cwp_bind. eapply cwp_mono; [by apply Hfl |]. cbn beta. intros m1 [floor | e] H1; [| by apply HR].
  apply cwp_bind. eapply cwp_mono; [by apply settle_spec |]. cbn beta. intros m2 [full | e] [H2 Hx]; [| by apply HR].
  assert (Hon : forall A (op : Surroundings -> io Folder A), maintains (fun m => cleared m /\ P full m) (on_floors ports op)).
  { intros A op m0 Hm0. apply cwp_on_floors. intros evs. by destruct (op _ _ evs). }
  assert (Hae : maintains (fun m => cleared m /\ P full m) (advance_epoch ports g l full floor r)) by (unfold advance_epoch; keep).
  apply cwp_bind. eapply cwp_conseq; [apply Hae; split; [done |]; intros ->; by apply Hx | by intros m3 [? _] |]. cbn beta. intros m3 [[] | e] [H3 Hx3]; [| by apply HR].
  apply cwp_ret. split; [done |]. by intros ? [= <-].
Qed.

Lemma acknowledge_cleared r (rev digest : option pystr) : maintains cleared (acknowledge_cleanup ports r rev digest).
Proof. pose proof finish_cleared. unfold acknowledge_cleanup, admit_record, unresolved_record. keep. Qed.

Lemma recover_cleared i : maintains cleared (recover_persisted ports i).
Proof. pose proof acknowledge_cleared. unfold recover_persisted, recover_generation, finalize_recovery. keep. Qed.

End Clearing.

(** ** The whole handler *)

Section Whole.
Context `{Unicode} `{Rfc8785Laws} (ports : Ports).
Implicit Types (i : Identity) (m : Machine).

(** After the groups were looked at, the workspace is in quarantine, or they are all
    empty, or it is the generation that runs. *)
Definition screened i m : Prop :=
  cleared (li_workspace i) m \/ exists c o, lc_workspaces (life m) !! li_workspace i = Some (c, o) /\ li_generation c = li_generation i.

Lemma screen_screens i m : lc_groups (life m) <> None -> cwp (screen ports i) (fun m1 x => x = Ok tt -> screened i m1) (fun _ => True) m.
Proof.
  intros Hg. apply cwp_self. destruct (lc_groups (life m)) as [[store f] |]; [| done]. destruct (quarantined (li_workspace i) (life m)) eqn:Eq.
  { apply cwp_ret. intros _. left. left. by apply bool_decide_eq_true in Eq. }
  apply cwp_try, cwp_bind, cwp_on_groups. eapply cwp_conseq; [apply snapshot_spec | done |]. cbn beta. intros d1 x [-> Hx].
  destruct x as [s | e]; [| destruct (existsb _ _); [by apply cwp_raise | done]]. destruct (Hx s eq_refl) as (l & Hl & ->). cbn [latest_generation_ latest_unresolved_].
  set (m1 := set_group_dir _ _). apply cwp_bind.
  assert (K : forall m2, group_dir m2 = group_dir m -> lc_workspaces (life m2) = lc_workspaces (life m) ->
    cwp (io! l0 := self in if given (last (unresolved l)) && negb (active_live (lc_workspaces l0 !! li_workspace i) i
        (mkSnapshot (cg_generation <$> last l) (map cg_generation (unresolved l)) (last (unresolved l)))) then quarantine (li_workspace i) else io_ret tt)
      (fun m3 x => match x with Ok _ => x = Ok tt -> screened i m3 | Raise _ => True end) (fun _ => True) m2).
  { intros m2 Ed Ew. apply cwp_self. destruct (last (unresolved l)) as [u |] eqn:Eu; cbn [given andb].
    - destruct (active_live _ _ _) eqn:Ea; cbn [negb].
      + apply cwp_ret. intros _. right. unfold active_live in Ea. destruct (lc_workspaces (life m2) !! li_workspace i) as [[c o] |] eqn:Ec; [| done].
        exists c, o. split; [done |]. cbn in Ea. split_bools. done.
      + apply cwp_change. intros _. left. left. cbn. set_solver.
    - apply cwp_ret. intros _. left. right. rewrite Ed. by apply (unresolved_none _ _ l). }
  destruct (cg_generation <$> last l) as [g |] eqn:Eg.
  - apply cwp_change. eapply cwp_mono; [by apply K |]. cbn beta. intros m3 [u | e] H3; [done |]. destruct (existsb _ _); [by apply cwp_raise | done].
  - apply cwp_ret. eapply cwp_mono; [by apply K |]. cbn beta. intros m3 [u | e] H3; [done |]. destruct (existsb _ _); [by apply cwp_raise | done].
Qed.

(** What the checks against the current workspace let through *)
Lemma check_current_spec (a : action) (d : pydict) i m :
  cwp (check_current ports a d i) (fun m1 x => x = Ok Proceed -> m1 = m /\
    match a with
    | START => floor_of_workspace (li_workspace i) (life m) < generation_of i
    | _ => exists o, lc_workspaces (life m) !! li_workspace i = Some (i, o)
    end) (fun _ => True) m.
Proof.
  assert (K : a <> START -> cwp (check_current ports a d i) (fun m1 x => x = Ok Proceed -> m1 = m /\ exists o, lc_workspaces (life m) !! li_workspace i = Some (i, o)) (fun _ => True) m).
  { intros Ha. apply cwp_self. destruct a; try done;
      (destruct (lc_workspaces (life m) !! li_workspace i) as [[c o] |] eqn:Ec; [| by apply cwp_raise]; apply cwp_bind, cwp_raise_if; [done |];
       intros Hc%negb_false_iff%bool_decide_eq_true; subst c; destruct (bool_decide _ && _); [| apply cwp_ret; intros _; split; [done | by exists o]];
       apply cwp_bind; intros evs; match goal with |- match ?k with _ => _ end => destruct k as [| m1 rest [u | e]] end; [done | | done];
       apply cwp_bind, cwp_lift; destruct (stop_response _ _ _); [by apply cwp_ret | done]). }
  destruct a; try (by apply K). apply cwp_self, cwp_bind, cwp_lift. destruct (check_current_start _ _ _ _) as [[r |] | e]; [by apply cwp_ret | | done].
  apply cwp_bind, cwp_raise_if; [done |]. intros Hg%Z.leb_gt. apply cwp_ret. by intros _.
Qed.

Lemma reserve_other (a : action) i m (Q : Machine -> result unit -> Prop) (C : Machine -> Prop) : a <> START -> Q m (Ok tt) -> cwp (reserve ports a i) Q C m.
Proof. intros Ha HQ. apply cwp_self, cwp_inventory. by destruct a, (lc_floors (life m)); try apply cwp_ret. Qed.

(** The executor is asked with all that a start needs. *)
Lemma execute_sound (a : action) (d : pydict) i (retry : bool) m : sound m ->
  match a with
  | START => all_empty (group_dir m) (li_workspace i)
  | _ => generation_of i <= floor_of_workspace (li_workspace i) (life m)
  end -> cwp (execute ports a d i retry) (fun m1 _ => sound m1) sound m.
Proof.
  intros Hm Ha. apply (execute_keeps ports sound framed_sound); [done | by destruct a |].
  destruct (decide (a = START)) as [-> | Hne]; [| by apply reserve_other].
  eapply cwp_mono; [by apply reserve_start |]. cbn beta. intros m1 x [H1 Hx]. split; [done |]. split; [done |]. intros E _. by apply Hx.
Qed.

Lemma lifecycle_sound (a : action) (d : pydict) : maintains sound (lifecycle ports a d).
Proof.
  intros m Hm. pose proof framed_sound as HF. apply cwp_bind. eapply cwp_mono; [by apply (keeps_authority sound) |]. cbn beta. intros m1 [[] | e] H1; [| done]. clear m Hm.
  apply cwp_bind, cwp_raise_if; [done |]. intros _. apply cwp_bind, cwp_lift. destruct (request_identity d) as [i |]; [| done].
  apply cwp_bind. eapply cwp_mono; [by apply (hydrate_floor_keeps ports sound HF) |]. cbn beta. intros m2 [[] | e] H2; [| done]. clear m1 H1.
  apply cwp_bind. eapply cwp_mono; [by apply (check_identity_keeps sound) |]. cbn beta. intros m3 [[] | e] H3; [| done]. clear m2 H2.
  apply cwp_bind. eapply cwp_conseq; [apply cwp_both; [by apply (screen_keeps ports sound HF) | apply screen_screens, H3] | by intros m4 [? _] |]. cbn beta.
  intros m4 x [H4 Hs]. destruct x as [[] | e]; [| done]. specialize (Hs eq_refl). clear m3 H3. apply cwp_self, cwp_bind.
  assert (K : forall m5, sound m5 -> screened i m5 -> cwp (io! l := self in io! r := inventory in
      if bool_decide (a = RECONCILE) && quarantined (li_workspace i) l then io_lift (quarantine_response d (rg_epoch r))
      else let cleanup_retry := may_retry a i l in
        then! io_raise_if (quarantined (li_workspace i) l && negb cleanup_retry) RECONCILE_FIRST in
        io! x := check_current ports a d i in
        match x with Answered r => io_ret r | Proceed => execute ports a d i cleanup_retry end) (fun m1 _ => sound m1) sound m5).
  { clear m4 H4 Hs. intros m5 H5 Hs. apply cwp_self, cwp_inventory. destruct (_ && _); [by apply cwp_lift |]. cbv zeta. apply cwp_bind, cwp_raise_if; [done |]. intros Hq.
    apply cwp_bind. eapply cwp_conseq; [apply cwp_both; [by apply (check_current_keeps ports sound HF) | apply check_current_spec] | by intros m6 [? _] |]. cbn beta.
    intros m6 x [H6 Hc]. destruct x as [[r |] | e]; [by apply cwp_ret | | done]. destruct (Hc eq_refl) as [-> Hcur]. apply execute_sound; [done |].
    destruct a; try (match type of Hcur with ex _ => idtac end; destruct Hcur as [? Hcur1]; destruct H5 as (_ & Hr & _); by destruct (Hr _ _ _ Hcur1) as [_ [? _]]).
    destruct Hs as [[Hs | Hs] | (c & o & Hc1 & Hc2)]; [| done |].
    - unfold quarantined in Hq. by rewrite bool_decide_eq_true_2 in Hq by done.
    - destruct H5 as (_ & Hr & _). destruct (Hr _ _ _ Hc1) as [Ew [Hle _]]. rewrite Ew in Hle. unfold generation_of in Hle, Hcur. rewrite Hc2 in Hle. lia. }
  destruct (bool_decide (a = START) && quarantined (li_workspace i) (life m4)) eqn:E; [| apply cwp_ret; by apply K].
  apply andb_true_iff in E as [_ E%bool_decide_eq_true].
  eapply cwp_conseq; [apply cwp_both; [by apply (recover_persisted_keeps ports sound HF) | apply (recover_cleared ports (li_workspace i)); by left] | by intros m5 [? _] |].
  cbn beta. intros m5 [[] | e] [H5 Hc]; [| done]. apply K; [done | by left].
Qed.

(** ** Every operation *)

Lemma evidence_sound (d : pydict) : maintains sound (executable_evidence ports d).
Proof.
  pose proof framed_sound as HF. pose proof (hydrate_floor_keeps ports sound HF). pose proof (check_identity_keeps sound). unfold executable_evidence. keep.
Qed.

(** The cache is no part of it. *)
Lemma cache_sound (f : Lifecycle -> list (pystr * (pystr * pydict))) : maintains sound (change (fun l => with_cache (f l) l)).
Proof. by apply keeps_change. Qed.

Lemma remember_sound (id fingerprint : pystr) (r : pydict) : maintains sound (change (remember id fingerprint r)).
Proof. by apply keeps_change. Qed.

Lemma dispatch_sound (a : action) (d : pydict) : maintains sound (dispatch ports a d).
Proof.
  pose proof framed_sound as HF. pose proof evidence_sound. pose proof lifecycle_sound. pose proof remember_sound. unfold dispatch. keep.
Qed.

Lemma perform_sound (op : machine_op) : maintains sound (perform_machine ports op).
Proof.
  pose proof framed_sound as HF. destruct op as [a d | id f r | r rev digest | i | store env op]; cbn [perform_machine].
  - pose proof dispatch_sound. keep.
  - pose proof remember_sound. keep.
  - by apply acknowledge_cleanup_keeps.
  - apply keeps_change. intros m. by apply fr_detached.
  - apply keeps_bind; [| intros []; destruct op; try (by apply keeps_ret); apply (cache_sound (fun _ => []))].
    intros m Hm. apply cwp_zoom. intros evs. by destruct (perform_op store env op (host m) evs).
Qed.

End Whole.

(** ** Histories of a machine *)

(** What is left of a directory when the machine goes on or the power is lost *)
Definition after_loss (d d1 : Folder) : Prop := d1 = d \/ exists x, power_lost d x /\ d1 = mkFolder x x.

(** The process ends between two operations, or dies in one. *)
Definition process_ends `{Unicode} `{Rfc8785} (m m1 : Machine) : Prop := m1 = m \/ exists ports op evs, perform_machine ports op m evs = Died m1.

(** A new process: its registry knows nothing yet, and has both stores. *)
Definition new_process (h : Host) (l : Lifecycle) : Prop :=
  (exists host revision epoch resources, new_registry host revision epoch resources = Ok (registry h))
  /\ exists executor floors groups factory, new_lifecycle executor (Some floors) (Some groups) (Some factory) = Ok l.

(** A machine whose directories were empty at first: any operations with any answers,
    and any number of processes *)
Inductive lived `{Unicode} `{Rfc8785} : Machine -> Prop :=
| Lived_new h l : new_process h l -> lived (mkMachine h l (mkFolder ∅ ∅) (mkFolder ∅ ∅) 0 [])
| Lived_run m ports op evs m1 rest r : lived m -> perform_machine ports op m evs = Ran m1 rest r -> lived m1
| Lived_restart m m1 h l fd gd : lived m -> process_ends m m1 -> new_process h l -> after_loss (floor_dir m1) fd -> after_loss (group_dir m1) gd ->
    lived (mkMachine h l fd gd (clock m1) (asked m1)).

Section Histories.
Context `{Unicode} `{Rfc8785Laws}.

Lemma new_process_sound (h : Host) (l : Lifecycle) (fd gd : Folder) (n : nat) (log : list (question * Folder)) : new_process h l ->
  (forall i d, (AskStart i, d) ∈ log -> all_empty d (li_workspace i)) -> (forall w, match_floor_id w = true -> burned w (mkMachine h l fd gd n log)) ->
  sound (mkMachine h l fd gd n log).
Proof.
  intros [_ (executor & floors & groups & factory & [= <-])] Hs Hb. split; [done |]. split; [| by split]. intros w i o Hi. cbn in Hi. by rewrite lookup_empty in Hi.
Qed.

Lemma perform_ends_sound (m m1 : Machine) : sound m -> process_ends m m1 -> sound m1.
Proof.
  intros Hm [-> | (ports & op & evs & E)]; [done |]. pose proof (perform_sound ports op m Hm evs) as Hp. by rewrite E in Hp.
Qed.

Lemma burned_after_loss (w : pystr) (m m1 : Machine) : burned w m -> after_loss (floor_dir m) (floor_dir m1) -> asked m1 = asked m -> burned w m1.
Proof.
  intros (now & safe & Ht & H1 & H2) Hl Ea. destruct Hl as [Hl | (x & Hx & Hl)].
  - exists now, safe. by rewrite Hl, Ea.
  - destruct (lost_floor w _ x now safe Ht Hx) as (now1 & Ht1 & Hs1). exists now1, now1. rewrite Hl, Ea. split; [done |]. split; [done |].
    eapply Forall_impl; [exact H2 |]. cbn beta. intros g (s & -> & Hg). destruct now1 as [s1 |]; [| done]. destruct Hs1 as (_ & Hle & _). exists s1. split; [done | lia].
Qed.

Lemma lived_sound (m : Machine) : lived m -> sound m.
Proof.
  induction 1 as [h l Hn | m ports op evs m1 rest r _ IH E | m m1 h l fd gd _ IH He Hn Hf Hg].
  - apply new_process_sound; [done | |]. { intros i d Hi. by apply elem_of_nil in Hi. }
    intros w Hw. exists None, None. split; [| by repeat constructor]. unfold tracks_floor. cbn. by rewrite !lookup_empty.
  - pose proof (perform_sound ports op m IH evs) as Hp. by rewrite E in Hp.
  - pose proof (perform_ends_sound m m1 IH He) as (_ & _ & Hs & Hb). apply new_process_sound; [done | exact Hs |]. intros w Hw. by apply (burned_after_loss w m1); [apply Hb | |].
Qed.

(** The floor of [w] that a power loss leaves when it takes all that is not durable *)
Definition kept_floor (w : pystr) (m : Machine) : option Floor := floor_of (mkFolder (kept (floor_dir m)) (kept (floor_dir m))) w.

Lemma tracked_kept (w : pystr) (m : Machine) (now safe : option Floor) : tracks_floor w (floor_dir m) now safe -> kept_floor w m = safe.
Proof.
  intros (_ & Hk & Hno & Hn). apply (tracked_floor w _ safe safe). split; [exact Hk |]. split; [exact Hk |]. split; [done |].
  intros a ->. destruct now as [b |]; [| done]. destruct Hno as ((-> & _) & _). by apply Hn.
Qed.

(** C11: whatever requests come, whatever the executor, the
    cgroup factory and the operating system answer, wherever the process dies and
    however often it is restarted or the power is lost, the generations of a workspace
    that the executor was asked to start strictly ascend: none is started twice, and
    the durable floor has reached each of them. *)
Theorem generations_started_once (m : Machine) (w : pystr) : lived m -> match_floor_id w = true ->
  StronglySorted Z.lt (started w (asked m)) /\ Forall (fun g => exists a, kept_floor w m = Some a /\ g <= fl_generation a) (started w (asked m)).
Proof.
  intros Hm Hw. apply lived_sound in Hm as (_ & _ & _ & Hb). destruct (Hb w Hw) as (now & safe & Ht & H1 & H2). split; [done |].
  by rewrite (tracked_kept w m now safe Ht).
Qed.

(** C12: in the same histories, at every moment at which the executor
    is asked to start a workspace, every cgroup attestation of the workspace that is on
    record says that its group was found empty: no generation starts beside the
    processes of another one. *)
Theorem starts_find_empty (m : Machine) (i : Identity) (d : Folder) (g : Z) (r : Cgroup) : lived m -> (AskStart i, d) ∈ asked m ->
  found_group d (li_workspace i) g (Some r) -> is_empty r = true.
Proof. intros Hm%lived_sound Hi. destruct Hm as (_ & _ & Hs & _). by apply (Hs i d Hi). Qed.

End Histories.

(** ** Concrete runs *)

#[local] Existing Instance printed_rfc8785.

(** The sample workspace at a generation, and a request for it *)
Definition workspace_at (g : pystr) : Identity :=
  mkIdentity ($"aws_" ++ repeat 97 32) ($"prj_" ++ repeat 97 32) $"claude" g $"1" (repeat 48 64) ($"wri_" ++ repeat 98 32) $"1".

Definition workspace_request (a : action) (id g : pystr) : pydict :=
  let i := workspace_at g in
  [($"protocol_version", PInt 1); ($"request_id", PStr ($"wreq_" ++ id)); ($"action", PStr (ustr (action_name a))); ($"workspace_id", PStr (li_workspace i));
   ($"project_id", PStr (li_project i)); ($"agent_type", PStr (li_agent i)); ($"generation", PStr g); ($"binding_revision", PStr (li_revision i));
   ($"binding_digest", PStr (li_digest i)); ($"runtime_host_installation_id", PStr (li_host i));
   ($"runtime_host_installation_revision", PStr (li_host_revision i))].

Definition running_observation : Observation := mkObservation $"RUNNING" $"authoritative" $"RUNNING" PNone (PStr $"7").

(** An executor that starts and stops, and a factory that finds a stopped workspace
    empty *)
Definition calm_ports : Ports :=
  mkPorts (fun _ _ => Ok running_observation) (fun _ _ => Ok (stopped_observation $"7")) (fun _ _ => Ok running_observation)
    (fun _ _ => Ok running_observation) (fun _ _ => Unfinished) None
    (fun _ i o => Attested (sample_cgroup (generation_of i) $"7" $"invocation-1" (if running o then $"LIVE" else $"EMPTY_DURABLE") (if running o then $"1" else $"0")))
    (fun _ _ => Raise RECONCILE_FIRST) (fun _ _ => Ok tt) (fun n => floor_env (Z.of_nat n + 48)) (fun n => group_env (Z.of_nat n + 48)).

Definition machine_after {A} (o : outcome Machine A) : Machine := match o with Died m | Ran m _ _ => m end.

Definition first_registry : Registry := mkRegistry ($"wri_" ++ repeat 98 32) $"1" $"7" false None ∅ ∅ ∅ false false true true None.
Definition first_machine : Machine :=
  mkMachine (mkHost first_registry (mkFolder ∅ ∅) (mkWorld sample_verifier []) [])
    (mkLifecycle true (Some floor_store) (Some (group_store, Cleaner)) ∅ ∅ ∅ ∅ [] []) (mkFolder ∅ ∅) (mkFolder ∅ ∅) 0 [].

(** The API binds and registers the Project; generation 1 is started and stopped,
    and generation 2 is started. *)
Definition sample_ops : list machine_op :=
  [OnInventory heads_store (heads_env 49) (HBind $"1" (repeat 49 32));
   OnInventory heads_store (heads_env 49)
     (HRegister (mkRegister heads_project $"one" $"1" $"1" None None ($"wri_" ++ repeat 98 32) $"1") (Some (PStr (repeat 48 64))));
   Dispatch START (workspace_request START (repeat 49 32) $"1");
   Dispatch STOP (workspace_request STOP (repeat 50 32) $"1");
   Dispatch START (workspace_request START (repeat 51 32) $"2")].

(** The machine after operations, up to one in which the process dies *)
Fixpoint run_machine (ops : list machine_op) (m : Machine) : Machine :=
  match ops with
  | [] => m
  | op :: rest => match perform_machine calm_ports op m [] with Ran m1 _ _ => run_machine rest m1 | Died _ => m end
  end.

Lemma run_lived (ops : list machine_op) (m : Machine) : lived m -> lived (run_machine ops m).
Proof.
  revert m. induction ops as [| op ops IH]; intros m Hm; cbn [run_machine]; [done |].
  destruct (perform_machine calm_ports op m []) as [| m1 rest r] eqn:E; [done |]. apply IH. by eapply Lived_run.
Qed.

Lemma first_lived : lived first_machine.
Proof.
  apply (Lived_new (mkHost first_registry _ _ _)). split; [by exists ($"wri_" ++ repeat 98 32), $"1", $"7", false |]. by exists true, floor_store, group_store, Cleaner.
Qed.

Definition sample_machine : Machine := run_machine sample_ops first_machine.

Lemma sample_lived : lived sample_machine.
Proof. apply run_lived, first_lived. Qed.

Example sample_started : started floor_workspace (asked sample_machine) = [1; 2] /\ is_Some (kept_floor floor_workspace sample_machine).
Proof. vm_compute. by split; [| eexists]. Qed.

Lemma generations_started_once_witness : StronglySorted Z.lt (started floor_workspace (asked sample_machine))
  /\ Forall (fun g => exists a, kept_floor floor_workspace sample_machine = Some a /\ g <= fl_generation a) (started floor_workspace (asked sample_machine)).
Proof. exact (generations_started_once sample_machine floor_workspace sample_lived eq_refl). Defined.

(** The groups on record when generation 2 was started *)
Definition starts (i : Identity) (x : question * Folder) : bool := match fst x with AskStart j => bool_decide (j = i) | _ => false end.
Definition second_groups : Folder := match List.find (starts (workspace_at $"2")) (asked sample_machine) with Some x => snd x | None => mkFolder ∅ ∅ end.

Lemma find_starts (i : Identity) (l : list (question * Folder)) : existsb (starts i) l = true ->
  (AskStart i, match List.find (starts i) l with Some x => snd x | None => mkFolder ∅ ∅ end) ∈ l.
Proof.
  intros (y & Hy & Hs)%existsb_exists. destruct (List.find (starts i) l) as [[q d] |] eqn:E; [| by rewrite (List.find_none _ _ E y Hy) in Hs].
  apply List.find_some in E as [Hin Hq]. unfold starts in Hq. cbn [fst] in Hq. destruct q; try done. apply bool_decide_eq_true in Hq as ->. by apply list_elem_of_In.
Qed.

Lemma second_started : existsb (starts (workspace_at $"2")) (asked sample_machine) = true.
Proof. vm_compute. reflexivity. Qed.

Lemma second_found_empty : group_of second_groups (li_workspace (workspace_at $"2")) 1 = Some empty_cgroup.
Proof. vm_compute. reflexivity. Qed.

Lemma starts_find_empty_witness : is_empty empty_cgroup = true.
Proof.
  exact (starts_find_empty sample_machine (workspace_at $"2") second_groups 1 empty_cgroup sample_lived (find_starts _ _ second_started)
    (group_of_found _ _ _ _ second_found_empty)).
Defined.
