(* ===== verification/LifecycleAnswers.v ===== *)
(** * The answers of the lifecycle registry

    A request that was answered is answered from the cache when it is repeated, with
    the same response and without any effect, until the caches of the peer are cleared;
    and every response with which a request for a workspace is answered first passes [validate_response] of [Control.v], which the server applies
    before it sends it.  The handlers leave the inventory and the cache as they are
    ([rests]), and no operation changes the epoch of the process. *)

From S2P Require Import Prelude PyVal Json Unicode Control Canonical Crash Folder Cgroup Floors CgroupStore BindingStore BindingHeads Verifier Registry Lifecycle LifecycleSpec.

Local Open Scope Z_scope.

(** ** The inventory and the cache stay *)

Section Rest.
Context `{Unicode} `{Rfc8785Laws} (ports : Ports) (h : Host) (c : list (pystr * (pystr * pydict))).
Implicit Types (i : Identity) (m : Machine).

Definition rests m : Prop := host m = h /\ lc_cache (life m) = c.

Lemma framed_rests : framed rests.
Proof. split; try done. intros m store env expected empty Hm evs. by destruct (recover_epoch _ _ _ _ _ evs). Qed.

Lemma rests_workspace i (o : Observation) : maintains rests (change (with_workspace i o)).
Proof. by apply keeps_change. Qed.

Lemma rests_consult {A} (q : question) (answer : nat -> A) : maintains rests (consult q answer).
Proof. intros m Hm. by apply cwp_consult. Qed.

Lemma rests_floors {A} (op : Surroundings -> io Folder A) : maintains rests (on_floors ports op).
Proof. intros m Hm. apply cwp_on_floors. intros evs. by destruct (op _ _ evs). Qed.

Lemma reserve_rests (a : action) i : maintains rests (reserve ports a i).
Proof. pose proof framed_rests. pose proof (@rests_floors). unfold reserve. keep. Qed.

Lemma invoke_rests (a : action) i : maintains rests (invoke ports a i).
Proof. pose proof framed_rests. pose proof (@rests_consult). unfold invoke. keep. Qed.

Lemma conclude_rests (a : action) (d : pydict) i (o : Observation) (retry : bool) : maintains rests (conclude a d i o retry).
Proof. pose proof framed_rests. pose proof rests_workspace. unfold conclude. keep. Qed.

(** No request for a workspace changes the inventory. *)
Lemma lifecycle_rests (a : action) (d : pydict) : maintains rests (lifecycle ports a d).
Proof.
  pose proof framed_rests as HF. pose proof reserve_rests. pose proof invoke_rests. pose proof conclude_rests.
  pose proof (fun A a i e => invoke_failed_keeps ports rests HF (A := A) a i e). pose proof (attest_keeps ports rests HF). pose proof (read_back_keeps ports rests HF).
  pose proof (hydrate_floor_keeps ports rests HF). pose proof (check_identity_keeps rests). pose proof (screen_keeps ports rests HF).
  pose proof (recover_persisted_keeps ports rests HF). pose proof (check_current_keeps ports rests HF). unfold lifecycle, execute. keep.
Qed.

Lemma evidence_rests (d : pydict) : maintains rests (executable_evidence ports d).
Proof.
  pose proof framed_rests as HF. pose proof (hydrate_floor_keeps ports rests HF). pose proof (check_identity_keeps rests). unfold executable_evidence. keep.
Qed.

End Rest.

(** ** The cache *)

(** The answer [r] to the request [id] is in the cache, with at most [n] later ones. *)
Definition recent (id fingerprint : pystr) (r : pydict) (n : nat) (l : Lifecycle) : Prop :=
  exists older newer, lc_cache l = older ++ (id, (fingerprint, r)) :: newer /\ (length newer <= n)%nat /\ Forall (fun e => fst e <> id) older.

Section Cache.
Implicit Types (id fingerprint : pystr) (r : pydict) (l : Lifecycle).




(** The oldest answers go, and not this one. *)
Lemma drop_older {A} (older newer : list A) (x : A) (k : nat) : (length newer < k)%nat ->
  exists rest, drop (length (older ++ x :: newer) - k) (older ++ x :: newer) = rest ++ x :: newer /\ forall P, Forall P older -> Forall P rest.
Proof.
  intros Hk. rewrite length_app. cbn [length]. exists (drop (length older + S (length newer) - k) older). split; [| intros P; apply Forall_drop].
  apply drop_app_le. lia.
Qed.

Lemma remember_recent id fingerprint r l : recent id fingerprint r 0 (remember id fingerprint r l).
Proof.
  unfold recent, remember. cbn [lc_cache with_cache]. set (older := filter _ (lc_cache l)).
  destruct (drop_older older [] (id, (fingerprint, r)) MAX_CACHED) as (rest & E & Hr); [cbn; unfold MAX_CACHED; lia |].
  exists rest, []. split; [exact E |]. split; [done |]. apply Hr, Forall_forall. intros e He. by apply list_elem_of_filter in He as [? _].
Qed.


End Cache.

Section Answering.
Context `{Unicode} `{Rfc8785Laws}.
Implicit Types (a : action) (d r : pydict) (id : pystr) (m : Machine).

(** What [_require_dispatch_open] refuses *)
Definition closed a (g : Registry) : bool :=
  rg_shutting_down g || (rg_gate_required g && negb (rg_gate_open g) && negb (bool_decide (a ∈ [BIND; REGISTER; FINALIZE]))).

Lemma open_spec a m evs : on_host (require_dispatch_open a) m evs = Ran m evs (if closed a (registry (host m)) then Raise (dispatch_error "RUNTIME_UNAVAILABLE") else Ok tt).
Proof. unfold on_host, zoom, require_dispatch_open, io_bind, ask, io_raise_if, closed. cbn. destruct (_ || _); cbn; by rewrite same_host. Qed.


(** A request that is answered first is answered by its handler, and remembered. *)
Lemma dispatch_fresh (ports : Ports) a d id r m evs m1 rest : dget d $"request_id" = Some (PStr id) -> cached id (life m) = None ->
  dispatch ports a d m evs = Ran m1 rest (Ok r) -> (exists f, fingerprint_of d = Ok f /\ recent id f r 0 (life m1))
  /\ exists m2 rest2, (if bool_decide (a = EVIDENCE) then executable_evidence ports d else lifecycle ports a d) m evs = Ran m2 rest2 (Ok r).
Proof.
  intros Hid Hc. unfold dispatch, io_bind at 1. rewrite open_spec. destruct (closed _ _); [done |]. rewrite Hid. unfold io_bind at 1, io_lift.
  destruct (fingerprint_of d) as [f |]; [| done]. unfold io_bind at 1, self. rewrite Hc. unfold io_bind at 1.
  set (handler := if bool_decide _ then _ else _). destruct (handler m evs) as [| m2 rest2 [r2 |]]; [done | | done]. cbn. intros [= <- <- <-].
  split; [exists f; split; [done |]; apply remember_recent | by exists m2, rest2].
Qed.








End Answering.

(** ** Responses *)

Section Responses.
Context `{Unicode}.
Implicit Types (a : action) (d r : pydict) (id : pystr) (o : Observation).

(** A member of a dictionary that passes its check *)
Definition passes d (x : string * check) : Prop := exists v, dget d (ustr (fst x)) = Some v /\ snd x (fst x) v = Ok tt.

Lemma passes_fields d (l : list (string * check)) : Forall (passes d) l -> check_fields d l = Ok tt.
Proof.
  induction 1 as [| [k c] l (v & Hv & Hc) _ IH]; [done |]. cbn [check_fields]. unfold item. cbn [fst snd] in Hv, Hc. rewrite Hv. cbn [rbind]. by rewrite Hc.
Qed.

Lemma passes_item d (k : string) (c : check) (v : pyval) : item d k = Ok v -> passes d (k, c) -> c k v = Ok tt.
Proof. intros Hv%item_ok (v1 & Hv1 & Hc). cbn [fst snd] in *. congruence. Qed.

(** A request for a workspace that the protocol accepts *)
Definition requested d id : Prop :=
  dget d $"request_id" = Some (PStr id) /\ REQUEST_ID "request_id" (PStr id) = Ok tt /\ Forall (passes d) workspace_checks.

Lemma request_requested a d r : validate_request d = Ok r -> dget d $"action" = Some (PStr (ustr (action_name a))) -> workspace_action a = true -> exists id, requested d id.
Proof.
  intros Hv Ha Hin. unfold validate_request in Hv. rewrite Ha in Hv. assert (action_of (ustr (action_name a)) = Some a) as Hof by (by destruct a). rewrite Hof in Hv.
  apply rbind_ok in Hv as ([] & _ & Hv). apply rbind_ok in Hv as ([] & Hc & Hv). apply rbind_ok in Hv as ([] & Hck & _).
  unfold common_ in Hc. apply rbind_ok in Hc as ([] & _ & Hc). apply rbind_ok in Hc as ([] & Hid & _).
  destruct (dget d $"request_id") as [[| | | | id | | |] |] eqn:Eid; try done. exists id. split; [done |]. split; [done |].
  destruct a; try done; try (by apply check_fields_ok in Hck). cbn [request_checks] in Hck. apply rbind_ok in Hck as ([] & Hck & _). by apply check_fields_ok in Hck.
Qed.

(** The answer to a request is one that the protocol accepts for it. *)
Definition answers a d r : Prop := validate_response r (ustr (action_name a)) (dget d $"request_id") = Ok r.

Lemma respond_ok d (status : string) (keys : list string) (fields r : pydict) : respond d status keys fields = Ok r ->
  exists (rid : pyval) vs, item d "request_id" = Ok rid /\ Forall2 (fun k v => item d k = Ok v) keys vs
    /\ r = ($"protocol_version", PInt 1) :: ($"request_id", rid) :: ($"status", PStr (ustr status)) :: zip (map ustr keys) vs ++ fields.
Proof.
  unfold respond. intros E. apply rbind_ok in E as (id & Hid & E). apply rbind_ok in E as (same & Hs & <-%Ok_inj). exists id.
  assert (exists vs, Forall2 (fun k v => item d k = Ok v) keys vs /\ same = zip (map ustr keys) vs) as (vs & Hvs & ->); [| by exists vs].
  revert same Hs. unfold repeated. induction keys as [| k keys IH]; cbn [map seq_results]; intros same Hs.
  - apply Ok_inj in Hs as <-. exists []. by split; [constructor |].
  - apply rbind_ok in Hs as (kv & Hk & Hs). apply rbind_ok in Hk as (v & Hv & <-%Ok_inj). apply rbind_ok in Hs as (same1 & H1 & <-%Ok_inj).
    destruct (IH same1 H1) as (vs & Hvs & ->). exists (v :: vs). by split; [constructor |].
Qed.

Lemma request_id_ascii id : REQUEST_ID "request_id" (PStr id) = Ok tt -> forallb (fun c => c <? 128) id = true.
Proof.
  unfold REQUEST_ID, Control.string_. intros Hm%raise_if_ok%orb_false_iff. destruct Hm as [_ Hm%negb_false_iff].
  pose proof (class_id (good := is_ascii) $"wreq" id eq_refl Hm) as Hx. rewrite forallb_forall in *. intros c Hc. specialize (Hx c Hc). unfold is_ascii, in_range in Hx. lia.
Qed.

Lemma expect_same r id : dget r $"request_id" = Some (PStr id) -> REQUEST_ID "request_id" (PStr id) = Ok tt -> expect_request_id r (Some (PStr id)) = Ok tt.
Proof.
  intros Hr Hok. pose proof (request_id_ascii id Hok) as Ha. unfold expect_request_id.
  assert (Control.string_ (match_id $"wreq") "expected_request_id" (PStr id) = Ok tt) as ->.
  { unfold REQUEST_ID, Control.string_ in *. apply raise_if_ok in Hok. by rewrite Hok. }
  cbn [rbind]. rewrite Hr. unfold compare_digest_str. rewrite Ha. cbn [andb rbind].
  by rewrite (proj2 (str_eqb_eq id id) eq_refl).
Qed.

Lemma answers_intro a d r id (status : string) : workspace_action a = true -> requested d id -> dget r $"request_id" = Some (PStr id) ->
  dget r $"protocol_version" = Some (PInt 1) -> dget r $"status" = Some (PStr (ustr status)) -> keys_equal (dkeys r) (names (response_fields a)) = true ->
  str_eqb (ustr status) $"ERROR" = false -> check_status a (PStr (ustr status)) = Ok tt -> response_checks a r (PStr (ustr status)) = Ok tt -> answers a d r.
Proof.
  intros Ha (Hid & Hok & _) Hr Hv Hs Hk Hne Hst Hck. unfold answers, validate_response. rewrite Hid, (expect_same r id Hr Hok). cbn [rbind].
  assert (action_of (ustr (action_name a)) = Some a) as -> by (by destruct a). rewrite Hs. cbn [default from_option Datatypes.id]. cbv zeta. unfold Control.is_str. rewrite Hne.
  assert (bool_decide (a = PREPARE) = false) as -> by (by destruct a). cbn [andb].
  assert (response_common r (response_fields a) = Ok tt) as ->.
  { unfold response_common, require_keys. rewrite Hk. cbn [negb raise_if rbind]. unfold item at 1. rewrite Hv. cbn [rbind].
    change (version_1 (Some (PInt 1))) with (Ok tt). cbn [rbind check_fields]. unfold item. rewrite Hr. cbn [rbind]. rewrite Hok. cbn [rbind]. rewrite Hs. cbn [rbind].
    unfold Control.is_str. by rewrite Hne. }
  cbn [rbind]. rewrite Hst. cbn [rbind]. by rewrite Hck.
Qed.

(** *** The answers of the handlers *)

Lemma state_ok (s : pystr) (l : list string) (m k : string) : text_in s l = true -> one_of l m k (PStr s) = Ok tt.
Proof. unfold one_of, in_set, text_in. cbn [rbind]. by intros ->. Qed.

Lemma process_ok (s : pystr) : text_in s LIFECYCLE_PROCESS = true -> text_in s PROCESS_STATES = true.
Proof.
  unfold text_in. rewrite !str_in_elem. revert s. apply Forall_forall. repeat (apply Forall_cons; split); try apply Forall_nil_2; by apply str_in_elem.
Qed.

End Responses.

(** A response of given fields passes the checks of the protocol: the fields of the
    request were checked already. *)
Ltac passing := repeat (apply Forall_cons; split); try apply Forall_nil_2;
  (eexists; split; [reflexivity | first [eassumption | eapply passes_item; [eassumption | eassumption] | by apply state_ok]]).

Section Kinds.
Context `{Unicode}.
Implicit Types (a : action) (d r : pydict) (id : pystr) (o : Observation).

(** What a response of the registry holds *)
Lemma respond_shape d id (status : string) (keys : list string) (fields r : pydict) : requested d id -> respond d status keys fields = Ok r ->
  exists vs, Forall2 (fun k v => item d k = Ok v) keys vs
    /\ r = ($"protocol_version", PInt 1) :: ($"request_id", PStr id) :: ($"status", PStr (ustr status)) :: zip (map ustr keys) vs ++ fields.
Proof.
  intros (Hrid & _) E. apply respond_ok in E as (rid & vs & Hid & Hvs & ->). unfold item in Hid. rewrite Hrid in Hid. apply Ok_inj in Hid as <-. by exists vs.
Qed.

(** A status of the action that is no error *)
Definition status_ok a (status : string) : Prop := str_eqb (ustr status) $"ERROR" = false /\ check_status a (PStr (ustr status)) = Ok tt.

End Kinds.

(** The response to a request is taken apart; what is left are the checks of its
    fields. *)
Ltac take_response a status :=
  match goal with Hq : requested ?d ?id, E : respond _ _ _ _ = Ok _ |- _ =>
    apply (respond_shape d id) in E as (? & E & ->); [| exact Hq];
    repeat (apply Forall2_cons_inv_l in E as (? & ? & ? & E & ->)); apply Forall2_nil_inv_l in E as ->;
    let Hp := fresh "Hp" in pose proof Hq as (_ & _ & Hp); unfold workspace_checks in Hp; rewrite !Forall_cons in Hp; destruct Hp as (? & ? & ? & ? & ? & ? & ? & ? & _);
    apply (answers_intro a d _ id status); [reflexivity | exact Hq | reflexivity | reflexivity | reflexivity | reflexivity | assumption | assumption |]
  end.

Section Kinds.
Context `{Unicode}.
Implicit Types (a : action) (d r : pydict) (id : pystr) (o : Observation).

Lemma start_answers d id o (status : string) r : requested d id -> text_in (ob_state o) STATES = true -> status_ok START status ->
  start_response d o status = Ok r -> answers START d r.
Proof.
  intros Hq Ho [? ?] E. unfold start_response in E. take_response START status.
  cbn [response_checks]. rewrite passes_fields by (cbn [app identity_checks]; passing). cbn [rbind]. rewrite passes_fields by passing. cbn [rbind].
  apply passes_fields. passing.
Qed.

Lemma stop_answers d id o (status : string) r : requested d id -> text_in (ob_state o) STATES = true -> status_ok STOP status ->
  stop_response d o status = Ok r -> answers STOP d r.
Proof.
  intros Hq Ho [? ?] E. unfold stop_response in E. take_response STOP status.
  cbn [response_checks]. rewrite passes_fields by (cbn [app identity_checks]; passing). cbn [rbind]. apply passes_fields. passing.
Qed.

(** An observation that was checked against an epoch of 64 bits *)
Lemma validated (epoch : pystr) o : validate_observation epoch o = Ok tt -> text_in (ob_state o) STATES = true
  /\ text_in (ob_reconciliation o) RECONCILIATION_STATES = true /\ text_in (ob_process o) PROCESS_STATES = true /\ ob_epoch o = PStr epoch
  /\ exit_code_ "exit_code" (ob_exit_code o) = Ok tt.
Proof.
  unfold validate_observation. intros E. apply rbind_ok in E as ([] & H1%raise_if_ok%negb_false_iff & E). apply rbind_ok in E as ([] & H2%raise_if_ok%negb_false_iff & E).
  apply rbind_ok in E as ([] & _ & E). apply rbind_ok in E as ([] & H3%raise_if_ok%negb_false_iff & E). apply rbind_ok in E as ([] & _ & E).
  apply rbind_ok in E as ([] & _ & E). apply rbind_ok in E as ([] & H4 & E). split; [done |]. split; [done |]. split; [by apply process_ok |]. split.
  - destruct (ob_epoch o) as [| | | | e | | |]; try done. apply rbind_ok in H4 as ([] & _ & H4%raise_if_ok%negb_false_iff%str_eqb_eq). by subst.
  - unfold exit_code_. destruct (ob_exit_code o); try done. apply raise_if_ok in E. by rewrite E.
Qed.

Lemma status_answers d id (epoch : pystr) o r : requested d id -> u64 "runtime_epoch" (PStr epoch) = Ok tt -> validate_observation epoch o = Ok tt ->
  status_response d o = Ok r -> answers STATUS d r.
Proof.
  intros Hq He Hv E. apply validated in Hv as (H1 & H2 & H3 & H4 & H5). unfold status_response in E. rewrite H4 in E.
  assert (status_ok STATUS "STATUS") as [? ?] by done. take_response STATUS "STATUS"%string.
  cbn [response_checks]. rewrite passes_fields by (cbn [app identity_checks]; passing). cbn [rbind states_ map]. unfold states_. cbn [map].
  rewrite passes_fields by passing. cbn [rbind]. apply passes_fields. passing.
Qed.

(** A reconciliation: what it finds, or that the workspace is in quarantine *)
Lemma reconciliation_answers d id (status : string) (state reconciliation epoch : pystr) r : requested d id -> u64 "runtime_epoch" (PStr epoch) = Ok tt ->
  status_ok RECONCILE status -> text_in state STATES = true -> text_in reconciliation RECONCILIATION_STATES = true ->
  respond d status ["workspace_id"; "project_id"; "agent_type"; "generation"; "binding_revision"; "binding_digest"]%string
    [($"runtime_epoch", PStr epoch); ($"state", PStr state); ($"reconciliation_state", PStr reconciliation)] = Ok r -> answers RECONCILE d r.
Proof.
  intros Hq He [? ?] Hs Hr E. take_response RECONCILE status.
  cbn [response_checks]. rewrite passes_fields by (cbn [app identity_checks]; passing). cbn [rbind]. unfold states_. cbn [map]. apply passes_fields. passing.
Qed.

Lemma reconcile_answers d id (epoch : pystr) o r : requested d id -> u64 "runtime_epoch" (PStr epoch) = Ok tt -> validate_observation epoch o = Ok tt ->
  reconcile_response d o = Ok r -> answers RECONCILE d r.
Proof.
  intros Hq He Hv. apply validated in Hv as (H1 & H2 & _ & H4 & _). unfold reconcile_response. rewrite H4. cbv zeta. apply (reconciliation_answers d id); try done.
  by repeat case_match.
Qed.

Lemma quarantine_answers d id (epoch : pystr) r : requested d id -> u64 "runtime_epoch" (PStr epoch) = Ok tt ->
  quarantine_response d epoch = Ok r -> answers RECONCILE d r.
Proof. intros Hq He. by apply (reconciliation_answers d id). Qed.

Lemma fingerprint_ok (s : pystr) : match_hex 64 s = true -> DIGEST "executable_fingerprint" (PStr s) = Ok tt.
Proof. intros Hs. unfold DIGEST, Control.string_. rewrite Hs. by destruct s. Qed.

Lemma evidence_answers d id (epoch fingerprint : pystr) r : requested d id -> u64 "runtime_epoch" (PStr epoch) = Ok tt -> match_hex 64 fingerprint = true ->
  respond d "EXECUTABLE_EVIDENCE"
    ["workspace_id"; "project_id"; "agent_type"; "generation"; "binding_revision"; "binding_digest"; "runtime_host_installation_id";
     "runtime_host_installation_revision"]%string
    [($"runtime_epoch", PStr epoch); ($"executable_fingerprint", PStr fingerprint)] = Ok r -> answers EVIDENCE d r.
Proof.
  intros Hq He Hf%fingerprint_ok E. assert (status_ok EVIDENCE "EXECUTABLE_EVIDENCE") as [? ?] by done. take_response EVIDENCE "EXECUTABLE_EVIDENCE"%string.
  cbn [response_checks]. apply passes_fields. cbn [app identity_checks]. passing.
Qed.

End Kinds.

(** ** The epoch of a process *)

Section Epoch.
Context `{Unicode} `{Rfc8785} (e : pystr).

Definition in_epoch (h : Host) : Prop := rg_epoch (registry h) = e.

Lemma epoch_ask : maintains in_epoch ask.
Proof. by intros h Hh evs. Qed.

Lemma epoch_modify (f : Registry -> Registry) : (forall r, rg_epoch (f r) = rg_epoch r) -> maintains in_epoch (modify f).
Proof. intros Hf h Hh evs. unfold in_epoch. cbn. by rewrite Hf. Qed.

Lemma epoch_folder {A} (m : io Folder A) : maintains in_epoch (on_folder m).
Proof. intros h Hh evs. unfold on_folder. by destruct (m (folder h) evs). Qed.

Lemma epoch_world {A} (m : io World A) : maintains in_epoch (on_world m).
Proof. intros h Hh evs. unfold on_world. by destruct (m (world h) evs). Qed.

Lemma epoch_executor (b : ProjectBinding) : maintains in_epoch (register_executor b).
Proof. intros h Hh evs. unfold register_executor. by destruct (executor h). Qed.

Lemma epoch_fence (b : bool) (r : Registry) : rg_epoch (fence_inventory b r) = rg_epoch r.
Proof. unfold fence_inventory. by destruct (finalize_required r). Qed.

Lemma epoch_replay_bindings (values : list DurableBinding) (found : gmap pystr DurableBinding) : maintains in_epoch (replay_bindings values found).
Proof.
  pose proof epoch_ask. pose proof (@epoch_world). pose proof epoch_executor. revert found. induction values as [| b values IH]; intros found; cbn [replay_bindings]; keep.
Qed.

Lemma epoch_perform (store : BindingStore) (env : Sights) (op : host_op) : maintains in_epoch (perform_op store env op).
Proof.
  pose proof epoch_ask. pose proof (@epoch_world). pose proof (@epoch_folder). pose proof epoch_executor. pose proof epoch_replay_bindings.
  assert (F : forall b, maintains in_epoch (modify (fence_inventory b))) by (intros b; apply epoch_modify; intros r; apply epoch_fence).
  assert (M : forall f, (forall r, rg_epoch (f r) = rg_epoch r) -> maintains in_epoch (modify f)) by apply epoch_modify.
  assert (maintains in_epoch require_authority) by (unfold require_authority; keep).
  destruct op; cbn [perform_op]; unfold require_dispatch_open, bind, clear_peer_authority, register, hydrate, register_digest, register_new, register_current, register_fenced,
    replay_inventory, finalize, open_gate, close_gate, begin_shutdown; keep; try (apply M; intros r1; repeat case_match; reflexivity).
Qed.

End Epoch.

(** ** The handlers answer as the protocol asks *)

Section Handlers.
Context `{Unicode} `{Rfc8785Laws} (ports : Ports) (h : Host) (c : list (pystr * (pystr * pydict))).
Implicit Types (a : action) (d r : pydict) (id : pystr) (i : Identity) (o : Observation) (m : Machine).

(** A computation whose value, if any, is an answer *)
Definition only_answers a d (x : result pydict) : Prop := forall r, x = Ok r -> answers a d r.

Definition no_result {A} (x : result A) : Prop := forall v, x <> Ok v.

Lemma cwp_any {D A} (m : io D A) s : cwp m (fun _ _ => True) (fun _ => True) s.
Proof. intros evs. by destruct (m s evs). Qed.

Lemma cwp_then {D A B} (m : io D A) (k : A -> io D B) (Q : D -> result B -> Prop) s :
  (forall s1 e, Q s1 (Raise e)) -> (forall s1 v, cwp (k v) Q (fun _ => True) s1) -> cwp (io_bind m k) Q (fun _ => True) s.
Proof. intros HE HK. apply cwp_bind. eapply cwp_mono; [apply cwp_any |]. cbn beta. intros s1 [v | e] _; [apply HK | apply HE]. Qed.

(** A failed question has no answer. *)
Lemma invoke_failed_raises {A} a i (e : exn) m : cwp (invoke_failed (A := A) ports a i e) (fun _ x => no_result x) (fun _ => True) m.
Proof.
  apply cwp_self. destruct a; try (by apply cwp_raise).
  - apply cwp_then; [done |]. intros s1 []. by apply cwp_raise.
  - destruct (given _); [| by apply cwp_raise]. do 2 (apply cwp_then; [done |]; intros ? []). by apply cwp_raise.
Qed.

Context (d : pydict) (id : pystr) (Hd : requested d id) (He : u64 "runtime_epoch" (PStr (rg_epoch (registry h))) = Ok tt).

Lemma conclude_answers a i o (retry : bool) m : a ∈ [START; STOP; STATUS; RECONCILE] -> validate_observation (rg_epoch (registry h)) o = Ok tt ->
  cwp (conclude a d i o retry) (fun _ x => only_answers a d x) (fun _ => True) m.
Proof.
  intros Ha Ho. pose proof (validated_state _ o tt Ho) as Hs. apply cwp_then; [done |]. intros s1 []. apply cwp_then; [done |]. intros s2 [].
  destruct a; try (exfalso; set_solver).
  - apply cwp_then; [done |]. intros s3 []. apply cwp_lift. intros r. by apply (start_answers d id).
  - apply cwp_lift. intros r. apply (stop_answers d id); [done | done |]. by destruct (str_eqb _ _).
  - apply cwp_lift. intros r. by apply (status_answers d id (rg_epoch (registry h))).
  - apply cwp_lift. intros r. by apply (reconcile_answers d id (rg_epoch (registry h))).
Qed.

Lemma execute_answers a i (retry : bool) m : a ∈ [START; STOP; STATUS; RECONCILE] -> rests h c m ->
  cwp (execute ports a d i retry) (fun _ x => only_answers a d x) (fun _ => True) m.
Proof.
  intros Ha Hm. apply cwp_self, cwp_bind, cwp_raise_if; [done |]. intros _. apply cwp_bind.
  eapply cwp_conseq; [by apply (reserve_rests ports h c) | done |]. cbn beta. intros m1 [[] | e] H1; [| done].
  apply cwp_bind, cwp_attempt. eapply cwp_conseq; [apply (invoke_spec ports (rests h c) (framed_rests h c) a i m1); [by intros _ | done] | done |]. cbn beta.
  intros m2 x [_ Ho]. destruct x as [o | e].
  - apply cwp_then; [done |]. intros m3 record. apply cwp_then; [done |]. intros m4 []. apply conclude_answers; [done |]. destruct H1 as [<- _]. by apply Ho.
  - eapply cwp_mono; [apply invoke_failed_raises |]. cbn beta. intros m3 x Hx r ->. by destruct (Hx r).
Qed.

(** What is known without the executor *)
Lemma check_current_answers a i m : a ∈ [START; STOP; STATUS; RECONCILE] -> remembers m ->
  cwp (check_current ports a d i) (fun _ x => forall r, x = Ok (Answered r) -> answers a d r) (fun _ => True) m.
Proof.
  intros Ha Hm. assert (Hs : forall c o, lc_workspaces (life m) !! li_workspace i = Some (c, o) -> text_in (ob_state o) STATES = true)
    by (intros c1 o Hc; by destruct (Hm _ _ _ Hc) as [_ [_ ?]]).
  apply cwp_self. destruct a; try (exfalso; set_solver).
  - apply cwp_bind, cwp_lift. destruct (check_current_start _ _ _ _) as [[r |] | e] eqn:E; [apply cwp_ret | | done].
    + intros r1 [= <-]. unfold check_current_start in E. destruct (lc_workspaces (life m) !! li_workspace i) as [[c1 o] |] eqn:Ec; [| done].
      do 3 apply rbind_ok in E as ([] & _ & E). destruct (running o); [| done]. apply rbind_ok in E as (r1 & E1 & [= ->]%Ok_inj).
      by apply (start_answers d id o "ALREADY_RUNNING"); [| by apply (Hs c1) | |].
    + apply cwp_then; [done |]. intros s1 []. by apply cwp_ret.
  - destruct (lc_workspaces (life m) !! li_workspace i) as [[c1 o] |] eqn:Ec; [| by apply cwp_raise]. apply cwp_then; [done |]. intros s1 [].
    destruct (_ && _); [| by apply cwp_ret]. apply cwp_then; [done |]. intros s2 []. apply cwp_bind, cwp_lift. destruct (stop_response _ _ _) as [r |] eqn:E; [| done].
    apply cwp_ret. intros r1 [= <-]. by apply (stop_answers d id o "ALREADY_STOPPED"); [| by apply (Hs c1) | |].
  - destruct (lc_workspaces (life m) !! li_workspace i) as [[c1 o] |]; [| by apply cwp_raise]. apply cwp_then; [done |]. intros s1 []. by apply cwp_ret.
  - destruct (lc_workspaces (life m) !! li_workspace i) as [[c1 o] |]; [| by apply cwp_raise]. apply cwp_then; [done |]. intros s1 []. by apply cwp_ret.
Qed.

Lemma lifecycle_answers a m : a ∈ [START; STOP; STATUS; RECONCILE] -> remembers m -> rests h c m ->
  cwp (lifecycle ports a d) (fun _ x => only_answers a d x) (fun _ => True) m.
Proof.
  intros Ha Hm0 Hm1. pose proof (framed_and _ _ framed_remembers (framed_rests h c)) as HJ. set (J := fun m => remembers m /\ rests h c m) in HJ.
  assert (HJm : J m) by done. clear Hm0 Hm1.
  apply cwp_bind. eapply cwp_conseq; [by apply (keeps_authority J) | done |]. cbn beta. clear m HJm. intros m [[] | e] Hm; [| done].
  apply cwp_bind, cwp_raise_if; [done |]. intros _. apply cwp_bind, cwp_lift. destruct (request_identity d) as [i |]; [| done].
  apply cwp_bind. eapply cwp_conseq; [by apply (hydrate_floor_keeps ports J HJ) | done |]. cbn beta. clear m Hm. intros m [[] | e] Hm; [| done].
  apply cwp_bind. eapply cwp_conseq; [by apply (check_identity_keeps J) | done |]. cbn beta. clear m Hm. intros m [[] | e] Hm; [| done].
  apply cwp_bind. eapply cwp_conseq; [by apply (screen_keeps ports J HJ) | done |]. cbn beta. clear m Hm. intros m [[] | e] Hm; [| done].
  apply cwp_self, cwp_bind. apply (cwp_conseq _ (fun m1 _ => J m1) _ J); [| done |].
  { case_match; [by apply (recover_persisted_keeps ports J HJ) | by apply cwp_ret]. }
  clear m Hm. intros m [[] | e] Hm; [| done]. apply cwp_self, cwp_inventory.
  destruct (bool_decide (a = RECONCILE) && quarantined (li_workspace i) (life m)) eqn:E.
  - apply andb_true_iff in E as [->%bool_decide_eq_true _]. apply cwp_lift. intros r. apply (quarantine_answers d id); [done |]. destruct Hm as [_ [-> _]]. done.
  - cbv zeta. apply cwp_bind, cwp_raise_if; [done |]. intros _. apply cwp_bind.
    eapply cwp_conseq; [apply cwp_both; [by apply (check_current_keeps ports J HJ) | apply check_current_answers; [done | apply Hm]] | done |]. cbn beta.
    intros m1 x [H1 Hx]. destruct x as [[r |] | e]; [| | done].
    + apply cwp_ret. intros r1 [= <-]. by apply Hx.
    + apply execute_answers; [done | apply H1].
Qed.

Lemma evidence_only_answers m : rests h c m -> cwp (executable_evidence ports d) (fun _ x => only_answers EVIDENCE d x) (fun _ => True) m.
Proof.
  intros Hm. apply cwp_bind. eapply cwp_conseq; [by apply (keeps_authority (rests h c)) | done |]. cbn beta. clear m Hm. intros m [[] | e] Hm; [| done].
  apply cwp_inventory. destruct Hm as [-> _]. apply cwp_then; [done |]. intros m1 []. apply cwp_then; [done |]. intros m2 i.
  do 2 (apply cwp_then; [done |]; intros ? []). apply cwp_then; [done |]. intros m5 l. apply cwp_then; [done |]. intros m6 [].
  destruct (if lc_executor l then _ else _) as [provider |]; [| by apply cwp_raise]. apply cwp_then; [done |]. intros m7 x. apply cwp_then; [done |]. intros m8 v.
  destruct v as [| | | | f | | |]; try (by apply cwp_raise). apply cwp_bind, cwp_raise_if; [done |]. intros Hf%negb_false_iff. apply cwp_lift. intros r.
  by apply (evidence_answers d id).
Qed.

End Handlers.

(** ** Along a history *)

Section Histories.
Context `{Unicode} `{Rfc8785Laws}.
Implicit Types (a : action) (d r : pydict) (m : Machine).

Definition epoch_valid m : Prop := u64 "runtime_epoch" (PStr (rg_epoch (registry (host m)))) = Ok tt.

Lemma framed_epoch : framed epoch_valid.
Proof. split; try done. intros m store env expected empty Hm evs. by destruct (recover_epoch _ _ _ _ _ evs). Qed.

Lemma handler_epoch (ports : Ports) a d : maintains epoch_valid (if bool_decide (a = EVIDENCE) then executable_evidence ports d else lifecycle ports a d).
Proof.
  intros m Hm. assert (K : maintains (rests (host m) (lc_cache (life m))) (if bool_decide (a = EVIDENCE) then executable_evidence ports d else lifecycle ports a d))
    by (case_bool_decide; [apply evidence_rests | apply lifecycle_rests]).
  eapply cwp_conseq; [by apply K | |]; cbn beta; unfold epoch_valid; [intros m1 [-> _] | intros m1 x [-> _]]; done.
Qed.

Lemma perform_epoch (ports : Ports) (op : machine_op) : maintains epoch_valid (perform_machine ports op).
Proof.
  pose proof framed_epoch as HF. pose proof (handler_epoch ports). assert (C : forall f, maintains epoch_valid (change f)) by (intros f; by apply keeps_change).
  destruct op as [a d | id f r | g rev digest | i | store env op]; cbn [perform_machine]; [unfold dispatch; keep | keep | by apply acknowledge_cleanup_keeps | apply C |].
  apply keeps_bind; [| intros []; destruct op; by (apply keeps_ret || apply C)]. intros m Hm. apply cwp_zoom.
  eapply cwp_conseq; [by apply (epoch_perform (rg_epoch (registry (host m)))) | |]; cbn beta; unfold in_epoch, epoch_valid; [intros h1 E | intros h1 x E]; cbn; by rewrite E.
Qed.

Lemma fold_digits_positive (s : pystr) (n : Z) : forallb is_digit s = true -> 1 <= n -> 1 <= fold_left (fun acc c => acc * 10 + (c - 48)) s n.
Proof.
  revert n. induction s as [| x s IH]; intros n Hs Hn; [done |]. cbn in *. apply andb_true_iff in Hs as [Hx Hs]. apply IH; [done |]. unfold is_digit, in_range in Hx. lia.
Qed.

Lemma positive_decimal (s : pystr) : match_pos_decimal s = true -> 1 <= digits_value s.
Proof.
  destruct s as [| x s]; [done |]. cbn [match_pos_decimal]. intros Hs. apply andb_true_iff in Hs as [Hs _]. apply andb_true_iff in Hs as [Hx Hs].
  unfold digits_value. cbn [fold_left]. apply fold_digits_positive; [done |]. unfold is_nonzero_digit, in_range in Hx. lia.
Qed.

Lemma new_epoch (h : Host) (l : Lifecycle) (fd gd : Folder) (n : nat) (log : list (question * Folder)) : new_process h l -> epoch_valid (mkMachine h l fd gd n log).
Proof.
  intros [(name & revision & epoch & resources & E) _]. unfold new_registry in E. apply rbind_ok in E as ([] & H1%raise_if_ok%negb_false_iff & E).
  apply rbind_ok in E as ([] & H2%raise_if_ok & E). apply Ok_inj in E. unfold epoch_valid. cbn [host]. rewrite <- E. cbn [rg_epoch].
  pose proof (positive_decimal epoch H1). unfold u64, decimal_u64, match_decimal. rewrite H1, orb_true_r, H2. cbn [negb raise_if rbind orb andb].
  by destruct (Z.eqb_spec (digits_value epoch) 0); [lia |].
Qed.

Lemma lived_epoch m : lived m -> epoch_valid m.
Proof.
  induction 1 as [h l Hn | m ports op evs m1 rest r _ IH E | m m1 h l fd gd _ _ _ Hn _ _]; [by apply new_epoch | | by apply new_epoch].
  pose proof (perform_epoch ports op m IH evs) as Hp. by rewrite E in Hp.
Qed.

(** What a handler returns is a response of the protocol. *)
Lemma handlers_accepted (ports : Ports) m a d r evs m1 rest : lived m -> validate_request d = Ok d -> dget d $"action" = Some (PStr (ustr (action_name a))) ->
  workspace_action a = true -> (if bool_decide (a = EVIDENCE) then executable_evidence ports d else lifecycle ports a d) m evs = Ran m1 rest (Ok r) ->
  validate_response r (ustr (action_name a)) (dget d $"request_id") = Ok r.
Proof.
  intros Hm Hv Ha Hw E. destruct (request_requested a d d Hv Ha Hw) as (id & Hd). pose proof (lived_epoch m Hm) as He. pose proof (lived_sound m Hm) as (_ & Hr & _).
  assert (K : cwp (if bool_decide (a = EVIDENCE) then executable_evidence ports d else lifecycle ports a d) (fun _ x => only_answers a d x) (fun _ => True) m).
  { case_bool_decide as Ea; [subst a; by apply (evidence_only_answers ports (host m) (lc_cache (life m)) d id) |].
    apply (lifecycle_answers ports (host m) (lc_cache (life m)) d id); [done | done | | done | done]. apply bool_decide_eq_true in Hw. set_solver. }
  specialize (K evs). rewrite E in K. by apply K.
Qed.

(** C13: whatever a machine has been through, and whatever the executor and the
    operating system answer, a valid request to start, stop, observe or reconcile a
    workspace or for its executable evidence that is not yet in the cache, if
    [dispatch] answers it at all, is answered with a response that the protocol's own
    check accepts for this action and this request id: it has exactly the fields of
    the action, its states are states of the protocol and its epoch is a positive
    number of 64 bits. *)
Theorem responses_accepted (ports : Ports) m a d id r evs m1 rest : lived m -> validate_request d = Ok d ->
  dget d $"action" = Some (PStr (ustr (action_name a))) -> workspace_action a = true ->
  dget d $"request_id" = Some (PStr id) -> cached id (life m) = None -> dispatch ports a d m evs = Ran m1 rest (Ok r) ->
  validate_response r (ustr (action_name a)) (Some (PStr id)) = Ok r.
Proof.
  intros Hm Hv Ha Hw Hid Hc E. destruct (dispatch_fresh ports a d id r m evs m1 rest Hid Hc E) as [_ (m2 & rest2 & Eh)]. rewrite <- Hid.
  by apply (handlers_accepted ports m a d r evs m2 rest2).
Qed.

End Histories.

(** ** Concrete runs *)

#[local] Existing Instance printed_rfc8785.

(** An outcome and the machine it leaves *)
Definition returned {A} (o : outcome Machine A) : option A := match o with Ran _ [] (Ok v) => Some v | _ => None end.

Lemma returned_ran {A} (o : outcome Machine A) (v : A) : returned o = Some v -> o = Ran (machine_after o) [] (Ok v).
Proof. destruct o as [| m [|] [w |]]; try done. by intros [= ->]. Qed.

(** The status of generation 2 *)
Definition status_request : pydict := workspace_request STATUS (repeat 52 32) $"2".
Definition status_dispatched : outcome Machine pydict := dispatch calm_ports STATUS status_request sample_machine [].
Definition status_answer : pydict := Eval vm_compute in default [] (returned status_dispatched).

Lemma status_valid : validate_request status_request = Ok status_request.
Proof. vm_compute. reflexivity. Qed.

Lemma status_fresh : cached ($"wreq_" ++ repeat 52 32) (life sample_machine) = None.
Proof. vm_compute. reflexivity. Qed.

Lemma status_returned : returned status_dispatched = Some status_answer.
Proof. vm_compute. reflexivity. Qed.

Lemma status_ran : dispatch calm_ports STATUS status_request sample_machine [] = Ran (machine_after status_dispatched) [] (Ok status_answer).
Proof. exact (returned_ran status_dispatched status_answer status_returned). Qed.

Lemma responses_accepted_witness : validate_response status_answer $"workspace.workspace.status" (dget status_request $"request_id") = Ok status_answer.
Proof.
  exact (responses_accepted calm_ports sample_machine STATUS status_request _ status_answer [] (machine_after status_dispatched) [] sample_lived status_valid
    eq_refl eq_refl eq_refl status_fresh status_ran).
Defined.

(** The status is asked for, generation 2 is stopped, and the first request comes
    once more. *)
Definition stop_second : machine_op := Dispatch STOP (workspace_request STOP (repeat 53 32) $"2").
Definition stop_dispatched : outcome Machine unit := perform_machine calm_ports stop_second (machine_after status_dispatched) [].




Example status_repeated : returned (dispatch calm_ports STATUS status_request (machine_after stop_dispatched) []) = Some status_answer.
Proof. vm_compute. reflexivity. Qed.

(** After the caches of the peer were cleared the request is no longer known. *)
Example cleared_forgets : cached ($"wreq_" ++ repeat 52 32)
  (life (machine_after (perform_machine calm_ports (OnInventory heads_store (heads_env 49) HClear) (machine_after status_dispatched) []))) = None.
Proof. vm_compute. reflexivity. Qed.
